(* ===== verification/_CoqProject ===== *)
-Q . S2P
Prelude.v
CLib.v
RzbList.v
RzbListProps.v
ListM.v
Hash.v
LibUuid.v
Uuids.v
Ntlv.v
Blocks.v
JsonC.v
JsonBuffer.v
Metadata.v
JsonCodec.v
JsonNtlv.v
JsonObjects.v
JsonSafety.v
JsonProps.v
LocalCache.v
Arc.v
LocalCacheProps.v
CacheThms.v
ConfigFile.v
RuntimeConfig.v
ConfigThms.v
BlockPool.v
BlockPoolProps.v
PoolThms.v
JsonText.v
Messages.v
MessageCodecs.v
CncMessages.v
MessageProps.v
MessageThms.v
CncThms.v
MessageSafety.v
Entities.v
EntitiesProps.v
EntityThms.v
Transfer.v
TransferProps.v
TransferThms.v
Submission.v
SubmissionProps.v
SubmissionRuns.v
SubmissionThms.v
Command.v
CommandProps.v
CommandThms.v
Queue.v
QueueProps.v
QueueRuns.v
QueueGet.v
QueueSend.v
QueueThms.v
QueueWire.v
QueueOpen.v
QueueLists.v
Inspection.v
InspectionProps.v
InspectionThreads.v
InspectionRuns.v
InspectionThms.v
InspectionLaunch.v
