(* ===== verification/Prelude.v ===== *)
(** * The Razorback API: a verification development

    The Razorback API is the C library that the nuggets of a Razorback system
    link against: collectors submit blocks of data, inspectors judge them, and the
    dispatcher, the inspectors and the output nuggets exchange events, blocks,
    judgments and metadata as JSON messages over queues.  This library models the
    core of it: the container every component keeps its state in, the values the
    messages carry, the serialization of those values, the messages themselves, the
    cache of known blocks, the pool of blocks that are being collected, the table of
    the other nuggets, the transfer of blocks to the dispatcher, the submission of
    blocks, the command and control of a nugget, the queues over which it talks to
    the message broker and the inspection of blocks.

    A collector fills a block of the pool and submits it: the hash is looked up in
    the local cache, on a miss the dispatcher is asked over a queue, and a block
    nobody knows is transferred and its submission sent.  Command and control is the
    thread that keeps the nugget registered: it receives the messages of the
    dispatchers, dispatches them to the contexts of the nugget, updates the table of
    the connected nuggets and the registries of identifiers, and clears the caches.

    An inspector has one receiver, which takes submissions from its queue and later
    acknowledges them, and a pool of workers, which fetch the block of a submission from
    a dispatcher, call the code of the inspector and send its judgment.

    ** Parts and files

    - [Prelude], [CLib]: machine integers with their wrap-around, the monad of
      fallible code, C strings and the functions of the C library the sources use
      ([strtoumax], [sscanf], [printf] conversions, [strcmp], [memcpy]).
    - [RzbList], [RzbListProps]: src/list.c.  A list is a record with the fields of
      [struct _List]; its nodes live in a finite map from addresses, so that
      [next], [prev], [head] and [tail] are pointers that can dangle, and following
      a dangling pointer is a crash.  [rep] is the well-formedness invariant (a
      doubly linked chain with the right ends and length) and [contents] abstracts
      a list to the sequence of its items.  Callbacks (comparators, destructors,
      clones, node locks) are functions on a state of the program they may read
      and change.
    - [ListM]: the list operations inside the monad, the interface the clients of
      the list use.
    - [Hash]: src/hash.c over OpenSSL's digests (class [EVP], laws [EVPLaws]).
    - [LibUuid], [Uuids]: libuuid (class [LibUuid]) and src/uuids.c.
    - [Ntlv]: src/ntvl.c and src/string_list.c.
    - [Blocks]: the structures of include/razorback/types.h and src/block_id.c,
      src/block.c, src/event.c, src/judgment.c.
    - [JsonC], [JsonBuffer]: json-c, the base64 filter of OpenSSL and inet_ntop and
      inet_pton (classes [JsonC], [Base64], [Inet]) and src/json_buffer.c.
    - [Metadata]: src/metadata.c over the metadata lists.
    - [JsonCodec], [JsonNtlv], [JsonObjects], [JsonSafety], [JsonProps]: what each
      serializer writes ([encodes]) and what each reader makes of it, that readers
      do not crash, and the theorems about src/json_buffer.c.
    - [LocalCache], [Arc], [LocalCacheProps], [CacheThms]: src/local_cache.c with its
      slot array, links, end pointers and counters, adaptive replacement on
      sequences as its specification, and the refinement between the two.
    - [BlockPool], [BlockPoolProps], [PoolThms]: src/block_pool.c and the detection
      of data types in src/fantasia.c over libmagic (class [Magic]).  The pool, its
      items, the files and the mutex are a [World] that operations transform; an
      operation crashes, deadlocks or returns.
    - [JsonText]: the texts of json-c (class [JsonText]) with its nesting limit.
    - [Messages], [MessageCodecs], [CncMessages]: src/messages.  A message has the
      fields of [struct Message]; its body is one of fifteen structures.  A
      function on a message is a [Call]: it returns a status and the message it
      leaves behind.  A destructor yields the list of the parts it releases.
    - [MessageProps], [MessageThms], [CncThms], [MessageSafety]: what the functions
      of a message write and read, and the theorems about src/messages.
    - [Entities], [EntitiesProps], [EntityThms]: src/connected_entity.c and the
      registry of transports of src/transfer/core.c.  The entities live in a finite
      map by address, a listener is called by recording the call, and [holds]
      abstracts the table to a sequence of entities.
    - [Transfer], [TransferProps], [TransferThms]: src/transfer/core.c and
      src/transfer/file.c.  The file system is a finite map from paths, and the
      outcomes of the coming system calls are a list; of the SSH and HTTP clients
      only the descriptors that the registry holds are modelled.
    - [Submission], [SubmissionProps], [SubmissionRuns], [SubmissionThms]:
      src/submission.c over the pool, the cache, the messages, the table of nuggets
      and the transfer.  A thread is the sequence of the turns of its loop; the
      operations of different threads interleave.
    - [Command], [CommandProps], [CommandThms]: src/command_and_control.c and the
      contexts of src/api.c.  The hooks of a context are commands of a small monad
      over the state of the nugget; [wp] is its weakest precondition, and [serves]
      what the thread needs of a hook.
    - [Queue], [QueueProps], [QueueRuns], [QueueGet], [QueueSend], [QueueThms],
      [QueueWire], [QueueOpen]: src/queue.c over librabbitmq.  The library and the broker are a
      part of the state ([Net]): the outcomes of the coming calls, the deliveries and
      frames that come, what other threads do while a call waits, and the record of
      what was handed to the library; [alive] is the invariant between calls and
      [qstep] the steps of the life of a queue.  [QueueOpen] is the invariant
      in the form that the inspection uses.
    - [QueueLists]: src/queue_list.c, src/inspector_queue.c and src/response_queue.c,
      the registries of the queues by application type.
    - [Inspection], [InspectionProps]: src/inspection.c, the work on one message over
      the transfer, the table of nuggets and the messages; the code of the inspector and
      one attempt of a transport (class [FetchSafe]) are parameters, and the file
      transport discharges the class.
    - [InspectionThreads], [InspectionRuns], [InspectionThms]: its receiver, workers and
      shutdown as the turns of their loops over the lists, the flags and the queue; a run
      is any sequence of turns, and [books] the invariant that accounts for each message.
    - [InspectionLaunch]: its launch, the barrier of the workers and the order in which
      parts are destroyed.

    ** How code becomes definitions

    A definition has the name of the function it translates.  A pointer that may
    be NULL is an [option].  A function that allocates and returns a pointer or a
    status is a computation of the monad [M]: given the outcomes of the coming
    allocations ([allocs]; an exhausted list means success) it crashes ([None]),
    fails ([Some (None, _)]) or returns a value; a theorem for all [allocs] is a
    theorem about every pattern of memory exhaustion.  A serializer is a [Put]: a
    function from the JSON object it extends to its status and the extended
    object, which is kept also when the status is false.  The macro ASSERT is the
    empty statement it is without ENABLE_ASSERT.  Log calls are left out.  Memory
    that is only released has no counterpart, so destructors that do nothing else
    are the identity; the destructors of the messages are the exception.

    Loops over a list or an array run on fuel that the caller takes from the data
    (one unit per node, byte or entry), and the theorems show that the fuel is
    enough: a run never ends for lack of it.  The readers of the recursive
    structures, [JsonBuffer_Get_Block] and [JsonBuffer_Get_Event], take the fuel as
    an argument; the safety theorem shows that any fuel above the depth of the
    JSON value suffices, the round trips that any fuel above the depth of the
    structure does.  The messages call them with 32, the nesting limit of the
    parser, which is above the depth of everything it returns.

    Code outside the repository is a class of operations with a class of laws that
    state its documented behaviour; each has an instance ([toy], [bytes16], [tree],
    [hexcodec]) that satisfies the laws and in which the witnesses are evaluated.

    ** What the theorems show

    - Lists: every operation refines an operation on sequences, for every mode,
      limit, comparator and callback; iteration with deferred removal destroys
      exactly the marked items; under any interleaving of critical sections the
      chain stays well formed and no wake-up is lost.  The refinement also pins
      down that the queue mode is last in, first out.
    - Hashes: hashing a file yields the digest of its bytes; hashes and their texts
      correspond; equality is equality of digests.
    - UUID, metadata and string lists: lookups, insertion and sizes.
    - Metadata: what is added is found, and which getter returns the bytes of another
      item.
    - Blocks, events, judgments: equality, clones, texts and their lengths.
    - Serialization: events, blocks, judgments, metadata, ids and lists come back
      as they were, and exactly what is lost is stated; reading arbitrary JSON
      under arbitrary allocation failures never crashes; failures of allocation are
      reported, with the exceptions the code has.
    - Local cache: lookups and additions refine adaptive replacement, every state
      reached from the initial one is within its bounds, what is added is found;
      and what removal, clearing and a failed allocation break.
    - Block pool: the account of bytes is that of the live items in every reachable
      pool, no operation crashes or blocks there, what each operation does; and the
      calls that deadlock or crash outside the invariant.
    - Messages: what is sent is what is received, for every message; which messages
      are too deep to be received; deserialization of arbitrary texts returns and
      what it leaves is destroyed exactly once; the table of handlers and the
      addresses of messages; and the defects of two destructors and of the
      registration request.
    - Connected entities: what a hello and the timer do to the table, that every
      reachable table is well formed and nothing crashes in it, that a silent nugget
      is forgotten, which dispatcher a client gets, and the way of an announcement
      from the context of a dispatcher over the wire into that choice.

    - Transfer: what is stored under the name of a block is what is fetched; which
      transports are tried and how often; distinct blocks have distinct names; and
      the sizes and failing calls that are mistaken for success.
    - Submission: no reachable state crashes, each submission has one of the listed
      outcomes, an answer is remembered in the cache, the queue of finished blocks
      drains, abandoned requests end; the races the code has are stated.
    - Command and control: no message of a dispatcher crashes the thread, a message
      reaches exactly the contexts it is addressed to, registration decides, a
      configuration update moves the identifiers into the registries, shutting a
      context down removes it; and the defects of re-registration, of the start and
      of clearing the cache.
    - Queues: in every reachable state the open connections are those of the sockets,
      settlements are of deliveries of their own connection and are made once, every
      call returns, a message is published once or not at all and received as it was
      sent; and the settlement of another delivery and the overread of a header.
    - Queue registries: they refine maps from application types to queues, under any
      failures; and what a failed creation of the list breaks.
    - Inspection: the work on a message ends in one of the listed outcomes with every
      stream closed, and sends a judgment exactly when it says so; in every run of the
      threads each turn returns, each message is in one place or at its end, and no
      delivery is settled twice; a shutdown that ends has drained the inspector, with the
      one race that strands a message stated; the barrier of the launch; a launch that
      fails leaves nothing behind.

    ** What is not modelled

    The clients of external services (the SSH and HTTP transports, sockets, health,
    telemetry), configuration parsing, threads, locks, timers, logging and the daemon,
    which are calls to system libraries; the threads of output contexts, which call hooks
    of the nugget; two shutdowns of one inspector that run at the same time.

    This file holds the scopes, the integers, the monad and its tactics. *)

From Stdlib Require Export ZArith Lia Bool.
From stdpp Require Export base tactics gmap strings option numbers.
From stdpp Require Export list.

(** ** Scopes and notation *)

Declare Scope rzb_scope.
Delimit Scope rzb_scope with rzb.
Global Open Scope Z_scope.

(** Tests on C integers, as the boolean the C operator yields. *)
Notation "a == b" := (Z.eqb a b) (at level 70, no associativity) : rzb_scope.
Notation "a != b" := (negb (Z.eqb a b)) (at level 70, no associativity) : rzb_scope.
Global Open Scope rzb_scope.

(** ** Machine integers

    An unsigned C integer of width [w] is a [Z] in [[0, 2^w)]; every arithmetic
    operation of the source whose result may leave that range is wrapped. *)

Definition wrap (w x : Z) : Z := x mod 2 ^ w.
Definition u8 (x : Z) : Z := wrap 8 x.
Definition u16 (x : Z) : Z := wrap 16 x.
Definition u32 (x : Z) : Z := wrap 32 x.
Definition u64 (x : Z) : Z := wrap 64 x.

Definition in_width (w x : Z) : Prop := 0 <= x < 2 ^ w.

Global Instance in_width_dec w x : Decision (in_width w x).
Proof. unfold in_width. apply _. Defined.

Lemma wrap_small w x : in_width w x -> wrap w x = x.
Proof. unfold wrap, in_width. apply Z.mod_small. Qed.

Lemma wrap_range w x : 0 <= w -> in_width w (wrap w x).
Proof. intros. unfold wrap, in_width. apply Z.mod_pos_bound. lia. Qed.

Lemma wrap_wrap w x : wrap w (wrap w x) = wrap w x.
Proof. unfold wrap. apply Zmod_mod. Qed.

Lemma wrap_add_l w x y : wrap w (wrap w x + y) = wrap w (x + y).
Proof. unfold wrap. apply Zplus_mod_idemp_l. Qed.

Lemma wrap_sub_l w x y : wrap w (wrap w x - y) = wrap w (x - y).
Proof. unfold wrap. apply Zminus_mod_idemp_l. Qed.

(** ** Outcomes of calls to the allocator

    An [allocs] value is the list of the outcomes of the coming allocations;
    once it is exhausted allocations succeed. *)

Abbreviation allocs := (list bool).

Definition alloc_next (o : allocs) : bool * allocs :=
  match o with
  | [] => (true, [])
  | b :: o' => (b, o')
  end.

(** ** The monad of fallible C code

    A call either crashes ([None]: NULL or out-of-bounds access), fails (the
    NULL or [false] of the C function, [Some (None, o)]) or returns a value; it
    consumes the outcomes of the allocations it makes. *)

Definition M (A : Type) : Type := allocs -> option (option A * allocs).

Global Instance M_ret : MRet M := fun A x o => Some (Some x, o).
Global Instance M_bind : MBind M := fun A B f m o =>
  match m o with
  | None => None
  | Some (None, o') => Some (None, o')
  | Some (Some x, o') => f x o'
  end.

Definition fail {A} : M A := fun o => Some (None, o).
Definition crash {A} : M A := fun _ => None.

(** An allocation that is tested against NULL. *)
Definition alloc : M unit := fun o => let '(b, o') := alloc_next o in Some (if b then Some () else None, o').

(** [if (!b) return false;] *)
Definition require (b : bool) : M unit := if b then mret () else fail.

(** Dereferencing a pointer. *)
Definition deref {A} (p : option A) : M A := match p with Some x => mret x | None => crash end.

(** A pointer that is tested against NULL. *)
Definition nonnull {A} (p : option A) : M A := match p with Some x => mret x | None => fail end.

Lemma M_bind_inv {A B} (m : M A) (f : A -> M B) o y o' :
  (m ≫= f) o = Some (Some y, o') ->
  exists x o1, m o = Some (Some x, o1) /\ f x o1 = Some (Some y, o').
Proof.
  unfold mbind, M_bind. destruct (m o) as [[[x|] o1]|]; intros; simplify_eq. eauto.
Qed.

Lemma M_bind_ok {A B} (m : M A) (f : A -> M B) o x o1 :
  m o = Some (Some x, o1) -> (m ≫= f) o = f x o1.
Proof. intros E. unfold mbind, M_bind. by rewrite E. Qed.

Lemma M_ret_bind {A B} (x : A) (f : A -> M B) : (mret x ≫= f) = f x.
Proof. done. Qed.

Lemma deref_bind {A B} (x : A) (f : A -> M B) : (deref (Some x) ≫= f) = f x.
Proof. done. Qed.

Lemma alloc_ok : alloc [] = Some (Some (), []).
Proof. done. Qed.

Lemma alloc_eq o : alloc o = Some (if fst (alloc_next o) then Some () else None, snd (alloc_next o)).
Proof. unfold alloc. by destruct (alloc_next o). Qed.

Lemma alloc_bind {B} (f : unit -> M B) o :
  (alloc ≫= f) o = if fst (alloc_next o) then f () (snd (alloc_next o)) else Some (None, snd (alloc_next o)).
Proof. unfold mbind, M_bind. rewrite alloc_eq. by destruct (fst (alloc_next o)). Qed.

Lemma require_bind {B} b (f : unit -> M B) o : (require b ≫= f) o = if b then f () o else Some (None, o).
Proof. by destruct b. Qed.

Lemma alloc_inv o x o' : alloc o = Some (Some x, o') -> alloc_next o = (true, o').
Proof. unfold alloc. destruct (alloc_next o) as [[] ?]; intros; by simplify_eq. Qed.

Lemma require_inv b o x o' : require b o = Some (Some x, o') -> b = true /\ o' = o.
Proof. unfold require, mret, M_ret, fail, crash. destruct b; intros; by simplify_eq. Qed.

Lemma nonnull_inv {A} (p : option A) o x o' : nonnull p o = Some (Some x, o') -> p = Some x /\ o' = o.
Proof. unfold nonnull, mret, M_ret, fail, crash. destruct p; intros; by simplify_eq. Qed.

Lemma deref_inv {A} (p : option A) o x o' : deref p o = Some (Some x, o') -> p = Some x /\ o' = o.
Proof. unfold deref, mret, M_ret, fail, crash. destruct p; intros; by simplify_eq. Qed.

(** [ensures m Q]: whatever the allocator does, [m] does not crash, and when it
    returns a value the value satisfies [Q]. *)
Definition ensures {A} (m : M A) (Q : A -> Prop) : Prop :=
  forall o, exists r o', m o = Some (r, o') /\ (forall x, r = Some x -> Q x).

Lemma ensures_bind {A B} (m : M A) (f : A -> M B) P Q :
  ensures m P -> (forall x, P x -> ensures (f x) Q) -> ensures (m ≫= f) Q.
Proof.
  intros Hm Hf o. destruct (Hm o) as ([x|] & o1 & E & HP); unfold mbind, M_bind; rewrite E.
  - apply Hf. by apply HP.
  - by exists None, o1.
Qed.

Lemma ensures_weaken {A} (m : M A) (P Q : A -> Prop) :
  ensures m P -> (forall x, P x -> Q x) -> ensures m Q.
Proof. intros Hm HPQ o. destruct (Hm o) as (r & o1 & E & HP). exists r, o1. split; [done|]. auto. Qed.

Lemma ensures_ret {A} (x : A) (Q : A -> Prop) : Q x -> ensures (mret x) Q.
Proof. intros HQ o. exists (Some x), o. split; [done|]. by intros y [= <-]. Qed.

Lemma ensures_fail {A} (Q : A -> Prop) : ensures fail Q.
Proof. intros o. by exists None, o. Qed.

Lemma ensures_alloc : ensures alloc (fun _ => True).
Proof. intros o. eexists _, _. split; [apply alloc_eq|done]. Qed.

Lemma ensures_require b : ensures (require b) (fun _ => b = true).
Proof. destruct b; [by apply ensures_ret|apply ensures_fail]. Qed.

Lemma ensures_nonnull {A} (p : option A) : ensures (nonnull p) (fun x => p = Some x).
Proof. destruct p; [by apply ensures_ret|apply ensures_fail]. Qed.

Lemma ensures_true {A} (m : M A) Q : ensures m Q -> ensures m (fun _ => True).
Proof. intros. by eapply ensures_weaken. Qed.

Lemma ensures_if {A} (b : bool) (m n : M A) Q :
  (b = true -> ensures m Q) -> (b = false -> ensures n Q) -> ensures (if b then m else n) Q.
Proof. destruct b; auto. Qed.

(** ** Automation *)

Create HintDb rzb discriminated.
Create Rewrite HintDb rzb.

#[export] Hint Resolve wrap_range : rzb.
#[export] Hint Resolve ensures_ret ensures_fail ensures_alloc ensures_require ensures_nonnull : rzb.
#[export] Hint Rewrite wrap_wrap wrap_add_l wrap_sub_l : rzb.

(** Split conjunctions, existentials and equations between constructors. *)
Ltac crush_hyps :=
  repeat match goal with
  | H : _ /\ _ |- _ => destruct H
  | H : exists _, _ |- _ => destruct H
  | H : Some _ = Some _ |- _ => injection H; clear H; intros; subst
  | H : (_, _) = (_, _) |- _ => injection H; clear H; intros; subst
  | H : Some _ = None |- _ => discriminate H
  | H : None = Some _ |- _ => discriminate H
  end.

(** Invert a successful run [H : m o = Some (Some x, o')] of a monadic sequence. *)
Ltac m_inv H :=
  lazymatch type of H with
  | (mbind _ _) _ = Some (Some _, _) =>
      let x := fresh "x" in let o := fresh "o" in let E := fresh "E" in
      apply M_bind_inv in H as (x & o & E & H); m_inv E; m_inv H
  | require _ _ = _ => apply require_inv in H as [H ->]
  | nonnull _ _ = _ => apply nonnull_inv in H as [H ->]
  | deref _ _ = _ => apply deref_inv in H as [H ->]
  | (mret _) _ = _ => injection H as <- <-
  | alloc _ = _ => apply alloc_inv in H
  | _ => idtac
  end.

(** One step of a proof of [ensures]: the rule for the head of the program. *)
Ltac m_step :=
  lazymatch goal with
  | |- ensures (mbind _ alloc) _ => eapply ensures_bind; [apply ensures_alloc|intros [] _]
  | |- ensures (mbind _ (require _)) _ => eapply ensures_bind; [apply ensures_require|intros [] ?; cbv beta in *]
  | |- ensures (mbind _ (nonnull _)) _ => eapply ensures_bind; [apply ensures_nonnull|intros ? ?; cbv beta in *]
  | |- ensures (mbind _ _) _ => eapply ensures_bind
  | |- ensures (mret _) _ => apply ensures_ret
  | |- ensures fail _ => apply ensures_fail
  | |- ensures (if _ then _ else _) _ => apply ensures_if; intros ?
  end.

(** Case on the scrutinee of the first [match] or [if] of the goal. *)
Ltac case_goal :=
  match goal with
  | |- context [match ?x with _ => _ end] => destruct x eqn:?
  end.

(** Case on the scrutinee of a [match] in a hypothesis, closing the
    impossible branches. *)
Ltac case_hyp H :=
  match type of H with
  | context [match ?x with _ => _ end] => destruct x eqn:?; try discriminate H
  end.

(** ** Lists *)

Section lists.
Context {A : Type}.

(** The first element that satisfies a boolean test. *)
Fixpoint find_first (p : A -> bool) (xs : list A) : option A :=
  match xs with
  | [] => None
  | x :: xs' => if p x then Some x else find_first p xs'
  end.

Lemma find_first_Some p xs x :
  find_first p xs = Some x <->
  exists pre post, xs = pre ++ x :: post /\ p x = true /\ Forall (fun y => p y = false) pre.
Proof.
  induction xs as [|y ys IH]; simpl.
  - split; [done|]. intros (pre & post & E & _). by destruct pre.
  - destruct (p y) eqn:Hy; split.
    + intros [= <-]. by exists [], ys.
    + intros (pre & post & E & Hx & Hpre). destruct pre as [|z pre]; simplify_eq/=; [done|].
      apply Forall_cons in Hpre as [? _]. congruence.
    + intros H. apply IH in H as (pre & post & -> & ? & ?).
      exists (y :: pre), post. repeat split; auto.
    + intros (pre & post & E & Hx & Hpre). destruct pre as [|z pre]; simplify_eq/=; [congruence|].
      apply Forall_cons in Hpre as [_ Hpre]. apply IH. eauto 10.
Qed.

Lemma find_first_None p xs :
  find_first p xs = None <-> Forall (fun y => p y = false) xs.
Proof.
  induction xs as [|y ys IH]; simpl; [by split|].
  rewrite Forall_cons. destruct (p y); naive_solver.
Qed.

Lemma find_first_elem p xs x : find_first p xs = Some x -> x ∈ xs /\ p x = true.
Proof.
  intros H. apply find_first_Some in H as (pre & post & -> & Hx & _). set_solver.
Qed.

Lemma find_first_app p xs ys :
  find_first p (xs ++ ys) =
  match find_first p xs with Some x => Some x | None => find_first p ys end.
Proof. induction xs as [|x xs IH]; simpl; [done|]. by destruct (p x). Qed.

Lemma snoc_inv (xs : list A) : xs = [] \/ exists ys y, xs = ys ++ [y].
Proof. destruct xs using rev_ind; eauto. Qed.
End lists.

#[export] Hint Resolve find_first_elem : rzb.
