(* ===== verification/CLib.v ===== *)
(** * The C library functions the sources call

    A [char *] that holds a C string is a [string] without NUL characters (the
    characters before the terminator); a buffer is a [list Z] of bytes.  The
    functions follow the C standard and, where the standard leaves a
    conversion undefined ([%hu] out of range), glibc. *)

From Stdlib Require Export Ascii.
From S2P Require Import Prelude.

(** ** Characters and C strings *)

Definition code (c : ascii) : Z := Z.of_N (N_of_ascii c).
Definition chr (z : Z) : ascii := ascii_of_N (Z.to_N z).

Definition byte_ok (b : Z) : bool := (0 <=? b) && (b <? 256).

Definition isspace (c : ascii) : bool :=
  (code c == 32) || ((9 <=? code c) && (code c <=? 13)).
Definition isdigit (c : ascii) : bool := (48 <=? code c) && (code c <=? 57).
Definition isxdigit (c : ascii) : bool :=
  isdigit c || ((97 <=? code c) && (code c <=? 102)) || ((65 <=? code c) && (code c <=? 70)).

(** Every character of a string satisfies a test. *)
Fixpoint str_forall (p : ascii -> bool) (s : string) : bool :=
  match s with
  | EmptyString => true
  | String c s' => p c && str_forall p s'
  end.

Definition nul_free (s : string) : bool := str_forall (fun c => negb (code c == 0)) s.

Definition strlen (s : string) : Z := Z.of_nat (String.length s).

(** The C string a buffer starts with: its bytes up to the first NUL. *)
Fixpoint cstr_of_bytes (bs : list Z) : string :=
  match bs with
  | [] => EmptyString
  | b :: bs' => if b == 0 then EmptyString else String (chr b) (cstr_of_bytes bs')
  end.

(** The [strlen (s) + 1] bytes at a [char *]: the string and its terminator. *)
Fixpoint bytes_of_cstr (s : string) : list Z :=
  match s with
  | EmptyString => [0]
  | String c s' => code c :: bytes_of_cstr s'
  end.

(** The sign of [strcmp]. *)
Fixpoint strcmp (a b : string) : Z :=
  match a, b with
  | EmptyString, EmptyString => 0
  | EmptyString, String _ _ => -1
  | String _ _, EmptyString => 1
  | String x a', String y b' =>
      if code x == code y then strcmp a' b' else if code x <? code y then -1 else 1
  end.

Lemma code_range c : 0 <= code c < 256.
Proof. unfold code. pose proof (N_ascii_bounded c). lia. Qed.

Lemma chr_code c : chr (code c) = c.
Proof. unfold chr, code. rewrite N2Z.id. apply ascii_N_embedding. Qed.

Lemma code_chr z : 0 <= z < 256 -> code (chr z) = z.
Proof. intros. unfold code, chr. rewrite N_ascii_embedding; lia. Qed.

Lemma code_inj a b : code a = code b -> a = b.
Proof. intros H. by rewrite <- (chr_code a), H, chr_code. Qed.

Lemma byte_ok_spec b : byte_ok b = true <-> 0 <= b < 256.
Proof. unfold byte_ok. lia. Qed.

#[export] Hint Resolve code_range : rzb.
#[export] Hint Rewrite chr_code : rzb.

Lemma strcmp_eq a b : strcmp a b = 0 <-> a = b.
Proof.
  revert b. induction a as [|x a IH]; intros [|y b]; simpl; try (by split).
  destruct (code x == code y) eqn:E.
  - rewrite Z.eqb_eq in E. apply code_inj in E. subst. rewrite IH. naive_solver.
  - rewrite Z.eqb_neq in E. destruct (code x <? code y); split; intros; simplify_eq; lia.
Qed.

Lemma strcmp_eqb a b : (strcmp a b == 0) = bool_decide (a = b).
Proof.
  destruct (bool_decide_reflect (a = b)) as [E|E]; [by rewrite Z.eqb_eq, strcmp_eq|].
  rewrite Z.eqb_neq. by rewrite strcmp_eq.
Qed.

Lemma cstr_bytes_cstr s : nul_free s = true -> cstr_of_bytes (bytes_of_cstr s) = s.
Proof.
  unfold nul_free. induction s as [|c s IH]; simpl; [done|]. intros [H1 H2]%andb_true_iff.
  destruct (code c == 0) eqn:E; [simpl in H1; congruence|]. by rewrite chr_code, IH.
Qed.

Lemma bytes_of_cstr_ok s : Forall (fun b => 0 <= b < 256) (bytes_of_cstr s).
Proof. induction s; simpl; constructor; auto with rzb; lia. Qed.

Lemma length_bytes_of_cstr s : Z.of_nat (length (bytes_of_cstr s)) = strlen s + 1.
Proof. unfold strlen. induction s; simpl; lia. Qed.

Lemma last_bytes_of_cstr s : last (bytes_of_cstr s) = Some 0.
Proof. induction s as [|c s IH]; [done|]. simpl. rewrite last_cons, IH. done. Qed.

(** The first [n] bytes of a buffer; reading past its end is out of bounds. *)
Definition read_bytes (buf : list Z) (n : Z) : option (list Z) :=
  if Z.of_nat (length buf) <? n then None else Some (take (Z.to_nat n) buf).

Lemma read_bytes_all buf : read_bytes buf (Z.of_nat (length buf)) = Some buf.
Proof. unfold read_bytes. rewrite Z.ltb_irrefl, Nat2Z.id. by rewrite take_ge. Qed.

(** ** Hexadecimal *)

Definition hex_digit (d : Z) : ascii := if d <? 10 then chr (48 + d) else chr (87 + d).

Definition hex_value (c : ascii) : Z :=
  if isdigit c then code c - 48
  else if code c <? 97 then code c - 55 else code c - 87.

(** [snprintf (buf, 3, "%02x", b)] of a byte. *)
Definition print_02x (b : Z) : string :=
  String (hex_digit (b / 16)) (String (hex_digit (b mod 16)) EmptyString).

(** [sscanf (s, "%2hhx", &b)] on a string that starts with a hexadecimal
    digit; [None] when it does not and nothing is stored.  (White space, a sign
    and a [0x] prefix, which the conversion accepts too, are rejected by the
    only caller before it scans.) *)
Definition scan_2hhx (s : string) : option Z :=
  match s with
  | String a s' =>
      if isxdigit a then
        match s' with
        | String b _ => if isxdigit b then Some (16 * hex_value a + hex_value b) else Some (hex_value a)
        | EmptyString => Some (hex_value a)
        end
      else None
  | EmptyString => None
  end.

(** Facts about the sixteen digits, by evaluation over all characters. *)
Lemma all_ascii (p : ascii -> bool) :
  forallb p (map chr (seqZ 0 256)) = true -> forall c, p c = true.
Proof.
  rewrite forallb_forall. intros H c. apply H. rewrite <- (chr_code c).
  apply in_map, list_elem_of_In, elem_of_seqZ. pose proof (code_range c). lia.
Qed.

Lemma all_bytes (p : Z -> bool) :
  forallb p (seqZ 0 256) = true -> forall b, 0 <= b < 256 -> p b = true.
Proof.
  rewrite forallb_forall. intros H b Hb. apply H, list_elem_of_In, elem_of_seqZ. lia.
Qed.

Lemma print_02x_chars b : 0 <= b < 256 -> str_forall isxdigit (print_02x b) = true.
Proof. intros Hb. apply (all_bytes (fun b => str_forall isxdigit (print_02x b))); [by vm_compute|done]. Qed.

Lemma scan_print_02x b s : 0 <= b < 256 -> scan_2hhx (print_02x b +:+ s) = Some b.
Proof.
  intros Hb.
  set (p b := isxdigit (hex_digit (b / 16)) && isxdigit (hex_digit (b mod 16)) &&
              (16 * hex_value (hex_digit (b / 16)) + hex_value (hex_digit (b mod 16)) == b)).
  assert (H : p b = true) by (apply (all_bytes p); [by vm_compute|done]).
  unfold p in H. apply andb_true_iff in H as [[H1 H2]%andb_true_iff H3%Z.eqb_eq].
  simpl. by rewrite H1, H2, H3.
Qed.

(** The lower case form of a hexadecimal digit. *)
Definition to_lower (c : ascii) : ascii :=
  if (65 <=? code c) && (code c <=? 90) then chr (code c + 32) else c.

Fixpoint str_lower (s : string) : string :=
  match s with
  | EmptyString => EmptyString
  | String c s' => String (to_lower c) (str_lower s')
  end.

Lemma hex_value_range c : isxdigit c = true -> 0 <= hex_value c < 16.
Proof.
  intros Hc. set (p c := negb (isxdigit c) || ((0 <=? hex_value c) && (hex_value c <? 16))).
  assert (H : p c = true) by (apply (all_ascii p); by vm_compute).
  unfold p in H. rewrite Hc in H. simpl in H. lia.
Qed.

Lemma hex_digit_value c : isxdigit c = true -> hex_digit (hex_value c) = to_lower c.
Proof.
  intros Hc.
  set (p c := negb (isxdigit c) || (code (hex_digit (hex_value c)) == code (to_lower c))).
  assert (H : p c = true) by (apply (all_ascii p); by vm_compute).
  unfold p in H. rewrite Hc in H. simpl in H. by apply Z.eqb_eq, code_inj in H.
Qed.

Lemma print_scan_02x a b :
  isxdigit a = true -> isxdigit b = true ->
  print_02x (16 * hex_value a + hex_value b) = str_lower (String a (String b EmptyString)).
Proof.
  intros Ha Hb. pose proof (hex_value_range _ Ha). pose proof (hex_value_range _ Hb).
  unfold print_02x.
  rewrite <- (Z.div_unique_pos _ _ (hex_value a) (hex_value b)) by lia.
  rewrite <- (Z.mod_unique_pos _ _ (hex_value a) (hex_value b)) by lia.
  by rewrite !hex_digit_value.
Qed.

(** [printf ("%*.*jx")] with a precision of [prec] digits. *)
Fixpoint hex_digits (fuel : nat) (prec : Z) (n : Z) (acc : string) : string :=
  match fuel with
  | O => acc
  | S f =>
      if (n == 0) && (prec <=? 0) then acc
      else hex_digits f (prec - 1) (n / 16) (String (hex_digit (n mod 16)) acc)
  end.

(** [%8.8jx] of a 64-bit integer: at least eight digits, at most sixteen. *)
Definition print_8_8jx (n : Z) : string := hex_digits 16 8 n EmptyString.

(** ** Decimal *)

Definition dec_digit (d : Z) : ascii := chr (48 + d).

Fixpoint dec_digits (fuel : nat) (n : Z) (acc : string) : string :=
  match fuel with
  | O => acc
  | S f =>
      let acc' := String (dec_digit (n mod 10)) acc in
      if n <? 10 then acc' else dec_digits f (n / 10) acc'
  end.

(** [%ju], [%hu] and [%hhu]: a 64-bit integer has at most twenty digits. *)
Definition print_dec (n : Z) : string := dec_digits 20 n EmptyString.

Fixpoint scan_digits (s : string) (acc : Z) : Z * string :=
  match s with
  | EmptyString => (acc, EmptyString)
  | String c s' => if isdigit c then scan_digits s' (10 * acc + (code c - 48)) else (acc, s)
  end.

Fixpoint skip_space (s : string) : string :=
  match s with
  | String c s' => if isspace c then skip_space s' else s
  | EmptyString => EmptyString
  end.

(** A sign, then a non-empty sequence of digits. *)
Definition scan_signed (s : string) : option (bool * Z * string) :=
  let '(neg, s) :=
    match s with
    | String c s' =>
        if code c == 45 then (true, s') else if code c == 43 then (false, s') else (false, s)
    | EmptyString => (false, s)
    end in
  match s with
  | String c _ => if isdigit c then let '(n, rest) := scan_digits s 0 in Some (neg, n, rest) else None
  | EmptyString => None
  end.

(** [strtoumax (s, &end, 10)]: the value, the text at [end] ([None] when
    nothing was converted and [end] is [s]) and whether errno is ERANGE.  A
    minus sign negates the value modulo [2^64]. *)
Definition strtoumax (s : string) : Z * option string * bool :=
  match scan_signed (skip_space s) with
  | None => (0, None, false)
  | Some (neg, n, rest) =>
      if 2 ^ 64 <=? n then (2 ^ 64 - 1, Some rest, true)
      else (if neg then u64 (- n) else n, Some rest, false)
  end.

(** [sscanf (s, "%hu", &x)] and [sscanf (s, "%hhu", &x)] of glibc: [strtoul],
    then truncation to the width of the object; [None] for no conversion. *)
Definition sscanf_u (w : Z) (s : string) : option Z :=
  match strtoumax s with
  | (_, None, _) => None
  | (n, Some _, _) => Some (wrap w n)
  end.

Lemma dec_digit_ok d : 0 <= d < 10 ->
  isdigit (dec_digit d) = true /\ code (dec_digit d) - 48 = d.
Proof. intros. unfold isdigit, dec_digit. rewrite code_chr by lia. lia. Qed.

Lemma scan_dec_digits f n acc :
  0 <= n < 10 ^ Z.of_nat f -> (0 < f)%nat ->
  scan_digits (dec_digits f n acc) 0 = scan_digits acc n.
Proof.
  revert n acc. induction f as [|f IH]; intros n acc Hn Hf; [lia|]. simpl.
  assert (Hd : 0 <= n mod 10 < 10) by (apply Z.mod_pos_bound; lia).
  destruct (dec_digit_ok _ Hd) as [H1 H2]. destruct (Z.ltb_spec n 10) as [Hlt|Hge].
  - change (scan_digits (String (dec_digit (n mod 10)) acc) 0) with
      (if isdigit (dec_digit (n mod 10))
       then scan_digits acc (10 * 0 + (code (dec_digit (n mod 10)) - 48))
       else (0, String (dec_digit (n mod 10)) acc)).
    rewrite H1, H2. by rewrite Z.mod_small by lia.
  - destruct f as [|f]; [simpl in Hn; lia|]. rewrite IH; [| |lia].
    + change (scan_digits (String (dec_digit (n mod 10)) acc) (n / 10)) with
        (if isdigit (dec_digit (n mod 10))
         then scan_digits acc (10 * (n / 10) + (code (dec_digit (n mod 10)) - 48))
         else (n / 10, String (dec_digit (n mod 10)) acc)).
      rewrite H1, H2. by rewrite <- Z.div_mod by lia.
    + rewrite Nat2Z.inj_succ, Z.pow_succ_r in Hn by lia. split; [apply Z.div_pos; lia|].
      apply Z.div_lt_upper_bound; lia.
Qed.

Lemma dec_digits_head f n acc :
  0 <= n -> (0 < f)%nat -> exists c s, dec_digits f n acc = String c s /\ isdigit c = true.
Proof.
  revert n acc. induction f as [|f IH]; intros n acc Hn Hf; [lia|]. simpl.
  assert (Hd : isdigit (dec_digit (n mod 10)) = true) by (apply dec_digit_ok, Z.mod_pos_bound; lia).
  destruct (n <? 10); [by eauto|]. destruct f as [|f]; [by simpl; eauto|].
  apply IH; [apply Z.div_pos; lia|lia].
Qed.

Lemma isdigit_not_space c : isdigit c = true -> isspace c = false.
Proof. unfold isdigit, isspace. lia. Qed.

Lemma print_dec_head n : 0 <= n ->
  exists c s, print_dec n = String c s /\ isdigit c = true /\
    (code c == 45) = false /\ (code c == 43) = false /\ isspace c = false.
Proof.
  intros Hn. destruct (dec_digits_head 20 n EmptyString Hn) as (c & s & E & Hd); [lia|].
  exists c, s. split_and!; try done; [unfold isdigit in Hd; lia..|by apply isdigit_not_space].
Qed.

Lemma strtoumax_print n : in_width 64 n ->
  strtoumax (print_dec n) = (n, Some EmptyString, false).
Proof.
  intros [H0 H1]. destruct (print_dec_head n H0) as (c & s & E & Hd & Hm & Hp & Hs).
  assert (Hsc : scan_digits (String c s) 0 = (n, EmptyString)).
  { rewrite <- E. unfold print_dec. rewrite scan_dec_digits; [done| |lia]. simpl Z.of_nat. lia. }
  unfold strtoumax. rewrite E. unfold skip_space. rewrite Hs. unfold scan_signed.
  rewrite Hm, Hp, Hd, Hsc. destruct (Z.leb_spec (2 ^ 64) n); [lia|done].
Qed.

Lemma scan_digits_nonneg t acc n rest : 0 <= acc -> scan_digits t acc = (n, rest) -> 0 <= n.
Proof.
  revert acc. induction t as [|c t IH]; intros acc Ha; simpl; [by intros [= <- _]|].
  destruct (isdigit c) eqn:Hc; [|by intros [= <- _]]. apply IH. unfold isdigit in Hc. lia.
Qed.

Lemma scan_signed_nonneg t neg n rest : scan_signed t = Some (neg, n, rest) -> 0 <= n.
Proof.
  unfold scan_signed. case_match eqn:E0. destruct s as [|c s]; [done|].
  destruct (isdigit c); [|done]. destruct (scan_digits (String c s) 0) as [m r] eqn:E.
  intros [= _ <- _]. by eapply scan_digits_nonneg in E.
Qed.

(** Without ERANGE the result is the value of the object. *)
Lemma strtoumax_range t v r : strtoumax t = (v, r, false) -> in_width 64 v.
Proof.
  unfold strtoumax. destruct (scan_signed (skip_space t)) as [[[neg m] rest]|] eqn:Es.
  - apply scan_signed_nonneg in Es. destruct (Z.leb_spec (2 ^ 64) m); [done|]. intros [= <- _].
    destruct neg; [apply wrap_range; lia|done].
  - intros [= <- _]. done.
Qed.

Lemma sscanf_print w n : 0 <= w <= 64 -> in_width w n -> sscanf_u w (print_dec n) = Some n.
Proof.
  intros Hw Hn. assert (Hn' : in_width 64 n).
  { unfold in_width in *. pose proof (Z.pow_le_mono_r 2 w 64). lia. }
  unfold sscanf_u. rewrite strtoumax_print by done. by rewrite wrap_small.
Qed.

Lemma dec_digits_nul_free f n acc : 0 <= n -> nul_free acc = true -> nul_free (dec_digits f n acc) = true.
Proof.
  revert n acc. induction f as [|f IH]; intros n acc Hn Ha; [done|]. simpl.
  assert (H : nul_free (String (dec_digit (n mod 10)) acc) = true).
  { unfold nul_free in *. simpl. rewrite Ha. unfold dec_digit.
    pose proof (Z.mod_pos_bound n 10). rewrite code_chr by lia. lia. }
  destruct (n <? 10); [done|]. apply IH; [apply Z.div_pos; lia|done].
Qed.

Lemma print_dec_nul_free n : 0 <= n -> nul_free (print_dec n) = true.
Proof. intros. by apply dec_digits_nul_free. Qed.

(** ** Little-endian integers in memory *)

Definition u16_of_bytes (bs : list Z) : Z :=
  match bs with b0 :: b1 :: _ => b0 + 256 * b1 | _ => 0 end.

Definition bytes_of_u16 (n : Z) : list Z := [n mod 256; n / 256].

Lemma bytes_u16_bytes b0 b1 : 0 <= b0 < 256 -> 0 <= b1 < 256 ->
  bytes_of_u16 (u16_of_bytes [b0; b1]) = [b0; b1] /\ in_width 16 (u16_of_bytes [b0; b1]).
Proof.
  intros. unfold bytes_of_u16, u16_of_bytes, in_width. split; [|lia].
  rewrite <- (Z.div_unique_pos _ _ b1 b0) by lia. by rewrite <- (Z.mod_unique_pos _ _ b1 b0) by lia.
Qed.
