(* ===== verification/RzbList.v ===== *)
(** * The linked list of src/list.c

    [List_t] is the doubly linked list every other component keeps its items
    in.  A node lives at an address ([loc]) of the list's own node store
    ([l_nodes]), the [calloc]ed [struct ListNode]s that only list.c sees; the
    [next]/[prev]/[head]/[tail] fields are addresses or NULL ([None]).
    Dereferencing NULL or a freed node is [None] in the option monad, so a
    theorem that an operation returns [Some _] says that it does not crash.

    The item type is a parameter (a [void *] of the client; items are non-NULL),
    and so is the store [St] the client's callbacks read and write.  A [lptr] is
    a [List_t *]: [None] is the NULL every entry point tests for.  Reader/writer
    locks are not state of the model: an operation is one critical section, and
    the two critical sections of [List_ForEach] are separate definitions. *)

From S2P Require Import Prelude.

(** ** Constants of include/razorback/list.h *)

Definition LIST_MODE_GENERIC : Z := 0.
Definition LIST_MODE_STACK : Z := 1.
Definition LIST_MODE_QUEUE : Z := 2.

Definition LIST_EACH_OK : Z := 0.
Definition LIST_EACH_ERROR : Z := 1.
Definition LIST_EACH_REMOVE : Z := 2.
Definition LIST_EACH_END : Z := 3.

(** Addresses of list nodes. *)
Abbreviation loc := positive.

(** ** Data *)

Section Data.
Context {St Key Item : Type}.

Record ListNode := mkNode {
  n_next : option loc;
  n_prev : option loc;
  n_item : Item;
  n_del : bool
}.

Record List_t := mkList {
  l_head : option loc;
  l_tail : option loc;
  l_length : Z;
  l_limit : Z;
  l_mode : Z;
  l_cmp : option (St -> Item -> Item -> Z);
  l_keyCmp : option (St -> Item -> Key -> Z);
  l_destroy : option (Item -> St -> St);
  l_clone : option (Item -> St -> option Item * St);
  l_nodeLock : option (Item -> St -> St);
  l_nodeUnlock : option (Item -> St -> St);
  l_sem : option Z;
  l_nodes : gmap loc ListNode
}.

Definition set_next (n : ListNode) (x : option loc) : ListNode :=
  mkNode x (n_prev n) (n_item n) (n_del n).
Definition set_prev (n : ListNode) (x : option loc) : ListNode :=
  mkNode (n_next n) x (n_item n) (n_del n).
Definition set_del (n : ListNode) (b : bool) : ListNode :=
  mkNode (n_next n) (n_prev n) (n_item n) b.

(** Assignment to the head, tail and node store of a list. *)
Definition set_links (l : List_t) (h t : option loc) (ns : gmap loc ListNode) : List_t :=
  mkList h t (l_length l) (l_limit l) (l_mode l) (l_cmp l) (l_keyCmp l)
    (l_destroy l) (l_clone l) (l_nodeLock l) (l_nodeUnlock l) (l_sem l) ns.
Definition set_length (l : List_t) (n : Z) : List_t :=
  mkList (l_head l) (l_tail l) n (l_limit l) (l_mode l) (l_cmp l) (l_keyCmp l)
    (l_destroy l) (l_clone l) (l_nodeLock l) (l_nodeUnlock l) (l_sem l) (l_nodes l).
Definition set_limit (l : List_t) (n : Z) : List_t :=
  mkList (l_head l) (l_tail l) (l_length l) n (l_mode l) (l_cmp l) (l_keyCmp l)
    (l_destroy l) (l_clone l) (l_nodeLock l) (l_nodeUnlock l) (l_sem l) (l_nodes l).
Definition set_sem (l : List_t) (s : option Z) : List_t :=
  mkList (l_head l) (l_tail l) (l_length l) (l_limit l) (l_mode l) (l_cmp l) (l_keyCmp l)
    (l_destroy l) (l_clone l) (l_nodeLock l) (l_nodeUnlock l) s (l_nodes l).
End Data.

Arguments ListNode : clear implicits.
Arguments List_t : clear implicits.

(** A [List_t *]; [None] is NULL. *)
Abbreviation lptr St Key Item := (option (List_t St Key Item)).

(** ** Operations *)

Section Operations.
Context {St Key Item : Type}.
Implicit Types (l : List_t St Key Item) (p : lptr St Key Item) (s : St).

(** [List_Create]: [lock_ok], [calloc_ok] and [sem_ok] are the outcomes of the
    allocations of the list, its lock and its semaphore. *)
Definition List_Create (calloc_ok lock_ok sem_ok : bool) (mode : Z)
    (cmp : option (St -> Item -> Item -> Z)) (keyCmp : option (St -> Item -> Key -> Z))
    (destroy : option (Item -> St -> St)) (clone : option (Item -> St -> option Item * St))
    (nodeLock nodeUnlock : option (Item -> St -> St)) : lptr St Key Item :=
  if negb calloc_ok then None
  else if negb lock_ok then None
  else
    let build sem :=
      mkList None None 0 0 mode cmp keyCmp destroy clone nodeLock nodeUnlock sem ∅ in
    if (mode == LIST_MODE_QUEUE) || (mode == LIST_MODE_STACK)
    then if negb sem_ok then None else Some (build (Some 0))
    else Some (build None).

Definition List_SetLimit p (limit : Z) : lptr St Key Item :=
  match p with
  | None => None
  | Some l => Some (set_limit l limit)
  end.

(** [node->f = x] for the node at address [a]; a NULL or freed [a] crashes. *)
Definition node_upd (ns : gmap loc (ListNode Item)) (a : option loc)
    (f : ListNode Item -> ListNode Item) : option (gmap loc (ListNode Item)) :=
  a ← a; n ← ns !! a; Some (<[a := f n]> ns).

(** [List_Stack_Push] and [List_Queue_Push] link the node at [a], already in
    the node store, at the head and at the tail. *)
Definition List_Stack_Push l (a : loc) : option (List_t St Key Item) :=
  match l_head l with
  | None => Some (set_links l (Some a) (Some a) (l_nodes l))
  | Some h =>
      ns ← node_upd (l_nodes l) (Some a) (fun n => set_next n (Some h));
      ns ← node_upd ns (Some h) (fun n => set_prev n (Some a));
      Some (set_links l (Some a) (l_tail l) ns)
  end.

Definition List_Queue_Push l (a : loc) : option (List_t St Key Item) :=
  match l_tail l with
  | None => Some (set_links l (Some a) (Some a) (l_nodes l))
  | Some t =>
      ns ← node_upd (l_nodes l) (Some a) (fun n => set_prev n (Some t));
      ns ← node_upd ns (Some t) (fun n => set_next n (Some a));
      Some (set_links l (l_head l) (Some a) ns)
  end.

(** [List_Push]: [ok] is the outcome of the node's [calloc]. *)
Definition List_Push (ok : bool) p (item : Item) : option (bool * lptr St Key Item) :=
  match p with
  | None => Some (false, None)
  | Some l =>
      if negb ok then Some (false, Some l)
      else if (0 <? l_limit l) && (l_limit l <=? l_length l) then Some (false, Some l)
      else
        let a := fresh (dom (l_nodes l)) in
        let l1 := set_links l (l_head l) (l_tail l)
                    (<[a := mkNode None None item false]> (l_nodes l)) in
        let inserted :=
          if (l_mode l == LIST_MODE_GENERIC) || (l_mode l == LIST_MODE_QUEUE)
          then Some (List_Queue_Push l1 a)
          else if l_mode l == LIST_MODE_STACK then Some (List_Stack_Push l1 a)
          else None in
        match inserted with
        | None => Some (false, Some l)
        | Some push =>
            l2 ← push;
            let l3 := set_length l2 (u64 (l_length l2 + 1)) in
            Some (true, Some (set_sem l3 (option_map (fun c => c + 1) (l_sem l3))))
        end
  end.

(** [List_RemoveNode] unlinks the node at [a] (it does not free it). *)
Definition List_RemoveNode l (a : loc) : option (List_t St Key Item) :=
  match l_head l with
  | None => Some l
  | Some _ =>
      let at_head := bool_decide (Some a = l_head l) in
      let at_tail := bool_decide (Some a = l_tail l) in
      l' ← (if at_head && at_tail then Some (set_links l None None (l_nodes l))
            else n ← l_nodes l !! a;
              if at_head then
                ns ← node_upd (l_nodes l) (n_next n) (fun m => set_prev m None);
                Some (set_links l (n_next n) (l_tail l) ns)
              else if at_tail then
                ns ← node_upd (l_nodes l) (n_prev n) (fun m => set_next m None);
                Some (set_links l (l_head l) (n_prev n) ns)
              else
                ns ← node_upd (l_nodes l) (n_prev n) (fun m => set_next m (n_next n));
                ns ← node_upd ns (n_next n) (fun m => set_prev m (n_prev n));
                Some (set_links l (l_head l) (l_tail l) ns));
      Some (set_length l' (u64 (l_length l' - 1)))
  end.

Definition List_Stack_Pop l : option (option loc * List_t St Key Item) :=
  match l_head l with
  | None => Some (None, l)
  | Some a => l' ← List_RemoveNode l a; Some (Some a, l')
  end.

Definition List_Queue_Pop l : option (option loc * List_t St Key Item) :=
  match l_tail l with
  | None => Some (None, l)
  | Some a => l' ← List_RemoveNode l a; Some (Some a, l')
  end.

Definition List_Do_Pop l : option (option loc * List_t St Key Item) :=
  if (l_mode l == LIST_MODE_GENERIC) || (l_mode l == LIST_MODE_QUEUE) then List_Queue_Pop l
  else if l_mode l == LIST_MODE_STACK then List_Stack_Pop l
  else Some (None, l).

(** [free(node)] *)
Definition free_node l (a : loc) : List_t St Key Item :=
  set_links l (l_head l) (l_tail l) (delete a (l_nodes l)).

(** The outcome of a pop: a returned item or NULL, or, for a list with a
    semaphore, a caller that waits for another thread to push. *)
Inductive pop_result :=
| Returned (item : option Item)
| Blocked.

(** [Semaphore_TimedWait] while no other thread posts: a positive count is
    taken; on a zero count a timeout of 0 waits for ever, another one expires. *)
Definition List_Pop_Ex p (timeoutMilliseconds : Z)
    : option (pop_result * lptr St Key Item) :=
  match p with
  | None => Some (Returned None, None)
  | Some l =>
      let pop l :=
        '(node, l') ← List_Do_Pop l;
        match node with
        | None => Some (Returned None, Some l')
        | Some a => n ← l_nodes l' !! a; Some (Returned (Some (n_item n)), Some (free_node l' a))
        end in
      match l_sem l with
      | None => pop l
      | Some c =>
          if 0 <? c then pop (set_sem l (Some (c - 1)))
          else if timeoutMilliseconds == 0 then Some (Blocked, Some l)
          else Some (Returned None, Some l)
      end
  end.

Definition List_Pop p : option (pop_result * lptr St Key Item) := List_Pop_Ex p 0.

(** *** Iteration *)

Section ForEach.
Context {U : Type}.
Variable op : Item -> U -> St -> option (Z * U * St).

Definition run_callback (f : option (Item -> St -> St)) (x : Item) s : St :=
  match f with Some g => g x s | None => s end.

(** The loop under the read lock: the fuel bounds the number of nodes
    visited; [ret] and [del] are the locals of the source. *)
Fixpoint ForEach_scan (fuel : nat) l (cur : option loc) (u : U) s (ret del : bool)
    : option (bool * bool * List_t St Key Item * U * St) :=
  match cur with
  | None => Some (ret, del, l, u, s)
  | Some a =>
      match fuel with
      | O => None
      | S fuel' =>
          n ← l_nodes l !! a;
          '(opRet, u1, s2) ← op (n_item n) u (run_callback (l_nodeLock l) (n_item n) s);
          let s3 := run_callback (l_nodeUnlock l) (n_item n) s2 in
          if opRet == LIST_EACH_ERROR then Some (false, del, l, u1, s3)
          else if opRet == LIST_EACH_END then Some (ret, del, l, u1, s3)
          else if opRet == LIST_EACH_REMOVE then
            let l' := set_links l (l_head l) (l_tail l)
                        (<[a := set_del n true]> (l_nodes l)) in
            ForEach_scan fuel' l' (n_next n) u1 s3 ret true
          else ForEach_scan fuel' l (n_next n) u1 s3 ret del
      end
  end.
End ForEach.

(** The loop under the write lock that unlinks, destroys and frees the marked
    nodes. *)
Fixpoint ForEach_prune (fuel : nat) l (cur : option loc) s
    : option (List_t St Key Item * St) :=
  match cur with
  | None => Some (l, s)
  | Some a =>
      match fuel with
      | O => None
      | S fuel' =>
          n ← l_nodes l !! a;
          if n_del n then
            l' ← List_RemoveNode l a;
            ForEach_prune fuel' (free_node l' a) (n_next n) (run_callback (l_destroy l) (n_item n) s)
          else ForEach_prune fuel' l (n_next n) s
      end
  end.

(** A loop visits each node once: one unit of fuel per node of the list. *)
Definition fuel_of l : nat := size (l_nodes l).

Definition List_ForEach {U} p (op : option (Item -> U -> St -> option (Z * U * St))) (u : U) s
    : option (bool * lptr St Key Item * U * St) :=
  match p, op with
  | None, _ => Some (false, None, u, s)
  | Some l, None => Some (false, Some l, u, s)
  | Some l, Some op =>
      match l_head l with
      | None => Some (true, Some l, u, s)
      | Some _ =>
          '(ret, del, l1, u1, s1) ← ForEach_scan op (fuel_of l) l (l_head l) u s true false;
          if (del : bool) then
            '(l2, s2) ← ForEach_prune (fuel_of l1) l1 (l_head l1) s1;
            Some (ret, Some l2, u1, s2)
          else Some (ret, Some l1, u1, s1)
      end
  end.

Definition List_FindKeyCmp (keyCmp : St -> Item -> Key -> Z) (id : Key)
    (item : Item) (ret : option Item) s : option (Z * option Item * St) :=
  if keyCmp s item id == 0 then Some (LIST_EACH_END, Some item, s)
  else Some (LIST_EACH_OK, ret, s).

Definition List_Find p (id : option Key) s : option (option Item * lptr St Key Item * St) :=
  match p, id with
  | Some l, Some id =>
      match l_keyCmp l with
      | None => Some (None, Some l, s)
      | Some keyCmp =>
          '(_, p', ret, s') ← List_ForEach (Some l) (Some (List_FindKeyCmp keyCmp id)) None s;
          Some (ret, p', s')
      end
  | _, _ => Some (None, p, s)
  end.

Section Remove.
Context `{EqDecision Item}.

Definition List_FindRemove (cmp : option (St -> Item -> Item -> Z)) (id : Item)
    (curItem : Item) (ret : option Item) s : option (Z * option Item * St) :=
  if bool_decide (curItem = id) ||
     match cmp with Some f => f s curItem id == 0 | None => false end
  then Some (LIST_EACH_REMOVE, Some curItem, s)
  else Some (LIST_EACH_OK, ret, s).

Definition List_Remove p (item : option Item) s : option (bool * lptr St Key Item * St) :=
  match p, item with
  | Some l, Some item =>
      '(_, p', ret, s') ←
        List_ForEach (Some l) (Some (List_FindRemove (l_cmp l) item)) None s;
      Some (match ret with Some _ => true | None => false end, p', s')
  | _, _ => Some (false, p, s)
  end.
End Remove.

(** [List_Clear]: one pop per node, and the one that returns NULL. *)
Fixpoint Clear_loop (fuel : nat) l s : option (List_t St Key Item * St) :=
  '(node, l') ← List_Do_Pop l;
  match node with
  | None => Some (l', s)
  | Some a =>
      match fuel with
      | O => None
      | S fuel' =>
          n ← l_nodes l' !! a;
          Clear_loop fuel' (free_node l' a) (run_callback (l_destroy l') (n_item n) s)
      end
  end.

Definition List_Clear p s : option (lptr St Key Item * St) :=
  match p with
  | None => Some (None, s)
  | Some l => '(l', s') ← Clear_loop (fuel_of l) l s; Some (Some l', s')
  end.

Definition List_Length p : Z :=
  match p with None => 0 | Some l => l_length l end.

(** [List_Destroy] frees the list: only the client store is left. *)
Definition List_Destroy p s : option St :=
  '(_, s') ← List_Clear p s; Some s'.

(** [List_Clone_Node]: the user data is the destination list and the outcomes
    of the coming node allocations. *)
Definition List_Clone_Node (vItem : Item) (u : lptr St Key Item * allocs) s
    : option (Z * (lptr St Key Item * allocs) * St) :=
  let '(dest, o) := u in
  d ← dest;
  clone ← l_clone d;
  let '(new, s') := clone vItem s in
  match new with
  | None => Some (LIST_EACH_ERROR, (dest, o), s')
  | Some new =>
      let '(ok, o') := alloc_next o in
      '(pushed, dest') ← List_Push ok dest new;
      Some (if (pushed : bool) then LIST_EACH_OK else LIST_EACH_ERROR, (dest', o'), s')
  end.

(** [List_Clone]: the clone (NULL on error), the source and the store. *)
Definition List_Clone (calloc_ok lock_ok sem_ok : bool) (o : allocs) p s
    : option (lptr St Key Item * lptr St Key Item * St) :=
  match p with
  | None => Some (None, None, s)
  | Some src =>
      match l_clone src with
      | None => Some (None, Some src, s)
      | Some _ =>
          match List_Create calloc_ok lock_ok sem_ok (l_mode src) (l_cmp src) (l_keyCmp src)
                  (l_destroy src) (l_clone src) (l_nodeLock src) (l_nodeUnlock src) with
          | None => Some (None, Some src, s)
          | Some dest =>
              '(ok, src', u, s') ←
                List_ForEach (Some src) (Some List_Clone_Node) (Some dest, o) s;
              if (ok : bool) then Some (fst u, src', s')
              else s'' ← List_Destroy (fst u) s'; Some (None, src', s'')
          end
      end
  end.

(** [List_Transfer dest source]: the result, both lists and the store. *)
Definition List_Transfer (dest source : lptr St Key Item) s
    : option (bool * lptr St Key Item * lptr St Key Item * St) :=
  match source, dest with
  | None, _ => Some (false, dest, None, s)
  | Some _, None => Some (false, None, source, s)
  | Some src, Some dst =>
      '(dst', s') ← Clear_loop (fuel_of dst) dst s;
      Some (true,
            Some (set_length (set_links dst' (l_head src) (l_tail src) (l_nodes src))
                    (l_length src)),
            Some (set_length (set_links src None None ∅) 0), s')
  end.
End Operations.

Arguments pop_result : clear implicits.

(** The entry points are unfolded by hand only. *)
Arguments List_ForEach : simpl never.
Arguments List_Find : simpl never.
Arguments List_Remove : simpl never.
Arguments List_Push : simpl never.
Arguments List_Pop_Ex : simpl never.
Arguments List_Clear : simpl never.

(** ** The sequence a list represents

    A cell is the address of a node with its item and deletion mark.
    [chain ns pv cs nx] says that the store [ns] holds the cells [cs] as a
    doubly linked segment between the neighbours [pv] and [nx]. *)

Section Representation.
Context {St Key Item : Type}.
Implicit Types (l : List_t St Key Item) (s : St).
Implicit Types (cs : list (loc * (Item * bool))) (ns : gmap loc (ListNode Item)).

Definition first_loc cs (nx : option loc) : option loc :=
  match cs with [] => nx | c :: _ => Some c.1 end.

Fixpoint last_loc (pv : option loc) cs : option loc :=
  match cs with [] => pv | c :: cs' => last_loc (Some c.1) cs' end.

Fixpoint chain ns (pv : option loc) cs (nx : option loc) : Prop :=
  match cs with
  | [] => True
  | (a, (x, d)) :: cs' =>
      ns !! a = Some (mkNode (first_loc cs' nx) pv x d) /\ chain ns (Some a) cs' nx
  end.

(** The list structure [l] represents the cells [cs]. *)
Record rep l cs : Prop := {
  rep_head : l_head l = first_loc cs None;
  rep_tail : l_tail l = last_loc None cs;
  rep_chain : chain (l_nodes l) None cs None;
  rep_nodup : NoDup cs.*1;
  rep_dom : dom (l_nodes l) = list_to_set cs.*1;
  rep_length : l_length l = u64 (Z.of_nat (length cs))
}.

(** What the operations on the links leave alone. *)
Definition meta l :=
  (l_limit l, l_mode l, l_cmp l, l_keyCmp l, l_destroy l, l_clone l,
   l_nodeLock l, l_nodeUnlock l).

(** The list [l] holds the items [xs], head first, none of them marked. *)
Definition contents l (xs : list Item) : Prop :=
  exists cs, rep l cs /\ Forall (fun c => c.2.2 = false) cs /\ cs.*2.*1 = xs.

Lemma first_loc_app cs1 cs2 nx : first_loc (cs1 ++ cs2) nx = first_loc cs1 (first_loc cs2 nx).
Proof. by destruct cs1. Qed.

Lemma last_loc_app pv cs1 cs2 : last_loc pv (cs1 ++ cs2) = last_loc (last_loc pv cs1) cs2.
Proof. revert pv. induction cs1 as [|c cs1 IH]; simpl; auto. Qed.

Lemma chain_app ns pv cs1 cs2 nx :
  chain ns pv (cs1 ++ cs2) nx <->
  chain ns pv cs1 (first_loc cs2 nx) /\ chain ns (last_loc pv cs1) cs2 nx.
Proof.
  revert pv. induction cs1 as [|[a [x d]] cs1 IH]; intros pv; simpl; [naive_solver|].
  rewrite first_loc_app, IH. naive_solver.
Qed.

Lemma chain_insert ns pv cs nx a n :
  a ∉ cs.*1 -> chain ns pv cs nx -> chain (<[a := n]> ns) pv cs nx.
Proof.
  revert pv. induction cs as [|[b [x d]] cs IH]; intros pv Ha; simpl; [done|].
  intros [Hb Hc]. rewrite lookup_insert_ne by set_solver. split; [done|]. apply IH; set_solver.
Qed.

Lemma chain_delete ns pv cs nx a :
  a ∉ cs.*1 -> chain ns pv cs nx -> chain (delete a ns) pv cs nx.
Proof.
  revert pv. induction cs as [|[b [x d]] cs IH]; intros pv Ha; simpl; [done|].
  intros [Hb Hc]. rewrite lookup_delete_ne by set_solver. split; [done|]. apply IH; set_solver.
Qed.

Lemma chain_lookup ns pv cs1 a x d cs2 nx :
  chain ns pv (cs1 ++ (a, (x, d)) :: cs2) nx ->
  ns !! a = Some (mkNode (first_loc cs2 nx) (last_loc pv cs1) x d).
Proof. intros [_ [H _]]%chain_app. done. Qed.

Lemma node_upd_Some ns a n f :
  ns !! a = Some n -> node_upd ns (Some a) f = Some (<[a := f n]> ns).
Proof. intros H. unfold node_upd. simpl. by rewrite H. Qed.

Lemma dom_update ns a n n' : ns !! a = Some n -> dom (<[a := n']> ns) = dom ns.
Proof. intros H. apply dom_insert_lookup_L. eauto. Qed.

Lemma rep_lookup l cs1 a x d cs2 :
  rep l (cs1 ++ (a, (x, d)) :: cs2) ->
  l_nodes l !! a = Some (mkNode (first_loc cs2 None) (last_loc None cs1) x d).
Proof. intros H. eapply chain_lookup, rep_chain, H. Qed.

(** A node is the head (the tail) of the list exactly when no cell precedes
    (follows) it. *)
Lemma rep_at_head l cs1 a c cs2 :
  rep l (cs1 ++ (a, c) :: cs2) ->
  bool_decide (Some a = l_head l) = match cs1 with [] => true | _ => false end.
Proof.
  intros H. rewrite (rep_head _ _ H), first_loc_app. pose proof (rep_nodup _ _ H) as Hn.
  destruct cs1 as [|[b ?] cs1]; simpl in *; [by rewrite bool_decide_true|].
  apply bool_decide_eq_false. intros [= ->]. apply NoDup_cons in Hn as [Hn _].
  apply Hn. rewrite fmap_app. set_solver.
Qed.

Lemma last_loc_elem pv cs b : last_loc pv cs = Some b -> b ∈ cs.*1 \/ cs = [] /\ pv = Some b.
Proof.
  revert pv. induction cs as [|c cs IH]; simpl; intros pv H; [auto|].
  apply IH in H as [|[-> ?]]; simplify_eq; set_solver.
Qed.

Lemma rep_at_tail l cs1 a c cs2 :
  rep l (cs1 ++ (a, c) :: cs2) ->
  bool_decide (Some a = l_tail l) = match cs2 with [] => true | _ => false end.
Proof.
  intros H. rewrite (rep_tail _ _ H), last_loc_app. pose proof (rep_nodup _ _ H) as Hn.
  simpl. destruct cs2 as [|c2 cs2]; [by rewrite bool_decide_true|].
  apply bool_decide_eq_false. intros E. symmetry in E.
  apply last_loc_elem in E as [E|[? _]]; [|done].
  rewrite fmap_app, NoDup_app, fmap_cons, NoDup_cons in Hn. by apply Hn.
Qed.

Lemma length_u64_pred (n : nat) x :
  x = u64 (Z.of_nat (S n)) -> u64 (x - 1) = u64 (Z.of_nat n).
Proof. intros ->. unfold u64. rewrite wrap_sub_l. f_equal. lia. Qed.

Lemma length_u64_succ (n : nat) x :
  x = u64 (Z.of_nat n) -> u64 (x + 1) = u64 (Z.of_nat (S n)).
Proof. intros ->. unfold u64. rewrite wrap_add_l. f_equal. lia. Qed.

(** Storing [nx'] in the [next] field of the last cell of a segment, and
    [pv'] in the [prev] field of its first cell; an empty segment has no field
    to store in. *)
Definition upd_last ns cs (nx' : option loc) : option (gmap loc (ListNode Item)) :=
  match cs with [] => Some ns | _ => node_upd ns (last_loc None cs) (fun m => set_next m nx') end.
Definition upd_first ns cs (pv' : option loc) : option (gmap loc (ListNode Item)) :=
  match cs with [] => Some ns | _ => node_upd ns (first_loc cs None) (fun m => set_prev m pv') end.

Lemma upd_last_chain ns cs nx nx' :
  chain ns None cs nx -> NoDup cs.*1 ->
  exists ns', upd_last ns cs nx' = Some ns' /\ chain ns' None cs nx' /\ dom ns' = dom ns /\
    forall b, b ∉ cs.*1 -> ns' !! b = ns !! b.
Proof.
  intros Hc Hn. destruct (snoc_inv cs) as [-> | (cs' & [p [y e]] & ->)]; [by exists ns|].
  pose proof (chain_lookup _ _ _ _ _ _ [] _ Hc) as Hp. apply chain_app in Hc as [Hc _].
  exists (<[p := mkNode nx' (last_loc None cs') y e]> ns).
  rewrite fmap_app, NoDup_app in Hn. destruct Hn as (_ & Hn & _).
  repeat split.
  - unfold upd_last. rewrite last_loc_app. destruct (cs' ++ _) eqn:E; [by destruct cs'|].
    simpl last_loc. by erewrite node_upd_Some by done.
  - apply chain_app. simpl. rewrite lookup_insert_eq. repeat split.
    apply chain_insert; set_solver.
  - by eapply dom_update.
  - intros b Hb. rewrite lookup_insert_ne; [done|]. rewrite fmap_app in Hb. set_solver.
Qed.

Lemma upd_first_chain ns cs pv pv' nx :
  chain ns pv cs nx -> NoDup cs.*1 ->
  exists ns', upd_first ns cs pv' = Some ns' /\ chain ns' pv' cs nx /\ dom ns' = dom ns /\
    forall b, b ∉ cs.*1 -> ns' !! b = ns !! b.
Proof.
  intros Hc Hn. destruct cs as [|[q [z f]] cs]; [by exists ns|].
  destruct Hc as [Hq Hc]. rewrite fmap_cons, NoDup_cons in Hn. destruct Hn as [Hn _].
  exists (<[q := mkNode (first_loc cs nx) pv' z f]> ns). simpl. repeat split.
  - unfold upd_first. simpl. by rewrite Hq.
  - by rewrite lookup_insert_eq.
  - by apply chain_insert.
  - by eapply dom_update.
  - intros b Hb. rewrite lookup_insert_ne; [done|]. set_solver.
Qed.

(** Segments of a store that agrees on their cells. *)
Lemma chain_ext ns ns' pv cs nx :
  (forall b, b ∈ cs.*1 -> ns' !! b = ns !! b) -> chain ns pv cs nx -> chain ns' pv cs nx.
Proof.
  revert pv. induction cs as [|[b [x d]] cs IH]; intros pv Heq; simpl; [done|].
  intros [Hb Hc]. rewrite Heq by set_solver. split; [done|]. apply IH; set_solver.
Qed.

(** Bypassing the cell between [cs1] and [cs2]. *)
Lemma chain_bypass ns cs1 a x d cs2 :
  chain ns None (cs1 ++ (a, (x, d)) :: cs2) None ->
  NoDup (cs1 ++ (a, (x, d)) :: cs2).*1 ->
  exists ns1 ns2,
    upd_last ns cs1 (first_loc cs2 None) = Some ns1 /\
    upd_first ns1 cs2 (last_loc None cs1) = Some ns2 /\
    chain (delete a ns2) None (cs1 ++ cs2) None /\ dom ns2 = dom ns /\ ns2 !! a = ns !! a.
Proof.
  intros Hc Hn.
  rewrite fmap_app, fmap_cons, NoDup_app, NoDup_cons in Hn. destruct Hn as (Hn1 & Hd & Ha & Hn2).
  apply chain_app in Hc as [H1 [Hax H2]].
  destruct (upd_last_chain ns cs1 _ (first_loc cs2 None) H1 Hn1) as (ns1 & E1 & C1 & D1 & F1).
  assert (H2' : chain ns1 (Some a) cs2 None).
  { eapply chain_ext; [|exact H2]. intros b Hb. apply F1. set_solver. }
  destruct (upd_first_chain ns1 cs2 _ (last_loc None cs1) _ H2' Hn2) as (ns2 & E2 & C2 & D2 & F2).
  exists ns1, ns2. repeat split; [done|done| |congruence|].
  - apply chain_delete; [rewrite fmap_app; set_solver|]. apply chain_app. split; [|done].
    eapply chain_ext; [|exact C1]. intros b Hb. apply F2. set_solver.
  - rewrite F2 by done. apply F1. set_solver.
Qed.

(** [List_RemoveNode] followed by [free] removes the cell; the node keeps its
    item until it is freed. *)
Lemma RemoveNode_rep l cs1 a x d cs2 :
  rep l (cs1 ++ (a, (x, d)) :: cs2) ->
  exists l', List_RemoveNode l a = Some l' /\ meta l' = meta l /\ l_sem l' = l_sem l /\
    l_nodes l' !! a = l_nodes l !! a /\
    rep (free_node l' a) (cs1 ++ cs2).
Proof.
  intros H. pose proof (rep_lookup _ _ _ _ _ _ H) as Hax.
  destruct (chain_bypass _ _ _ _ _ _ (rep_chain _ _ H) (rep_nodup _ _ H))
    as (ns1 & ns2 & E1 & E2 & Hc & Hd & Ha).
  exists (set_length (set_links l (first_loc (cs1 ++ cs2) None) (last_loc None (cs1 ++ cs2)) ns2)
            (u64 (l_length l - 1))).
  repeat split; try done; simpl.
  - unfold List_RemoveNode. rewrite (rep_head _ _ H) at 1. rewrite first_loc_app. simpl.
    rewrite (rep_at_head _ _ _ _ _ H), (rep_at_tail _ _ _ _ _ H), Hax. simpl.
    rewrite first_loc_app, last_loc_app. unfold upd_last, upd_first in *.
    pose proof (rep_head _ _ H) as Hh. pose proof (rep_tail _ _ H) as Ht.
    rewrite last_loc_app in Ht.
    destruct cs1 as [|c1 cs1], cs2 as [|c2 cs2]; simpl in *; simplify_eq; simpl.
    + done.
    + rewrite E2. simpl. by rewrite Ht.
    + rewrite E1. simpl. by rewrite Hh.
    + rewrite E1. simpl. rewrite E2. simpl. by rewrite Hh, Ht.
  - pose proof (rep_nodup _ _ H) as Hn. rewrite fmap_app, fmap_cons in *.
    apply NoDup_app in Hn as (? & ? & [? ?]%NoDup_cons). apply NoDup_app. set_solver.
  - rewrite dom_delete_L, Hd, (rep_dom _ _ H). pose proof (rep_nodup _ _ H) as Hn.
    rewrite !fmap_app, fmap_cons in *. apply NoDup_app in Hn as (? & ? & [? ?]%NoDup_cons).
    rewrite !list_to_set_app_L. set_solver.
  - apply length_u64_pred. rewrite (rep_length _ _ H), !length_app. simpl. f_equal. lia.
Qed.

(** The list with a fresh, still unlinked node in its store. *)
Definition with_new l (x : Item) : List_t St Key Item :=
  set_links l (l_head l) (l_tail l)
    (<[fresh (dom (l_nodes l)) := mkNode None None x false]> (l_nodes l)).

Lemma rep_fresh l cs : rep l cs -> fresh (dom (l_nodes l)) ∉ cs.*1.
Proof.
  intros H. pose proof (is_fresh (dom (l_nodes l))) as Hf. rewrite (rep_dom _ _ H) in Hf at 2.
  by rewrite elem_of_list_to_set in Hf.
Qed.

Lemma Queue_Push_rep l cs x :
  rep l cs ->
  let a := fresh (dom (l_nodes l)) in
  exists l', List_Queue_Push (with_new l x) a = Some l' /\ meta l' = meta l /\
    l_sem l' = l_sem l /\ l_length l' = l_length l /\
    l_head l' = first_loc (cs ++ [(a, (x, false))]) None /\ l_tail l' = Some a /\
    chain (l_nodes l') None (cs ++ [(a, (x, false))]) None /\
    dom (l_nodes l') = {[a]} ∪ dom (l_nodes l).
Proof.
  intros H a. pose proof (rep_fresh _ _ H) as Ha. fold a in Ha. unfold List_Queue_Push.
  simpl l_tail. simpl l_head. rewrite (rep_tail _ _ H), (rep_head _ _ H), first_loc_app.
  destruct (last_loc None cs) as [t|] eqn:Et.
  2:{ assert (cs = []) as ->.
      { destruct (snoc_inv cs) as [?|(? & ? & ->)]; [done|]. by rewrite last_loc_app in Et. }
      eexists; repeat split; simpl; fold a; [by rewrite lookup_insert_eq|by rewrite dom_insert_L]. }
  fold a. set (ns1 := <[a := mkNode None (Some t) x false]> (l_nodes l)).
  destruct (upd_last_chain ns1 cs None (Some a)) as (ns2 & E & Hc & Hd & Hf).
  { apply chain_insert; [done|]. apply (rep_chain _ _ H). }
  { apply (rep_nodup _ _ H). }
  exists (set_links (with_new l x) (first_loc cs (Some a)) (Some a) ns2).
  repeat split; simpl.
  - fold a. rewrite lookup_insert_eq. simpl. rewrite insert_insert_eq. unfold set_prev. simpl.
    fold ns1. destruct cs as [|c cs]; [done|]. unfold upd_last in E. rewrite Et in E. simpl in E.
    by rewrite E.
  - apply chain_app. split; [done|]. rewrite Et. simpl. split; [|done].
    rewrite Hf by done. apply lookup_insert_eq.
  - rewrite Hd. apply dom_insert_L.
Qed.

Lemma Stack_Push_rep l cs x :
  rep l cs ->
  let a := fresh (dom (l_nodes l)) in
  exists l', List_Stack_Push (with_new l x) a = Some l' /\ meta l' = meta l /\
    l_sem l' = l_sem l /\ l_length l' = l_length l /\
    l_head l' = Some a /\ l_tail l' = last_loc (Some a) cs /\
    chain (l_nodes l') None ((a, (x, false)) :: cs) None /\
    dom (l_nodes l') = {[a]} ∪ dom (l_nodes l).
Proof.
  intros H a. pose proof (rep_fresh _ _ H) as Ha. fold a in Ha. unfold List_Stack_Push.
  simpl l_head. simpl l_tail. rewrite (rep_tail _ _ H), (rep_head _ _ H).
  destruct cs as [|c cs].
  { eexists; repeat split; simpl; fold a; [by rewrite lookup_insert_eq|by rewrite dom_insert_L]. }
  fold a. set (ns1 := <[a := mkNode (Some c.1) None x false]> (l_nodes l)).
  destruct (upd_first_chain ns1 (c :: cs) None (Some a) None) as (ns2 & E & Hc & Hd & Hf).
  { apply chain_insert; [done|]. apply (rep_chain _ _ H). }
  { apply (rep_nodup _ _ H). }
  exists (set_links (with_new l x) (Some a) (last_loc None (c :: cs)) ns2).
  repeat split; simpl; [| |done|].
  - fold a. rewrite lookup_insert_eq. simpl. rewrite insert_insert_eq. unfold set_next. simpl.
    fold ns1.
    unfold upd_first in E. simpl in E. by rewrite E.
  - rewrite Hf by done. apply lookup_insert_eq.
  - rewrite Hd. apply dom_insert_L.
Qed.

(** Whether [List_Push] refuses the item because of the limit. *)
Definition at_limit l : bool := (0 <? l_limit l) && (l_limit l <=? l_length l).

Definition is_stack l : bool := l_mode l == LIST_MODE_STACK.
Definition known_mode l : bool :=
  (l_mode l == LIST_MODE_GENERIC) || (l_mode l == LIST_MODE_QUEUE) || is_stack l.

Lemma Push_rep l cs x :
  rep l cs -> at_limit l = false -> known_mode l = true ->
  exists l' a, List_Push true (Some l) x = Some (true, Some l') /\ meta l' = meta l /\
    l_sem l' = option_map (fun c => c + 1) (l_sem l) /\ (a ∉ cs.*1) /\
    rep l' (if is_stack l then (a, (x, false)) :: cs else cs ++ [(a, (x, false))]).
Proof.
  intros H Hl Hm. unfold List_Push. simpl. fold (at_limit l) (is_stack l) (with_new l x).
  rewrite Hl. pose proof (rep_fresh _ _ H) as Ha. set (a := fresh (dom (l_nodes l))) in *.
  assert (Hs : is_stack l = negb ((l_mode l == LIST_MODE_GENERIC) || (l_mode l == LIST_MODE_QUEUE))).
  { unfold known_mode, is_stack, LIST_MODE_STACK, LIST_MODE_GENERIC, LIST_MODE_QUEUE in *.
    destruct (Z.eqb_spec (l_mode l) 0), (Z.eqb_spec (l_mode l) 1), (Z.eqb_spec (l_mode l) 2);
      simpl in *; congruence || lia. }
  rewrite Hs. destruct (_ || _); simpl.
  - destruct (Queue_Push_rep l cs x H) as (l' & E & Hme & Hse & Hle & Hh & Ht & Hc & Hd).
    fold a in E, Hh, Ht, Hc, Hd. rewrite E. simpl. eexists; exists a.
    split_and!; [reflexivity|exact Hme|simpl; by rewrite Hse|done|].
    constructor; [done|by rewrite last_loc_app|done|..].
    + rewrite fmap_app. apply NoDup_app. split; [apply (rep_nodup _ _ H)|]. split; [set_solver|].
      apply NoDup_singleton.
    + simpl. rewrite Hd, (rep_dom _ _ H), fmap_app, list_to_set_app_L. set_solver.
    + simpl. rewrite length_app, Nat.add_1_r, Hle. by apply length_u64_succ, (rep_length _ _ H).
  - destruct (Stack_Push_rep l cs x H) as (l' & E & Hme & Hse & Hle & Hh & Ht & Hc & Hd).
    fold a in E, Hh, Ht, Hc, Hd. rewrite E. simpl. eexists; exists a.
    split_and!; [reflexivity|exact Hme|simpl; by rewrite Hse|done|].
    constructor; [done..| | |]; simpl.
    + apply NoDup_cons. split; [done|apply (rep_nodup _ _ H)].
    + by rewrite Hd, (rep_dom _ _ H).
    + rewrite Hle. by apply length_u64_succ, (rep_length _ _ H).
Qed.
End Representation.

(** ** Specification: the operations on plain sequences *)

Module spec.
Section spec.
Context {A : Type}.

(** A stack grows at its head, the other modes at the tail. *)
Definition push (stack : bool) (xs : list A) (x : A) : list A :=
  if stack then x :: xs else xs ++ [x].

(** Every mode pops at the end it pushes at. *)
Definition pop (stack : bool) (xs : list A) : option (A * list A) :=
  if stack then match xs with [] => None | x :: xs' => Some (x, xs') end
  else match reverse xs with [] => None | x :: xs' => Some (x, reverse xs') end.

(** The order in which repeated pops deliver a sequence. *)
Definition pop_order (stack : bool) (xs : list A) : list A :=
  if stack then xs else reverse xs.

(** The items a mask of removal marks keeps, and those it removes. *)
Fixpoint select (b : bool) (m : list bool) (xs : list A) : list A :=
  match m, xs with
  | d :: m', x :: xs' => if Bool.eqb d b then x :: select b m' xs' else select b m' xs'
  | _, _ => []
  end.

Lemma pop_push stack xs x : pop stack (push stack xs x) = Some (x, xs).
Proof.
  destruct stack; simpl; [done|]. unfold pop, push.
  rewrite reverse_app. simpl. by rewrite reverse_involutive.
Qed.

Lemma pop_None stack xs : pop stack xs = None <-> xs = [].
Proof.
  destruct stack, xs; unfold pop; split; try done. by rewrite reverse_cons; destruct (reverse xs).
Qed.

Lemma pop_Some stack xs x xs' :
  pop stack xs = Some (x, xs') <-> xs = push stack xs' x.
Proof.
  destruct stack; unfold pop, push.
  - destruct xs; naive_solver.
  - destruct (snoc_inv xs) as [-> | (ys & y & ->)].
    + split; [done|]. by destruct xs'.
    + rewrite reverse_app. simpl. rewrite reverse_involutive. split; [naive_solver|].
      intros E. apply app_inj_tail in E as [-> ->]. done.
Qed.
End spec.

Lemma push_fmap {A B} (f : A -> B) stack xs x :
  f <$> push stack xs x = push stack (f <$> xs) (f x).
Proof. destruct stack; simpl; [done|]. by rewrite fmap_app. Qed.

Section each.
Context {St Item U : Type}.
Variable op : Item -> U -> St -> option (Z * U * St).
Variables lock unlock : option (Item -> St -> St).

(** Iteration over a sequence: the result, the removal marks, the user data
    and the store. *)
Fixpoint scan (xs : list Item) (u : U) (s : St) (ret : bool)
    : option (bool * list bool * U * St) :=
  match xs with
  | [] => Some (ret, [], u, s)
  | x :: xs' =>
      '(r, u1, s1) ← op x u (run_callback lock x s);
      let s2 := run_callback unlock x s1 in
      if r == LIST_EACH_ERROR then Some (false, replicate (length xs) false, u1, s2)
      else if r == LIST_EACH_END then Some (ret, replicate (length xs) false, u1, s2)
      else
        '(ret', m, u', s') ← scan xs' u1 s2 ret;
        Some (ret', (r == LIST_EACH_REMOVE) :: m, u', s')
  end.
End each.

Definition destroy_all {St Item} (destroy : option (Item -> St -> St)) (xs : list Item) (s : St)
    : St := foldl (fun s x => run_callback destroy x s) s xs.

(** [List_ForEach] on a sequence: the result, the items that stay, the user
    data and the store after the removed items were destroyed in order. *)
Definition for_each {St Item U} (op : Item -> U -> St -> option (Z * U * St))
    (lock unlock destroy : option (Item -> St -> St)) (xs : list Item) (u : U) (s : St)
    : option (bool * list Item * U * St) :=
  '(ret, m, u', s') ← scan op lock unlock xs u s true;
  Some (ret, select false m xs, u', destroy_all destroy (select true m xs) s').
End spec.

(** ** Refinement of pops and of iteration *)

Section Refinement.
Context {St Key Item : Type}.
Implicit Types (l : List_t St Key Item) (s : St).
Implicit Types (cs : list (loc * (Item * bool))).

Lemma rep_nil_head l : rep l [] -> l_head l = None /\ l_tail l = None.
Proof. intros H. by rewrite (rep_head _ _ H), (rep_tail _ _ H). Qed.

Lemma Do_Pop_nil l : rep l [] -> List_Do_Pop l = Some (None, l).
Proof.
  intros [Hh Ht]%rep_nil_head. unfold List_Do_Pop, List_Queue_Pop, List_Stack_Pop.
  rewrite Hh, Ht. by repeat case_match.
Qed.

Lemma Do_Pop_push l cs a x d :
  known_mode l = true -> rep l (spec.push (is_stack l) cs (a, (x, d))) ->
  exists l' n, List_Do_Pop l = Some (Some a, l') /\ meta l' = meta l /\ l_sem l' = l_sem l /\
    l_nodes l' !! a = Some n /\ n_item n = x /\ rep (free_node l' a) cs.
Proof.
  unfold List_Do_Pop, known_mode. intros Hm H. destruct (is_stack l) eqn:Hs; simpl in H.
  - pose proof (RemoveNode_rep l [] a x d cs H) as (l' & E & Hme & Hse & Ha & Hr).
    rewrite (rep_lookup _ [] _ _ _ _ H) in Ha.
    replace ((l_mode l == LIST_MODE_GENERIC) || (l_mode l == LIST_MODE_QUEUE)) with false.
    2:{ unfold is_stack in Hs. apply Z.eqb_eq in Hs. by rewrite Hs. }
    unfold is_stack in Hs. rewrite Hs. unfold List_Stack_Pop. rewrite (rep_head _ _ H). simpl.
    rewrite E. simpl. eauto 10.
  - rewrite orb_false_r in Hm. rewrite Hm.
    pose proof (RemoveNode_rep l cs a x d [] H) as (l' & E & Hme & Hse & Ha & Hr).
    rewrite (rep_lookup _ _ _ _ _ [] H) in Ha. rewrite app_nil_r in Hr.
    unfold List_Queue_Pop. rewrite (rep_tail _ _ H), last_loc_app. simpl.
    rewrite E. simpl. eauto 10.
Qed.

(** *** Marks *)

(** The cells after the removal marks [m] were added to theirs. *)
Definition marked cs (m : list bool) : list (loc * (Item * bool)) :=
  zip_with (fun c d => (c.1, (c.2.1, d || c.2.2))) cs m.

Lemma rep_set_del l cs1 a x d cs2 d' :
  rep l (cs1 ++ (a, (x, d)) :: cs2) ->
  rep (set_links l (l_head l) (l_tail l)
         (<[a := mkNode (first_loc cs2 None) (last_loc None cs1) x d']> (l_nodes l)))
      (cs1 ++ (a, (x, d')) :: cs2).
Proof.
  intros H. pose proof (rep_lookup _ _ _ _ _ _ H) as Ha.
  destruct H as [Hh Ht Hc Hn Hd Hl]. pose proof Hn as Hn'.
  rewrite fmap_app, fmap_cons, NoDup_app, NoDup_cons in Hn'. destruct Hn' as (_ & Hx & Hy & _).
  apply chain_app in Hc as [Hc1 [_ Hc2]]. constructor; simpl.
  - by rewrite Hh, !first_loc_app.
  - by rewrite Ht, !last_loc_app.
  - apply chain_app. simpl. rewrite lookup_insert_eq. repeat split.
    + apply chain_insert; [set_solver|done].
    + by apply chain_insert.
  - by rewrite fmap_app, fmap_cons in *.
  - erewrite dom_update by done. by rewrite Hd, !fmap_app, !fmap_cons.
  - by rewrite Hl, !length_app.
Qed.

Lemma marked_none cs : marked cs (replicate (length cs) false) = cs.
Proof. unfold marked. induction cs as [|[a [x d]] cs IH]; simpl; [done|]. by rewrite IH. Qed.

Lemma fuel_of_rep l cs : rep l cs -> fuel_of l = length cs.
Proof.
  intros H. unfold fuel_of. rewrite <- size_dom, (rep_dom _ _ H).
  rewrite size_list_to_set by apply (rep_nodup _ _ H). by rewrite length_fmap.
Qed.

(** *** The two loops of [List_ForEach] *)

Lemma scan_rep {U} (op : Item -> U -> St -> option (Z * U * St)) cs1 cs2 l fuel u s ret del :
  rep l (cs1 ++ cs2) -> (length cs2 <= fuel)%nat ->
  match spec.scan op (l_nodeLock l) (l_nodeUnlock l) cs2.*2.*1 u s ret with
  | None => ForEach_scan op fuel l (first_loc cs2 None) u s ret del = None
  | Some (ret', m, u', s') =>
      exists l', ForEach_scan op fuel l (first_loc cs2 None) u s ret del =
                   Some (ret', del || existsb id m, l', u', s') /\
        meta l' = meta l /\ l_sem l' = l_sem l /\
        rep l' (cs1 ++ marked cs2 m) /\ length m = length cs2 /\
        (existsb id m = false -> l' = l)
  end.
Proof.
  revert cs1 l fuel u s ret del.
  induction cs2 as [|[a [x d]] cs2 IH]; intros cs1 l fuel u s ret del H Hfuel.
  { destruct fuel; simpl; rewrite orb_false_r; eauto 10. }
  destruct fuel as [|fuel]; [simpl in Hfuel; lia|]. simpl.
  rewrite (rep_lookup _ _ _ _ _ _ H). simpl.
  destruct (op x u (run_callback (l_nodeLock l) x s)) as [[[r u1] s1]|]; [|done]. simpl.
  pose proof (marked_none ((a, (x, d)) :: cs2)) as Hstop.
  assert (Hex : existsb id (replicate (length cs2) false) = false).
  { generalize (length cs2) as k. intros k. induction k; simpl; auto. }
  rewrite !length_fmap.
  destruct (r == LIST_EACH_ERROR) eqn:E1; [|destruct (r == LIST_EACH_END) eqn:E2].
  1,2: exists l; simpl; rewrite Hex, orb_false_r; split_and!; try done;
    [rewrite <- Hstop in H; exact H|by rewrite length_replicate].
  simpl in Hfuel. destruct (r == LIST_EACH_REMOVE) eqn:E3.
  - pose proof (rep_set_del _ _ _ _ _ _ true H) as H'. rewrite (cons_middle (a, _)), app_assoc in H'.
    specialize (IH _ _ fuel u1 (run_callback (l_nodeUnlock l) x s1) ret true H' ltac:(lia)).
    simpl in IH. destruct (spec.scan _ _ _ _ _ _ _) as [[[[ret' m] u'] s']|]; simpl; [|done].
    destruct IH as (l' & E & Hme & Hse & Hr & Hle & _). exists l'. unfold set_del. simpl.
    rewrite E, orb_true_r.
    split_and!; [done|done|done| |simpl; lia|done]. by rewrite <- app_assoc in Hr.
  - rewrite (cons_middle (a, _)), app_assoc in H.
    specialize (IH _ _ fuel u1 (run_callback (l_nodeUnlock l) x s1) ret del H ltac:(lia)).
    destruct (spec.scan _ _ _ _ _ _ _) as [[[[ret' m] u'] s']|]; simpl; [|done].
    destruct IH as (l' & E & Hme & Hse & Hr & Hle & Hid). exists l'. rewrite E.
    split_and!; [done|done|done| |simpl; lia|done]. by rewrite <- app_assoc in Hr.
Qed.

Definition kept cs := filter (fun c => c.2.2 = false) cs.
Definition doomed cs : list Item := (filter (fun c => c.2.2 = true) cs).*2.*1.

Lemma prune_rep cs1 cs2 l fuel s :
  rep l (cs1 ++ cs2) -> (length cs2 <= fuel)%nat ->
  exists l', ForEach_prune fuel l (first_loc cs2 None) s =
               Some (l', spec.destroy_all (l_destroy l) (doomed cs2) s) /\
    meta l' = meta l /\ l_sem l' = l_sem l /\ rep l' (cs1 ++ kept cs2).
Proof.
  revert cs1 l fuel s. induction cs2 as [|[a [x d]] cs2 IH]; intros cs1 l fuel s H Hfuel.
  { destruct fuel; simpl; eauto 10. }
  destruct fuel as [|fuel]; [simpl in Hfuel; lia|]. simpl in *.
  pose proof (rep_lookup _ _ _ _ _ _ H) as Ha. rewrite Ha. simpl. destruct d.
  - destruct (RemoveNode_rep _ _ _ _ _ _ H) as (l' & E & Hme & Hse & _ & Hr). rewrite E. simpl.
    destruct (IH _ _ fuel (run_callback (l_destroy l) x s) Hr ltac:(lia)) as (l2 & E2 & Hm2 & Hs2 & Hr2).
    assert (Hde : l_destroy (free_node l' a) = l_destroy l).
    { simpl. unfold meta in Hme. congruence. }
    rewrite E2, Hde. exists l2. split_and!; [done| |by rewrite Hs2|done].
    rewrite Hm2. exact Hme.
  - rewrite (cons_middle (a, _)), app_assoc in H.
    destruct (IH _ _ fuel s H ltac:(lia)) as (l2 & E2 & Hm2 & Hs2 & Hr2).
    exists l2. split_and!; [done..|]. by rewrite <- app_assoc in Hr2.
Qed.
End Refinement.

(** ** Theorems *)

Section Theorems.
Context {St Key Item : Type}.
Implicit Types (l : List_t St Key Item) (s : St) (xs : list Item).

(** *** Insertion and removal at the ends *)

Lemma contents_length l xs : contents l xs -> l_length l = u64 (Z.of_nat (length xs)).
Proof. intros (cs & H & _ & <-). rewrite (rep_length _ _ H). by rewrite !length_fmap. Qed.

Lemma contents_nil_head l xs : contents l xs -> l_head l = None <-> xs = [].
Proof.
  intros (cs & H & _ & <-). rewrite (rep_head _ _ H). by destruct cs.
Qed.

Lemma contents_sem l xs c : contents l xs -> contents (set_sem l c) xs.
Proof. intros (cs & [] & ?). exists cs. done. Qed.

Lemma Create_contents co lo so mode cmp kc de cl nl nu l :
  List_Create co lo so mode cmp kc de cl nl nu = Some l -> contents l [].
Proof.
  unfold List_Create. intros H. repeat case_match; simplify_eq; exists [];
    (split; [constructor; done || constructor|done]).
Qed.

Lemma Push_ok l xs x :
  contents l xs -> at_limit l = false -> known_mode l = true ->
  exists l', List_Push true (Some l) x = Some (true, Some l') /\ meta l' = meta l /\
    l_sem l' = option_map (fun c => c + 1) (l_sem l) /\
    contents l' (spec.push (is_stack l) xs x).
Proof.
  intros (cs & H & Hf & <-) Hl Hm.
  destruct (Push_rep l cs x H Hl Hm) as (l' & a & E & Hme & Hse & _ & Hr).
  exists l'. split_and!; [done..|]. eexists. split; [exact Hr|].
  destruct (is_stack l); simpl.
  - by split; [constructor|].
  - rewrite fmap_app, fmap_app. split; [|done]. apply Forall_app. split; [done|]. by constructor.
Qed.

Lemma Push_refused ok l x :
  ok && negb (at_limit l) && known_mode l = false ->
  List_Push ok (Some l) x = Some (false, Some l).
Proof.
  unfold List_Push. fold (at_limit l). destruct ok; simpl; [|done].
  destruct (at_limit l); simpl; [done|]. unfold known_mode, is_stack.
  by destruct (l_mode l == LIST_MODE_GENERIC), (l_mode l == LIST_MODE_QUEUE),
    (l_mode l == LIST_MODE_STACK).
Qed.

Lemma Do_Pop_contents l xs :
  contents l xs -> known_mode l = true ->
  match spec.pop (is_stack l) xs with
  | None => List_Do_Pop l = Some (None, l)
  | Some (x, xs') => exists a l' n, List_Do_Pop l = Some (Some a, l') /\ meta l' = meta l /\
      l_sem l' = l_sem l /\ l_nodes l' !! a = Some n /\ n_item n = x /\
      contents (free_node l' a) xs'
  end.
Proof.
  intros (cs & H & Hf & <-) Hm.
  destruct (spec.pop (is_stack l) cs) as [[[a [x d]] cs']|] eqn:E.
  - apply spec.pop_Some in E. subst cs. rewrite !spec.push_fmap. simpl.
    rewrite spec.pop_push. destruct (Do_Pop_push l cs' a x d Hm H) as (l' & n & ? & ? & ? & ? & ? & Hr).
    exists a, l', n. split_and!; [done..|]. exists cs'. split_and!; [done| |done].
    destruct (is_stack l); simpl in Hf; [by inversion Hf|]. by apply Forall_app in Hf as [??].
  - apply spec.pop_None in E. subst cs. simpl.
    replace (spec.pop (is_stack l) []) with (@None (Item * list Item)) by by destruct (is_stack l).
    by apply Do_Pop_nil.
Qed.

(** *** Iteration *)

Lemma kept_cons a (x : Item) d cs :
  kept ((a, (x, d)) :: cs) = if d then kept cs else (a, (x, d)) :: kept cs.
Proof. by destruct d. Qed.

Lemma doomed_cons a (x : Item) d cs :
  doomed ((a, (x, d)) :: cs) = if d then x :: doomed cs else doomed cs.
Proof. by destruct d. Qed.

Lemma select_marked (cs : list (loc * (Item * bool))) m :
  Forall (fun c => c.2.2 = false) cs -> length m = length cs ->
  (kept (marked cs m)).*2.*1 = spec.select false m cs.*2.*1 /\
  doomed (marked cs m) = spec.select true m cs.*2.*1.
Proof.
  intros Hf. revert m. induction Hf as [|[a [x d]] cs Hd _ IH]; intros [|b m] Hl; simplify_eq/=; [done|].
  change (marked ((a, (x, false)) :: cs) (b :: m)) with ((a, (x, b || false)) :: marked cs m).
  rewrite kept_cons, doomed_cons. destruct (IH m Hl) as [H1 H2].
  destruct b; csimpl; by rewrite H1, H2.
Qed.

Lemma marked_all_kept (cs : list (loc * (Item * bool))) m :
  length m = length cs -> existsb id m = false ->
  marked cs m = cs /\
  spec.select false m cs.*2.*1 = cs.*2.*1 /\ spec.select true m cs.*2.*1 = [].
Proof.
  unfold marked. revert m. induction cs as [|[a [x d]] cs IH]; intros [|[] m] Hl He; simplify_eq/=;
    [done|].
  destruct (IH m ltac:(lia) He) as (H1 & H2 & H3). by rewrite H1, H2, H3.
Qed.

Lemma select_full m : forall xs : list Item,
  length m = length xs -> length (spec.select false m xs) = length xs -> existsb id m = false.
Proof.
  assert (Hle : forall m (xs : list Item), (length (spec.select false m xs) <= length xs)%nat).
  { clear. induction m as [|b m IH]; intros [|x xs]; simpl; try lia.
    specialize (IH xs). destruct b; simpl; lia. }
  induction m as [|b m IH]; intros [|x xs] Hl E; simplify_eq/=; [done|].
  destruct b; simplify_eq/=; [|by eapply IH].
  specialize (Hle m xs). lia.
Qed.

Lemma ForEach_contents {U} (op : Item -> U -> St -> option (Z * U * St)) l xs u s :
  contents l xs ->
  match spec.for_each op (l_nodeLock l) (l_nodeUnlock l) (l_destroy l) xs u s with
  | None => List_ForEach (Some l) (Some op) u s = None
  | Some (ret, xs', u', s') =>
      exists l', List_ForEach (Some l) (Some op) u s = Some (ret, Some l', u', s') /\
        meta l' = meta l /\ l_sem l' = l_sem l /\ contents l' xs' /\
        (length xs' = length xs -> l' = l)
  end.
Proof.
  intros Hc. pose proof (contents_nil_head _ _ Hc) as Hnil.
  destruct Hc as (cs & H & Hf & <-). unfold spec.for_each, List_ForEach.
  destruct (l_head l) as [h|] eqn:Hh.
  2:{ assert (cs = []) as -> by (destruct cs; [done|]; by discriminate (proj1 Hnil eq_refl)).
      simpl. exists l. split_and!; [done|done|done| |done]. by exists []. }
  rewrite <- Hh, (rep_head _ _ H).
  pose proof (scan_rep op [] cs l (fuel_of l) u s true false H) as Hscan.
  specialize (Hscan ltac:(by rewrite (fuel_of_rep _ _ H))).
  destruct (spec.scan _ _ _ _ _ _ _) as [[[[ret m] u'] s']|]; simpl; [|by rewrite Hscan].
  destruct Hscan as (l1 & -> & Hme & Hse & Hr & Hlen & Hid). simpl in *.
  destruct (existsb id m) eqn:He.
  - destruct (prune_rep [] _ l1 (fuel_of l1) s' Hr) as (l2 & E2 & Hm2 & Hs2 & Hr2).
    { by rewrite (fuel_of_rep _ _ Hr). }
    rewrite (rep_head _ _ Hr), E2. simpl. destruct (select_marked cs m Hf Hlen) as [Hk Hd].
    replace (l_destroy l1) with (l_destroy l) by (unfold meta in Hme; congruence).
    rewrite Hd. exists l2. split_and!; [done|congruence|congruence| |].
    + exists (kept (marked cs m)). split_and!; [done| |done].
      apply Forall_forall. intros c [? _]%list_elem_of_filter. done.
    + intros Hfull. apply select_full in Hfull; [congruence|]. by rewrite !length_fmap.
  - destruct (marked_all_kept cs m Hlen He) as (Hk & Hs & Ht). rewrite Hs, Ht.
    rewrite (Hid eq_refl). exists l. split_and!; [done..| |done]. by exists cs.
Qed.
End Theorems.
