(* ===== verification/RzbListProps.v ===== *)
(** * What the operations of src/list.c do to the sequence a list represents

    Each theorem refines one entry point of list.c to the sequence operations of
    [RzbList.spec]; in particular no operation crashes on a well-formed list and
    the fuel of the loops is enough.  The last part runs the critical sections of
    several threads interleaved. *)

From S2P Require Import Prelude RzbList.

Section Props.
Context {St Key Item : Type}.
Implicit Types (l : List_t St Key Item) (s : St) (xs : list Item).

(** *** Helper lemmas *)

Lemma meta_mode l l' : meta l' = meta l -> is_stack l' = is_stack l /\ known_mode l' = known_mode l.
Proof. unfold meta, known_mode, is_stack. intros H. by replace (l_mode l') with (l_mode l) by congruence. Qed.

Lemma Pop_take l xs c :
  contents l xs -> known_mode l = true -> l_sem l = c ->
  exists l', (('(node, l1) ← List_Do_Pop l;
      match node with
      | None => Some (Returned None, Some l1)
      | Some a => n ← l_nodes l1 !! a; Some (Returned (Some (n_item n)), Some (free_node l1 a))
      end) : option (pop_result Item * lptr St Key Item)) =
    Some (Returned (fst <$> spec.pop (is_stack l) xs), Some l') /\
    meta l' = meta l /\ l_sem l' = c /\
    contents l' (match spec.pop (is_stack l) xs with Some (_, xs') => xs' | None => xs end).
Proof.
  intros Hc Hm Hs. pose proof (Do_Pop_contents l xs Hc Hm) as Hp.
  destruct (spec.pop (is_stack l) xs) as [[x xs']|].
  - destruct Hp as (a & l1 & n & -> & Hme & Hse & Ha & Hx & Hc'). simpl. rewrite Ha. simpl.
    exists (free_node l1 a). rewrite <- Hx. split_and!; [done|done|by rewrite <- Hs|done].
  - rewrite Hp. exists l. done.
Qed.

Lemma scan_find (kc : St -> Item -> Key -> Z) (k : Key) xs s r :
  spec.scan (List_FindKeyCmp kc k) None None xs r s true =
  Some (true, replicate (length xs) false,
        match find_first (fun x => kc s x k == 0) xs with Some x => Some x | None => r end, s).
Proof.
  revert r. induction xs as [|x xs IH]; intros r; simpl; [done|].
  replace (List_FindKeyCmp kc k x r s) with
    (if kc s x k == 0 then Some (LIST_EACH_END, Some x, s) else Some (LIST_EACH_OK, r, s)) by done.
  destruct (kc s x k == 0); simpl; [done|]. by rewrite IH.
Qed.

Lemma select_none {A} (ys : list A) :
  spec.select false (replicate (length ys) false) ys = ys /\
  spec.select true (replicate (length ys) false) ys = [].
Proof. induction ys as [|y ys [IH1 IH2]]; simpl; [done|]. by rewrite IH1, IH2. Qed.

Lemma select_filter {A} (p : A -> bool) (ys : list A) :
  spec.select false (map p ys) ys = filter (fun y => p y = false) ys /\
  spec.select true (map p ys) ys = filter (fun y => p y = true) ys.
Proof.
  induction ys as [|y ys [IH1 IH2]]; [done|]. rewrite !filter_cons. simpl. rewrite IH1, IH2.
  by destruct (p y).
Qed.

Definition no_locks l : Prop := l_nodeLock l = None /\ l_nodeUnlock l = None.

Lemma Find_contents l xs kc k s :
  contents l xs -> no_locks l -> l_keyCmp l = Some kc ->
  List_Find (Some l) (Some k) s = Some (find_first (fun x => kc s x k == 0) xs, Some l, s).
Proof.
  intros Hc [Hl1 Hl2] Hk. unfold List_Find. rewrite Hk.
  pose proof (ForEach_contents (List_FindKeyCmp kc k) l xs None s Hc) as H.
  unfold spec.for_each in H. rewrite Hl1, Hl2, scan_find in H. simpl in H.
  destruct (select_none xs) as [E1 E2]. rewrite E1, E2 in H.
  destruct H as (l' & -> & _ & _ & _ & Hid). simpl. rewrite (Hid eq_refl).
  by destruct (find_first _ _).
Qed.

Section Remove.
Context `{EqDecision Item}.

(** The items [List_Remove] takes for the one to remove: the pointer itself
    and every item the comparator equates with it. *)
Definition removes l s (item x : Item) : bool :=
  bool_decide (x = item) || match l_cmp l with Some f => f s x item == 0 | None => false end.

Lemma scan_remove cmp id xs s r :
  let p x := bool_decide (x = id) || match cmp with Some f => f s x id == 0 | None => false end in
  spec.scan (List_FindRemove cmp id) None None xs r s true =
  Some (true, map p xs, foldl (fun r x => if p x then Some x else r) r xs, s).
Proof.
  intros p. revert r. induction xs as [|x xs IH]; intros r; simpl; [done|].
  replace (List_FindRemove cmp id x r s) with
    (if p x then Some (LIST_EACH_REMOVE, Some x, s) else Some (LIST_EACH_OK, r, s)) by done.
  destruct (p x); simpl; by rewrite IH.
Qed.

Lemma foldl_last_Some (p : Item -> bool) xs r :
  match foldl (fun r x => if p x then Some x else r) r xs with Some _ => true | None => false end =
  match r with Some _ => true | None => existsb p xs end.
Proof.
  revert r. induction xs as [|x xs IH]; intros r; simpl; [by destruct r|].
  rewrite IH. destruct (p x), r; done.
Qed.

Lemma Remove_contents l xs item s :
  contents l xs -> no_locks l ->
  exists l', List_Remove (Some l) (Some item) s =
      Some (existsb (removes l s item) xs, Some l',
            spec.destroy_all (l_destroy l) (filter (fun x => removes l s item x = true) xs) s) /\
    meta l' = meta l /\ l_sem l' = l_sem l /\
    contents l' (filter (fun x => removes l s item x = false) xs).
Proof.
  intros Hc [Hl1 Hl2]. unfold List_Remove.
  pose proof (ForEach_contents (List_FindRemove (l_cmp l) item) l xs None s Hc) as H.
  unfold spec.for_each in H. rewrite Hl1, Hl2, scan_remove in H. simpl in H.
  fold (removes l s item) in H.
  change (fun x => bool_decide (x = item) || _) with (removes l s item) in H.
  destruct (select_filter (removes l s item) xs) as [E1 E2]. rewrite E1, E2 in H.
  destruct H as (l' & E & Hme & Hse & Hc' & _). rewrite E. simpl. exists l'.
  split_and!; [|done..]. by rewrite foldl_last_Some.
Qed.
End Remove.

Lemma Clear_contents l xs fuel s :
  contents l xs -> known_mode l = true -> (length xs <= fuel)%nat ->
  exists l', Clear_loop fuel l s =
      Some (l', spec.destroy_all (l_destroy l) (spec.pop_order (is_stack l) xs) s) /\
    meta l' = meta l /\ l_sem l' = l_sem l /\ contents l' [].
Proof.
  revert l xs s. induction fuel as [|fuel IH]; intros l xs s Hc Hm Hf;
    pose proof (Do_Pop_contents l xs Hc Hm) as Hp; simpl;
    destruct (spec.pop (is_stack l) xs) as [[x xs']|] eqn:E.
  1: { apply spec.pop_Some in E. subst xs. destruct (is_stack l); simpl in Hf; [lia|].
       rewrite length_app in Hf. simpl in Hf. lia. }
  1,3: rewrite Hp; apply spec.pop_None in E; subst xs; simpl; exists l; split_and!; try done;
       by destruct (is_stack l).
  destruct Hp as (a & l1 & n & -> & Hme & Hse & Ha & <- & Hc'). simpl. rewrite Ha. simpl.
  apply spec.pop_Some in E. destruct (meta_mode l (free_node l1 a)) as [Hst Hkn]; [done|].
  destruct (IH (free_node l1 a) xs' (run_callback (l_destroy l1) (n_item n) s) Hc')
    as (l' & E' & Hme' & Hse' & Hc''); [by rewrite Hkn| |].
  { subst xs. destruct (is_stack l); unfold spec.push in Hf; simpl in Hf; [lia|].
    rewrite length_app in Hf. simpl in Hf. lia. }
  rewrite E', Hst. assert (Hd : l_destroy l1 = l_destroy l) by (unfold meta in Hme; congruence).
  exists l'. split_and!; [|by rewrite Hme'|by rewrite Hse'|done]. simpl. rewrite Hd. subst xs.
  destruct (is_stack l); simpl; [done|]. by rewrite reverse_app.
Qed.

Lemma fuel_of_contents l xs : contents l xs -> fuel_of l = length xs.
Proof. intros (cs & Hr & _ & <-). by rewrite (fuel_of_rep _ _ Hr), !length_fmap. Qed.

Lemma Clear_all l xs s :
  contents l xs -> known_mode l = true ->
  exists l', Clear_loop (fuel_of l) l s =
      Some (l', spec.destroy_all (l_destroy l) (spec.pop_order (is_stack l) xs) s) /\
    meta l' = meta l /\ l_sem l' = l_sem l /\ contents l' [].
Proof. intros Hc Hm. apply Clear_contents; [done|done|]. by rewrite (fuel_of_contents _ _ Hc). Qed.

Lemma Create_ok mode cmp kc de cl nl nu :
  exists sem, List_Create true true true mode cmp kc de cl nl nu =
    (Some (mkList None None 0 0 mode cmp kc de cl nl nu sem ∅) : lptr St Key Item).
Proof. unfold List_Create. simpl. destruct (_ || _); eauto. Qed.

(** *** Cloning *)

(** The clones of a sequence in order, with the store threaded through; [None]
    as soon as one item cannot be cloned. *)
Fixpoint clone_all (clone : Item -> St -> option Item * St) xs s : option (list Item) * St :=
  match xs with
  | [] => (Some [], s)
  | x :: xs' =>
      match clone x s with
      | (None, s1) => (None, s1)
      | (Some y, s1) =>
          match clone_all clone xs' s1 with
          | (Some ys, s2) => (Some (y :: ys), s2)
          | (None, s2) => (None, s2)
          end
      end
  end.

Lemma foldl_push (stack : bool) (zs ys : list Item) :
  foldl (spec.push stack) zs ys = if stack then reverse ys ++ zs else zs ++ ys.
Proof.
  revert zs. induction ys as [|y ys IH]; intros zs; simpl; [by destruct stack; [|rewrite app_nil_r]|].
  rewrite IH. destruct stack; simpl; [|by rewrite <- app_assoc].
  by rewrite reverse_cons, <- app_assoc.
Qed.

Lemma scan_clone clone xs (d : List_t St Key Item) zs s ret :
  contents d zs -> known_mode d = true -> l_limit d = 0 -> l_clone d = Some clone ->
  exists d' zs', spec.scan List_Clone_Node None None xs (Some d, []) s ret =
      Some (match clone_all clone xs s with (Some _, _) => ret | (None, _) => false end,
            replicate (length xs) false, (Some d', []), (clone_all clone xs s).2) /\
    meta d' = meta d /\ contents d' zs' /\
    (forall ys s', clone_all clone xs s = (Some ys, s') -> zs' = foldl (spec.push (is_stack d)) zs ys).
Proof.
  revert d zs s. induction xs as [|x xs IH]; intros d zs s Hc Hm Hli Hcl.
  { exists d, zs. split_and!; [done..|]. naive_solver. }
  simpl. rewrite Hcl. simpl. destruct (clone x s) as [[y|] s1]; simpl.
  2:{ exists d, zs. split_and!; [done..|]. naive_solver. }
  destruct (Push_ok d zs y Hc) as (d1 & -> & Hme & _ & Hc1); [by unfold at_limit; rewrite Hli|done|].
  destruct (meta_mode _ _ Hme) as [Hst Hkn]. simpl.
  destruct (IH d1 _ s1 Hc1) as (d2 & zs2 & E & Hme2 & Hc2 & Hz);
    [congruence|unfold meta in Hme; congruence|unfold meta in Hme; congruence|].
  rewrite E. simpl. exists d2, zs2. destruct (clone_all clone xs s1) as [[ys|] s2] eqn:Ec; simpl in *.
  - split_and!; [done|congruence|done|]. intros ? ? [= <- <-]. rewrite (Hz ys s2 eq_refl), Hst. done.
  - split_and!; [done|congruence|done|done].
Qed.

(** *** Claims *)

Lemma Clone_contents l xs clone s :
  contents l xs -> no_locks l -> known_mode l = true -> l_clone l = Some clone ->
  exists r l' s', List_Clone true true true [] (Some l) s = Some (r, Some l', s') /\
    contents l' xs /\
    match clone_all clone xs s with
    | (None, _) => r = None
    | (Some ys, s1) => exists d, r = Some d /\ s' = s1 /\ meta d = meta (set_limit l 0) /\
        contents d (if is_stack l then reverse ys else ys)
    end.
Proof.
  intros Hc [Hl1 Hl2] Hm Hcl. unfold List_Clone. rewrite Hcl.
  destruct (Create_ok (l_mode l) (l_cmp l) (l_keyCmp l) (l_destroy l) (Some clone)
              (l_nodeLock l) (l_nodeUnlock l)) as [sm Hd0]. rewrite Hd0.
  pose proof (Create_contents _ _ _ _ _ _ _ _ _ _ _ Hd0) as Hcd.
  set (d0 := mkList _ _ _ _ _ _ _ _ _ _ _ _ _) in *.
  pose proof (ForEach_contents List_Clone_Node l xs (Some d0, []) s Hc) as H.
  unfold spec.for_each in H. rewrite Hl1, Hl2 in H.
  destruct (scan_clone clone xs d0 [] s true Hcd) as (d' & zs' & E & Hme & Hc' & Hz);
    [done|done|done|]. rewrite E in H. simpl in H. destruct (select_none xs) as [E1 E2].
  rewrite E1, E2 in H. destruct H as (l' & E' & _ & _ & Hcl' & _). rewrite E'. simpl.
  destruct (clone_all clone xs s) as [[ys|] s1]; simpl.
  - exists (Some d'), l', s1. split_and!; [done..|]. exists d'. split_and!; [done..| |].
    + rewrite Hme. unfold meta. simpl. by rewrite Hcl.
    + rewrite (Hz ys s1 eq_refl), foldl_push in Hc'. change (is_stack d0) with (is_stack l) in Hc'.
      by destruct (is_stack l); [rewrite app_nil_r in Hc'|].
  - destruct (meta_mode _ _ Hme) as [_ Hkn]. change (known_mode d0) with (known_mode l) in Hkn.
    destruct (Clear_all d' zs' s1 Hc') as (d2 & E3 & _); [congruence|].
    unfold List_Destroy, List_Clear. rewrite E3. simpl. by eexists None, l', _.
Qed.

(** Cloning under any outcomes of the allocations: the nodes made so far hold
    clones of the items, and on success of all of them. *)
Lemma scan_clone_any clone xs (d : List_t St Key Item) zs o s ret :
  contents d zs -> known_mode d = true -> l_limit d = 0 -> l_clone d = Some clone ->
  exists b d' zs' o' s', spec.scan List_Clone_Node None None xs (Some d, o) s ret =
      Some (b, replicate (length xs) false, (Some d', o'), s') /\
    meta d' = meta d /\ contents d' zs' /\
    (b = true -> exists ys, Forall2 (fun x y => exists s s', clone x s = (Some y, s')) xs ys /\
       zs' = foldl (spec.push (is_stack d)) zs ys).
Proof.
  revert d zs o s. induction xs as [|x xs IH]; intros d zs o s Hc Hm Hli Hcl.
  { exists ret, d, zs, o, s. split_and!; [done..|]. by exists []. }
  simpl. rewrite Hcl. simpl. destruct (clone x s) as [[y|] s1] eqn:Ex; simpl.
  2: by exists false, d, zs, o, s1.
  destruct (alloc_next o) as [[] o1].
  2: { rewrite (Push_refused false d y eq_refl). simpl. by exists false, d, zs, o1, s1. }
  destruct (Push_ok d zs y Hc) as (d1 & -> & Hme & _ & Hc1); [by unfold at_limit; rewrite Hli|done|].
  destruct (meta_mode _ _ Hme) as [Hst Hkn]. simpl.
  destruct (IH d1 _ o1 s1 Hc1) as (b & d2 & zs2 & o2 & s2 & E & Hme2 & Hc2 & Hz);
    [congruence|unfold meta in Hme; congruence|unfold meta in Hme; congruence|].
  rewrite E. simpl. exists b, d2, zs2, o2, s2. split_and!; [done|congruence|done|].
  intros Hb. destruct (Hz Hb) as (ys & Hys & ->). exists (y :: ys). rewrite Hst. split; [|done].
  constructor; [by exists s, s1|done].
Qed.

Lemma Clone_any co lo so o l xs clone s :
  contents l xs -> no_locks l -> known_mode l = true -> l_clone l = Some clone ->
  exists r l' s', List_Clone co lo so o (Some l) s = Some (r, Some l', s') /\ contents l' xs /\
    forall d, r = Some d -> exists ys, Forall2 (fun x y => exists s s', clone x s = (Some y, s')) xs ys /\
      meta d = meta (set_limit l 0) /\ contents d (if is_stack l then reverse ys else ys).
Proof.
  intros Hc [Hl1 Hl2] Hm Hcl. unfold List_Clone. rewrite Hcl.
  destruct (List_Create co lo so _ _ _ _ _ _ _) as [d0|] eqn:E0; [|by eexists None, l, s].
  pose proof (Create_contents _ _ _ _ _ _ _ _ _ _ _ E0) as Hcd.
  assert (Hme0 : meta d0 = meta (set_limit l 0)).
  { unfold List_Create in E0. repeat case_match; simplify_eq; unfold meta; simpl; by rewrite Hcl. }
  destruct (meta_mode _ _ Hme0) as [Hst0 Hkn0].
  pose proof (ForEach_contents List_Clone_Node l xs (Some d0, o) s Hc) as H.
  unfold spec.for_each in H. rewrite Hl1, Hl2 in H.
  destruct (scan_clone_any clone xs d0 [] o s true Hcd) as (b & d' & zs' & o' & s' & E & Hme & Hc' & Hz);
    [rewrite Hkn0; exact Hm|unfold meta in Hme0; simpl in Hme0; congruence|unfold meta in Hme0; simpl in Hme0; congruence|].
  rewrite E in H. simpl in H. destruct (select_none xs) as [E1 E2].
  rewrite E1, E2 in H. destruct H as (l' & E' & _ & _ & Hcl' & _). rewrite E'. simpl. destruct b.
  - exists (Some d'), l', s'. split_and!; [done..|]. intros d [= <-].
    destruct (Hz eq_refl) as (ys & Hys & ->). exists ys. split_and!; [done|congruence|].
    rewrite foldl_push, Hst0 in Hc'. change (is_stack (set_limit l 0)) with (is_stack l) in Hc'.
    destruct (is_stack l); [by rewrite app_nil_r in Hc'|done].
  - destruct (meta_mode _ _ Hme) as [_ Hkn]. change (known_mode (set_limit l 0)) with (known_mode l) in Hkn0.
    destruct (Clear_all d' zs' s' Hc') as (d2 & E3 & _); [congruence|].
    unfold List_Destroy, List_Clear. rewrite E3. simpl. by eexists None, l', _.
Qed.

(** C4. [List_Push] on a well-formed list: it succeeds exactly when the node is
    allocated, the limit is not reached and the mode is one of the three; the
    item then is the new head (stack) or the new tail (queue, generic), and
    otherwise the list is the one before.  The limit is never exceeded. *)
Theorem List_Push_refines ok l xs x :
  contents l xs ->
  exists b l', List_Push ok (Some l) x = Some (b, Some l') /\
    b = ok && negb (at_limit l) && known_mode l /\
    contents l' (if b then spec.push (is_stack l) xs x else xs) /\
    (0 < l_limit l < 2 ^ 64 -> l_length l <= l_limit l -> l_length l' <= l_limit l').
Proof.
  intros Hc. destruct (ok && negb (at_limit l) && known_mode l) eqn:E.
  - apply andb_prop in E as [[-> Hl%negb_true_iff]%andb_prop Hm].
    destruct (Push_ok l xs x Hc Hl Hm) as (l' & -> & Hme & _ & Hc'). exists true, l'.
    split_and!; [done..|]. intros Hw Hle. replace (l_limit l') with (l_limit l) by (unfold meta in Hme; congruence).
    rewrite (contents_length _ _ Hc'). unfold at_limit in Hl. apply andb_false_iff in Hl as [?|Hl]; [lia|].
    rewrite (contents_length _ _ Hc) in Hl. unfold u64, wrap in *.
    assert (length (spec.push (is_stack l) xs x) = S (length xs)) as ->.
    { destruct (is_stack l); simpl; [done|]. rewrite length_app. simpl. lia. }
    rewrite Nat2Z.inj_succ, <- Z.add_1_r, <- Zplus_mod_idemp_l.
    pose proof (Z.mod_pos_bound (Z.of_nat (length xs)) (2 ^ 64)).
    rewrite Z.mod_small by lia. lia.
  - exists false, l. rewrite Push_refused by done. done.
Qed.

(** C5. [List_Pop_Ex] on a well-formed list of a known mode: a list without a
    semaphore, or with a positive count, gives up the head of a stack and the
    tail of a queue or generic list (NULL when it is empty); on a zero count a
    timed call returns NULL and an untimed one waits, the list untouched. *)
Theorem List_Pop_refines l xs t :
  contents l xs -> known_mode l = true ->
  exists r l', List_Pop_Ex (Some l) t = Some (r, Some l') /\
    match l_sem l with
    | Some c =>
        if 0 <? c then
          r = Returned (fst <$> spec.pop (is_stack l) xs) /\ l_sem l' = Some (c - 1) /\
          contents l' (match spec.pop (is_stack l) xs with Some (_, xs') => xs' | None => xs end)
        else r = (if t == 0 then Blocked else Returned None) /\ l' = l
    | None =>
        r = Returned (fst <$> spec.pop (is_stack l) xs) /\ l_sem l' = None /\
        contents l' (match spec.pop (is_stack l) xs with Some (_, xs') => xs' | None => xs end)
    end.
Proof.
  intros Hc Hm. unfold List_Pop_Ex. destruct (l_sem l) as [c|] eqn:Hs; [destruct (0 <? c)|].
  - destruct (Pop_take (set_sem l (Some (c - 1))) xs (Some (c - 1))) as (l' & E & _ & Hse & Hc');
      [by apply contents_sem|done|done|]. eexists _, l'. split; [exact E|]. by split_and!.
  - destruct (t == 0); eauto.
  - destruct (Pop_take l xs None Hc Hm Hs) as (l' & E & _ & Hse & Hc').
    eexists _, l'. split; [exact E|]. by split_and!.
Qed.

(** Every mode is last in, first out: a pop that follows a successful push
    returns the pushed item and leaves the sequence of before the push, in
    queue mode as well. *)
Theorem List_Pop_after_Push l l1 xs x t :
  contents l xs -> match l_sem l with Some c => 0 <= c | None => True end ->
  List_Push true (Some l) x = Some (true, Some l1) ->
  exists l2, List_Pop_Ex (Some l1) t = Some (Returned (Some x), Some l2) /\ contents l2 xs.
Proof.
  intros Hc Hs E. destruct (true && negb (at_limit l) && known_mode l) eqn:Hg.
  2:{ rewrite (Push_refused _ _ _ Hg) in E. done. }
  apply andb_prop in Hg as [Hl%negb_true_iff Hm].
  destruct (Push_ok l xs x Hc Hl Hm) as (l' & E' & Hme & Hse & Hc'). rewrite E in E'. injection E' as <-.
  destruct (meta_mode _ _ Hme) as [Hst Hkn]. rewrite Hm in Hkn. rewrite <- Hst in Hc'.
  unfold List_Pop_Ex. rewrite Hse. destruct (l_sem l) as [c|]; simpl.
  - replace (0 <? c + 1) with true by lia. replace (c + 1 - 1) with c by lia.
    destruct (Pop_take (set_sem l1 (Some c)) (spec.push (is_stack l1) xs x) (Some c))
      as (l2 & -> & _ & _ & H2); [by apply contents_sem|done|done|].
    change (is_stack (set_sem l1 (Some c))) with (is_stack l1) in *.
    rewrite spec.pop_push in *. eauto.
  - destruct (Pop_take l1 (spec.push (is_stack l1) xs x) None) as (l2 & -> & _ & _ & H2);
      [done|done|by rewrite Hse|]. rewrite spec.pop_push in *. eauto.
Qed.

(** C6. [List_ForEach] on a well-formed list is the iteration over its
    sequence: the operation runs on each item between the node lock and unlock
    until it returns END or ERROR, the items it returned REMOVE for leave the
    list and are destroyed in order, the others stay in order. *)
Theorem List_ForEach_refines {U} (op : Item -> U -> St -> option (Z * U * St)) l xs u s :
  contents l xs ->
  match spec.for_each op (l_nodeLock l) (l_nodeUnlock l) (l_destroy l) xs u s with
  | None => List_ForEach (Some l) (Some op) u s = None
  | Some (ret, xs', u', s') =>
      exists l', List_ForEach (Some l) (Some op) u s = Some (ret, Some l', u', s') /\
        contents l' xs'
  end.
Proof.
  intros Hc. pose proof (ForEach_contents op l xs u s Hc) as H. destruct (spec.for_each _ _ _ _ _ _ _) as [[[[]]]|];
    naive_solver.
Qed.

(** [List_Find] returns the first item the key comparator equates with the
    key, NULL when there is none, and leaves the list and the program's state
    unchanged. *)
Theorem List_Find_first l xs kc k s :
  contents l xs -> no_locks l -> l_keyCmp l = Some kc ->
  List_Find (Some l) (Some k) s = Some (find_first (fun x => kc s x k == 0) xs, Some l, s).
Proof. apply Find_contents. Qed.

(** [List_Remove] removes and destroys, in order, every item that is the
    given pointer or that the comparator equates with it, not just the first,
    and reports whether there was one. *)
Theorem List_Remove_all `{EqDecision Item} l xs item s :
  contents l xs -> no_locks l ->
  exists l', List_Remove (Some l) (Some item) s =
      Some (existsb (removes l s item) xs, Some l',
            spec.destroy_all (l_destroy l) (filter (fun x => removes l s item x = true) xs) s) /\
    contents l' (filter (fun x => removes l s item x = false) xs).
Proof.
  intros Hc Hl. destruct (Remove_contents l xs item s Hc Hl) as (l' & E & _ & _ & Hc').
  eauto.
Qed.

(** [List_Clear] empties a well-formed list and destroys every item, in the
    order in which pops would deliver them; the semaphore is not touched. *)
Theorem List_Clear_empties l xs s :
  contents l xs -> known_mode l = true ->
  exists l', List_Clear (Some l) s =
      Some (Some l', spec.destroy_all (l_destroy l) (spec.pop_order (is_stack l) xs) s) /\
    contents l' [] /\ List_Length (Some l') = 0 /\ l_sem l' = l_sem l.
Proof.
  intros Hc Hm. destruct (Clear_all l xs s Hc Hm) as (l' & E & _ & Hse & Hc').
  unfold List_Clear. rewrite E. simpl. exists l'. split_and!; [done|done| |done].
  by rewrite (contents_length _ _ Hc').
Qed.

(** [List_Transfer] moves the whole sequence of the source to the
    destination, whose old items are destroyed; the source ends empty.  The
    semaphores of both lists keep their counts. *)
Theorem List_Transfer_moves (dst src : List_t St Key Item) xd xs s :
  contents dst xd -> contents src xs -> known_mode dst = true ->
  exists dst' src', List_Transfer (Some dst) (Some src) s =
      Some (true, Some dst', Some src',
            spec.destroy_all (l_destroy dst) (spec.pop_order (is_stack dst) xd) s) /\
    contents dst' xs /\ contents src' [] /\
    List_Length (Some dst') = List_Length (Some src) /\
    l_sem dst' = l_sem dst /\ l_sem src' = l_sem src.
Proof.
  intros Hd (cs & [Hh Ht Hc Hn Hdo Hl] & Hf & Hx) Hm.
  destruct (Clear_all dst xd s Hd Hm) as (l' & E & _ & Hse & Hc').
  unfold List_Transfer. rewrite E. eexists _, _. split; [done|]. simpl. split_and!; try done.
  - exists cs. split; [constructor; done|done].
  - exists []. split; [constructor; done || constructor|done].
Qed.

(** [List_Clone] with successful allocations: the clone holds the clones
    of the items in the same order for a generic or queue list, in the opposite
    order for a stack, and has no limit whatever the source's; when an item
    cannot be cloned the result is NULL.  The source is unchanged. *)
Theorem List_Clone_contents l xs clone s :
  contents l xs -> no_locks l -> known_mode l = true -> l_clone l = Some clone ->
  exists r l' s', List_Clone true true true [] (Some l) s = Some (r, Some l', s') /\
    contents l' xs /\
    match clone_all clone xs s with
    | (None, _) => r = None
    | (Some ys, s1) => exists d, r = Some d /\ s' = s1 /\ l_limit d = 0 /\
        contents d (if is_stack l then reverse ys else ys)
    end.
Proof.
  intros Hc Hl Hm Hcl. destruct (Clone_contents l xs clone s Hc Hl Hm Hcl) as (r & l' & s' & E & Hc' & Hr).
  exists r, l', s'. split_and!; [done..|]. destruct (clone_all clone xs s) as [[ys|] s1]; [|done].
  destruct Hr as (d & ? & ? & Hme & ?). exists d. split_and!; try done. unfold meta in Hme. simpl in Hme.
  congruence.
Qed.
End Props.

(** ** Threads

    The list is shared: each entry point is a sequence of critical sections, and
    the critical sections of several threads interleave.  [List_Push] writes the
    list under the lock and posts the semaphore after it; [List_Pop_Ex] takes a
    unit of the semaphore before it locks; [List_ForEach] marks under the read
    lock and prunes under the write lock, with any operation of another thread in
    between.  [posts] and [takes] count the threads between the two halves of a
    push and of a pop. *)

Section Threads.
Context {St Key Item U : Type}.
Variable op : Item -> U -> St -> option (Z * U * St).
Hypothesis op_total : forall x u s, is_Some (op x u s).

Record shared := mkShared {
  sh_list : List_t St Key Item;
  sh_posts : Z;
  sh_takes : Z
}.

(** The critical section of [List_Push]: everything but the post. *)
Definition push_locked (l : List_t St Key Item) (x : Item) : option (bool * List_t St Key Item) :=
  '(b, p) ← List_Push true (Some l) x;
  l' ← p; Some (b, set_sem l' (l_sem l)).

Inductive step : shared -> shared -> Prop :=
| step_push l l' x po ta :
    push_locked l x = Some (true, l') ->
    step (mkShared l po ta) (mkShared l' (po + 1) ta)
| step_post l c po ta :
    0 < po -> l_sem l = Some c ->
    step (mkShared l po ta) (mkShared (set_sem l (Some (c + 1))) (po - 1) ta)
| step_take l c po ta :
    l_sem l = Some c -> 0 < c ->
    step (mkShared l po ta) (mkShared (set_sem l (Some (c - 1))) po (ta + 1))
| step_pop l l' a po ta :
    0 < ta -> List_Do_Pop l = Some (Some a, l') ->
    step (mkShared l po ta) (mkShared (free_node l' a) po (ta - 1))
| step_pop_null l l' po ta :
    0 < ta -> List_Do_Pop l = Some (None, l') ->
    step (mkShared l po ta) (mkShared l' po (ta - 1))
| step_mark l l' u u' s s' ret del po ta :
    ForEach_scan op (fuel_of l) l (l_head l) u s true false = Some (ret, del, l', u', s') ->
    step (mkShared l po ta) (mkShared l' po ta)
| step_prune l l' s s' po ta :
    ForEach_prune (fuel_of l) l (l_head l) s = Some (l', s') ->
    step (mkShared l po ta) (mkShared l' po ta).

Inductive reachable (l0 : List_t St Key Item) : shared -> Prop :=
| reach_init : reachable l0 (mkShared l0 0 0)
| reach_step st st' : reachable l0 st -> step st st' -> reachable l0 st'.

(** The invariant: a well-formed chain, and units of the semaphore, pending
    posts and taken units enough for every node. *)
Definition shared_inv (st : shared) : Prop :=
  exists cs c, rep (sh_list st) cs /\ known_mode (sh_list st) = true /\
    l_sem (sh_list st) = Some c /\ 0 <= c /\ 0 <= sh_posts st /\ 0 <= sh_takes st /\
    Z.of_nat (length cs) <= c + sh_posts st + sh_takes st.

Lemma rep_sem (l : List_t St Key Item) cs c : rep l cs -> rep (set_sem l c) cs.
Proof. by intros []. Qed.

Lemma kept_length (cs : list (loc * (Item * bool))) : (length (kept cs) <= length cs)%nat.
Proof. apply length_filter. Qed.

Lemma Do_Pop_rep (l : List_t St Key Item) cs :
  rep l cs -> known_mode l = true ->
  (cs = [] /\ List_Do_Pop l = Some (None, l)) \/
  exists a l' cs', List_Do_Pop l = Some (Some a, l') /\ meta l' = meta l /\ l_sem l' = l_sem l /\
    rep (free_node l' a) cs' /\ length cs = S (length cs').
Proof.
  intros H Hm. destruct (spec.pop (is_stack l) cs) as [[[a [x d]] cs']|] eqn:E.
  - right. apply spec.pop_Some in E. subst cs.
    destruct (Do_Pop_push l cs' a x d Hm H) as (l' & n & ? & ? & ? & ? & ? & Hr).
    exists a, l', cs'. split_and!; try done. destruct (is_stack l); simpl; [done|].
    rewrite length_app. simpl. lia.
  - left. apply spec.pop_None in E. subst cs. split; [done|]. by apply Do_Pop_nil.
Qed.

Lemma scan_total xs lk un u s ret : exists ret' m u' s',
  spec.scan op lk un xs u s ret = Some (ret', m, u', s').
Proof.
  revert u s. induction xs as [|x xs IH]; intros u s; simpl; [eauto 10|].
  destruct (op_total x u (run_callback lk x s)) as [[[r u1] s1] ->]. simpl.
  destruct (r == LIST_EACH_ERROR); [eauto 10|]. destruct (r == LIST_EACH_END); [eauto 10|].
  destruct (IH u1 (run_callback un x s1)) as (? & ? & ? & ? & ->). simpl. eauto 10.
Qed.

Lemma mark_rep (l : List_t St Key Item) cs u s :
  rep l cs -> exists ret del l' u' s' m,
    ForEach_scan op (fuel_of l) l (l_head l) u s true false = Some (ret, del, l', u', s') /\
    meta l' = meta l /\ l_sem l' = l_sem l /\ rep l' (marked cs m) /\ length m = length cs.
Proof.
  intros H. rewrite (rep_head _ _ H), (fuel_of_rep _ _ H).
  pose proof (scan_rep op [] cs l (length cs) u s true false H ltac:(done)) as Hs.
  destruct (scan_total cs.*2.*1 (l_nodeLock l) (l_nodeUnlock l) u s true) as (ret & m & u' & s' & E).
  rewrite E in Hs. destruct Hs as (l' & -> & ? & ? & ? & ? & _). eauto 15.
Qed.

Lemma length_marked (cs : list (loc * (Item * bool))) m : length m = length cs -> length (marked cs m) = length cs.
Proof. intros. unfold marked. rewrite length_zip_with. lia. Qed.

Lemma step_inv st st' : shared_inv st -> step st st' -> shared_inv st'.
Proof.
  intros (cs & c & Hr & Hm & Hs & Hc & Hpo & Hta & Hle) Hstep. unfold shared_inv.
  destruct Hstep as [l l' x po ta E|l c' po ta H0 Hs'|l c' po ta Hs' H0|l l' a po ta H0 E
                    |l l' po ta H0 E|l l' u u' s s' ret del po ta E|l l' s s' po ta E]; simpl in *.
  - unfold push_locked in E. destruct (at_limit l) eqn:Hl.
    { rewrite Push_refused in E by (by rewrite Hl). done. }
    destruct (Push_rep l cs x Hr Hl Hm) as (l1 & a & E1 & Hme & _ & _ & Hr1). rewrite E1 in E.
    simpl in E. injection E as <-. eexists _, c. split_and!; [by apply rep_sem| | |done|lia|done|].
    + destruct (meta_mode _ _ Hme) as [_ Hk]. by rewrite <- Hm, <- Hk.
    + done.
    + destruct (is_stack l); simpl; [lia|]. rewrite length_app. simpl. lia.
  - simplify_eq. exists cs, (c + 1). split_and!; [by apply rep_sem|done|done|lia..].
  - simplify_eq. exists cs, (c - 1). split_and!; [by apply rep_sem|done|done|lia..].
  - destruct (Do_Pop_rep l cs Hr Hm) as [[-> E']|(a' & l1 & cs' & E' & Hme & Hse & Hr' & Hlen)];
      rewrite E' in E; [done|]. injection E as <- <-. exists cs', c.
    destruct (meta_mode _ _ Hme) as [_ Hk]. split_and!; [done| |simpl; congruence|lia..].
    by rewrite <- Hm, <- Hk.
  - destruct (Do_Pop_rep l cs Hr Hm) as [[-> E']|(a' & l1 & cs' & E' & _)]; rewrite E' in E; [|done].
    injection E as <-. exists [], c. split_and!; try done; simpl; lia.
  - destruct (mark_rep l cs u s Hr) as (? & ? & l1 & ? & ? & m & E' & Hme & Hse & Hr' & Hlen).
    rewrite E' in E. injection E as <- <- <- <- <-. exists (marked cs m), c.
    destruct (meta_mode _ _ Hme) as [_ Hk]. rewrite (length_marked _ _ Hlen).
    split_and!; try done; congruence.
  - destruct (prune_rep [] cs l (fuel_of l) s Hr) as (l1 & E' & Hme & Hse & Hr').
    { by rewrite (fuel_of_rep _ _ Hr). }
    rewrite <- (rep_head _ _ Hr), E in E'. injection E' as <- _. exists (kept cs), c.
    destruct (meta_mode _ _ Hme) as [_ Hk]. pose proof (kept_length cs).
    split_and!; try done; [congruence|congruence|lia].
Qed.

Lemma reachable_inv l0 st : shared_inv (mkShared l0 0 0) -> reachable l0 st -> shared_inv st.
Proof. intros H0. induction 1; eauto using step_inv. Qed.

(** C7. Under any interleaving of the critical sections of pushing, popping and
    iterating threads on a queue or stack, every reachable list is a well-formed
    chain on which no critical section crashes or runs out of nodes, and no
    wake-up is lost: when no push or pop is half done and the list is not empty,
    the semaphore is positive, so a pop does not block. *)
Theorem List_threads_safe l0 c st :
  rep l0 [] -> known_mode l0 = true -> l_sem l0 = Some c -> 0 <= c ->
  reachable l0 st ->
  (exists cs, rep (sh_list st) cs) /\
  is_Some (List_Do_Pop (sh_list st)) /\
  (forall x, is_Some (push_locked (sh_list st) x)) /\
  (forall u s, is_Some (ForEach_scan op (fuel_of (sh_list st)) (sh_list st) (l_head (sh_list st)) u s true false)) /\
  (forall s, is_Some (ForEach_prune (fuel_of (sh_list st)) (sh_list st) (l_head (sh_list st)) s)) /\
  (sh_posts st = 0 -> sh_takes st = 0 -> l_head (sh_list st) <> None ->
   exists k, l_sem (sh_list st) = Some k /\ 0 < k).
Proof.
  intros H0 Hm Hs Hc Hre.
  destruct (reachable_inv l0 st) as (cs & k & Hr & Hmo & Hse & Hk & Hpo & Hta & Hle); [|done|].
  { exists [], c. split_and!; try done. simpl. lia. }
  split_and!.
  - eauto.
  - destruct (Do_Pop_rep _ _ Hr Hmo) as [[_ ->]|(? & ? & ? & -> & _)]; eauto.
  - intros x. unfold push_locked. destruct (at_limit (sh_list st)) eqn:Hl.
    + rewrite Push_refused by (by rewrite Hl). simpl. eauto.
    + destruct (Push_rep _ _ x Hr Hl Hmo) as (? & ? & -> & _). simpl. eauto.
  - intros u s. destruct (mark_rep _ _ u s Hr) as (? & ? & ? & ? & ? & ? & -> & _). eauto.
  - intros s. rewrite (rep_head _ _ Hr).
    destruct (prune_rep [] cs _ (fuel_of (sh_list st)) s Hr) as (? & -> & _); [|eauto].
    by rewrite (fuel_of_rep _ _ Hr).
  - intros E1 E2 Hh. exists k. split; [done|]. rewrite (rep_head _ _ Hr) in Hh.
    destruct cs; [done|]. simpl in Hle. lia.
Qed.
End Threads.

(** ** Concrete lists

    Lists of integers whose store is the log of destroyed items; they witness
    that the hypotheses of the theorems hold of lists the code builds. *)

Module demo.
Definition cmp (_ : list Z) (a b : Z) : Z := a mod 10 - b mod 10.
Definition destroy (x : Z) (log : list Z) : list Z := log ++ [x].
Definition clone (x : Z) (log : list Z) : option Z * list Z := (Some (x + 100), log).

Definition create (mode : Z) : lptr (list Z) Z Z :=
  List_Create true true true mode (Some cmp) (Some cmp) (Some destroy) (Some clone) None None.

Definition push_all (p : lptr (list Z) Z Z) (xs : list Z) : lptr (list Z) Z Z :=
  foldl (fun p x => match List_Push true p x with Some (_, p') => p' | None => None end) p xs.

Definition empty : List_t (list Z) Z Z :=
  mkList None None 0 0 LIST_MODE_QUEUE (Some cmp) (Some cmp) (Some destroy) (Some clone) None None
    (Some 0) ∅.

Definition queue : List_t (list Z) Z Z :=
  Eval vm_compute in
    default empty (push_all (create LIST_MODE_QUEUE) [1; 2; 11]).
Definition stack : List_t (list Z) Z Z :=
  Eval vm_compute in
    default empty (push_all (create LIST_MODE_STACK) [1; 2; 11]).
Definition generic : List_t (list Z) Z Z :=
  Eval vm_compute in
    default empty (push_all (create LIST_MODE_GENERIC) [1; 2; 11]).

(** [empty] after a push whose post is still to come. *)
Definition pushed : List_t (list Z) Z Z :=
  Eval vm_compute in match push_locked empty 4 with Some (_, l) => l | None => empty end.

(** The cells of a concrete list, read off its node store. *)
Fixpoint walk (fuel : nat) (l : List_t (list Z) Z Z) (cur : option loc) : list (loc * (Z * bool)) :=
  match fuel, cur with
  | S fuel', Some a =>
      match l_nodes l !! a with
      | Some n => (a, (n_item n, n_del n)) :: walk fuel' l (n_next n)
      | None => []
      end
  | _, _ => []
  end.

Ltac solve_contents l :=
  let cs := eval vm_compute in (walk (fuel_of l) l (l_head l)) in
  exists cs; split; [constructor;
    [reflexivity|reflexivity|vm_compute; repeat split|
     apply (bool_decide_unpack _); vm_compute; exact I|
     vm_compute; reflexivity|reflexivity]
    |split; [repeat constructor|reflexivity]].

Lemma queue_contents : contents queue [1; 2; 11].
Proof. solve_contents queue. Qed.
Lemma stack_contents : contents stack [11; 2; 1].
Proof. solve_contents stack. Qed.
Lemma generic_contents : contents generic [1; 2; 11].
Proof. solve_contents generic. Qed.
End demo.

Lemma List_Push_refines_witness :
  exists l', List_Push true (Some demo.queue) 5 = Some (true, Some l') /\
    contents l' [1; 2; 11; 5].
Proof.
  destruct (List_Push_refines true demo.queue [1; 2; 11] 5 demo.queue_contents)
    as (b & l' & E & -> & Hc & _).
  exists l'. split; [exact E|exact Hc].
Defined.

Lemma List_Pop_refines_witness :
  exists l', List_Pop_Ex (Some demo.queue) 0 = Some (Returned (Some 11), Some l') /\
    contents l' [1; 2].
Proof.
  destruct (List_Pop_refines demo.queue [1; 2; 11] 0 demo.queue_contents eq_refl)
    as (r & l' & E & -> & _ & Hc).
  exists l'. split; [exact E|exact Hc].
Defined.

Lemma List_Pop_after_Push_witness :
  exists l1 l2, List_Push true (Some demo.queue) 7 = Some (true, Some l1) /\
    List_Pop_Ex (Some l1) 0 = Some (Returned (Some 7), Some l2) /\ contents l2 [1; 2; 11].
Proof.
  destruct (List_Push true (Some demo.queue) 7) as [[[] [l1|]]|] eqn:E; try discriminate E.
  destruct (List_Pop_after_Push demo.queue l1 [1; 2; 11] 7 0 demo.queue_contents ltac:(done) E)
    as (l2 & E2 & Hc).
  exists l1, l2. done.
Defined.

(** The sum of a list, removing the even items. *)
Definition demo_op (x : Z) (sum : Z) (log : list Z) : option (Z * Z * list Z) :=
  Some (if Z.even x then LIST_EACH_REMOVE else LIST_EACH_OK, sum + x, log).

Lemma List_ForEach_refines_witness :
  exists l', List_ForEach (Some demo.generic) (Some demo_op) 0 [] = Some (true, Some l', 14, [2]) /\
    contents l' [1; 11].
Proof. exact (List_ForEach_refines demo_op demo.generic [1; 2; 11] 0 [] demo.generic_contents). Defined.

Lemma List_Find_first_witness :
  List_Find (Some demo.generic) (Some 21) [] = Some (Some 1, Some demo.generic, []).
Proof.
  exact (List_Find_first demo.generic [1; 2; 11] demo.cmp 21 [] demo.generic_contents
           (conj eq_refl eq_refl) eq_refl).
Defined.

Lemma List_Remove_all_witness :
  exists l', List_Remove (Some demo.generic) (Some 21) [] = Some (true, Some l', [1; 11]) /\
    contents l' [2].
Proof.
  exact (List_Remove_all demo.generic [1; 2; 11] 21 [] demo.generic_contents (conj eq_refl eq_refl)).
Defined.

Lemma List_Clear_empties_witness :
  exists l', List_Clear (Some demo.queue) [] = Some (Some l', [11; 2; 1]) /\
    contents l' [] /\ List_Length (Some l') = 0 /\ l_sem l' = Some 3.
Proof. exact (List_Clear_empties demo.queue [1; 2; 11] [] demo.queue_contents eq_refl). Defined.

Lemma List_Transfer_moves_witness :
  exists dst' src', List_Transfer (Some demo.generic) (Some demo.stack) [] =
      Some (true, Some dst', Some src', [11; 2; 1]) /\
    contents dst' [11; 2; 1] /\ contents src' [] /\
    List_Length (Some dst') = 3 /\ l_sem dst' = None /\ l_sem src' = Some 3.
Proof.
  exact (List_Transfer_moves demo.generic demo.stack [1; 2; 11] [11; 2; 1] []
           demo.generic_contents demo.stack_contents eq_refl).
Defined.

Lemma List_Clone_contents_witness :
  exists r l' s', List_Clone true true true [] (Some demo.stack) [] = Some (r, Some l', s') /\
    contents l' [11; 2; 1] /\
    exists d, r = Some d /\ s' = [] /\ l_limit d = 0 /\ contents d [101; 102; 111].
Proof.
  exact (List_Clone_contents demo.stack [11; 2; 1] demo.clone [] demo.stack_contents
           (conj eq_refl eq_refl) eq_refl eq_refl).
Defined.

(** A thread pushes and posts: the next pop does not block. *)
Lemma demo_reachable :
  reachable demo_op demo.empty (mkShared (set_sem demo.pushed (Some 1)) 0 0).
Proof.
  eapply (reach_step demo_op _ (mkShared demo.pushed 1 0)).
  - eapply (reach_step demo_op _ (mkShared demo.empty 0 0)); [apply reach_init|].
    apply (step_push demo_op demo.empty demo.pushed 4 0 0). vm_compute. reflexivity.
  - apply (step_post demo_op demo.pushed 0 1 0); [lia|reflexivity].
Qed.

Lemma List_threads_safe_witness :
  exists k, l_sem (set_sem demo.pushed (Some 1)) = Some k /\ 0 < k.
Proof.
  refine (proj2 (proj2 (proj2 (proj2 (proj2
    (List_threads_safe demo_op _ demo.empty 0 _ _ eq_refl eq_refl _ demo_reachable))))) eq_refl eq_refl _).
  - intros x u s. eexists. reflexivity.
  - constructor; try reflexivity. constructor.
  - lia.
  - discriminate.
Defined.
