(* ===== verification/ListM.v ===== *)
(** * Lists in the monad of fallible code

    The data structures of the API (UUID lists, metadata, string lists) keep
    their items in a [List_t] whose callbacks only allocate: the store of such a
    list is the sequence of allocation outcomes.  This file gives the list calls
    in the monad [M] and the lemmas its clients use, proved from [contents]. *)

From S2P Require Import Prelude RzbList RzbListProps.

Abbreviation vlist Key Item := (List_t allocs Key Item).
Abbreviation vptr Key Item := (option (List_t allocs Key Item)).

Section ListM.
Context {Key Item : Type}.
Implicit Types (l : vlist Key Item) (p : vptr Key Item).

(** [List_Create (LIST_MODE_GENERIC, ...)]: the list and its lock are
    allocated; a generic list has no semaphore. *)
Definition list_create (cmp : allocs -> Item -> Item -> Z) (keyCmp : allocs -> Item -> Key -> Z)
    (destroy : Item -> allocs -> allocs) (clone : Item -> allocs -> option Item * allocs)
    : M (vlist Key Item) := fun o =>
  let '(b1, o1) := alloc_next o in
  if negb b1 then Some (None, o1)
  else
    let '(b2, o2) := alloc_next o1 in
    Some (List_Create true b2 true LIST_MODE_GENERIC (Some cmp) (Some keyCmp) (Some destroy)
            (Some clone) None None, o2).

(** [List_Push]: whether it pushed, and the list. *)
Definition list_push p (x : Item) : M (bool * vptr Key Item) := fun o =>
  let '(ok, o') := alloc_next o in
  r ← List_Push ok p x; Some (Some r, o').

(** [List_Find]: it fails when there is no match; the list is the same after
    it ([RzbListProps.Find_contents]). *)
Definition list_find p (k : Key) : M Item := fun o =>
  '(r, _, o') ← List_Find p (Some k) o; Some (r, o').

(** [List_Clone] of a generic list: [pushes] are the outcomes of the node
    allocations of the clone, the other allocations are those of the monad. *)
Definition list_clone (pushes : allocs) p : M (vlist Key Item) := fun o =>
  match p with
  | None => Some (None, o)
  | Some l =>
      match l_clone l with
      | None => Some (None, o)
      | Some _ =>
          let '(b1, o1) := alloc_next o in
          let '(b2, o2) := if b1 : bool then alloc_next o1 else (true, o1) in
          '(r, _, o') ← List_Clone b1 b2 true pushes (Some l) o2; Some (r, o')
      end
  end.

(** A list this library made with [list_create]: generic, without node locks
    and without a limit. *)
Record plain l : Prop := {
  plain_mode : l_mode l = LIST_MODE_GENERIC;
  plain_locks : no_locks l;
  plain_limit : l_limit l = 0
}.

Lemma plain_known l : plain l -> known_mode l = true /\ is_stack l = false /\ at_limit l = false.
Proof. intros [Hm _ Hl]. unfold known_mode, is_stack, at_limit. by rewrite Hm, Hl. Qed.

Lemma plain_meta l l' : meta l' = meta l -> plain l -> plain l'.
Proof. unfold meta. intros E [? [? ?] ?]. split; [congruence|split; congruence|congruence]. Qed.

Lemma create_inv cmp kc de cl o l o' :
  list_create cmp kc de cl o = Some (Some l, o') ->
  contents l [] /\ plain l /\
  l_cmp l = Some cmp /\ l_keyCmp l = Some kc /\ l_destroy l = Some de /\ l_clone l = Some cl.
Proof.
  unfold list_create. destruct (alloc_next o) as [[] o1]; [|done]. simpl.
  destruct (alloc_next o1) as [b2 o2]. intros E.
  assert (E' : List_Create true b2 true LIST_MODE_GENERIC (Some cmp) (Some kc) (Some de)
            (Some cl) None None = Some l) by congruence.
  split; [by eapply Create_contents|]. destruct b2; [|done].
  injection E' as <-. by split.
Qed.

Lemma create_ok cmp kc de cl : exists l,
  list_create cmp kc de cl [] = Some (Some l, []) /\ contents l [] /\ plain l /\
  l_cmp l = Some cmp /\ l_keyCmp l = Some kc /\ l_destroy l = Some de /\ l_clone l = Some cl.
Proof. eexists. split; [reflexivity|]. by eapply (create_inv cmp kc de cl []). Qed.

Lemma create_ensures cmp kc de cl : ensures (list_create cmp kc de cl) (fun l =>
  contents l [] /\ plain l /\
  l_cmp l = Some cmp /\ l_keyCmp l = Some kc /\ l_destroy l = Some de /\ l_clone l = Some cl).
Proof.
  intros o. destruct (list_create cmp kc de cl o) as [[r o']|] eqn:E.
  - exists r, o'. split; [done|]. intros l ->. by eapply create_inv.
  - exfalso. revert E. unfold list_create. destruct (alloc_next o) as [[] o1]; [|done]. simpl.
    by destruct (alloc_next o1).
Qed.

(** Pushing on a plain list: it appends unless the allocation fails. *)
Lemma push_plain l xs x o : contents l xs -> plain l ->
  exists l', list_push (Some l) x o = Some (Some (fst (alloc_next o), Some l'), snd (alloc_next o)) /\
    meta l' = meta l /\ contents l' (if fst (alloc_next o) then xs ++ [x] else xs).
Proof.
  intros Hc Hp. destruct (plain_known _ Hp) as (Hk & Hs & Hl). unfold list_push.
  destruct (alloc_next o) as [[] o']; cbn [fst snd].
  - destruct (Push_ok l xs x Hc Hl Hk) as (l' & -> & ? & _ & Hc'). rewrite Hs in Hc'.
    by exists l'.
  - pose proof (Push_refused false l x eq_refl) as E. rewrite E. by exists l.
Qed.

Lemma find_plain l xs kc k o : contents l xs -> plain l -> l_keyCmp l = Some kc ->
  list_find (Some l) k o = Some (find_first (fun x => kc o x k == 0) xs, o).
Proof.
  intros Hc Hp Hk. unfold list_find. by rewrite (Find_contents l xs kc k o Hc (plain_locks _ Hp) Hk).
Qed.

Lemma clone_plain l xs ys cl : contents l xs -> plain l -> l_clone l = Some cl ->
  clone_all cl xs [] = (Some ys, []) ->
  exists d, list_clone [] (Some l) [] = Some (Some d, []) /\ contents d ys /\ meta d = meta l.
Proof.
  intros Hc Hp Hcl Hy. destruct (plain_known _ Hp) as (Hk & Hs & _). unfold list_clone. rewrite Hcl.
  cbn [alloc_next].
  destruct (Clone_contents l xs cl [] Hc (plain_locks _ Hp) Hk Hcl) as (r & l' & s' & -> & _ & Hr).
  rewrite Hy in Hr. destruct Hr as (d & -> & -> & Hme & Hd). rewrite Hs in Hd. exists d.
  split_and!; [done..|]. rewrite Hme. unfold meta. simpl. by rewrite (plain_limit _ Hp).
Qed.

Lemma find_null k o : list_find None k o = Some (None, o).
Proof. done. Qed.
End ListM.

Arguments list_create : simpl never.
Arguments list_push : simpl never.
Arguments list_find : simpl never.
Arguments list_clone : simpl never.

(** ** Iteration that removes nothing *)

Section Each.
Context {Key Item U : Type}.
Variable op : Item -> U -> allocs -> option (Z * U * allocs).

(** The operation on each item in turn, until it reports an error. *)
Fixpoint each (xs : list Item) (u : U) (o : allocs) : option (bool * U * allocs) :=
  match xs with
  | [] => Some (true, u, o)
  | x :: xs' =>
      '(r, u', o') ← op x u o;
      if r == LIST_EACH_ERROR then Some (false, u', o') else each xs' u' o'
  end.

Definition keeps (xs : list Item) : Prop := forall x u o r u' o',
  x ∈ xs -> op x u o = Some (r, u', o') -> r = LIST_EACH_OK \/ r = LIST_EACH_ERROR.

Lemma scan_each xs u o : keeps xs ->
  match each xs u o with
  | None => spec.scan op None None xs u o true = None
  | Some (b, u', o') =>
      spec.scan op None None xs u o true = Some (b, replicate (length xs) false, u', o')
  end.
Proof.
  revert u o. induction xs as [|x xs IH]; intros u o Hk; [done|]. simpl.
  destruct (op x u o) as [[[r u1] o1]|] eqn:E; simpl; [|done].
  assert (IH' := IH u1 o1 ltac:(intros ? ? ? ? ? ? ?; eapply Hk; set_solver)).
  destruct (Hk x u o r u1 o1) as [-> | ->]; [set_solver|done| |done]. simpl.
  destruct (each xs u1 o1) as [[[b u'] o']|]; by rewrite IH'.
Qed.

Lemma ForEach_each (l : vlist Key Item) xs u o :
  contents l xs -> no_locks l -> keeps xs ->
  List_ForEach (Some l) (Some op) u o =
  '(b, u', o') ← each xs u o; Some (b, Some l, u', o').
Proof.
  intros Hc [Hl1 Hl2] Hk. pose proof (ForEach_contents op l xs u o Hc) as H.
  unfold spec.for_each in H. rewrite Hl1, Hl2 in H. pose proof (scan_each xs u o Hk) as Hs.
  destruct (each xs u o) as [[[b u'] o']|]; rewrite Hs in H; [|done]. simpl in H.
  destruct (select_none xs) as [E1 E2]. rewrite E1, E2 in H.
  destruct H as (l' & -> & _ & _ & _ & Hid). by rewrite (Hid eq_refl).
Qed.
End Each.
