(* ===== verification/Hash.v ===== *)
(** * Hashes: src/hash.c

    [Hash] is [struct Hash]; the digest computation itself is OpenSSL's and is a
    parameter, the class [EVP], with what hash.c relies on as the laws of
    [EVPLaws].  The functions are the source's, with every guard; the type of the
    hash a block is identified by ([Config_getHashType]) is an argument of
    [Hash_Create]. *)

From S2P Require Import Prelude CLib.

(** ** OpenSSL's digest interface *)

Class EVP := {
  evp_md : Type;
  evp_ctx : Type;
  EVP_MD_fetch : string -> option evp_md;
  EVP_DigestInit_ex2 : evp_md -> option evp_ctx;
  EVP_DigestUpdate : evp_ctx -> list Z -> option evp_ctx;
  EVP_DigestFinal_ex : evp_ctx -> option (list Z)
}.

(** The documented behaviour: a context absorbs the concatenation of what it was
    updated with, and the final call yields the digest of that, a string of the
    algorithm's number of bytes. *)
Class EVPLaws `{EVP} := {
  evp_digest : evp_md -> list Z -> list Z;
  evp_size : string -> Z;
  evp_absorbed : evp_ctx -> evp_md -> list Z -> Prop;
  evp_init md c : EVP_DigestInit_ex2 md = Some c -> evp_absorbed c md [];
  evp_update c md xs ys c' :
    evp_absorbed c md xs -> EVP_DigestUpdate c ys = Some c' -> evp_absorbed c' md (xs ++ ys);
  evp_final c md xs d :
    evp_absorbed c md xs -> EVP_DigestFinal_ex c = Some d -> d = evp_digest md xs;
  evp_digest_length name md xs :
    EVP_MD_fetch name = Some md -> Z.of_nat (length (evp_digest md xs)) = evp_size name;
  evp_digest_bytes md xs : Forall (fun b => 0 <= b < 256) (evp_digest md xs);
  evp_size_md5 : evp_size "MD5" = 16;
  evp_size_sha1 : evp_size "SHA1" = 20;
  evp_size_sha224 : evp_size "SHA224" = 28;
  evp_size_sha256 : evp_size "SHA256" = 32;
  evp_size_sha512 : evp_size "SHA512" = 64
}.

(** ** Data *)

Definition HASH_TYPE_MD5 : Z := 1.
Definition HASH_TYPE_SHA1 : Z := 2.
Definition HASH_TYPE_SHA224 : Z := 3.
Definition HASH_TYPE_SHA256 : Z := 4.
Definition HASH_TYPE_SHA512 : Z := 5.
Definition HASH_FLAG_FINAL : Z := 1.
Definition EVP_MAX_MD_SIZE : Z := 64.

Record Hash `{EVP} := mkHash {
  h_iType : Z;
  h_iSize : Z;
  h_pData : option (list Z);
  h_CTX : option evp_ctx;
  h_md : option evp_md;
  h_iFlags : Z
}.
Arguments mkHash {_} _ _ _ _ _ _.

(** A FILE open for reading: its bytes, the position, and the offset from which
    reads fail, if any. *)
Record File := mkFile { f_data : list Z; f_pos : nat; f_err : option nat }.

(** The bytes that reading from the current position delivers. *)
Definition f_rest (f : File) : list Z :=
  drop (f_pos f) (match f_err f with Some e => take e (f_data f) | None => f_data f end).

(** [fread (buf, 1, n, f)] and [rewind (f)]. *)
Definition fread (n : nat) (f : File) : list Z * File :=
  let chunk := take n (f_rest f) in
  (chunk, mkFile (f_data f) (f_pos f + length chunk) (f_err f)).
Definition rewind (f : File) : File := mkFile (f_data f) 0 (f_err f).

(** ** Operations *)

Section Operations.
Context `{EVP}.
Implicit Types h : Hash.

Definition is_final h : bool := Z.land (h_iFlags h) HASH_FLAG_FINAL != 0.

(** [Hash_IsEqual]: [same] tells whether the two pointers are equal. *)
Definition Hash_IsEqual (same : bool) (a b : option Hash) : option bool :=
  match a, b with
  | None, _ | _, None => Some false
  | Some a, Some b =>
      match h_pData a, h_pData b with
      | None, _ | _, None => Some false
      | Some da, Some db =>
          if negb (is_final a) then Some false
          else if negb (is_final b) then Some false
          else if same then Some true
          else if h_iSize a != h_iSize b then Some false
          else
            xa ← read_bytes da (h_iSize a);
            xb ← read_bytes db (h_iSize a);
            Some (bool_decide (xa = xb))
      end
  end.

(** The loop of [Hash_ToText]. *)
Fixpoint hex_text (bs : list Z) : string :=
  match bs with
  | [] => EmptyString
  | b :: bs' => print_02x b +:+ hex_text bs'
  end.

Definition Hash_ToText (p : option Hash) : M string :=
  h ← nonnull p;
  require (is_final h) ;;
  alloc ;;
  let size := u32 (u32 (h_iSize h * 2) + 1) in
  if h_iSize h == 0 then mret EmptyString
  else
    data ← deref (h_pData h);
    bs ← deref (read_bytes data (h_iSize h));
    (* the text and its terminator have to fit the calloced buffer *)
    if size <? 2 * h_iSize h + 1 then crash else mret (hex_text bs).

Definition Hash_Get_OpenSSL_Name (type : Z) : option string :=
  if type == HASH_TYPE_MD5 then Some "MD5"
  else if type == HASH_TYPE_SHA1 then Some "SHA1"
  else if type == HASH_TYPE_SHA224 then Some "SHA224"
  else if type == HASH_TYPE_SHA256 then Some "SHA256"
  else if type == HASH_TYPE_SHA512 then Some "SHA512"
  else None.

Definition Hash_Get_ExpectedDigestLength (type : Z) : Z :=
  if type == HASH_TYPE_MD5 then 16
  else if type == HASH_TYPE_SHA1 then 20
  else if type == HASH_TYPE_SHA224 then 28
  else if type == HASH_TYPE_SHA256 then 32
  else if type == HASH_TYPE_SHA512 then 64
  else 0.

(** [Hash_Init_OpenSSL]: the buffer, the digest and the context of a hash. *)
Definition Hash_Init_OpenSSL h : M Hash :=
  alloc ;;
  let data := replicate (Z.to_nat EVP_MAX_MD_SIZE) 0 in
  name ← nonnull (Hash_Get_OpenSSL_Name (h_iType h));
  md ← nonnull (EVP_MD_fetch name);
  alloc ;;
  ctx ← nonnull (EVP_DigestInit_ex2 md);
  mret (mkHash (h_iType h) (h_iSize h) (Some data) (Some ctx) (Some md) (h_iFlags h)).

Definition Hash_Create_Type (type : Z) : M Hash :=
  alloc ;;
  Hash_Init_OpenSSL (mkHash type 0 None None None 0).

Definition Hash_Create (Config_getHashType : Z) : M Hash := Hash_Create_Type Config_getHashType.

(** The loop of [Hash_Create_From_String]: [n] times scan two digits and step
    over two characters (a failed scan leaves the calloced zero). *)
Fixpoint scan_hex (n : nat) (pos : string) : list Z :=
  match n with
  | O => []
  | S n' =>
      default 0 (scan_2hhx pos) ::
      scan_hex n' (match pos with String _ (String _ s) => s | _ => EmptyString end)
  end.

Definition Hash_Create_From_String (type : Z) (p_sHash : option string) : M Hash :=
  s ← nonnull p_sHash;
  let len := Hash_Get_ExpectedDigestLength type in
  require (len != 0) ;;
  require (strlen s == len * 2) ;;
  require (str_forall isxdigit s) ;;
  alloc ;;
  alloc ;;
  mret (mkHash type len (Some (scan_hex (Z.to_nat len) s)) None None HASH_FLAG_FINAL).

Definition set_CTX h (c : evp_ctx) : Hash :=
  mkHash (h_iType h) (h_iSize h) (h_pData h) (Some c) (h_md h) (h_iFlags h).

(** The guards [Hash_Update], [Hash_Update_File] and [Hash_Finalize] share. *)
Definition updatable h : bool :=
  match h_pData h with None => false | Some _ => (h_iType h != 0) && negb (is_final h) end.

(** [Hash_Update]: the returned flag and the hash after the call. *)
Definition Hash_Update (p : option Hash) (data : list Z) : option (bool * option Hash) :=
  match p with
  | None => Some (false, None)
  | Some h =>
      if negb (updatable h) then Some (false, Some h)
      else
        c ← h_CTX h;
        match EVP_DigestUpdate c data with
        | None => Some (false, Some h)
        | Some c' => Some (true, Some (set_CTX h c'))
        end
  end.

(** The loop of [Hash_Update_File]; [fuel] bounds the number of reads. *)
Fixpoint Update_File_loop (fuel : nat) h (f : File) : option (bool * Hash * File) :=
  match fuel with
  | O => None
  | S fuel' =>
      let '(chunk, f') := fread 4096 f in
      match chunk with
      | [] => Some (true, h, rewind f')
      | _ :: _ =>
          c ← h_CTX h;
          match EVP_DigestUpdate c chunk with
          | None => Some (false, h, rewind f')
          | Some c' => Update_File_loop fuel' (set_CTX h c') f'
          end
      end
  end.

Definition Hash_Update_File (p : option Hash) (file : option File)
    : option (bool * option Hash * option File) :=
  match p with
  | None => Some (false, None, file)
  | Some h =>
      if negb (updatable h) then Some (false, Some h, file)
      else
        match file with
        | None => Some (false, Some h, None)
        | Some f =>
            '(b, h', f') ← Update_File_loop (S (length (f_data f))) h f;
            Some (b, Some h', Some f')
        end
  end.

Definition Hash_Finalize (p : option Hash) : option (bool * option Hash) :=
  match p with
  | None => Some (false, None)
  | Some h =>
      if negb (updatable h) then Some (false, Some h)
      else
        c ← h_CTX h;
        match EVP_DigestFinal_ex c with
        | None => Some (false, Some h)
        | Some d =>
            buf ← h_pData h;
            if (length buf <? length d)%nat then None
            else Some (true, Some (mkHash (h_iType h) (Z.of_nat (length d))
                   (Some (d ++ drop (length d) buf)) (h_CTX h) (h_md h)
                   (Z.lor (h_iFlags h) HASH_FLAG_FINAL)))
        end
  end.

Definition Hash_BinaryLength (p : option Hash) : Z :=
  match p with None => 0 | Some h => u32 (h_iSize h + 8) end.
Definition Hash_DigestLength (p : option Hash) : Z :=
  match p with None => 0 | Some h => h_iSize h end.
Definition Hash_StringLength (p : option Hash) : Z :=
  match p with None => 0 | Some h => u32 (u32 (h_iSize h * 2) + 1) end.

Definition Hash_Clone (p : option Hash) : M Hash :=
  h ← nonnull p;
  require (is_final h) ;;
  alloc ;;
  alloc ;;
  if h_iSize h == 0 then mret (mkHash (h_iType h) 0 (Some []) None None HASH_FLAG_FINAL)
  else
    data ← deref (h_pData h);
    bs ← deref (read_bytes data (h_iSize h));
    mret (mkHash (h_iType h) (h_iSize h) (Some bs) None None HASH_FLAG_FINAL).
End Operations.

Arguments Hash_ToText : simpl never.
Arguments Hash_Create_From_String : simpl never.
Arguments Hash_Clone : simpl never.
Arguments Hash_Create_Type : simpl never.
Arguments print_02x : simpl never.

(** ** Well-formed hashes *)

Section Lemmas.
Context `{EVP}.
Implicit Types h : Hash.

(** The digest a hash holds. *)
Definition digest h : list Z := take (Z.to_nat (h_iSize h)) (default [] (h_pData h)).

(** A finalised hash: a digest of its type's length. *)
Record complete h : Prop := {
  complete_final : is_final h = true;
  complete_type : Hash_Get_ExpectedDigestLength (h_iType h) <> 0;
  complete_size : h_iSize h = Hash_Get_ExpectedDigestLength (h_iType h);
  complete_data : exists d, h_pData h = Some d /\ h_iSize h <= Z.of_nat (length d) /\
    Forall (fun b => 0 <= b < 256) d
}.

Lemma known_type t : Hash_Get_ExpectedDigestLength t <> 0 ->
  0 < Hash_Get_ExpectedDigestLength t <= 64 /\ 0 < t <= 5 /\
  exists name, Hash_Get_OpenSSL_Name t = Some name.
Proof.
  unfold Hash_Get_ExpectedDigestLength, Hash_Get_OpenSSL_Name.
  unfold HASH_TYPE_MD5, HASH_TYPE_SHA1, HASH_TYPE_SHA224, HASH_TYPE_SHA256, HASH_TYPE_SHA512.
  repeat case_match; intros; try done; split_and!; try lia; eauto.
Qed.

Lemma expected_length_inj a b :
  Hash_Get_ExpectedDigestLength a = Hash_Get_ExpectedDigestLength b ->
  Hash_Get_ExpectedDigestLength a <> 0 -> a = b.
Proof.
  unfold Hash_Get_ExpectedDigestLength. repeat case_match; intros; try done; lia.
Qed.

Lemma read_digest h : complete h -> exists d, h_pData h = Some d /\
  read_bytes d (h_iSize h) = Some (digest h) /\ 0 < h_iSize h <= 64 /\
  Z.of_nat (length (digest h)) = h_iSize h /\ Forall (fun b => 0 <= b < 256) (digest h).
Proof.
  intros [Hf Ht Hs (d & Hd & Hl & Hb)]. exists d. unfold digest. rewrite Hd. simpl.
  destruct (known_type _ Ht) as ([? ?] & _). rewrite <- Hs in *.
  split_and!; [done| |lia|lia| |by apply Forall_take].
  - unfold read_bytes. by destruct (Z.ltb_spec (Z.of_nat (length d)) (h_iSize h)); [lia|].
  - rewrite length_take. lia.
Qed.

(** *** Hexadecimal text *)

Lemma strlen_app a b : strlen (a +:+ b) = strlen a + strlen b.
Proof. unfold strlen. induction a as [|c a IH]; [done|]. simpl. lia. Qed.

Lemma str_forall_app p a b : str_forall p (a +:+ b) = str_forall p a && str_forall p b.
Proof. induction a as [|c a IH]; [done|]. simpl. by rewrite IH, andb_assoc. Qed.

Lemma hex_text_spec bs : Forall (fun b => 0 <= b < 256) bs ->
  strlen (hex_text bs) = 2 * Z.of_nat (length bs) /\ str_forall isxdigit (hex_text bs) = true /\
  scan_hex (length bs) (hex_text bs) = bs.
Proof.
  induction 1 as [|b bs Hb _ (IH1 & IH2 & IH3)]; [done|]. cbn [hex_text length scan_hex].
  rewrite strlen_app, str_forall_app, print_02x_chars, IH2, scan_print_02x by done.
  split_and!; [|done|].
  2: { change (b :: scan_hex (length bs) (hex_text bs) = b :: bs). by rewrite IH3. }
  rewrite IH1.
  change (strlen (print_02x b)) with 2. lia.
Qed.

Lemma nul_free_xdigits s : str_forall isxdigit s = true -> nul_free s = true.
Proof.
  unfold nul_free. induction s as [|c s IH]; simpl; [done|].
  intros [Hc Hs]%andb_true_iff. rewrite IH by done. unfold isxdigit, isdigit in Hc. lia.
Qed.

Lemma scan_hex_spec n s : strlen s = 2 * Z.of_nat n -> str_forall isxdigit s = true ->
  length (scan_hex n s) = n /\ Forall (fun b => 0 <= b < 256) (scan_hex n s) /\
  hex_text (scan_hex n s) = str_lower s.
Proof.
  revert s. induction n as [|n IH]; intros s Hl Hx; unfold strlen in Hl.
  - destruct s; [done|simpl in Hl; lia].
  - destruct s as [|a [|b s]]; simpl in Hl; try lia. simpl in Hx.
    apply andb_true_iff in Hx as [Ha [Hb Hs]%andb_true_iff].
    destruct (IH s) as (H1 & H2 & H3); [unfold strlen; lia|done|].
    simpl. rewrite Ha, Hb, H1, H3. simpl.
    pose proof (hex_value_range _ Ha). pose proof (hex_value_range _ Hb).
    split_and!; [done|constructor; [lia|done]|]. by rewrite print_scan_02x.
Qed.

Lemma ToText_complete h o : complete h ->
  Hash_ToText (Some h) o = (alloc ;; mret (hex_text (digest h))) o.
Proof.
  intros Hc. destruct (read_digest h Hc) as (d & Hd & Hr & Hs & _).
  unfold Hash_ToText, nonnull, require. rewrite !M_ret_bind, (complete_final _ Hc), M_ret_bind.
  unfold mbind, M_bind. destruct (alloc o) as [[[[]|] o1]|]; [|done..]. simpl.
  destruct (Z.eqb_spec (h_iSize h) 0) as [|_]; [lia|]. rewrite Hd. simpl. rewrite Hr. simpl.
  unfold u32. rewrite wrap_add_l, wrap_small by (unfold in_width; lia).
  by destruct (Z.ltb_spec (h_iSize h * 2 + 1) (2 * h_iSize h + 1)); [lia|].
Qed.

Lemma From_String_text t s o :
  Hash_Create_From_String t (Some s) o =
  (require ((Hash_Get_ExpectedDigestLength t != 0) &&
            (strlen s == Hash_Get_ExpectedDigestLength t * 2) && str_forall isxdigit s) ;;
   alloc ;; alloc ;;
   mret (mkHash t (Hash_Get_ExpectedDigestLength t)
           (Some (scan_hex (Z.to_nat (Hash_Get_ExpectedDigestLength t)) s)) None None HASH_FLAG_FINAL)) o.
Proof.
  unfold Hash_Create_From_String, nonnull. rewrite M_ret_bind.
  destruct (_ != 0); [|done]. destruct (strlen s == _); [|done]. by destruct (str_forall isxdigit s).
Qed.

Lemma From_String_inv t s o h o' :
  Hash_Create_From_String t s o = Some (Some h, o') ->
  exists s', s = Some s' /\ strlen s' = 2 * Hash_Get_ExpectedDigestLength t /\
    str_forall isxdigit s' = true /\ complete h /\ h_iType h = t /\
    digest h = scan_hex (Z.to_nat (Hash_Get_ExpectedDigestLength t)) s'.
Proof.
  destruct s as [s|]; [|done]. rewrite From_String_text. intros E.
  m_inv E. apply andb_true_iff in E0 as [[Ht Hl]%andb_true_iff Hx]. exists s.
  assert (Ht' : Hash_Get_ExpectedDigestLength t <> 0) by lia.
  destruct (known_type _ Ht') as ([? ?] & _).
  destruct (scan_hex_spec (Z.to_nat (Hash_Get_ExpectedDigestLength t)) s) as (Hn & Hb & _);
    [lia|done|].
  split_and!; [done|lia|done| |done|].
  - split; try done. eexists. split; [done|]. simpl. split; [lia|done].
  - unfold digest. simpl. apply take_ge. lia.
Qed.

Lemma IsEqual_complete a b : complete a -> complete b ->
  Hash_IsEqual false (Some a) (Some b) = Some (bool_decide (digest a = digest b)).
Proof.
  intros Ha Hb. destruct (read_digest a Ha) as (da & Hda & Hra & _ & Hla & _).
  destruct (read_digest b Hb) as (db & Hdb & Hrb & _ & Hlb & _).
  simpl. rewrite Hda, Hdb, (complete_final _ Ha), (complete_final _ Hb). simpl.
  destruct (Z.eqb_spec (h_iSize a) (h_iSize b)) as [E|E]; simpl.
  - rewrite Hra. simpl. rewrite E, Hrb. done.
  - rewrite bool_decide_eq_false_2; [done|]. intros Hd. rewrite Hd in Hla. congruence.
Qed.

(** What [Hash_Clone] makes of a finalised hash. *)
Definition clone_of h : Hash :=
  mkHash (h_iType h) (h_iSize h) (Some (digest h)) None None HASH_FLAG_FINAL.

Lemma Clone_complete h o : complete h ->
  Hash_Clone (Some h) o = (alloc ;; alloc ;; mret (clone_of h)) o.
Proof.
  intros Hc. destruct (read_digest h Hc) as (d & Hd & Hr & Hs & _).
  unfold Hash_Clone, nonnull, require. rewrite !M_ret_bind, (complete_final _ Hc), M_ret_bind.
  unfold mbind, M_bind. destruct (alloc o) as [[[[]|] o1]|]; [|done..].
  destruct (alloc o1) as [[[[]|] o2]|]; [|done..].
  destruct (Z.eqb_spec (h_iSize h) 0) as [|_]; [lia|]. rewrite Hd. simpl. by rewrite Hr.
Qed.

Lemma digest_clone h : complete h ->
  complete (clone_of h) /\ digest (clone_of h) = digest h.
Proof.
  intros Hc. destruct (read_digest h Hc) as (d & Hd & _ & Hs & Hl & Hb). split.
  - split; simpl; [done|apply Hc..|]. eexists. split; [done|]. split; [lia|done].
  - unfold digest at 1. simpl. apply take_ge. lia.
Qed.

(** The text of a digest reads back as a clone of the hash. *)
Lemma From_String_hex h o : complete h ->
  Hash_Create_From_String (h_iType h) (Some (hex_text (digest h))) o =
  (alloc ;; alloc ;; mret (clone_of h)) o.
Proof.
  intros Hc. destruct (read_digest h Hc) as (d & _ & _ & Hs & Hl & Hb).
  destruct (hex_text_spec (digest h) Hb) as (H1 & H2 & H3). rewrite Hl in H1.
  rewrite From_String_text, <- (complete_size _ Hc), H1, H2, andb_true_r, (Z.mul_comm _ 2), Z.eqb_refl.
  destruct (Z.eqb_spec (h_iSize h) 0); [lia|]. simpl.
  replace (Z.to_nat (h_iSize h)) with (length (digest h)) by lia. by rewrite H3.
Qed.

Lemma complete_same_type a b : complete a -> complete b -> digest a = digest b ->
  h_iType a = h_iType b.
Proof.
  intros Ha Hb E. destruct (read_digest a Ha) as (_ & _ & _ & _ & Hla & _).
  destruct (read_digest b Hb) as (_ & _ & _ & _ & Hlb & _). rewrite E in Hla.
  apply expected_length_inj; [|apply Ha].
  rewrite <- (complete_size _ Ha), <- (complete_size _ Hb). congruence.
Qed.
End Lemmas.

(** ** The life of a hash: create, update, finalise *)

Section Lifecycle.
Context `{EVPLaws}.
Implicit Types h : Hash.

(** A hash under construction that has absorbed [xs]. *)
Record opened h (md : evp_md) (xs : list Z) : Prop := {
  opened_type : exists name, Hash_Get_OpenSSL_Name (h_iType h) = Some name /\
    EVP_MD_fetch name = Some md;
  opened_flags : is_final h = false;
  opened_data : exists d, h_pData h = Some d /\ length d = Z.to_nat EVP_MAX_MD_SIZE /\
    Forall (fun b => 0 <= b < 256) d;
  opened_ctx : exists c, h_CTX h = Some c /\ evp_absorbed c md xs
}.

Lemma name_size t name : Hash_Get_OpenSSL_Name t = Some name ->
  evp_size name = Hash_Get_ExpectedDigestLength t /\ Hash_Get_ExpectedDigestLength t <> 0 /\ t <> 0.
Proof.
  unfold Hash_Get_OpenSSL_Name, Hash_Get_ExpectedDigestLength.
  unfold HASH_TYPE_MD5, HASH_TYPE_SHA1, HASH_TYPE_SHA224, HASH_TYPE_SHA256, HASH_TYPE_SHA512.
  repeat case_match; intros [= <-];
    rewrite ?evp_size_md5, ?evp_size_sha1, ?evp_size_sha224, ?evp_size_sha256, ?evp_size_sha512; lia.
Qed.

Lemma Create_Type_opened t o h o' :
  Hash_Create_Type t o = Some (Some h, o') -> h_iType h = t /\ exists md, opened h md [].
Proof.
  unfold Hash_Create_Type, Hash_Init_OpenSSL. intros E. m_inv E. split; [done|].
  eexists. split; cbn [h_iType h_pData h_CTX]; [eauto|done| |eauto using evp_init].
  eexists. split; [done|]. split; [done|].
  repeat (apply Forall_cons_2; [lia|]). constructor.
Qed.

Lemma opened_updatable h md xs : opened h md xs -> updatable h = true.
Proof.
  intros [(name & Hn & _) Hf (d & Hd & _) _]. destruct (name_size _ _ Hn) as (_ & _ & ?).
  unfold updatable. rewrite Hd, Hf. lia.
Qed.

Lemma set_CTX_opened h md xs ys c' c : opened h md xs -> h_CTX h = Some c ->
  EVP_DigestUpdate c ys = Some c' -> opened (set_CTX h c') md (xs ++ ys).
Proof.
  intros [? ? ? (c0 & Hc & Ha)] Hc' Hu. rewrite Hc in Hc'. simplify_eq.
  split; try done. eexists. split; [done|]. by eapply evp_update.
Qed.

Lemma Update_opened h md xs ys : opened h md xs ->
  exists b h', Hash_Update (Some h) ys = Some (b, Some h') /\
    (if b then opened h' md (xs ++ ys) else h' = h) /\ h_iType h' = h_iType h.
Proof.
  intros Ho. unfold Hash_Update. rewrite (opened_updatable _ _ _ Ho). simpl.
  destruct (opened_ctx _ _ _ Ho) as (c & Hc & _). rewrite Hc. simpl.
  destruct (EVP_DigestUpdate c ys) as [c'|] eqn:E; [|by exists false, h].
  exists true, (set_CTX h c'). split_and!; [done|by eapply set_CTX_opened|done].
Qed.

Lemma fread_rest n f : (fread n f).1 = take n (f_rest f) /\
  f_rest (fread n f).2 = drop n (f_rest f) /\ rewind (fread n f).2 = rewind f.
Proof.
  assert (Hk : forall k, f_rest (mkFile (f_data f) (f_pos f + k) (f_err f)) = drop k (f_rest f)).
  { intros k. unfold f_rest. by rewrite drop_drop. }
  unfold fread. split_and!; [done| |done]. cbn [snd]. rewrite Hk, length_take.
  destruct (decide (n <= length (f_rest f))%nat); [by rewrite Nat.min_l by lia|].
  rewrite !drop_ge; [done|lia..].
Qed.

Lemma Update_File_loop_opened fuel : forall h md xs f,
  opened h md xs -> (length (f_rest f) < fuel)%nat ->
  exists b h', Update_File_loop fuel h f = Some (b, h', rewind f) /\
    (b = true -> opened h' md (xs ++ f_rest f)) /\ h_iType h' = h_iType h.
Proof.
  induction fuel as [|fuel IH]; intros h md xs f Ho Hf; [lia|].
  cbn [Update_File_loop].
  destruct (fread_rest 4096 f) as (Hc & Hr & Hw). destruct (fread 4096 f) as [chunk f'].
  cbn [fst snd] in *.
  rewrite Hw. destruct chunk as [|b0 chunk].
  { exists true, h. split_and!; [done| |done]. intros _.
    assert (f_rest f = []) as ->; [|by rewrite app_nil_r].
    destruct (f_rest f); [done|]. by discriminate Hc. }
  destruct (opened_ctx _ _ _ Ho) as (c & Hcc & _). rewrite Hcc. cbn [mbind option_bind].
  destruct (EVP_DigestUpdate c (b0 :: chunk)) as [c'|] eqn:E; [|by exists false, h].
  destruct (IH (set_CTX h c') md (xs ++ b0 :: chunk) f') as (b & h' & -> & Ho' & Ht).
  { by eapply set_CTX_opened. }
  { rewrite Hr, length_drop. destruct (f_rest f); [by discriminate Hc|]. cbn [length] in *. lia. }
  rewrite Hw. exists b, h'. split_and!; [done| |done]. intros Hb. specialize (Ho' Hb).
  by rewrite <- app_assoc, Hc, Hr, take_drop in Ho'.
Qed.

Lemma Update_File_opened h md xs f : opened h md xs ->
  exists b h', Hash_Update_File (Some h) (Some f) = Some (b, Some h', Some (rewind f)) /\
    (b = true -> opened h' md (xs ++ f_rest f)) /\ h_iType h' = h_iType h.
Proof.
  intros Ho. unfold Hash_Update_File. rewrite (opened_updatable _ _ _ Ho). simpl negb. cbv iota.
  destruct (Update_File_loop_opened (S (length (f_data f))) h md xs f Ho)
    as (b & h' & -> & ? & ?).
  { unfold f_rest. rewrite length_drop. destruct (f_err f); rewrite ?length_take; lia. }
  simpl. eauto.
Qed.

Lemma Finalize_opened h md xs : opened h md xs ->
  exists b h', Hash_Finalize (Some h) = Some (b, Some h') /\
    (if b then complete h' /\ h_iType h' = h_iType h /\ digest h' = evp_digest md xs else h' = h).
Proof.
  intros Ho. unfold Hash_Finalize. rewrite (opened_updatable _ _ _ Ho). simpl.
  destruct Ho as [(name & Hn & Hfe) Hfl (d & Hd & Hld & Hbd) (c & Hc & Ha)]. rewrite Hc. simpl.
  destruct (EVP_DigestFinal_ex c) as [dg|] eqn:E; [|by exists false, h]. rewrite Hd. simpl.
  apply (evp_final _ _ _ _ Ha) in E. destruct (name_size _ _ Hn) as (Hs & Ht & _).
  pose proof (evp_digest_length _ _ xs Hfe) as Hl. rewrite <- E, Hs in Hl.
  destruct (known_type _ Ht) as ([? ?] & _). unfold EVP_MAX_MD_SIZE in Hld.
  destruct (Nat.ltb_spec (length d) (length dg)) as [|_]; [lia|].
  eexists true, _. split; [done|]. split_and!; [|done|].
  - split; simpl; [|done|done|].
    + unfold is_final in *. simpl. rewrite Z.land_lor_distr_l.
      destruct (Z.eqb_spec (Z.land (h_iFlags h) HASH_FLAG_FINAL) 0) as [->|]; done.
    + eexists. split; [done|]. rewrite length_app. split; [lia|]. apply Forall_app.
      split; [rewrite E; apply evp_digest_bytes|by apply Forall_drop].
  - unfold digest. simpl. by rewrite Nat2Z.id, take_app_length.
Qed.
End Lifecycle.

(** ** A concrete digest

    A checksum-like digest of the right lengths, to run the operations on. *)

Module toy.
Definition size_of (name : string) : Z :=
  if bool_decide (name = "MD5") then 16
  else if bool_decide (name = "SHA1") then 20
  else if bool_decide (name = "SHA224") then 28
  else if bool_decide (name = "SHA256") then 32 else 64.

Definition sum (xs : list Z) : Z := foldr Z.add 0 xs.

Global Instance toy_evp : EVP := {
  evp_md := Z;
  evp_ctx := Z * list Z;
  EVP_MD_fetch name := Some (size_of name);
  EVP_DigestInit_ex2 md := Some (md, []);
  EVP_DigestUpdate c ys := Some (c.1, c.2 ++ ys);
  EVP_DigestFinal_ex c := Some (replicate (Z.to_nat c.1) (u8 (sum c.2)))
}.

Global Instance toy_laws : EVPLaws.
Proof.
  refine {| evp_digest := fun md xs => replicate (Z.to_nat md) (u8 (sum xs)) : list Z;
            evp_size := size_of;
            evp_absorbed := fun c md xs => c = (md, xs) |}; try done.
  - intros md c [= <-]. done.
  - intros c md xs ys c' -> [= <-]. done.
  - intros c md xs d -> [= <-]. done.
  - intros name md xs [= <-]. rewrite length_replicate. unfold size_of. by repeat case_match.
  - intros md xs. apply Forall_replicate. unfold u8. apply (wrap_range 8). lia.
Defined.

Definition opened_hash : Hash :=
  match Hash_Create_Type HASH_TYPE_MD5 [] with Some (Some h, _) => h | _ => mkHash 0 0 None None None 0 end.
Definition md5 : Hash := mkHash HASH_TYPE_MD5 16 (Some (replicate 16 171 ++ [0])) None None 1.
Definition md5b : Hash := mkHash HASH_TYPE_MD5 16 (Some (replicate 16 205)) None None 1.

Lemma md5_complete : complete md5 /\ complete md5b.
Proof.
  split; (split; [done|done|done|]); (eexists; split; [done|]); (split; [done|]);
    repeat (apply Forall_cons_2; [lia|]); constructor.
Qed.
End toy.

(** ** Theorems *)

Section Theorems.
Context `{EVP}.

(** Text round trip: a finalised hash prints as the hexadecimal text of its
    digest, and reading that text back with its type gives a finalised hash with
    the same digest, which [Hash_IsEqual] equates with the original. *)
Theorem Hash_text_roundtrip h : complete h ->
  exists text h', Hash_ToText (Some h) [] = Some (Some text, []) /\
    strlen text + 1 = Hash_StringLength (Some h) /\
    Hash_Create_From_String (h_iType h) (Some text) [] = Some (Some h', []) /\
    complete h' /\ h_iType h' = h_iType h /\ digest h' = digest h /\
    Hash_IsEqual false (Some h) (Some h') = Some true.
Proof.
  intros Hc. destruct (read_digest h Hc) as (d & _ & _ & Hs & Hl & Hb).
  destruct (hex_text_spec (digest h) Hb) as (H1 & _). destruct (digest_clone h Hc) as [Hc' E].
  exists (hex_text (digest h)), (clone_of h). split_and!; try done.
  - by rewrite ToText_complete.
  - unfold Hash_StringLength, u32. rewrite wrap_add_l, wrap_small; [lia|unfold in_width; lia].
  - by rewrite From_String_hex.
  - rewrite IsEqual_complete, E by done. by rewrite bool_decide_eq_true_2.
Qed.

(** [Hash_Create_From_String] accepts exactly the texts of twice as many
    hexadecimal digits as a digest of a known type has bytes; the hash it makes
    prints as the same text in lower case. *)
Theorem Hash_From_String_accepts t s :
  (exists h, Hash_Create_From_String t (Some s) [] = Some (Some h, []) /\
     complete h /\ h_iType h = t /\ Hash_ToText (Some h) [] = Some (Some (str_lower s), [])) \/
  (Hash_Create_From_String t (Some s) [] = Some (None, []) /\
     (t < HASH_TYPE_MD5 \/ HASH_TYPE_SHA512 < t \/
      strlen s <> 2 * Hash_Get_ExpectedDigestLength t \/ str_forall isxdigit s = false)).
Proof.
  destruct (Hash_Create_From_String t (Some s) []) as [[[h|] o]|] eqn:E.
  - left. destruct (From_String_inv _ _ _ _ _ E) as (s' & [= <-] & Hl & Hx & Hc & Ht & Hd).
    exists h. rewrite ToText_complete, Hd by done.
    destruct (scan_hex_spec (Z.to_nat (Hash_Get_ExpectedDigestLength t)) s) as (_ & _ & ->); [|done|].
    + destruct (known_type (h_iType h)); [apply Hc|]. rewrite Ht in *. lia.
    + rewrite From_String_text in E. m_inv E. by destruct (_ && _); simplify_eq/=.
  - right. rewrite From_String_text in E. unfold require in E. case_match eqn:Hg; [done|].
    injection E as <-. split; [done|]. unfold HASH_TYPE_MD5, HASH_TYPE_SHA512.
    apply andb_false_iff in Hg as [[Hg|Hg]%andb_false_iff|Hg]; [|lia|auto].
    destruct (decide (1 <= t <= 5)) as [Ht|]; [|lia]. exfalso.
    assert (t = 1 \/ t = 2 \/ t = 3 \/ t = 4 \/ t = 5) as [->|[->|[->|[->| ->]]]] by lia; done.
  - rewrite From_String_text in E. unfold require in E. by case_match.
Qed.

(** [Hash_IsEqual] on finalised hashes is equality of digests, and hashes
    with equal digests have the same type. *)
Theorem Hash_IsEqual_digest a b : complete a -> complete b ->
  Hash_IsEqual false (Some a) (Some b) = Some (bool_decide (digest a = digest b)) /\
  (digest a = digest b -> h_iType a = h_iType b).
Proof. intros. split; [by apply IsEqual_complete|by apply complete_same_type]. Qed.
End Theorems.

Section DigestTheorems.
Context `{EVPLaws}.

(** Hashing a file: creating a hash, updating it from a file (in 4096-byte
    reads) and finalising it never crashes; it rewinds the file, and when every
    step reports success the result is a finalised hash of the requested type
    whose digest is the algorithm's digest of the bytes from the file's position
    on, to which no more data can be added. *)
Theorem Hash_file_digest t f o h o' :
  Hash_Create_Type t o = Some (Some h, o') ->
  exists md name b h1, Hash_Get_OpenSSL_Name t = Some name /\ EVP_MD_fetch name = Some md /\
    Hash_Update_File (Some h) (Some f) = Some (b, Some h1, Some (rewind f)) /\
    (b = true -> exists b2 h2, Hash_Finalize (Some h1) = Some (b2, Some h2) /\
      (b2 = true -> complete h2 /\ h_iType h2 = t /\ digest h2 = evp_digest md (f_rest f) /\
        forall ys, Hash_Update (Some h2) ys = Some (false, Some h2))).
Proof.
  intros E. destruct (Create_Type_opened _ _ _ _ E) as (Ht & md & Ho).
  destruct (opened_type _ _ _ Ho) as (name & Hn & Hf). rewrite Ht in Hn.
  destruct (Update_File_opened h md [] f Ho) as (b & h1 & E1 & Ho1 & Ht1).
  exists md, name, b, h1. split_and!; try done. intros Hb.
  destruct (Finalize_opened h1 md (f_rest f) (Ho1 Hb)) as (b2 & h2 & E2 & H2).
  exists b2, h2. split; [done|]. intros ->. destruct H2 as (Hc & Ht2 & Hd).
  split_and!; [done|congruence|done|]. intros ys. unfold Hash_Update, updatable.
  rewrite (complete_final _ Hc). destruct (h_pData h2); simpl; by rewrite ?andb_false_r.
Qed.
End DigestTheorems.

(** ** Witnesses *)

Lemma Hash_text_roundtrip_witness :
  exists text h', Hash_ToText (Some toy.md5) [] = Some (Some text, []) /\
    strlen text + 1 = 33 /\ Hash_Create_From_String HASH_TYPE_MD5 (Some text) [] = Some (Some h', []) /\
    complete h' /\ h_iType h' = HASH_TYPE_MD5 /\ digest h' = replicate 16 171 /\
    Hash_IsEqual false (Some toy.md5) (Some h') = Some true.
Proof. exact (Hash_text_roundtrip toy.md5 (proj1 toy.md5_complete)). Defined.

Lemma Hash_IsEqual_digest_witness :
  Hash_IsEqual false (Some toy.md5) (Some toy.md5b) = Some false.
Proof. exact (proj1 (Hash_IsEqual_digest _ _ (proj1 toy.md5_complete) (proj2 toy.md5_complete))). Defined.

Lemma Hash_file_digest_witness :
  exists b h1, Hash_Update_File (Some toy.opened_hash) (Some (mkFile [1; 2; 3] 1 None)) =
      Some (b, Some h1, Some (mkFile [1; 2; 3] 0 None)).
Proof.
  destruct (Hash_file_digest HASH_TYPE_MD5 (mkFile [1; 2; 3] 1 None) [] toy.opened_hash [] eq_refl)
    as (md & name & b & h1 & _ & _ & E & _). exists b, h1. exact E.
Defined.
