(* ===== verification/LibUuid.v ===== *)
(** * libuuid

    The UUID type and the functions of libuuid the API calls are a parameter,
    the class [LibUuid]; [LibUuidLaws] is what its manual pages say of them.
    [bytes16] is an instance: sixteen bytes and the 8-4-4-4-12 text. *)

From S2P Require Import Prelude CLib Hash.

Class LibUuid := {
  uuid_t : Type;
  uuid_eq_dec :: EqDecision uuid_t;
  uuid_null : uuid_t;
  uuid_compare : uuid_t -> uuid_t -> Z;
  uuid_is_null : uuid_t -> Z;
  uuid_parse : string -> option uuid_t;
  uuid_unparse : uuid_t -> string
}.

(** [UUID_STRING_LENGTH] of include/razorback/types.h: 36 characters and the
    terminator. *)
Definition UUID_STRING_LENGTH : Z := 37.

Class LibUuidLaws `{LibUuid} := {
  uuid_compare_eq a b : uuid_compare a b = 0 <-> a = b;
  uuid_is_null_spec a : uuid_is_null a = if bool_decide (a = uuid_null) then 1 else 0;
  uuid_parse_unparse u : uuid_parse (uuid_unparse u) = Some u;
  uuid_unparse_length u : strlen (uuid_unparse u) + 1 = UUID_STRING_LENGTH;
  uuid_unparse_nul_free u : nul_free (uuid_unparse u) = true
}.

Lemma uuid_compare_eqb `{LibUuidLaws} a b : (uuid_compare a b == 0) = bool_decide (a = b).
Proof.
  destruct (bool_decide_reflect (a = b)) as [E|E]; [by rewrite Z.eqb_eq, uuid_compare_eq|].
  rewrite Z.eqb_neq. by rewrite uuid_compare_eq.
Qed.

(** ** An instance *)

Module bytes16.
(** Dashes where the format has [true]. *)
Fixpoint weave (fmt : list bool) (s : string) : string :=
  match fmt, s with
  | true :: f, _ => String (chr 45) (weave f s)
  | false :: f, String c s' => String c (weave f s')
  | _, _ => EmptyString
  end.

Fixpoint unweave (fmt : list bool) (s : string) : option string :=
  match fmt, s with
  | [], EmptyString => Some EmptyString
  | true :: f, String c s' => if code c == 45 then unweave f s' else None
  | false :: f, String c s' => String c <$> unweave f s'
  | _, _ => None
  end.

Definition fmt : list bool :=
  replicate 8 false ++ [true] ++ replicate 4 false ++ [true] ++ replicate 4 false ++ [true] ++
  replicate 4 false ++ [true] ++ replicate 12 false.

Definition ok (l : list Z) : Prop := length l = 16%nat /\ Forall (fun b => 0 <= b < 256) l.
Global Instance ok_dec l : Decision (ok l).
Proof. unfold ok. apply _. Defined.

Definition t : Type := { l : list Z | bool_decide (ok l) = true }.

Definition make (l : list Z) : option t :=
  match decide (bool_decide (ok l) = true) with
  | left H => Some (exist _ l H)
  | right _ => None
  end.

Definition parse (s : string) : option t :=
  h ← unweave fmt s; if str_forall isxdigit h then make (scan_hex 16 h) else None.
Definition unparse (u : t) : string := weave fmt (hex_text (`u)).

Fixpoint cmp (a b : list Z) : Z :=
  match a, b with
  | x :: a', y :: b' => if x == y then cmp a' b' else if x <? y then -1 else 1
  | [], [] => 0
  | [], _ => -1
  | _, [] => 1
  end.

Lemma t_eq (a b : t) : `a = `b -> a = b.
Proof.
  destruct a as [a Ha], b as [b Hb]. simpl. intros ->. f_equal. apply proof_irrel.
Qed.

Lemma cmp_eq a b : cmp a b = 0 <-> a = b.
Proof.
  revert b. induction a as [|x a IH]; intros [|y b]; simpl; try done.
  destruct (Z.eqb_spec x y) as [->|]; [rewrite IH; naive_solver|].
  destruct (x <? y); split; intros; simplify_eq; lia.
Qed.

Lemma make_sig (u : t) : make (`u) = Some u.
Proof. unfold make. destruct (decide _) as [H|H]; [f_equal; by apply t_eq|]. by destruct u. Qed.

Fixpoint holes (f : list bool) : nat :=
  match f with [] => 0 | true :: f' => holes f' | false :: f' => S (holes f') end.

Lemma unweave_weave f s : String.length s = holes f -> unweave f (weave f s) = Some s.
Proof.
  revert s. induction f as [|[] f IH]; intros s Hs; simpl in Hs.
  - by destruct s.
  - simpl. destruct s; simpl; by rewrite IH.
  - destruct s as [|c s]; [done|]. simpl in *. rewrite IH; [done|lia].
Qed.

Lemma weave_length f s : String.length s = holes f -> String.length (weave f s) = length f.
Proof.
  revert s. induction f as [|[] f IH]; intros s Hs; simpl in *; [by destruct s| |].
  - destruct s; simpl; by rewrite IH.
  - destruct s as [|c s]; [done|]. simpl in *. rewrite IH; [done|lia].
Qed.

Lemma weave_nul_free f s : nul_free s = true -> nul_free (weave f s) = true.
Proof.
  unfold nul_free. revert s. induction f as [|[] f IH]; intros s Hs; [by destruct s| |].
  - destruct s; simpl in *; by rewrite IH.
  - destruct s as [|c s]; [done|]. simpl in *. apply andb_true_iff in Hs as [-> ?]. by rewrite IH.
Qed.

Lemma text (u : t) : strlen (hex_text (`u)) = 32 /\ str_forall isxdigit (hex_text (`u)) = true /\
  scan_hex 16 (hex_text (`u)) = `u.
Proof.
  destruct u as [l H]. simpl. apply bool_decide_eq_true_1 in H as [Hl Hb].
  destruct (hex_text_spec l Hb) as (H1 & H2 & H3). rewrite Hl in *. done.
Qed.

Global Instance impl : LibUuid := {
  uuid_t := t;
  uuid_eq_dec := fun a b => match decide (`a = `b) with
    | left H => left (t_eq _ _ H)
    | right H => right (fun E => H (f_equal (fun x : t => `x) E))
    end;
  uuid_null := exist _ (replicate 16 0) eq_refl;
  uuid_compare a b := cmp (`a) (`b);
  uuid_is_null a := if bool_decide (`a = replicate 16 0) then 1 else 0;
  uuid_parse := parse;
  uuid_unparse := unparse
}.

Global Instance laws : LibUuidLaws.
Proof.
  split.
  - intros a b. simpl. rewrite cmp_eq. split; [apply t_eq|by intros ->].
  - intros a. unfold uuid_is_null, impl. set (z := exist _ (replicate 16 0) eq_refl : t).
    change (replicate 16 0) with (`z). change (uuid_null) with z.
    case_bool_decide as E; case_bool_decide as E'; try done; [by destruct E'; apply t_eq|by subst a].
  - intros u. simpl. destruct (text u) as (H1 & H2 & H3). unfold parse, unparse, strlen in *.
    rewrite unweave_weave by (change (holes fmt) with 32%nat; lia).
    cbn [mbind option_bind]. by rewrite H2, H3, make_sig.
  - intros u. simpl. destruct (text u) as (H1 & _). unfold unparse, strlen in *.
    rewrite weave_length; [done|]. change (holes fmt) with 32%nat. lia.
  - intros u. simpl. apply weave_nul_free, nul_free_xdigits, text.
Qed.
End bytes16.
