(* ===== verification/Uuids.v ===== *)
(** * The UUID lists: src/uuids.c

    Six global lists map names to UUIDs (data types, intel types, NTLV types and
    names, nuggets and nugget types); [UuidLists] is that global state.  A node's
    name is never NULL: the only function that makes nodes refuses a NULL name. *)

From S2P Require Import Prelude CLib RzbList RzbListProps ListM Hash LibUuid.

(** ** Constants *)

Definition UUID_TYPE_DATA_TYPE : Z := 1.
Definition UUID_TYPE_INTEL_TYPE : Z := 2.
Definition UUID_TYPE_NTLV_TYPE : Z := 3.
Definition UUID_TYPE_NUGGET : Z := 4.
Definition UUID_TYPE_NUGGET_TYPE : Z := 5.
Definition UUID_TYPE_NTLV_NAME : Z := 6.

Definition UUID_KEY_NAME : Z := 0.
Definition UUID_KEY_UUID : Z := 1.

(** The text of the UUID, the name and the description of each nugget type, in
    the order [init_NuggetTypes] registers them.  The correlation nugget, whose
    constants the file defines too, is not among them. *)
Definition nugget_types : list (string * string * string) :=
  [("1117de3c-6fe8-4291-84ae-36cdf2f91017", "DISPATCHER", "Message Dispatcher Nugget");
   ("ca51afd1-41b8-4c6b-b221-9faef0d202a7", "MASTER", "Master Nugget");
   ("c38b113a-27fd-417c-b9fa-f3aa0af5cb53", "COLLECTION", "Data Collector Nugget");
   ("d95aee72-9186-4236-bf23-8ff77dac630b", "INSPECTION", "Inspection Nugget");
   ("a3d0d1f9-c049-474e-bf01-2128ea00a751", "OUTPUT", "Output Nugget");
   ("356112d8-f4f1-41dc-b3f7-cace5674c2ec", "INTEL", "Intel Nugget");
   ("5e9c1296-ad6a-423f-9eca-9f817c72c444", "DEFENSE", "Defense Update Nugget")].

Definition NUGGET_TYPE_CORRELATION : string := "CORRELATION".

(** ** Data *)

Section Data.
Context `{LibUuid}.

Record UUIDListNode := mkUUIDNode {
  un_uuid : uuid_t;
  un_sName : string;
  un_sDescription : option string
}.

(** [struct UUIDKey], of which a search reads the field its type names. *)
Record UUIDKey := mkUUIDKey { uk_type : Z; uk_uuid : uuid_t; uk_name : string }.

Abbreviation uuid_list := (vlist UUIDKey UUIDListNode).

Record UuidLists := mkUuidLists {
  sg_DataTypeList : option uuid_list;
  sg_IntelTypeList : option uuid_list;
  sg_NtlvTypeList : option uuid_list;
  sg_NtlvNameList : option uuid_list;
  sg_NuggetList : option uuid_list;
  sg_NuggetTypeList : option uuid_list
}.
End Data.

Abbreviation uuid_list := (vlist UUIDKey UUIDListNode).

(** ** Operations *)

Section Operations.
Context `{LibUuid}.

Definition UUID_Cmp (s : allocs) (a b : UUIDListNode) : Z := -1.

Definition UUID_KeyCmp (s : allocs) (current : UUIDListNode) (key : UUIDKey) : Z :=
  if uk_type key == UUID_KEY_UUID then uuid_compare (uk_uuid key) (un_uuid current)
  else if uk_type key == UUID_KEY_NAME then strcmp (uk_name key) (un_sName current)
  else -1.

(** [UUID_Clone]: the node, its name and, if it has one, its description are
    allocated. *)
Definition UUID_Clone (orig : UUIDListNode) (o : allocs) : option UUIDListNode * allocs :=
  match (alloc ;; alloc ;;
         match un_sDescription orig with None => mret () | Some _ => alloc end ;;
         mret (mkUUIDNode (un_uuid orig) (un_sName orig) (un_sDescription orig)) : M UUIDListNode) o with
  | Some r => r
  | None => (None, o)
  end.

(** [UUID_Destroy] frees the node and its strings. *)
Definition UUID_Destroy (a : UUIDListNode) (o : allocs) : allocs := o.

Definition UUID_Create_List : M uuid_list :=
  list_create UUID_Cmp UUID_KeyCmp UUID_Destroy UUID_Clone.

(** [UUID_Add_List_Entry]: the list after the call when it returns true; it is
    unchanged when the call fails. *)
Definition UUID_Add_List_Entry (list : option uuid_list) (p_uuid : uuid_t)
    (p_sName p_sDescr : option string) : M (option uuid_list) :=
  l ← nonnull list;
  name ← nonnull p_sName;
  require (strlen name != 0) ;;
  alloc ;;
  alloc ;;
  match p_sDescr with None => mret () | Some _ => alloc end ;;
  '(pushed, list') ← list_push (Some l) (mkUUIDNode p_uuid name p_sDescr);
  require pushed ;;
  mret list'.

Definition UUID_Get_List (sg : UuidLists) (type : Z) : option uuid_list :=
  if type == UUID_TYPE_DATA_TYPE then sg_DataTypeList sg
  else if type == UUID_TYPE_INTEL_TYPE then sg_IntelTypeList sg
  else if type == UUID_TYPE_NTLV_TYPE then sg_NtlvTypeList sg
  else if type == UUID_TYPE_NTLV_NAME then sg_NtlvNameList sg
  else if type == UUID_TYPE_NUGGET then sg_NuggetList sg
  else if type == UUID_TYPE_NUGGET_TYPE then sg_NuggetTypeList sg
  else None.

Definition UUID_getNodeByName (sg : UuidLists) (p_sName : string) (p_iType : Z) : M UUIDListNode :=
  list_find (UUID_Get_List sg p_iType) (mkUUIDKey UUID_KEY_NAME uuid_null p_sName).

Definition UUID_getNodeByUUID (sg : UuidLists) (p_uuid : uuid_t) (p_iType : Z) : M UUIDListNode :=
  list_find (UUID_Get_List sg p_iType) (mkUUIDKey UUID_KEY_UUID p_uuid EmptyString).

(** One registration of [init_NuggetTypes]: a failed [uuid_parse] leaves the
    local [uuid] as it was, a failed addition is ignored. *)
Definition init_NuggetType (st : option uuid_list * uuid_t) (t : string * string * string)
    (o : allocs) : option (option uuid_list * uuid_t * allocs) :=
  let '(text, name, descr) := t in
  let '(l, uuid) := st in
  let uuid := default uuid (uuid_parse text) in
  '(r, o') ← UUID_Add_List_Entry l uuid (Some name) (Some descr) o;
  Some (match r with Some l' => l' | None => l end, uuid, o').

Fixpoint init_NuggetTypes (ts : list (string * string * string)) (st : option uuid_list * uuid_t)
    (o : allocs) : option (option uuid_list * allocs) :=
  match ts with
  | [] => Some (st.1, o)
  | t :: ts' => '(l, u, o') ← init_NuggetType st t o; init_NuggetTypes ts' (l, u) o'
  end.

Definition initUuids (o : allocs) : option (UuidLists * allocs) :=
  '(l1, o) ← UUID_Create_List o;
  '(l2, o) ← UUID_Create_List o;
  '(l3, o) ← UUID_Create_List o;
  '(l4, o) ← UUID_Create_List o;
  '(l5, o) ← UUID_Create_List o;
  '(l6, o) ← UUID_Create_List o;
  '(l6, o) ← init_NuggetTypes nugget_types (l6, uuid_null) o;
  Some (mkUuidLists l1 l2 l3 l4 l5 l6, o).

Definition UUID_Get_UUID (sg : UuidLists) (p_sName : string) (p_iType : Z) : M uuid_t :=
  node ← UUID_getNodeByName sg p_sName p_iType;
  mret (un_uuid node).

(** [UUID_Is_Named_UUID] with a result pointer: on success the value stored
    through it. *)
Definition UUID_Is_Named_UUID (sg : UuidLists) (p_sName : option string) (p_iType : Z)
    (p_uuid : uuid_t) : M bool :=
  name ← nonnull p_sName;
  nonnull (UUID_Get_List sg p_iType) ;;
  uuid ← UUID_Get_UUID sg name p_iType;
  mret (uuid_compare uuid p_uuid == 0).

Definition UUID_Get_Description (sg : UuidLists) (p_sName : string) (p_iType : Z) : M string :=
  node ← UUID_getNodeByName sg p_sName p_iType;
  d ← nonnull (un_sDescription node);
  alloc ;; mret d.

Definition UUID_Get_DescriptionByUUID (sg : UuidLists) (p_uuid : uuid_t) (p_iType : Z) : M string :=
  node ← UUID_getNodeByUUID sg p_uuid p_iType;
  d ← nonnull (un_sDescription node);
  alloc ;; mret d.

Definition UUID_Get_NameByUUID (sg : UuidLists) (p_uuid : uuid_t) (p_iType : Z) : M string :=
  node ← UUID_getNodeByUUID sg p_uuid p_iType;
  alloc ;; mret (un_sName node).

(** The text is written to a calloced buffer of [UUID_STRING_LENGTH] bytes. *)
Definition UUID_Get_UUIDAsString (sg : UuidLists) (p_sName : string) (p_iType : Z) : M string :=
  node ← UUID_getNodeByName sg p_sName p_iType;
  alloc ;;
  if UUID_STRING_LENGTH <? strlen (uuid_unparse (un_uuid node)) + 1 then crash
  else mret (uuid_unparse (un_uuid node)).

Definition UUID_MessageAddNameSize (item : UUIDListNode) (count : Z) (o : allocs)
    : option (Z * Z * allocs) :=
  Some (LIST_EACH_OK, u64 (count + strlen (un_sName item) + 1), o).

Definition UUIDList_BinarySize (list : option uuid_list) (o : allocs) : option Z :=
  let size := u64 (List_Length list * 16) in
  '(_, _, size, _) ← List_ForEach list (Some UUID_MessageAddNameSize) size o;
  Some size.
End Operations.

Arguments UUID_Add_List_Entry : simpl never.
Arguments UUID_getNodeByName : simpl never.
Arguments UUID_getNodeByUUID : simpl never.

(** ** The entries of a list *)

Section Lemmas.
Context `{LibUuidLaws}.
Implicit Types (xs : list UUIDListNode) (p : option uuid_list).

(** [p] is a UUID list whose entries are [xs]. *)
Definition entries p xs : Prop := exists l, p = Some l /\ contents l xs /\ plain l /\
  l_keyCmp l = Some UUID_KeyCmp.

Definition named (n : string) xs : option UUIDListNode :=
  find_first (fun x => bool_decide (n = un_sName x)) xs.
Definition with_uuid (u : uuid_t) xs : option UUIDListNode :=
  find_first (fun x => bool_decide (u = un_uuid x)) xs.

Lemma find_first_ext {A} (p q : A -> bool) (ys : list A) :
  (forall x, p x = q x) -> find_first p ys = find_first q ys.
Proof. intros E. induction ys as [|y ys IH]; simpl; [done|]. by rewrite E, IH. Qed.

Lemma Create_List_entries o l o' :
  UUID_Create_List o = Some (Some l, o') -> entries (Some l) [].
Proof. intros (Hc & Hp & _ & Hk & _)%create_inv. by exists l. Qed.

Lemma Create_List_ok : exists l, UUID_Create_List [] = Some (Some l, []) /\ entries (Some l) [].
Proof.
  destruct (create_ok UUID_Cmp UUID_KeyCmp UUID_Destroy UUID_Clone) as (l & E & Hc & Hp & _ & Hk & _).
  exists l. split; [done|]. by exists l.
Qed.

(** An addition appends one entry or fails; it never crashes. *)
Lemma Add_List_Entry_entries p xs u n d o : entries p xs ->
  exists r o', UUID_Add_List_Entry p u n d o = Some (r, o') /\
    (forall p', r = Some p' -> exists n', n = Some n' /\ strlen n' <> 0 /\
       entries p' (xs ++ [mkUUIDNode u n' d])).
Proof.
  intros (l & -> & Hc & Hp & Hk). unfold UUID_Add_List_Entry.
  destruct n as [n|]; [|by exists None, o].
  unfold nonnull. rewrite !M_ret_bind, require_bind.
  destruct (Z.eqb_spec (strlen n) 0) as [Hn|Hn]; [by exists None, o|].
  rewrite alloc_bind. destruct (alloc_next o) as [[] o1]; simpl; [|by exists None, o1].
  rewrite alloc_bind. destruct (alloc_next o1) as [[] o2]; simpl; [|by exists None, o2].
  unfold mbind, M_bind.
  assert (exists r3 o3, (match d with None => mret () | Some _ => alloc end : M unit) o2 = Some (r3, o3))
    as (r3 & o3 & ->).
  { destruct d; [rewrite alloc_eq; eauto|by eexists _, _]. }
  destruct r3 as [[]|]; [|by exists None, o3].
  destruct (push_plain l xs (mkUUIDNode u n d) o3 Hc Hp) as (l' & -> & Hme & Hc').
  destruct (alloc_next o3) as [[] o4]; simpl in *; [|by exists None, o4].
  eexists _, _. split; [done|]. intros p' [= <-]. exists n. split_and!; [done..|].
  exists l'. split_and!; [done..|by eapply plain_meta|]. unfold meta in Hme. congruence.
Qed.

Lemma Add_List_Entry_ok p xs u n d : entries p xs -> strlen n <> 0 ->
  exists p', UUID_Add_List_Entry p u (Some n) d [] = Some (Some p', []) /\
    entries p' (xs ++ [mkUUIDNode u n d]).
Proof.
  intros He Hn.
  destruct (Add_List_Entry_entries p xs u (Some n) d [] He) as (r & o' & E & Hr).
  destruct He as (l & -> & Hc & Hp & _).
  destruct (push_plain l xs (mkUUIDNode u n d) [] Hc Hp) as (l' & Ep & _).
  assert (Ed : (match d with None => mret () | Some _ => alloc end : M unit) [] = Some (Some (), []))
    by by destruct d.
  assert (E' : UUID_Add_List_Entry (Some l) u (Some n) d [] = Some (Some (Some l'), [])).
  { unfold UUID_Add_List_Entry, nonnull. rewrite !M_ret_bind, require_bind.
    destruct (Z.eqb_spec (strlen n) 0); [done|]. simpl.
    by rewrite !(M_bind_ok _ _ _ _ _ alloc_ok), (M_bind_ok _ _ _ _ _ Ed), (M_bind_ok _ _ _ _ _ Ep). }
  rewrite E' in E. injection E as <- <-.
  destruct (Hr (Some l') eq_refl) as (n' & [= <-] & _ & ?). by exists (Some l').
Qed.

(** Searching finds the first entry. *)
Lemma getNodeByName_entries sg t xs n o : entries (UUID_Get_List sg t) xs ->
  UUID_getNodeByName sg n t o = Some (named n xs, o).
Proof.
  intros (l & E & Hc & Hp & Hk). unfold UUID_getNodeByName. rewrite E, (find_plain l xs _ _ o Hc Hp Hk).
  unfold named. f_equal. f_equal. apply find_first_ext. intros x. simpl. apply strcmp_eqb.
Qed.

Lemma getNodeByUUID_entries sg t xs u o : entries (UUID_Get_List sg t) xs ->
  UUID_getNodeByUUID sg u t o = Some (with_uuid u xs, o).
Proof.
  intros (l & E & Hc & Hp & Hk). unfold UUID_getNodeByUUID. rewrite E, (find_plain l xs _ _ o Hc Hp Hk).
  unfold with_uuid. f_equal. f_equal. apply find_first_ext. intros x. simpl. apply uuid_compare_eqb.
Qed.

Lemma Get_UUID_entries sg t xs n o : entries (UUID_Get_List sg t) xs ->
  UUID_Get_UUID sg n t o = Some (un_uuid <$> named n xs, o).
Proof.
  intros He. unfold UUID_Get_UUID, mbind, M_bind. rewrite (getNodeByName_entries _ _ _ _ _ He).
  by destruct (named n xs).
Qed.

Lemma Is_Named_UUID_entries sg t xs n u o : entries (UUID_Get_List sg t) xs ->
  UUID_Is_Named_UUID sg (Some n) t u o =
  Some ((fun x => bool_decide (un_uuid x = u)) <$> named n xs, o).
Proof.
  intros He. unfold UUID_Is_Named_UUID, nonnull. rewrite M_ret_bind.
  destruct He as (l & E & He). rewrite E, M_ret_bind. unfold mbind, M_bind.
  rewrite (Get_UUID_entries sg t xs); [|by exists l; rewrite E].
  destruct (named n xs); [|done]. simpl. by rewrite uuid_compare_eqb.
Qed.

(** [init_NuggetTypes] with successful allocations appends the parsed table. *)
Definition type_node (t : string * string * string) (u : uuid_t) : UUIDListNode :=
  mkUUIDNode u t.1.2 (Some t.2).

Lemma init_NuggetTypes_entries ts us p xs u0 : entries p xs ->
  Forall2 (fun t u => uuid_parse t.1.1 = Some u) ts us ->
  Forall (fun t => strlen t.1.2 <> 0) ts ->
  exists p', init_NuggetTypes ts (p, u0) [] = Some (p', []) /\
    entries p' (xs ++ zip_with type_node ts us).
Proof.
  intros He Hu. revert p xs u0 He. induction Hu as [|[[text name] descr] u ts us Ht _ IH];
    intros p xs u0 He Hn.
  - exists p. by rewrite app_nil_r.
  - apply Forall_cons in Hn as [Hn Hns]. simpl in *. rewrite Ht. simpl.
    destruct (Add_List_Entry_ok p xs u name (Some descr) He Hn) as (p1 & -> & He1). simpl.
    destruct (IH p1 _ u He1 Hns) as (p' & -> & He'). exists p'. split; [done|].
    by rewrite <- app_assoc in He'.
Qed.

Lemma u64_mul_add a b c : u64 (u64 a * b + c) = u64 (a * b + c).
Proof. unfold u64, wrap. rewrite <- Zplus_mod_idemp_l, Zmult_mod_idemp_l. by rewrite Zplus_mod_idemp_l. Qed.

Lemma each_name_size xs n o :
  each UUID_MessageAddNameSize xs (u64 n) o =
  Some (true, u64 (n + foldr (fun x s => strlen (un_sName x) + 1 + s) 0 xs), o).
Proof.
  revert n. induction xs as [|x xs IH]; intros n; simpl; [by rewrite Z.add_0_r|].
  unfold u64 at 1. rewrite <- Z.add_assoc, wrap_add_l. fold (u64 (n + (strlen (un_sName x) + 1))).
  rewrite IH. do 2 f_equal. f_equal. unfold u64. f_equal. lia.
Qed.
End Lemmas.

(** ** Theorems *)

Section Theorems.
Context `{LibUuidLaws}.

(** Lookups in a UUID list return the first entry with the given name or
    UUID: [UUID_Get_UUID], [UUID_Get_NameByUUID] and [UUID_Is_Named_UUID] agree
    with the first match, and fail when there is none. *)
Theorem UUID_lookup_first sg t xs n u : entries (UUID_Get_List sg t) xs ->
  UUID_Get_UUID sg n t [] = Some (un_uuid <$> named n xs, []) /\
  UUID_Get_NameByUUID sg u t [] = Some (un_sName <$> with_uuid u xs, []) /\
  UUID_Is_Named_UUID sg (Some n) t u [] =
    Some ((fun x => bool_decide (un_uuid x = u)) <$> named n xs, []).
Proof.
  intros He. split_and!; [by apply Get_UUID_entries| |by apply Is_Named_UUID_entries].
  unfold UUID_Get_NameByUUID, mbind, M_bind. rewrite (getNodeByUUID_entries _ _ _ _ _ He).
  by destruct (with_uuid u xs).
Qed.

(** [initUuids] (all allocations successful): every nugget type of its table
    can be looked up by name and gives the UUID of its constant and its
    description; the correlation nugget type is not registered; the other five
    lists are empty. *)
Theorem initUuids_registers us :
  Forall2 (fun t u => uuid_parse t.1.1 = Some u) nugget_types us ->
  exists sg, initUuids [] = Some (sg, []) /\
    (forall i t u, nugget_types !! i = Some t -> us !! i = Some u ->
       UUID_Get_UUID sg t.1.2 UUID_TYPE_NUGGET_TYPE [] = Some (Some u, []) /\
       UUID_Get_Description sg t.1.2 UUID_TYPE_NUGGET_TYPE [] = Some (Some t.2, [])) /\
    UUID_Get_UUID sg NUGGET_TYPE_CORRELATION UUID_TYPE_NUGGET_TYPE [] = Some (None, []) /\
    (forall k, k <> UUID_TYPE_NUGGET_TYPE -> 1 <= k <= 6 -> entries (UUID_Get_List sg k) []).
Proof.
  intros Hu. destruct Create_List_ok as (l & El & He). unfold initUuids.
  repeat (rewrite El; cbn [mbind option_bind]).
  destruct (init_NuggetTypes_entries nugget_types us (Some l) [] uuid_null He Hu) as (p & -> & Hp).
  { repeat (apply Forall_cons_2; [done|]). constructor. }
  cbn [mbind option_bind]. eexists. split; [done|].
  change ([] ++ zip_with type_node nugget_types us) with (zip_with type_node nugget_types us) in Hp.
  set (sg := mkUuidLists _ _ _ _ _ _).
  change p with (UUID_Get_List sg UUID_TYPE_NUGGET_TYPE) in Hp.
  unfold nugget_types in Hu. repeat match type of Hu with Forall2 _ (_ :: _) _ =>
    let u := fresh "u" in apply Forall2_cons_inv_l in Hu as (u & ? & _ & Hu & ->) end.
  apply Forall2_nil_inv_l in Hu as ->. split_and!.
  - intros i t v Ht Hui. rewrite (Get_UUID_entries _ _ _ _ _ Hp).
    unfold UUID_Get_Description, mbind, M_bind. rewrite (getNodeByName_entries _ _ _ _ _ Hp).
    do 7 (destruct i as [|i]; [injection Ht as <-; injection Hui as <-; split; reflexivity|]). done.
  - by rewrite (Get_UUID_entries _ _ _ _ _ Hp).
  - intros k Hk Hr. unfold UUID_TYPE_NUGGET_TYPE in Hk.
    assert (k = 1 \/ k = 2 \/ k = 3 \/ k = 4 \/ k = 6) as [->|[->|[->|[->| ->]]]] by lia; done.
Qed.

(** [UUIDList_BinarySize] is, modulo [2^64], sixteen bytes per entry plus
    its name and the name's terminator. *)
Theorem UUIDList_BinarySize_sum p xs o : entries p xs ->
  UUIDList_BinarySize p o =
  Some (u64 (foldr (fun x s => 16 + (strlen (un_sName x) + 1) + s) 0 xs)).
Proof.
  intros (l & -> & Hc & Hp & _). unfold UUIDList_BinarySize.
  rewrite (ForEach_each _ l xs _ o Hc (plain_locks _ Hp)).
  2: { intros x u s r u' s' _ [= <- _ _]. by left. }
  pose proof (contents_length l xs Hc) as Hl. simpl List_Length. rewrite Hl.
  rewrite each_name_size. cbn [mbind option_bind]. rewrite u64_mul_add. do 2 f_equal.
  clear. induction xs as [|x xs IH]; [done|]. simpl length. simpl foldr. lia.
Qed.
End Theorems.

(** ** Witnesses *)

Module uuid_demo.
Import bytes16.

Definition uuid (n : Z) : uuid_t := default uuid_null (make (replicate 15 0 ++ [n])).
Definition nodes : list UUIDListNode :=
  [mkUUIDNode (uuid 1) "STRING" None; mkUUIDNode (uuid 2) "PORT" (Some "a port")].
Definition list0 : option uuid_list :=
  match UUID_Create_List [] with Some (r, _) => r | None => None end.
Definition add (p : option uuid_list) (x : UUIDListNode) : option uuid_list :=
  match UUID_Add_List_Entry p (un_uuid x) (Some (un_sName x)) (un_sDescription x) [] with
  | Some (Some p', _) => p' | _ => None end.
Definition list2 : option uuid_list := foldl add list0 nodes.
Definition sg : UuidLists := mkUuidLists None None list2 None None None.
Definition texts : list uuid_t :=
  map (fun t => default uuid_null (uuid_parse t.1.1)) nugget_types.

Lemma default_Some {A} (d : A) m : bool_decide (is_Some m) = true -> m = Some (default d m).
Proof. destruct m; done. Qed.

Lemma add_entries p xs u n d : entries p xs -> strlen n <> 0 ->
  entries (add p (mkUUIDNode u n d)) (xs ++ [mkUUIDNode u n d]).
Proof.
  intros He Hn. unfold add. simpl.
  destruct (Add_List_Entry_ok p xs u n d He Hn) as (p' & -> & ?). done.
Qed.

Lemma list2_entries : entries list2 nodes.
Proof.
  assert (H0 : entries list0 []).
  { unfold list0. destruct Create_List_ok as (l & -> & ?). done. }
  unfold list2. simpl. apply (add_entries _ [_]); [|done]. by apply (add_entries _ []).
Qed.
End uuid_demo.

Lemma UUID_lookup_first_witness :
  UUID_Get_UUID uuid_demo.sg "PORT" UUID_TYPE_NTLV_TYPE [] = Some (Some (uuid_demo.uuid 2), []) /\
  UUID_Get_NameByUUID uuid_demo.sg (uuid_demo.uuid 1) UUID_TYPE_NTLV_TYPE [] = Some (Some "STRING", []).
Proof.
  pose proof (UUID_lookup_first uuid_demo.sg UUID_TYPE_NTLV_TYPE uuid_demo.nodes "PORT" (uuid_demo.uuid 1)
    uuid_demo.list2_entries) as (H1 & H2 & _). split; [exact H1|exact H2].
Defined.

Lemma initUuids_registers_witness :
  exists sg, initUuids [] = Some (sg, []) /\
    UUID_Get_UUID sg NUGGET_TYPE_CORRELATION UUID_TYPE_NUGGET_TYPE [] = Some (None, []).
Proof.
  destruct (initUuids_registers uuid_demo.texts) as (sg & E & _ & Hc & _).
  - repeat (apply Forall2_cons; split; [apply uuid_demo.default_Some; vm_compute; reflexivity|]).
    constructor.
  - exists sg. split; [exact E|exact Hc].
Defined.

Lemma UUIDList_BinarySize_sum_witness : UUIDList_BinarySize uuid_demo.list2 [] = Some 44.
Proof. exact (UUIDList_BinarySize_sum uuid_demo.list2 uuid_demo.nodes [] uuid_demo.list2_entries). Defined.
