(* ===== verification/Ntlv.v ===== *)
(** * Metadata and string lists: src/ntvl.c and src/string_list.c

    An NTLV item is a named, typed sequence of bytes.  The data pointer of an item
    is never NULL: both functions that make items allocate it. *)

From S2P Require Import Prelude CLib RzbList RzbListProps ListM Hash LibUuid.

Section NTLV.
Context `{LibUuid}.

Record NTLVItem := mkNTLV {
  nt_uuidName : uuid_t;
  nt_uuidType : uuid_t;
  nt_iLength : Z;
  nt_pData : list Z
}.

Record NTLV_Key := mkNTLVKey { nk_name : uuid_t; nk_type : uuid_t }.

Abbreviation ntlv_list := (vlist NTLV_Key NTLVItem).

(** The search criterion: either UUID of the key against the item's name. *)
Definition NTLV_KeyCmp (s : allocs) (item : NTLVItem) (key : NTLV_Key) : Z :=
  if (uuid_compare (nk_name key) (nt_uuidName item) == 0) ||
     (uuid_compare (nk_type key) (nt_uuidName item) == 0)
  then 0 else -1.

Definition NTLV_Cmp (s : allocs) (a b : NTLVItem) : Z :=
  if (uuid_compare (nt_uuidName a) (nt_uuidName b) == 0) ||
     (uuid_compare (nt_uuidType a) (nt_uuidType b) == 0)
  then 0 else -1.

(** [NTLV_Delete] frees the data and the item. *)
Definition NTLV_Delete (a : NTLVItem) (o : allocs) : allocs := o.

Definition NTLV_Clone (orig : NTLVItem) (o : allocs) : option NTLVItem * allocs :=
  let '(b1, o1) := alloc_next o in
  if negb b1 then (None, o1)
  else
    let '(b2, o2) := alloc_next o1 in
    if negb b2 then (None, o2)
    else (Some (mkNTLV (nt_uuidName orig) (nt_uuidType orig) (nt_iLength orig)
                  (take (Z.to_nat (nt_iLength orig)) (nt_pData orig))), o2).

Definition NTLVList_Create : M ntlv_list := list_create NTLV_Cmp NTLV_KeyCmp NTLV_Delete NTLV_Clone.

(** [NTLVList_Get]: the length and data of the item it finds. *)
Definition NTLVList_Get (p_list : option ntlv_list) (name type : uuid_t) : M (Z * list Z) :=
  item ← list_find p_list (mkNTLVKey name type);
  mret (nt_iLength item, nt_pData item).

(** [NTLVList_Add]: the list after the call when it returns true.  The result
    of [List_Push] is not looked at. *)
Definition NTLVList_Add (p_list : option ntlv_list) (name type : uuid_t) (size : Z)
    (data : option (list Z)) : M (option ntlv_list) :=
  l ← nonnull p_list;
  d ← nonnull data;
  require (size != 0) ;;
  alloc ;;
  alloc ;;
  bs ← deref (read_bytes d size);
  '(_, list') ← list_push (Some l) (mkNTLV name type size bs);
  mret list'.
End NTLV.

Abbreviation ntlv_list := (vlist NTLV_Key NTLVItem).
Arguments NTLVList_Add : simpl never.

(** ** String lists *)

Abbreviation string_list := (vlist string string).

Definition String_KeyCmp (s : allocs) (item key : string) : Z := strcmp item key.
Definition String_Cmp (s : allocs) (a b : string) : Z := strcmp a b.
Definition String_Delete (a : string) (o : allocs) : allocs := o.

(** [String_Clone] is [strdup]. *)
Definition String_Clone (orig : string) (o : allocs) : option string * allocs :=
  let '(b, o') := alloc_next o in (if b then Some orig else None, o').

Definition StringList_Create : M string_list :=
  list_create String_Cmp String_KeyCmp String_Delete String_Clone.

Definition StringList_Add (p_pList : option string_list) (string : option string)
    : M (option string_list) :=
  l ← nonnull p_pList;
  s ← nonnull string;
  alloc ;;
  '(_, list') ← list_push (Some l) s;
  mret list'.

Definition StringList_ItemSize (item : string) (counter : Z) (o : allocs) : option (Z * Z * allocs) :=
  Some (LIST_EACH_OK, u32 (counter + (strlen item + 1)), o).

Definition StringList_Size (list : option string_list) (o : allocs) : option Z :=
  match list with
  | None => Some 0
  | Some l =>
      '(_, _, size, _) ← List_ForEach (Some l) (Some StringList_ItemSize) 0 o;
      Some (u32 (size + 4))
  end.

(** ** The items of a list *)

Section Lemmas.
Context `{LibUuidLaws}.

(** [p] is a metadata list whose items are [xs]. *)
Definition metadata (p : option ntlv_list) (xs : list NTLVItem) : Prop :=
  exists l, p = Some l /\ contents l xs /\ plain l /\
    l_keyCmp l = Some NTLV_KeyCmp /\ l_clone l = Some NTLV_Clone.

(** [p] is a string list whose items are [xs]. *)
Definition strings (p : option string_list) (xs : list string) : Prop :=
  exists l, p = Some l /\ contents l xs /\ plain l /\
    l_keyCmp l = Some String_KeyCmp /\ l_clone l = Some String_Clone.

(** The data of an item is as long as the item says. *)
Definition item_ok (x : NTLVItem) : Prop :=
  nt_iLength x = Z.of_nat (length (nt_pData x)) /\ in_width 32 (nt_iLength x) /\
  nt_iLength x <> 0 /\ Forall (fun b => 0 <= b < 256) (nt_pData x).

Lemma Create_metadata o l o' : NTLVList_Create o = Some (Some l, o') -> metadata (Some l) [].
Proof. intros (Hc & Hp & _ & Hk & _ & Hcl)%create_inv. by exists l. Qed.

Lemma Create_metadata_ok : exists l, NTLVList_Create [] = Some (Some l, []) /\ metadata (Some l) [].
Proof.
  destruct (create_ok NTLV_Cmp NTLV_KeyCmp NTLV_Delete NTLV_Clone) as (l & E & Hc & Hp & _ & Hk & _ & ?).
  exists l. split; [done|]. by exists l.
Qed.

Lemma Create_strings_ok : exists l, StringList_Create [] = Some (Some l, []) /\ strings (Some l) [].
Proof.
  destruct (create_ok String_Cmp String_KeyCmp String_Delete String_Clone) as (l & E & Hc & Hp & _ & Hk & _ & ?).
  exists l. split; [done|]. by exists l.
Qed.

Lemma Create_strings o l o' : StringList_Create o = Some (Some l, o') -> strings (Some l) [].
Proof. intros (Hc & Hp & _ & Hk & _ & Hcl)%create_inv. by exists l. Qed.

Lemma push_metadata p xs x o : metadata p xs ->
  exists p', list_push p x o = Some (Some (fst (alloc_next o), p'), snd (alloc_next o)) /\
    metadata p' (if fst (alloc_next o) then xs ++ [x] else xs).
Proof.
  intros (l & -> & Hc & Hp & Hk & Hcl). destruct (push_plain l xs x o Hc Hp) as (l' & E & Hme & Hc').
  exists (Some l'). split; [done|]. exists l'.
  split_and!; [done|done|by eapply plain_meta|..]; unfold meta in Hme; congruence.
Qed.

Lemma push_strings p xs x o : strings p xs ->
  exists p', list_push p x o = Some (Some (fst (alloc_next o), p'), snd (alloc_next o)) /\
    strings p' (if fst (alloc_next o) then xs ++ [x] else xs).
Proof.
  intros (l & -> & Hc & Hp & Hk & Hcl). destruct (push_plain l xs x o Hc Hp) as (l' & E & Hme & Hc').
  exists (Some l'). split; [done|]. exists l'.
  split_and!; [done|done|by eapply plain_meta|..]; unfold meta in Hme; congruence.
Qed.

(** What an addition does when it returns true. *)
Lemma NTLVList_Add_inv p xs name type size data o p' o' : metadata p xs ->
  NTLVList_Add p name type size data o = Some (Some p', o') ->
  exists d bs pushed, data = Some d /\ read_bytes d size = Some bs /\ size <> 0 /\
    metadata p' (if (pushed : bool) then xs ++ [mkNTLV name type size bs] else xs).
Proof.
  intros Hm E. unfold NTLVList_Add in E. destruct Hm as (l & -> & Hl).
  m_inv E. injection E0 as <-.
  destruct (push_metadata (Some l) xs (mkNTLV name type size x4) o1) as (p1 & Ep & Hp1); [by exists l|].
  rewrite Ep in E6. injection E6 as <- <-. injection E as <- <-.
  exists x0, x4, (fst (alloc_next o1)). split_and!; [done|done|lia|done].
Qed.

Lemma NTLVList_Add_total p xs name type size d o :
  metadata p xs -> size <= Z.of_nat (length d) ->
  exists r o', NTLVList_Add p name type size (Some d) o = Some (r, o') /\
    (forall p', r = Some p' -> exists bs pushed, read_bytes d size = Some bs /\
      metadata p' (if (pushed : bool) then xs ++ [mkNTLV name type size bs] else xs)).
Proof.
  intros Hm Hs. destruct (NTLVList_Add p name type size (Some d) o) as [[r o']|] eqn:E.
  { exists r, o'. split; [done|]. intros p' ->.
    destruct (NTLVList_Add_inv _ _ _ _ _ _ _ _ _ Hm E) as (d' & bs & b & [= <-] & Hr & _ & ?). eauto. }
  exfalso. revert E. pose proof Hm as (l & -> & _). unfold NTLVList_Add, nonnull.
  rewrite !M_ret_bind, require_bind. destruct (size != 0); [|done].
  rewrite alloc_bind. destruct (fst (alloc_next o)); [|done].
  rewrite alloc_bind. destruct (fst (alloc_next (snd (alloc_next o)))); [|done].
  unfold read_bytes. destruct (Z.ltb_spec (Z.of_nat (length d)) size); [lia|].
  simpl deref. rewrite M_ret_bind.
  set (o2 := snd _). set (x := mkNTLV _ _ _ _).
  destruct (push_metadata (Some l) xs x o2 Hm) as (p' & Ep & _). by rewrite (M_bind_ok _ _ _ _ _ Ep).
Qed.

Lemma NTLVList_Add_ok p xs name type size d : metadata p xs -> 0 < size <= Z.of_nat (length d) ->
  exists p', NTLVList_Add p name type size (Some d) [] = Some (Some p', []) /\
    metadata p' (xs ++ [mkNTLV name type size (take (Z.to_nat size) d)]).
Proof.
  intros Hm Hs. destruct (push_metadata p xs (mkNTLV name type size (take (Z.to_nat size) d)) [] Hm)
    as (p' & E & Hp'). exists p'. split; [|done]. destruct Hm as (l & -> & _).
  unfold NTLVList_Add, nonnull. rewrite !M_ret_bind, require_bind.
  destruct (Z.eqb_spec size 0); [lia|]. simpl negb. cbv iota.
  rewrite !(M_bind_ok _ _ _ _ _ alloc_ok). unfold read_bytes.
  destruct (Z.ltb_spec (Z.of_nat (length d)) size); [lia|]. simpl deref. rewrite M_ret_bind.
  by rewrite (M_bind_ok _ _ _ _ _ E).
Qed.

Lemma StringList_Add_ok p xs s : strings p xs ->
  exists p', StringList_Add p (Some s) [] = Some (Some p', []) /\ strings p' (xs ++ [s]).
Proof.
  intros Hm. destruct (push_strings p xs s [] Hm) as (p' & E & Hp'). exists p'. split; [|done].
  destruct Hm as (l & -> & _). unfold StringList_Add, nonnull. rewrite !M_ret_bind.
  by rewrite (M_bind_ok _ _ _ _ _ alloc_ok), (M_bind_ok _ _ _ _ _ E).
Qed.

Lemma NTLVList_Get_first p xs name type o : metadata p xs ->
  NTLVList_Get p name type o =
  Some ((fun x => (nt_iLength x, nt_pData x)) <$>
          find_first (fun x => bool_decide (name = nt_uuidName x) || bool_decide (type = nt_uuidName x)) xs, o).
Proof.
  intros (l & -> & Hc & Hp & Hk & _). unfold NTLVList_Get, mbind, M_bind.
  rewrite (find_plain l xs _ _ o Hc Hp Hk).
  replace (find_first _ xs) with
    (find_first (fun x => bool_decide (name = nt_uuidName x) || bool_decide (type = nt_uuidName x)) xs).
  { by destruct (find_first _ xs). }
  clear -H0. induction xs as [|x xs IH]; [done|]. cbn [find_first]. rewrite IH.
  unfold NTLV_KeyCmp. cbn [nk_name nk_type]. rewrite !uuid_compare_eqb. by destruct (_ || _).
Qed.

Lemma each_item_size xs n o :
  each StringList_ItemSize xs n o =
  Some (true, foldl (fun c x => u32 (c + (strlen x + 1))) n xs, o).
Proof. revert n. induction xs as [|x xs IH]; intros n; simpl; [done|]. apply IH. Qed.

Lemma foldl_size xs n :
  u32 (foldl (fun c x => u32 (c + (strlen x + 1))) n xs) =
  u32 (n + foldr (fun x s => strlen x + 1 + s) 0 xs).
Proof.
  revert n. induction xs as [|x xs IH]; intros n; simpl; [by rewrite Z.add_0_r|].
  rewrite IH. unfold u32. rewrite wrap_add_l. f_equal. lia.
Qed.
End Lemmas.

(** ** Theorems *)

Section Theorems.
Context `{LibUuidLaws}.

(** Metadata round trip: adding [size] bytes under a name to a list that has
    no item of that name (nor one named by the UUID used as type) and asking for
    them gives the same bytes back. *)
Theorem NTLVList_Add_Get p xs name type size d :
  metadata p xs -> 0 < size <= Z.of_nat (length d) ->
  Forall (fun x => nt_uuidName x <> name /\ nt_uuidName x <> type) xs ->
  exists p', NTLVList_Add p name type size (Some d) [] = Some (Some p', []) /\
    metadata p' (xs ++ [mkNTLV name type size (take (Z.to_nat size) d)]) /\
    NTLVList_Get p' name type [] = Some (Some (size, take (Z.to_nat size) d), []).
Proof.
  intros Hm Hs Hx. destruct (NTLVList_Add_ok p xs name type size d Hm Hs) as (p' & E & Hm').
  exists p'. split_and!; [done..|]. rewrite (NTLVList_Get_first _ _ _ _ _ Hm'), find_first_app.
  replace (find_first _ xs) with (@None NTLVItem).
  - cbn [find_first nt_uuidName]. by rewrite bool_decide_eq_true_2.
  - symmetry. apply find_first_None. eapply Forall_impl; [exact Hx|]. intros x [? ?].
    rewrite !bool_decide_eq_false_2; [done|congruence..].
Qed.

(** [NTLVList_Get] never compares types: it returns the first item whose
    name is either UUID of the key, so an item of another type, or one that is
    named by the type asked for, is returned as a match. *)
Theorem NTLVList_Get_ignores_type p xs name type o : metadata p xs ->
  NTLVList_Get p name type o =
  Some ((fun x => (nt_iLength x, nt_pData x)) <$>
          find_first (fun x => bool_decide (name = nt_uuidName x) || bool_decide (type = nt_uuidName x)) xs, o).
Proof. apply NTLVList_Get_first. Qed.

(** [NTLVList_Add] under allocation failures: it never crashes when the
    buffer has the bytes; when it returns false nothing changed, and when it
    returns true the item was appended, or the list is unchanged because the
    allocation of the list node failed. *)
Theorem NTLVList_Add_outcomes p xs name type size d o :
  metadata p xs -> size <= Z.of_nat (length d) ->
  exists r o', NTLVList_Add p name type size (Some d) o = Some (r, o') /\
    (forall p', r = Some p' -> exists bs pushed, read_bytes d size = Some bs /\
      metadata p' (if (pushed : bool) then xs ++ [mkNTLV name type size bs] else xs)).
Proof. apply NTLVList_Add_total. Qed.

(** [StringList_Size] is, modulo [2^32], the length of every string with its
    terminator plus the four bytes of a count. *)
Theorem StringList_Size_sum p xs o : strings p xs ->
  StringList_Size p o = Some (u32 (foldr (fun x s => strlen x + 1 + s) 0 xs + 4)).
Proof.
  intros (l & -> & Hc & Hp & _). unfold StringList_Size.
  rewrite (ForEach_each _ l xs _ o Hc (plain_locks _ Hp)).
  2: { intros x u s r u' s' _ [= <- _ _]. by left. }
  rewrite each_item_size. cbn [mbind option_bind]. f_equal. unfold u32.
  rewrite <- wrap_add_l. fold (u32 (foldl (fun c x => u32 (c + (strlen x + 1))) 0 xs)).
  rewrite foldl_size. unfold u32. by rewrite wrap_add_l.
Qed.
End Theorems.

(** ** Witnesses *)

Module ntlv_demo.
Import bytes16.

Definition uuid (n : Z) : uuid_t := default uuid_null (make (replicate 15 0 ++ [n])).
Definition items : list NTLVItem := [mkNTLV (uuid 3) (uuid 2) 1 [7]].
Definition list1 : option ntlv_list :=
  match (l ← NTLVList_Create; NTLVList_Add (Some l) (uuid 3) (uuid 2) 1 (Some [7])) [] with
  | Some (Some p, _) => p | _ => None end.
Definition words : option string_list :=
  match (l ← StringList_Create; StringList_Add (Some l) (Some "abc")) [] with
  | Some (Some p, _) => p | _ => None end.

Lemma list1_metadata : metadata list1 items.
Proof.
  unfold list1. destruct Create_metadata_ok as (l & E & Hm). rewrite (M_bind_ok _ _ _ _ _ E).
  destruct (NTLVList_Add_ok (Some l) [] (uuid 3) (uuid 2) 1 [7] Hm ltac:(done)) as (p' & -> & ?). done.
Qed.

Lemma words_strings : strings words ["abc"].
Proof.
  unfold words. destruct Create_strings_ok as (l & E & Hm). rewrite (M_bind_ok _ _ _ _ _ E).
  destruct (StringList_Add_ok (Some l) [] "abc" Hm) as (p' & -> & ?). done.
Qed.
End ntlv_demo.

Lemma NTLVList_Add_Get_witness :
  exists p', NTLVList_Add ntlv_demo.list1 (ntlv_demo.uuid 4) (ntlv_demo.uuid 5) 2 (Some [8; 9; 10]) [] =
      Some (Some p', []) /\
    NTLVList_Get p' (ntlv_demo.uuid 4) (ntlv_demo.uuid 5) [] = Some (Some (2, [8; 9]), []).
Proof.
  destruct (NTLVList_Add_Get ntlv_demo.list1 ntlv_demo.items (ntlv_demo.uuid 4) (ntlv_demo.uuid 5) 2 [8; 9; 10]
    ntlv_demo.list1_metadata) as (p' & E1 & _ & E2).
  - split; reflexivity || discriminate.
  - apply Forall_cons_2; [|constructor]. split; apply (bool_decide_unpack _); vm_compute; exact I.
  - exists p'. split; [exact E1|exact E2].
Defined.

Lemma NTLVList_Get_ignores_type_witness :
  NTLVList_Get ntlv_demo.list1 (ntlv_demo.uuid 9) (ntlv_demo.uuid 3) [] = Some (Some (1, [7]), []).
Proof.
  exact (NTLVList_Get_ignores_type ntlv_demo.list1 ntlv_demo.items (ntlv_demo.uuid 9) (ntlv_demo.uuid 3) []
    ntlv_demo.list1_metadata).
Defined.

Lemma NTLVList_Add_outcomes_witness :
  exists r o', NTLVList_Add ntlv_demo.list1 (ntlv_demo.uuid 4) (ntlv_demo.uuid 5) 1 (Some [8]) [true; true; false] =
    Some (r, o').
Proof.
  destruct (NTLVList_Add_outcomes ntlv_demo.list1 ntlv_demo.items (ntlv_demo.uuid 4) (ntlv_demo.uuid 5) 1 [8]
    [true; true; false] ntlv_demo.list1_metadata) as (r & o' & E & _); [reflexivity || discriminate|].
  exists r, o'. exact E.
Defined.

Lemma StringList_Size_sum_witness : StringList_Size ntlv_demo.words [] = Some 8.
Proof. exact (StringList_Size_sum ntlv_demo.words ["abc"] [] ntlv_demo.words_strings). Defined.
