(* ===== verification/Blocks.v ===== *)
(** * Blocks, events and judgments

    The records of include/razorback/types.h and the operations of
    src/block_id.c, src/block.c, src/event.c, src/judgment.c and src/nugget.c.
    A pointer field is an [option]; the destructors only free memory.  The time
    read by [clock_gettime] and the nugget id of the calling thread's context are
    arguments. *)

From S2P Require Import Prelude CLib RzbList RzbListProps ListM Hash LibUuid Uuids Ntlv.

Definition NTLV_NAME_FILENAME : string := "FILENAME".
Definition NTLV_TYPE_STRING : string := "STRING".

#[local] Set Warnings "-register-all".

Section Data.
Context `{EVP} `{LibUuid}.

Record BlockId := mkBlockId {
  bi_pHash : option Hash;
  bi_uuidDataType : uuid_t;
  bi_iLength : Z
}.

Record BlockData := mkBlockData {
  bd_fileName : option string;
  bd_pointer : option (list Z);
  bd_file : option File;
  bd_tempFile : bool
}.

Inductive Block := mkBlock {
  b_pId : option BlockId;
  b_pParentId : option BlockId;
  b_pParentBlock : option Block;
  b_pMetaDataList : option ntlv_list;
  b_data : BlockData
}.

Record EventId := mkEventId {
  ei_uuidNuggetId : uuid_t;
  ei_iSeconds : Z;
  ei_iNanoSecs : Z
}.

Inductive Event := mkEvent {
  e_pId : option EventId;
  e_pParentId : option EventId;
  e_pParent : option Event;
  e_uuidApplicationType : uuid_t;
  e_pBlock : option Block;
  e_pMetaDataList : option ntlv_list
}.

Record Judgment := mkJudgment {
  j_uuidNuggetId : uuid_t;
  j_iSeconds : Z;
  j_iNanoSecs : Z;
  j_pEventId : option EventId;
  j_pBlockId : option BlockId;
  j_iPriority : Z;
  j_pMetaDataList : option ntlv_list;
  j_iGID : Z;
  j_iSID : Z;
  j_Set_SfFlags : Z;
  j_Set_EntFlags : Z;
  j_Unset_SfFlags : Z;
  j_Unset_EntFlags : Z;
  j_sMessage : option string
}.

Record Nugget := mkNugget {
  n_uuidNuggetId : uuid_t;
  n_uuidApplicationType : uuid_t;
  n_uuidNuggetType : uuid_t;
  n_sName : option string;
  n_sLocation : option string;
  n_sContact : option string;
  n_sNotes : option string
}.

Definition no_data : BlockData := mkBlockData None None None false.

(** The fields of an API context that other components read: its address, its
    ids, its locality and what a dispatcher announces of itself. *)
Record Dispatcher := mkDispatcher {
  d_flags : Z;
  d_priority : Z;
  d_port : Z;
  d_protocol : Z;
  d_addressList : option string_list
}.

Record RazorbackContext := mkContext {
  ctx_address : positive;
  ctx_uuidNuggetId : uuid_t;
  ctx_uuidNuggetType : uuid_t;
  ctx_uuidApplicationType : uuid_t;
  ctx_locality : Z;
  ctx_dispatcher : Dispatcher
}.
End Data.

Section Operations.
Context `{EVP} `{LibUuid}.

(** *** src/block_id.c *)

(** [same] and [sameHash] tell whether the pointers, and the pointers to the
    hashes, are equal. *)
Definition BlockId_IsEqual (same sameHash : bool) (p_pA p_pB : option BlockId) : option bool :=
  match p_pA, p_pB with
  | None, _ | _, None => Some false
  | Some a, Some b =>
      if same then Some true
      else
        let uuid := uuid_compare (bi_uuidDataType a) (bi_uuidDataType b) == 0 in
        hash ← Hash_IsEqual sameHash (bi_pHash a) (bi_pHash b);
        let len := bi_iLength a == bi_iLength b in
        Some (uuid && hash && len)
  end.

(** [asprintf (&text, "%s-%8.8jx-%s", uuid, iLength, hash)] *)
Definition BlockId_ToText (p_pA : option BlockId) : M string :=
  a ← nonnull p_pA;
  hash ← Hash_ToText (bi_pHash a);
  alloc ;;
  mret (uuid_unparse (bi_uuidDataType a) +:+ "-" +:+ print_8_8jx (bi_iLength a) +:+ "-" +:+ hash).

Definition BlockId_Create_Shallow : M BlockId :=
  alloc ;; mret (mkBlockId None uuid_null 0).

Definition BlockId_Create (Config_getHashType : Z) : M BlockId :=
  id ← BlockId_Create_Shallow;
  h ← Hash_Create Config_getHashType;
  mret (mkBlockId (Some h) (bi_uuidDataType id) (bi_iLength id)).

Definition BlockId_StringLength (p_pB : option BlockId) : Z :=
  match p_pB with
  | None => 0
  | Some b => u32 (UUID_STRING_LENGTH + Hash_StringLength (bi_pHash b) + 9)
  end.

Definition BlockId_Clone (p_pSource : option BlockId) : M BlockId :=
  src ← nonnull p_pSource;
  BlockId_Create_Shallow ;;
  h ← Hash_Clone (bi_pHash src);
  mret (mkBlockId (Some h) (bi_uuidDataType src) (bi_iLength src)).

(** *** src/block.c *)

Definition Block_Create (Config_getHashType : Z) : M Block :=
  alloc ;;
  id ← BlockId_Create Config_getHashType;
  md ← NTLVList_Create;
  mret (mkBlock (Some id) None None (Some md) no_data).

Definition Block_Clone (pushes : allocs) (p_pSource : option Block) : M Block :=
  src ← nonnull p_pSource;
  alloc ;;
  id ← BlockId_Clone (b_pId src);
  parent ← match b_pParentId src with
           | None => mret None
           | Some p => x ← BlockId_Clone (Some p); mret (Some x)
           end;
  md ← list_clone pushes (b_pMetaDataList src);
  mret (mkBlock (Some id) parent None (Some md) no_data).

Definition set_metadata (b : Block) (p : option ntlv_list) : Block :=
  mkBlock (b_pId b) (b_pParentId b) (b_pParentBlock b) p (b_data b).

(** [Block_MetaData_Add]: the block after the call when it returns true. *)
Definition Block_MetaData_Add (block : option Block) (uuidName uuidType : uuid_t)
    (data : option (list Z)) (size : Z) : M Block :=
  b ← nonnull block;
  require (match data with None => size == 0 | Some _ => true end) ;;
  md ← NTLVList_Add (b_pMetaDataList b) uuidName uuidType size data;
  mret (set_metadata b md).

Definition Block_MetaData_Add_FileName (sg : UuidLists) (block : option Block)
    (fileName : option string) : M Block :=
  b ← nonnull block;
  name ← nonnull fileName;
  uuidName ← UUID_Get_UUID sg NTLV_NAME_FILENAME UUID_TYPE_NTLV_NAME;
  uuidType ← UUID_Get_UUID sg NTLV_TYPE_STRING UUID_TYPE_NTLV_TYPE;
  Block_MetaData_Add (Some b) uuidName uuidType (Some (bytes_of_cstr name)) (u32 (strlen name)).

(** *** src/event.c *)

(** [clock] is the time, or [None] when [clock_gettime] fails. *)
Definition EventId_Create (clock : option (Z * Z)) : M EventId :=
  '(sec, nsec) ← nonnull clock;
  alloc ;;
  mret (mkEventId uuid_null (u64 sec) (u64 nsec)).

Definition EventId_Clone (p : option EventId) : M EventId :=
  e ← nonnull p;
  alloc ;;
  mret (mkEventId (ei_uuidNuggetId e) (ei_iSeconds e) (ei_iNanoSecs e)).

Definition Event_Create (clock : option (Z * Z)) (Config_getHashType : Z) : M Event :=
  alloc ;;
  id ← EventId_Create clock;
  md ← NTLVList_Create;
  block ← Block_Create Config_getHashType;
  mret (mkEvent (Some id) None None uuid_null (Some block) (Some md)).

(** *** src/judgment.c *)

(** [context] is the nugget id of the thread's context, [None] without one. *)
Definition Judgment_Create (clock : option (Z * Z)) (context : option uuid_t)
    (eventId : option EventId) (blockId : option BlockId) : M Judgment :=
  e ← nonnull eventId;
  b ← nonnull blockId;
  '(sec, nsec) ← nonnull clock;
  alloc ;;
  md ← NTLVList_Create;
  eid ← EventId_Clone (Some e);
  bid ← BlockId_Clone (Some b);
  nugget ← deref context;
  mret (mkJudgment nugget (u64 sec) (u64 nsec) (Some eid) (Some bid) 0 (Some md) 0 0 0 0 0 0 None).
End Operations.

Arguments BlockId_Clone : simpl never.
Arguments Block_MetaData_Add : simpl never.

(** ** Lemmas *)

Section Lemmas.
Context `{EVP} `{LibUuidLaws}.

(** A block id whose hash is finalised. *)
Definition id_ok (b : BlockId) : Prop :=
  (exists h, bi_pHash b = Some h /\ complete h) /\ in_width 64 (bi_iLength b).

(** Two ids name the same block. *)
Definition same_block (a b : BlockId) : Prop :=
  bi_uuidDataType a = bi_uuidDataType b /\ bi_iLength a = bi_iLength b /\
  exists ha hb, bi_pHash a = Some ha /\ bi_pHash b = Some hb /\ digest ha = digest hb /\
    h_iType ha = h_iType hb.

Definition id_clone (b : BlockId) : BlockId :=
  mkBlockId (clone_of <$> bi_pHash b) (bi_uuidDataType b) (bi_iLength b).

Lemma BlockId_Clone_ok b : id_ok b ->
  BlockId_Clone (Some b) [] = Some (Some (id_clone b), []) /\ id_ok (id_clone b) /\ same_block b (id_clone b).
Proof.
  intros [(h & Hh & Hc) Hl]. destruct (digest_clone h Hc) as [Hc' Hd].
  unfold BlockId_Clone, BlockId_Create_Shallow, nonnull, id_clone. rewrite M_ret_bind, Hh.
  split; [|split].
  - pose proof (Clone_complete h [] Hc) as E. rewrite (M_bind_ok _ _ _ _ _ alloc_ok) in E.
    by rewrite (M_bind_ok _ _ _ (mkBlockId None uuid_null 0) []), (M_bind_ok _ _ _ _ _ E).
  - split; [|done]. by exists (clone_of h).
  - split; [done|]. split; [done|]. by exists h, (clone_of h).
Qed.

(** Cloning the items of a list of well-formed items gives the same items. *)
Lemma clone_items xs : Forall item_ok xs -> clone_all NTLV_Clone xs [] = (Some xs, []).
Proof.
  induction 1 as [|x xs (Hl & _) _ IH]; [done|]. simpl.
  rewrite IH, Hl, Nat2Z.id, take_ge by done. rewrite <- Hl. by destruct x.
Qed.

Lemma list_clone_metadata p xs : metadata p xs -> Forall item_ok xs ->
  exists d, list_clone [] p [] = Some (Some d, []) /\ metadata (Some d) xs.
Proof.
  intros (l & -> & Hc & Hp & Hk & Hcl) Hx.
  destruct (clone_plain l xs xs NTLV_Clone Hc Hp Hcl (clone_items xs Hx)) as (d & E & Hd & Hme).
  exists d. split; [done|]. exists d.
  split_and!; [done|done|by eapply plain_meta|..]; unfold meta in Hme; congruence.
Qed.

Lemma hex_digits_length f prec n acc : 0 <= n < 16 ^ Z.of_nat f -> prec <= Z.of_nat f ->
  strlen acc + Z.max 0 prec <= strlen (hex_digits f prec n acc) /\
  (n < 16 ^ Z.max 0 prec -> 0 <= prec -> strlen (hex_digits f prec n acc) = strlen acc + prec) /\
  (16 ^ Z.max 0 prec <= n -> 0 <= prec -> strlen acc + prec < strlen (hex_digits f prec n acc)).
Proof.
  revert prec n acc. induction f as [|f IH]; intros prec n acc Hn Hp.
  { simpl in *. split_and!; [lia|intros; lia|]. intros Hge ?. replace (Z.max 0 prec) with 0 in Hge by lia. lia. }
  simpl hex_digits. destruct (Z.eqb_spec n 0) as [->|Hn0]; simpl.
  - destruct (Z.leb_spec prec 0).
    + split_and!; [lia|intros; lia|]. pose proof (Z.pow_pos_nonneg 16 (Z.max 0 prec)). lia.
    + destruct (IH (prec - 1) (0 / 16) (String (hex_digit (0 mod 16)) acc)) as (K1 & K2 & K3); [|lia|].
      { split; [done|]. change (0 / 16) with 0. apply Z.pow_pos_nonneg; lia. }
      assert (Hl : strlen (String (hex_digit (0 mod 16)) acc) = strlen acc + 1) by (unfold strlen; simpl; lia).
      rewrite Hl in *. split_and!; [lia| |].
      * intros _ _. rewrite K2; [lia| |lia]. change (0 / 16) with 0. apply Z.pow_pos_nonneg; lia.
      * pose proof (Z.pow_pos_nonneg 16 (Z.max 0 prec)). lia.
  - rewrite Nat2Z.inj_succ, Z.pow_succ_r in Hn by lia.
    assert (Hd : 0 <= n / 16 < 16 ^ Z.of_nat f) by (split; [apply Z.div_pos; lia|apply Z.div_lt_upper_bound; lia]).
    destruct (IH (prec - 1) (n / 16) (String (hex_digit (n mod 16)) acc) Hd) as (K1 & K2 & K3); [lia|].
    assert (Hl : strlen (String (hex_digit (n mod 16)) acc) = strlen acc + 1) by (unfold strlen; simpl; lia).
    rewrite Hl in *. split_and!; [lia| |].
    + intros Hlt Hpr. destruct (Z.eq_dec prec 0) as [->|]; [change (16 ^ Z.max 0 0) with 1 in Hlt; lia|].
      replace (Z.max 0 prec) with (Z.succ (prec - 1)) in Hlt by lia.
      replace (Z.max 0 (prec - 1)) with (prec - 1) in K2 by lia.
      rewrite Z.pow_succ_r in Hlt by lia. rewrite K2; [lia| |lia]. apply Z.div_lt_upper_bound; lia.
    + intros Hge Hpr. destruct (Z.eq_dec prec 0) as [->|]; [lia|].
      replace (Z.max 0 prec) with (Z.succ (prec - 1)) in Hge by lia.
      replace (Z.max 0 (prec - 1)) with (prec - 1) in K3 by lia.
      rewrite Z.pow_succ_r in Hge by lia.
      enough (strlen acc + 1 + (prec - 1) < strlen (hex_digits f (prec - 1) (n / 16)
        (String (hex_digit (n mod 16)) acc))) by lia.
      apply K3; [|lia]. apply Z.div_le_lower_bound; lia.
Qed.
End Lemmas.

(** ** Theorems *)

Section Theorems.
Context `{EVP} `{LibUuidLaws}.

(** [BlockId_IsEqual] on ids with finalised hashes never crashes and is true
    exactly when the data types, the lengths and the digests (hence the digest
    algorithms) agree. *)
Theorem BlockId_IsEqual_iff a b : id_ok a -> id_ok b ->
  exists r, BlockId_IsEqual false false (Some a) (Some b) = Some r /\ (r = true <-> same_block a b).
Proof.
  intros [(ha & Ea & Ha) _] [(hb & Eb & Hb) _]. unfold BlockId_IsEqual. rewrite Ea, Eb.
  rewrite IsEqual_complete by done. cbn [mbind option_bind]. eexists. split; [done|].
  rewrite uuid_compare_eqb, !andb_true_iff, !bool_decide_eq_true, Z.eqb_eq. unfold same_block. split.
  - intros [[Hu Hd] Hl]. split_and!; [done..|]. exists ha, hb.
    split_and!; [done..|by apply complete_same_type].
  - intros (Hu & Hl & ha' & hb' & Ea' & Eb' & Hd & _). rewrite Ea in Ea'. rewrite Eb in Eb'.
    by simplify_eq.
Qed.

(** The text of a block id is its UUID, its length in at least eight
    hexadecimal digits and its digest; [BlockId_StringLength] is exactly the
    buffer it needs for blocks below [2^32] bytes, and too small from there on. *)
Theorem BlockId_text_length b : id_ok b ->
  exists text, BlockId_ToText (Some b) [] = Some (Some text, []) /\
    (bi_iLength b < 2 ^ 32 -> strlen text + 1 = BlockId_StringLength (Some b)) /\
    (2 ^ 32 <= bi_iLength b -> BlockId_StringLength (Some b) < strlen text + 1).
Proof.
  intros [(h & Eh & Hc) [Hl0 Hl]]. unfold BlockId_ToText, nonnull. rewrite M_ret_bind, Eh.
  assert (Et : Hash_ToText (Some h) [] = Some (Some (hex_text (digest h)), []))
    by by rewrite ToText_complete.
  rewrite (M_bind_ok _ _ _ _ _ Et), (M_bind_ok _ _ _ _ _ alloc_ok).
  eexists. split; [done|]. destruct (read_digest h Hc) as (d & _ & _ & Hs & Hld & Hb).
  destruct (hex_text_spec (digest h) Hb) as (Hx & _). rewrite Hld in Hx.
  pose proof (uuid_unparse_length (bi_uuidDataType b)) as Hu.
  destruct (hex_digits_length 16 8 (bi_iLength b) "") as (_ & K2 & K3); [|lia|].
  { change (16 ^ Z.of_nat 16) with (2 ^ 64). lia. }
  fold (print_8_8jx (bi_iLength b)) in K2, K3. change (16 ^ Z.max 0 8) with (2 ^ 32) in *.
  rewrite !strlen_app, Hx. change (strlen "-") with 1. change (strlen "") with 0 in *.
  unfold BlockId_StringLength, Hash_StringLength, u32. rewrite Eh.
  unfold UUID_STRING_LENGTH in *.
  rewrite (wrap_small 32 (h_iSize h * 2)), (wrap_small 32 (h_iSize h * 2 + 1)), wrap_small
    by (unfold in_width; lia).
  split; intros HL; [rewrite K2 by lia; lia|]. specialize (K3 HL). lia.
Qed.

(** [Block_Clone] of a well-formed block: the clone identifies the same
    block, has the same parent id and the same metadata; the parent block and the
    data are not copied. *)
Theorem Block_Clone_same b id xs : b_pId b = Some id -> id_ok id ->
  (forall p, b_pParentId b = Some p -> id_ok p) ->
  metadata (b_pMetaDataList b) xs -> Forall item_ok xs ->
  exists c, Block_Clone [] (Some b) [] = Some (Some c, []) /\
    (exists id', b_pId c = Some id' /\ same_block id id') /\
    (forall p, b_pParentId b = Some p -> exists p', b_pParentId c = Some p' /\ same_block p p') /\
    (b_pParentId b = None -> b_pParentId c = None) /\
    metadata (b_pMetaDataList c) xs /\ b_pParentBlock c = None /\ b_data c = no_data.
Proof.
  intros Hid Hok Hpar Hm Hx. destruct (BlockId_Clone_ok id Hok) as (E1 & _ & S1).
  destruct (list_clone_metadata _ _ Hm Hx) as (d & E3 & Hd).
  unfold Block_Clone, nonnull. rewrite M_ret_bind, (M_bind_ok _ _ _ _ _ alloc_ok), Hid.
  rewrite (M_bind_ok _ _ _ _ _ E1). destruct (b_pParentId b) as [p|].
  - destruct (BlockId_Clone_ok p (Hpar p eq_refl)) as (E2 & _ & S2).
    assert (E2' : (x ← BlockId_Clone (Some p); mret (Some x) : M (option BlockId)) [] =
      Some (Some (Some (id_clone p)), [])) by by rewrite (M_bind_ok _ _ _ _ _ E2).
    rewrite (M_bind_ok _ _ _ _ _ E2'), (M_bind_ok _ _ _ _ _ E3).
    eexists. split; [done|]. simpl. split_and!; try done; [by eauto|]. intros p' [= <-]. eauto.
  - rewrite M_ret_bind, (M_bind_ok _ _ _ _ _ E3).
    eexists. split; [done|]. simpl. split_and!; try done. eauto.
Qed.

(** [Judgment_Create] outside a thread context dereferences NULL; inside
    one, with successful allocations, it returns a judgment for the event and
    block it was given, with the context's nugget id, the time read from the
    clock and no metadata. *)
Theorem Judgment_Create_fields sec nsec context e b : id_ok b ->
  match context with
  | None => Judgment_Create (Some (sec, nsec)) None (Some e) (Some b) [] = None
  | Some u => exists j, Judgment_Create (Some (sec, nsec)) (Some u) (Some e) (Some b) [] = Some (Some j, []) /\
      j_uuidNuggetId j = u /\ j_iSeconds j = u64 sec /\ j_iNanoSecs j = u64 nsec /\
      j_pEventId j = Some e /\ (exists b', j_pBlockId j = Some b' /\ same_block b b') /\
      metadata (j_pMetaDataList j) [] /\ j_sMessage j = None
  end.
Proof.
  intros Hb. destruct (BlockId_Clone_ok b Hb) as (Eb & _ & S).
  destruct Create_metadata_ok as (l & El & Hl).
  assert (Ee : EventId_Clone (Some e) [] = Some (Some e, [])) by by destruct e.
  unfold Judgment_Create, nonnull. destruct context as [u|];
    rewrite !M_ret_bind, (M_bind_ok _ _ _ _ _ alloc_ok), (M_bind_ok _ _ _ _ _ El),
      (M_bind_ok _ _ _ _ _ Ee), (M_bind_ok _ _ _ _ _ Eb); [|done].
  eexists. split; [done|]. simpl. split_and!; try done. eauto.
Qed.
End Theorems.

(** ** Witnesses *)

Module block_demo.
Import bytes16 toy.

Definition id (n : Z) : BlockId := mkBlockId (Some md5) (ntlv_demo.uuid 1) n.
Definition parent : BlockId := mkBlockId (Some md5b) (ntlv_demo.uuid 2) 10.
Definition block : Block := mkBlock (Some (id 5)) (Some parent) None ntlv_demo.list1 no_data.

Lemma id_id_ok n : bool_decide (in_width 64 n) = true -> id_ok (id n).
Proof.
  intros Hn%bool_decide_eq_true_1. split; [|done]. exists md5. split; [done|]. apply md5_complete.
Qed.

Lemma parent_ok : id_ok parent.
Proof. split; [|done]. exists md5b. split; [done|]. apply md5_complete. Qed.

Lemma items_ok : Forall item_ok ntlv_demo.items.
Proof.
  apply Forall_cons_2; [|constructor]. split_and!; try done.
  apply Forall_cons_2; [done|constructor].
Qed.
End block_demo.

Lemma BlockId_IsEqual_iff_witness :
  exists r, BlockId_IsEqual false false (Some (block_demo.id 5)) (Some (block_demo.id 6)) = Some r /\
    (r = true <-> same_block (block_demo.id 5) (block_demo.id 6)).
Proof.
  exact (BlockId_IsEqual_iff _ _ (block_demo.id_id_ok 5 eq_refl) (block_demo.id_id_ok 6 eq_refl)).
Defined.

Lemma BlockId_text_length_witness :
  exists text, BlockId_ToText (Some (block_demo.id (2 ^ 32))) [] = Some (Some text, []) /\ 79 < strlen text + 1.
Proof.
  destruct (BlockId_text_length _ (block_demo.id_id_ok (2 ^ 32) eq_refl)) as (text & E & _ & Hl).
  exists text. split; [exact E|]. apply Hl. discriminate.
Defined.

Lemma Block_Clone_same_witness :
  exists c, Block_Clone [] (Some block_demo.block) [] = Some (Some c, []) /\
    metadata (b_pMetaDataList c) ntlv_demo.items.
Proof.
  destruct (Block_Clone_same block_demo.block (block_demo.id 5) ntlv_demo.items eq_refl
    (block_demo.id_id_ok 5 eq_refl)) as (c & E & _ & _ & _ & Hm & _).
  - intros p [= <-]. exact block_demo.parent_ok.
  - exact ntlv_demo.list1_metadata.
  - exact block_demo.items_ok.
  - exists c. split; [exact E|exact Hm].
Defined.

Lemma Judgment_Create_fields_witness :
  Judgment_Create (Some (1, 2)) None (Some (mkEventId (ntlv_demo.uuid 1) 3 4)) (Some (block_demo.id 5)) [] = None.
Proof.
  exact (Judgment_Create_fields 1 2 None (mkEventId (ntlv_demo.uuid 1) 3 4) _ (block_demo.id_id_ok 5 eq_refl)).
Defined.
