(* ===== verification/JsonC.v ===== *)
(** * json-c, base64 and network addresses

    The libraries json_buffer.c is written against, as parameters: json-c's
    object model ([JsonC]), OpenSSL's base64 BIO ([Base64]) and the address
    conversions of the C library ([Inet]).  The [...Laws] classes state what their
    documentation promises and the code relies on; [tree] is an instance.

    A [jobj] is a non-NULL [json_object *] with everything below it; a JSON null
    is the C NULL, [None].  Allocation failures of the constructors are outcomes
    of the caller's allocations, so the constructors are total here. *)

From S2P Require Import Prelude CLib Hash.

#[local] Set Warnings "-register-all".

Inductive json_type :=
  | json_type_null
  | json_type_boolean
  | json_type_double
  | json_type_int
  | json_type_object
  | json_type_array
  | json_type_string.

Global Instance json_type_eq_dec : EqDecision json_type.
Proof. solve_decision. Defined.

Class JsonC := {
  jobj : Type;
  json_object_get_type : jobj -> json_type;
  json_object_new_object : jobj;
  json_object_new_array : jobj;
  json_object_new_boolean : bool -> jobj;
  json_object_new_int : Z -> jobj;
  json_object_new_uint64 : Z -> jobj;
  json_object_new_string : string -> jobj;
  json_object_object_add : jobj -> string -> jobj -> jobj;
  json_object_object_get : jobj -> string -> option jobj;
  (** whether the key is there, even with a null value *)
  json_object_object_get_ex : jobj -> string -> bool;
  json_object_array_add : jobj -> jobj -> jobj;
  json_object_array_length : jobj -> nat;
  json_object_array_get_idx : jobj -> nat -> option jobj;
  json_object_get_boolean : jobj -> bool;
  json_object_get_int : jobj -> Z;
  json_object_get_string : jobj -> string;
  json_object_get_string_len : jobj -> Z;
  (** the value and [json_tokener_get_parse_end], or [None] for an error *)
  json_tokener_parse_ex : string -> option (jobj * nat);
  (** [json_object_to_json_string_ext_ext (o, JSON_C_TO_STRING_PLAIN)] *)
  json_object_to_json_string_ext : jobj -> string
}.

Class JsonCLaws `{JsonC} := {
  type_new_object : json_object_get_type json_object_new_object = json_type_object;
  type_new_array : json_object_get_type json_object_new_array = json_type_array;
  type_new_boolean b : json_object_get_type (json_object_new_boolean b) = json_type_boolean;
  type_new_int n : json_object_get_type (json_object_new_int n) = json_type_int;
  type_new_uint64 n : json_object_get_type (json_object_new_uint64 n) = json_type_int;
  type_new_string s : json_object_get_type (json_object_new_string s) = json_type_string;
  type_object_add j k v : json_object_get_type j = json_type_object ->
    json_object_get_type (json_object_object_add j k v) = json_type_object;
  type_array_add j v : json_object_get_type j = json_type_array ->
    json_object_get_type (json_object_array_add j v) = json_type_array;
  object_get_new k : json_object_object_get json_object_new_object k = None;
  object_get_ex_new k : json_object_object_get_ex json_object_new_object k = false;
  object_get_add j k v k' : json_object_get_type j = json_type_object ->
    json_object_object_get (json_object_object_add j k v) k' =
    if String.eqb k k' then Some v else json_object_object_get j k';
  object_get_ex_add j k v k' : json_object_get_type j = json_type_object ->
    json_object_object_get_ex (json_object_object_add j k v) k' =
    String.eqb k k' || json_object_object_get_ex j k';
  array_length_new : json_object_array_length json_object_new_array = 0%nat;
  array_length_add j v : json_object_get_type j = json_type_array ->
    json_object_array_length (json_object_array_add j v) = S (json_object_array_length j);
  array_get_add j v i : json_object_get_type j = json_type_array ->
    json_object_array_get_idx (json_object_array_add j v) i =
    if (i =? json_object_array_length j)%nat then Some v else json_object_array_get_idx j i;
  get_boolean_new b : json_object_get_boolean (json_object_new_boolean b) = b;
  get_int_new n : - 2 ^ 31 <= n < 2 ^ 31 -> json_object_get_int (json_object_new_int n) = n;
  get_string_uint64 n : in_width 64 n -> json_object_get_string (json_object_new_uint64 n) = print_dec n;
  get_string_new s : nul_free s = true -> json_object_get_string (json_object_new_string s) = s;
  get_string_len_new s : nul_free s = true ->
    json_object_get_string_len (json_object_new_string s) = strlen s;
  (** a value is a finite tree *)
  json_depth : jobj -> nat;
  depth_object_get j k v : json_object_object_get j k = Some v -> (json_depth v < json_depth j)%nat
}.

(** OpenSSL's base64 BIO without newlines: encoding, and decoding of a text. *)
Class Base64 := {
  b64_encode : list Z -> string;
  b64_decode : string -> option (list Z)
}.

Class Base64Laws `{Base64} := {
  b64_decode_encode xs : Forall (fun b => 0 <= b < 256) xs -> b64_decode (b64_encode xs) = Some xs;
  b64_nul_free xs : Forall (fun b => 0 <= b < 256) xs -> nul_free (b64_encode xs) = true;
  b64_expands xs : Forall (fun b => 0 <= b < 256) xs -> Z.of_nat (length xs) <= strlen (b64_encode xs)
}.

(** [inet_ntop] and [inet_pton] for AF_INET and AF_INET6. *)
Class Inet := {
  inet_ntop4 : list Z -> string;
  inet_pton4 : string -> option (list Z);
  inet_ntop6 : list Z -> string;
  inet_pton6 : string -> option (list Z)
}.

Class InetLaws `{Inet} := {
  inet4_roundtrip a : length a = 4%nat -> Forall (fun b => 0 <= b < 256) a ->
    inet_pton4 (inet_ntop4 a) = Some a /\ nul_free (inet_ntop4 a) = true;
  inet6_roundtrip a : length a = 16%nat -> Forall (fun b => 0 <= b < 256) a ->
    inet_pton6 (inet_ntop6 a) = Some a /\ nul_free (inet_ntop6 a) = true;
  inet_pton4_length t a : inet_pton4 t = Some a -> length a = 4%nat;
  inet_pton6_length t a : inet_pton6 t = Some a -> length a = 16%nat
}.

(** ** Objects and arrays as sequences *)

Section Build.
Context `{JsonCLaws}.

(** The object with the given fields, added in order. *)
Definition build (fs : list (string * jobj)) : jobj :=
  foldl (fun j f => json_object_object_add j f.1 f.2) json_object_new_object fs.

Definition arr (vs : list jobj) : jobj := foldl json_object_array_add json_object_new_array vs.

(** The value of a key: of two fields with the same key the later one counts. *)
Fixpoint field (fs : list (string * jobj)) (k : string) : option jobj :=
  match fs with
  | [] => None
  | (k', v) :: fs' =>
      match field fs' k with
      | Some x => Some x
      | None => if String.eqb k' k then Some v else None
      end
  end.

Lemma build_snoc fs k v : build (fs ++ [(k, v)]) = json_object_object_add (build fs) k v.
Proof. unfold build. by rewrite foldl_app. Qed.

Lemma arr_snoc vs v : arr (vs ++ [v]) = json_object_array_add (arr vs) v.
Proof. unfold arr. by rewrite foldl_app. Qed.

Lemma type_build fs : json_object_get_type (build fs) = json_type_object.
Proof.
  induction fs as [|[k v] fs IH] using rev_ind; [apply type_new_object|].
  rewrite build_snoc. by apply type_object_add.
Qed.

Lemma type_arr vs : json_object_get_type (arr vs) = json_type_array.
Proof.
  induction vs as [|v vs IH] using rev_ind; [apply type_new_array|].
  rewrite arr_snoc. by apply type_array_add.
Qed.

Lemma field_snoc fs k v k' :
  field (fs ++ [(k, v)]) k' = if String.eqb k k' then Some v else field fs k'.
Proof.
  induction fs as [|[k1 v1] fs IH]; simpl; [done|]. rewrite IH.
  by destruct (String.eqb k k').
Qed.

Lemma object_get_build fs k : json_object_object_get (build fs) k = field fs k.
Proof.
  induction fs as [|[k1 v1] fs IH] using rev_ind; [apply object_get_new|].
  rewrite build_snoc, object_get_add, field_snoc, IH by apply type_build. done.
Qed.

Lemma object_get_ex_build fs k :
  json_object_object_get_ex (build fs) k = match field fs k with Some _ => true | None => false end.
Proof.
  induction fs as [|[k1 v1] fs IH] using rev_ind; [apply object_get_ex_new|].
  rewrite build_snoc, object_get_ex_add, field_snoc, IH by apply type_build.
  by destruct (String.eqb k1 k).
Qed.

Lemma array_length_arr vs : json_object_array_length (arr vs) = length vs.
Proof.
  induction vs as [|v vs IH] using rev_ind; [apply array_length_new|].
  rewrite arr_snoc, array_length_add, IH, length_app by apply type_arr. simpl. lia.
Qed.

Lemma array_get_arr vs i v : vs !! i = Some v -> json_object_array_get_idx (arr vs) i = Some v.
Proof.
  revert i. induction vs as [|x vs IH] using rev_ind; intros i Hi; [done|].
  rewrite arr_snoc, array_get_add, array_length_arr by apply type_arr.
  destruct (Nat.eqb_spec i (length vs)) as [->|Hne].
  - rewrite lookup_app_r, Nat.sub_diag in Hi by lia. by simplify_eq/=.
  - apply IH. rewrite lookup_app_l in Hi; [done|]. apply lookup_lt_Some in Hi.
    rewrite length_app in Hi. simpl in Hi. lia.
Qed.
End Build.

(** ** An instance *)

Module tree.
Inductive json :=
  | JBool (b : bool)
  | JInt (n : Z)
  | JString (s : string)
  | JArray (vs : list json)
  | JObject (fs : list (string * json)).

Fixpoint get (fs : list (string * json)) (k : string) : option json :=
  match fs with
  | [] => None
  | (k', v) :: fs' => if String.eqb k' k then Some v else get fs' k
  end.

Definition fields (j : json) : list (string * json) := match j with JObject fs => fs | _ => [] end.
Definition items (j : json) : list json := match j with JArray vs => vs | _ => [] end.

Global Instance impl : JsonC := {
  jobj := json;
  json_object_get_type j := match j with
    | JBool _ => json_type_boolean | JInt _ => json_type_int | JString _ => json_type_string
    | JArray _ => json_type_array | JObject _ => json_type_object end;
  json_object_new_object := JObject [];
  json_object_new_array := JArray [];
  json_object_new_boolean := JBool;
  json_object_new_int := JInt;
  json_object_new_uint64 := JInt;
  json_object_new_string := JString;
  json_object_object_add j k v := JObject ((k, v) :: fields j);
  json_object_object_get j k := get (fields j) k;
  json_object_object_get_ex j k := match get (fields j) k with Some _ => true | None => false end;
  json_object_array_add j v := JArray (items j ++ [v]);
  json_object_array_length j := length (items j);
  json_object_array_get_idx j i := items j !! i;
  json_object_get_boolean j := match j with JBool b => b | _ => false end;
  json_object_get_int j := match j with JInt n => n | _ => 0 end;
  json_object_get_string j := match j with JString s => s | JInt n => print_dec n | _ => EmptyString end;
  json_object_get_string_len j := match j with JString s => strlen s | _ => 0 end;
  json_tokener_parse_ex s := match s with
    | String a (String b _) =>
        if (code a == 123) && (code b == 125) then Some (JObject [], 2%nat) else None
    | _ => None end;
  json_object_to_json_string_ext j := "{}"
}.

Fixpoint depth (j : json) : nat :=
  match j with
  | JObject fs => foldr (fun f n => Nat.max (S (depth f.2)) n) 0%nat fs
  | JArray vs => foldr (fun v n => Nat.max (S (depth v)) n) 0%nat vs
  | _ => 0%nat
  end.

Lemma depth_get fs k v : get fs k = Some v ->
  (depth v < foldr (fun f n => Nat.max (S (depth f.2)) n) 0 fs)%nat.
Proof.
  induction fs as [|[k' v'] fs IH]; [done|]. cbn [get foldr snd].
  destruct (String.eqb k' k); [intros [= ->]; lia|]. intros H%IH. lia.
Qed.

Global Instance laws : JsonCLaws.
Proof.
  refine {| json_depth := depth |}; try done.
  - intros j k v k' Hj. simpl. by destruct (String.eqb k k').
  - intros j v Hj. simpl. rewrite length_app. simpl. lia.
  - intros j v i Hj. simpl. destruct (Nat.eqb_spec i (length (items j))) as [->|Hne].
    + by rewrite lookup_app_r, Nat.sub_diag by lia.
    + destruct (decide (i < length (items j))%nat); [by rewrite lookup_app_l by lia|].
      rewrite (lookup_ge_None_2 (items j)) by lia. apply lookup_ge_None_2. rewrite length_app. simpl. lia.
  - intros j k v. destruct j; try done. intros Hv%depth_get. exact Hv.
Defined.
End tree.

(** Encodings as hexadecimal text: not base64 nor dotted quads, but encodings. *)
Module hexcodec.
Definition dec (s : string) : option (list Z) := Some (scan_hex (Nat.div (String.length s) 2) s).

Lemma dec_enc bs : Forall (fun b => 0 <= b < 256) bs ->
  dec (hex_text bs) = Some bs /\ nul_free (hex_text bs) = true /\
  Z.of_nat (length bs) <= strlen (hex_text bs).
Proof.
  intros (H1 & H2 & H3)%hex_text_spec. split_and!; [|by apply nul_free_xdigits|lia].
  unfold dec. replace (Nat.div (String.length (hex_text bs)) 2) with (length bs); [by rewrite H3|].
  unfold strlen in H1. replace (String.length (hex_text bs)) with (length bs * 2)%nat by lia.
  by rewrite Nat.div_mul.
Qed.

Global Instance base64 : Base64 := { b64_encode := hex_text; b64_decode := dec }.
Global Instance base64_laws : Base64Laws.
Proof. split; apply dec_enc. Qed.

(** An address of exactly [n] bytes. *)
Definition dec_n (n : nat) (s : string) : option (list Z) :=
  a ← dec s; if (length a =? n)%nat then Some a else None.

Lemma dec_n_enc n a : length a = n -> Forall (fun b => 0 <= b < 256) a ->
  dec_n n (hex_text a) = Some a /\ nul_free (hex_text a) = true.
Proof.
  intros Hl (E & Hn & _)%dec_enc. split; [|done]. unfold dec_n. rewrite E. simpl. by rewrite Hl, Nat.eqb_refl.
Qed.

Lemma dec_n_length n t a : dec_n n t = Some a -> length a = n.
Proof. unfold dec_n. simpl. case_match eqn:E; [|done]. intros [= <-]. by apply Nat.eqb_eq. Qed.

Global Instance inet : Inet :=
  { inet_ntop4 := hex_text; inet_pton4 := dec_n 4; inet_ntop6 := hex_text; inet_pton6 := dec_n 16 }.
Global Instance inet_laws : InetLaws.
Proof. split; [apply dec_n_enc|apply dec_n_enc|apply dec_n_length|apply dec_n_length]. Qed.
End hexcodec.
