(* ===== verification/JsonBuffer.v ===== *)
(** * Serialization: src/json_buffer.c

    Every message of the system is a JSON object that the [JsonBuffer_Put_...]
    functions fill and the [JsonBuffer_Get_...] functions read.

    A [Put] is a call on a parent object: it takes the parent pointer and yields
    the result and the parent after the call (partly filled when it failed).  Where
    the source adds a new object to its parent and then fills it, the model fills
    it and then adds it: the code that fills it has no access to the parent.  A
    [Get] is a computation of the monad [M]; what an error path frees is garbage.
    The recursion of [JsonBuffer_Get_Block] and [JsonBuffer_Get_Event] follows the
    nesting of the input and takes fuel; running out of it is the stack overflow of
    the C recursion.  Logging is left out, and so are the arguments used only for
    it. *)

From S2P Require Import Prelude CLib RzbList RzbListProps ListM Hash LibUuid Uuids Ntlv Blocks JsonC.

Definition NTLV_TYPE_IPv6_ADDR : string := "IPv6_ADDR".
Definition NTLV_TYPE_IPv4_ADDR : string := "IPv4_ADDR".
Definition NTLV_TYPE_JSON : string := "JSON".
Definition NTLV_TYPE_PORT : string := "PORT".
Definition NTLV_TYPE_IPPROTO : string := "IPPROTO".

Definition UINT8_MAX : Z := 2 ^ 8 - 1.
Definition UINT16_MAX : Z := 2 ^ 16 - 1.
Definition UINT32_MAX : Z := 2 ^ 32 - 1.
Definition UINT64_MAX : Z := 2 ^ 64 - 1.
Definition INT_MAX : Z := 2 ^ 31 - 1.

(** ** The combinators of serialization *)

Section Combinators.
Context `{JsonC}.

Definition Put : Type := option jobj -> allocs -> option (bool * option jobj * allocs).

Definition put_true : Put := fun parent o => Some (true, parent, o).
Definition put_false : Put := fun parent o => Some (false, parent, o).
Definition put_crash : Put := fun _ _ => None.

(** [if (!a) return false; b] *)
Definition put_seq (a b : Put) : Put := fun parent o =>
  '(ok, parent, o) ← a parent o;
  if (ok : bool) then b parent o else Some (false, parent, o).

(** Run code that does not touch the parent; [return false] when it fails. *)
Definition put_with {A} (m : M A) (f : A -> Put) : Put := fun parent o =>
  '(r, o) ← m o;
  match r with
  | None => Some (false, parent, o)
  | Some x => f x parent o
  end.

(** The NULL tests of the parent and of the field name. *)
Definition checked (name : option string) (f : string -> Put) : Put := fun parent o =>
  match parent, name with
  | Some _, Some n => f n parent o
  | _, _ => Some (false, parent, o)
  end.

(** [json_object_object_add (parent, n, v)] *)
Definition put_add (n : string) (v : jobj) : Put := fun parent o =>
  match parent with
  | None => None
  | Some j => Some (true, Some (json_object_object_add j n v), o)
  end.

(** Allocate a value and add it. *)
Definition put_value (name : option string) (v : jobj) : Put :=
  checked name (fun n => put_with alloc (fun _ => put_add n v)).

(** Allocate a container, add it and fill it. *)
Definition put_child (name : option string) (new : jobj) (fill : Put) : Put :=
  checked name (fun n => put_with alloc (fun _ => fun parent o =>
    '(ok, child, o) ← fill (Some new) o;
    match parent, child with
    | Some j, Some c => Some (ok, Some (json_object_object_add j n c), o)
    | _, _ => None
    end)).

(** [if (p != NULL) f (p)] *)
Definition put_opt {A} (p : option A) (f : A -> Put) : Put :=
  match p with None => put_true | Some x => f x end.
End Combinators.

Notation "a ;+ b" := (put_seq a b) (at level 100, right associativity) : rzb_scope.

(** ** Scalars *)

Section Scalars.
Context `{JsonC} `{Base64}.

Definition JsonBuffer_ParseUnsignedText (text : option string) (maxValue : Z) : M Z :=
  t ← nonnull text;
  match t with
  | EmptyString => fail
  | String c _ =>
      if code c == 45 then fail
      else
        match strtoumax t with
        | (_, _, true) => fail
        | (_, None, _) => fail
        | (parsed, Some rest, _) =>
            require (strlen rest == 0) ;;
            require (parsed <=? maxValue) ;;
            mret parsed
        end
  end.

Definition JsonBuffer_Put_bool (name : option string) (p_iValue : bool) : Put :=
  put_value name (json_object_new_boolean p_iValue).

Definition JsonBuffer_Put_uint64_t (name : option string) (p_iValue : Z) : Put :=
  put_value name (json_object_new_uint64 p_iValue).
Definition JsonBuffer_Put_uint8_t (name : option string) (p_iValue : Z) : Put :=
  JsonBuffer_Put_uint64_t name p_iValue ;+ put_true.
Definition JsonBuffer_Put_uint16_t (name : option string) (p_iValue : Z) : Put :=
  JsonBuffer_Put_uint64_t name p_iValue ;+ put_true.
Definition JsonBuffer_Put_uint32_t (name : option string) (p_iValue : Z) : Put :=
  JsonBuffer_Put_uint64_t name p_iValue ;+ put_true.

Definition JsonBuffer_Put_String (name : option string) (p_sString : string) : Put :=
  put_value name (json_object_new_string p_sString).

Definition JsonBuffer_Put_OptionalString (name : option string) (value : option string) : Put :=
  checked name (fun n => put_opt value (fun v => JsonBuffer_Put_String (Some n) v ;+ put_true)).

(** The BIOs, the write and the flush allocate; a size above INT_MAX is
    negative for [BIO_write], which then does not write it. *)
Definition JsonBuffer_Put_ByteArray (name : option string) (p_iSize : Z)
    (p_pByteArray : option (list Z)) : Put :=
  checked name (fun n =>
    put_with
      (require (match p_pByteArray with None => p_iSize == 0 | Some _ => true end) ;;
       alloc ;;
       alloc ;;
       bytes ← (if 0 <? p_iSize then
                  require (p_iSize <=? INT_MAX) ;;
                  buf ← deref p_pByteArray;
                  bs ← deref (read_bytes buf p_iSize);
                  alloc ;; mret bs
                else mret []);
       alloc ;;
       alloc ;;
       mret (b64_encode bytes))
      (fun buff => JsonBuffer_Put_String (Some n) buff)).

Definition JsonBuffer_Put_JsonString (name : option string) (p_sJsonString : option string) : Put :=
  checked name (fun n =>
    put_with
      (s ← nonnull p_sJsonString;
       require (strlen s <=? INT_MAX) ;;
       alloc ;;
       '(parsed, parse_end) ← nonnull (json_tokener_parse_ex s);
       require (strlen (skip_space (String.substring parse_end (String.length s - parse_end) s)) == 0) ;;
       require (bool_decide (json_object_get_type parsed = json_type_object) ||
                bool_decide (json_object_get_type parsed = json_type_array)) ;;
       mret parsed)
      (fun parsed => put_add n parsed)).

(** *** Reading *)

(** The NULL tests and [json_object_object_get]. *)
Definition get_field (parent : option jobj) (name : option string) : M jobj :=
  p ← nonnull parent;
  n ← nonnull name;
  nonnull (json_object_object_get p n).

Definition has_type (j : jobj) (t : json_type) : bool := bool_decide (json_object_get_type j = t).

Definition JsonBuffer_Get_bool (parent : option jobj) (name : option string) : M bool :=
  object ← get_field parent name;
  match json_object_get_type object with
  | json_type_boolean => mret (json_object_get_boolean object)
  | json_type_string =>
      if strcmp (json_object_get_string object) "true" == 0 then mret true
      else if strcmp (json_object_get_string object) "false" == 0 then mret false
      else fail
  | _ => fail
  end.

Definition JsonBuffer_Get_uint8_t (parent : option jobj) (name : option string) : M Z :=
  object ← get_field parent name;
  require (has_type object json_type_int) ;;
  tmp ← JsonBuffer_ParseUnsignedText (Some (json_object_get_string object)) UINT8_MAX;
  mret (u8 tmp).

Definition JsonBuffer_Get_uint16_t (parent : option jobj) (name : option string) : M Z :=
  object ← get_field parent name;
  require (has_type object json_type_int) ;;
  tmp ← JsonBuffer_ParseUnsignedText (Some (json_object_get_string object)) UINT16_MAX;
  mret (u16 tmp).

Definition JsonBuffer_Get_uint64_t (parent : option jobj) (name : option string) : M Z :=
  object ← get_field parent name;
  match json_object_get_type object with
  | json_type_string =>
      JsonBuffer_ParseUnsignedText (Some (json_object_get_string object)) UINT64_MAX
  | json_type_int =>
      JsonBuffer_ParseUnsignedText (Some (json_object_get_string object)) UINT64_MAX
  | _ => fail
  end.

Definition JsonBuffer_Get_uint32_t (parent : option jobj) (name : option string) : M Z :=
  val ← JsonBuffer_Get_uint64_t parent name;
  require (val <=? UINT32_MAX) ;;
  mret (u32 val).

Definition JsonBuffer_Get_String (parent : option jobj) (name : option string) : M string :=
  object ← get_field parent name;
  require (has_type object json_type_string) ;;
  alloc ;;
  mret (json_object_get_string object).

Definition JsonBuffer_Get_JsonString (parent : option jobj) (name : option string) : M string :=
  object ← get_field parent name;
  require (has_type object json_type_object || has_type object json_type_array) ;;
  alloc ;;
  mret (json_object_to_json_string_ext object).

(** The value, NULL when the field is absent. *)
Definition JsonBuffer_Get_OptionalString (parent : option jobj) (name : option string)
    : M (option string) :=
  p ← nonnull parent;
  n ← nonnull name;
  match json_object_object_get p n with
  | None => mret None
  | Some _ => s ← JsonBuffer_Get_String (Some p) (Some n); mret (Some s)
  end.

(** The size and the bytes; the decoder writes at most as many bytes as the
    text has characters. *)
Definition JsonBuffer_Get_ByteArray (parent : option jobj) (name : option string) : M (Z * list Z) :=
  object ← get_field parent name;
  require (has_type object json_type_string) ;;
  alloc ;;
  alloc ;;
  alloc ;;
  bytes ← nonnull (b64_decode (json_object_get_string object));
  let output := take (Z.to_nat (json_object_get_string_len object)) bytes in
  mret (u32 (Z.of_nat (length output)), output).
End Scalars.

(** ** UUIDs and metadata *)

Section Metadata.
Context `{JsonC} `{Base64} `{Inet} `{LibUuid}.

Definition JsonBuffer_Put_UUID (name : option string) (p_uuid : uuid_t) : Put :=
  put_child name json_object_new_object
    (JsonBuffer_Put_String (Some "id") (uuid_unparse p_uuid) ;+ put_true).

Definition JsonBuffer_Get_UUID (parent : option jobj) (name : option string) : M uuid_t :=
  object ← get_field parent name;
  require (has_type object json_type_object) ;;
  tmp ← JsonBuffer_Get_String (Some object) (Some "id");
  nonnull (uuid_parse tmp).

Variable sg : UuidLists.

(** A failed lookup leaves [matches] false. *)
Definition JsonBuffer_NamedNTLVTypeMatches (name : string) (type : uuid_t) : M bool := fun o =>
  '(r, o') ← UUID_Is_Named_UUID sg (Some name) UUID_TYPE_NTLV_TYPE type o;
  Some (Some (default false r), o').

(** [a || b] *)
Definition or_else (a b : M bool) : M bool := x ← a; if (x : bool) then mret true else b.

Definition JsonBuffer_NTLVTypeUsesStringValue (type : uuid_t) : M bool :=
  or_else (JsonBuffer_NamedNTLVTypeMatches NTLV_TYPE_STRING type)
    (or_else (JsonBuffer_NamedNTLVTypeMatches NTLV_TYPE_PORT type)
       (or_else (JsonBuffer_NamedNTLVTypeMatches NTLV_TYPE_IPPROTO type)
          (or_else (JsonBuffer_NamedNTLVTypeMatches NTLV_TYPE_IPv4_ADDR type)
             (JsonBuffer_NamedNTLVTypeMatches NTLV_TYPE_IPv6_ADDR type)))).

Definition JsonBuffer_NTLVTypeUsesJsonValue (type : uuid_t) : M bool :=
  JsonBuffer_NamedNTLVTypeMatches NTLV_TYPE_JSON type.

(** The data of an item as a C string: it has to end in a NUL. *)
Definition ntlv_cstr (item : NTLVItem) : M string :=
  if nt_iLength item == 0 then fail
  else
    last ← deref (nt_pData item !! Z.to_nat (nt_iLength item - 1));
    require (last == 0) ;;
    mret (cstr_of_bytes (nt_pData item)).

(** The text of an item with a textual type and whether it is JSON; no text for
    the binary types.  The tests are the source's, in its order. *)
Definition ntlv_text (item : NTLVItem) : M (option string * bool) :=
  let type := nt_uuidType item in
  isString ← JsonBuffer_NamedNTLVTypeMatches NTLV_TYPE_STRING type;
  str ← (if (isString : bool) then s ← ntlv_cstr item; mret (Some s) else mret None);
  isJson ← JsonBuffer_NTLVTypeUsesJsonValue type;
  '(str, useJsonValue) ← (if (isJson : bool) then s ← ntlv_cstr item; mret (Some s, true)
                          else mret (str, false));
  isPort ← JsonBuffer_NamedNTLVTypeMatches NTLV_TYPE_PORT type;
  if (isPort : bool) then
    require (nt_iLength item == 2) ;;
    bs ← deref (read_bytes (nt_pData item) 2);
    alloc ;;
    mret (Some (print_dec (u16_of_bytes bs)), useJsonValue)
  else
    isProto ← JsonBuffer_NamedNTLVTypeMatches NTLV_TYPE_IPPROTO type;
    if (isProto : bool) then
      require (nt_iLength item == 1) ;;
      bs ← deref (read_bytes (nt_pData item) 1);
      alloc ;;
      mret (Some (print_dec (default 0 (head bs))), useJsonValue)
    else
      isIPv4 ← JsonBuffer_NamedNTLVTypeMatches NTLV_TYPE_IPv4_ADDR type;
      if (isIPv4 : bool) then
        require (nt_iLength item == 4) ;;
        alloc ;;
        bs ← deref (read_bytes (nt_pData item) 4);
        mret (Some (inet_ntop4 bs), useJsonValue)
      else
        isIPv6 ← JsonBuffer_NamedNTLVTypeMatches NTLV_TYPE_IPv6_ADDR type;
        if (isIPv6 : bool) then
          require (nt_iLength item == 16) ;;
          alloc ;;
          bs ← deref (read_bytes (nt_pData item) 16);
          mret (Some (inet_ntop6 bs), useJsonValue)
        else mret (str, useJsonValue).

(** The fields of the object of an item. *)
Definition put_NTLVItem_fields (item : NTLVItem) : Put :=
  JsonBuffer_Put_UUID (Some "Name") (nt_uuidName item) ;+
  JsonBuffer_Put_UUID (Some "Type") (nt_uuidType item) ;+
  put_with (ntlv_text item) (fun '(str, useJsonValue) =>
    match str with
    | None => JsonBuffer_Put_ByteArray (Some "Bin_Value") (nt_iLength item) (Some (nt_pData item))
    | Some s =>
        if useJsonValue then JsonBuffer_Put_JsonString (Some "Json_Value") (Some s)
        else JsonBuffer_Put_String (Some "String_Value") s
    end).

(** [JsonBuffer_Put_NTLVItem], the operation of a [List_ForEach]; the user data
    is the array.  When the object cannot be allocated it returns [false], which
    is LIST_EACH_OK. *)
Definition JsonBuffer_Put_NTLVItem (item : NTLVItem) (parent : jobj) (o : allocs)
    : option (Z * jobj * allocs) :=
  let '(ok, o) := alloc_next o in
  if negb ok then Some (LIST_EACH_OK, parent, o)
  else
    '(ok, object, o) ← put_NTLVItem_fields item (Some json_object_new_object) o;
    object ← object;
    Some (if (ok : bool) then LIST_EACH_OK else LIST_EACH_ERROR,
          json_object_array_add parent object, o).

(** [List_ForEach (list, op, array)] with the result of the iteration. *)
Definition put_each {Key Item} (list : vptr Key Item)
    (op : Item -> jobj -> allocs -> option (Z * jobj * allocs)) : Put := fun parent o =>
  array ← parent;
  '(ok, _, array, o) ← List_ForEach list (Some op) array o;
  Some (ok, Some array, o).

Definition JsonBuffer_Put_NTLVList (name : option string) (p_pList : option ntlv_list) : Put :=
  put_child name json_object_new_array (put_each p_pList JsonBuffer_Put_NTLVItem).

(** The part of [JsonBuffer_Get_NTLVItem] that converts a [String_Value] to the
    data its type says and adds it. *)
Definition ntlv_add_text (list : option ntlv_list) (name type : uuid_t) (str : string)
    : M (option ntlv_list) :=
  isString ← JsonBuffer_NamedNTLVTypeMatches NTLV_TYPE_STRING type;
  if (isString : bool) then
    NTLVList_Add list name type (u32 (strlen str + 1)) (Some (bytes_of_cstr str))
  else
  isJson ← JsonBuffer_NTLVTypeUsesJsonValue type;
  if (isJson : bool) then fail
  else
  isPort ← JsonBuffer_NamedNTLVTypeMatches NTLV_TYPE_PORT type;
  if (isPort : bool) then
    port ← nonnull (sscanf_u 16 str);
    NTLVList_Add list name type 2 (Some (bytes_of_u16 port))
  else
  isProto ← JsonBuffer_NamedNTLVTypeMatches NTLV_TYPE_IPPROTO type;
  if (isProto : bool) then
    proto ← nonnull (sscanf_u 8 str);
    NTLVList_Add list name type 1 (Some [proto])
  else
  isIPv4 ← JsonBuffer_NamedNTLVTypeMatches NTLV_TYPE_IPv4_ADDR type;
  if (isIPv4 : bool) then
    ipAddress ← nonnull (inet_pton4 str);
    NTLVList_Add list name type 4 (Some ipAddress)
  else
  isIPv6 ← JsonBuffer_NamedNTLVTypeMatches NTLV_TYPE_IPv6_ADDR type;
  if (isIPv6 : bool) then
    ipAddress ← nonnull (inet_pton6 str);
    NTLVList_Add list name type 16 (Some ipAddress)
  else fail.

(** [JsonBuffer_Get_NTLVItem]: the list with the item that was read. *)
Definition JsonBuffer_Get_NTLVItem (list : option ntlv_list) (parent : jobj) : M (option ntlv_list) :=
  name ← JsonBuffer_Get_UUID (Some parent) (Some "Name");
  type ← JsonBuffer_Get_UUID (Some parent) (Some "Type");
  let hasStringValue := json_object_object_get_ex parent "String_Value" in
  let hasBinValue := json_object_object_get_ex parent "Bin_Value" in
  let hasJsonValue := json_object_object_get_ex parent "Json_Value" in
  require (((if hasStringValue then 1 else 0) + (if hasBinValue then 1 else 0) +
            (if hasJsonValue then 1 else 0)) == 1) ;;
  if hasStringValue then
    str ← JsonBuffer_Get_String (Some parent) (Some "String_Value");
    ntlv_add_text list name type str
  else if hasBinValue then
    '(size, byteData) ← JsonBuffer_Get_ByteArray (Some parent) (Some "Bin_Value");
    usesText ← or_else (JsonBuffer_NTLVTypeUsesStringValue type) (JsonBuffer_NTLVTypeUsesJsonValue type);
    if (usesText : bool) then fail
    else NTLVList_Add list name type size (Some byteData)
  else
    str ← JsonBuffer_Get_JsonString (Some parent) (Some "Json_Value");
    isJson ← JsonBuffer_NTLVTypeUsesJsonValue type;
    if (isJson : bool) then
      NTLVList_Add list name type (u32 (strlen str + 1)) (Some (bytes_of_cstr str))
    else fail.

(** [for (i = 0; i < json_object_array_length (parent); i++)] over an array: [f]
    gets the entry, which may be NULL, and the accumulator. *)
Fixpoint array_loop {A} (f : option jobj -> A -> M A) (parent : jobj) (n i : nat) (acc : A) : M A :=
  match n with
  | O => mret acc
  | S n' => acc' ← f (json_object_array_get_idx parent i) acc; array_loop f parent n' (S i) acc'
  end.

Definition array_for {A} (f : option jobj -> A -> M A) (parent : jobj) (acc : A) : M A :=
  array_loop f parent (json_object_array_length parent) 0 acc.

Definition JsonBuffer_Get_NTLVList (parent : option jobj) (name : option string) : M ntlv_list :=
  object ← get_field parent name;
  require (has_type object json_type_array) ;;
  l ← NTLVList_Create;
  r ← array_for (fun entry acc =>
        e ← nonnull entry;
        require (has_type e json_type_object) ;;
        JsonBuffer_Get_NTLVItem acc e) object (Some l);
  deref r.
End Metadata.

(** ** Hashes and identifiers *)

Section Identifiers.
Context `{JsonC} `{EVP} `{LibUuid}.

(** The switch of [JsonBuffer_Put_Hash] on the type. *)
Definition hash_typeName (iType : Z) : option string :=
  if iType == HASH_TYPE_MD5 then Some "MD5"
  else if iType == HASH_TYPE_SHA1 then Some "SHA1"
  else if iType == HASH_TYPE_SHA224 then Some "SHA224"
  else if iType == HASH_TYPE_SHA256 then Some "SHA256"
  else if iType == HASH_TYPE_SHA512 then Some "SHA512"
  else None.

Definition JsonBuffer_Put_Hash (name : option string) (p_pHash : option Hash) : Put :=
  put_child name json_object_new_object
    (match p_pHash with
     | None => put_crash
     | Some h =>
         put_with (nonnull (hash_typeName (h_iType h))) (fun typeName =>
           JsonBuffer_Put_String (Some "Type") typeName ;+
           put_with (Hash_ToText (Some h)) (fun hashText =>
             JsonBuffer_Put_String (Some "Value") hashText))
     end).

Definition JsonBuffer_Get_Hash (parent : option jobj) (name : option string) : M Hash :=
  container ← get_field parent name;
  require (has_type container json_type_object) ;;
  object ← get_field (Some container) (Some "Type");
  require (has_type object json_type_string) ;;
  let type := json_object_get_string object in
  object2 ← get_field (Some container) (Some "Value");
  require (has_type object2 json_type_string) ;;
  let data := json_object_get_string object2 in
  if strcmp type "MD5" == 0 then Hash_Create_From_String HASH_TYPE_MD5 (Some data)
  else if strcmp type "SHA1" == 0 then Hash_Create_From_String HASH_TYPE_SHA1 (Some data)
  else if strcmp type "SHA224" == 0 then Hash_Create_From_String HASH_TYPE_SHA224 (Some data)
  else if strcmp type "SHA256" == 0 then Hash_Create_From_String HASH_TYPE_SHA256 (Some data)
  else if strcmp type "SHA512" == 0 then Hash_Create_From_String HASH_TYPE_SHA512 (Some data)
  else fail.

Definition JsonBuffer_Put_BlockId (name : option string) (p_pId : option BlockId) : Put :=
  put_child name json_object_new_object
    (match p_pId with
     | None => put_crash
     | Some id =>
         JsonBuffer_Put_Hash (Some "Hash") (bi_pHash id) ;+
         JsonBuffer_Put_uint64_t (Some "Size") (bi_iLength id) ;+
         JsonBuffer_Put_UUID (Some "Data_Type") (bi_uuidDataType id)
     end).

Definition JsonBuffer_Get_BlockId (parent : option jobj) (name : option string) : M BlockId :=
  object ← get_field parent name;
  require (has_type object json_type_object) ;;
  alloc ;;
  hash ← JsonBuffer_Get_Hash (Some object) (Some "Hash");
  size ← JsonBuffer_Get_uint64_t (Some object) (Some "Size");
  type ← JsonBuffer_Get_UUID (Some object) (Some "Data_Type");
  mret (mkBlockId (Some hash) type size).

Definition JsonBuffer_Put_EventId (name : option string) (p_pEventId : option EventId) : Put :=
  put_child name json_object_new_object
    (put_child (Some "Nugget") json_object_new_object
       (match p_pEventId with
        | None => put_crash
        | Some id => JsonBuffer_Put_UUID (Some "Id") (ei_uuidNuggetId id)
        end) ;+
     match p_pEventId with
     | None => put_crash
     | Some id =>
         JsonBuffer_Put_uint64_t (Some "Seconds") (ei_iSeconds id) ;+
         JsonBuffer_Put_uint64_t (Some "Nano_Seconds") (ei_iNanoSecs id)
     end).

Definition JsonBuffer_Get_EventId (parent : option jobj) (name : option string) : M EventId :=
  container ← get_field parent name;
  require (has_type container json_type_object) ;;
  object ← get_field (Some container) (Some "Nugget");
  require (has_type object json_type_object) ;;
  alloc ;;
  uuid ← JsonBuffer_Get_UUID (Some object) (Some "Id");
  sec ← JsonBuffer_Get_uint64_t (Some container) (Some "Seconds");
  nsec ← JsonBuffer_Get_uint64_t (Some container) (Some "Nano_Seconds");
  mret (mkEventId uuid sec nsec).

Definition JsonBuffer_Put_Nugget (name : option string) (nugget : option Nugget) : Put :=
  put_child name json_object_new_object
    (match nugget with
     | None => put_crash
     | Some n =>
         JsonBuffer_Put_UUID (Some "Nugget_ID") (n_uuidNuggetId n) ;+
         JsonBuffer_Put_UUID (Some "App_Type") (n_uuidApplicationType n) ;+
         JsonBuffer_Put_UUID (Some "Nugget_Type") (n_uuidNuggetType n) ;+
         JsonBuffer_Put_OptionalString (Some "Name") (n_sName n) ;+
         JsonBuffer_Put_OptionalString (Some "Location") (n_sLocation n) ;+
         JsonBuffer_Put_OptionalString (Some "Contact") (n_sContact n)
     end).

Definition JsonBuffer_Get_Nugget (parent : option jobj) (name : option string) : M Nugget :=
  object ← get_field parent name;
  require (has_type object json_type_object) ;;
  alloc ;;
  id ← JsonBuffer_Get_UUID (Some object) (Some "Nugget_ID");
  app ← JsonBuffer_Get_UUID (Some object) (Some "App_Type");
  type ← JsonBuffer_Get_UUID (Some object) (Some "Nugget_Type");
  sName ← JsonBuffer_Get_OptionalString (Some object) (Some "Name");
  sLocation ← JsonBuffer_Get_OptionalString (Some object) (Some "Location");
  sContact ← JsonBuffer_Get_OptionalString (Some object) (Some "Contact");
  mret (mkNugget id app type sName sLocation sContact None).
End Identifiers.

(** ** Blocks, events and judgments *)

Section Objects.
Context `{JsonC} `{EVP} `{Base64} `{Inet} `{LibUuid}.
Variable sg : UuidLists.

Fixpoint JsonBuffer_Put_Block (name : option string) (p_pBlock : Block) {struct p_pBlock} : Put :=
  match p_pBlock with
  | mkBlock pId pParentId pParentBlock pMetaDataList _ =>
      put_child name json_object_new_object
        (JsonBuffer_Put_BlockId (Some "Id") pId ;+
         put_opt pParentId (fun id => JsonBuffer_Put_BlockId (Some "Parent_Id") (Some id)) ;+
         match pParentBlock with
         | None => put_true
         | Some b => JsonBuffer_Put_Block (Some "Parent") b
         end ;+
         put_opt pMetaDataList (fun l => JsonBuffer_Put_NTLVList sg (Some "Metadata") (Some l)))
  end.

(** [if (json_object_object_get (parent, key) != NULL) x = get (parent, key)] *)
Definition get_opt {A} (parent : jobj) (key : string) (get : M A) : M (option A) :=
  match json_object_object_get parent key with
  | None => mret None
  | Some _ => x ← get; mret (Some x)
  end.

Fixpoint JsonBuffer_Get_Block (fuel : nat) (parent : option jobj) (name : option string) : M Block :=
  match fuel with
  | O => crash
  | S fuel' =>
      object ← get_field parent name;
      require (has_type object json_type_object) ;;
      alloc ;;
      id ← JsonBuffer_Get_BlockId (Some object) (Some "Id");
      parentId ← get_opt object "Parent_Id" (JsonBuffer_Get_BlockId (Some object) (Some "Parent_Id"));
      parentBlock ← get_opt object "Parent" (JsonBuffer_Get_Block fuel' (Some object) (Some "Parent"));
      metadata ← get_opt object "Metadata" (JsonBuffer_Get_NTLVList sg (Some object) (Some "Metadata"));
      mret (mkBlock (Some id) parentId parentBlock metadata no_data)
  end.

Fixpoint JsonBuffer_Put_Event (name : option string) (p_pEvent : Event) {struct p_pEvent} : Put :=
  match p_pEvent with
  | mkEvent pId pParentId pParent _ pBlock pMetaDataList =>
      put_child name json_object_new_object
        (JsonBuffer_Put_EventId (Some "Id") pId ;+
         put_opt pParentId (fun id => JsonBuffer_Put_EventId (Some "Parent_Id") (Some id)) ;+
         match pParent with
         | None => put_true
         | Some e => JsonBuffer_Put_Event (Some "Parent") e
         end ;+
         put_opt pMetaDataList (fun l => JsonBuffer_Put_NTLVList sg (Some "Metadata") (Some l)) ;+
         put_opt pBlock (fun b => JsonBuffer_Put_Block (Some "Block") b))
  end.

Fixpoint JsonBuffer_Get_Event (fuel : nat) (parent : option jobj) (name : option string) : M Event :=
  match fuel with
  | O => crash
  | S fuel' =>
      object ← get_field parent name;
      require (has_type object json_type_object) ;;
      alloc ;;
      id ← JsonBuffer_Get_EventId (Some object) (Some "Id");
      parentId ← get_opt object "Parent_Id" (JsonBuffer_Get_EventId (Some object) (Some "Parent_Id"));
      parentEvent ← get_opt object "Parent" (JsonBuffer_Get_Event fuel' (Some object) (Some "Parent"));
      metadata ← (match json_object_object_get object "Metadata" with
                  | Some _ => JsonBuffer_Get_NTLVList sg (Some object) (Some "Metadata")
                  | None => NTLVList_Create
                  end);
      block ← get_opt object "Block" (JsonBuffer_Get_Block fuel' (Some object) (Some "Block"));
      mret (mkEvent (Some id) parentId parentEvent uuid_null block (Some metadata))
  end.

Definition JsonBuffer_Put_JudgmentFields (judgment : option Judgment) : Put :=
  match judgment with
  | None => put_false
  | Some j =>
      JsonBuffer_Put_UUID (Some "Nugget_ID") (j_uuidNuggetId j) ;+
      JsonBuffer_Put_uint64_t (Some "Seconds") (j_iSeconds j) ;+
      JsonBuffer_Put_uint64_t (Some "Nano_Seconds") (j_iNanoSecs j) ;+
      JsonBuffer_Put_EventId (Some "Event_ID") (j_pEventId j) ;+
      JsonBuffer_Put_BlockId (Some "Block_ID") (j_pBlockId j) ;+
      JsonBuffer_Put_uint8_t (Some "Priority") (j_iPriority j) ;+
      JsonBuffer_Put_NTLVList sg (Some "Metadata") (j_pMetaDataList j) ;+
      JsonBuffer_Put_uint32_t (Some "GID") (j_iGID j) ;+
      JsonBuffer_Put_uint32_t (Some "SID") (j_iSID j) ;+
      JsonBuffer_Put_uint32_t (Some "Set_SF_Flags") (j_Set_SfFlags j) ;+
      JsonBuffer_Put_uint32_t (Some "Set_Ent_Flags") (j_Set_EntFlags j) ;+
      JsonBuffer_Put_uint32_t (Some "Unset_SF_Flags") (j_Unset_SfFlags j) ;+
      JsonBuffer_Put_uint32_t (Some "Unset_Ent_Flags") (j_Unset_EntFlags j) ;+
      JsonBuffer_Put_OptionalString (Some "Message") (j_sMessage j)
  end.

Definition JsonBuffer_Put_Judgment (name : option string) (p_pJudgment : option Judgment) : Put :=
  put_child name json_object_new_object (JsonBuffer_Put_JudgmentFields p_pJudgment).

Definition JsonBuffer_Get_Judgment (parent : option jobj) (name : option string) : M Judgment :=
  object ← get_field parent name;
  require (has_type object json_type_object) ;;
  alloc ;;
  nugget ← JsonBuffer_Get_UUID (Some object) (Some "Nugget_ID");
  sec ← JsonBuffer_Get_uint64_t (Some object) (Some "Seconds");
  nsec ← JsonBuffer_Get_uint64_t (Some object) (Some "Nano_Seconds");
  eventId ← JsonBuffer_Get_EventId (Some object) (Some "Event_ID");
  blockId ← JsonBuffer_Get_BlockId (Some object) (Some "Block_ID");
  priority ← JsonBuffer_Get_uint8_t (Some object) (Some "Priority");
  metadata ← JsonBuffer_Get_NTLVList sg (Some object) (Some "Metadata");
  gid ← JsonBuffer_Get_uint32_t (Some object) (Some "GID");
  sid ← JsonBuffer_Get_uint32_t (Some object) (Some "SID");
  setSf ← JsonBuffer_Get_uint32_t (Some object) (Some "Set_SF_Flags");
  setEnt ← JsonBuffer_Get_uint32_t (Some object) (Some "Set_Ent_Flags");
  unsetSf ← JsonBuffer_Get_uint32_t (Some object) (Some "Unset_SF_Flags");
  unsetEnt ← JsonBuffer_Get_uint32_t (Some object) (Some "Unset_Ent_Flags");
  message ← JsonBuffer_Get_OptionalString (Some object) (Some "Message");
  mret (mkJudgment nugget sec nsec (Some eventId) (Some blockId) priority (Some metadata)
          gid sid setSf setEnt unsetSf unsetEnt message).
End Objects.

(** ** Lists *)

Section Lists.
Context `{JsonC} `{LibUuid}.

(** The object is added to the array only when all its fields are there. *)
Definition JsonBuffer_Put_UUIDList_Add (node : UUIDListNode) (array : jobj) (o : allocs)
    : option (Z * jobj * allocs) :=
  let '(ok, o) := alloc_next o in
  if negb ok then Some (LIST_EACH_ERROR, array, o)
  else
    '(ok, object, o) ←
      (JsonBuffer_Put_String (Some "id") (uuid_unparse (un_uuid node)) ;+
       (if strlen (un_sName node) == 0 then put_false
        else JsonBuffer_Put_String (Some "name") (un_sName node)) ;+
       put_opt (un_sDescription node) (fun d => JsonBuffer_Put_String (Some "description") d))
      (Some json_object_new_object) o;
    if (ok : bool) then object ← object; Some (LIST_EACH_OK, json_object_array_add array object, o)
    else Some (LIST_EACH_ERROR, array, o).

Definition JsonBuffer_Put_UUIDList (name : option string) (list : option uuid_list) : Put :=
  put_child name json_object_new_array (put_each list JsonBuffer_Put_UUIDList_Add).

Definition JsonBuffer_Get_UUIDList (parent : option jobj) (name : option string) : M uuid_list :=
  object ← get_field parent name;
  require (has_type object json_type_array) ;;
  l ← UUID_Create_List;
  r ← array_for (fun entry acc =>
        e ← nonnull entry;
        require (has_type e json_type_object) ;;
        uuidS ← JsonBuffer_Get_String (Some e) (Some "id");
        nameS ← JsonBuffer_Get_String (Some e) (Some "name");
        require (strlen nameS != 0) ;;
        desc ← JsonBuffer_Get_OptionalString (Some e) (Some "description");
        uuid ← nonnull (uuid_parse uuidS);
        UUID_Add_List_Entry acc uuid (Some nameS) desc) object (Some l);
  deref r.

Definition JsonBuffer_Put_StringList_Add (node : string) (array : jobj) (o : allocs)
    : option (Z * jobj * allocs) :=
  let '(ok, o) := alloc_next o in
  if negb ok then Some (LIST_EACH_ERROR, array, o)
  else Some (LIST_EACH_OK, json_object_array_add array (json_object_new_string node), o).

(** The result of the iteration is not looked at. *)
Definition JsonBuffer_Put_StringList (name : option string) (list : option string_list) : Put :=
  put_child name json_object_new_array (fun parent o =>
    '(_, array, o) ← put_each list JsonBuffer_Put_StringList_Add parent o;
    Some (true, array, o)).

Definition JsonBuffer_Get_StringList (parent : option jobj) (name : option string) : M string_list :=
  object ← get_field parent name;
  require (has_type object json_type_array) ;;
  l ← StringList_Create;
  r ← array_for (fun entry acc =>
        e ← nonnull entry;
        require (has_type e json_type_string) ;;
        StringList_Add acc (Some (json_object_get_string e))) object (Some l);
  deref r.

(** The loop of [JsonBuffer_Put_uint8List]. *)
Fixpoint put_uint8s (list : list Z) : Put :=
  match list with
  | [] => put_true
  | x :: list' => fun parent o =>
      let '(ok, o) := alloc_next o in
      if negb ok then Some (false, parent, o)
      else array ← parent;
           put_uint8s list' (Some (json_object_array_add array (json_object_new_int x))) o
  end.

Definition JsonBuffer_Put_uint8List (name : option string) (items : list Z) : Put :=
  put_child name json_object_new_array (put_uint8s items).

(** The count is a [uint32_t]; the entries are truncated to a byte; an empty
    array needs no allocation. *)
Definition JsonBuffer_Get_uint8List (parent : option jobj) (name : option string) : M (list Z) :=
  object ← get_field parent name;
  require (has_type object json_type_array) ;;
  let c := Z.to_nat (u32 (Z.of_nat (json_object_array_length object))) in
  (if (c =? 0)%nat then mret () else alloc) ;;
  array_loop (fun entry acc =>
    e ← nonnull entry;
    require (has_type e json_type_int) ;;
    mret (acc ++ [u8 (json_object_get_int e)])) object c 0 [].
End Lists.
