(* ===== verification/Metadata.v ===== *)
(** * Metadata: src/metadata.c

    The functions that add and look up metadata of a known kind: they look up the UUIDs of
    the name and of the type and call [NTLVList_Add] and [NTLVList_Get].  A function
    that adds yields the list after the call; a pointer into the list that a lookup
    returns is the data it points to. *)

From S2P Require Import Prelude CLib RzbList RzbListProps ListM Hash LibUuid Uuids Ntlv Blocks JsonC JsonBuffer.

Local Open Scope Z_scope.

Definition NTLV_NAME_SOURCE : string := "SOURCE".
Definition NTLV_NAME_DEST : string := "DEST".
Definition NTLV_NAME_HOSTNAME : string := "HOSTNAME".
Definition NTLV_NAME_MALWARENAME : string := "MALWARENAME".
Definition NTLV_NAME_REPORT : string := "REPORT".
Definition NTLV_NAME_CVE : string := "CVE".
Definition NTLV_NAME_BID : string := "BID".
Definition NTLV_NAME_OSVDB : string := "OSVDB".
Definition NTLV_NAME_URI : string := "URI".
Definition NTLV_NAME_HTTP_REQUEST : string := "HTTP_REQUEST".
Definition NTLV_NAME_HTTP_RESPONSE : string := "HTTP_RESPONSE".

Section Metadata.
Context `{LibUuid}.
Variable sg : UuidLists.

(** The UUID of a registered type and of a registered name. *)
Definition type_uuid (type : string) : M uuid_t := UUID_Get_UUID sg type UUID_TYPE_NTLV_TYPE.
Definition name_uuid (name : string) : M uuid_t := UUID_Get_UUID sg name UUID_TYPE_NTLV_NAME.

(** ** Values of a type *)

Definition Metadata_Add_String (p : option ntlv_list) (name : uuid_t) (text : string) : M (option ntlv_list) :=
  uuidType ← type_uuid NTLV_TYPE_STRING;
  NTLVList_Add p name uuidType (u32 (strlen text + 1)) (Some (bytes_of_cstr text)).

Definition Metadata_Get_String (p : option ntlv_list) (name : uuid_t) : M (Z * list Z) :=
  uuidType ← type_uuid NTLV_TYPE_STRING;
  NTLVList_Get p name uuidType.

Definition Metadata_Add_IPv4 (p : option ntlv_list) (name : uuid_t) (addr : option (list Z)) : M (option ntlv_list) :=
  uuidType ← type_uuid NTLV_TYPE_IPv4_ADDR;
  NTLVList_Add p name uuidType 4 addr.

Definition Metadata_Get_IPv4 (p : option ntlv_list) (name : uuid_t) : M (list Z) :=
  uuidType ← type_uuid NTLV_TYPE_IPv4_ADDR;
  '(_, addr) ← NTLVList_Get p name uuidType;
  mret addr.

Definition Metadata_Add_IPv6 (p : option ntlv_list) (name : uuid_t) (addr : option (list Z)) : M (option ntlv_list) :=
  uuidType ← type_uuid NTLV_TYPE_IPv6_ADDR;
  NTLVList_Add p name uuidType 16 addr.

Definition Metadata_Get_IPv6 (p : option ntlv_list) (name : uuid_t) : M (list Z) :=
  uuidType ← type_uuid NTLV_TYPE_IPv6_ADDR;
  '(_, addr) ← NTLVList_Get p name uuidType;
  mret addr.

Definition Metadata_Add_Port (p : option ntlv_list) (name : uuid_t) (port : Z) : M (option ntlv_list) :=
  uuidType ← type_uuid NTLV_TYPE_PORT;
  NTLVList_Add p name uuidType 2 (Some (bytes_of_u16 port)).

(** The port, and the data that the function frees: they are those of the item it found,
    which stays in the list. *)
Definition Metadata_Get_Port (p : option ntlv_list) (name : uuid_t) : M (Z * list Z) :=
  uuidType ← type_uuid NTLV_TYPE_PORT;
  '(_, lPort) ← NTLVList_Get p name uuidType;
  bs ← deref (read_bytes lPort 2);
  mret (u16_of_bytes bs, lPort).

(** ** Values of a name *)

Definition Metadata_Add_Filename (p : option ntlv_list) (text : string) : M (option ntlv_list) :=
  uuidName ← name_uuid NTLV_NAME_FILENAME;
  Metadata_Add_String p uuidName text.

Definition Metadata_Add_Hostname (p : option ntlv_list) (text : string) : M (option ntlv_list) :=
  uuidName ← name_uuid NTLV_NAME_HOSTNAME;
  Metadata_Add_String p uuidName text.

Definition Metadata_Add_URI (p : option ntlv_list) (text : string) : M (option ntlv_list) :=
  uuidName ← name_uuid NTLV_NAME_URI;
  Metadata_Add_String p uuidName text.

Definition Metadata_Add_HttpRequest (p : option ntlv_list) (text : string) : M (option ntlv_list) :=
  uuidName ← name_uuid NTLV_NAME_HTTP_REQUEST;
  Metadata_Add_String p uuidName text.

Definition Metadata_Add_HttpResponse (p : option ntlv_list) (text : string) : M (option ntlv_list) :=
  uuidName ← name_uuid NTLV_NAME_HTTP_RESPONSE;
  Metadata_Add_String p uuidName text.

Definition Metadata_Add_Report (p : option ntlv_list) (text : string) : M (option ntlv_list) :=
  uuidName ← name_uuid NTLV_NAME_REPORT;
  Metadata_Add_String p uuidName text.

Definition Metadata_Add_CVE (p : option ntlv_list) (text : string) : M (option ntlv_list) :=
  uuidName ← name_uuid NTLV_NAME_CVE;
  Metadata_Add_String p uuidName text.

Definition Metadata_Add_BID (p : option ntlv_list) (text : string) : M (option ntlv_list) :=
  uuidName ← name_uuid NTLV_NAME_BID;
  Metadata_Add_String p uuidName text.

Definition Metadata_Add_OSVDB (p : option ntlv_list) (text : string) : M (option ntlv_list) :=
  uuidName ← name_uuid NTLV_NAME_OSVDB;
  Metadata_Add_String p uuidName text.

Definition Metadata_Add_MalwareName (p : option ntlv_list) (vendor name : string) : M (option ntlv_list) :=
  uuidName ← name_uuid NTLV_NAME_MALWARENAME;
  alloc ;;
  Metadata_Add_String p uuidName (vendor +:+ ":" +:+ name).

Definition Metadata_Add_IPv4_Source (p : option ntlv_list) (addr : option (list Z)) : M (option ntlv_list) :=
  uuidName ← name_uuid NTLV_NAME_SOURCE;
  Metadata_Add_IPv4 p uuidName addr.

Definition Metadata_Get_IPv4_Source (p : option ntlv_list) : M (list Z) :=
  uuidName ← name_uuid NTLV_NAME_SOURCE;
  Metadata_Get_IPv4 p uuidName.

Definition Metadata_Add_IPv6_Source (p : option ntlv_list) (addr : option (list Z)) : M (option ntlv_list) :=
  uuidName ← name_uuid NTLV_NAME_SOURCE;
  Metadata_Add_IPv6 p uuidName addr.

Definition Metadata_Get_IPv6_Source (p : option ntlv_list) : M (list Z) :=
  uuidName ← name_uuid NTLV_NAME_SOURCE;
  Metadata_Get_IPv6 p uuidName.

Definition Metadata_Add_Port_Source (p : option ntlv_list) (port : Z) : M (option ntlv_list) :=
  uuidName ← name_uuid NTLV_NAME_SOURCE;
  Metadata_Add_Port p uuidName port.

Definition Metadata_Get_Port_Source (p : option ntlv_list) : M (Z * list Z) :=
  uuidName ← name_uuid NTLV_NAME_SOURCE;
  Metadata_Get_Port p uuidName.

Definition Metadata_Add_IPv4_Destination (p : option ntlv_list) (addr : option (list Z)) : M (option ntlv_list) :=
  uuidName ← name_uuid NTLV_NAME_DEST;
  Metadata_Add_IPv4 p uuidName addr.

Definition Metadata_Get_IPv4_Destination (p : option ntlv_list) : M (list Z) :=
  uuidName ← name_uuid NTLV_NAME_DEST;
  Metadata_Get_IPv4 p uuidName.

Definition Metadata_Add_IPv6_Destination (p : option ntlv_list) (addr : option (list Z)) : M (option ntlv_list) :=
  uuidName ← name_uuid NTLV_NAME_DEST;
  Metadata_Add_IPv6 p uuidName addr.

Definition Metadata_Get_IPv6_Destination (p : option ntlv_list) : M (list Z) :=
  uuidName ← name_uuid NTLV_NAME_DEST;
  Metadata_Get_IPv6 p uuidName.

Definition Metadata_Add_Port_Destination (p : option ntlv_list) (port : Z) : M (option ntlv_list) :=
  uuidName ← name_uuid NTLV_NAME_DEST;
  Metadata_Add_Port p uuidName port.

Definition Metadata_Get_Port_Destination (p : option ntlv_list) : M (Z * list Z) :=
  uuidName ← name_uuid NTLV_NAME_DEST;
  Metadata_Get_Port p uuidName.

End Metadata.

(** ** Theorems *)

Section Theorems.
Context `{LibUuidLaws}.
Variable sg : UuidLists.
Variable types names : list UUIDListNode.
Hypothesis metadata_types_entries : entries (UUID_Get_List sg UUID_TYPE_NTLV_TYPE) types.
Hypothesis metadata_names_entries : entries (UUID_Get_List sg UUID_TYPE_NTLV_NAME) names.

Lemma type_uuid_run t u o : named t types = Some u -> type_uuid sg t o = Some (Some (un_uuid u), o).
Proof. intros Hu. unfold type_uuid. rewrite (Get_UUID_entries sg _ types _ _ metadata_types_entries). by rewrite Hu. Qed.

Lemma name_uuid_run n u o : named n names = Some u -> name_uuid sg n o = Some (Some (un_uuid u), o).
Proof. intros Hu. unfold name_uuid. rewrite (Get_UUID_entries sg _ names _ _ metadata_names_entries). by rewrite Hu. Qed.

(** No item is found under these UUIDs. *)
Definition unused (xs : list NTLVItem) (name type : uuid_t) : Prop := Forall (fun x => nt_uuidName x <> name /\ nt_uuidName x <> type) xs.

Lemma Get_appended p xs name type x : metadata p (xs ++ [x]) -> unused xs name type -> nt_uuidName x = name ->
  NTLVList_Get p name type [] = Some (Some (nt_iLength x, nt_pData x), []).
Proof.
  intros Hm Hx Hn. rewrite (NTLVList_Get_first _ _ _ _ _ Hm), find_first_app.
  replace (find_first _ xs) with (@None NTLVItem).
  - cbn [find_first]. by rewrite bool_decide_eq_true_2.
  - symmetry. apply find_first_None. eapply Forall_impl; [exact Hx|]. intros y [? ?]. rewrite !bool_decide_eq_false_2; [done|congruence..].
Qed.

(** The first item of a name is found whatever its type. *)
Lemma Get_first_named p x xs type : metadata p (x :: xs) -> NTLVList_Get p (nt_uuidName x) type [] = Some (Some (nt_iLength x, nt_pData x), []).
Proof. intros Hm. rewrite (NTLVList_Get_first _ _ _ _ _ Hm). cbn [find_first]. by rewrite bool_decide_eq_true_2. Qed.

(** An IPv4 address, an IPv6 address, a port or a text that is added under a name no
    item has is what the lookup of its kind returns, the text with its terminator. *)
Theorem Metadata_Add_Get p xs n t4 t6 tp ts a4 a6 port text : metadata p xs ->
  named NTLV_TYPE_IPv4_ADDR types = Some t4 -> named NTLV_TYPE_IPv6_ADDR types = Some t6 ->
  named NTLV_TYPE_PORT types = Some tp -> named NTLV_TYPE_STRING types = Some ts ->
  Forall (fun t => unused xs n (un_uuid t)) [t4; t6; tp; ts] ->
  length a4 = 4%nat -> length a6 = 16%nat -> in_width 16 port -> strlen text + 1 < 2 ^ 32 ->
  (exists p', Metadata_Add_IPv4 sg p n (Some a4) [] = Some (Some p', []) /\ Metadata_Get_IPv4 sg p' n [] = Some (Some a4, [])) /\
  (exists p', Metadata_Add_IPv6 sg p n (Some a6) [] = Some (Some p', []) /\ Metadata_Get_IPv6 sg p' n [] = Some (Some a6, [])) /\
  (exists p', Metadata_Add_Port sg p n port [] = Some (Some p', []) /\
    Metadata_Get_Port sg p' n [] = Some (Some (port, bytes_of_u16 port), [])) /\
  (exists p', Metadata_Add_String sg p n text [] = Some (Some p', []) /\
    Metadata_Get_String sg p' n [] = Some (Some (strlen text + 1, bytes_of_cstr text), [])).
Proof.
  intros Hm E4 E6 Ep Es Hu L4 L6 Hp Ht. rewrite !Forall_cons in Hu. destruct Hu as (U4 & U6 & Up & Us & _).
  assert (Hadd : forall t ty size d, named t types = Some ty -> unused xs n (un_uuid ty) -> 0 < size -> size = Z.of_nat (length d) ->
    exists p', (uuidType ← type_uuid sg t; NTLVList_Add p n uuidType size (Some d)) [] = Some (Some p', []) /\
      (uuidType ← type_uuid sg t; NTLVList_Get p' n uuidType) [] = Some (Some (size, d), [])).
  { intros t ty size d Et Hun Hs Hl. destruct (NTLVList_Add_ok p xs n (un_uuid ty) size d Hm) as (p' & E & Hm'); [lia|]. exists p'.
    rewrite !(M_bind_ok _ _ _ _ _ (type_uuid_run _ _ [] Et)). split; [done|]. rewrite (Get_appended p' xs n _ _ Hm' Hun) by done. simpl.
    rewrite take_ge by lia. done. }
  assert (Hget : forall (t : string) p' d size, (uuidType ← type_uuid sg t; NTLVList_Get p' n uuidType) [] = Some (Some (size, d), []) ->
    forall (A : Type) (k : Z * list Z -> M A), (uuidType ← type_uuid sg t; x ← NTLVList_Get p' n uuidType; k x) [] = k (size, d) []).
  { intros t p' d size E A k. unfold mbind, M_bind in E |- *. destruct (type_uuid sg t []) as [[[u|] o]|]; [|done|done]. by rewrite E. }
  split_and!.
  - destruct (Hadd _ t4 4 a4 E4 U4) as (p' & E & G); [lia|lia|]. exists p'. split; [exact E|]. unfold Metadata_Get_IPv4. by rewrite (Hget _ _ _ _ G).
  - destruct (Hadd _ t6 16 a6 E6 U6) as (p' & E & G); [lia|lia|]. exists p'. split; [exact E|]. unfold Metadata_Get_IPv6. by rewrite (Hget _ _ _ _ G).
  - destruct (Hadd _ tp 2 (bytes_of_u16 port) Ep Up) as (p' & E & G); [lia|done|]. exists p'. split; [exact E|]. unfold Metadata_Get_Port.
    rewrite (Hget _ _ _ _ G). pose proof (Z.div_mod port 256 ltac:(lia)) as Hd.
    assert (Eu : u16_of_bytes (bytes_of_u16 port) = port) by (unfold u16_of_bytes, bytes_of_u16; lia). rewrite <- Eu at 2. done.
  - destruct (Hadd _ ts (strlen text + 1) (bytes_of_cstr text) Es Us) as (p' & E & G); [unfold strlen; lia|by rewrite length_bytes_of_cstr|].
    exists p'. unfold Metadata_Add_String. replace (u32 (strlen text + 1)) with (strlen text + 1); [by split|]. symmetry. apply wrap_small.
    unfold in_width, strlen in *. lia.
Qed.

(** The source port of an event cannot be looked up when its source address is stored
    before it, as both have the name of the source: [Metadata_Get_Port_Source] returns the
    first two bytes of the address as the port, and frees the address, which stays in the
    list. *)
Theorem Metadata_Get_Port_Source_returns_address p n t4 tp addr port : metadata p [] ->
  named NTLV_NAME_SOURCE names = Some n -> named NTLV_TYPE_IPv4_ADDR types = Some t4 -> named NTLV_TYPE_PORT types = Some tp ->
  length addr = 4%nat ->
  exists p1 p2, Metadata_Add_IPv4_Source sg p (Some addr) [] = Some (Some p1, []) /\
    Metadata_Add_Port_Source sg p1 port [] = Some (Some p2, []) /\
    metadata p2 [mkNTLV (un_uuid n) (un_uuid t4) 4 addr; mkNTLV (un_uuid n) (un_uuid tp) 2 (bytes_of_u16 port)] /\
    Metadata_Get_Port_Source sg p2 [] = Some (Some (u16_of_bytes (take 2 addr), addr), []).
Proof.
  intros Hm En E4 Ep Hl. destruct (NTLVList_Add_ok p [] (un_uuid n) (un_uuid t4) 4 addr Hm) as (p1 & A1 & M1); [lia|].
  destruct (NTLVList_Add_ok p1 _ (un_uuid n) (un_uuid tp) 2 (bytes_of_u16 port) M1) as (p2 & A2 & M2); [done|].
  replace (take (Z.to_nat 4) addr) with addr in M1, M2 by (by rewrite take_ge by lia). exists p1, p2.
  unfold Metadata_Add_IPv4_Source, Metadata_Add_Port_Source, Metadata_Get_Port_Source.
  rewrite !(M_bind_ok _ _ _ _ _ (name_uuid_run _ _ [] En)). unfold Metadata_Add_IPv4, Metadata_Add_Port, Metadata_Get_Port.
  rewrite (M_bind_ok _ _ _ _ _ (type_uuid_run _ _ [] E4)), !(M_bind_ok _ _ _ _ _ (type_uuid_run _ _ [] Ep)).
  split_and!; [done..|]. rewrite (M_bind_ok _ _ _ _ _ (Get_first_named p2 _ _ (un_uuid tp) M2)). simpl nt_pData.
  unfold read_bytes. replace (Z.of_nat (length addr) <? 2) with false by lia. simpl deref. by rewrite M_ret_bind.
Qed.
End Theorems.

(** ** Witnesses *)

Module metadata_demo.
Import bytes16.
Definition ipv4 : UUIDListNode := mkUUIDNode (uuid_demo.uuid 1) "IPv4_ADDR" None.
Definition port : UUIDListNode := mkUUIDNode (uuid_demo.uuid 2) "PORT" None.
Definition source : UUIDListNode := mkUUIDNode (uuid_demo.uuid 3) "SOURCE" None.
Definition sg : UuidLists :=
  mkUuidLists None None (uuid_demo.add (uuid_demo.add uuid_demo.list0 ipv4) port) (uuid_demo.add uuid_demo.list0 source) None None.

Lemma list0_entries : entries uuid_demo.list0 [].
Proof. unfold uuid_demo.list0. by destruct Create_List_ok as (l & -> & ?). Qed.
Lemma metadata_types_entries : entries (UUID_Get_List sg UUID_TYPE_NTLV_TYPE) [ipv4; port].
Proof. apply (uuid_demo.add_entries _ [_]); [|done]. apply (uuid_demo.add_entries _ []); [apply list0_entries|done]. Qed.
Lemma metadata_names_entries : entries (UUID_Get_List sg UUID_TYPE_NTLV_NAME) [source].
Proof. apply (uuid_demo.add_entries _ []); [apply list0_entries|done]. Qed.
End metadata_demo.

Lemma Metadata_Get_Port_Source_returns_address_witness : exists p p1 p2, metadata p [] /\
  Metadata_Add_IPv4_Source metadata_demo.sg p (Some [10; 0; 0; 1]) [] = Some (Some p1, []) /\
  Metadata_Add_Port_Source metadata_demo.sg p1 8080 [] = Some (Some p2, []) /\
  Metadata_Get_Port_Source metadata_demo.sg p2 [] = Some (Some (10, [10; 0; 0; 1]), []).
Proof.
  destruct Create_metadata_ok as (l & _ & Hm).
  destruct (Metadata_Get_Port_Source_returns_address metadata_demo.sg _ _ metadata_demo.metadata_types_entries metadata_demo.metadata_names_entries (Some l)
    metadata_demo.source metadata_demo.ipv4 metadata_demo.port [10; 0; 0; 1] 8080 Hm eq_refl eq_refl eq_refl eq_refl) as (p1 & p2 & A1 & A2 & _ & G).
  exists (Some l), p1, p2. split_and!; [exact Hm|exact A1|exact A2|exact G].
Defined.
