(* ===== verification/JsonCodec.v ===== *)
(** * What serialization produces, and reading it back

    [encodes s P n v] says that the call [P] adds the value [v] under the key [n]
    to its parent or reports failure, and that it succeeds when no allocation
    fails; with [s = false] the claim is restricted to runs without allocation
    failures.  The lemmas compose it along the structure of json_buffer.c; the
    [enc_...] functions are the values. *)

From S2P Require Import Prelude CLib RzbList RzbListProps ListM Hash LibUuid Uuids Ntlv Blocks JsonC JsonBuffer.

(** Fields that are only there for non-NULL pointers. *)
Definition opt_field {A} (k : string) (v : option A) : list (string * A) :=
  match v with Some x => [(k, x)] | None => [] end.

Section Combinators.
Context `{JsonCLaws}.

Definition allowed (s : bool) (o : allocs) : Prop := s = true \/ o = [].

(** The result of a call: no crash, the parent is [good] when it returned true,
    and it returns true without allocation failures. *)
Definition outcome (s : bool) (r : option (bool * option jobj * allocs)) (o : allocs) (good : jobj) : Prop :=
  exists b p' o', r = Some (b, Some p', o') /\ allowed s o' /\
    (b = true -> p' = good) /\ (o = [] -> b = true /\ o' = []).

Definition encodes (s : bool) (P : Put) (n : string) (v : jobj) : Prop :=
  forall p o, allowed s o -> outcome s (P (Some p) o) o (json_object_object_add p n v).

Definition fills (s : bool) (P : Put) (fs : list (string * jobj)) : Prop :=
  forall fs0 o, allowed s o -> outcome s (P (Some (build fs0)) o) o (build (fs0 ++ fs)).

(** The same for a computation that does not touch the parent. *)
Definition yields {A} (s : bool) (m : M A) (x : A) : Prop := forall o, allowed s o ->
  exists r o', m o = Some (r, o') /\ allowed s o' /\
    (forall y, r = Some y -> y = x) /\ (o = [] -> r = Some x /\ o' = []).

Lemma allowed_nil s : allowed s [].
Proof. by right. Qed.

Lemma allowed_next s o : allowed s o -> allowed s (snd (alloc_next o)).
Proof. intros [->| ->]; [by left|by right]. Qed.

Lemma encodes_mono s P n v : encodes true P n v -> encodes s P n v.
Proof.
  intros He p o Ho. destruct (He p o (or_introl eq_refl)) as (b & p' & o' & E & _ & Hb & Hn).
  exists b, p', o'. split_and!; try done. destruct Ho as [->| ->]; [by left|right; by apply Hn].
Qed.

(** *** Computations *)

Lemma yields_ret {A} s (x : A) : yields s (mret x) x.
Proof. intros o Ho. exists (Some x), o. split_and!; try done. by intros y [= <-]. Qed.

Lemma yields_alloc s : yields s alloc ().
Proof.
  intros o Ho. eexists _, _. split; [apply alloc_eq|]. split_and!; [by apply allowed_next|by intros []|].
  by intros ->.
Qed.

Lemma yields_require s b : b = true -> yields s (require b) ().
Proof. intros ->. apply yields_ret. Qed.

Lemma yields_nonnull {A} s (p : option A) x : p = Some x -> yields s (nonnull p) x.
Proof. intros ->. apply yields_ret. Qed.

Lemma yields_deref {A} s (p : option A) x : p = Some x -> yields s (deref p) x.
Proof. intros ->. apply yields_ret. Qed.

Lemma yields_bind {A B} s (m : M A) (f : A -> M B) x y :
  yields s m x -> yields s (f x) y -> yields s (m ≫= f) y.
Proof.
  intros Hm Hf o Ho. destruct (Hm o Ho) as (r & o1 & E & Ho1 & Hr & Hn).
  unfold mbind, M_bind. rewrite E. destruct r as [x'|].
  - assert (x' = x) as -> by by apply Hr. destruct (Hf o1 Ho1) as (r2 & o2 & E2 & Ho2 & Hr2 & Hn2).
    exists r2, o2. split_and!; try done. intros Ho'. apply Hn2, Hn, Ho'.
  - exists None, o1. split_and!; try done; intros Ho'; by destruct (Hn Ho').
Qed.

Lemma yields_eq {A} s (m : M A) x : (forall o, m o = (mret x : M A) o) -> yields s m x.
Proof. intros E o Ho. rewrite E. by apply yields_ret. Qed.

Lemma yields_run {A} (m : M A) x : yields false m x -> m [] = Some (Some x, []).
Proof.
  intros Hm. destruct (Hm [] (allowed_nil _)) as (r & o' & E & _ & _ & Hn).
  destruct (Hn eq_refl) as [-> ->]. done.
Qed.

(** *** Calls on a parent *)

Lemma encodes_fills s P n v : encodes s P n v -> fills s P [(n, v)].
Proof. intros He fs0 o Ho. rewrite build_snoc. by apply He. Qed.

Lemma fills_true s : fills s put_true [].
Proof.
  intros fs0 o Ho. exists true, (build fs0), o. split_and!; try done. intros _. by rewrite app_nil_r.
Qed.

Lemma fills_seq s P Q fs gs : fills s P fs -> fills s Q gs -> fills s (P ;+ Q) (fs ++ gs).
Proof.
  intros HP HQ fs0 o Ho. destruct (HP fs0 o Ho) as (b & p1 & o1 & E & Ho1 & Hb & Hn).
  unfold put_seq. rewrite E. cbn [mbind option_bind]. destruct b.
  - rewrite (Hb eq_refl). rewrite app_assoc.
    destruct (HQ (fs0 ++ fs) o1 Ho1) as (b2 & p2 & o2 & E2 & Ho2 & Hb2 & Hn2).
    exists b2, p2, o2. split_and!; try done. intros Ho'. apply Hn2, Hn, Ho'.
  - exists false, p1, o1. split_and!; try done; intros Ho'; by destruct (Hn Ho').
Qed.

Lemma encodes_seq_true s P n v : encodes s P n v -> encodes s (P ;+ put_true) n v.
Proof.
  intros HP p o Ho. destruct (HP p o Ho) as (b & p1 & o1 & E & Ho1 & Hb & Hn).
  unfold put_seq. rewrite E. cbn [mbind option_bind].
  destruct b; [by exists true, p1, o1|by exists false, p1, o1].
Qed.

Lemma encodes_with {A} s (m : M A) (f : A -> Put) x n v :
  yields s m x -> encodes s (f x) n v -> encodes s (put_with m f) n v.
Proof.
  intros Hm Hf p o Ho. destruct (Hm o Ho) as (r & o1 & E & Ho1 & Hr & Hn).
  unfold put_with. rewrite E. cbn [mbind option_bind]. destruct r as [x'|].
  - assert (x' = x) as -> by by apply Hr. destruct (Hf p o1 Ho1) as (b & p' & o2 & E2 & Ho2 & Hb & Hn2).
    exists b, p', o2. split_and!; try done. intros Ho'. apply Hn2, Hn, Ho'.
  - exists false, p, o1. split_and!; try done; intros Ho'; by destruct (Hn Ho').
Qed.

Lemma fills_with {A} s (m : M A) (f : A -> Put) x fs :
  yields s m x -> fills s (f x) fs -> fills s (put_with m f) fs.
Proof.
  intros Hm Hf fs0 o Ho. destruct (Hm o Ho) as (r & o1 & E & Ho1 & Hr & Hn).
  unfold put_with. rewrite E. cbn [mbind option_bind]. destruct r as [x'|].
  - assert (x' = x) as -> by by apply Hr. destruct (Hf fs0 o1 Ho1) as (b & p' & o2 & E2 & Ho2 & Hb & Hn2).
    exists b, p', o2. split_and!; try done. intros Ho'. apply Hn2, Hn, Ho'.
  - exists false, (build fs0), o1. split_and!; try done; intros Ho'; by destruct (Hn Ho').
Qed.

Lemma encodes_add s n v : encodes s (put_add n v) n v.
Proof. intros p o Ho. by eexists true, _, o. Qed.

Lemma encodes_checked s n (f : string -> Put) v : encodes s (f n) n v -> encodes s (checked (Some n) f) n v.
Proof. done. Qed.

Lemma encodes_value s n v : encodes s (put_value (Some n) v) n v.
Proof. eapply encodes_checked, encodes_with; [apply yields_alloc|apply encodes_add]. Qed.

(** A container whose content is computed from the empty one. *)
Lemma encodes_child s n new fill v :
  (forall o, allowed s o -> outcome s (fill (Some new) o) o v) ->
  encodes s (put_child (Some n) new fill) n v.
Proof.
  intros Hf. eapply encodes_checked, encodes_with; [apply yields_alloc|]. intros p o Ho.
  destruct (Hf o Ho) as (b & c & o1 & E & Ho1 & Hb & Hn). rewrite E. cbn [mbind option_bind].
  eexists b, _, o1. split_and!; try done. intros Hb'. by rewrite (Hb Hb').
Qed.

Lemma encodes_object s n P fs : fills s P fs ->
  encodes s (put_child (Some n) json_object_new_object P) n (build fs).
Proof. intros HP. apply encodes_child. intros o Ho. exact (HP [] o Ho). Qed.

Lemma fills_opt {A} s (p : option A) (f : A -> Put) n (e : A -> jobj) :
  (forall x, p = Some x -> encodes s (f x) n (e x)) ->
  fills s (put_opt p f) (opt_field n (e <$> p)).
Proof. destruct p as [x|]; intros Hf; [by apply encodes_fills, Hf|apply fills_true]. Qed.

Lemma fills_false_mono s P fs : fills true P fs -> fills s P fs.
Proof.
  intros He p o Ho. destruct (He p o (or_introl eq_refl)) as (b & p' & o' & E & _ & Hb & Hn).
  exists b, p', o'. split_and!; try done. destruct Ho as [->| ->]; [by left|right; by apply Hn].
Qed.
End Combinators.

#[export] Hint Resolve yields_ret yields_alloc yields_require yields_nonnull yields_deref : rzb.
#[export] Hint Resolve encodes_fills encodes_value encodes_add fills_true encodes_seq_true : rzb.

(** ** Scalars *)

Section Scalars.
Context `{JsonCLaws} `{Base64Laws} `{LibUuidLaws}.

Definition enc_uint (n : Z) : jobj := json_object_new_uint64 n.
Definition enc_string (t : string) : jobj := json_object_new_string t.
Definition enc_uuid (u : uuid_t) : jobj := build [("id", enc_string (uuid_unparse u))].

Lemma Put_String_encodes s n t : encodes s (JsonBuffer_Put_String (Some n) t) n (enc_string t).
Proof. apply encodes_value. Qed.

Lemma Put_uint64_encodes s n x : encodes s (JsonBuffer_Put_uint64_t (Some n) x) n (enc_uint x).
Proof. apply encodes_value. Qed.

Lemma Put_uint_encodes s n x :
  encodes s (JsonBuffer_Put_uint8_t (Some n) x) n (enc_uint x) /\
  encodes s (JsonBuffer_Put_uint16_t (Some n) x) n (enc_uint x) /\
  encodes s (JsonBuffer_Put_uint32_t (Some n) x) n (enc_uint x).
Proof. split_and!; apply encodes_seq_true, Put_uint64_encodes. Qed.

Lemma Put_OptionalString_fills s n t :
  fills s (JsonBuffer_Put_OptionalString (Some n) t) (opt_field n (enc_string <$> t)).
Proof.
  change (JsonBuffer_Put_OptionalString (Some n) t) with
    (checked (Some n) (fun n => put_opt t (fun v => JsonBuffer_Put_String (Some n) v ;+ put_true))).
  assert (Hf : fills s (put_opt t (fun v => JsonBuffer_Put_String (Some n) v ;+ put_true))
    (opt_field n (enc_string <$> t))).
  { apply fills_opt. intros x _. apply encodes_seq_true, Put_String_encodes. }
  intros fs0 o Ho. exact (Hf fs0 o Ho).
Qed.

Lemma Put_UUID_encodes s n u : encodes s (JsonBuffer_Put_UUID (Some n) u) n (enc_uuid u).
Proof.
  apply encodes_object. apply (fills_seq s _ _ [_] []); [|apply fills_true].
  apply encodes_fills, Put_String_encodes.
Qed.

Lemma Put_ByteArray_encodes s n bs : Z.of_nat (length bs) <= INT_MAX ->
  encodes s (JsonBuffer_Put_ByteArray (Some n) (Z.of_nat (length bs)) (Some bs)) n
    (enc_string (b64_encode bs)).
Proof.
  intros Hl. eapply encodes_checked, encodes_with; [|apply Put_String_encodes].
  eapply yields_bind; [auto with rzb|].
  eapply yields_bind; [apply yields_alloc|]. eapply yields_bind; [apply yields_alloc|].
  eapply (yields_bind _ _ _ bs).
  - destruct (Z.ltb_spec 0 (Z.of_nat (length bs))).
    + eapply yields_bind; [apply yields_require; by apply Z.leb_le|].
      eapply yields_bind; [by apply yields_deref|].
      eapply yields_bind; [apply yields_deref, read_bytes_all|].
      eapply yields_bind; [apply yields_alloc|apply yields_ret].
    + destruct bs; [apply yields_ret|simpl in *; lia].
  - eapply yields_bind; [apply yields_alloc|]. eapply yields_bind; [apply yields_alloc|]. apply yields_ret.
Qed.

(** *** Reading *)

Lemma has_type_arr vs : has_type (arr vs) json_type_array = true.
Proof. unfold has_type. rewrite type_arr. by apply bool_decide_eq_true_2. Qed.

Lemma has_type_build fs : has_type (build fs) json_type_object = true.
Proof. unfold has_type. rewrite type_build. by apply bool_decide_eq_true_2. Qed.

Lemma get_field_build fs n v o : field fs n = Some v ->
  get_field (Some (build fs)) (Some n) o = Some (Some v, o).
Proof. intros E. unfold get_field, nonnull. rewrite !M_ret_bind, object_get_build, E. done. Qed.

Lemma ParseUnsigned_print n max o : in_width 64 n -> n <= max ->
  JsonBuffer_ParseUnsignedText (Some (print_dec n)) max o = Some (Some n, o).
Proof.
  intros Hn Hm. unfold JsonBuffer_ParseUnsignedText, nonnull. rewrite M_ret_bind.
  destruct (print_dec_head n) as (c & t & E & _ & Hc & _); [apply Hn|].
  rewrite (strtoumax_print n Hn), E, Hc. simpl. rewrite (proj2 (Z.leb_le n max) Hm). done.
Qed.

Lemma Get_uint64_reads fs n x : field fs n = Some (enc_uint x) -> in_width 64 x ->
  JsonBuffer_Get_uint64_t (Some (build fs)) (Some n) [] = Some (Some x, []).
Proof.
  intros E Hx. unfold JsonBuffer_Get_uint64_t. rewrite (M_bind_ok _ _ _ _ _ (get_field_build _ _ _ [] E)).
  unfold enc_uint. rewrite type_new_uint64, get_string_uint64 by done.
  apply ParseUnsigned_print; [done|]. unfold in_width in Hx. unfold UINT64_MAX. lia.
Qed.

Lemma Get_uint32_reads fs n x : field fs n = Some (enc_uint x) -> in_width 32 x ->
  JsonBuffer_Get_uint32_t (Some (build fs)) (Some n) [] = Some (Some x, []).
Proof.
  intros E Hx. unfold JsonBuffer_Get_uint32_t.
  rewrite (M_bind_ok _ _ _ _ _ (Get_uint64_reads fs n x E ltac:(unfold in_width in *; lia))), require_bind.
  unfold UINT32_MAX, u32. destruct (Z.leb_spec x (2 ^ 32 - 1)); [|unfold in_width in Hx; lia].
  by rewrite wrap_small.
Qed.

Lemma Get_uint8_reads fs n x : field fs n = Some (enc_uint x) -> in_width 8 x ->
  JsonBuffer_Get_uint8_t (Some (build fs)) (Some n) [] = Some (Some x, []).
Proof.
  intros E Hx. unfold JsonBuffer_Get_uint8_t. rewrite (M_bind_ok _ _ _ _ _ (get_field_build _ _ _ [] E)).
  unfold enc_uint, has_type. rewrite type_new_uint64, require_bind, get_string_uint64
    by (unfold in_width in *; lia).
  rewrite bool_decide_eq_true_2 by done.
  rewrite (M_bind_ok _ _ _ x []); [unfold u8; by rewrite wrap_small|].
  apply ParseUnsigned_print; unfold in_width, UINT8_MAX in *; lia.
Qed.

Lemma Get_uint16_reads fs n x : field fs n = Some (enc_uint x) -> in_width 16 x ->
  JsonBuffer_Get_uint16_t (Some (build fs)) (Some n) [] = Some (Some x, []).
Proof.
  intros E Hx. unfold JsonBuffer_Get_uint16_t. rewrite (M_bind_ok _ _ _ _ _ (get_field_build _ _ _ [] E)).
  unfold enc_uint, has_type. rewrite type_new_uint64, require_bind, get_string_uint64
    by (unfold in_width in *; lia).
  rewrite bool_decide_eq_true_2 by done.
  rewrite (M_bind_ok _ _ _ x []); [unfold u16; by rewrite wrap_small|].
  apply ParseUnsigned_print; unfold in_width, UINT16_MAX in *; lia.
Qed.

Lemma Get_String_reads fs n t : field fs n = Some (enc_string t) -> nul_free t = true ->
  JsonBuffer_Get_String (Some (build fs)) (Some n) [] = Some (Some t, []).
Proof.
  intros E Ht. unfold JsonBuffer_Get_String. rewrite (M_bind_ok _ _ _ _ _ (get_field_build _ _ _ [] E)).
  unfold enc_string, has_type. rewrite type_new_string, require_bind, bool_decide_eq_true_2 by done.
  rewrite (M_bind_ok _ _ _ _ _ alloc_ok), get_string_new by done. done.
Qed.

Lemma Get_OptionalString_reads fs n t : field fs n = enc_string <$> t ->
  (forall x, t = Some x -> nul_free x = true) ->
  JsonBuffer_Get_OptionalString (Some (build fs)) (Some n) [] = Some (Some t, []).
Proof.
  intros E Ht. unfold JsonBuffer_Get_OptionalString, nonnull. rewrite !M_ret_bind, object_get_build, E.
  destruct t as [t|]; [|done]. simpl.
  by rewrite (M_bind_ok _ _ _ _ _ (Get_String_reads fs n t E (Ht t eq_refl))).
Qed.

Lemma Get_UUID_reads fs n u : field fs n = Some (enc_uuid u) ->
  JsonBuffer_Get_UUID (Some (build fs)) (Some n) [] = Some (Some u, []).
Proof.
  intros E. unfold JsonBuffer_Get_UUID. rewrite (M_bind_ok _ _ _ _ _ (get_field_build _ _ _ [] E)).
  unfold has_type, enc_uuid. rewrite type_build, require_bind, bool_decide_eq_true_2 by done.
  rewrite (M_bind_ok _ _ _ (uuid_unparse u) []).
  - by rewrite uuid_parse_unparse.
  - apply Get_String_reads; [done|apply uuid_unparse_nul_free].
Qed.

Lemma Get_ByteArray_reads fs n bs : field fs n = Some (enc_string (b64_encode bs)) ->
  Forall (fun b => 0 <= b < 256) bs -> in_width 32 (Z.of_nat (length bs)) ->
  JsonBuffer_Get_ByteArray (Some (build fs)) (Some n) [] = Some (Some (Z.of_nat (length bs), bs), []).
Proof.
  intros E Hb Hl. unfold JsonBuffer_Get_ByteArray.
  rewrite (M_bind_ok _ _ _ _ _ (get_field_build _ _ _ [] E)).
  unfold enc_string, has_type. rewrite type_new_string, require_bind, bool_decide_eq_true_2 by done.
  rewrite !(M_bind_ok _ _ _ _ _ alloc_ok), get_string_new, get_string_len_new, b64_decode_encode
    by (done || by apply b64_nul_free).
  unfold nonnull. rewrite M_ret_bind. pose proof (b64_expands bs Hb).
  rewrite take_ge by lia. unfold u32. by rewrite wrap_small.
Qed.
End Scalars.

(** ** Hashes and identifiers *)

(** Follow the calls of a body, one field at a time. *)
Ltac fills_step :=
  lazymatch goal with
  | |- fills _ (put_seq _ _) _ => eapply fills_seq
  | |- fills _ (JsonBuffer_Put_OptionalString _ _) _ => apply Put_OptionalString_fills
  | |- fills _ (JsonBuffer_Put_UUID _ _) _ => apply encodes_fills, Put_UUID_encodes
  | |- fills _ (JsonBuffer_Put_String _ _) _ => apply encodes_fills, Put_String_encodes
  | |- fills _ (JsonBuffer_Put_uint64_t _ _) _ => apply encodes_fills, Put_uint64_encodes
  | |- fills _ (JsonBuffer_Put_uint32_t _ _) _ => apply encodes_fills, Put_uint_encodes
  | |- fills _ (JsonBuffer_Put_uint8_t _ _) _ => apply encodes_fills, Put_uint_encodes
  | |- fills _ put_true _ => apply fills_true
  end.

(** Run the next call of a reader with the lemma that gives its result. *)
Ltac reads E := rewrite (M_bind_ok _ _ _ _ _ E).

Section Identifiers.
Context `{JsonCLaws} `{EVP} `{LibUuidLaws}.

Definition enc_hash (h : Hash) : jobj :=
  build [("Type", enc_string (default EmptyString (hash_typeName (h_iType h))));
         ("Value", enc_string (hex_text (digest h)))].

Definition enc_blockid (b : BlockId) : jobj :=
  build [("Hash", default json_object_new_object (enc_hash <$> bi_pHash b));
         ("Size", enc_uint (bi_iLength b)); ("Data_Type", enc_uuid (bi_uuidDataType b))].

Definition enc_eventid (e : EventId) : jobj :=
  build [("Nugget", build [("Id", enc_uuid (ei_uuidNuggetId e))]);
         ("Seconds", enc_uint (ei_iSeconds e)); ("Nano_Seconds", enc_uint (ei_iNanoSecs e))].

Definition enc_nugget (n : Nugget) : jobj :=
  build ([("Nugget_ID", enc_uuid (n_uuidNuggetId n)); ("App_Type", enc_uuid (n_uuidApplicationType n));
          ("Nugget_Type", enc_uuid (n_uuidNuggetType n))] ++
         opt_field "Name" (enc_string <$> n_sName n) ++ opt_field "Location" (enc_string <$> n_sLocation n) ++
         opt_field "Contact" (enc_string <$> n_sContact n)).

Lemma typeName_known t : Hash_Get_ExpectedDigestLength t <> 0 ->
  exists name, hash_typeName t = Some name /\ nul_free name = true.
Proof.
  unfold Hash_Get_ExpectedDigestLength, hash_typeName. repeat case_match; intros; try done; by eexists.
Qed.

Lemma Put_Hash_encodes s n h : complete h -> encodes s (JsonBuffer_Put_Hash (Some n) (Some h)) n (enc_hash h).
Proof.
  intros Hc. destruct (typeName_known _ (complete_type _ Hc)) as (name & Hn & _).
  apply encodes_object. rewrite Hn. eapply fills_with; [by apply yields_nonnull|].
  apply (fills_seq s _ _ [_] [_]); [fills_step|].
  eapply fills_with; [|fills_step]. intros o Ho. rewrite ToText_complete by done. revert o Ho.
  change (yields s (alloc ;; mret (hex_text (digest h))) (hex_text (digest h))).
  eapply yields_bind; [apply yields_alloc|apply yields_ret].
Qed.

(** Reading a hash gives a clone of it: the same type and digest. *)
Lemma Get_Hash_reads fs n h : field fs n = Some (enc_hash h) -> complete h ->
  JsonBuffer_Get_Hash (Some (build fs)) (Some n) [] = Some (Some (clone_of h), []).
Proof.
  intros E Hc. unfold JsonBuffer_Get_Hash. reads (get_field_build _ _ _ [] E).
  unfold has_type, enc_hash. rewrite type_build, require_bind, bool_decide_eq_true_2 by done.
  destruct (typeName_known _ (complete_type _ Hc)) as (name & Hn & Hnf). rewrite Hn.
  set (fs' := [_; _]).
  reads (get_field_build fs' "Type" (enc_string name) [] eq_refl).
  unfold enc_string. rewrite type_new_string, require_bind, bool_decide_eq_true_2 by done.
  reads (get_field_build fs' "Value" (enc_string (hex_text (digest h))) [] eq_refl).
  unfold enc_string. rewrite type_new_string, require_bind, bool_decide_eq_true_2 by done.
  destruct (read_digest h Hc) as (d & _ & _ & _ & _ & Hb).
  destruct (hex_text_spec _ Hb) as (_ & Hx & _).
  rewrite !get_string_new by (done || by apply nul_free_xdigits).
  assert (Hr : Hash_Create_From_String (h_iType h) (Some (hex_text (digest h))) [] =
    Some (Some (clone_of h), [])) by by rewrite From_String_hex.
  revert Hn Hr. unfold hash_typeName.
  repeat case_match; intros [= <-]; repeat match goal with H : (_ == _) = true |- _ =>
    apply Z.eqb_eq in H; rewrite H end; done.
Qed.

Lemma Put_BlockId_encodes s n b : id_ok b ->
  encodes s (JsonBuffer_Put_BlockId (Some n) (Some b)) n (enc_blockid b).
Proof.
  intros [(h & Hh & Hc) _]. apply encodes_object. rewrite Hh.
  apply (fills_seq s _ _ [_] [_; _]); [by apply encodes_fills, Put_Hash_encodes|].
  apply (fills_seq s _ _ [_] [_]); fills_step.
Qed.

Lemma Get_BlockId_reads fs n b : field fs n = Some (enc_blockid b) -> id_ok b ->
  JsonBuffer_Get_BlockId (Some (build fs)) (Some n) [] = Some (Some (id_clone b), []).
Proof.
  intros E [(h & Hh & Hc) Hl]. unfold JsonBuffer_Get_BlockId. reads (get_field_build _ _ _ [] E).
  unfold has_type, enc_blockid. rewrite type_build, require_bind, bool_decide_eq_true_2 by done.
  reads alloc_ok. unfold id_clone. rewrite Hh. set (fs' := [_; _; _]).
  reads (Get_Hash_reads fs' "Hash" h eq_refl Hc).
  reads (Get_uint64_reads fs' "Size" (bi_iLength b) eq_refl Hl).
  reads (Get_UUID_reads fs' "Data_Type" (bi_uuidDataType b) eq_refl). done.
Qed.

Definition eventid_ok (e : EventId) : Prop := in_width 64 (ei_iSeconds e) /\ in_width 64 (ei_iNanoSecs e).

Lemma Put_EventId_encodes s n e : encodes s (JsonBuffer_Put_EventId (Some n) (Some e)) n (enc_eventid e).
Proof.
  apply encodes_object. apply (fills_seq s _ _ [_] [_; _]).
  - apply encodes_fills, encodes_object. fills_step.
  - apply (fills_seq s _ _ [_] [_]); fills_step.
Qed.

Lemma Get_EventId_reads fs n e : field fs n = Some (enc_eventid e) -> eventid_ok e ->
  JsonBuffer_Get_EventId (Some (build fs)) (Some n) [] = Some (Some e, []).
Proof.
  intros E [Hs Hn]. unfold JsonBuffer_Get_EventId. reads (get_field_build _ _ _ [] E).
  unfold has_type, enc_eventid. rewrite type_build, require_bind, bool_decide_eq_true_2 by done.
  set (fs' := [_; _; _]).
  reads (get_field_build fs' "Nugget" (build [("Id", enc_uuid (ei_uuidNuggetId e))]) [] eq_refl).
  rewrite type_build, require_bind, bool_decide_eq_true_2 by done. reads alloc_ok.
  reads (Get_UUID_reads [("Id", enc_uuid (ei_uuidNuggetId e))] "Id" _ eq_refl).
  reads (Get_uint64_reads fs' "Seconds" _ eq_refl Hs).
  reads (Get_uint64_reads fs' "Nano_Seconds" _ eq_refl Hn). by destruct e.
Qed.

Definition text_ok (t : option string) : Prop := forall x, t = Some x -> nul_free x = true.

Lemma Put_Nugget_encodes s n x : encodes s (JsonBuffer_Put_Nugget (Some n) (Some x)) n (enc_nugget x).
Proof.
  apply encodes_object. apply (fills_seq s _ _ [_]); [fills_step|].
  apply (fills_seq s _ _ [_]); [fills_step|]. apply (fills_seq s _ _ [_]); [fills_step|].
  apply fills_seq; [fills_step|]. apply fills_seq; fills_step.
Qed.

Lemma Get_Nugget_reads fs n x : field fs n = Some (enc_nugget x) ->
  text_ok (n_sName x) -> text_ok (n_sLocation x) -> text_ok (n_sContact x) ->
  JsonBuffer_Get_Nugget (Some (build fs)) (Some n) [] =
  Some (Some (mkNugget (n_uuidNuggetId x) (n_uuidApplicationType x) (n_uuidNuggetType x)
                (n_sName x) (n_sLocation x) (n_sContact x) None), []).
Proof.
  intros E T1 T2 T3. unfold JsonBuffer_Get_Nugget. reads (get_field_build _ _ _ [] E).
  unfold has_type, enc_nugget. rewrite type_build, require_bind, bool_decide_eq_true_2 by done.
  reads alloc_ok. set (fs' := _ ++ _).
  assert (Hf : field fs' "Nugget_ID" = Some (enc_uuid (n_uuidNuggetId x)) /\
    field fs' "App_Type" = Some (enc_uuid (n_uuidApplicationType x)) /\
    field fs' "Nugget_Type" = Some (enc_uuid (n_uuidNuggetType x)) /\
    field fs' "Name" = enc_string <$> n_sName x /\ field fs' "Location" = enc_string <$> n_sLocation x /\
    field fs' "Contact" = enc_string <$> n_sContact x).
  { subst fs'. by destruct (n_sName x), (n_sLocation x), (n_sContact x). }
  destruct Hf as (F1 & F2 & F3 & F4 & F5 & F6).
  reads (Get_UUID_reads _ _ _ F1). reads (Get_UUID_reads _ _ _ F2). reads (Get_UUID_reads _ _ _ F3).
  reads (Get_OptionalString_reads _ _ _ F4 T1). reads (Get_OptionalString_reads _ _ _ F5 T2).
  by reads (Get_OptionalString_reads _ _ _ F6 T3).
Qed.
End Identifiers.
