(* ===== verification/JsonNtlv.v ===== *)
(** * Metadata as JSON and back

    The encoding of an NTLV item depends on what its type UUID is registered as in
    the list of NTLV types; [kind] is that dependency, for lists that give the six
    textual types different UUIDs. *)

From S2P Require Import Prelude CLib RzbList RzbListProps ListM Hash LibUuid Uuids Ntlv Blocks JsonC JsonBuffer JsonCodec.

Inductive ntlv_kind := KString | KJson | KPort | KProto | KIPv4 | KIPv6 | KBin.

Global Instance ntlv_kind_eq_dec : EqDecision ntlv_kind.
Proof. solve_decision. Defined.

Section Kinds.
Context `{LibUuidLaws}.
Variable sg : UuidLists.
Variable types : list UUIDListNode.
Hypothesis types_entries : entries (UUID_Get_List sg UUID_TYPE_NTLV_TYPE) types.

(** The list registers [u] under the name [n]. *)
Definition is_type (n : string) (u : uuid_t) : bool :=
  match named n types with Some x => bool_decide (un_uuid x = u) | None => false end.

Lemma NamedNTLVTypeMatches_eq n u o :
  JsonBuffer_NamedNTLVTypeMatches sg n u o = Some (Some (is_type n u), o).
Proof.
  unfold JsonBuffer_NamedNTLVTypeMatches, is_type.
  rewrite (Is_Named_UUID_entries _ _ _ _ _ _ types_entries). by destruct (named n types).
Qed.

Definition kind_name (k : ntlv_kind) : string :=
  match k with
  | KString => NTLV_TYPE_STRING | KJson => NTLV_TYPE_JSON | KPort => NTLV_TYPE_PORT
  | KProto => NTLV_TYPE_IPPROTO | KIPv4 => NTLV_TYPE_IPv4_ADDR | KIPv6 => NTLV_TYPE_IPv6_ADDR
  | KBin => EmptyString
  end.

Definition kind (u : uuid_t) : ntlv_kind :=
  if is_type NTLV_TYPE_STRING u then KString
  else if is_type NTLV_TYPE_JSON u then KJson
  else if is_type NTLV_TYPE_PORT u then KPort
  else if is_type NTLV_TYPE_IPPROTO u then KProto
  else if is_type NTLV_TYPE_IPv4_ADDR u then KIPv4
  else if is_type NTLV_TYPE_IPv6_ADDR u then KIPv6
  else KBin.

(** The textual types have different UUIDs. *)
Definition distinct_types : Prop := forall k u, k <> KBin -> is_type (kind_name k) u = true -> kind u = k.

Hypothesis types_distinct : distinct_types.

Lemma is_type_kind k u : k <> KBin -> is_type (kind_name k) u = bool_decide (kind u = k).
Proof.
  intros Hk. destruct (bool_decide_reflect (kind u = k)) as [E|E].
  - unfold kind in E. repeat case_match; by subst k.
  - apply not_true_is_false. intros Ht. by apply E, types_distinct.
Qed.

Lemma Matches_kind k u o : k <> KBin ->
  JsonBuffer_NamedNTLVTypeMatches sg (kind_name k) u o = Some (Some (bool_decide (kind u = k)), o).
Proof. intros. by rewrite NamedNTLVTypeMatches_eq, is_type_kind. Qed.
End Kinds.

(** The registered types of an item whose kind is known, as booleans. *)
Ltac fix_flags :=
  repeat match goal with F : is_type _ _ _ = bool_decide _ |- _ =>
    first [rewrite bool_decide_eq_true_2 in F by done | rewrite bool_decide_eq_false_2 in F by done]
  end.

(** Steps of a computation whose result is claimed by [yields]. *)
Ltac y_step :=
  lazymatch goal with
  | |- yields _ (mbind _ alloc) _ => eapply yields_bind; [apply yields_alloc|cbv beta iota]
  | |- yields _ (mbind _ (mret _)) _ => eapply yields_bind; [apply yields_ret|cbv beta iota]
  | |- yields _ (mbind _ (require _)) _ => eapply yields_bind; [apply yields_require|cbv beta iota]
  | |- yields _ (mbind _ (deref _)) _ => eapply yields_bind; [apply yields_deref|cbv beta iota]
  | |- yields _ (mbind _ (nonnull _)) _ => eapply yields_bind; [apply yields_nonnull|cbv beta iota]
  | |- yields _ (mret _) _ => apply yields_ret
  end.

Section Items.
Context `{JsonCLaws} `{Base64Laws} `{InetLaws} `{LibUuidLaws}.
Variable sg : UuidLists.
Variable types : list UUIDListNode.
Hypothesis types_entries : entries (UUID_Get_List sg UUID_TYPE_NTLV_TYPE) types.
Hypothesis types_distinct : distinct_types types.

Abbreviation kind := (kind types).

(** The JSON value of a JSON text, when all of it but trailing space is one
    object or array. *)
Definition json_value (t : string) : option jobj :=
  match json_tokener_parse_ex t with
  | Some (j, e) =>
      if (strlen (skip_space (String.substring e (String.length t - e) t)) == 0) &&
         (has_type j json_type_object || has_type j json_type_array) then Some j else None
  | None => None
  end.

(** The items that can be serialized: their data fits their type. *)
Definition item_valid (x : NTLVItem) : Prop :=
  item_ok x /\
  match kind (nt_uuidType x) with
  | KString => exists t, nul_free t = true /\ nt_pData x = bytes_of_cstr t
  | KJson => exists t j, nul_free t = true /\ nt_pData x = bytes_of_cstr t /\ strlen t <= INT_MAX /\
      json_value t = Some j /\ in_width 32 (strlen (json_object_to_json_string_ext j) + 1)
  | KPort => nt_iLength x = 2
  | KProto => nt_iLength x = 1
  | KIPv4 => nt_iLength x = 4
  | KIPv6 => nt_iLength x = 16
  | KBin => nt_iLength x <= INT_MAX
  end.

Definition enc_value (x : NTLVItem) : string * jobj :=
  let d := nt_pData x in
  match kind (nt_uuidType x) with
  | KString => ("String_Value", enc_string (cstr_of_bytes d))
  | KJson => ("Json_Value", default json_object_new_object (json_value (cstr_of_bytes d)))
  | KPort => ("String_Value", enc_string (print_dec (u16_of_bytes d)))
  | KProto => ("String_Value", enc_string (print_dec (default 0 (head d))))
  | KIPv4 => ("String_Value", enc_string (inet_ntop4 d))
  | KIPv6 => ("String_Value", enc_string (inet_ntop6 d))
  | KBin => ("Bin_Value", enc_string (b64_encode d))
  end.

Definition enc_item (x : NTLVItem) : jobj :=
  build [("Name", enc_uuid (nt_uuidName x)); ("Type", enc_uuid (nt_uuidType x)); enc_value x].

(** What reading the encoding gives: the item itself, except that the text of a
    JSON item is normalised. *)
Definition item_back (x : NTLVItem) : NTLVItem :=
  match kind (nt_uuidType x) with
  | KJson =>
      let t := default EmptyString (json_object_to_json_string_ext <$> json_value (cstr_of_bytes (nt_pData x))) in
      mkNTLV (nt_uuidName x) (nt_uuidType x) (strlen t + 1) (bytes_of_cstr t)
  | _ => x
  end.

Lemma yields_matches s n u b : is_type types n u = b ->
  yields s (JsonBuffer_NamedNTLVTypeMatches sg n u) b.
Proof. intros <-. apply yields_eq. intros o. by rewrite (NamedNTLVTypeMatches_eq _ _ types_entries). Qed.

Ltac y_match :=
  lazymatch goal with
  | F : is_type types ?n ?u = _ |- yields _ (mbind _ (JsonBuffer_NamedNTLVTypeMatches _ ?n ?u)) _ =>
      eapply yields_bind; [apply (yields_matches _ _ _ _ F)|cbv beta iota]
  end.

Lemma flags u :
  is_type types NTLV_TYPE_STRING u = bool_decide (kind u = KString) /\
  is_type types NTLV_TYPE_JSON u = bool_decide (kind u = KJson) /\
  is_type types NTLV_TYPE_PORT u = bool_decide (kind u = KPort) /\
  is_type types NTLV_TYPE_IPPROTO u = bool_decide (kind u = KProto) /\
  is_type types NTLV_TYPE_IPv4_ADDR u = bool_decide (kind u = KIPv4) /\
  is_type types NTLV_TYPE_IPv6_ADDR u = bool_decide (kind u = KIPv6).
Proof.
  pose proof (fun k => is_type_kind types types_distinct k u) as F.
  split_and!; [apply (F KString)|apply (F KJson)|apply (F KPort)|apply (F KProto)|apply (F KIPv4)
              |apply (F KIPv6)]; done.
Qed.

Lemma cstr_yields s x t : nul_free t = true -> nt_pData x = bytes_of_cstr t -> item_ok x ->
  yields s (ntlv_cstr x) t.
Proof.
  intros Ht Hd (Hl & _ & Hn & _). unfold ntlv_cstr. destruct (Z.eqb_spec (nt_iLength x) 0); [done|].
  pose proof (last_bytes_of_cstr t) as Hlast. rewrite last_lookup in Hlast.
  eapply yields_bind; [apply (yields_deref _ _ 0)|].
  - rewrite <- Hlast, Hl, Hd. f_equal. lia.
  - eapply yields_bind; [by apply yields_require|]. apply yields_eq. intros o.
    by rewrite Hd, cstr_bytes_cstr.
Qed.

(** The text [ntlv_text] computes for each kind. *)
Definition text_of (x : NTLVItem) : option string * bool :=
  let d := nt_pData x in
  match kind (nt_uuidType x) with
  | KString => (Some (cstr_of_bytes d), false)
  | KJson => (Some (cstr_of_bytes d), true)
  | KPort => (Some (print_dec (u16_of_bytes d)), false)
  | KProto => (Some (print_dec (default 0 (head d))), false)
  | KIPv4 => (Some (inet_ntop4 d), false)
  | KIPv6 => (Some (inet_ntop6 d), false)
  | KBin => (None, false)
  end.

Lemma read_all x n : item_ok x -> nt_iLength x = n -> read_bytes (nt_pData x) n = Some (nt_pData x).
Proof. intros (Hl & _) <-. rewrite Hl. apply read_bytes_all. Qed.

Lemma text_yields s x : item_valid x -> yields s (ntlv_text sg x) (text_of x).
Proof.
  intros [Hok Hk]. unfold ntlv_text, text_of, JsonBuffer_NTLVTypeUsesJsonValue.
  destruct (flags (nt_uuidType x)) as (F1 & F2 & F3 & F4 & F5 & F6).
  destruct (kind (nt_uuidType x)) eqn:Ek; fix_flags.
  - destruct Hk as (t & Ht & Hd). y_match. eapply (yields_bind _ _ _ (Some t)).
    { eapply yields_bind; [by apply cstr_yields|apply yields_ret]. }
    y_match. y_step. y_match. y_match. y_match. y_match. rewrite Hd, cstr_bytes_cstr by done. y_step.
  - destruct Hk as (t & j & Ht & Hd & _). y_match. y_step. y_match. eapply (yields_bind _ _ _ (Some t, true)).
    { eapply yields_bind; [by apply cstr_yields|apply yields_ret]. }
    y_match. y_match. y_match. y_match. rewrite Hd, cstr_bytes_cstr by done. y_step.
  - y_match. y_step. y_match. y_step. y_match. y_step; [by rewrite Hk|].
    y_step; [by apply read_all|]. y_step. y_step.
  - y_match. y_step. y_match. y_step. y_match. y_match. y_step; [by rewrite Hk|].
    y_step; [by apply read_all|]. y_step. y_step.
  - y_match. y_step. y_match. y_step. y_match. y_match. y_match. y_step; [by rewrite Hk|].
    y_step. y_step; [by apply read_all|]. y_step.
  - y_match. y_step. y_match. y_step. y_match. y_match. y_match. y_match. y_step; [by rewrite Hk|].
    y_step. y_step; [by apply read_all|]. y_step.
  - y_match. y_step. y_match. y_step. y_match. y_match. y_match. y_match. y_step.
Qed.

Lemma Put_JsonString_encodes s n t j : strlen t <= INT_MAX -> json_value t = Some j ->
  encodes s (JsonBuffer_Put_JsonString (Some n) (Some t)) n j.
Proof.
  intros Ht Hj. unfold json_value in Hj. destruct (json_tokener_parse_ex t) as [[j' e]|] eqn:Ep; [|done].
  destruct (_ && _) eqn:Hc; [|done]. injection Hj as ->. apply andb_true_iff in Hc as [C1 C2].
  eapply encodes_checked, encodes_with; [|apply encodes_add].
  y_step; [done|]. y_step; [by apply Z.leb_le|]. y_step. y_step; [exact Ep|]. cbv beta iota.
  y_step; [done|]. y_step; [done|]. y_step.
Qed.

Lemma value_encodes s x : item_valid x ->
  encodes s (put_with (ntlv_text sg x) (fun '(str, useJsonValue) =>
    match str with
    | None => JsonBuffer_Put_ByteArray (Some "Bin_Value") (nt_iLength x) (Some (nt_pData x))
    | Some t =>
        if useJsonValue then JsonBuffer_Put_JsonString (Some "Json_Value") (Some t)
        else JsonBuffer_Put_String (Some "String_Value") t
    end)) (enc_value x).1 (enc_value x).2.
Proof.
  intros Hv. eapply encodes_with; [by apply text_yields|]. destruct Hv as [(Hl & _) Hk].
  unfold text_of, enc_value. destruct (kind (nt_uuidType x)); cbn [fst snd]; try apply Put_String_encodes.
  - destruct Hk as (t & j & Ht & Hd & Hs & Hj & _). rewrite Hd, cstr_bytes_cstr, Hj by done.
    by apply Put_JsonString_encodes.
  - rewrite Hl in *. by apply Put_ByteArray_encodes.
Qed.

Lemma item_fills s x : item_valid x ->
  fills s (put_NTLVItem_fields sg x)
    [("Name", enc_uuid (nt_uuidName x)); ("Type", enc_uuid (nt_uuidType x)); enc_value x].
Proof.
  intros Hv. apply (fills_seq s _ _ [_] [_; _]); [fills_step|].
  apply (fills_seq s _ _ [_] [_]); [fills_step|].
  pose proof (encodes_fills s _ _ _ (value_encodes s x Hv)) as Hf. by destruct (enc_value x).
Qed.

Lemma Put_NTLVItem_run x vs : item_valid x ->
  JsonBuffer_Put_NTLVItem sg x (arr vs) [] = Some (LIST_EACH_OK, arr (vs ++ [enc_item x]), []).
Proof.
  intros Hv. unfold JsonBuffer_Put_NTLVItem. cbn [alloc_next negb].
  destruct (item_fills false x Hv [] [] (allowed_nil _)) as (b & p & o & E & _ & Hb & Hn).
  destruct (Hn eq_refl) as [-> ->]. change (build []) with json_object_new_object in E. rewrite E.
  cbn [mbind option_bind]. by rewrite (Hb eq_refl), arr_snoc.
Qed.

Lemma Put_NTLVItem_keeps xs : keeps (JsonBuffer_Put_NTLVItem sg) xs.
Proof.
  intros x u o r u' o' _. unfold JsonBuffer_Put_NTLVItem. destruct (alloc_next o) as [[] o1]; cbn [negb].
  - destruct (put_NTLVItem_fields _ _ _ _) as [[[b [p|]] o2]|]; cbn [mbind option_bind]; [|done|done].
    intros [= <- <- <-]. destruct b; auto.
  - intros [= <- <- <-]. auto.
Qed.

Lemma each_items xs vs : Forall item_valid xs ->
  each (JsonBuffer_Put_NTLVItem sg) xs (arr vs) [] = Some (true, arr (vs ++ map enc_item xs), []).
Proof.
  intros Hx. revert vs. induction Hx as [|x xs Hv _ IH]; intros vs; [by rewrite app_nil_r|].
  cbn [each]. rewrite Put_NTLVItem_run by done. cbn [mbind option_bind]. rewrite IH.
  by rewrite <- app_assoc.
Qed.

Definition enc_metadata (xs : list NTLVItem) : jobj := arr (map enc_item xs).

Lemma Put_NTLVList_encodes n p xs : metadata p xs -> Forall item_valid xs ->
  encodes false (JsonBuffer_Put_NTLVList sg (Some n) p) n (enc_metadata xs).
Proof.
  intros (l & -> & Hc & Hp & _) Hx. apply encodes_child. intros o [Ho| ->]; [done|].
  unfold put_each. cbn [mbind option_bind].
  rewrite (ForEach_each _ l xs _ _ Hc (plain_locks _ Hp)) by apply Put_NTLVItem_keeps.
  change json_object_new_array with (arr []). rewrite each_items by done.
  eexists true, _, []. split; [done|]. by split; [right|].
Qed.

(** *** Reading *)

Lemma matches_run n u b : is_type types n u = b ->
  JsonBuffer_NamedNTLVTypeMatches sg n u [] = Some (Some b, []).
Proof. intros <-. by rewrite (NamedNTLVTypeMatches_eq _ _ types_entries). Qed.

Lemma Add_data p ys name type d : metadata p ys -> d <> [] ->
  exists p', NTLVList_Add p name type (Z.of_nat (length d)) (Some d) [] = Some (Some p', []) /\
    metadata p' (ys ++ [mkNTLV name type (Z.of_nat (length d)) d]).
Proof.
  intros Hm Hd. destruct (NTLVList_Add_ok p ys name type (Z.of_nat (length d)) d Hm) as (p' & E & Hm').
  { destruct d; [done|]. simpl. lia. }
  rewrite Nat2Z.id, take_ge in Hm' by done. eauto.
Qed.

Lemma item_eta x d : nt_iLength x = Z.of_nat (length (nt_pData x)) -> nt_pData x = d ->
  mkNTLV (nt_uuidName x) (nt_uuidType x) (Z.of_nat (length d)) d = x.
Proof. intros Hl <-. rewrite <- Hl. by destruct x. Qed.

Ltac r_match :=
  lazymatch goal with
  | F : is_type types ?n ?u = _ |- context [mbind _ (JsonBuffer_NamedNTLVTypeMatches _ ?n ?u)] =>
      reads (matches_run _ _ _ F); cbv beta iota
  end.

(** The five kinds of text, converted back. *)
Lemma add_text_reads p ys x t : metadata p ys -> item_valid x -> text_of x = (Some t, false) ->
  nul_free t = true /\
  exists p', ntlv_add_text sg p (nt_uuidName x) (nt_uuidType x) t [] = Some (Some p', []) /\
    metadata p' (ys ++ [x]).
Proof.
  intros Hm [Hok Hk]. pose proof Hok as (Hl & Hw & Hn & Hb). unfold text_of.
  destruct (flags (nt_uuidType x)) as (F1 & F2 & F3 & F4 & F5 & F6).
  destruct (Add_data p ys (nt_uuidName x) (nt_uuidType x) (nt_pData x) Hm) as (p' & E & Hm').
  { intros E. rewrite E in Hl. simpl in Hl. lia. }
  rewrite (item_eta x _ Hl eq_refl) in Hm'.
  destruct (kind (nt_uuidType x)) eqn:Ek; intros [= <-]; fix_flags;
    unfold ntlv_add_text, JsonBuffer_NTLVTypeUsesJsonValue.
  - destruct Hk as (t & Ht & Hd). rewrite Hd in *. rewrite cstr_bytes_cstr by done. split; [done|].
    r_match. exists p'. split; [|done]. rewrite <- E. f_equal.
    rewrite <- length_bytes_of_cstr, <- Hl. unfold u32. by rewrite wrap_small.
  - rewrite Hk in Hl. destruct (nt_pData x) as [|b0 [|b1 [|]]] eqn:Hd; simpl in Hl; try lia.
    apply Forall_cons in Hb as [Hb0 [Hb1 _]%Forall_cons].
    destruct (bytes_u16_bytes b0 b1 Hb0 Hb1) as [Eu Hu]. split; [apply print_dec_nul_free, Hu|].
    do 3 r_match. rewrite (sscanf_print 16) by (done || lia). unfold nonnull. rewrite M_ret_bind, Eu. eauto.
  - rewrite Hk in Hl. destruct (nt_pData x) as [|b0 [|]] eqn:Hd; simpl in Hl; try lia.
    apply Forall_cons in Hb as [Hb0 _]. split; [apply print_dec_nul_free, Hb0|].
    do 4 r_match. cbn [head default from_option id]. rewrite (sscanf_print 8) by (done || lia).
    unfold nonnull. rewrite M_ret_bind. eauto.
  - destruct (inet4_roundtrip (nt_pData x)) as [Er Hnf]; [lia|done|]. split; [done|].
    do 5 r_match. rewrite Er. unfold nonnull. rewrite M_ret_bind, <- Hk, Hl. eauto.
  - destruct (inet6_roundtrip (nt_pData x)) as [Er Hnf]; [lia|done|]. split; [done|].
    do 6 r_match. rewrite Er. unfold nonnull. rewrite M_ret_bind, <- Hk, Hl. eauto.
Qed.

Lemma Get_JsonString_reads fs n t j : field fs n = Some j -> json_value t = Some j ->
  JsonBuffer_Get_JsonString (Some (build fs)) (Some n) [] = Some (Some (json_object_to_json_string_ext j), []).
Proof.
  intros Ef Hj. unfold JsonBuffer_Get_JsonString. reads (get_field_build fs n j [] Ef).
  rewrite require_bind. unfold json_value in Hj. case_match; [|done]. case_match.
  case_match eqn:Hc; [|done]. injection Hj as ->. apply andb_true_iff in Hc as [_ ->]. done.
Qed.

Lemma usesText_false u : kind u = KBin ->
  or_else (JsonBuffer_NTLVTypeUsesStringValue sg u) (JsonBuffer_NTLVTypeUsesJsonValue sg u) [] =
  Some (Some false, []).
Proof.
  intros Ek. destruct (flags u) as (F1 & F2 & F3 & F4 & F5 & F6). rewrite Ek in *. fix_flags.
  assert (E : JsonBuffer_NTLVTypeUsesStringValue sg u [] = Some (Some false, [])).
  { unfold JsonBuffer_NTLVTypeUsesStringValue, or_else. do 4 r_match. by apply matches_run. }
  unfold or_else at 1. reads E. by apply matches_run.
Qed.

Lemma Get_NTLVItem_reads p ys x : metadata p ys -> item_valid x ->
  exists p', JsonBuffer_Get_NTLVItem sg p (enc_item x) [] = Some (Some p', []) /\
    metadata p' (ys ++ [item_back x]).
Proof.
  intros Hm Hv. pose proof Hv as [(Hl & _ & Hn & Hb) Hk]. unfold JsonBuffer_Get_NTLVItem, enc_item.
  set (fs := [_; _; _]).
  assert (E : field fs "Name" = Some (enc_uuid (nt_uuidName x)) /\
              field fs "Type" = Some (enc_uuid (nt_uuidType x))).
  { subst fs. unfold enc_value. by destruct (kind (nt_uuidType x)). }
  destruct E as [E1 E2]. reads (Get_UUID_reads _ _ _ E1). reads (Get_UUID_reads _ _ _ E2). clear E1 E2.
  rewrite !object_get_ex_build. pose proof (add_text_reads p ys x) as Htext.
  destruct (flags (nt_uuidType x)) as (_ & F2 & _).
  subst fs. unfold enc_value, item_back, text_of in *.
  destruct (kind (nt_uuidType x)) eqn:Ek; fix_flags; cbn [field String.eqb Ascii.eqb Bool.eqb];
    (match goal with |- context [require ?b] => change (require b) with (require true) end);
    rewrite require_bind; cbv iota; set (fs := [_; _; _]).
  2: { destruct Hk as (t & j & Ht & Hd & Hs & Hj & Hjw). subst fs. rewrite Hd, cstr_bytes_cstr, Hj by done.
    cbn [default fmap option_fmap option_map from_option id]. set (fs := [_; _; _]).
    reads (Get_JsonString_reads fs "Json_Value" t j eq_refl Hj).
    unfold JsonBuffer_NTLVTypeUsesJsonValue. r_match. set (t' := json_object_to_json_string_ext j) in *.
    destruct (Add_data p ys (nt_uuidName x) (nt_uuidType x) (bytes_of_cstr t') Hm) as (p' & E & Hm');
      [by destruct t'|]. rewrite length_bytes_of_cstr in E, Hm'. exists p'. split; [|done].
    rewrite <- E. f_equal. unfold u32. by rewrite wrap_small. }
  6: { reads (Get_ByteArray_reads fs "Bin_Value" (nt_pData x) eq_refl Hb ltac:(rewrite <- Hl; apply Hv)).
    reads (usesText_false _ Ek). cbv iota.
    destruct (Add_data p ys (nt_uuidName x) (nt_uuidType x) (nt_pData x) Hm) as (p' & E & Hm').
    { intros E. rewrite E in Hl. simpl in Hl. lia. }
    rewrite (item_eta x _ Hl eq_refl) in Hm'. eauto. }
  all: destruct (Htext _ Hm Hv eq_refl) as (Hnf & p' & E & Hm');
    reads (Get_String_reads fs "String_Value" _ eq_refl Hnf); eauto.
Qed.

(** A loop that appends what it reads from each entry. *)
Lemma array_loop_reads {A B} (f : option jobj -> A -> M A) (R : A -> list B -> Prop) (enc : B -> jobj)
    (back : B -> B) (ok : B -> Prop) :
  (forall acc ys x, R acc ys -> ok x ->
     exists acc', f (Some (enc x)) acc [] = Some (Some acc', []) /\ R acc' (ys ++ [back x])) ->
  forall xs pre acc ys, R acc ys -> Forall ok xs ->
  exists acc', array_loop f (arr (map enc (pre ++ xs))) (length xs) (length pre) acc [] = Some (Some acc', []) /\
    R acc' (ys ++ map back xs).
Proof.
  intros Hf. induction xs as [|x xs IH]; intros pre acc ys HR Hx.
  { exists acc. split; [done|]. cbn [map]. by rewrite app_nil_r. }
  apply Forall_cons in Hx as [Hx Hxs]. cbn [length array_loop].
  rewrite (array_get_arr _ _ (enc x)).
  2: { change (map enc (pre ++ x :: xs)) with (enc <$> (pre ++ x :: xs)).
       rewrite list_lookup_fmap, lookup_app_r, Nat.sub_diag by lia. done. }
  destruct (Hf acc ys x HR Hx) as (acc1 & E & HR1). reads E.
  destruct (IH (pre ++ [x]) acc1 _ HR1 Hxs) as (acc2 & E2 & HR2).
  rewrite <- app_assoc, length_app, Nat.add_1_r in E2. exists acc2. split; [exact E2|].
  by rewrite <- app_assoc in HR2.
Qed.

Lemma Get_NTLVList_reads fs n xs : field fs n = Some (enc_metadata xs) -> Forall item_valid xs ->
  exists l, JsonBuffer_Get_NTLVList sg (Some (build fs)) (Some n) [] = Some (Some l, []) /\
    metadata (Some l) (map item_back xs).
Proof.
  intros E Hx. unfold JsonBuffer_Get_NTLVList. reads (get_field_build _ _ _ [] E).
  unfold enc_metadata. rewrite has_type_arr, require_bind.
  destruct Create_metadata_ok as (l & El & Hm). reads El. unfold array_for.
  rewrite array_length_arr, length_map.
  destruct (array_loop_reads (fun entry acc => e ← nonnull entry;
    require (has_type e json_type_object) ;; JsonBuffer_Get_NTLVItem sg acc e)
    metadata enc_item item_back item_valid) with (xs := xs) (pre := @nil NTLVItem)
    (acc := Some l) (ys := @nil NTLVItem) as (p' & El' & Hm'); [|exact Hm|exact Hx|].
  - intros acc ys x Ha Hv. unfold nonnull. rewrite M_ret_bind, require_bind. unfold enc_item.
    rewrite has_type_build. by apply Get_NTLVItem_reads.
  - reads El'. pose proof Hm' as (l' & -> & _). by exists l'.
Qed.
End Items.
