(* ===== verification/JsonObjects.v ===== *)
(** * Blocks, events, judgments and lists as JSON and back

    A block with its chain of parents is abstracted to a non-empty sequence of
    [level]s, an event with its parents to a sequence of [elevel]s; [block_rep] and
    [event_rep] relate the C structures to them, the [enc_...] functions give their
    JSON. *)

From S2P Require Import Prelude CLib RzbList RzbListProps ListM Hash LibUuid Uuids Ntlv Blocks JsonC JsonBuffer JsonCodec JsonNtlv.

Section Objects.
Context `{JsonCLaws} `{EVP} `{Base64Laws} `{InetLaws} `{LibUuidLaws}.
Variable sg : UuidLists.
Variable types : list UUIDListNode.
Hypothesis types_entries : entries (UUID_Get_List sg UUID_TYPE_NTLV_TYPE) types.
Hypothesis types_distinct : distinct_types types.

Abbreviation item_valid := (item_valid types).
Abbreviation enc_metadata := (enc_metadata types).
Abbreviation items_back := (map (item_back types)).

(** A metadata pointer, NULL or a list of the given items. *)
Definition metadata_opt (p : option ntlv_list) (m : option (list NTLVItem)) : Prop :=
  match m with None => p = None | Some xs => metadata p xs end.

Definition metadata_valid (m : option (list NTLVItem)) : Prop := forall xs, m = Some xs -> Forall item_valid xs.

(** *** Blocks *)

Record level := mkLevel {
  lv_id : BlockId;
  lv_pid : option BlockId;
  lv_md : option (list NTLVItem)
}.

Inductive block_rep : Block -> level -> list level -> Prop :=
  | rep_root id pid p m d :
      metadata_opt p m -> block_rep (mkBlock (Some id) pid None p d) (mkLevel id pid m) []
  | rep_parent id pid b p m d lv anc :
      metadata_opt p m -> block_rep b lv anc ->
      block_rep (mkBlock (Some id) pid (Some b) p d) (mkLevel id pid m) (lv :: anc).

Definition level_ok (lv : level) : Prop :=
  id_ok (lv_id lv) /\ (forall p, lv_pid lv = Some p -> id_ok p) /\ metadata_valid (lv_md lv).

(** What comes back: the same ids, with hashes reduced to type and digest, and
    the same metadata. *)
Definition level_back (lv : level) : level :=
  mkLevel (id_clone (lv_id lv)) (id_clone <$> lv_pid lv) (items_back <$> lv_md lv).

Definition block_fields (lv : level) (parent : option jobj) : list (string * jobj) :=
  [("Id", enc_blockid (lv_id lv))] ++ opt_field "Parent_Id" (enc_blockid <$> lv_pid lv) ++
  opt_field "Parent" parent ++ opt_field "Metadata" (enc_metadata <$> lv_md lv).

Fixpoint enc_block (lv : level) (anc : list level) : jobj :=
  build (block_fields lv match anc with [] => None | lv' :: anc' => Some (enc_block lv' anc') end).

Lemma block_fields_spec lv parent :
  field (block_fields lv parent) "Id" = Some (enc_blockid (lv_id lv)) /\
  field (block_fields lv parent) "Parent_Id" = enc_blockid <$> lv_pid lv /\
  field (block_fields lv parent) "Parent" = parent /\
  field (block_fields lv parent) "Metadata" = enc_metadata <$> lv_md lv.
Proof. unfold block_fields. by destruct (lv_pid lv), parent, (lv_md lv). Qed.

Lemma metadata_fills p m n : metadata_opt p m -> metadata_valid m ->
  fills false (put_opt p (fun l => JsonBuffer_Put_NTLVList sg (Some n) (Some l)))
    (opt_field n (enc_metadata <$> m)).
Proof.
  intros Hm Hv. destruct m as [xs|]; simpl in Hm; [|subst p; apply fills_true].
  pose proof Hm as (l & -> & _). apply encodes_fills.
  eapply Put_NTLVList_encodes; eauto.
Qed.

Lemma pid_fills s n pid : (forall p, pid = Some p -> id_ok p) ->
  fills s (put_opt pid (fun id => JsonBuffer_Put_BlockId (Some n) (Some id)))
    (opt_field n (enc_blockid <$> pid)).
Proof. intros Hp. apply fills_opt. intros x ->. apply Put_BlockId_encodes. auto. Qed.

Lemma Put_Block_encodes b lv anc n : block_rep b lv anc -> Forall level_ok (lv :: anc) ->
  encodes false (JsonBuffer_Put_Block sg (Some n) b) n (enc_block lv anc).
Proof.
  intros Hr. revert n. induction Hr as [id pid p m d Hm|id pid b p m d lv anc Hm Hr IH]; intros n Hok;
    apply Forall_cons in Hok as [(Hid & Hpid & Hmd) Hanc]; simpl in Hid, Hpid, Hmd.
  - apply encodes_object. apply (fills_seq _ _ _ [_]); [by apply encodes_fills, Put_BlockId_encodes|].
    apply fills_seq; [by apply pid_fills|]. apply (fills_seq _ _ _ (opt_field "Parent" None)); [apply fills_true|].
    by apply metadata_fills.
  - apply encodes_object. apply (fills_seq _ _ _ [_]); [by apply encodes_fills, Put_BlockId_encodes|].
    apply fills_seq; [by apply pid_fills|]. apply (fills_seq _ _ _ (opt_field "Parent" (Some _))); [by apply encodes_fills, IH|].
    by apply metadata_fills.
Qed.

Lemma get_opt_reads {A} fs k (v : option jobj) (g : M A) (x : option A) :
  field fs k = v -> (v = None -> x = None) ->
  (forall j, v = Some j -> exists y, x = Some y /\ g [] = Some (Some y, [])) ->
  get_opt (build fs) k g [] = Some (Some x, []).
Proof.
  intros E Hnone Hsome. unfold get_opt. rewrite object_get_build, E. destruct v as [j|].
  - destruct (Hsome j eq_refl) as (y & -> & Eg). by reads Eg.
  - by rewrite Hnone.
Qed.

Lemma pid_reads fs n pid : field fs n = enc_blockid <$> pid -> (forall p, pid = Some p -> id_ok p) ->
  get_opt (build fs) n (JsonBuffer_Get_BlockId (Some (build fs)) (Some n)) [] =
  Some (Some (id_clone <$> pid), []).
Proof.
  intros E Hp. eapply get_opt_reads; [exact E|by destruct pid|]. intros j Hj.
  destruct pid as [p|]; simplify_eq/=. eexists. split; [done|]. apply Get_BlockId_reads; auto.
Qed.

Lemma metadata_reads fs n m : field fs n = enc_metadata <$> m -> metadata_valid m ->
  exists p, get_opt (build fs) n (JsonBuffer_Get_NTLVList sg (Some (build fs)) (Some n)) [] = Some (Some p, []) /\
    metadata_opt p (items_back <$> m).
Proof.
  intros E Hv. destruct m as [xs|]; simpl in *.
  - destruct (Get_NTLVList_reads sg types types_entries types_distinct fs n xs E (Hv xs eq_refl)) as (l & El & Hm).
    exists (Some l). split; [|done]. eapply get_opt_reads; [exact E|done|]. intros j _. by exists l.
  - exists None. split; [|done]. by eapply get_opt_reads; [exact E|..].
Qed.

Lemma Get_Block_reads fuel fs n lv anc : field fs n = Some (enc_block lv anc) ->
  Forall level_ok (lv :: anc) -> (length anc < fuel)%nat ->
  exists b, JsonBuffer_Get_Block sg fuel (Some (build fs)) (Some n) [] = Some (Some b, []) /\
    block_rep b (level_back lv) (map level_back anc).
Proof.
  revert fs n lv anc. induction fuel as [|fuel IH]; intros fs n lv anc E Hok Hf; [lia|].
  apply Forall_cons in Hok as [(Hid & Hpid & Hmd) Hanc].
  cbn [JsonBuffer_Get_Block]. reads (get_field_build _ _ _ [] E). destruct lv as [id pid m].
  cbn [lv_id lv_pid lv_md] in *. cbn [enc_block] in E |- *.
  replace (enc_block (mkLevel id pid m) anc) with (build (block_fields (mkLevel id pid m)
    match anc with [] => None | lv' :: anc' => Some (enc_block lv' anc') end)) by by destruct anc.
  rewrite has_type_build, require_bind. reads alloc_ok.
  destruct (block_fields_spec (mkLevel id pid m)
    match anc with [] => None | lv' :: anc' => Some (enc_block lv' anc') end) as (F1 & F2 & F3 & F4).
  cbn [lv_id lv_pid lv_md] in *. set (fs' := block_fields _ _) in *.
  reads (Get_BlockId_reads fs' "Id" id F1 Hid). reads (pid_reads fs' "Parent_Id" pid F2 Hpid).
  destruct (metadata_reads fs' "Metadata" m F4 Hmd) as (p & Ep & Hp).
  destruct anc as [|lv' anc'].
  - reads (get_opt_reads fs' "Parent" None (JsonBuffer_Get_Block sg fuel (Some (build fs')) (Some "Parent"))
      None F3 ltac:(done) ltac:(done)).
    reads Ep. eexists. split; [done|]. by constructor.
  - destruct (IH fs' "Parent" lv' anc' F3 Hanc) as (b & Eb & Hb); [simpl in Hf; lia|].
    reads (get_opt_reads fs' "Parent" _ (JsonBuffer_Get_Block sg fuel (Some (build fs')) (Some "Parent"))
      (Some b) F3 ltac:(done) ltac:(eauto)).
    reads Ep. eexists. split; [done|]. by constructor.
Qed.

(** *** Events *)

Record elevel := mkELevel {
  el_id : EventId;
  el_pid : option EventId;
  el_md : option (list NTLVItem);
  el_block : option (level * list level)
}.

Definition block_opt (b : option Block) (a : option (level * list level)) : Prop :=
  match b, a with
  | None, None => True
  | Some b, Some (lv, anc) => block_rep b lv anc
  | _, _ => False
  end.

(** [app] is the application type of the outermost event. *)
Inductive event_rep : Event -> uuid_t -> elevel -> list elevel -> Prop :=
  | rep_event id pid app b p m a :
      metadata_opt p m -> block_opt b a ->
      event_rep (mkEvent (Some id) pid None app b p) app (mkELevel id pid m a) []
  | rep_event_parent id pid e app b p m a app' el anc :
      metadata_opt p m -> block_opt b a -> event_rep e app' el anc ->
      event_rep (mkEvent (Some id) pid (Some e) app b p) app (mkELevel id pid m a) (el :: anc).

Definition elevel_ok (el : elevel) : Prop :=
  eventid_ok (el_id el) /\ (forall p, el_pid el = Some p -> eventid_ok p) /\ metadata_valid (el_md el) /\
  (forall lv anc, el_block el = Some (lv, anc) -> Forall level_ok (lv :: anc)).

(** What comes back: a missing metadata list becomes an empty one. *)
Definition elevel_back (el : elevel) : elevel :=
  mkELevel (el_id el) (el_pid el) (Some (default [] (items_back <$> el_md el)))
    ((fun a => (level_back a.1, map level_back a.2)) <$> el_block el).

Definition event_fields (el : elevel) (parent : option jobj) : list (string * jobj) :=
  [("Id", enc_eventid (el_id el))] ++ opt_field "Parent_Id" (enc_eventid <$> el_pid el) ++
  opt_field "Parent" parent ++ opt_field "Metadata" (enc_metadata <$> el_md el) ++
  opt_field "Block" ((fun a => enc_block a.1 a.2) <$> el_block el).

Fixpoint enc_event (el : elevel) (anc : list elevel) : jobj :=
  build (event_fields el match anc with [] => None | el' :: anc' => Some (enc_event el' anc') end).

Lemma event_fields_spec el parent :
  field (event_fields el parent) "Id" = Some (enc_eventid (el_id el)) /\
  field (event_fields el parent) "Parent_Id" = enc_eventid <$> el_pid el /\
  field (event_fields el parent) "Parent" = parent /\
  field (event_fields el parent) "Metadata" = enc_metadata <$> el_md el /\
  field (event_fields el parent) "Block" = (fun a => enc_block a.1 a.2) <$> el_block el.
Proof. unfold event_fields. by destruct (el_pid el), parent, (el_md el), (el_block el). Qed.

Lemma eid_fills s n pid :
  fills s (put_opt pid (fun id => JsonBuffer_Put_EventId (Some n) (Some id)))
    (opt_field n (enc_eventid <$> pid)).
Proof. apply fills_opt. intros x ->. apply Put_EventId_encodes. Qed.

Lemma block_fills n b a : block_opt b a -> (forall lv anc, a = Some (lv, anc) -> Forall level_ok (lv :: anc)) ->
  fills false (put_opt b (fun b => JsonBuffer_Put_Block sg (Some n) b))
    (opt_field n ((fun a => enc_block a.1 a.2) <$> a)).
Proof.
  intros Hb Hok. destruct b as [b|], a as [[lv anc]|]; simpl in Hb; try done; [|apply fills_true].
  apply encodes_fills, Put_Block_encodes; auto.
Qed.

Lemma Put_Event_encodes e app el anc n : event_rep e app el anc -> Forall elevel_ok (el :: anc) ->
  encodes false (JsonBuffer_Put_Event sg (Some n) e) n (enc_event el anc).
Proof.
  intros Hr. revert n. induction Hr as [id pid app b p m a Hm Hb|id pid e app b p m a app' el anc Hm Hb Hr IH];
    intros n Hok; apply Forall_cons in Hok as [(Hid & Hpid & Hmd & Hbl) Hanc]; simpl in Hid, Hpid, Hmd, Hbl.
  - apply encodes_object. apply (fills_seq _ _ _ [_]); [apply encodes_fills, Put_EventId_encodes|].
    apply fills_seq; [apply eid_fills|]. apply (fills_seq _ _ _ (opt_field "Parent" None)); [apply fills_true|].
    apply fills_seq; [by apply metadata_fills|by apply block_fills].
  - apply encodes_object. apply (fills_seq _ _ _ [_]); [apply encodes_fills, Put_EventId_encodes|].
    apply fills_seq; [apply eid_fills|].
    apply (fills_seq _ _ _ (opt_field "Parent" (Some _))); [by apply encodes_fills, IH|].
    apply fills_seq; [by apply metadata_fills|by apply block_fills].
Qed.

Lemma eid_reads fs n pid : field fs n = enc_eventid <$> pid -> (forall p, pid = Some p -> eventid_ok p) ->
  get_opt (build fs) n (JsonBuffer_Get_EventId (Some (build fs)) (Some n)) [] = Some (Some pid, []).
Proof.
  intros E Hp. eapply get_opt_reads; [exact E|by destruct pid|]. intros j Hj.
  destruct pid as [p|]; simplify_eq/=. eexists. split; [done|]. apply Get_EventId_reads; auto.
Qed.

(** The number of levels an event's block adds to the nesting. *)
Definition block_depth (el : elevel) : nat := match el_block el with Some (_, anc) => length anc | None => 0%nat end.

Lemma block_reads fuel fs n a : field fs n = (fun a => enc_block a.1 a.2) <$> a ->
  (forall lv anc, a = Some (lv, anc) -> Forall level_ok (lv :: anc)) ->
  (forall lv anc, a = Some (lv, anc) -> (length anc < fuel)%nat) ->
  exists b, get_opt (build fs) n (JsonBuffer_Get_Block sg fuel (Some (build fs)) (Some n)) [] = Some (Some b, []) /\
    block_opt b ((fun a => (level_back a.1, map level_back a.2)) <$> a).
Proof.
  intros E Hok Hf. destruct a as [[lv anc]|]; simpl in *.
  - destruct (Get_Block_reads fuel fs n lv anc E (Hok _ _ eq_refl) (Hf _ _ eq_refl)) as (b & Eb & Hb).
    exists (Some b). split; [|done]. eapply get_opt_reads; [exact E|done|]. eauto.
  - exists None. split; [|done]. by eapply get_opt_reads; [exact E|..].
Qed.

Lemma event_metadata_reads fs m : field fs "Metadata" = enc_metadata <$> m -> metadata_valid m ->
  exists l, (match json_object_object_get (build fs) "Metadata" with
             | Some _ => JsonBuffer_Get_NTLVList sg (Some (build fs)) (Some "Metadata")
             | None => NTLVList_Create
             end) [] = Some (Some l, []) /\
    metadata (Some l) (default [] (items_back <$> m)).
Proof.
  intros E Hv. rewrite object_get_build, E. destruct m as [xs|]; simpl in *; [|apply Create_metadata_ok].
  by apply (Get_NTLVList_reads sg types types_entries types_distinct); auto.
Qed.

(** The fuel that reading an event takes: one unit for each event of the chain
    and, below an event, one for each block of its chain. *)
Fixpoint event_fits (fuel : nat) (el : elevel) (anc : list elevel) : Prop :=
  match fuel with
  | O => False
  | S fuel' =>
      (forall lv banc, el_block el = Some (lv, banc) -> (length banc < fuel')%nat) /\
      match anc with [] => True | el' :: anc' => event_fits fuel' el' anc' end
  end.

Lemma event_fits_bound fuel el anc :
  Forall (fun x => (length anc + block_depth x + 1 < fuel)%nat) (el :: anc) -> event_fits fuel el anc.
Proof.
  revert el anc. induction fuel as [|fuel IH]; intros el anc Hf; apply Forall_cons in Hf as [Hf Hfs]; [lia|].
  split.
  - intros lv banc E. unfold block_depth in Hf. rewrite E in Hf. lia.
  - destruct anc as [|el' anc']; [done|]. apply IH. eapply Forall_impl; [exact Hfs|]. simpl. intros x Hx. lia.
Qed.

Lemma Get_Event_reads fuel fs n el anc : field fs n = Some (enc_event el anc) ->
  Forall elevel_ok (el :: anc) -> event_fits fuel el anc ->
  exists e, JsonBuffer_Get_Event sg fuel (Some (build fs)) (Some n) [] = Some (Some e, []) /\
    event_rep e uuid_null (elevel_back el) (map elevel_back anc).
Proof.
  revert fs n el anc. induction fuel as [|fuel IH]; intros fs n el anc E Hok Hf; [done|].
  destruct Hf as [Hf Hfs]. apply Forall_cons in Hok as [(Hid & Hpid & Hmd & Hbl) Hanc].
  cbn [JsonBuffer_Get_Event]. reads (get_field_build _ _ _ [] E). destruct el as [id pid m a].
  cbn [el_id el_pid el_md el_block] in *.
  replace (enc_event (mkELevel id pid m a) anc) with (build (event_fields (mkELevel id pid m a)
    match anc with [] => None | el' :: anc' => Some (enc_event el' anc') end)) by by destruct anc.
  rewrite has_type_build, require_bind. reads alloc_ok.
  destruct (event_fields_spec (mkELevel id pid m a)
    match anc with [] => None | el' :: anc' => Some (enc_event el' anc') end) as (F1 & F2 & F3 & F4 & F5).
  cbn [el_id el_pid el_md el_block] in *. set (fs' := event_fields _ _) in *.
  reads (Get_EventId_reads fs' "Id" id F1 Hid). reads (eid_reads fs' "Parent_Id" pid F2 Hpid).
  destruct (event_metadata_reads fs' m F4 Hmd) as (l & El & Hl).
  destruct (block_reads fuel fs' "Block" a F5 Hbl Hf) as (b & Eb & Hb).
  destruct anc as [|el' anc'].
  - reads (get_opt_reads fs' "Parent" None (JsonBuffer_Get_Event sg fuel (Some (build fs')) (Some "Parent"))
      None F3 ltac:(done) ltac:(done)).
    reads El. reads Eb. eexists. split; [done|]. by constructor.
  - destruct (IH fs' "Parent" el' anc' F3 Hanc Hfs) as (e & Ee & He).
    reads (get_opt_reads fs' "Parent" _ (JsonBuffer_Get_Event sg fuel (Some (build fs')) (Some "Parent"))
      (Some e) F3 ltac:(done) ltac:(eauto)).
    reads El. reads Eb. eexists. split; [done|]. by econstructor.
Qed.

(** *** Judgments *)

Record judgment_ok (j : Judgment) (e : EventId) (b : BlockId) (xs : list NTLVItem) : Prop := {
  jok_event : j_pEventId j = Some e /\ eventid_ok e;
  jok_block : j_pBlockId j = Some b /\ id_ok b;
  jok_md : metadata (j_pMetaDataList j) xs /\ Forall item_valid xs;
  jok_time : in_width 64 (j_iSeconds j) /\ in_width 64 (j_iNanoSecs j);
  jok_prio : in_width 8 (j_iPriority j);
  jok_ids : in_width 32 (j_iGID j) /\ in_width 32 (j_iSID j);
  jok_flags : in_width 32 (j_Set_SfFlags j) /\ in_width 32 (j_Set_EntFlags j) /\
    in_width 32 (j_Unset_SfFlags j) /\ in_width 32 (j_Unset_EntFlags j);
  jok_text : text_ok (j_sMessage j)
}.

Definition enc_judgment (j : Judgment) (e : EventId) (b : BlockId) (xs : list NTLVItem) : jobj :=
  build ([("Nugget_ID", enc_uuid (j_uuidNuggetId j)); ("Seconds", enc_uint (j_iSeconds j));
          ("Nano_Seconds", enc_uint (j_iNanoSecs j)); ("Event_ID", enc_eventid e);
          ("Block_ID", enc_blockid b); ("Priority", enc_uint (j_iPriority j));
          ("Metadata", enc_metadata xs); ("GID", enc_uint (j_iGID j)); ("SID", enc_uint (j_iSID j));
          ("Set_SF_Flags", enc_uint (j_Set_SfFlags j)); ("Set_Ent_Flags", enc_uint (j_Set_EntFlags j));
          ("Unset_SF_Flags", enc_uint (j_Unset_SfFlags j)); ("Unset_Ent_Flags", enc_uint (j_Unset_EntFlags j))] ++
         opt_field "Message" (enc_string <$> j_sMessage j)).

Lemma Put_Judgment_encodes n j e b xs : judgment_ok j e b xs ->
  encodes false (JsonBuffer_Put_Judgment sg (Some n) (Some j)) n (enc_judgment j e b xs).
Proof.
  intros [[He _] [Hb Hbok] [Hm Hx] _ _ _ _ _]. apply encodes_object. unfold JsonBuffer_Put_JudgmentFields.
  rewrite He, Hb.
  do 3 (apply (fills_seq _ _ _ [_]); [fills_step|]).
  apply (fills_seq _ _ _ [_]); [apply encodes_fills, Put_EventId_encodes|].
  apply (fills_seq _ _ _ [_]); [by apply encodes_fills, Put_BlockId_encodes|].
  apply (fills_seq _ _ _ [_]); [fills_step|].
  apply (fills_seq _ _ _ [_]); [apply encodes_fills; by eapply Put_NTLVList_encodes|].
  do 6 (apply (fills_seq _ _ _ [_]); [fills_step|]). fills_step.
Qed.

Lemma Get_Judgment_reads fs n j e b xs : field fs n = Some (enc_judgment j e b xs) -> judgment_ok j e b xs ->
  exists l, metadata (Some l) (items_back xs) /\
    JsonBuffer_Get_Judgment sg (Some (build fs)) (Some n) [] =
    Some (Some (mkJudgment (j_uuidNuggetId j) (j_iSeconds j) (j_iNanoSecs j) (Some e) (Some (id_clone b))
      (j_iPriority j) (Some l) (j_iGID j) (j_iSID j) (j_Set_SfFlags j) (j_Set_EntFlags j)
      (j_Unset_SfFlags j) (j_Unset_EntFlags j) (j_sMessage j)), []).
Proof.
  intros E [[He Heok] [Hb Hbok] [Hm Hx] [T1 T2] P [I1 I2] (G1 & G2 & G3 & G4) Ht].
  unfold JsonBuffer_Get_Judgment. reads (get_field_build _ _ _ [] E). unfold enc_judgment.
  rewrite has_type_build, require_bind. reads alloc_ok. set (fs' := _ ++ _).
  assert (Hf : Forall (fun f => field fs' f.1 = Some f.2)
    [("Nugget_ID", enc_uuid (j_uuidNuggetId j)); ("Seconds", enc_uint (j_iSeconds j));
     ("Nano_Seconds", enc_uint (j_iNanoSecs j)); ("Event_ID", enc_eventid e);
     ("Block_ID", enc_blockid b); ("Priority", enc_uint (j_iPriority j));
     ("Metadata", enc_metadata xs); ("GID", enc_uint (j_iGID j)); ("SID", enc_uint (j_iSID j));
     ("Set_SF_Flags", enc_uint (j_Set_SfFlags j)); ("Set_Ent_Flags", enc_uint (j_Set_EntFlags j));
     ("Unset_SF_Flags", enc_uint (j_Unset_SfFlags j)); ("Unset_Ent_Flags", enc_uint (j_Unset_EntFlags j))] /\
    field fs' "Message" = enc_string <$> j_sMessage j).
  { subst fs'. destruct (j_sMessage j); (split; [repeat (apply Forall_cons_2; [done|]); constructor|done]). }
  destruct Hf as [Hf Fm]. rewrite !Forall_cons in Hf.
  destruct Hf as (F1 & F2 & F3 & F4 & F5 & F6 & F7 & F8 & F9 & F10 & F11 & F12 & F13 & _).
  cbn [fst snd] in *. clearbody fs'.
  destruct (Get_NTLVList_reads sg types types_entries types_distinct fs' "Metadata" xs F7 Hx) as (l & El & Hl).
  exists l. split; [done|].
  reads (Get_UUID_reads _ _ _ F1). reads (Get_uint64_reads _ _ _ F2 T1). reads (Get_uint64_reads _ _ _ F3 T2).
  reads (Get_EventId_reads _ _ _ F4 Heok). reads (Get_BlockId_reads _ _ _ F5 Hbok).
  reads (Get_uint8_reads _ _ _ F6 P). reads El.
  reads (Get_uint32_reads _ _ _ F8 I1). reads (Get_uint32_reads _ _ _ F9 I2).
  reads (Get_uint32_reads _ _ _ F10 G1). reads (Get_uint32_reads _ _ _ F11 G2).
  reads (Get_uint32_reads _ _ _ F12 G3). reads (Get_uint32_reads _ _ _ F13 G4).
  by reads (Get_OptionalString_reads _ _ _ Fm Ht).
Qed.
End Objects.

(** ** Lists *)

Section Lists.
Context `{JsonCLaws} `{LibUuidLaws}.

(** An operation of [List_ForEach] that appends the encoding of its item. *)
Definition appends {Item} (s : bool) (op : Item -> jobj -> allocs -> option (Z * jobj * allocs))
    (x : Item) (v : jobj) : Prop := forall vs o, allowed s o ->
  exists r u' o', op x (arr vs) o = Some (r, u', o') /\ allowed s o' /\
    (r = LIST_EACH_OK /\ u' = arr (vs ++ [v]) \/ r = LIST_EACH_ERROR) /\
    (o = [] -> r = LIST_EACH_OK /\ o' = []).

Lemma each_appends {Item} s op (enc : Item -> jobj) xs : Forall (fun x => appends s op x (enc x)) xs ->
  forall vs o, allowed s o -> exists b u' o', each op xs (arr vs) o = Some (b, u', o') /\ allowed s o' /\
    (b = true -> u' = arr (vs ++ map enc xs)) /\ (o = [] -> b = true /\ o' = []).
Proof.
  induction 1 as [|x xs Hx _ IH]; intros vs o Ho.
  { exists true, (arr vs), o. split_and!; try done. intros _. by rewrite app_nil_r. }
  cbn [each]. destruct (Hx vs o Ho) as (r & u1 & o1 & -> & Ho1 & Hr & Hn). cbn [mbind option_bind].
  destruct Hr as [[-> ->]| ->].
  - destruct (IH (vs ++ [enc x]) o1 Ho1) as (b & u' & o' & E & Ho' & Hb & Hn').
    exists b, u', o'. split_and!; try done.
    + intros Hb'. rewrite (Hb Hb'). by rewrite <- app_assoc.
    + intros Hnil. apply Hn', Hn, Hnil.
  - exists false, u1, o1. split_and!; try done. intros Hnil. by destruct (Hn Hnil).
Qed.

Lemma list_encodes {Key Item} s op (enc : Item -> jobj) (l : vlist Key Item) xs n :
  contents l xs -> plain l -> keeps op xs -> Forall (fun x => appends s op x (enc x)) xs ->
  encodes s (put_child (Some n) json_object_new_array (put_each (Some l) op)) n (arr (map enc xs)).
Proof.
  intros Hc Hp Hk Hx. apply encodes_child. intros o Ho. unfold put_each. cbn [mbind option_bind].
  rewrite (ForEach_each _ l xs _ _ Hc (plain_locks _ Hp) Hk).
  destruct (each_appends s op enc xs Hx [] o Ho) as (b & u' & o' & E & Ho' & Hb & Hn).
  change (arr []) with json_object_new_array in E. rewrite E. cbn [mbind option_bind].
  exists b, u', o'. split_and!; try done.
Qed.

(** *** UUID lists *)

Definition node_ok (x : UUIDListNode) : Prop :=
  strlen (un_sName x) <> 0 /\ nul_free (un_sName x) = true /\ text_ok (un_sDescription x).

Definition node_fields (x : UUIDListNode) : list (string * jobj) :=
  [("id", enc_string (uuid_unparse (un_uuid x))); ("name", enc_string (un_sName x))] ++
  opt_field "description" (enc_string <$> un_sDescription x).
Definition enc_node (x : UUIDListNode) : jobj := build (node_fields x).

Lemma UUIDList_Add_appends s x : node_ok x -> appends s JsonBuffer_Put_UUIDList_Add x (enc_node x).
Proof.
  intros (Hn & _) vs o Ho. unfold JsonBuffer_Put_UUIDList_Add. pose proof (allowed_next _ _ Ho) as Ho1.
  destruct (alloc_next o) as [ok o1] eqn:Eo. simpl in Ho1. destruct ok; cbn [negb].
  2: { eexists _, _, o1. split_and!; [done..|by right|]. by intros ->. }
  set (P := put_seq _ _).
  assert (HP : fills s P (node_fields x)).
  { apply (fills_seq _ _ _ [_]); [fills_step|]. apply (fills_seq _ _ _ [_]).
    - destruct (Z.eqb_spec (strlen (un_sName x)) 0); [done|fills_step].
    - apply fills_opt. intros d _. apply Put_String_encodes. }
  destruct (HP [] o1 Ho1) as (b & p & o2 & E & Ho2 & Hb & Hnil).
  change (build []) with json_object_new_object in E. rewrite E. cbn [mbind option_bind].
  destruct b; cbn [mbind option_bind].
  - rewrite (Hb eq_refl). eexists _, _, o2. split_and!; [done..| |].
    + left. split; [done|]. by rewrite arr_snoc.
    + intros ->. injection Eo as <-. split; [done|]. by apply Hnil.
  - eexists _, _, o2. split_and!; [done..|by right|]. intros ->. injection Eo as <-.
    by destruct (Hnil eq_refl).
Qed.

Lemma UUIDList_Add_keeps xs : keeps JsonBuffer_Put_UUIDList_Add xs.
Proof.
  intros x u o r u' o' _. unfold JsonBuffer_Put_UUIDList_Add. destruct (alloc_next o) as [[] o1]; cbn [negb].
  - destruct (put_seq _ _ _ _) as [[[b [p|]] o2]|]; cbn [mbind option_bind]; [| |done];
      destruct b; try done; intros [= <- <- <-]; auto.
  - intros [= <- <- <-]. auto.
Qed.

Lemma Put_UUIDList_encodes s p xs n : entries p xs -> Forall node_ok xs ->
  encodes s (JsonBuffer_Put_UUIDList (Some n) p) n (arr (map enc_node xs)).
Proof.
  intros (l & -> & Hc & Hp & _) Hx. apply list_encodes; [done..|apply UUIDList_Add_keeps|].
  eapply Forall_impl; [exact Hx|]. intros x. apply UUIDList_Add_appends.
Qed.

Lemma node_reads x p ys : node_ok x -> entries p ys ->
  exists p', (uuidS ← JsonBuffer_Get_String (Some (enc_node x)) (Some "id");
    nameS ← JsonBuffer_Get_String (Some (enc_node x)) (Some "name");
    require (strlen nameS != 0) ;;
    desc ← JsonBuffer_Get_OptionalString (Some (enc_node x)) (Some "description");
    uuid ← nonnull (uuid_parse uuidS);
    UUID_Add_List_Entry p uuid (Some nameS) desc) [] = Some (Some p', []) /\ entries p' (ys ++ [x]).
Proof.
  intros (Hn & Hnf & Ht) He. unfold enc_node.
  assert (F : field (node_fields x) "id" = Some (enc_string (uuid_unparse (un_uuid x))) /\
    field (node_fields x) "name" = Some (enc_string (un_sName x)) /\
    field (node_fields x) "description" = enc_string <$> un_sDescription x).
  { unfold node_fields. by destruct (un_sDescription x). }
  destruct F as (F1 & F2 & F3). reads (Get_String_reads _ _ _ F1 (uuid_unparse_nul_free _)).
  reads (Get_String_reads _ _ _ F2 Hnf). rewrite require_bind.
  destruct (Z.eqb_spec (strlen (un_sName x)) 0); [done|]. cbn [negb].
  reads (Get_OptionalString_reads _ _ _ F3 Ht). rewrite uuid_parse_unparse. unfold nonnull. rewrite M_ret_bind.
  destruct (Add_List_Entry_ok p ys (un_uuid x) (un_sName x) (un_sDescription x) He Hn) as (p' & E & He').
  exists p'. split; [done|]. by destruct x.
Qed.

Lemma Get_UUIDList_reads fs n xs : field fs n = Some (arr (map enc_node xs)) -> Forall node_ok xs ->
  exists l, JsonBuffer_Get_UUIDList (Some (build fs)) (Some n) [] = Some (Some l, []) /\ entries (Some l) xs.
Proof.
  intros E Hx. unfold JsonBuffer_Get_UUIDList. reads (get_field_build _ _ _ [] E).
  rewrite has_type_arr, require_bind. destruct Create_List_ok as (l & El & He). reads El. unfold array_for.
  rewrite array_length_arr, length_map.
  lazymatch goal with |- context [array_loop ?f] =>
    destruct (array_loop_reads f entries enc_node id node_ok) with (xs := xs) (pre := @nil UUIDListNode)
      (acc := Some l) (ys := @nil UUIDListNode) as (p' & El' & He'); [|exact He|exact Hx|] end.
  - intros acc ys x Ha Hv. change (nonnull (Some (enc_node x))) with (mret (enc_node x) : M jobj).
    rewrite M_ret_bind, require_bind. unfold enc_node at 1. rewrite has_type_build. by apply node_reads.
  - reads El'. rewrite map_id in He'. pose proof He' as (l' & -> & _). by exists l'.
Qed.

(** *** String lists *)

Lemma StringList_Add_appends s x : appends s JsonBuffer_Put_StringList_Add x (enc_string x).
Proof.
  intros vs o Ho. unfold JsonBuffer_Put_StringList_Add. pose proof (allowed_next _ _ Ho) as Ho1.
  destruct (alloc_next o) as [[] o1] eqn:Eo; cbn [negb]; eexists _, _, o1; (split_and!; [done..| |]).
  - left. split; [done|]. by rewrite arr_snoc.
  - intros ->. by injection Eo as <-.
  - by right.
  - by intros ->.
Qed.

Lemma StringList_Add_keeps xs : keeps JsonBuffer_Put_StringList_Add xs.
Proof.
  intros x u o r u' o' _. unfold JsonBuffer_Put_StringList_Add.
  destruct (alloc_next o) as [[] o1]; intros [= <- <- <-]; auto.
Qed.

Lemma Put_StringList_encodes p xs n : strings p xs ->
  encodes false (JsonBuffer_Put_StringList (Some n) p) n (arr (map enc_string xs)).
Proof.
  intros (l & -> & Hc & Hp & _). apply encodes_child. intros o [Ho| ->]; [done|]. unfold put_each.
  cbn [mbind option_bind].
  rewrite (ForEach_each _ l xs _ _ Hc (plain_locks _ Hp) (StringList_Add_keeps xs)).
  destruct (each_appends false JsonBuffer_Put_StringList_Add enc_string xs) with (vs := @nil jobj) (o := @nil bool)
    as (b & u' & o' & E & Ho' & Hb & Hn); [|by right|].
  { apply Forall_forall. intros x _. apply StringList_Add_appends. }
  change (arr []) with json_object_new_array in E. rewrite E. cbn [mbind option_bind].
  destruct (Hn eq_refl) as [-> ->]. eexists true, u', []. split_and!; try done; by right.
Qed.

Lemma Get_StringList_reads fs n xs : field fs n = Some (arr (map enc_string xs)) ->
  Forall (fun x => nul_free x = true) xs ->
  exists l, JsonBuffer_Get_StringList (Some (build fs)) (Some n) [] = Some (Some l, []) /\ strings (Some l) xs.
Proof.
  intros E Hx. unfold JsonBuffer_Get_StringList. reads (get_field_build _ _ _ [] E).
  rewrite has_type_arr, require_bind. destruct Create_strings_ok as (l & El & He). reads El. unfold array_for.
  rewrite array_length_arr, length_map.
  lazymatch goal with |- context [array_loop ?f] =>
    destruct (array_loop_reads f strings enc_string id (fun x => nul_free x = true)) with (xs := xs)
      (pre := @nil string) (acc := Some l) (ys := @nil string) as (p' & El' & He'); [|exact He|exact Hx|] end.
  - intros acc ys x Ha Hv. unfold nonnull. rewrite M_ret_bind, require_bind.
    unfold has_type, enc_string. rewrite type_new_string, bool_decide_eq_true_2, get_string_new by done.
    by apply StringList_Add_ok.
  - reads El'. rewrite map_id in He'. pose proof He' as (l' & -> & _). by exists l'.
Qed.

(** *** Lists of bytes *)

Lemma put_uint8s_outcome s xs vs o : allowed s o ->
  outcome s (put_uint8s xs (Some (arr vs)) o) o (arr (vs ++ map json_object_new_int xs)).
Proof.
  revert vs o. induction xs as [|x xs IH]; intros vs o Ho.
  { exists true, (arr vs), o. split_and!; try done. intros _. by rewrite app_nil_r. }
  cbn [put_uint8s]. pose proof (allowed_next _ _ Ho) as Ho1. destruct (alloc_next o) as [[] o1] eqn:Eo; cbn [negb].
  - cbn [mbind option_bind]. rewrite <- arr_snoc. destruct (IH (vs ++ [json_object_new_int x]) o1 Ho1)
      as (b & p' & o' & E & Ho' & Hb & Hn). exists b, p', o'. split_and!; try done.
    + intros Hb'. rewrite (Hb Hb'). by rewrite <- app_assoc.
    + intros ->. injection Eo as <-. by apply Hn.
  - exists false, (arr vs), o1. split_and!; try done. by intros ->.
Qed.

Lemma Put_uint8List_encodes s n xs :
  encodes s (JsonBuffer_Put_uint8List (Some n) xs) n (arr (map json_object_new_int xs)).
Proof. apply encodes_child. intros o Ho. exact (put_uint8s_outcome s xs [] o Ho). Qed.

Lemma Get_uint8List_reads fs n xs : field fs n = Some (arr (map json_object_new_int xs)) ->
  Forall (fun x => - 2 ^ 31 <= x < 2 ^ 31) xs -> in_width 32 (Z.of_nat (length xs)) ->
  JsonBuffer_Get_uint8List (Some (build fs)) (Some n) [] = Some (Some (map u8 xs), []).
Proof.
  intros E Hx Hl. unfold JsonBuffer_Get_uint8List. reads (get_field_build _ _ _ [] E).
  rewrite has_type_arr, require_bind, array_length_arr, length_map.
  unfold u32. rewrite wrap_small, Nat2Z.id by done.
  rewrite (M_bind_ok _ _ _ () []) by by destruct (length xs).
  lazymatch goal with |- array_loop ?f _ _ _ _ _ = _ =>
    destruct (array_loop_reads f (fun acc ys => acc = ys) json_object_new_int u8
      (fun x => - 2 ^ 31 <= x < 2 ^ 31)) with (xs := xs) (pre := @nil Z) (acc := @nil Z) (ys := @nil Z)
      as (p' & El' & He'); [|done|exact Hx|] end.
  - intros acc ys x -> Hv. unfold nonnull. rewrite M_ret_bind, require_bind.
    unfold has_type. rewrite type_new_int, bool_decide_eq_true_2, get_int_new by done. by eexists.
  - cbn [app map length] in El', He'. by rewrite El', He'.
Qed.
End Lists.
