(* ===== verification/JsonSafety.v ===== *)
(** * Reading arbitrary JSON

    Whatever the input and the allocator do, the [JsonBuffer_Get_...] functions do
    not crash, given the stack the nesting of the input needs, and what they return
    is well formed. *)

From S2P Require Import Prelude CLib RzbList RzbListProps ListM Hash LibUuid Uuids Ntlv Blocks JsonC JsonBuffer JsonCodec JsonNtlv JsonObjects.

Section Scalars.
Context `{JsonCLaws} `{Base64} `{LibUuidLaws} `{EVP}.
Implicit Types (p : option jobj) (n : option string).

Lemma get_field_ensures p n : ensures (get_field p n) (fun v =>
  exists j k, p = Some j /\ n = Some k /\ json_object_object_get j k = Some v).
Proof.
  unfold get_field. m_step. m_step. eapply ensures_weaken; [apply ensures_nonnull|].
  intros v E. eauto.
Qed.

Lemma Parse_ensures t max : ensures (JsonBuffer_ParseUnsignedText t max) (fun v => in_width 64 v /\ v <= max).
Proof.
  unfold JsonBuffer_ParseUnsignedText. m_step. destruct x as [|c x]; [m_step|]. m_step; [m_step|].
  destruct (strtoumax _) as [[v r] e] eqn:E. destruct r as [r|], e; try m_step.
  m_step. m_step. apply strtoumax_range in E. split; [done|]. lia.
Qed.

Lemma Get_uint64_ensures p n : ensures (JsonBuffer_Get_uint64_t p n) (in_width 64).
Proof.
  unfold JsonBuffer_Get_uint64_t. m_step; [apply get_field_ensures|]. intros v _.
  destruct (json_object_get_type v); try m_step;
    (eapply ensures_weaken; [apply Parse_ensures|by intros ? []]).
Qed.

Lemma Get_uint32_ensures p n : ensures (JsonBuffer_Get_uint32_t p n) (in_width 32).
Proof.
  unfold JsonBuffer_Get_uint32_t. m_step; [apply Get_uint64_ensures|]. intros v _. m_step. m_step.
  unfold u32. apply wrap_range. lia.
Qed.

Lemma Get_uint8_ensures p n : ensures (JsonBuffer_Get_uint8_t p n) (in_width 8).
Proof.
  unfold JsonBuffer_Get_uint8_t. m_step; [apply get_field_ensures|]. intros v _. m_step.
  m_step; [apply Parse_ensures|]. intros x _. m_step. unfold u8. apply wrap_range. lia.
Qed.

Lemma Get_String_ensures p n : ensures (JsonBuffer_Get_String p n) (fun _ => True).
Proof.
  unfold JsonBuffer_Get_String. m_step; [apply get_field_ensures|]. intros v _. m_step. m_step. by m_step.
Qed.

Lemma Get_JsonString_ensures p n : ensures (JsonBuffer_Get_JsonString p n) (fun _ => True).
Proof.
  unfold JsonBuffer_Get_JsonString. m_step; [apply get_field_ensures|]. intros v _. m_step. m_step. by m_step.
Qed.

Lemma Get_OptionalString_ensures p n : ensures (JsonBuffer_Get_OptionalString p n) (fun _ => True).
Proof.
  unfold JsonBuffer_Get_OptionalString. m_step. m_step. case_match; [|by m_step].
  m_step; [apply Get_String_ensures|]. intros t _. by m_step.
Qed.

Lemma Get_ByteArray_ensures p n : ensures (JsonBuffer_Get_ByteArray p n)
  (fun r => r.1 = u32 (Z.of_nat (length r.2))).
Proof.
  unfold JsonBuffer_Get_ByteArray. m_step; [apply get_field_ensures|]. intros v _. do 5 m_step. by m_step.
Qed.

Lemma Get_UUID_ensures p n : ensures (JsonBuffer_Get_UUID p n) (fun _ => True).
Proof.
  unfold JsonBuffer_Get_UUID. m_step; [apply get_field_ensures|]. intros v _. m_step.
  m_step; [apply Get_String_ensures|]. intros t _. eapply ensures_true, ensures_nonnull.
Qed.

Lemma From_String_ensures t s : ensures (Hash_Create_From_String t s) complete.
Proof.
  intros o. destruct (Hash_Create_From_String t s o) as [[r o']|] eqn:E.
  - exists r, o'. split; [done|]. intros h ->. apply From_String_inv in E as (? & _ & _ & _ & Hc & _). done.
  - exfalso. revert E. destruct s as [s|]; [|done]. rewrite From_String_text, require_bind.
    case_match; [|done]. rewrite !alloc_bind. by repeat case_match.
Qed.

Lemma Get_Hash_ensures p n : ensures (JsonBuffer_Get_Hash p n) complete.
Proof.
  unfold JsonBuffer_Get_Hash. m_step; [apply get_field_ensures|]. intros v _. m_step.
  m_step; [apply get_field_ensures|]. intros v1 _. m_step.
  m_step; [apply get_field_ensures|]. intros v2 _. m_step.
  repeat (m_step; [apply From_String_ensures|]). m_step.
Qed.

Lemma Get_BlockId_ensures p n : ensures (JsonBuffer_Get_BlockId p n) id_ok.
Proof.
  unfold JsonBuffer_Get_BlockId. m_step; [apply get_field_ensures|]. intros v _. m_step. m_step.
  m_step; [apply Get_Hash_ensures|]. intros h Hh. m_step; [apply Get_uint64_ensures|]. intros s Hs.
  m_step; [apply Get_UUID_ensures|]. intros u _. m_step. split; [|done]. simpl. eauto.
Qed.

Lemma Get_EventId_ensures p n : ensures (JsonBuffer_Get_EventId p n) eventid_ok.
Proof.
  unfold JsonBuffer_Get_EventId. m_step; [apply get_field_ensures|]. intros v _. m_step.
  m_step; [apply get_field_ensures|]. intros v1 _. m_step. m_step.
  m_step; [apply Get_UUID_ensures|]. intros u _.
  m_step; [apply Get_uint64_ensures|]. intros s Hs. m_step; [apply Get_uint64_ensures|]. intros s' Hs'.
  by m_step.
Qed.
End Scalars.

Section Objects.
Context `{JsonCLaws} `{Base64} `{InetLaws} `{LibUuidLaws} `{EVP}.
Variable sg : UuidLists.
Variable types : list UUIDListNode.
Hypothesis types_entries : entries (UUID_Get_List sg UUID_TYPE_NTLV_TYPE) types.

Lemma Matches_ensures n u : ensures (JsonBuffer_NamedNTLVTypeMatches sg n u) (fun _ => True).
Proof. intros o. rewrite (NamedNTLVTypeMatches_eq _ _ types_entries). by eexists _, _. Qed.

Lemma or_else_ensures a b : ensures a (fun _ => True) -> ensures b (fun _ => True) ->
  ensures (or_else a b) (fun _ => True).
Proof. intros Ha Hb. unfold or_else. m_step; [exact Ha|]. intros x _. m_step; [by m_step|done]. Qed.

(** Some list of metadata. *)
Definition some_metadata (p : option ntlv_list) : Prop := exists xs, metadata p xs.

Lemma u32_le x : 0 <= x -> u32 x <= x.
Proof. intros. unfold u32, wrap. apply Z.mod_le; lia. Qed.

Lemma Add_ensures p name type size d : some_metadata p -> size <= Z.of_nat (length d) ->
  ensures (NTLVList_Add p name type size (Some d)) some_metadata.
Proof.
  intros (xs & Hm) Hs o. destruct (NTLVList_Add_total p xs name type size d o Hm Hs) as (r & o' & E & Hr).
  exists r, o'. split; [done|]. intros p' ->. destruct (Hr p' eq_refl) as (bs & b & _ & Hp'). by eexists.
Qed.

Lemma add_text_ensures p name type t : some_metadata p -> ensures (ntlv_add_text sg p name type t) some_metadata.
Proof.
  intros Hp. unfold ntlv_add_text, JsonBuffer_NTLVTypeUsesJsonValue.
  assert (Hs : u32 (strlen t + 1) <= Z.of_nat (length (bytes_of_cstr t))).
  { rewrite length_bytes_of_cstr. apply u32_le. unfold strlen. lia. }
  m_step; [apply Matches_ensures|]. intros b _. m_step; [by apply Add_ensures|].
  m_step; [apply Matches_ensures|]. intros b1 _. m_step; [m_step|].
  m_step; [apply Matches_ensures|]. intros b2 _. m_step; [m_step; apply Add_ensures; [done|simpl; lia]|].
  m_step; [apply Matches_ensures|]. intros b3 _. m_step; [m_step; apply Add_ensures; [done|simpl; lia]|].
  m_step; [apply Matches_ensures|]. intros b4 _. m_step.
  { m_step. apply Add_ensures; [done|]. by erewrite inet_pton4_length. }
  m_step; [apply Matches_ensures|]. intros b5 _. m_step; [|m_step].
  m_step. apply Add_ensures; [done|]. by erewrite inet_pton6_length.
Qed.

Lemma Get_NTLVItem_ensures p j : some_metadata p -> ensures (JsonBuffer_Get_NTLVItem sg p j) some_metadata.
Proof.
  intros Hp. unfold JsonBuffer_Get_NTLVItem, JsonBuffer_NTLVTypeUsesJsonValue, JsonBuffer_NTLVTypeUsesStringValue.
  m_step; [apply Get_UUID_ensures|]. intros name _. m_step; [apply Get_UUID_ensures|]. intros type _. m_step.
  m_step; [|m_step].
  - m_step; [apply Get_String_ensures|]. intros t _. by apply add_text_ensures.
  - m_step; [apply Get_ByteArray_ensures|]. intros [size d] Hs. simpl in Hs.
    m_step; [repeat apply or_else_ensures; apply Matches_ensures|]. intros b _. m_step; [m_step|].
    apply Add_ensures; [done|]. rewrite Hs. apply u32_le. lia.
  - m_step; [apply Get_JsonString_ensures|]. intros t _. m_step; [apply Matches_ensures|]. intros b _.
    m_step; [|m_step]. apply Add_ensures; [done|]. rewrite length_bytes_of_cstr. apply u32_le. unfold strlen. lia.
Qed.

Lemma array_loop_ensures {A} (f : option jobj -> A -> M A) (Q : A -> Prop) :
  (forall e acc, Q acc -> ensures (f e acc) Q) ->
  forall n j i acc, Q acc -> ensures (array_loop f j n i acc) Q.
Proof.
  intros Hf. induction n as [|n IH]; intros j i acc Ha; cbn [array_loop]; [by m_step|].
  m_step; [by apply Hf|]. intros acc' Ha'. by apply IH.
Qed.

Lemma Get_NTLVList_ensures p n : ensures (JsonBuffer_Get_NTLVList sg p n) (fun l => some_metadata (Some l)).
Proof.
  unfold JsonBuffer_Get_NTLVList. m_step; [apply get_field_ensures|]. intros v _. m_step.
  m_step; [apply create_ensures|]. intros l (Hc & Hp & _ & Hk & _ & Hcl).
  eapply ensures_bind; [apply (array_loop_ensures _ some_metadata)|].
  - intros e acc Ha. m_step. m_step. by apply Get_NTLVItem_ensures.
  - exists [], l. by split_and!.
  - intros r (xs & l' & -> & Hl'). simpl. apply ensures_ret. exists xs, l'. by split.
Qed.

(** Some well-formed chain of blocks. *)
Definition wf_block (b : Block) : Prop := exists lv anc, block_rep b lv anc /\
  Forall (fun lv => id_ok (lv_id lv) /\ forall p, lv_pid lv = Some p -> id_ok p) (lv :: anc).

Lemma get_opt_ensures {A} j k (m : M A) Q :
  (forall v, json_object_object_get j k = Some v -> ensures m Q) ->
  ensures (get_opt j k m) (fun r => forall x, r = Some x -> Q x).
Proof.
  intros Hm. unfold get_opt. case_match; [|by m_step]. m_step; [by eapply Hm|]. intros x Hx. m_step.
  by intros y [= <-].
Qed.

Lemma some_metadata_opt p : (forall l, p = Some l -> some_metadata (Some l)) -> exists m, metadata_opt p m.
Proof.
  intros Hp. destruct p as [l|]; [|by exists None]. destruct (Hp l eq_refl) as (xs & ?). by exists (Some xs).
Qed.

Lemma Get_Block_ensures fuel j n : (json_depth j < fuel)%nat ->
  ensures (JsonBuffer_Get_Block sg fuel (Some j) n) wf_block.
Proof.
  revert j n. induction fuel as [|fuel IH]; intros j n Hf; [lia|]. cbn [JsonBuffer_Get_Block].
  m_step; [apply get_field_ensures|]. intros v (j' & k & [= <-] & _ & Hv%depth_object_get). m_step. m_step.
  m_step; [apply Get_BlockId_ensures|]. intros id Hid.
  m_step; [apply get_opt_ensures; intros; apply Get_BlockId_ensures|]. intros pid Hpid.
  m_step; [apply get_opt_ensures; intros; apply IH; lia|]. intros pb Hpb.
  m_step; [apply get_opt_ensures; intros; apply Get_NTLVList_ensures|]. intros md Hmd. m_step.
  destruct (some_metadata_opt md Hmd) as (m & Hm). destruct pb as [b|].
  - destruct (Hpb b eq_refl) as (lv & anc & Hb & Hok). exists (mkLevel id pid m), (lv :: anc).
    split; [by constructor|]. by constructor.
  - exists (mkLevel id pid m), []. split; [by constructor|].
    apply Forall_cons_2; [done|constructor].
Qed.

(** Some well-formed chain of events, each with a metadata list. *)
Definition wf_event (e : Event) : Prop := exists el anc, event_rep e uuid_null el anc /\
  Forall (fun el => eventid_ok (el_id el) /\ (forall p, el_pid el = Some p -> eventid_ok p) /\
    el_md el <> None) (el :: anc).

Lemma Get_Event_ensures fuel j n : (json_depth j < fuel)%nat ->
  ensures (JsonBuffer_Get_Event sg fuel (Some j) n) wf_event.
Proof.
  revert j n. induction fuel as [|fuel IH]; intros j n Hf; [lia|]. cbn [JsonBuffer_Get_Event].
  m_step; [apply get_field_ensures|]. intros v (j' & k & [= <-] & _ & Hv%depth_object_get). m_step. m_step.
  m_step; [apply Get_EventId_ensures|]. intros id Hid.
  m_step; [apply get_opt_ensures; intros; apply Get_EventId_ensures|]. intros pid Hpid.
  m_step; [apply get_opt_ensures; intros; apply IH; lia|]. intros pe Hpe.
  eapply (ensures_bind _ _ (fun l => some_metadata (Some l))).
  { case_match; [apply Get_NTLVList_ensures|]. eapply ensures_weaken; [apply create_ensures|].
    intros l (Hc & Hp & _ & Hk & _ & Hcl). exists [], l. by split_and!. }
  intros md (xs & Hmd).
  m_step; [apply get_opt_ensures; intros; apply (Get_Block_ensures fuel); lia|]. intros b Hb. m_step.
  assert (Ha : exists a, block_opt b a).
  { destruct b as [b|]; [|by exists None]. destruct (Hb b eq_refl) as (lv & anc & ? & _). by exists (Some (lv, anc)). }
  destruct Ha as (a & Ha). destruct pe as [e|].
  - destruct (Hpe e eq_refl) as (el & anc & He & Hok). exists (mkELevel id pid (Some xs) a), (el :: anc).
    split; [by econstructor|]. by constructor.
  - exists (mkELevel id pid (Some xs) a), []. split; [by constructor|].
    apply Forall_cons_2; [done|constructor].
Qed.

(** What a judgment read from JSON satisfies. *)
Definition wf_judgment (j : Judgment) : Prop :=
  (exists e, j_pEventId j = Some e /\ eventid_ok e) /\ (exists b, j_pBlockId j = Some b /\ id_ok b) /\
  some_metadata (j_pMetaDataList j) /\ in_width 8 (j_iPriority j) /\
  in_width 64 (j_iSeconds j) /\ in_width 64 (j_iNanoSecs j) /\ in_width 32 (j_iGID j) /\ in_width 32 (j_iSID j) /\
  in_width 32 (j_Set_SfFlags j) /\ in_width 32 (j_Set_EntFlags j) /\
  in_width 32 (j_Unset_SfFlags j) /\ in_width 32 (j_Unset_EntFlags j).

Lemma Get_Judgment_ensures p n : ensures (JsonBuffer_Get_Judgment sg p n) wf_judgment.
Proof.
  unfold JsonBuffer_Get_Judgment. m_step; [apply get_field_ensures|]. intros v _. m_step. m_step.
  m_step; [apply Get_UUID_ensures|]. intros u _.
  m_step; [apply Get_uint64_ensures|]. intros sec Hs. m_step; [apply Get_uint64_ensures|]. intros nsec Hns.
  m_step; [apply Get_EventId_ensures|]. intros e He. m_step; [apply Get_BlockId_ensures|]. intros b Hb.
  m_step; [apply Get_uint8_ensures|]. intros prio Hp. m_step; [apply Get_NTLVList_ensures|]. intros md Hmd.
  do 6 (m_step; [apply Get_uint32_ensures|]; intros ? ?).
  m_step; [apply Get_OptionalString_ensures|]. intros t _. m_step.
  unfold wf_judgment. simpl. split_and!; eauto.
Qed.
End Objects.
