(* ===== verification/JsonProps.v ===== *)
(** * Theorems about serialization

    Round trips of every structure json_buffer.c serializes, what happens under
    allocation failures, and safety on arbitrary input. *)

From S2P Require Import Prelude CLib RzbList RzbListProps ListM Hash LibUuid Uuids Ntlv Blocks JsonC JsonBuffer JsonCodec JsonNtlv JsonObjects JsonSafety.

(** ** Helper lemmas *)

Section Helpers.
Context `{JsonCLaws}.

(** An encoding without allocation failures, on an object with fields [fs]. *)
Lemma run_encodes P n v fs : encodes false P n v ->
  P (Some (build fs)) [] = Some (true, Some (build (fs ++ [(n, v)])), []) /\
  field (fs ++ [(n, v)]) n = Some v.
Proof.
  intros He. split; [|by rewrite field_snoc, String.eqb_refl].
  destruct (He (build fs) [] (allowed_nil _)) as (b & p' & o' & E & _ & Hb & Hn).
  destruct (Hn eq_refl) as [-> ->]. by rewrite E, (Hb eq_refl), build_snoc.
Qed.

(** An encoding under any allocation outcomes. *)
Lemma outcome_encodes P n v p o : encodes true P n v ->
  exists b p' o', P (Some p) o = Some (b, Some p', o') /\ (b = true -> p' = json_object_object_add p n v).
Proof.
  intros He. destruct (He p o (or_introl eq_refl)) as (b & p' & o' & E & _ & Hb & _). eauto.
Qed.
End Helpers.

Section FileName.
Context `{JsonCLaws} `{EVP} `{Base64Laws} `{InetLaws} `{LibUuidLaws}.
Variable sg : UuidLists.
Variable types names : list UUIDListNode.
Hypothesis types_entries : entries (UUID_Get_List sg UUID_TYPE_NTLV_TYPE) types.
Hypothesis names_entries : entries (UUID_Get_List sg UUID_TYPE_NTLV_NAME) names.
Hypothesis types_distinct : distinct_types types.

Lemma take_cstr t : nul_free t = true -> t <> EmptyString ->
  exists bs c, take (Z.to_nat (strlen t)) (bytes_of_cstr t) = bs ++ [c] /\ c <> 0 /\
    Z.of_nat (length (bs ++ [c])) = strlen t.
Proof.
  induction t as [|c t IH]; [done|]. intros Hn _. unfold nul_free in Hn. simpl in Hn.
  apply andb_true_iff in Hn as [Hc Ht]. unfold strlen. rewrite Nat2Z.id. simpl.
  destruct t as [|c' t'] eqn:Et.
  - exists [], (code c). simpl. split_and!; [done|lia|lia].
  - destruct (IH Ht ltac:(done)) as (bs & d & E & Hd & Hl). unfold strlen in *. rewrite Nat2Z.id in E.
    exists (code c :: bs), d. rewrite E. split_and!; [done|done|]. rewrite !length_app in *. simpl in *. lia.
Qed.

Lemma Add_FileName_ok b xs t uN uT : metadata (b_pMetaDataList b) xs ->
  named NTLV_NAME_FILENAME names = Some uN -> named NTLV_TYPE_STRING types = Some uT ->
  t <> EmptyString -> in_width 32 (strlen t) ->
  exists b', Block_MetaData_Add_FileName sg (Some b) (Some t) [] = Some (Some b', []) /\
    metadata (b_pMetaDataList b')
      (xs ++ [mkNTLV (un_uuid uN) (un_uuid uT) (strlen t) (take (Z.to_nat (strlen t)) (bytes_of_cstr t))]).
Proof.
  intros Hm HN HT Ht Hw. unfold Block_MetaData_Add_FileName, nonnull. rewrite !M_ret_bind.
  assert (EN : UUID_Get_UUID sg NTLV_NAME_FILENAME UUID_TYPE_NTLV_NAME [] = Some (Some (un_uuid uN), []))
    by by rewrite (Get_UUID_entries _ _ _ _ _ names_entries), HN.
  assert (ET : UUID_Get_UUID sg NTLV_TYPE_STRING UUID_TYPE_NTLV_TYPE [] = Some (Some (un_uuid uT), []))
    by by rewrite (Get_UUID_entries _ _ _ _ _ types_entries), HT.
  reads EN. reads ET. unfold Block_MetaData_Add, nonnull. rewrite M_ret_bind, require_bind.
  unfold u32. rewrite wrap_small by done.
  destruct (NTLVList_Add_ok (b_pMetaDataList b) xs (un_uuid uN) (un_uuid uT) (strlen t) (bytes_of_cstr t) Hm)
    as (p' & E & Hp'). { pose proof (length_bytes_of_cstr t). destruct t; [done|]. unfold strlen in *. simpl in *. lia. }
  reads E. by eexists.
Qed.

(** An item whose STRING data does not end in a NUL is refused. *)
Lemma bad_string_item x bs c arr0 : kind types (nt_uuidType x) = KString -> nt_pData x = bs ++ [c] -> c <> 0 ->
  nt_iLength x = Z.of_nat (length (nt_pData x)) ->
  exists j, JsonBuffer_Put_NTLVItem sg x arr0 [] = Some (LIST_EACH_ERROR, j, []).
Proof.
  intros Hk Hd Hc Hl. unfold JsonBuffer_Put_NTLVItem. cbn [alloc_next negb].
  assert (Et : ntlv_text sg x [] = Some (None, [])).
  { unfold ntlv_text. destruct (flags types types_distinct (nt_uuidType x)) as (F1 & _). rewrite Hk in F1.
    fix_flags. reads (matches_run sg types types_entries _ _ _ F1). cbv iota.
    assert (Ec : ntlv_cstr x [] = Some (None, [])).
    { unfold ntlv_cstr. rewrite Hl, Hd, length_app. change (length [c]) with 1%nat.
      destruct (Z.eqb_spec (Z.of_nat (length bs + 1)) 0); [lia|].
      replace (Z.to_nat (Z.of_nat (length bs + 1) - 1)) with (length bs) by lia.
      rewrite (list_lookup_middle bs [] c _ eq_refl). unfold deref. rewrite M_ret_bind, require_bind.
      by destruct (Z.eqb_spec c 0). }
    unfold mbind, M_bind. by rewrite Ec. }
  unfold put_NTLVItem_fields, put_seq.
  destruct (Put_UUID_encodes false "Name" (nt_uuidName x) json_object_new_object [] (allowed_nil _))
    as (b1 & j1 & o1 & E1 & _ & _ & N1). destruct (N1 eq_refl) as [-> ->]. rewrite E1. cbn [mbind option_bind].
  destruct (Put_UUID_encodes false "Type" (nt_uuidType x) j1 [] (allowed_nil _))
    as (b2 & j2 & o2 & E2 & _ & _ & N2). destruct (N2 eq_refl) as [-> ->]. rewrite E2. cbn [mbind option_bind].
  unfold put_with. rewrite Et. by eexists.
Qed.
End FileName.

(** ** Theorems *)

Section Theorems.
Context `{JsonCLaws} `{EVP} `{Base64Laws} `{InetLaws} `{LibUuidLaws}.
Variable sg : UuidLists.
Variable types : list UUIDListNode.
Hypothesis types_entries : entries (UUID_Get_List sg UUID_TYPE_NTLV_TYPE) types.
Hypothesis types_distinct : distinct_types types.

(** C1. Event round trip: serializing an event with its chain of parents, its
    metadata and its block, and reading it back, gives an event with the same
    ids, parents, metadata and blocks at every level; the application type is
    lost, a NULL metadata list becomes an empty one. *)
Theorem JsonBuffer_Event_roundtrip fuel fs n e app el anc :
  event_rep e app el anc -> Forall (elevel_ok types) (el :: anc) ->
  Forall (fun x => (length anc + block_depth x + 1 < fuel)%nat) (el :: anc) ->
  exists j e', JsonBuffer_Put_Event sg (Some n) e (Some (build fs)) [] = Some (true, Some j, []) /\
    JsonBuffer_Get_Event sg fuel (Some j) (Some n) [] = Some (Some e', []) /\
    event_rep e' uuid_null (elevel_back types el) (map (elevel_back types) anc).
Proof.
  intros Hr Hok Hf.
  destruct (run_encodes _ _ _ fs (Put_Event_encodes sg types types_entries types_distinct e app el anc n Hr Hok))
    as [E F].
  destruct (Get_Event_reads sg types types_entries types_distinct fuel _ n el anc F Hok (event_fits_bound _ _ _ Hf))
    as (e' & E' & Hr').
  eauto.
Qed.

(** Block round trip: serializing a block with its chain of parent blocks and
    reading it back gives a chain with the same block ids, parent ids and
    metadata. *)
Theorem JsonBuffer_Block_roundtrip fuel fs n b lv anc :
  block_rep b lv anc -> Forall (level_ok types) (lv :: anc) -> (length anc < fuel)%nat ->
  exists j b', JsonBuffer_Put_Block sg (Some n) b (Some (build fs)) [] = Some (true, Some j, []) /\
    JsonBuffer_Get_Block sg fuel (Some j) (Some n) [] = Some (Some b', []) /\
    block_rep b' (level_back types lv) (map (level_back types) anc) /\ same_block (lv_id lv) (id_clone (lv_id lv)).
Proof.
  intros Hr Hok Hf.
  destruct (run_encodes _ _ _ fs (Put_Block_encodes sg types types_entries types_distinct b lv anc n Hr Hok))
    as [E F].
  destruct (Get_Block_reads sg types types_entries types_distinct fuel _ n lv anc F Hok Hf) as (b' & E' & Hr').
  apply Forall_cons in Hok as [[Hid _] _]. destruct (BlockId_Clone_ok _ Hid) as (_ & _ & ?). eauto 10.
Qed.

(** Judgment round trip: every field of a judgment comes back, the integers
    exactly, the block id with the same type, length and digest. *)
Theorem JsonBuffer_Judgment_roundtrip fs n j e b xs : judgment_ok types j e b xs ->
  exists v l, JsonBuffer_Put_Judgment sg (Some n) (Some j) (Some (build fs)) [] = Some (true, Some v, []) /\
    metadata (Some l) (map (item_back types) xs) /\ same_block b (id_clone b) /\
    JsonBuffer_Get_Judgment sg (Some v) (Some n) [] =
    Some (Some (mkJudgment (j_uuidNuggetId j) (j_iSeconds j) (j_iNanoSecs j) (Some e) (Some (id_clone b))
      (j_iPriority j) (Some l) (j_iGID j) (j_iSID j) (j_Set_SfFlags j) (j_Set_EntFlags j)
      (j_Unset_SfFlags j) (j_Unset_EntFlags j) (j_sMessage j)), []).
Proof.
  intros Hok. pose proof (jok_block _ _ _ _ _ Hok) as [_ Hb].
  destruct (run_encodes _ _ _ fs (Put_Judgment_encodes sg types types_entries types_distinct n j e b xs Hok))
    as [E F].
  destruct (Get_Judgment_reads sg types types_entries types_distinct _ n j e b xs F Hok) as (l & Hl & E').
  destruct (BlockId_Clone_ok b Hb) as (_ & _ & ?). eauto 10.
Qed.

(** Metadata round trip: every item whose data fits its type (strings with
    their terminator, two-byte ports, one-byte protocols, addresses, any other
    binary data, JSON texts) comes back in order with the same name, type and
    bytes; a JSON text comes back in json-c's spelling. *)
Theorem JsonBuffer_NTLVList_roundtrip fs n p xs : metadata p xs -> Forall (item_valid types) xs ->
  exists j l, JsonBuffer_Put_NTLVList sg (Some n) p (Some (build fs)) [] = Some (true, Some j, []) /\
    JsonBuffer_Get_NTLVList sg (Some j) (Some n) [] = Some (Some l, []) /\
    metadata (Some l) (map (item_back types) xs) /\
    Forall (fun x => kind types (nt_uuidType x) <> KJson -> item_back types x = x) xs.
Proof.
  intros Hm Hx.
  destruct (run_encodes _ _ _ fs (Put_NTLVList_encodes sg types types_entries types_distinct n p xs Hm Hx))
    as [E F].
  destruct (Get_NTLVList_reads sg types types_entries types_distinct _ n xs F Hx) as (l & El & Hl).
  eexists _, l. split_and!; [exact E|exact El|done|]. apply Forall_forall. intros x _ Hk. unfold item_back.
  by destruct (kind types (nt_uuidType x)).
Qed.

(** Reading an event from an arbitrary JSON value, with arbitrary allocation
    failures, never crashes when the stack suffices for the value's nesting, and
    an event that is returned is well formed: non-NULL ids with times in range,
    block ids with finalised hashes of the right length, well-formed metadata. *)
Theorem JsonBuffer_Get_Event_safe fuel j n : (json_depth j < fuel)%nat ->
  ensures (JsonBuffer_Get_Event sg fuel (Some j) n) wf_event.
Proof. apply (Get_Event_ensures sg types types_entries). Qed.

(** Reading a judgment from arbitrary JSON with arbitrary allocation failures
    never crashes, and what is returned has all its ids and every integer in the
    range of its C type. *)
Theorem JsonBuffer_Get_Judgment_safe p n : ensures (JsonBuffer_Get_Judgment sg p n) wf_judgment.
Proof. apply (Get_Judgment_ensures sg types types_entries). Qed.

(** A metadata list of one item, when the allocation of the item's object
    fails: [JsonBuffer_Put_NTLVList] reports success and writes an empty array. *)
Theorem JsonBuffer_Put_NTLVList_drops n p x j : metadata p [x] ->
  JsonBuffer_Put_NTLVList sg (Some n) p (Some j) [true; false] =
  Some (true, Some (json_object_object_add j n json_object_new_array), []).
Proof.
  intros (l & -> & Hc & Hp & _). unfold JsonBuffer_Put_NTLVList, put_child, checked, put_with, put_each.
  cbn [alloc alloc_next mbind option_bind].
  by rewrite (ForEach_each _ l [x] _ _ Hc (plain_locks _ Hp)) by apply Put_NTLVItem_keeps.
Qed.

(** The file name [Block_MetaData_Add_FileName] stores has no terminator,
    which serialization requires of STRING data: once a file name was added, the
    block's metadata can no longer be serialized. *)
Theorem FileName_not_serializable names b xs t uN uT fs n :
  entries (UUID_Get_List sg UUID_TYPE_NTLV_NAME) names ->
  metadata (b_pMetaDataList b) xs -> Forall (item_valid types) xs ->
  named NTLV_NAME_FILENAME names = Some uN -> named NTLV_TYPE_STRING types = Some uT ->
  nul_free t = true -> t <> EmptyString -> in_width 32 (strlen t) ->
  exists b' j, Block_MetaData_Add_FileName sg (Some b) (Some t) [] = Some (Some b', []) /\
    JsonBuffer_Put_NTLVList sg (Some n) (b_pMetaDataList b') (Some (build fs)) [] = Some (false, Some j, []).
Proof.
  intros Hne Hm Hx HN HT Ht Ht' Hw.
  destruct (Add_FileName_ok sg types names types_entries Hne b xs t uN uT Hm HN HT Ht' Hw) as (b' & Eb & Hm').
  destruct (take_cstr t Ht Ht') as (bs & c & Etk & Hc & Hl). rewrite Etk in Hm'.
  set (x := mkNTLV _ _ _ _) in Hm'.
  assert (Hk : kind types (nt_uuidType x) = KString).
  { apply (types_distinct KString); [done|]. unfold is_type. simpl. rewrite HT. by apply bool_decide_eq_true_2. }
  destruct Hm' as (l & El & Hc' & Hp & _).
  destruct (bad_string_item sg types types_entries types_distinct x bs c (arr (map (enc_item types) xs)) Hk eq_refl Hc)
    as (j & Ej); [by simpl|].
  eexists b', _. split; [done|]. rewrite El.
  unfold JsonBuffer_Put_NTLVList, put_child, checked, put_with, put_each.
  cbn [alloc alloc_next mbind option_bind].
  rewrite (ForEach_each _ l _ _ _ Hc' (plain_locks _ Hp)) by apply Put_NTLVItem_keeps.
  replace (each (JsonBuffer_Put_NTLVItem sg) (xs ++ [x]) json_object_new_array []) with (Some (false, j, @nil bool)); [done|].
  change json_object_new_array with (arr []). symmetry.
  assert (Happ : forall ys vs, Forall (item_valid types) ys ->
    each (JsonBuffer_Put_NTLVItem sg) (ys ++ [x]) (arr vs) [] =
    each (JsonBuffer_Put_NTLVItem sg) [x] (arr (vs ++ map (enc_item types) ys)) []).
  { induction ys as [|y ys IH]; intros vs Hy; [by rewrite app_nil_r|]. apply Forall_cons in Hy as [Hy Hys].
    cbn [app each map]. rewrite (Put_NTLVItem_run sg types types_entries types_distinct) by done.
    cbn [mbind option_bind]. change (LIST_EACH_OK == LIST_EACH_ERROR) with false. cbv iota.
    rewrite IH by done. by rewrite <- app_assoc. }
  rewrite Happ by done. cbn [app each]. by rewrite Ej.
Qed.
End Theorems.

Section MoreTheorems.
Context `{JsonCLaws} `{EVP} `{LibUuidLaws}.

(** UUID list round trip: a list whose entries have non-empty names comes
    back with the same entries in order, descriptions included. *)
Theorem JsonBuffer_UUIDList_roundtrip fs n p xs : entries p xs -> Forall node_ok xs ->
  exists j l, JsonBuffer_Put_UUIDList (Some n) p (Some (build fs)) [] = Some (true, Some j, []) /\
    JsonBuffer_Get_UUIDList (Some j) (Some n) [] = Some (Some l, []) /\ entries (Some l) xs.
Proof.
  intros He Hx. destruct (run_encodes _ _ _ fs (Put_UUIDList_encodes false p xs n He Hx)) as [E F].
  destruct (Get_UUIDList_reads _ n xs F Hx) as (l & El & Hl). eauto.
Qed.

(** String list round trip. *)
Theorem JsonBuffer_StringList_roundtrip fs n p xs : strings p xs -> Forall (fun x => nul_free x = true) xs ->
  exists j l, JsonBuffer_Put_StringList (Some n) p (Some (build fs)) [] = Some (true, Some j, []) /\
    JsonBuffer_Get_StringList (Some j) (Some n) [] = Some (Some l, []) /\ strings (Some l) xs.
Proof.
  intros He Hx. destruct (run_encodes _ _ _ fs (Put_StringList_encodes p xs n He)) as [E F].
  destruct (Get_StringList_reads _ n xs F Hx) as (l & El & Hl). eauto.
Qed.

(** [JsonBuffer_Put_StringList] ignores the result of the iteration: when an
    entry cannot be allocated it reports success with the entries before it. *)
Theorem JsonBuffer_Put_StringList_truncates n p x y j : strings p [x; y] ->
  JsonBuffer_Put_StringList (Some n) p (Some j) [true; true; false] =
  Some (true, Some (json_object_object_add j n (arr [json_object_new_string x])), []).
Proof.
  intros (l & -> & Hc & Hp & _). unfold JsonBuffer_Put_StringList, put_child, checked, put_with, put_each.
  cbn [alloc alloc_next mbind option_bind].
  by rewrite (ForEach_each _ l [x; y] _ _ Hc (plain_locks _ Hp) (StringList_Add_keeps _)).
Qed.

(** Byte list round trip: bytes come back as they were; in general each entry
    comes back modulo 256, out-of-range entries are not rejected. *)
Theorem JsonBuffer_uint8List_roundtrip fs n xs :
  Forall (fun x => - 2 ^ 31 <= x < 2 ^ 31) xs -> in_width 32 (Z.of_nat (length xs)) ->
  exists j, JsonBuffer_Put_uint8List (Some n) xs (Some (build fs)) [] = Some (true, Some j, []) /\
    JsonBuffer_Get_uint8List (Some j) (Some n) [] = Some (Some (map u8 xs), []) /\
    (Forall (in_width 8) xs -> map u8 xs = xs).
Proof.
  intros Hx Hl. destruct (run_encodes _ _ _ fs (Put_uint8List_encodes false n xs)) as [E F].
  eexists. split_and!; [exact E|by apply Get_uint8List_reads|]. clear.
  induction 1 as [|x xs Hx _ IH]; [done|]. simpl. unfold u8 at 1. by rewrite wrap_small, IH.
Qed.

(** Block id round trip: the id that comes back is equal to the original
    under [BlockId_IsEqual]. *)
Theorem JsonBuffer_BlockId_roundtrip fs n b : id_ok b ->
  exists j b', JsonBuffer_Put_BlockId (Some n) (Some b) (Some (build fs)) [] = Some (true, Some j, []) /\
    JsonBuffer_Get_BlockId (Some j) (Some n) [] = Some (Some b', []) /\
    BlockId_IsEqual false false (Some b) (Some b') = Some true.
Proof.
  intros Hb. destruct (run_encodes _ _ _ fs (Put_BlockId_encodes false n b Hb)) as [E F].
  eexists _, (id_clone b). split_and!; [exact E|by apply Get_BlockId_reads|].
  destruct Hb as [(h & Hh & Hc) _]. destruct (digest_clone h Hc) as [Hc' Hd].
  unfold BlockId_IsEqual, id_clone. simpl. rewrite Hh. simpl.
  pose proof (IsEqual_complete h (clone_of h) Hc Hc') as Eq. rewrite Hd, bool_decide_eq_true_2 in Eq by done.
  simpl in Eq. rewrite Eq. simpl. by rewrite uuid_compare_eqb, bool_decide_eq_true_2, Z.eqb_refl.
Qed.

(** Event id and nugget round trips: an event id comes back exactly, a nugget
    with everything but its notes, which are not serialized. *)
Theorem JsonBuffer_EventId_Nugget_roundtrip fs n e x : eventid_ok e ->
  text_ok (n_sName x) -> text_ok (n_sLocation x) -> text_ok (n_sContact x) ->
  (exists j, JsonBuffer_Put_EventId (Some n) (Some e) (Some (build fs)) [] = Some (true, Some j, []) /\
     JsonBuffer_Get_EventId (Some j) (Some n) [] = Some (Some e, [])) /\
  (exists j, JsonBuffer_Put_Nugget (Some n) (Some x) (Some (build fs)) [] = Some (true, Some j, []) /\
     JsonBuffer_Get_Nugget (Some j) (Some n) [] =
     Some (Some (mkNugget (n_uuidNuggetId x) (n_uuidApplicationType x) (n_uuidNuggetType x)
                   (n_sName x) (n_sLocation x) (n_sContact x) None), [])).
Proof.
  intros He T1 T2 T3. destruct (run_encodes _ _ _ fs (Put_EventId_encodes false n e)) as [E1 F1].
  destruct (run_encodes _ _ _ fs (Put_Nugget_encodes false n x)) as [E2 F2].
  split; eexists; (split; [eassumption|]); [by apply Get_EventId_reads|by apply Get_Nugget_reads].
Qed.

(** All or error: under any pattern of allocation failures, serializing a
    block id, an event id, a nugget or a UUID list does not crash, and when it
    reports success the parent has got the complete encoding under the name. *)
Theorem JsonBuffer_Put_failures_reported n p o b e x us l : id_ok b -> entries l us -> Forall node_ok us ->
  (exists r p' o', JsonBuffer_Put_BlockId (Some n) (Some b) (Some p) o = Some (r, Some p', o') /\
     (r = true -> p' = json_object_object_add p n (enc_blockid b))) /\
  (exists r p' o', JsonBuffer_Put_EventId (Some n) (Some e) (Some p) o = Some (r, Some p', o') /\
     (r = true -> p' = json_object_object_add p n (enc_eventid e))) /\
  (exists r p' o', JsonBuffer_Put_Nugget (Some n) (Some x) (Some p) o = Some (r, Some p', o') /\
     (r = true -> p' = json_object_object_add p n (enc_nugget x))) /\
  (exists r p' o', JsonBuffer_Put_UUIDList (Some n) l (Some p) o = Some (r, Some p', o') /\
     (r = true -> p' = json_object_object_add p n (arr (map enc_node us)))).
Proof.
  intros Hb Hl Hu. split_and!; apply outcome_encodes.
  - by apply Put_BlockId_encodes.
  - apply Put_EventId_encodes.
  - apply Put_Nugget_encodes.
  - by apply Put_UUIDList_encodes.
Qed.
End MoreTheorems.

(** [JsonBuffer_ParseUnsignedText] never returns a value above the maximum it
      is given, reads back every printed 64-bit value up to the maximum, refuses the
      larger ones and refuses a leading minus sign; but it accepts a minus sign
      after white space, with the value modulo [2^64]. *)
Theorem JsonBuffer_ParseUnsignedText_spec max n c t o : in_width 64 n -> code c = 45 ->
  ensures (JsonBuffer_ParseUnsignedText (Some t) max) (fun v => 0 <= v <= max) /\
  JsonBuffer_ParseUnsignedText (Some (print_dec n)) max o = Some (if n <=? max then Some n else None, o) /\
  JsonBuffer_ParseUnsignedText (Some (String c t)) max o = Some (None, o) /\
  JsonBuffer_ParseUnsignedText (Some " -5") UINT64_MAX o = Some (Some (2 ^ 64 - 5), o).
Proof.
  intros Hn Hc. split_and!; [|destruct (Z.leb_spec n max)| |].
  - eapply ensures_weaken; [apply Parse_ensures|]. intros v [[? _] ?]. lia.
  - by apply ParseUnsigned_print.
  - unfold JsonBuffer_ParseUnsignedText, nonnull. rewrite M_ret_bind.
    destruct (print_dec_head n) as (d & t' & E & _ & Hd & _); [apply Hn|].
    rewrite (strtoumax_print n Hn), E, Hd, require_bind. simpl. rewrite require_bind.
    by rewrite (proj2 (Z.leb_gt n max)).
  - unfold JsonBuffer_ParseUnsignedText, nonnull. rewrite M_ret_bind. by rewrite Hc.
  - reflexivity.
Qed.

(** ** Witnesses *)

Module json_demo.
Import bytes16 toy tree hexcodec.

Definition types : list UUIDListNode := uuid_demo.nodes.
Definition file_node : UUIDListNode := mkUUIDNode (uuid_demo.uuid 9) "FILENAME" None.
Definition sg : UuidLists :=
  mkUuidLists None None uuid_demo.list2 (uuid_demo.add uuid_demo.list0 file_node) None None.

Lemma types_entries : entries (UUID_Get_List sg UUID_TYPE_NTLV_TYPE) types.
Proof. exact uuid_demo.list2_entries. Qed.

Lemma names_entries : entries (UUID_Get_List sg UUID_TYPE_NTLV_NAME) [file_node].
Proof.
  apply (uuid_demo.add_entries _ []); [|done]. unfold uuid_demo.list0.
  destruct Create_List_ok as (l & -> & ?). done.
Qed.

Lemma types_distinct : distinct_types types.
Proof.
  intros k u Hk. destruct k; try done;
    (intros Hu%bool_decide_eq_true_1; subst u; reflexivity).
Qed.

(** A string, a port and binary data of an unregistered type. *)
Definition str_item : NTLVItem := mkNTLV (uuid_demo.uuid 4) (uuid_demo.uuid 1) 3 [104; 105; 0].
Definition port_item : NTLVItem := mkNTLV (uuid_demo.uuid 5) (uuid_demo.uuid 2) 2 [80; 1].
Definition bin_item : NTLVItem := mkNTLV (uuid_demo.uuid 6) (uuid_demo.uuid 7) 2 [255; 0].
Definition items : list NTLVItem := [str_item; port_item; bin_item].

Ltac item_ok := split_and!; try done; repeat (apply Forall_cons_2; [done|]); constructor.

Lemma items_valid : Forall (item_valid types) items.
Proof.
  apply Forall_cons_2; [split; [item_ok|]|apply Forall_cons_2; [split; [item_ok|]|
    apply Forall_cons_2; [split; [item_ok|]|constructor]]].
  - exists "hi". done.
  - done.
  - done.
Qed.

Definition add (p : option ntlv_list) (x : NTLVItem) : option ntlv_list :=
  match NTLVList_Add p (nt_uuidName x) (nt_uuidType x) (nt_iLength x) (Some (nt_pData x)) [] with
  | Some (Some p', _) => p' | _ => None end.
Definition list0 : option ntlv_list := match NTLVList_Create [] with Some (r, _) => r | None => None end.
Definition list3 : option ntlv_list := foldl add list0 items.

Lemma add_metadata p xs x : metadata p xs -> item_ok x -> metadata (add p x) (xs ++ [x]).
Proof.
  intros Hm (Hl & [? _] & Hn & _). unfold add.
  destruct (NTLVList_Add_ok p xs (nt_uuidName x) (nt_uuidType x) (nt_iLength x) (nt_pData x) Hm) as (p' & -> & Hp');
    [lia|]. rewrite Hl, Nat2Z.id, take_ge, <- Hl in Hp' by done. by destruct x.
Qed.

Lemma list3_metadata : metadata list3 items.
Proof.
  assert (H0 : metadata list0 []) by (unfold list0; by destruct Create_metadata_ok as (l & -> & ?)).
  pose proof items_valid as Hv. unfold items in Hv. rewrite !Forall_cons in Hv.
  destruct Hv as ([H1 _] & [H2 _] & [H3 _] & _).
  apply (add_metadata _ [_; _]); [|done]. apply (add_metadata _ [_]); [|done]. by apply (add_metadata _ []).
Qed.

Definition level1 : level := mkLevel (block_demo.id 5) (Some block_demo.parent) (Some items).
Definition level2 : level := mkLevel block_demo.parent None None.
Definition parent : Block := mkBlock (Some block_demo.parent) None None None no_data.
Definition block : Block := mkBlock (Some (block_demo.id 5)) (Some block_demo.parent) (Some parent) list3 no_data.

Lemma block_block_rep : block_rep block level1 [level2].
Proof. constructor; [exact list3_metadata|]. by constructor. Qed.

Lemma levels_ok : Forall (level_ok types) [level1; level2].
Proof.
  apply Forall_cons_2; [|apply Forall_cons_2; [|constructor]].
  - split; [by apply block_demo.id_id_ok|]. split.
    + intros p [= <-]. exact block_demo.parent_ok.
    + intros xs [= <-]. exact items_valid.
  - split; [exact block_demo.parent_ok|]. by split.
Qed.

Definition eid : EventId := mkEventId (uuid_demo.uuid 3) 1700000000 999.
Definition elevel1 : elevel := mkELevel eid (Some eid) (Some items) (Some (level1, [level2])).
Definition event : Event := mkEvent (Some eid) (Some eid) None (uuid_demo.uuid 8) (Some block) list3.

Lemma event_event_rep : event_rep event (uuid_demo.uuid 8) elevel1 [].
Proof. constructor; [exact list3_metadata|exact block_block_rep]. Qed.

Lemma elevels_ok : Forall (elevel_ok types) [elevel1].
Proof.
  apply Forall_cons_2; [|constructor]. split; [done|]. split; [by intros p [= <-]|]. split.
  - intros xs [= <-]. exact items_valid.
  - intros lv anc [= <- <-]. exact levels_ok.
Qed.

Definition judgment : Judgment :=
  mkJudgment (uuid_demo.uuid 3) 10 20 (Some eid) (Some (block_demo.id 5)) 7 list3 1 2 3 4 5 6 (Some "bad").

Lemma judgment_judgment_ok : judgment_ok types judgment eid (block_demo.id 5) items.
Proof.
  split; try done.
  - split; [done|]. by apply block_demo.id_id_ok.
  - split; [exact list3_metadata|exact items_valid].
  - by intros x [= <-].
Qed.

Definition nugget : Nugget :=
  mkNugget (uuid_demo.uuid 3) (uuid_demo.uuid 4) (uuid_demo.uuid 5) (Some "yara") None (Some "ops") (Some "note").

Lemma nodes_ok : Forall node_ok uuid_demo.nodes.
Proof.
  apply Forall_cons_2; [|apply Forall_cons_2; [|constructor]]; (split_and!; try done).
  by intros x [= <-].
Qed.

Definition words2 : option string_list :=
  match (l ← StringList_Create; p ← StringList_Add (Some l) (Some "abc"); StringList_Add p (Some "de")) [] with
  | Some (Some p, _) => p | _ => None end.

Lemma words2_strings : strings words2 ["abc"; "de"].
Proof.
  unfold words2. destruct Create_strings_ok as (l & E & Hm). rewrite (M_bind_ok _ _ _ _ _ E).
  destruct (StringList_Add_ok (Some l) [] "abc" Hm) as (p & E1 & Hp). rewrite (M_bind_ok _ _ _ _ _ E1).
  destruct (StringList_Add_ok p ["abc"] "de" Hp) as (p' & -> & ?). done.
Qed.
End json_demo.

Lemma JsonBuffer_Event_roundtrip_witness :
  exists j e', JsonBuffer_Put_Event json_demo.sg (Some "Event") json_demo.event (Some (build [])) [] = Some (true, Some j, []) /\
    JsonBuffer_Get_Event json_demo.sg 3 (Some j) (Some "Event") [] = Some (Some e', []).
Proof.
  destruct (JsonBuffer_Event_roundtrip json_demo.sg json_demo.types json_demo.types_entries json_demo.types_distinct
    3 [] "Event" _ _ _ _ json_demo.event_event_rep json_demo.elevels_ok) as (j & e' & E1 & E2 & _).
  - apply Forall_cons_2; [|constructor]. apply (bool_decide_unpack _). vm_compute. exact I.
  - exists j, e'. split; [exact E1|exact E2].
Defined.

Lemma JsonBuffer_Block_roundtrip_witness :
  exists j b', JsonBuffer_Put_Block json_demo.sg (Some "Block") json_demo.block (Some (build [])) [] = Some (true, Some j, []) /\
    JsonBuffer_Get_Block json_demo.sg 2 (Some j) (Some "Block") [] = Some (Some b', []).
Proof.
  destruct (JsonBuffer_Block_roundtrip json_demo.sg json_demo.types json_demo.types_entries json_demo.types_distinct
    2 [] "Block" _ _ _ json_demo.block_block_rep json_demo.levels_ok) as (j & b' & E1 & E2 & _).
  - apply (bool_decide_unpack _). vm_compute. exact I.
  - exists j, b'. split; [exact E1|exact E2].
Defined.

Lemma JsonBuffer_Judgment_roundtrip_witness :
  exists v l, JsonBuffer_Put_Judgment json_demo.sg (Some "J") (Some json_demo.judgment) (Some (build [])) [] =
      Some (true, Some v, []) /\ metadata (Some l) json_demo.items.
Proof.
  destruct (JsonBuffer_Judgment_roundtrip json_demo.sg json_demo.types json_demo.types_entries json_demo.types_distinct
    [] "J" _ _ _ _ json_demo.judgment_judgment_ok) as (v & l & E & Hl & _).
  exists v, l. split; [exact E|exact Hl].
Defined.

Lemma JsonBuffer_NTLVList_roundtrip_witness :
  exists j l, JsonBuffer_Put_NTLVList json_demo.sg (Some "M") json_demo.list3 (Some (build [])) [] = Some (true, Some j, []) /\
    JsonBuffer_Get_NTLVList json_demo.sg (Some j) (Some "M") [] = Some (Some l, []) /\
    metadata (Some l) json_demo.items.
Proof.
  destruct (JsonBuffer_NTLVList_roundtrip json_demo.sg json_demo.types json_demo.types_entries json_demo.types_distinct
    [] "M" _ _ json_demo.list3_metadata json_demo.items_valid) as (j & l & E1 & E2 & Hl & _).
  exists j, l. split; [exact E1|]. split; [exact E2|exact Hl].
Defined.

Lemma JsonBuffer_Get_Event_safe_witness :
  ensures (JsonBuffer_Get_Event json_demo.sg 5 (Some (build [("Event", enc_string "x")])) (Some "Event")) wf_event.
Proof.
  apply (JsonBuffer_Get_Event_safe json_demo.sg json_demo.types json_demo.types_entries).
  apply (bool_decide_unpack _). vm_compute. exact I.
Defined.

Lemma JsonBuffer_Get_Judgment_safe_witness :
  ensures (JsonBuffer_Get_Judgment json_demo.sg None (Some "J")) wf_judgment.
Proof. exact (JsonBuffer_Get_Judgment_safe json_demo.sg json_demo.types json_demo.types_entries None (Some "J")). Defined.

Lemma JsonBuffer_Put_NTLVList_drops_witness :
  JsonBuffer_Put_NTLVList uuid_demo.sg (Some "M") ntlv_demo.list1 (Some (build [])) [true; false] =
  Some (true, Some (json_object_object_add (build []) "M" json_object_new_array), []).
Proof.
  exact (JsonBuffer_Put_NTLVList_drops uuid_demo.sg "M" ntlv_demo.list1 _ (build []) ntlv_demo.list1_metadata).
Defined.

Lemma FileName_not_serializable_witness :
  exists b' j, Block_MetaData_Add_FileName json_demo.sg (Some json_demo.block) (Some "a.exe") [] = Some (Some b', []) /\
    JsonBuffer_Put_NTLVList json_demo.sg (Some "M") (b_pMetaDataList b') (Some (build [])) [] = Some (false, Some j, []).
Proof.
  apply (FileName_not_serializable json_demo.sg json_demo.types json_demo.types_entries json_demo.types_distinct
    _ json_demo.block json_demo.items "a.exe" json_demo.file_node (mkUUIDNode (uuid_demo.uuid 1) "STRING" None) [] "M"
    json_demo.names_entries json_demo.list3_metadata json_demo.items_valid).
  - reflexivity.
  - reflexivity.
  - reflexivity.
  - discriminate.
  - split; [discriminate|reflexivity].
Defined.

Lemma JsonBuffer_UUIDList_roundtrip_witness :
  exists j l, JsonBuffer_Put_UUIDList (Some "L") uuid_demo.list2 (Some (build [])) [] = Some (true, Some j, []) /\
    JsonBuffer_Get_UUIDList (Some j) (Some "L") [] = Some (Some l, []) /\ entries (Some l) uuid_demo.nodes.
Proof. exact (JsonBuffer_UUIDList_roundtrip [] "L" _ _ uuid_demo.list2_entries json_demo.nodes_ok). Defined.

Lemma JsonBuffer_StringList_roundtrip_witness :
  exists j l, JsonBuffer_Put_StringList (Some "L") json_demo.words2 (Some (build [])) [] = Some (true, Some j, []) /\
    JsonBuffer_Get_StringList (Some j) (Some "L") [] = Some (Some l, []) /\ strings (Some l) ["abc"; "de"].
Proof.
  apply (JsonBuffer_StringList_roundtrip [] "L" _ _ json_demo.words2_strings).
  apply Forall_cons_2; [reflexivity|apply Forall_cons_2; [reflexivity|constructor]].
Defined.

Lemma JsonBuffer_Put_StringList_truncates_witness :
  JsonBuffer_Put_StringList (Some "L") json_demo.words2 (Some (build [])) [true; true; false] =
  Some (true, Some (json_object_object_add (build []) "L" (arr [json_object_new_string "abc"])), []).
Proof. exact (JsonBuffer_Put_StringList_truncates "L" _ "abc" "de" (build []) json_demo.words2_strings). Defined.

Lemma JsonBuffer_uint8List_roundtrip_witness :
  exists j, JsonBuffer_Put_uint8List (Some "L") [7; 300] (Some (build [])) [] = Some (true, Some j, []) /\
    JsonBuffer_Get_uint8List (Some j) (Some "L") [] = Some (Some [7; 44], []).
Proof.
  destruct (JsonBuffer_uint8List_roundtrip [] "L" [7; 300]) as (j & E1 & E2 & _).
  - apply Forall_cons_2; [split; [discriminate|reflexivity]|].
    apply Forall_cons_2; [split; [discriminate|reflexivity]|constructor].
  - split; [discriminate|reflexivity].
  - exists j. split; [exact E1|exact E2].
Defined.

Lemma JsonBuffer_BlockId_roundtrip_witness :
  exists j b', JsonBuffer_Put_BlockId (Some "I") (Some (block_demo.id 5)) (Some (build [])) [] = Some (true, Some j, []) /\
    JsonBuffer_Get_BlockId (Some j) (Some "I") [] = Some (Some b', []) /\
    BlockId_IsEqual false false (Some (block_demo.id 5)) (Some b') = Some true.
Proof. exact (JsonBuffer_BlockId_roundtrip [] "I" _ (block_demo.id_id_ok 5 eq_refl)). Defined.

Lemma JsonBuffer_EventId_Nugget_roundtrip_witness :
  exists j, JsonBuffer_Put_EventId (Some "E") (Some json_demo.eid) (Some (build [])) [] = Some (true, Some j, []) /\
    JsonBuffer_Get_EventId (Some j) (Some "E") [] = Some (Some json_demo.eid, []).
Proof.
  refine (proj1 (JsonBuffer_EventId_Nugget_roundtrip [] "E" json_demo.eid json_demo.nugget _ _ _ _)).
  - split; (split; [discriminate|reflexivity]).
  - intros x [= <-]. reflexivity.
  - intros x E. discriminate E.
  - intros x [= <-]. reflexivity.
Defined.

Lemma JsonBuffer_Put_failures_reported_witness :
  exists r p' o', JsonBuffer_Put_BlockId (Some "I") (Some (block_demo.id 5)) (Some (build [])) [true; true; false] =
    Some (r, Some p', o') /\ (r = true -> p' = json_object_object_add (build []) "I" (enc_blockid (block_demo.id 5))).
Proof.
  exact (proj1 (JsonBuffer_Put_failures_reported "I" (build []) [true; true; false] _ json_demo.eid json_demo.nugget _ _
    (block_demo.id_id_ok 5 eq_refl) uuid_demo.list2_entries json_demo.nodes_ok)).
Defined.

Lemma JsonBuffer_ParseUnsignedText_spec_witness :
  JsonBuffer_ParseUnsignedText (Some (print_dec 256)) 255 [] = Some (None, []).
Proof.
  refine (proj1 (proj2 (JsonBuffer_ParseUnsignedText_spec 255 256 (chr 45) "" [] _ _))).
  - split; [discriminate|reflexivity].
  - reflexivity.
Defined.
