(* ===== verification/LocalCache.v ===== *)
(** * The local cache: src/local_cache.c

    Three adaptive replacement caches (ARC) remember the hashes of known good and
    bad blocks and URLs with their flags.  A cache of size [c] keeps up to [2 c]
    entries in an array; each is on one of four doubly linked lists: T1 (seen
    once), T2 (seen again) and their ghosts B1 and B2.

    An [ENTRY *] into the array is its index, so that the links, [LRU] and [MRU]
    are pointers the code may get wrong; an access outside the array is a crash.
    A key pointer is NULL, freed or the buffer it points to; reading a freed or
    NULL key and freeing a freed key are crashes.  [target] is a double in the
    source; all its values are integers of at most [2^33], on which the double
    arithmetic is exact, so it is a [Z] here. *)

From stdpp Require Export functions.
From S2P Require Import Prelude CLib.

(** ** Data *)

Inductive LISTTYPE := LT_T1 | LT_T2 | LT_B1 | LT_B2 | LT_NONE.
Inductive CacheType := GOODHASH | BADHASH | URL | ALL.
Inductive Lookup_Result := R_SUCCESS | R_ERROR | R_FOUND | R_NOT_FOUND.

Global Instance LISTTYPE_eq_dec : EqDecision LISTTYPE.
Proof. solve_decision. Defined.
Global Instance CacheType_eq_dec : EqDecision CacheType.
Proof. solve_decision. Defined.

Inductive key_ptr := KNull | KFreed | KData (bs : list Z).

Record ENTRY := mkENTRY {
  e_next : option nat;
  e_prev : option nat;
  e_listtype : LISTTYPE;
  e_size : Z;
  e_key : key_ptr;
  e_sfflags : Z;
  e_entflags : Z
}.

(** The arrays indexed by LISTTYPE have a place for LT_T1 to LT_B2; the
    operations crash where the source would index them by LT_NONE. *)
Record CACHE := mkCACHE {
  c_size : Z;
  c_entries : nat;
  c_listSize : LISTTYPE -> Z;
  c_target : Z;
  c_LRU : LISTTYPE -> option nat;
  c_MRU : LISTTYPE -> option nat;
  c_entrylist : list ENTRY
}.

Definition set_next (x : option nat) (e : ENTRY) : ENTRY :=
  mkENTRY x (e_prev e) (e_listtype e) (e_size e) (e_key e) (e_sfflags e) (e_entflags e).
Definition set_prev (x : option nat) (e : ENTRY) : ENTRY :=
  mkENTRY (e_next e) x (e_listtype e) (e_size e) (e_key e) (e_sfflags e) (e_entflags e).
Definition set_place (n p : option nat) (lt : LISTTYPE) (e : ENTRY) : ENTRY :=
  mkENTRY n p lt (e_size e) (e_key e) (e_sfflags e) (e_entflags e).
Definition set_flags (sf ent : Z) (e : ENTRY) : ENTRY :=
  mkENTRY (e_next e) (e_prev e) (e_listtype e) (e_size e) (e_key e) sf ent.
Definition set_esize (n : Z) (e : ENTRY) : ENTRY :=
  mkENTRY (e_next e) (e_prev e) (e_listtype e) n (e_key e) (e_sfflags e) (e_entflags e).
Definition set_key (k : key_ptr) (e : ENTRY) : ENTRY :=
  mkENTRY (e_next e) (e_prev e) (e_listtype e) (e_size e) k (e_sfflags e) (e_entflags e).

Definition with_entrylist (c : CACHE) (es : list ENTRY) : CACHE :=
  mkCACHE (c_size c) (c_entries c) (c_listSize c) (c_target c) (c_LRU c) (c_MRU c) es.
Definition with_LRU (c : CACHE) (lt : LISTTYPE) (x : option nat) : CACHE :=
  mkCACHE (c_size c) (c_entries c) (c_listSize c) (c_target c) (<[lt := x]> (c_LRU c)) (c_MRU c)
    (c_entrylist c).
Definition with_MRU (c : CACHE) (lt : LISTTYPE) (x : option nat) : CACHE :=
  mkCACHE (c_size c) (c_entries c) (c_listSize c) (c_target c) (c_LRU c) (<[lt := x]> (c_MRU c))
    (c_entrylist c).
Definition with_entries (c : CACHE) (n : nat) : CACHE :=
  mkCACHE (c_size c) n (c_listSize c) (c_target c) (c_LRU c) (c_MRU c) (c_entrylist c).
Definition with_target (c : CACHE) (t : Z) : CACHE :=
  mkCACHE (c_size c) (c_entries c) (c_listSize c) t (c_LRU c) (c_MRU c) (c_entrylist c).

(** [cache->listSize[lt] += d] *)
Definition add_size (c : CACHE) (lt : LISTTYPE) (d : Z) : CACHE :=
  mkCACHE (c_size c) (c_entries c) (<[lt := u32 (c_listSize c lt + d)]> (c_listSize c)) (c_target c)
    (c_LRU c) (c_MRU c) (c_entrylist c).

(** Apply [f] to the entry a pointer into the array points to. *)
Definition upd (c : CACHE) (i : nat) (f : ENTRY -> ENTRY) : option CACHE :=
  e ← c_entrylist c !! i;
  Some (with_entrylist c (<[i := f e]> (c_entrylist c))).

(** ** The lists *)

Definition getNewEntry (c : CACHE) : option (option nat * CACHE) :=
  if Z.of_nat (c_entries c) <? u32 (c_size c * 2) then
    c1 ← upd c (c_entries c) (fun _ => mkENTRY None None LT_NONE 0 KNull 0 0);
    Some (Some (c_entries c), with_entries c1 (S (c_entries c)))
  else Some (None, c).

(** [memcmp (k, key, size) == 0] *)
Definition key_equal (k : key_ptr) (key : list Z) (size : Z) : option bool :=
  match k with
  | KData bs => a ← read_bytes bs size; b ← read_bytes key size; Some (bool_decide (a = b))
  | _ => None
  end.

(** The loop of [FindEntry] over the [n] entries from [i] on. *)
Fixpoint FindEntry_loop (es : list ENTRY) (n i : nat) (key : list Z) (size : Z) : option (option nat) :=
  match n with
  | O => Some None
  | S n' =>
      e ← es !! i;
      same ← key_equal (e_key e) key size;
      if (same : bool) then Some (Some i) else FindEntry_loop es n' (S i) key size
  end.

Definition FindEntry (key : list Z) (size : Z) (c : CACHE) : option (option nat) :=
  FindEntry_loop (c_entrylist c) (c_entries c) 0 key size.

(** The loops of [FindMRU] and [FindLRU]: the last of the [n] entries from [i] on
    that satisfies [p]. *)
Fixpoint FindEnd_loop (p : ENTRY -> bool) (es : list ENTRY) (n i : nat) (found : option nat)
    : option (option nat) :=
  match n with
  | O => Some found
  | S n' =>
      e ← es !! i;
      FindEnd_loop p es n' (S i) (if p e then Some i else found)
  end.

Definition FindMRU (lt : LISTTYPE) (c : CACHE) : option (option nat * CACHE) :=
  if decide (lt = LT_NONE) then None
  else match c_MRU c lt with
  | Some i => Some (Some i, c)
  | None =>
      r ← FindEnd_loop (fun e => bool_decide (e_next e = None) && bool_decide (e_listtype e = lt))
            (c_entrylist c) (c_entries c) 0 None;
      Some (r, with_MRU c lt r)
  end.

Definition FindLRU (lt : LISTTYPE) (c : CACHE) : option (option nat * CACHE) :=
  if decide (lt = LT_NONE) then None
  else match c_LRU c lt with
  | Some i => Some (Some i, c)
  | None =>
      r ← FindEnd_loop (fun e => bool_decide (e_prev e = None) && bool_decide (e_listtype e = lt))
            (c_entrylist c) (c_entries c) 0 None;
      Some (r, with_LRU c lt r)
  end.

Definition PurgeLRU (lt : LISTTYPE) (c : CACHE) : option (option nat * CACHE) :=
  '(LRU, c) ← FindLRU lt c;
  match LRU with
  | None => Some (None, c)
  | Some i =>
      e ← c_entrylist c !! i;
      c ← match e_next e with
          | Some n => c1 ← upd c n (set_prev None); Some (with_LRU c1 lt (Some n))
          | None => Some (with_MRU (with_LRU c lt None) lt None)
          end;
      c ← upd c i (set_place None None LT_NONE);
      Some (Some i, c)
  end.

(** Adding NULL dereferences it. *)
Definition AddMRU (newentry : option nat) (lt : LISTTYPE) (c : CACHE) : option CACHE :=
  i ← newentry;
  '(MRU, c) ← FindMRU lt c;
  match MRU with
  | Some m =>
      c ← upd c m (set_next (Some i));
      c ← upd c i (set_place None (Some m) lt);
      Some (with_MRU c lt (Some i))
  | None =>
      c ← upd (with_LRU c lt (Some i)) i (set_place None None lt);
      Some (with_MRU c lt (Some i))
  end.

Definition removeEntry (i : nat) (c : CACHE) : option CACHE :=
  e ← c_entrylist c !! i;
  c ← match e_next e, e_prev e with
      | Some n, Some p => c ← upd c n (set_prev (Some p)); upd c p (set_next (Some n))
      | Some n, None => '(_, c) ← PurgeLRU (e_listtype e) c; Some c
      | None, Some p =>
          c ← upd c p (set_next None);
          if decide (e_listtype e = LT_NONE) then None else Some (with_MRU c (e_listtype e) (Some p))
      | None, None =>
          if decide (e_listtype e = LT_NONE) then None
          else Some (with_LRU (with_MRU c (e_listtype e) None) (e_listtype e) None)
      end;
  upd c i (set_place None None LT_NONE).

Definition replace (c : CACHE) : option CACHE :=
  if Z.max (c_target c) 1 <=? c_listSize c LT_T1 then
    '(moveditem, c) ← PurgeLRU LT_T1 c;
    c ← AddMRU moveditem LT_B1 c;
    Some (add_size (add_size c LT_T1 (-1)) LT_B1 1)
  else
    '(moveditem, c) ← PurgeLRU LT_T2 c;
    c ← AddMRU moveditem LT_B2 c;
    Some (add_size (add_size c LT_T2 (-1)) LT_B2 1).

(** [destroyEntry (entry)]: [free (entry->key)], which does not reset the key. *)
Definition destroyEntry (i : nat) (c : CACHE) : option CACHE :=
  e ← c_entrylist c !! i;
  match e_key e with
  | KFreed => None
  | KNull => Some c
  | KData _ => upd c i (set_key KFreed)
  end.

(** ** The operations on one cache, inside its mutex *)

Definition check_cache (key : list Z) (size : Z) (c : CACHE)
    : option (Lookup_Result * option nat * CACHE) :=
  hit ← FindEntry key size c;
  match hit with
  | None => Some (R_NOT_FOUND, None, c)
  | Some i =>
      e ← c_entrylist c !! i;
      match e_listtype e with
      | LT_T1 =>
          c ← removeEntry i (add_size (add_size c LT_T1 (-1)) LT_T2 1);
          c ← AddMRU (Some i) LT_T2 c;
          Some (R_FOUND, Some i, c)
      | LT_T2 =>
          c ← removeEntry i c;
          c ← AddMRU (Some i) LT_T2 c;
          Some (R_FOUND, Some i, c)
      | LT_B1 =>
          if c_listSize c LT_B1 == 0 then None
          else
            let target := Z.min (c_target c + Z.max (c_listSize c LT_B2 / c_listSize c LT_B1) 1) (c_size c) in
            c ← removeEntry i (add_size (with_target c target) LT_B1 (-1));
            c ← replace c;
            c ← AddMRU (Some i) LT_T2 (add_size c LT_T2 1);
            Some (R_FOUND, Some i, c)
      | LT_B2 =>
          if c_listSize c LT_B2 == 0 then None
          else
            let target := Z.max (c_target c - Z.max (c_listSize c LT_B1 / c_listSize c LT_B2) 1) 0 in
            c ← removeEntry i (add_size (with_target c target) LT_B2 (-1));
            c ← replace c;
            c ← AddMRU (Some i) LT_T2 (add_size c LT_T2 1);
            Some (R_FOUND, Some i, c)
      | LT_NONE => Some (R_ERROR, None, c)
      end
  end.

(** The entry [addLocalEntry] fills: a purged or a new one. *)
Definition make_room (c : CACHE) : option (option nat * CACHE) :=
  if u32 (c_listSize c LT_T1 + c_listSize c LT_B1) == c_size c then
    if c_listSize c LT_T1 <? c_size c then
      '(newentry, c) ← PurgeLRU LT_B1 c;
      c ← replace (add_size c LT_B1 (-1));
      Some (newentry, c)
    else
      '(newentry, c) ← PurgeLRU LT_T1 c;
      Some (newentry, add_size c LT_T1 (-1))
  else if c_size c <=? Z.of_nat (c_entries c) then
    '(newentry, c) ← (if u32 (2 * c_size c) <=? Z.of_nat (c_entries c) then
                        '(newentry, c) ← PurgeLRU LT_B2 c; Some (newentry, add_size c LT_B2 (-1))
                      else getNewEntry c);
    c ← replace c;
    Some (newentry, c)
  else getNewEntry c.

(** [malloc_ok] is the outcome of the allocation of the key. *)
Definition add_cache (malloc_ok : bool) (key : option (list Z)) (size sfflags entflags : Z) (c : CACHE)
    : option (Lookup_Result * CACHE) :=
  '(newentry, c) ← make_room c;
  c ← AddMRU newentry LT_T1 c;
  let c := add_size c LT_T1 1 in
  i ← newentry;
  c ← upd c i (fun e => set_flags sfflags entflags (set_esize size e));
  c ← destroyEntry i c;
  if malloc_ok then
    bs ← key;
    bs ← read_bytes bs size;
    c ← upd c i (set_key (KData bs));
    Some (R_SUCCESS, c)
  else
    c ← upd c i (set_key KNull);
    Some (R_ERROR, c).

Definition update_cache (key : list Z) (size sfflags entflags : Z) (c : CACHE)
    : option (Lookup_Result * CACHE) :=
  hit ← FindEntry key size c;
  match hit with
  | None => Some (R_NOT_FOUND, c)
  | Some i => c ← upd c i (set_flags sfflags entflags); Some (R_SUCCESS, c)
  end.

Definition remove_cache (key : list Z) (size : Z) (c : CACHE) : option (Lookup_Result * CACHE) :=
  hit ← FindEntry key size c;
  match hit with
  | None => Some (R_NOT_FOUND, c)
  | Some i =>
      c ← removeEntry i c;
      c ← destroyEntry i c;
      c ← upd c i (set_esize 0);
      Some (R_SUCCESS, c)
  end.

(** The loop of [clearLocalEntry] over the [n] entries from [i] on. *)
Fixpoint destroy_loop (n i : nat) (c : CACHE) : option CACHE :=
  match n with
  | O => Some c
  | S n' => c ← destroyEntry i c; destroy_loop n' (S i) c
  end.

(** ** The operations of the interface *)

Abbreviation Caches := (CacheType -> CACHE).

(** The flags are in and out parameters; they are read after the mutex is
    released. *)
Definition checkLocalEntry (key : option (list Z)) (size : Z) (sfflags entflags : option Z)
    (type : CacheType) (Cache : Caches) : option (Lookup_Result * option Z * option Z * Caches) :=
  if decide (type = ALL) then Some (R_ERROR, sfflags, entflags, Cache)
  else
    match sfflags, entflags, key with
    | Some sf, Some ent, Some k =>
        '(r, hit, c) ← check_cache k size (Cache type);
        let Cache := <[type := c]> Cache in
        match hit with
        | None => Some (r, Some sf, Some ent, Cache)
        | Some i => e ← c_entrylist c !! i; Some (r, Some (e_sfflags e), Some (e_entflags e), Cache)
        end
    | _, _, _ => Some (R_ERROR, sfflags, entflags, Cache)
    end.

Definition addLocalEntry (malloc_ok : bool) (key : option (list Z)) (size sfflags entflags : Z)
    (type : CacheType) (Cache : Caches) : option (Lookup_Result * Caches) :=
  if decide (type = ALL) then Some (R_ERROR, Cache)
  else
    '(r, c) ← add_cache malloc_ok key size sfflags entflags (Cache type);
    Some (r, <[type := c]> Cache).

Definition updateLocalEntry (key : option (list Z)) (size sfflags entflags : Z)
    (type : CacheType) (Cache : Caches) : option (Lookup_Result * Caches) :=
  if decide (type = ALL) then Some (R_ERROR, Cache)
  else
    match key with
    | None => Some (R_ERROR, Cache)
    | Some k =>
        '(r, c) ← update_cache k size sfflags entflags (Cache type);
        Some (r, <[type := c]> Cache)
    end.

Definition removeLocalEntry (key : option (list Z)) (size : Z) (type : CacheType) (Cache : Caches)
    : option (Lookup_Result * Caches) :=
  if decide (type = ALL) then Some (R_ERROR, Cache)
  else
    match key with
    | None => Some (R_ERROR, Cache)
    | Some k =>
        '(r, c) ← remove_cache k size (Cache type);
        Some (r, <[type := c]> Cache)
    end.

(** One cache of [clearLocalEntry]: the entries and the target of the cache are
    reset, and then the sizes and the ends of the lists of [Cache[0]], because the
    source writes [Cache->] where it means [cache->]. *)
Definition clear_one (j : CacheType) (Cache : Caches) : option Caches :=
  c ← destroy_loop (c_entries (Cache j)) 0 (Cache j);
  let Cache := <[j := with_target (with_entries c 0) (c_size c)]> Cache in
  let c0 := Cache GOODHASH in
  Some (<[GOODHASH := mkCACHE (c_size c0) (c_entries c0) (fun _ => 0) (c_target c0)
                        (fun _ => None) (fun _ => None) (c_entrylist c0)]> Cache).

(** FULL is the only method. *)
Definition clearLocalEntry (type : CacheType) (Cache : Caches) : option (Lookup_Result * Caches) :=
  match type with
  | ALL =>
      Cache ← clear_one GOODHASH Cache;
      Cache ← clear_one BADHASH Cache;
      Cache ← clear_one URL Cache;
      Some (R_SUCCESS, Cache)
  | _ => Cache ← clear_one type Cache; Some (R_SUCCESS, Cache)
  end.

(** [initcache]: one cache of the loop.  What the allocated array holds is
    arbitrary ([uninit]); a failed allocation leaves no entry to access. *)
Definition init_one (uninit : ENTRY) (malloc_ok : bool) (size : Z) : CACHE :=
  mkCACHE size 0 (fun _ => 0) size (fun _ => None) (fun _ => None)
    (if malloc_ok then replicate (Z.to_nat (u32 (size * 2))) uninit else []).

(** The caches start as zeroed static storage; the loop returns when a mutex
    cannot be created, which leaves the lists as they are. *)
Definition initcache (uninit : ENTRY) (BadLimit GoodLimit : Z) (o : allocs) : Caches :=
  let zero := mkCACHE 0 0 (fun _ => 0) 0 (fun _ => None) (fun _ => None) [] in
  let sized n := mkCACHE n 0 (fun _ => 0) 0 (fun _ => None) (fun _ => None) [] in
  let start t := match t with GOODHASH => sized BadLimit | BADHASH => sized GoodLimit
                 | URL => sized 256 | ALL => zero end in
  let fix loop ts Cache o :=
    match ts with
    | [] => Cache
    | t :: ts' =>
        let '(m, o) := alloc_next o in
        let Cache := <[t := init_one uninit m (c_size (Cache t))]> Cache in
        let '(x, o) := alloc_next o in
        if x then loop ts' Cache o else Cache
    end in
  loop [GOODHASH; BADHASH; URL] start o.
