(* ===== verification/Arc.v ===== *)
(** * Adaptive replacement on sequences

    The specification of the local cache: four sequences, least recently used
    first, and a target, without slots, links or counters.  The definitions are
    parametric in the items, so that they speak both of the slots of an array and
    of the keys and flags the slots hold. *)

From S2P Require Import Prelude.

Record arc (A : Type) := mkArc { t1 : list A; t2 : list A; b1 : list A; b2 : list A; p : Z }.
Arguments mkArc {A} _ _ _ _ _.
Arguments t1 {A} _.
Arguments t2 {A} _.
Arguments b1 {A} _.
Arguments b2 {A} _.
Arguments p {A} _.

Abbreviation len xs := (Z.of_nat (length xs)).

Section Operations.
Context {A : Type}.
Implicit Types s : arc A.

Definition arc_empty (c : Z) : arc A := mkArc [] [] [] [] c.

(** The items of a state. *)
Definition all s : list A := t1 s ++ t2 s ++ b1 s ++ b2 s.
Definition count s : Z := len (t1 s) + len (t2 s) + len (b1 s) + len (b2 s).

(** Move the least recently used item of T1 (when it has reached the target) or
    of T2 to its ghost list. *)
Definition replace s : arc A :=
  if Z.max (p s) 1 <=? len (t1 s) then
    match t1 s with
    | [] => s
    | x :: xs => mkArc xs (t2 s) (b1 s ++ [x]) (b2 s) (p s)
    end
  else
    match t2 s with
    | [] => s
    | x :: xs => mkArc (t1 s) xs (b1 s) (b2 s ++ [x]) (p s)
    end.

Definition remove (f : A -> bool) (xs : list A) : list A := filter (fun x => f x = false) xs.

Definition promote (x : A) s : arc A := mkArc (t1 s) (t2 s ++ [x]) (b1 s) (b2 s) (p s).

(** The item [f] selects, and the state in which it is the most recently used item
    of T2.  A hit in a ghost list moves the target towards the list whose ghost it
    was and makes room. *)
Definition hit (c : Z) (f : A -> bool) s : option (A * arc A) :=
  match find_first f (t1 s), find_first f (t2 s), find_first f (b1 s), find_first f (b2 s) with
  | Some x, _, _, _ => Some (x, promote x (mkArc (remove f (t1 s)) (t2 s) (b1 s) (b2 s) (p s)))
  | None, Some x, _, _ => Some (x, promote x (mkArc (t1 s) (remove f (t2 s)) (b1 s) (b2 s) (p s)))
  | None, None, Some x, _ =>
      let p' := Z.min (p s + Z.max (len (b2 s) / len (b1 s)) 1) c in
      Some (x, promote x (replace (mkArc (t1 s) (t2 s) (remove f (b1 s)) (b2 s) p')))
  | None, None, None, Some x =>
      let p' := Z.max (p s - Z.max (len (b1 s) / len (b2 s)) 1) 0 in
      Some (x, promote x (replace (mkArc (t1 s) (t2 s) (b1 s) (remove f (b2 s)) p')))
  | None, None, None, None => None
  end.

(** Make room for an item. *)
Definition room (c : Z) s : arc A :=
  if len (t1 s) + len (b1 s) =? c then
    if len (t1 s) <? c then replace (mkArc (t1 s) (t2 s) (tail (b1 s)) (b2 s) (p s))
    else mkArc (tail (t1 s)) (t2 s) (b1 s) (b2 s) (p s)
  else if c <=? count s then
    if 2 * c <=? count s then replace (mkArc (t1 s) (t2 s) (b1 s) (tail (b2 s)) (p s))
    else replace s
  else s.

(** The item that making room loses. *)
Definition victim (c : Z) s : option A :=
  if len (t1 s) + len (b1 s) =? c then
    if len (t1 s) <? c then head (b1 s) else head (t1 s)
  else if c <=? count s then if 2 * c <=? count s then head (b2 s) else None
  else None.

(** A new item becomes the most recently used one of T1. *)
Definition miss (c : Z) (x : A) s : arc A :=
  let s' := room c s in mkArc (t1 s' ++ [x]) (t2 s') (b1 s') (b2 s') (p s').

(** The bounds of adaptive replacement: at most [c] resident items, at most [c]
    items on T1 and its ghost, at most [2 c] in all, no ghosts before the cache is
    full, and a target between 0 and [c]. *)
Definition bounded (c : Z) s : Prop :=
  len (t1 s) + len (t2 s) <= c /\ len (t1 s) + len (b1 s) <= c /\ count s <= 2 * c /\
  (len (t1 s) + len (t2 s) < c -> b1 s = [] /\ b2 s = []) /\ 0 <= p s <= c.

Definition full (c : Z) s : Prop := len (t1 s) + len (t2 s) = c.
End Operations.

Definition arc_map {A B} (f : A -> B) (s : arc A) : arc B :=
  mkArc (f <$> t1 s) (f <$> t2 s) (f <$> b1 s) (f <$> b2 s) (p s).

(** ** Lemmas *)

Section Lemmas.
Context {A : Type}.
Implicit Types s : arc A.

Lemma len_cons (x : A) (xs : list A) : len (x :: xs) = len xs + 1.
Proof. simpl. lia. Qed.

Lemma len_snoc (x : A) (xs : list A) : len (xs ++ [x]) = len xs + 1.
Proof. rewrite length_app. simpl. lia. Qed.

Lemma remove_none (f : A -> bool) xs : Forall (fun y => f y = false) xs -> remove f xs = xs.
Proof. induction 1 as [|x xs Hx _ IH]; [done|]. unfold remove. rewrite filter_cons_True by done. by f_equal. Qed.

Lemma remove_split (f : A -> bool) xs x ys : f x = true -> Forall (fun y => f y = false) xs -> Forall (fun y => f y = false) ys ->
  remove f (xs ++ x :: ys) = xs ++ ys.
Proof.
  intros Hx Hxs Hys. unfold remove at 1. rewrite filter_app, filter_cons_False by congruence.
  f_equal; by apply remove_none.
Qed.

(** [replace] applies when the cache is full and the target is in bounds: one of
    its lists has an item to give. *)
Lemma replace_full c s : 0 < c -> full c s -> 0 <= p s <= c ->
  (exists x xs, Z.max (p s) 1 <= len (t1 s) /\ t1 s = x :: xs /\
     replace s = mkArc xs (t2 s) (b1 s ++ [x]) (b2 s) (p s)) \/
  (exists x xs, len (t1 s) < Z.max (p s) 1 /\ t2 s = x :: xs /\
     replace s = mkArc (t1 s) xs (b1 s) (b2 s ++ [x]) (p s)).
Proof.
  unfold full, replace. intros Hc Hf Hp. destruct (Z.leb_spec (Z.max (p s) 1) (len (t1 s))).
  - left. destruct (t1 s) as [|x xs]; simpl in *; [lia|]. by exists x, xs.
  - right. destruct (t2 s) as [|x xs]; simpl in *; [lia|]. by exists x, xs.
Qed.

Lemma replace_all s : all (replace s) ≡ₚ all s.
Proof.
  unfold replace, all. destruct s as [l1 l2 g1 g2 q]; simpl.
  destruct (Z.max q 1 <=? len l1); [destruct l1|destruct l2]; simpl; try done; solve_Permutation.
Qed.

Lemma replace_len s : count (replace s) = count s.
Proof.
  unfold count. enough (length (all (replace s)) = length (all s)) as H.
  { unfold all in H. rewrite !length_app in H. lia. }
  by rewrite replace_all.
Qed.

(** [replace] on a full cache takes one item from the resident lists. *)
Lemma replace_sizes c s : 0 < c -> full c s -> 0 <= p s <= c ->
  len (t1 (replace s)) + len (t2 (replace s)) = c - 1 /\
  len (t1 (replace s)) + len (b1 (replace s)) = len (t1 s) + len (b1 s) /\
  p (replace s) = p s.
Proof.
  intros Hc Hf Hp. unfold full in Hf.
  destruct (replace_full c s Hc Hf Hp) as [(x & xs & _ & E & ->)|(x & xs & _ & E & ->)]; simpl;
    rewrite E in *; rewrite ?len_cons, ?len_snoc in *; lia.
Qed.

Lemma ghosts_full c s : bounded c s -> b1 s <> [] \/ b2 s <> [] -> full c s.
Proof. unfold bounded, full. intros (H1 & H2 & H3 & Hg & _) Hb. destruct (decide (len (t1 s) + len (t2 s) < c)) as [Hl|]; [|lia].
  destruct (Hg Hl). naive_solver. Qed.

Lemma len_tail (xs : list A) : xs <> [] -> len (tail xs) = len xs - 1.
Proof. destruct xs; simpl; [done|]. lia. Qed.

Lemma len_nil (xs : list A) : 0 < len xs -> xs <> [].
Proof. by destruct xs. Qed.

(** Making room keeps the bounds and leaves a place for an item on T1. *)
Lemma room_sizes c s : 0 < c -> bounded c s ->
  len (t1 (room c s)) + len (t2 (room c s)) + 1 <= c /\
  len (t1 (room c s)) + len (b1 (room c s)) + 1 <= c /\
  count (room c s) + 1 <= 2 * c /\
  (len (t1 (room c s)) + len (t2 (room c s)) + 1 < c -> b1 (room c s) = [] /\ b2 (room c s) = []) /\
  p (room c s) = p s.
Proof.
  intros Hc Hb. pose proof Hb as (H1 & H2 & H3 & H4 & H5). pose proof (ghosts_full c s Hb) as Hg.
  unfold room. destruct (Z.eqb_spec (len (t1 s) + len (b1 s)) c); [destruct (Z.ltb_spec (len (t1 s)) c)|
    destruct (Z.leb_spec c (count s)); [destruct (Z.leb_spec (2 * c) (count s))|]].
  - assert (Hn : b1 s <> []) by (apply len_nil; lia). specialize (Hg (or_introl Hn)).
    set (s0 := mkArc (t1 s) (t2 s) (tail (b1 s)) (b2 s) (p s)).
    destruct (replace_sizes c s0 Hc Hg H5) as (? & ? & ?). pose proof (replace_len s0) as Ht.
    pose proof (len_tail _ Hn). unfold count in *. simpl in *. lia.
  - assert (Hn : t1 s <> []) by (apply len_nil; lia). pose proof (len_tail _ Hn).
    unfold count in *. simpl in *. split_and!; try lia.
  - assert (Hn : b2 s <> []) by (apply len_nil; unfold count in *; lia). specialize (Hg (or_intror Hn)).
    set (s0 := mkArc (t1 s) (t2 s) (b1 s) (tail (b2 s)) (p s)).
    destruct (replace_sizes c s0 Hc Hg H5) as (? & ? & ?). pose proof (replace_len s0) as Ht.
    pose proof (len_tail _ Hn). unfold count in *. simpl in *. lia.
  - assert (Hf : full c s). { unfold full. destruct (decide (len (t1 s) + len (t2 s) < c)) as [Hl|]; [|lia].
      destruct (H4 Hl) as [E1 E2]. unfold count in *. rewrite E1, E2 in *. simpl in *. lia. }
    destruct (replace_sizes c s Hc Hf H5) as (? & ? & ?). pose proof (replace_len s) as Ht.
    unfold count in *. lia.
  - destruct (H4 ltac:(unfold count in *; lia)) as [E1 E2]. unfold count in *. rewrite E1, E2 in *.
    simpl in *. split_and!; try done; lia.
Qed.

Lemma miss_bounded c x s : 0 < c -> bounded c s -> bounded c (miss c x s).
Proof.
  intros Hc Hb. pose proof Hb as (_ & _ & _ & _ & ?).
  destruct (room_sizes c s Hc Hb) as (? & ? & ? & Hg & ?).
  unfold bounded, miss, count in *. simpl. rewrite len_snoc. split_and!; try lia.
  intros. apply Hg. lia.
Qed.

Lemma head_tail (xs : list A) : xs = option_list (head xs) ++ tail xs.
Proof. by destruct xs. Qed.

(** Making room loses the victim and nothing else. *)
Lemma room_all c s : all s ≡ₚ option_list (victim c s) ++ all (room c s).
Proof.
  unfold room, victim. repeat case_match; rewrite ?replace_all; try done; unfold all; simpl.
  - rewrite (head_tail (b1 s)) at 1. solve_Permutation.
  - rewrite (head_tail (t1 s)) at 1. solve_Permutation.
  - rewrite (head_tail (b2 s)) at 1. solve_Permutation.
Qed.

Lemma miss_all c x s : x :: all s ≡ₚ option_list (victim c s) ++ all (miss c x s).
Proof.
  rewrite room_all. unfold miss, all. simpl. solve_Permutation.
Qed.

(** [f] selects the item [x] of [s] and no other. *)
Definition selects (f : A -> bool) (x : A) s : Prop :=
  x ∈ all s /\ NoDup (all s) /\ forall y, y ∈ all s -> f y = true <-> y = x.

Lemma elem_of_all x s : x ∈ all s <-> x ∈ t1 s \/ x ∈ t2 s \/ x ∈ b1 s \/ x ∈ b2 s.
Proof. unfold all. rewrite !elem_of_app. done. Qed.

Lemma not_selected (f : A -> bool) x s (xs : list A) : selects f x s -> (forall y, y ∈ xs -> y ∈ all s) -> x ∉ xs ->
  Forall (fun y => f y = false) xs.
Proof.
  intros (_ & _ & Hf) Hin Hx. apply Forall_forall. intros y Hy. apply not_true_is_false.
  intros Ht. apply Hf in Ht; [congruence|]. auto.
Qed.

Lemma selected_split (f : A -> bool) x s (xs : list A) : selects f x s -> (forall y, y ∈ xs -> y ∈ all s) -> NoDup xs ->
  x ∈ xs -> exists pre post, xs = pre ++ x :: post /\ remove f xs = pre ++ post /\ find_first f xs = Some x.
Proof.
  intros Hs Hin Hn Hx. apply list_elem_of_split in Hx as (pre & post & ->).
  apply NoDup_app in Hn as (_ & Hd & Hp). apply NoDup_cons in Hp as [Hp _].
  assert (Hx : f x = true). { destruct Hs as (? & _ & Hf). by apply Hf. }
  assert (Hpre : Forall (fun y => f y = false) pre).
  { eapply not_selected; [done| |]; [intros; apply Hin; set_solver|]. intros H. apply (Hd x H). set_solver. }
  exists pre, post. split_and!; [done| |].
  - apply remove_split; [done..|]. eapply not_selected; [done| |done]. intros; apply Hin; set_solver.
  - apply find_first_Some. by exists pre, post.
Qed.

Lemma find_none (f : A -> bool) x s (xs : list A) : selects f x s -> (forall y, y ∈ xs -> y ∈ all s) -> x ∉ xs ->
  find_first f xs = None.
Proof. intros. apply find_first_None. eauto using not_selected. Qed.

(** The four cases of a hit. *)
Lemma hit_cases c (f : A -> bool) x s : selects f x s ->
  (exists xs ys, t1 s = xs ++ x :: ys /\
     hit c f s = Some (x, promote x (mkArc (xs ++ ys) (t2 s) (b1 s) (b2 s) (p s)))) \/
  (exists xs ys, t2 s = xs ++ x :: ys /\
     hit c f s = Some (x, promote x (mkArc (t1 s) (xs ++ ys) (b1 s) (b2 s) (p s)))) \/
  (exists xs ys, b1 s = xs ++ x :: ys /\
     hit c f s = Some (x, promote x (replace (mkArc (t1 s) (t2 s) (xs ++ ys) (b2 s)
       (Z.min (p s + Z.max (len (b2 s) / len (b1 s)) 1) c))))) \/
  (exists xs ys, b2 s = xs ++ x :: ys /\
     hit c f s = Some (x, promote x (replace (mkArc (t1 s) (t2 s) (b1 s) (xs ++ ys)
       (Z.max (p s - Z.max (len (b1 s) / len (b2 s)) 1) 0))))).
Proof.
  intros Hs. pose proof Hs as (Hx & Hn & _). unfold all in Hn.
  apply NoDup_app in Hn as (N1 & D1 & Hn). apply NoDup_app in Hn as (N2 & D2 & Hn).
  apply NoDup_app in Hn as (N3 & D3 & N4). 
  assert (E1 : forall y, y ∈ t1 s -> ~ (y ∈ t2 s \/ y ∈ b1 s \/ y ∈ b2 s))
    by (intros y Hy Hy'; apply (D1 y Hy); rewrite !elem_of_app; tauto).
  assert (E2 : forall y, y ∈ t2 s -> ~ (y ∈ b1 s \/ y ∈ b2 s))
    by (intros y Hy Hy'; apply (D2 y Hy); rewrite !elem_of_app; tauto).
  assert (I1 : forall y, y ∈ t1 s -> y ∈ all s) by (intros; rewrite elem_of_all; tauto).
  assert (I2 : forall y, y ∈ t2 s -> y ∈ all s) by (intros; rewrite elem_of_all; tauto).
  assert (I3 : forall y, y ∈ b1 s -> y ∈ all s) by (intros; rewrite elem_of_all; tauto).
  assert (I4 : forall y, y ∈ b2 s -> y ∈ all s) by (intros; rewrite elem_of_all; tauto).
  apply elem_of_all in Hx as [Hx|[Hx|[Hx|Hx]]]; unfold hit.
  - left. destruct (selected_split f x s _ Hs I1 N1 Hx) as (xs & ys & E & -> & ->). eauto.
  - right; left. rewrite (find_none f x s (t1 s)) by (try done; intros H; apply (E1 x H); tauto).
    destruct (selected_split f x s _ Hs I2 N2 Hx) as (xs & ys & E & -> & ->). eauto.
  - right; right; left. rewrite (find_none f x s (t1 s)) by (try done; intros H; apply (E1 x H); tauto).
    rewrite (find_none f x s (t2 s)) by (try done; intros H; apply (E2 x H); tauto).
    destruct (selected_split f x s _ Hs I3 N3 Hx) as (xs & ys & E & -> & ->). eauto.
  - right; right; right. rewrite (find_none f x s (t1 s)) by (try done; intros H; apply (E1 x H); tauto).
    rewrite (find_none f x s (t2 s)) by (try done; intros H; apply (E2 x H); tauto).
    rewrite (find_none f x s (b1 s)) by (try done; intros H; apply (D3 x H); done).
    destruct (selected_split f x s _ Hs I4 N4 Hx) as (xs & ys & E & -> & ->). eauto.
Qed.

Lemma promote_all x s : all (promote x s) ≡ₚ x :: all s.
Proof. unfold all, promote. simpl. solve_Permutation. Qed.

(** A hit keeps the items and the bounds. *)
Lemma hit_all c (f : A -> bool) x s : selects f x s ->
  exists s', hit c f s = Some (x, s') /\ all s' ≡ₚ all s.
Proof.
  intros Hs. destruct (hit_cases c f x s Hs) as [(xs & ys & E & ->)|[(xs & ys & E & ->)|[(xs & ys & E & ->)|
    (xs & ys & E & ->)]]]; eexists; (split; [done|]); rewrite promote_all, ?replace_all; unfold all; simpl;
    rewrite E; solve_Permutation.
Qed.

Lemma len_mid (x : A) xs ys : len (xs ++ x :: ys) = len (xs ++ ys) + 1.
Proof. rewrite !length_app. simpl. lia. Qed.

Lemma hit_bounded c (f : A -> bool) x s s' : 0 < c -> bounded c s -> selects f x s -> hit c f s = Some (x, s') ->
  bounded c s'.
Proof.
  intros Hc Hb Hs. pose proof Hb as (H1 & H2 & H3 & H4 & H5). pose proof (ghosts_full c s Hb) as Hg.
  destruct (hit_cases c f x s Hs) as [(xs & ys & E & ->)|[(xs & ys & E & ->)|[(xs & ys & E & ->)|
    (xs & ys & E & ->)]]]; intros [= <-];
    pose proof (f_equal (fun l => len l) E) as El; cbv beta in El; rewrite len_mid in El.
  - unfold bounded, promote, count in *. simpl. rewrite len_snoc. split_and!; try lia.
    intros. apply H4. lia.
  - unfold bounded, promote, count in *. simpl. rewrite len_snoc. split_and!; try lia.
    intros. apply H4. lia.
  - assert (Hf : full c s) by (apply Hg; left; rewrite E; by destruct xs).
    set (q := Z.min _ c). set (s0 := mkArc _ _ _ _ q). assert (Hq : 0 <= p s0 <= c) by (subst q; simpl; lia).
    destruct (replace_sizes c s0 Hc Hf Hq) as (? & ? & ?). pose proof (replace_len s0) as Ht.
    unfold bounded, promote, count in *. simpl in *. rewrite len_snoc. split_and!; lia.
  - assert (Hf : full c s) by (apply Hg; right; rewrite E; by destruct xs).
    set (q := Z.max _ 0). set (s0 := mkArc _ _ _ _ q). assert (Hq : 0 <= p s0 <= c) by (subst q; simpl; lia).
    destruct (replace_sizes c s0 Hc Hf Hq) as (? & ? & ?). pose proof (replace_len s0) as Ht.
    unfold bounded, promote, count in *. simpl in *. rewrite len_snoc. split_and!; lia.
Qed.

Lemma arc_empty_bounded c : 0 < c -> bounded c (@arc_empty A c).
Proof. intros. unfold bounded, arc_empty, count. simpl. split_and!; try lia. done. Qed.
End Lemmas.

(** ** The operations commute with maps on the items *)

Section Map.
Context {A B : Type} (g : A -> B).

Lemma map_replace (s : arc A) : arc_map g (replace s) = replace (arc_map g s).
Proof.
  unfold replace, arc_map. destruct s as [l1 l2 g1 g2 q]; simpl. rewrite length_fmap.
  destruct (Z.max q 1 <=? len l1); [destruct l1|destruct l2]; simpl; rewrite ?fmap_app; done.
Qed.

Lemma map_promote x (s : arc A) : arc_map g (promote x s) = promote (g x) (arc_map g s).
Proof. unfold promote, arc_map. simpl. by rewrite fmap_app. Qed.

Lemma map_tail (xs : list A) : g <$> tail xs = tail (g <$> xs).
Proof. by destruct xs. Qed.

Lemma map_count (s : arc A) : count (arc_map g s) = count s.
Proof. unfold count, arc_map. simpl. by rewrite !length_fmap. Qed.

Lemma map_room c (s : arc A) : arc_map g (room c s) = room c (arc_map g s).
Proof.
  unfold room. rewrite map_count. destruct s as [l1 l2 g1 g2 q]; simpl. rewrite !length_fmap.
  repeat case_match; rewrite ?map_replace; unfold arc_map; simpl; by rewrite ?map_tail.
Qed.

Lemma map_bounded c (s : arc A) : bounded c (arc_map g s) <-> bounded c s.
Proof.
  unfold bounded. rewrite map_count. unfold arc_map. simpl. rewrite !length_fmap.
  destruct (b1 s), (b2 s); simpl; naive_solver.
Qed.

Lemma map_all (s : arc A) : all (arc_map g s) = g <$> all s.
Proof. unfold all, arc_map. simpl. by rewrite !fmap_app. Qed.

Lemma map_find (f : B -> bool) (xs : list A) :
  find_first f (g <$> xs) = g <$> find_first (fun x => f (g x)) xs.
Proof. induction xs as [|x xs IH]; simpl; [done|]. by destruct (f (g x)). Qed.

Lemma map_remove (f : B -> bool) (xs : list A) : remove f (g <$> xs) = g <$> remove (fun x => f (g x)) xs.
Proof.
  induction xs as [|x xs IH]; [done|]. unfold remove in *. rewrite fmap_cons, !filter_cons, IH.
  by destruct (decide (f (g x) = false)).
Qed.

Lemma map_hit c (f : B -> bool) (s : arc A) :
  hit c f (arc_map g s) = (fun '(x, s') => (g x, arc_map g s')) <$> hit c (fun x => f (g x)) s.
Proof.
  unfold hit. destruct s as [l1 l2 g1 g2 q]; simpl. rewrite !map_find.
  destruct (find_first _ l1); simpl.
  { by rewrite map_promote, map_remove. }
  destruct (find_first _ l2); simpl.
  { by rewrite map_promote, map_remove. }
  destruct (find_first _ g1); simpl.
  { by rewrite map_promote, map_replace, map_remove, !length_fmap. }
  destruct (find_first _ g2); simpl; [|done].
  by rewrite map_promote, map_replace, map_remove, !length_fmap.
Qed.
End Map.
