(* ===== verification/LocalCacheProps.v ===== *)
(** * The local cache implements adaptive replacement

    [lists] says that the links of the array form the four lists; [cache_rep]
    relates a cache to the state of the specification (Arc.v).  Each operation
    then implements its specification, without a crash. *)

From S2P Require Import CLib LocalCache Arc Prelude.

(** ** Chains of entries *)

Definition first_slot (xs : list nat) (nx : option nat) : option nat :=
  match xs with [] => nx | i :: _ => Some i end.
Definition last_slot (pv : option nat) (xs : list nat) : option nat :=
  match list.last xs with None => pv | Some i => Some i end.

(** [xs] are the slots of consecutive entries of the list [lt], between [pv] and
    [nx]. *)
Fixpoint chain (es : list ENTRY) (lt : LISTTYPE) (pv : option nat) (xs : list nat) (nx : option nat) : Prop :=
  match xs with
  | [] => True
  | i :: xs' =>
      (exists e, es !! i = Some e /\ e_listtype e = lt /\ e_prev e = pv /\ e_next e = first_slot xs' nx) /\
      chain es lt (Some i) xs' nx
  end.

(** The slots of a cache by list; [L LT_NONE] are those detached by an operation
    that is under way. *)
Record lists (c : CACHE) (L : LISTTYPE -> list nat) : Prop := {
  l_chain lt : lt <> LT_NONE -> chain (c_entrylist c) lt None (L lt) None;
  l_LRU lt : lt <> LT_NONE -> c_LRU c lt = list.head (L lt);
  l_MRU lt : lt <> LT_NONE -> c_MRU c lt = list.last (L lt);
  l_nodup lt : NoDup (L lt);
  l_slot i : (i < c_entries c)%nat <-> exists lt, i ∈ L lt;
  l_type lt i : i ∈ L lt -> exists e, c_entrylist c !! i = Some e /\ e_listtype e = lt
}.

(** What moving entries between lists leaves alone. *)
Definition payload (e : ENTRY) : Z * key_ptr * Z * Z := (e_size e, e_key e, e_sfflags e, e_entflags e).

Record relinked (c c' : CACHE) : Prop := {
  r_size : c_size c' = c_size c;
  r_entries : c_entries c' = c_entries c;
  r_listSize : c_listSize c' = c_listSize c;
  r_target : c_target c' = c_target c;
  r_payload : payload <$> c_entrylist c' = payload <$> c_entrylist c
}.

Global Instance relinked_refl : Reflexive relinked.
Proof. by constructor. Qed.
Global Instance relinked_trans : Transitive relinked.
Proof. intros a b c [] []. constructor; congruence. Qed.

Section Chains.
Implicit Types es : list ENTRY.
Implicit Types xs : list nat.

Lemma first_slot_app xs ys nx : first_slot (xs ++ ys) nx = first_slot xs (first_slot ys nx).
Proof. by destruct xs. Qed.

Lemma last_slot_snoc pv xs i : last_slot pv (xs ++ [i]) = Some i.
Proof. unfold last_slot. by rewrite last_snoc. Qed.

Lemma last_slot_cons pv xs i : last_slot pv (i :: xs) = last_slot (Some i) xs.
Proof. unfold last_slot. rewrite last_cons. by destruct (list.last xs). Qed.

Lemma slots_app es lt pv xs ys nx :
  chain es lt pv (xs ++ ys) nx <-> chain es lt pv xs (first_slot ys nx) /\ chain es lt (last_slot pv xs) ys nx.
Proof.
  revert pv. induction xs as [|i xs IH]; intros pv; simpl; [tauto|].
  rewrite IH, last_slot_cons, first_slot_app. tauto.
Qed.

Lemma chain_frame es lt pv xs nx i e : i ∉ xs -> chain es lt pv xs nx -> chain (<[i := e]> es) lt pv xs nx.
Proof.
  revert pv. induction xs as [|j xs IH]; intros pv Hi; simpl; [done|]. apply not_elem_of_cons in Hi as [? ?].
  intros [(e' & ? & ?) ?]. split; [|by apply IH]. exists e'. by rewrite list_lookup_insert_ne by done.
Qed.

Lemma chain_elem es lt pv xs nx i : i ∈ xs -> chain es lt pv xs nx ->
  exists e, es !! i = Some e /\ e_listtype e = lt.
Proof.
  revert pv. induction xs as [|j xs IH]; intros pv Hi; [by apply not_elem_of_nil in Hi|].
  intros [(e & ? & ? & _) Hc]. apply elem_of_cons in Hi as [->|Hi]; [eauto|]. by eapply IH.
Qed.

(** Change the [prev] of the first entry, or the [next] of the last one. *)
Lemma chain_first es lt pv pv' xs nx i e : i ∉ xs -> chain es lt pv (i :: xs) nx -> es !! i = Some e ->
  chain (<[i := set_prev pv' e]> es) lt pv' (i :: xs) nx.
Proof.
  intros Hi [(e' & He & Ht & _ & Hn) Hc] He'. simplify_eq. split; [|by apply chain_frame].
  eexists. split; [apply list_lookup_insert_eq; by eapply lookup_lt_Some|done].
Qed.

Lemma chain_last es lt pv xs nx nx' i e : i ∉ xs -> chain es lt pv (xs ++ [i]) nx -> es !! i = Some e ->
  chain (<[i := set_next nx' e]> es) lt pv (xs ++ [i]) nx'.
Proof.
  intros Hi Hc He. apply slots_app in Hc as [Hx [(e' & He' & Ht & Hp & _) _]]. apply slots_app. simpl.
  split; [by apply chain_frame|]. split; [|done]. simplify_eq.
  eexists. split; [apply list_lookup_insert_eq; by eapply lookup_lt_Some|done].
Qed.
End Chains.

Lemma payload_insert (es : list ENTRY) (i : nat) e (f : ENTRY -> ENTRY) : es !! i = Some e -> payload (f e) = payload e ->
  payload <$> <[i := f e]> es = payload <$> es.
Proof.
  intros He Hp. rewrite list_fmap_insert, Hp. apply list_insert_id. by rewrite list_lookup_fmap, He.
Qed.

Lemma upd_relinked c i e f : c_entrylist c !! i = Some e -> payload (f e) = payload e ->
  upd c i f = Some (with_entrylist c (<[i := f e]> (c_entrylist c))) /\
  relinked c (with_entrylist c (<[i := f e]> (c_entrylist c))).
Proof. intros He Hp. unfold upd. rewrite He. split; [done|]. constructor; try done. by apply payload_insert. Qed.

Lemma slots_ext es es' lt pv xs nx : (forall j, j ∈ xs -> es' !! j = es !! j) ->
  chain es lt pv xs nx -> chain es' lt pv xs nx.
Proof.
  revert pv. induction xs as [|i xs IH]; intros pv He; simpl; [done|]. intros [(e & ? & ?) Hc].
  split; [exists e; rewrite He by set_solver; done|]. apply IH; [|done]. intros. apply He. set_solver.
Qed.

Arguments chain : simpl never.

Abbreviation detach := (set_place None None LT_NONE).
Abbreviation moved L lt xs zs := (<[LT_NONE := zs]> (<[lt := xs]> L)).

Section Lists.
Implicit Types c : CACHE.
Implicit Types L : LISTTYPE -> list nat.

Lemma disjoint_slots c L lt lt' i : lists c L -> i ∈ L lt -> i ∈ L lt' -> lt = lt'.
Proof. intros H Hi Hi'. destruct (l_type _ _ H _ _ Hi) as (e & ? & <-), (l_type _ _ H _ _ Hi') as (e' & ? & <-). congruence. Qed.

(** Moving entries between the list [lt] and the detached ones leaves the other
    lists alone. *)
Lemma lists_move c c' L lt xs zs : lists c L -> lt <> LT_NONE ->
  c_entries c' = c_entries c ->
  (forall l, l <> lt -> c_LRU c' l = c_LRU c l /\ c_MRU c' l = c_MRU c l) ->
  c_LRU c' lt = list.head xs -> c_MRU c' lt = list.last xs ->
  (forall j, j ∉ L lt -> j ∉ L LT_NONE -> c_entrylist c' !! j = c_entrylist c !! j) ->
  chain (c_entrylist c') lt None xs None -> NoDup xs -> NoDup zs ->
  (forall j, j ∈ zs -> exists e, c_entrylist c' !! j = Some e /\ e_listtype e = LT_NONE) ->
  (forall j, j ∈ xs \/ j ∈ zs <-> j ∈ L lt \/ j ∈ L LT_NONE) ->
  lists c' (<[LT_NONE := zs]> (<[lt := xs]> L)).
Proof.
  intros H Hlt He Hend Hlru Hmru Hes Hch Hnx Hnz Hz Hel.
  assert (Hother : forall l j, l <> lt -> l <> LT_NONE -> j ∈ L l -> c_entrylist c' !! j = c_entrylist c !! j).
  { intros l j ?? Hj. apply Hes; intros Hj'; by pose proof (disjoint_slots _ _ _ _ _ H Hj Hj'). }
  assert (Hget : forall l, (<[LT_NONE := zs]> (<[lt := xs]> L) l =
    if decide (l = LT_NONE) then zs else if decide (l = lt) then xs else L l)).
  { intros l. destruct (decide (l = LT_NONE)) as [->|]; [by rewrite fn_lookup_insert|].
    rewrite fn_lookup_insert_ne by done. destruct (decide (l = lt)) as [->|]; [by rewrite fn_lookup_insert|].
    by rewrite fn_lookup_insert_ne by done. }
  constructor.
  - intros l Hl. rewrite Hget, decide_False by done. destruct (decide (l = lt)) as [->|]; [done|].
    eapply slots_ext; [|by apply (l_chain _ _ H)]. intros. by eapply Hother.
  - intros l Hl. rewrite Hget, decide_False by done. destruct (decide (l = lt)) as [->|]; [done|].
    rewrite (proj1 (Hend l ltac:(done))). by apply (l_LRU _ _ H).
  - intros l Hl. rewrite Hget, decide_False by done. destruct (decide (l = lt)) as [->|]; [done|].
    rewrite (proj2 (Hend l ltac:(done))). by apply (l_MRU _ _ H).
  - intros l. rewrite Hget. repeat case_decide; try done. apply (l_nodup _ _ H).
  - intros i. rewrite He, (l_slot _ _ H). split; intros [l Hl].
    + destruct (decide (l = lt \/ l = LT_NONE)) as [Hd|Hd].
      * destruct (Hel i) as [_ Hi]. destruct Hi as [Hi|Hi]; [naive_solver|exists lt|exists LT_NONE]; rewrite Hget;
          by rewrite ?decide_False, ?decide_True by done.
      * exists l. rewrite Hget, !decide_False by tauto. done.
    + rewrite Hget in Hl. case_decide; [destruct (proj1 (Hel i) (or_intror Hl)); eauto|].
      case_decide; [destruct (proj1 (Hel i) (or_introl Hl)); eauto|eauto].
  - intros l i Hi. rewrite Hget in Hi. case_decide; [subst; auto|]. case_decide; [subst; by eapply chain_elem|].
    rewrite (Hother l i) by done. by apply (l_type _ _ H).
Qed.

Lemma FindEnd_none (q : ENTRY -> bool) es n i found :
  (forall j, (i <= j < i + n)%nat -> exists e, es !! j = Some e /\ q e = false) ->
  FindEnd_loop q es n i found = Some found.
Proof.
  revert i. induction n as [|n IH]; intros i H; simpl; [done|].
  destruct (H i ltac:(lia)) as (e & -> & Hq). simpl. rewrite Hq. apply IH. intros. apply H. lia.
Qed.

(** An entry of the cache that is on no list [lt] is not found by scanning for one. *)
Lemma scan_none c L lt (q : ENTRY -> bool) : lists c L -> L lt = [] ->
  (forall e, q e = true -> e_listtype e = lt) ->
  FindEnd_loop q (c_entrylist c) (c_entries c) 0 None = Some None.
Proof.
  intros H HL Hq. apply FindEnd_none. intros j Hj.
  destruct (proj1 (l_slot _ _ H j) ltac:(lia)) as [l Hl]. destruct (l_type _ _ H _ _ Hl) as (e & He & Ht).
  exists e. split; [done|]. apply not_true_is_false. intros Ht'%Hq. replace l with lt in Hl by congruence. rewrite HL in Hl.
  by apply not_elem_of_nil in Hl.
Qed.

(** [FindLRU] and [FindMRU] return the ends of the list. *)
Lemma FindLRU_lists c L lt : lists c L -> lt <> LT_NONE ->
  exists c', FindLRU lt c = Some (list.head (L lt), c') /\ lists c' L /\ relinked c c' /\
    c_entrylist c' = c_entrylist c /\ c_LRU c' lt = list.head (L lt) /\
    (forall l, l <> lt -> c_LRU c' l = c_LRU c l) /\ c_MRU c' = c_MRU c.
Proof.
  intros H Hlt. pose proof (l_LRU _ _ H lt Hlt) as E. unfold FindLRU. rewrite decide_False by done.
  destruct (L lt) as [|i xs] eqn:EL; simpl in *; rewrite E.
  - rewrite (scan_none c L lt) by (done || (intros e He; apply andb_prop in He as [_ He]; by apply bool_decide_eq_true in He)).
    exists (with_LRU c lt None). split; [done|]. split_and!; try done; simpl.
    + destruct H. constructor; try done. simpl. intros l Hl. destruct (decide (l = lt)) as [->|].
      * by rewrite fn_lookup_insert, EL.
      * rewrite fn_lookup_insert_ne by done. auto.
    + by rewrite fn_lookup_insert.
    + intros. by rewrite fn_lookup_insert_ne.
  - exists c. split; [done|]. by split_and!.
Qed.

Lemma FindMRU_lists c L lt : lists c L -> lt <> LT_NONE ->
  exists c', FindMRU lt c = Some (list.last (L lt), c') /\ lists c' L /\ relinked c c' /\
    c_entrylist c' = c_entrylist c /\ c_MRU c' lt = list.last (L lt) /\
    (forall l, l <> lt -> c_MRU c' l = c_MRU c l) /\ c_LRU c' = c_LRU c.
Proof.
  intros H Hlt. pose proof (l_MRU _ _ H lt Hlt) as E. unfold FindMRU. rewrite decide_False by done.
  destruct (snoc_inv (L lt)) as [EL|(xs & i & EL)]; rewrite EL in *; simpl in *; rewrite E.
  - rewrite (scan_none c L lt) by (done || (intros e He; apply andb_prop in He as [_ He]; by apply bool_decide_eq_true in He)).
    exists (with_MRU c lt None). split; [done|]. split_and!; try done; simpl.
    + destruct H. constructor; try done. simpl. intros l Hl. destruct (decide (l = lt)) as [->|].
      * by rewrite fn_lookup_insert, EL.
      * rewrite fn_lookup_insert_ne by done. auto.
    + by rewrite fn_lookup_insert.
    + intros. by rewrite fn_lookup_insert_ne.
  - rewrite last_snoc in *. exists c. split; [done|]. by split_and!.
Qed.


Lemma head_chain es lt pv i xs nx : chain es lt pv (i :: xs) nx ->
  exists e, es !! i = Some e /\ e_listtype e = lt /\ e_prev e = pv /\ e_next e = first_slot xs nx.
Proof. by intros [? _]. Qed.

Lemma lookup_insert_slot (es : list ENTRY) (i : nat) e e' : es !! i = Some e' -> <[i := e]> es !! i = Some e.
Proof. intros. apply list_lookup_insert_eq. by eapply lookup_lt_Some. Qed.

(** [PurgeLRU] detaches the first entry of a list. *)
Lemma PurgeLRU_lists c L lt i xs : lists c L -> lt <> LT_NONE -> L lt = i :: xs ->
  exists c', PurgeLRU lt c = Some (Some i, c') /\ lists c' (moved L lt xs (i :: L LT_NONE)) /\ relinked c c'.
Proof.
  intros H Hlt EL. destruct (FindLRU_lists c L lt H Hlt) as (c1 & E & H1 & R1 & Ees & _ & _ & _).
  unfold PurgeLRU. rewrite E, EL. cbn [mbind option_bind list.head].
  pose proof (l_chain _ _ H1 lt Hlt) as Hc. pose proof (l_nodup _ _ H1 lt) as Hn. rewrite EL in Hc, Hn.
  destruct (head_chain _ _ _ _ _ _ Hc) as (e & He & Ht & Hp & Hnx). rewrite He. cbn [mbind option_bind].
  apply NoDup_cons in Hn as [Hi Hn]. destruct Hc as [_ Hc]. rewrite Hnx.
  assert (Hid : i ∉ L LT_NONE).
  { intros Hi'. destruct (l_type _ _ H1 _ _ Hi') as (e' & ? & ?). congruence. }
  assert (Hz : forall es : list ENTRY, es !! i = Some (detach e) ->
    (forall j, j ∈ L LT_NONE -> es !! j = c_entrylist c1 !! j) ->
    forall j, j ∈ i :: L LT_NONE -> exists e, es !! j = Some e /\ e_listtype e = LT_NONE).
  { intros es He' Hes j. rewrite elem_of_cons. intros [->|Hj]; [by exists (detach e)|]. rewrite Hes by done.
    by apply (l_type _ _ H1). }
  destruct xs as [|n ys]; cbn [first_slot mbind option_bind].
  - destruct (upd_relinked (with_MRU (with_LRU c1 lt None) lt None) i e detach He ltac:(done)) as [-> R].
    cbn [mbind option_bind]. eexists. split; [done|]. split; [|by etrans; [|destruct R1, R; constructor]].
    apply (lists_move c1); try done; simpl; rewrite ?EL.
    + intros l Hl. by rewrite !fn_lookup_insert_ne by done.
    + by rewrite fn_lookup_insert.
    + by rewrite fn_lookup_insert.
    + intros j Hj _. rewrite list_lookup_insert_ne; [done|set_solver].
    + apply NoDup_cons. split; [done|apply (l_nodup _ _ H1)].
    + apply Hz; [by eapply lookup_insert_slot|]. intros. rewrite list_lookup_insert_ne; [done|set_solver].
    + set_solver.
  - destruct (head_chain _ _ _ _ _ _ Hc) as (en & Hen & _). apply not_elem_of_cons in Hi as [Hin Hi].
    destruct (upd_relinked c1 n en (set_prev None) Hen ltac:(done)) as [-> Rn]. cbn [mbind option_bind].
    set (c2 := with_LRU _ lt (Some n)).
    assert (He2 : c_entrylist c2 !! i = Some e) by (simpl; by rewrite list_lookup_insert_ne by done).
    destruct (upd_relinked c2 i e detach He2 ltac:(done)) as [-> R]. cbn [mbind option_bind].
    eexists. split; [done|]. apply NoDup_cons in Hn as [Hny Hn].
    split; [|destruct R1, Rn, R; constructor; simpl in *; congruence].
    assert (Hnl : n ∈ L lt) by (rewrite EL; set_solver).
    apply (lists_move c1); try done; simpl; rewrite ?EL.
    + intros l Hl. by rewrite !fn_lookup_insert_ne by done.
    + by rewrite fn_lookup_insert.
    + rewrite (l_MRU _ _ H1 lt Hlt), EL. by rewrite last_cons_cons.
    + intros j Hj _. rewrite !list_lookup_insert_ne; [done|set_solver..].
    + apply chain_frame; [set_solver|]. by eapply chain_first.
    + by apply NoDup_cons.
    + apply NoDup_cons. split; [done|apply (l_nodup _ _ H1)].
    + apply Hz; [by eapply lookup_insert_slot|]. intros j Hj. rewrite !list_lookup_insert_ne; [done| |set_solver].
      intros ->. by pose proof (disjoint_slots _ _ _ _ _ H1 Hnl Hj).
    + set_solver.
Qed.

(** [AddMRU] appends a detached entry to a list. *)
Lemma AddMRU_lists c L lt i zs : lists c L -> lt <> LT_NONE -> L LT_NONE = i :: zs ->
  exists c', AddMRU (Some i) lt c = Some c' /\ lists c' (moved L lt (L lt ++ [i]) zs) /\ relinked c c'.
Proof.
  intros H Hlt EN. destruct (FindMRU_lists c L lt H Hlt) as (c1 & E & H1 & R1 & Ees & _ & _ & _).
  unfold AddMRU. cbn [mbind option_bind]. rewrite E. cbn [mbind option_bind].
  assert (Hi : i ∈ L LT_NONE) by (rewrite EN; set_solver).
  destruct (l_type _ _ H1 _ _ Hi) as (e & He & Ht).
  assert (Hil : i ∉ L lt) by (intros Hi'; by pose proof (disjoint_slots _ _ _ _ _ H1 Hi Hi')).
  pose proof (l_nodup _ _ H1 LT_NONE) as Hnz. rewrite EN in Hnz. apply NoDup_cons in Hnz as [Hiz Hnz].
  assert (Hz : forall es : list ENTRY, (forall j, j ∈ L LT_NONE -> j <> i -> es !! j = c_entrylist c1 !! j) ->
    forall j, j ∈ zs -> exists e, es !! j = Some e /\ e_listtype e = LT_NONE).
  { intros es Hes j Hj. rewrite Hes; [|rewrite EN; set_solver|set_solver].
    apply (l_type _ _ H1 LT_NONE). rewrite EN. set_solver. }
  destruct (snoc_inv (L lt)) as [EL|(xs & m & EL)]; rewrite EL; rewrite ?last_snoc; cbn [list.last].
  - destruct (upd_relinked (with_LRU c1 lt (Some i)) i e (set_place None None lt) He ltac:(done)) as [-> R].
    cbn [mbind option_bind]. eexists. split; [done|]. split; [|by etrans; [|destruct R1, R; constructor]].
    apply (lists_move c1); try done; simpl; rewrite ?EL, ?EN.
    + intros l Hl. by rewrite !fn_lookup_insert_ne by done.
    + by rewrite fn_lookup_insert.
    + by rewrite fn_lookup_insert.
    + intros j _ Hj. rewrite list_lookup_insert_ne; [done|set_solver].
    + split; [|done]. exists (set_place None None lt e). split; [by eapply lookup_insert_slot|done].
    + apply NoDup_singleton.
    + apply Hz. intros. by rewrite list_lookup_insert_ne by done.
    + set_solver.
  - assert (Hm : m ∈ L lt) by (rewrite EL; set_solver). destruct (l_type _ _ H1 _ _ Hm) as (em & Hem & _).
    assert (Hmi : m <> i) by congruence.
    pose proof (l_chain _ _ H1 lt Hlt) as Hc. pose proof (l_nodup _ _ H1 lt) as Hn. rewrite EL in Hc, Hn, Hil.
    destruct (upd_relinked c1 m em (set_next (Some i)) Hem ltac:(done)) as [-> Rm]. cbn [mbind option_bind].
    set (c2 := with_entrylist c1 _).
    assert (He2 : c_entrylist c2 !! i = Some e) by (simpl; by rewrite list_lookup_insert_ne by done).
    destruct (upd_relinked c2 i e (set_place None (Some m) lt) He2 ltac:(done)) as [-> R]. cbn [mbind option_bind].
    eexists. split; [done|]. split; [|destruct R1, Rm, R; constructor; simpl in *; congruence].
    apply (lists_move c1); try done; simpl; rewrite ?EN.
    + intros l Hl. by rewrite !fn_lookup_insert_ne by done.
    + rewrite (l_LRU _ _ H1 lt Hlt), EL. by destruct xs.
    + by rewrite fn_lookup_insert, last_snoc.
    + intros j Hj Hj'. rewrite EL in Hj. rewrite !list_lookup_insert_ne; [done|set_solver..].
    + apply slots_app. split.
      * apply chain_frame; [done|]. eapply chain_last; [|done..]. apply NoDup_app in Hn as (_ & Hn & _). set_solver.
      * rewrite last_slot_snoc. split; [|done]. eexists. split; [by eapply lookup_insert_slot|done].
    + apply NoDup_app. split_and!; [done|set_solver|apply NoDup_singleton].
    + apply Hz. intros j Hj Hji. rewrite !list_lookup_insert_ne; [done| |done].
      intros ->. by pose proof (disjoint_slots _ _ _ _ _ H1 Hm Hj).
    + rewrite EL. set_solver.
Qed.

Lemma mid_chain es lt pv xs i ys nx : chain es lt pv (xs ++ i :: ys) nx ->
  exists e, es !! i = Some e /\ e_listtype e = lt /\ e_prev e = last_slot pv xs /\ e_next e = first_slot ys nx.
Proof. by intros [_ [? _]]%slots_app. Qed.

(** The last step of [removeEntry], once the neighbours skip the entry. *)
Lemma remove_finish c c2 L lt xs i ys e : lists c L -> lt <> LT_NONE -> L lt = xs ++ i :: ys ->
  relinked c c2 -> c_entrylist c2 !! i = Some e ->
  chain (c_entrylist c2) lt None (xs ++ ys) None ->
  c_LRU c2 lt = list.head (xs ++ ys) -> c_MRU c2 lt = list.last (xs ++ ys) ->
  (forall l, l <> lt -> c_LRU c2 l = c_LRU c l /\ c_MRU c2 l = c_MRU c l) ->
  (forall j, j ∉ L lt -> c_entrylist c2 !! j = c_entrylist c !! j) ->
  exists c', upd c2 i detach = Some c' /\ lists c' (moved L lt (xs ++ ys) (i :: L LT_NONE)) /\ relinked c c'.
Proof.
  intros H Hlt EL R2 He Hc Hlru Hmru Hend Hes. pose proof (l_nodup _ _ H lt) as Hn. rewrite EL in Hn.
  apply NoDup_app in Hn as (N1 & D & N2). apply NoDup_cons in N2 as [Hi N2].
  assert (Hix : i ∉ xs ++ ys) by (rewrite elem_of_app; intros [Hx|?]; [apply (D i Hx); set_solver|done]).
  assert (Hil : i ∈ L lt) by (rewrite EL; set_solver).
  destruct (upd_relinked c2 i e detach He ltac:(done)) as [-> R]. eexists. split; [done|].
  split; [|by etrans]. apply (lists_move c); try done; simpl.
  - apply (r_entries _ _ R2).
  - intros j Hj _. rewrite list_lookup_insert_ne; [auto|congruence].
  - by apply chain_frame.
  - apply NoDup_app. split_and!; [done| |done]. intros x Hx Hy. apply (D x Hx). set_solver.
  - apply NoDup_cons. split; [|apply (l_nodup _ _ H)]. intros Hi'. by pose proof (disjoint_slots _ _ _ _ _ H Hil Hi').
  - intros j. rewrite elem_of_cons. intros [->|Hj]; [by exists (detach e); split; [eapply lookup_insert_slot|]|].
    assert (Hjl : j ∉ L lt) by (intros Hj'; by pose proof (disjoint_slots _ _ _ _ _ H Hj' Hj)).
    rewrite list_lookup_insert_ne, Hes by congruence. by apply (l_type _ _ H).
  - intros j. rewrite EL. set_solver.
Qed.

(** Detaching a detached entry again. *)
Lemma detach_lists c L i : lists c L -> i ∈ L LT_NONE ->
  exists c', upd c i detach = Some c' /\ lists c' L /\ relinked c c'.
Proof.
  intros H Hi. destruct (l_type _ _ H _ _ Hi) as (e & He & Ht).
  destruct (upd_relinked c i e detach He ltac:(done)) as [-> R]. eexists. split_and!; [done| |done].
  assert (Hne : forall lt, lt <> LT_NONE -> i ∉ L lt) by (intros lt Hlt Hi'; by pose proof (disjoint_slots _ _ _ _ _ H Hi Hi')).
  destruct H. constructor; try done; simpl.
  - intros lt Hlt. apply chain_frame; auto.
  - intros lt j Hj. destruct (decide (j = i)) as [->|].
    + exists (detach e). split; [by eapply lookup_insert_slot|].
      destruct (decide (lt = LT_NONE)) as [->|Hl]; [done|]. by destruct (Hne lt Hl).
    + rewrite list_lookup_insert_ne by done. auto.
Qed.

(** [removeEntry] detaches an entry from its list. *)
Lemma removeEntry_lists c L lt xs i ys : lists c L -> lt <> LT_NONE -> L lt = xs ++ i :: ys ->
  exists c', removeEntry i c = Some c' /\ lists c' (moved L lt (xs ++ ys) (i :: L LT_NONE)) /\ relinked c c'.
Proof.
  intros H Hlt EL. pose proof (l_chain _ _ H lt Hlt) as Hc. pose proof (l_nodup _ _ H lt) as Hn.
  pose proof (l_LRU _ _ H lt Hlt) as Hlru. pose proof (l_MRU _ _ H lt Hlt) as Hmru.
  rewrite EL in Hc, Hn, Hlru, Hmru. destruct (mid_chain _ _ _ _ _ _ _ Hc) as (e & He & Ht & Hp & Hnx).
  unfold removeEntry. rewrite He. cbn [mbind option_bind]. rewrite Hp, Hnx, Ht.
  apply slots_app in Hc as [Hc1 [_ Hc2]]. apply NoDup_app in Hn as (N1 & D & N2). apply NoDup_cons in N2 as [Hiy N2].
  destruct (snoc_inv xs) as [->|(xs' & p & ->)], ys as [|n ys]; rewrite ?last_slot_snoc; cbn [first_slot last_slot list.last].
  - rewrite decide_False by done. eapply remove_finish; try done; simpl.
    + by rewrite fn_lookup_insert.
    + by rewrite fn_lookup_insert.
    + intros l Hl. by rewrite !fn_lookup_insert_ne by done.
  - destruct (PurgeLRU_lists c L lt i (n :: ys) H Hlt EL) as (c1 & -> & H1 & R1). cbn [mbind option_bind].
    destruct (detach_lists c1 _ i H1) as (c' & -> & H' & R'); [rewrite fn_lookup_insert; set_solver|].
    eexists. split_and!; [done..|]. by etrans.
  - assert (Hp' : p ∈ L lt) by (rewrite EL; set_solver). destruct (l_type _ _ H _ _ Hp') as (ep & Hep & _).
    assert (Hpi : p <> i) by (intros ->; apply (D i); set_solver).
    destruct (upd_relinked c p ep (set_next None) Hep ltac:(done)) as [-> R]. cbn [mbind option_bind].
    rewrite decide_False by done. rewrite app_nil_r. apply NoDup_app in N1 as (N1 & D1 & _).
    replace (xs' ++ [p]) with ((xs' ++ [p]) ++ []) by by rewrite app_nil_r.
    eapply remove_finish; try done; simpl; rewrite ?app_nil_r.
    + by constructor; destruct R.
    + by rewrite list_lookup_insert_ne by done.
    + eapply chain_last; [|done..]. intros Hx. apply (D1 p Hx). set_solver.
    + rewrite Hlru. by destruct xs'.
    + by rewrite fn_lookup_insert, last_snoc.
    + intros l Hl. by rewrite !fn_lookup_insert_ne by done.
    + intros j Hj. rewrite list_lookup_insert_ne by congruence. done.
  - assert (Hp' : p ∈ L lt) by (rewrite EL; set_solver). destruct (l_type _ _ H _ _ Hp') as (ep & Hep & _).
    assert (Hn' : n ∈ L lt) by (rewrite EL; set_solver). destruct (l_type _ _ H _ _ Hn') as (en & Hen & _).
    assert (Hpi : p <> i) by (intros ->; apply (D i); set_solver).
    assert (Hni : n <> i) by (intros ->; set_solver).
    assert (Hpn : p <> n) by (intros ->; apply (D n); set_solver).
    destruct (upd_relinked c n en (set_prev (Some p)) Hen ltac:(done)) as [-> R]. cbn [mbind option_bind].
    set (c1 := with_entrylist c _).
    assert (Hep1 : c_entrylist c1 !! p = Some ep) by (simpl; by rewrite list_lookup_insert_ne by done).
    destruct (upd_relinked c1 p ep (set_next (Some n)) Hep1 ltac:(done)) as [-> R1]. cbn [mbind option_bind].
    apply NoDup_app in N1 as (N1 & D1 & _). apply NoDup_cons in N2 as [Hny N2].
    eapply remove_finish; try done; simpl.
    + by etrans.
    + by rewrite !list_lookup_insert_ne by done.
    + apply slots_app. rewrite last_slot_snoc. cbn [first_slot]. split.
      * eapply chain_last; [| |done]. { intros Hx. apply (D1 p Hx). set_solver. }
        eapply chain_frame; [|exact Hc1]. intros Hx. apply (D n Hx). set_solver.
      * eapply chain_frame; [intros Hx; apply (D p); set_solver|]. eapply chain_first; done.
    + rewrite Hlru. by destruct xs'.
    + rewrite Hmru. rewrite !last_app_cons. by rewrite last_cons_cons.
    + intros j Hj. rewrite !list_lookup_insert_ne by congruence. done.
Qed.
End Lists.

(** ** Counters and slots *)

Ltac fns := repeat (rewrite fn_lookup_insert || rewrite fn_lookup_insert_ne by done).

(** The slots of the four lists as a state of the specification. *)
Definition slots (c : CACHE) (L : LISTTYPE -> list nat) : arc nat :=
  mkArc (L LT_T1) (L LT_T2) (L LT_B1) (L LT_B2) (c_target c).

(** The links are in order and the counters count. *)
Record good (c : CACHE) (L : LISTTYPE -> list nat) : Prop := {
  g_lists : lists c L;
  g_counted lt : lt <> LT_NONE -> c_listSize c lt = len (L lt);
  g_small lt : len (L lt) < 2 ^ 32 - 1
}.

(** What the operations on the slots leave alone. *)
Record kept (c c' : CACHE) : Prop := {
  k_size : c_size c' = c_size c;
  k_entries : c_entries c' = c_entries c;
  k_target : c_target c' = c_target c;
  k_payload : payload <$> c_entrylist c' = payload <$> c_entrylist c
}.

Global Instance kept_trans : Transitive kept.
Proof. intros a b c [] []. constructor; congruence. Qed.

Lemma relinked_kept c c' : relinked c c' -> kept c c'.
Proof. intros []. by constructor. Qed.

Lemma u32_len n : 0 <= n < 2 ^ 32 -> u32 n = n.
Proof. intros. unfold u32. by rewrite wrap_small. Qed.

(** The operations that change only counters and the target leave the links. *)
Lemma lists_same c c' L : lists c L -> c_entries c' = c_entries c -> c_LRU c' = c_LRU c ->
  c_MRU c' = c_MRU c -> c_entrylist c' = c_entrylist c -> lists c' L.
Proof. intros [] E1 E2 E3 E4. constructor; rewrite ?E1, ?E2, ?E3, ?E4; done. Qed.

(** Moving the first entry of one list to the end of another. *)
Lemma move_first c L from to x xs : good c L -> from <> LT_NONE -> to <> LT_NONE -> from <> to ->
  L from = x :: xs -> len (L to) + 1 < 2 ^ 32 - 1 ->
  exists c1 c2 L', PurgeLRU from c = Some (Some x, c1) /\ AddMRU (Some x) to c1 = Some c2 /\
    good (add_size (add_size c2 from (-1)) to 1) L' /\ kept c (add_size (add_size c2 from (-1)) to 1) /\
    L' from = xs /\ L' to = L to ++ [x] /\ (forall l, l <> from -> l <> to -> L' l = L l).
Proof.
  intros [H Hc Hs] Hf Ht Hft E Hlen. destruct (PurgeLRU_lists c L from x xs H Hf E) as (c1 & E1 & H1 & R1).
  destruct (AddMRU_lists c1 _ to x (L LT_NONE) H1 Ht ltac:(by fns)) as (c2 & E2 & H2 & R2).
  exists c1, c2. eexists. split_and!; [done..| | | | |].
  - pose proof (r_listSize _ _ R1) as S1. pose proof (r_listSize _ _ R2) as S2. constructor.
    + by eapply lists_same.
    + intros l Hl. simpl. rewrite fn_lookup_insert_ne with (a := LT_NONE) by done. rewrite S2, S1.
      pose proof (Hs from) as Hsf. rewrite E, len_cons in Hsf.
      destruct (decide (l = to)) as [->|]; [|destruct (decide (l = from)) as [->|]]; fns.
      * rewrite Hc by done. rewrite len_snoc. apply u32_len. lia.
      * rewrite Hc, E, len_cons by done. replace (len xs + 1 + -1) with (len xs) by lia. apply u32_len. lia.
      * auto.
    + intros l. destruct (decide (l = LT_NONE)) as [->|]; [by fns; apply Hs|].
      pose proof (Hs from) as Hsf. rewrite E, len_cons in Hsf.
      destruct (decide (l = to)) as [->|]; [|destruct (decide (l = from)) as [->|]]; fns; rewrite ?len_snoc; [done|lia|done].
  - etrans; [by apply relinked_kept|]. etrans; [by apply relinked_kept|]. by constructor.
  - by fns.
  - by fns.
  - intros l Hl Hl'. destruct (decide (l = LT_NONE)) as [->|]; by fns.
Qed.

Lemma replace_slots c L : good c L -> 0 < c_size c -> full (c_size c) (slots c L) -> 0 <= c_target c <= c_size c ->
  2 * c_size c < 2 ^ 32 - 1 -> len (L LT_B1) + 1 < 2 ^ 32 - 1 -> len (L LT_B2) + 1 < 2 ^ 32 - 1 ->
  exists c' L', LocalCache.replace c = Some c' /\ good c' L' /\ kept c c' /\ L' LT_NONE = L LT_NONE /\
    slots c' L' = Arc.replace (slots c L).
Proof.
  intros Hg Hpos Hf Ht Hsz HB1 HB2. unfold LocalCache.replace. pose proof (g_counted _ _ Hg) as Hc.
  rewrite Hc by done.
  destruct (replace_full _ (slots c L) Hpos Hf Ht) as [(x & xs & Hm & E & ->)|(x & xs & Hm & E & ->)]; simpl in *.
  - destruct (move_first c L LT_T1 LT_B1 x xs Hg) as (c1 & c2 & L' & E1 & E2 & Hg' & Hk & EF & ET & EO); try done.
    rewrite (proj2 (Z.leb_le _ _) Hm), E1. cbn [mbind option_bind]. rewrite E2. cbn [mbind option_bind].
    eexists _, L'. split_and!; [done..| |]; [by rewrite EO by done|]. unfold slots. f_equal; try done; try by rewrite EO by done.
    by rewrite (k_target _ _ Hk).
  - destruct (move_first c L LT_T2 LT_B2 x xs Hg) as (c1 & c2 & L' & E1 & E2 & Hg' & Hk & EF & ET & EO); try done.
    rewrite (proj2 (Z.leb_gt _ _) Hm), E1. cbn [mbind option_bind]. rewrite E2. cbn [mbind option_bind].
    eexists _, L'. split_and!; [done..| |]; [by rewrite EO by done|]. unfold slots. f_equal; try done; try by rewrite EO by done.
    by rewrite (k_target _ _ Hk).
Qed.

(** The entries in use are those of the lists. *)
Lemma entries_count c L : lists c L -> Z.of_nat (c_entries c) = count (slots c L) + len (L LT_NONE).
Proof.
  intros H. set (xs := L LT_T1 ++ L LT_T2 ++ L LT_B1 ++ L LT_B2 ++ L LT_NONE).
  assert (Hn : NoDup xs).
  { unfold xs. repeat (apply NoDup_app; split_and!; [apply (l_nodup _ _ H)|intros i Hi Hi'|]); [..|apply (l_nodup _ _ H)];
      rewrite ?elem_of_app in Hi'; destruct_or? Hi';
      match goal with H1 : ?i ∈ L ?a, H2 : ?i ∈ L ?b |- _ => by pose proof (disjoint_slots _ _ _ _ _ H H1 H2) end. }
  assert (Hp : xs ≡ₚ seq 0 (c_entries c)).
  { apply NoDup_Permutation; [done|apply NoDup_seq|]. intros i. rewrite elem_of_seq.
    assert (Hs : (0 <= i < 0 + c_entries c)%nat <-> (i < c_entries c)%nat) by lia. rewrite Hs, (l_slot _ _ H). unfold xs.
    rewrite !elem_of_app. split; [intros Hi; destruct_or! Hi; eauto|]. intros [[] Hi]; tauto. }
  apply Permutation_length in Hp. rewrite length_seq in Hp. unfold xs in Hp. rewrite !length_app in Hp.
  unfold count. simpl. lia.
Qed.

Lemma good_remove c L lt xs i ys : good c L -> lt <> LT_NONE -> L lt = xs ++ i :: ys -> L LT_NONE = [] ->
  exists c', removeEntry i (add_size c lt (-1)) = Some c' /\ good c' (moved L lt (xs ++ ys) [i]) /\ kept c c'.
Proof.
  intros [H Hc Hs] Hlt E EN. pose proof (Hs lt) as Hsl. rewrite E, len_mid in Hsl.
  destruct (removeEntry_lists (add_size c lt (-1)) L lt xs i ys) as (c' & -> & H' & R'); [by eapply lists_same|done..|].
  rewrite EN in H'. exists c'. split_and!; [done| |by destruct R'; constructor].
  constructor; [done| |].
  - intros l Hl. rewrite (r_listSize _ _ R'). simpl. destruct (decide (l = lt)) as [->|]; fns; [|auto].
    rewrite Hc, E, len_mid by done. replace (len (xs ++ ys) + 1 + -1) with (len (xs ++ ys)) by lia. apply u32_len. lia.
  - intros l. destruct (decide (l = LT_NONE)) as [->|]; [by fns|].
    destruct (decide (l = lt)) as [->|]; fns; [lia|auto].
Qed.

Lemma good_add c L lt i zs : good c L -> lt <> LT_NONE -> L LT_NONE = i :: zs -> len (L lt) + 1 < 2 ^ 32 - 1 ->
  exists c', AddMRU (Some i) lt (add_size c lt 1) = Some c' /\ good c' (moved L lt (L lt ++ [i]) zs) /\ kept c c'.
Proof.
  intros [H Hc Hs] Hlt EN Hlen.
  destruct (AddMRU_lists (add_size c lt 1) L lt i zs) as (c' & -> & H' & R'); [by eapply lists_same|done..|].
  exists c'. split_and!; [done| |by destruct R'; constructor]. constructor; [done| |].
  - intros l Hl. rewrite (r_listSize _ _ R'). simpl. destruct (decide (l = lt)) as [->|]; fns; [|auto].
    rewrite Hc, len_snoc by done. apply u32_len. lia.
  - intros l. destruct (decide (l = LT_NONE)) as [->|].
    { fns. pose proof (Hs LT_NONE) as Hz. rewrite EN, len_cons in Hz. lia. }
    destruct (decide (l = lt)) as [->|]; fns; [rewrite len_snoc; lia|auto].
Qed.

(** ** A hit, on slots *)

(** What a hit leaves alone: everything but the target. *)
Definition hit_kept (c c' : CACHE) : Prop :=
  c_size c' = c_size c /\ c_entries c' = c_entries c /\ payload <$> c_entrylist c' = payload <$> c_entrylist c.

Lemma kept_hit c c' : kept c c' -> hit_kept c c'.
Proof. intros []. by split_and!. Qed.

Definition sized (c : CACHE) : Prop := 0 < c_size c < 2 ^ 31 - 1.

Section Hit.
Variables (c : CACHE) (L : LISTTYPE -> list nat) (i : nat).
Hypothesis Hg : good c L.
Hypothesis HN : L LT_NONE = [].
Hypothesis Hsz : sized c.
Hypothesis Hb : bounded (c_size c) (slots c L).

Lemma small_lists lt : lt <> LT_NONE -> len (L lt) + 1 < 2 ^ 32 - 1.
Proof.
  pose proof Hb as (H1 & H2 & H3 & _). unfold count, sized in *. simpl in *.
  destruct lt; simpl; try done; lia.
Qed.

(** The end of a hit in T1 and T2. *)
Lemma hit_resident lt xs ys : lt = LT_T1 \/ lt = LT_T2 -> L lt = xs ++ i :: ys ->
  exists c1 c2 L', removeEntry i (if decide (lt = LT_T1) then add_size (add_size c LT_T1 (-1)) LT_T2 1 else c) = Some c1 /\
    AddMRU (Some i) LT_T2 c1 = Some c2 /\ good c2 L' /\ L' LT_NONE = [] /\ kept c c2 /\
    L' LT_T1 = (if decide (lt = LT_T1) then xs ++ ys else L LT_T1) /\
    L' LT_T2 = (if decide (lt = LT_T1) then L LT_T2 else xs ++ ys) ++ [i] /\
    L' LT_B1 = L LT_B1 /\ L' LT_B2 = L LT_B2.
Proof.
  intros Hlt E. pose proof (small_lists LT_T2 ltac:(done)) as HT2. pose proof Hg as [H Hc Hs].
  assert (Hne : lt <> LT_NONE) by (by destruct Hlt; subst). pose proof (Hs lt) as Hsl. rewrite E, len_mid in Hsl.
  set (c0 := if decide (lt = LT_T1) then _ else c).
  destruct (removeEntry_lists c0 L lt xs i ys) as (c1 & E1 & H1 & R1);
    [by unfold c0; destruct (decide (lt = LT_T1)); [eapply lists_same|]|done..|].
  destruct (AddMRU_lists c1 _ LT_T2 i [] H1 ltac:(done) ltac:(by fns; rewrite HN)) as (c2 & E2 & H2 & R2).
  match type of H2 with lists _ ?L2 => exists c1, c2, L2 end. split; [exact E1|]. split; [exact E2|]. split; [|split; [by fns|]]; [|split].
  - constructor; [exact H2| |].
    + intros l Hl. rewrite (r_listSize _ _ R2), (r_listSize _ _ R1). unfold c0.
      destruct Hlt as [-> | ->]; simpl; destruct (decide (l = LT_T2)) as [->|];
        [|destruct (decide (l = LT_T1)) as [->|]| |]; fns; rewrite ?len_snoc; try by apply Hc.
      * rewrite Hc by done. apply u32_len. lia.
      * rewrite Hc, E, len_mid by done. replace (len (xs ++ ys) + 1 + -1) with (len (xs ++ ys)) by lia. apply u32_len. lia.
      * by rewrite Hc, E, len_mid by done.
    + intros l. destruct (decide (l = LT_NONE)) as [->|]; [by fns|].
      destruct Hlt as [-> | ->]; destruct (decide (l = LT_T2)) as [->|];
        [|destruct (decide (l = LT_T1)) as [->|]| |]; fns; rewrite ?len_snoc; try lia; auto.
  - etrans; [|apply relinked_kept; exact R2]. destruct R1. unfold c0 in *.
    destruct (decide (lt = LT_T1)); constructor; done.
  - destruct Hlt as [-> | ->]; simpl; by fns.
Qed.

(** The end of a hit in a ghost list. *)
Lemma hit_ghost lt xs ys t : lt = LT_B1 \/ lt = LT_B2 -> L lt = xs ++ i :: ys -> 0 <= t <= c_size c ->
  exists c1 c2 c3 L', removeEntry i (add_size (with_target c t) lt (-1)) = Some c1 /\
    LocalCache.replace c1 = Some c2 /\ AddMRU (Some i) LT_T2 (add_size c2 LT_T2 1) = Some c3 /\
    good c3 L' /\ L' LT_NONE = [] /\ hit_kept c c3 /\
    slots c3 L' = promote i (Arc.replace (mkArc (L LT_T1) (L LT_T2)
      (if decide (lt = LT_B1) then xs ++ ys else L LT_B1) (if decide (lt = LT_B1) then L LT_B2 else xs ++ ys) t)).
Proof.
  intros Hlt E Ht. assert (Hne : lt <> LT_NONE) by (by destruct Hlt; subst).
  assert (Hg0 : good (with_target c t) L) by (destruct Hg; constructor; try done; by eapply lists_same).
  destruct (good_remove _ L lt xs i ys Hg0 Hne E HN) as (c1 & E1 & Hg1 & K1).
  assert (Hfull : full (c_size c) (slots c L)).
  { apply (ghosts_full _ _ Hb). simpl. destruct Hlt; subst; rewrite E; [left|right]; by destruct xs. }
  pose proof (small_lists LT_B1 ltac:(done)). pose proof (small_lists LT_B2 ltac:(done)).
  pose proof (small_lists lt Hne) as Hl. rewrite E, len_mid in Hl. destruct Hsz as [Hpos Hmax].
  pose proof (k_size _ _ K1) as KS. pose proof (k_target _ _ K1) as KT. simpl in KS, KT.
  set (L1 := moved L lt (xs ++ ys) [i]) in *.
  assert (ET : L1 LT_T1 = L LT_T1 /\ L1 LT_T2 = L LT_T2) by (unfold L1; destruct Hlt; subst; by fns).
  destruct ET as [ET1 ET2].
  destruct (replace_slots c1 L1 Hg1) as (c2 & L2 & E2 & Hg2 & K2 & EN2 & ES2); rewrite ?KS, ?KT; try done; try lia.
  { unfold full in *. simpl in *. by rewrite ET1, ET2. }
  { unfold L1. destruct Hlt; subst; fns; lia. }
  { unfold L1. destruct Hlt; subst; fns; lia. }
  assert (HT2 : len (L2 LT_T2) + 1 < 2 ^ 32 - 1).
  { replace (L2 LT_T2) with (t2 (slots c2 L2)) by done. rewrite ES2.
    destruct (replace_sizes (c_size c) (slots c1 L1)) as (HS & _ & _); simpl; try lia.
    unfold full in *. simpl in *. by rewrite ET1, ET2. }
  destruct (good_add c2 L2 LT_T2 i [] Hg2) as (c3 & E3 & Hg3 & K3); [done|by rewrite EN2; unfold L1; fns|done|].
  match type of Hg3 with good _ ?L3 => exists c1, c2, c3, L3 end. split_and!; [exact E1|exact E2|exact E3|exact Hg3|by fns| |].
  - destruct K1 as [? ? ? ?], K2, K3. unfold hit_kept. simpl in *. split_and!; congruence.
  - transitivity (promote i (slots c2 L2)).
    + unfold slots, promote. simpl. fns. by rewrite (k_target _ _ K3).
    + rewrite ES2. f_equal. f_equal. unfold slots. rewrite KT, ET1, ET2. unfold L1. destruct Hlt; subst; by fns.
Qed.
End Hit.

(** ** Items *)

(** What a slot holds. *)
Record item := mkItem { it_key : list Z; it_sfflags : Z; it_entflags : Z }.

Definition item_of (e : ENTRY) : item :=
  mkItem (match e_key e with KData bs => bs | _ => [] end) (e_sfflags e) (e_entflags e).

Definition item_at (es : list ENTRY) (i : nat) : item := from_option item_of (mkItem [] 0 0) (es !! i).

Definition has_key (k : list Z) (x : item) : bool := bool_decide (it_key x = k).

(** The entries in use hold keys of [K] bytes. *)
Definition keyed (K : nat) (c : CACHE) : Prop :=
  forall i, (i < c_entries c)%nat -> exists e bs, c_entrylist c !! i = Some e /\ e_key e = KData bs /\ length bs = K.

(** The cache [c] implements the state [s] of the specification: its links and
    counters are in order, it is within the bounds, its keys have [K] bytes and are
    distinct, and its lists hold the items of [s]. *)
Definition cache_rep (K : nat) (c : CACHE) (s : arc item) : Prop :=
  exists L, good c L /\ L LT_NONE = [] /\ sized c /\ bounded (c_size c) (slots c L) /\
    Z.of_nat (length (c_entrylist c)) = 2 * c_size c /\ keyed K c /\
    s = arc_map (item_at (c_entrylist c)) (slots c L) /\ NoDup (it_key <$> all s).

Lemma payload_lookup (es es' : list ENTRY) (i : nat) e : payload <$> es' = payload <$> es -> es !! i = Some e ->
  exists e', es' !! i = Some e' /\ payload e' = payload e.
Proof.
  intros E He. assert (H : (payload <$> es') !! i = Some (payload e)) by by rewrite E, list_lookup_fmap, He.
  rewrite list_lookup_fmap in H. destruct (es' !! i) as [e'|]; [|done]. exists e'. split; [done|]. by apply (inj Some) in H.
Qed.

Lemma payload_item e e' : payload e' = payload e -> item_of e' = item_of e /\ e_key e' = e_key e.
Proof. unfold payload, item_of. intros [= _ Hk Hs He]. by rewrite Hk, Hs, He. Qed.

Lemma item_at_payload (es es' : list ENTRY) i : payload <$> es' = payload <$> es -> item_at es' i = item_at es i.
Proof.
  intros E. unfold item_at. destruct (es !! i) as [e|] eqn:He.
  - destruct (payload_lookup es es' i e E He) as (e' & -> & Hp). simpl. by apply payload_item.
  - assert (H : (payload <$> es') !! i = None) by by rewrite E, list_lookup_fmap, He.
    rewrite list_lookup_fmap in H. by destruct (es' !! i).
Qed.

Lemma keyed_kept K c c' : hit_kept c c' -> keyed K c -> keyed K c'.
Proof.
  intros (_ & E & Ep) H i Hi. rewrite E in Hi. destruct (H i Hi) as (e & bs & He & Hk & Hl).
  destruct (payload_lookup _ _ i e Ep He) as (e' & He' & Hp). apply payload_item in Hp as [_ Hp].
  exists e', bs. split_and!; congruence.
Qed.

Lemma arc_map_ext {A B} (f g : A -> B) (s : arc A) : (forall x, x ∈ all s -> f x = g x) -> arc_map f s = arc_map g s.
Proof.
  intros H. unfold arc_map. f_equal; apply list_fmap_ext; intros j x Hx; apply H, elem_of_all;
    apply list_elem_of_lookup_2 in Hx; tauto.
Qed.

Lemma FindEntry_loop_keys K es n i key : length key = K ->
  (forall j, (i <= j < i + n)%nat -> exists e bs, es !! j = Some e /\ e_key e = KData bs /\ length bs = K) ->
  exists r, FindEntry_loop es n i key (Z.of_nat K) = Some r /\
    match r with
    | Some j => (i <= j < i + n)%nat /\ it_key (item_at es j) = key
    | None => forall j, (i <= j < i + n)%nat -> it_key (item_at es j) <> key
    end.
Proof.
  intros HK. revert i. induction n as [|n IH]; intros i H; simpl.
  - exists None. split; [done|]. intros. lia.
  - destruct (H i ltac:(lia)) as (e & bs & He & Hk & Hl). rewrite He. cbn [mbind option_bind].
    assert (E1 : read_bytes bs (Z.of_nat K) = Some bs) by (rewrite <- Hl; apply read_bytes_all).
    assert (E2 : read_bytes key (Z.of_nat K) = Some key) by (rewrite <- HK; apply read_bytes_all).
    unfold key_equal. rewrite Hk, E1. cbn [mbind option_bind]. rewrite E2. cbn [mbind option_bind].
    assert (Hi : it_key (item_at es i) = bs) by (unfold item_at, item_of; by rewrite He; simpl; rewrite Hk).
    case_bool_decide as Hb.
    + exists (Some i). split; [done|]. split; [lia|congruence].
    + destruct (IH (S i)) as (r & -> & Hr); [intros; apply H; lia|]. exists r. split; [done|].
      destruct r as [j|]; [split; [lia|apply Hr]|]. intros j Hj. destruct (decide (j = i)) as [->|]; [congruence|].
      apply Hr. lia.
Qed.

Lemma FindEntry_keys K c key : keyed K c -> length key = K ->
  exists r, FindEntry key (Z.of_nat K) c = Some r /\
    match r with
    | Some j => (j < c_entries c)%nat /\ it_key (item_at (c_entrylist c) j) = key
    | None => forall j, (j < c_entries c)%nat -> it_key (item_at (c_entrylist c) j) <> key
    end.
Proof.
  intros H HK. destruct (FindEntry_loop_keys K (c_entrylist c) (c_entries c) 0 key HK) as (r & E & Hr).
  { intros j Hj. apply H. lia. }
  exists r. split; [done|]. destruct r as [j|]; [split; [lia|tauto]|]. intros j Hj. apply Hr. lia.
Qed.

(** The slots in use are those of the specification. *)
Lemma slot_all c L i : good c L -> L LT_NONE = [] -> (i < c_entries c)%nat <-> i ∈ all (slots c L).
Proof.
  intros [H _ _] EN. rewrite (l_slot _ _ H), elem_of_all. simpl. split.
  - intros [[] Hi]; try tauto. rewrite EN in Hi. by apply not_elem_of_nil in Hi.
  - intros Hi. destruct_or! Hi; eauto.
Qed.

Lemma NoDup_fmap_elem {A B} (f : A -> B) xs x y : NoDup (f <$> xs) -> x ∈ xs -> y ∈ xs -> f x = f y -> x = y.
Proof.
  intros Hn Hx Hy Hf. apply list_elem_of_lookup in Hx as [i Hi]. apply list_elem_of_lookup in Hy as [j Hj].
  assert (i = j) as ->; [|congruence].
  eapply NoDup_lookup; [done|rewrite list_lookup_fmap, Hi; done|rewrite list_lookup_fmap, Hj; simpl; by f_equal].
Qed.

Lemma selects_slot K c L s key i : good c L -> L LT_NONE = [] -> s = arc_map (item_at (c_entrylist c)) (slots c L) ->
  NoDup (it_key <$> all s) -> (i < c_entries c)%nat -> it_key (item_at (c_entrylist c) i) = key -> length key = K ->
  selects (fun j => has_key key (item_at (c_entrylist c) j)) i (slots c L).
Proof.
  intros Hg EN -> Hn Hi Hk HK. rewrite map_all, <- list_fmap_compose in Hn. unfold selects.
  apply (slot_all c L i Hg EN) in Hi. split_and!; [done|by eapply NoDup_fmap_1|].
  intros y Hy. unfold has_key. rewrite bool_decide_eq_true. split; [|by intros ->].
  intros Hk'. eapply (NoDup_fmap_elem _ _ _ _ Hn Hy Hi). simpl. congruence.
Qed.

(** The list of a slot. *)
Lemma slot_type c L lt i xs ys : good c L -> L lt = xs ++ i :: ys ->
  exists e, c_entrylist c !! i = Some e /\ e_listtype e = lt.
Proof. intros [H _ _] E. apply (l_type _ _ H). rewrite E. set_solver. Qed.

(** The branches of [check_cache] on a hit, on slots. *)
Lemma check_hit_slots c L f i key size : good c L -> L LT_NONE = [] -> sized c -> bounded (c_size c) (slots c L) ->
  FindEntry key size c = Some (Some i) -> selects f i (slots c L) ->
  exists c' L', check_cache key size c = Some (R_FOUND, Some i, c') /\ good c' L' /\ L' LT_NONE = [] /\
    hit_kept c c' /\ hit (c_size c) f (slots c L) = Some (i, slots c' L').
Proof.
  intros Hg HN Hsz Hb Hf Hs. pose proof Hb as (_ & _ & _ & _ & Hp). pose proof (g_counted _ _ Hg) as Hc.
  unfold check_cache. rewrite Hf. cbn [mbind option_bind].
  destruct (hit_cases (c_size c) f i _ Hs) as [(xs & ys & E & EH)|[(xs & ys & E & EH)|[(xs & ys & E & EH)|
    (xs & ys & E & EH)]]]; simpl in E, EH, Hp; destruct (slot_type c L _ i xs ys Hg E) as (e & -> & Ht);
    cbn [mbind option_bind]; rewrite Ht, EH.
  - destruct (hit_resident c L i Hg HN Hsz Hb LT_T1 xs ys) as (c1 & c2 & L' & E1 & E2 & Hg' & HN' & K & X1 & X2 & X3 & X4);
      [tauto|done|]. simpl in E1, X1, X2. rewrite E1. cbn [mbind option_bind]. rewrite E2. cbn [mbind option_bind].
    exists c2, L'. split_and!; try done; [by apply kept_hit|]. unfold slots, promote. simpl. by rewrite X1, X2, X3, X4, (k_target _ _ K).
  - destruct (hit_resident c L i Hg HN Hsz Hb LT_T2 xs ys) as (c1 & c2 & L' & E1 & E2 & Hg' & HN' & K & X1 & X2 & X3 & X4);
      [tauto|done|]. simpl in E1, X1, X2. rewrite E1. cbn [mbind option_bind]. rewrite E2. cbn [mbind option_bind].
    exists c2, L'. split_and!; try done; [by apply kept_hit|]. unfold slots, promote. simpl. by rewrite X1, X2, X3, X4, (k_target _ _ K).
  - rewrite !Hc by done.
    destruct (hit_ghost c L i Hg HN Hsz Hb LT_B1 xs ys (Z.min (c_target c + Z.max (len (L LT_B2) / len (L LT_B1)) 1) (c_size c)))
      as (c1 & c2 & c3 & L' & E1 & E2 & E3 & Hg' & HN' & K & X); [tauto|done|lia|].
    destruct (Z.eqb_spec (len (L LT_B1)) 0); [rewrite E, len_mid in *; lia|].
    rewrite E1. cbn [mbind option_bind]. rewrite E2. cbn [mbind option_bind]. rewrite E3. cbn [mbind option_bind].
    exists c3, L'. split_and!; try done. by rewrite X.
  - rewrite !Hc by done.
    destruct (hit_ghost c L i Hg HN Hsz Hb LT_B2 xs ys (Z.max (c_target c - Z.max (len (L LT_B1) / len (L LT_B2)) 1) 0))
      as (c1 & c2 & c3 & L' & E1 & E2 & E3 & Hg' & HN' & K & X); [tauto|done|lia|].
    destruct (Z.eqb_spec (len (L LT_B2)) 0); [rewrite E, len_mid in *; lia|].
    rewrite E1. cbn [mbind option_bind]. rewrite E2. cbn [mbind option_bind]. rewrite E3. cbn [mbind option_bind].
    exists c3, L'. split_and!; try done. by rewrite X.
Qed.

Lemma hit_none c key (s : arc item) : (forall x, x ∈ all s -> it_key x <> key) -> hit c (has_key key) s = None.
Proof.
  intros H. assert (Hn : forall xs, (forall x, x ∈ xs -> x ∈ all s) -> find_first (has_key key) xs = None).
  { intros xs Hin. apply find_first_None, Forall_forall. intros x Hx. apply bool_decide_eq_false. auto. }
  unfold hit. by rewrite !Hn by (intros; rewrite elem_of_all; tauto).
Qed.

(** [check_cache] implements a hit of the specification. *)
Lemma check_rep K c s key : cache_rep K c s -> length key = K ->
  exists r h c', check_cache key (Z.of_nat K) c = Some (r, h, c') /\
    match hit (c_size c) (has_key key) s with
    | Some (x, s') => r = R_FOUND /\ cache_rep K c' s' /\ c_size c' = c_size c /\
        exists i e, h = Some i /\ c_entrylist c' !! i = Some e /\ item_of e = x
    | None => r = R_NOT_FOUND /\ h = None /\ c' = c
    end.
Proof.
  intros (L & Hg & HN & Hsz & Hb & Hlen & Hk & -> & Hn) HK.
  destruct (FindEntry_keys K c key Hk HK) as ([i|] & EF & Hr).
  - destruct Hr as [Hi Hkey]. pose proof (selects_slot K c L _ key i Hg HN eq_refl Hn Hi Hkey HK) as Hs.
    destruct (check_hit_slots c L _ i key _ Hg HN Hsz Hb EF Hs) as (c' & L' & -> & Hg' & HN' & HK' & EH).
    eexists _, _, _. split; [done|]. rewrite map_hit, EH. simpl. pose proof HK' as (S1 & S2 & S3).
    assert (EI : forall j, item_at (c_entrylist c') j = item_at (c_entrylist c) j) by (intros; by apply item_at_payload).
    split_and!; [done| |done|].
    + exists L'. split_and!; try done.
      * unfold sized. by rewrite S1.
      * rewrite S1. eapply hit_bounded; try done. apply Hsz.
      * rewrite S1, <- Hlen. pose proof (f_equal length S3) as El. rewrite !length_fmap in El. by rewrite El.
      * by eapply keyed_kept.
      * apply arc_map_ext. intros. by rewrite EI.
      * destruct (hit_all (c_size c) _ i _ Hs) as (s' & EH' & Hp). rewrite EH in EH'. simplify_eq.
        rewrite map_all in *. by rewrite Hp.
    + destruct (Hk i Hi) as (e & bs & He & _). destruct (payload_lookup _ _ i e S3 He) as (e' & He' & _).
      exists i, e'. split_and!; [done..|]. rewrite <- EI. unfold item_at. by rewrite He'.
  - eexists _, _, _. unfold check_cache. rewrite EF. split; [done|]. rewrite hit_none; [done|].
    intros x. rewrite map_all. intros (j & -> & Hj)%list_elem_of_fmap. apply Hr. by apply (slot_all c L j Hg HN).
Qed.

(** ** A miss, on slots *)

Lemma good_purge c L lt i xs : good c L -> lt <> LT_NONE -> L lt = i :: xs -> L LT_NONE = [] ->
  exists c', PurgeLRU lt c = Some (Some i, c') /\ good (add_size c' lt (-1)) (moved L lt xs [i]) /\
    kept c (add_size c' lt (-1)).
Proof.
  intros [H Hc Hs] Hlt E EN. pose proof (Hs lt) as Hsl. rewrite E, len_cons in Hsl.
  destruct (PurgeLRU_lists c L lt i xs H Hlt E) as (c' & -> & H' & R'). rewrite EN in H'.
  exists c'. split_and!; [done| |by destruct R'; constructor]. constructor; [by eapply lists_same| |].
  - intros l Hl. simpl. rewrite (r_listSize _ _ R'). destruct (decide (l = lt)) as [->|]; fns; [|auto].
    rewrite Hc, E, len_cons by done. replace (len xs + 1 + -1) with (len xs) by lia. apply u32_len. lia.
  - intros l. destruct (decide (l = LT_NONE)) as [->|]; [by fns|].
    destruct (decide (l = lt)) as [->|]; fns; [lia|auto].
Qed.

Lemma good_append c L lt i zs : good c L -> lt <> LT_NONE -> L LT_NONE = i :: zs -> len (L lt) + 1 < 2 ^ 32 - 1 ->
  exists c', AddMRU (Some i) lt c = Some c' /\ good (add_size c' lt 1) (moved L lt (L lt ++ [i]) zs) /\
    kept c (add_size c' lt 1).
Proof.
  intros [H Hc Hs] Hlt EN Hlen.
  destruct (AddMRU_lists c L lt i zs H Hlt EN) as (c' & -> & H' & R').
  exists c'. split_and!; [done| |by destruct R'; constructor]. constructor; [by eapply lists_same| |].
  - intros l Hl. simpl. rewrite (r_listSize _ _ R'). destruct (decide (l = lt)) as [->|]; fns; [|auto].
    rewrite Hc, len_snoc by done. apply u32_len. lia.
  - intros l. destruct (decide (l = LT_NONE)) as [->|].
    { fns. pose proof (Hs LT_NONE) as Hz. rewrite EN, len_cons in Hz. lia. }
    destruct (decide (l = lt)) as [->|]; fns; [rewrite len_snoc; lia|auto].
Qed.

(** What making room for the slot [i] leaves alone. *)
Record room_kept (i : nat) (c c' : CACHE) : Prop := {
  rk_size : c_size c' = c_size c;
  rk_target : c_target c' = c_target c;
  rk_length : length (c_entrylist c') = length (c_entrylist c);
  rk_payload j : j <> i -> payload <$> c_entrylist c' !! j = payload <$> c_entrylist c !! j;
  rk_entries j : (j < c_entries c')%nat -> j = i \/ (j < c_entries c)%nat
}.

Lemma kept_room i c c' : kept c c' -> room_kept i c c'.
Proof.
  intros [? He ? Hp]. constructor; try done.
  - apply (f_equal length) in Hp. by rewrite !length_fmap in Hp.
  - intros j _. by rewrite <- !list_lookup_fmap, Hp.
  - intros j Hj. rewrite He in Hj. tauto.
Qed.

Lemma room_kept_trans i c1 c2 c3 : room_kept i c1 c2 -> kept c2 c3 -> room_kept i c1 c3.
Proof.
  intros [S1 T1 L1 P1 E1] [S2 E2 T2 P2]. constructor; try congruence.
  - apply (f_equal length) in P2. rewrite !length_fmap in P2. congruence.
  - intros j Hj. rewrite <- P1 by done. by rewrite <- !list_lookup_fmap, P2.
  - intros j Hj. rewrite E2 in Hj. auto.
Qed.

Abbreviation new_entry := (mkENTRY None None LT_NONE 0 KNull 0 0).

Lemma getNewEntry_good c L : good c L -> L LT_NONE = [] -> Z.of_nat (length (c_entrylist c)) = 2 * c_size c ->
  sized c -> Z.of_nat (c_entries c) < 2 * c_size c ->
  exists c', getNewEntry c = Some (Some (c_entries c), c') /\ good c' (<[LT_NONE := [c_entries c]]> L) /\
    room_kept (c_entries c) c c' /\ c_entrylist c' !! c_entries c = Some new_entry.
Proof.
  intros [H Hc Hs] EN Hlen [Hpos Hmax] He. unfold getNewEntry. replace (c_size c * 2) with (2 * c_size c) by lia.
  rewrite u32_len, (proj2 (Z.ltb_lt _ _) He) by lia.
  destruct (lookup_lt_is_Some_2 (c_entrylist c) (c_entries c) ltac:(lia)) as [e Hl].
  assert (Hnot : forall lt, c_entries c ∉ L lt).
  { intros lt Hi. pose proof (proj2 (l_slot _ _ H (c_entries c)) (ex_intro _ lt Hi)). lia. }
  unfold upd. rewrite Hl. cbn [mbind option_bind]. eexists. split; [done|]. split_and!.
  - constructor.
    + constructor; simpl.
      * intros lt Hlt. fns. apply chain_frame; [done|]. by apply (l_chain _ _ H).
      * intros lt Hlt. fns. by apply (l_LRU _ _ H).
      * intros lt Hlt. fns. by apply (l_MRU _ _ H).
      * intros lt. destruct (decide (lt = LT_NONE)) as [->|]; fns; [apply NoDup_singleton|apply (l_nodup _ _ H)].
      * intros i. split.
        -- intros Hi. destruct (decide (i = c_entries c)) as [->|]; [exists LT_NONE; fns; set_solver|].
           destruct (proj1 (l_slot _ _ H i) ltac:(lia)) as [lt Hlt]. exists lt.
           destruct (decide (lt = LT_NONE)) as [->|]; [rewrite EN in Hlt; by apply not_elem_of_nil in Hlt|]. by fns.
        -- intros [lt Hlt]. destruct (decide (lt = LT_NONE)) as [->|]; revert Hlt; fns.
           ++ intros ->%list_elem_of_singleton. lia.
           ++ intros Hlt. pose proof (proj2 (l_slot _ _ H i) (ex_intro _ lt Hlt)). lia.
      * intros lt i. destruct (decide (lt = LT_NONE)) as [->|]; fns.
        -- intros ->%list_elem_of_singleton. exists new_entry. split; [by eapply lookup_insert_slot|done].
        -- intros Hi. rewrite list_lookup_insert_ne; [by apply (l_type _ _ H)|]. intros Hi'. apply (Hnot lt). by rewrite Hi'.
    + intros lt Hlt. fns. by apply Hc.
    + intros lt. destruct (decide (lt = LT_NONE)) as [->|]; fns; [done|auto].
  - constructor; simpl; try done.
    + apply length_insert.
    + intros j Hj. by rewrite list_lookup_insert_ne by done.
    + intros j Hj. lia.
  - simpl. by eapply lookup_insert_slot.
Qed.

Section Miss.
Variables (K : nat) (c : CACHE) (L : LISTTYPE -> list nat).
Hypothesis Hg : good c L.
Hypothesis HN : L LT_NONE = [].
Hypothesis Hsz : sized c.
Hypothesis Hb : bounded (c_size c) (slots c L).
Hypothesis Hlen : Z.of_nat (length (c_entrylist c)) = 2 * c_size c.
Hypothesis Hk : keyed K c.

(** The slot that is made free and what it holds. *)
Definition freed (i : nat) (c' : CACHE) : Prop :=
  exists e, c_entrylist c' !! i = Some e /\ e_key e <> KFreed.

(** The keys in use are live, so a purged slot holds one. *)
Lemma purged_live i c' : kept c c' -> (i < c_entries c)%nat -> freed i c'.
Proof.
  intros [_ _ _ Hp] Hi. destruct (Hk i Hi) as (e & bs & He & Hke & _).
  destruct (payload_lookup _ _ i e Hp He) as (e' & He' & Hpe). apply payload_item in Hpe as [_ Hpe].
  exists e'. split; [done|]. congruence.
Qed.

Lemma head_slot lt i xs : L lt = i :: xs -> (i < c_entries c)%nat.
Proof. intros E. apply (l_slot _ _ (g_lists _ _ Hg)). exists lt. rewrite E. set_solver. Qed.

(** [replace] after a slot was taken out. *)
Lemma replace_after c1 L1 i : good c1 L1 -> L1 LT_NONE = [i] -> room_kept i c c1 ->
  full (c_size c) (slots c1 L1) -> len (L1 LT_B1) <= len (L LT_B1) -> len (L1 LT_B2) <= len (L LT_B2) ->
  exists c2 L2, LocalCache.replace c1 = Some c2 /\ good c2 L2 /\ L2 LT_NONE = [i] /\ room_kept i c c2 /\
    kept c1 c2 /\ slots c2 L2 = Arc.replace (slots c1 L1).
Proof.
  intros Hg1 EN Hr Hf HB1 HB2. pose proof Hb as (_ & _ & _ & _ & Hp). simpl in Hp. destruct Hsz as [Hpos Hmax].
  pose proof (small_lists c L Hsz Hb LT_B1 ltac:(done)). pose proof (small_lists c L Hsz Hb LT_B2 ltac:(done)).
  destruct (replace_slots c1 L1 Hg1) as (c2 & L2 & E & Hg2 & K2 & EN2 & ES); rewrite ?(rk_size _ _ _ Hr), ?(rk_target _ _ _ Hr);
    try done; try lia.
  exists c2, L2. split_and!; try done; [congruence|by eapply room_kept_trans].
Qed.

Lemma make_room_slots : exists i c' L', make_room c = Some (Some i, c') /\ good c' L' /\ L' LT_NONE = [i] /\
  slots c' L' = room (c_size c) (slots c L) /\ room_kept i c c' /\ freed i c'.
Proof.
  pose proof (g_counted _ _ Hg) as Hc. pose proof Hb as (H1 & H2 & H3 & H4 & Hp). pose proof Hsz as [Hpos Hmax].
  pose proof (entries_count c L (g_lists _ _ Hg)) as Ht. rewrite HN in Ht. change (len (@nil nat)) with 0 in Ht.
  rewrite Z.add_0_r in Ht. pose proof (ghosts_full _ _ Hb) as Hgf. simpl in H1, H2, Hgf.
  unfold make_room, room. rewrite !Hc by done. rewrite (u32_len (_ + _)), (u32_len (2 * _)) by lia. rewrite Ht. simpl.
  destruct (Z.eqb_spec (len (L LT_T1) + len (L LT_B1)) (c_size c)) as [E|E];
    [destruct (Z.ltb_spec (len (L LT_T1)) (c_size c))|
     destruct (Z.leb_spec (c_size c) (count (slots c L))); [destruct (Z.leb_spec (2 * c_size c) (count (slots c L)))|]].
  - destruct (L LT_B1) as [|i xs] eqn:EL; [simpl in *; lia|].
    destruct (good_purge c L LT_B1 i xs Hg ltac:(done) EL HN) as (c1 & -> & Hg1 & K1). cbn [mbind option_bind].
    set (L1 := moved L LT_B1 xs [i]) in *.
    assert (ES1 : slots (add_size c1 LT_B1 (-1)) L1 = mkArc (L LT_T1) (L LT_T2) xs (L LT_B2) (c_target c)).
    { unfold slots, L1. fns. by rewrite (k_target _ _ K1). }
    destruct (replace_after _ L1 i Hg1) as (c2 & L2 & -> & Hg2 & EN2 & R2 & K2 & ES2);
      [by unfold L1; fns|by apply kept_room| | | |].
    { rewrite ES1. apply Hgf. by left. }
    { unfold L1. fns. rewrite EL, len_cons. lia. } { unfold L1. by fns. }
    exists i, c2, L2. split_and!; try done; [by rewrite ES2, ES1|].
    eapply purged_live; [by etrans|]. by eapply head_slot.
  - destruct (L LT_T1) as [|i xs] eqn:EL; [simpl in *; lia|].
    destruct (good_purge c L LT_T1 i xs Hg ltac:(done) EL HN) as (c1 & -> & Hg1 & K1). cbn [mbind option_bind].
    exists i. eexists _, _. split; [done|]. split; [exact Hg1|]. split_and!; [by fns| |by apply kept_room|].
    + unfold slots. fns. by rewrite (k_target _ _ K1).
    + eapply purged_live; [done|]. by eapply head_slot.
  - destruct (L LT_B2) as [|i xs] eqn:EL; [unfold count in *; simpl in *; rewrite EL in *; simpl in *; lia|].
    destruct (good_purge c L LT_B2 i xs Hg ltac:(done) EL HN) as (c1 & -> & Hg1 & K1). cbn [mbind option_bind].
    set (L1 := moved L LT_B2 xs [i]) in *.
    assert (ES1 : slots (add_size c1 LT_B2 (-1)) L1 = mkArc (L LT_T1) (L LT_T2) (L LT_B1) xs (c_target c)).
    { unfold slots, L1. fns. by rewrite (k_target _ _ K1). }
    destruct (replace_after _ L1 i Hg1) as (c2 & L2 & -> & Hg2 & EN2 & R2 & K2 & ES2);
      [by unfold L1; fns|by apply kept_room| | | |].
    { rewrite ES1. apply Hgf. by right. }
    { unfold L1. by fns. } { unfold L1. fns. rewrite EL, len_cons. lia. }
    exists i, c2, L2. split_and!; try done; [by rewrite ES2, ES1|].
    eapply purged_live; [by etrans|]. by eapply head_slot.
  - destruct (getNewEntry_good c L Hg HN Hlen Hsz ltac:(lia)) as (c1 & -> & Hg1 & R1 & He). cbn [mbind option_bind].
    set (L1 := <[LT_NONE := [c_entries c]]> L) in *.
    assert (ES1 : slots c1 L1 = slots c L). { unfold slots, L1. fns. by rewrite (rk_target _ _ _ R1). }
    assert (Hf : full (c_size c) (slots c L)).
    { unfold full. simpl. destruct (decide (len (L LT_T1) + len (L LT_T2) < c_size c)) as [Hl|]; [|lia].
      destruct (H4 Hl) as [E1 E2]. unfold count in *. simpl in *. rewrite E1, E2 in *. simpl in *. lia. }
    destruct (replace_after c1 L1 (c_entries c) Hg1) as (c2 & L2 & -> & Hg2 & EN2 & R2 & K2 & ES2);
      [by unfold L1; fns|done|by rewrite ES1|by unfold L1; fns|by unfold L1; fns|].
    exists (c_entries c), c2, L2. split_and!; try done; [by rewrite ES2, ES1|].
    destruct (payload_lookup _ _ _ _ (k_payload _ _ K2) He) as (e' & He' & Hpe). apply payload_item in Hpe as [_ Hpe].
    exists e'. split; [done|]. by rewrite Hpe.
  - destruct (getNewEntry_good c L Hg HN Hlen Hsz ltac:(lia)) as (c1 & -> & Hg1 & R1 & He).
    eexists _, _, _. split; [done|]. split; [exact Hg1|]. split_and!; [by fns| |done|by eexists].
    unfold slots. fns. by rewrite (rk_target _ _ _ R1).
Qed.
End Miss.

(** ** Filling the slot of a miss *)

(** Changing what an entry holds, not where it is. *)
Definition same_place (e e' : ENTRY) : Prop :=
  e_next e' = e_next e /\ e_prev e' = e_prev e /\ e_listtype e' = e_listtype e.

Lemma chain_place es lt pv xs nx i e e' : es !! i = Some e -> same_place e e' ->
  chain es lt pv xs nx -> chain (<[i := e']> es) lt pv xs nx.
Proof.
  intros He (P1 & P2 & P3). revert pv. induction xs as [|j xs IH]; intros pv; [done|].
  intros [(ej & Hj & ? & ? & ?) Hc]. split; [|by apply IH]. destruct (decide (j = i)) as [->|].
  - exists e'. simplify_eq. split; [by eapply lookup_insert_slot|]. split_and!; congruence.
  - exists ej. by rewrite list_lookup_insert_ne by done.
Qed.

Lemma good_fill c L i e e' : good c L -> c_entrylist c !! i = Some e -> same_place e e' ->
  good (with_entrylist c (<[i := e']> (c_entrylist c))) L.
Proof.
  intros [H Hc Hs] He Hp. constructor; try done. destruct H. constructor; try done; simpl.
  - intros. eapply chain_place; eauto.
  - intros lt j Hj. destruct (l_type0 lt j Hj) as (ej & Hej & Ht). destruct (decide (j = i)) as [->|].
    + exists e'. simplify_eq. split; [by eapply lookup_insert_slot|]. apply Hp.
    + exists ej. by rewrite list_lookup_insert_ne by done.
Qed.

Lemma upd_eq c i e f : c_entrylist c !! i = Some e ->
  upd c i f = Some (with_entrylist c (<[i := f e]> (c_entrylist c))).
Proof. intros He. unfold upd. by rewrite He. Qed.

(** The entry that [add_cache] leaves in the slot. *)
Definition filled (e : ENTRY) (k : key_ptr) (size sf ent : Z) : ENTRY :=
  mkENTRY (e_next e) (e_prev e) (e_listtype e) size k sf ent.

Lemma fill_slot c i e k size sf ent : c_entrylist c !! i = Some e -> e_key e <> KFreed ->
  (c1 ← upd c i (fun e => set_flags sf ent (set_esize size e));
   c2 ← destroyEntry i c1;
   upd c2 i (set_key k)) = Some (with_entrylist c (<[i := filled e k size sf ent]> (c_entrylist c))).
Proof.
  intros He Hf. rewrite (upd_eq c i e) by done. cbn [mbind option_bind].
  set (e1 := set_flags sf ent (set_esize size e)). set (c1 := with_entrylist c _).
  assert (He1 : c_entrylist c1 !! i = Some e1) by (simpl; by eapply lookup_insert_slot).
  unfold destroyEntry. rewrite He1. cbn [mbind option_bind]. simpl.
  destruct (e_key e) as [| |bs] eqn:Ek; [|done|].
  - cbn [mbind option_bind]. rewrite (upd_eq c1 i e1) by done. unfold with_entrylist. simpl. by rewrite list_insert_insert_eq.
  - rewrite (upd_eq c1 i e1) by done. cbn [mbind option_bind].
    erewrite upd_eq by (simpl; by eapply lookup_insert_slot). unfold with_entrylist. simpl. by rewrite !list_insert_insert_eq.
Qed.

(** [add_cache] for a key that is not in the cache, on slots; [k] is the key that
    the slot gets. *)
Lemma add_slots K c L s key sf ent (ok : bool) : good c L -> L LT_NONE = [] -> sized c ->
  bounded (c_size c) (slots c L) -> Z.of_nat (length (c_entrylist c)) = 2 * c_size c -> keyed K c ->
  s = arc_map (item_at (c_entrylist c)) (slots c L) -> length key = K ->
  exists i c' L', add_cache ok (Some key) (Z.of_nat K) sf ent c = Some ((if ok then R_SUCCESS else R_ERROR), c') /\
    good c' L' /\ L' LT_NONE = [] /\ room_kept i c c' /\ (i < c_entries c')%nat /\
    slots c' L' = miss (c_size c) i (slots c L) /\ (i ∉ all (room (c_size c) (slots c L))) /\
    (exists e, c_entrylist c' !! i = Some e /\ e_key e = (if ok then KData key else KNull) /\
       e_sfflags e = sf /\ e_entflags e = ent).
Proof.
  intros Hg HN Hsz Hb Hlen Hk -> HK.
  destruct (make_room_slots K c L Hg HN Hsz Hb Hlen Hk) as (i & c1 & L1 & E1 & Hg1 & EN1 & ES1 & R1 & (e1 & He1 & Hlive)).
  assert (Hs1 : len (L1 LT_T1) + 1 < 2 ^ 32 - 1).
  { replace (L1 LT_T1) with (t1 (slots c1 L1)) by done. rewrite ES1.
    destruct (room_sizes (c_size c) (slots c L)) as (? & _); [apply Hsz|done|]. unfold sized in Hsz. lia. }
  destruct (good_append c1 L1 LT_T1 i [] Hg1 ltac:(done) EN1 Hs1) as (c2 & E2 & Hg2 & K2).
  set (c3 := add_size c2 LT_T1 1) in *.
  destruct (payload_lookup _ _ i e1 (k_payload _ _ K2) He1) as (e & He & Hpe). apply payload_item in Hpe as [_ Hpe].
  set (k := (if ok then KData key else KNull)).
  pose proof (fill_slot c3 i e k (Z.of_nat K) sf ent He ltac:(congruence)) as Hfill.
  exists i, (with_entrylist c3 (<[i := filled e k (Z.of_nat K) sf ent]> (c_entrylist c3))),
    (moved L1 LT_T1 (L1 LT_T1 ++ [i]) []).
  assert (R3 : room_kept i c c3) by (by eapply room_kept_trans).
  split_and!.
  - unfold add_cache. rewrite E1. cbn [mbind option_bind]. rewrite E2. cbn [mbind option_bind]. fold c3.
    assert (ER : read_bytes key (Z.of_nat K) = Some key) by (rewrite <- HK; apply read_bytes_all).
    apply bind_Some in Hfill as (c4 & -> & Hfill). apply bind_Some in Hfill as (c5 & E5 & Hfill).
    cbn [mbind option_bind]. rewrite E5. cbn [mbind option_bind].
    destruct ok; cbn [mbind option_bind]; rewrite ?ER; cbn [mbind option_bind]; unfold k in Hfill; by rewrite Hfill.
  - by eapply good_fill.
  - by fns.
  - destruct R3. constructor; simpl; try done; [by rewrite length_insert|].
    intros j Hj. rewrite list_lookup_insert_ne by done. auto.
  - simpl. apply (l_slot _ _ (g_lists _ _ Hg2)). exists LT_T1. fns. set_solver.
  - unfold miss. rewrite <- ES1. unfold slots. simpl. fns. f_equal. apply (k_target _ _ K2).
  - rewrite <- ES1. intros Hi%elem_of_all. assert (Hi' : i ∈ L1 LT_NONE) by (rewrite EN1; set_solver).
    simpl in Hi. destruct_or! Hi; by pose proof (disjoint_slots _ _ _ _ _ (g_lists _ _ Hg1) Hi Hi').
  - eexists. split; [by eapply lookup_insert_slot|]. done.
Qed.

Lemma NoDup_keys_miss c x (s : arc item) : NoDup (it_key <$> all s) -> (forall y, y ∈ all s -> it_key y <> it_key x) ->
  NoDup (it_key <$> all (miss c x s)).
Proof.
  intros Hn Hx. assert (H : NoDup (it_key <$> (x :: all s))).
  { rewrite fmap_cons. apply NoDup_cons. split; [|done]. intros (y & E & Hy)%list_elem_of_fmap. by apply (Hx y Hy). }
  rewrite (miss_all c x s), fmap_app in H. by apply NoDup_app in H as (_ & _ & ?).
Qed.

(** [add_cache] implements a miss of the specification. *)
Lemma add_rep K c s key sf ent : cache_rep K c s -> length key = K -> (forall x, x ∈ all s -> it_key x <> key) ->
  exists c', add_cache true (Some key) (Z.of_nat K) sf ent c = Some (R_SUCCESS, c') /\
    cache_rep K c' (miss (c_size c) (mkItem key sf ent) s) /\ c_size c' = c_size c.
Proof.
  intros (L & Hg & HN & Hsz & Hb & Hlen & Hk & Es & Hn) HK Hnew.
  destruct (add_slots K c L s key sf ent true Hg HN Hsz Hb Hlen Hk Es HK)
    as (i & c' & L' & E & Hg' & HN' & R & Hi & ES & Hfresh & (e & He & Hke & Hsf & Hent)).
  exists c'. split; [done|]. split; [|apply (rk_size _ _ _ R)]. exists L'.
  assert (EI : item_at (c_entrylist c') i = mkItem key sf ent).
  { unfold item_at, item_of. rewrite He. simpl. by rewrite Hke, Hsf, Hent. }
  assert (EJ : forall j, j <> i -> item_at (c_entrylist c') j = item_at (c_entrylist c) j).
  { intros j Hj. pose proof (rk_payload _ _ _ R j Hj) as Hp. unfold item_at.
    destruct (c_entrylist c' !! j), (c_entrylist c !! j); try done. apply (inj Some) in Hp. by apply payload_item. }
  assert (Emiss : miss (c_size c) (mkItem key sf ent) s = arc_map (item_at (c_entrylist c')) (slots c' L')).
  { rewrite ES, Es. unfold miss. rewrite <- map_room. set (r := room (c_size c) (slots c L)) in *.
    rewrite (arc_map_ext (item_at (c_entrylist c)) (item_at (c_entrylist c')) r)
      by (intros j Hj; symmetry; apply EJ; congruence).
    unfold arc_map. simpl. by rewrite fmap_app, <- EI. }
  split_and!; try done.
  - unfold sized. by rewrite (rk_size _ _ _ R).
  - rewrite ES, (rk_size _ _ _ R). apply miss_bounded; [apply Hsz|done].
  - by rewrite (rk_length _ _ _ R), (rk_size _ _ _ R).
  - intros j Hj. destruct (decide (j = i)) as [->|Hne]; [by exists e, key|].
    destruct (rk_entries _ _ _ R j Hj) as [?|Hj']; [done|]. destruct (Hk j Hj') as (ej & bs & Hej & Hkj & Hl).
    pose proof (rk_payload _ _ _ R j Hne) as Hp. rewrite Hej in Hp.
    destruct (c_entrylist c' !! j) as [e'|]; [|done]. apply (inj Some), payload_item in Hp as [_ Hp].
    exists e', bs. split_and!; congruence.
  - by apply NoDup_keys_miss.
Qed.
