(* ===== verification/CacheThms.v ===== *)
(** * Theorems about the local cache: src/local_cache.c

    The operations of the interface against the specification of Arc.v, the states
    that operations reach from [initcache], and the operations that break the
    cache: removal, clearing and a failed allocation of a key. *)

From S2P Require Import CLib LocalCache Arc LocalCacheProps Prelude.

(** ** Lookup in the specification *)

Definition flags_of (x : item) : Z * Z := (it_sfflags x, it_entflags x).

(** The flags of a key. *)
Definition flags (k : list Z) (s : arc item) : option (Z * Z) := flags_of <$> find_first (has_key k) (all s).

Section Spec.
Implicit Types s : arc item.

Lemma hit_find c k s : fst <$> hit c (has_key k) s = find_first (has_key k) (all s).
Proof.
  unfold hit, all. rewrite !find_first_app. repeat case_match; simpl; congruence.
Qed.

Lemma find_key k (xs : list item) x : NoDup (it_key <$> xs) -> x ∈ xs -> it_key x = k -> find_first (has_key k) xs = Some x.
Proof.
  intros Hn Hx Hk. destruct (find_first (has_key k) xs) as [y|] eqn:E.
  - apply find_first_elem in E as [Hy Hyk]. unfold has_key in Hyk. apply bool_decide_eq_true in Hyk.
    f_equal. eapply NoDup_fmap_elem; [done..|]. congruence.
  - apply find_first_None in E. rewrite Forall_forall in E. specialize (E x Hx). unfold has_key in E.
    by apply bool_decide_eq_false in E.
Qed.

(** Lookups depend on the set of items only. *)
Lemma find_perm k (xs ys : list item) : NoDup (it_key <$> xs) -> xs ≡ₚ ys ->
  find_first (has_key k) xs = find_first (has_key k) ys.
Proof.
  intros Hn Hp. destruct (find_first (has_key k) xs) as [x|] eqn:E.
  - apply find_first_elem in E as [Hx Hk]. unfold has_key in Hk. apply bool_decide_eq_true in Hk. symmetry.
    apply find_key; [by rewrite <- Hp|by rewrite <- Hp|done].
  - symmetry. apply find_first_None. apply find_first_None in E. by rewrite <- Hp.
Qed.

Lemma flags_none k s : flags k s = None <-> forall x, x ∈ all s -> it_key x <> k.
Proof.
  unfold flags. rewrite fmap_None, find_first_None, Forall_forall. unfold has_key.
  by setoid_rewrite bool_decide_eq_false.
Qed.

(** A miss makes the new key known and forgets the victim's. *)
Lemma flags_miss c k sf ent s k' : NoDup (it_key <$> all s) -> flags k s = None ->
  flags k' (miss c (mkItem k sf ent) s) =
    if decide (k' = k) then Some (sf, ent)
    else if decide (Some k' = it_key <$> victim c s) then None else flags k' s.
Proof.
  intros Hn Hk. pose proof (proj1 (flags_none _ _) Hk) as Hnew.
  pose proof (miss_all c (mkItem k sf ent) s) as Hp.
  assert (Hn' : NoDup (it_key <$> (mkItem k sf ent :: all s))).
  { rewrite fmap_cons. apply NoDup_cons. split; [|done]. intros (y & E & Hy)%list_elem_of_fmap. by apply (Hnew y Hy). }
  pose proof (find_perm k' _ _ Hn' Hp) as Hf. rewrite find_first_app in Hf. simpl in Hf. unfold flags.
  rewrite Hp, fmap_app in Hn'. apply NoDup_app in Hn' as (_ & Hd & _).
  destruct (decide (k' = k)) as [->|Hne].
  - unfold has_key in Hf at 1. simpl in Hf. rewrite bool_decide_true in Hf by done.
    destruct (victim c s) as [v|] eqn:Ev; simpl in Hf; [|by rewrite <- Hf].
    assert (Hvk : has_key k v = false).
    { apply bool_decide_eq_false, Hnew. rewrite (room_all c s), Ev. set_solver. }
    rewrite Hvk in Hf. by rewrite <- Hf.
  - unfold has_key in Hf at 1. simpl in Hf. rewrite bool_decide_false in Hf by congruence.
    destruct (victim c s) as [v|] eqn:Ev; simpl in Hf, Hd; [|by rewrite decide_False, Hf by done].
    destruct (has_key k' v) eqn:Hv; unfold has_key in Hv.
    + apply bool_decide_eq_true in Hv. rewrite decide_True by (simpl; congruence). apply fmap_None, find_first_None, Forall_forall. intros x Hx.
      apply bool_decide_eq_false. intros Hxk. apply (Hd (it_key v)); [set_solver|]. rewrite Hv, <- Hxk.
      by apply list_elem_of_fmap_2.
    + apply bool_decide_eq_false in Hv. rewrite decide_False by (simpl; congruence). by rewrite Hf.
Qed.
End Spec.

(** ** Updates *)

(** The flags of a key replaced. *)
Definition reflag (k : list Z) (sf ent : Z) (s : arc item) : arc item :=
  arc_map (fun x => if has_key k x then mkItem k sf ent else x) s.

Lemma reflag_keys k sf ent s : it_key <$> all (reflag k sf ent s) = it_key <$> all s.
Proof.
  unfold reflag. rewrite map_all, <- list_fmap_compose. apply list_fmap_ext. intros _ x _. simpl.
  unfold has_key. case_bool_decide; [done|done].
Qed.

Lemma flags_reflag k key sf ent s : flags k (reflag key sf ent s) =
  if decide (k = key) then (fun _ => (sf, ent)) <$> flags key s else flags k s.
Proof.
  unfold flags, reflag. rewrite map_all. induction (all s) as [|x xs IH]; simpl.
  - by destruct (decide (k = key)).
  - destruct (has_key key x) eqn:Hx; pose proof Hx as Hxk; unfold has_key in Hxk;
      [apply bool_decide_eq_true in Hxk|apply bool_decide_eq_false in Hxk].
    + assert (Hk : forall y, it_key y = key -> has_key k y = bool_decide (k = key)).
      { intros y Hy. unfold has_key. rewrite Hy. by apply bool_decide_ext. }
      rewrite (Hk x), (Hk (mkItem key sf ent)) by done. destruct (decide (k = key)) as [->|Hne].
      * by rewrite bool_decide_true.
      * by rewrite bool_decide_false.
    + destruct (has_key k x) eqn:Hkx; [|done]. unfold has_key in Hkx. apply bool_decide_eq_true in Hkx.
      by rewrite decide_False by congruence.
Qed.

Lemma arc_map_map {A B C} (f : A -> B) (g : B -> C) s : arc_map g (arc_map f s) = arc_map (g ∘ f) s.
Proof. unfold arc_map. simpl. by rewrite !list_fmap_compose. Qed.

Lemma update_rep K c s key sf ent : cache_rep K c s -> length key = K ->
  exists c', update_cache key (Z.of_nat K) sf ent c =
      Some ((if decide (flags key s = None) then R_NOT_FOUND else R_SUCCESS), c') /\
    cache_rep K c' (reflag key sf ent s) /\ c_size c' = c_size c.
Proof.
  intros Hrep HK. pose proof Hrep as (L & Hg & HN & Hsz & Hb & Hlen & Hk & Es & Hn).
  destruct (FindEntry_keys K c key Hk HK) as ([i|] & EF & Hr); unfold update_cache; rewrite EF; cbn [mbind option_bind].
  - destruct Hr as [Hi Hkey]. destruct (Hk i Hi) as (e & bs & He & Hke & Hl). rewrite (upd_eq c i e) by done.
    cbn [mbind option_bind]. set (e' := set_flags sf ent e).
    pose proof (proj1 (slot_all c L i Hg HN) Hi) as Hia.
    assert (Hfl : flags key s <> None).
    { rewrite flags_none. intros H. apply (H (item_at (c_entrylist c) i)); [|done].
      rewrite Es, map_all. by apply list_elem_of_fmap_2. }
    rewrite decide_False by done. eexists. split; [done|]. split; [|done]. exists L.
    assert (EI : item_at (<[i := e']> (c_entrylist c)) i = mkItem key sf ent).
    { unfold item_at. erewrite lookup_insert_slot by done. simpl. unfold item_of. simpl. rewrite Hke. f_equal.
      revert Hkey. unfold item_at, item_of. rewrite He. simpl. by rewrite Hke. }
    assert (EJ : forall j, j <> i -> item_at (<[i := e']> (c_entrylist c)) j = item_at (c_entrylist c) j).
    { intros j Hj. unfold item_at. by rewrite list_lookup_insert_ne. }
    split_and!; try done.
    + by eapply good_fill.
    + simpl. by rewrite length_insert.
    + intros j Hj. simpl in *. destruct (decide (j = i)) as [->|]; [|rewrite list_lookup_insert_ne by done; auto].
      exists e', bs. split_and!; try done. by eapply lookup_insert_slot.
    + rewrite Es. unfold reflag. rewrite arc_map_map. apply arc_map_ext. intros j Hj. simpl.
      destruct (decide (j = i)) as [->|Hne].
      { unfold has_key. by rewrite bool_decide_true, EI. }
      rewrite EJ by done. unfold has_key. rewrite bool_decide_false; [done|]. intros Hkj. apply Hne.
      rewrite Es, map_all, <- list_fmap_compose in Hn. eapply (NoDup_fmap_elem _ _ _ _ Hn Hj Hia). simpl. congruence.
    + by rewrite reflag_keys.
  - assert (Hfl : flags key s = None).
    { apply flags_none. intros x. rewrite Es, map_all. intros (j & -> & Hj)%list_elem_of_fmap. apply Hr.
      by apply (slot_all c L j Hg HN). }
    rewrite decide_True by done. eexists. split; [done|]. split; [|done].
    enough (reflag key sf ent s = s) as -> by done. unfold reflag. transitivity (arc_map id s).
    + apply arc_map_ext. intros x Hx. unfold has_key. rewrite bool_decide_false; [done|].
      by apply (proj1 (flags_none _ _) Hfl).
    + destruct s. unfold arc_map. simpl. by rewrite !list_fmap_id.
Qed.

(** ** Poisoned slots *)

(** A slot in use whose key is NULL or freed makes every lookup crash that is not
    answered by an earlier slot. *)
Lemma FindEntry_loop_crash K es n i key j e : length key = K -> (i <= j < i + n)%nat ->
  es !! j = Some e -> (forall bs, e_key e <> KData bs) ->
  (forall l, (i <= l < j)%nat -> exists e bs, es !! l = Some e /\ e_key e = KData bs /\ length bs = K /\ bs <> key) ->
  FindEntry_loop es n i key (Z.of_nat K) = None.
Proof.
  intros HK. revert i. induction n as [|n IH]; intros i Hj He Hbad H; [lia|]. simpl.
  destruct (decide (j = i)) as [->|].
  - rewrite He. simpl. unfold key_equal. destruct (e_key e) as [| |bs] eqn:Ek; try done. by destruct (Hbad bs).
  - destruct (H i ltac:(lia)) as (ei & bs & Hei & Hk & Hl & Hne). rewrite Hei. cbn [mbind option_bind].
    assert (E1 : read_bytes bs (Z.of_nat K) = Some bs) by (rewrite <- Hl; apply read_bytes_all).
    assert (E2 : read_bytes key (Z.of_nat K) = Some key) by (rewrite <- HK; apply read_bytes_all).
    unfold key_equal. rewrite Hk, E1. cbn [mbind option_bind]. rewrite E2. cbn [mbind option_bind].
    rewrite bool_decide_false by done. apply IH; try done; [lia|]. intros. apply H. lia.
Qed.

(** The slots other than [i] are as in a cache that holds no other copy of [key]. *)
Lemma check_crash K c c' i key : keyed K c -> length key = K -> (i < c_entries c')%nat ->
  (exists e, c_entrylist c' !! i = Some e /\ forall bs, e_key e <> KData bs) ->
  (forall j, j <> i -> payload <$> c_entrylist c' !! j = payload <$> c_entrylist c !! j) ->
  (forall j, (j < c_entries c')%nat -> j = i \/ (j < c_entries c)%nat) ->
  (forall j, (j < c_entries c)%nat -> j <> i -> it_key (item_at (c_entrylist c) j) <> key) ->
  check_cache key (Z.of_nat K) c' = None.
Proof.
  intros Hk HK Hi (e & He & Hbad) Hp Hin Hne. unfold check_cache, FindEntry.
  rewrite (FindEntry_loop_crash K _ _ 0 key i e); try done; [lia|].
  intros l Hl. destruct (Hin l ltac:(lia)) as [?|Hl']; [lia|].
  destruct (Hk l Hl') as (el & bs & Hel & Hkl & Hll). pose proof (Hp l ltac:(lia)) as Hpl. rewrite Hel in Hpl.
  destruct (c_entrylist c' !! l) as [e'|]; [|done]. apply (inj Some), payload_item in Hpl as [_ Hpl].
  exists e', bs. split_and!; try congruence. specialize (Hne l Hl' ltac:(lia)). intros ->. apply Hne.
  unfold item_at, item_of. rewrite Hel. simpl. by rewrite Hkl.
Qed.

Lemma absent_slots K c s L key : cache_rep K c s -> good c L -> L LT_NONE = [] ->
  s = arc_map (item_at (c_entrylist c)) (slots c L) -> flags key s = None ->
  forall j, (j < c_entries c)%nat -> it_key (item_at (c_entrylist c) j) <> key.
Proof.
  intros _ Hg HN -> Hfl j Hj. apply (proj1 (flags_none _ _) Hfl). rewrite map_all.
  apply list_elem_of_fmap_2. by apply (slot_all c L j Hg HN).
Qed.

(** A failed allocation of the key leaves a slot with a NULL key in use. *)
Lemma add_failure K c s key sf ent : cache_rep K c s -> length key = K ->
  exists c', add_cache false (Some key) (Z.of_nat K) sf ent c = Some (R_ERROR, c') /\
    forall k, length k = K -> flags k s = None -> check_cache k (Z.of_nat K) c' = None.
Proof.
  intros Hrep HK. pose proof Hrep as (L & Hg & HN & Hsz & Hb & Hlen & Hk & Es & Hn).
  destruct (add_slots K c L s key sf ent false Hg HN Hsz Hb Hlen Hk Es HK)
    as (i & c' & L' & E & Hg' & HN' & R & Hi & ES & Hfresh & (e & He & Hke & _)).
  exists c'. split; [done|]. intros k HKk Hfl. apply (check_crash K c c' i k); try done.
  - exists e. split; [done|]. intros bs. by rewrite Hke.
  - apply R.
  - apply R.
  - intros j Hj _. by apply (absent_slots K c s L k Hrep Hg HN Es Hfl).
Qed.

(** Removing an entry leaves a slot with a freed key in use. *)
Lemma remove_poison K c s key : cache_rep K c s -> length key = K -> flags key s <> None ->
  exists c', remove_cache key (Z.of_nat K) c = Some (R_SUCCESS, c') /\
    c_listSize c' = c_listSize c /\ c_entries c' = c_entries c /\
    forall k, length k = K -> k = key \/ flags k s = None -> check_cache k (Z.of_nat K) c' = None.
Proof.
  intros Hrep HK Hin. pose proof Hrep as (L & Hg & HN & Hsz & Hb & Hlen & Hk & Es & Hn).
  destruct (FindEntry_keys K c key Hk HK) as ([i|] & EF & Hr).
  2: { destruct Hin. apply flags_none. intros x. rewrite Es, map_all. intros (j & -> & Hj)%list_elem_of_fmap.
       apply Hr. by apply (slot_all c L j Hg HN). }
  destruct Hr as [Hi Hkey]. destruct (proj1 (l_slot _ _ (g_lists _ _ Hg) i) Hi) as [lt Hlt].
  assert (Hne : lt <> LT_NONE) by (intros ->; rewrite HN in Hlt; by apply not_elem_of_nil in Hlt).
  apply list_elem_of_split in Hlt as (xs & ys & EL).
  destruct (removeEntry_lists c L lt xs i ys (g_lists _ _ Hg) Hne EL) as (c1 & E1 & _ & R1).
  destruct (Hk i Hi) as (e & bs & He & Hke & Hl). destruct (payload_lookup _ _ i e (r_payload _ _ R1) He) as (e1 & He1 & Hp1).
  apply payload_item in Hp1 as [_ Hp1].
  unfold remove_cache. rewrite EF. cbn [mbind option_bind]. rewrite E1. cbn [mbind option_bind].
  unfold destroyEntry. rewrite He1. cbn [mbind option_bind]. rewrite Hp1, Hke.
  rewrite (upd_eq c1 i e1) by done. cbn [mbind option_bind].
  erewrite upd_eq by (simpl; by eapply lookup_insert_slot). cbn [mbind option_bind].
  eexists. split; [done|]. simpl. rewrite list_insert_insert_eq. split_and!; [apply R1|apply R1|].
  assert (EJ : forall j, j <> i -> payload <$> c_entrylist c1 !! j = payload <$> c_entrylist c !! j).
  { intros j _. rewrite <- !list_lookup_fmap. by rewrite (r_payload _ _ R1). }
  intros k HKk Hor. apply (check_crash K c _ i k); try done; simpl.
  - by rewrite (r_entries _ _ R1).
  - eexists. split; [by eapply lookup_insert_slot|]. done.
  - intros j Hj. rewrite list_lookup_insert_ne by done. auto.
  - intros j Hj. right. by rewrite <- (r_entries _ _ R1).
  - intros j Hj Hji. destruct Hor as [->|Hfl]; [|by apply (absent_slots K c s L k Hrep Hg HN Es Hfl)].
    intros Hkj. apply Hji. rewrite Es, map_all, <- list_fmap_compose in Hn.
    eapply (NoDup_fmap_elem _ _ _ _ Hn); [by apply (slot_all c L j Hg HN)|by apply (slot_all c L i Hg HN)|]. simpl. congruence.
Qed.

(** ** Empty caches *)

Lemma empty_rep K c : c_entries c = 0%nat -> (forall lt, c_LRU c lt = None) -> (forall lt, c_MRU c lt = None) ->
  (forall lt, c_listSize c lt = 0) -> c_target c = c_size c -> sized c ->
  Z.of_nat (length (c_entrylist c)) = 2 * c_size c -> cache_rep K c (arc_empty (c_size c)).
Proof.
  intros He Hl Hm Hs Ht Hsz Hlen. exists (fun _ => []).
  assert (Hslots : slots c (fun _ => []) = arc_empty (c_size c)) by (unfold slots; by rewrite Ht).
  split_and!; try done.
  - constructor; [constructor|..]; simpl; try done.
    + intros. apply NoDup_nil_2.
    + intros i. rewrite He. split; [lia|]. intros [_ Hi]. by apply not_elem_of_nil in Hi.
    + intros lt i Hi. by apply not_elem_of_nil in Hi.
  - rewrite Hslots. apply arc_empty_bounded, Hsz.
  - intros i Hi. rewrite He in Hi. lia.
  - by rewrite Hslots.
  - apply NoDup_nil_2.
Qed.

Definition in_limit (n : Z) : Prop := 0 < n < 2 ^ 31 - 1.

Lemma init_one_rep K uninit n : in_limit n -> cache_rep K (init_one uninit true n) (arc_empty n).
Proof.
  intros Hn. apply (empty_rep K (init_one uninit true n)); try done. simpl. rewrite length_replicate.
  unfold in_limit in Hn. rewrite u32_len by lia. lia.
Qed.

(** The cache of good hashes gets the limit of the bad ones, and conversely. *)
Lemma initcache_rep K uninit BadLimit GoodLimit t : in_limit BadLimit -> in_limit GoodLimit -> t <> ALL ->
  cache_rep K (initcache uninit BadLimit GoodLimit [] t)
    (arc_empty (match t with GOODHASH => BadLimit | BADHASH => GoodLimit | _ => 256 end)).
Proof.
  intros Hb Hg Ht. destruct t; [exact (init_one_rep K uninit _ Hb)|exact (init_one_rep K uninit _ Hg)| |done].
  exact (init_one_rep K uninit 256 ltac:(unfold in_limit; lia)).
Qed.

(** ** Clearing *)

Lemma destroy_loop_frees n i c :
  (forall j, (i <= j < i + n)%nat -> exists e bs, c_entrylist c !! j = Some e /\ e_key e = KData bs) ->
  exists es, destroy_loop n i c = Some (with_entrylist c es) /\ length es = length (c_entrylist c) /\
    (forall j, (i <= j < i + n)%nat -> exists e, es !! j = Some e /\ e_key e = KFreed) /\
    (forall j, (j < i)%nat -> es !! j = c_entrylist c !! j).
Proof.
  revert i c. induction n as [|n IH]; intros i c H; simpl.
  - exists (c_entrylist c). split_and!; try done; [by destruct c|]. intros. lia.
  - destruct (H i ltac:(lia)) as (e & bs & He & Hk). unfold destroyEntry. rewrite He. cbn [mbind option_bind].
    rewrite Hk, (upd_eq c i e) by done. cbn [mbind option_bind]. set (c1 := with_entrylist c _).
    destruct (IH (S i) c1) as (es & -> & Hl & Hf & Hu).
    { intros j Hj. simpl. rewrite list_lookup_insert_ne by lia. apply H. lia. }
    exists es. split_and!; [done|by rewrite Hl; simpl; rewrite length_insert| |].
    + intros j Hj. destruct (decide (j = i)) as [->|]; [|apply Hf; lia]. rewrite Hu by lia. simpl.
      exists (set_key KFreed e). split; [by eapply lookup_insert_slot|done].
    + intros j Hj. rewrite Hu by lia. simpl. by rewrite list_lookup_insert_ne by lia.
Qed.

(** Links do not touch keys. *)
Definition keys (c : CACHE) : list key_ptr := e_key <$> c_entrylist c.

Lemma upd_keys c i f c' : (forall e, e_key (f e) = e_key e) -> upd c i f = Some c' -> keys c' = keys c.
Proof.
  intros Hf E. unfold upd in E. apply bind_Some in E as (e & He & [= <-]). unfold keys. simpl.
  rewrite list_fmap_insert, Hf. apply list_insert_id. by rewrite list_lookup_fmap, He.
Qed.

Lemma FindLRU_keys lt c r c' : FindLRU lt c = Some (r, c') -> keys c' = keys c.
Proof.
  unfold FindLRU. destruct (decide _); [done|]. destruct (c_LRU c lt); [by intros [= _ <-]|].
  intros E. apply bind_Some in E as (x & _ & [= _ <-]). done.
Qed.

Lemma FindMRU_keys lt c r c' : FindMRU lt c = Some (r, c') -> keys c' = keys c.
Proof.
  unfold FindMRU. destruct (decide _); [done|]. destruct (c_MRU c lt); [by intros [= _ <-]|].
  intros E. apply bind_Some in E as (x & _ & [= _ <-]). done.
Qed.

Lemma PurgeLRU_keys lt c r c' : PurgeLRU lt c = Some (r, c') -> keys c' = keys c.
Proof.
  unfold PurgeLRU. intros E. apply bind_Some in E as ([o c1] & E1 & E). apply FindLRU_keys in E1 as <-.
  destruct o as [i|]; [|by injection E as _ <-]. apply bind_Some in E as (e & He & E).
  apply bind_Some in E as (c2 & E2 & E). apply bind_Some in E as (c3 & E3 & [= _ <-]).
  apply upd_keys in E3 as ->; [|done]. destruct (e_next e); [|by injection E2 as <-].
  apply bind_Some in E2 as (c4 & E4 & [= <-]). by apply upd_keys in E4.
Qed.

Lemma AddMRU_keys x lt c c' : AddMRU x lt c = Some c' -> keys c' = keys c.
Proof.
  unfold AddMRU. intros E. apply bind_Some in E as (i & -> & E). apply bind_Some in E as ([o c1] & E1 & E).
  apply FindMRU_keys in E1 as <-. destruct o as [m|].
  - apply bind_Some in E as (c2 & E2 & E). apply bind_Some in E as (c3 & E3 & [= <-]).
    apply upd_keys in E3; [|done]. apply upd_keys in E2; [|done]. unfold keys in *. simpl. congruence.
  - apply bind_Some in E as (c2 & E2 & [= <-]). by apply upd_keys in E2.
Qed.

(** A cache whose T1 is full of entries with freed keys: the next miss frees one of
    them again. *)
Lemma stale_add c i e ok key size sf ent : c_LRU c LT_T1 = Some i -> c_entrylist c !! i = Some e -> e_key e = KFreed ->
  c_listSize c LT_T1 = c_size c -> c_listSize c LT_B1 = 0 -> 0 <= c_size c < 2 ^ 32 ->
  add_cache ok key size sf ent c = None.
Proof.
  intros Hl He Hk H1 H2 Hs. destruct (add_cache ok key size sf ent c) as [[r c']|] eqn:E; [|done]. exfalso.
  unfold add_cache in E. apply bind_Some in E as ([o c1] & E1 & E). unfold make_room in E1.
  rewrite H1, H2, Z.add_0_r, u32_len, Z.eqb_refl, Z.ltb_irrefl in E1 by done.
  apply bind_Some in E1 as ([o' c2] & E2 & [= <- <-]). assert (o' = Some i) as ->.
  { unfold PurgeLRU, FindLRU in E2. rewrite decide_False, Hl in E2 by done. cbn [mbind option_bind] in E2.
    apply bind_Some in E2 as (? & _ & E2). apply bind_Some in E2 as (? & _ & E2).
    by apply bind_Some in E2 as (? & _ & [= <- _]). }
  apply PurgeLRU_keys in E2. apply bind_Some in E as (c3 & E3 & E). apply AddMRU_keys in E3.
  cbn [mbind option_bind] in E. apply bind_Some in E as (c4 & E4 & E). apply upd_keys in E4; [|done].
  apply bind_Some in E as (c5 & E5 & _). unfold destroyEntry in E5. apply bind_Some in E5 as (e5 & He5 & E5).
  assert (H : keys c4 !! i = keys c !! i) by (unfold keys in *; simpl in *; congruence).
  unfold keys in H. rewrite !list_lookup_fmap, He, He5 in H. simpl in H. rewrite Hk in H. injection H as H.
  by rewrite H in E5.
Qed.

(** ** Theorems *)

Section Theorems.
Variable K : nat.
Implicit Types Cache : CacheType -> CACHE.

(** The answer of [checkLocalEntry], whose parameters hold [sf] and [ent]. *)
Definition answer (found : option (Z * Z)) (sf ent : Z) Cache : Lookup_Result * option Z * option Z * (CacheType -> CACHE) :=
  match found with
  | Some (sf', ent') => (R_FOUND, Some sf', Some ent', Cache)
  | None => (R_NOT_FOUND, Some sf, Some ent, Cache)
  end.

Definition after_hit (c : Z) (key : list Z) (s : arc item) : arc item :=
  match hit c (has_key key) s with Some (_, s') => s' | None => s end.

Lemma check_spec Cache t s key sf ent : t <> ALL -> cache_rep K (Cache t) s -> length key = K ->
  exists Cache', checkLocalEntry (Some key) (Z.of_nat K) (Some sf) (Some ent) t Cache =
      Some (answer (flags key s) sf ent Cache') /\
    cache_rep K (Cache' t) (after_hit (c_size (Cache t)) key s) /\ c_size (Cache' t) = c_size (Cache t) /\
    (forall t', t' <> t -> Cache' t' = Cache t').
Proof.
  intros Ht Hrep HK. destruct (check_rep K (Cache t) s key Hrep HK) as (r & h & c' & E & H).
  unfold checkLocalEntry. rewrite decide_False, E by done. cbn [mbind option_bind].
  exists (<[t := c']> Cache). rewrite fn_lookup_insert. unfold flags, after_hit.
  rewrite <- (hit_find (c_size (Cache t)) key s). destruct (hit _ _ s) as [[x s']|].
  - destruct H as (-> & Hrep' & Hs & i & e & -> & -> & <-). cbn [mbind option_bind]. split_and!; try done.
    intros. by rewrite fn_lookup_insert_ne.
  - destruct H as (-> & -> & ->). split_and!; try done. intros. by rewrite fn_lookup_insert_ne.
Qed.

Lemma add_spec Cache t s key sf ent : t <> ALL -> cache_rep K (Cache t) s -> length key = K -> flags key s = None ->
  exists Cache', addLocalEntry true (Some key) (Z.of_nat K) sf ent t Cache = Some (R_SUCCESS, Cache') /\
    cache_rep K (Cache' t) (miss (c_size (Cache t)) (mkItem key sf ent) s) /\ c_size (Cache' t) = c_size (Cache t) /\
    (forall t', t' <> t -> Cache' t' = Cache t').
Proof.
  intros Ht Hrep HK Hnew. destruct (add_rep K (Cache t) s key sf ent Hrep HK) as (c' & E & Hrep' & Hs).
  { by apply flags_none. }
  unfold addLocalEntry. rewrite decide_False, E by done. cbn [mbind option_bind]. exists (<[t := c']> Cache).
  rewrite fn_lookup_insert. split_and!; try done. intros. by rewrite fn_lookup_insert_ne.
Qed.

Lemma update_spec Cache t s key sf ent : t <> ALL -> cache_rep K (Cache t) s -> length key = K ->
  exists Cache', updateLocalEntry (Some key) (Z.of_nat K) sf ent t Cache =
      Some ((if decide (flags key s = None) then R_NOT_FOUND else R_SUCCESS), Cache') /\
    cache_rep K (Cache' t) (reflag key sf ent s) /\ c_size (Cache' t) = c_size (Cache t) /\
    (forall t', t' <> t -> Cache' t' = Cache t').
Proof.
  intros Ht Hrep HK. destruct (update_rep K (Cache t) s key sf ent Hrep HK) as (c' & E & Hrep' & Hs).
  unfold updateLocalEntry. rewrite decide_False, E by done. cbn [mbind option_bind]. exists (<[t := c']> Cache).
  rewrite fn_lookup_insert. split_and!; try done. intros. by rewrite fn_lookup_insert_ne.
Qed.

(** C8. [checkLocalEntry] implements a lookup of adaptive replacement: it answers
    with the flags of the key, ghost entries included, or R_NOT_FOUND with the
    parameters untouched; a hit moves the entry to the end of T2 (and, from a ghost
    list, moves the target and makes room); the other caches stay. *)
Theorem checkLocalEntry_refines Cache t s key sf ent : t <> ALL -> cache_rep K (Cache t) s -> length key = K ->
  exists Cache', checkLocalEntry (Some key) (Z.of_nat K) (Some sf) (Some ent) t Cache =
      Some (answer (flags key s) sf ent Cache') /\
    cache_rep K (Cache' t) (after_hit (c_size (Cache t)) key s) /\ (forall t', t' <> t -> Cache' t' = Cache t').
Proof. intros Ht Hrep HK. destruct (check_spec Cache t s key sf ent Ht Hrep HK) as (Cache' & ? & ? & _ & ?). eauto. Qed.

(** C9. [addLocalEntry] of a new key implements a miss of adaptive replacement: it
    purges or takes a slot, makes room as the sizes of the lists say, and appends
    the entry to T1; the other caches stay. *)
Theorem addLocalEntry_refines Cache t s key sf ent : t <> ALL -> cache_rep K (Cache t) s -> length key = K ->
  flags key s = None ->
  exists Cache', addLocalEntry true (Some key) (Z.of_nat K) sf ent t Cache = Some (R_SUCCESS, Cache') /\
    cache_rep K (Cache' t) (miss (c_size (Cache t)) (mkItem key sf ent) s) /\
    (forall t', t' <> t -> Cache' t' = Cache t').
Proof. intros Ht Hrep HK Hn. destruct (add_spec Cache t s key sf ent Ht Hrep HK Hn) as (Cache' & ? & ? & _ & ?). eauto. Qed.

(** Insert and look up: after a new key is added, looking it up gives its
    flags, the key that made room for it is not found, and every other key is
    answered as before. *)
Theorem addLocalEntry_lookup Cache t s key sf ent k sf0 ent0 : t <> ALL -> cache_rep K (Cache t) s -> length key = K ->
  length k = K -> flags key s = None ->
  exists Cache1 Cache2, addLocalEntry true (Some key) (Z.of_nat K) sf ent t Cache = Some (R_SUCCESS, Cache1) /\
    checkLocalEntry (Some k) (Z.of_nat K) (Some sf0) (Some ent0) t Cache1 =
      Some (answer (if decide (k = key) then Some (sf, ent)
                    else if decide (Some k = it_key <$> victim (c_size (Cache t)) s) then None
                    else flags k s) sf0 ent0 Cache2).
Proof.
  intros Ht Hrep HK HKk Hn. destruct (add_spec Cache t s key sf ent Ht Hrep HK Hn) as (Cache1 & E1 & Hrep1 & _ & _).
  destruct (check_spec Cache1 t _ k sf0 ent0 Ht Hrep1 HKk) as (Cache2 & E2 & _).
  exists Cache1, Cache2. split; [done|]. rewrite E2, flags_miss; [done| |done].
  by destruct Hrep as (_ & _ & _ & _ & _ & _ & _ & _ & ?).
Qed.

(** [updateLocalEntry] replaces the flags of a known key, which the next lookup
    answers, and reports R_NOT_FOUND for an unknown one; the answers for the other
    keys stay. *)
Theorem updateLocalEntry_lookup Cache t s key sf ent k sf0 ent0 : t <> ALL -> cache_rep K (Cache t) s ->
  length key = K -> length k = K ->
  exists Cache1 Cache2, updateLocalEntry (Some key) (Z.of_nat K) sf ent t Cache =
      Some ((if decide (flags key s = None) then R_NOT_FOUND else R_SUCCESS), Cache1) /\
    checkLocalEntry (Some k) (Z.of_nat K) (Some sf0) (Some ent0) t Cache1 =
      Some (answer (if decide (k = key) then (fun _ => (sf, ent)) <$> flags key s else flags k s) sf0 ent0 Cache2).
Proof.
  intros Ht Hrep HK HKk. destruct (update_spec Cache t s key sf ent Ht Hrep HK) as (Cache1 & E1 & Hrep1 & _ & _).
  destruct (check_spec Cache1 t _ k sf0 ent0 Ht Hrep1 HKk) as (Cache2 & E2 & _).
  exists Cache1, Cache2. split; [done|]. rewrite E2. by rewrite flags_reflag.
Qed.
End Theorems.

Section Reachable.
Variable K : nat.
Implicit Types Cache : CacheType -> CACHE.

(** The states that lookups, updates and the addition of keys just not found reach
    from [initcache]. *)
Inductive reachable : (CacheType -> CACHE) -> Prop :=
  | reach_init uninit BadLimit GoodLimit : in_limit BadLimit -> in_limit GoodLimit ->
      reachable (initcache uninit BadLimit GoodLimit [])
  | reach_check Cache t key sf ent r sf' ent' Cache' : reachable Cache -> length key = K ->
      checkLocalEntry (Some key) (Z.of_nat K) (Some sf) (Some ent) t Cache = Some (r, sf', ent', Cache') ->
      reachable Cache'
  | reach_update Cache t key sf ent r Cache' : reachable Cache -> length key = K ->
      updateLocalEntry (Some key) (Z.of_nat K) sf ent t Cache = Some (r, Cache') ->
      reachable Cache'
  | reach_add Cache t key sf ent sf0 ent0 sf1 ent1 r Cache0 Cache' : reachable Cache -> length key = K ->
      checkLocalEntry (Some key) (Z.of_nat K) (Some sf0) (Some ent0) t Cache = Some (R_NOT_FOUND, sf1, ent1, Cache0) ->
      addLocalEntry true (Some key) (Z.of_nat K) sf ent t Cache0 = Some (r, Cache') ->
      reachable Cache'.

Definition caches_ok Cache : Prop := forall t, t <> ALL -> exists s, cache_rep K (Cache t) s.

Lemma caches_update Cache Cache' t s : caches_ok Cache -> cache_rep K (Cache' t) s ->
  (forall t', t' <> t -> Cache' t' = Cache t') -> caches_ok Cache'.
Proof.
  intros Hok Hrep Hother t' Ht'. destruct (decide (t' = t)) as [->|]; [eauto|]. rewrite Hother by done. auto.
Qed.

Lemma reachable_ok Cache : reachable Cache -> caches_ok Cache.
Proof.
  induction 1 as [uninit b g Hb Hg|Cache t key sf ent r sf' ent' Cache' _ IH HK E
    |Cache t key sf ent r Cache' _ IH HK E|Cache t key sf ent sf0 ent0 sf1 ent1 r Cache0 Cache' _ IH HK E0 E].
  - intros t Ht. eexists. by apply initcache_rep.
  - destruct (decide (t = ALL)) as [->|Ht]; [by injection E as _ _ _ <-|].
    destruct (IH t Ht) as [s Hs]. destruct (check_spec K Cache t s key sf ent Ht Hs HK) as (C & E1 & Hrep & _ & Ho).
    rewrite E1 in E. assert (C = Cache') as <- by (revert E; unfold answer; destruct (flags key s) as [[]|]; congruence).
    by eapply caches_update.
  - destruct (decide (t = ALL)) as [->|Ht]; [by injection E as _ <-|].
    destruct (IH t Ht) as [s Hs]. destruct (update_spec K Cache t s key sf ent Ht Hs HK) as (C & E1 & Hrep & _ & Ho).
    rewrite E1 in E. injection E as _ <-. by eapply caches_update.
  - destruct (decide (t = ALL)) as [->|Ht]; [by injection E0|].
    destruct (IH t Ht) as [s Hs]. destruct (check_spec K Cache t s key sf0 ent0 Ht Hs HK) as (C & E1 & Hrep & _ & Ho).
    rewrite E1 in E0. destruct (flags key s) as [[]|] eqn:Hf; simpl in E0; [done|]. injection E0 as <- <- <-.
    assert (Hs' : after_hit (c_size (Cache t)) key s = s).
    { unfold after_hit. pose proof (hit_find (c_size (Cache t)) key s) as Hh. unfold flags in Hf.
      apply fmap_None in Hf. rewrite Hf in Hh. by destruct (hit _ _ s) as [[]|]. }
    rewrite Hs' in Hrep. destruct (add_spec K C t s key sf ent Ht Hrep HK Hf) as (C' & E2 & Hrep' & _ & Ho').
    rewrite E2 in E. injection E as _ <-. eapply caches_update; [|done..].
    by eapply caches_update.
Qed.

(** C10. In every state that lookups, updates and additions of keys just not found
    reach from [initcache], each cache holds at most [size] entries in T1 and T2,
    at most [size] in T1 and B1 and at most [2 size] in all, with a target between
    0 and [size], and no lookup, update or addition crashes. *)
Theorem LocalCache_reachable Cache t key sf ent ok : reachable Cache -> t <> ALL -> length key = K ->
  (exists s, cache_rep K (Cache t) s /\ bounded (c_size (Cache t)) s) /\
  is_Some (checkLocalEntry (Some key) (Z.of_nat K) (Some sf) (Some ent) t Cache) /\
  is_Some (updateLocalEntry (Some key) (Z.of_nat K) sf ent t Cache) /\
  is_Some (addLocalEntry ok (Some key) (Z.of_nat K) sf ent t Cache).
Proof.
  intros Hr Ht HK. destruct (reachable_ok Cache Hr t Ht) as [s Hs]. split_and!.
  - exists s. split; [done|]. destruct Hs as (L & _ & _ & _ & Hb & _ & _ & -> & _). by apply map_bounded.
  - destruct (check_spec K Cache t s key sf ent Ht Hs HK) as (? & -> & _). eauto.
  - destruct (update_spec K Cache t s key sf ent Ht Hs HK) as (? & -> & _). eauto.
  - destruct Hs as (L & Hg & HN & Hsz & Hb & Hlen & Hk & Es & _).
    destruct (add_slots K (Cache t) L s key sf ent ok Hg HN Hsz Hb Hlen Hk Es HK) as (i & c' & L' & E & _).
    unfold addLocalEntry. rewrite decide_False, E by done. eauto.
Qed.

(** Two ways to break a cache.  [removeLocalEntry] of a known key succeeds, but
    the sizes of the lists and the number of entries stay and the slot keeps its
    freed key: looking up the removed key, or any unknown one, reads freed memory.
    An [addLocalEntry] that cannot allocate the key returns R_ERROR, but its entry
    stays with a NULL key: looking up any unknown key dereferences it. *)
Theorem LocalCache_poisoned Cache t s key k sf ent sf0 ent0 : t <> ALL -> cache_rep K (Cache t) s ->
  length key = K -> length k = K -> flags k s = None ->
  (flags key s <> None -> exists Cache', removeLocalEntry (Some key) (Z.of_nat K) t Cache = Some (R_SUCCESS, Cache') /\
     c_listSize (Cache' t) = c_listSize (Cache t) /\ c_entries (Cache' t) = c_entries (Cache t) /\
     checkLocalEntry (Some key) (Z.of_nat K) (Some sf0) (Some ent0) t Cache' = None /\
     checkLocalEntry (Some k) (Z.of_nat K) (Some sf0) (Some ent0) t Cache' = None) /\
  (exists Cache', addLocalEntry false (Some key) (Z.of_nat K) sf ent t Cache = Some (R_ERROR, Cache') /\
     checkLocalEntry (Some k) (Z.of_nat K) (Some sf0) (Some ent0) t Cache' = None).
Proof.
  intros Ht Hrep HK HKk Hf. split.
  - intros Hin. destruct (remove_poison K (Cache t) s key Hrep HK Hin) as (c' & E & Hls & Hen & Hc).
    exists (<[t := c']> Cache). unfold removeLocalEntry, checkLocalEntry. rewrite !decide_False, E by done.
    rewrite fn_lookup_insert. split_and!; try done; rewrite Hc by (tauto || done); done.
  - destruct (add_failure K (Cache t) s key sf ent Hrep HK) as (c' & E & Hc).
    exists (<[t := c']> Cache). unfold addLocalEntry, checkLocalEntry. rewrite !decide_False, E by done.
    split; [done|]. by rewrite fn_lookup_insert, Hc.
Qed.

(** [clear_one] on a cache in order. *)
Lemma clear_one_spec Cache j s : cache_rep K (Cache j) s -> j <> ALL ->
  exists c, clear_one j Cache = Some (<[GOODHASH := mkCACHE (c_size (<[j := c]> Cache GOODHASH))
      (c_entries (<[j := c]> Cache GOODHASH)) (fun _ => 0) (c_target (<[j := c]> Cache GOODHASH))
      (fun _ => None) (fun _ => None) (c_entrylist (<[j := c]> Cache GOODHASH))]> (<[j := c]> Cache)) /\
    c_size c = c_size (Cache j) /\ c_entries c = 0%nat /\ c_target c = c_size (Cache j) /\
    c_listSize c = c_listSize (Cache j) /\ c_LRU c = c_LRU (Cache j) /\
    length (c_entrylist c) = length (c_entrylist (Cache j)) /\
    (forall i, (i < c_entries (Cache j))%nat -> exists e, c_entrylist c !! i = Some e /\ e_key e = KFreed).
Proof.
  intros (L & Hg & HN & Hsz & Hb & Hlen & Hk & _) Hj. unfold clear_one.
  destruct (destroy_loop_frees (c_entries (Cache j)) 0 (Cache j)) as (es & -> & Hl & Hf & _).
  { intros i Hi. destruct (Hk i ltac:(lia)) as (e & bs & ? & ? & _). eauto. }
  cbn [mbind option_bind]. eexists. split; [done|]. simpl. split_and!; try done. intros i Hi. apply Hf. lia.
Qed.

(** [clearLocalEntry (ALL)] empties the cache of good hashes only.  The lists of
    the cache of bad hashes keep their sizes and ends, because the source resets
    [Cache[0]] each time; when T1 was full, the next [addLocalEntry] of a bad hash
    purges a stale entry and frees its key a second time. *)
Theorem clearLocalEntry_incomplete Cache sg sb su ok key size sf ent :
  cache_rep K (Cache GOODHASH) sg -> cache_rep K (Cache BADHASH) sb -> cache_rep K (Cache URL) su ->
  exists Cache', clearLocalEntry ALL Cache = Some (R_SUCCESS, Cache') /\
    cache_rep K (Cache' GOODHASH) (arc_empty (c_size (Cache GOODHASH))) /\
    c_entries (Cache' BADHASH) = 0%nat /\ c_listSize (Cache' BADHASH) = c_listSize (Cache BADHASH) /\
    (len (t1 sb) = c_size (Cache BADHASH) -> addLocalEntry ok key size sf ent BADHASH Cache' = None).
Proof.
  intros Hg Hb Hu. unfold clearLocalEntry.
  destruct (clear_one_spec Cache GOODHASH sg Hg ltac:(done)) as (cg & -> & G1 & G2 & G3 & _ & _ & G4 & _).
  cbn [mbind option_bind]. match goal with |- context [clear_one BADHASH ?c] => set (C1 := c) end.
  destruct (clear_one_spec C1 BADHASH sb ltac:(done) ltac:(done)) as (cb & -> & B1 & B2 & B3 & B4 & B5 & B6 & B7).
  cbn [mbind option_bind]. match goal with |- context [clear_one URL ?c] => set (C2 := c) end.
  destruct (clear_one_spec C2 URL su ltac:(done) ltac:(done)) as (cu & -> & _).
  cbn [mbind option_bind]. eexists. split; [done|]. split_and!.
  - set (c0 := mkCACHE (c_size cg) (c_entries cg) (fun _ => 0) (c_target cg) (fun _ => None) (fun _ => None) (c_entrylist cg)).
    change (cache_rep K c0 (arc_empty (c_size (Cache GOODHASH)))). rewrite <- G1.
    apply (empty_rep K c0); try done; simpl.
    + congruence.
    + unfold sized. destruct Hg as (_ & _ & _ & Hz & _). simpl. by rewrite G1.
    + destruct Hg as (_ & _ & _ & _ & _ & Hz & _). by rewrite G4, G1.
  - by fns.
  - by fns.
  - intros Hfull. unfold addLocalEntry. rewrite decide_False by done.
    match goal with |- context [add_cache ok key size sf ent ?c] => change c with cb end.
    destruct Hb as (L & [Hl Hc _] & HN & [Hp Hm] & (_ & H2 & _) & _ & Hk & -> & _).
    simpl in Hfull, H2. rewrite length_fmap in Hfull.
    destruct (L LT_T1) as [|i xs] eqn:EL; [simpl in Hfull; lia|].
    destruct (B7 i) as (e & He & Hke); [apply (l_slot _ _ Hl); exists LT_T1; rewrite EL; set_solver|].
    change (C1 BADHASH) with (Cache BADHASH) in *.
    rewrite (stale_add _ i e); try done.
    + rewrite B5, (l_LRU _ _ Hl), EL; done.
    + rewrite B4, B1, Hc, EL by done. done.
    + rewrite B4, Hc by done. lia.
    + rewrite B1. lia.
Qed.
End Reachable.

(** ** Concrete caches *)

Module cache_demo.
(** What the array holds before it is used. *)
Definition garbage : ENTRY := mkENTRY (Some 9%nat) None LT_T2 3 KFreed 9 9.

(** A cache of two good hashes and one bad one, each of one byte. *)
Definition start : CacheType -> CACHE := initcache garbage 2 1 [].

Definition run {R} (o : option (R * (CacheType -> CACHE))) (C : CacheType -> CACHE) : CacheType -> CACHE :=
  match o with Some (_, C') => C' | None => C end.

Definition one : CacheType -> CACHE := run (addLocalEntry true (Some [7]) 1 5 6 BADHASH start) start.
Definition state1 : arc item := miss 1 (mkItem [7] 5 6) (arc_empty 1).

Lemma start_rep t : t <> ALL -> exists s, cache_rep 1 (start t) s.
Proof. intros Ht. eexists. apply initcache_rep; done || (unfold in_limit; lia). Qed.

Lemma one_rep : cache_rep 1 (one BADHASH) state1 /\ c_size (one BADHASH) = 1 /\
  forall t, t <> BADHASH -> one t = start t.
Proof.
  assert (H : cache_rep 1 (start BADHASH) (arc_empty 1)).
  { apply (initcache_rep 1 garbage 2 1 BADHASH); done || (unfold in_limit; lia). }
  destruct (add_spec 1 start BADHASH (arc_empty 1) [7] 5 6 ltac:(done) H eq_refl eq_refl) as (C & E & H1 & H2 & H3).
  unfold one. change 1 with (Z.of_nat 1). rewrite E. simpl. split_and!; [exact H1| |exact H3]. by rewrite H2.
Qed.

Lemma one_other t : t <> ALL -> exists s, cache_rep 1 (one t) s.
Proof.
  intros Ht. destruct (decide (t = BADHASH)) as [->|Hb]; [eexists; apply one_rep|].
  rewrite (proj2 (proj2 one_rep) t Hb). by apply start_rep.
Qed.

(** A lookup of an unknown key and its addition. *)
Lemma filled_reachable : exists C, reachable 1 C /\ cache_rep 1 (C BADHASH) state1.
Proof.
  assert (Hr : reachable 1 start) by (apply reach_init; unfold in_limit; lia).
  assert (H : cache_rep 1 (start BADHASH) (arc_empty 1)).
  { apply (initcache_rep 1 garbage 2 1 BADHASH); done || (unfold in_limit; lia). }
  destruct (check_spec 1 start BADHASH (arc_empty 1) [7] 0 0 ltac:(done) H eq_refl) as (C0 & E0 & H0 & Hs & _).
  destruct (add_spec 1 C0 BADHASH (arc_empty 1) [7] 5 6 ltac:(done) H0 eq_refl eq_refl) as (C1 & E1 & H1 & _).
  exists C1. rewrite Hs in H1. split; [|exact H1]. eapply (reach_add 1); [exact Hr| |exact E0|exact E1]. done.
Qed.
End cache_demo.

Section Witnesses.
Import cache_demo.

Lemma checkLocalEntry_refines_witness :
  cache_rep 1 (one BADHASH) state1 /\
  exists Cache', checkLocalEntry (Some [7]) 1 (Some 0) (Some 0) BADHASH one = Some (R_FOUND, Some 5, Some 6, Cache') /\
    cache_rep 1 (Cache' BADHASH) (mkArc [] [mkItem [7] 5 6] [] [] 1) /\ (forall t', t' <> BADHASH -> Cache' t' = one t').
Proof.
  split; [apply one_rep|].
  destruct (checkLocalEntry_refines 1 one BADHASH state1 [7] 0 0 ltac:(done) (proj1 one_rep) eq_refl) as (C & E & H1 & H2).
  exists C. split_and!; [exact E| |exact H2]. rewrite (proj1 (proj2 one_rep)) in H1. exact H1.
Defined.

Lemma addLocalEntry_refines_witness :
  cache_rep 1 (one BADHASH) state1 /\
  exists Cache', addLocalEntry true (Some [8]) 1 1 2 BADHASH one = Some (R_SUCCESS, Cache') /\
    cache_rep 1 (Cache' BADHASH) (mkArc [mkItem [8] 1 2] [] [] [] 1) /\ (forall t', t' <> BADHASH -> Cache' t' = one t').
Proof.
  split; [apply one_rep|].
  destruct (addLocalEntry_refines 1 one BADHASH state1 [8] 1 2 ltac:(done) (proj1 one_rep) eq_refl eq_refl) as (C & E & H1 & H2).
  exists C. split_and!; [exact E| |exact H2]. rewrite (proj1 (proj2 one_rep)) in H1. exact H1.
Defined.

Lemma addLocalEntry_lookup_witness :
  cache_rep 1 (one BADHASH) state1 /\
  exists Cache1 Cache2, addLocalEntry true (Some [8]) 1 1 2 BADHASH one = Some (R_SUCCESS, Cache1) /\
    checkLocalEntry (Some [7]) 1 (Some 0) (Some 0) BADHASH Cache1 = Some (R_NOT_FOUND, Some 0, Some 0, Cache2).
Proof.
  split; [apply one_rep|].
  destruct (addLocalEntry_lookup 1 one BADHASH state1 [8] 1 2 [7] 0 0 ltac:(done) (proj1 one_rep) eq_refl eq_refl eq_refl)
    as (C1 & C2 & E1 & E2).
  exists C1, C2. split; [exact E1|]. rewrite (proj1 (proj2 one_rep)) in E2. exact E2.
Defined.

Lemma updateLocalEntry_lookup_witness :
  cache_rep 1 (one BADHASH) state1 /\
  exists Cache1 Cache2, updateLocalEntry (Some [7]) 1 1 2 BADHASH one = Some (R_SUCCESS, Cache1) /\
    checkLocalEntry (Some [7]) 1 (Some 0) (Some 0) BADHASH Cache1 = Some (R_FOUND, Some 1, Some 2, Cache2).
Proof.
  split; [apply one_rep|].
  exact (updateLocalEntry_lookup 1 one BADHASH state1 [7] 1 2 [7] 0 0 ltac:(done) (proj1 one_rep) eq_refl eq_refl).
Defined.

Lemma LocalCache_reachable_witness :
  exists Cache, reachable 1 Cache /\
    (exists s, cache_rep 1 (Cache BADHASH) s /\ bounded (c_size (Cache BADHASH)) s) /\
    is_Some (checkLocalEntry (Some [7]) 1 (Some 0) (Some 0) BADHASH Cache) /\
    is_Some (updateLocalEntry (Some [7]) 1 0 0 BADHASH Cache) /\
    is_Some (addLocalEntry false (Some [7]) 1 0 0 BADHASH Cache).
Proof.
  destruct filled_reachable as (C & Hr & _). exists C. split; [exact Hr|].
  exact (LocalCache_reachable 1 C BADHASH [7] 0 0 false Hr ltac:(done) eq_refl).
Defined.

Lemma LocalCache_poisoned_witness :
  cache_rep 1 (one BADHASH) state1 /\
  (exists Cache', removeLocalEntry (Some [7]) 1 BADHASH one = Some (R_SUCCESS, Cache') /\
     checkLocalEntry (Some [8]) 1 (Some 0) (Some 0) BADHASH Cache' = None) /\
  (exists Cache', addLocalEntry false (Some [7]) 1 0 0 BADHASH one = Some (R_ERROR, Cache') /\
     checkLocalEntry (Some [8]) 1 (Some 0) (Some 0) BADHASH Cache' = None).
Proof.
  split; [apply one_rep|].
  destruct (LocalCache_poisoned 1 one BADHASH state1 [7] [8] 0 0 0 0 ltac:(done) (proj1 one_rep) eq_refl eq_refl eq_refl)
    as [H1 H2].
  split; [|exact H2]. destruct (H1 ltac:(done)) as (C & E & _ & _ & _ & E'). exists C. split; [exact E|exact E'].
Defined.

Lemma clearLocalEntry_incomplete_witness :
  cache_rep 1 (one BADHASH) state1 /\
  exists Cache', clearLocalEntry ALL one = Some (R_SUCCESS, Cache') /\
    addLocalEntry true (Some [8]) 1 0 0 BADHASH Cache' = None.
Proof.
  split; [apply one_rep|].
  destruct (one_other GOODHASH ltac:(done)) as [sg Hg]. destruct (one_other URL ltac:(done)) as [su Hu].
  destruct (clearLocalEntry_incomplete 1 one sg state1 su true (Some [8]) 1 0 0 Hg (proj1 one_rep) Hu)
    as (C & E & _ & _ & _ & H).
  exists C. split; [exact E|]. apply H. by rewrite (proj1 (proj2 one_rep)).
Defined.
End Witnesses.
