(* ===== verification/ConfigFile.v ===== *)
(** * Configuration files: src/config_file.c

    A table of keys says where the value of a key goes and what type it has; a value comes
    from the environment or, if the environment has none, from the file.  The variables a
    table points to are a finite map from their names; a pointer to a variable is its name.
    libconfig is a parameter (class [LibConfig]), and so are the environment and the file
    system.  A run crashes ([None]), or returns with a status and the variables it leaves.

    A local variable that was not assigned yet is [None], and the variable that it is copied
    to becomes [VIndet]. *)

From S2P Require Import Prelude CLib Hash LibUuid Prelude.

Local Open Scope Z_scope.

(** ** The C library *)

(** [strncasecmp (a, b, n)], up to its sign. *)
Fixpoint strncasecmp (a b : string) (n : nat) : Z :=
  match n with
  | O => 0
  | S n' =>
      match a, b with
      | EmptyString, EmptyString => 0
      | EmptyString, String _ _ => -1
      | String _ _, EmptyString => 1
      | String x a', String y b' =>
          if code (to_lower x) == code (to_lower y) then strncasecmp a' b' n'
          else if code (to_lower x) <? code (to_lower y) then -1 else 1
      end
  end.

Definition strcasecmp (a b : string) : Z := strncasecmp a b (S (String.length a)).

(** The value of a digit in some base up to 36. *)
Definition digit_value (c : ascii) : Z :=
  if isdigit c then code c - 48
  else let l := code (to_lower c) in if (97 <=? l) && (l <=? 122) then l - 87 else 36.

Fixpoint scan_base (base : Z) (s : string) (acc : Z) : Z * string :=
  match s with
  | EmptyString => (acc, EmptyString)
  | String c s' => if digit_value c <? base then scan_base base s' (base * acc + digit_value c) else (acc, s)
  end.

(** The prefix that decides the base: [0x] before a hexadecimal digit, [0], or none. *)
Definition base_of (s : string) : Z * string :=
  match s with
  | String c (String x ((String d _) as s')) =>
      if (code c == 48) && (code (to_lower x) == 120) && isxdigit d then (16, s')
      else if code c == 48 then (8, s) else (10, s)
  | String c _ => if code c == 48 then (8, s) else (10, s)
  | EmptyString => (10, s)
  end.

Definition LONG_MAX : Z := 2 ^ 63 - 1.
Definition LONG_MIN : Z := - 2 ^ 63.

(** [strtol (s, &end, 0)]: the value, the text at [end], which is [s] when nothing was
    converted, and whether errno is ERANGE. *)
Definition strtol (s : string) : Z * string * bool :=
  let '(neg, t) :=
    match skip_space s with
    | String c t => if code c == 45 then (true, t) else if code c == 43 then (false, t) else (false, String c t)
    | EmptyString => (false, EmptyString)
    end in
  let '(base, t) := base_of t in
  match t with
  | String c _ =>
      if digit_value c <? base then
        let '(n, rest) := scan_base base t 0 in
        let v := if neg : bool then - n else n in
        if LONG_MAX <? v then (LONG_MAX, rest, true)
        else if v <? LONG_MIN then (LONG_MIN, rest, true)
        else (v, rest, false)
      else (0, s, false)
  | EmptyString => (0, s, false)
  end.

(** The conversion of a [long] to an [int]. *)
Definition s32 (x : Z) : Z := let y := u32 x in if y <? 2 ^ 31 then y else y - 2 ^ 32.

(** ** libconfig *)

(** The functions of libconfig that are called; [None] is NULL or CONFIG_FALSE. *)
Class LibConfig := {
  config_t : Type;
  config_setting_t : Type;
  config_init : config_t;
  config_lookup : config_t -> string -> option config_setting_t;
  config_lookup_int : config_t -> string -> option Z;
  config_lookup_string : config_t -> string -> option string;
  config_setting_is_array : config_setting_t -> bool;
  config_setting_is_list : config_setting_t -> bool;
  config_setting_length : config_setting_t -> Z;
  config_setting_get_int_elem : config_setting_t -> Z -> Z;
  config_setting_get_string_elem : config_setting_t -> Z -> option string;
  config_setting_get_elem : config_setting_t -> Z -> option config_setting_t;
  config_setting_lookup_int : config_setting_t -> string -> option Z;
  config_setting_lookup_string : config_setting_t -> string -> option string
}.

(** The values of an [int]. *)
Definition int32 (z : Z) : Prop := - 2 ^ 31 <= z < 2 ^ 31.

(** What its manual says of them: an empty configuration has no settings, integers and
    lengths are of type [int], and an array or a list has as many elements as its length. *)
Class LibConfigLaws `{LibConfig} := {
  lookup_init key : config_lookup config_init key = None;
  lookup_int_range c key n : config_lookup_int c key = Some n -> int32 n;
  int_elem_range s i : int32 (config_setting_get_int_elem s i);
  setting_length_range s : 0 <= config_setting_length s < 2 ^ 31;
  setting_elements s i : 0 <= i < config_setting_length s -> is_Some (config_setting_get_elem s i)
}.

(** ** Tables and variables *)

Inductive RZB_CONF_KEY_TYPE_t :=
  | RZB_CONF_KEY_TYPE_STRING | RZB_CONF_KEY_TYPE_INT | RZB_CONF_KEY_TYPE_PARSED_STRING | RZB_CONF_KEY_TYPE_UUID
  | RZB_CONF_KEY_TYPE_BOOL | RZB_CONF_KEY_TYPE_ARRAY | RZB_CONF_KEY_TYPE_LIST | RZB_CONF_KEY_TYPE_END.

(** A [parseString] stores its result when it succeeds. *)
Abbreviation parser := (string -> option Z).

Record ConfArray := mkConfArray {
  ca_type : RZB_CONF_KEY_TYPE_t;
  ca_data : string;
  ca_count : string;
  ca_parseString : option parser
}.

(** The callback of a key: NULL, a [RZBConfCallBack], a [ConfArray] or a [ConfList]. *)
Inductive RZBConfKey_t :=
  | mkConfKey (key : option string) (type : RZB_CONF_KEY_TYPE_t) (dest : option string) (callback : conf_callback)
with conf_callback :=
  | cb_null
  | cb_parse (parseString : parser)
  | cb_array (a : ConfArray)
  | cb_list (data count : string) (items : list RZBConfKey_t).

Definition ck_key (k : RZBConfKey_t) : option string := let '(mkConfKey key _ _ _) := k in key.
Definition ck_type (k : RZBConfKey_t) : RZB_CONF_KEY_TYPE_t := let '(mkConfKey _ type _ _) := k in type.
Definition ck_dest (k : RZBConfKey_t) : option string := let '(mkConfKey _ _ dest _) := k in dest.
Definition ck_callback (k : RZBConfKey_t) : conf_callback := let '(mkConfKey _ _ _ callback) := k in callback.

Section Config.
Context `{LibUuid} `{LibConfig}.

(** What a variable holds: the data of an array, or of a list row by row, is on the heap. *)
Inductive cval :=
  | VInt (z : Z) | VString (s : option string) | VBool (b : bool) | VUuid (u : uuid_t) | VIndet
  | VInts (l : list Z) | VStrings (l : list (option string)) | VUuids (l : list uuid_t) | VBools (l : list bool)
  | VRows (rows : list (list cval)).

Record RZBConfigFile := mkConfigFile { rf_type : list RZBConfKey_t; rf_config : config_t }.

Record Cfg := mkCfg { cf_vars : gmap string cval; cf_allocs : allocs; configList : list RZBConfigFile }.

Definition CfM (A : Type) : Type := Cfg -> option (A * Cfg).
Global Instance CfM_ret : MRet CfM := fun A x s => Some (x, s).
Global Instance CfM_bind : MBind CfM := fun A B f m s =>
  match m s with None => None | Some (x, s') => f x s' end.

Definition cf_crash {A} : CfM A := fun _ => None.
Definition cf_deref {A} (p : option A) : CfM A := match p with Some x => mret x | None => cf_crash end.
Definition cf_alloc : CfM bool := fun s =>
  let '(ok, o) := alloc_next (cf_allocs s) in Some (ok, mkCfg (cf_vars s) o (configList s)).
Definition set_var (x : string) (v : cval) : CfM unit := fun s =>
  Some ((), mkCfg (<[x := v]> (cf_vars s)) (cf_allocs s) (configList s)).

(** [*dest = v] *)
Definition assign_dest (dest : option string) (v : cval) : CfM unit := x ← cf_deref dest; set_var x v.

(** ** The environment *)

Section Environment.
Variable getenv : string -> option string.

(** The number of bytes of the name, with its prefix and terminator. *)
Fixpoint env_length (key : string) (len : Z) : Z :=
  match key with
  | EmptyString => len
  | String c key' => env_length key' (if code c == 46 then len + 2 else len + 1)
  end.

(** [name[pos++] = b]: out of the buffer it is a crash. *)
Definition put_byte (b : Z) (name : list Z) (pos : nat) : option (list Z * nat) :=
  if (pos <? length name)%nat then Some (<[pos := b]> name, S pos) else None.

Fixpoint env_fill (cur : string) (name : list Z) (pos : nat) : option (list Z * nat) :=
  match cur with
  | EmptyString => Some (name, pos)
  | String c cur' =>
      '(name, pos) ← (if code c == 46 then '(name, pos) ← put_byte 95 name pos; put_byte 95 name pos
                      else put_byte (code c) name pos);
      env_fill cur' name pos
  end.

(** [memcpy (name, s, strlen (s))] *)
Fixpoint env_prefix (s : string) (name : list Z) (pos : nat) : option (list Z * nat) :=
  match s with
  | EmptyString => Some (name, pos)
  | String c s' => '(name, pos) ← put_byte (code c) name pos; env_prefix s' name pos
  end.

Definition configKeyToEnvName (key : string) : CfM (option string) :=
  let len := env_length key 5 in
  ok ← cf_alloc;
  if negb ok then mret None
  else
    '(name, pos) ← cf_deref (env_prefix "RZB_" (replicate (Z.to_nat len) 0) 0);
    '(name, pos) ← cf_deref (env_fill key name pos);
    '(name, pos) ← cf_deref (put_byte 0 name pos);
    mret (Some (cstr_of_bytes name)).

Definition getEnvOverride (key : option string) : CfM (option string) :=
  match key with
  | None => mret None
  | Some key =>
      envName ← configKeyToEnvName key;
      mret (envName ≫= getenv)
  end.

(** A table ends with a key of type END; running past its last entry is a crash. *)
Fixpoint hasEnvOverride (block : list RZBConfKey_t) : CfM bool :=
  match block with
  | [] => cf_crash
  | k :: block' =>
      match ck_type k with
      | RZB_CONF_KEY_TYPE_END => mret false
      | _ =>
          value ← getEnvOverride (ck_key k);
          match value with
          | Some _ => mret true
          | None => hasEnvOverride block'
          end
      end
  end.

Definition parseEnvValue (value : string) (block : RZBConfKey_t) : CfM bool :=
  match ck_type block with
  | RZB_CONF_KEY_TYPE_INT =>
      let '(integerValue, rest, erange) := strtol value in
      let rest := skip_space rest in
      if erange || (String.length rest =? String.length value)%nat || negb (String.length rest =? 0)%nat ||
         (s32 integerValue != integerValue)
      then mret false
      else assign_dest (ck_dest block) (VInt (s32 integerValue)) ;; mret true
  | RZB_CONF_KEY_TYPE_STRING => assign_dest (ck_dest block) (VString (Some value)) ;; mret true
  | RZB_CONF_KEY_TYPE_PARSED_STRING =>
      match ck_callback block with
      | cb_parse parseString =>
          match parseString value with
          | None => mret false
          | Some n => assign_dest (ck_dest block) (VInt n) ;; mret true
          end
      | cb_null => mret false
      | _ => cf_crash
      end
  | RZB_CONF_KEY_TYPE_UUID =>
      match uuid_parse value with
      | None => mret false
      | Some u => assign_dest (ck_dest block) (VUuid u) ;; mret true
      end
  | RZB_CONF_KEY_TYPE_BOOL =>
      if strcasecmp value "true" == 0 then assign_dest (ck_dest block) (VBool true) ;; mret true
      else if strcasecmp value "false" == 0 then assign_dest (ck_dest block) (VBool false) ;; mret true
      else mret false
  | _ => mret false
  end.

(** ** Arrays and lists *)

(** [strncasecmp] with the two texts of a bool. *)
Definition parse_bool (s : string) : option bool :=
  if strncasecmp s "true" 4 == 0 then Some true
  else if strncasecmp s "false" 5 == 0 then Some false
  else None.

(** The elements of an array that are strings: each is given to [f], which crashes when it is
    given NULL; [None] when one of them cannot be parsed. *)
Fixpoint array_elems {A} (f : string -> option A) (config : config_setting_t) (i : Z) (n : nat) : CfM (option (list A)) :=
  match n with
  | O => mret (Some [])
  | S n' =>
      tmp ← cf_deref (config_setting_get_string_elem config i);
      match f tmp with
      | None => mret None
      | Some x => rest ← array_elems f config (i + 1) n'; mret (cons x <$> rest)
      end
  end.

(** The data of an array with [size] elements; [None] when the function returns false. *)
Definition array_data (config : config_setting_t) (a : ConfArray) (size : nat) : CfM (option cval) :=
  let allocated (m : CfM (option cval)) : CfM (option cval) := ok ← cf_alloc; if ok : bool then m else mret None in
  match ca_type a with
  | RZB_CONF_KEY_TYPE_INT =>
      allocated (mret (Some (VInts ((fun i => config_setting_get_int_elem config (Z.of_nat i)) <$> seq 0 size))))
  | RZB_CONF_KEY_TYPE_STRING =>
      allocated (mret (Some (VStrings ((fun i => config_setting_get_string_elem config (Z.of_nat i)) <$> seq 0 size))))
  | RZB_CONF_KEY_TYPE_PARSED_STRING =>
      allocated (
        parseString ← cf_deref (ca_parseString a);
        l ← array_elems parseString config 0 size; mret (VInts <$> l))
  | RZB_CONF_KEY_TYPE_UUID => allocated (l ← array_elems uuid_parse config 0 size; mret (VUuids <$> l))
  | RZB_CONF_KEY_TYPE_BOOL => allocated (l ← array_elems parse_bool config 0 size; mret (VBools <$> l))
  | _ => mret None
  end.

Definition parseArray (config : config_setting_t) (block : RZBConfKey_t) : CfM bool :=
  match ck_callback block with
  | cb_array arrayConf =>
      let size := config_setting_length config in
      if size == 0 then set_var (ca_count arrayConf) (VInt 0) ;; mret true
      else
        data ← array_data config arrayConf (Z.to_nat size);
        match data with
        | None => mret false
        | Some data => set_var (ca_count arrayConf) (VInt size) ;; set_var (ca_data arrayConf) data ;; mret true
        end
  | _ => cf_crash
  end.

(** The member of an item for one key.  [tmp] is the string that was looked up last, by this
    or an earlier item: a lookup that fails leaves it as it is. *)
Definition list_member (item : config_setting_t) (cur : RZBConfKey_t) (tmp : option string) : CfM (option (cval * option string)) :=
  key ← cf_deref (ck_key cur);
  let looked := match config_setting_lookup_string item key with Some s => Some s | None => tmp end in
  match ck_type cur with
  | RZB_CONF_KEY_TYPE_INT => mret (Some (VInt (default 0 (config_setting_lookup_int item key)), tmp))
  | RZB_CONF_KEY_TYPE_STRING =>
      mret (Some (match looked with Some s => VString (Some s) | None => VIndet end, looked))
  | RZB_CONF_KEY_TYPE_PARSED_STRING =>
      s ← cf_deref looked;
      match ck_callback cur with
      | cb_parse parseString => mret ((fun n => (VInt n, looked)) <$> parseString s)
      | _ => cf_crash
      end
  | RZB_CONF_KEY_TYPE_UUID => s ← cf_deref looked; mret ((fun u => (VUuid u, looked)) <$> uuid_parse s)
  | RZB_CONF_KEY_TYPE_BOOL => s ← cf_deref looked; mret ((fun b => (VBool b, looked)) <$> parse_bool s)
  | _ => mret None
  end.

Fixpoint list_item (item : config_setting_t) (items : list RZBConfKey_t) (tmp : option string) : CfM (option (list cval * option string)) :=
  match items with
  | [] => cf_crash
  | cur :: items' =>
      match ck_type cur with
      | RZB_CONF_KEY_TYPE_END => mret (Some ([], tmp))
      | _ =>
          r ← list_member item cur tmp;
          match r with
          | None => mret None
          | Some (v, tmp) =>
              rest ← list_item item items' tmp;
              mret ((fun '(vs, tmp) => (v :: vs, tmp)) <$> rest)
          end
      end
  end.

Fixpoint list_rows (config : config_setting_t) (items : list RZBConfKey_t) (i : Z) (n : nat) (tmp : option string)
    : CfM (option (list (list cval))) :=
  match n with
  | O => mret (Some [])
  | S n' =>
      item ← cf_deref (config_setting_get_elem config i);
      row ← list_item item items tmp;
      match row with
      | None => mret None
      | Some (vs, tmp) => rest ← list_rows config items (i + 1) n' tmp; mret (cons vs <$> rest)
      end
  end.

Definition scalar (t : RZB_CONF_KEY_TYPE_t) : bool :=
  match t with
  | RZB_CONF_KEY_TYPE_INT | RZB_CONF_KEY_TYPE_STRING | RZB_CONF_KEY_TYPE_PARSED_STRING | RZB_CONF_KEY_TYPE_UUID | RZB_CONF_KEY_TYPE_BOOL => true
  | _ => false
  end.

(** Whether the size of an item can be computed: its members are scalars. *)
Fixpoint item_size_known (items : list RZBConfKey_t) : CfM bool :=
  match items with
  | [] => cf_crash
  | cur :: items' =>
      match ck_type cur with
      | RZB_CONF_KEY_TYPE_END => mret true
      | t => if scalar t then item_size_known items' else mret false
      end
  end.

Definition parseList (config : config_setting_t) (block : RZBConfKey_t) : CfM bool :=
  match ck_callback block with
  | cb_list data count items =>
      let size := config_setting_length config in
      if size == 0 then set_var count (VInt 0) ;; mret true
      else
        known ← item_size_known items;
        if negb known then mret false
        else
          ok ← cf_alloc;
          if negb ok then mret false
          else
            rows ← list_rows config items 0 (Z.to_nat size) None;
            match rows with
            | None => mret false
            | Some rows => set_var data (VRows rows) ;; set_var count (VInt size) ;; mret true
            end
  | _ => cf_crash
  end.

(** ** A table *)

(** The value of a key from the file; [t] is the last integer that was read. *)
Definition parse_setting (config : config_t) (setting : config_setting_t) (key : string) (block : RZBConfKey_t) (t : option Z)
    : CfM (bool * option Z) :=
  let string_value (k : string -> CfM (bool * option Z)) : CfM (bool * option Z) :=
    match config_lookup_string config key with None => mret (false, t) | Some type => k type end in
  match ck_type block with
  | RZB_CONF_KEY_TYPE_INT =>
      let status := config_lookup_int config key in
      let t := match status with Some n => Some n | None => t end in
      assign_dest (ck_dest block) (match t with Some n => VInt n | None => VIndet end) ;;
      mret (match status with Some _ => true | None => false end, t)
  | RZB_CONF_KEY_TYPE_STRING =>
      string_value (fun type => assign_dest (ck_dest block) (VString (Some type)) ;; mret (true, t))
  | RZB_CONF_KEY_TYPE_PARSED_STRING =>
      string_value (fun type =>
        match ck_callback block with
        | cb_parse parseString =>
            match parseString type with
            | None => mret (false, t)
            | Some n => assign_dest (ck_dest block) (VInt n) ;; mret (true, Some n)
            end
        | _ => cf_crash
        end)
  | RZB_CONF_KEY_TYPE_UUID =>
      string_value (fun type =>
        match uuid_parse type with
        | None => mret (false, t)
        | Some u => assign_dest (ck_dest block) (VUuid u) ;; mret (true, t)
        end)
  | RZB_CONF_KEY_TYPE_BOOL =>
      string_value (fun type =>
        match parse_bool type with
        | None => mret (false, t)
        | Some b => assign_dest (ck_dest block) (VBool b) ;; mret (true, t)
        end)
  | RZB_CONF_KEY_TYPE_ARRAY =>
      if negb (config_setting_is_array setting) then mret (false, t)
      else ok ← parseArray setting block; mret (ok, t)
  | RZB_CONF_KEY_TYPE_LIST =>
      if negb (config_setting_is_list setting) then mret (false, t)
      else ok ← parseList setting block; mret (ok, t)
  | RZB_CONF_KEY_TYPE_END => mret (false, t)
  end.

Fixpoint parse_keys (config : config_t) (block : list RZBConfKey_t) (t : option Z) : CfM bool :=
  match block with
  | [] => cf_crash
  | k :: block' =>
      match ck_type k with
      | RZB_CONF_KEY_TYPE_END => mret true
      | _ =>
          envValue ← getEnvOverride (ck_key k);
          match envValue with
          | Some value =>
              ok ← parseEnvValue value k;
              if ok : bool then parse_keys config block' t else mret false
          | None =>
              key ← cf_deref (ck_key k);
              match config_lookup config key with
              | None => parse_keys config block' t
              | Some setting =>
                  '(ok, t) ← parse_setting config setting key k t;
                  if ok : bool then parse_keys config block' t else mret false
              end
          end
      end
  end.

Definition parseBlock (config : config_t) (block : list RZBConfKey_t) : CfM bool := parse_keys config block None.

(** ** Files *)

(** The build's directory, the outcomes of [open] and [fstat], and what libconfig reads. *)
Variable ETC_DIR : string.
Variable open_file : string -> bool.
Variable fstat_file : string -> bool.
Variable config_read_file : string -> option config_t.

Definition getConfigFile (configDir configFile : option string) : CfM (option string) :=
  let configDir := default ETC_DIR configDir in
  match configFile with
  | None => mret None
  | Some configFile =>
      ok ← cf_alloc;
      mret (if ok : bool then Some (configDir +:+ "/" +:+ configFile) else None)
  end.

Definition testFile (configfile : option string) : bool :=
  match configfile with
  | None => false
  | Some p => open_file p && fstat_file p
  end.

Definition push_file (f : RZBConfigFile) : CfM unit := fun s =>
  Some ((), mkCfg (cf_vars s) (cf_allocs s) (f :: configList s)).

Definition readMyConfig (configDir configFile : option string) (config_fmt : list RZBConfKey_t) : CfM bool :=
  match configFile with
  | None => mret false
  | Some _ =>
      configfile ← getConfigFile configDir configFile;
      ok ← cf_alloc;
      if negb ok then mret false
      else
        let fileExists := testFile configfile in
        allowEnvOnly ← hasEnvOverride config_fmt;
        if negb fileExists && negb allowEnvOnly then mret false
        else
          let config := if fileExists then configfile ≫= config_read_file else Some config_init in
          match config with
          | None => mret false
          | Some config => push_file (mkConfigFile config_fmt config) ;; parseBlock config config_fmt
          end
  end.

Definition rzbConfCleanUp : CfM unit := fun s => Some ((), mkCfg (cf_vars s) (cf_allocs s) []).
End Environment.
End Config.

Definition parseRoutingType (s : string) : option Z :=
  if strncasecmp s "opaque" 6 == 0 then Some 0
  else if strncasecmp s "transparent" 11 == 0 then Some 1
  else None.
