(* ===== verification/RuntimeConfig.v ===== *)
(** * The configuration of the API: src/runtime_config.c

    The static variables of the file by their names, the table that [readMyConfig] fills
    them by, the texts of the parsed keys, the validation of what was read, and the
    functions the other components read the configuration with. *)

From S2P Require Import Prelude CLib Hash LibUuid ConfigFile Prelude.

Local Open Scope Z_scope.

(** ** Texts *)

(** Each entry is a text of [strncasecmp], compared to its length, and a value; the first
    that matches counts. *)
Fixpoint choose (l : list (string * Z)) (s : string) : option Z :=
  match l with
  | [] => None
  | (name, v) :: l' => if strncasecmp s name (String.length name) == 0 then Some v else choose l' s
  end.

Definition parseHashType : parser :=
  choose [("MD5", HASH_TYPE_MD5); ("SHA1", HASH_TYPE_SHA1); ("SHA224", HASH_TYPE_SHA224); ("SHA256", HASH_TYPE_SHA256);
          ("SHA512", HASH_TYPE_SHA512)].

Definition RZB_LOG_DEST_FILE : Z := 0.
Definition RZB_LOG_DEST_SYSLOG : Z := 1.
Definition RZB_LOG_DEST_ERR : Z := 2.

Definition parseLogDest : parser :=
  choose [("syslog", RZB_LOG_DEST_SYSLOG); ("stderr", RZB_LOG_DEST_ERR); ("file", RZB_LOG_DEST_FILE)].

(** The levels and facilities of syslog.h. *)
Definition LOG_INFO : Z := 6.

Definition parseLogLevel : parser :=
  choose [("emergency", 0); ("alert", 1); ("critical", 2); ("error", 3); ("warning", 4); ("notice", 5); ("info", LOG_INFO);
          ("debug", 7)].

Definition parseLogFacility : parser :=
  choose [("daemon", Z.shiftl 3 3); ("user", Z.shiftl 1 3); ("local0", Z.shiftl 16 3); ("local1", Z.shiftl 17 3);
          ("local2", Z.shiftl 18 3); ("local3", Z.shiftl 19 3); ("local4", Z.shiftl 20 3); ("local5", Z.shiftl 21 3);
          ("local6", Z.shiftl 22 3); ("local7", Z.shiftl 23 3)].

(** ** The table *)

Definition int_key (key dest : string) : RZBConfKey_t := mkConfKey (Some key) RZB_CONF_KEY_TYPE_INT (Some dest) cb_null.
Definition string_key (key dest : string) : RZBConfKey_t := mkConfKey (Some key) RZB_CONF_KEY_TYPE_STRING (Some dest) cb_null.
Definition bool_key (key dest : string) : RZBConfKey_t := mkConfKey (Some key) RZB_CONF_KEY_TYPE_BOOL (Some dest) cb_null.
Definition parsed_key (key dest : string) (f : parser) : RZBConfKey_t :=
  mkConfKey (Some key) RZB_CONF_KEY_TYPE_PARSED_STRING (Some dest) (cb_parse f).

Definition backupLocalitiesArray : ConfArray :=
  mkConfArray RZB_CONF_KEY_TYPE_INT "sg_backupLocalities" "sg_backupLocalityCount" None.

Definition global_config : list RZBConfKey_t := [
  int_key "Global.MaxThreads" "sg_iThreadLimit";
  int_key "Global.MaxBlockSize" "sg_iMaxBlockSize";
  parsed_key "Global.HashType" "sg_iHashType" parseHashType;
  int_key "Global.HelloTime" "sg_iHelloTime";
  int_key "Global.DeadTime" "sg_iDeadTime";
  string_key "Global.TransferPassword" "sg_sTransferPassword";
  string_key "Global.TransferMode" "sg_sTransferMode";
  int_key "Cache.GoodLimit" "sg_iCacheGoodLimit";
  int_key "Cache.BadLimit" "sg_iCacheBadLimit";
  string_key "MessageQueue.Host" "sg_sMqHost";
  int_key "MessageQueue.Port" "sg_iMqPort";
  string_key "MessageQueue.User" "sg_sMqUser";
  string_key "MessageQueue.Password" "sg_sMqPassword";
  string_key "MessageQueue.Vhost" "sg_sMqVhost";
  bool_key "MessageQueue.SSL" "sg_sMqSSL";
  int_key "MessageQueue.Prefetch" "sg_iMqPrefetch";
  parsed_key "Log.Destination" "log_dest" parseLogDest;
  parsed_key "Log.Level" "log_level" parseLogLevel;
  parsed_key "Log.Syslog_Facility" "log_facility" parseLogFacility;
  string_key "Log.File" "log_file";
  int_key "Locality.Id" "sg_localityId";
  string_key "Locality.BlockStore" "sg_localityBlockStore";
  bool_key "Locality.BlockStoreRemote" "sg_blockStoreRemote";
  mkConfKey (Some "Locality.BackupOrder") RZB_CONF_KEY_TYPE_ARRAY None (cb_array backupLocalitiesArray);
  int_key "Inspection.Threads.Initial" "sg_inspThreadsInit";
  int_key "Inspection.Threads.Max" "sg_inspThreadsMax";
  int_key "Submission.GlobalCache.Request.Threads.Initial" "sg_subGcReqThreadsInit";
  int_key "Submission.GlobalCache.Request.Threads.Max" "sg_subGcReqThreadsMax";
  int_key "Submission.GlobalCache.Response.Threads.Initial" "sg_subGcRespThreadsInit";
  int_key "Submission.GlobalCache.Response.Threads.Max" "sg_subGcRespThreadsMax";
  int_key "Submission.Transfer.Threads.Initial" "sg_subTransferThreadsInit";
  int_key "Submission.Transfer.Threads.Max" "sg_subTransferThreadsMax";
  int_key "Submission.Pool.MaxItems" "sg_blockPoolMaxItems";
  int_key "Submission.Pool.MaxSize" "sg_blockPoolMaxSize";
  int_key "Submission.Pool.MaxItemSize" "sg_blockPoolMaxSize";
  mkConfKey None RZB_CONF_KEY_TYPE_END None cb_null].

Section Runtime.
Context `{LibUuid} `{LibConfig}.

(** ** The variables *)

(** The variables before anything is read; a pointer to no array is the empty array. *)
Definition initial_vars : list (string * cval) := [
  ("sg_iThreadLimit", VInt 0);
  ("sg_iHashType", VInt 0);
  ("sg_iMaxBlockSize", VInt 0);
  ("sg_iHelloTime", VInt 0);
  ("sg_iDeadTime", VInt 0);
  ("sg_sTransferPassword", VString None);
  ("sg_sTransferMode", VString None);
  ("sg_sMqHost", VString None);
  ("sg_iMqPort", VInt 0);
  ("sg_sMqUser", VString None);
  ("sg_sMqPassword", VString None);
  ("sg_sMqVhost", VString None);
  ("sg_sMqSSL", VBool false);
  ("sg_iMqPrefetch", VInt 10);
  ("sg_iCacheGoodLimit", VInt 0);
  ("sg_iCacheBadLimit", VInt 0);
  ("log_dest", VInt RZB_LOG_DEST_ERR);
  ("log_level", VInt LOG_INFO);
  ("log_facility", VInt 0);
  ("log_file", VString None);
  ("sg_localityId", VInt 0);
  ("sg_localityBlockStore", VString None);
  ("sg_blockStoreRemote", VBool false);
  ("sg_backupLocalities", VInts []);
  ("sg_backupLocalityCount", VInt 0);
  ("sg_subGcReqThreadsInit", VInt 1);
  ("sg_subGcReqThreadsMax", VInt 5);
  ("sg_subGcRespThreadsInit", VInt 1);
  ("sg_subGcRespThreadsMax", VInt 5);
  ("sg_subTransferThreadsInit", VInt 1);
  ("sg_subTransferThreadsMax", VInt 5);
  ("sg_blockPoolMaxItems", VInt 0);
  ("sg_blockPoolMaxSize", VInt 0);
  ("sg_blockPoolMaxItemSize", VInt 0);
  ("sg_inspThreadsInit", VInt 1);
  ("sg_inspThreadsMax", VInt 5)].

Definition initial : gmap string cval := list_to_map initial_vars.

Definition int_var (x : string) (s : Cfg) : option Z := match cf_vars s !! x with Some (VInt z) => Some z | _ => None end.
Definition string_var (x : string) (s : Cfg) : option (option string) := match cf_vars s !! x with Some (VString p) => Some p | _ => None end.
Definition bool_var (x : string) (s : Cfg) : option bool := match cf_vars s !! x with Some (VBool b) => Some b | _ => None end.
Definition ints_var (x : string) (s : Cfg) : option (list Z) := match cf_vars s !! x with Some (VInts l) => Some l | _ => None end.

(** A function that returns [uint32_t] converts the [int]. *)
Definition uint32_var (x : string) (s : Cfg) : option Z := u32 <$> int_var x s.

(** ** What the other components read *)

Definition Config_getHashType : Cfg -> option Z := uint32_var "sg_iHashType".
Definition Config_getMaxBlockSize : Cfg -> option Z := uint32_var "sg_iMaxBlockSize".
Definition Config_getThreadLimit : Cfg -> option Z := uint32_var "sg_iThreadLimit".
Definition Config_getHelloTime : Cfg -> option Z := uint32_var "sg_iHelloTime".
Definition Config_getDeadTime : Cfg -> option Z := uint32_var "sg_iDeadTime".
Definition Config_getMqHost : Cfg -> option (option string) := string_var "sg_sMqHost".
Definition Config_getMqPort : Cfg -> option Z := uint32_var "sg_iMqPort".
Definition Config_getMqUser : Cfg -> option (option string) := string_var "sg_sMqUser".
Definition Config_getMqPassword : Cfg -> option (option string) := string_var "sg_sMqPassword".
Definition Config_getMqVhost : Cfg -> option (option string) := string_var "sg_sMqVhost".
Definition Config_getMqSSL : Cfg -> option bool := bool_var "sg_sMqSSL".
Definition Config_getMqPrefetch : Cfg -> option Z := uint32_var "sg_iMqPrefetch".
Definition Config_getCacheGoodLimit : Cfg -> option Z := uint32_var "sg_iCacheGoodLimit".
Definition Config_getLocalityId : Cfg -> option Z := uint32_var "sg_localityId".
Definition Config_getLocalityBlockStore : Cfg -> option (option string) := string_var "sg_localityBlockStore".
Definition Config_isBlockStoreRemote : Cfg -> option bool := bool_var "sg_blockStoreRemote".
Definition Config_getLocalityBackupOrder : Cfg -> option (list Z) := ints_var "sg_backupLocalities".
Definition Config_getLocalityBackupCount : Cfg -> option Z := int_var "sg_backupLocalityCount".
Definition Config_getSubGcReqThreadsInit : Cfg -> option Z := uint32_var "sg_subGcReqThreadsInit".
Definition Config_getSubGcReqThreadsMax : Cfg -> option Z := uint32_var "sg_subGcReqThreadsMax".
Definition Config_getSubGcRespThreadsInit : Cfg -> option Z := uint32_var "sg_subGcRespThreadsInit".
Definition Config_getSubGcRespThreadsMax : Cfg -> option Z := uint32_var "sg_subGcRespThreadsMax".
Definition Config_getSubTransferThreadsInit : Cfg -> option Z := uint32_var "sg_subTransferThreadsInit".
Definition Config_getSubTransferThreadsMax : Cfg -> option Z := uint32_var "sg_subTransferThreadsMax".
Definition Config_getBlockPoolMaxItems : Cfg -> option Z := uint32_var "sg_blockPoolMaxItems".
Definition Config_getBlockPoolMaxSize : Cfg -> option Z := uint32_var "sg_blockPoolMaxSize".
Definition Config_getBlockPoolMaxItemSize : Cfg -> option Z := uint32_var "sg_blockPoolMaxItemSize".
Definition Config_getInspThreadsInit : Cfg -> option Z := uint32_var "sg_inspThreadsInit".
Definition Config_getInspThreadsMax : Cfg -> option Z := uint32_var "sg_inspThreadsMax".
Definition Config_getCacheBadLimit : Cfg -> option Z := uint32_var "sg_iCacheBadLimit".
Definition Config_getLogDest : Cfg -> option Z := int_var "log_dest".
Definition Config_getLogLevel : Cfg -> option Z := int_var "log_level".
Definition Config_getLogFacility : Cfg -> option Z := int_var "log_facility".
Definition Config_getLogFile : Cfg -> option (option string) := string_var "log_file".
Definition Config_getTransferMode : Cfg -> option (option string) := string_var "sg_sTransferMode".
Definition Razorback_Get_Transfer_Password : Cfg -> option (option string) := string_var "sg_sTransferPassword".

Definition Config_setLogDest (dest : Z) : CfM unit := set_var "log_dest" (VInt dest).
Definition Config_setLogLevel (level : Z) : CfM unit := set_var "log_level" (VInt level).

(** ** Validation *)

Definition validateHelloTime (value : Z) : bool := 1 <? value.
(** The product is of 64-bit integers, which no [int] can make overflow. *)
Definition validateDeadTime (helloValue deadValue : Z) : bool := helloValue * 3 <? deadValue.
Definition validateThreadPoolInitialCount (value : Z) : bool := 0 <? value.
Definition validateThreadPoolMaxCount (initialValue maxValue : Z) : bool := initialValue <=? maxValue.

Definition minimumRequired (gcReq gcResp transfer insp : Z) : Z :=
  let baseRequired := 4 in
  let requestRequired := gcReq * 2 in
  let responseRequired := gcResp in
  let transferRequired := transfer * 2 in
  let inspectionRequired := 3 + insp in
  baseRequired + requestRequired + responseRequired + transferRequired + inspectionRequired.

Definition validateGlobalThreadLimit (gcReq gcResp transfer insp value : Z) : bool := minimumRequired gcReq gcResp transfer insp <=? value.

(** Reading a variable that is not assigned, or is of another type, is a crash. *)
Definition get_int (x : string) : CfM Z := fun s => (fun z => (z, s)) <$> int_var x s.
Definition get_string (x : string) : CfM (option string) := fun s => (fun p => (p, s)) <$> string_var x s.

Section Api.
Variable getenv : string -> option string.
Variable ETC_DIR : string.
Variable open_file : string -> bool.
Variable fstat_file : string -> bool.
Variable config_read_file : string -> option config_t.

Definition API_CONFIG_FILE : string := "api.conf".

Definition validate : CfM bool :=
  hello ← get_int "sg_iHelloTime"; dead ← get_int "sg_iDeadTime";
  insp ← get_int "sg_inspThreadsInit"; req ← get_int "sg_subGcReqThreadsInit";
  resp ← get_int "sg_subGcRespThreadsInit"; transfer ← get_int "sg_subTransferThreadsInit";
  inspMax ← get_int "sg_inspThreadsMax"; reqMax ← get_int "sg_subGcReqThreadsMax";
  respMax ← get_int "sg_subGcRespThreadsMax"; transferMax ← get_int "sg_subTransferThreadsMax";
  limit ← get_int "sg_iThreadLimit";
  mret (validateHelloTime hello && validateDeadTime hello dead &&
        validateThreadPoolInitialCount insp && validateThreadPoolInitialCount req &&
        validateThreadPoolInitialCount resp && validateThreadPoolInitialCount transfer &&
        validateThreadPoolMaxCount insp inspMax && validateThreadPoolMaxCount req reqMax &&
        validateThreadPoolMaxCount resp respMax && validateThreadPoolMaxCount transfer transferMax &&
        validateGlobalThreadLimit req resp transfer insp limit).

(** The product in megabytes is an [int], and wraps when it overflows. *)
Definition readApiConfig : CfM bool :=
  ok ← readMyConfig getenv ETC_DIR open_file fstat_file config_read_file None (Some API_CONFIG_FILE) global_config;
  if negb ok then mret false
  else
    size ← get_int "sg_iMaxBlockSize";
    set_var "sg_iMaxBlockSize" (VInt (s32 (size * 1024 * 1024))) ;;
    (match getenv "RZB_MQ_PASSWORD" with
     | Some envVal => ok ← cf_alloc; set_var "sg_sMqPassword" (VString (if ok : bool then Some envVal else None))
     | None => mret ()
     end) ;;
    host ← get_string "sg_sMqHost"; user ← get_string "sg_sMqUser"; password ← get_string "sg_sMqPassword";
    match host, user, password with
    | Some _, Some _, Some _ => validate
    | _, _, _ => mret false
    end.
End Api.
End Runtime.
