(* ===== verification/ConfigThms.v ===== *)
(** * What reading a configuration does

    The name of an override, the types of the variables, which value a variable gets and
    what the validation guarantees; at the end an instance of libconfig and the witnesses. *)

From S2P Require Import Prelude CLib Hash LibUuid ConfigFile RuntimeConfig Prelude.

Local Open Scope Z_scope.

(** ** The name of an override *)

(** The key with two underscores for each dot. *)
Fixpoint underscored (key : string) : string :=
  match key with
  | EmptyString => EmptyString
  | String c key' => if code c == 46 then String "_" (String "_" (underscored key')) else String c (underscored key')
  end.

Definition env_name (key : string) : string := "RZB_" +:+ underscored key.

(** The characters of a C string. *)
Fixpoint chars (s : string) : list Z := match s with EmptyString => [] | String c s' => code c :: chars s' end.

Lemma put_byte_app b w rest : put_byte b (w ++ 0 :: rest) (length w) = Some ((w ++ [b]) ++ rest, length (w ++ [b])).
Proof.
  unfold put_byte. rewrite length_app. simpl. rewrite (proj2 (Nat.ltb_lt _ _)) by lia.
  rewrite insert_app_r_alt, Nat.sub_diag by lia. simpl. by rewrite <- app_assoc, length_app, Nat.add_1_r.
Qed.

Lemma chars_app a b : chars (a +:+ b) = chars a ++ chars b.
Proof. induction a as [|c a IH]; [done|]. simpl. by rewrite IH. Qed.

Lemma env_length_eq key : forall len, env_length key len = len + Z.of_nat (length (chars (underscored key))).
Proof.
  induction key as [|c key IH]; intros len; simpl; [lia|]. rewrite IH. destruct (code c == 46); cbn [chars length]; lia.
Qed.

Lemma env_fill_run key : forall w n, (length (chars (underscored key)) <= n)%nat ->
  env_fill key (w ++ replicate n 0) (length w) =
  Some ((w ++ chars (underscored key)) ++ replicate (n - length (chars (underscored key))) 0, length (w ++ chars (underscored key))).
Proof.
  induction key as [|c key IH]; intros w n Hn; simpl in *; [by rewrite app_nil_r, Nat.sub_0_r|].
  destruct (code c == 46) eqn:E; simpl in Hn.
  - destruct n as [|[|n]]; [lia..|]. simpl. rewrite put_byte_app. simpl.
    rewrite put_byte_app. simpl. rewrite IH by lia. by rewrite <- !app_assoc.
  - destruct n as [|n]; [lia|]. simpl. rewrite put_byte_app. simpl. rewrite IH by lia. by rewrite <- !app_assoc.
Qed.

Lemma env_prefix_run p : forall w n, (length (chars p) <= n)%nat ->
  env_prefix p (w ++ replicate n 0) (length w) = Some ((w ++ chars p) ++ replicate (n - length (chars p)) 0, length (w ++ chars p)).
Proof.
  induction p as [|c p IH]; intros w n Hn; simpl in *; [by rewrite app_nil_r, Nat.sub_0_r|].
  destruct n as [|n]; [lia|]. simpl. rewrite put_byte_app. simpl. rewrite IH by lia. by rewrite <- !app_assoc.
Qed.

Lemma cstr_of_chars s rest : nul_free s = true -> cstr_of_bytes (chars s ++ 0 :: rest) = s.
Proof.
  induction s as [|c s IH]; [done|]. unfold nul_free. simpl. intros [Hc Hs]%andb_true_iff.
  apply negb_true_iff in Hc. rewrite Hc, chr_code. f_equal. by apply IH.
Qed.

Lemma underscored_nul_free key : nul_free key = true -> nul_free (underscored key) = true.
Proof.
  induction key as [|c key IH]; [done|]. unfold nul_free. simpl. intros [Hc Hs]%andb_true_iff.
  specialize (IH Hs). destruct (code c == 46); simpl; [done|]. rewrite Hc. apply IH.
Qed.

(** ** Types *)

(** The types of the variables; a variable that is not assigned has none of them. *)
Inductive ctype := TInt | TString | TBool | TUuid | TInts | TStrings.

Section Reading.
Context `{LibUuid} `{LibConfigLaws}.

Definition has_type (v : cval) (ty : ctype) : Prop :=
  match v, ty with
  | VInt z, TInt => int32 z
  | VString _, TString | VBool _, TBool | VUuid _, TUuid | VStrings _, TStrings => True
  | VInts l, TInts => Forall int32 l
  | _, _ => False
  end.

(** Every variable that has a type holds a value of it. *)
Definition typed (Γ : string -> option ctype) (m : gmap string cval) : Prop :=
  forall x ty, Γ x = Some ty -> exists v, m !! x = Some v /\ has_type v ty.

(** A key that points to a variable of its type.  Lists, and arrays of parsed texts, are not
    among them: see [parseArray_crashes] and [parseList_stale]. *)
Definition dest_ok (Γ : string -> option ctype) (k : RZBConfKey_t) (ty : ctype) : Prop := exists x, ck_dest k = Some x /\ Γ x = Some ty.

Definition key_ok (Γ : string -> option ctype) (k : RZBConfKey_t) : Prop :=
  (exists name, ck_key k = Some name /\ nul_free name = true) /\
  match ck_type k with
  | RZB_CONF_KEY_TYPE_INT => dest_ok Γ k TInt
  | RZB_CONF_KEY_TYPE_STRING => dest_ok Γ k TString
  | RZB_CONF_KEY_TYPE_UUID => dest_ok Γ k TUuid
  | RZB_CONF_KEY_TYPE_BOOL => dest_ok Γ k TBool
  | RZB_CONF_KEY_TYPE_PARSED_STRING =>
      dest_ok Γ k TInt /\ exists f, ck_callback k = cb_parse f /\ (forall s n, f s = Some n -> int32 n)
  | RZB_CONF_KEY_TYPE_ARRAY =>
      exists a, ck_callback k = cb_array a /\ Γ (ca_count a) = Some TInt /\
        ((ca_type a = RZB_CONF_KEY_TYPE_INT /\ Γ (ca_data a) = Some TInts) \/
         (ca_type a = RZB_CONF_KEY_TYPE_STRING /\ Γ (ca_data a) = Some TStrings))
  | _ => False
  end.

(** A table with such keys and an end. *)
Definition table_of (ks : list RZBConfKey_t) (table : list RZBConfKey_t) : Prop :=
  exists e rest, table = ks ++ e :: rest /\ ck_type e = RZB_CONF_KEY_TYPE_END.

(** ** What a key asks for *)

Definition int_text (v : string) : option Z :=
  let '(n, rest, erange) := strtol v in
  let rest := skip_space rest in
  if erange || (String.length rest =? String.length v)%nat || negb (String.length rest =? 0)%nat || (s32 n != n) then None else Some n.

Definition env_value (k : RZBConfKey_t) (v : string) : option cval :=
  match ck_type k with
  | RZB_CONF_KEY_TYPE_INT => VInt <$> int_text v
  | RZB_CONF_KEY_TYPE_STRING => Some (VString (Some v))
  | RZB_CONF_KEY_TYPE_PARSED_STRING => match ck_callback k with cb_parse f => VInt <$> f v | _ => None end
  | RZB_CONF_KEY_TYPE_UUID => VUuid <$> uuid_parse v
  | RZB_CONF_KEY_TYPE_BOOL =>
      if strcasecmp v "true" == 0 then Some (VBool true) else if strcasecmp v "false" == 0 then Some (VBool false) else None
  | _ => None
  end.

Definition file_value (config : config_t) (name : string) (k : RZBConfKey_t) : option cval :=
  match ck_type k with
  | RZB_CONF_KEY_TYPE_INT => VInt <$> config_lookup_int config name
  | RZB_CONF_KEY_TYPE_STRING => (fun s => VString (Some s)) <$> config_lookup_string config name
  | RZB_CONF_KEY_TYPE_PARSED_STRING =>
      match ck_callback k with cb_parse f => VInt <$> (config_lookup_string config name ≫= f) | _ => None end
  | RZB_CONF_KEY_TYPE_UUID => VUuid <$> (config_lookup_string config name ≫= uuid_parse)
  | RZB_CONF_KEY_TYPE_BOOL => VBool <$> (config_lookup_string config name ≫= parse_bool)
  | _ => None
  end.

(** The elements of an array of integers or of strings. *)
Definition array_value (setting : config_setting_t) (a : ConfArray) : cval :=
  let at_index {A} (f : Z -> A) := (fun i => f (Z.of_nat i)) <$> seq 0 (Z.to_nat (config_setting_length setting)) in
  match ca_type a with
  | RZB_CONF_KEY_TYPE_INT => VInts (at_index (config_setting_get_int_elem setting))
  | _ => VStrings (at_index (config_setting_get_string_elem setting))
  end.

(** The assignments, or [None] when the value is refused. *)
Definition env_writes (k : RZBConfKey_t) (v : string) : option (list (string * cval)) :=
  x ← ck_dest k; c ← env_value k v; Some [(x, c)].

Definition file_writes (config : config_t) (name : string) (setting : config_setting_t) (k : RZBConfKey_t) : option (list (string * cval)) :=
  match ck_callback k, ck_type k with
  | cb_array a, RZB_CONF_KEY_TYPE_ARRAY =>
      if negb (config_setting_is_array setting) then None
      else if config_setting_length setting == 0 then Some [(ca_count a, VInt 0)]
      else Some [(ca_count a, VInt (config_setting_length setting)); (ca_data a, array_value setting a)]
  | _, _ => x ← ck_dest k; c ← file_value config name k; Some [(x, c)]
  end.

Definition apply_writes (ws : list (string * cval)) (m : gmap string cval) : gmap string cval :=
  foldl (fun m w => <[w.1 := w.2]> m) m ws.

Definition writes_typed (Γ : string -> option ctype) (ws : list (string * cval)) : Prop :=
  Forall (fun w => exists ty, Γ w.1 = Some ty /\ has_type w.2 ty) ws.

Definition with_allocs (s : Cfg) (o : allocs) : Cfg := mkCfg (cf_vars s) o (configList s).
Definition with_vars (s : Cfg) (m : gmap string cval) : Cfg := mkCfg m (cf_allocs s) (configList s).

Lemma configKeyToEnvName_run key s : nul_free key = true ->
  configKeyToEnvName key s =
  let '(ok, o) := alloc_next (cf_allocs s) in Some (if ok : bool then Some (env_name key) else None, with_allocs s o).
Proof.
  intros Hk. unfold configKeyToEnvName, mbind, CfM_bind, cf_alloc. destruct (alloc_next (cf_allocs s)) as [[] o]; [|done].
  cbv beta iota. cbn [negb]. rewrite env_length_eq.
  set (n := length (chars (underscored key))). replace (Z.to_nat (5 + Z.of_nat n)) with (S (4 + n)) by lia.
  pose proof (env_prefix_run "RZB_" [] (S (4 + n))) as Ep. cbn [app length] in Ep. rewrite Ep by (simpl; lia). clear Ep. cbn [cf_deref].
  unfold mret, CfM_ret. cbv beta iota.
  pose proof (env_fill_run key (chars "RZB_") (S n)) as Ef.
  change (length (chars "RZB_")) with 4%nat in Ef. change (length (chars "RZB_")) with 4%nat. replace (S (4 + n) - 4)%nat with (S n) by lia.
  rewrite Ef by (fold n; lia). clear Ef. fold n. cbn [cf_deref]. unfold mret, CfM_ret. cbv beta iota.
  replace (S n - n)%nat with 1%nat by lia. cbn [replicate]. rewrite put_byte_app. cbn [cf_deref]. unfold mret, CfM_ret. cbv beta iota.
  rewrite app_nil_r, <- chars_app. unfold env_name. rewrite cstr_of_chars; [done|].
  unfold nul_free. simpl. by apply underscored_nul_free.
Qed.

Lemma writes_typed_keep Γ ws : forall m, typed Γ m -> writes_typed Γ ws -> typed Γ (apply_writes ws m).
Proof.
  induction ws as [|[x v] ws IH]; intros m Hm Hw; [done|]. apply Forall_cons in Hw as [(ty & Hx & Hv) Hw]. apply IH; [|done].
  intros y ty' Hy. simpl in *. destruct (decide (x = y)) as [->|Hne]; [|rewrite lookup_insert_ne by done; by apply Hm].
  rewrite lookup_insert_eq. eexists. split; [done|]. congruence.
Qed.

Lemma int_text_range v n : int_text v = Some n -> int32 n.
Proof.
  unfold int_text. destruct (strtol v) as [[z rest] er]. case_match eqn:E; [done|]. intros [= ->].
  apply orb_false_iff in E as [_ E]. apply negb_false_iff, Z.eqb_eq in E. unfold s32, u32, wrap in E. unfold int32.
  pose proof (Z.mod_pos_bound n (2 ^ 32)). case_match; lia.
Qed.

(** A value that is assigned, by the run [H], and one that is refused. *)
Ltac stored H :=
  let x := fresh "x" in let Hx := fresh in let Hw := fresh in let Hr := fresh in
  destruct H as (x & Hx & Hw & Hr); rewrite Hr; eexists _, _; split; [reflexivity|]; by rewrite Hx.
Ltac refused_value := eexists _, _; split; [reflexivity|]; by match goal with k : RZBConfKey_t |- _ => destruct (ck_dest k) end.

(** One value from the environment. *)
Lemma parseEnvValue_run Γ k v s : key_ok Γ k -> exists ok s', parseEnvValue v k s = Some (ok, s') /\
  match env_writes k v with
  | Some ws => ok = true /\ s' = with_vars s (apply_writes ws (cf_vars s)) /\ writes_typed Γ ws
  | None => ok = false /\ s' = s
  end.
Proof.
  intros [_ Hk]. unfold parseEnvValue, env_writes, env_value.
  assert (Hput : forall ty c, dest_ok Γ k ty -> has_type c ty -> exists x, ck_dest k = Some x /\ writes_typed Γ [(x, c)] /\
    (assign_dest (ck_dest k) c ;; mret true) s = Some (true, with_vars s (<[x := c]> (cf_vars s)))).
  { intros ty c (x & -> & Hx) Hc. exists x. split; [done|]. split; [|done]. apply Forall_singleton. by exists ty. }
  destruct (ck_type k) eqn:Et; try done.
  - stored (Hput TString (VString (Some v)) Hk I).
  - unfold int_text. pose proof (int_text_range v) as Hi. unfold int_text in Hi. destruct (strtol v) as [[n rest] er].
    destruct (er || _ || _ || _) eqn:E.
    { refused_value. }
    apply orb_false_iff in E as [_ E]. apply negb_false_iff, Z.eqb_eq in E. rewrite E.
    stored (Hput TInt (VInt n) Hk (Hi n eq_refl)).
  - destruct Hk as (Hd & f & -> & Hf). destruct (f v) as [n|] eqn:Ef.
    + stored (Hput TInt (VInt n) Hd (Hf _ _ Ef)).
    + refused_value.
  - destruct (uuid_parse v) as [u|].
    + stored (Hput TUuid (VUuid u) Hk I).
    + refused_value.
  - destruct (strcasecmp v "true" == 0); [|destruct (strcasecmp v "false" == 0)].
    + stored (Hput TBool (VBool true) Hk I).
    + stored (Hput TBool (VBool false) Hk I).
    + refused_value.
  - refused_value.
Qed.
End Reading.
