(* ===== verification/BlockPool.v ===== *)
(** * The block pool: src/block_pool.c and src/fantasia.c

    Items collect the data of a block in pieces; each item has an event with the
    block, its length and its hash.  The pool keeps the items on a list with item
    locks and accounts for their data in [sg_size].

    The world holds the live items by address, [sg_size], the mutexes the thread
    holds and the files.  A run that dereferences NULL, reads a destroyed item or
    locks a mutex it already holds ends in a [fault].  The chain of data of an item
    (a singly linked list with a tail pointer, appended at the tail) is a list. *)

From S2P Require Import CLib RzbList RzbListProps ListM Hash LibUuid Uuids Ntlv Blocks Prelude.

(** ** Constants *)

Definition BLOCK_POOL_STATUS_MASK : Z := 255.
Definition BLOCK_POOL_STATUS_COLLECTING : Z := 1.
Definition BLOCK_POOL_STATUS_FINALIZED : Z := 2.
Definition BLOCK_POOL_FLAG_MASK : Z := 4278190080.
Definition BLOCK_POOL_DATA_FLAG_FILE : Z := 1.
Definition BLOCK_POOL_DATA_FLAG_MALLOCD : Z := 2.
Definition BLOCK_POOL_DATA_FLAG_MANAGED : Z := 4.
Definition HOWMANY : Z := 4096.

(** ** libmagic *)

(** The MIME type of a buffer and of a file, and whether [magic_error] reports an
    error when there is none. *)
Class Magic := {
  magic_buffer : list Z -> option string;
  magic_descriptor : list Z -> option string;
  magic_error : list Z -> bool
}.

(** ** Data *)

Section Data.
Context `{EVP} `{LibUuid}.

Record BlockPoolData := mkBlockPoolData {
  bd_iLength : Z;
  bd_iFlags : Z;
  bd_data : BlockData
}.

Record BlockPoolItem := mkBlockPoolItem {
  bp_iStatus : Z;
  bp_pData : list BlockPoolData;
  bp_submittedCallback : option positive;
  bp_context : RazorbackContext;
  bp_pEvent : Event
}.

(** The limits of the configuration; 0 is no limit. *)
Record PoolConfig := mkPoolConfig {
  BlockPoolMaxItems : Z;
  BlockPoolMaxSize : Z;
  BlockPoolMaxItemSize : Z;
  HashType : Z
}.

Inductive fault := NullDeref | UseAfterFree | Deadlock.

(** [w_held] are the mutexes the thread holds: the size mutex ([None]) and those
    of items. *)
Record World := mkWorld {
  w_items : gmap positive BlockPoolItem;
  w_size : Z;
  w_held : list (option positive);
  w_files : gmap string (list Z)
}.

Definition PM (A : Type) : Type := World -> fault + (A * World).

Definition set_items (w : World) (m : gmap positive BlockPoolItem) : World :=
  mkWorld m (w_size w) (w_held w) (w_files w).
Definition set_sg_size (w : World) (n : Z) : World := mkWorld (w_items w) n (w_held w) (w_files w).
Definition set_held (w : World) (h : list (option positive)) : World :=
  mkWorld (w_items w) (w_size w) h (w_files w).
Definition set_files (w : World) (f : gmap string (list Z)) : World :=
  mkWorld (w_items w) (w_size w) (w_held w) f.

Definition set_pData (x : BlockPoolItem) (ds : list BlockPoolData) : BlockPoolItem :=
  mkBlockPoolItem (bp_iStatus x) ds (bp_submittedCallback x) (bp_context x) (bp_pEvent x).
Definition set_iStatus (x : BlockPoolItem) (n : Z) : BlockPoolItem :=
  mkBlockPoolItem n (bp_pData x) (bp_submittedCallback x) (bp_context x) (bp_pEvent x).
Definition set_pEvent (x : BlockPoolItem) (e : Event) : BlockPoolItem :=
  mkBlockPoolItem (bp_iStatus x) (bp_pData x) (bp_submittedCallback x) (bp_context x) e.

(** [item->pEvent->pBlock->pId] and its assignment. *)
Definition item_id (x : BlockPoolItem) : option BlockId := b ← e_pBlock (bp_pEvent x); b_pId b.
Definition set_block (e : Event) (b : option Block) : Event :=
  mkEvent (e_pId e) (e_pParentId e) (e_pParent e) (e_uuidApplicationType e) b (e_pMetaDataList e).
Definition set_item_id (x : BlockPoolItem) (id : BlockId) : BlockPoolItem :=
  set_pEvent x (set_block (bp_pEvent x)
    (match e_pBlock (bp_pEvent x) with
     | Some b => Some (mkBlock (Some id) (b_pParentId b) (b_pParentBlock b) (b_pMetaDataList b) (b_data b))
     | None => None
     end)).
End Data.

Global Instance PM_ret `{EVP} `{LibUuid} : MRet PM := fun A x w => inr (x, w).
Global Instance PM_bind `{EVP} `{LibUuid} : MBind PM := fun A B f m w =>
  match m w with
  | inl e => inl e
  | inr (x, w') => f x w'
  end.

(** ** Operations on items *)

Section Operations.
Context `{EVP} `{LibUuid}.

Definition fails {A} (e : fault) : PM A := fun _ => inl e.
Definition get : PM World := fun w => inr (w, w).
Definition put (w : World) : PM unit := fun _ => inr ((), w).
Definition derefp {A} (p : option A) : PM A := match p with Some x => mret x | None => fails NullDeref end.

Definition Mutex_Lock (m : option positive) : PM unit := fun w =>
  if decide (m ∈ w_held w) then inl Deadlock else inr ((), set_held w (m :: w_held w)).
Definition Mutex_Unlock (m : option positive) : PM unit := fun w =>
  inr ((), set_held w (filter (fun x => x <> m) (w_held w))).

Definition load (i : positive) : PM BlockPoolItem := fun w =>
  match w_items w !! i with Some x => inr (x, w) | None => inl UseAfterFree end.
Definition store (i : positive) (x : BlockPoolItem) : PM unit := fun w =>
  inr ((), set_items w (<[i := x]> (w_items w))).

Definition BlockPool_Item_Lock (i : positive) : PM unit := load i ;; Mutex_Lock (Some i).
Definition BlockPool_Item_Unlock (i : positive) : PM unit := load i ;; Mutex_Unlock (Some i).

(** [Mutex_Lock (sg_sizeMutex); sg_size += n; Mutex_Unlock (sg_sizeMutex)] *)
Definition add_sg_size (n : Z) : PM unit :=
  Mutex_Lock None ;; w ← get; put (set_sg_size w (u64 (w_size w + n))) ;; Mutex_Unlock None.

(** [unlink (fileName)] *)
Definition unlink (f : string) : PM unit := w ← get; put (set_files w (delete f (w_files w))).

Fixpoint BlockPool_DestroyItemDataList (p_pData : list BlockPoolData) : PM unit :=
  match p_pData with
  | [] => mret ()
  | d :: l_pDataNext =>
      (if bd_iFlags d == BLOCK_POOL_DATA_FLAG_FILE then
         match bd_fileName (bd_data d) with
         | Some f => if bd_tempFile (bd_data d) then unlink f else mret ()
         | None => mret ()
         end
       else mret ()) ;;
      add_sg_size (- bd_iLength d) ;;
      BlockPool_DestroyItemDataList l_pDataNext
  end.

(** The test of a limit, 0 being none. *)
Definition exceeds (limit n : Z) : bool := (0 <? limit) && (limit <=? n).

(** [Mutex_Lock (sg_sizeMutex); if (limit) ...; sg_size += n; Mutex_Unlock (...)]:
    whether the data was accounted for; [over] is run with the mutex held. *)
Definition reserve (cfg : PoolConfig) (n : Z) (over : PM unit) : PM bool :=
  Mutex_Lock None ;;
  w ← get;
  if exceeds (BlockPoolMaxSize cfg) (u64 (w_size w + n)) then
    over ;; Mutex_Unlock None ;; mret false
  else
    put (set_sg_size w (u64 (w_size w + n))) ;; Mutex_Unlock None ;; mret true.

(** The error exits after the reservation: unlock the item and give it back. *)
Definition give_back (i : positive) (n : Z) : PM unit := BlockPool_Item_Unlock i ;; add_sg_size (- n).

Definition BlockPool_AddData (cfg : PoolConfig) (calloc_ok : bool) (item : option positive)
    (data : option (list Z)) (length flags : Z) : PM bool :=
  match item, data with
  | Some i, Some d =>
      if length <=? 0 then mret false
      else
        ok ← reserve cfg length (mret ());
        if negb ok then mret false
        else
          BlockPool_Item_Lock i ;;
          x ← load i;
          if bp_iStatus x != BLOCK_POOL_STATUS_COLLECTING then give_back i length ;; mret false
          else
            id ← derefp (item_id x);
            if exceeds (BlockPoolMaxItemSize cfg) (u64 (bi_iLength id + length)) then
              give_back i length ;; mret false
            else if negb calloc_ok then give_back i length ;; mret false
            else
              bs ← derefp (read_bytes d length);
              '(_, h) ← derefp (Hash_Update (bi_pHash id) bs);
              let id' := mkBlockId h (bi_uuidDataType id) (u64 (bi_iLength id + length)) in
              let data := mkBlockPoolData length flags (mkBlockData None (Some d) None false) in
              store i (set_pData (set_item_id x id') (bp_pData x ++ [data])) ;;
              BlockPool_Item_Unlock i ;;
              mret true
  | _, _ => mret false
  end.

(** [calloc_ok], [strdup_ok] and [fstat_ok] are the outcomes of the calls.  The
    file is read as it was when it was opened. *)
Definition BlockPool_AddData_FromFile (cfg : PoolConfig) (calloc_ok strdup_ok fstat_ok : bool)
    (item : option positive) (fileName : option string) (tempFile : bool) : PM bool :=
  match item, fileName with
  | Some i, Some name =>
      if negb calloc_ok then mret false
      else
        let fileName := if strdup_ok then Some name else None in
        let dataBlock n f := mkBlockPoolData n BLOCK_POOL_DATA_FLAG_FILE (mkBlockData fileName None f tempFile) in
        w ← get;
        match w_files w !! name with
        | None => BlockPool_DestroyItemDataList [dataBlock 0 None] ;; mret false
        | Some content =>
            let file := mkFile content 0 None in
            if negb fstat_ok then BlockPool_DestroyItemDataList [dataBlock 0 (Some file)] ;; mret false
            else
              let st_size := Z.of_nat (length content) in
              ok ← reserve cfg st_size (BlockPool_DestroyItemDataList [dataBlock 0 (Some file)]);
              if negb ok then mret false
              else
                BlockPool_Item_Lock i ;;
                x ← load i;
                if bp_iStatus x != BLOCK_POOL_STATUS_COLLECTING then
                  give_back i st_size ;; BlockPool_DestroyItemDataList [dataBlock 0 (Some file)] ;; mret false
                else
                  id ← derefp (item_id x);
                  if exceeds (BlockPoolMaxItemSize cfg) (u64 (bi_iLength id + st_size)) then
                    give_back i st_size ;; BlockPool_DestroyItemDataList [dataBlock 0 (Some file)] ;; mret false
                  else
                    '(_, h, file) ← derefp (Hash_Update_File (bi_pHash id) (Some file));
                    let id' := mkBlockId h (bi_uuidDataType id) (u64 (bi_iLength id + st_size)) in
                    store i (set_pData (set_item_id x id') (bp_pData x ++ [dataBlock (u32 st_size) file])) ;;
                    BlockPool_Item_Unlock i ;;
                    mret true
        end
  | _, _ => mret false
  end.
End Operations.

(** ** Data types: src/fantasia.c *)

Section Magic.
Context `{EVP} `{LibUuid} `{Magic}.
Variable sg : UuidLists.

(** A lookup of a UUID by name, which allocates nothing. *)
Definition find_uuid (name : string) (type : Z) : PM (option uuid_t) := fun w =>
  match UUID_Get_UUID sg name type [] with
  | None => inl NullDeref
  | Some (r, _) => inr (r, w)
  end.

(** The loop that collects the first HOWMANY bytes in [buf]. *)
Fixpoint coalesce (ds : list BlockPoolData) (buf : list Z) : PM (list Z) :=
  match ds with
  | [] => mret buf
  | d :: ds' =>
      let nbytes := Z.of_nat (length buf) in
      if HOWMANY <=? nbytes then mret buf
      else
        let toCopy := if HOWMANY <? nbytes + bd_iLength d then HOWMANY - nbytes else bd_iLength d in
        bs ← (if toCopy == 0 then mret []
              else p ← derefp (bd_pointer (bd_data d)); derefp (read_bytes p toCopy));
        coalesce ds' (buf ++ bs)
  end.

(** [UUID_Get_UUID (name, UUID_TYPE_DATA_TYPE, item->pEvent->pBlock->pId->uuidDataType)] *)
Definition get_data_type (i : positive) (name : string) : PM bool :=
  x ← load i;
  id ← derefp (item_id x);
  r ← find_uuid name UUID_TYPE_DATA_TYPE;
  match r with
  | None => mret false
  | Some u => store i (set_item_id x (mkBlockId (bi_pHash id) u (bi_iLength id))) ;; mret true
  end.

Definition BlockPool_SetItemDataType (i : positive) (name : string) : PM bool := get_data_type i name.

(** The first piece after [rewind (dataItem->data.file)]. *)
Definition rewound (d : BlockPoolData) (f : File) : BlockPoolData :=
  let b := bd_data d in
  mkBlockPoolData (bd_iLength d) (bd_iFlags d)
    (mkBlockData (bd_fileName b) (bd_pointer b) (Some (rewind f)) (bd_tempFile b)).

(** The MIME type of the data, NULL with an error or without one. *)
Definition mimetype (i : positive) (x : BlockPoolItem) : PM (option string * bool) :=
  match bp_pData x with
  | [] => fails NullDeref
  | dataItem :: l_pDataNext =>
      if bd_iFlags dataItem == BLOCK_POOL_DATA_FLAG_FILE then
        file ← derefp (bd_file (bd_data dataItem));
        store i (set_pData x (rewound dataItem file :: l_pDataNext)) ;;
        mret (magic_descriptor (f_rest file), magic_error (f_rest file))
      else
        buf ← coalesce (bp_pData x) [];
        mret (magic_buffer (buf ++ [0]), magic_error (buf ++ [0]))
  end.

(** [open_ok] is the outcome of [magic_open]. *)
Definition Magic_process (open_ok : bool) (i : positive) : PM bool :=
  if negb open_ok then mret false
  else
    x ← load i;
    '(mime, err) ← mimetype i x;
    match mime with
    | None => mret (negb err)
    | Some m => get_data_type i m
    end.

Definition BlockPool_FinalizeItem (open_ok : bool) (p_pItem : option positive) : PM bool :=
  match p_pItem with
  | None => mret false
  | Some i =>
      x ← load i;
      if bp_iStatus x != BLOCK_POOL_STATUS_COLLECTING then mret false
      else
        id ← derefp (item_id x);
        '(ok, h) ← derefp (Hash_Finalize (bi_pHash id));
        store i (set_item_id x (mkBlockId h (bi_uuidDataType id) (bi_iLength id))) ;;
        if negb (ok : bool) then mret false
        else
          (if (uuid_is_null (bi_uuidDataType id) == 1) && negb (bool_decide (bp_pData x = []))
           then Magic_process open_ok i else mret true) ;;
          x ← load i;
          store i (set_iStatus x BLOCK_POOL_STATUS_FINALIZED) ;;
          mret true
  end.
End Magic.

(** ** Status bits *)

Section Status.
Context `{EVP} `{LibUuid}.

Definition BlockPool_SetStatus (p_pItem : option positive) (p_iStatus : Z) : PM unit :=
  match p_pItem with
  | None => mret ()
  | Some i =>
      x ← load i;
      store i (set_iStatus x
        (Z.lor (Z.land p_iStatus BLOCK_POOL_STATUS_MASK) (Z.land (bp_iStatus x) BLOCK_POOL_FLAG_MASK)))
  end.
Definition BlockPool_GetStatus (p_pItem : option positive) : PM Z :=
  match p_pItem with
  | None => mret 0
  | Some i => x ← load i; mret (Z.land (bp_iStatus x) BLOCK_POOL_STATUS_MASK)
  end.
Definition BlockPool_SetFlags (p_pItem : option positive) (p_iFlags : Z) : PM unit :=
  match p_pItem with
  | None => mret ()
  | Some i =>
      x ← load i;
      store i (set_iStatus x
        (Z.lor (Z.land p_iFlags BLOCK_POOL_FLAG_MASK) (Z.land (bp_iStatus x) BLOCK_POOL_STATUS_MASK)))
  end.
Definition BlockPool_GetHash (i : positive) : PM (option Hash) :=
  x ← load i; id ← derefp (item_id x); mret (bi_pHash id).
End Status.

(** ** The pool *)

Section Pool.
Context `{EVP} `{LibUuid}.

(** The state the callbacks of the list work on: a world, or the fault that ended
    the run. *)
Abbreviation PoolState := (fault + World)%type.

Definition run_unit (m : PM unit) (s : PoolState) : PoolState :=
  match s with
  | inl e => inl e
  | inr w => match m w with inl e => inl e | inr (_, w') => inr w' end
  end.

(** [BlockPool_Delete] and [BlockPool_DestroyItemData]: the event and the mutex
    are only released. *)
Definition BlockPool_DestroyItemData (i : positive) : PM unit :=
  x ← load i;
  BlockPool_DestroyItemDataList (bp_pData x) ;;
  w ← get; put (set_items w (delete i (w_items w))).
Definition BlockPool_Delete (i : positive) (s : PoolState) : PoolState := run_unit (BlockPool_DestroyItemData i) s.

Abbreviation pool_list := (List_t PoolState unit positive).

(** [sg_bpList] and the world. *)
Record Pool := mkPool { sg_bpList : option pool_list; pool_world : World }.

(** [BlockPool_Init]: the outcomes of the allocations of the list and of the
    mutex. *)
Definition BlockPool_Init (calloc_ok lock_ok mutex_ok : bool) (w : World) : bool * Pool :=
  let l := List_Create calloc_ok lock_ok true LIST_MODE_GENERIC None None (Some BlockPool_Delete) None
             (Some (fun i => run_unit (BlockPool_Item_Lock i)))
             (Some (fun i => run_unit (BlockPool_Item_Unlock i))) in
  (match l with None => false | Some _ => mutex_ok end, mkPool l w).

(** The event and its block of a new item. *)
Definition new_event (cfg : PoolConfig) (clock : option (Z * Z)) : M Event := Event_Create clock (HashType cfg).

(** [BlockPool_CreateItem]: the address of the item or NULL.  [o] are the outcomes
    of the allocations of the item, the event and the mutex, [push_ok] that of the
    list node: the result of [List_Push] is not looked at. *)
Definition BlockPool_CreateItem (cfg : PoolConfig) (clock : option (Z * Z)) (push_ok : bool) (o : allocs)
    (context : option RazorbackContext) (p : Pool) : fault + (option positive * Pool) :=
  match context with
  | None => inr (None, p)
  | Some ctx =>
      if exceeds (BlockPoolMaxItems cfg) (List_Length (sg_bpList p)) then inr (None, p)
      else
        match (alloc ;; e ← new_event cfg clock; alloc ;; mret e : M Event) o with
        | None => inl NullDeref
        | Some (None, _) => inr (None, p)
        | Some (Some e, _) =>
            match e_pId e with
            | None => inl NullDeref
            | Some id =>
                let id' := mkEventId (ctx_uuidNuggetId ctx) (ei_iSeconds id) (ei_iNanoSecs id) in
                let e' := mkEvent (Some id') (e_pParentId e) (e_pParent e) (ctx_uuidApplicationType ctx)
                            (e_pBlock e) (e_pMetaDataList e) in
                let w := pool_world p in
                let i := fresh (dom (w_items w)) in
                let x := mkBlockPoolItem BLOCK_POOL_STATUS_COLLECTING [] None ctx e' in
                match List_Push push_ok (sg_bpList p) i with
                | None => inl NullDeref
                | Some (_, l) => inr (Some i, mkPool l (set_items w (<[i := x]> (w_items w))))
                end
            end
        end
  end.

Definition BlockPool_GetSize (p : Pool) : Z := w_size (pool_world p).
Definition BlockPool_GetItemCount (p : Pool) : Z :=
  match sg_bpList p with None => 0 | Some _ => List_Length (sg_bpList p) end.

Definition BlockPool_DestroyItem (p_pItem : option positive) (p : Pool) : fault + (bool * Pool) :=
  match p_pItem with
  | None => inr (false, p)
  | Some i =>
      match List_Remove (sg_bpList p) (Some i) (inr (pool_world p)) with
      | None => inl NullDeref
      | Some (_, l, inl e) => inl e
      | Some (_, l, inr w) => inr (true, mkPool l w)
      end
  end.

(** [BlockPool_ForEachItem] with the user data after the iteration. *)
Definition BlockPool_ForEachItem {U} (op : positive -> U -> PoolState -> option (Z * U * PoolState)) (u : U)
    (p : Pool) : fault + (U * Pool) :=
  match List_ForEach (sg_bpList p) (Some op) u (inr (pool_world p)) with
  | None => inl NullDeref
  | Some (_, l, u, inl e) => inl e
  | Some (_, l, u, inr w) => inr (u, mkPool l w)
  end.

Definition BlockPool_CountContextItem (context : positive) (i : positive) (count : Z) (s : PoolState)
    : option (Z * Z * PoolState) :=
  match s with
  | inl e => Some (LIST_EACH_OK, count, inl e)
  | inr w =>
      match load i w with
      | inl e => Some (LIST_EACH_OK, count, inl e)
      | inr (x, w) =>
          Some (LIST_EACH_OK, if decide (ctx_address (bp_context x) = context) then u64 (count + 1) else count, inr w)
      end
  end.

Definition BlockPool_GetContextItemCount (p_pContext : option RazorbackContext) (p : Pool) : fault + (Z * Pool) :=
  match sg_bpList p, p_pContext with
  | Some _, Some ctx => BlockPool_ForEachItem (BlockPool_CountContextItem (ctx_address ctx)) 0 p
  | _, _ => inr (0, p)
  end.
End Pool.
