(* ===== verification/BlockPoolProps.v ===== *)
(** * Theorems about the block pool: src/block_pool.c

    [world_ok] is the invariant of the pool: no mutex is held between calls,
    [sg_size] is the number of bytes the live items account for, and the hash of a
    collecting item has absorbed its data. *)

From S2P Require Import CLib RzbList RzbListProps ListM Hash LibUuid Uuids Ntlv Blocks BlockPool Prelude.

(** ** Running the operations *)

Section Run.
Context `{EVP} `{LibUuid}.
Implicit Types w : World.

Lemma PM_bind_inr {A B} (m : PM A) (f : A -> PM B) w x w' : m w = inr (x, w') -> (m ≫= f) w = f x w'.
Proof. intros E. unfold mbind, PM_bind. by rewrite E. Qed.

Lemma PM_bind_inl {A B} (m : PM A) (f : A -> PM B) w e : m w = inl e -> (m ≫= f) w = inl e.
Proof. intros E. unfold mbind, PM_bind. by rewrite E. Qed.

Lemma PM_ret_bind {A B} (x : A) (f : A -> PM B) w : (mret x ≫= f) w = f x w.
Proof. done. Qed.

Lemma lock_run m w : m ∉ w_held w -> Mutex_Lock m w = inr ((), set_held w (m :: w_held w)).
Proof. intros. unfold Mutex_Lock. by rewrite decide_False. Qed.

Lemma unlock_run m w h : m ∉ h -> w_held w = m :: h -> Mutex_Unlock m w = inr ((), set_held w h).
Proof.
  intros Hm E. unfold Mutex_Unlock. rewrite E, filter_cons_False by tauto. do 3 f_equal.
  clear E. induction h as [|x h IH]; [done|]. apply not_elem_of_cons in Hm as [? ?].
  rewrite filter_cons_True by congruence. f_equal. auto.
Qed.

Lemma set_held_id w h : w_held w = h -> set_held w h = w.
Proof. intros <-. by destruct w. Qed.

(** The world after [sg_size += n]. *)
Definition grown w (n : Z) : World := set_sg_size w (u64 (w_size w + n)).

Lemma add_sg_size_run n w : w_held w = [] -> add_sg_size n w = inr ((), grown w n).
Proof.
  intros E. unfold add_sg_size. rewrite (PM_bind_inr _ _ _ _ _ (lock_run None w ltac:(rewrite E; set_solver))).
  rewrite (PM_bind_inr get _ _ _ _ eq_refl). rewrite (PM_bind_inr (put _) _ _ _ _ eq_refl).
  rewrite (unlock_run None _ []); [|set_solver|simpl; by rewrite E]. unfold grown. destruct w; simpl in *; subst; reflexivity.
Qed.

Lemma reserve_run cfg n over w : w_held w = [] -> reserve cfg n over w =
  if exceeds (BlockPoolMaxSize cfg) (u64 (w_size w + n)) then
    (over ;; Mutex_Unlock None ;; mret false) (set_held w [None])
  else inr (true, grown w n).
Proof.
  intros E. unfold reserve. rewrite (PM_bind_inr _ _ _ _ _ (lock_run None w ltac:(rewrite E; set_solver))).
  rewrite (PM_bind_inr get _ _ _ _ eq_refl). rewrite E. simpl. destruct (exceeds _ _); [done|].
  rewrite (PM_bind_inr (put _) _ _ _ _ eq_refl).
  rewrite (PM_bind_inr (Mutex_Unlock None) _ _ () (grown w n)); [done|].
  rewrite (unlock_run None _ []); [|set_solver|done]. unfold grown. destruct w; simpl in *; subst; reflexivity.
Qed.

Lemma load_run i x w : w_items w !! i = Some x -> load i w = inr (x, w).
Proof. intros E. unfold load. by rewrite E. Qed.

Lemma store_run i x w : store i x w = inr ((), set_items w (<[i := x]> (w_items w))).
Proof. done. Qed.

Lemma item_lock_run i x w : w_items w !! i = Some x -> w_held w = [] ->
  BlockPool_Item_Lock i w = inr ((), set_held w [Some i]).
Proof.
  intros E Eh. unfold BlockPool_Item_Lock. rewrite (PM_bind_inr _ _ _ _ _ (load_run i x w E)).
  rewrite lock_run by (rewrite Eh; set_solver). by rewrite Eh.
Qed.

Lemma item_unlock_run i x w : w_items w !! i = Some x -> w_held w = [Some i] ->
  BlockPool_Item_Unlock i w = inr ((), set_held w []).
Proof.
  intros E Eh. unfold BlockPool_Item_Unlock. rewrite (PM_bind_inr _ _ _ _ _ (load_run i x w E)).
  apply unlock_run; [set_solver|done].
Qed.

Lemma derefp_run {A} (p : option A) x w : p = Some x -> derefp p w = inr (x, w).
Proof. by intros ->. Qed.

(** Giving a reservation back restores the world. *)
Lemma give_back_run i x n w : w_items w !! i = Some x -> w_held w = [] -> in_width 64 (w_size w) ->
  give_back i n (set_held (grown w n) [Some i]) = inr ((), w).
Proof.
  intros E Eh Hs. unfold give_back. rewrite (PM_bind_inr _ _ _ _ _ (item_unlock_run i x (set_held (grown w n) [Some i]) E eq_refl)).
  rewrite add_sg_size_run by done. unfold grown. destruct w as [m s h f]; simpl in *. subst h. do 2 f_equal.
  unfold set_sg_size, set_held. simpl. f_equal. unfold u64. rewrite wrap_add_l. replace (s + n + - n) with s by lia.
  by apply wrap_small.
Qed.

(** Destroying data gives back what it accounts for and unlinks temporary files. *)
Definition data_bytes (ds : list BlockPoolData) : Z := foldr (fun d n => bd_iLength d + n) 0 ds.

Definition unlinked (d : BlockPoolData) (f : gmap string (list Z)) : gmap string (list Z) :=
  if bd_iFlags d == BLOCK_POOL_DATA_FLAG_FILE then
    match bd_fileName (bd_data d) with
    | Some n => if bd_tempFile (bd_data d) then delete n f else f
    | None => f
    end
  else f.

Lemma DestroyItemDataList_run ds w : w_held w = [] -> in_width 64 (w_size w) ->
  exists f, BlockPool_DestroyItemDataList ds w = inr ((), mkWorld (w_items w) (u64 (w_size w - data_bytes ds)) [] f) /\
    f = foldl (fun f d => unlinked d f) (w_files w) ds.
Proof.
  revert w. induction ds as [|d ds IH]; intros w Eh Hs; simpl.
  - eexists. split; [|done]. rewrite Z.sub_0_r. unfold u64. rewrite wrap_small by done. destruct w; simpl in *; subst; reflexivity.
  - set (w1 := set_files w (unlinked d (w_files w))).
    rewrite (PM_bind_inr _ _ _ () w1).
    2: { unfold w1, unlinked. destruct (bd_iFlags d == _); [|by destruct w].
         destruct (bd_fileName (bd_data d)); [|by destruct w]. destruct (bd_tempFile _); [done|by destruct w]. }
    rewrite (PM_bind_inr _ _ _ _ _ (add_sg_size_run _ w1 Eh)).
    destruct (IH (grown w1 (- bd_iLength d)) Eh) as (f & -> & ->); [by apply wrap_range|].
    eexists. split; [|done]. do 3 f_equal. unfold grown. simpl. unfold u64. rewrite wrap_sub_l. f_equal. lia.
Qed.
End Run.

(** One step of a run: [H] is the result of the first operation. *)
Tactic Notation "pm" uconstr(H) := rewrite (PM_bind_inr _ _ _ _ _ H); cbv beta iota delta [negb].

(** ** The invariant *)

Section Invariant.
Context `{EVPLaws} `{LibUuid}.
Implicit Types w : World.
Implicit Types x : BlockPoolItem.

Definition item_bytes x : Z := data_bytes (bp_pData x).

(** The bytes the live items account for. *)
Definition pool_bytes (m : gmap positive BlockPoolItem) : Z := map_fold (fun _ x n => item_bytes x + n) 0 m.

(** The data of a piece and of an item. *)
Definition piece (d : BlockPoolData) : list Z :=
  match bd_file (bd_data d), bd_pointer (bd_data d) with
  | Some f, _ => f_data f
  | None, Some p => take (Z.to_nat (bd_iLength d)) p
  | None, None => []
  end.
Definition data_of x : list Z := concat (map piece (bp_pData x)).

(** A piece of memory as long as it says, an open file, and one at its start. *)
Definition in_memory (d : BlockPoolData) : Prop :=
  exists p, bd_pointer (bd_data d) = Some p /\ bd_file (bd_data d) = None /\ 0 <= bd_iLength d <= Z.of_nat (length p).
Definition in_file (d : BlockPoolData) : Prop :=
  bd_iFlags d = BLOCK_POOL_DATA_FLAG_FILE /\ bd_pointer (bd_data d) = None /\
  exists c n, bd_file (bd_data d) = Some (mkFile c n None) /\ bd_iLength d = Z.of_nat (length c).
Definition at_start (d : BlockPoolData) : Prop :=
  in_file d /\ exists c, bd_file (bd_data d) = Some (mkFile c 0 None).
Definition piece_ok (d : BlockPoolData) : Prop := in_memory d \/ in_file d.

(** Updates of a digest do not fail. *)
Definition evp_total : Prop := forall c ys, is_Some (EVP_DigestUpdate c ys).

(** The block id of an item has the length of the data, the pieces are readable,
    and while the item is collecting its hash is open, with the data absorbed. *)
Definition pitem_ok x : Prop :=
  exists id h, item_id x = Some id /\ bi_pHash id = Some h /\
    bi_iLength id = u64 (Z.of_nat (length (data_of x))) /\ Forall piece_ok (bp_pData x) /\
    (Z.land (bp_iStatus x) BLOCK_POOL_STATUS_MASK = BLOCK_POOL_STATUS_COLLECTING ->
     exists md xs, opened h md xs /\ (evp_total -> xs = data_of x)).

(** The items all have a property; [world_ok] is the invariant of the pool. *)
Record world_inv (P : BlockPoolItem -> Prop) w : Prop := {
  wi_held : w_held w = [];
  wi_size : w_size w = u64 (pool_bytes (w_items w));
  wi_items : map_Forall (fun _ x => P x) (w_items w)
}.
Definition world_ok w : Prop := world_inv pitem_ok w.

Section Any.
Context {P : BlockPoolItem -> Prop}.

Lemma wo_held w : world_inv P w -> w_held w = [].
Proof. by intros []. Qed.

Lemma wo_size w : world_inv P w -> w_size w = u64 (pool_bytes (w_items w)).
Proof. by intros []. Qed.

Lemma wo_items w : world_inv P w -> map_Forall (fun _ x => P x) (w_items w).
Proof. by intros []. Qed.

Lemma wo_width w : world_inv P w -> in_width 64 (w_size w).
Proof. intros Hw. rewrite (wo_size _ Hw). by apply wrap_range. Qed.
End Any.

Lemma pool_bytes_insert m i x : m !! i = None -> pool_bytes (<[i := x]> m) = item_bytes x + pool_bytes m.
Proof. intros E. unfold pool_bytes. rewrite map_fold_insert_L; [done| |done]. intros. lia. Qed.

Lemma pool_bytes_delete m i x : m !! i = Some x -> pool_bytes m = item_bytes x + pool_bytes (delete i m).
Proof. intros E. unfold pool_bytes. rewrite (map_fold_delete_L _ _ i x m); [done| |done]. intros. lia. Qed.

Lemma pool_bytes_update m i x x' : m !! i = Some x ->
  pool_bytes (<[i := x']> m) = pool_bytes m - item_bytes x + item_bytes x'.
Proof.
  intros E. rewrite (pool_bytes_delete m i x E), <- insert_delete_eq, pool_bytes_insert by apply lookup_delete_eq. lia.
Qed.

Lemma data_bytes_snoc ds d : data_bytes (ds ++ [d]) = data_bytes ds + bd_iLength d.
Proof. unfold data_bytes. rewrite foldr_app. simpl. induction ds; simpl; lia. Qed.

Lemma item_id_set x id id' : item_id x = Some id -> item_id (set_item_id x id') = Some id'.
Proof. unfold item_id, set_item_id. simpl. by destruct (e_pBlock (bp_pEvent x)). Qed.

(** The item with a piece of data appended and a new block id. *)
Definition appended x (d : BlockPoolData) (id : BlockId) : BlockPoolItem :=
  set_pData (set_item_id x id) (bp_pData x ++ [d]).

Lemma appended_ok x d id h h' md xs ys : item_id x = Some id -> bi_pHash id = Some h ->
  bi_iLength id = u64 (Z.of_nat (length (data_of x))) -> Forall piece_ok (bp_pData x) -> piece_ok d ->
  opened h' md (xs ++ ys) ->
  (evp_total -> xs = data_of x) -> (evp_total -> ys = piece d) ->
  pitem_ok (appended x d (mkBlockId (Some h') (bi_uuidDataType id)
    (u64 (bi_iLength id + Z.of_nat (length (piece d)))))).
Proof.
  intros Hid Hh Hl Hps Hp Ho Hx Hy. assert (Hd : forall id', data_of (appended x d id') = data_of x ++ piece d).
  { intros. unfold data_of. simpl. by rewrite map_app, concat_app; simpl; rewrite app_nil_r. }
  eexists _, _. split; [by apply (item_id_set x id)|]. split; [done|]. simpl. rewrite Hd, length_app. split_and!.
  - rewrite Hl. unfold u64. rewrite wrap_add_l. f_equal. lia.
  - apply Forall_app. by split; [|constructor].
  - intros _. exists md, (xs ++ ys). split; [done|]. intros Ht. by rewrite Hx, Hy.
Qed.

(** Storing an item that accounts for [n] more bytes. *)
Lemma world_inv_store (P : BlockPoolItem -> Prop) w i x x' n f : world_inv P w -> w_items w !! i = Some x -> P x' ->
  item_bytes x' = item_bytes x + n ->
  world_inv P (mkWorld (<[i := x']> (w_items w)) (u64 (w_size w + n)) [] f).
Proof.
  intros Hw Hi Hx Hb. constructor; simpl; [done| |].
  - rewrite (pool_bytes_update _ i x) by done. rewrite (wo_size _ Hw). unfold u64. rewrite wrap_add_l. f_equal. lia.
  - apply map_Forall_insert_2; [done|]. apply Hw.
Qed.

(** ** Adding data *)

(** Whether data of [n] bytes is taken. *)
Definition accepts (cfg : PoolConfig) w x (n : Z) : bool :=
  negb (exceeds (BlockPoolMaxSize cfg) (u64 (w_size w + n))) &&
  (bp_iStatus x == BLOCK_POOL_STATUS_COLLECTING) &&
  match item_id x with
  | Some id => negb (exceeds (BlockPoolMaxItemSize cfg) (u64 (bi_iLength id + n)))
  | None => false
  end.

Lemma Update_total h md xs ys : opened h md xs ->
  exists b h' zs, Hash_Update (Some h) ys = Some (b, Some h') /\ opened h' md (xs ++ zs) /\ (evp_total -> zs = ys).
Proof.
  intros Ho. destruct (Update_opened h md xs ys Ho) as ([] & h' & E & Hb & _).
  - exists true, h', ys. by split_and!.
  - subst h'. exists false, h, []. split_and!; [done|by rewrite app_nil_r|]. intros Ht.
    unfold Hash_Update in E. rewrite (opened_updatable _ _ _ Ho) in E. simpl in E.
    destruct (opened_ctx _ _ _ Ho) as (c & Hc & _). rewrite Hc in E. simpl in E. by destruct (Ht c ys) as [c' Hc'], (EVP_DigestUpdate c ys).
Qed.

Lemma AddData_run cfg ok i d n fl w x : world_ok w -> w_items w !! i = Some x -> 0 < n < 2 ^ 32 ->
  n <= Z.of_nat (length d) ->
  exists w', BlockPool_AddData cfg ok (Some i) (Some d) n fl w = inr (accepts cfg w x n && ok, w') /\
    if accepts cfg w x n && ok then
      exists x', w' = mkWorld (<[i := x']> (w_items w)) (u64 (w_size w + n)) [] (w_files w) /\
        world_ok w' /\ bp_iStatus x' = bp_iStatus x /\ data_of x' = data_of x ++ take (Z.to_nat n) d
    else w' = w.
Proof.
  intros Hw Hi Hn Hd. pose proof (wo_held _ Hw) as Hh. pose proof (wo_width _ Hw) as Hs.
  destruct (wo_items _ Hw i x Hi) as (id & h & Hid & Hph & Hl & Hps & Hopen).
  unfold BlockPool_AddData, accepts. rewrite (proj2 (Z.leb_gt n 0)), Hid by lia.
  rewrite (PM_bind_inr _ _ _ (negb (exceeds (BlockPoolMaxSize cfg) (u64 (w_size w + n))))
    (if exceeds (BlockPoolMaxSize cfg) (u64 (w_size w + n)) then w else grown w n)).
  2: { rewrite reserve_run by done. destruct (exceeds _ _); [|done]. rewrite PM_ret_bind.
       rewrite (PM_bind_inr (Mutex_Unlock None) _ _ () w); [done|].
       rewrite (unlock_run None _ []); [|set_solver|done]. by destruct w; simpl in *; subst. }
  destruct (exceeds (BlockPoolMaxSize cfg) _); cbv beta iota delta [negb]; [by exists w|].
  pm (item_lock_run i x (grown w n) Hi Hh).
  pm (load_run i x (set_held (grown w n) [Some i]) Hi).
  destruct (Z.eqb_spec (bp_iStatus x) BLOCK_POOL_STATUS_COLLECTING) as [Est|]; cbv beta iota delta [negb].
  2: { pm (give_back_run i x n w Hi Hh Hs). by exists w. }
  pm (derefp_run _ id _ Hid).
  destruct (exceeds (BlockPoolMaxItemSize cfg) _); cbv beta iota delta [negb].
  { pm (give_back_run i x n w Hi Hh Hs). by exists w. }
  destruct ok; cbv beta iota delta [negb].
  2: { pm (give_back_run i x n w Hi Hh Hs). by exists w. }
  destruct (Hopen ltac:(by rewrite Est)) as (md & xs & Ho & Hx).
  assert (Er : read_bytes d n = Some (take (Z.to_nat n) d)) by (unfold read_bytes; by rewrite (proj2 (Z.ltb_ge _ _) Hd)).
  pm (derefp_run _ _ _ Er).
  destruct (Update_total h md xs (take (Z.to_nat n) d) Ho) as (b & h' & zs & Eu & Ho' & Hz). rewrite Hph.
  pm (derefp_run _ _ _ Eu). cbv iota beta.
  set (dat := mkBlockPoolData n fl _).
  assert (Hpl : Z.of_nat (length (piece dat)) = n) by (change (piece dat) with (take (Z.to_nat n) d); rewrite length_take; lia).
  assert (Hpo : piece_ok dat) by (left; exists d; simpl; split_and!; [done|done|lia..]).
  pose proof (appended_ok x dat id h h' md xs zs Hid Hph Hl Hps Hpo Ho' Hx Hz) as Hok. rewrite Hpl in Hok.
  set (x' := set_pData _ _).
  change (pitem_ok x') in Hok.
  pm (store_run i x' _).
  pm (item_unlock_run i x' (set_items (set_held (grown w n) [Some i]) (<[i := x']> (w_items w))) (lookup_insert_eq _ _ _) eq_refl).
  eexists. split; [done|]. exists x'. split_and!; [done| |done|].
  - apply (world_inv_store _ w i x x' n); [done..|]. unfold item_bytes. simpl. apply data_bytes_snoc.
  - unfold data_of. simpl. rewrite map_app, concat_app. simpl. by rewrite app_nil_r.
Qed.

(** A file is read to its end. *)
Lemma Update_File_loop_total fuel : forall h md xs f, opened h md xs -> (length (f_rest f) < fuel)%nat ->
  exists b h' zs, Update_File_loop fuel h f = Some (b, h', rewind f) /\ opened h' md (xs ++ zs) /\
    (evp_total -> zs = f_rest f).
Proof.
  induction fuel as [|fuel IH]; intros h md xs f Ho Hf; [lia|]. cbn [Update_File_loop].
  destruct (fread_rest 4096 f) as (Hc & Hr & Hw). destruct (fread 4096 f) as [chunk f'].
  cbn [fst snd] in Hc, Hr, Hw. rewrite Hw. destruct chunk as [|b0 chunk].
  { exists true, h, []. rewrite app_nil_r. split_and!; [done..|]. intros _.
    destruct (f_rest f); [done|]. by discriminate Hc. }
  destruct (opened_ctx _ _ _ Ho) as (c & Hcc & _). rewrite Hcc. cbn [mbind option_bind].
  destruct (EVP_DigestUpdate c (b0 :: chunk)) as [c'|] eqn:E.
  2: { exists false, h, []. rewrite app_nil_r. split_and!; [done..|]. intros Ht.
       destruct (Ht c (b0 :: chunk)) as [c' Hc']. by rewrite Hc' in E. }
  destruct (IH (set_CTX h c') md (xs ++ b0 :: chunk) f') as (b & h' & zs & -> & Ho' & Hz).
  { by eapply set_CTX_opened. }
  { rewrite Hr, length_drop. destruct (f_rest f); [by discriminate Hc|]. cbn [length] in *. lia. }
  rewrite Hw. exists b, h', ((b0 :: chunk) ++ zs). rewrite app_assoc. split_and!; [done..|].
  intros Ht. by rewrite (Hz Ht), Hr, Hc, take_drop.
Qed.

Lemma Update_File_total h md xs f : opened h md xs ->
  exists b h' zs, Hash_Update_File (Some h) (Some f) = Some (b, Some h', Some (rewind f)) /\
    opened h' md (xs ++ zs) /\ (evp_total -> zs = f_rest f).
Proof.
  intros Ho. unfold Hash_Update_File. rewrite (opened_updatable _ _ _ Ho). cbv beta iota delta [negb].
  destruct (Update_File_loop_total (S (length (f_data f))) h md xs f Ho) as (b & h' & zs & -> & ? & ?).
  { unfold f_rest. rewrite length_drop. destruct (f_err f); rewrite ?length_take; lia. }
  cbn [mbind option_bind]. eauto 6.
Qed.

(** The files after the data block of [name] was destroyed. *)
Definition temp_gone (dup temp : bool) (name : string) (f : gmap string (list Z)) : gmap string (list Z) :=
  if dup && temp then delete name f else f.

Lemma destroy_new_run (dup temp : bool) name file w : w_held w = [] -> in_width 64 (w_size w) ->
  BlockPool_DestroyItemDataList [mkBlockPoolData 0 BLOCK_POOL_DATA_FLAG_FILE
    (mkBlockData (if dup then Some name else None) None file temp)] w =
  inr ((), set_files w (temp_gone dup temp name (w_files w))).
Proof.
  intros Eh Hs. destruct (DestroyItemDataList_run [mkBlockPoolData 0 BLOCK_POOL_DATA_FLAG_FILE
    (mkBlockData (if dup then Some name else None) None file temp)] w Eh Hs) as (f & -> & ->).
  change (data_bytes _) with 0. rewrite Z.sub_0_r. unfold u64. rewrite wrap_small by done.
  unfold set_files. rewrite Eh. by destruct dup, temp.
Qed.

(** The reservation of data below the limit. *)
Lemma reserve_ok cfg n over w : w_held w = [] ->
  exceeds (BlockPoolMaxSize cfg) (u64 (w_size w + n)) = false -> reserve cfg n over w = inr (true, grown w n).
Proof. intros Eh E. rewrite reserve_run by done. by rewrite E. Qed.

(** Destroying data takes the size mutex, which the caller holds. *)
Lemma destroy_held_run d ds w : w_held w = [None] -> exists e, BlockPool_DestroyItemDataList (d :: ds) w = inl e /\ e = Deadlock.
Proof.
  intros Eh. exists Deadlock. split; [|done]. simpl. set (w1 := set_files w (unlinked d (w_files w))).
  rewrite (PM_bind_inr _ _ _ () w1).
  2: { unfold w1, unlinked. destruct (bd_iFlags d == _); [|by destruct w].
       destruct (bd_fileName (bd_data d)); [|by destruct w]. destruct (bd_tempFile _); [done|by destruct w]. }
  apply PM_bind_inl. unfold add_sg_size. apply PM_bind_inl. unfold Mutex_Lock. rewrite decide_True; [done|].
  simpl. rewrite Eh. set_solver.
Qed.

Lemma FromFile_rejected (dup : bool) i name (temp : bool) file w x n : world_ok w -> w_items w !! i = Some x ->
  (give_back i n ;; BlockPool_DestroyItemDataList [mkBlockPoolData 0 BLOCK_POOL_DATA_FLAG_FILE
    (mkBlockData (if dup then Some name else None) None file temp)] ;; mret false) (set_held (grown w n) [Some i]) =
  inr (false, set_files w (temp_gone dup temp name (w_files w))).
Proof.
  intros Hw Hi. pose proof (wo_held _ Hw) as Hh. pose proof (wo_width _ Hw) as Hs.
  pm (give_back_run i x n w Hi Hh Hs). pm (destroy_new_run dup temp name file w Hh Hs). done.
Qed.

Lemma FromFile_run cfg (dup : bool) i name (temp : bool) content w x :
  let n := Z.of_nat (length content) in
  world_ok w -> w_items w !! i = Some x -> w_files w !! name = Some content -> n < 2 ^ 32 ->
  exceeds (BlockPoolMaxSize cfg) (u64 (w_size w + n)) = false ->
  exists w', BlockPool_AddData_FromFile cfg true dup true (Some i) (Some name) temp w = inr (accepts cfg w x n, w') /\
    if accepts cfg w x n then
      exists x', w' = mkWorld (<[i := x']> (w_items w)) (u64 (w_size w + n)) [] (w_files w) /\
        world_ok w' /\ bp_iStatus x' = bp_iStatus x /\ data_of x' = data_of x ++ content
    else w' = set_files w (temp_gone dup temp name (w_files w)).
Proof.
  intros n Hw Hi Hf Hn Hex. pose proof (wo_held _ Hw) as Hh. pose proof (wo_width _ Hw) as Hs.
  destruct (wo_items _ Hw i x Hi) as (id & h & Hid & Hph & Hl & Hps & Hopen).
  unfold BlockPool_AddData_FromFile, accepts. cbv beta iota delta [negb]. rewrite Hid, Hex.
  rewrite (PM_bind_inr get _ w w w eq_refl). cbv beta iota. rewrite Hf. cbv zeta. fold n.
  pm (reserve_ok cfg n _ w Hh Hex).
  pm (item_lock_run i x (grown w n) Hi Hh).
  pm (load_run i x (set_held (grown w n) [Some i]) Hi).
  destruct (Z.eqb_spec (bp_iStatus x) BLOCK_POOL_STATUS_COLLECTING) as [Est|]; cbv beta iota delta [negb].
  2: { rewrite (FromFile_rejected dup i name temp _ w x) by done. by eexists. }
  pm (derefp_run _ id _ Hid).
  destruct (exceeds (BlockPoolMaxItemSize cfg) _); cbv beta iota delta [negb].
  { rewrite (FromFile_rejected dup i name temp _ w x) by done. by eexists. }
  destruct (Hopen ltac:(by rewrite Est)) as (md & xs & Ho & Hx).
  destruct (Update_File_total h md xs (mkFile content 0 None) Ho) as (b & h' & zs & Eu & Ho' & Hz). rewrite Hph.
  pm (derefp_run _ _ _ Eu). cbv iota beta.
  assert (Hnn : u32 n = n) by (apply wrap_small; unfold in_width; lia). rewrite Hnn.
  set (dat := mkBlockPoolData n _ _).
  assert (Hpo : piece_ok dat) by (right; split_and!; [done|done|by exists content, 0%nat]).
  pose proof (appended_ok x dat id h h' md xs zs Hid Hph Hl Hps Hpo Ho' Hx Hz) as Hok.
  change (Z.of_nat (length (piece dat))) with n in Hok.
  set (x' := set_pData _ _). change (pitem_ok x') in Hok.
  pm (store_run i x' _).
  pm (item_unlock_run i x' (set_items (set_held (grown w n) [Some i]) (<[i := x']> (w_items w))) (lookup_insert_eq _ _ _) eq_refl).
  eexists. split; [done|]. exists x'. split_and!; [done| |done|].
  - apply (world_inv_store _ w i x x' n); [done..|]. unfold item_bytes. simpl. apply data_bytes_snoc.
  - unfold data_of. simpl. rewrite map_app, concat_app. simpl. by rewrite app_nil_r.
Qed.

End Invariant.

(** ** Finalising *)

Section Finalize.
Context `{EVPLaws} `{LibUuidLaws} `{Magic}.
Variable sg : UuidLists.
Variable us : list UUIDListNode.
Hypothesis known_types : entries (UUID_Get_List sg UUID_TYPE_DATA_TYPE) us.
Implicit Types w : World.
Implicit Types x : BlockPoolItem.

Lemma piece_length d : piece_ok d -> Z.of_nat (length (piece d)) = bd_iLength d.
Proof.
  unfold piece. intros [(p & -> & -> & Hl)|(_ & _ & c & n & -> & ->)]; [|done]. rewrite length_take. lia.
Qed.

Lemma item_bytes_data x : Forall piece_ok (bp_pData x) -> item_bytes x = Z.of_nat (length (data_of x)).
Proof.
  unfold item_bytes, data_of. induction 1 as [|d ds Hd _ IH]; simpl; [done|].
  rewrite length_app, Nat2Z.inj_add, piece_length by done. lia.
Qed.

(** The loop collects the first [HOWMANY] bytes of pieces of memory. *)
Lemma coalesce_run ds : forall buf w, Forall in_memory ds -> (length buf <= Z.to_nat HOWMANY)%nat ->
  coalesce ds buf w = inr (take (Z.to_nat HOWMANY) (buf ++ concat (map piece ds)), w).
Proof.
  induction ds as [|d ds IH]; intros buf w Hds Hb; simpl.
  { by rewrite app_nil_r, take_ge. }
  apply Forall_cons in Hds as [Hd Hds]. destruct Hd as (p & Hp & Hf & Hl).
  destruct (Z.leb_spec HOWMANY (Z.of_nat (length buf))) as [Hge|Hlt].
  { rewrite take_app_le by lia. by rewrite take_ge by lia. }
  set (k := if HOWMANY <? _ then _ else _).
  assert (Hk : k = Z.min (HOWMANY - Z.of_nat (length buf)) (bd_iLength d)) by (unfold k; destruct (Z.ltb_spec HOWMANY (Z.of_nat (length buf) + bd_iLength d)); lia).
  rewrite (PM_bind_inr _ _ _ (take (Z.to_nat k) p) w).
  2: { destruct (Z.eqb_spec k 0) as [->|]; [done|]. pm (derefp_run _ p w Hp).
       apply derefp_run. unfold read_bytes. by rewrite (proj2 (Z.ltb_ge (Z.of_nat (length p)) k)) by lia. }
  rewrite IH; [|done|rewrite length_app, length_take; lia]. do 2 f_equal.
  assert (Hpc : piece d = take (Z.to_nat (bd_iLength d)) p) by (unfold piece; by rewrite Hf, Hp). rewrite Hpc.
  destruct (Z.le_gt_cases (bd_iLength d) (HOWMANY - Z.of_nat (length buf))).
  - replace k with (bd_iLength d) by lia. by rewrite <- app_assoc.
  - rewrite !take_app, !length_app, !length_take. rewrite !(take_ge buf) by lia. rewrite <- app_assoc. f_equal.
    rewrite !take_take. f_equal; f_equal; lia.
Qed.

(** What libmagic says of the data, and the data type of a finalised item. *)
Definition detect x : option string :=
  match bp_pData x with
  | [] => None
  | d :: _ =>
      if bd_iFlags d == BLOCK_POOL_DATA_FLAG_FILE then magic_descriptor (piece d)
      else magic_buffer (take (Z.to_nat HOWMANY) (data_of x) ++ [0])
  end.
Definition final_type (open_ok : bool) x (u : uuid_t) : uuid_t :=
  if decide (u = uuid_null) then
    if open_ok then
      match m ← detect x; named m us with Some n => un_uuid n | None => u end
    else u
  else u.

(** The data of an item starts with a file, or it is all in memory. *)
Definition readable x : Prop :=
  match bp_pData x with
  | [] => True
  | d :: ds => if bd_iFlags d == BLOCK_POOL_DATA_FLAG_FILE then at_start d else Forall in_memory (d :: ds)
  end.

Lemma find_uuid_run n w : find_uuid sg n UUID_TYPE_DATA_TYPE w = inr (un_uuid <$> named n us, w).
Proof. unfold find_uuid. by rewrite (Get_UUID_entries _ _ _ _ _ known_types). Qed.

(** Storing a data type. *)
Definition typed x (id : BlockId) (u : uuid_t) : BlockPoolItem :=
  set_item_id x (mkBlockId (bi_pHash id) u (bi_iLength id)).

Lemma get_data_type_run i n w x id : w_items w !! i = Some x -> item_id x = Some id ->
  get_data_type sg i n w =
  match named n us with
  | Some t => inr (true, set_items w (<[i := typed x id (un_uuid t)]> (w_items w)))
  | None => inr (false, w)
  end.
Proof.
  intros Hi Hid. unfold get_data_type. pm (load_run i x w Hi). pm (derefp_run _ id w Hid).
  pm (find_uuid_run n w). by destruct (named n us).
Qed.

Lemma typed_id x id u : item_id x = Some id -> item_id (typed x id u) = Some (mkBlockId (bi_pHash id) u (bi_iLength id)).
Proof. apply item_id_set. Qed.

Lemma typed_same x id : item_id x = Some id -> typed x id (bi_uuidDataType id) = x.
Proof.
  unfold item_id, typed, set_item_id, set_pEvent, set_block. destruct x as [st ds cb c [a b c' d [[e f g hh k]|] l]]; simpl; [|done].
  by intros ->; destruct id.
Qed.

Lemma rewound_same d f : bd_file (bd_data d) = Some f -> f_pos f = 0%nat -> rewound d f = d.
Proof. destruct d as [? ? [? ? ? ?]], f; simpl. unfold rewound, rewind. simpl. by intros [= ->] ->. Qed.

Lemma mimetype_run i w x : w_items w !! i = Some x -> bp_pData x <> [] -> readable x ->
  exists err, mimetype i x w = inr ((detect x, err), w).
Proof.
  intros Hi Hd Hr. unfold mimetype, detect, readable, data_of in *. destruct (bp_pData x) as [|d ds] eqn:E; [done|].
  destruct (bd_iFlags d == BLOCK_POOL_DATA_FLAG_FILE).
  - destruct Hr as (_ & c & Hc). pm (derefp_run _ _ w Hc). rewrite rewound_same by done.
    rewrite <- E. pm (store_run i (set_pData x (bp_pData x)) w). eexists.
    unfold piece. rewrite Hc. replace (set_pData x (bp_pData x)) with x by (by destruct x).
    rewrite insert_id by done. by destruct w.
  - pm (coalesce_run (d :: ds) [] w Hr (Nat.le_0_l _)). by eexists.
Qed.

(** [Magic_process] sets the data type libmagic detects, if it is a known one. *)
Lemma Magic_process_run o i w x id : w_items w !! i = Some x -> item_id x = Some id -> bp_pData x <> [] -> readable x ->
  bi_uuidDataType id = uuid_null ->
  exists b, Magic_process sg o i w =
    inr (b, set_items w (<[i := typed x id (final_type o x (bi_uuidDataType id))]> (w_items w))).
Proof.
  intros Hi Hid Hd Hr Hu. unfold Magic_process, final_type. rewrite decide_True by done.
  assert (Hsame : set_items w (<[i := typed x id (bi_uuidDataType id)]> (w_items w)) = w).
  { rewrite typed_same by done. rewrite insert_id by done. by destruct w. }
  destruct o; cbv beta iota delta [negb]; [|rewrite Hsame; by exists false].
  pm (load_run i x w Hi). destruct (mimetype_run i w x Hi Hd Hr) as [err Hm]. pm Hm.
  destruct (detect x) as [m|]; cbn [mbind option_bind].
  - rewrite (get_data_type_run i m w x id) by done. destruct (named m us); [by exists true|]. rewrite Hsame. by exists false.
  - rewrite Hsame. by eexists.
Qed.

(** The item a finalisation leaves. *)
Definition finalised (o : bool) x (id : BlockId) (h : Hash) : BlockPoolItem :=
  set_iStatus (set_item_id x (mkBlockId (Some h) (final_type o x (bi_uuidDataType id)) (bi_iLength id)))
    BLOCK_POOL_STATUS_FINALIZED.

Lemma final_type_nil o x u : bp_pData x = [] -> final_type o x u = u.
Proof. unfold final_type, detect. intros ->. by destruct (decide _), o. Qed.

Lemma final_type_set o x id u : final_type o (set_item_id x id) u = final_type o x u.
Proof. done. Qed.

Lemma set_item_id_twice x a b : set_item_id (set_item_id x a) b = set_item_id x b.
Proof.
  unfold set_item_id, set_pEvent, set_block. destruct x as [st ds cb c [a' b' c' d [[e f g hh k]|] l]]; done.
Qed.

Lemma FinalizeItem_run o i w x id h : world_ok w -> w_items w !! i = Some x ->
  bp_iStatus x = BLOCK_POOL_STATUS_COLLECTING -> item_id x = Some id -> bi_pHash id = Some h ->
  (bi_uuidDataType id = uuid_null -> readable x) ->
  exists b h', Hash_Finalize (Some h) = Some (b, Some h') /\
    BlockPool_FinalizeItem sg o (Some i) w =
    inr (b, if b then set_items w (<[i := finalised o x id h']> (w_items w)) else w).
Proof.
  intros Hw Hi Hst Hid Hph Hr. destruct (wo_items _ Hw i x Hi) as (id0 & h0 & Hid0 & Hph0 & Hl & Hps & Hopen).
  rewrite Hid in Hid0. injection Hid0 as <-. rewrite Hph in Hph0. injection Hph0 as <-.
  destruct (Hopen ltac:(by rewrite Hst)) as (md & xs & Ho & Hx). destruct (Finalize_opened h md xs Ho) as (b & h' & Ef & Hb).
  exists b, h'. split; [done|]. unfold BlockPool_FinalizeItem. pm (load_run i x w Hi).
  rewrite Hst, Z.eqb_refl. cbv beta iota delta [negb]. pm (derefp_run _ id w Hid). rewrite Hph.
  pm (derefp_run _ _ w Ef). set (x1 := set_item_id x _). pm (store_run i x1 w).
  assert (Hid1 : item_id x1 = Some (mkBlockId (Some h') (bi_uuidDataType id) (bi_iLength id))) by (by apply (item_id_set x id)).
  destruct b; cbv beta iota delta [negb].
  2: { subst h'. do 2 f_equal. unfold x1. rewrite <- Hph. pose proof (typed_same x id Hid) as Hs. unfold typed in Hs.
       rewrite Hs, insert_id by done. by destruct w. }
  set (w1 := set_items w _). assert (Hi1 : w_items w1 !! i = Some x1) by apply lookup_insert_eq.
  set (x2 := set_item_id x (mkBlockId (Some h') (final_type o x (bi_uuidDataType id)) (bi_iLength id))).
  assert (Hm : exists r, (if (uuid_is_null (bi_uuidDataType id) == 1) && negb (bool_decide (bp_pData x = []))
      then Magic_process sg o i else mret true) w1 = inr (r, set_items w (<[i := x2]> (w_items w)))).
  { destruct (_ && _) eqn:E.
    - apply andb_true_iff in E as [E1 E2]. rewrite uuid_is_null_spec in E1.
      destruct (bool_decide_reflect (bi_uuidDataType id = uuid_null)) as [Eu|]; [|done].
      apply negb_true_iff, bool_decide_eq_false in E2.
      destruct (Magic_process_run o i w1 x1 _ Hi1 Hid1 E2 (Hr Eu) Eu) as [r Er].
      exists r. rewrite Er. unfold w1, x1, x2, typed, set_items. simpl. by rewrite insert_insert_eq, set_item_id_twice.
    - exists true. unfold w1, x1, x2. replace (final_type o x (bi_uuidDataType id)) with (bi_uuidDataType id); [done|].
      apply andb_false_iff in E as [E|E].
      + unfold final_type. rewrite uuid_is_null_spec in E.
        destruct (bool_decide_reflect (bi_uuidDataType id = uuid_null)); [done|]. by rewrite decide_False.
      + apply negb_false_iff, bool_decide_eq_true in E. by rewrite final_type_nil. }
  destruct Hm as [r Hm]. pm Hm.
  pm (load_run i x2 (set_items w (<[i := x2]> (w_items w))) (lookup_insert_eq _ _ _)).
  pm (store_run i (set_iStatus x2 BLOCK_POOL_STATUS_FINALIZED) (set_items w (<[i := x2]> (w_items w)))).
  do 2 f_equal. unfold set_items. simpl. by rewrite insert_insert_eq.
Qed.
End Finalize.

