(* ===== verification/PoolThms.v ===== *)
(** * The block pool: its invariant and its theorems

    [pool_ok] ties the list of the pool to the items of the world.  The operations
    are gathered in [op]; [reaches] are the pools the valid operations lead to. *)

From S2P Require Import CLib RzbList RzbListProps ListM Hash LibUuid Uuids Ntlv Blocks BlockPool BlockPoolProps Prelude.

(** ** Items in the pool *)

Section Pool.
Context `{EVPLaws} `{LibUuidLaws}.
Implicit Types (p : Pool) (w : World) (x : BlockPoolItem).

(** A new event: an id, a block of length 0 and an open hash without data. *)
Definition fresh_event (t : Z) (e : Event) : Prop :=
  is_Some (e_pId e) /\ exists b h md, e_pBlock e = Some b /\ b_pId b = Some (mkBlockId (Some h) uuid_null 0) /\
    h_iType h = t /\ opened h md [].

Lemma Hash_Create_ensures t : ensures (Hash_Create t) (fun h => h_iType h = t /\ exists md, opened h md []).
Proof.
  assert (Hs : ensures (Hash_Create t) (fun _ => True)) by (unfold Hash_Create, Hash_Create_Type, Hash_Init_OpenSSL; repeat m_step; done).
  intros o. destruct (Hs o) as (r & o' & E & _). exists r, o'. split; [done|]. intros h ->.
  by apply Create_Type_opened in E.
Qed.

Lemma BlockId_Create_ensures t : ensures (BlockId_Create t)
  (fun id => exists h md, id = mkBlockId (Some h) uuid_null 0 /\ h_iType h = t /\ opened h md []).
Proof.
  unfold BlockId_Create, BlockId_Create_Shallow. eapply (ensures_bind _ _ (fun i => i = mkBlockId None uuid_null 0)).
  { m_step. by m_step. }
  intros ? ->. m_step; [apply Hash_Create_ensures|]. intros h (Ht & md & Ho). m_step. eauto 6.
Qed.

Lemma Block_Create_ensures t : ensures (Block_Create t)
  (fun b => exists h md, b_pId b = Some (mkBlockId (Some h) uuid_null 0) /\ h_iType h = t /\ opened h md []).
Proof.
  unfold Block_Create. m_step. m_step; [apply BlockId_Create_ensures|]. intros ? (h & md & -> & ?).
  m_step; [apply create_ensures|]. intros ? _. m_step. simpl. eauto.
Qed.

Lemma EventId_Create_ensures clock : ensures (EventId_Create clock) (fun _ => True).
Proof. unfold EventId_Create. m_step. destruct x. m_step. by m_step. Qed.

Lemma Event_Create_ensures clock t : ensures (Event_Create clock t) (fresh_event t).
Proof.
  unfold Event_Create. m_step. m_step; [apply EventId_Create_ensures|]. intros id _.
  m_step; [apply create_ensures|]. intros ntlv _. m_step; [apply Block_Create_ensures|].
  intros b (h & md & Hb & Ht & Ho). m_step. split; [done|]. simpl. eauto 7.
Qed.

(** ** The invariant of the pool *)

(** The list of the pool, as [BlockPool_Init] makes it. *)
Record pool_shape (l : List_t (fault + World) unit positive) : Prop := {
  ps_mode : l_mode l = LIST_MODE_GENERIC;
  ps_limit : l_limit l = 0;
  ps_cmp : l_cmp l = None;
  ps_destroy : l_destroy l = Some BlockPool_Delete;
  ps_lock : l_nodeLock l = Some (fun i => run_unit (BlockPool_Item_Lock i));
  ps_unlock : l_nodeUnlock l = Some (fun i => run_unit (BlockPool_Item_Unlock i))
}.

(** The list holds live items, each once. *)
Record pool_inv (P : BlockPoolItem -> Prop) p (xs : list positive) : Prop := {
  pi_list : exists l, sg_bpList p = Some l /\ pool_shape l /\ contents l xs;
  pi_nodup : NoDup xs;
  pi_live : Forall (fun i => is_Some (w_items (pool_world p) !! i)) xs;
  pi_world : world_inv P (pool_world p)
}.
Definition pool_ok p (xs : list positive) : Prop := pool_inv pitem_ok p xs.

Lemma po_world {P} p xs : pool_inv P p xs -> world_inv P (pool_world p).
Proof. by intros []. Qed.

Lemma pool_shape_meta l l' : meta l' = meta l -> pool_shape l -> pool_shape l'.
Proof. unfold meta. intros E []. split; congruence. Qed.

Lemma pool_shape_known l : pool_shape l -> known_mode l = true /\ is_stack l = false /\ at_limit l = false.
Proof. intros [Hm Hl _ _ _ _]. unfold known_mode, is_stack, at_limit. by rewrite Hm, Hl. Qed.

Definition empty_world (f : gmap string (list Z)) : World := mkWorld ∅ 0 [] f.

Lemma Init_ok f p : BlockPool_Init true true true (empty_world f) = (true, p) -> pool_ok p [].
Proof.
  intros [= <-]. split; [|constructor|constructor|].
  - eexists. split; [done|]. split; [done|]. eapply (Create_contents true true true LIST_MODE_GENERIC). reflexivity.
  - split; [done|done|]. apply map_Forall_empty.
Qed.

(** An item with a fresh event accounts for nothing. *)
Lemma new_item_ok t e ctx : fresh_event t e -> pitem_ok (mkBlockPoolItem BLOCK_POOL_STATUS_COLLECTING [] None ctx e).
Proof.
  intros (_ & b & h & md & Hb & Hid & _ & Ho). exists (mkBlockId (Some h) uuid_null 0), h.
  unfold item_id. simpl. rewrite Hb. simpl. split_and!; [done..|constructor|]. intros _. by exists md, [].
Qed.

Lemma world_inv_new (P : BlockPoolItem -> Prop) w i x : world_inv P w -> w_items w !! i = None -> P x -> bp_pData x = [] ->
  world_inv P (set_items w (<[i := x]> (w_items w))).
Proof.
  intros Hw Hi Hx Hd. split; simpl; [apply Hw| |].
  - rewrite pool_bytes_insert by done. unfold item_bytes. rewrite Hd. apply Hw.
  - apply map_Forall_insert_2; [done|apply Hw].
Qed.

(** A new item is collecting, without data, with the ids of the context. *)
Definition new_item cfg (ctx : RazorbackContext) x : Prop :=
  bp_iStatus x = BLOCK_POOL_STATUS_COLLECTING /\ bp_pData x = [] /\ bp_context x = ctx /\
  e_uuidApplicationType (bp_pEvent x) = ctx_uuidApplicationType ctx /\
  (exists id, e_pId (bp_pEvent x) = Some id /\ ei_uuidNuggetId id = ctx_uuidNuggetId ctx) /\
  exists h, item_id x = Some (mkBlockId (Some h) uuid_null 0) /\ h_iType h = HashType cfg.

Lemma CreateItem_run cfg clock push_ok o context p xs : pool_ok p xs ->
  exists r p', BlockPool_CreateItem cfg clock push_ok o context p = inr (r, p') /\
    match r with
    | None => p' = p
    | Some i =>
        exceeds (BlockPoolMaxItems cfg) (u64 (Z.of_nat (length xs))) = false /\
        w_items (pool_world p) !! i = None /\
        pool_ok p' (if push_ok then xs ++ [i] else xs) /\
        exists ctx x, context = Some ctx /\ new_item cfg ctx x /\
          pool_world p' = set_items (pool_world p) (<[i := x]> (w_items (pool_world p)))
    end.
Proof.
  intros [(l & El & Hsh & Hc) Hnd Hlive Hw]. unfold BlockPool_CreateItem.
  destruct context as [ctx|]; [|by eexists _, _]. rewrite El. unfold List_Length. rewrite (contents_length _ _ Hc).
  destruct (exceeds (BlockPoolMaxItems cfg) _) eqn:Hex; [by eexists _, _|].
  assert (He : ensures (alloc ;; e ← new_event cfg clock; alloc ;; mret e) (fresh_event (HashType cfg))).
  { m_step. m_step; [apply Event_Create_ensures|]. intros e He. m_step. by m_step. }
  destruct (He o) as (r & o' & -> & Hr). destruct r as [e|]; [|by eexists _, _]. specialize (Hr e eq_refl).
  pose proof Hr as ([id Hid] & b & h & md & Hb & Hbid & Ht & Ho). rewrite Hid.
  set (i := fresh _). set (x := mkBlockPoolItem _ _ _ _ _).
  assert (Hi : w_items (pool_world p) !! i = None) by (apply not_elem_of_dom, is_fresh).
  assert (Hx : pitem_ok x) by (apply (new_item_ok (HashType cfg)); split; [done|]; eauto 7).
  assert (Hpush : exists l', List_Push push_ok (Some l) i = Some (push_ok, Some l') /\ pool_shape l' /\
    contents l' (if push_ok then xs ++ [i] else xs)).
  { destruct (pool_shape_known l Hsh) as (Hk & Hs & Hl). destruct push_ok.
    - destruct (Push_ok l xs i Hc Hl Hk) as (l' & E & Hme & _ & Hc'). rewrite Hs in Hc'.
      exists l'. split_and!; [done|by eapply pool_shape_meta|done].
    - exists l. by rewrite Push_refused. }
  destruct Hpush as (l' & -> & Hsh' & Hc'). eexists _, _. split; [done|].
  split_and!; [done|done| |].
  2: { exists ctx, x. split_and!; [done| |done]. split_and!; [done..| |]; simpl; [eauto|].
       exists h. unfold item_id. simpl. by rewrite Hb. }
  assert (Hxs : i ∉ xs).
  { intros Hin. rewrite Forall_forall in Hlive. destruct (Hlive i Hin) as [? ?]. congruence. }
  assert (Hlive' : Forall (fun j => is_Some (<[i := x]> (w_items (pool_world p)) !! j)) xs).
  { eapply Forall_impl; [exact Hlive|]. intros j Hj. simpl. by apply lookup_insert_is_Some'; right. }
  split; simpl; [eauto| | |by apply world_inv_new].
  - destruct push_ok; [|done]. apply NoDup_app. split_and!; [done| |apply NoDup_singleton]. set_solver.
  - destruct push_ok; [|done]. apply Forall_app. split; [done|]. constructor; [|done]. by rewrite lookup_insert_eq.
Qed.

(** ** Iteration *)

Lemma pool_locks w i x : w_items w !! i = Some x -> w_held w = [] ->
  run_unit (BlockPool_Item_Lock i) (inr w) = inr (set_held w [Some i]) /\
  run_unit (BlockPool_Item_Unlock i) (inr (set_held w [Some i])) = inr w.
Proof.
  intros Hi Hh. simpl. rewrite (item_lock_run i x w) by done.
  rewrite (item_unlock_run i x (set_held w [Some i])) by done. split; [done|]. f_equal. by destruct w; simpl in *; subst.
Qed.

(** An operation that leaves the world alone is run on every item, locked. *)
Lemma scan_pool {U} (op : positive -> U -> fault + World -> option (Z * U * (fault + World))) (rm : positive -> bool)
    (f : positive -> U -> U) w xs : w_held w = [] -> Forall (fun i => is_Some (w_items w !! i)) xs ->
  (forall i u, is_Some (w_items w !! i) -> op i u (inr (set_held w [Some i])) =
     Some (if rm i then LIST_EACH_REMOVE else LIST_EACH_OK, f i u, inr (set_held w [Some i]))) ->
  forall u, spec.scan op (Some (fun i => run_unit (BlockPool_Item_Lock i))) (Some (fun i => run_unit (BlockPool_Item_Unlock i)))
    xs u (inr w) true = Some (true, map rm xs, foldl (fun u i => f i u) u xs, inr w).
Proof.
  intros Hh Hl Hop. induction Hl as [|i xs [x Hi] _ IH]; intros u; [done|]. cbn [spec.scan run_callback].
  destruct (pool_locks w i x Hi Hh) as [-> Hun]. rewrite Hop by done. cbn [mbind option_bind]. rewrite Hun.
  destruct (rm i) eqn:E; cbn [Z.eqb]; simpl; rewrite IH; simpl; by rewrite E.
Qed.

Lemma filter_one (i : positive) xs : NoDup xs -> i ∈ xs -> filter (fun y => bool_decide (y = i) = true) xs = [i].
Proof.
  induction 1 as [|y xs Hy _ IH]; intros Hin; [set_solver|]. rewrite filter_cons.
  destruct (decide (y = i)) as [->|Hne].
  - rewrite decide_True by (by rewrite bool_decide_eq_true_2). f_equal. clear IH Hin.
    induction xs as [|z xs IH]; [done|]. rewrite filter_cons, decide_False; [apply IH; set_solver|].
    rewrite bool_decide_eq_false_2; [done|]. set_solver.
  - rewrite decide_False by (by rewrite bool_decide_eq_false_2). apply IH. set_solver.
Qed.

Lemma filter_none (i : positive) xs : i ∉ xs -> filter (fun y => bool_decide (y = i) = true) xs = [].
Proof.
  induction xs as [|z xs IH]; [done|]. intros Hn. rewrite filter_cons, decide_False; [apply IH; set_solver|].
  rewrite bool_decide_eq_false_2; [done|]. set_solver.
Qed.

(** The world without an item. *)
Definition without w (i : positive) x : World :=
  mkWorld (delete i (w_items w)) (u64 (w_size w - item_bytes x)) []
    (foldl (fun f d => unlinked d f) (w_files w) (bp_pData x)).

Lemma Delete_run (P : BlockPoolItem -> Prop) w i x : world_inv P w -> w_items w !! i = Some x -> BlockPool_Delete i (inr w) = inr (without w i x).
Proof.
  intros Hw Hi. unfold BlockPool_Delete, run_unit, BlockPool_DestroyItemData. pm (load_run i x w Hi).
  destruct (DestroyItemDataList_run (bp_pData x) w (wo_held _ Hw) (wo_width _ Hw)) as (f & E & ->). pm E. done.
Qed.

Lemma without_ok (P : BlockPoolItem -> Prop) w i x : world_inv P w -> w_items w !! i = Some x -> world_inv P (without w i x).
Proof.
  intros Hw Hi. split; simpl; [done| |by apply map_Forall_delete, Hw].
  rewrite (wo_size _ Hw), (pool_bytes_delete _ i x Hi). unfold u64. rewrite wrap_sub_l. f_equal. lia.
Qed.

Lemma DestroyItem_run (P : BlockPoolItem -> Prop) p xs i : pool_inv P p xs ->
  exists p', BlockPool_DestroyItem (Some i) p = inr (true, p') /\ pool_inv P p' (filter (fun y => bool_decide (y = i) = false) xs) /\
    if decide (i ∈ xs) then exists x, w_items (pool_world p) !! i = Some x /\ pool_world p' = without (pool_world p) i x
    else pool_world p' = pool_world p.
Proof.
  intros [(l & El & Hsh & Hc) Hnd Hlive Hw]. unfold BlockPool_DestroyItem, List_Remove. rewrite El, (ps_cmp _ Hsh).
  pose proof (ForEach_contents (List_FindRemove None i) l xs None (inr (pool_world p)) Hc) as Hfe.
  unfold spec.for_each in Hfe. rewrite (ps_lock _ Hsh), (ps_unlock _ Hsh), (ps_destroy _ Hsh) in Hfe.
  rewrite (scan_pool _ (fun y => bool_decide (y = i)) (fun y r => if bool_decide (y = i) then Some y else r)
    _ _ (wo_held _ Hw) Hlive) in Hfe.
  2: { intros y r _. unfold List_FindRemove. rewrite orb_false_r. by case_bool_decide. }
  cbn [mbind option_bind] in Hfe. destruct (select_filter (fun y => bool_decide (y = i)) xs) as [E1 E2].
  rewrite E1, E2 in Hfe. destruct Hfe as (l' & -> & Hme & _ & Hc' & _). cbn [mbind option_bind].
  assert (Hps : pool_shape l') by (by eapply pool_shape_meta).
  assert (Hnd' : NoDup (filter (fun y => bool_decide (y = i) = false) xs)) by (by apply NoDup_filter).
  destruct (decide (i ∈ xs)) as [Hin|Hn].
  - rewrite filter_one by done. unfold spec.destroy_all. simpl. rewrite Forall_forall in Hlive.
    destruct (Hlive i Hin) as [x Hx]. pose proof (Delete_run P _ i x Hw Hx) as Hd. unfold BlockPool_Delete, run_unit in Hd.
    rewrite Hd. eexists. split; [done|]. split; [|eauto]. split; simpl; [eauto|done| |by apply without_ok].
    apply Forall_forall. intros y [Hy Hiny]%list_elem_of_filter. apply bool_decide_eq_false in Hy.
    rewrite lookup_delete_ne by done. auto.
  - rewrite filter_none by done. unfold spec.destroy_all. simpl. eexists. split; [done|]. split; [|done].
    split; simpl; [eauto|done| |done]. apply Forall_forall.
    intros y [_ Hy]%list_elem_of_filter. rewrite Forall_forall in Hlive. auto.
Qed.

(** Counting the items of a context. *)
Definition of_context w (c i : positive) : bool :=
  match w_items w !! i with Some x => bool_decide (ctx_address (bp_context x) = c) | None => false end.

Lemma count_u64 (f : positive -> bool) xs n : 0 <= n ->
  foldl (fun u i => if f i then u64 (u + 1) else u) (u64 n) xs = u64 (n + Z.of_nat (length (filter (fun i => f i = true) xs))).
Proof.
  revert n. induction xs as [|x xs IH]; intros n Hn; [simpl; f_equal; lia|]. rewrite filter_cons. cbn [foldl].
  destruct (f x) eqn:E; cbn [decide]; [|by apply IH].
  replace (u64 (u64 n + 1)) with (u64 (n + 1)) by (unfold u64; by rewrite wrap_add_l).
  rewrite IH by lia. rewrite decide_True by done. cbn [length]. f_equal. lia.
Qed.

Lemma GetContextItemCount_run (P : BlockPoolItem -> Prop) p xs ctx : pool_inv P p xs ->
  BlockPool_GetContextItemCount (Some ctx) p =
  inr (u64 (Z.of_nat (length (filter (fun i => of_context (pool_world p) (ctx_address ctx) i = true) xs))), p).
Proof.
  intros [(l & El & Hsh & Hc) Hnd Hlive Hw]. unfold BlockPool_GetContextItemCount, BlockPool_ForEachItem. rewrite El.
  set (c := ctx_address ctx). set (w := pool_world p).
  pose proof (ForEach_contents (BlockPool_CountContextItem c) l xs 0 (inr w) Hc) as Hfe.
  unfold spec.for_each in Hfe. rewrite (ps_lock _ Hsh), (ps_unlock _ Hsh), (ps_destroy _ Hsh) in Hfe.
  rewrite (scan_pool _ (fun _ => false) (fun i n => if of_context w c i then u64 (n + 1) else n)
    _ _ (wo_held _ Hw) Hlive) in Hfe.
  2: { intros i u [x Hi]. unfold BlockPool_CountContextItem, of_context. rewrite (load_run i x) by done.
       fold w in Hi. rewrite Hi. by destruct (decide _) as [->|?]; [rewrite bool_decide_eq_true_2|rewrite bool_decide_eq_false_2]. }
  cbn [mbind option_bind] in Hfe. replace (map (fun _ => false) xs) with (replicate (length xs) false) in Hfe
    by (clear; induction xs; simpl; congruence).
  destruct (select_none xs) as [E1 E2]. rewrite E1, E2 in Hfe.
  destruct Hfe as (l' & -> & _ & _ & _ & Hid). rewrite (Hid eq_refl). simpl.
  change 0 with (u64 0). rewrite (count_u64 (of_context w c)) by lia. rewrite Z.add_0_l. do 2 f_equal. unfold w. rewrite <- El. by destruct p.
Qed.

Lemma pool_inv_world (P : BlockPoolItem -> Prop) p xs w : pool_inv P p xs -> world_inv P w ->
  (forall i, is_Some (w_items (pool_world p) !! i) -> is_Some (w_items w !! i)) -> pool_inv P (mkPool (sg_bpList p) w) xs.
Proof.
  intros [Hl Hn Hv _] Hw Hsub. split; simpl; [done..| |done]. eapply Forall_impl; [exact Hv|]. auto.
Qed.

Lemma pool_inv_insert (P : BlockPoolItem -> Prop) p xs i x n f : pool_inv P p xs ->
  world_inv P (mkWorld (<[i := x]> (w_items (pool_world p))) n [] f) ->
  pool_inv P (mkPool (sg_bpList p) (mkWorld (<[i := x]> (w_items (pool_world p))) n [] f)) xs.
Proof.
  intros Hp Hw. apply (pool_inv_world P p); [done..|]. intros j Hj. simpl. apply lookup_insert_is_Some'. by right.
Qed.

Lemma pool_inv_files (P : BlockPoolItem -> Prop) p xs f : pool_inv P p xs -> pool_inv P (mkPool (sg_bpList p) (set_files (pool_world p) f)) xs.
Proof. intros Hp. apply (pool_inv_world P p); [done| |done]. destruct (po_world _ _ Hp). by split. Qed.

Lemma pool_eta p : mkPool (sg_bpList p) (pool_world p) = p.
Proof. by destruct p. Qed.

(** Storing an item with the same data. *)
Lemma pool_inv_store (P : BlockPoolItem -> Prop) p xs i x x' : pool_inv P p xs -> w_items (pool_world p) !! i = Some x -> P x' ->
  bp_pData x' = bp_pData x -> pool_inv P (mkPool (sg_bpList p) (set_items (pool_world p) (<[i := x']> (w_items (pool_world p))))) xs.
Proof.
  intros Hp Hi Hx Hd. pose proof (po_world _ _ Hp) as Hw.
  assert (E : set_items (pool_world p) (<[i := x']> (w_items (pool_world p))) =
    mkWorld (<[i := x']> (w_items (pool_world p))) (u64 (w_size (pool_world p) + 0)) [] (w_files (pool_world p))).
  { rewrite Z.add_0_r. unfold u64. rewrite wrap_small by (exact (wo_width _ Hw)). unfold set_items. by rewrite (wo_held _ Hw). }
  rewrite E. apply pool_inv_insert; [done|]. eapply world_inv_store; [done..|]. unfold item_bytes. rewrite Hd. lia.
Qed.

End Pool.

(** ** Runs of the pool *)

Section Runs.
Context `{EVPLaws} `{LibUuidLaws} `{Magic}.
Variable sg : UuidLists.
Variable us : list UUIDListNode.
Hypothesis known_types : entries (UUID_Get_List sg UUID_TYPE_DATA_TYPE) us.
Implicit Types (p : Pool) (w : World) (x : BlockPoolItem).

(** The operations on the pool, with the outcomes of their allocations and
    system calls, and the files changing under it. *)
Inductive op :=
| OpCreate (cfg : PoolConfig) (clock : option (Z * Z)) (push_ok : bool) (o : allocs) (ctx : option RazorbackContext)
| OpAddData (cfg : PoolConfig) (calloc_ok : bool) (i : positive) (data : list Z) (n flags : Z)
| OpAddFile (cfg : PoolConfig) (calloc_ok strdup_ok fstat_ok : bool) (i : positive) (name : string) (temp : bool)
| OpSetType (i : positive) (name : string)
| OpFinalize (open_ok : bool) (i : positive)
| OpSetStatus (i : positive) (status : Z)
| OpSetFlags (i : positive) (flags : Z)
| OpDestroy (i : positive)
| OpFiles (f : gmap string (list Z)).

Definition lift {A} (m : PM A) p : fault + Pool :=
  match m (pool_world p) with inl e => inl e | inr (_, w) => inr (mkPool (sg_bpList p) w) end.
Definition drop_result {A} (r : fault + (A * Pool)) : fault + Pool :=
  match r with inl e => inl e | inr (_, p) => inr p end.

Definition run_op (a : op) p : fault + Pool :=
  match a with
  | OpCreate cfg clock push_ok o ctx => drop_result (BlockPool_CreateItem cfg clock push_ok o ctx p)
  | OpAddData cfg ok i d n fl => lift (BlockPool_AddData cfg ok (Some i) (Some d) n fl) p
  | OpAddFile cfg c d s i name temp => lift (BlockPool_AddData_FromFile cfg c d s (Some i) (Some name) temp) p
  | OpSetType i name => lift (BlockPool_SetItemDataType sg i name) p
  | OpFinalize o i => lift (BlockPool_FinalizeItem sg o (Some i)) p
  | OpSetStatus i n => lift (BlockPool_SetStatus (Some i) n) p
  | OpSetFlags i n => lift (BlockPool_SetFlags (Some i) n) p
  | OpDestroy i => drop_result (BlockPool_DestroyItem (Some i) p)
  | OpFiles f => inr (mkPool (sg_bpList p) (set_files (pool_world p) f))
  end.

(** What the caller has to see to: items are live, data is as long as it says,
    files are shorter than 2^32 bytes and below the limit, data without a type does
    not mix memory and files, and no item is set back to collecting. *)
Definition live p i : Prop := is_Some (w_items (pool_world p) !! i).
Definition valid (a : op) p : Prop :=
  match a with
  | OpAddData cfg ok i d n fl => live p i /\ n < 2 ^ 32 /\ n <= Z.of_nat (length d)
  | OpAddFile cfg c d s i name temp => live p i /\
      forall content, w_files (pool_world p) !! name = Some content ->
        Z.of_nat (length content) < 2 ^ 32 /\
        exceeds (BlockPoolMaxSize cfg) (u64 (w_size (pool_world p) + Z.of_nat (length content))) = false
  | OpFinalize o i => exists x, w_items (pool_world p) !! i = Some x /\
      forall id, item_id x = Some id -> bi_uuidDataType id = uuid_null -> readable x
  | OpSetStatus i n => live p i /\ Z.land n BLOCK_POOL_STATUS_MASK <> BLOCK_POOL_STATUS_COLLECTING
  | OpSetType i _ | OpSetFlags i _ | OpDestroy i => live p i
  | OpCreate _ _ _ _ _ | OpFiles _ => True
  end.

(** An item whose data is the same, whose block id differs in the type, and whose
    status is not collecting unless it was. *)
Lemma pitem_ok_status x n : pitem_ok x ->
  (Z.land n BLOCK_POOL_STATUS_MASK = BLOCK_POOL_STATUS_COLLECTING ->
   Z.land (bp_iStatus x) BLOCK_POOL_STATUS_MASK = BLOCK_POOL_STATUS_COLLECTING) -> pitem_ok (set_iStatus x n).
Proof.
  intros (id & h & ? & ? & ? & ? & Ho) Hn. exists id, h. split_and!; [done..|]. intros Hc. apply Ho. auto.
Qed.

Lemma pitem_ok_typed x id u : pitem_ok x -> item_id x = Some id -> pitem_ok (typed x id u).
Proof.
  intros (id0 & h & Hid0 & Hh & Hl & Hps & Ho) Hid. rewrite Hid in Hid0. injection Hid0 as <-.
  eexists _, h. split; [by apply typed_id|]. by split_and!.
Qed.

Lemma pitem_ok_finalised o x id h' : pitem_ok x -> item_id x = Some id -> pitem_ok (finalised us o x id h').
Proof.
  intros (id0 & h0 & Hid0 & Hh & Hl & Hps & Ho) Hid. rewrite Hid in Hid0. injection Hid0 as <-.
  eexists _, h'. split; [by apply (item_id_set x id)|]. split_and!; [done..|]. discriminate.
Qed.

(** Every valid operation returns and keeps the invariant. *)
Lemma add_data_safe p xs cfg ok i d n fl : pool_ok p xs -> valid (OpAddData cfg ok i d n fl) p ->
  exists p', run_op (OpAddData cfg ok i d n fl) p = inr p' /\ pool_ok p' xs.
Proof.
  intros Hp ([x Hx] & Hn & Hd). unfold run_op, lift. destruct (Z.le_gt_cases n 0) as [Hz|Hz].
  { exists p. unfold BlockPool_AddData. rewrite (proj2 (Z.leb_le n 0)) by done. simpl. by rewrite pool_eta. }
  destruct (AddData_run cfg ok i d n fl _ x (po_world _ _ Hp) Hx (conj Hz Hn) Hd) as (w' & -> & Hw').
  eexists. split; [done|]. destruct (_ && _).
  - destruct Hw' as (x' & -> & Hw' & _). by apply pool_inv_insert.
  - subst w'. by rewrite pool_eta.
Qed.

Lemma add_file_safe p xs cfg c d s i name temp : pool_ok p xs -> valid (OpAddFile cfg c d s i name temp) p ->
  exists p', run_op (OpAddFile cfg c d s i name temp) p = inr p' /\ pool_ok p' xs.
Proof.
  intros Hp ([x Hx] & Hf). pose proof (po_world _ _ Hp) as Hw. set (w := pool_world p) in *. unfold run_op, lift. fold w.
  destruct c; [|exists p; simpl; subst w; by rewrite (pool_eta p)].
  assert (Hgone : exists p', match inr (false, set_files w (temp_gone d temp name (w_files w))) : fault + (bool * World) with
    | inl e => inl e | inr (_, w) => inr (mkPool (sg_bpList p) w) end = inr p' /\ pool_ok p' xs).
  { eexists. split; [done|]. by apply pool_inv_files. }
  destruct (w_files w !! name) as [content|] eqn:En.
  - destruct (Hf content eq_refl) as [Hlen Hex]. destruct s.
    + destruct (FromFile_run cfg d i name temp content w x Hw Hx En Hlen Hex) as (w' & -> & Hw').
      destruct (accepts _ _ _ _); [|by rewrite Hw'].
      destruct Hw' as (x' & -> & Hw' & _). eexists. split; [done|]. by apply pool_inv_insert.
    + unfold BlockPool_AddData_FromFile. cbv beta iota delta [negb]. rewrite (PM_bind_inr get _ w w w eq_refl).
      cbv beta iota. rewrite En. cbv beta iota. pm (destroy_new_run d temp name _ w (wo_held _ Hw) (wo_width _ Hw)). exact Hgone.
  - unfold BlockPool_AddData_FromFile. cbv beta iota delta [negb]. rewrite (PM_bind_inr get _ w w w eq_refl).
    cbv beta iota. rewrite En. cbv beta iota. pm (destroy_new_run d temp name _ w (wo_held _ Hw) (wo_width _ Hw)). exact Hgone.
Qed.

Lemma finalize_safe p xs o i : pool_ok p xs -> valid (OpFinalize o i) p ->
  exists p', run_op (OpFinalize o i) p = inr p' /\ pool_ok p' xs.
Proof.
  intros Hp (x & Hx & Hr). pose proof (po_world _ _ Hp) as Hw. pose proof (wo_items _ Hw i x Hx) as Hok.
  pose proof Hok as (id & h & Hid & Hph & _). unfold run_op, lift.
  destruct (decide (bp_iStatus x = BLOCK_POOL_STATUS_COLLECTING)) as [Hst|Hst].
  - destruct (FinalizeItem_run sg us known_types o i _ x id h Hw Hx Hst Hid Hph (Hr id Hid)) as (b & h' & _ & ->).
    eexists. split; [done|]. destruct b; [|by rewrite pool_eta]. apply (pool_inv_store _ p xs i x); [done..| |done]. by apply pitem_ok_finalised.
  - exists p. unfold BlockPool_FinalizeItem. pm (load_run i x _ Hx). rewrite (proj2 (Z.eqb_neq _ _) Hst).
    simpl. by rewrite pool_eta.
Qed.

Lemma status_bits a b : Z.land (Z.lor (Z.land a BLOCK_POOL_STATUS_MASK) (Z.land b BLOCK_POOL_FLAG_MASK)) BLOCK_POOL_STATUS_MASK =
  Z.land a BLOCK_POOL_STATUS_MASK.
Proof.
  rewrite Z.land_lor_distr_l, <- !Z.land_assoc. change (Z.land BLOCK_POOL_FLAG_MASK BLOCK_POOL_STATUS_MASK) with 0.
  rewrite Z.land_0_r, Z.lor_0_r. done.
Qed.

Lemma flag_bits a b : Z.land (Z.lor (Z.land a BLOCK_POOL_STATUS_MASK) (Z.land b BLOCK_POOL_FLAG_MASK)) BLOCK_POOL_FLAG_MASK =
  Z.land b BLOCK_POOL_FLAG_MASK.
Proof.
  rewrite Z.land_lor_distr_l, <- !Z.land_assoc. change (Z.land BLOCK_POOL_STATUS_MASK BLOCK_POOL_FLAG_MASK) with 0.
  rewrite Z.land_0_r, Z.lor_0_l. done.
Qed.

Lemma op_safe a p xs : pool_ok p xs -> valid a p -> exists p' xs', run_op a p = inr p' /\ pool_ok p' xs'.
Proof.
  intros Hp Hv. pose proof (po_world _ _ Hp) as Hw. destruct a as [cfg clock ok o ctx|cfg ok i d n fl|cfg c d s i name temp|i name|o i|i n|i n|i|f].
  - destruct (CreateItem_run cfg clock ok o ctx p xs Hp) as (r & p' & E & Hr). exists p'. cbn [run_op]. rewrite E.
    destruct r; [destruct Hr as (_ & _ & ? & _); eauto|subst; eauto].
  - destruct (add_data_safe p xs cfg ok i d n fl Hp Hv) as (p' & ? & ?). eauto.
  - destruct (add_file_safe p xs cfg c d s i name temp Hp Hv) as (p' & ? & ?). eauto.
  - destruct Hv as [x Hx]. pose proof (wo_items _ Hw i x Hx) as Hok. pose proof Hok as (id & h & Hid & _).
    simpl. unfold lift, BlockPool_SetItemDataType. rewrite (get_data_type_run sg us known_types i name _ x id) by done.
    destruct (named name us); eexists _, xs; (split; [done|]); [|by rewrite pool_eta].
    apply (pool_inv_store _ p xs i x); [done..| |done]. by apply pitem_ok_typed.
  - destruct (finalize_safe p xs o i Hp Hv) as (p' & ? & ?). eauto.
  - destruct Hv as [[x Hx] Hn]. simpl. unfold lift. pm (load_run i x _ Hx). eexists _, xs. split; [done|].
    apply (pool_inv_store _ p xs i x); [done..| |done]. apply pitem_ok_status; [by apply (wo_items _ Hw i)|].
    by rewrite status_bits.
  - destruct Hv as [x Hx]. simpl. unfold lift. pm (load_run i x _ Hx). eexists _, xs. split; [done|].
    apply (pool_inv_store _ p xs i x); [done..| |done]. apply pitem_ok_status; [by apply (wo_items _ Hw i)|].
    rewrite Z.lor_comm, status_bits. done.
  - destruct (DestroyItem_run _ p xs i Hp) as (p' & E & Hp' & _). exists p'. cbn [run_op]. rewrite E. eauto.
  - eexists _, xs. split; [done|]. by apply pool_inv_files.
Qed.

(** The pools that valid operations lead to. *)
Inductive reaches : Pool -> Prop :=
| reaches_init f p : BlockPool_Init true true true (empty_world f) = (true, p) -> reaches p
| reaches_op p a p' : reaches p -> valid a p -> run_op a p = inr p' -> reaches p'.

Lemma reaches_ok p : reaches p -> exists xs, pool_ok p xs.
Proof.
  induction 1 as [f p Hi|p a p' _ [xs Hp] Hv Hr]; [exists []; by eapply Init_ok|].
  destruct (op_safe a p xs Hp Hv) as (p'' & xs' & E & ?). rewrite Hr in E. injection E as <-. eauto.
Qed.

(** The number of bytes of the data of the live items. *)
Definition total_data (m : gmap positive BlockPoolItem) : Z :=
  map_fold (fun _ x n => Z.of_nat (length (data_of x)) + n) 0 m.

Lemma total_data_bytes m : map_Forall (fun _ x => pitem_ok x) m -> pool_bytes m = total_data m.
Proof.
  induction m as [|i x m Hi IH] using map_ind; intros Hm; [done|].
  apply map_Forall_insert in Hm as [(id & h & _ & _ & _ & Hps & _) Hm]; [|done].
  rewrite pool_bytes_insert by done. unfold total_data. rewrite map_fold_insert_L; [|intros; lia|done].
  fold (total_data m). by rewrite <- IH, item_bytes_data.
Qed.

(** Memory followed by a file. *)
Lemma coalesce_file ds d ds' : forall buf w, Forall in_memory ds -> in_file d -> 0 < bd_iLength d ->
  Z.of_nat (length buf) + data_bytes ds < HOWMANY -> coalesce (ds ++ d :: ds') buf w = inl NullDeref.
Proof.
  induction ds as [|e ds IH]; intros buf w Hds Hf Hl Hn; simpl in *.
  - destruct Hf as (_ & Hp & _). rewrite (proj2 (Z.leb_gt _ _)) by lia. apply PM_bind_inl. rewrite Hp.
    destruct (Z.ltb_spec HOWMANY (Z.of_nat (length buf) + bd_iLength d)); by rewrite (proj2 (Z.eqb_neq _ _)) by lia.
  - apply Forall_cons in Hds as [(p & Hpe & _ & Hle) Hds].
    assert (0 <= data_bytes ds) by (clear -Hds; induction Hds as [|? ? (? & _ & _ & ?) _ IH]; simpl; lia).
    rewrite (proj2 (Z.leb_gt _ _)), (proj2 (Z.ltb_ge HOWMANY _)) by lia.
    rewrite (PM_bind_inr _ _ _ (take (Z.to_nat (bd_iLength e)) p) w).
    2: { destruct (Z.eqb_spec (bd_iLength e) 0) as [->|]; [done|]. pm (derefp_run _ p w Hpe).
         apply derefp_run. unfold read_bytes. by rewrite (proj2 (Z.ltb_ge (Z.of_nat (length p)) _)) by lia. }
    apply IH; [done|done|done|]. rewrite length_app, length_take. lia.
Qed.

(** ** Theorems *)

(** C11. In every pool that valid operations lead to, no mutex is held, [sg_size] is
    the number of bytes of data of the live items (modulo [2^64]), the block of every
    item has the length of the item's data, and every valid operation returns,
    without a crash or a deadlock, in such a pool. *)
Theorem BlockPool_reachable p : reaches p ->
  w_held (pool_world p) = [] /\
  BlockPool_GetSize p = u64 (total_data (w_items (pool_world p))) /\
  (forall i x, w_items (pool_world p) !! i = Some x ->
     exists id, item_id x = Some id /\ bi_iLength id = u64 (Z.of_nat (length (data_of x)))) /\
  (forall a, valid a p -> exists p', run_op a p = inr p' /\ reaches p').
Proof.
  intros Hr. destruct (reaches_ok p Hr) as [xs Hp]. pose proof (po_world _ _ Hp) as Hw. split_and!.
  - apply Hw.
  - unfold BlockPool_GetSize. rewrite (wo_size _ Hw), total_data_bytes; [done|apply Hw].
  - intros i x Hx. destruct (wo_items _ Hw i x Hx) as (id & h & Hid & _ & Hl & _). eauto.
  - intros a Hv. destruct (op_safe a p xs Hp Hv) as (p' & _ & E & _). exists p'. split; [done|]. by eapply reaches_op.
Qed.

(** Adding data to a live item succeeds exactly when the item is collecting, the
    limits of the pool and of the item are not reached and the allocation succeeds.
    Then the data of the item is extended by the bytes given and [sg_size] grows by
    their number, the rest of the pool being untouched; otherwise the pool is exactly
    as before, the reservation given back. *)
Theorem BlockPool_AddData_extends p cfg ok i x d n fl : reaches p -> w_items (pool_world p) !! i = Some x ->
  0 < n < 2 ^ 32 -> n <= Z.of_nat (length d) ->
  let w := pool_world p in
  exists w', BlockPool_AddData cfg ok (Some i) (Some d) n fl w = inr (accepts cfg w x n && ok, w') /\
    if accepts cfg w x n && ok then
      exists x', w' = mkWorld (<[i := x']> (w_items w)) (u64 (w_size w + n)) [] (w_files w) /\
        bp_iStatus x' = bp_iStatus x /\ data_of x' = data_of x ++ take (Z.to_nat n) d
    else w' = w.
Proof.
  intros Hr Hx Hn Hd w. destruct (reaches_ok p Hr) as [xs Hp].
  destruct (AddData_run cfg ok i d n fl w x (po_world _ _ Hp) Hx Hn Hd) as (w' & E & Hw').
  exists w'. split; [done|]. destruct (_ && _); [|done]. destruct Hw' as (x' & ? & _ & ? & ?). eauto.
Qed.

(** Adding a file that stays below the limit of the pool works as adding its
    bytes; when the item refuses it the pool is as before, only a temporary file is
    gone. *)
Theorem BlockPool_AddData_FromFile_extends p cfg (dup : bool) i x name (temp : bool) content : reaches p ->
  w_items (pool_world p) !! i = Some x -> w_files (pool_world p) !! name = Some content ->
  let w := pool_world p in let n := Z.of_nat (length content) in
  n < 2 ^ 32 -> exceeds (BlockPoolMaxSize cfg) (u64 (w_size w + n)) = false ->
  exists w', BlockPool_AddData_FromFile cfg true dup true (Some i) (Some name) temp w = inr (accepts cfg w x n, w') /\
    if accepts cfg w x n then
      exists x', w' = mkWorld (<[i := x']> (w_items w)) (u64 (w_size w + n)) [] (w_files w) /\
        bp_iStatus x' = bp_iStatus x /\ data_of x' = data_of x ++ content
    else w' = set_files w (if dup && temp then delete name (w_files w) else w_files w).
Proof.
  intros Hr Hx Hf w n Hn Hex. destruct (reaches_ok p Hr) as [xs Hp].
  destruct (FromFile_run cfg dup i name temp content w x (po_world _ _ Hp) Hx Hf Hn Hex) as (w' & E & Hw').
  exists w'. split; [done|]. fold n in Hw'. destruct (accepts _ _ _ _); [|done]. destruct Hw' as (x' & ? & _ & ? & ?). eauto.
Qed.

(** A file that reaches the size limit of the pool does not make the call fail:
    the error path destroys the data block while it holds [sg_sizeMutex], which the
    destruction locks again, and the thread waits for itself. *)
Theorem BlockPool_AddData_FromFile_deadlocks w cfg (dup : bool) i name (temp : bool) content : w_held w = [] ->
  w_files w !! name = Some content ->
  exceeds (BlockPoolMaxSize cfg) (u64 (w_size w + Z.of_nat (length content))) = true ->
  BlockPool_AddData_FromFile cfg true dup true (Some i) (Some name) temp w = inl Deadlock.
Proof.
  intros Hh Hf Hex. unfold BlockPool_AddData_FromFile. cbv beta iota delta [negb].
  rewrite (PM_bind_inr get _ w w w eq_refl). cbv beta iota. rewrite Hf. cbv beta iota zeta.
  apply PM_bind_inl. rewrite reserve_run, Hex by done. apply PM_bind_inl.
  by destruct (destroy_held_run (mkBlockPoolData 0 BLOCK_POOL_DATA_FLAG_FILE
    (mkBlockData (if dup then Some name else None) None (Some (mkFile content 0 None)) temp)) [] (set_held w [None]) eq_refl)
    as (e & -> & ->).
Qed.

(** C38. Finalising a collecting item whose data is readable returns; on success the
    item is finalised with the same data and length, its hash is the algorithm's
    digest of all its data, in the order it was added, and its data type, unless it
    was set, is the one libmagic's name for the first 4096 bytes stands for; on
    failure nothing changes. *)
Theorem BlockPool_FinalizeItem_digest p o i x id h : reaches p -> evp_total -> w_items (pool_world p) !! i = Some x ->
  bp_iStatus x = BLOCK_POOL_STATUS_COLLECTING -> item_id x = Some id -> bi_pHash id = Some h ->
  (bi_uuidDataType id = uuid_null -> readable x) ->
  let w := pool_world p in
  exists (b : bool) h', BlockPool_FinalizeItem sg o (Some i) w =
      inr (b, if b then set_items w (<[i := finalised us o x id h']> (w_items w)) else w) /\
    (b = true -> complete h' /\ h_iType h' = h_iType h /\
       exists name md, Hash_Get_OpenSSL_Name (h_iType h) = Some name /\ EVP_MD_fetch name = Some md /\
         digest h' = evp_digest md (data_of x)).
Proof.
  intros Hr Ht Hx Hst Hid Hph Hrd w. destruct (reaches_ok p Hr) as [xs Hp]. pose proof (po_world _ _ Hp) as Hw.
  destruct (FinalizeItem_run sg us known_types o i w x id h Hw Hx Hst Hid Hph Hrd) as (b & h' & Ef & E).
  exists b, h'. split; [done|]. intros ->.
  destruct (wo_items _ Hw i x Hx) as (id0 & h0 & Hid0 & Hph0 & _ & _ & Ho). rewrite Hid in Hid0. injection Hid0 as <-.
  rewrite Hph in Hph0. injection Hph0 as <-. destruct (Ho ltac:(by rewrite Hst)) as (md & ys & Hop & Hy).
  destruct (Finalize_opened h md ys Hop) as (b & h2 & Ef2 & Hb). rewrite Ef in Ef2. injection Ef2 as <- <-.
  destruct Hb as (Hc & Hty & Hd). split_and!; [done..|]. destruct (opened_type _ _ _ Hop) as (name & Hn & Hm).
  exists name, md. split_and!; [done..|]. by rewrite <- (Hy Ht).
Qed.

(** Finalising an item without a data type whose data starts with less than 4096
    bytes of memory followed by a file dereferences NULL: the loop that collects the
    first bytes copies from the pointer of every piece, and a file has none. *)
Theorem BlockPool_FinalizeItem_mixed_crashes w i x id h ds d ds' : w_items w !! i = Some x ->
  bp_iStatus x = BLOCK_POOL_STATUS_COLLECTING -> item_id x = Some id -> bi_uuidDataType id = uuid_null ->
  Hash_Finalize (bi_pHash id) = Some (true, h) ->
  bp_pData x = ds ++ d :: ds' -> ds <> [] -> Forall (fun e => bd_iFlags e <> BLOCK_POOL_DATA_FLAG_FILE) ds ->
  Forall in_memory ds -> data_bytes ds < HOWMANY -> in_file d -> 0 < bd_iLength d ->
  BlockPool_FinalizeItem sg true (Some i) w = inl NullDeref.
Proof.
  intros Hx Hst Hid Hu Hf Hd Hds Hfl Hm Hn Hfi Hl. unfold BlockPool_FinalizeItem. pm (load_run i x w Hx).
  rewrite Hst, Z.eqb_refl. cbv beta iota delta [negb]. pm (derefp_run _ id w Hid). pm (derefp_run _ _ w Hf).
  set (x1 := set_item_id x _). pm (store_run i x1 w). set (w1 := set_items w _). apply PM_bind_inl.
  rewrite Hu, uuid_is_null_spec, bool_decide_eq_true_2 by done.
  rewrite bool_decide_eq_false_2 by (rewrite Hd; by destruct ds). simpl.
  unfold Magic_process. cbv beta iota delta [negb]. pm (load_run i x1 w1 (lookup_insert_eq _ _ _)). apply PM_bind_inl.
  unfold mimetype. change (bp_pData x1) with (bp_pData x). rewrite Hd. destruct ds as [|e ds]; [done|]. cbn [app].
  apply Forall_cons in Hfl as [He _]. rewrite (proj2 (Z.eqb_neq _ _) He). apply PM_bind_inl.
  by apply (coalesce_file (e :: ds) d ds' []).
Qed.

(** Destroying an item of the pool's list releases it: it is gone from the list
    and from memory, [sg_size] gives back the bytes of its data, its temporary files
    are unlinked, and every other item stays.  Destroying an item that is not on the
    list (its push failed) changes nothing, and the call still says true. *)
Theorem BlockPool_DestroyItem_releases p i x : reaches p -> w_items (pool_world p) !! i = Some x ->
  exists xs p', pool_ok p xs /\ BlockPool_DestroyItem (Some i) p = inr (true, p') /\
    pool_ok p' (filter (fun y => bool_decide (y = i) = false) xs) /\
    if decide (i ∈ xs) then
      pool_world p' = mkWorld (delete i (w_items (pool_world p)))
        (u64 (BlockPool_GetSize p - Z.of_nat (length (data_of x)))) []
        (foldl (fun f d => unlinked d f) (w_files (pool_world p)) (bp_pData x))
    else pool_world p' = pool_world p.
Proof.
  intros Hr Hx. destruct (reaches_ok p Hr) as [xs Hp]. destruct (DestroyItem_run _ p xs i Hp) as (p' & E & Hp' & Hw').
  exists xs, p'. split_and!; [done..|]. destruct (decide (i ∈ xs)); [|done]. destruct Hw' as (x' & Hx' & ->).
  rewrite Hx in Hx'. injection Hx' as <-. unfold without.
  destruct (wo_items _ (po_world _ _ Hp) i x Hx) as (id & h & _ & _ & _ & Hps & _). by rewrite item_bytes_data.
Qed.

(** Creating an item never crashes: it fails without an effect, or it gives the
    address of a new collecting item without data, that has the ids of the context, an
    open hash of the configured type and a place at the end of the list (unless the
    push failed: its result is not looked at); it succeeds only below the limit on the
    number of items. *)
Theorem BlockPool_CreateItem_adds p cfg clock push_ok o context : reaches p ->
  exists xs r p', pool_ok p xs /\ BlockPool_CreateItem cfg clock push_ok o context p = inr (r, p') /\
    match r with
    | None => p' = p
    | Some i =>
        exceeds (BlockPoolMaxItems cfg) (u64 (Z.of_nat (length xs))) = false /\
        w_items (pool_world p) !! i = None /\ pool_ok p' (if push_ok then xs ++ [i] else xs) /\
        exists ctx x, context = Some ctx /\ new_item cfg ctx x /\
          pool_world p' = set_items (pool_world p) (<[i := x]> (w_items (pool_world p)))
    end.
Proof.
  intros Hr. destruct (reaches_ok p Hr) as [xs Hp].
  destruct (CreateItem_run cfg clock push_ok o context p xs Hp) as (r & p' & E & Hr'). by exists xs, r, p'.
Qed.

(** [BlockPool_GetContextItemCount] counts the items of the list that belong to
    the context, and changes nothing. *)
Theorem BlockPool_GetContextItemCount_counts p ctx : reaches p ->
  exists xs, pool_ok p xs /\ BlockPool_GetContextItemCount (Some ctx) p =
    inr (u64 (Z.of_nat (length (filter (fun i => of_context (pool_world p) (ctx_address ctx) i = true) xs))), p).
Proof. intros Hr. destruct (reaches_ok p Hr) as [xs Hp]. exists xs. split; [done|]. by apply (GetContextItemCount_run _ _ _ _ Hp). Qed.

(** The status and the flags of an item are independent: setting the status keeps
    the flags, setting the flags keeps the status, and each is read back masked. *)
Theorem BlockPool_status_flags_independent w i x s f : w_items w !! i = Some x ->
  exists x', (BlockPool_SetStatus (Some i) s ;; BlockPool_SetFlags (Some i) f) w = inr ((), set_items w (<[i := x']> (w_items w))) /\
    BlockPool_GetStatus (Some i) (set_items w (<[i := x']> (w_items w))) =
      inr (Z.land s BLOCK_POOL_STATUS_MASK, set_items w (<[i := x']> (w_items w))) /\
    Z.land (bp_iStatus x') BLOCK_POOL_FLAG_MASK = Z.land f BLOCK_POOL_FLAG_MASK /\
    data_of x' = data_of x /\ item_id x' = item_id x.
Proof.
  intros Hx. set (x1 := set_iStatus x (Z.lor (Z.land s BLOCK_POOL_STATUS_MASK) (Z.land (bp_iStatus x) BLOCK_POOL_FLAG_MASK))).
  exists (set_iStatus x1 (Z.lor (Z.land f BLOCK_POOL_FLAG_MASK) (Z.land (bp_iStatus x1) BLOCK_POOL_STATUS_MASK))).
  set (w1 := set_items w (<[i := x1]> (w_items w))).
  rewrite (PM_bind_inr _ _ _ () w1) by (simpl; by pm (load_run i x w Hx)). split_and!; [..|done|done].
  - simpl. pm (load_run i x1 w1 (lookup_insert_eq _ _ _)). unfold store, set_items. simpl. by rewrite insert_insert_eq.
  - simpl. set (x2 := set_iStatus _ _). pm (load_run i x2 (set_items w (<[i := x2]> (w_items w))) (lookup_insert_eq _ _ _)).
    unfold x2, x1. simpl. rewrite Z.lor_comm, status_bits, status_bits. done.
  - simpl. rewrite Z.lor_comm. apply flag_bits.
Qed.
End Runs.

(** ** Witnesses *)

Module pool_demo.
Import bytes16 toy.

Global Instance toy_magic : Magic := {|
  magic_buffer xs := if bool_decide (xs = [0]) then None else Some "PORT";
  magic_descriptor xs := Some "STRING";
  magic_error xs := false
|}.

Definition cfg : PoolConfig := mkPoolConfig 10 100 50 HASH_TYPE_MD5.
Definition sg : UuidLists := mkUuidLists uuid_demo.list2 None None None None None.
Definition ctx : RazorbackContext := mkContext 7 (uuid_demo.uuid 4) (uuid_demo.uuid 6) (uuid_demo.uuid 5) 0 (mkDispatcher 0 0 0 0 None).
Definition files : gmap string (list Z) := <["f" := [9; 8]]> (<["big" := replicate 98 1]> ∅).

Lemma types : entries (UUID_Get_List sg UUID_TYPE_DATA_TYPE) uuid_demo.nodes.
Proof. exact uuid_demo.list2_entries. Qed.

Definition p0 : Pool := (BlockPool_Init true true true (empty_world files)).2.
Definition after (a : op) (p : Pool) : Pool := match run_op sg a p with inr p' => p' | inl _ => p end.
Definition item (i : positive) (p : Pool) : BlockPoolItem :=
  default (mkBlockPoolItem 0 [] None ctx (mkEvent None None None uuid_null None None)) (w_items (pool_world p) !! i).

(** An item, with data in memory, with a file, and finalised. *)
Definition a1 : op := OpCreate cfg (Some (5, 6)) true [] (Some ctx).
Definition a2 : op := OpAddData cfg true 1 [1; 2; 3; 4] 3 BLOCK_POOL_DATA_FLAG_MALLOCD.
Definition a3 : op := OpAddFile cfg true true true 1 "f" false.
Definition a4 : op := OpFinalize true 1.
Definition p1 : Pool := after a1 p0.
Definition p2 : Pool := after a2 p1.
Definition p3 : Pool := after a3 p2.
Definition p4 : Pool := after a4 p2.

Lemma reaches_after a p : reaches sg p -> valid a p ->
  match run_op sg a p with inr _ => true | inl _ => false end = true -> reaches sg (after a p).
Proof.
  intros Hr Hv E. eapply reaches_op; [exact Hr|exact Hv|]. unfold after. by destruct (run_op sg a p).
Qed.

Lemma item_some i p : bool_decide (is_Some (w_items (pool_world p) !! i)) = true -> w_items (pool_world p) !! i = Some (item i p).
Proof. unfold item. by destruct (_ !! _). Qed.

Lemma live_item i p : bool_decide (is_Some (w_items (pool_world p) !! i)) = true -> live p i.
Proof. intros E. rewrite bool_decide_eq_true in E. exact E. Qed.

Lemma reaches0 : reaches sg p0.
Proof. by apply (reaches_init sg files). Qed.
Lemma reaches1 : reaches sg p1.
Proof. apply reaches_after; [apply reaches0|done|vm_compute; reflexivity]. Qed.
Lemma valid2 : valid a2 p1.
Proof. split; [apply live_item; vm_compute; reflexivity|]. split; [done|simpl; lia]. Qed.
Lemma reaches2 : reaches sg p2.
Proof. apply reaches_after; [apply reaches1|apply valid2|vm_compute; reflexivity]. Qed.

(** The digest of the toy algorithm is total. *)
Lemma toy_total : evp_total.
Proof. intros c ys. eexists. reflexivity. Qed.

(** The block id and the hash of the item, and its pieces. *)
Definition id_of (p : Pool) : BlockId := default (mkBlockId None uuid_null 0) (item_id (item 1 p)).
Definition hash_of (p : Pool) : Hash := default opened_hash (bi_pHash (id_of p)).
Definition final_of (p : Pool) : option Hash :=
  match Hash_Finalize (bi_pHash (id_of p)) with Some (_, h) => h | None => None end.
Definition piece_of (n : nat) (p : Pool) : BlockPoolData :=
  nth n (bp_pData (item 1 p)) (mkBlockPoolData 0 0 no_data).

Lemma id_of_p2 : item_id (item 1 p2) = Some (id_of p2) /\ bi_pHash (id_of p2) = Some (hash_of p2).
Proof. split; apply uuid_demo.default_Some; vm_compute; reflexivity. Qed.
Lemma id_of_p3 : item_id (item 1 p3) = Some (id_of p3).
Proof. apply uuid_demo.default_Some; vm_compute; reflexivity. Qed.
Lemma final_of_p3 : Hash_Finalize (bi_pHash (id_of p3)) = Some (true, final_of p3).
Proof.
  assert (E : match Hash_Finalize (bi_pHash (id_of p3)) with Some (b, _) => b | None => false end = true) by (vm_compute; reflexivity).
  unfold final_of. by destruct (Hash_Finalize (bi_pHash (id_of p3))) as [[[] h]|].
Qed.
Lemma pieces_p2 : bp_pData (item 1 p2) = [piece_of 0 p2].
Proof.
  assert (E : length (bp_pData (item 1 p2)) = 1%nat) by (vm_compute; reflexivity).
  unfold piece_of. by destruct (bp_pData (item 1 p2)) as [|? []].
Qed.
Lemma pieces_p3 : bp_pData (item 1 p3) = [piece_of 0 p3; piece_of 1 p3].
Proof.
  assert (E : length (bp_pData (item 1 p3)) = 2%nat) by (vm_compute; reflexivity).
  unfold piece_of. by destruct (bp_pData (item 1 p3)) as [|? [|? []]].
Qed.

Lemma memory_item : Forall in_memory (bp_pData (item 1 p2)).
Proof.
  rewrite pieces_p2. repeat constructor. exists [1; 2; 3; 4]. split_and!; [vm_compute; reflexivity| |vm_compute; discriminate..].
  assert (E : bool_decide (is_Some (bd_file (bd_data (piece_of 0 p2)))) = false) by (vm_compute; reflexivity).
  by destruct (bd_file _).
Qed.

Lemma readable_item : readable (item 1 p2).
Proof.
  unfold readable. rewrite pieces_p2. replace (bd_iFlags (piece_of 0 p2) == _) with false by (vm_compute; reflexivity).
  rewrite <- pieces_p2. exact memory_item.
Qed.
End pool_demo.

Lemma BlockPool_reachable_witness :
  BlockPool_GetSize pool_demo.p2 = 3 /\ total_data (w_items (pool_world pool_demo.p2)) = 3 /\
  exists p', run_op pool_demo.sg pool_demo.a4 pool_demo.p2 = inr p' /\ reaches pool_demo.sg p'.
Proof.
  destruct (BlockPool_reachable _ _ pool_demo.types pool_demo.p2 pool_demo.reaches2) as (_ & _ & _ & Hop).
  split; [vm_compute; reflexivity|]. split; [vm_compute; reflexivity|]. apply Hop.
  exists (pool_demo.item 1 pool_demo.p2). split; [apply pool_demo.item_some; vm_compute; reflexivity|].
  intros id _ _. exact pool_demo.readable_item.
Defined.

Lemma BlockPool_AddData_extends_witness : exists w' x',
  BlockPool_AddData pool_demo.cfg true (Some 1%positive) (Some [7; 7; 7]) 2 BLOCK_POOL_DATA_FLAG_MANAGED (pool_world pool_demo.p2) = inr (true, w') /\
  w_items w' !! 1%positive = Some x' /\ w_size w' = 5 /\ data_of x' = [1; 2; 3; 7; 7].
Proof.
  destruct (BlockPool_AddData_extends _ _ pool_demo.types pool_demo.p2 pool_demo.cfg true 1 (pool_demo.item 1 pool_demo.p2)
    [7; 7; 7] 2 BLOCK_POOL_DATA_FLAG_MANAGED pool_demo.reaches2) as (w' & E & x' & Hw & _ & Hd).
  - apply pool_demo.item_some. vm_compute. reflexivity.
  - lia.
  - simpl. lia.
  - exists w', x'. split; [exact E|]. rewrite Hw. split; [apply lookup_insert_eq|]. split; [vm_compute; reflexivity|].
    rewrite Hd. vm_compute. reflexivity.
Defined.

Lemma BlockPool_AddData_FromFile_extends_witness : exists w' x',
  BlockPool_AddData_FromFile pool_demo.cfg true true true (Some 1%positive) (Some "f") false (pool_world pool_demo.p2) = inr (true, w') /\
  w_items w' !! 1%positive = Some x' /\ w_size w' = 5 /\ data_of x' = [1; 2; 3; 9; 8].
Proof.
  destruct (BlockPool_AddData_FromFile_extends _ _ pool_demo.types pool_demo.p2 pool_demo.cfg true 1 (pool_demo.item 1 pool_demo.p2)
    "f" false [9; 8] pool_demo.reaches2) as (w' & E & x' & Hw & _ & Hd).
  - apply pool_demo.item_some. vm_compute. reflexivity.
  - vm_compute. reflexivity.
  - simpl. lia.
  - vm_compute. reflexivity.
  - exists w', x'. split; [exact E|]. rewrite Hw. split; [apply lookup_insert_eq|]. split; [vm_compute; reflexivity|].
    rewrite Hd. vm_compute. reflexivity.
Defined.

Lemma BlockPool_AddData_FromFile_deadlocks_witness :
  BlockPool_AddData_FromFile pool_demo.cfg true true true (Some 1%positive) (Some "big") false (pool_world pool_demo.p2) = inl Deadlock.
Proof.
  apply (BlockPool_AddData_FromFile_deadlocks (pool_world pool_demo.p2) pool_demo.cfg true 1 "big" false (replicate 98 1));
    vm_compute; reflexivity.
Defined.

Lemma BlockPool_FinalizeItem_digest_witness : exists h',
  BlockPool_FinalizeItem pool_demo.sg true (Some 1%positive) (pool_world pool_demo.p2) =
    inr (true, set_items (pool_world pool_demo.p2) (<[1%positive := finalised uuid_demo.nodes true (pool_demo.item 1 pool_demo.p2)
      (pool_demo.id_of pool_demo.p2) h']> (w_items (pool_world pool_demo.p2)))) /\
  digest h' = replicate 16 6.
Proof.
  destruct (BlockPool_FinalizeItem_digest _ _ pool_demo.types pool_demo.p2 true 1 (pool_demo.item 1 pool_demo.p2)
    (pool_demo.id_of pool_demo.p2) (pool_demo.hash_of pool_demo.p2)
    pool_demo.reaches2 pool_demo.toy_total) as (b & h' & E & Hb).
  - apply pool_demo.item_some. vm_compute. reflexivity.
  - vm_compute. reflexivity.
  - apply pool_demo.id_of_p2.
  - apply pool_demo.id_of_p2.
  - intros _. exact pool_demo.readable_item.
  - assert (Et : b = true).
    { apply (f_equal (fun r => match r with inr (b, _) => b | inl _ => false end)) in E. symmetry. etransitivity; [|exact E].
      vm_compute. reflexivity. }
    exists h'. subst b. split; [exact E|]. destruct (Hb eq_refl) as (_ & _ & name & md & Hn & Hm & Hd).
    etransitivity; [exact Hd|].
    assert (Et : h_iType (pool_demo.hash_of pool_demo.p2) = HASH_TYPE_MD5) by (vm_compute; reflexivity).
    rewrite Et in Hn. injection Hn as <-. injection Hm as <-. vm_compute. reflexivity.
Defined.

Lemma BlockPool_FinalizeItem_mixed_crashes_witness :
  BlockPool_FinalizeItem pool_demo.sg true (Some 1%positive) (pool_world pool_demo.p3) = inl NullDeref.
Proof.
  apply (BlockPool_FinalizeItem_mixed_crashes pool_demo.sg (pool_world pool_demo.p3) 1 (pool_demo.item 1 pool_demo.p3)
    (pool_demo.id_of pool_demo.p3) (pool_demo.final_of pool_demo.p3) [pool_demo.piece_of 0 pool_demo.p3] (pool_demo.piece_of 1 pool_demo.p3) []).
  - apply pool_demo.item_some. vm_compute. reflexivity.
  - vm_compute. reflexivity.
  - apply pool_demo.id_of_p3.
  - assert (E : bool_decide (bi_uuidDataType (pool_demo.id_of pool_demo.p3) = uuid_null) = true) by (vm_compute; reflexivity).
    apply bool_decide_eq_true in E. exact E.
  - apply pool_demo.final_of_p3.
  - exact pool_demo.pieces_p3.
  - discriminate.
  - repeat constructor. vm_compute. discriminate.
  - repeat constructor. exists [1; 2; 3; 4]. split_and!; vm_compute; (reflexivity || discriminate).
  - vm_compute. reflexivity.
  - split_and!; [vm_compute; reflexivity..|]. exists [9; 8], 0%nat. split; vm_compute; reflexivity.
  - vm_compute. reflexivity.
Defined.

Lemma BlockPool_DestroyItem_releases_witness : exists p',
  BlockPool_DestroyItem (Some 1%positive) pool_demo.p2 = inr (true, p').
Proof.
  destruct (BlockPool_DestroyItem_releases _ _ pool_demo.types pool_demo.p2 1 (pool_demo.item 1 pool_demo.p2) pool_demo.reaches2)
    as (xs & p' & _ & E & _); [apply pool_demo.item_some; vm_compute; reflexivity|]. by exists p'.
Defined.

Lemma BlockPool_CreateItem_adds_witness : exists r p',
  BlockPool_CreateItem pool_demo.cfg (Some (7, 8)) true [] (Some pool_demo.ctx) pool_demo.p2 = inr (r, p') /\ is_Some r.
Proof.
  destruct (BlockPool_CreateItem_adds _ _ pool_demo.types pool_demo.p2 pool_demo.cfg (Some (7, 8)) true [] (Some pool_demo.ctx)
    pool_demo.reaches2) as (xs & r & p' & _ & E & _). exists r, p'. split; [exact E|].
  assert (Hs : match BlockPool_CreateItem pool_demo.cfg (Some (7, 8)) true [] (Some pool_demo.ctx) pool_demo.p2 with
    | inr (Some _, _) => true | _ => false end = true) by (vm_compute; reflexivity).
  rewrite E in Hs. destruct r; [eauto|discriminate Hs].
Defined.

Lemma BlockPool_GetContextItemCount_counts_witness : BlockPool_GetContextItemCount (Some pool_demo.ctx) pool_demo.p2 = inr (1, pool_demo.p2).
Proof.
  destruct (BlockPool_GetContextItemCount_counts _ _ pool_demo.types pool_demo.p2 pool_demo.ctx pool_demo.reaches2) as (xs & _ & E).
  assert (Hn : match BlockPool_GetContextItemCount (Some pool_demo.ctx) pool_demo.p2 with inr (n, _) => n | inl _ => 0 end = 1)
    by (vm_compute; reflexivity).
  rewrite E in Hn |- *. cbv beta iota in Hn. rewrite Hn. reflexivity.
Defined.

Lemma BlockPool_status_flags_independent_witness : exists x',
  (BlockPool_SetStatus (Some 1%positive) 18 ;; BlockPool_SetFlags (Some 1%positive) 16777216) (pool_world pool_demo.p2) =
    inr ((), set_items (pool_world pool_demo.p2) (<[1%positive := x']> (w_items (pool_world pool_demo.p2)))).
Proof.
  destruct (BlockPool_status_flags_independent (pool_world pool_demo.p2) 1 (pool_demo.item 1 pool_demo.p2) 18 16777216)
    as (x' & E & _); [apply pool_demo.item_some; vm_compute; reflexivity|]. by exists x'.
Defined.
