(* ===== verification/JsonText.v ===== *)
(** * JSON texts

    The wire format of a message is the text of a JSON value: json-c's
    [json_object_to_json_string] and [json_tokener_parse].  The tokener of
    [json_tokener_parse] has the default depth: it refuses a text whose values are
    nested deeper, so a value of [json_depth] 32 or more can be printed but not read
    back.  The laws state this; [treetext] is an instance. *)

From S2P Require Import Prelude CLib Hash JsonC.

(** json-c's JSON_TOKENER_DEFAULT_DEPTH *)
Definition JSON_TOKENER_DEFAULT_DEPTH : nat := 32.

Class JsonText `{JsonC} := {
  json_object_to_json_string : jobj -> string;
  json_tokener_parse : string -> option jobj
}.

Class JsonTextLaws `{JsonCLaws} `{!JsonText} := {
  depth_new_string s : json_depth (json_object_new_string s) = 0%nat;
  depth_new_uint64 n : json_depth (json_object_new_uint64 n) = 0%nat;
  depth_new_int n : json_depth (json_object_new_int n) = 0%nat;
  depth_new_object : json_depth json_object_new_object = 0%nat;
  depth_new_array : json_depth json_object_new_array = 0%nat;
  depth_object_add j k v n : (json_depth j <= n)%nat -> (json_depth v < n)%nat ->
    (json_depth (json_object_object_add j k v) <= n)%nat;
  depth_array_add j v n : (json_depth j <= n)%nat -> (json_depth v < n)%nat ->
    (json_depth (json_object_array_add j v) <= n)%nat;
  parse_text j : (json_depth j < JSON_TOKENER_DEFAULT_DEPTH)%nat ->
    json_tokener_parse (json_object_to_json_string j) = Some j;
  parse_text_deep j : (JSON_TOKENER_DEFAULT_DEPTH <= json_depth j)%nat ->
    json_tokener_parse (json_object_to_json_string j) = None;
  parse_depth s j : json_tokener_parse s = Some j -> (json_depth j < JSON_TOKENER_DEFAULT_DEPTH)%nat
}.

(** ** The depth of built values *)

Section Depth.
Context `{JsonTextLaws}.

Lemma depth_build fs n : Forall (fun f => (json_depth f.2 < n)%nat) fs -> (json_depth (build fs) <= n)%nat.
Proof.
  induction fs as [|[k v] fs IH] using rev_ind; intros Hf.
  - unfold build. simpl. rewrite depth_new_object. lia.
  - apply Forall_app in Hf as [Hfs Hv]. apply Forall_cons in Hv as [Hv _]. rewrite build_snoc.
    apply depth_object_add; [by apply IH|done].
Qed.

Lemma depth_arr vs n : Forall (fun v => (json_depth v < n)%nat) vs -> (json_depth (arr vs) <= n)%nat.
Proof.
  induction vs as [|v vs IH] using rev_ind; intros Hf.
  - unfold arr. simpl. rewrite depth_new_array. lia.
  - apply Forall_app in Hf as [Hfs Hv]. apply Forall_cons in Hv as [Hv _]. rewrite arr_snoc.
    apply depth_array_add; [by apply IH|done].
Qed.

Lemma depth_field fs k v : field fs k = Some v -> (json_depth v < json_depth (build fs))%nat.
Proof. intros E. eapply depth_object_get. by rewrite object_get_build. Qed.
End Depth.

(** ** An instance

    Not JSON, but a text for every value: the code of the value as a sequence of
    binary digits. *)

Module treetext.
Import tree.

Fixpoint to_tree (j : json) : gen_tree (bool + Z + string) :=
  match j with
  | JBool b => GenLeaf (inl (inl b))
  | JInt n => GenLeaf (inl (inr n))
  | JString s => GenLeaf (inr s)
  | JArray vs => GenNode 0 (map to_tree vs)
  | JObject fs => GenNode 1 (map (fun f => GenNode 2 [GenLeaf (inr f.1); to_tree f.2]) fs)
  end.

Fixpoint of_tree (t : gen_tree (bool + Z + string)) : json :=
  match t with
  | GenLeaf (inl (inl b)) => JBool b
  | GenLeaf (inl (inr n)) => JInt n
  | GenLeaf (inr s) => JString s
  | GenNode 0 ts => JArray (map of_tree ts)
  | GenNode _ ts => JObject (map (fun t =>
      match t with
      | GenNode _ [GenLeaf (inr k); v] => (k, of_tree v)
      | _ => (EmptyString, JBool false)
      end) ts)
  end.

Fixpoint of_to (j : json) : of_tree (to_tree j) = j.
Proof.
  destruct j as [b|n|s|vs|fs]; [done..| |]; simpl; f_equal.
  - induction vs as [|v vs IH]; simpl; [done|]. by rewrite of_to, IH.
  - induction fs as [|[k v] fs IH]; simpl; [done|]. by rewrite of_to, IH.
Defined.

Fixpoint bits (p : positive) : string :=
  match p with
  | xH => EmptyString
  | xO p => String "0" (bits p)
  | xI p => String "1" (bits p)
  end.

Fixpoint unbits (s : string) : positive :=
  match s with
  | EmptyString => xH
  | String c s => if Ascii.eqb c "0" then xO (unbits s) else xI (unbits s)
  end.

Lemma unbits_bits p : unbits (bits p) = p.
Proof. induction p as [p IH|p IH|]; simpl; [by rewrite IH..|done]. Qed.

Definition print (j : json) : string := bits (encode (to_tree j)).
Definition read (s : string) : option json :=
  t ← decode (unbits s);
  if (depth (of_tree t) <? JSON_TOKENER_DEFAULT_DEPTH)%nat then Some (of_tree t) else None.

Lemma read_print j : read (print j) = if (depth j <? JSON_TOKENER_DEFAULT_DEPTH)%nat then Some j else None.
Proof. unfold read, print. rewrite unbits_bits, decode_encode. cbn [mbind option_bind]. by rewrite of_to. Qed.

Global Instance text : JsonText := { json_object_to_json_string := print; json_tokener_parse := read }.

Lemma depth_fields fs n :
  (foldr (fun f n => Nat.max (S (depth f.2)) n) 0 fs <= n)%nat <->
  Forall (fun f : string * json => (depth f.2 < n)%nat) fs.
Proof.
  induction fs as [|f fs IH]; cbn [foldr]; [split; [constructor|lia]|].
  rewrite Forall_cons, <- IH. lia.
Qed.

Lemma depth_items vs n :
  (foldr (fun v n => Nat.max (S (depth v)) n) 0 vs <= n)%nat <-> Forall (fun v => (depth v < n)%nat) vs.
Proof.
  induction vs as [|v vs IH]; cbn [foldr]; [split; [constructor|lia]|].
  rewrite Forall_cons, <- IH. lia.
Qed.

Global Instance text_laws : JsonTextLaws.
Proof.
  split; try done.
  - intros j k v n Hj Hv. change (depth (JObject ((k, v) :: fields j)) <= n)%nat. cbn [depth].
    apply depth_fields. apply Forall_cons. split; [exact Hv|].
    destruct j; try by constructor. by apply depth_fields.
  - intros j v n Hj Hv. change (depth (JArray (items j ++ [v])) <= n)%nat. cbn [depth].
    apply depth_items. apply Forall_app. split; [|by constructor].
    destruct j; try by constructor. by apply depth_items.
  - intros j Hj. change (read (print j) = Some j). rewrite read_print.
    by rewrite (proj2 (Nat.ltb_lt (depth j) _) Hj).
  - intros j Hj. change (read (print j) = None). rewrite read_print.
    by rewrite (proj2 (Nat.ltb_ge (depth j) _) Hj).
  - intros s j. change (read s = Some j -> (depth j < JSON_TOKENER_DEFAULT_DEPTH)%nat). unfold read.
    destruct (decode (unbits s)) as [t|]; cbn [mbind option_bind]; [|done].
    destruct (Nat.ltb_spec (depth (of_tree t)) JSON_TOKENER_DEFAULT_DEPTH); [|done]. by intros [= <-].
Qed.
End treetext.
