(* ===== verification/Messages.v ===== *)
(** * Messages: the structures and src/messages/core.c

    A message carries a typed body, a list of headers and, once serialized, the
    text that goes on the wire.  The bodies are the structures of
    include/razorback/message_formats.h; [message->message], a [void *], is a value
    of the sum [Body], and reading it as another structure than it holds is a crash
    (class [BodyType]).  The three function pointers of a message or a handler always
    come from one file, and are represented by the name of that file's message
    ([Codec]).  The broker settlement and the telemetry context of a message are
    opaque and left out, and so is the back pointer of a header.

    A function on a message is a [Call]: from the message pointer and the allocation
    outcomes to its status and the message after the call, which is kept also when it
    fails.  A destructor is a function to the list of the parts of the message it
    releases; releasing memory twice is a crash. *)

From S2P Require Import Prelude CLib RzbList RzbListProps ListM Hash LibUuid Uuids Ntlv Blocks JsonC JsonBuffer JsonText.

(** ** Constants of include/razorback/messages.h *)

Definition MESSAGE_GROUP_C_AND_C : Z := 0x10000000.
Definition MESSAGE_GROUP_CACHE : Z := 0x20000000.
Definition MESSAGE_GROUP_SUBMIT : Z := 0x40000000.
Definition MESSAGE_GROUP_OUTPUT : Z := 0x80000000.

Definition MESSAGE_TYPE_HELLO : Z := Z.lor MESSAGE_GROUP_C_AND_C 1.
Definition MESSAGE_TYPE_REG_REQ : Z := Z.lor MESSAGE_GROUP_C_AND_C 2.
Definition MESSAGE_TYPE_REG_RESP : Z := Z.lor MESSAGE_GROUP_C_AND_C 3.
Definition MESSAGE_TYPE_REG_ERR : Z := Z.lor MESSAGE_GROUP_C_AND_C 4.
Definition MESSAGE_TYPE_CONFIG_UPDATE : Z := Z.lor MESSAGE_GROUP_C_AND_C 5.
Definition MESSAGE_TYPE_CONFIG_ACK : Z := Z.lor MESSAGE_GROUP_C_AND_C 6.
Definition MESSAGE_TYPE_CONFIG_ERR : Z := Z.lor MESSAGE_GROUP_C_AND_C 7.
Definition MESSAGE_TYPE_PAUSE : Z := Z.lor MESSAGE_GROUP_C_AND_C 11.
Definition MESSAGE_TYPE_PAUSED : Z := Z.lor MESSAGE_GROUP_C_AND_C 12.
Definition MESSAGE_TYPE_GO : Z := Z.lor MESSAGE_GROUP_C_AND_C 13.
Definition MESSAGE_TYPE_RUNNING : Z := Z.lor MESSAGE_GROUP_C_AND_C 14.
Definition MESSAGE_TYPE_TERM : Z := Z.lor MESSAGE_GROUP_C_AND_C 15.
Definition MESSAGE_TYPE_BYE : Z := Z.lor MESSAGE_GROUP_C_AND_C 16.
Definition MESSAGE_TYPE_CLEAR : Z := Z.lor MESSAGE_GROUP_C_AND_C 17.
Definition MESSAGE_TYPE_REREG : Z := Z.lor MESSAGE_GROUP_C_AND_C 18.
Definition MESSAGE_TYPE_REQ : Z := Z.lor MESSAGE_GROUP_CACHE 1.
Definition MESSAGE_TYPE_RESP : Z := Z.lor MESSAGE_GROUP_CACHE 2.
Definition MESSAGE_TYPE_BLOCK : Z := Z.lor MESSAGE_GROUP_SUBMIT 1.
Definition MESSAGE_TYPE_JUDGMENT : Z := Z.lor MESSAGE_GROUP_SUBMIT 2.
Definition MESSAGE_TYPE_INSPECTION : Z := Z.lor MESSAGE_GROUP_SUBMIT 3.
Definition MESSAGE_TYPE_ALERT_PRIMARY : Z := Z.lor MESSAGE_GROUP_OUTPUT 1.
Definition MESSAGE_TYPE_ALERT_CHILD : Z := Z.lor MESSAGE_GROUP_OUTPUT 2.
Definition MESSAGE_TYPE_OUTPUT_EVENT : Z := Z.lor MESSAGE_GROUP_OUTPUT 3.
Definition MESSAGE_TYPE_OUTPUT_INSPECTION : Z := Z.lor MESSAGE_GROUP_OUTPUT 5.

Definition MESSAGE_VERSION_1 : Z := 1.
Definition MSG_CNC_HEADER_SOURCE : string := "Source_Nugget".
Definition MSG_CNC_HEADER_DEST : string := "Dest_Nugget".

(** A pointer to memory that may have been freed. *)
Inductive heap_ptr (A : Type) := PNull | PLive (x : A) | PFreed.
Arguments PNull {A}.
Arguments PLive {A} x.
Arguments PFreed {A}.

(** The parts of a message that are released separately. *)
Inductive part := P_message | P_body | P_serialized | P_headers | P_field (field : string).

Global Instance part_eq_dec : EqDecision part.
Proof. solve_decision. Defined.

(** Which file's functions a message or a handler points to. *)
Inductive Codec :=
  | C_BlockSubmission | C_CacheReq | C_CacheResp | C_InspectionSubmission | C_JudgmentSubmission
  | C_AlertPrimary | C_AlertChild | C_OutputEvent | C_OutputInspection
  | C_Error | C_Hello | C_RegistrationRequest | C_ConfigUpdate | C_ConfigAck | C_Terminate | C_Empty.

Global Instance Codec_eq_dec : EqDecision Codec.
Proof. solve_decision. Defined.

#[local] Set Warnings "-register-all".

Section Bodies.
Context `{EVP} `{LibUuid}.

Record MessageBlockSubmission := mkBlockSubmission {
  bs_iReason : Z;
  bs_pEvent : option Event;
  bs_storedLocality : Z
}.

Record MessageCacheReq := mkCacheReq {
  cq_uuidRequestor : uuid_t;
  cq_pId : option BlockId
}.

Record MessageCacheResp := mkCacheResp {
  cr_pId : option BlockId;
  cr_iSfFlags : Z;
  cr_iEntFlags : Z
}.

Record MessageJudgmentSubmission := mkJudgmentSubmission {
  js_iReason : Z;
  js_pJudgment : option Judgment
}.

Record MessageInspectionSubmission := mkInspectionSubmission {
  is_iReason : Z;
  is_pBlock : option Block;
  is_eventId : option EventId;
  is_pEventMetadata : option ntlv_list;
  is_localityCount : Z;
  is_localityList : option (list Z)
}.

Record MessageAlertPrimary := mkAlertPrimary {
  ap_nugget : option Nugget;
  ap_block : option Block;
  ap_event : option Event;
  ap_gid : Z;
  ap_sid : Z;
  ap_metadata : option ntlv_list;
  ap_priority : Z;
  ap_message : option string;
  ap_seconds : Z;
  ap_nanosecs : Z;
  ap_SF_Flags : Z;
  ap_Ent_Flags : Z;
  ap_Old_SF_Flags : Z;
  ap_Old_Ent_Flags : Z
}.

Record MessageAlertChild := mkAlertChild {
  ac_nugget : option Nugget;
  ac_block : option Block;
  ac_child : option Block;
  ac_eventCount : Z;
  ac_parentCount : Z;
  ac_SF_Flags : Z;
  ac_Ent_Flags : Z;
  ac_Old_SF_Flags : Z;
  ac_Old_Ent_Flags : Z
}.

Record MessageOutputEvent := mkOutputEvent {
  oe_nugget : option Nugget;
  oe_event : option Event
}.

Record MessageOutputInspection := mkOutputInspection {
  oi_nugget : option Nugget;
  oi_seconds : Z;
  oi_nanosecs : Z;
  oi_blockId : option BlockId;
  oi_status : Z;
  oi_final : bool
}.

Record MessageError := mkError {
  er_sMessage : option string
}.

Record MessageHello := mkHello {
  he_uuidNuggetType : uuid_t;
  he_uuidApplicationType : uuid_t;
  he_locality : Z;
  he_priority : Z;
  he_flags : Z;
  he_addressList : option string_list;
  he_protocol : Z;
  he_port : Z
}.

Record MessageRegistrationRequest := mkRegistrationRequest {
  rr_uuidNuggetType : uuid_t;
  rr_uuidApplicationType : uuid_t;
  rr_iDataTypeCount : Z;
  rr_pDataTypeList : heap_ptr (list uuid_t)
}.

Record MessageConfigurationUpdate := mkConfigurationUpdate {
  cu_ntlvTypes : option uuid_list;
  cu_ntlvNames : option uuid_list;
  cu_dataTypes : option uuid_list
}.

Record MessageConfigurationAck := mkConfigurationAck {
  ca_uuidNuggetType : uuid_t;
  ca_uuidApplicationType : uuid_t
}.

Record MessageTerminate := mkTerminate {
  te_sTerminateReason : option string
}.

Inductive Body :=
  | B_BlockSubmission (b : MessageBlockSubmission)
  | B_CacheReq (b : MessageCacheReq)
  | B_CacheResp (b : MessageCacheResp)
  | B_JudgmentSubmission (b : MessageJudgmentSubmission)
  | B_InspectionSubmission (b : MessageInspectionSubmission)
  | B_AlertPrimary (b : MessageAlertPrimary)
  | B_AlertChild (b : MessageAlertChild)
  | B_OutputEvent (b : MessageOutputEvent)
  | B_OutputInspection (b : MessageOutputInspection)
  | B_Error (b : MessageError)
  | B_Hello (b : MessageHello)
  | B_RegistrationRequest (b : MessageRegistrationRequest)
  | B_ConfigurationUpdate (b : MessageConfigurationUpdate)
  | B_ConfigurationAck (b : MessageConfigurationAck)
  | B_Terminate (b : MessageTerminate).

Definition zero_BlockSubmission : MessageBlockSubmission := mkBlockSubmission 0 None 0.
Definition zero_CacheReq : MessageCacheReq := mkCacheReq uuid_null None.
Definition zero_CacheResp : MessageCacheResp := mkCacheResp None 0 0.
Definition zero_JudgmentSubmission : MessageJudgmentSubmission := mkJudgmentSubmission 0 None.
Definition zero_InspectionSubmission : MessageInspectionSubmission := mkInspectionSubmission 0 None None None 0 None.
Definition zero_AlertPrimary : MessageAlertPrimary := mkAlertPrimary None None None 0 0 None 0 None 0 0 0 0 0 0.
Definition zero_AlertChild : MessageAlertChild := mkAlertChild None None None 0 0 0 0 0 0.
Definition zero_OutputEvent : MessageOutputEvent := mkOutputEvent None None.
Definition zero_OutputInspection : MessageOutputInspection := mkOutputInspection None 0 0 None 0 false.
Definition zero_Error : MessageError := mkError None.
Definition zero_Hello : MessageHello := mkHello uuid_null uuid_null 0 0 0 None 0 0.
Definition zero_RegistrationRequest : MessageRegistrationRequest := mkRegistrationRequest uuid_null uuid_null 0 PNull.
Definition zero_ConfigurationUpdate : MessageConfigurationUpdate := mkConfigurationUpdate None None None.
Definition zero_ConfigurationAck : MessageConfigurationAck := mkConfigurationAck uuid_null uuid_null.
Definition zero_Terminate : MessageTerminate := mkTerminate None.

(** The assignments to the fields of a body. *)
Definition set_bs_iReason (x : Z) (b : MessageBlockSubmission) : MessageBlockSubmission :=
  mkBlockSubmission x (bs_pEvent b) (bs_storedLocality b).
Definition set_bs_pEvent (x : option Event) (b : MessageBlockSubmission) : MessageBlockSubmission :=
  mkBlockSubmission (bs_iReason b) x (bs_storedLocality b).
Definition set_bs_storedLocality (x : Z) (b : MessageBlockSubmission) : MessageBlockSubmission :=
  mkBlockSubmission (bs_iReason b) (bs_pEvent b) x.
Definition set_cq_uuidRequestor (x : uuid_t) (b : MessageCacheReq) : MessageCacheReq := mkCacheReq x (cq_pId b).
Definition set_cq_pId (x : option BlockId) (b : MessageCacheReq) : MessageCacheReq :=
  mkCacheReq (cq_uuidRequestor b) x.
Definition set_cr_pId (x : option BlockId) (b : MessageCacheResp) : MessageCacheResp :=
  mkCacheResp x (cr_iSfFlags b) (cr_iEntFlags b).
Definition set_cr_iSfFlags (x : Z) (b : MessageCacheResp) : MessageCacheResp :=
  mkCacheResp (cr_pId b) x (cr_iEntFlags b).
Definition set_cr_iEntFlags (x : Z) (b : MessageCacheResp) : MessageCacheResp :=
  mkCacheResp (cr_pId b) (cr_iSfFlags b) x.
Definition set_js_iReason (x : Z) (b : MessageJudgmentSubmission) : MessageJudgmentSubmission :=
  mkJudgmentSubmission x (js_pJudgment b).
Definition set_js_pJudgment (x : option Judgment) (b : MessageJudgmentSubmission) : MessageJudgmentSubmission :=
  mkJudgmentSubmission (js_iReason b) x.
Definition set_is_iReason (x : Z) (b : MessageInspectionSubmission) : MessageInspectionSubmission :=
  mkInspectionSubmission x (is_pBlock b) (is_eventId b) (is_pEventMetadata b) (is_localityCount b)
    (is_localityList b).
Definition set_is_pBlock (x : option Block) (b : MessageInspectionSubmission) : MessageInspectionSubmission :=
  mkInspectionSubmission (is_iReason b) x (is_eventId b) (is_pEventMetadata b) (is_localityCount b)
    (is_localityList b).
Definition set_is_eventId (x : option EventId) (b : MessageInspectionSubmission) : MessageInspectionSubmission :=
  mkInspectionSubmission (is_iReason b) (is_pBlock b) x (is_pEventMetadata b) (is_localityCount b)
    (is_localityList b).
Definition set_is_pEventMetadata (x : option ntlv_list) (b : MessageInspectionSubmission) : MessageInspectionSubmission :=
  mkInspectionSubmission (is_iReason b) (is_pBlock b) (is_eventId b) x (is_localityCount b) (is_localityList b).
Definition set_is_localityCount (x : Z) (b : MessageInspectionSubmission) : MessageInspectionSubmission :=
  mkInspectionSubmission (is_iReason b) (is_pBlock b) (is_eventId b) (is_pEventMetadata b) x (is_localityList b).
Definition set_is_localityList (x : option (list Z)) (b : MessageInspectionSubmission) : MessageInspectionSubmission :=
  mkInspectionSubmission (is_iReason b) (is_pBlock b) (is_eventId b) (is_pEventMetadata b) (is_localityCount b) x.
Definition set_ap_nugget (x : option Nugget) (b : MessageAlertPrimary) : MessageAlertPrimary :=
  mkAlertPrimary x (ap_block b) (ap_event b) (ap_gid b) (ap_sid b) (ap_metadata b) (ap_priority b) (ap_message b)
    (ap_seconds b) (ap_nanosecs b) (ap_SF_Flags b) (ap_Ent_Flags b) (ap_Old_SF_Flags b) (ap_Old_Ent_Flags b).
Definition set_ap_block (x : option Block) (b : MessageAlertPrimary) : MessageAlertPrimary :=
  mkAlertPrimary (ap_nugget b) x (ap_event b) (ap_gid b) (ap_sid b) (ap_metadata b) (ap_priority b) (ap_message b)
    (ap_seconds b) (ap_nanosecs b) (ap_SF_Flags b) (ap_Ent_Flags b) (ap_Old_SF_Flags b) (ap_Old_Ent_Flags b).
Definition set_ap_event (x : option Event) (b : MessageAlertPrimary) : MessageAlertPrimary :=
  mkAlertPrimary (ap_nugget b) (ap_block b) x (ap_gid b) (ap_sid b) (ap_metadata b) (ap_priority b) (ap_message b)
    (ap_seconds b) (ap_nanosecs b) (ap_SF_Flags b) (ap_Ent_Flags b) (ap_Old_SF_Flags b) (ap_Old_Ent_Flags b).
Definition set_ap_gid (x : Z) (b : MessageAlertPrimary) : MessageAlertPrimary :=
  mkAlertPrimary (ap_nugget b) (ap_block b) (ap_event b) x (ap_sid b) (ap_metadata b) (ap_priority b)
    (ap_message b) (ap_seconds b) (ap_nanosecs b) (ap_SF_Flags b) (ap_Ent_Flags b) (ap_Old_SF_Flags b) (ap_Old_Ent_Flags b).
Definition set_ap_sid (x : Z) (b : MessageAlertPrimary) : MessageAlertPrimary :=
  mkAlertPrimary (ap_nugget b) (ap_block b) (ap_event b) (ap_gid b) x (ap_metadata b) (ap_priority b)
    (ap_message b) (ap_seconds b) (ap_nanosecs b) (ap_SF_Flags b) (ap_Ent_Flags b) (ap_Old_SF_Flags b) (ap_Old_Ent_Flags b).
Definition set_ap_metadata (x : option ntlv_list) (b : MessageAlertPrimary) : MessageAlertPrimary :=
  mkAlertPrimary (ap_nugget b) (ap_block b) (ap_event b) (ap_gid b) (ap_sid b) x (ap_priority b) (ap_message b)
    (ap_seconds b) (ap_nanosecs b) (ap_SF_Flags b) (ap_Ent_Flags b) (ap_Old_SF_Flags b) (ap_Old_Ent_Flags b).
Definition set_ap_priority (x : Z) (b : MessageAlertPrimary) : MessageAlertPrimary :=
  mkAlertPrimary (ap_nugget b) (ap_block b) (ap_event b) (ap_gid b) (ap_sid b) (ap_metadata b) x (ap_message b)
    (ap_seconds b) (ap_nanosecs b) (ap_SF_Flags b) (ap_Ent_Flags b) (ap_Old_SF_Flags b) (ap_Old_Ent_Flags b).
Definition set_ap_message (x : option string) (b : MessageAlertPrimary) : MessageAlertPrimary :=
  mkAlertPrimary (ap_nugget b) (ap_block b) (ap_event b) (ap_gid b) (ap_sid b) (ap_metadata b) (ap_priority b) x
    (ap_seconds b) (ap_nanosecs b) (ap_SF_Flags b) (ap_Ent_Flags b) (ap_Old_SF_Flags b) (ap_Old_Ent_Flags b).
Definition set_ap_seconds (x : Z) (b : MessageAlertPrimary) : MessageAlertPrimary :=
  mkAlertPrimary (ap_nugget b) (ap_block b) (ap_event b) (ap_gid b) (ap_sid b) (ap_metadata b) (ap_priority b)
    (ap_message b) x (ap_nanosecs b) (ap_SF_Flags b) (ap_Ent_Flags b) (ap_Old_SF_Flags b) (ap_Old_Ent_Flags b).
Definition set_ap_nanosecs (x : Z) (b : MessageAlertPrimary) : MessageAlertPrimary :=
  mkAlertPrimary (ap_nugget b) (ap_block b) (ap_event b) (ap_gid b) (ap_sid b) (ap_metadata b) (ap_priority b)
    (ap_message b) (ap_seconds b) x (ap_SF_Flags b) (ap_Ent_Flags b) (ap_Old_SF_Flags b) (ap_Old_Ent_Flags b).
Definition set_ap_SF_Flags (x : Z) (b : MessageAlertPrimary) : MessageAlertPrimary :=
  mkAlertPrimary (ap_nugget b) (ap_block b) (ap_event b) (ap_gid b) (ap_sid b) (ap_metadata b) (ap_priority b)
    (ap_message b) (ap_seconds b) (ap_nanosecs b) x (ap_Ent_Flags b) (ap_Old_SF_Flags b) (ap_Old_Ent_Flags b).
Definition set_ap_Ent_Flags (x : Z) (b : MessageAlertPrimary) : MessageAlertPrimary :=
  mkAlertPrimary (ap_nugget b) (ap_block b) (ap_event b) (ap_gid b) (ap_sid b) (ap_metadata b) (ap_priority b)
    (ap_message b) (ap_seconds b) (ap_nanosecs b) (ap_SF_Flags b) x (ap_Old_SF_Flags b) (ap_Old_Ent_Flags b).
Definition set_ap_Old_SF_Flags (x : Z) (b : MessageAlertPrimary) : MessageAlertPrimary :=
  mkAlertPrimary (ap_nugget b) (ap_block b) (ap_event b) (ap_gid b) (ap_sid b) (ap_metadata b) (ap_priority b)
    (ap_message b) (ap_seconds b) (ap_nanosecs b) (ap_SF_Flags b) (ap_Ent_Flags b) x (ap_Old_Ent_Flags b).
Definition set_ap_Old_Ent_Flags (x : Z) (b : MessageAlertPrimary) : MessageAlertPrimary :=
  mkAlertPrimary (ap_nugget b) (ap_block b) (ap_event b) (ap_gid b) (ap_sid b) (ap_metadata b) (ap_priority b)
    (ap_message b) (ap_seconds b) (ap_nanosecs b) (ap_SF_Flags b) (ap_Ent_Flags b) (ap_Old_SF_Flags b) x.
Definition set_ac_nugget (x : option Nugget) (b : MessageAlertChild) : MessageAlertChild :=
  mkAlertChild x (ac_block b) (ac_child b) (ac_eventCount b) (ac_parentCount b) (ac_SF_Flags b) (ac_Ent_Flags b)
    (ac_Old_SF_Flags b) (ac_Old_Ent_Flags b).
Definition set_ac_block (x : option Block) (b : MessageAlertChild) : MessageAlertChild :=
  mkAlertChild (ac_nugget b) x (ac_child b) (ac_eventCount b) (ac_parentCount b) (ac_SF_Flags b) (ac_Ent_Flags b)
    (ac_Old_SF_Flags b) (ac_Old_Ent_Flags b).
Definition set_ac_child (x : option Block) (b : MessageAlertChild) : MessageAlertChild :=
  mkAlertChild (ac_nugget b) (ac_block b) x (ac_eventCount b) (ac_parentCount b) (ac_SF_Flags b) (ac_Ent_Flags b)
    (ac_Old_SF_Flags b) (ac_Old_Ent_Flags b).
Definition set_ac_eventCount (x : Z) (b : MessageAlertChild) : MessageAlertChild :=
  mkAlertChild (ac_nugget b) (ac_block b) (ac_child b) x (ac_parentCount b) (ac_SF_Flags b) (ac_Ent_Flags b)
    (ac_Old_SF_Flags b) (ac_Old_Ent_Flags b).
Definition set_ac_parentCount (x : Z) (b : MessageAlertChild) : MessageAlertChild :=
  mkAlertChild (ac_nugget b) (ac_block b) (ac_child b) (ac_eventCount b) x (ac_SF_Flags b) (ac_Ent_Flags b)
    (ac_Old_SF_Flags b) (ac_Old_Ent_Flags b).
Definition set_ac_SF_Flags (x : Z) (b : MessageAlertChild) : MessageAlertChild :=
  mkAlertChild (ac_nugget b) (ac_block b) (ac_child b) (ac_eventCount b) (ac_parentCount b) x (ac_Ent_Flags b)
    (ac_Old_SF_Flags b) (ac_Old_Ent_Flags b).
Definition set_ac_Ent_Flags (x : Z) (b : MessageAlertChild) : MessageAlertChild :=
  mkAlertChild (ac_nugget b) (ac_block b) (ac_child b) (ac_eventCount b) (ac_parentCount b) (ac_SF_Flags b) x
    (ac_Old_SF_Flags b) (ac_Old_Ent_Flags b).
Definition set_ac_Old_SF_Flags (x : Z) (b : MessageAlertChild) : MessageAlertChild :=
  mkAlertChild (ac_nugget b) (ac_block b) (ac_child b) (ac_eventCount b) (ac_parentCount b) (ac_SF_Flags b)
    (ac_Ent_Flags b) x (ac_Old_Ent_Flags b).
Definition set_ac_Old_Ent_Flags (x : Z) (b : MessageAlertChild) : MessageAlertChild :=
  mkAlertChild (ac_nugget b) (ac_block b) (ac_child b) (ac_eventCount b) (ac_parentCount b) (ac_SF_Flags b)
    (ac_Ent_Flags b) (ac_Old_SF_Flags b) x.
Definition set_oe_nugget (x : option Nugget) (b : MessageOutputEvent) : MessageOutputEvent :=
  mkOutputEvent x (oe_event b).
Definition set_oe_event (x : option Event) (b : MessageOutputEvent) : MessageOutputEvent :=
  mkOutputEvent (oe_nugget b) x.
Definition set_oi_nugget (x : option Nugget) (b : MessageOutputInspection) : MessageOutputInspection :=
  mkOutputInspection x (oi_seconds b) (oi_nanosecs b) (oi_blockId b) (oi_status b) (oi_final b).
Definition set_oi_seconds (x : Z) (b : MessageOutputInspection) : MessageOutputInspection :=
  mkOutputInspection (oi_nugget b) x (oi_nanosecs b) (oi_blockId b) (oi_status b) (oi_final b).
Definition set_oi_nanosecs (x : Z) (b : MessageOutputInspection) : MessageOutputInspection :=
  mkOutputInspection (oi_nugget b) (oi_seconds b) x (oi_blockId b) (oi_status b) (oi_final b).
Definition set_oi_blockId (x : option BlockId) (b : MessageOutputInspection) : MessageOutputInspection :=
  mkOutputInspection (oi_nugget b) (oi_seconds b) (oi_nanosecs b) x (oi_status b) (oi_final b).
Definition set_oi_status (x : Z) (b : MessageOutputInspection) : MessageOutputInspection :=
  mkOutputInspection (oi_nugget b) (oi_seconds b) (oi_nanosecs b) (oi_blockId b) x (oi_final b).
Definition set_oi_final (x : bool) (b : MessageOutputInspection) : MessageOutputInspection :=
  mkOutputInspection (oi_nugget b) (oi_seconds b) (oi_nanosecs b) (oi_blockId b) (oi_status b) x.
Definition set_er_sMessage (x : option string) (b : MessageError) : MessageError := mkError x.
Definition set_he_uuidNuggetType (x : uuid_t) (b : MessageHello) : MessageHello :=
  mkHello x (he_uuidApplicationType b) (he_locality b) (he_priority b) (he_flags b) (he_addressList b)
    (he_protocol b) (he_port b).
Definition set_he_uuidApplicationType (x : uuid_t) (b : MessageHello) : MessageHello :=
  mkHello (he_uuidNuggetType b) x (he_locality b) (he_priority b) (he_flags b) (he_addressList b)
    (he_protocol b) (he_port b).
Definition set_he_locality (x : Z) (b : MessageHello) : MessageHello :=
  mkHello (he_uuidNuggetType b) (he_uuidApplicationType b) x (he_priority b) (he_flags b) (he_addressList b)
    (he_protocol b) (he_port b).
Definition set_he_priority (x : Z) (b : MessageHello) : MessageHello :=
  mkHello (he_uuidNuggetType b) (he_uuidApplicationType b) (he_locality b) x (he_flags b) (he_addressList b)
    (he_protocol b) (he_port b).
Definition set_he_flags (x : Z) (b : MessageHello) : MessageHello :=
  mkHello (he_uuidNuggetType b) (he_uuidApplicationType b) (he_locality b) (he_priority b) x
    (he_addressList b) (he_protocol b) (he_port b).
Definition set_he_addressList (x : option string_list) (b : MessageHello) : MessageHello :=
  mkHello (he_uuidNuggetType b) (he_uuidApplicationType b) (he_locality b) (he_priority b) (he_flags b) x
    (he_protocol b) (he_port b).
Definition set_he_protocol (x : Z) (b : MessageHello) : MessageHello :=
  mkHello (he_uuidNuggetType b) (he_uuidApplicationType b) (he_locality b) (he_priority b) (he_flags b)
    (he_addressList b) x (he_port b).
Definition set_he_port (x : Z) (b : MessageHello) : MessageHello :=
  mkHello (he_uuidNuggetType b) (he_uuidApplicationType b) (he_locality b) (he_priority b) (he_flags b)
    (he_addressList b) (he_protocol b) x.
Definition set_rr_uuidNuggetType (x : uuid_t) (b : MessageRegistrationRequest) : MessageRegistrationRequest :=
  mkRegistrationRequest x (rr_uuidApplicationType b) (rr_iDataTypeCount b) (rr_pDataTypeList b).
Definition set_rr_uuidApplicationType (x : uuid_t) (b : MessageRegistrationRequest) : MessageRegistrationRequest :=
  mkRegistrationRequest (rr_uuidNuggetType b) x (rr_iDataTypeCount b) (rr_pDataTypeList b).
Definition set_rr_iDataTypeCount (x : Z) (b : MessageRegistrationRequest) : MessageRegistrationRequest :=
  mkRegistrationRequest (rr_uuidNuggetType b) (rr_uuidApplicationType b) x (rr_pDataTypeList b).
Definition set_rr_pDataTypeList (x : heap_ptr (list uuid_t)) (b : MessageRegistrationRequest) : MessageRegistrationRequest :=
  mkRegistrationRequest (rr_uuidNuggetType b) (rr_uuidApplicationType b) (rr_iDataTypeCount b) x.
Definition set_cu_ntlvTypes (x : option uuid_list) (b : MessageConfigurationUpdate) : MessageConfigurationUpdate :=
  mkConfigurationUpdate x (cu_ntlvNames b) (cu_dataTypes b).
Definition set_cu_ntlvNames (x : option uuid_list) (b : MessageConfigurationUpdate) : MessageConfigurationUpdate :=
  mkConfigurationUpdate (cu_ntlvTypes b) x (cu_dataTypes b).
Definition set_cu_dataTypes (x : option uuid_list) (b : MessageConfigurationUpdate) : MessageConfigurationUpdate :=
  mkConfigurationUpdate (cu_ntlvTypes b) (cu_ntlvNames b) x.
Definition set_ca_uuidNuggetType (x : uuid_t) (b : MessageConfigurationAck) : MessageConfigurationAck :=
  mkConfigurationAck x (ca_uuidApplicationType b).
Definition set_ca_uuidApplicationType (x : uuid_t) (b : MessageConfigurationAck) : MessageConfigurationAck :=
  mkConfigurationAck (ca_uuidNuggetType b) x.
Definition set_te_sTerminateReason (x : option string) (b : MessageTerminate) : MessageTerminate := mkTerminate x.

(** A structure that [message->message] may point to. *)
Class BodyType (B : Type) := {
  inj : B -> Body;
  proj : Body -> option B;
  proj_inj b : proj (inj b) = Some b;
  inj_proj x b : proj x = Some b -> x = inj b
}.

Global Instance BlockSubmission_body : BodyType MessageBlockSubmission :=
  { inj := B_BlockSubmission; proj b := match b with B_BlockSubmission x => Some x | _ => None end; proj_inj _ := eq_refl; inj_proj := ltac:(by intros [] ?; simpl; intros [= ->]) }.
Global Instance CacheReq_body : BodyType MessageCacheReq :=
  { inj := B_CacheReq; proj b := match b with B_CacheReq x => Some x | _ => None end; proj_inj _ := eq_refl; inj_proj := ltac:(by intros [] ?; simpl; intros [= ->]) }.
Global Instance CacheResp_body : BodyType MessageCacheResp :=
  { inj := B_CacheResp; proj b := match b with B_CacheResp x => Some x | _ => None end; proj_inj _ := eq_refl; inj_proj := ltac:(by intros [] ?; simpl; intros [= ->]) }.
Global Instance JudgmentSubmission_body : BodyType MessageJudgmentSubmission :=
  { inj := B_JudgmentSubmission; proj b := match b with B_JudgmentSubmission x => Some x | _ => None end; proj_inj _ := eq_refl; inj_proj := ltac:(by intros [] ?; simpl; intros [= ->]) }.
Global Instance InspectionSubmission_body : BodyType MessageInspectionSubmission :=
  { inj := B_InspectionSubmission; proj b := match b with B_InspectionSubmission x => Some x | _ => None end; proj_inj _ := eq_refl; inj_proj := ltac:(by intros [] ?; simpl; intros [= ->]) }.
Global Instance AlertPrimary_body : BodyType MessageAlertPrimary :=
  { inj := B_AlertPrimary; proj b := match b with B_AlertPrimary x => Some x | _ => None end; proj_inj _ := eq_refl; inj_proj := ltac:(by intros [] ?; simpl; intros [= ->]) }.
Global Instance AlertChild_body : BodyType MessageAlertChild :=
  { inj := B_AlertChild; proj b := match b with B_AlertChild x => Some x | _ => None end; proj_inj _ := eq_refl; inj_proj := ltac:(by intros [] ?; simpl; intros [= ->]) }.
Global Instance OutputEvent_body : BodyType MessageOutputEvent :=
  { inj := B_OutputEvent; proj b := match b with B_OutputEvent x => Some x | _ => None end; proj_inj _ := eq_refl; inj_proj := ltac:(by intros [] ?; simpl; intros [= ->]) }.
Global Instance OutputInspection_body : BodyType MessageOutputInspection :=
  { inj := B_OutputInspection; proj b := match b with B_OutputInspection x => Some x | _ => None end; proj_inj _ := eq_refl; inj_proj := ltac:(by intros [] ?; simpl; intros [= ->]) }.
Global Instance Error_body : BodyType MessageError :=
  { inj := B_Error; proj b := match b with B_Error x => Some x | _ => None end; proj_inj _ := eq_refl; inj_proj := ltac:(by intros [] ?; simpl; intros [= ->]) }.
Global Instance Hello_body : BodyType MessageHello :=
  { inj := B_Hello; proj b := match b with B_Hello x => Some x | _ => None end; proj_inj _ := eq_refl; inj_proj := ltac:(by intros [] ?; simpl; intros [= ->]) }.
Global Instance RegistrationRequest_body : BodyType MessageRegistrationRequest :=
  { inj := B_RegistrationRequest; proj b := match b with B_RegistrationRequest x => Some x | _ => None end; proj_inj _ := eq_refl; inj_proj := ltac:(by intros [] ?; simpl; intros [= ->]) }.
Global Instance ConfigurationUpdate_body : BodyType MessageConfigurationUpdate :=
  { inj := B_ConfigurationUpdate; proj b := match b with B_ConfigurationUpdate x => Some x | _ => None end; proj_inj _ := eq_refl; inj_proj := ltac:(by intros [] ?; simpl; intros [= ->]) }.
Global Instance ConfigurationAck_body : BodyType MessageConfigurationAck :=
  { inj := B_ConfigurationAck; proj b := match b with B_ConfigurationAck x => Some x | _ => None end; proj_inj _ := eq_refl; inj_proj := ltac:(by intros [] ?; simpl; intros [= ->]) }.
Global Instance Terminate_body : BodyType MessageTerminate :=
  { inj := B_Terminate; proj b := match b with B_Terminate x => Some x | _ => None end; proj_inj _ := eq_refl; inj_proj := ltac:(by intros [] ?; simpl; intros [= ->]) }.
End Bodies.

(** ** Messages, headers and handlers *)

Record MessageHeader := mkHeader { mh_sName : string; mh_sValue : string }.

Abbreviation header_list := (vlist string MessageHeader).

Record MessageHandler := mkHandler { hd_type : Z; hd_codec : Codec }.

Abbreviation handler_list := (vlist Z MessageHandler).

Section Message.
Context `{EVP} `{LibUuid}.

Record Message := mkMessage {
  m_type : Z;
  m_length : Z;
  m_version : Z;
  m_headers : option header_list;
  m_message : option Body;
  m_serialized : option string;
  m_codec : option Codec
}.

Definition with_headers (m : Message) (h : option header_list) : Message :=
  mkMessage (m_type m) (m_length m) (m_version m) h (m_message m) (m_serialized m) (m_codec m).
Definition with_body (m : Message) (b : option Body) : Message :=
  mkMessage (m_type m) (m_length m) (m_version m) (m_headers m) b (m_serialized m) (m_codec m).
Definition with_serialized (m : Message) (s : string) (n : Z) : Message :=
  mkMessage (m_type m) n (m_version m) (m_headers m) (m_message m) (Some s) (m_codec m).
Definition with_codec (m : Message) (c : Codec) : Message :=
  mkMessage (m_type m) (m_length m) (m_version m) (m_headers m) (m_message m) (m_serialized m) (Some c).

(** *** The monad of functions on a message *)

Definition MM (A : Type) : Type := Message -> allocs -> option (option A * Message * allocs).

Global Instance MM_ret : MRet MM := fun A x m o => Some (Some x, m, o).
Global Instance MM_bind : MBind MM := fun A B f c m o =>
  match c m o with
  | None => None
  | Some (None, m', o') => Some (None, m', o')
  | Some (Some x, m', o') => f x m' o'
  end.

(** Code that does not touch the message; [return false] when it fails. *)
Definition lift {A} (c : M A) : MM A := fun m o => '(r, o') ← c o; Some (r, m, o').

Definition ask : MM Message := fun m o => Some (Some m, m, o).
Definition modify (f : Message -> Message) : MM unit := fun m o => Some (Some (), f m, o).

(** [message->message] read as a [B]. *)
Definition body_of {B} `{!BodyType B} (m : Message) : option B := b ← m_message m; proj b.
Definition get_body {B} `{!BodyType B} : MM B := m ← ask; lift (deref (body_of m)).

(** An assignment to a field of the body. *)
Definition store {B} `{!BodyType B} (f : B -> B) : MM unit :=
  b ← get_body; modify (fun m => with_body m (Some (inj (f b)))).

(** [if (!get (..., &body->field)) return false;]: the field is assigned when the
    reader succeeds. *)
Definition fill {B} `{!BodyType B} {A} (set : A -> B -> B) (get : M A) : MM unit :=
  x ← lift get; store (set x).

(** [if ((message->message = calloc (1, sizeof)) == NULL) return false;] *)
Definition new_body {B} `{!BodyType B} (zero : B) : MM unit := fun m o =>
  let '(ok, o) := alloc_next o in
  if (ok : bool) then Some (Some (), with_body m (Some (inj zero)), o) else Some (None, with_body m None, o).

Definition Call : Type := option Message -> allocs -> option (bool * option Message * allocs).

(** [if (message == NULL) return false;] *)
Definition on_message (c : MM unit) : Call := fun message o =>
  match message with
  | None => Some (false, None, o)
  | Some m => '(r, m', o') ← c m o; Some (match r with Some _ => true | None => false end, Some m', o')
  end.

(** *** Headers *)

Definition MessageHeader_KeyCmp (s : allocs) (item : MessageHeader) (key : string) : Z :=
  strcmp (mh_sName item) key.

(** The name of the first header is compared with itself. *)
Definition MessageHeader_Cmp (s : allocs) (iA iB : MessageHeader) : Z :=
  if (strcmp (mh_sName iA) (mh_sName iA) == 0) || (strcmp (mh_sValue iA) (mh_sValue iB) == 0) then 0 else -1.

Definition MessageHeader_Delete (a : MessageHeader) (o : allocs) : allocs := o.

Definition MessageHeader_Clone (orig : MessageHeader) (o : allocs) : option MessageHeader * allocs :=
  let '(b1, o1) := alloc_next o in
  if negb b1 then (None, o1)
  else
    let '(b2, o2) := alloc_next o1 in
    if negb b2 then (None, o2)
    else
      let '(b3, o3) := alloc_next o2 in
      if negb b3 then (None, o3) else (Some (mkHeader (mh_sName orig) (mh_sValue orig)), o3).

Definition Message_Header_List_Create : M header_list :=
  list_create MessageHeader_Cmp MessageHeader_KeyCmp MessageHeader_Delete MessageHeader_Clone.

(** The list with the new header; the result of [List_Push] is not looked at. *)
Definition Message_HeaderList_Add (headers : option header_list) (p_sName p_sValue : option string)
    : M (option header_list) :=
  l ← nonnull headers;
  name ← nonnull p_sName;
  value ← nonnull p_sValue;
  alloc ;;
  alloc ;;
  alloc ;;
  '(_, l') ← list_push (Some l) (mkHeader name value);
  mret l'.

Definition Message_Add_Header (p_sName p_sValue : option string) : Call := on_message (
  name ← lift (nonnull p_sName);
  value ← lift (nonnull p_sValue);
  m ← ask;
  l ← lift (Message_HeaderList_Add (m_headers m) (Some name) (Some value));
  modify (fun m => with_headers m l)).

(** *** Creation *)

(** A result that is stored without a test. *)
Definition unchecked {A} (c : M A) : M (option A) := fun o => '(r, o') ← c o; Some (Some r, o').

(** [zero] is the zeroed body, absent when [msgSize] is 0. *)
Definition Message_Create (type version : Z) (zero : option Body) : M Message :=
  alloc ;;
  (match zero with Some _ => alloc | None => mret () end) ;;
  headers ← unchecked Message_Header_List_Create;
  mret (mkMessage type 0 version headers zero None None).

Definition Message_SetSerializedJson (wire : option string) : MM unit := fun m o =>
  match wire with
  | None => Some (None, m, o)
  | Some w =>
      match m_serialized m with
      | Some _ => Some (None, m, o)
      | None =>
          let '(ok, o) := alloc_next o in
          if (ok : bool) then Some (Some (), with_serialized m w (strlen w), o) else Some (None, m, o)
      end
  end.

(** [if (p != NULL) free (p);] *)
Definition released {A} (x : part) (p : option A) : list part := match p with Some _ => [x] | None => [] end.

(** [Message_Destroy]: the parts released, the message last. *)
Definition Message_Destroy (message : option Message) : list part :=
  match message with
  | None => []
  | Some m =>
      released P_body (m_message m) ++ released P_serialized (m_serialized m) ++
      released P_headers (m_headers m) ++ [P_message]
  end.

(** The results of the two calls are not looked at. *)
Definition Message_Add_Directed_Headers (source dest : uuid_t) : Call := fun message o =>
  match message with
  | None => Some (false, None, o)
  | Some m =>
      '(_, message, o) ← Message_Add_Header (Some MSG_CNC_HEADER_SOURCE) (Some (uuid_unparse source)) (Some m) o;
      '(_, message, o) ← Message_Add_Header (Some MSG_CNC_HEADER_DEST) (Some (uuid_unparse dest)) message o;
      Some (true, message, o)
  end.

(** The part that [Message_Create_Directed] and [Message_Create_Broadcast] share. *)
Definition with_nuggets (source dest : uuid_t) (m : Message) : M Message := fun o =>
  '(ok, message, o) ← Message_Add_Directed_Headers source dest (Some m) o;
  Some (if (ok : bool) then message else None, o).

Definition Message_Create_Directed (type version : Z) (zero : option Body) (source dest : uuid_t) : M Message :=
  msg ← Message_Create type version zero;
  with_nuggets source dest msg.

Definition Message_Create_Broadcast (type version : Z) (zero : option Body) (source : uuid_t) : M Message :=
  let dest := uuid_null in
  msg ← Message_Create type version zero;
  with_nuggets source dest msg.

(** The source and the destination. *)
Definition Message_Get_Nuggets (message : option Message) : M (uuid_t * uuid_t) :=
  m ← nonnull message;
  header ← list_find (m_headers m) MSG_CNC_HEADER_DEST;
  dest ← nonnull (uuid_parse (mh_sValue header));
  header ← list_find (m_headers m) MSG_CNC_HEADER_SOURCE;
  source ← nonnull (uuid_parse (mh_sValue header));
  mret (source, dest).

(** *** Messages without a body *)

(** The text replaces one that is already there. *)
Definition Message_Serialize_Empty : Call := on_message (
  lift alloc ;;
  modify (fun m => with_serialized m "{}" 2)).

Definition Message_Deserialize_Empty : Call := on_message (mret ()).

(** *** Handlers *)

(** The conversion of a [uint32_t] to [int]. *)
Definition to_int (x : Z) : Z := if x <? 2 ^ 31 then x else x - 2 ^ 32.

Definition MessageHandler_KeyCmp (s : allocs) (item : MessageHandler) (key : Z) : Z :=
  to_int (u32 (hd_type item - key)).

(** Handlers at different addresses. *)
Definition MessageHandler_Cmp (s : allocs) (iA iB : MessageHandler) : Z :=
  to_int (u32 (hd_type iA - hd_type iB)).

Definition MessageHandler_Delete (a : MessageHandler) (o : allocs) : allocs := o.

(** The list of [Message_Init]: without a clone function. *)
Definition handlerList_Create : M handler_list := fun o =>
  let '(ok, o) := alloc_next o in
  if negb ok then Some (None, o)
  else
    let '(lock_ok, o) := alloc_next o in
    Some (List_Create true lock_ok true LIST_MODE_GENERIC (Some MessageHandler_Cmp) (Some MessageHandler_KeyCmp)
            (Some MessageHandler_Delete) None None None, o).

(** Whether the handler was registered, and the list. *)
Definition Message_Register_Handler (handlerList : option handler_list) (handler : option MessageHandler)
    : M (bool * option handler_list) :=
  match handler with
  | None => mret (false, handlerList)
  | Some h => list_push handlerList h
  end.

(** [Message_Setup]: the function pointers of the type's handler. *)
Definition Message_Setup (handlerList : option handler_list) : Call := on_message (
  m ← ask;
  handler ← lift (list_find handlerList (m_type m));
  modify (fun m => with_codec m (hd_codec handler))).
End Message.

(** ** The shape of the serializers and destructors *)

Section Wire.
Context `{EVP} `{LibUuid} `{JsonText}.

(** The fields of a new object; the object is released when one cannot be added. *)
Definition build_json (put : Put) : M jobj := fun o =>
  '(ok, msg, o) ← put (Some json_object_new_object) o;
  Some (if (ok : bool) then msg else None, o).

(** [json_object_to_json_string]: NULL when it cannot allocate the text. *)
Definition json_text (msg : jobj) : M (option string) := fun o =>
  let '(ok, o) := alloc_next o in
  Some (Some (if (ok : bool) then Some (json_object_to_json_string msg) else None), o).

(** [json_object_new_object], the fields of the body, [json_object_to_json_string]
    and [Message_SetSerializedJson]. *)
Definition serialize_with {B} `{!BodyType B} (put : B -> Put) : MM unit :=
  lift alloc ;;
  body ← get_body;
  msg ← lift (build_json (put body));
  wire ← lift (json_text msg);
  Message_SetSerializedJson wire.

(** [json_tokener_parse ((char * ) message->serialized)] *)
Definition parse_serialized : MM jobj :=
  m ← ask;
  lift (text ← deref (m_serialized m); alloc ;; nonnull (json_tokener_parse text)).

(** The destruction of a field of a body that is not NULL. *)
Definition freed {A} (field : string) (p : option A) : list part := released (P_field field) p.

(** A destructor: the fields of the body if there is one, then the message. *)
Definition destroy_with {B} `{!BodyType B} (fields : B -> option (list part)) (message : option Message)
    : option (list part) :=
  match message with
  | None => Some []
  | Some m =>
      match m_message m with
      | None => Some (Message_Destroy message)
      | Some x => b ← proj x; ps ← fields b; Some (ps ++ Message_Destroy message)
      end
  end.
End Wire.
