(* ===== verification/MessageCodecs.v ===== *)
(** * The data messages: src/messages

    For each message its constructor, serializer, deserializer and destructor:
    block submissions, cache requests and responses, inspections, judgments, alerts
    and output records.  The readers of the recursive structures run with
    JSON_TOKENER_DEFAULT_DEPTH units of fuel, which suffices because the parser
    refuses deeper values. *)

From S2P Require Import Prelude CLib RzbList RzbListProps ListM Hash LibUuid Uuids Ntlv Blocks JsonC JsonBuffer JsonText Messages.

Section Codecs.
Context `{EVP} `{LibUuid} `{JsonText} `{Base64} `{Inet}.
Variable sg : UuidLists.

(** A call of a [Put] function on a structure that it reads after it has
    allocated the object: a NULL pointer is dereferenced there. *)
Definition put_pointer {A} (put : A -> Put) (p : option A) : Put :=
  match p with
  | Some x => put x
  | None => put_with alloc (fun _ => put_crash)
  end.

(** *** src/messages/block_submit.c *)

Definition MessageBlockSubmission_Initialize (p_pEvent : option Event) (p_iReason locality : Z) : M Message :=
  e ← nonnull p_pEvent;
  msg ← Message_Create MESSAGE_TYPE_BLOCK MESSAGE_VERSION_1 (Some (inj zero_BlockSubmission));
  mret (with_codec (with_body msg (Some (inj (mkBlockSubmission p_iReason (Some e) locality)))) C_BlockSubmission).

Definition BlockSubmission_Destroy : option Message -> option (list part) :=
  destroy_with (fun msg => Some (freed "pEvent" (bs_pEvent msg))).

Definition BlockSubmission_Deserialize : Call := on_message (
  new_body zero_BlockSubmission ;;
  msg ← parse_serialized;
  fill set_bs_iReason (JsonBuffer_Get_uint32_t (Some msg) (Some "Reason")) ;;
  fill (fun e => set_bs_pEvent (Some e))
    (JsonBuffer_Get_Event sg JSON_TOKENER_DEFAULT_DEPTH (Some msg) (Some "Event")) ;;
  fill set_bs_storedLocality (JsonBuffer_Get_uint8_t (Some msg) (Some "Stored_Locality"))).

Definition BlockSubmission_Serialize : Call := on_message (serialize_with (fun submit =>
  JsonBuffer_Put_uint32_t (Some "Reason") (bs_iReason submit) ;+
  put_pointer (JsonBuffer_Put_Event sg (Some "Event")) (bs_pEvent submit) ;+
  JsonBuffer_Put_uint8_t (Some "Stored_Locality") (bs_storedLocality submit))).

(** *** src/messages/cache_req.c *)

Definition MessageCacheReq_Initialize (p_uuidRequestor : uuid_t) (p_pBlockId : option BlockId) : M Message :=
  id ← nonnull p_pBlockId;
  msg ← Message_Create MESSAGE_TYPE_REQ MESSAGE_VERSION_1 (Some (inj zero_CacheReq));
  clone ← BlockId_Clone (Some id);
  mret (with_codec (with_body msg (Some (inj (mkCacheReq p_uuidRequestor (Some clone))))) C_CacheReq).

Definition CacheReq_Destroy : option Message -> option (list part) :=
  destroy_with (fun msg => Some (freed "pId" (cq_pId msg))).

Definition CacheReq_Deserialize : Call := on_message (
  new_body zero_CacheReq ;;
  msg ← parse_serialized;
  fill set_cq_uuidRequestor (JsonBuffer_Get_UUID (Some msg) (Some "Requestor")) ;;
  fill (fun i => set_cq_pId (Some i)) (JsonBuffer_Get_BlockId (Some msg) (Some "Block_ID"))).

Definition CacheReq_Serialize : Call := on_message (serialize_with (fun submit =>
  JsonBuffer_Put_UUID (Some "Requestor") (cq_uuidRequestor submit) ;+
  JsonBuffer_Put_BlockId (Some "Block_ID") (cq_pId submit))).

(** *** src/messages/cache_resp.c *)

Definition MessageCacheResp_Initialize (p_pBlockId : option BlockId) (p_iSfFlags p_iEntFlags : Z) : M Message :=
  id ← nonnull p_pBlockId;
  msg ← Message_Create MESSAGE_TYPE_RESP MESSAGE_VERSION_1 (Some (inj zero_CacheResp));
  clone ← BlockId_Clone (Some id);
  mret (with_codec (with_body msg (Some (inj (mkCacheResp (Some clone) p_iSfFlags p_iEntFlags)))) C_CacheResp).

Definition CacheResp_Destroy : option Message -> option (list part) :=
  destroy_with (fun msg => Some (freed "pId" (cr_pId msg))).

Definition CacheResp_Deserialize : Call := on_message (
  new_body zero_CacheResp ;;
  msg ← parse_serialized;
  fill (fun i => set_cr_pId (Some i)) (JsonBuffer_Get_BlockId (Some msg) (Some "Block_ID")) ;;
  fill set_cr_iSfFlags (JsonBuffer_Get_uint32_t (Some msg) (Some "SF_Flags")) ;;
  fill set_cr_iEntFlags (JsonBuffer_Get_uint32_t (Some msg) (Some "Ent_Flags"))).

Definition CacheResp_Serialize : Call := on_message (serialize_with (fun submit =>
  JsonBuffer_Put_BlockId (Some "Block_ID") (cr_pId submit) ;+
  JsonBuffer_Put_uint32_t (Some "SF_Flags") (cr_iSfFlags submit) ;+
  JsonBuffer_Put_uint32_t (Some "Ent_Flags") (cr_iEntFlags submit))).

(** *** src/messages/inspection.c *)

(** [pushes] and [pushes'] are the outcomes of the node allocations of the two
    cloned lists; [localities] is read for its first [localityCount] bytes. *)
Definition MessageInspectionSubmission_Initialize (pushes pushes' : allocs) (p_pEvent : option Event)
    (p_iReason localityCount : Z) (localities : option (list Z)) : M Message :=
  e ← nonnull p_pEvent;
  msg ← Message_Create MESSAGE_TYPE_INSPECTION MESSAGE_VERSION_1 (Some (inj zero_InspectionSubmission));
  block ← Block_Clone pushes (e_pBlock e);
  eventId ← EventId_Clone (e_pId e);
  metadata ← list_clone pushes' (e_pMetaDataList e);
  list ← (if 0 <? localityCount then
            alloc ;;
            src ← deref localities;
            bs ← deref (read_bytes src localityCount);
            mret (Some bs)
          else mret None);
  mret (with_codec (with_body msg (Some (inj
    (mkInspectionSubmission p_iReason (Some block) (Some eventId) (Some metadata) localityCount list))))
    C_InspectionSubmission).

Definition InspectionSubmission_Destroy : option Message -> option (list part) :=
  destroy_with (fun msg => Some (freed "pBlock" (is_pBlock msg) ++ freed "eventId" (is_eventId msg) ++
    freed "pEventMetadata" (is_pEventMetadata msg) ++ freed "localityList" (is_localityList msg))).

(** The array and its length; an empty array is not allocated. *)
Definition set_localities (xs : list Z) (b : MessageInspectionSubmission) : MessageInspectionSubmission :=
  set_is_localityCount (u32 (Z.of_nat (length xs)))
    (set_is_localityList (match xs with [] => None | _ => Some xs end) b).

(** [JsonBuffer_Put_uint8List] on an array and its length: the loop reads past the
    end of an array that is too short. *)
Definition put_localities (name : option string) (list : option (list Z)) (count : Z) : Put :=
  let xs := default [] list in
  if count <=? Z.of_nat (length xs) then JsonBuffer_Put_uint8List name (take (Z.to_nat count) xs)
  else put_child name json_object_new_array (put_uint8s xs ;+ put_crash).

Definition InspectionSubmission_Deserialize : Call := on_message (
  new_body zero_InspectionSubmission ;;
  msg ← parse_serialized;
  fill set_is_iReason (JsonBuffer_Get_uint32_t (Some msg) (Some "Reason")) ;;
  fill (fun i => set_is_eventId (Some i)) (JsonBuffer_Get_EventId (Some msg) (Some "Event_ID")) ;;
  fill (fun l => set_is_pEventMetadata (Some l)) (JsonBuffer_Get_NTLVList sg (Some msg) (Some "Event_Metadata")) ;;
  fill (fun b => set_is_pBlock (Some b))
    (JsonBuffer_Get_Block sg JSON_TOKENER_DEFAULT_DEPTH (Some msg) (Some "Block")) ;;
  fill set_localities (JsonBuffer_Get_uint8List (Some msg) (Some "Avaliable_Localities"))).

Definition InspectionSubmission_Serialize : Call := on_message (serialize_with (fun submit =>
  JsonBuffer_Put_uint32_t (Some "Reason") (is_iReason submit) ;+
  JsonBuffer_Put_EventId (Some "Event_ID") (is_eventId submit) ;+
  JsonBuffer_Put_NTLVList sg (Some "Event_Metadata") (is_pEventMetadata submit) ;+
  put_pointer (JsonBuffer_Put_Block sg (Some "Block")) (is_pBlock submit) ;+
  put_localities (Some "Avaliable_Localities") (is_localityList submit) (is_localityCount submit))).

(** *** src/messages/judgment.c *)

Definition MessageJudgmentSubmission_Initialize (p_iReason : Z) (p_pJudgment : option Judgment) : M Message :=
  j ← nonnull p_pJudgment;
  msg ← Message_Create MESSAGE_TYPE_JUDGMENT MESSAGE_VERSION_1 (Some (inj zero_JudgmentSubmission));
  mret (with_codec (with_body msg (Some (inj (mkJudgmentSubmission p_iReason (Some j))))) C_JudgmentSubmission).

Definition JudgmentSubmission_Destroy : option Message -> option (list part) :=
  destroy_with (fun msg => Some (freed "pJudgment" (js_pJudgment msg))).

Definition JudgmentSubmission_Deserialize : Call := on_message (
  new_body zero_JudgmentSubmission ;;
  msg ← parse_serialized;
  fill set_js_iReason (JsonBuffer_Get_uint8_t (Some msg) (Some "Reason")) ;;
  fill (fun j => set_js_pJudgment (Some j)) (JsonBuffer_Get_Judgment sg (Some msg) (Some "Judgment"))).

Definition JudgmentSubmission_Serialize : Call := on_message (serialize_with (fun submit =>
  JsonBuffer_Put_uint8_t (Some "Reason") (js_iReason submit) ;+
  JsonBuffer_Put_Judgment sg (Some "Judgment") (js_pJudgment submit))).

(** *** src/messages/alert_primary.c *)

Definition MessageAlertPrimary_Initialize (event : option Event) (block : option Block)
    (metadata : option ntlv_list) (nugget : option Nugget) (judgment : option Judgment)
    (new_SF_Flags new_Ent_Flags old_SF_Flags old_Ent_Flags : Z) : M Message :=
  event ← nonnull event;
  block ← nonnull block;
  metadata ← nonnull metadata;
  nugget ← nonnull nugget;
  j ← nonnull judgment;
  msg ← Message_Create MESSAGE_TYPE_ALERT_PRIMARY MESSAGE_VERSION_1 (Some (inj zero_AlertPrimary));
  mret (with_codec (with_body msg (Some (inj
    (mkAlertPrimary (Some nugget) (Some block) (Some event) (j_iGID j) (j_iSID j) (Some metadata) (j_iPriority j)
       (j_sMessage j) (j_iSeconds j) (j_iNanoSecs j) new_SF_Flags new_Ent_Flags old_SF_Flags old_Ent_Flags))))
    C_AlertPrimary).

Definition AlertPrimary_Destroy : option Message -> option (list part) :=
  destroy_with (fun msg => Some (freed "event" (ap_event msg) ++ freed "block" (ap_block msg) ++
    freed "metadata" (ap_metadata msg) ++ freed "message" (ap_message msg) ++ freed "nugget" (ap_nugget msg))).

Definition AlertPrimary_Deserialize : Call := on_message (
  new_body zero_AlertPrimary ;;
  msg ← parse_serialized;
  fill (fun n => set_ap_nugget (Some n)) (JsonBuffer_Get_Nugget (Some msg) (Some "Nugget")) ;;
  fill (fun b => set_ap_block (Some b))
    (JsonBuffer_Get_Block sg JSON_TOKENER_DEFAULT_DEPTH (Some msg) (Some "Block")) ;;
  fill (fun e => set_ap_event (Some e))
    (JsonBuffer_Get_Event sg JSON_TOKENER_DEFAULT_DEPTH (Some msg) (Some "Event")) ;;
  fill set_ap_message (unchecked (JsonBuffer_Get_String (Some msg) (Some "Message"))) ;;
  fill set_ap_priority (JsonBuffer_Get_uint8_t (Some msg) (Some "Priority")) ;;
  fill set_ap_seconds (JsonBuffer_Get_uint64_t (Some msg) (Some "Seconds")) ;;
  fill set_ap_nanosecs (JsonBuffer_Get_uint64_t (Some msg) (Some "Nano_Seconds")) ;;
  fill set_ap_gid (JsonBuffer_Get_uint32_t (Some msg) (Some "GID")) ;;
  fill set_ap_sid (JsonBuffer_Get_uint32_t (Some msg) (Some "SID")) ;;
  fill set_ap_SF_Flags (JsonBuffer_Get_uint32_t (Some msg) (Some "SF_Flags")) ;;
  fill set_ap_Ent_Flags (JsonBuffer_Get_uint32_t (Some msg) (Some "Ent_Flags")) ;;
  fill set_ap_Old_SF_Flags (JsonBuffer_Get_uint32_t (Some msg) (Some "Old_SF_Flags")) ;;
  fill set_ap_Old_Ent_Flags (JsonBuffer_Get_uint32_t (Some msg) (Some "Old_Ent_Flags")) ;;
  fill (fun l => set_ap_metadata (Some l)) (JsonBuffer_Get_NTLVList sg (Some msg) (Some "Metadata"))).

Definition AlertPrimary_Serialize : Call := on_message (serialize_with (fun alert =>
  JsonBuffer_Put_Nugget (Some "Nugget") (ap_nugget alert) ;+
  put_pointer (JsonBuffer_Put_Block sg (Some "Block")) (ap_block alert) ;+
  put_pointer (JsonBuffer_Put_Event sg (Some "Event")) (ap_event alert) ;+
  put_opt (ap_message alert) (fun s => JsonBuffer_Put_String (Some "Message") s) ;+
  JsonBuffer_Put_uint8_t (Some "Priority") (ap_priority alert) ;+
  JsonBuffer_Put_uint64_t (Some "Seconds") (ap_seconds alert) ;+
  JsonBuffer_Put_uint64_t (Some "Nano_Seconds") (ap_nanosecs alert) ;+
  JsonBuffer_Put_uint32_t (Some "GID") (ap_gid alert) ;+
  JsonBuffer_Put_uint32_t (Some "SID") (ap_sid alert) ;+
  JsonBuffer_Put_uint32_t (Some "SF_Flags") (ap_SF_Flags alert) ;+
  JsonBuffer_Put_uint32_t (Some "Ent_Flags") (ap_Ent_Flags alert) ;+
  JsonBuffer_Put_uint32_t (Some "Old_SF_Flags") (ap_Old_SF_Flags alert) ;+
  JsonBuffer_Put_uint32_t (Some "Old_Ent_Flags") (ap_Old_Ent_Flags alert) ;+
  JsonBuffer_Put_NTLVList sg (Some "Metadata") (ap_metadata alert))).

(** *** src/messages/alert_child.c *)

Definition MessageAlertChild_Initialize (block child : option Block) (nugget : option Nugget)
    (parentCount eventCount new_SF_Flags new_Ent_Flags old_SF_Flags old_Ent_Flags : Z) : M Message :=
  child ← nonnull child;
  block ← nonnull block;
  nugget ← nonnull nugget;
  msg ← Message_Create MESSAGE_TYPE_ALERT_CHILD MESSAGE_VERSION_1 (Some (inj zero_AlertChild));
  mret (with_codec (with_body msg (Some (inj
    (mkAlertChild (Some nugget) (Some block) (Some child) eventCount parentCount
       new_SF_Flags new_Ent_Flags old_SF_Flags old_Ent_Flags)))) C_AlertChild).

Definition AlertChild_Destroy : option Message -> option (list part) :=
  destroy_with (fun msg => Some (freed "child" (ac_child msg) ++ freed "block" (ac_block msg) ++
    freed "nugget" (ac_nugget msg))).

Definition AlertChild_Deserialize : Call := on_message (
  new_body zero_AlertChild ;;
  msg ← parse_serialized;
  fill (fun n => set_ac_nugget (Some n)) (JsonBuffer_Get_Nugget (Some msg) (Some "Nugget")) ;;
  fill (fun b => set_ac_block (Some b))
    (JsonBuffer_Get_Block sg JSON_TOKENER_DEFAULT_DEPTH (Some msg) (Some "Block")) ;;
  fill (fun b => set_ac_child (Some b))
    (JsonBuffer_Get_Block sg JSON_TOKENER_DEFAULT_DEPTH (Some msg) (Some "Child_Block")) ;;
  fill set_ac_SF_Flags (JsonBuffer_Get_uint32_t (Some msg) (Some "SF_Flags")) ;;
  fill set_ac_Ent_Flags (JsonBuffer_Get_uint32_t (Some msg) (Some "Ent_Flags")) ;;
  fill set_ac_Old_SF_Flags (JsonBuffer_Get_uint32_t (Some msg) (Some "Old_SF_Flags")) ;;
  fill set_ac_Old_Ent_Flags (JsonBuffer_Get_uint32_t (Some msg) (Some "Old_Ent_Flags")) ;;
  fill set_ac_eventCount (JsonBuffer_Get_uint64_t (Some msg) (Some "Event_Count")) ;;
  fill set_ac_parentCount (JsonBuffer_Get_uint64_t (Some msg) (Some "Parent_Count"))).

(** The only serializer that tests the body against NULL. *)
Definition AlertChild_Serialize : Call := on_message (
  m ← ask;
  lift (nonnull (m_message m)) ;;
  serialize_with (fun alert =>
    JsonBuffer_Put_Nugget (Some "Nugget") (ac_nugget alert) ;+
    put_pointer (JsonBuffer_Put_Block sg (Some "Block")) (ac_block alert) ;+
    put_pointer (JsonBuffer_Put_Block sg (Some "Child_Block")) (ac_child alert) ;+
    JsonBuffer_Put_uint32_t (Some "SF_Flags") (ac_SF_Flags alert) ;+
    JsonBuffer_Put_uint32_t (Some "Ent_Flags") (ac_Ent_Flags alert) ;+
    JsonBuffer_Put_uint32_t (Some "Old_SF_Flags") (ac_Old_SF_Flags alert) ;+
    JsonBuffer_Put_uint32_t (Some "Old_Ent_Flags") (ac_Old_Ent_Flags alert) ;+
    JsonBuffer_Put_uint64_t (Some "Event_Count") (ac_eventCount alert) ;+
    JsonBuffer_Put_uint64_t (Some "Parent_Count") (ac_parentCount alert))).

(** *** src/messages/output_event.c *)

Definition MessageOutputEvent_Initialize (event : option Event) (nugget : option Nugget) : M Message :=
  event ← nonnull event;
  nugget ← nonnull nugget;
  msg ← Message_Create MESSAGE_TYPE_OUTPUT_EVENT MESSAGE_VERSION_1 (Some (inj zero_OutputEvent));
  mret (with_codec (with_body msg (Some (inj (mkOutputEvent (Some nugget) (Some event))))) C_OutputEvent).

Definition OutputEvent_Destroy : option Message -> option (list part) :=
  destroy_with (fun msg => Some (freed "event" (oe_event msg) ++ freed "nugget" (oe_nugget msg))).

Definition OutputEvent_Deserialize : Call := on_message (
  new_body zero_OutputEvent ;;
  msg ← parse_serialized;
  fill (fun n => set_oe_nugget (Some n)) (JsonBuffer_Get_Nugget (Some msg) (Some "Nugget")) ;;
  fill (fun e => set_oe_event (Some e))
    (JsonBuffer_Get_Event sg JSON_TOKENER_DEFAULT_DEPTH (Some msg) (Some "Event"))).

Definition OutputEvent_Serialize : Call := on_message (serialize_with (fun event =>
  JsonBuffer_Put_Nugget (Some "Nugget") (oe_nugget event) ;+
  put_pointer (JsonBuffer_Put_Event sg (Some "Event")) (oe_event event))).

(** *** src/messages/output_inspection.c *)

(** The clone of the block id is stored without a test; [clock] is the time,
    [None] when [clock_gettime] fails. *)
Definition MessageOutputInspection_Initialize (clock : option (Z * Z)) (nugget : option Nugget)
    (blockId : option BlockId) (reason : Z) (final : bool) : M Message :=
  id ← nonnull blockId;
  nugget ← nonnull nugget;
  msg ← Message_Create MESSAGE_TYPE_OUTPUT_INSPECTION MESSAGE_VERSION_1 (Some (inj zero_OutputInspection));
  clone ← unchecked (BlockId_Clone (Some id));
  '(sec, nsec) ← nonnull clock;
  mret (with_codec (with_body msg (Some (inj
    (mkOutputInspection (Some nugget) (u64 sec) (u64 nsec) clone reason final)))) C_OutputInspection).

Definition OutputInspection_Destroy : option Message -> option (list part) :=
  destroy_with (fun msg => Some (freed "blockId" (oi_blockId msg) ++ freed "nugget" (oi_nugget msg))).

Definition OutputInspection_Deserialize : Call := on_message (
  new_body zero_OutputInspection ;;
  msg ← parse_serialized;
  fill (fun n => set_oi_nugget (Some n)) (JsonBuffer_Get_Nugget (Some msg) (Some "Nugget")) ;;
  fill (fun i => set_oi_blockId (Some i)) (JsonBuffer_Get_BlockId (Some msg) (Some "BlockId")) ;;
  fill set_oi_status (JsonBuffer_Get_uint8_t (Some msg) (Some "Status")) ;;
  fill set_oi_seconds (JsonBuffer_Get_uint64_t (Some msg) (Some "Seconds")) ;;
  fill set_oi_nanosecs (JsonBuffer_Get_uint64_t (Some msg) (Some "NanoSecs")) ;;
  fill (fun final => set_oi_final (final != 0)) (JsonBuffer_Get_uint8_t (Some msg) (Some "Final"))).

Definition OutputInspection_Serialize : Call := on_message (serialize_with (fun event =>
  JsonBuffer_Put_Nugget (Some "Nugget") (oi_nugget event) ;+
  JsonBuffer_Put_BlockId (Some "BlockId") (oi_blockId event) ;+
  JsonBuffer_Put_uint8_t (Some "Status") (oi_status event) ;+
  JsonBuffer_Put_uint64_t (Some "Seconds") (oi_seconds event) ;+
  JsonBuffer_Put_uint64_t (Some "NanoSecs") (oi_nanosecs event) ;+
  JsonBuffer_Put_uint8_t (Some "Final") (if oi_final event then 1 else 0))).
End Codecs.
