(* ===== verification/CncMessages.v ===== *)
(** * The command and control messages: src/messages/cnc

    The messages that register nuggets, distribute the configuration and control
    processing, the table of handlers that [Message_Init] fills and the dispatch
    through it. *)

From S2P Require Import Prelude CLib RzbList RzbListProps ListM Hash LibUuid Uuids Ntlv Blocks JsonC JsonBuffer JsonText Messages MessageCodecs.

Definition NUGGET_TYPE_DISPATCHER : string := "DISPATCHER".

Section Cnc.
Context `{EVP} `{LibUuid} `{JsonText}.
Variable sg : UuidLists.

(** *** Messages without a body *)

Definition empty_message (type : Z) (p_uuidSourceNugget p_uuidDestNugget : uuid_t) : M Message :=
  msg ← Message_Create_Directed type MESSAGE_VERSION_1 None p_uuidSourceNugget p_uuidDestNugget;
  mret (with_codec msg C_Empty).

Definition MessageRegistrationResponse_Initialize : uuid_t -> uuid_t -> M Message := empty_message MESSAGE_TYPE_REG_RESP.
Definition MessagePause_Initialize : uuid_t -> uuid_t -> M Message := empty_message MESSAGE_TYPE_PAUSE.
Definition MessagePaused_Initialize : uuid_t -> uuid_t -> M Message := empty_message MESSAGE_TYPE_PAUSED.
Definition MessageGo_Initialize : uuid_t -> uuid_t -> M Message := empty_message MESSAGE_TYPE_GO.
Definition MessageRunning_Initialize : uuid_t -> uuid_t -> M Message := empty_message MESSAGE_TYPE_RUNNING.
Definition MessageReReg_Initialize : uuid_t -> uuid_t -> M Message := empty_message MESSAGE_TYPE_REREG.

Definition MessageBye_Initialize (p_uuidSourceNugget : uuid_t) : M Message :=
  msg ← Message_Create_Broadcast MESSAGE_TYPE_BYE MESSAGE_VERSION_1 None p_uuidSourceNugget;
  mret (with_codec msg C_Empty).

Definition MessageCacheClear_Initialize (p_uuidSourceNugget : uuid_t) : M Message :=
  msg ← Message_Create_Broadcast MESSAGE_TYPE_CLEAR MESSAGE_VERSION_1 None p_uuidSourceNugget;
  mret (with_codec msg C_Empty).

(** *** src/messages/cnc/hello.c *)

Definition is_dispatcher (type : uuid_t) : M bool :=
  UUID_Is_Named_UUID sg (Some NUGGET_TYPE_DISPATCHER) UUID_TYPE_NUGGET_TYPE type.

Definition Hello_Deserialize : Call := on_message (
  new_body zero_Hello ;;
  msg ← parse_serialized;
  fill set_he_uuidNuggetType (JsonBuffer_Get_UUID (Some msg) (Some "Nugget_Type")) ;;
  fill set_he_uuidApplicationType (JsonBuffer_Get_UUID (Some msg) (Some "App_Type")) ;;
  fill set_he_locality (JsonBuffer_Get_uint8_t (Some msg) (Some "Locality")) ;;
  hello ← get_body;
  isDispatcher ← lift (is_dispatcher (he_uuidNuggetType hello));
  if (isDispatcher : bool) then
    fill set_he_priority (JsonBuffer_Get_uint8_t (Some msg) (Some "Priority")) ;;
    fill set_he_protocol (JsonBuffer_Get_uint8_t (Some msg) (Some "Protocol")) ;;
    fill set_he_port (JsonBuffer_Get_uint16_t (Some msg) (Some "Port")) ;;
    fill set_he_flags (JsonBuffer_Get_uint32_t (Some msg) (Some "Flags")) ;;
    fill (fun l => set_he_addressList (Some l)) (JsonBuffer_Get_StringList (Some msg) (Some "Address_List"))
  else mret ()).

Definition MessageHello_Initialize (pushes : allocs) (context : option RazorbackContext) : M Message :=
  ctx ← deref context;
  msg ← Message_Create_Broadcast MESSAGE_TYPE_HELLO MESSAGE_VERSION_1 (Some (inj zero_Hello)) (ctx_uuidNuggetId ctx);
  isDispatcher ← is_dispatcher (ctx_uuidNuggetType ctx);
  hello ← (if (isDispatcher : bool) then
             let d := ctx_dispatcher ctx in
             list ← list_clone pushes (d_addressList d);
             mret (mkHello (ctx_uuidNuggetType ctx) (ctx_uuidApplicationType ctx) (ctx_locality ctx)
                     (d_priority d) (d_flags d) (Some list) (d_protocol d) (d_port d))
           else
             mret (mkHello (ctx_uuidNuggetType ctx) (ctx_uuidApplicationType ctx) (ctx_locality ctx) 0 0 None 0 0));
  mret (with_codec (with_body msg (Some (inj hello))) C_Hello).

Definition Hello_Destroy : option Message -> option (list part) :=
  destroy_with (fun message => Some (freed "addressList" (he_addressList message))).

Definition Hello_Serialize : Call := on_message (serialize_with (fun hello =>
  JsonBuffer_Put_UUID (Some "Nugget_Type") (he_uuidNuggetType hello) ;+
  JsonBuffer_Put_UUID (Some "App_Type") (he_uuidApplicationType hello) ;+
  JsonBuffer_Put_uint8_t (Some "Locality") (he_locality hello) ;+
  put_with (is_dispatcher (he_uuidNuggetType hello)) (fun isDispatcher =>
    if (isDispatcher : bool) then
      JsonBuffer_Put_uint8_t (Some "Priority") (he_priority hello) ;+
      JsonBuffer_Put_uint8_t (Some "Protocol") (he_protocol hello) ;+
      JsonBuffer_Put_uint16_t (Some "Port") (he_port hello) ;+
      JsonBuffer_Put_uint32_t (Some "Flags") (he_flags hello) ;+
      JsonBuffer_Put_StringList (Some "Address_List") (he_addressList hello)
    else put_true))).

(** *** src/messages/cnc/reg_req.c *)

(** The first [n] UUIDs of an array; [None] past its end or after it was freed. *)
Definition read_uuids (p : heap_ptr (list uuid_t)) (n : Z) : option (list uuid_t) :=
  if n == 0 then Some []
  else match p with
       | PLive us => if n <=? Z.of_nat (length us) then Some (take (Z.to_nat n) us) else None
       | _ => None
       end.

Definition MessageRegistrationRequest_Initialize (dispatcherId p_uuidSourceNugget p_uuidNuggetType
    p_uuidApplicationType : uuid_t) (p_iDataTypeCount : Z) (p_pDataTypeList : heap_ptr (list uuid_t)) : M Message :=
  msg ← Message_Create_Directed MESSAGE_TYPE_REG_REQ MESSAGE_VERSION_1 (Some (inj zero_RegistrationRequest))
          p_uuidSourceNugget dispatcherId;
  (if 0 <? p_iDataTypeCount then alloc else mret ()) ;;
  us ← deref (read_uuids p_pDataTypeList p_iDataTypeCount);
  mret (with_codec (with_body msg (Some (inj (mkRegistrationRequest p_uuidNuggetType p_uuidApplicationType
    p_iDataTypeCount (if 0 <? p_iDataTypeCount then PLive us else PNull))))) C_RegistrationRequest).

Definition Message_CnC_RegReq_Setup (msg : Message) : Message := with_codec msg C_RegistrationRequest.

Definition RegistrationRequest_Destroy : option Message -> option (list part) :=
  destroy_with (fun message =>
    match rr_pDataTypeList message with
    | PNull => Some []
    | PLive _ => Some [P_field "pDataTypeList"]
    | PFreed => None
    end).

(** The loop over the entries of the array: [pDataTypeList], filled so far, is
    freed when an entry is not the text of a UUID. *)
Fixpoint read_data_types (object : jobj) (i n : nat) (us : list uuid_t) : MM unit :=
  match n with
  | O => store (set_rr_pDataTypeList (PLive us))
  | S n' =>
      match item ← json_object_array_get_idx object i; uuid_parse (json_object_get_string item) with
      | Some u => read_data_types object (S i) n' (us ++ [u])
      | None => store (set_rr_pDataTypeList PFreed) ;; lift fail
      end
  end.

(** [json_object_array_length] requires an array. *)
Definition RegistrationRequest_Deserialize : Call := on_message (
  new_body zero_RegistrationRequest ;;
  msg ← parse_serialized;
  fill set_rr_uuidNuggetType (JsonBuffer_Get_UUID (Some msg) (Some "Nugget_Type")) ;;
  fill set_rr_uuidApplicationType (JsonBuffer_Get_UUID (Some msg) (Some "App_Type")) ;;
  match json_object_object_get msg "Data_Types" with
  | None => store (set_rr_pDataTypeList PNull)
  | Some object =>
      n ← lift (deref (if has_type object json_type_array then Some (json_object_array_length object) else None));
      let count := u32 (Z.of_nat n) in
      store (set_rr_iDataTypeCount count) ;;
      lift alloc ;;
      read_data_types object 0 (Z.to_nat count) []
  end).

(** The loop that fills the array with the texts of the first [n] UUIDs; it reads
    past the end of an array that is too short. *)
Fixpoint data_types_array (n : nat) (us : list uuid_t) (array : jobj) : M jobj :=
  match n with
  | O => mret array
  | S n' =>
      u ← deref (head us);
      alloc ;;
      data_types_array n' (tail us) (json_object_array_add array (json_object_new_string (uuid_unparse u)))
  end.

(** The UUIDs at a pointer that is not dangling. *)
Definition live_uuids (p : heap_ptr (list uuid_t)) : list uuid_t := match p with PLive us => us | _ => [] end.

Definition RegistrationRequest_Serialize : Call := on_message (serialize_with (fun regReq =>
  JsonBuffer_Put_UUID (Some "Nugget_Type") (rr_uuidNuggetType regReq) ;+
  JsonBuffer_Put_UUID (Some "App_Type") (rr_uuidApplicationType regReq) ;+
  put_with (alloc ;;
            data_types_array (Z.to_nat (rr_iDataTypeCount regReq)) (live_uuids (rr_pDataTypeList regReq))
              json_object_new_array)
    (fun object => put_add "Data_Types" object))).

(** *** src/messages/cnc/config_update.c *)

Definition MessageConfigurationUpdate_Initialize (pushes : allocs * allocs * allocs)
    (p_uuidSourceNugget p_uuidDestNugget : uuid_t) : M Message :=
  let '(pushesT, pushesN, pushesD) := pushes in
  msg ← Message_Create_Directed MESSAGE_TYPE_CONFIG_UPDATE MESSAGE_VERSION_1 (Some (inj zero_ConfigurationUpdate))
          p_uuidSourceNugget p_uuidDestNugget;
  list ← nonnull (UUID_Get_List sg UUID_TYPE_NTLV_TYPE);
  ntlvTypes ← list_clone pushesT (Some list);
  list ← nonnull (UUID_Get_List sg UUID_TYPE_NTLV_NAME);
  ntlvNames ← list_clone pushesN (Some list);
  list ← nonnull (UUID_Get_List sg UUID_TYPE_DATA_TYPE);
  dataTypes ← list_clone pushesD (Some list);
  mret (with_codec (with_body msg (Some (inj
    (mkConfigurationUpdate (Some ntlvTypes) (Some ntlvNames) (Some dataTypes))))) C_ConfigUpdate).

(** The only destructor that does not test the body against NULL. *)
Definition ConfigUpdate_Destroy (msg : option Message) : option (list part) :=
  match msg with
  | None => Some []
  | Some m =>
      message ← body_of m;
      Some (freed "ntlvTypes" (cu_ntlvTypes message) ++ freed "ntlvNames" (cu_ntlvNames message) ++
            freed "dataTypes" (cu_dataTypes message) ++ Message_Destroy msg)
  end.

Definition ConfigUpdate_Deserialize : Call := on_message (
  new_body zero_ConfigurationUpdate ;;
  msg ← parse_serialized;
  fill (fun l => set_cu_ntlvTypes (Some l)) (JsonBuffer_Get_UUIDList (Some msg) (Some "NTLV_Types")) ;;
  fill (fun l => set_cu_ntlvNames (Some l)) (JsonBuffer_Get_UUIDList (Some msg) (Some "NTLV_Names")) ;;
  fill (fun l => set_cu_dataTypes (Some l)) (JsonBuffer_Get_UUIDList (Some msg) (Some "Data_Types"))).

Definition ConfigUpdate_Serialize : Call := on_message (serialize_with (fun configUpdate =>
  JsonBuffer_Put_UUIDList (Some "NTLV_Types") (cu_ntlvTypes configUpdate) ;+
  JsonBuffer_Put_UUIDList (Some "NTLV_Names") (cu_ntlvNames configUpdate) ;+
  JsonBuffer_Put_UUIDList (Some "Data_Types") (cu_dataTypes configUpdate))).

(** *** src/messages/cnc/config_ack.c *)

Definition MessageConfigurationAck_Initialize (p_uuidSourceNugget p_uuidDestNugget p_uuidNuggetType
    p_uuidApplicationType : uuid_t) : M Message :=
  msg ← Message_Create_Directed MESSAGE_TYPE_CONFIG_ACK MESSAGE_VERSION_1 (Some (inj zero_ConfigurationAck))
          p_uuidSourceNugget p_uuidDestNugget;
  mret (with_codec (with_body msg (Some (inj (mkConfigurationAck p_uuidNuggetType p_uuidApplicationType))))
    C_ConfigAck).

Definition ConfigAck_Deserialize : Call := on_message (
  new_body zero_ConfigurationAck ;;
  msg ← parse_serialized;
  fill set_ca_uuidNuggetType (JsonBuffer_Get_UUID (Some msg) (Some "Nugget_Type")) ;;
  fill set_ca_uuidApplicationType (JsonBuffer_Get_UUID (Some msg) (Some "App_Type"))).

Definition ConfigAck_Serialize : Call := on_message (serialize_with (fun configAck =>
  JsonBuffer_Put_UUID (Some "Nugget_Type") (ca_uuidNuggetType configAck) ;+
  JsonBuffer_Put_UUID (Some "App_Type") (ca_uuidApplicationType configAck))).

(** *** src/messages/cnc/error.c *)

Definition MessageError_Initialize (p_iCode : Z) (p_sMessage : option string)
    (p_uuidSourceNugget p_uuidDestNugget : uuid_t) : M Message :=
  s ← nonnull p_sMessage;
  msg ← Message_Create_Directed p_iCode MESSAGE_VERSION_1 (Some (inj zero_Error)) p_uuidSourceNugget p_uuidDestNugget;
  alloc ;;
  mret (with_codec (with_body msg (Some (inj (mkError (Some s))))) C_Error).

(** The message itself, its text and its headers are not released. *)
Definition Error_Destroy (msg : option Message) : option (list part) :=
  match msg with
  | None => Some []
  | Some m =>
      match m_message m with
      | None => Some []
      | Some x => message ← proj x; Some (freed "sMessage" (er_sMessage message) ++ [P_body])
      end
  end.

Definition Error_Deserialize : Call := on_message (
  new_body zero_Error ;;
  msg ← parse_serialized;
  fill (fun s => set_er_sMessage (Some s)) (JsonBuffer_Get_String (Some msg) (Some "Message"))).

(** [json_object_new_string] reads its argument. *)
Definition put_text (name : string) (text : option string) : Put :=
  match text with Some s => JsonBuffer_Put_String (Some name) s | None => put_crash end.

Definition Error_Serialize : Call := on_message (serialize_with (fun error =>
  put_text "Message" (er_sMessage error))).

(** *** src/messages/cnc/term.c *)

Definition MessageTerminate_Initialize (p_uuidSourceNugget p_uuidDestNugget : uuid_t)
    (p_sTerminateReason : option string) : M Message :=
  s ← nonnull p_sTerminateReason;
  msg ← Message_Create_Directed MESSAGE_TYPE_TERM MESSAGE_VERSION_1 (Some (inj zero_Terminate))
          p_uuidSourceNugget p_uuidDestNugget;
  alloc ;;
  mret (with_codec (with_body msg (Some (inj (mkTerminate (Some s))))) C_Terminate).

Definition Message_CnC_Term_Setup (msg : Message) : Message := with_codec msg C_Terminate.

Definition Terminate_Destroy : option Message -> option (list part) :=
  destroy_with (fun message => Some (freed "sTerminateReason" (te_sTerminateReason message))).

Definition Terminate_Deserialize : Call := on_message (
  new_body zero_Terminate ;;
  msg ← parse_serialized;
  fill (fun s => set_te_sTerminateReason (Some s)) (JsonBuffer_Get_String (Some msg) (Some "Reason"))).

Definition Terminate_Serialize : Call := on_message (serialize_with (fun term =>
  put_text "Reason" (te_sTerminateReason term))).

(** *** Registration of the handlers *)

(** [Message_Register_Handler] whose result is not looked at. *)
Definition register (type : Z) (c : Codec) (handlerList : option handler_list) : M (option handler_list) :=
  '(_, l) ← Message_Register_Handler handlerList (Some (mkHandler type c));
  mret l.

Definition MessageBlockSubmission_Init : option handler_list -> M (option handler_list) := register MESSAGE_TYPE_BLOCK C_BlockSubmission.
Definition MessageCacheReq_Init : option handler_list -> M (option handler_list) := register MESSAGE_TYPE_REQ C_CacheReq.
Definition MessageCacheResp_Init : option handler_list -> M (option handler_list) := register MESSAGE_TYPE_RESP C_CacheResp.
Definition MessageInspectionSubmission_Init : option handler_list -> M (option handler_list) := register MESSAGE_TYPE_INSPECTION C_InspectionSubmission.
Definition MessageJudgmentSubmission_Init : option handler_list -> M (option handler_list) := register MESSAGE_TYPE_JUDGMENT C_JudgmentSubmission.
Definition MessageAlertPrimary_Init : option handler_list -> M (option handler_list) := register MESSAGE_TYPE_ALERT_PRIMARY C_AlertPrimary.
Definition MessageAlertChild_Init : option handler_list -> M (option handler_list) := register MESSAGE_TYPE_ALERT_CHILD C_AlertChild.
Definition MessageOutputEvent_Init : option handler_list -> M (option handler_list) := register MESSAGE_TYPE_OUTPUT_EVENT C_OutputEvent.
Definition Message_CnC_Bye_Init : option handler_list -> M (option handler_list) := register MESSAGE_TYPE_BYE C_Empty.
Definition Message_CnC_CacheClear_Init : option handler_list -> M (option handler_list) := register MESSAGE_TYPE_CLEAR C_Empty.
Definition Message_CnC_ConfigAck_Init : option handler_list -> M (option handler_list) := register MESSAGE_TYPE_CONFIG_ACK C_ConfigAck.
Definition Message_CnC_ConfigUpdate_Init : option handler_list -> M (option handler_list) := register MESSAGE_TYPE_CONFIG_UPDATE C_ConfigUpdate.
Definition Message_CnC_Go_Init : option handler_list -> M (option handler_list) := register MESSAGE_TYPE_GO C_Empty.
Definition Message_CnC_Hello_Init : option handler_list -> M (option handler_list) := register MESSAGE_TYPE_HELLO C_Hello.
Definition Message_CnC_Pause_Init : option handler_list -> M (option handler_list) := register MESSAGE_TYPE_PAUSE C_Empty.
Definition Message_CnC_Paused_Init : option handler_list -> M (option handler_list) := register MESSAGE_TYPE_PAUSED C_Empty.
Definition Message_CnC_RegReq_Init : option handler_list -> M (option handler_list) := register MESSAGE_TYPE_REG_REQ C_RegistrationRequest.
Definition Message_CnC_RegResp_Init : option handler_list -> M (option handler_list) := register MESSAGE_TYPE_REG_RESP C_Empty.
Definition Message_CnC_Running_Init : option handler_list -> M (option handler_list) := register MESSAGE_TYPE_RUNNING C_Empty.
Definition Message_CnC_Term_Init : option handler_list -> M (option handler_list) := register MESSAGE_TYPE_TERM C_Terminate.
Definition Message_CnC_ReReg_Init : option handler_list -> M (option handler_list) := register MESSAGE_TYPE_REREG C_Empty.
Definition MessageOutputInspection_Init : option handler_list -> M (option handler_list) := register MESSAGE_TYPE_OUTPUT_INSPECTION C_OutputInspection.

Definition Message_CnC_Error_Init (l : option handler_list) : M (option handler_list) :=
  l ← register MESSAGE_TYPE_REG_ERR C_Error l;
  register MESSAGE_TYPE_CONFIG_ERR C_Error l.

(** The registrations of [Message_Init], in its order. *)
Definition Message_Init : M (option handler_list) :=
  l ← handlerList_Create;
  let l := Some l in
  l ← MessageBlockSubmission_Init l;
  l ← MessageCacheReq_Init l;
  l ← MessageCacheResp_Init l;
  l ← MessageInspectionSubmission_Init l;
  l ← MessageJudgmentSubmission_Init l;
  l ← MessageAlertPrimary_Init l;
  l ← MessageAlertChild_Init l;
  l ← MessageOutputEvent_Init l;
  l ← Message_CnC_Bye_Init l;
  l ← Message_CnC_CacheClear_Init l;
  l ← Message_CnC_ConfigAck_Init l;
  l ← Message_CnC_ConfigUpdate_Init l;
  l ← Message_CnC_Error_Init l;
  l ← Message_CnC_Go_Init l;
  l ← Message_CnC_Hello_Init l;
  l ← Message_CnC_Pause_Init l;
  l ← Message_CnC_Paused_Init l;
  l ← Message_CnC_RegReq_Init l;
  l ← Message_CnC_RegResp_Init l;
  l ← Message_CnC_Running_Init l;
  l ← Message_CnC_Term_Init l;
  l ← Message_CnC_ReReg_Init l;
  mret l.
End Cnc.

(** ** Dispatch through the function pointers *)

Section Dispatch.
Context `{EVP} `{LibUuid} `{JsonText} `{Base64} `{Inet}.
Variable sg : UuidLists.

Definition serialize (c : Codec) : Call :=
  match c with
  | C_BlockSubmission => BlockSubmission_Serialize sg
  | C_CacheReq => CacheReq_Serialize
  | C_CacheResp => CacheResp_Serialize
  | C_InspectionSubmission => InspectionSubmission_Serialize sg
  | C_JudgmentSubmission => JudgmentSubmission_Serialize sg
  | C_AlertPrimary => AlertPrimary_Serialize sg
  | C_AlertChild => AlertChild_Serialize sg
  | C_OutputEvent => OutputEvent_Serialize sg
  | C_OutputInspection => OutputInspection_Serialize
  | C_Error => Error_Serialize
  | C_Hello => Hello_Serialize sg
  | C_RegistrationRequest => RegistrationRequest_Serialize
  | C_ConfigUpdate => ConfigUpdate_Serialize
  | C_ConfigAck => ConfigAck_Serialize
  | C_Terminate => Terminate_Serialize
  | C_Empty => Message_Serialize_Empty
  end.

Definition deserialize (c : Codec) : Call :=
  match c with
  | C_BlockSubmission => BlockSubmission_Deserialize sg
  | C_CacheReq => CacheReq_Deserialize
  | C_CacheResp => CacheResp_Deserialize
  | C_InspectionSubmission => InspectionSubmission_Deserialize sg
  | C_JudgmentSubmission => JudgmentSubmission_Deserialize sg
  | C_AlertPrimary => AlertPrimary_Deserialize sg
  | C_AlertChild => AlertChild_Deserialize sg
  | C_OutputEvent => OutputEvent_Deserialize sg
  | C_OutputInspection => OutputInspection_Deserialize
  | C_Error => Error_Deserialize
  | C_Hello => Hello_Deserialize sg
  | C_RegistrationRequest => RegistrationRequest_Deserialize
  | C_ConfigUpdate => ConfigUpdate_Deserialize
  | C_ConfigAck => ConfigAck_Deserialize
  | C_Terminate => Terminate_Deserialize
  | C_Empty => Message_Deserialize_Empty
  end.

Definition destroy (c : Codec) (m : option Message) : option (list part) :=
  match c with
  | C_BlockSubmission => BlockSubmission_Destroy m
  | C_CacheReq => CacheReq_Destroy m
  | C_CacheResp => CacheResp_Destroy m
  | C_InspectionSubmission => InspectionSubmission_Destroy m
  | C_JudgmentSubmission => JudgmentSubmission_Destroy m
  | C_AlertPrimary => AlertPrimary_Destroy m
  | C_AlertChild => AlertChild_Destroy m
  | C_OutputEvent => OutputEvent_Destroy m
  | C_OutputInspection => OutputInspection_Destroy m
  | C_Error => Error_Destroy m
  | C_Hello => Hello_Destroy m
  | C_RegistrationRequest => RegistrationRequest_Destroy m
  | C_ConfigUpdate => ConfigUpdate_Destroy m
  | C_ConfigAck => Some (Message_Destroy m)
  | C_Terminate => Terminate_Destroy m
  | C_Empty => Some (Message_Destroy m)
  end.
End Dispatch.
