(* ===== verification/MessageProps.v ===== *)
(** * Lemmas about messages

    Runs of the steps serializers and deserializers are made of, the depth of the
    JSON of every structure, and what each body looks like after a round trip. *)

From S2P Require Import Prelude CLib RzbList RzbListProps ListM Hash LibUuid Uuids Ntlv Blocks JsonC JsonBuffer JsonCodec JsonNtlv JsonObjects JsonSafety JsonText Messages MessageCodecs CncMessages.

(** ** Runs *)

Section Runs.
Context `{EVP} `{LibUuid}.

Lemma MM_bind_ok {A B} (c : MM A) (f : A -> MM B) m o x m1 o1 :
  c m o = Some (Some x, m1, o1) -> (c ≫= f) m o = f x m1 o1.
Proof. intros E. unfold mbind, MM_bind. by rewrite E. Qed.

Lemma MM_bind_fail {A B} (c : MM A) (f : A -> MM B) m o m1 o1 :
  c m o = Some (None, m1, o1) -> (c ≫= f) m o = Some (None, m1, o1).
Proof. intros E. unfold mbind, MM_bind. by rewrite E. Qed.

Lemma lift_run {A} (c : M A) m o r o1 : c o = Some (r, o1) -> lift c m o = Some (r, m, o1).
Proof. intros E. unfold lift. by rewrite E. Qed.

Context {B : Type} `{!BodyType B}.

Lemma new_body_run (zero : B) m : new_body zero m [] = Some (Some (), with_body m (Some (inj zero)), []).
Proof. done. Qed.

Lemma get_body_run m o b : m_message m = Some (inj b) -> get_body (B := B) m o = Some (Some b, m, o).
Proof.
  intros E. unfold get_body. rewrite (MM_bind_ok ask _ m o m m o eq_refl). apply lift_run.
  unfold body_of. rewrite E. cbn [mbind option_bind]. by rewrite proj_inj.
Qed.

Lemma body_store_run (f : B -> B) m o b : m_message m = Some (inj b) ->
  store f m o = Some (Some (), with_body m (Some (inj (f b))), o).
Proof. intros E. unfold store. by rewrite (MM_bind_ok _ _ _ _ _ _ _ (get_body_run m o b E)). Qed.

Lemma fill_run {A} (set : A -> B -> B) (get : M A) m b x o o1 : m_message m = Some (inj b) ->
  get o = Some (Some x, o1) -> fill set get m o = Some (Some (), with_body m (Some (inj (set x b))), o1).
Proof.
  intros E Eg. unfold fill. rewrite (MM_bind_ok _ _ _ _ _ _ _ (lift_run get m o _ _ Eg)). by apply body_store_run.
Qed.

(** The next field of a deserializer: [fill] reads [x] and assigns it. *)
Lemma fill_bind {A C} (set : A -> B -> B) (get : M A) (k : unit -> MM C) m b x :
  m_message m = Some (inj b) -> get [] = Some (Some x, []) ->
  (fill set get ≫= k) m [] = k () (with_body m (Some (inj (set x b)))) [].
Proof. intros E Eg. by rewrite (MM_bind_ok _ _ _ _ _ _ _ (fill_run set get m b x [] [] E Eg)). Qed.

Lemma with_body_twice m x y : with_body (with_body m x) y = with_body m y.
Proof. done. Qed.

Lemma on_message_true (c : MM unit) m o m1 o1 : c m o = Some (Some (), m1, o1) ->
  on_message c (Some m) o = Some (true, Some m1, o1).
Proof. intros E. unfold on_message. by rewrite E. Qed.

Lemma on_message_false (c : MM unit) m o m1 o1 : c m o = Some (None, m1, o1) ->
  on_message c (Some m) o = Some (false, Some m1, o1).
Proof. intros E. unfold on_message. by rewrite E. Qed.
End Runs.

(** Run the next step of a function on a message. *)
Ltac mm E := rewrite (MM_bind_ok _ _ _ _ _ _ _ E).

Section Wire.
Context `{EVP} `{LibUuid} `{JsonTextLaws}.
Context {B : Type} `{!BodyType B}.

Lemma build_json_run (put : Put) fs : fills false put fs -> build_json put [] = Some (Some (build fs), []).
Proof.
  intros Hf. destruct (Hf [] [] (allowed_nil _)) as (b & p' & o' & E & _ & Hb & Hn).
  destruct (Hn eq_refl) as [-> ->]. unfold build_json. change json_object_new_object with (build []).
  rewrite E. by rewrite (Hb eq_refl).
Qed.

(** A serializer whose calls fill [fs] stores the text of that object. *)
Lemma serialize_with_run (put : B -> Put) b m fs : m_message m = Some (inj b) -> m_serialized m = None ->
  fills false (put b) fs -> let text := json_object_to_json_string (build fs) in
  serialize_with put m [] = Some (Some (), with_serialized m text (strlen text), []).
Proof.
  intros Eb Es Hf text. unfold serialize_with. mm (lift_run alloc m [] (Some ()) [] alloc_ok).
  mm (get_body_run m [] b Eb). mm (lift_run _ m [] _ _ (build_json_run _ _ Hf)).
  mm (lift_run (json_text (build fs)) m [] (Some (Some text)) [] eq_refl).
  unfold Message_SetSerializedJson. by rewrite Es.
Qed.

Lemma parse_run m fs : m_serialized m = Some (json_object_to_json_string (build fs)) ->
  (json_depth (build fs) < JSON_TOKENER_DEFAULT_DEPTH)%nat ->
  parse_serialized m [] = Some (Some (build fs), m, []).
Proof.
  intros Es Hd. unfold parse_serialized. rewrite (MM_bind_ok ask _ m [] m m [] eq_refl). apply lift_run.
  rewrite Es. unfold deref. rewrite M_ret_bind. rewrite (M_bind_ok _ _ _ _ _ alloc_ok).
  by rewrite (parse_text _ Hd).
Qed.

Lemma parse_deep_run m fs : m_serialized m = Some (json_object_to_json_string (build fs)) ->
  (JSON_TOKENER_DEFAULT_DEPTH <= json_depth (build fs))%nat ->
  parse_serialized m [] = Some (None, m, []).
Proof.
  intros Es Hd. unfold parse_serialized. rewrite (MM_bind_ok ask _ m [] m m [] eq_refl). apply lift_run.
  rewrite Es. unfold deref. rewrite M_ret_bind. rewrite (M_bind_ok _ _ _ _ _ alloc_ok).
  by rewrite (parse_text_deep _ Hd).
Qed.

(** The start of a deserializer: the body is allocated, the text parsed. *)
Lemma receive_run {C} (zero : B) (k : jobj -> MM C) m fs :
  m_serialized m = Some (json_object_to_json_string (build fs)) ->
  (json_depth (build fs) < JSON_TOKENER_DEFAULT_DEPTH)%nat ->
  (new_body zero ;; msg ← parse_serialized; k msg) m [] = k (build fs) (with_body m (Some (inj zero))) [].
Proof. intros Es Hd. mm (new_body_run zero m). by mm (parse_run (with_body m (Some (inj zero))) fs Es Hd). Qed.

Lemma receive_deep {C} (zero : B) (k : jobj -> MM C) m fs :
  m_serialized m = Some (json_object_to_json_string (build fs)) ->
  (JSON_TOKENER_DEFAULT_DEPTH <= json_depth (build fs))%nat ->
  (new_body zero ;; msg ← parse_serialized; k msg) m [] = Some (None, with_body m (Some (inj zero)), []).
Proof.
  intros Es Hd. mm (new_body_run zero m). apply MM_bind_fail.
  by apply (parse_deep_run (with_body m (Some (inj zero))) fs).
Qed.
End Wire.

(** ** The depth of the JSON of the structures *)

(** A proof about every field of a concrete list of fields. *)
Ltac fields_step := repeat (apply Forall_cons_2; [cbn [snd]|]); try apply Forall_nil_2.

Section Depths.
Context `{EVP} `{LibUuidLaws} `{JsonTextLaws} `{Base64Laws} `{InetLaws}.
Variable types : list UUIDListNode.

Lemma depth_opt_field {A} k (e : A -> jobj) (v : option A) n :
  (forall x, v = Some x -> (json_depth (e x) < n)%nat) ->
  Forall (fun f : string * jobj => (json_depth f.2 < n)%nat) (opt_field k (e <$> v)).
Proof. intros Hv. destruct v as [x|]; simpl; [|constructor]. constructor; [by apply Hv|constructor]. Qed.

Lemma depth_string t : json_depth (enc_string t) = 0%nat.
Proof. apply depth_new_string. Qed.
Lemma depth_uint n : json_depth (enc_uint n) = 0%nat.
Proof. apply depth_new_uint64. Qed.

Lemma depth_uuid u : (json_depth (enc_uuid u) <= 1)%nat.
Proof. apply depth_build. fields_step. simpl. rewrite depth_string. lia. Qed.

Lemma depth_hash h : (json_depth (enc_hash h) <= 1)%nat.
Proof. apply depth_build. fields_step; simpl; rewrite depth_string; lia. Qed.

Lemma depth_blockid b : (json_depth (enc_blockid b) <= 2)%nat.
Proof.
  apply depth_build. fields_step; simpl.
  - destruct (bi_pHash b) as [h|]; simpl; [pose proof (depth_hash h)|rewrite depth_new_object]; lia.
  - rewrite depth_uint. lia.
  - pose proof (depth_uuid (bi_uuidDataType b)). lia.
Qed.

Lemma depth_eventid e : (json_depth (enc_eventid e) <= 3)%nat.
Proof.
  apply depth_build. fields_step; simpl; [|rewrite depth_uint; lia..].
  enough (json_depth (build [("Id", enc_uuid (ei_uuidNuggetId e))]) <= 2)%nat by lia.
  apply depth_build. fields_step. simpl. pose proof (depth_uuid (ei_uuidNuggetId e)). lia.
Qed.

Lemma depth_eventid_low e : (2 <= json_depth (enc_eventid e))%nat.
Proof.
  assert (D1 : (json_depth (build [("Id", enc_uuid (ei_uuidNuggetId e))]) < json_depth (enc_eventid e))%nat)
    by by apply (depth_field _ "Nugget").
  assert (D2 : (json_depth (enc_uuid (ei_uuidNuggetId e)) < json_depth (build [("Id", enc_uuid (ei_uuidNuggetId e))]))%nat)
    by by apply (depth_field _ "Id").
  lia.
Qed.

Lemma depth_nugget n : (json_depth (enc_nugget n) <= 2)%nat.
Proof.
  apply depth_build. apply Forall_app. split.
  { fields_step; simpl; match goal with |- context [enc_uuid ?u] => pose proof (depth_uuid u) end; lia. }
  repeat (apply Forall_app; split); apply depth_opt_field; intros x _; rewrite depth_string; lia.
Qed.

Lemma depth_item x : kind types (nt_uuidType x) <> KJson -> (json_depth (enc_item types x) <= 2)%nat.
Proof.
  intros Hk. apply depth_build. unfold enc_value.
  repeat apply Forall_cons_2; simpl; [| | |constructor].
  - pose proof (depth_uuid (nt_uuidName x)). lia.
  - pose proof (depth_uuid (nt_uuidType x)). lia.
  - destruct (kind types (nt_uuidType x)); try done; simpl; rewrite depth_string; lia.
Qed.

(** Metadata without embedded JSON. *)
Definition flat_items (m : option (list NTLVItem)) : Prop :=
  forall xs, m = Some xs -> Forall (fun x => kind types (nt_uuidType x) <> KJson) xs.

Lemma depth_metadata xs : Forall (fun x => kind types (nt_uuidType x) <> KJson) xs ->
  (json_depth (enc_metadata types xs) <= 3)%nat.
Proof.
  intros Hx. apply depth_arr. apply Forall_map. eapply Forall_impl; [exact Hx|]. intros x Hk. simpl.
  pose proof (depth_item x Hk). lia.
Qed.

Lemma depth_block lv anc : Forall (fun lv => flat_items (lv_md lv)) (lv :: anc) ->
  (json_depth (enc_block types lv anc) <= 4 + length anc)%nat.
Proof.
  revert lv. induction anc as [|lv' anc IH]; intros lv Hm; apply Forall_cons in Hm as [Hm Hms];
    simpl; apply depth_build; unfold block_fields; repeat (apply Forall_app; split).
  1, 5: apply Forall_cons_2; [simpl; pose proof (depth_blockid (lv_id lv)); lia|constructor].
  1, 4: apply depth_opt_field; intros x _; pose proof (depth_blockid x); lia.
  1: constructor.
  2: { simpl. apply Forall_cons_2; [|constructor]. simpl. specialize (IH lv' Hms). lia. }
  all: apply depth_opt_field; intros xs Hx; pose proof (depth_metadata xs (Hm xs Hx)); lia.
Qed.

Lemma depth_block_low lv anc : (length anc < json_depth (enc_block types lv anc))%nat.
Proof.
  revert lv. induction anc as [|lv' anc IH]; intros lv; simpl.
  - assert (D3 : (json_depth (enc_blockid (lv_id lv)) < json_depth (build (block_fields types lv None)))%nat)
      by (eapply depth_field; apply block_fields_spec). lia.
  - assert (D3 : (json_depth (enc_block types lv' anc) <
      json_depth (build (block_fields types lv (Some (enc_block types lv' anc)))))%nat)
      by (eapply depth_field; apply block_fields_spec).
    specialize (IH lv'). lia.
Qed.

(** An event whose metadata and blocks have no embedded JSON and whose block has at
    most [n] ancestors. *)
Definition flat_event (n : nat) (el : elevel) : Prop :=
  flat_items (el_md el) /\
  forall lv anc, el_block el = Some (lv, anc) ->
    Forall (fun lv => flat_items (lv_md lv)) (lv :: anc) /\ (length anc <= n)%nat.

Lemma depth_event n el anc : Forall (flat_event n) (el :: anc) ->
  (json_depth (enc_event types el anc) <= 5 + n + length anc)%nat.
Proof.
  revert el. induction anc as [|el' anc IH]; intros el Hf; apply Forall_cons in Hf as [[Hm Hb] Hfs];
    simpl; apply depth_build; unfold event_fields; repeat (apply Forall_app; split).
  1, 6: apply Forall_cons_2; [simpl; pose proof (depth_eventid (el_id el)); lia|constructor].
  1, 5: apply depth_opt_field; intros x _; pose proof (depth_eventid x); lia.
  1: constructor.
  3: { simpl. apply Forall_cons_2; [|constructor]. simpl. specialize (IH el' Hfs). lia. }
  1, 3: apply depth_opt_field; intros xs Hx; pose proof (depth_metadata xs (Hm xs Hx)); lia.
  all: apply depth_opt_field; intros [lv banc] E; destruct (Hb lv banc E) as [Hl Hn]; simpl;
    pose proof (depth_block lv banc Hl); lia.
Qed.

Lemma enc_event_eq el anc : enc_event types el anc = build (event_fields types el
  match anc with [] => None | el' :: anc' => Some (enc_event types el' anc') end).
Proof. by destruct anc. Qed.

Lemma depth_event_low el anc : (3 + length anc <= json_depth (enc_event types el anc))%nat.
Proof.
  revert el. induction anc as [|el' anc IH]; intros el; rewrite enc_event_eq.
  - assert (D : (json_depth (enc_eventid (el_id el)) < json_depth (build (event_fields types el None)))%nat)
      by (eapply depth_field; apply event_fields_spec).
    pose proof (depth_eventid_low (el_id el)). simpl. lia.
  - assert (D : (json_depth (enc_event types el' anc) <
      json_depth (build (event_fields types el (Some (enc_event types el' anc)))))%nat)
      by (eapply depth_field; apply event_fields_spec).
    specialize (IH el'). simpl. lia.
Qed.

(** A parsed event can be read with the fuel the depth of the parser allows. *)
Lemma event_fits_depth fuel el anc : (json_depth (enc_event types el anc) <= fuel)%nat -> event_fits fuel el anc.
Proof.
  revert el anc. induction fuel as [|fuel IH]; intros el anc Hd; pose proof (depth_event_low el anc); [lia|].
  rewrite enc_event_eq in Hd. split.
  - intros lv banc E. pose proof (depth_block_low lv banc).
    assert (D : field (event_fields types el match anc with [] => None | el' :: anc' => Some (enc_event types el' anc') end)
      "Block" = Some (enc_block types lv banc))
      by (rewrite (proj2 (proj2 (proj2 (proj2 (event_fields_spec types el _))))), E; done).
    apply depth_field in D. lia.
  - destruct anc as [|el' anc']; [done|]. apply IH.
    assert (D : (json_depth (enc_event types el' anc') <
      json_depth (build (event_fields types el (Some (enc_event types el' anc')))))%nat)
      by (eapply depth_field; apply event_fields_spec). lia.
Qed.
End Depths.

(** ** The fields of the messages *)

Ltac field_step :=
  lazymatch goal with
  | |- fills _ (put_pointer _ (Some _)) _ => unfold put_pointer; field_step
  | |- fills _ (JsonBuffer_Put_uint16_t _ _) _ => apply encodes_fills, Put_uint_encodes
  | |- fills _ (JsonBuffer_Put_EventId _ _) _ => apply encodes_fills, Put_EventId_encodes
  | |- fills _ (JsonBuffer_Put_Nugget _ _) _ => apply encodes_fills, Put_Nugget_encodes
  | |- fills _ (JsonBuffer_Put_BlockId _ _) _ => apply encodes_fills, Put_BlockId_encodes; done
  | |- fills _ (JsonBuffer_Put_Event _ _ _) _ => apply encodes_fills; eapply Put_Event_encodes; eassumption
  | |- fills _ (JsonBuffer_Put_Block _ _ _) _ => apply encodes_fills; eapply Put_Block_encodes; eassumption
  | |- fills _ (JsonBuffer_Put_NTLVList _ _ _) _ => apply encodes_fills; eapply Put_NTLVList_encodes; eassumption
  | |- fills _ (JsonBuffer_Put_Judgment _ _ _) _ => apply encodes_fills; eapply Put_Judgment_encodes; eassumption
  | _ => fills_step
  end.

(** Every field of a serializer that always writes the same fields. *)
Ltac next_field :=
  lazymatch goal with |- fills _ (put_seq _ _) _ => apply (fills_seq _ _ _ [_]); [field_step|] end.
Ltac message_fields := repeat next_field; field_step.

(** Reduce the fields of a concrete body. *)
Ltac body_fields := cbv beta; cbn
  [bs_iReason bs_pEvent bs_storedLocality cq_uuidRequestor cq_pId cr_pId cr_iSfFlags cr_iEntFlags js_iReason
   js_pJudgment is_iReason is_pBlock is_eventId is_pEventMetadata is_localityCount is_localityList ap_nugget
   ap_block ap_event ap_gid ap_sid ap_metadata ap_priority ap_message ap_seconds ap_nanosecs ap_SF_Flags
   ap_Ent_Flags ap_Old_SF_Flags ap_Old_Ent_Flags ac_nugget ac_block ac_child ac_eventCount ac_parentCount
   ac_SF_Flags ac_Ent_Flags ac_Old_SF_Flags ac_Old_Ent_Flags oe_nugget oe_event oi_nugget oi_seconds
   oi_nanosecs oi_blockId oi_status oi_final er_sMessage he_uuidNuggetType he_uuidApplicationType
   he_locality he_priority he_flags he_addressList he_protocol he_port rr_uuidNuggetType
   rr_uuidApplicationType rr_iDataTypeCount rr_pDataTypeList cu_ntlvTypes cu_ntlvNames cu_dataTypes
   ca_uuidNuggetType ca_uuidApplicationType te_sTerminateReason].

(** A serializer that writes the fields [fs] of a body without a text. *)
Ltac sends fs Hm Hs := apply on_message_true; apply (serialize_with_run _ _ _ fs Hm Hs); body_fields.

(** Read the next field of the body. *)
Ltac get E := erewrite fill_bind; [|reflexivity|exact E]; rewrite ?with_body_twice.

(** Read the last field of the body. *)
Ltac get_last E := etransitivity; [eapply fill_run; [reflexivity|exact E]|reflexivity].
