(* ===== verification/MessageThms.v ===== *)
(** * Theorems about messages

    Round trips of the messages over the wire, what the receiver refuses, safety of
    deserialization on arbitrary texts, what the destructors release, the headers and
    the table of handlers. *)

From S2P Require Import Prelude CLib RzbList RzbListProps ListM Hash LibUuid Uuids Ntlv Blocks JsonC JsonBuffer JsonCodec JsonNtlv JsonObjects JsonSafety JsonProps JsonText Messages MessageCodecs CncMessages MessageProps.

Section DataMessages.
Context `{EVP} `{LibUuidLaws} `{JsonTextLaws} `{Base64Laws} `{InetLaws}.
Variable sg : UuidLists.
Variable types : list UUIDListNode.
Hypothesis types_entries : entries (UUID_Get_List sg UUID_TYPE_NTLV_TYPE) types.
Hypothesis types_distinct : distinct_types types.

(** The wire format of a block submission and what a receiver makes of it. *)
Lemma BlockSubmission_wire m r loc e app el anc :
  event_rep e app el anc -> Forall (elevel_ok types) (el :: anc) -> in_width 32 r -> in_width 8 loc ->
  m_message m = Some (inj (mkBlockSubmission r (Some e) loc)) -> m_serialized m = None ->
  exists text, BlockSubmission_Serialize sg (Some m) [] = Some (true, Some (with_serialized m text (strlen text)), []) /\
    (forall m', m_serialized m' = Some text ->
     if decide (S (json_depth (enc_event types el anc)) < JSON_TOKENER_DEFAULT_DEPTH)%nat then
       exists e', BlockSubmission_Deserialize sg (Some m') [] =
           Some (true, Some (with_body m' (Some (inj (mkBlockSubmission r (Some e') loc)))), []) /\
         event_rep e' uuid_null (elevel_back types el) (map (elevel_back types) anc)
     else BlockSubmission_Deserialize sg (Some m') [] =
       Some (false, Some (with_body m' (Some (inj zero_BlockSubmission))), [])).
Proof.
  intros He Hok Hr Hl Hm Hs.
  set (fs := [("Reason", enc_uint r); ("Event", enc_event types el anc); ("Stored_Locality", enc_uint loc)]).
  exists (json_object_to_json_string (build fs)). split; [sends fs Hm Hs; message_fields|].
  intros m' Hs'. assert (Hd : json_depth (build fs) = S (json_depth (enc_event types el anc))).
  { apply Nat.le_antisymm; [|by apply (depth_field fs "Event")].
    apply depth_build. fields_step; rewrite ?depth_uint; lia. }
  rewrite <- Hd. destruct (decide _) as [Hlt|Hge].
  - destruct (Get_Event_reads sg types types_entries types_distinct JSON_TOKENER_DEFAULT_DEPTH fs "Event" el anc
      eq_refl Hok) as (e' & E & He'); [apply (event_fits_depth types); lia|].
    exists e'. split; [|done]. apply on_message_true. rewrite (receive_run _ _ _ fs Hs' Hlt).
    get (Get_uint32_reads fs "Reason" r eq_refl Hr). get E.
    get_last (Get_uint8_reads fs "Stored_Locality" loc eq_refl Hl).
  - apply on_message_false. apply (receive_deep _ _ _ fs Hs'). lia.
Qed.

(** C2. A block submission over the wire: the message is serialized to a text; a
    message that carries that text is deserialized to the same reason and locality
    and an event with the same ids, parents, metadata and blocks, provided the JSON
    of the event is nested less than 31 deep; otherwise the parser of the receiver
    refuses it. *)
Theorem BlockSubmission_roundtrip m r loc e app el anc :
  event_rep e app el anc -> Forall (elevel_ok types) (el :: anc) -> in_width 32 r -> in_width 8 loc ->
  m_message m = Some (inj (mkBlockSubmission r (Some e) loc)) -> m_serialized m = None ->
  (json_depth (enc_event types el anc) < 31)%nat ->
  exists text, BlockSubmission_Serialize sg (Some m) [] = Some (true, Some (with_serialized m text (strlen text)), []) /\
    (forall m', m_serialized m' = Some text ->
     exists e', BlockSubmission_Deserialize sg (Some m') [] =
         Some (true, Some (with_body m' (Some (inj (mkBlockSubmission r (Some e') loc)))), []) /\
       event_rep e' uuid_null (elevel_back types el) (map (elevel_back types) anc)).
Proof.
  intros He Hok Hr Hl Hm Hs Hd. destruct (BlockSubmission_wire m r loc e app el anc He Hok Hr Hl Hm Hs) as (t & E & Ht).
  exists t. split; [done|]. intros m' Hs'. specialize (Ht m' Hs'). rewrite decide_True in Ht; [done|].
  unfold JSON_TOKENER_DEFAULT_DEPTH. lia.
Qed.


Lemma localities_reads fs n locs : field fs n = Some (arr (map json_object_new_int locs)) ->
  Forall (in_width 8) locs -> in_width 32 (Z.of_nat (length locs)) ->
  JsonBuffer_Get_uint8List (Some (build fs)) (Some n) [] = Some (Some locs, []).
Proof.
  intros E Hlo Hl. rewrite (Get_uint8List_reads fs n locs E); [|eapply Forall_impl; [exact Hlo|]|done].
  - replace (map u8 locs) with locs; [done|]. clear E Hl. induction Hlo as [|x xs Hx _ IH]; simpl; [done|].
    rewrite <- IH. unfold u8. by rewrite wrap_small.
  - intros x [? ?]. simpl in *. lia.
Qed.

Lemma set_localities_eq b locs : in_width 32 (Z.of_nat (length locs)) ->
  set_localities locs b = mkInspectionSubmission (is_iReason b) (is_pBlock b) (is_eventId b) (is_pEventMetadata b)
    (Z.of_nat (length locs)) (match locs with [] => None | _ => Some locs end).
Proof. intros Hl. unfold set_localities, u32. by rewrite wrap_small. Qed.

(** An inspection over the wire: the reason, the event id, the metadata of the
    event, the block with its chain of parents and the localities come back. *)
Theorem InspectionSubmission_roundtrip m r eid md xs b lv anc locs :
  block_rep b lv anc -> Forall (level_ok types) (lv :: anc) -> in_width 32 r -> eventid_ok eid ->
  metadata md xs -> Forall (item_valid types) xs ->
  Forall (in_width 8) locs -> in_width 32 (Z.of_nat (length locs)) ->
  m_message m = Some (inj (mkInspectionSubmission r (Some b) (Some eid) md (Z.of_nat (length locs))
    (match locs with [] => None | _ => Some locs end))) -> m_serialized m = None ->
  (json_depth (enc_block types lv anc) < 31)%nat -> (json_depth (enc_metadata types xs) < 31)%nat ->
  exists text, InspectionSubmission_Serialize sg (Some m) [] =
      Some (true, Some (with_serialized m text (strlen text)), []) /\
    (forall m', m_serialized m' = Some text ->
     exists b' l, InspectionSubmission_Deserialize sg (Some m') [] =
         Some (true, Some (with_body m' (Some (inj (mkInspectionSubmission r (Some b') (Some eid) (Some l)
           (Z.of_nat (length locs)) (match locs with [] => None | _ => Some locs end))))), []) /\
       block_rep b' (level_back types lv) (map (level_back types) anc) /\
       metadata (Some l) (map (item_back types) xs)).
Proof.
  intros Hb Hok Hr He Hmd Hx Hlo Hll Hm Hs Hd1 Hd2.
  set (fs := [("Reason", enc_uint r); ("Event_ID", enc_eventid eid); ("Event_Metadata", enc_metadata types xs);
    ("Block", enc_block types lv anc); ("Avaliable_Localities", arr (map json_object_new_int locs))]).
  exists (json_object_to_json_string (build fs)). split.
  - sends fs Hm Hs. repeat next_field. unfold put_localities.
    replace (default [] match locs with [] => None | _ => Some locs end) with locs by by destruct locs.
    rewrite Z.leb_refl, Nat2Z.id, take_ge by done. apply encodes_fills, Put_uint8List_encodes.
  - intros m' Hs'.
    destruct (Get_Block_reads sg types types_entries types_distinct JSON_TOKENER_DEFAULT_DEPTH fs "Block" lv anc
      eq_refl Hok) as (b' & Eb & Hb'); [pose proof (depth_block_low types lv anc); unfold JSON_TOKENER_DEFAULT_DEPTH; lia|].
    destruct (Get_NTLVList_reads sg types types_entries types_distinct fs "Event_Metadata" xs eq_refl Hx) as (l & El & Hl).
    exists b', l. split_and!; [|done..]. apply on_message_true. rewrite (receive_run _ _ _ fs Hs').
    + get (Get_uint32_reads fs "Reason" r eq_refl Hr). get (Get_EventId_reads fs "Event_ID" eid eq_refl He).
      get El. get Eb.
      etransitivity; [eapply fill_run; [reflexivity|exact (localities_reads fs "Avaliable_Localities" locs eq_refl Hlo Hll)]|].
      by rewrite set_localities_eq.
    + unfold JSON_TOKENER_DEFAULT_DEPTH. apply Nat.lt_succ_r. apply depth_build. fields_step;
        rewrite ?depth_uint; try lia; [pose proof (depth_eventid eid); lia|].
      assert (json_depth (arr (map json_object_new_int locs)) <= 1)%nat; [|lia].
      apply depth_arr, Forall_map, Forall_true. intros x. rewrite depth_new_int. lia.
Qed.

(** A judgment over the wire: the reason and every field of the judgment come
    back. *)
Theorem JudgmentSubmission_roundtrip m r j e b xs : judgment_ok types j e b xs -> in_width 8 r ->
  m_message m = Some (inj (mkJudgmentSubmission r (Some j))) -> m_serialized m = None ->
  (json_depth (enc_judgment types j e b xs) < 31)%nat ->
  exists text, JudgmentSubmission_Serialize sg (Some m) [] =
      Some (true, Some (with_serialized m text (strlen text)), []) /\
    (forall m', m_serialized m' = Some text ->
     exists l, metadata (Some l) (map (item_back types) xs) /\ same_block b (id_clone b) /\
       JudgmentSubmission_Deserialize sg (Some m') [] =
       Some (true, Some (with_body m' (Some (inj (mkJudgmentSubmission r (Some
         (mkJudgment (j_uuidNuggetId j) (j_iSeconds j) (j_iNanoSecs j) (Some e) (Some (id_clone b))
            (j_iPriority j) (Some l) (j_iGID j) (j_iSID j) (j_Set_SfFlags j) (j_Set_EntFlags j)
            (j_Unset_SfFlags j) (j_Unset_EntFlags j) (j_sMessage j))))))), [])).
Proof.
  intros Hj Hr Hm Hs Hd. set (fs := [("Reason", enc_uint r); ("Judgment", enc_judgment types j e b xs)]).
  exists (json_object_to_json_string (build fs)). split; [sends fs Hm Hs; message_fields|]. intros m' Hs'.
  destruct (Get_Judgment_reads sg types types_entries types_distinct fs "Judgment" j e b xs eq_refl Hj) as (l & Hl & E).
  destruct (BlockId_Clone_ok b (proj2 (jok_block _ _ _ _ _ Hj))) as (_ & _ & Hsb).
  exists l. split_and!; [done..|]. apply on_message_true. rewrite (receive_run _ _ _ fs Hs').
  - get (Get_uint8_reads fs "Reason" r eq_refl Hr). get_last E.
  - unfold JSON_TOKENER_DEFAULT_DEPTH. apply Nat.lt_succ_r. apply depth_build. fields_step; rewrite ?depth_uint; lia.
Qed.

(** What a nugget is after a round trip: its notes are not serialized. *)
Definition nugget_back (n : Nugget) : Nugget :=
  mkNugget (n_uuidNuggetId n) (n_uuidApplicationType n) (n_uuidNuggetType n) (n_sName n) (n_sLocation n)
    (n_sContact n) None.

Definition nugget_ok (n : Nugget) : Prop := text_ok (n_sName n) /\ text_ok (n_sLocation n) /\ text_ok (n_sContact n).

Lemma nugget_reads fs k n : field fs k = Some (enc_nugget n) -> nugget_ok n ->
  JsonBuffer_Get_Nugget (Some (build fs)) (Some k) [] = Some (Some (nugget_back n), []).
Proof. intros E (? & ? & ?). by apply Get_Nugget_reads. Qed.

Lemma block_reads_depth fs k lv anc : field fs k = Some (enc_block types lv anc) -> Forall (level_ok types) (lv :: anc) ->
  (json_depth (enc_block types lv anc) < 31)%nat ->
  exists b, JsonBuffer_Get_Block sg JSON_TOKENER_DEFAULT_DEPTH (Some (build fs)) (Some k) [] = Some (Some b, []) /\
    block_rep b (level_back types lv) (map (level_back types) anc).
Proof.
  intros E Hok Hd. apply (Get_Block_reads sg types types_entries types_distinct); [done..|].
  pose proof (depth_block_low types lv anc). unfold JSON_TOKENER_DEFAULT_DEPTH. lia.
Qed.

Lemma event_reads_depth fs k el anc : field fs k = Some (enc_event types el anc) -> Forall (elevel_ok types) (el :: anc) ->
  (json_depth (enc_event types el anc) < 31)%nat ->
  exists e, JsonBuffer_Get_Event sg JSON_TOKENER_DEFAULT_DEPTH (Some (build fs)) (Some k) [] = Some (Some e, []) /\
    event_rep e uuid_null (elevel_back types el) (map (elevel_back types) anc).
Proof.
  intros E Hok Hd. apply (Get_Event_reads sg types types_entries types_distinct); [done..|].
  apply (event_fits_depth types). unfold JSON_TOKENER_DEFAULT_DEPTH. lia.
Qed.

(** A string that is stored without a test is NULL when the field is absent. *)
Lemma unchecked_String_reads fs k t : field fs k = enc_string <$> t -> text_ok t ->
  unchecked (JsonBuffer_Get_String (Some (build fs)) (Some k)) [] = Some (Some t, []).
Proof.
  intros E Ht. unfold unchecked. destruct t as [t|]; simpl in E.
  - by rewrite (Get_String_reads fs k t E (Ht t eq_refl)).
  - assert (Eg : JsonBuffer_Get_String (Some (build fs)) (Some k) [] = Some (None, [])); [|by rewrite Eg].
    unfold JsonBuffer_Get_String, get_field, nonnull. rewrite !M_ret_bind, object_get_build, E. done.
Qed.

(** A primary alert over the wire: the nugget (without its notes), the block, the
    event, the optional message, the times, the ids, the flags and the metadata come
    back. *)
Theorem AlertPrimary_roundtrip m n b lv banc e app el eanc md xs gid sid pr msg sec nsec sf ent osf oent :
  nugget_ok n -> block_rep b lv banc -> Forall (level_ok types) (lv :: banc) ->
  event_rep e app el eanc -> Forall (elevel_ok types) (el :: eanc) -> metadata md xs -> Forall (item_valid types) xs ->
  Forall (in_width 32) [gid; sid; sf; ent; osf; oent] -> Forall (in_width 64) [sec; nsec] -> in_width 8 pr ->
  text_ok msg ->
  m_message m = Some (inj (mkAlertPrimary (Some n) (Some b) (Some e) gid sid md pr msg sec nsec sf ent osf oent)) ->
  m_serialized m = None ->
  Forall (fun d => (d < 31)%nat) [json_depth (enc_block types lv banc); json_depth (enc_event types el eanc);
    json_depth (enc_metadata types xs)] ->
  exists text, AlertPrimary_Serialize sg (Some m) [] = Some (true, Some (with_serialized m text (strlen text)), []) /\
    (forall m', m_serialized m' = Some text ->
     exists b' e' l, AlertPrimary_Deserialize sg (Some m') [] =
         Some (true, Some (with_body m' (Some (inj (mkAlertPrimary (Some (nugget_back n)) (Some b') (Some e') gid sid
           (Some l) pr msg sec nsec sf ent osf oent)))), []) /\
       block_rep b' (level_back types lv) (map (level_back types) banc) /\
       event_rep e' uuid_null (elevel_back types el) (map (elevel_back types) eanc) /\
       metadata (Some l) (map (item_back types) xs)).
Proof.
  intros Hn Hb Hbo He Heo Hmd Hx H32 H64 Hp Ht Hm Hs Hd.
  set (fs1 := [("Nugget", enc_nugget n); ("Block", enc_block types lv banc); ("Event", enc_event types el eanc)]).
  set (fs2 := [("Priority", enc_uint pr); ("Seconds", enc_uint sec); ("Nano_Seconds", enc_uint nsec);
    ("GID", enc_uint gid); ("SID", enc_uint sid); ("SF_Flags", enc_uint sf); ("Ent_Flags", enc_uint ent);
    ("Old_SF_Flags", enc_uint osf); ("Old_Ent_Flags", enc_uint oent); ("Metadata", enc_metadata types xs)]).
  set (fs := fs1 ++ opt_field "Message" (enc_string <$> msg) ++ fs2).
  exists (json_object_to_json_string (build fs)). split.
  - sends fs Hm Hs. do 3 next_field.
    apply (fills_seq _ _ _ (opt_field "Message" (enc_string <$> msg)) fs2); [by apply fills_opt; intros; apply Put_String_encodes|].
    subst fs2. message_fields.
  - intros m' Hs'. repeat match goal with H : Forall _ (_ :: _) |- _ => apply Forall_cons in H as [? H] end.
    assert (Hd' : (json_depth (build fs) < JSON_TOKENER_DEFAULT_DEPTH)%nat).
    { unfold JSON_TOKENER_DEFAULT_DEPTH. apply Nat.lt_succ_r. apply depth_build. subst fs fs1 fs2.
      repeat (apply Forall_app; split); [| |]; [| apply depth_opt_field; intros t _; rewrite depth_string; lia |];
      fields_step; rewrite ?depth_uint; try lia. pose proof (depth_nugget n). lia. }
    assert (Eb : field fs "Block" = Some (enc_block types lv banc)) by by destruct msg.
    assert (Ee : field fs "Event" = Some (enc_event types el eanc)) by by destruct msg.
    assert (El : field fs "Metadata" = Some (enc_metadata types xs)) by by destruct msg.
    assert (Et : field fs "Message" = enc_string <$> msg) by by destruct msg.
    destruct (block_reads_depth fs "Block" lv banc Eb) as (b' & Eb' & Hb'); [by constructor|done|].
    destruct (event_reads_depth fs "Event" el eanc Ee) as (e' & Ee' & He'); [by constructor|done|].
    destruct (Get_NTLVList_reads sg types types_entries types_distinct fs "Metadata" xs El Hx) as (l & El' & Hl).
    exists b', e', l. split_and!; [|done..]. apply on_message_true. rewrite (receive_run _ _ _ fs Hs' Hd').
    get (nugget_reads fs "Nugget" n ltac:(by destruct msg) Hn). get Eb'. get Ee'.
    get (unchecked_String_reads fs "Message" msg Et Ht).
    get (Get_uint8_reads fs "Priority" pr ltac:(by destruct msg) ltac:(done)).
    get (Get_uint64_reads fs "Seconds" sec ltac:(by destruct msg) ltac:(done)).
    get (Get_uint64_reads fs "Nano_Seconds" nsec ltac:(by destruct msg) ltac:(done)).
    get (Get_uint32_reads fs "GID" gid ltac:(by destruct msg) ltac:(done)).
    get (Get_uint32_reads fs "SID" sid ltac:(by destruct msg) ltac:(done)).
    get (Get_uint32_reads fs "SF_Flags" sf ltac:(by destruct msg) ltac:(done)).
    get (Get_uint32_reads fs "Ent_Flags" ent ltac:(by destruct msg) ltac:(done)).
    get (Get_uint32_reads fs "Old_SF_Flags" osf ltac:(by destruct msg) ltac:(done)).
    get (Get_uint32_reads fs "Old_Ent_Flags" oent ltac:(by destruct msg) ltac:(done)).
    get_last El'.
Qed.

(** A child alert over the wire: the nugget, both blocks, the counts and the flags
    come back. *)
Theorem AlertChild_roundtrip m n b lv anc c clv canc ec pc sf ent osf oent :
  nugget_ok n -> block_rep b lv anc -> Forall (level_ok types) (lv :: anc) ->
  block_rep c clv canc -> Forall (level_ok types) (clv :: canc) ->
  Forall (in_width 32) [sf; ent; osf; oent] -> Forall (in_width 64) [ec; pc] ->
  m_message m = Some (inj (mkAlertChild (Some n) (Some b) (Some c) ec pc sf ent osf oent)) -> m_serialized m = None ->
  (json_depth (enc_block types lv anc) < 31)%nat -> (json_depth (enc_block types clv canc) < 31)%nat ->
  exists text, AlertChild_Serialize sg (Some m) [] = Some (true, Some (with_serialized m text (strlen text)), []) /\
    (forall m', m_serialized m' = Some text ->
     exists b' c', AlertChild_Deserialize sg (Some m') [] =
         Some (true, Some (with_body m' (Some (inj (mkAlertChild (Some (nugget_back n)) (Some b') (Some c') ec pc
           sf ent osf oent)))), []) /\
       block_rep b' (level_back types lv) (map (level_back types) anc) /\
       block_rep c' (level_back types clv) (map (level_back types) canc)).
Proof.
  intros Hn Hb Hbo Hc Hco H32 H64 Hm Hs Hd1 Hd2.
  set (fs := [("Nugget", enc_nugget n); ("Block", enc_block types lv anc); ("Child_Block", enc_block types clv canc);
    ("SF_Flags", enc_uint sf); ("Ent_Flags", enc_uint ent); ("Old_SF_Flags", enc_uint osf);
    ("Old_Ent_Flags", enc_uint oent); ("Event_Count", enc_uint ec); ("Parent_Count", enc_uint pc)]).
  exists (json_object_to_json_string (build fs)). split.
  - apply on_message_true. mm (eq_refl : ask m [] = Some (Some m, m, [])).
    mm (lift_run (nonnull (m_message m)) m [] _ _ ltac:(by rewrite Hm)).
    apply (serialize_with_run _ _ _ fs Hm Hs). body_fields. message_fields.
  - intros m' Hs'. destruct (block_reads_depth fs "Block" lv anc eq_refl Hbo Hd1) as (b' & Eb & Hb').
    destruct (block_reads_depth fs "Child_Block" clv canc eq_refl Hco Hd2) as (c' & Ec & Hc').
    repeat match goal with H : Forall (in_width _) (_ :: _) |- _ => apply Forall_cons in H as [? H] end.
    exists b', c'. split_and!; [|done..]. apply on_message_true. rewrite (receive_run _ _ _ fs Hs').
    + get (nugget_reads fs "Nugget" n eq_refl Hn). get Eb. get Ec.
      get (Get_uint32_reads fs "SF_Flags" sf eq_refl ltac:(done)).
      get (Get_uint32_reads fs "Ent_Flags" ent eq_refl ltac:(done)).
      get (Get_uint32_reads fs "Old_SF_Flags" osf eq_refl ltac:(done)).
      get (Get_uint32_reads fs "Old_Ent_Flags" oent eq_refl ltac:(done)).
      get (Get_uint64_reads fs "Event_Count" ec eq_refl ltac:(done)).
      get_last (Get_uint64_reads fs "Parent_Count" pc eq_refl ltac:(done)).
    + apply Nat.lt_succ_r. apply depth_build. pose proof (depth_nugget n). fields_step; rewrite ?depth_uint; lia.
Qed.

(** The output records over the wire. *)
Theorem OutputEvent_roundtrip m n e app el anc :
  nugget_ok n -> event_rep e app el anc -> Forall (elevel_ok types) (el :: anc) ->
  m_message m = Some (inj (mkOutputEvent (Some n) (Some e))) -> m_serialized m = None ->
  (json_depth (enc_event types el anc) < 31)%nat ->
  exists text, OutputEvent_Serialize sg (Some m) [] = Some (true, Some (with_serialized m text (strlen text)), []) /\
    (forall m', m_serialized m' = Some text ->
     exists e', OutputEvent_Deserialize sg (Some m') [] =
         Some (true, Some (with_body m' (Some (inj (mkOutputEvent (Some (nugget_back n)) (Some e'))))), []) /\
       event_rep e' uuid_null (elevel_back types el) (map (elevel_back types) anc)).
Proof.
  intros Hn He Heo Hm Hs Hd. set (fs := [("Nugget", enc_nugget n); ("Event", enc_event types el anc)]).
  exists (json_object_to_json_string (build fs)). split; [sends fs Hm Hs; message_fields|]. intros m' Hs'.
  destruct (event_reads_depth fs "Event" el anc eq_refl Heo Hd) as (e' & E & He').
  exists e'. split; [|done]. apply on_message_true. rewrite (receive_run _ _ _ fs Hs').
  - get (nugget_reads fs "Nugget" n eq_refl Hn). get_last E.
  - apply Nat.lt_succ_r. apply depth_build. pose proof (depth_nugget n). fields_step; lia.
Qed.
End DataMessages.

Section SmallMessages.
Context `{EVP} `{LibUuidLaws} `{JsonTextLaws}.
Variable sg : UuidLists.

Theorem OutputInspection_roundtrip m n id st sec nsec fin :
  nugget_ok n -> id_ok id -> in_width 8 st -> in_width 64 sec -> in_width 64 nsec ->
  m_message m = Some (inj (mkOutputInspection (Some n) sec nsec (Some id) st fin)) -> m_serialized m = None ->
  exists text, OutputInspection_Serialize (Some m) [] = Some (true, Some (with_serialized m text (strlen text)), []) /\
    (forall m', m_serialized m' = Some text ->
     OutputInspection_Deserialize (Some m') [] =
       Some (true, Some (with_body m' (Some (inj
         (mkOutputInspection (Some (nugget_back n)) sec nsec (Some (id_clone id)) st fin)))), [])).
Proof.
  intros Hn Hid Hst Hsec Hns Hm Hs.
  set (fs := [("Nugget", enc_nugget n); ("BlockId", enc_blockid id); ("Status", enc_uint st); ("Seconds", enc_uint sec);
    ("NanoSecs", enc_uint nsec); ("Final", enc_uint (if fin then 1 else 0))]).
  exists (json_object_to_json_string (build fs)). split; [sends fs Hm Hs; message_fields|]. intros m' Hs'.
  apply on_message_true. rewrite (receive_run _ _ _ fs Hs').
  - get (nugget_reads fs "Nugget" n eq_refl Hn). get (Get_BlockId_reads fs "BlockId" id eq_refl Hid).
    get (Get_uint8_reads fs "Status" st eq_refl Hst). get (Get_uint64_reads fs "Seconds" sec eq_refl Hsec).
    get (Get_uint64_reads fs "NanoSecs" nsec eq_refl Hns).
    destruct fin; get_last (Get_uint8_reads fs "Final" _ eq_refl ltac:(done)).
  - apply Nat.lt_le_trans with 4%nat; [|unfold JSON_TOKENER_DEFAULT_DEPTH; lia]. apply Nat.lt_succ_r. apply depth_build.
    pose proof (depth_nugget n). pose proof (depth_blockid id). fields_step; rewrite ?depth_uint; lia.
Qed.

(** The cache protocol over the wire: a request comes back with its requestor and
    an id of the same block, a response with an id of the same block and its flags. *)
Theorem Cache_roundtrip mq mr u id sf ent : id_ok id -> in_width 32 sf -> in_width 32 ent ->
  m_message mq = Some (inj (mkCacheReq u (Some id))) -> m_serialized mq = None ->
  m_message mr = Some (inj (mkCacheResp (Some id) sf ent)) -> m_serialized mr = None ->
  same_block id (id_clone id) /\
  (exists text, CacheReq_Serialize (Some mq) [] = Some (true, Some (with_serialized mq text (strlen text)), []) /\
    (forall m', m_serialized m' = Some text -> CacheReq_Deserialize (Some m') [] =
       Some (true, Some (with_body m' (Some (inj (mkCacheReq u (Some (id_clone id)))))), []))) /\
  (exists text, CacheResp_Serialize (Some mr) [] = Some (true, Some (with_serialized mr text (strlen text)), []) /\
    (forall m', m_serialized m' = Some text -> CacheResp_Deserialize (Some m') [] =
       Some (true, Some (with_body m' (Some (inj (mkCacheResp (Some (id_clone id)) sf ent)))), []))).
Proof.
  intros Hid Hsf Hent Hmq Hsq Hmr Hsr. split; [by apply BlockId_Clone_ok|]. pose proof (depth_blockid id). split.
  - set (fs := [("Requestor", enc_uuid u); ("Block_ID", enc_blockid id)]).
    exists (json_object_to_json_string (build fs)). split; [sends fs Hmq Hsq; message_fields|]. intros m' Hs'.
    apply on_message_true. rewrite (receive_run _ _ _ fs Hs').
    + get (Get_UUID_reads fs "Requestor" u eq_refl). get_last (Get_BlockId_reads fs "Block_ID" id eq_refl Hid).
    + apply Nat.lt_le_trans with 4%nat; [|unfold JSON_TOKENER_DEFAULT_DEPTH; lia]. apply Nat.lt_succ_r, depth_build.
      pose proof (depth_uuid u). fields_step; lia.
  - set (fs := [("Block_ID", enc_blockid id); ("SF_Flags", enc_uint sf); ("Ent_Flags", enc_uint ent)]).
    exists (json_object_to_json_string (build fs)). split; [sends fs Hmr Hsr; message_fields|]. intros m' Hs'.
    apply on_message_true. rewrite (receive_run _ _ _ fs Hs').
    + get (Get_BlockId_reads fs "Block_ID" id eq_refl Hid). get (Get_uint32_reads fs "SF_Flags" sf eq_refl Hsf).
      get_last (Get_uint32_reads fs "Ent_Flags" ent eq_refl Hent).
    + apply Nat.lt_le_trans with 4%nat; [|unfold JSON_TOKENER_DEFAULT_DEPTH; lia]. apply Nat.lt_succ_r, depth_build.
      fields_step; rewrite ?depth_uint; lia.
Qed.
End SmallMessages.

(** ** Witnesses *)

Module message_demo.
Definition msg (b : Body) : Message := mkMessage 0 0 1 None (Some b) None None.
Definition received (t : string) : Message := mkMessage 0 0 1 None None (Some t) None.

Definition submission : MessageBlockSubmission := mkBlockSubmission 2 (Some json_demo.event) 7.
End message_demo.

(** A bound on concrete data, by evaluation. *)
Ltac by_evaluation := apply (bool_decide_unpack _); vm_compute; exact I.

Lemma BlockSubmission_roundtrip_witness :
  exists text e', BlockSubmission_Serialize json_demo.sg (Some (message_demo.msg (inj message_demo.submission))) [] =
      Some (true, Some (with_serialized (message_demo.msg (inj message_demo.submission)) text (strlen text)), []) /\
    BlockSubmission_Deserialize json_demo.sg (Some (message_demo.received text)) [] =
      Some (true, Some (with_body (message_demo.received text) (Some (inj (mkBlockSubmission 2 (Some e') 7)))), []).
Proof.
  destruct (BlockSubmission_roundtrip json_demo.sg json_demo.types json_demo.types_entries json_demo.types_distinct
    (message_demo.msg (inj message_demo.submission)) 2 7 _ _ _ _ json_demo.event_event_rep json_demo.elevels_ok)
    as (t & E & Ht); [by_evaluation..|reflexivity|reflexivity|by_evaluation|].
  destruct (Ht (message_demo.received t) eq_refl) as (e' & E' & _). exists t, e'. split; [exact E|exact E'].
Defined.


Lemma InspectionSubmission_roundtrip_witness :
  exists text m2, InspectionSubmission_Serialize json_demo.sg (Some (message_demo.msg (inj
      (mkInspectionSubmission 1 (Some json_demo.block) (Some json_demo.eid) json_demo.list3 2 (Some [3; 4]))))) [] =
      Some (true, Some (with_serialized (message_demo.msg (inj (mkInspectionSubmission 1 (Some json_demo.block)
        (Some json_demo.eid) json_demo.list3 2 (Some [3; 4])))) text (strlen text)), []) /\
    InspectionSubmission_Deserialize json_demo.sg (Some (message_demo.received text)) [] = Some (true, Some m2, []).
Proof.
  destruct (InspectionSubmission_roundtrip json_demo.sg json_demo.types json_demo.types_entries json_demo.types_distinct
    (message_demo.msg (inj (mkInspectionSubmission 1 (Some json_demo.block) (Some json_demo.eid) json_demo.list3 2
      (Some [3; 4])))) 1 json_demo.eid json_demo.list3 json_demo.items json_demo.block _ _ [3; 4]
    json_demo.block_block_rep json_demo.levels_ok) as (t & E & Ht).
  - by_evaluation.
  - split; by_evaluation.
  - exact json_demo.list3_metadata.
  - exact json_demo.items_valid.
  - by_evaluation.
  - by_evaluation.
  - reflexivity.
  - reflexivity.
  - by_evaluation.
  - by_evaluation.
  - destruct (Ht (message_demo.received t) eq_refl) as (b' & l & E' & _). eexists t, _. split; [exact E|exact E'].
Defined.

Lemma JudgmentSubmission_roundtrip_witness :
  exists text m2, JudgmentSubmission_Serialize json_demo.sg (Some (message_demo.msg (inj
      (mkJudgmentSubmission 1 (Some json_demo.judgment))))) [] =
      Some (true, Some (with_serialized (message_demo.msg (inj (mkJudgmentSubmission 1 (Some json_demo.judgment))))
        text (strlen text)), []) /\
    JudgmentSubmission_Deserialize json_demo.sg (Some (message_demo.received text)) [] = Some (true, Some m2, []).
Proof.
  destruct (JudgmentSubmission_roundtrip json_demo.sg json_demo.types json_demo.types_entries json_demo.types_distinct
    (message_demo.msg (inj (mkJudgmentSubmission 1 (Some json_demo.judgment)))) 1 _ _ _ _ json_demo.judgment_judgment_ok)
    as (t & E & Ht); [by_evaluation|reflexivity|reflexivity|by_evaluation|].
  destruct (Ht (message_demo.received t) eq_refl) as (l & _ & _ & E'). eexists t, _. split; [exact E|exact E'].
Defined.

Lemma AlertPrimary_roundtrip_witness :
  exists text m2, AlertPrimary_Serialize json_demo.sg (Some (message_demo.msg (inj
      (mkAlertPrimary (Some json_demo.nugget) (Some json_demo.block) (Some json_demo.event) 1 2 json_demo.list3 3
        (Some "bad") 10 20 4 5 6 7)))) [] = Some (true, Some (with_serialized (message_demo.msg (inj
      (mkAlertPrimary (Some json_demo.nugget) (Some json_demo.block) (Some json_demo.event) 1 2 json_demo.list3 3
        (Some "bad") 10 20 4 5 6 7))) text (strlen text)), []) /\
    AlertPrimary_Deserialize json_demo.sg (Some (message_demo.received text)) [] = Some (true, Some m2, []).
Proof.
  destruct (AlertPrimary_roundtrip json_demo.sg json_demo.types json_demo.types_entries json_demo.types_distinct
    (message_demo.msg (inj (mkAlertPrimary (Some json_demo.nugget) (Some json_demo.block) (Some json_demo.event) 1 2
      json_demo.list3 3 (Some "bad") 10 20 4 5 6 7))) json_demo.nugget json_demo.block json_demo.level1 [json_demo.level2]
    json_demo.event (uuid_demo.uuid 8) json_demo.elevel1 []
    json_demo.list3 json_demo.items 1 2 3 (Some "bad") 10 20 4 5 6 7) as (t & E & Ht).
  - split; [|split]; intros x E; try discriminate E; injection E as <-; reflexivity.
  - exact json_demo.block_block_rep.
  - exact json_demo.levels_ok.
  - exact json_demo.event_event_rep.
  - exact json_demo.elevels_ok.
  - exact json_demo.list3_metadata.
  - exact json_demo.items_valid.
  - by_evaluation.
  - by_evaluation.
  - by_evaluation.
  - intros x [= <-]. reflexivity.
  - reflexivity.
  - reflexivity.
  - by_evaluation.
  - destruct (Ht (message_demo.received t) eq_refl) as (b' & e' & l & E' & _). eexists t, _. split; [exact E|exact E'].
Defined.

Lemma Cache_roundtrip_witness : same_block (block_demo.id 5) (id_clone (block_demo.id 5)).
Proof.
  apply (Cache_roundtrip (message_demo.msg (inj (mkCacheReq (uuid_demo.uuid 3) (Some (block_demo.id 5)))))
    (message_demo.msg (inj (mkCacheResp (Some (block_demo.id 5)) 1 2))) (uuid_demo.uuid 3) (block_demo.id 5) 1 2
    (block_demo.id_id_ok 5 eq_refl)); [by_evaluation|by_evaluation|reflexivity..].
Defined.
