(* ===== verification/CncThms.v ===== *)
(** * Theorems about the command and control messages

    Round trips of the registration, configuration and control messages, the
    headers of directed messages, the table of handlers, and the errors of the
    registration request. *)

From S2P Require Import Prelude CLib RzbList RzbListProps ListM Hash LibUuid Uuids Ntlv Blocks JsonC JsonBuffer JsonCodec JsonNtlv JsonObjects JsonSafety JsonProps JsonText Messages MessageCodecs CncMessages MessageProps.

Section Roundtrips.
Context `{EVP} `{LibUuidLaws} `{JsonTextLaws}.
Variable sg : UuidLists.

(** *** Hello *)

(** The fields of a hello of a nugget that is not a dispatcher, and those a
    dispatcher adds. *)
Definition hello_fields (he : MessageHello) : list (string * jobj) :=
  [("Nugget_Type", enc_uuid (he_uuidNuggetType he)); ("App_Type", enc_uuid (he_uuidApplicationType he));
   ("Locality", enc_uint (he_locality he))].
Definition dispatcher_fields (he : MessageHello) (xs : list string) : list (string * jobj) :=
  [("Priority", enc_uint (he_priority he)); ("Protocol", enc_uint (he_protocol he)); ("Port", enc_uint (he_port he));
   ("Flags", enc_uint (he_flags he)); ("Address_List", arr (map enc_string xs))].

Lemma is_dispatcher_run nts d u o : entries (UUID_Get_List sg UUID_TYPE_NUGGET_TYPE) nts ->
  named NUGGET_TYPE_DISPATCHER nts = Some d ->
  is_dispatcher sg u o = Some (Some (bool_decide (un_uuid d = u)), o).
Proof. intros He Hd. unfold is_dispatcher. by rewrite (Is_Named_UUID_entries sg _ nts _ u o He), Hd. Qed.

Lemma yields_dispatcher s nts d u : entries (UUID_Get_List sg UUID_TYPE_NUGGET_TYPE) nts ->
  named NUGGET_TYPE_DISPATCHER nts = Some d -> yields s (is_dispatcher sg u) (bool_decide (un_uuid d = u)).
Proof. intros He Hd. apply yields_eq. intros o. by rewrite (is_dispatcher_run nts d). Qed.

Lemma depth_strings xs : (json_depth (arr (map enc_string xs)) <= 1)%nat.
Proof. apply depth_arr, Forall_map, Forall_true. intros x. rewrite depth_string. lia. Qed.

Lemma hello_depth he xs n : (2 < n)%nat -> (json_depth (build (hello_fields he ++ dispatcher_fields he xs)) < n)%nat /\
  (json_depth (build (hello_fields he)) < n)%nat.
Proof.
  intros Hn. pose proof (depth_uuid (he_uuidNuggetType he)). pose proof (depth_uuid (he_uuidApplicationType he)).
  pose proof (depth_strings xs).
  split; (apply Nat.le_lt_trans with 2%nat; [|lia]); apply depth_build; cbn [app hello_fields dispatcher_fields];
    fields_step; rewrite ?depth_uint; lia.
Qed.

(** What is written and what is read. *)
Lemma Hello_wire m he nts d xs : entries (UUID_Get_List sg UUID_TYPE_NUGGET_TYPE) nts ->
  named NUGGET_TYPE_DISPATCHER nts = Some d ->
  Forall (in_width 8) [he_locality he; he_priority he; he_protocol he] -> in_width 16 (he_port he) ->
  in_width 32 (he_flags he) -> (un_uuid d = he_uuidNuggetType he -> strings (he_addressList he) xs) ->
  Forall (fun x => nul_free x = true) xs ->
  m_message m = Some (inj he) -> m_serialized m = None ->
  exists text, Hello_Serialize sg (Some m) [] = Some (true, Some (with_serialized m text (strlen text)), []) /\
    (forall m', m_serialized m' = Some text ->
     exists he', Hello_Deserialize sg (Some m') [] = Some (true, Some (with_body m' (Some (inj he'))), []) /\
       if decide (un_uuid d = he_uuidNuggetType he) then
         exists l, strings (Some l) xs /\ he' = set_he_addressList (Some l) he
       else he' = mkHello (he_uuidNuggetType he) (he_uuidApplicationType he) (he_locality he) 0 0 None 0 0).
Proof.
  intros Hn Hd H8 Hp Hf Ha Hx Hm Hs.
  repeat match goal with H : Forall (in_width _) (_ :: _) |- _ => apply Forall_cons in H as [? H] end.
  set (fs1 := hello_fields he) in *. set (fs2 := dispatcher_fields he xs) in *.
  destruct (hello_depth he xs JSON_TOKENER_DEFAULT_DEPTH) as [Hd12 Hd1]; [unfold JSON_TOKENER_DEFAULT_DEPTH; lia|].
  exists (json_object_to_json_string (build (fs1 ++ if decide (un_uuid d = he_uuidNuggetType he) then fs2 else []))). split.
  - sends (fs1 ++ if decide (un_uuid d = he_uuidNuggetType he) then fs2 else []) Hm Hs. do 3 next_field.
    eapply fills_with; [by apply (yields_dispatcher _ nts d)|].
    destruct (decide _) as [Ed|Ed]; [rewrite bool_decide_eq_true_2 by done|rewrite bool_decide_eq_false_2 by done; apply fills_true].
    do 4 next_field. by apply encodes_fills, Put_StringList_encodes, Ha.
  - intros m' Hs'. unfold Hello_Deserialize.
    destruct (decide _) as [Ed|Ed]; [|rewrite app_nil_r in Hs'].
    + destruct (Get_StringList_reads (fs1 ++ fs2) "Address_List" xs eq_refl Hx) as (l & El & Hl).
      eexists. split; [|exists l; split; [done|reflexivity]]. apply on_message_true. rewrite (receive_run _ _ _ _ Hs' Hd12).
      get (Get_UUID_reads (fs1 ++ fs2) "Nugget_Type" _ eq_refl). get (Get_UUID_reads (fs1 ++ fs2) "App_Type" _ eq_refl).
      get (Get_uint8_reads (fs1 ++ fs2) "Locality" (he_locality he) eq_refl ltac:(done)).
      erewrite MM_bind_ok; [|apply get_body_run; reflexivity]. body_fields.
      erewrite MM_bind_ok; [|apply lift_run, (is_dispatcher_run nts d (he_uuidNuggetType he) [] Hn Hd)].
      rewrite bool_decide_eq_true_2 by done.
      get (Get_uint8_reads (fs1 ++ fs2) "Priority" (he_priority he) eq_refl ltac:(done)).
      get (Get_uint8_reads (fs1 ++ fs2) "Protocol" (he_protocol he) eq_refl ltac:(done)).
      get (Get_uint16_reads (fs1 ++ fs2) "Port" (he_port he) eq_refl ltac:(done)).
      get (Get_uint32_reads (fs1 ++ fs2) "Flags" (he_flags he) eq_refl ltac:(done)). get_last El.
    + eexists. split; [|reflexivity]. apply on_message_true. rewrite (receive_run _ _ _ _ Hs' Hd1).
      get (Get_UUID_reads fs1 "Nugget_Type" _ eq_refl). get (Get_UUID_reads fs1 "App_Type" _ eq_refl).
      get (Get_uint8_reads fs1 "Locality" (he_locality he) eq_refl ltac:(done)).
      erewrite MM_bind_ok; [|apply get_body_run; reflexivity]. body_fields.
      erewrite MM_bind_ok; [|apply lift_run, (is_dispatcher_run nts d (he_uuidNuggetType he) [] Hn Hd)].
      by rewrite bool_decide_eq_false_2.
Qed.

(** A hello over the wire.  From a dispatcher every field comes back: the types,
    the locality, the priority, the flags, the protocol, the port and the addresses.
    From another nugget the types and the locality do, and the rest is zero. *)
Theorem Hello_roundtrip m he nts d xs : entries (UUID_Get_List sg UUID_TYPE_NUGGET_TYPE) nts ->
  named NUGGET_TYPE_DISPATCHER nts = Some d ->
  Forall (in_width 8) [he_locality he; he_priority he; he_protocol he] -> in_width 16 (he_port he) ->
  in_width 32 (he_flags he) -> (un_uuid d = he_uuidNuggetType he -> strings (he_addressList he) xs) ->
  Forall (fun x => nul_free x = true) xs ->
  m_message m = Some (inj he) -> m_serialized m = None ->
  exists text, Hello_Serialize sg (Some m) [] = Some (true, Some (with_serialized m text (strlen text)), []) /\
    (forall m', m_serialized m' = Some text ->
     exists he', Hello_Deserialize sg (Some m') [] = Some (true, Some (with_body m' (Some (inj he'))), []) /\
       if decide (un_uuid d = he_uuidNuggetType he) then
         exists l, strings (Some l) xs /\ he' = set_he_addressList (Some l) he
       else he' = mkHello (he_uuidNuggetType he) (he_uuidApplicationType he) (he_locality he) 0 0 None 0 0).
Proof. exact (Hello_wire m he nts d xs). Qed.

(** *** Registration requests *)

Lemma data_types_yields s us vs n : n = length us ->
  yields s (data_types_array n us (arr vs)) (arr (vs ++ map (fun u => json_object_new_string (uuid_unparse u)) us)).
Proof.
  intros ->. revert vs. induction us as [|u us IH]; intros vs; simpl; [rewrite app_nil_r; apply yields_ret|].
  eapply yields_bind; [apply yields_ret|]. eapply yields_bind; [apply yields_alloc|].
  rewrite <- arr_snoc. specialize (IH (vs ++ [json_object_new_string (uuid_unparse u)])). by rewrite <- app_assoc in IH.
Qed.

Lemma read_data_types_run m b us ys : m_message m = Some (inj b) ->
  read_data_types (arr (map (fun u => json_object_new_string (uuid_unparse u)) (ys ++ us))) (length ys) (length us) ys m [] =
  Some (Some (), with_body m (Some (inj (set_rr_pDataTypeList (PLive (ys ++ us)) b))), []).
Proof.
  intros Hm. revert ys. induction us as [|u us IH]; intros ys; cbn [length read_data_types].
  - rewrite app_nil_r. by apply body_store_run.
  - rewrite (array_get_arr _ (length ys) (json_object_new_string (uuid_unparse u)))
      by (rewrite map_app, lookup_app_r by (by rewrite length_map); by rewrite length_map, Nat.sub_diag).
    cbn [mbind option_bind]. rewrite get_string_new by apply uuid_unparse_nul_free.
    rewrite uuid_parse_unparse. specialize (IH (ys ++ [u])). rewrite length_app, Nat.add_comm, <- app_assoc in IH. done.
Qed.

Definition reg_req_fields (rr : MessageRegistrationRequest) (us : list uuid_t) : list (string * jobj) :=
  [("Nugget_Type", enc_uuid (rr_uuidNuggetType rr)); ("App_Type", enc_uuid (rr_uuidApplicationType rr));
   ("Data_Types", arr (map (fun u => json_object_new_string (uuid_unparse u)) us))].

Lemma reg_req_depth rr us : (json_depth (build (reg_req_fields rr us)) < JSON_TOKENER_DEFAULT_DEPTH)%nat.
Proof.
  apply Nat.le_lt_trans with 2%nat; [|unfold JSON_TOKENER_DEFAULT_DEPTH; lia]. apply depth_build.
  pose proof (depth_uuid (rr_uuidNuggetType rr)). pose proof (depth_uuid (rr_uuidApplicationType rr)).
  unfold reg_req_fields. fields_step; [lia..|]. apply Nat.lt_succ_r. apply depth_arr, Forall_map, Forall_true.
  intros u. rewrite depth_new_string. lia.
Qed.

(** A registration request over the wire: the types of the nugget and the data
    types it handles, in order, come back. *)
Theorem RegistrationRequest_roundtrip m rr us : live_uuids (rr_pDataTypeList rr) = us ->
  rr_iDataTypeCount rr = Z.of_nat (length us) -> in_width 32 (rr_iDataTypeCount rr) ->
  m_message m = Some (inj rr) -> m_serialized m = None ->
  exists text, RegistrationRequest_Serialize (Some m) [] =
      Some (true, Some (with_serialized m text (strlen text)), []) /\
    (forall m', m_serialized m' = Some text -> RegistrationRequest_Deserialize (Some m') [] =
       Some (true, Some (with_body m' (Some (inj (set_rr_pDataTypeList (PLive us) rr)))), [])).
Proof.
  intros Hu Hc Hw Hm Hs. set (fs := reg_req_fields rr us). exists (json_object_to_json_string (build fs)). split.
  - sends fs Hm Hs. do 2 next_field. rewrite Hu, Hc, Nat2Z.id. eapply fills_with; [|apply encodes_fills, encodes_add].
    eapply yields_bind; [apply yields_alloc|]. by apply (data_types_yields _ us []).
  - intros m' Hs'. apply on_message_true. rewrite (receive_run _ _ _ fs Hs' (reg_req_depth rr us)).
    get (Get_UUID_reads fs "Nugget_Type" _ eq_refl). get (Get_UUID_reads fs "App_Type" _ eq_refl).
    rewrite object_get_build. cbn [field fs reg_req_fields String.eqb Ascii.eqb Bool.eqb].
    rewrite has_type_arr, array_length_arr, length_map.
    erewrite MM_bind_ok; [|by apply lift_run]. cbv zeta. unfold u32. rewrite <- Hc, wrap_small by done.
    erewrite MM_bind_ok; [|by apply body_store_run]. erewrite MM_bind_ok; [|apply lift_run, alloc_ok].
    rewrite Hc, Nat2Z.id. etransitivity; [eapply (read_data_types_run _ _ us []); reflexivity|]. by rewrite <- Hc.
Qed.

(** *** Configuration updates *)

Lemma depth_nodes xs : (json_depth (arr (map enc_node xs)) <= 2)%nat.
Proof.
  apply depth_arr, Forall_map, Forall_true. intros x. apply Nat.lt_succ_r. apply depth_build. unfold node_fields.
  apply Forall_app. split; [fields_step; rewrite depth_string; lia|].
  apply depth_opt_field. intros t _. rewrite depth_string. lia.
Qed.

(** A configuration update over the wire: the three UUID lists come back entry by
    entry. *)
Theorem ConfigUpdate_roundtrip m p1 p2 p3 xs1 xs2 xs3 : entries p1 xs1 -> entries p2 xs2 -> entries p3 xs3 ->
  Forall node_ok xs1 -> Forall node_ok xs2 -> Forall node_ok xs3 ->
  m_message m = Some (inj (mkConfigurationUpdate p1 p2 p3)) -> m_serialized m = None ->
  exists text, ConfigUpdate_Serialize (Some m) [] = Some (true, Some (with_serialized m text (strlen text)), []) /\
    (forall m', m_serialized m' = Some text ->
     exists l1 l2 l3, ConfigUpdate_Deserialize (Some m') [] =
         Some (true, Some (with_body m' (Some (inj (mkConfigurationUpdate (Some l1) (Some l2) (Some l3))))), []) /\
       entries (Some l1) xs1 /\ entries (Some l2) xs2 /\ entries (Some l3) xs3).
Proof.
  intros He1 He2 He3 Hx1 Hx2 Hx3 Hm Hs.
  set (fs := [("NTLV_Types", arr (map enc_node xs1)); ("NTLV_Names", arr (map enc_node xs2));
    ("Data_Types", arr (map enc_node xs3))]).
  exists (json_object_to_json_string (build fs)). split.
  - sends fs Hm Hs. apply (fills_seq _ _ _ [_]); [by apply encodes_fills, Put_UUIDList_encodes|].
    apply (fills_seq _ _ _ [_]); by apply encodes_fills, Put_UUIDList_encodes.
  - intros m' Hs'. destruct (Get_UUIDList_reads fs "NTLV_Types" xs1 eq_refl Hx1) as (l1 & E1 & H1').
    destruct (Get_UUIDList_reads fs "NTLV_Names" xs2 eq_refl Hx2) as (l2 & E2 & H2').
    destruct (Get_UUIDList_reads fs "Data_Types" xs3 eq_refl Hx3) as (l3 & E3 & H3').
    exists l1, l2, l3. split_and!; [|done..]. apply on_message_true. rewrite (receive_run _ _ _ fs Hs').
    + get E1. get E2. get_last E3.
    + apply Nat.le_lt_trans with 3%nat; [|unfold JSON_TOKENER_DEFAULT_DEPTH; lia]. apply depth_build.
      pose proof (depth_nodes xs1). pose proof (depth_nodes xs2). pose proof (depth_nodes xs3). fields_step; lia.
Qed.

(** *** The other messages *)

Lemma one_text_depth k t : (json_depth (build [(k, enc_string t)]) < JSON_TOKENER_DEFAULT_DEPTH)%nat.
Proof.
  apply Nat.le_lt_trans with 1%nat; [|unfold JSON_TOKENER_DEFAULT_DEPTH; lia]. apply depth_build.
  fields_step. rewrite depth_string. lia.
Qed.

(** Acknowledgements, errors and terminations over the wire come back as they
    were sent. *)
Theorem Control_roundtrip ma me mt u v s t : nul_free s = true -> nul_free t = true ->
  m_message ma = Some (inj (mkConfigurationAck u v)) -> m_serialized ma = None ->
  m_message me = Some (inj (mkError (Some s))) -> m_serialized me = None ->
  m_message mt = Some (inj (mkTerminate (Some t))) -> m_serialized mt = None ->
  (exists text, ConfigAck_Serialize (Some ma) [] = Some (true, Some (with_serialized ma text (strlen text)), []) /\
    (forall m', m_serialized m' = Some text -> ConfigAck_Deserialize (Some m') [] =
       Some (true, Some (with_body m' (Some (inj (mkConfigurationAck u v)))), []))) /\
  (exists text, Error_Serialize (Some me) [] = Some (true, Some (with_serialized me text (strlen text)), []) /\
    (forall m', m_serialized m' = Some text -> Error_Deserialize (Some m') [] =
       Some (true, Some (with_body m' (Some (inj (mkError (Some s))))), []))) /\
  (exists text, Terminate_Serialize (Some mt) [] = Some (true, Some (with_serialized mt text (strlen text)), []) /\
    (forall m', m_serialized m' = Some text -> Terminate_Deserialize (Some m') [] =
       Some (true, Some (with_body m' (Some (inj (mkTerminate (Some t))))), []))).
Proof.
  intros Hns Hnt Hma Hsa Hme Hse Hmt Hst. split; [|split].
  - set (fs := [("Nugget_Type", enc_uuid u); ("App_Type", enc_uuid v)]).
    exists (json_object_to_json_string (build fs)). split; [sends fs Hma Hsa; message_fields|]. intros m' Hs'.
    apply on_message_true. rewrite (receive_run _ _ _ fs Hs').
    + get (Get_UUID_reads fs "Nugget_Type" u eq_refl). get_last (Get_UUID_reads fs "App_Type" v eq_refl).
    + apply Nat.le_lt_trans with 2%nat; [|unfold JSON_TOKENER_DEFAULT_DEPTH; lia]. apply depth_build.
      pose proof (depth_uuid u). pose proof (depth_uuid v). fields_step; lia.
  - set (fs := [("Message", enc_string s)]). exists (json_object_to_json_string (build fs)). split.
    { sends fs Hme Hse. apply encodes_fills, Put_String_encodes. }
    intros m' Hs'. apply on_message_true. rewrite (receive_run _ _ _ fs Hs' (one_text_depth _ _)).
    get_last (Get_String_reads fs "Message" s eq_refl Hns).
  - set (fs := [("Reason", enc_string t)]). exists (json_object_to_json_string (build fs)). split.
    { sends fs Hmt Hst. apply encodes_fills, Put_String_encodes. }
    intros m' Hs'. apply on_message_true. rewrite (receive_run _ _ _ fs Hs' (one_text_depth _ _)).
    get_last (Get_String_reads fs "Reason" t eq_refl Hnt).
Qed.
End Roundtrips.

(** ** Headers and handlers *)

Section Headers.
Context `{EVP} `{LibUuidLaws}.

(** [p] is a header list with these headers. *)
Definition headers (p : option header_list) (xs : list MessageHeader) : Prop :=
  exists l, p = Some l /\ contents l xs /\ plain l /\ l_keyCmp l = Some MessageHeader_KeyCmp.

Lemma HeaderList_Add_run p xs n v : headers p xs ->
  exists p', Message_HeaderList_Add p (Some n) (Some v) [] = Some (Some p', []) /\ headers p' (xs ++ [mkHeader n v]).
Proof.
  intros (l & -> & Hc & Hp & Hk). destruct (push_plain l xs (mkHeader n v) [] Hc Hp) as (l' & E & Hm & Hc').
  exists (Some l'). split.
  - unfold Message_HeaderList_Add, nonnull. rewrite !M_ret_bind, !(M_bind_ok _ _ _ _ _ alloc_ok).
    by rewrite (M_bind_ok _ _ _ _ _ E).
  - exists l'. split_and!; [done|exact Hc'|by eapply plain_meta|]. unfold meta in Hm. congruence.
Qed.

(** A list of headers, if there is one. *)
Definition some_headers (p : option header_list) : Prop := p = None \/ exists xs, headers p xs.

Lemma Header_List_ensures : ensures (unchecked Message_Header_List_Create) some_headers.
Proof.
  intros o. destruct (create_ensures MessageHeader_Cmp MessageHeader_KeyCmp MessageHeader_Delete MessageHeader_Clone o) as (r & o' & E & Hr).
  exists (Some r), o'. unfold unchecked, Message_Header_List_Create. rewrite E. split; [done|]. intros ? [= <-].
  destruct r as [l|]; [right|by left]. exists [], l. by destruct (Hr l eq_refl) as (? & ? & _ & ? & _).
Qed.

Lemma HeaderList_Add_ensures p n v : some_headers p -> ensures (Message_HeaderList_Add p (Some n) (Some v)) some_headers.
Proof.
  intros [->|[xs Hh]]; unfold Message_HeaderList_Add; m_step; [done|]. destruct Hh as (l & E & Hc & Hp & Hk).
  replace x with l by congruence. do 5 m_step. apply ensures_bind with (fun r => some_headers (snd r)); [|intros [b l'] Hx; by apply ensures_ret].
  intros o. match goal with |- context [list_push _ ?h o] => destruct (push_plain l xs h o Hc Hp) as (l' & E' & Hm & Hc') end.
  eexists _, _. split; [exact E'|]. intros ? [= <-]. right. eexists. exists l'. split_and!; [done|exact Hc'|by eapply plain_meta|].
  unfold meta in Hm. congruence.
Qed.

Lemma Add_Header_run m xs n v : headers (m_headers m) xs ->
  exists p', Message_Add_Header (Some n) (Some v) (Some m) [] = Some (true, Some (with_headers m p'), []) /\
    headers p' (xs ++ [mkHeader n v]).
Proof.
  intros Hh. destruct (HeaderList_Add_run _ xs n v Hh) as (p' & E & Hp'). exists p'. split; [|done].
  apply on_message_true. mm (lift_run (nonnull (Some n)) m [] _ _ eq_refl).
  mm (lift_run (nonnull (Some v)) m [] _ _ eq_refl). mm (eq_refl : ask m [] = Some (Some m, m, [])).
  by mm (lift_run _ m [] _ _ E).
Qed.

Lemma Create_run type version zero : exists p,
  Message_Create type version zero [] = Some (Some (mkMessage type 0 version p zero None None), []) /\ headers p [].
Proof.
  destruct (create_ok MessageHeader_Cmp MessageHeader_KeyCmp MessageHeader_Delete MessageHeader_Clone)
    as (l & E & Hc & Hp & _ & Hk & _).
  exists (Some l). split; [|by exists l]. unfold Message_Create. rewrite (M_bind_ok _ _ _ _ _ alloc_ok).
  rewrite (M_bind_ok _ _ _ () []) by by destruct zero.
  rewrite (M_bind_ok _ _ _ (Some l) []); [done|]. unfold unchecked, Message_Header_List_Create. by rewrite E.
Qed.

Lemma with_nuggets_run source dest m : headers (m_headers m) [] ->
  exists p, with_nuggets source dest m [] = Some (Some (with_headers m p), []) /\
    headers p [mkHeader MSG_CNC_HEADER_SOURCE (uuid_unparse source); mkHeader MSG_CNC_HEADER_DEST (uuid_unparse dest)].
Proof.
  intros Hh. destruct (Add_Header_run m [] MSG_CNC_HEADER_SOURCE (uuid_unparse source) Hh) as (p1 & E1 & H1').
  destruct (Add_Header_run (with_headers m p1) _ MSG_CNC_HEADER_DEST (uuid_unparse dest) H1') as (p2 & E2 & H2').
  exists p2. split; [|done]. unfold with_nuggets, Message_Add_Directed_Headers. rewrite E1. cbn [mbind option_bind].
  rewrite E2. done.
Qed.

Lemma Get_Nuggets_run m source dest o : headers (m_headers m)
    [mkHeader MSG_CNC_HEADER_SOURCE (uuid_unparse source); mkHeader MSG_CNC_HEADER_DEST (uuid_unparse dest)] ->
  Message_Get_Nuggets (Some m) o = Some (Some (source, dest), o).
Proof.
  intros (l & E & Hc & Hp & Hk). unfold Message_Get_Nuggets, nonnull. rewrite M_ret_bind, E.
  rewrite (M_bind_ok _ _ _ (mkHeader MSG_CNC_HEADER_DEST (uuid_unparse dest)) o) by by rewrite (find_plain l _ _ _ o Hc Hp Hk).
  cbn [mh_sValue]. rewrite uuid_parse_unparse, M_ret_bind.
  rewrite (M_bind_ok _ _ _ (mkHeader MSG_CNC_HEADER_SOURCE (uuid_unparse source)) o) by by rewrite (find_plain l _ _ _ o Hc Hp Hk).
  cbn [mh_sValue]. by rewrite uuid_parse_unparse, M_ret_bind.
Qed.

(** A directed message carries its source and destination: [Message_Get_Nuggets]
    on the message that [Message_Create_Directed] makes gives both back, and on a
    broadcast the source and the null UUID. *)
Theorem Message_nuggets_roundtrip type version zero source dest :
  exists m b, Message_Create_Directed type version zero source dest [] = Some (Some m, []) /\
    Message_Create_Broadcast type version zero source [] = Some (Some b, []) /\
    m_type m = type /\ m_version m = version /\ m_message m = zero /\ m_serialized m = None /\
    Message_Get_Nuggets (Some m) [] = Some (Some (source, dest), []) /\
    Message_Get_Nuggets (Some b) [] = Some (Some (source, uuid_null), []).
Proof.
  destruct (Create_run type version zero) as (p & E & Hp). set (m0 := mkMessage type 0 version p zero None None) in *.
  destruct (with_nuggets_run source dest m0 Hp) as (p1 & E1 & H1').
  destruct (with_nuggets_run source uuid_null m0 Hp) as (p2 & E2 & H2').
  exists (with_headers m0 p1), (with_headers m0 p2). unfold Message_Create_Directed, Message_Create_Broadcast.
  rewrite !(M_bind_ok _ _ _ _ _ E). split_and!; [done..| |]; by apply Get_Nuggets_run.
Qed.

(** When the list of headers cannot be allocated the message is made all the
    same, without an address: the results are not looked at, and the receiver finds
    no destination. *)
Theorem Message_Create_unaddressed type version source dest :
  exists m, Message_Create_Directed type version None source dest [true; false] = Some (Some m, []) /\
    m_headers m = None /\ Message_Get_Nuggets (Some m) [] = Some (None, []).
Proof. eexists. split_and!; reflexivity. Qed.
End Headers.

(** The handler a type has, by the table of the source. *)
Definition handler_of (type : Z) : option Codec :=
  if type == MESSAGE_TYPE_BLOCK then Some C_BlockSubmission
  else if type == MESSAGE_TYPE_JUDGMENT then Some C_JudgmentSubmission
  else if type == MESSAGE_TYPE_INSPECTION then Some C_InspectionSubmission
  else if type == MESSAGE_TYPE_REQ then Some C_CacheReq
  else if type == MESSAGE_TYPE_RESP then Some C_CacheResp
  else if type == MESSAGE_TYPE_ALERT_PRIMARY then Some C_AlertPrimary
  else if type == MESSAGE_TYPE_ALERT_CHILD then Some C_AlertChild
  else if type == MESSAGE_TYPE_OUTPUT_EVENT then Some C_OutputEvent
  else if type == MESSAGE_TYPE_HELLO then Some C_Hello
  else if type == MESSAGE_TYPE_REG_REQ then Some C_RegistrationRequest
  else if (type == MESSAGE_TYPE_REG_ERR) || (type == MESSAGE_TYPE_CONFIG_ERR) then Some C_Error
  else if type == MESSAGE_TYPE_CONFIG_UPDATE then Some C_ConfigUpdate
  else if type == MESSAGE_TYPE_CONFIG_ACK then Some C_ConfigAck
  else if type == MESSAGE_TYPE_TERM then Some C_Terminate
  else if (type == MESSAGE_TYPE_REG_RESP) || (type == MESSAGE_TYPE_PAUSE) || (type == MESSAGE_TYPE_PAUSED) ||
          (type == MESSAGE_TYPE_GO) || (type == MESSAGE_TYPE_RUNNING) || (type == MESSAGE_TYPE_BYE) ||
          (type == MESSAGE_TYPE_CLEAR) || (type == MESSAGE_TYPE_REREG) then Some C_Empty
  else None.

Section Handlers.
Context `{EVP} `{LibUuid}.

Definition handlers (p : option handler_list) (xs : list MessageHandler) : Prop :=
  exists l, p = Some l /\ contents l xs /\ plain l /\ l_keyCmp l = Some MessageHandler_KeyCmp.

Lemma handlerList_Create_run : exists l, handlerList_Create [] = Some (Some l, []) /\ handlers (Some l) [].
Proof.
  unfold handlerList_Create. cbn [alloc_next negb]. destruct (List_Create _ _ _ _ _ _ _ _ _ _) as [l|] eqn:E; [|done].
  exists l. split; [done|]. exists l. split_and!; [done|by eapply Create_contents| |]; injection E as <-; by split.
Qed.

Lemma register_run type c p xs : handlers p xs ->
  exists p', register type c p [] = Some (Some p', []) /\ handlers p' (xs ++ [mkHandler type c]).
Proof.
  intros (l & -> & Hc & Hp & Hk). destruct (push_plain l xs (mkHandler type c) [] Hc Hp) as (l' & E & Hm & Hc').
  exists (Some l'). split; [unfold register, Message_Register_Handler; by rewrite (M_bind_ok _ _ _ _ _ E)|].
  exists l'. split_and!; [done|exact Hc'|by eapply plain_meta|]. unfold meta in Hm. congruence.
Qed.

Definition registered : list MessageHandler :=
  [mkHandler MESSAGE_TYPE_BLOCK C_BlockSubmission; mkHandler MESSAGE_TYPE_REQ C_CacheReq;
   mkHandler MESSAGE_TYPE_RESP C_CacheResp; mkHandler MESSAGE_TYPE_INSPECTION C_InspectionSubmission;
   mkHandler MESSAGE_TYPE_JUDGMENT C_JudgmentSubmission; mkHandler MESSAGE_TYPE_ALERT_PRIMARY C_AlertPrimary;
   mkHandler MESSAGE_TYPE_ALERT_CHILD C_AlertChild; mkHandler MESSAGE_TYPE_OUTPUT_EVENT C_OutputEvent;
   mkHandler MESSAGE_TYPE_BYE C_Empty; mkHandler MESSAGE_TYPE_CLEAR C_Empty;
   mkHandler MESSAGE_TYPE_CONFIG_ACK C_ConfigAck; mkHandler MESSAGE_TYPE_CONFIG_UPDATE C_ConfigUpdate;
   mkHandler MESSAGE_TYPE_REG_ERR C_Error; mkHandler MESSAGE_TYPE_CONFIG_ERR C_Error;
   mkHandler MESSAGE_TYPE_GO C_Empty; mkHandler MESSAGE_TYPE_HELLO C_Hello; mkHandler MESSAGE_TYPE_PAUSE C_Empty;
   mkHandler MESSAGE_TYPE_PAUSED C_Empty; mkHandler MESSAGE_TYPE_REG_REQ C_RegistrationRequest;
   mkHandler MESSAGE_TYPE_REG_RESP C_Empty; mkHandler MESSAGE_TYPE_RUNNING C_Empty;
   mkHandler MESSAGE_TYPE_TERM C_Terminate; mkHandler MESSAGE_TYPE_REREG C_Empty].

Lemma register_bind {A} type c p xs (k : option handler_list -> M A) : handlers p xs ->
  exists p', handlers p' (xs ++ [mkHandler type c]) /\ (register type c p ≫= k) [] = k p' [].
Proof. intros Hp. destruct (register_run type c p xs Hp) as (p' & E & Hp'). exists p'. by rewrite (M_bind_ok _ _ _ _ _ E). Qed.

(** Run the next registration. *)
Ltac registers :=
  match goal with
  | Hp : handlers ?p ?xs |- context [mbind ?k (register ?t ?c ?p)] =>
      let p' := fresh "p" in let Hp' := fresh "Hp" in let E := fresh "E" in
      destruct (register_bind t c p xs k Hp) as (p' & Hp' & E); rewrite E; clear E Hp; cbn [app] in Hp'
  end.

Lemma Error_Init_run p xs : handlers p xs -> exists p', Message_CnC_Error_Init p [] = Some (Some p', []) /\
  handlers p' (xs ++ [mkHandler MESSAGE_TYPE_REG_ERR C_Error; mkHandler MESSAGE_TYPE_CONFIG_ERR C_Error]).
Proof.
  intros Hp. unfold Message_CnC_Error_Init. registers.
  destruct (register_run MESSAGE_TYPE_CONFIG_ERR C_Error _ _ Hp0) as (p' & E & Hp'). exists p'. split; [done|].
  by rewrite <- app_assoc in Hp'.
Qed.

Lemma Message_Init_run : exists p, Message_Init [] = Some (Some p, []) /\ handlers p registered.
Proof.
  destruct handlerList_Create_run as (l & E & Hl).
  unfold Message_Init, MessageBlockSubmission_Init, MessageCacheReq_Init, MessageCacheResp_Init,
    MessageInspectionSubmission_Init, MessageJudgmentSubmission_Init, MessageAlertPrimary_Init,
    MessageAlertChild_Init, MessageOutputEvent_Init, Message_CnC_Bye_Init, Message_CnC_CacheClear_Init,
    Message_CnC_ConfigAck_Init, Message_CnC_ConfigUpdate_Init, Message_CnC_Go_Init,
    Message_CnC_Hello_Init, Message_CnC_Pause_Init, Message_CnC_Paused_Init, Message_CnC_RegReq_Init,
    Message_CnC_RegResp_Init, Message_CnC_Running_Init, Message_CnC_Term_Init, Message_CnC_ReReg_Init.
  rewrite (M_bind_ok _ _ _ _ _ E). cbv zeta.
  revert Hl. generalize (Some l). clear E l. intros p Hp. do 12 registers.
  match goal with Hq : handlers ?q _ |- _ => destruct (Error_Init_run q _ Hq) as (pe & E1 & Hp1); clear Hq end.
  rewrite (M_bind_ok _ _ _ _ _ E1). cbn [app] in Hp1. do 9 registers.
  eexists. split; [reflexivity|eassumption].
Qed.

Lemma KeyCmp_eq s h key : in_width 32 (hd_type h) -> in_width 32 key ->
  (MessageHandler_KeyCmp s h key == 0) = (key == hd_type h).
Proof.
  intros Hh Hk. unfold MessageHandler_KeyCmp, to_int, u32, wrap, in_width in *.
  destruct (Z.eqb_spec key (hd_type h)) as [->|Hne]; [rewrite Z.sub_diag; done|]. apply Z.eqb_neq.
  destruct (Z.ltb_spec ((hd_type h - key) mod 2 ^ 32) (2 ^ 31)); [|pose proof (Z.mod_pos_bound (hd_type h - key) (2 ^ 32)); lia].
  intros Hm. apply Z.mod_divide in Hm as [q Hq]; [|lia]. nia.
Qed.

Lemma find_registered s key : in_width 32 key ->
  hd_codec <$> find_first (fun h => MessageHandler_KeyCmp s h key == 0) registered = handler_of key.
Proof.
  intros Hk.
  assert (E : forall xs, Forall (fun h => in_width 32 (hd_type h)) xs ->
    find_first (fun h => MessageHandler_KeyCmp s h key == 0) xs = find_first (fun h => key == hd_type h) xs).
  { induction 1 as [|h xs Hh _ IH]; simpl; [done|]. by rewrite KeyCmp_eq, IH. }
  rewrite E by (repeat (apply Forall_cons_2; [split; done|]); constructor). unfold registered, handler_of. simpl.
  repeat match goal with |- context [key == ?t] => destruct (Z.eqb_spec key t) as [->|]; [reflexivity|] end. reflexivity.
Qed.

(** The table of handlers: after [Message_Init] every message type of the system
    has the functions of its own file and [Message_Setup] finds them, and a message
    of any other type is refused.  The inspection output record is among the others:
    its handler is never registered. *)
Theorem Message_Setup_handlers : exists p, Message_Init [] = Some (Some p, []) /\
  handler_of MESSAGE_TYPE_OUTPUT_INSPECTION = None /\
  forall m, in_width 32 (m_type m) -> Message_Setup p (Some m) [] =
    match handler_of (m_type m) with
    | Some c => Some (true, Some (with_codec m c), [])
    | None => Some (false, Some m, [])
    end.
Proof.
  destruct Message_Init_run as (p & E & l & -> & Hc & Hp & Hk). exists (Some l). split_and!; [done..|].
  intros m Hm. rewrite <- (find_registered [] (m_type m) Hm).
  pose proof (find_plain l registered MessageHandler_KeyCmp (m_type m) [] Hc Hp Hk) as Ef.
  unfold Message_Setup. destruct (find_first _ registered) as [h|].
  - apply on_message_true. mm (eq_refl : ask m [] = Some (Some m, m, [])). by mm (lift_run _ m [] _ _ Ef).
  - apply on_message_false. mm (eq_refl : ask m [] = Some (Some m, m, [])). by apply MM_bind_fail, lift_run.
Qed.
End Handlers.

(** ** Witnesses *)

Module cnc_demo.
Definition dispatcher : UUIDListNode := mkUUIDNode (uuid_demo.uuid 11) NUGGET_TYPE_DISPATCHER None.
Definition types : option uuid_list := uuid_demo.add uuid_demo.list0 dispatcher.
Definition sg : UuidLists :=
  mkUuidLists (sg_DataTypeList json_demo.sg) (sg_IntelTypeList json_demo.sg) (sg_NtlvTypeList json_demo.sg)
    (sg_NtlvNameList json_demo.sg) None types.

Lemma nugget_entries : entries (UUID_Get_List sg UUID_TYPE_NUGGET_TYPE) [dispatcher].
Proof.
  apply (uuid_demo.add_entries _ []); [|done]. unfold uuid_demo.list0.
  destruct Create_List_ok as (l & -> & ?). done.
Qed.

Definition msg (b : Body) : Message := mkMessage 0 0 1 None (Some b) None None.
Definition received (t : string) : Message := mkMessage 0 0 1 None None (Some t) None.
Definition hello : MessageHello := mkHello (uuid_demo.uuid 11) (uuid_demo.uuid 4) 3 1 2 json_demo.words2 1 8080.
Definition request : MessageRegistrationRequest :=
  mkRegistrationRequest (uuid_demo.uuid 5) (uuid_demo.uuid 4) 2 (PLive [uuid_demo.uuid 6; uuid_demo.uuid 7]).
End cnc_demo.

(** A bound on concrete data, by evaluation. *)
Ltac by_evaluation := apply (bool_decide_unpack _); vm_compute; exact I.

Lemma Hello_roundtrip_witness :
  exists text m2, Hello_Serialize cnc_demo.sg (Some (cnc_demo.msg (inj cnc_demo.hello))) [] =
      Some (true, Some (with_serialized (cnc_demo.msg (inj cnc_demo.hello)) text (strlen text)), []) /\
    Hello_Deserialize cnc_demo.sg (Some (cnc_demo.received text)) [] = Some (true, Some m2, []).
Proof.
  destruct (Hello_roundtrip cnc_demo.sg (cnc_demo.msg (inj cnc_demo.hello)) cnc_demo.hello _ cnc_demo.dispatcher
    ["abc"; "de"] cnc_demo.nugget_entries) as (t & E & Ht).
  - reflexivity.
  - by_evaluation.
  - by_evaluation.
  - by_evaluation.
  - intros _. exact json_demo.words2_strings.
  - by_evaluation.
  - reflexivity.
  - reflexivity.
  - destruct (Ht (cnc_demo.received t) eq_refl) as (he' & E' & _). eexists t, _. split; [exact E|exact E'].
Defined.

Lemma RegistrationRequest_roundtrip_witness :
  exists text, RegistrationRequest_Serialize (Some (cnc_demo.msg (inj cnc_demo.request))) [] =
      Some (true, Some (with_serialized (cnc_demo.msg (inj cnc_demo.request)) text (strlen text)), []) /\
    RegistrationRequest_Deserialize (Some (cnc_demo.received text)) [] =
      Some (true, Some (with_body (cnc_demo.received text) (Some (inj cnc_demo.request))), []).
Proof.
  destruct (RegistrationRequest_roundtrip (cnc_demo.msg (inj cnc_demo.request)) cnc_demo.request
    [uuid_demo.uuid 6; uuid_demo.uuid 7]) as (t & E & Ht); [reflexivity|reflexivity|by_evaluation|reflexivity..|].
  exists t. split; [exact E|]. exact (Ht (cnc_demo.received t) eq_refl).
Defined.

Lemma ConfigUpdate_roundtrip_witness :
  exists text m2, ConfigUpdate_Serialize (Some (cnc_demo.msg (inj
      (mkConfigurationUpdate uuid_demo.list2 uuid_demo.list2 uuid_demo.list2)))) [] = Some (true, Some
      (with_serialized (cnc_demo.msg (inj (mkConfigurationUpdate uuid_demo.list2 uuid_demo.list2 uuid_demo.list2)))
        text (strlen text)), []) /\
    ConfigUpdate_Deserialize (Some (cnc_demo.received text)) [] = Some (true, Some m2, []).
Proof.
  destruct (ConfigUpdate_roundtrip
    (cnc_demo.msg (inj (mkConfigurationUpdate uuid_demo.list2 uuid_demo.list2 uuid_demo.list2))) _ _ _ _ _ _
    uuid_demo.list2_entries uuid_demo.list2_entries uuid_demo.list2_entries json_demo.nodes_ok json_demo.nodes_ok
    json_demo.nodes_ok eq_refl eq_refl) as (t & E & Ht).
  destruct (Ht (cnc_demo.received t) eq_refl) as (l1 & l2 & l3 & E' & _). eexists t, _. split; [exact E|exact E'].
Defined.

Lemma Message_Setup_handlers_witness : exists p, Message_Init [] = Some (Some p, []) /\
  Message_Setup p (Some (mkMessage MESSAGE_TYPE_HELLO 0 1 None None None None)) [] =
  Some (true, Some (mkMessage MESSAGE_TYPE_HELLO 0 1 None None None (Some C_Hello)), []).
Proof.
  destruct Message_Setup_handlers as (p & E & _ & Hp). exists p. split; [exact E|].
  exact (Hp (mkMessage MESSAGE_TYPE_HELLO 0 1 None None None None) ltac:(by_evaluation)).
Defined.

Lemma Message_nuggets_roundtrip_witness :
  exists m b, Message_Create_Directed MESSAGE_TYPE_PAUSE 1 None (uuid_demo.uuid 3) (uuid_demo.uuid 4) [] = Some (Some m, []) /\
    Message_Create_Broadcast MESSAGE_TYPE_PAUSE 1 None (uuid_demo.uuid 3) [] = Some (Some b, []) /\
    Message_Get_Nuggets (Some m) [] = Some (Some (uuid_demo.uuid 3, uuid_demo.uuid 4), []) /\
    Message_Get_Nuggets (Some b) [] = Some (Some (uuid_demo.uuid 3, uuid_null), []).
Proof.
  destruct (Message_nuggets_roundtrip MESSAGE_TYPE_PAUSE 1 None (uuid_demo.uuid 3) (uuid_demo.uuid 4))
    as (m & b & E1 & E2 & _ & _ & _ & _ & E3 & E4).
  exists m, b. split; [exact E1|]. split; [exact E2|]. split; [exact E3|exact E4].
Defined.
