(* ===== verification/MessageSafety.v ===== *)
(** * Safety of deserialization and destruction

    Deserializers run on texts that come from the network: whatever the text and the
    allocator, they must not crash, and what they leave behind must be destroyable.
    This file has the rules, the claims about every message, and the errors of the
    registration request and of two destructors. *)

From S2P Require Import Prelude CLib RzbList RzbListProps ListM Hash LibUuid Uuids Ntlv Blocks JsonC JsonBuffer JsonCodec JsonNtlv JsonObjects JsonSafety JsonProps JsonText Messages MessageCodecs CncMessages MessageProps MessageThms CncThms.

(** ** Readers *)

Section Readers.
Context `{JsonCLaws} `{LibUuidLaws} `{EVP}.
Implicit Types (p : option jobj) (n : option string).

Lemma Get_uint16_ensures p n : ensures (JsonBuffer_Get_uint16_t p n) (in_width 16).
Proof.
  unfold JsonBuffer_Get_uint16_t. m_step; [apply get_field_ensures|]. intros v _. m_step.
  m_step; [apply Parse_ensures|]. intros x _. m_step. unfold u16. apply wrap_range. lia.
Qed.

Lemma Get_Nugget_ensures p n : ensures (JsonBuffer_Get_Nugget p n) (fun _ => True).
Proof.
  unfold JsonBuffer_Get_Nugget. m_step; [apply get_field_ensures|]. intros v _. m_step. m_step.
  do 3 (m_step; [apply Get_UUID_ensures|]; intros ? _).
  do 3 (m_step; [apply Get_OptionalString_ensures|]; intros ? _). by m_step.
Qed.

Lemma Get_UUIDList_ensures p n : ensures (JsonBuffer_Get_UUIDList p n) (fun l => exists xs, entries (Some l) xs).
Proof.
  unfold JsonBuffer_Get_UUIDList. m_step; [apply get_field_ensures|]. intros v _. m_step.
  m_step; [apply create_ensures|]. intros l (Hc & Hp & _ & Hk & _).
  eapply ensures_bind; [apply (array_loop_ensures _ (fun q => exists xs, entries q xs))|].
  - intros e acc [xs Hx]. m_step. m_step. do 2 (m_step; [apply Get_String_ensures|]; intros ? _). m_step.
    m_step; [apply Get_OptionalString_ensures|]. intros d _. m_step. intros o.
    match goal with |- context [UUID_Add_List_Entry _ ?u ?nm ?de] =>
      destruct (Add_List_Entry_entries acc xs u nm de o Hx) as (r & o' & -> & Hr) end.
    exists r, o'. split; [done|]. intros p' ->. destruct (Hr p' eq_refl) as (? & _ & _ & ?). eauto.
  - exists [], l. by split_and!.
  - intros r (xs & l' & -> & Hl'). simpl. apply ensures_ret. exists xs, l'. by split.
Qed.

Lemma Get_StringList_ensures p n : ensures (JsonBuffer_Get_StringList p n) (fun l => exists xs, strings (Some l) xs).
Proof.
  unfold JsonBuffer_Get_StringList. m_step; [apply get_field_ensures|]. intros v _. m_step.
  m_step; [apply create_ensures|]. intros l (Hc & Hp & _ & Hk & _ & Hcl).
  eapply ensures_bind; [apply (array_loop_ensures _ (fun q => exists xs, strings q xs))|].
  - intros e acc (xs & l' & -> & Hc' & Hp' & Hk' & Hcl'). m_step. m_step. unfold StringList_Add, nonnull.
    rewrite !M_ret_bind. m_step. intros o. destruct (push_plain l' xs (json_object_get_string x) o Hc' Hp')
      as (l2 & E & Hme & Hc2). rewrite (M_bind_ok _ _ _ _ _ E).
    eexists _, _. split; [reflexivity|]. intros ? [= <-]. eexists _, l2.
    split_and!; [done|exact Hc2|by eapply plain_meta|..]; unfold meta in Hme; congruence.
  - exists [], l. by split_and!.
  - intros r (xs & l' & -> & Hl'). simpl. apply ensures_ret. exists xs, l'. by split.
Qed.

Lemma Get_uint8List_ensures p n : ensures (JsonBuffer_Get_uint8List p n) (fun _ => True).
Proof.
  unfold JsonBuffer_Get_uint8List. m_step; [apply get_field_ensures|]. intros v _. m_step. cbv zeta.
  eapply (ensures_bind _ _ (fun _ => True)); [destruct (_ =? _)%nat; [by m_step|apply ensures_alloc]|]. intros [] _.
  apply (array_loop_ensures _ (fun _ => True)); [|done]. intros e acc _. m_step. m_step. by m_step.
Qed.

Lemma unchecked_ensures {A} (c : M A) Q : ensures c Q -> ensures (unchecked c) (fun _ => True).
Proof. intros Hc o. destruct (Hc o) as (r & o' & E & _). unfold unchecked. rewrite E. by eexists _, _. Qed.

Lemma is_dispatcher_ensures sg nts u : entries (UUID_Get_List sg UUID_TYPE_NUGGET_TYPE) nts ->
  ensures (is_dispatcher sg u) (fun _ => True).
Proof.
  intros He o. unfold is_dispatcher. rewrite (Is_Named_UUID_entries sg _ nts _ u o He). by eexists _, _.
Qed.
End Readers.

(** ** Functions that only assign fields of the body *)

Section Keeps.
Context `{EVP} `{LibUuid}.
Context {B : Type} `{!BodyType B}.

(** The function returns, and leaves the message as it was but for the body, which
    stays of its type. *)
Definition keeps_body {A} (c : MM A) : Prop := forall m b o, m_message m = Some (inj b) ->
  exists r b' o', c m o = Some (r, with_body m (Some (inj b')), o').

Lemma with_body_same m x : m_message m = x -> with_body m x = m.
Proof. intros <-. by destruct m. Qed.

Lemma keeps_ret {A} (x : A) : keeps_body (mret x).
Proof. intros m b o Hm. exists (Some x), b, o. by rewrite (with_body_same m _ Hm). Qed.

Lemma keeps_bind {A C} (c : MM A) (k : A -> MM C) : keeps_body c -> (forall x, keeps_body (k x)) -> keeps_body (c ≫= k).
Proof.
  intros Hc Hk m b o Hm. destruct (Hc m b o Hm) as (r & b1 & o1 & E). unfold mbind, MM_bind. rewrite E.
  destruct r as [x|]; [|by eexists _, _, _].
  destruct (Hk x (with_body m (Some (inj b1))) b1 o1 eq_refl) as (r2 & b2 & o2 & E2). rewrite E2. by eexists _, _, _.
Qed.

Lemma keeps_lift {A} (c : M A) Q : ensures c Q -> keeps_body (lift c).
Proof.
  intros Hc m b o Hm. destruct (Hc o) as (r & o' & E & _). exists r, b, o'.
  rewrite (with_body_same m _ Hm). by apply lift_run.
Qed.

Lemma keeps_get_body : keeps_body (get_body (B := B)).
Proof. intros m b o Hm. exists (Some b), b, o. rewrite (with_body_same m _ Hm). by apply get_body_run. Qed.

Lemma keeps_store (f : B -> B) : keeps_body (store f).
Proof. intros m b o Hm. eexists _, _, _. by apply body_store_run. Qed.

Lemma keeps_fill {A} (set : A -> B -> B) (get : M A) Q : ensures get Q -> keeps_body (fill set get).
Proof. intros Hg. apply keeps_bind; [by eapply keeps_lift|]. intros x. apply keeps_store. Qed.

(** A deserializer that allocates its body, parses the text and assigns fields. *)
Definition receives (c : MM unit) : Prop := forall m t o, m_serialized m = Some t ->
  exists r m' o', c m o = Some (r, m', o') /\
    (r = None /\ m' = with_body m None \/ exists b : B, m' = with_body m (Some (inj b))).
End Keeps.

Section Receives.
Context `{EVP} `{LibUuid} `{JsonTextLaws}.
Context {B : Type} `{!BodyType B}.

Lemma receives_parse (zero : B) (k : jobj -> MM unit) :
  (forall j, (json_depth j < JSON_TOKENER_DEFAULT_DEPTH)%nat -> keeps_body (B := B) (k j)) ->
  receives (B := B) (new_body zero ;; msg ← parse_serialized; k msg).
Proof.
  intros Hk m t o Ht. unfold mbind at 1, MM_bind at 1, new_body. destruct (alloc_next o) as [[] o1]; cbv iota beta.
  2: { eexists _, _, _. split; [reflexivity|]. by left. }
  set (m1 := with_body m (Some (inj zero))).
  assert (Hp : exists r o2, parse_serialized m1 o1 = Some (r, m1, o2) /\
    forall j, r = Some j -> (json_depth j < JSON_TOKENER_DEFAULT_DEPTH)%nat).
  { unfold parse_serialized. rewrite (MM_bind_ok ask _ m1 o1 m1 m1 o1 eq_refl). unfold lift.
    change (m_serialized m1) with (m_serialized m). rewrite Ht. unfold deref. rewrite M_ret_bind, alloc_bind.
    destruct (fst (alloc_next o1)); [|by eexists None, _].
    exists (json_tokener_parse t). eexists. split; [unfold nonnull; by destruct (json_tokener_parse t)|].
    intros j E. by eapply parse_depth. }
  destruct Hp as (r & o2 & Ep & Hj). unfold mbind, MM_bind. rewrite Ep. destruct r as [j|].
  - destruct (Hk j (Hj j eq_refl) m1 zero o2 eq_refl) as (r3 & b3 & o3 & E3). rewrite E3.
    eexists _, _, _. split; [reflexivity|]. right. by exists b3.
  - eexists _, _, _. split; [reflexivity|]. right. by exists zero.
Qed.
End Receives.

#[export] Hint Resolve Get_uint64_ensures Get_uint32_ensures Get_uint16_ensures Get_uint8_ensures : rzb.
#[export] Hint Resolve Get_String_ensures Get_UUID_ensures Get_BlockId_ensures Get_EventId_ensures : rzb.
#[export] Hint Resolve Get_Nugget_ensures Get_UUIDList_ensures Get_StringList_ensures Get_uint8List_ensures : rzb.
#[export] Hint Resolve keeps_ret keeps_store keeps_get_body : rzb.

(** One field after the other. *)
Ltac keeps_step :=
  lazymatch goal with
  | |- keeps_body (mbind _ _) => apply keeps_bind; [|intros ?]
  | |- keeps_body (fill _ _) => eapply keeps_fill; solve [eauto with rzb]
  | |- keeps_body (lift _) => eapply keeps_lift; solve [eauto with rzb]
  | |- keeps_body (if ?b then _ else _) => destruct b
  | |- keeps_body _ => solve [auto with rzb]
  end.

(** ** What a message owns *)

(** A decidable claim about concrete data, by evaluation. *)
Ltac by_decision := match goal with |- ?P => refine (bool_decide_unpack P _); vm_compute; exact I end.

Section Owned.
Context `{EVP} `{LibUuid}.

Definition owned_ptr {A} (field : string) (p : heap_ptr A) : list part :=
  match p with PLive _ => [P_field field] | _ => [] end.

(** The pointers of a body that are not NULL, in the order of the structure. *)
Definition owned_fields (b : Body) : list part :=
  match b with
  | B_BlockSubmission b => freed "pEvent" (bs_pEvent b)
  | B_CacheReq b => freed "pId" (cq_pId b)
  | B_CacheResp b => freed "pId" (cr_pId b)
  | B_JudgmentSubmission b => freed "pJudgment" (js_pJudgment b)
  | B_InspectionSubmission b =>
      freed "pBlock" (is_pBlock b) ++ freed "eventId" (is_eventId b) ++
      freed "pEventMetadata" (is_pEventMetadata b) ++ freed "localityList" (is_localityList b)
  | B_AlertPrimary b =>
      freed "nugget" (ap_nugget b) ++ freed "block" (ap_block b) ++ freed "event" (ap_event b) ++
      freed "metadata" (ap_metadata b) ++ freed "message" (ap_message b)
  | B_AlertChild b => freed "nugget" (ac_nugget b) ++ freed "block" (ac_block b) ++ freed "child" (ac_child b)
  | B_OutputEvent b => freed "nugget" (oe_nugget b) ++ freed "event" (oe_event b)
  | B_OutputInspection b => freed "nugget" (oi_nugget b) ++ freed "blockId" (oi_blockId b)
  | B_Error b => freed "sMessage" (er_sMessage b)
  | B_Hello b => freed "addressList" (he_addressList b)
  | B_RegistrationRequest b => owned_ptr "pDataTypeList" (rr_pDataTypeList b)
  | B_ConfigurationUpdate b =>
      freed "ntlvTypes" (cu_ntlvTypes b) ++ freed "ntlvNames" (cu_ntlvNames b) ++ freed "dataTypes" (cu_dataTypes b)
  | B_ConfigurationAck b => []
  | B_Terminate b => freed "sTerminateReason" (te_sTerminateReason b)
  end.

(** Everything a message owns. *)
Definition owned (m : Message) : list part :=
  [P_message] ++ released P_headers (m_headers m) ++ released P_serialized (m_serialized m) ++
  match m_message m with Some b => P_body :: owned_fields b | None => [] end.

(** The body is NULL or of the structure the functions of the codec expect. *)
Definition body_fits (c : Codec) (x : option Body) : Prop :=
  match x with
  | None => True
  | Some b =>
      match c, b with
      | C_BlockSubmission, B_BlockSubmission _ | C_CacheReq, B_CacheReq _ | C_CacheResp, B_CacheResp _
      | C_InspectionSubmission, B_InspectionSubmission _ | C_JudgmentSubmission, B_JudgmentSubmission _
      | C_AlertPrimary, B_AlertPrimary _ | C_AlertChild, B_AlertChild _ | C_OutputEvent, B_OutputEvent _
      | C_OutputInspection, B_OutputInspection _ | C_Error, B_Error _ | C_Hello, B_Hello _
      | C_RegistrationRequest, B_RegistrationRequest _ | C_ConfigUpdate, B_ConfigurationUpdate _
      | C_ConfigAck, B_ConfigurationAck _ | C_Terminate, B_Terminate _ => True
      | _, _ => False
      end
  end.

(** The list of data types of a registration request is not dangling. *)
Definition not_dangling (x : option Body) : Prop :=
  match x with Some (B_RegistrationRequest b) => rr_pDataTypeList b <> PFreed | _ => True end.

Lemma destroy_owned c m : body_fits c (m_message m) -> not_dangling (m_message m) -> c <> C_Error ->
  (c = C_ConfigUpdate -> m_message m <> None) ->
  exists ps, destroy c (Some m) = Some ps /\ ps ≡ₚ owned m.
Proof.
  intros Hf Hn He Hc. unfold owned. destruct m as [ty le ve hd [b|] se co]; cbn [m_message] in *.
  - destruct c, b; cbn [body_fits] in Hf; try done; unfold destroy, ConfigUpdate_Destroy, Message_Destroy; simpl;
      try (destruct (rr_pDataTypeList b) eqn:Ep; simpl in Hn |- *; try congruence);
      eexists; (split; [reflexivity|]); unfold freed; solve_Permutation.
  - assert (E : destroy c (Some (mkMessage ty le ve hd None se co)) =
      Some (Message_Destroy (Some (mkMessage ty le ve hd None se co)))) by (destruct c; try done; naive_solver).
    rewrite E. eexists. split; [reflexivity|]. simpl. solve_Permutation.
Qed.

Lemma owned_NoDup m : NoDup (owned m).
Proof.
  unfold owned. destruct m as [ty le ve [hd|] [b|] [se|] co]; cbn [m_headers m_serialized m_message];
    try (by_decision);
    destruct b as [b|b|b|b|b|b|b|b|b|b|b|b|b|b|b]; destruct b; unfold owned_fields; body_fields; unfold freed, released;
    repeat match goal with |- context [match ?x with Some _ => _ | None => _ end] => is_var x; destruct x end;
    try match goal with |- context [owned_ptr _ ?x] => destruct x end;
    by_decision.
Qed.
End Owned.

(** ** Theorems *)

Section Theorems.
Context `{EVP} `{LibUuidLaws} `{JsonTextLaws} `{Base64} `{InetLaws}.
Variable sg : UuidLists.
Variable types nts : list UUIDListNode.
Hypothesis types_entries : entries (UUID_Get_List sg UUID_TYPE_NTLV_TYPE) types.
Hypothesis nuggets_entries : entries (UUID_Get_List sg UUID_TYPE_NUGGET_TYPE) nts.

Lemma event_keeps {B} `{!BodyType B} (set : Event -> B -> B) j k : (json_depth j < JSON_TOKENER_DEFAULT_DEPTH)%nat ->
  keeps_body (fill set (JsonBuffer_Get_Event sg JSON_TOKENER_DEFAULT_DEPTH (Some j) k)).
Proof. intros Hd. eapply keeps_fill, (Get_Event_ensures sg types types_entries). exact Hd. Qed.

Lemma block_keeps {B} `{!BodyType B} (set : Block -> B -> B) j k : (json_depth j < JSON_TOKENER_DEFAULT_DEPTH)%nat ->
  keeps_body (fill set (JsonBuffer_Get_Block sg JSON_TOKENER_DEFAULT_DEPTH (Some j) k)).
Proof. intros Hd. eapply keeps_fill, (Get_Block_ensures sg types types_entries). exact Hd. Qed.

Lemma metadata_keeps {B} `{!BodyType B} (set : ntlv_list -> B -> B) p k :
  keeps_body (fill set (JsonBuffer_Get_NTLVList sg p k)).
Proof. eapply keeps_fill, (Get_NTLVList_ensures sg types types_entries). Qed.

Lemma judgment_keeps {B} `{!BodyType B} (set : Judgment -> B -> B) p k :
  keeps_body (fill set (JsonBuffer_Get_Judgment sg p k)).
Proof. eapply keeps_fill, (Get_Judgment_ensures sg types types_entries). Qed.

Lemma receives_fits {B} `{!BodyType B} c (zero : B) (k : jobj -> MM unit) m t o :
  (forall j, (json_depth j < JSON_TOKENER_DEFAULT_DEPTH)%nat -> keeps_body (B := B) (k j)) ->
  m_serialized m = Some t -> (forall b : B, body_fits c (Some (inj b))) ->
  exists ok x o', on_message (new_body zero ;; msg ← parse_serialized; k msg) (Some m) o =
    Some (ok, Some (with_body m x), o') /\ body_fits c x /\ (ok = true -> x <> None).
Proof.
  intros Hk Ht Hf. destruct (receives_parse zero k Hk m t o Ht) as (r & m' & o' & E & Hm').
  unfold on_message. rewrite E. cbn [mbind option_bind]. destruct Hm' as [[-> ->]|[b ->]].
  - by exists false, None, o'.
  - eexists _, (Some (inj b)), o'. by split_and!.
Qed.

Lemma deserialize_fits c m t o : c <> C_RegistrationRequest -> c <> C_Empty -> m_serialized m = Some t ->
  exists ok x o', deserialize sg c (Some m) o = Some (ok, Some (with_body m x), o') /\
    body_fits c x /\ (ok = true -> x <> None).
Proof.
  intros Hr He Ht.
  destruct c; try done; unfold deserialize; (eapply receives_fits; [intros j Hj|exact Ht|intros b; exact I]);
    repeat first [ keeps_step | by apply event_keeps | by apply block_keeps | apply metadata_keeps | apply judgment_keeps
                 | by eapply keeps_fill, unchecked_ensures, Get_String_ensures
                 | by eapply keeps_lift, is_dispatcher_ensures ].
Qed.

(** C3. Deserialization is safe.  Whatever the text and whichever allocations fail, a
    deserializer other than that of the registration request returns, changes
    nothing of the message but its body and leaves a body of its own type or none,
    and a body when it succeeds. *)
Theorem deserialize_safe c m t o : c <> C_RegistrationRequest -> c <> C_Empty -> m_serialized m = Some t ->
  exists ok x o', deserialize sg c (Some m) o = Some (ok, Some (with_body m x), o') /\
    body_fits c x /\ (ok = true -> x <> None).
Proof.
  exact (deserialize_fits c m t o).
Qed.


(** Two destructors are not like the others: that of the error message releases
    the body and its text and leaks the message, its headers and its serialized
    text; that of the configuration update dereferences NULL when the allocation of
    the body failed. *)
Theorem destructor_defects m t :
  (exists ps, Error_Destroy (Some (with_body m (Some (inj (mkError (Some t)))))) = Some ps /\
     (P_message ∉ ps) /\ (P_headers ∉ ps) /\ (P_serialized ∉ ps)) /\
  (exists m' o, ConfigUpdate_Deserialize (Some m) [false] = Some (false, Some m', o) /\
     ConfigUpdate_Destroy (Some m') = None).
Proof.
  split.
  - eexists. split; [reflexivity|]. split_and!; by_decision.
  - by eexists _, _.
Qed.

(** The start of the deserialization of a registration request with these types. *)
Lemma reg_req_start m j u v : m_serialized m = Some (json_object_to_json_string j) ->
  (json_depth j < JSON_TOKENER_DEFAULT_DEPTH)%nat ->
  JsonBuffer_Get_UUID (Some j) (Some "Nugget_Type") [] = Some (Some u, []) ->
  JsonBuffer_Get_UUID (Some j) (Some "App_Type") [] = Some (Some v, []) ->
  forall object, json_object_object_get j "Data_Types" = Some object ->
  RegistrationRequest_Deserialize (Some m) [] =
  on_message (fun m => (n ← lift (deref (if has_type object json_type_array then Some (json_object_array_length object) else None));
    let count := u32 (Z.of_nat n) in
    store (set_rr_iDataTypeCount count) ;; lift alloc ;; read_data_types object 0 (Z.to_nat count) [] : MM unit) m)
    (Some (with_body m (Some (inj (mkRegistrationRequest u v 0 PNull))))) [].
Proof.
  intros Hs Hd Hu Hv object Ho. unfold RegistrationRequest_Deserialize, on_message.
  mm (new_body_run zero_RegistrationRequest m).
  assert (Hp : parse_serialized (with_body m (Some (inj zero_RegistrationRequest))) [] =
    Some (Some j, with_body m (Some (inj zero_RegistrationRequest)), [])).
  { unfold parse_serialized. rewrite (MM_bind_ok ask _ _ [] _ _ [] eq_refl). apply lift_run.
    cbn [m_serialized with_body]. rewrite Hs. unfold deref. rewrite M_ret_bind, (M_bind_ok _ _ _ _ _ alloc_ok).
    by rewrite (parse_text _ Hd). }
  mm Hp. get Hu. get Hv. rewrite Ho. done.
Qed.

(** A registration request whose Data_Types is not an array makes the receiver
    call [json_object_array_length] on a value that has no length. *)
Theorem RegistrationRequest_not_array m j u v object : m_serialized m = Some (json_object_to_json_string j) ->
  (json_depth j < JSON_TOKENER_DEFAULT_DEPTH)%nat ->
  JsonBuffer_Get_UUID (Some j) (Some "Nugget_Type") [] = Some (Some u, []) ->
  JsonBuffer_Get_UUID (Some j) (Some "App_Type") [] = Some (Some v, []) ->
  json_object_object_get j "Data_Types" = Some object -> json_object_get_type object <> json_type_array ->
  RegistrationRequest_Deserialize (Some m) [] = None.
Proof.
  intros Hs Hd Hu Hv Ho Ht. rewrite (reg_req_start m j u v Hs Hd Hu Hv object Ho). unfold on_message.
  unfold has_type. by rewrite bool_decide_eq_false_2.
Qed.

(** A registration request whose first data type is not the text of a UUID is
    refused, and the list of data types is freed but stays in the body: destroying
    the refused message frees it a second time. *)
Theorem RegistrationRequest_double_free m j u v object item : m_serialized m = Some (json_object_to_json_string j) ->
  (json_depth j < JSON_TOKENER_DEFAULT_DEPTH)%nat ->
  JsonBuffer_Get_UUID (Some j) (Some "Nugget_Type") [] = Some (Some u, []) ->
  JsonBuffer_Get_UUID (Some j) (Some "App_Type") [] = Some (Some v, []) ->
  json_object_object_get j "Data_Types" = Some object -> json_object_get_type object = json_type_array ->
  u32 (Z.of_nat (json_object_array_length object)) <> 0 -> json_object_array_get_idx object 0 = Some item ->
  uuid_parse (json_object_get_string item) = None ->
  exists m', RegistrationRequest_Deserialize (Some m) [] = Some (false, Some m', []) /\
    RegistrationRequest_Destroy (Some m') = None.
Proof.
  intros Hs Hd Hu Hv Ho Ht Hl Hi Hp. rewrite (reg_req_start m j u v Hs Hd Hu Hv object Ho).
  eexists. split; [apply on_message_false|].
  - unfold has_type. rewrite bool_decide_eq_true_2 by done. erewrite MM_bind_ok; [|by apply lift_run]. cbv zeta.
    erewrite MM_bind_ok; [|by apply body_store_run]. erewrite MM_bind_ok; [|apply lift_run, alloc_ok].
    destruct (Z.to_nat (u32 _)) as [|n] eqn:En.
    { exfalso. apply Hl. pose proof (wrap_range 32 (Z.of_nat (json_object_array_length object))) as [? _]; [lia|].
      unfold u32 in *. lia. }
    cbn [read_data_types]. rewrite Hi. cbn [mbind option_bind]. rewrite Hp. erewrite MM_bind_ok; [|by apply body_store_run].
    by apply lift_run.
  - reflexivity.
Qed.
End Theorems.

(** ** Witnesses *)

Lemma deserialize_safe_witness :
  exists ok x o', deserialize cnc_demo.sg C_Hello (Some (cnc_demo.received "{")) [true; false] =
      Some (ok, Some (with_body (cnc_demo.received "{") x), o') /\ body_fits C_Hello x /\ (ok = true -> x <> None).
Proof.
  exact (deserialize_safe cnc_demo.sg json_demo.types _ json_demo.types_entries cnc_demo.nugget_entries C_Hello
    (cnc_demo.received "{") "{" [true; false] ltac:(discriminate) ltac:(discriminate) eq_refl).
Defined.

Module safety_demo.
(** A registration request whose types are good and whose data types are [v]. *)
Definition request (v : jobj) : jobj :=
  build [("Nugget_Type", enc_uuid (uuid_demo.uuid 5)); ("App_Type", enc_uuid (uuid_demo.uuid 4)); ("Data_Types", v)].
Definition msg (v : jobj) : Message := cnc_demo.received (json_object_to_json_string (request v)).
End safety_demo.


Lemma RegistrationRequest_not_array_witness :
  RegistrationRequest_Deserialize (Some (safety_demo.msg (enc_uint 1))) [] = None.
Proof.
  refine (RegistrationRequest_not_array (safety_demo.msg (enc_uint 1)) (safety_demo.request (enc_uint 1)) (uuid_demo.uuid 5) (uuid_demo.uuid 4)
    (enc_uint 1) eq_refl _ _ _ _ _); [by_evaluation|reflexivity|reflexivity|reflexivity|discriminate].
Defined.

Lemma RegistrationRequest_double_free_witness :
  exists m', RegistrationRequest_Deserialize (Some (safety_demo.msg (arr [json_object_new_string "x"]))) [] =
      Some (false, Some m', []) /\ RegistrationRequest_Destroy (Some m') = None.
Proof.
  refine (RegistrationRequest_double_free (safety_demo.msg (arr [json_object_new_string "x"])) (safety_demo.request (arr [json_object_new_string "x"]))
    (uuid_demo.uuid 5) (uuid_demo.uuid 4) (arr [json_object_new_string "x"]) (json_object_new_string "x")
    eq_refl _ _ _ _ _ _ _ _); [by_evaluation|reflexivity..| |reflexivity|reflexivity].
  discriminate.
Defined.
