(* ===== verification/Entities.v ===== *)
(** * Connected entities: src/connected_entity.c

    The table of the nuggets this one has heard from.  A hello refreshes the entry
    of its sender or makes one; a timer prunes the entries that have been silent for
    too long and tells the listeners.  The entries of dispatchers carry what a client
    needs to reach them.

    Entities live in a finite map by address ([st_entities]); the list holds their
    addresses, and reading an address that is not in the map is a crash ([None]).
    Listeners are code of other nuggets: a call to one is recorded in [st_calls].
    The registry of transports (src/transfer/core.c) is here because a dispatcher is
    usable when its protocol is in it. *)

From S2P Require Import Prelude CLib RzbList RzbListProps ListM Hash LibUuid Uuids Ntlv Blocks JsonC JsonBuffer Messages MessageCodecs CncMessages.

Definition SEARCH_KEY_NUGGET_ID : Z := 1.
Definition SEARCH_KEY_APP_TYPE : Z := 2.
Definition SEARCH_KEY_NUGGET_TYPE : Z := 4.
Definition SEARCH_KEY_DD : Z := 8.
Definition SEARCH_KEY_LOCALITY : Z := 16.
Definition SEARCH_KEY_USABLE : Z := 32.
Definition DISP_HELLO_FLAG_LS : Z := 2.
Definition DISP_HELLO_FLAG_DD : Z := 4.

(** ** Transports *)

Inductive TransferStatus := TRANSFER_OK | TRANSFER_FAIL_DISPATCHER | TRANSFER_FAIL_LOCAL.

Global Instance TransferStatus_eq_dec : EqDecision TransferStatus.
Proof. solve_decision. Defined.

(** The store and fetch functions of a descriptor are code of the transports; a
    descriptor is known by its id. *)
Record TransportDescriptor := mkTransport { td_id : Z; td_name : string }.

Definition Transport_Cmp (s : allocs) (a b : TransportDescriptor) : Z := td_id a - td_id b.
Definition Transport_KeyCmp (s : allocs) (a : TransportDescriptor) (key : Z) : Z := td_id a - key.

Abbreviation transport_list := (vlist Z TransportDescriptor).

(** [Transfer_Init]: the list; it has no destructor and no clone function. *)
Definition Transport_List_Create : M transport_list := fun o =>
  let '(b1, o1) := alloc_next o in
  if negb b1 then Some (None, o1)
  else
    let '(b2, o2) := alloc_next o1 in
    Some (List_Create true b2 true LIST_MODE_GENERIC (Some Transport_Cmp) (Some Transport_KeyCmp) None None None None, o2).

Definition Transport_Register (desc : TransportDescriptor) (sg_transportList : option transport_list)
    : M (bool * option transport_list) := list_push sg_transportList desc.

Definition Transport_IsSupported (sg_transportList : option transport_list) (protocol : Z) : option bool :=
  '(trans, _, _) ← List_Find sg_transportList (Some protocol) [];
  Some (match trans with Some _ => true | None => false end).

(** ** Entities *)

(** A listener: the address of the structure and that of its function. *)
Record ConnectedEntityHook := mkHook { h_address : positive; h_entityRemoved : positive }.

Section Data.
Context `{EVP} `{LibUuid}.

Record DispatcherEntity := mkDispatcherEntity {
  de_priority : Z;
  de_flags : Z;
  de_addressList : option string_list;
  de_protocol : Z;
  de_port : Z;
  de_usable : bool
}.

Record ConnectedEntity := mkConnectedEntity {
  ce_uuidNuggetId : uuid_t;
  ce_uuidNuggetType : uuid_t;
  ce_uuidApplicationType : uuid_t;
  ce_tTimeOfLastHello : Z;
  ce_locality : Z;
  ce_dispatcher : option DispatcherEntity
}.

Record ConnectedEntityKey := mkEntityKey {
  k_searchKeys : Z;
  k_nuggetId : option uuid_t;
  k_appType : option uuid_t;
  k_nuggetType : option uuid_t;
  k_locality : Z
}.

Record Store := mkStore {
  st_entities : gmap positive ConnectedEntity;
  st_calls : list (positive * ConnectedEntity * Z);
  st_allocs : allocs
}.

Definition set_entities (s : Store) (m : gmap positive ConnectedEntity) : Store := mkStore m (st_calls s) (st_allocs s).
Definition set_calls (s : Store) (c : list (positive * ConnectedEntity * Z)) : Store :=
  mkStore (st_entities s) c (st_allocs s).
Definition set_allocs (s : Store) (o : allocs) : Store := mkStore (st_entities s) (st_calls s) o.

Abbreviation entity_list := (List_t Store ConnectedEntityKey positive).
Abbreviation hook_list := (List_t Store unit ConnectedEntityHook).

(** The static variables of the file; of the timer, whether it runs. *)
Record Table := mkTable {
  sg_pEntityList : option entity_list;
  sg_pHookList : option hook_list;
  timer : bool;
  t_store : Store
}.

(** The values of the configuration the file reads. *)
Record EntityConfig := mkEntityConfig {
  DeadTime : Z;
  LocalityId : Z;
  LocalityBackupOrder : list Z
}.

Definition set_hello_time (t : Z) (e : ConnectedEntity) : ConnectedEntity :=
  mkConnectedEntity (ce_uuidNuggetId e) (ce_uuidNuggetType e) (ce_uuidApplicationType e) t (ce_locality e) (ce_dispatcher e).
Definition set_dispatcher (d : option DispatcherEntity) (e : ConnectedEntity) : ConnectedEntity :=
  mkConnectedEntity (ce_uuidNuggetId e) (ce_uuidNuggetType e) (ce_uuidApplicationType e) (ce_tTimeOfLastHello e)
    (ce_locality e) d.
Definition set_flags_priority (flags priority : Z) (d : DispatcherEntity) : DispatcherEntity :=
  mkDispatcherEntity priority flags (de_addressList d) (de_protocol d) (de_port d) (de_usable d).
Definition set_usable (b : bool) (d : DispatcherEntity) : DispatcherEntity :=
  mkDispatcherEntity (de_priority d) (de_flags d) (de_addressList d) (de_protocol d) (de_port d) b.
Definition set_addressList (l : option string_list) (d : DispatcherEntity) : DispatcherEntity :=
  mkDispatcherEntity (de_priority d) (de_flags d) l (de_protocol d) (de_port d) (de_usable d).

(** Computations on the table; [None] is a crash. *)
Definition TM (A : Type) : Type := Table -> option (A * Table).
End Data.

Abbreviation entity_list := (List_t Store ConnectedEntityKey positive).
Abbreviation hook_list := (List_t Store unit ConnectedEntityHook).

Global Instance TM_ret `{EVP} `{LibUuid} : MRet TM := fun A x t => Some (x, t).
Global Instance TM_bind `{EVP} `{LibUuid} : MBind TM := fun A B f m t =>
  match m t with Some (x, t') => f x t' | None => None end.

Section Operations.
Context `{EVP} `{LibUuid}.
Variable sg : UuidLists.
Variable cfg : EntityConfig.
Variable transports : option transport_list.

(** *** The table *)

Definition table : TM Table := fun t => Some (t, t).
Definition crash {A} : TM A := fun _ => None.

Definition with_store (t : Table) (s : Store) : Table := mkTable (sg_pEntityList t) (sg_pHookList t) (timer t) s.
Definition with_entities (t : Table) (p : option entity_list) (s : Store) : Table :=
  mkTable p (sg_pHookList t) (timer t) s.

(** Allocating code. *)
Definition run {A} (c : M A) : TM (option A) := fun t =>
  '(r, o) ← c (st_allocs (t_store t)); Some (r, with_store t (set_allocs (t_store t) o)).

(** [*entity] and its assignment. *)
Definition entity_at (a : positive) : TM ConnectedEntity := fun t =>
  e ← st_entities (t_store t) !! a; Some (e, t).
Definition assign (a : positive) (f : ConnectedEntity -> ConnectedEntity) : TM unit := fun t =>
  e ← st_entities (t_store t) !! a;
  Some ((), with_store t (set_entities (t_store t) (<[a := f e]> (st_entities (t_store t))))).

(** The address of a new entity. *)
Definition new_address (e : ConnectedEntity) : TM positive := fun t =>
  let s := t_store t in
  let a := fresh (dom (st_entities s)) in
  Some (a, with_store t (set_entities s (<[a := e]> (st_entities s)))).

(** The list calls on the entity list. *)
Definition entity_find (key : ConnectedEntityKey) : TM (option positive) := fun t =>
  '(r, p, s) ← List_Find (sg_pEntityList t) (Some key) (t_store t); Some (r, with_entities t p s).
Definition entity_each {U} (op : positive -> U -> Store -> option (Z * U * Store)) (u : U) : TM U := fun t =>
  '(_, p, u', s) ← List_ForEach (sg_pEntityList t) (Some op) u (t_store t); Some (u', with_entities t p s).
Definition entity_push (a : positive) : TM unit := fun t =>
  let '(ok, o) := alloc_next (st_allocs (t_store t)) in
  '(_, p) ← List_Push ok (sg_pEntityList t) a; Some ((), with_entities t p (set_allocs (t_store t) o)).

(** *** Callbacks *)

Definition ConnectedEntity_IsDispatcherType (nuggetType : uuid_t) : option bool :=
  '(isDispatcher, _) ← is_dispatcher sg nuggetType []; Some (default false isDispatcher).

Definition has_key (key : ConnectedEntityKey) (bit : Z) : bool := Z.land (k_searchKeys key) bit != 0.

(** One test of the key: a match makes the result 0, another value undoes a match. *)
Definition narrow (b : bool) (ret : Z) : Z := if b then 0 else if ret == 0 then -1 else ret.

(** The test of a UUID; a missing one ends the comparison with -1. *)
Definition narrow_uuid (key : ConnectedEntityKey) (bit : Z) (id : option uuid_t) (u : uuid_t) (ret : Z) : option Z :=
  if has_key key bit then id ← id; Some (narrow (uuid_compare u id == 0) ret) else Some ret.

Definition ConnectedEntity_KeyCmp (s : Store) (a : positive) (key : ConnectedEntityKey) : Z :=
  match st_entities s !! a with
  | None => -1
  | Some entity =>
      default (-1) (
        ret ← narrow_uuid key SEARCH_KEY_NUGGET_ID (k_nuggetId key) (ce_uuidNuggetId entity) (-1);
        ret ← narrow_uuid key SEARCH_KEY_APP_TYPE (k_appType key) (ce_uuidApplicationType entity) ret;
        ret ← narrow_uuid key SEARCH_KEY_NUGGET_TYPE (k_nuggetType key) (ce_uuidNuggetType entity) ret;
        let ret := match ce_dispatcher entity with
          | Some d => if has_key key SEARCH_KEY_DD then narrow (Z.land (de_flags d) DISP_HELLO_FLAG_DD != 0) ret else ret
          | None => ret
          end in
        let ret := if has_key key SEARCH_KEY_LOCALITY then narrow (ce_locality entity == k_locality key) ret else ret in
        Some match ce_dispatcher entity with
          | Some d => if has_key key SEARCH_KEY_USABLE then narrow (de_usable d) ret else ret
          | None => ret
          end)
  end.

Definition ConnectedEntity_Cmp (s : Store) (a b : positive) : Z := if decide (a = b) then 0 else -1.

Definition ConnectedEntity_Destroy (entity : positive) (s : Store) : Store :=
  set_entities s (delete entity (st_entities s)).
Definition ConnectedEntity_Delete (a : positive) (s : Store) : Store := ConnectedEntity_Destroy a s.

Definition ConnectedEntityHook_KeyCmp (s : Store) (a : ConnectedEntityHook) (id : unit) : Z := -1.
Definition ConnectedEntityHook_Cmp (s : Store) (a b : ConnectedEntityHook) : Z :=
  if decide (h_address a = h_address b) then 0 else -1.
Definition ConnectedEntityHook_Delete (a : ConnectedEntityHook) (s : Store) : Store := s.

(** *** Start and stop *)

(** [List_Create (LIST_MODE_GENERIC, ...)] without clone and lock functions. *)
Definition new_list {Key Item} (cmp : Store -> Item -> Item -> Z) (keyCmp : Store -> Item -> Key -> Z)
    (destroy : option (Item -> Store -> Store)) : TM (option (List_t Store Key Item)) := fun t =>
  let '(b1, o1) := alloc_next (st_allocs (t_store t)) in
  let '(b2, o2) := if b1 : bool then alloc_next o1 else (true, o1) in
  Some (List_Create b1 b2 true LIST_MODE_GENERIC (Some cmp) (Some keyCmp) destroy None None None,
        with_store t (set_allocs (t_store t) o2)).

Definition ConnectedEntityList_Start (timer_ok : bool) : TM bool :=
  t ← table;
  match sg_pEntityList t with
  | Some _ => mret false
  | None =>
      entities ← new_list ConnectedEntity_Cmp ConnectedEntity_KeyCmp (Some ConnectedEntity_Delete);
      hooks ← new_list ConnectedEntityHook_Cmp ConnectedEntityHook_KeyCmp (Some ConnectedEntityHook_Delete);
      (fun t => Some (timer_ok, mkTable entities hooks timer_ok (t_store t))) : TM bool
  end.

Definition ConnectedEntityList_Stop : TM unit := fun t =>
  match sg_pEntityList t with
  | None => Some ((), t)
  | Some l =>
      s ← List_Destroy (Some l) (t_store t);
      s ← match sg_pHookList t with Some h => List_Destroy (Some h) s | None => Some s end;
      Some ((), mkTable None None false s)
  end.

(** *** Hellos *)

(** [message->message] as a hello; the body of another structure is not one. *)
Definition hello_of (m : Message) : option MessageHello := b ← m_message m; proj b.

(** The entity a first hello makes; [pushes] are the outcomes of the node
    allocations of the clone of its addresses. *)
Definition new_entity (pushes : allocs) (source : uuid_t) (m : Message) : M ConnectedEntity :=
  alloc ;;
  hello ← deref (hello_of m);
  isDispatcher ← deref (ConnectedEntity_IsDispatcherType (he_uuidNuggetType hello));
  dispatcher ← (if isDispatcher : bool then
      alloc ;;
      usable ← deref (Transport_IsSupported transports (he_protocol hello));
      addressList ← list_clone pushes (he_addressList hello);
      mret (Some (mkDispatcherEntity (he_priority hello) (he_flags hello) (Some addressList) (he_protocol hello)
        (he_port hello) usable))
    else mret None);
  mret (mkConnectedEntity source (he_uuidNuggetType hello) (he_uuidApplicationType hello) 0 (he_locality hello) dispatcher).

(** [undef] is what the variable [source] holds when [Message_Get_Nuggets] fails. *)
Definition ConnectedEntityList_GetEntity (undef : uuid_t) (pushes : allocs) (message : option Message)
    : TM (option positive) :=
  t ← table;
  match sg_pEntityList t, message with
  | Some _, Some m =>
      if m_type m != MESSAGE_TYPE_HELLO then mret None
      else
        nuggets ← run (Message_Get_Nuggets (Some m));
        let source := match nuggets with Some (source, _) => source | None => undef end in
        ret ← entity_find (mkEntityKey SEARCH_KEY_NUGGET_ID (Some source) None None 0);
        match ret with
        | Some a => mret (Some a)
        | None =>
            entity ← run (new_entity pushes source m);
            match entity with
            | None => mret None
            | Some e => a ← new_address e; entity_push a ;; mret (Some a)
            end
        end
  | _, _ => mret None
  end.

(** [now] is [time (NULL)]. *)
Definition ConnectedEntityList_Update (undef : uuid_t) (pushes : allocs) (now : Z) (message : option Message)
    : TM bool :=
  t ← table;
  match sg_pEntityList t, message with
  | Some _, Some m =>
      if m_type m != MESSAGE_TYPE_HELLO then mret false
      else
        r ← ConnectedEntityList_GetEntity undef pushes message;
        match r with
        | None => mret false
        | Some a =>
            assign a (set_hello_time now) ;;
            entity ← entity_at a;
            match ConnectedEntity_IsDispatcherType (ce_uuidNuggetType entity) with
            | None => crash
            | Some false => mret true
            | Some true =>
                match ce_dispatcher entity, hello_of m with
                | Some d, Some hello =>
                    assign a (set_dispatcher (Some (set_flags_priority (he_flags hello) (he_priority hello) d))) ;;
                    mret true
                | _, _ => crash
                end
            end
        end
  | _, _ => mret false
  end.

(** *** Counts *)

Definition ConnectedEntityList_GetCount : TM Z := fun t =>
  Some (match sg_pEntityList t with None => 0 | Some l => u32 (List_Length (Some l)) end, t).

(** [struct DispatcherCount]: the count, in the user data, and [onlyUsable]. *)
Definition ConnectedEntityList_CountDispatcherItems (onlyUsable : bool) (item : positive) (count : Z) (s : Store)
    : option (Z * Z * Store) :=
  entity ← st_entities s !! item;
  isDispatcher ← ConnectedEntity_IsDispatcherType (ce_uuidNuggetType entity);
  match ce_dispatcher entity with
  | Some d =>
      if negb isDispatcher then Some (LIST_EACH_OK, count, s)
      else if onlyUsable && negb (de_usable d) then Some (LIST_EACH_OK, count, s)
      else Some (LIST_EACH_OK, u32 (count + 1), s)
  | None => Some (LIST_EACH_OK, count, s)
  end.

Definition ConnectedEntityList_CountDispatchers : TM Z := entity_each (ConnectedEntityList_CountDispatcherItems false) 0.
Definition ConnectedEntityList_CountUsableDispatchers : TM Z :=
  entity_each (ConnectedEntityList_CountDispatcherItems true) 0.

(** *** Pruning *)

(** [struct CountEntity]: the count, in the user data, and the entity. *)
Definition ConnectedEntityList_CountNuggets (counted : positive) (item : positive) (count : Z) (s : Store)
    : option (Z * Z * Store) :=
  entity ← st_entities s !! item;
  e ← st_entities s !! counted;
  Some (LIST_EACH_OK,
    (if (uuid_compare (ce_uuidNuggetType e) (ce_uuidNuggetType entity) == 0) &&
        (uuid_compare (ce_uuidApplicationType e) (ce_uuidApplicationType entity) == 0) then u32 (count + 1) else count), s).

Definition ConnectedEntityList_HookWrapper (counted : positive) (count : Z) (hook : ConnectedEntityHook) (u : unit) (s : Store)
    : option (Z * unit * Store) :=
  e ← st_entities s !! counted;
  Some (LIST_EACH_OK, (), set_calls s (st_calls s ++ [(h_entityRemoved hook, e, u32 (count - 1))])).

(** [now e] is the time the callback reads for an entity.  The iteration nested in
    it sees the list as it was at the start of the pass: an iteration unlinks the
    entities it marks when it is over. *)
Definition ConnectedEntityList_PruneEntity (entities : option entity_list) (hooks : option hook_list)
    (now : ConnectedEntity -> Z) (item : positive) (u : unit) (s : Store) : option (Z * unit * Store) :=
  entity ← st_entities s !! item;
  if (0 <? ce_tTimeOfLastHello entity) && (DeadTime cfg <? now entity - ce_tTimeOfLastHello entity) then
    '(_, _, count, s) ← List_ForEach entities (Some (ConnectedEntityList_CountNuggets item)) 0 s;
    '(_, _, _, s) ← List_ForEach hooks (Some (ConnectedEntityList_HookWrapper item count)) () s;
    Some (LIST_EACH_REMOVE, (), s)
  else Some (LIST_EACH_OK, (), s).

Definition ConnectedEntityList_Prune (now : ConnectedEntity -> Z) : TM unit :=
  t ← table;
  match sg_pEntityList t with
  | None => mret ()
  | Some _ => entity_each (ConnectedEntityList_PruneEntity (sg_pEntityList t) (sg_pHookList t) now) ()
  end.

(** [address] is what [calloc] returns for the structure. *)
Definition ConnectedEntityList_AddPruneListener (address entityRemoved : positive) : TM bool := fun t =>
  match sg_pHookList t with
  | None => Some (false, t)
  | Some l =>
      let '(ok, o) := alloc_next (st_allocs (t_store t)) in
      if negb ok then Some (false, with_store t (set_allocs (t_store t) o))
      else
        let '(ok, o) := alloc_next o in
        '(_, p) ← List_Push ok (Some l) (mkHook address entityRemoved);
        Some (true, mkTable (sg_pEntityList t) p (timer t) (set_allocs (t_store t) o))
  end.

Definition ConnectedEntityList_ForEach_Entity {U} (function : positive -> U -> Store -> option (Z * U * Store)) (userData : U)
    : TM (bool * U) := u ← entity_each function userData; mret (true, u).

(** *** Choosing a dispatcher *)

(** The clone is an object of the caller. *)
Definition ConnectedEntity_Clone (pushes : allocs) (orig : ConnectedEntity) : M ConnectedEntity :=
  alloc ;;
  alloc ;;
  d ← deref (ce_dispatcher orig);
  addressList ← list_clone pushes (de_addressList d);
  mret (set_dispatcher (Some (set_addressList (Some addressList) d)) orig).

Definition ConnectedEntityList_GetDedicatedDispatcher (pushes : allocs) : TM (option ConnectedEntity) :=
  t ← table;
  match sg_pEntityList t with
  | None => mret None
  | Some _ =>
      node ← entity_find (mkEntityKey SEARCH_KEY_DD None None None 0);
      match node with
      | None => mret None
      | Some a => e ← entity_at a; run (ConnectedEntity_Clone pushes e)
      end
  end.

(** The user data is the list of dispatchers; the outcomes of its node allocations
    are those of the store. *)
Definition ConnectedEntityList_CollectDispatchers (item : positive) (list : option entity_list) (s : Store)
    : option (Z * option entity_list * Store) :=
  entity ← st_entities s !! item;
  match list with
  | None => Some (LIST_EACH_OK, list, s)
  | Some _ =>
      isDispatcher ← ConnectedEntity_IsDispatcherType (ce_uuidNuggetType entity);
      if isDispatcher : bool then
        let '(ok, o) := alloc_next (st_allocs s) in
        '(_, list') ← List_Push ok list item; Some (LIST_EACH_OK, list', set_allocs s o)
      else Some (LIST_EACH_OK, list, s)
  end.

(** [List_Find] on the list of dispatchers, which changes neither. *)
Definition dispatcher_find (dispatchers : option entity_list) (key : ConnectedEntityKey) : TM (option positive) := fun t =>
  '(r, _, s) ← List_Find dispatchers (Some key) (t_store t); Some (r, with_store t s).

(** The loop over the backup localities. *)
Fixpoint find_backup (dispatchers : option entity_list) (searchKeys : Z) (localities : list Z) : TM (option positive) :=
  match localities with
  | [] => mret None
  | locality :: localities' =>
      entity ← dispatcher_find dispatchers (mkEntityKey searchKeys None None None locality);
      match entity with
      | Some a => mret (Some a)
      | None => find_backup dispatchers searchKeys localities'
      end
  end.

(** The choice among the dispatchers: in the locality of the nugget, in the backup
    localities in order, in any. *)
Definition choose_dispatcher (dispatchers : option entity_list) : TM (option positive) :=
  let searchKeys := Z.lor (Z.lor 0 SEARCH_KEY_LOCALITY) SEARCH_KEY_USABLE in
  entity ← dispatcher_find dispatchers (mkEntityKey searchKeys None None None (u8 (LocalityId cfg)));
  entity ← match entity with
    | Some a => mret (Some a)
    | None => find_backup dispatchers searchKeys (LocalityBackupOrder cfg)
    end;
  match entity with
  | Some a => mret (Some a)
  | None => dispatcher_find dispatchers (mkEntityKey SEARCH_KEY_USABLE None None None 0)
  end.

Definition ConnectedEntityList_GetDispatcher (pushes : allocs) : TM (option ConnectedEntity) :=
  dispatchers ← new_list ConnectedEntity_Cmp ConnectedEntity_KeyCmp None;
  match dispatchers with
  | None => mret None
  | Some _ =>
      dispatchers ← entity_each ConnectedEntityList_CollectDispatchers dispatchers;
      if u32 (List_Length dispatchers) == 0 then mret None
      else
        entity ← choose_dispatcher dispatchers;
        match entity with
        | None => mret None
        | Some a => e ← entity_at a; run (ConnectedEntity_Clone pushes e)
        end
  end.

Definition ConnectedEntityList_CollectHighDispatcher (item : positive) (cur : option positive) (s : Store)
    : option (Z * option positive * Store) :=
  entity ← st_entities s !! item;
  isDispatcher ← ConnectedEntity_IsDispatcherType (ce_uuidNuggetType entity);
  if isDispatcher : bool then
    match cur with
    | None => Some (LIST_EACH_OK, Some item, s)
    | Some c =>
        best ← st_entities s !! c;
        d ← ce_dispatcher best;
        d' ← ce_dispatcher entity;
        Some (LIST_EACH_OK, if de_priority d <? de_priority d' then Some item else cur, s)
    end
  else Some (LIST_EACH_OK, cur, s).

Definition ConnectedEntityList_GetDispatcher_HighestPriority (pushes : allocs) : TM (option ConnectedEntity) :=
  t ← table;
  match sg_pEntityList t with
  | None => mret None
  | Some _ =>
      ret ← entity_each ConnectedEntityList_CollectHighDispatcher None;
      match ret with
      | None => mret None
      | Some a => e ← entity_at a; run (ConnectedEntity_Clone pushes e)
      end
  end.

(** [struct CE_SlaveSearch]: whether it is found, in the user data, and the locality. *)
Definition ConnectedEntityList_CollectSlaveInLocality (locality : Z) (item : positive) (found : bool) (s : Store)
    : option (Z * bool * Store) :=
  if found then Some (LIST_EACH_OK, found, s)
  else
    entity ← st_entities s !! item;
    isDispatcher ← ConnectedEntity_IsDispatcherType (ce_uuidNuggetType entity);
    if (isDispatcher : bool) && (ce_locality entity == locality) then
      d ← ce_dispatcher entity;
      Some (LIST_EACH_OK, Z.land (de_flags d) DISP_HELLO_FLAG_LS != 0, s)
    else Some (LIST_EACH_OK, found, s).

Definition ConnectedEntityList_SlaveInLocality (locality : Z) : TM bool :=
  entity_each (ConnectedEntityList_CollectSlaveInLocality locality) false.

Definition ConnectedEntityList_MarkDispatcherUnusable (nuggetId : uuid_t) : TM bool :=
  dispatcher ← entity_find (mkEntityKey SEARCH_KEY_NUGGET_ID (Some nuggetId) None None 0);
  match dispatcher with
  | None => mret false
  | Some a =>
      e ← entity_at a;
      match ce_dispatcher e with
      | None => crash
      | Some d => assign a (set_dispatcher (Some (set_usable false d))) ;; mret true
      end
  end.
End Operations.
