(* ===== verification/EntitiesProps.v ===== *)
(** * Lemmas about connected entities

    [tracks t as_ es hs]: the table [t] is well formed, its list holds the addresses
    [as_] of the entities [es] and the hook list holds [hs].  Every operation is
    shown to act on [es]. *)

From S2P Require Import Prelude CLib RzbList RzbListProps ListM Hash LibUuid Uuids Ntlv Blocks JsonC JsonBuffer Messages MessageCodecs CncMessages Entities.

(** ** Maps *)

Section Live.
Context {A : Type}.
Implicit Types (m : gmap positive A).

Lemma live_insert m as_ es b x : Forall2 (fun a e => m !! a = Some e) as_ es -> b ∉ as_ ->
  Forall2 (fun a e => <[b := x]> m !! a = Some e) as_ es.
Proof.
  induction 1 as [|a e as_ es Ha Hv IH]; intros Hb; [done|]. apply not_elem_of_cons in Hb as [? ?].
  constructor; [by rewrite lookup_insert_ne|by apply IH].
Qed.

Lemma live_delete m as_ es b : Forall2 (fun a e => m !! a = Some e) as_ es -> b ∉ as_ ->
  Forall2 (fun a e => delete b m !! a = Some e) as_ es.
Proof.
  induction 1 as [|a e as_ es Ha Hv IH]; intros Hb; [done|]. apply not_elem_of_cons in Hb as [? ?].
  constructor; [by rewrite lookup_delete_ne|by apply IH].
Qed.

Lemma live_elem m as_ es a : Forall2 (fun a e => m !! a = Some e) as_ es -> a ∈ as_ -> is_Some (m !! a).
Proof. induction 1 as [|b e as_ es Hb Hv IH]; [by intros ?%not_elem_of_nil|]. intros [->|?]%elem_of_cons; eauto. Qed.
Lemma live_deletes m as_ es ds : Forall2 (fun a e => m !! a = Some e) as_ es ->
  (forall a, a ∈ ds -> a ∉ as_) -> Forall2 (fun a e => foldl (fun m a => delete a m) m ds !! a = Some e) as_ es.
Proof.
  revert m. induction ds as [|d ds IH]; intros m Hv Hd; [done|]. simpl. apply IH; [|intros a Ha; apply Hd, elem_of_cons; by right].
  apply live_delete; [done|]. apply Hd, elem_of_cons. by left.
Qed.
End Live.

(** ** Removal of marked items *)

Lemma select_Forall2 {A B} (R : A -> B -> Prop) b m : forall xs ys, Forall2 R xs ys ->
  Forall2 R (spec.select b m xs) (spec.select b m ys).
Proof.
  induction m as [|c m IH]; intros xs ys HR; [by destruct HR|]. destruct HR as [|x y xs ys Hxy HR]; [constructor|].
  simpl. destruct (Bool.eqb c b); [constructor; auto|auto].
Qed.

Lemma select_split {A} m (xs : list A) : NoDup xs ->
  NoDup (spec.select false m xs) /\ (forall x, x ∈ spec.select false m xs -> x ∈ xs) /\
  (forall x, x ∈ spec.select true m xs -> x ∈ xs /\ x ∉ spec.select false m xs).
Proof.
  revert xs. induction m as [|c m IH]; intros [|x xs] Hn; simpl;
    try (split_and!; [by apply NoDup_nil|by intros ? ?%not_elem_of_nil..]).
  apply NoDup_cons in Hn as [Hx Hn]. destruct (IH xs Hn) as (H1' & H2' & H3').
  assert (Hx' : x ∉ spec.select false m xs) by (intros Hin; by apply Hx, H2').
  destruct c; simpl; split_and!; try done; try (apply NoDup_cons; by split); intros y; rewrite ?not_elem_of_cons, ?elem_of_cons;
    naive_solver.
Qed.

(** ** Cloning of string lists *)

Lemma strings_clone pushes p xs o : strings p xs ->
  exists r o', list_clone pushes p o = Some (r, o') /\ forall d, r = Some d -> strings (Some d) xs.
Proof.
  intros (l & -> & Hc & Hp & Hk & Hcl). destruct (plain_known _ Hp) as (Hkn & Hst & _).
  unfold list_clone. rewrite Hcl. destruct (alloc_next o) as [b1 o1].
  destruct (if b1 then alloc_next o1 else (true, o1)) as [b2 o2].
  destruct (Clone_any b1 b2 true pushes l xs String_Clone o2 Hc (plain_locks _ Hp) Hkn Hcl) as (r & l' & s' & -> & _ & Hr).
  exists r, s'. split; [done|]. intros d ->. destruct (Hr d eq_refl) as (ys & Hys & Hme & Hd). rewrite Hst in Hd.
  assert (ys = xs) as ->.
  { clear -Hys. induction Hys as [|x y xs ys (s & s' & E) _ IH]; [done|]. unfold String_Clone in E.
    destruct (alloc_next s) as [[] ?]; by simplify_eq/=. }
  exists d. assert (Hm : meta d = meta l) by (rewrite Hme; unfold meta; simpl; by rewrite (plain_limit _ Hp)).
  split_and!; [done..|by eapply plain_meta| |]; unfold meta in Hm; congruence.
Qed.

Lemma strings_clone_ok p xs : strings p xs ->
  exists d, list_clone [] p [] = Some (Some d, []) /\ strings (Some d) xs.
Proof.
  intros (l & -> & Hc & Hp & Hk & Hcl).
  destruct (clone_plain l xs xs String_Clone Hc Hp Hcl) as (d & E & Hd & Hme).
  { clear. induction xs as [|x xs IH]; [done|]. simpl. by rewrite IH. }
  exists d. split; [done|]. exists d. split_and!; [done..|by eapply plain_meta| |]; unfold meta in Hme; congruence.
Qed.

(** ** The registry of transports *)

Definition registry (p : option transport_list) (ds : list TransportDescriptor) : Prop :=
  exists l, p = Some l /\ contents l ds /\ plain l /\ l_keyCmp l = Some Transport_KeyCmp.

Lemma Transport_List_Create_run : exists l, Transport_List_Create [] = Some (Some l, []) /\ registry (Some l) [].
Proof.
  unfold Transport_List_Create. cbn [alloc_next negb]. destruct (List_Create _ _ _ _ _ _ _ _ _ _) as [l|] eqn:E; [|done].
  exists l. split; [done|]. exists l. split_and!; [done|by eapply Create_contents| |]; injection E as <-; by split.
Qed.

Lemma Transport_Register_run d p ds : registry p ds ->
  exists p', Transport_Register d p [] = Some (Some (true, p'), []) /\ registry p' (ds ++ [d]).
Proof.
  intros (l & -> & Hc & Hp & Hk). destruct (push_plain l ds d [] Hc Hp) as (l' & E & Hm & Hc').
  exists (Some l'). split; [exact E|]. exists l'. split_and!; [done|exact Hc'|by eapply plain_meta|].
  unfold meta in Hm. congruence.
Qed.

Lemma Transport_IsSupported_run p ds protocol : registry p ds ->
  Transport_IsSupported p protocol = Some (existsb (fun d => td_id d == protocol) ds).
Proof.
  intros (l & -> & Hc & Hp & Hk). unfold Transport_IsSupported.
  pose proof (find_plain l ds Transport_KeyCmp protocol [] Hc Hp Hk) as E. unfold list_find in E.
  destruct (List_Find (Some l) (Some protocol) []) as [[[r l'] o]|]; [|done]. cbn [mbind option_bind] in *.
  assert (Er : r = find_first (fun d => Transport_KeyCmp [] d protocol == 0) ds) by congruence. rewrite Er. f_equal. clear.
  induction ds as [|d ds IH]; [done|]. simpl. unfold Transport_KeyCmp at 1.
  replace (td_id d - protocol == 0) with (td_id d == protocol) by (apply eq_true_iff_eq; rewrite !Z.eqb_eq; lia).
  by destruct (td_id d == protocol).
Qed.

(** ** The representation *)

Section Rep.
Context `{EVP} `{LibUuidLaws}.
Variable sg : UuidLists.
Variable nts : list UUIDListNode.
Hypothesis nuggets_entries : entries (UUID_Get_List sg UUID_TYPE_NUGGET_TYPE) nts.

(** The type of dispatchers, by the list of nugget types. *)
Definition isd (u : uuid_t) : bool :=
  match named NUGGET_TYPE_DISPATCHER nts with Some d => bool_decide (un_uuid d = u) | None => false end.

Lemma IsDispatcherType_eq u : ConnectedEntity_IsDispatcherType sg u = Some (isd u).
Proof.
  unfold ConnectedEntity_IsDispatcherType, is_dispatcher, isd.
  rewrite (Is_Named_UUID_entries sg _ nts _ u [] nuggets_entries). by destruct (named _ nts).
Qed.

(** An entity has a dispatcher part, with addresses, exactly when it is of that
    type. *)
Definition entity_ok (e : ConnectedEntity) : Prop :=
  if isd (ce_uuidNuggetType e) then exists d xs, ce_dispatcher e = Some d /\ strings (de_addressList d) xs
  else ce_dispatcher e = None.

(** A list of the table: generic, unlimited, without locks, with these callbacks. *)
Definition table_list {Key Item} (l : List_t Store Key Item) (kc : Store -> Item -> Key -> Z)
    (de : option (Item -> Store -> Store)) : Prop :=
  l_mode l = LIST_MODE_GENERIC /\ l_limit l = 0 /\ no_locks l /\ l_keyCmp l = Some kc /\ l_destroy l = de.

Lemma table_list_meta {Key Item} (l l' : List_t Store Key Item) kc de :
  meta l' = meta l -> table_list l kc de -> table_list l' kc de.
Proof.
  unfold meta. intros E (? & ? & [? ?] & ? & ?). split_and!; try congruence. split; congruence.
Qed.

Lemma table_push {Key Item} (l : List_t Store Key Item) kc de xs x ok : contents l xs -> table_list l kc de ->
  exists l', List_Push ok (Some l) x = Some (ok, Some l') /\ table_list l' kc de /\
    contents l' (if ok then xs ++ [x] else xs).
Proof.
  intros Hc Hl. pose proof Hl as (Hm & Hli & _). destruct ok.
  - destruct (Push_ok l xs x Hc) as (l' & E & Hme & _ & Hc');
      [unfold at_limit; by rewrite Hli|unfold known_mode; by rewrite Hm|].
    unfold is_stack in Hc'. rewrite Hm in Hc'. exists l'. split_and!; [done|by eapply table_list_meta|done].
  - exists l. rewrite (Push_refused false l x eq_refl). by split_and!.
Qed.

Record tracks (t : Table) (as_ : list positive) (es : list ConnectedEntity) (hs : list ConnectedEntityHook) : Prop := {
  tr_list : exists l, sg_pEntityList t = Some l /\ contents l as_ /\
    table_list l ConnectedEntity_KeyCmp (Some ConnectedEntity_Delete);
  tr_hooks : exists l, sg_pHookList t = Some l /\ contents l hs /\
    table_list l ConnectedEntityHook_KeyCmp (Some ConnectedEntityHook_Delete);
  tr_live : Forall2 (fun a e => st_entities (t_store t) !! a = Some e) as_ es;
  tr_nodup : NoDup as_;
  tr_ids : NoDup (map ce_uuidNuggetId es);
  tr_ok : Forall entity_ok es
}.

Definition holds (t : Table) (es : list ConnectedEntity) (hs : list ConnectedEntityHook) : Prop :=
  exists as_, tracks t as_ es hs.

Lemma TM_bind_eq {A B} (c : TM A) (k : A -> TM B) t x t' : c t = Some (x, t') -> (c ≫= k) t = k x t'.
Proof. intros E. unfold mbind, TM_bind. by rewrite E. Qed.

Lemma TM_bind_crash {A B} (c : TM A) (k : A -> TM B) t : c t = None -> (c ≫= k) t = None.
Proof. intros E. unfold mbind, TM_bind. by rewrite E. Qed.

Lemma with_entities_same t : with_entities t (sg_pEntityList t) (t_store t) = t.
Proof. by destruct t. Qed.

Lemma with_store_same t : with_store t (t_store t) = t.
Proof. by destruct t. Qed.

Lemma set_allocs_same s : set_allocs s (st_allocs s) = s.
Proof. by destruct s. Qed.

(** What depends only on the lists and the entities. *)
Lemma tracks_ext t t' as_ es hs : sg_pEntityList t' = sg_pEntityList t -> sg_pHookList t' = sg_pHookList t ->
  st_entities (t_store t') = st_entities (t_store t) -> tracks t as_ es hs -> tracks t' as_ es hs.
Proof. intros E1 E2 E3 [? ? ? ? ? ?]. split; rewrite ?E1, ?E2, ?E3; done. Qed.

(** *** Keys *)

Section Keys.
Variables (s : Store) (a : positive) (e : ConnectedEntity).
Hypothesis live : st_entities s !! a = Some e.

Lemma KeyCmp_id u : (ConnectedEntity_KeyCmp s a (mkEntityKey SEARCH_KEY_NUGGET_ID (Some u) None None 0) == 0) =
  bool_decide (ce_uuidNuggetId e = u).
Proof.
  unfold ConnectedEntity_KeyCmp. rewrite live. unfold narrow_uuid, has_key. simpl. rewrite uuid_compare_eqb.
  case_bool_decide; destruct (ce_dispatcher e); done.
Qed.

Lemma KeyCmp_dd : (ConnectedEntity_KeyCmp s a (mkEntityKey SEARCH_KEY_DD None None None 0) == 0) =
  match ce_dispatcher e with Some d => Z.land (de_flags d) DISP_HELLO_FLAG_DD != 0 | None => false end.
Proof.
  unfold ConnectedEntity_KeyCmp. rewrite live. unfold narrow_uuid, has_key. simpl.
  destruct (ce_dispatcher e) as [d|]; [|done]. unfold narrow. by destruct (Z.land (de_flags d) _ != 0).
Qed.

Lemma KeyCmp_usable loc : (ConnectedEntity_KeyCmp s a (mkEntityKey SEARCH_KEY_USABLE None None None loc) == 0) =
  match ce_dispatcher e with Some d => de_usable d | None => false end.
Proof.
  unfold ConnectedEntity_KeyCmp. rewrite live. unfold narrow_uuid, has_key. simpl.
  destruct (ce_dispatcher e) as [d|]; [|done]. unfold narrow. by destruct (de_usable d).
Qed.

(** The last test decides: a usable dispatcher matches in every locality. *)
Lemma KeyCmp_locality_usable loc :
  (ConnectedEntity_KeyCmp s a (mkEntityKey (Z.lor (Z.lor 0 SEARCH_KEY_LOCALITY) SEARCH_KEY_USABLE) None None None loc) == 0) =
  match ce_dispatcher e with Some d => de_usable d | None => ce_locality e == loc end.
Proof.
  unfold ConnectedEntity_KeyCmp. rewrite live. unfold narrow_uuid, has_key. simpl. unfold narrow.
  destruct (ce_dispatcher e) as [d|], (ce_locality e == loc); try done; by destruct (de_usable d).
Qed.
End Keys.

(** *** Finding and assigning *)

Lemma find_first_Forall2 {A B} (R : A -> B -> Prop) (p : A -> bool) (q : B -> bool) xs ys :
  Forall2 R xs ys -> (forall x y, R x y -> p x = q y) ->
  match find_first q ys with
  | None => find_first p xs = None
  | Some y => exists xs1 x xs2 ys1 ys2, xs = xs1 ++ x :: xs2 /\ ys = ys1 ++ y :: ys2 /\ length xs1 = length ys1 /\
      find_first p xs = Some x
  end.
Proof.
  intros HR Hpq. induction HR as [|x y xs ys Hxy HR IH]; [done|]. simpl. rewrite (Hpq _ _ Hxy).
  destruct (q y); [by exists [], x, xs, [], ys|]. destruct (find_first q ys) as [z|]; [|done].
  destruct IH as (xs1 & x' & xs2 & ys1 & ys2 & -> & -> & Hl & E). exists (x :: xs1), x', xs2, (y :: ys1), ys2.
  split_and!; [done..| |done]. simpl. by rewrite Hl.
Qed.

Lemma find_tracks t as_ es hs key P : tracks t as_ es hs ->
  (forall a e, st_entities (t_store t) !! a = Some e -> (ConnectedEntity_KeyCmp (t_store t) a key == 0) = P e) ->
  match find_first P es with
  | None => entity_find key t = Some (None, t)
  | Some e => exists as1 a as2 es1 es2, as_ = as1 ++ a :: as2 /\ es = es1 ++ e :: es2 /\ length as1 = length es1 /\
      entity_find key t = Some (Some a, t)
  end.
Proof.
  intros [(l & El & Hc & Hl) _ Hlive _ _ _] HP. destruct Hl as (_ & _ & Hno & Hk & _).
  assert (E : entity_find key t = Some (find_first (fun a => ConnectedEntity_KeyCmp (t_store t) a key == 0) as_, t)).
  { unfold entity_find. rewrite El, (Find_contents l as_ _ key (t_store t) Hc Hno Hk). simpl.
    rewrite <- El. by rewrite with_entities_same. }
  pose proof (find_first_Forall2 _ (fun a => ConnectedEntity_KeyCmp (t_store t) a key == 0) P _ _ Hlive HP) as Hf.
  destruct (find_first P es) as [e|]; [|by rewrite E, Hf].
  destruct Hf as (as1 & a & as2 & es1 & es2 & ? & ? & ? & Ef). exists as1, a, as2, es1, es2. by rewrite E, Ef.
Qed.

Lemma tracks_at t as1 a as2 es1 e es2 hs : tracks t (as1 ++ a :: as2) (es1 ++ e :: es2) hs ->
  length as1 = length es1 -> st_entities (t_store t) !! a = Some e.
Proof. intros Ht Hl. pose proof (tr_live _ _ _ _ Ht) as Hv. by apply Forall2_app_inv in Hv as [_ [? _]%Forall2_cons]. Qed.

Lemma assign_tracks t as1 a as2 es1 e es2 hs f : tracks t (as1 ++ a :: as2) (es1 ++ e :: es2) hs ->
  length as1 = length es1 -> ce_uuidNuggetId (f e) = ce_uuidNuggetId e -> entity_ok (f e) ->
  exists t', assign a f t = Some ((), t') /\ tracks t' (as1 ++ a :: as2) (es1 ++ f e :: es2) hs /\
    st_allocs (t_store t') = st_allocs (t_store t) /\ st_calls (t_store t') = st_calls (t_store t).
Proof.
  intros Ht Hl Hid Hok. pose proof (tracks_at _ _ _ _ _ _ _ _ Ht Hl) as Ha. unfold assign. rewrite Ha. simpl.
  eexists. split; [reflexivity|]. split; [|done]. destruct Ht as [? ? Hv Hn Hi Ho]. split; simpl; try done.
  - apply Forall2_app_inv in Hv as [Hv1 [_ Hv2]%Forall2_cons]; [|done].
    apply NoDup_app in Hn as (_ & Hn1 & Hn2). apply NoDup_cons in Hn2 as [Hn2 _].
    apply Forall2_app; [|constructor; [apply lookup_insert_eq|]]; apply live_insert; try done.
    intros Hin. apply (Hn1 a Hin). set_solver.
  - rewrite map_app in *. simpl in *. by rewrite Hid.
  - apply Forall_app in Ho as [? [? ?]%Forall_cons]. apply Forall_app. split; [done|]. by apply Forall_cons.
Qed.

(** *** Iteration *)

(** An operation that only reads the entity. *)
Lemma scan_reads {U} (op : positive -> U -> Store -> option (Z * U * Store)) (f : U -> positive -> ConnectedEntity -> U) s as_ es u :
  Forall2 (fun a e => st_entities s !! a = Some e) as_ es -> Forall entity_ok es ->
  (forall a e u, st_entities s !! a = Some e -> entity_ok e -> op a u s = Some (LIST_EACH_OK, f u a e, s)) ->
  spec.scan op None None as_ u s true =
    Some (true, replicate (length as_) false, foldl (fun u x => f u x.1 x.2) u (zip as_ es), s).
Proof.
  intros Hv Ho Hop. revert u Ho. induction Hv as [|a e as_ es Ha Hv IH]; intros u Ho; [done|].
  apply Forall_cons in Ho as [He Ho]. simpl. rewrite (Hop _ _ _ Ha He). simpl. by rewrite IH.
Qed.

Lemma each_reads {U} (op : positive -> U -> Store -> option (Z * U * Store)) (f : U -> positive -> ConnectedEntity -> U)
    t as_ es hs u : tracks t as_ es hs ->
  (forall a e u, st_entities (t_store t) !! a = Some e -> entity_ok e ->
     op a u (t_store t) = Some (LIST_EACH_OK, f u a e, t_store t)) ->
  List_ForEach (sg_pEntityList t) (Some op) u (t_store t) =
    Some (true, sg_pEntityList t, foldl (fun u x => f u x.1 x.2) u (zip as_ es), t_store t).
Proof.
  intros [(l & El & Hc & Hl) _ Hv _ _ Ho] Hop. destruct Hl as (_ & _ & [Hl1 Hl2] & _).
  pose proof (ForEach_contents op l as_ u (t_store t) Hc) as HF. unfold spec.for_each in HF. rewrite Hl1, Hl2 in HF.
  rewrite (scan_reads op f _ _ es u Hv Ho Hop) in HF. simpl in HF. destruct (select_none as_) as [E1 E2].
  rewrite E1, E2 in HF. destruct HF as (l' & E & _ & _ & _ & Hid). rewrite El, E. by rewrite (Hid eq_refl).
Qed.

Lemma foldl_zip_snd {A B C} (f : C -> B -> C) (xs : list A) (ys : list B) u : length xs = length ys ->
  foldl (fun u x => f u x.2) u (zip xs ys) = foldl f u ys.
Proof. revert ys u. induction xs as [|x xs IH]; intros [|y ys] u E; simplify_eq/=; [done|]. by apply IH. Qed.

Lemma tracks_length t as_ es hs : tracks t as_ es hs -> length as_ = length es.
Proof. intros Ht. exact (Forall2_length _ _ _ (tr_live _ _ _ _ Ht)). Qed.

(** *** Hellos *)

Variable cfg : EntityConfig.
Variable transports : option transport_list.
Variable supports : Z -> bool.
Hypothesis transports_ok : forall p, Transport_IsSupported transports p = Some (supports p).

(** The entity a first hello makes; [l] is the clone of the addresses. *)
Definition first_hello (source : uuid_t) (he : MessageHello) (l : option string_list) : ConnectedEntity :=
  mkConnectedEntity source (he_uuidNuggetType he) (he_uuidApplicationType he) 0 (he_locality he)
    (if isd (he_uuidNuggetType he) then
       Some (mkDispatcherEntity (he_priority he) (he_flags he) l (he_protocol he) (he_port he) (supports (he_protocol he)))
     else None).

(** What every hello does to the entity of its sender. *)
Definition refreshed (now : Z) (he : MessageHello) (e : ConnectedEntity) : ConnectedEntity :=
  set_dispatcher (if isd (ce_uuidNuggetType e) then set_flags_priority (he_flags he) (he_priority he) <$> ce_dispatcher e
                  else ce_dispatcher e) (set_hello_time now e).

(** The entities with the one of [source] refreshed. *)
Definition refresh (now : Z) (source : uuid_t) (he : MessageHello) (es : list ConnectedEntity) : list ConnectedEntity :=
  map (fun e => if decide (ce_uuidNuggetId e = source) then refreshed now he e else e) es.

Definition known (source : uuid_t) (es : list ConnectedEntity) : Prop := source ∈ map ce_uuidNuggetId es.

#[global] Instance known_dec source es : Decision (known source es).
Proof. unfold known. apply _. Defined.

Lemma refreshed_ok now he e : entity_ok e -> entity_ok (refreshed now he e).
Proof.
  unfold entity_ok, refreshed. simpl. destruct (isd (ce_uuidNuggetType e)); [|done].
  intros (d & xs & E & Hs). rewrite E. exists (set_flags_priority (he_flags he) (he_priority he) d), xs. by split.
Qed.

Lemma refresh_split now source he es1 e es2 : NoDup (map ce_uuidNuggetId (es1 ++ e :: es2)) -> ce_uuidNuggetId e = source ->
  refresh now source he (es1 ++ e :: es2) = es1 ++ refreshed now he e :: es2.
Proof.
  intros Hn <-. unfold refresh. rewrite map_app in *. simpl in *. apply NoDup_app in Hn as (_ & Hn1 & [Hn2 _]%NoDup_cons).
  assert (Hid : forall xs, ce_uuidNuggetId e ∉ map ce_uuidNuggetId xs ->
    map (fun x => if decide (ce_uuidNuggetId x = ce_uuidNuggetId e) then refreshed now he x else x) xs = xs).
  { induction xs as [|x xs IH]; [done|]. simpl. intros [? ?]%not_elem_of_cons. rewrite decide_False by congruence. by rewrite IH. }
  rewrite decide_True by done. rewrite !Hid; [done|done|]. intros Hin. apply (Hn1 _ Hin). set_solver.
Qed.

Lemma new_entity_run pushes source m he xs o : hello_of m = Some he ->
  (isd (he_uuidNuggetType he) = true -> strings (he_addressList he) xs) ->
  exists r o', new_entity sg transports pushes source m o = Some (r, o') /\
    (forall e, r = Some e -> exists l, e = first_hello source he l /\
       (isd (he_uuidNuggetType he) = true -> strings l xs)) /\
    (o = [] -> pushes = [] -> o' = [] /\ r <> None).
Proof.
  intros Hh Hx. unfold new_entity, first_hello. rewrite alloc_bind. destruct (alloc_next o) as [[] o1] eqn:Eo; cbn [fst snd].
  2: { exists None, o1. split_and!; [done..|]. intros -> _. by simpl in Eo. }
  rewrite Hh, deref_bind, IsDispatcherType_eq, deref_bind.
  destruct (isd (he_uuidNuggetType he)) eqn:Ed.
  2: { unfold mbind, M_bind, mret, M_ret. eexists _, o1. split; [reflexivity|]. split; [|intros -> _; by simplify_eq/=].
       intros e [= <-]. by exists None. }
  destruct (strings_clone pushes (he_addressList he) xs (snd (alloc_next o1)) (Hx eq_refl)) as (r & o2 & Ec & Hr).
  unfold mbind at 1, M_bind at 1. rewrite alloc_bind. destruct (fst (alloc_next o1)) eqn:Eb.
  2: { eexists None, _. split; [reflexivity|]. split; [done|]. intros -> _. by simplify_eq/=. }
  rewrite transports_ok, deref_bind. unfold mbind at 1, M_bind at 1. rewrite Ec. destruct r as [l|].
  - eexists _, o2. split; [reflexivity|]. split.
    + intros e [= <-]. exists (Some l). split; [done|]. intros _. by apply Hr.
    + intros -> ->. simplify_eq/=. destruct (strings_clone_ok _ _ (Hx eq_refl)) as (l' & E' & _). rewrite E' in Ec.
      by simplify_eq.
  - eexists None, o2. split; [reflexivity|]. split; [done|]. intros -> ->. simplify_eq/=.
    destruct (strings_clone_ok _ _ (Hx eq_refl)) as (l' & E' & _). rewrite E' in Ec. by simplify_eq.
Qed.

Lemma known_find source es : NoDup (map ce_uuidNuggetId es) ->
  match find_first (fun e => bool_decide (ce_uuidNuggetId e = source)) es with
  | Some e => known source es /\ ce_uuidNuggetId e = source
  | None => ~ known source es
  end.
Proof.
  intros _. unfold known. induction es as [|e es IH]; [by intros ?%not_elem_of_nil|]. simpl.
  case_bool_decide as Hd; [split; [apply elem_of_cons; by left|done]|].
  destruct (find_first _ es); [destruct IH; split; [apply elem_of_cons; by right|done]|].
  intros [?|?]%elem_of_cons; [congruence|done].
Qed.

(** Running allocating code changes the outcomes only. *)
Lemma run_eq {A} (c : M A) t r o : c (st_allocs (t_store t)) = Some (r, o) ->
  run c t = Some (r, with_store t (set_allocs (t_store t) o)).
Proof. intros E. unfold run. by rewrite E. Qed.

Lemma tracks_allocs t as_ es hs o : tracks t as_ es hs -> tracks (with_store t (set_allocs (t_store t) o)) as_ es hs.
Proof. by apply tracks_ext. Qed.

(** A new entity at a fresh address, and its push. *)
Lemma push_tracks t as_ es hs e : tracks t as_ es hs -> entity_ok e -> ~ known (ce_uuidNuggetId e) es ->
  exists a t', (a ← new_address e; (entity_push a ;; mret (Some a))) t = Some (Some a, t') /\
    st_entities (t_store t') !! a = Some e /\ st_calls (t_store t') = st_calls (t_store t) /\
    st_allocs (t_store t') = snd (alloc_next (st_allocs (t_store t))) /\
    (tracks t' as_ es hs /\ a ∉ as_ /\ fst (alloc_next (st_allocs (t_store t))) = false \/
     tracks t' (as_ ++ [a]) (es ++ [e]) hs /\ fst (alloc_next (st_allocs (t_store t))) = true).
Proof.
  intros [(l & El & Hc & Hl) Hh Hv Hn Hi Ho] He Hk. set (a := fresh (dom (st_entities (t_store t)))).
  assert (Hfr : a ∉ as_).
  { intros Hin. destruct (live_elem _ _ _ _ Hv Hin) as [x Hx]. apply (is_fresh (dom (st_entities (t_store t)))).
    fold a. apply elem_of_dom. by exists x. }
  destruct (alloc_next (st_allocs (t_store t))) as [ok o] eqn:Ea.
  destruct (table_push l _ _ as_ a ok Hc Hl) as (l' & Ep & Hl' & Hc'). exists a. eexists. split.
  { unfold mbind, TM_bind, new_address. fold a. unfold entity_push. cbn [t_store with_store sg_pEntityList st_allocs set_entities].
    rewrite Ea, El, Ep. reflexivity. }
  split_and!; [apply lookup_insert_eq|done|done|]. cbn [fst].
  assert (Hv' : Forall2 (fun a' e' => <[a := e]> (st_entities (t_store t)) !! a' = Some e') as_ es) by by apply live_insert.
  destruct ok; [right|left]; (split_and!; [|done..]); split; simpl; try done; try by eauto.
  - apply Forall2_app; [done|]. constructor; [apply lookup_insert_eq|done].
  - apply NoDup_app. split_and!; [done|set_solver|apply NoDup_singleton].
  - rewrite map_app. apply NoDup_app. split_and!; [done| |apply NoDup_singleton]. simpl. unfold known in Hk. set_solver.
  - apply Forall_app. split; [done|]. by apply Forall_cons.
Qed.

(** The end of an update, on the entity that was found or made. *)
Definition update_tail (now : Z) (m : Message) (a : positive) : TM bool :=
  assign a (set_hello_time now) ;;
  entity ← entity_at a;
  match ConnectedEntity_IsDispatcherType sg (ce_uuidNuggetType entity) with
  | None => crash
  | Some false => mret true
  | Some true =>
      match ce_dispatcher entity, hello_of m with
      | Some d, Some hello =>
          assign a (set_dispatcher (Some (set_flags_priority (he_flags hello) (he_priority hello) d))) ;; mret true
      | _, _ => crash
      end
  end.

(** Its effect on the entity, wherever it is. *)
Lemma update_tail_run now m he a e t : hello_of m = Some he -> st_entities (t_store t) !! a = Some e -> entity_ok e ->
  exists t', update_tail now m a t = Some (true, t') /\
    t' = with_store t (set_entities (t_store t) (<[a := refreshed now he e]> (st_entities (t_store t)))).
Proof.
  intros Hh Ha He. unfold update_tail. unfold mbind at 1, TM_bind at 1, assign at 1. rewrite Ha. cbn [mbind option_bind].
  unfold mbind at 1, TM_bind at 1, entity_at. cbn [t_store with_store set_entities st_entities]. rewrite lookup_insert_eq.
  cbn [mbind option_bind]. rewrite IsDispatcherType_eq. unfold refreshed, entity_ok in *.
  cbn [ce_uuidNuggetType set_hello_time ce_dispatcher] in *. destruct (isd (ce_uuidNuggetType e)).
  - destruct He as (d & xs & Ed & _). rewrite Ed, Hh. unfold mbind, TM_bind, assign.
    cbn [t_store with_store set_entities st_entities]. rewrite lookup_insert_eq. cbn [mbind option_bind].
    eexists. split; [reflexivity|]. unfold with_store, set_entities. cbn. by rewrite insert_insert_eq.
  - eexists. split; [reflexivity|]. rewrite He. unfold set_dispatcher, set_hello_time. by rewrite He.
Qed.

(** The message is a hello of [source] with this body. *)
Definition is_hello (m : Message) (source : uuid_t) (he : MessageHello) : Prop :=
  m_type m = MESSAGE_TYPE_HELLO /\ hello_of m = Some he /\
  exists dest, forall o, Message_Get_Nuggets (Some m) o = Some (Some (source, dest), o).

Lemma Update_tail_eq undef pushes now m t l : sg_pEntityList t = Some l -> m_type m = MESSAGE_TYPE_HELLO ->
  ConnectedEntityList_Update sg transports undef pushes now (Some m) t =
  (r ← ConnectedEntityList_GetEntity sg transports undef pushes (Some m);
   (match r with None => mret false | Some a => update_tail now m a end)) t.
Proof.
  intros El Ht. unfold ConnectedEntityList_Update. erewrite TM_bind_eq by reflexivity. rewrite El, Ht. reflexivity.
Qed.

(** Some allocation may fail. *)
Definition faulty (t : Table) (pushes : allocs) : Prop := st_allocs (t_store t) <> [] \/ pushes <> [].

Lemma not_faulty t pushes : ~ faulty t pushes -> st_allocs (t_store t) = [] /\ pushes = [].
Proof.
  unfold faulty. intros Hf. destruct (decide (st_allocs (t_store t) = [])), (decide (pushes = [])); naive_solver.
Qed.

Lemma GetEntity_run undef pushes m source he xs t as_ es hs : tracks t as_ es hs -> is_hello m source he ->
  (isd (he_uuidNuggetType he) = true -> strings (he_addressList he) xs) ->
  exists r t', ConnectedEntityList_GetEntity sg transports undef pushes (Some m) t = Some (r, t') /\
    st_calls (t_store t') = st_calls (t_store t) /\ (~ faulty t pushes -> st_allocs (t_store t') = []) /\
    match find_first (fun e => bool_decide (ce_uuidNuggetId e = source)) es with
    | Some e => t' = t /\ exists as1 a as2 es1 es2, as_ = as1 ++ a :: as2 /\ es = es1 ++ e :: es2 /\
        length as1 = length es1 /\ r = Some a
    | None =>
        r = None /\ tracks t' as_ es hs /\ faulty t pushes \/
        exists a l, r = Some a /\ (isd (he_uuidNuggetType he) = true -> strings l xs) /\
          st_entities (t_store t') !! a = Some (first_hello source he l) /\
          (tracks t' as_ es hs /\ a ∉ as_ /\ faulty t pushes \/
           tracks t' (as_ ++ [a]) (es ++ [first_hello source he l]) hs)
    end.
Proof.
  intros Ht (Hty & Hh & dest & Hg) Hx. destruct (tr_list _ _ _ _ Ht) as (l & El & _).
  pose proof (known_find source es (tr_ids _ _ _ _ Ht)) as Hkn.
  pose proof (find_tracks t as_ es hs _ _ Ht (fun a e Hl => KeyCmp_id (t_store t) a e Hl source)) as Hf.
  unfold ConnectedEntityList_GetEntity. erewrite TM_bind_eq by reflexivity. rewrite El, Hty, Z.eqb_refl. cbn [negb].
  rewrite (TM_bind_eq _ _ _ _ _ (run_eq _ _ _ _ (Hg _))), set_allocs_same, with_store_same. cbv zeta.
  destruct (find_first _ es) as [e|].
  - destruct Hf as (as1 & a & as2 & es1 & es2 & -> & -> & Hl & Ef). rewrite (TM_bind_eq _ _ _ _ _ Ef).
    exists (Some a), t. split_and!; [done|done|by apply not_faulty|done|]. by exists as1, a, as2, es1, es2.
  - rewrite (TM_bind_eq _ _ _ _ _ Hf).
    destruct (new_entity_run pushes source m he xs (st_allocs (t_store t)) Hh Hx) as (r & o & Er & Hr & Hok).
    assert (Hfa : r = None \/ fst (alloc_next o) = false -> faulty t pushes).
    { intros Hb. unfold faulty. destruct (decide (st_allocs (t_store t) = [])) as [Ha|]; [|by left].
      destruct (decide (pushes = [])) as [Hp|]; [|by right]. destruct (Hok Ha Hp) as [-> ?]. by destruct Hb. }
    rewrite (TM_bind_eq _ _ _ _ _ (run_eq _ _ _ _ Er)). pose proof (tracks_allocs t as_ es hs o Ht) as Ht1.
    assert (Hnf : ~ faulty t pushes -> o = []) by (intros [? ?]%not_faulty; by apply Hok).
    destruct r as [e|]; [|eexists None, _; split_and!; [reflexivity|done|exact Hnf|]; left; auto].
    destruct (Hr e eq_refl) as (p & -> & Hp).
    destruct (push_tracks _ as_ es hs (first_hello source he p) Ht1) as (a & t' & Ea & Hat & Hcs & Has & Hor).
    { unfold entity_ok, first_hello. simpl. destruct (isd (he_uuidNuggetType he)) eqn:Ed; [|done].
      eexists _, xs. split; [reflexivity|]. by apply Hp. }
    { done. }
    exists (Some a), t'. split_and!; [exact Ea|done|intros Hnn; rewrite Has; simpl; by rewrite (Hnf Hnn)|]. right. exists a, p. split_and!; [done..|].
    destruct Hor as [(? & ? & ?)|[? _]]; [left|right]; auto.
Qed.

Lemma first_hello_ok source he p xs : (isd (he_uuidNuggetType he) = true -> strings p xs) ->
  entity_ok (first_hello source he p).
Proof.
  intros Hp. unfold entity_ok, first_hello. simpl. destruct (isd (he_uuidNuggetType he)) eqn:Ed; [|done].
  eexists _, xs. split; [reflexivity|]. by apply Hp.
Qed.

(** The assignment to an entity of the list, as the table it leaves. *)
Lemma assigned_tracks t as1 a as2 es1 e es2 hs e' : tracks t (as1 ++ a :: as2) (es1 ++ e :: es2) hs ->
  length as1 = length es1 -> ce_uuidNuggetId e' = ce_uuidNuggetId e -> entity_ok e' ->
  tracks (with_store t (set_entities (t_store t) (<[a := e']> (st_entities (t_store t)))))
    (as1 ++ a :: as2) (es1 ++ e' :: es2) hs.
Proof.
  intros Ht Hl Hid Hok. pose proof (tracks_at _ _ _ _ _ _ _ _ Ht Hl) as Ha.
  destruct (assign_tracks t as1 a as2 es1 e es2 hs (fun _ => e') Ht Hl Hid Hok) as (t2 & E2 & Ht2 & _).
  unfold assign in E2. rewrite Ha in E2. cbn [mbind option_bind] in E2. by injection E2 as <-.
Qed.

Lemma Update_run undef pushes now m source he xs t es hs : holds t es hs -> is_hello m source he ->
  (isd (he_uuidNuggetType he) = true -> strings (he_addressList he) xs) ->
  exists ok t', ConnectedEntityList_Update sg transports undef pushes now (Some m) t = Some (ok, t') /\
    st_calls (t_store t') = st_calls (t_store t) /\ (~ faulty t pushes -> st_allocs (t_store t') = []) /\
    (known source es -> ok = true /\ holds t' (refresh now source he es) hs) /\
    (~ known source es -> holds t' es hs /\ faulty t pushes \/
       ok = true /\ exists l, (isd (he_uuidNuggetType he) = true -> strings l xs) /\
         holds t' (es ++ [refreshed now he (first_hello source he l)]) hs).
Proof.
  intros [as_ Ht] Hm Hx. destruct (tr_list _ _ _ _ Ht) as (l & El & _).
  pose proof (known_find source es (tr_ids _ _ _ _ Ht)) as Hkn. rewrite (Update_tail_eq _ _ _ _ _ l El (proj1 Hm)).
  destruct (GetEntity_run undef pushes m source he xs t as_ es hs Ht Hm Hx) as (r & t1 & E1 & Hc1 & Hnf & Hcase).
  rewrite (TM_bind_eq _ _ _ _ _ E1). destruct Hm as (_ & Hh & _). destruct (find_first _ es) as [e|].
  - destruct Hkn as [Hk Hid]. destruct Hcase as (-> & as1 & a & as2 & es1 & es2 & -> & -> & Hl & ->).
    pose proof (tracks_at _ _ _ _ _ _ _ _ Ht Hl) as Ha. pose proof (tr_ok _ _ _ _ Ht) as Ho.
    apply Forall_app in Ho as [_ [He _]%Forall_cons].
    destruct (update_tail_run now m he a e t Hh Ha He) as (t' & E & ->). exists true. eexists.
    split_and!; [exact E|done|exact Hnf| |done]. intros _. split; [done|]. exists (as1 ++ a :: as2).
    rewrite refresh_split by (done || exact (tr_ids _ _ _ _ Ht)). apply assigned_tracks with e; [done..|by apply refreshed_ok].
  - destruct Hcase as [(-> & Ht1 & Hfa)|(a & p & -> & Hp & Ha & Hor)].
    { exists false, t1. split_and!; [done..|]. intros _. left. split; [by exists as_|done]. }
    pose proof (first_hello_ok source he p xs Hp) as He.
    destruct (update_tail_run now m he a _ t1 Hh Ha He) as (t' & E & ->). exists true. eexists.
    split_and!; [exact E|done|exact Hnf|done|]. intros _. destruct Hor as [(Ht1 & Hna & Hfa)|Ht1]; [left|right].
    + split; [|done]. exists as_. destruct Ht1 as [? ? Hv ? ? ?]. split; simpl; try done. by apply live_insert.
    + split; [done|]. exists p. split; [done|]. exists (as_ ++ [a]).
      apply assigned_tracks with (first_hello source he p); [done| |done|by apply refreshed_ok].
      by eapply tracks_length.
Qed.

(** *** Pruning *)

(** Of the same nugget type and application type. *)
Definition same_kind (e e' : ConnectedEntity) : bool :=
  bool_decide (ce_uuidNuggetType e = ce_uuidNuggetType e') &&
  bool_decide (ce_uuidApplicationType e = ce_uuidApplicationType e').

Definition count_kind (e : ConnectedEntity) (es : list ConnectedEntity) : nat :=
  length (filter (fun e' => same_kind e e' = true) es).

(** Silent for longer than the dead time. *)
Definition silent (now : ConnectedEntity -> Z) (e : ConnectedEntity) : bool :=
  (0 <? ce_tTimeOfLastHello e) && (DeadTime cfg <? now e - ce_tTimeOfLastHello e).

(** The calls to the listeners for a removed entity. *)
Definition notices (es : list ConnectedEntity) (hs : list ConnectedEntityHook) (e : ConnectedEntity)
    : list (positive * ConnectedEntity * Z) :=
  map (fun h => (h_entityRemoved h, e, u32 (u32 (Z.of_nat (count_kind e es)) - 1))) hs.

Lemma count_foldl (p : ConnectedEntity -> bool) es n :
  foldl (fun u e => if p e then u32 (u + 1) else u) (u32 n) es = u32 (n + Z.of_nat (length (filter (fun e => p e = true) es))).
Proof.
  revert n. induction es as [|e es IH]; intros n; simpl; [by rewrite Z.add_0_r|].
  unfold filter. simpl. destruct (decide (p e = true)) as [->|Hp].
  - unfold u32 at 2. rewrite wrap_add_l. fold (u32 (n + 1)). rewrite IH. simpl. f_equal. lia.
  - apply not_true_is_false in Hp. rewrite Hp. apply IH.
Qed.

Lemma count_run t as_ es hs item e : tracks t as_ es hs -> st_entities (t_store t) !! item = Some e ->
  List_ForEach (sg_pEntityList t) (Some (ConnectedEntityList_CountNuggets item)) 0 (t_store t) =
    Some (true, sg_pEntityList t, u32 (Z.of_nat (count_kind e es)), t_store t).
Proof.
  intros Ht Hi.
  rewrite (each_reads _ (fun u _ e' => if same_kind e e' then u32 (u + 1) else u) t as_ es hs 0 Ht).
  - rewrite (foldl_zip_snd (fun u e' => if same_kind e e' then u32 (u + 1) else u)) by by eapply tracks_length.
    pose proof (count_foldl (same_kind e) es 0) as Ec. change (u32 0) with 0 in Ec. by rewrite Ec.
  - intros a e' u Ha _. unfold ConnectedEntityList_CountNuggets. rewrite Ha, Hi. cbn [mbind option_bind].
    by rewrite !uuid_compare_eqb.
Qed.

Lemma HookWrapper_eq item e count h s : st_entities s !! item = Some e ->
  ConnectedEntityList_HookWrapper item count h () s =
  Some (LIST_EACH_OK, (), set_calls s (st_calls s ++ [(h_entityRemoved h, e, u32 (count - 1))])).
Proof. intros E. unfold ConnectedEntityList_HookWrapper. by rewrite E. Qed.

Lemma hooks_run t as_ es hs item e count : tracks t as_ es hs -> st_entities (t_store t) !! item = Some e ->
  List_ForEach (sg_pHookList t) (Some (ConnectedEntityList_HookWrapper item count)) () (t_store t) =
    Some (true, sg_pHookList t, (),
      set_calls (t_store t) (st_calls (t_store t) ++ map (fun h => (h_entityRemoved h, e, u32 (count - 1))) hs)).
Proof.
  intros Ht. destruct (tr_hooks _ _ _ _ Ht) as (l & El & Hc & Hl). destruct Hl as (_ & _ & [Hl1 Hl2] & _).
  rewrite El. generalize (t_store t) as s. intros s Hi.
  pose proof (ForEach_contents (ConnectedEntityList_HookWrapper item count) l hs () s Hc) as HF.
  assert (Es : spec.scan (ConnectedEntityList_HookWrapper item count) None None hs () s true =
    Some (true, replicate (length hs) false, (),
      set_calls s (st_calls s ++ map (fun h => (h_entityRemoved h, e, u32 (count - 1))) hs))).
  { clear -Hi. revert s Hi. induction hs as [|h hs IH]; intros s Hi; simpl; [by rewrite app_nil_r; destruct s|].
    rewrite (HookWrapper_eq item e count h s Hi). simpl. rewrite IH by done. simpl. by rewrite <- app_assoc. }
  unfold spec.for_each in HF. rewrite Hl1, Hl2, Es in HF. simpl in HF. destruct (select_none hs) as [E1 E2].
  rewrite E1, E2 in HF. destruct HF as (l' & E & _ & _ & _ & Hid). rewrite E. by rewrite (Hid eq_refl).
Qed.

Lemma PruneEntity_eq now t as_ es hs a e calls : tracks t as_ es hs -> st_entities (t_store t) !! a = Some e ->
  ConnectedEntityList_PruneEntity cfg (sg_pEntityList t) (sg_pHookList t) now a () (set_calls (t_store t) calls) =
  Some (if silent now e then LIST_EACH_REMOVE else LIST_EACH_OK, (),
    set_calls (t_store t) (calls ++ if silent now e then notices es hs e else [])).
Proof.
  intros Ht Ha. unfold ConnectedEntityList_PruneEntity. cbn [st_entities set_calls]. rewrite Ha. cbn [mbind option_bind].
  fold (silent now e). destruct (silent now e); [|by rewrite app_nil_r].
  set (t1 := with_store t (set_calls (t_store t) calls)).
  assert (Ht1 : tracks t1 as_ es hs) by by apply (tracks_ext t).
  pose proof (count_run t1 as_ es hs a e Ht1 Ha) as Ec. cbn [t1 sg_pEntityList with_store t_store] in Ec. rewrite Ec.
  cbn [mbind option_bind].
  pose proof (hooks_run t1 as_ es hs a e (u32 (Z.of_nat (count_kind e es))) Ht1 Ha) as Eh.
  cbn [t1 sg_pHookList with_store t_store] in Eh. by rewrite Eh.
Qed.

Lemma scan_prune now t as_ es hs as' es' calls : tracks t as_ es hs ->
  Forall2 (fun a e => st_entities (t_store t) !! a = Some e) as' es' ->
  spec.scan (ConnectedEntityList_PruneEntity cfg (sg_pEntityList t) (sg_pHookList t) now) None None as' ()
    (set_calls (t_store t) calls) true =
  Some (true, map (silent now) es', (),
    set_calls (t_store t) (calls ++ concat (map (notices es hs) (filter (fun e => silent now e = true) es')))).
Proof.
  intros Ht Hv. revert calls. induction Hv as [|a e as' es' Ha Hv IH]; intros calls; [by simpl; rewrite app_nil_r|].
  simpl. rewrite (PruneEntity_eq now t as_ es hs a e calls Ht Ha). rewrite filter_cons.
  destruct (silent now e) eqn:Es; simpl; rewrite IH; simpl; [by rewrite <- app_assoc|by rewrite app_nil_r].
Qed.

Lemma destroy_entities ds s : spec.destroy_all (Some ConnectedEntity_Delete) ds s =
  set_entities s (foldl (fun m a => delete a m) (st_entities s) ds).
Proof. revert s. induction ds as [|d ds IH]; intros s; [by destruct s|]. unfold spec.destroy_all in *. simpl. by rewrite IH. Qed.

Lemma Prune_run now t es hs : holds t es hs ->
  exists t', ConnectedEntityList_Prune cfg now t = Some ((), t') /\
    holds t' (filter (fun e => silent now e = false) es) hs /\
    st_calls (t_store t') = st_calls (t_store t) ++ concat (map (notices es hs) (filter (fun e => silent now e = true) es)) /\
    st_allocs (t_store t') = st_allocs (t_store t).
Proof.
  intros [as_ Ht]. pose proof Ht as [(l & El & Hc & Hl) (lh & Elh & Hch & Hlh) Hv Hn Hi Ho].
  pose proof Hl as (_ & _ & [Hl1 Hl2] & _ & Hde).
  set (op := ConnectedEntityList_PruneEntity cfg (sg_pEntityList t) (sg_pHookList t) now).
  pose proof (ForEach_contents op l as_ () (t_store t) Hc) as HF.
  pose proof (scan_prune now t as_ es hs as_ es (st_calls (t_store t)) Ht Hv) as Es.
  replace (set_calls (t_store t) (st_calls (t_store t))) with (t_store t) in Es by by destruct (t_store t).
  fold op in Es. unfold spec.for_each in HF. rewrite Hl1, Hl2, Es in HF. cbn [mbind option_bind] in HF.
  rewrite Hde, destroy_entities in HF.
  destruct HF as (l' & E & Hme & _ & Hc' & _).
  destruct (select_split (map (silent now) es) as_ Hn) as (Hn' & Hin & Hdis).
  destruct (select_filter (silent now) es) as [Ef _].
  eexists. split.
  { assert (Ep : ConnectedEntityList_Prune cfg now t = entity_each op () t).
    { unfold ConnectedEntityList_Prune, op. erewrite TM_bind_eq by reflexivity. by destruct (sg_pEntityList t). }
    rewrite Ep. clearbody op. unfold entity_each. rewrite El, E. reflexivity. }
  split_and!; [|done..]. exists (spec.select false (map (silent now) es) as_). rewrite <- Ef.
  split; simpl; [|by exists lh| |done| |].
  - exists l'. split_and!; [done..|]. by eapply table_list_meta.
  - apply live_deletes; [by apply select_Forall2|]. intros a Ha. by apply Hdis.
  - rewrite Ef. eapply sublist_NoDup; [exact Hi|]. apply (fmap_sublist ce_uuidNuggetId), sublist_filter.
  - rewrite Ef. apply Forall_forall. intros e [_ He]%list_elem_of_filter. by apply (proj1 (Forall_forall _ _) Ho).
Qed.

(** *** Choosing a dispatcher *)

Definition usable (e : ConnectedEntity) : bool := match ce_dispatcher e with Some d => de_usable d | None => false end.
Definition dispatchers_of (es : list ConnectedEntity) : list ConnectedEntity :=
  filter (fun e => isd (ce_uuidNuggetType e) = true) es.

(** [c] is a clone of [e]: equal but for the list of addresses, which holds the same
    strings. *)
Definition clone_of_entity (e c : ConnectedEntity) : Prop :=
  exists d l xs, ce_dispatcher e = Some d /\ strings (de_addressList d) xs /\ strings (Some l) xs /\
    c = set_dispatcher (Some (set_addressList (Some l) d)) e.

Lemma Clone_run pushes e o : isd (ce_uuidNuggetType e) = true -> entity_ok e ->
  exists r o', ConnectedEntity_Clone pushes e o = Some (r, o') /\ (forall c, r = Some c -> clone_of_entity e c) /\
    (o = [] -> pushes = [] -> r <> None /\ o' = []).
Proof.
  unfold entity_ok. intros -> (d & xs & Ed & Hx). unfold ConnectedEntity_Clone. rewrite !alloc_bind, Ed.
  destruct (fst (alloc_next o)) eqn:E1; [|eexists None, _; split_and!; [done..|]; by intros ->].
  destruct (fst (alloc_next (snd (alloc_next o)))) eqn:E2.
  2: { eexists None, _. split_and!; [done..|]. by intros ->. }
  rewrite deref_bind.
  destruct (strings_clone pushes (de_addressList d) xs (snd (alloc_next (snd (alloc_next o)))) Hx) as (r & o' & Ec & Hr).
  unfold mbind, M_bind. rewrite Ec.
  assert (Hgood : o = [] -> pushes = [] -> r <> None /\ o' = []).
  { intros -> ->. destruct (strings_clone_ok _ _ Hx) as (l & E & _). simpl in Ec. rewrite E in Ec. by simplify_eq. }
  destruct r as [l|]; [|eexists None, _; split_and!; [done..|intros Ho Hp; by destruct (Hgood Ho Hp)]].
  eexists _, o'. split; [reflexivity|]. split; [|intros Ho Hp; by destruct (Hgood Ho Hp)].
  intros c [= <-]. exists d, l, xs. split_and!; [done|done|by apply Hr|done].
Qed.

Lemma CollectDispatchers_eq a e l s : st_entities s !! a = Some e ->
  ConnectedEntityList_CollectDispatchers sg a (Some l) s =
  if isd (ce_uuidNuggetType e) then
    '(_, p) ← List_Push (fst (alloc_next (st_allocs s))) (Some l) a;
    Some (LIST_EACH_OK, p, set_allocs s (snd (alloc_next (st_allocs s))))
  else Some (LIST_EACH_OK, Some l, s).
Proof.
  intros E. unfold ConnectedEntityList_CollectDispatchers. rewrite E. cbn [mbind option_bind].
  rewrite IsDispatcherType_eq. cbn [mbind option_bind]. by destruct (alloc_next (st_allocs s)).
Qed.

Lemma collect_scan as' es' s l ds dsE :
  Forall2 (fun a e => st_entities s !! a = Some e) as' es' ->
  contents l ds -> table_list l ConnectedEntity_KeyCmp None -> Forall2 (fun a e => st_entities s !! a = Some e) ds dsE ->
  exists l' ds' dsE' o, spec.scan (ConnectedEntityList_CollectDispatchers sg) None None as' (Some l) s true =
      Some (true, replicate (length as') false, Some l', set_allocs s o) /\
    contents l' ds' /\ table_list l' ConnectedEntity_KeyCmp None /\
    Forall2 (fun a e => st_entities s !! a = Some e) ds' dsE' /\
    (exists ns, dsE' = dsE ++ ns /\ sublist ns (dispatchers_of es')) /\
    (st_allocs s = [] -> o = [] /\ dsE' = dsE ++ dispatchers_of es').
Proof.
  intros Hv. revert s l ds dsE es' Hv. induction as' as [|a as' IH]; intros s l ds dsE es' Hv Hc Hl Hd.
  { apply Forall2_nil_inv_l in Hv as ->. exists l, ds, dsE, (st_allocs s). rewrite set_allocs_same.
    split_and!; [done..| |]; [exists []; by rewrite app_nil_r|intros ->; by rewrite app_nil_r]. }
  apply Forall2_cons_inv_l in Hv as (e & es'' & Ha & Hv & ->). unfold dispatchers_of. rewrite filter_cons.
  fold (dispatchers_of es''). cbn [spec.scan run_callback].
  rewrite (CollectDispatchers_eq a e l s Ha). destruct (isd (ce_uuidNuggetType e)) eqn:Ed.
  - destruct (alloc_next (st_allocs s)) as [ok o1] eqn:Eo. cbn [fst snd].
    destruct (table_push l _ _ ds a ok Hc Hl) as (l1 & -> & Hl1 & Hc1). cbn [mbind option_bind].
    change (LIST_EACH_OK == LIST_EACH_ERROR) with false. change (LIST_EACH_OK == LIST_EACH_END) with false. cbv iota.
    destruct (IH (set_allocs s o1) l1 _ (if ok then dsE ++ [e] else dsE) es'' Hv Hc1 Hl1)
      as (l' & ds' & dsE' & o & E & Hc' & Hl' & Hd' & (ns & -> & Hns) & Hok).
    { destruct ok; [|done]. apply Forall2_app; [done|]. by constructor. }
    cbn [run_callback]. rewrite E. cbn [mbind option_bind]. exists l', ds'. eexists _, o. split_and!; [reflexivity|done..| |].
    + destruct ok; [exists (e :: ns)|exists ns]; rewrite <- ?app_assoc; (split; [done|]); by constructor.
    + intros Es. rewrite Es in Eo. simplify_eq/=. destruct (Hok eq_refl) as [-> En]. split; [done|]. rewrite En.
      by rewrite <- app_assoc.
  - cbn [mbind option_bind]. change (LIST_EACH_OK == LIST_EACH_ERROR) with false.
    change (LIST_EACH_OK == LIST_EACH_END) with false. cbv iota. cbn [run_callback].
    destruct (IH s l ds dsE es'' Hv Hc Hl Hd) as (l' & ds' & dsE' & o & E & Hc' & Hl' & Hd' & Hns & Hok).
    rewrite E. cbn [mbind option_bind]. exists l', ds', dsE', o. by split_and!.
Qed.

(** The dispatchers of the table in a list of their own. *)
Lemma collect_run t as_ es hs l : tracks t as_ es hs -> contents l [] -> table_list l ConnectedEntity_KeyCmp None ->
  exists l' ds dsE o,
    entity_each (ConnectedEntityList_CollectDispatchers sg) (Some l) t =
      Some (Some l', with_store t (set_allocs (t_store t) o)) /\
    contents l' ds /\ table_list l' ConnectedEntity_KeyCmp None /\
    Forall2 (fun a e => st_entities (t_store t) !! a = Some e) ds dsE /\ sublist dsE (dispatchers_of es) /\
    (st_allocs (t_store t) = [] -> o = [] /\ dsE = dispatchers_of es).
Proof.
  intros Ht Hc Hl. destruct Ht as [(le & El & Hce & Hle) _ Hv _ _ _]. destruct Hle as (_ & _ & [Hl1 Hl2] & _).
  destruct (collect_scan as_ es (t_store t) l [] [] Hv Hc Hl ltac:(constructor))
    as (l' & ds & dsE & o & E & Hc' & Hl' & Hd & (ns & -> & Hns) & Hok).
  pose proof (ForEach_contents (ConnectedEntityList_CollectDispatchers sg) le as_ (Some l) (t_store t) Hce) as HF.
  unfold spec.for_each in HF. rewrite Hl1, Hl2, E in HF. cbn [mbind option_bind] in HF.
  destruct (select_none as_) as [E1 E2]. rewrite E1, E2 in HF. destruct HF as (le' & EF & _ & _ & _ & Hid).
  exists l', ds, ns, o. split_and!; [|done..]. unfold entity_each. rewrite El, EF. cbn [mbind option_bind spec.destroy_all foldl].
  rewrite (Hid eq_refl). unfold with_entities, with_store. by rewrite El.
Qed.

(** The dispatchers of a well-formed table have their part. *)
Lemma dispatchers_ok es e : Forall entity_ok es -> e ∈ dispatchers_of es ->
  isd (ce_uuidNuggetType e) = true /\ entity_ok e /\ is_Some (ce_dispatcher e).
Proof.
  intros Ho [Hi He]%list_elem_of_filter. pose proof (proj1 (Forall_forall _ _) Ho e He) as Hok.
  split_and!; [done..|]. unfold entity_ok in Hok. rewrite Hi in Hok. destruct Hok as (d & _ & -> & _). by exists d.
Qed.

Lemma find_first_ext_in {A} (p q : A -> bool) xs : (forall x, x ∈ xs -> p x = q x) -> find_first p xs = find_first q xs.
Proof.
  induction xs as [|x xs IH]; intros Hpq; [done|]. simpl. rewrite (Hpq x) by (apply elem_of_cons; by left).
  rewrite IH; [done|]. intros y Hy. apply Hpq, elem_of_cons. by right.
Qed.

(** A search of that list for a usable dispatcher, in a locality or not. *)
Lemma dispatcher_find_run t l ds dsE key : contents l ds -> table_list l ConnectedEntity_KeyCmp None ->
  Forall2 (fun a e => st_entities (t_store t) !! a = Some e) ds dsE ->
  (forall a e, st_entities (t_store t) !! a = Some e -> is_Some (ce_dispatcher e) ->
     (ConnectedEntity_KeyCmp (t_store t) a key == 0) = usable e) -> Forall (fun e => is_Some (ce_dispatcher e)) dsE ->
  exists r, dispatcher_find (Some l) key t = Some (r, t) /\
    match find_first usable dsE with
    | None => r = None
    | Some e => exists a, r = Some a /\ st_entities (t_store t) !! a = Some e
    end.
Proof.
  intros Hc Hl Hd HP Hs. destruct Hl as (_ & _ & Hno & Hk & _). unfold dispatcher_find.
  rewrite (Find_contents l ds _ key (t_store t) Hc Hno Hk). cbn [mbind option_bind]. rewrite with_store_same.
  eexists. split; [reflexivity|]. clear Hc. induction Hd as [|a e ds dsE Ha Hd IH]; [done|].
  apply Forall_cons in Hs as [He Hs]. simpl. rewrite (HP a e Ha He). destruct (usable e); [by exists a|]. by apply IH.
Qed.

Lemma find_backup_run t l ds dsE locs : contents l ds -> table_list l ConnectedEntity_KeyCmp None ->
  Forall2 (fun a e => st_entities (t_store t) !! a = Some e) ds dsE -> Forall (fun e => is_Some (ce_dispatcher e)) dsE ->
  find_first usable dsE = None ->
  find_backup (Some l) (Z.lor (Z.lor 0 SEARCH_KEY_LOCALITY) SEARCH_KEY_USABLE) locs t = Some (None, t).
Proof.
  intros Hc Hl Hd Hs Hf. induction locs as [|x locs IH]; [done|]. cbn [find_backup].
  destruct (dispatcher_find_run t l ds dsE (mkEntityKey (Z.lor (Z.lor 0 SEARCH_KEY_LOCALITY) SEARCH_KEY_USABLE) None None None x)
    Hc Hl Hd) as (r & E & Hr); [|done|].
  - intros a e Ha [d Hd']. rewrite (KeyCmp_locality_usable _ _ _ Ha), Hd'. unfold usable. by rewrite Hd'.
  - rewrite (TM_bind_eq _ _ _ _ _ E). rewrite Hf in Hr. by rewrite Hr.
Qed.

Lemma choose_run t l ds dsE : contents l ds -> table_list l ConnectedEntity_KeyCmp None ->
  Forall2 (fun a e => st_entities (t_store t) !! a = Some e) ds dsE -> Forall (fun e => is_Some (ce_dispatcher e)) dsE ->
  exists r, choose_dispatcher cfg (Some l) t = Some (r, t) /\
    match find_first usable dsE with
    | None => r = None
    | Some e => exists a, r = Some a /\ st_entities (t_store t) !! a = Some e
    end.
Proof.
  intros Hc Hl Hd Hs. unfold choose_dispatcher. cbv zeta.
  destruct (dispatcher_find_run t l ds dsE (mkEntityKey (Z.lor (Z.lor 0 SEARCH_KEY_LOCALITY) SEARCH_KEY_USABLE) None None None
    (u8 (LocalityId cfg))) Hc Hl Hd) as (r & E & Hr); [|done|].
  { intros a e Ha [d Hd']. rewrite (KeyCmp_locality_usable _ _ _ Ha), Hd'. unfold usable. by rewrite Hd'. }
  destruct (dispatcher_find_run t l ds dsE (mkEntityKey SEARCH_KEY_USABLE None None None 0) Hc Hl Hd) as (r2 & E2 & Hr2);
    [by intros a e Ha _; rewrite (KeyCmp_usable _ _ _ Ha)|done|].
  rewrite (TM_bind_eq _ _ _ _ _ E). destruct (find_first usable dsE) as [e|] eqn:Ef.
  - destruct Hr as (a & -> & Ha). exists (Some a). split; [done|]. by exists a.
  - rewrite Hr, (TM_bind_eq _ _ _ _ _ (find_backup_run t l ds dsE _ Hc Hl Hd Hs Ef)). by exists r2.
Qed.

(** [List_Create] in [new_list] makes an empty list of the table, or fails. *)
Lemma new_list_run {Key Item} (cmp : Store -> Item -> Item -> Z) (kc : Store -> Item -> Key -> Z) de t :
  exists r o, new_list cmp kc de t = Some (r, with_store t (set_allocs (t_store t) o)) /\
    (forall l, r = Some l -> contents l [] /\ table_list l kc de) /\
    (st_allocs (t_store t) = [] -> o = [] /\ r <> None).
Proof.
  unfold new_list. destruct (alloc_next (st_allocs (t_store t))) as [b1 o1] eqn:E1.
  destruct (if b1 then alloc_next o1 else (true, o1)) as [b2 o2] eqn:E2. eexists _, o2. split; [reflexivity|]. split.
  - intros l El. split; [by eapply Create_contents|]. unfold List_Create in El. repeat case_match; simplify_eq. by split_and!.
  - intros Ha. rewrite Ha in E1. simplify_eq/=. split; [done|]. discriminate.
Qed.

(** The end of the choice: the clone of the entity chosen. *)
Lemma clone_found_run pushes t e a : st_entities (t_store t) !! a = Some e -> isd (ce_uuidNuggetType e) = true -> entity_ok e ->
  exists r o, (e ← entity_at a; run (ConnectedEntity_Clone pushes e)) t = Some (r, with_store t (set_allocs (t_store t) o)) /\
    (forall c, r = Some c -> clone_of_entity e c) /\
    (st_allocs (t_store t) = [] -> pushes = [] -> r <> None /\ o = []).
Proof.
  intros Ha Hi Ho. assert (E : entity_at a t = Some (e, t)) by (unfold entity_at; by rewrite Ha).
  rewrite (TM_bind_eq _ _ _ _ _ E).
  destruct (Clone_run pushes e (st_allocs (t_store t)) Hi Ho) as (r & o & Ec & Hc & Hok). exists r, o. split_and!; [|done..].
  by apply run_eq.
Qed.

Lemma GetDispatcher_run pushes t es hs : holds t es hs -> Z.of_nat (length es) < 2 ^ 32 ->
  exists r o, ConnectedEntityList_GetDispatcher sg cfg pushes t = Some (r, with_store t (set_allocs (t_store t) o)) /\
    (forall c, r = Some c -> exists e, e ∈ dispatchers_of es /\ usable e = true /\ clone_of_entity e c) /\
    (st_allocs (t_store t) = [] -> pushes = [] -> o = [] /\
       match find_first usable (dispatchers_of es) with
       | Some e => exists c, r = Some c /\ clone_of_entity e c
       | None => r = None
       end).
Proof.
  intros [as_ Ht] Hlen. unfold ConnectedEntityList_GetDispatcher.
  destruct (new_list_run ConnectedEntity_Cmp ConnectedEntity_KeyCmp None t) as (p & o2 & En & Hp & Hno).
  rewrite (TM_bind_eq _ _ _ _ _ En). set (t2 := with_store t (set_allocs (t_store t) o2)).
  assert (Ht2 : tracks t2 as_ es hs) by by apply (tracks_ext t). pose proof (tr_ok _ _ _ _ Ht) as Hes.
  destruct p as [l|]; [|exists None, o2; split_and!; [done..|]; intros Ha _; by destruct (Hno Ha)].
  destruct (Hp l eq_refl) as [Hc Hl]. destruct (collect_run t2 as_ es hs l Ht2 Hc Hl)
    as (l' & ds & dsE & o3 & Ec & Hc' & Hl' & Hd & Hsub & Hok).
  rewrite (TM_bind_eq _ _ _ _ _ Ec). set (t3 := with_store t2 (set_allocs (t_store t2) o3)) in *.
  assert (Hin : forall e, e ∈ dsE -> e ∈ dispatchers_of es) by (intros e He; by eapply elem_of_sublist).
  assert (Hs : Forall (fun e => is_Some (ce_dispatcher e)) dsE).
  { apply Forall_forall. intros e He. by apply (dispatchers_ok es), Hin. }
  assert (Hsz : u32 (List_Length (Some l')) = Z.of_nat (length dsE)).
  { unfold List_Length. rewrite (contents_length _ _ Hc'), (Forall2_length _ _ _ Hd).
    assert (length dsE <= length es)%nat.
    { etransitivity; [by apply sublist_length|]. apply sublist_length, sublist_filter. }
    unfold u64. rewrite (wrap_small 64) by (unfold in_width; lia). unfold u32. apply wrap_small. unfold in_width. lia. }
  rewrite Hsz. destruct (Z.eqb_spec (Z.of_nat (length dsE)) 0) as [Hz|Hz].
  { assert (dsE = []) as Hnil by (destruct dsE; [done|simpl in Hz; lia]). exists None, o3. split_and!; [done..|].
    intros Ha _. destruct (Hno Ha) as [-> _]. destruct (Hok eq_refl) as [-> Hfull]. split; [done|]. by rewrite <- Hfull, Hnil. }
  destruct (choose_run t3 l' ds dsE Hc' Hl' Hd Hs) as (r & Ech & Hr).
  rewrite (TM_bind_eq _ _ _ _ _ Ech).
  assert (Hcl : forall e a, find_first usable dsE = Some e -> st_entities (t_store t3) !! a = Some e ->
    e ∈ dispatchers_of es /\ usable e = true /\ exists r o,
      (e ← entity_at a; run (ConnectedEntity_Clone pushes e)) t3 = Some (r, with_store t3 (set_allocs (t_store t3) o)) /\
      (forall c, r = Some c -> clone_of_entity e c) /\
      (st_allocs (t_store t3) = [] -> pushes = [] -> r <> None /\ o = [])).
  { intros e a [He Hu]%find_first_elem Ha. destruct (dispatchers_ok es e Hes (Hin e He)) as (Hi & Ho & _).
    split_and!; [by apply Hin|done|]. by apply clone_found_run. }
  destruct (find_first usable dsE) as [e|] eqn:Ef.
  - destruct Hr as (a & -> & Ha). destruct (Hcl e a eq_refl Ha) as (He & Hu & r & o & E & Hc1 & Hok1).
    exists r, o. split_and!; [exact E|intros c Hc2; exists e; auto|].
    intros Hao Hpu. destruct (Hno Hao) as [-> _]. destruct (Hok eq_refl) as [-> <-]. rewrite Ef.
    destruct (Hok1 eq_refl Hpu) as [Hne ->]. split; [done|]. destruct r as [c|]; [|done]. exists c. auto.
  - subst r. exists None, o3. split_and!; [done..|]. intros Hao Hpu. destruct (Hno Hao) as [-> _].
    destruct (Hok eq_refl) as [-> <-]. by rewrite Ef.
Qed.

(** *** The dispatcher of the highest priority *)

Definition priority (e : ConnectedEntity) : Z := match ce_dispatcher e with Some d => de_priority d | None => 0 end.

(** [cur] is the address of the first dispatcher of the highest priority among
    [seen]. *)
Definition highest (s : Store) (cur : option positive) (seen : list ConnectedEntity) : Prop :=
  match cur with
  | None => dispatchers_of seen = []
  | Some a => exists e es1 es2, st_entities s !! a = Some e /\ entity_ok e /\ isd (ce_uuidNuggetType e) = true /\
      dispatchers_of seen = es1 ++ e :: es2 /\ Forall (fun e' => priority e' < priority e) es1 /\
      Forall (fun e' => priority e' <= priority e) es2
  end.

Lemma CollectHigh_eq s a e cur seen : st_entities s !! a = Some e -> entity_ok e -> highest s cur seen ->
  exists cur', ConnectedEntityList_CollectHighDispatcher sg a cur s = Some (LIST_EACH_OK, cur', s) /\
    highest s cur' (seen ++ [e]).
Proof.
  intros Ha He Hc. unfold ConnectedEntityList_CollectHighDispatcher. rewrite Ha. cbn [mbind option_bind].
  rewrite IsDispatcherType_eq. cbn [mbind option_bind]. unfold highest, dispatchers_of in *.
  destruct (isd (ce_uuidNuggetType e)) eqn:Ed.
  2: { exists cur. split; [done|]. rewrite filter_app, filter_cons, decide_False by congruence. simpl. by rewrite app_nil_r. }
  rewrite filter_app, filter_cons, decide_True by done. simpl. destruct cur as [c|].
  - destruct Hc as (b & es1 & es2 & Hb & Hbo & Hbi & Hsp & H1' & H2'). rewrite Hb. cbn [mbind option_bind].
    pose proof Hbo as Hbo'. pose proof He as He'. unfold entity_ok in Hbo', He'. rewrite Hbi in Hbo'. rewrite Ed in He'.
    destruct Hbo' as (d & _ & Edb & _), He' as (d' & _ & Ede & _). rewrite Edb, Ede. cbn [mbind option_bind].
    eexists. split; [reflexivity|]. rewrite Hsp.
    destruct (Z.ltb_spec (de_priority d) (de_priority d')).
    + exists e, (es1 ++ b :: es2), []. split_and!; [done..| |constructor].
      assert (Hbe : priority b < priority e) by (unfold priority; rewrite Edb, Ede; done).
      apply Forall_app. split; [|apply Forall_cons; split; [done|]]; (eapply Forall_impl; [eassumption|]); intros x Hx; cbv beta in *; lia.
    + exists b, es1, (es2 ++ [e]). rewrite <- app_assoc. split_and!; [done..|]. apply Forall_app. split; [done|].
      apply Forall_cons. split; [|constructor]. unfold priority. rewrite Edb, Ede. lia.
  - eexists. split; [reflexivity|]. exists e, [], []. rewrite Hc. by split_and!; try constructor.
Qed.

Lemma scan_high s as' es' cur seen : Forall2 (fun a e => st_entities s !! a = Some e) as' es' -> Forall entity_ok es' ->
  highest s cur seen ->
  exists cur', spec.scan (ConnectedEntityList_CollectHighDispatcher sg) None None as' cur s true =
      Some (true, replicate (length as') false, cur', s) /\ highest s cur' (seen ++ es').
Proof.
  intros Hv. revert cur seen. induction Hv as [|a e as' es' Ha Hv IH]; intros cur seen Ho Hc.
  { exists cur. by rewrite app_nil_r. }
  apply Forall_cons in Ho as [He Ho]. destruct (CollectHigh_eq s a e cur seen Ha He Hc) as (cur1 & E & Hc1).
  destruct (IH cur1 _ Ho Hc1) as (cur' & E' & Hc'). rewrite <- app_assoc in Hc'. exists cur'. split; [|done].
  cbn [spec.scan run_callback]. rewrite E. cbn [mbind option_bind].
  change (LIST_EACH_OK == LIST_EACH_ERROR) with false. change (LIST_EACH_OK == LIST_EACH_END) with false. cbv iota.
  cbn [run_callback]. by rewrite E'.
Qed.

(** An iteration that removes nothing and leaves the store. *)
Lemma each_scan {U} (op : positive -> U -> Store -> option (Z * U * Store)) t as_ es hs u u' : tracks t as_ es hs ->
  spec.scan op None None as_ u (t_store t) true = Some (true, replicate (length as_) false, u', t_store t) ->
  entity_each op u t = Some (u', t).
Proof.
  intros [(l & El & Hc & Hl) _ _ _ _ _] Es. destruct Hl as (_ & _ & [Hl1 Hl2] & _).
  pose proof (ForEach_contents op l as_ u (t_store t) Hc) as HF. unfold spec.for_each in HF. rewrite Hl1, Hl2, Es in HF.
  cbn [mbind option_bind] in HF. destruct (select_none as_) as [E1 E2]. rewrite E1, E2 in HF.
  destruct HF as (l' & E & _ & _ & _ & Hid). unfold entity_each. rewrite El, E. cbn [mbind option_bind].
  rewrite (Hid eq_refl), <- El. by rewrite with_entities_same.
Qed.

Lemma HighestPriority_run pushes t es hs : holds t es hs ->
  exists r o, ConnectedEntityList_GetDispatcher_HighestPriority sg pushes t = Some (r, with_store t (set_allocs (t_store t) o)) /\
    (dispatchers_of es = [] -> r = None) /\
    (dispatchers_of es <> [] -> exists e es1 es2, dispatchers_of es = es1 ++ e :: es2 /\
       Forall (fun e' => priority e' < priority e) es1 /\ Forall (fun e' => priority e' <= priority e) es2 /\
       (forall c, r = Some c -> clone_of_entity e c) /\
       (st_allocs (t_store t) = [] -> pushes = [] -> r <> None)).
Proof.
  intros [as_ Ht]. destruct (tr_list _ _ _ _ Ht) as (l & El & _). unfold ConnectedEntityList_GetDispatcher_HighestPriority.
  erewrite TM_bind_eq by reflexivity. rewrite El.
  destruct (scan_high (t_store t) as_ es None [] (tr_live _ _ _ _ Ht) (tr_ok _ _ _ _ Ht) eq_refl) as (cur & Es & Hc).
  rewrite (TM_bind_eq _ _ _ _ _ (each_scan _ t as_ es hs None cur Ht Es)). destruct cur as [a|].
  - destruct Hc as (e & es1 & es2 & Ha & Ho & Hi & Hsp & Hlt & Hle).
    destruct (clone_found_run pushes t e a Ha Hi Ho) as (r & o & E & Hcl & Hok). exists r, o. split_and!; [exact E| |].
    + simpl in Hsp. rewrite Hsp. intros Hn. by destruct es1.
    + intros _. exists e, es1, es2. split_and!; [done..|]. intros Hao Hpu. by destruct (Hok Hao Hpu).
  - exists None, (st_allocs (t_store t)). rewrite set_allocs_same, with_store_same. by split_and!.
Qed.

(** *** Marking a dispatcher *)

Definition unusable (id : uuid_t) (es : list ConnectedEntity) : list ConnectedEntity :=
  map (fun e => if decide (ce_uuidNuggetId e = id) then set_dispatcher (set_usable false <$> ce_dispatcher e) e else e) es.

Lemma map_one {A} (p : A -> Prop) `{!forall x, Decision (p x)} (f : A -> A) xs1 x xs2 : p x ->
  Forall (fun y => ~ p y) (xs1 ++ xs2) -> map (fun y => if decide (p y) then f y else y) (xs1 ++ x :: xs2) = xs1 ++ f x :: xs2.
Proof.
  intros Hx [H1' H2']%Forall_app. assert (Hid : forall xs, Forall (fun y => ~ p y) xs -> map (fun y => if decide (p y) then f y else y) xs = xs).
  { induction 1 as [|y ys Hy _ IH]; [done|]. simpl. rewrite decide_False by done. by rewrite IH. }
  rewrite map_app. simpl. rewrite decide_True by done. by rewrite !Hid.
Qed.

Lemma other_ids es1 e es2 : NoDup (map ce_uuidNuggetId (es1 ++ e :: es2)) ->
  Forall (fun x => ce_uuidNuggetId x <> ce_uuidNuggetId e) (es1 ++ es2).
Proof.
  rewrite map_app. simpl. intros (_ & Hn1 & [Hn2 _]%NoDup_cons)%NoDup_app. apply Forall_forall. intros x Hx E.
  apply elem_of_app in Hx as [Hx|Hx].
  - apply (Hn1 (ce_uuidNuggetId x)); [by apply list_elem_of_fmap_2|]. rewrite E. apply elem_of_cons. by left.
  - apply Hn2. rewrite <- E. by apply list_elem_of_fmap_2.
Qed.

Lemma Mark_run id t es hs : holds t es hs ->
  (forall e, e ∈ es -> ce_uuidNuggetId e = id -> isd (ce_uuidNuggetType e) = true) ->
  exists t', ConnectedEntityList_MarkDispatcherUnusable id t = Some (bool_decide (known id es), t') /\
    holds t' (unusable id es) hs /\ st_calls (t_store t') = st_calls (t_store t).
Proof.
  intros [as_ Ht] Hd. unfold ConnectedEntityList_MarkDispatcherUnusable.
  pose proof (find_tracks t as_ es hs _ _ Ht (fun a e Hl => KeyCmp_id (t_store t) a e Hl id)) as Hf.
  pose proof (known_find id es (tr_ids _ _ _ _ Ht)) as Hkn. destruct (find_first _ es) as [e|].
  - destruct Hf as (as1 & a & as2 & es1 & es2 & -> & -> & Hl & Ef). destruct Hkn as [Hk Hid].
    rewrite (TM_bind_eq _ _ _ _ _ Ef). pose proof (tracks_at _ _ _ _ _ _ _ _ Ht Hl) as Ha.
    assert (E : entity_at a t = Some (e, t)) by (unfold entity_at; by rewrite Ha). rewrite (TM_bind_eq _ _ _ _ _ E).
    pose proof (tr_ok _ _ _ _ Ht) as Ho. apply Forall_app in Ho as [_ [He _]%Forall_cons]. pose proof He as He'.
    assert (Hi : isd (ce_uuidNuggetType e) = true) by (apply Hd; [apply elem_of_app; right; apply elem_of_cons; by left|done]).
    unfold entity_ok in He'. rewrite Hi in He'. destruct He' as (d & xs & Ed & Hx). rewrite Ed.
    destruct (assign_tracks t as1 a as2 es1 e es2 hs (set_dispatcher (Some (set_usable false d))) Ht Hl eq_refl)
      as (t' & E' & Ht' & _ & Hcs).
    { unfold entity_ok. simpl. rewrite Hi. by eexists _, xs. }
    rewrite (TM_bind_eq _ _ _ _ _ E'), bool_decide_eq_true_2 by done. exists t'. split_and!; [done| |done].
    exists (as1 ++ a :: as2). unfold unusable.
    rewrite (map_one (fun e => ce_uuidNuggetId e = id) (fun e => set_dispatcher (set_usable false <$> ce_dispatcher e) e));
      [by rewrite Ed|done|]. rewrite <- Hid. exact (other_ids _ _ _ (tr_ids _ _ _ _ Ht)).
  - rewrite (TM_bind_eq _ _ _ _ _ Hf), bool_decide_eq_false_2 by done. exists t. split_and!; [done| |done]. exists as_.
    replace (unusable id es) with es; [done|]. clear -Hkn. unfold known, unusable in *. induction es as [|e es IH]; [done|].
    simpl in *. apply not_elem_of_cons in Hkn as [? ?]. rewrite decide_False by done. by rewrite <- IH.
Qed.
End Rep.
