(* ===== verification/EntityThms.v ===== *)
(** * Theorems about connected entities

    What hellos, the pruning timer and the clients do to the table, that nothing
    crashes in a reachable table, and the way of a hello from the nugget that sends
    it to the client that looks for a dispatcher. *)

From S2P Require Import Prelude CLib RzbList RzbListProps ListM Hash LibUuid Uuids Ntlv Blocks JsonC JsonBuffer JsonCodec JsonNtlv JsonObjects JsonSafety JsonProps JsonText Messages MessageCodecs CncMessages MessageProps CncThms Entities EntitiesProps.

(** A list represents one sequence. *)
Lemma contents_inj {St Key Item} (l : List_t St Key Item) xs ys (s : St) : contents l xs -> contents l ys -> xs = ys.
Proof.
  intros Hx Hy. set (op := fun (x : Item) (u : list Item) (s : St) => Some (LIST_EACH_OK, u ++ [x], s)).
  assert (Hs : forall zs u s, exists s', spec.scan op (l_nodeLock l) (l_nodeUnlock l) zs u s true = Some (true, replicate (length zs) false, u ++ zs, s')).
  { induction zs as [|z zs IH]; intros u s0; [exists s0; by rewrite app_nil_r|]. simpl.
    destruct (IH (u ++ [z]) (run_callback (l_nodeUnlock l) z (run_callback (l_nodeLock l) z s0))) as (s' & ->).
    exists s'. simpl. by rewrite <- app_assoc. }
  pose proof (ForEach_contents op l xs [] s Hx) as Ex. pose proof (ForEach_contents op l ys [] s Hy) as Ey.
  destruct (Hs xs [] s) as (s1 & E1). destruct (Hs ys [] s) as (s2 & E2).
  unfold spec.for_each in Ex, Ey. rewrite E1 in Ex. rewrite E2 in Ey. simpl in Ex, Ey.
  destruct Ex as (l1 & Ex & _), Ey as (l2 & Ey & _). congruence.
Qed.

Lemma strings_inj p xs ys : strings p xs -> strings p ys -> xs = ys.
Proof. intros (l & -> & Hc & Hp & _) (? & [= <-] & Hc' & _). by apply (contents_inj l xs ys []). Qed.

Section Theorems.
Context `{EVP} `{LibUuidLaws}.
Variable sg : UuidLists.
Variable nts : list UUIDListNode.
Hypothesis nuggets_entries : entries (UUID_Get_List sg UUID_TYPE_NUGGET_TYPE) nts.
Variable cfg : EntityConfig.
Variable transports : option transport_list.
Variable supports : Z -> bool.
Hypothesis transports_ok : forall p, Transport_IsSupported transports p = Some (supports p).

(** A hello refines an update of a sequence of entities.  A hello of a known
    nugget sets the time of its entity and, for a dispatcher, its flags and its
    priority, and nothing else; a hello of an unknown one appends an entity with the
    fields of the message and a clone of its addresses.  When an allocation fails the
    table may stay as it was. *)
Theorem ConnectedEntityList_Update_refines undef pushes now m source he xs t es hs :
  holds nts t es hs -> is_hello m source he ->
  (isd nts (he_uuidNuggetType he) = true -> strings (he_addressList he) xs) ->
  exists ok t', ConnectedEntityList_Update sg transports undef pushes now (Some m) t = Some (ok, t') /\
    (known source es -> ok = true /\ holds nts t' (refresh nts now source he es) hs) /\
    (~ known source es -> holds nts t' es hs /\ faulty t pushes \/
       ok = true /\ exists l, (isd nts (he_uuidNuggetType he) = true -> strings l xs) /\
         holds nts t' (es ++ [refreshed nts now he (first_hello nts supports source he l)]) hs).
Proof.
  intros Ht Hm Hx.
  destruct (Update_run sg nts nuggets_entries transports supports transports_ok undef pushes now m source he xs t es hs Ht Hm Hx)
    as (ok & t' & E & _ & _ & Hk & Hn). exists ok, t'. by split_and!.
Qed.

(** Pruning removes exactly the entities that have been silent for longer than the
    dead time and keeps the others in order; for each removed entity, in order, every
    listener is called once. *)
Theorem ConnectedEntityList_Prune_removes now t es hs : holds nts t es hs ->
  exists t', ConnectedEntityList_Prune cfg now t = Some ((), t') /\
    holds nts t' (filter (fun e => silent cfg now e = false) es) hs /\
    st_calls (t_store t') =
      st_calls (t_store t) ++ concat (map (notices es hs) (filter (fun e => silent cfg now e = true) es)).
Proof.
  intros Ht. destruct (Prune_run nts cfg now t es hs Ht) as (t' & E & Ht' & Hc & _). exists t'. by split_and!.
Qed.

Lemma same_kind_trans e1 e2 e3 : same_kind e1 e2 = true -> same_kind e1 e3 = true -> same_kind e2 e3 = true.
Proof.
  unfold same_kind. rewrite !andb_true_iff, !bool_decide_eq_true. intros [-> ->] [-> ->]. done.
Qed.

Lemma two_elements {A} (xs : list A) x y : x ∈ xs -> y ∈ xs -> x <> y -> (2 <= length xs)%nat.
Proof.
  intros Hx Hy Hn. destruct xs as [|a [|b xs]]; simpl; [by apply not_elem_of_nil in Hx| |lia].
  apply list_elem_of_singleton in Hx, Hy. congruence.
Qed.

Lemma elem_of_concat {A} (x : A) xss : x ∈ concat xss -> exists xs, x ∈ xs /\ xs ∈ xss.
Proof.
  induction xss as [|xs xss IH]; simpl; [by intros ?%not_elem_of_nil|]. intros [Hx|Hx]%elem_of_app.
  - exists xs. split; [done|]. apply elem_of_cons. by left.
  - destruct (IH Hx) as (ys & ? & ?). exists ys. split; [done|]. apply elem_of_cons. by right.
Qed.

(** When two nuggets or more of a kind fall silent together they are all removed,
    and no listener is ever told that none is left: each is counted while the others
    are being removed. *)
Theorem Prune_never_reports_last now t es hs e1 e2 : holds nts t es hs -> Z.of_nat (length es) < 2 ^ 32 ->
  e1 ∈ es -> e2 ∈ es -> ce_uuidNuggetId e1 <> ce_uuidNuggetId e2 -> same_kind e1 e2 = true ->
  (forall e, e ∈ es -> same_kind e1 e = true -> silent cfg now e = true) ->
  exists t' es' calls, ConnectedEntityList_Prune cfg now t = Some ((), t') /\ holds nts t' es' hs /\
    (forall e, e ∈ es' -> same_kind e1 e = false) /\
    st_calls (t_store t') = st_calls (t_store t) ++ calls /\
    forall f e n, (f, e, n) ∈ calls -> same_kind e1 e = true -> 1 <= n.
Proof.
  intros Ht Hlen H1' H2' Hid Hk Hs. destruct (Prune_run nts cfg now t es hs Ht) as (t' & E & Ht' & Hc & _).
  exists t'. eexists _, _. split_and!; [exact E|exact Ht'| |exact Hc|].
  - intros e [Hn He]%list_elem_of_filter. destruct (same_kind e1 e) eqn:Ek; [|done]. by rewrite (Hs e He Ek) in Hn.
  - intros f e n Hin Hke. apply elem_of_concat in Hin as (c & Hc1 & Hc2).
    apply list_elem_of_fmap in Hc2 as (e' & -> & He'). apply list_elem_of_fmap in Hc1 as (h & Eq & _). simplify_eq.
    assert (2 <= count_kind e' es)%nat.
    { assert (Hne : e1 <> e2) by congruence. unfold count_kind. eapply (two_elements _ e1 e2); [| |done];
        apply list_elem_of_filter; (split; [|done]).
      - apply (same_kind_trans e1); [done|]. unfold same_kind. by rewrite !bool_decide_eq_true_2.
      - by apply (same_kind_trans e1). }
    assert (count_kind e' es <= length es)%nat by (apply sublist_length, sublist_filter).
    unfold u32. rewrite (wrap_small 32 (Z.of_nat _)) by (unfold in_width; lia). rewrite wrap_small by (unfold in_width; lia). lia.
Qed.

(** The dispatcher a client gets is a clone of the first usable dispatcher in the
    order in which they were first heard of, whatever the locality of the nugget and
    the order of the backup localities; there is none only if no dispatcher is
    usable. *)
Theorem GetDispatcher_first_usable t es hs : holds nts t es hs -> Z.of_nat (length es) < 2 ^ 32 ->
  st_allocs (t_store t) = [] ->
  exists r, ConnectedEntityList_GetDispatcher sg cfg [] t = Some (r, t) /\
    match find_first usable (dispatchers_of nts es) with
    | Some e => exists c, r = Some c /\ clone_of_entity e c
    | None => r = None
    end.
Proof.
  intros Ht Hlen Ha. destruct (GetDispatcher_run sg nts nuggets_entries cfg [] t es hs Ht Hlen) as (r & o & E & _ & Hr).
  destruct (Hr Ha eq_refl) as [-> Hm]. exists r. split; [|done].
  assert (Et : with_store t (set_allocs (t_store t) []) = t) by (rewrite <- Ha, set_allocs_same; apply with_store_same).
  by rewrite Et in E.
Qed.

(** The dispatcher of the highest priority: the result is a clone of the first
    among the dispatchers of the highest priority, and NULL only when there is no
    dispatcher or an allocation fails. *)
Theorem HighestPriority_maximal pushes t es hs : holds nts t es hs ->
  exists r t', ConnectedEntityList_GetDispatcher_HighestPriority sg pushes t = Some (r, t') /\ holds nts t' es hs /\
    (dispatchers_of nts es = [] -> r = None) /\
    (dispatchers_of nts es <> [] -> exists e es1 es2, dispatchers_of nts es = es1 ++ e :: es2 /\
       Forall (fun e' => priority e' < priority e) es1 /\ Forall (fun e' => priority e' <= priority e) es2 /\
       (forall c, r = Some c -> clone_of_entity e c) /\ (~ faulty t pushes -> r <> None)).
Proof.
  intros Ht. destruct (HighestPriority_run sg nts nuggets_entries pushes t es hs Ht) as (r & o & E & Hno & Hd).
  exists r. eexists. split_and!; [exact E| |done|].
  - destruct Ht as [as_ Ht]. exists as_. by apply tracks_allocs.
  - intros Hne. destruct (Hd Hne) as (e & es1 & es2 & ? & ? & ? & Hc & Hok). exists e, es1, es2. split_and!; [done..|].
    intros Hf. unfold faulty in Hf. apply Hok.
    + destruct (decide (st_allocs (t_store t) = [])); [done|]. by destruct Hf; left.
    + destruct (decide (pushes = [])); [done|]. by destruct Hf; right.
Qed.

(** ** Runs *)

(** What is done to a table: hellos, passes of the timer, marks, listeners, choices
    of a dispatcher. *)
Inductive entity_op :=
  | OHello (undef : uuid_t) (pushes : allocs) (now : Z) (m : Message)
  | OPrune (now : ConnectedEntity -> Z)
  | OMark (id : uuid_t)
  | OListen (address entityRemoved : positive)
  | OChoose (pushes : allocs).

Definition run_op (x : entity_op) : TM unit :=
  match x with
  | OHello undef pushes now m => _ ← ConnectedEntityList_Update sg transports undef pushes now (Some m); mret ()
  | OPrune now => ConnectedEntityList_Prune cfg now
  | OMark id => _ ← ConnectedEntityList_MarkDispatcherUnusable id; mret ()
  | OListen address f => _ ← ConnectedEntityList_AddPruneListener address f; mret ()
  | OChoose pushes => _ ← ConnectedEntityList_GetDispatcher sg cfg pushes; mret ()
  end.

(** Hellos carry an address and a dispatcher's carries a list of addresses; only
    dispatchers are marked. *)
Definition valid_op (es : list ConnectedEntity) (x : entity_op) : Prop :=
  match x with
  | OHello _ _ _ m => exists source he xs, is_hello m source he /\
      (isd nts (he_uuidNuggetType he) = true -> strings (he_addressList he) xs)
  | OMark id => forall e, e ∈ es -> ce_uuidNuggetId e = id -> isd nts (ce_uuidNuggetType e) = true
  | OChoose _ => Z.of_nat (length es) < 2 ^ 32
  | _ => True
  end.

(** A hello of this nugget. *)
Definition hello_from (id : uuid_t) (x : entity_op) : Prop :=
  match x with OHello _ _ _ m => exists he, is_hello m id he | _ => False end.

Definition last_hello (es : list ConnectedEntity) (id : uuid_t) (h : Z) : Prop :=
  exists e, e ∈ es /\ ce_uuidNuggetId e = id /\ ce_tTimeOfLastHello e = h.

Lemma is_hello_source m s1 he1 s2 he2 : is_hello m s1 he1 -> is_hello m s2 he2 -> s1 = s2.
Proof. intros (_ & _ & d1 & E1) (_ & _ & d2 & E2). specialize (E1 []). specialize (E2 []). congruence. Qed.

Lemma last_hello_map (f : ConnectedEntity -> ConnectedEntity) es id h :
  (forall e, e ∈ es -> ce_uuidNuggetId (f e) = ce_uuidNuggetId e) ->
  (forall e, e ∈ es -> ce_uuidNuggetId e = id -> ce_tTimeOfLastHello (f e) = ce_tTimeOfLastHello e) ->
  last_hello (map f es) id h -> last_hello es id h.
Proof.
  intros H1' H2' (e & He & Hid & Hh). apply list_elem_of_fmap in He as (e0 & -> & He0). exists e0.
  rewrite H1' in Hid by done. rewrite H2' in Hh by done. done.
Qed.

(** One operation: it returns, the table stays well formed, and only a hello of a
    nugget renews the nugget. *)
Lemma op_step x t es hs : holds nts t es hs -> valid_op es x ->
  exists t' es' hs', run_op x t = Some ((), t') /\ holds nts t' es' hs' /\
    (forall id h, ~ hello_from id x -> last_hello es' id h -> last_hello es id h) /\
    (forall now id h, x = OPrune now -> last_hello es' id h -> 0 < h -> exists e, e ∈ es /\ now e - h <= DeadTime cfg).
Proof.
  intros Ht Hv. destruct x as [undef pushes now m|now|id|address f|pushes]; cbn [run_op valid_op] in *.
  - destruct Hv as (source & he & xs & Hm & Hx).
    destruct (Update_run sg nts nuggets_entries transports supports transports_ok undef pushes now m source he xs t es hs Ht Hm Hx)
      as (ok & t' & E & _ & _ & Hk & Hn). rewrite (TM_bind_eq _ _ _ _ _ E). exists t'.
    assert (Hsrc : forall id, ~ hello_from id (OHello undef pushes now m) -> id <> source).
    { intros id Hid ->. apply Hid. by exists he. }
    destruct (decide (known source es)) as [Hkn|Hkn].
    + destruct (Hk Hkn) as [_ Ht']. exists (refresh nts now source he es), hs. split_and!; [done..| |done].
      intros id h Hid. apply last_hello_map; intros e He; [by destruct (decide _)|]. intros <-.
      by rewrite decide_False by by apply Hsrc.
    + destruct (Hn Hkn) as [[Ht' _]|(_ & l & _ & Ht')].
      * exists es, hs. by split_and!.
      * eexists _, hs. split_and!; [done|exact Ht'| |done]. intros id h Hid (e & He & Hie & Hh).
        apply elem_of_app in He as [He|He]; [by exists e|]. apply list_elem_of_singleton in He as ->.
        by destruct (Hsrc id Hid).
  - destruct (Prune_run nts cfg now t es hs Ht) as (t' & E & Ht' & _). exists t'. eexists _, hs. split_and!; [exact E|exact Ht'| |].
    + intros id h _ (e & [_ He]%list_elem_of_filter & ? & ?). by exists e.
    + intros now' id h [= <-] (e & [Hs He]%list_elem_of_filter & _ & Hh) Hpos. exists e. split; [done|]. unfold silent in Hs.
      rewrite Hh in Hs. destruct (Z.ltb_spec 0 h); [|lia]. simpl in Hs. by apply Z.ltb_ge in Hs.
  - destruct (Mark_run sg nts nuggets_entries id t es hs Ht Hv) as (t' & E & Ht' & _). rewrite (TM_bind_eq _ _ _ _ _ E).
    exists t', (unusable id es), hs. split_and!; [done..| |done]. intros id' h _.
    apply last_hello_map; intros e He; by destruct (decide _).
  - destruct Ht as [as_ Ht]. destruct (tr_hooks _ _ _ _ _ Ht) as (l & El & Hc & Hl).
    assert (Hes : forall t', sg_pEntityList t' = sg_pEntityList t -> st_entities (t_store t') = st_entities (t_store t) ->
      forall hs', (exists l, sg_pHookList t' = Some l /\ contents l hs' /\
        table_list l ConnectedEntityHook_KeyCmp (Some ConnectedEntityHook_Delete)) -> holds nts t' es hs').
    { intros t' E1 E2 hs' Hh. exists as_. destruct Ht as [? ? ? ? ? ?]. split; rewrite ?E1, ?E2; done. }
    unfold mbind, TM_bind, ConnectedEntityList_AddPruneListener. rewrite El.
    destruct (alloc_next (st_allocs (t_store t))) as [[] o1]; cbn [negb].
    + destruct (alloc_next o1) as [ok o2]. destruct (table_push l _ _ hs (mkHook address f) ok Hc Hl) as (l' & -> & Hl' & Hc').
      cbn [mbind option_bind]. eexists _, es, _. split_and!; [reflexivity| |done|done]. apply Hes; [done..|]. by exists l'.
    + eexists _, es, hs. split_and!; [reflexivity| |done|done]. apply Hes; [done..|]. by exists l.
  - destruct (GetDispatcher_run sg nts nuggets_entries cfg pushes t es hs Ht Hv) as (r & o & E & _).
    rewrite (TM_bind_eq _ _ _ _ _ E). eexists _, es, hs. split_and!; [reflexivity| |done|done].
    destruct Ht as [as_ Ht]. exists as_. by apply tracks_allocs.
Qed.

(** A table represents one sequence of entities. *)
Lemma holds_inj t es hs es' hs' : holds nts t es hs -> holds nts t es' hs' -> es = es'.
Proof.
  intros [as_ [(l & El & Hc & Hl) _ Hv _ _ _]] [as' [(l' & El' & Hc' & _) _ Hv' _ _ _]].
  rewrite El in El'. injection El' as <-. destruct Hl as (_ & _ & Hno & _).
  rewrite <- (contents_inj l as_ as' (t_store t) Hc Hc') in Hv'. clear -Hv Hv'. revert es' Hv'.
  induction Hv as [|a e as_ es Ha Hv IH]; intros es' Hv'; [by apply Forall2_nil_inv_l in Hv' as ->|].
  apply Forall2_cons_inv_l in Hv' as (e' & es'' & Ha' & Hv'' & ->). rewrite (IH es'' Hv''). congruence.
Qed.

(** A run of operations that are valid where they are executed. *)
Inductive runs : Table -> list entity_op -> Table -> Prop :=
  | runs_nil t : runs t [] t
  | runs_cons t es hs x t1 xs t2 : holds nts t es hs -> valid_op es x -> run_op x t = Some ((), t1) ->
      runs t1 xs t2 -> runs t (x :: xs) t2.

Lemma runs_holds t xs t' es hs : runs t xs t' -> holds nts t es hs -> exists es' hs', holds nts t' es' hs' /\
  forall id h, Forall (fun x => ~ hello_from id x) xs -> last_hello es' id h -> last_hello es id h.
Proof.
  intros Hr. revert es hs. induction Hr as [t|t es0 hs0 x t1 xs t2 Ht Hv E Hr IH]; intros es hs Hes; [by exists es, hs|].
  rewrite (holds_inj _ _ _ _ _ Ht Hes) in Hv. destruct (op_step x t es hs Hes Hv) as (t1' & es1 & hs1 & E' & Ht1 & Hl & _).
  rewrite E in E'. injection E' as <-. destruct (IH es1 hs1 Ht1) as (es' & hs' & Ht' & Hl'). exists es', hs'. split; [done|].
  intros id h [Hx Hxs]%Forall_cons Hlast. eauto.
Qed.

Lemma runs_app t xs ys t' : runs t (xs ++ ys) t' -> exists t1, runs t xs t1 /\ runs t1 ys t'.
Proof.
  revert t. induction xs as [|x xs IH]; intros t Hr; [exists t; split; [constructor|done]|]. simpl in Hr.
  inversion Hr as [|? es hs ? t1 ? ? Ht Hv E Hr']; subst. destruct (IH t1 Hr') as (t2 & ? & ?). exists t2. split; [|done].
  by econstructor.
Qed.

(** The table after [ConnectedEntityList_Start]. *)
Lemma Start_holds s : st_allocs s = [] -> exists t,
  ConnectedEntityList_Start true (mkTable None None false s) = Some (true, t) /\ holds nts t [] [] /\ t_store t = s.
Proof.
  intros Hs. unfold ConnectedEntityList_Start. erewrite TM_bind_eq by reflexivity. cbn [sg_pEntityList].
  destruct (new_list_run ConnectedEntity_Cmp ConnectedEntity_KeyCmp (Some ConnectedEntity_Delete) (mkTable None None false s))
    as (p1 & o1 & E1 & Hp1 & Hn1). destruct (Hn1 Hs) as [-> Hne1]. rewrite (TM_bind_eq _ _ _ _ _ E1).
  destruct (new_list_run ConnectedEntityHook_Cmp ConnectedEntityHook_KeyCmp (Some ConnectedEntityHook_Delete)
    (with_store (mkTable None None false s) (set_allocs s []))) as (p2 & o2 & E2 & Hp2 & Hn2).
  destruct (Hn2 eq_refl) as [-> Hne2]. rewrite (TM_bind_eq _ _ _ _ _ E2). destruct p1 as [l1|]; [|done]. destruct p2 as [l2|]; [|done].
  destruct (Hp1 l1 eq_refl) as [? ?], (Hp2 l2 eq_refl) as [? ?]. eexists. split_and!; [reflexivity| |].
  - exists []. split; simpl; [by exists l1|by exists l2|constructor|by apply NoDup_nil|by apply NoDup_nil|constructor].
  - destruct s. simpl in *. by rewrite Hs.
Qed.

(** C35. In every table that a run of hellos, prunings, marks, new listeners and choices
    leads to from the start, under any failures of allocations, the entities are
    live, have distinct ids and a dispatcher part with addresses exactly when they
    are dispatchers; and every further operation returns. *)
Theorem EntityTable_reachable s xs t t' : st_allocs s = [] ->
  ConnectedEntityList_Start true (mkTable None None false s) = Some (true, t) -> runs t xs t' ->
  exists es hs, holds nts t' es hs /\ forall x, valid_op es x -> exists t2, run_op x t' = Some ((), t2).
Proof.
  intros Hs E Hr. destruct (Start_holds s Hs) as (t0 & E0 & Ht0 & _). rewrite E in E0. injection E0 as <-.
  destruct (runs_holds t xs t' [] [] Hr Ht0) as (es & hs & Ht' & _). exists es, hs. split; [done|].
  intros x Hv. destruct (op_step x t' es hs Ht' Hv) as (t2 & _ & _ & E2 & _). by exists t2.
Qed.

(** C36. A nugget that falls silent is forgotten: in every run in which it sends no
    more hellos, whatever else happens, it is unknown after a pass of the timer more
    than the dead time after its last hello. *)
Theorem silent_nugget_forgotten t es hs id h xs1 now xs2 t' es' hs' : holds nts t es hs ->
  (forall h', last_hello es id h' -> h' = h) -> 0 < h ->
  runs t (xs1 ++ OPrune now :: xs2) t' -> Forall (fun x => ~ hello_from id x) (xs1 ++ OPrune now :: xs2) ->
  (forall e, DeadTime cfg < now e - h) -> holds nts t' es' hs' -> ~ known id es'.
Proof.
  intros Ht Hh Hpos Hr Hno Hnow Ht' Hk. apply runs_app in Hr as (t1 & Hr1 & Hr2). apply Forall_app in Hno as [Hno1 [_ Hno2]%Forall_cons].
  destruct (runs_holds t xs1 t1 es hs Hr1 Ht) as (es1 & hs1 & Ht1 & Hl1).
  inversion Hr2 as [|? es0 hs0 ? t2 ? ? Hes0 Hv E Hr3]; subst. rewrite (holds_inj _ _ _ _ _ Hes0 Ht1) in Hv.
  destruct (op_step (OPrune now) t1 es1 hs1 Ht1 Hv) as (t2' & es2 & hs2 & E' & Ht2 & Hl2 & Hp). rewrite E in E'. injection E' as <-.
  destruct (runs_holds t2 xs2 t' es2 hs2 Hr3 Ht2) as (es3 & hs3 & Ht3 & Hl3). rewrite (holds_inj _ _ _ _ _ Ht3 Ht') in Hl3.
  apply list_elem_of_fmap in Hk as (e & -> & He).
  assert (H3' : last_hello es2 (ce_uuidNuggetId e) (ce_tTimeOfLastHello e)) by (apply Hl3; [done|by exists e]).
  assert (E1 : ce_tTimeOfLastHello e = h) by (apply Hh, Hl1, Hl2; [done|by intros []|done]). rewrite E1 in H3'.
  destruct (Hp now _ _ eq_refl H3' Hpos) as (e0 & _ & Hle). specialize (Hnow e0). lia.
Qed.
End Theorems.

(** ** From one nugget to another *)

Section Announcement.
Context `{EVP} `{LibUuidLaws} `{JsonTextLaws}.
Variable sg : UuidLists.
Variable nts : list UUIDListNode.
Hypothesis nuggets_entries : entries (UUID_Get_List sg UUID_TYPE_NUGGET_TYPE) nts.
Variable cfg : EntityConfig.
Variable transports : option transport_list.
Variable supports : Z -> bool.
Hypothesis transports_ok : forall p, Transport_IsSupported transports p = Some (supports p).

(** What a client needs of a dispatcher is what its context says. *)
Definition reaches (ctx : RazorbackContext) (xs : list string) (c : ConnectedEntity) : Prop :=
  ce_uuidNuggetId c = ctx_uuidNuggetId ctx /\ ce_locality c = ctx_locality ctx /\
  exists e, ce_dispatcher c = Some e /\ de_protocol e = d_protocol (ctx_dispatcher ctx) /\
    de_port e = d_port (ctx_dispatcher ctx) /\ strings (de_addressList e) xs.

(** The message of a dispatcher's hello. *)
Lemma Initialize_run ctx xs : isd nts (ctx_uuidNuggetType ctx) = true ->
  strings (d_addressList (ctx_dispatcher ctx)) xs ->
  exists m l, MessageHello_Initialize sg [] (Some ctx) [] = Some (Some m, []) /\ m_type m = MESSAGE_TYPE_HELLO /\
    m_serialized m = None /\ strings (Some l) xs /\
    headers (m_headers m) [mkHeader MSG_CNC_HEADER_SOURCE (uuid_unparse (ctx_uuidNuggetId ctx));
                           mkHeader MSG_CNC_HEADER_DEST (uuid_unparse uuid_null)] /\
    m_message m = Some (inj (mkHello (ctx_uuidNuggetType ctx) (ctx_uuidApplicationType ctx) (ctx_locality ctx)
      (d_priority (ctx_dispatcher ctx)) (d_flags (ctx_dispatcher ctx)) (Some l) (d_protocol (ctx_dispatcher ctx))
      (d_port (ctx_dispatcher ctx)))).
Proof.
  intros Hi Hx. unfold MessageHello_Initialize. rewrite deref_bind.
  destruct (Create_run MESSAGE_TYPE_HELLO MESSAGE_VERSION_1 (Some (inj zero_Hello))) as (p & E & Hp).
  set (m0 := mkMessage MESSAGE_TYPE_HELLO 0 MESSAGE_VERSION_1 p (Some (inj zero_Hello)) None None) in *.
  destruct (with_nuggets_run (ctx_uuidNuggetId ctx) uuid_null m0 Hp) as (p1 & E1 & H1').
  assert (Eb : Message_Create_Broadcast MESSAGE_TYPE_HELLO MESSAGE_VERSION_1 (Some (inj zero_Hello)) (ctx_uuidNuggetId ctx) [] =
    Some (Some (with_headers m0 p1), [])) by (unfold Message_Create_Broadcast; by rewrite (M_bind_ok _ _ _ _ _ E)).
  rewrite (M_bind_ok _ _ _ _ _ Eb). unfold isd in Hi. destruct (named NUGGET_TYPE_DISPATCHER nts) as [d|] eqn:Ed; [|done].
  rewrite (M_bind_ok _ _ _ _ _ (is_dispatcher_run sg nts d _ [] nuggets_entries Ed)), Hi.
  destruct (strings_clone_ok (d_addressList (ctx_dispatcher ctx)) xs Hx) as (l & Ec & Hl).
  erewrite M_bind_ok by exact (M_bind_ok _ _ _ _ _ Ec). eexists _, l. split_and!; [reflexivity|done|done|done|exact H1'|done].
Qed.

Lemma find_first_snoc {A} (p : A -> bool) xs x : find_first p xs = None ->
  find_first p (xs ++ [x]) = if p x then Some x else None.
Proof. induction xs as [|y xs IH]; simpl; [done|]. by destruct (p y). Qed.

(** C34. A dispatcher that announces itself is found.  Its hello, made from its context,
    serialized, sent, deserialized and put into the table of a nugget that has no
    usable dispatcher yet, makes the next choice of a dispatcher return this one,
    with the id, locality, protocol, port and addresses of its context. *)
Theorem dispatcher_announced ctx xs undef now t es hs : isd nts (ctx_uuidNuggetType ctx) = true ->
  let d := ctx_dispatcher ctx in
  Forall (in_width 8) [ctx_locality ctx; d_priority d; d_protocol d] -> in_width 16 (d_port d) -> in_width 32 (d_flags d) ->
  strings (d_addressList d) xs -> Forall (fun x => nul_free x = true) xs -> supports (d_protocol d) = true ->
  holds nts t es hs -> st_allocs (t_store t) = [] -> Z.of_nat (length es) + 1 < 2 ^ 32 ->
  ~ known (ctx_uuidNuggetId ctx) es -> find_first usable (dispatchers_of nts es) = None ->
  exists m m1 text, MessageHello_Initialize sg [] (Some ctx) [] = Some (Some m, []) /\
    Hello_Serialize sg (Some m) [] = Some (true, Some m1, []) /\ m_serialized m1 = Some text /\
    forall m', m_type m' = m_type m -> m_headers m' = m_headers m -> m_serialized m' = Some text ->
      exists m2 t' c, Hello_Deserialize sg (Some m') [] = Some (true, Some m2, []) /\
        ConnectedEntityList_Update sg transports undef [] now (Some m2) t = Some (true, t') /\
        ConnectedEntityList_GetDispatcher sg cfg [] t' = Some (Some c, t') /\ reaches ctx xs c.
Proof.
  intros Hi d H8 Hp16 Hf Hx Hnul Hsup Ht Ha Hlen Hkn Hno.
  destruct (Initialize_run ctx xs Hi Hx) as (m & l & Em & Hty & Hs & Hl & Hh & Hb). pose proof Hi as Hdn. unfold isd in Hdn.
  destruct (named NUGGET_TYPE_DISPATCHER nts) as [dn|] eqn:Ed; [|done]. apply bool_decide_eq_true in Hdn.
  set (he := mkHello _ _ _ _ _ _ _ _) in Hb.
  destruct (Hello_wire sg m he nts dn xs nuggets_entries Ed H8 Hp16 Hf (fun _ => Hl) Hnul Hb Hs) as (text & Es & Hd).
  exists m. eexists _, text. split_and!; [exact Em|exact Es|done|]. intros m' Hty' Hh' Hs'.
  destruct (Hd m' Hs') as (he' & Ede & Hhe). cbn [he_uuidNuggetType] in Hhe. rewrite decide_True in Hhe by done.
  destruct Hhe as (l' & Hl' & ->). set (m2 := with_body m' _) in *. rewrite <- Hh' in Hh.
  assert (Hm : is_hello m2 (ctx_uuidNuggetId ctx) (set_he_addressList (Some l') he)).
  { split; [by rewrite <- Hty, <- Hty'|]. split; [apply proj_inj|]. eexists. intros o. by apply Get_Nuggets_run. }
  destruct (Update_run sg nts nuggets_entries transports supports transports_ok undef [] now m2 _ _ xs t es hs Ht Hm (fun _ => Hl'))
    as (ok & t' & Eu & _ & Ha' & _ & Hn). cbn [he_uuidNuggetType set_he_addressList] in Hn.
  destruct (Hn Hkn) as [[_ Hfa]|(-> & l2 & Hl2 & Ht')]; [by destruct Hfa|].
  set (e := refreshed _ _ _ _) in Ht'. assert (He : ce_dispatcher e = Some (mkDispatcherEntity (d_priority d) (d_flags d) l2
    (d_protocol d) (d_port d) true)).
  { unfold e, refreshed, first_hello. cbn. rewrite !Hi. cbn. unfold d in Hsup. by rewrite Hsup. }
  destruct (GetDispatcher_run sg nts nuggets_entries cfg [] t' _ hs Ht') as (r & o & Eg & _ & Hr); [rewrite length_app; simpl; lia|].
  assert (Ha2 : st_allocs (t_store t') = []) by (apply Ha'; intros [?|?]; done). destruct (Hr Ha2 eq_refl) as [-> Hr'].
  assert (Ef : find_first usable (dispatchers_of nts (es ++ [e])) = Some e).
  { unfold dispatchers_of. rewrite filter_app, filter_cons_True by exact Hi. rewrite filter_nil, find_first_snoc by exact Hno.
    unfold usable. by rewrite He. }
  rewrite Ef in Hr'. destruct Hr' as (c & -> & d' & l3 & ys & Hd' & Hy & Hy' & ->). rewrite He in Hd'. injection Hd' as <-.
  exists m2, t'. eexists. split_and!; [exact Ede|exact Eu| |].
  - assert (Et : with_store t' (set_allocs (t_store t') []) = t') by (rewrite <- Ha2, set_allocs_same; apply with_store_same).
    rewrite Et in Eg. exact Eg.
  - split; [done|]. split; [done|]. eexists. split; [reflexivity|]. split; [done|]. split; [done|]. cbn [de_addressList set_addressList] in *.
    by rewrite (strings_inj _ _ _ (Hl2 Hi) Hy).
Qed.
End Announcement.

(** ** Witnesses *)

Module entity_demo.
Import cnc_demo.
Definition nts : list UUIDListNode := [dispatcher].
Definition cfg : EntityConfig := mkEntityConfig 300 3 [1; 2].
Definition supports (p : Z) : bool := existsb (fun d => td_id d == p) [mkTransport 1 "file"].
Definition transports : option transport_list :=
  match Transport_List_Create [] with
  | Some (l, _) => match Transport_Register (mkTransport 1 "file") l [] with Some (Some (_, p), _) => p | _ => None end
  | None => None
  end.

Lemma transports_ok p : Transport_IsSupported transports p = Some (supports p).
Proof.
  unfold transports. destruct Transport_List_Create_run as (l & -> & Hl).
  destruct (Transport_Register_run (mkTransport 1 "file") _ _ Hl) as (p' & -> & Hp). exact (Transport_IsSupported_run _ _ p Hp).
Qed.

Definition store0 : Store := mkStore ∅ [] [].
Definition inspector (type : Z) : MessageHello := mkHello (uuid_demo.uuid type) (uuid_demo.uuid 4) 3 0 0 None 0 0.
Definition disp (priority protocol : Z) : MessageHello :=
  mkHello (uuid_demo.uuid 11) (uuid_demo.uuid 4) 3 priority 2 json_demo.words2 protocol 8080.

(** A hello with its headers. *)
Lemma hello_message source he : exists m, is_hello m source he.
Proof.
  destruct (Create_run MESSAGE_TYPE_HELLO MESSAGE_VERSION_1 (Some (inj he))) as (p & _ & Hp).
  set (m := mkMessage MESSAGE_TYPE_HELLO 0 MESSAGE_VERSION_1 p (Some (inj he)) None None).
  destruct (with_nuggets_run source uuid_null m Hp) as (p' & _ & Hp'). exists (with_headers m p'). split; [|split; [|exists uuid_null; intros o; exact (Get_Nuggets_run (with_headers m p') source uuid_null o Hp')]]; done.
Qed.

(** A table in which the senders of some hellos are known. *)
Definition entity_of (x : Z * MessageHello) (e : ConnectedEntity) : Prop := exists l,
  (isd nts (he_uuidNuggetType x.2) = true -> strings l ["abc"; "de"]) /\
  e = refreshed nts 100 x.2 (first_hello nts supports (uuid_demo.uuid x.1) x.2 l).
Definition heard : list (Z * MessageHello) -> list ConnectedEntity -> Prop := Forall2 entity_of.

Definition fresh_sender (xs : list (Z * MessageHello)) (k : Z) : bool :=
  forallb (fun x => negb (bool_decide (uuid_demo.uuid x.1 = uuid_demo.uuid k))) xs.

Lemma heard_ids xs es : heard xs es -> map ce_uuidNuggetId es = map (fun x => uuid_demo.uuid x.1) xs.
Proof. induction 1 as [|x e xs es (l & _ & ->) _ IH]; [done|]. exact (f_equal (cons _) IH). Qed.

Lemma heard_unknown xs es k : heard xs es -> fresh_sender xs k = true -> ~ known (uuid_demo.uuid k) es.
Proof.
  unfold known, fresh_sender. intros Hh Hf. rewrite (heard_ids _ _ Hh). clear Hh. intros Hin.
  apply list_elem_of_fmap in Hin as (x & E & Hx). rewrite forallb_forall in Hf. apply list_elem_of_In in Hx.
  specialize (Hf x Hx). rewrite bool_decide_eq_true_2 in Hf by done. done.
Qed.

Fixpoint distinct (xs ys : list (Z * MessageHello)) : bool :=
  match ys with [] => true | y :: ys' => fresh_sender xs y.1 && distinct (xs ++ [y]) ys' end.

Lemma table_of xs ys es t : heard xs es -> holds nts t es [] -> st_allocs (t_store t) = [] -> distinct xs ys = true ->
  Forall (fun y => isd nts (he_uuidNuggetType y.2) = true -> he_addressList y.2 = json_demo.words2) ys ->
  exists t' es', heard (xs ++ ys) es' /\ holds nts t' es' [] /\ st_allocs (t_store t') = [].
Proof.
  revert xs es t. induction ys as [|[k he] ys IH]; intros xs es t Hh Ht Ha Hd Hw; [exists t, es; by rewrite app_nil_r|].
  apply andb_true_iff in Hd as [Hf Hd]. apply Forall_cons in Hw as [Hw Hws]. simpl in Hw, Hf.
  destruct (hello_message (uuid_demo.uuid k) he) as (m & Hm).
  assert (Hx : isd nts (he_uuidNuggetType he) = true -> strings (he_addressList he) ["abc"; "de"])
    by (intros Hi; rewrite (Hw Hi); exact json_demo.words2_strings).
  destruct (Update_run sg nts nugget_entries transports supports transports_ok (uuid_demo.uuid 0) [] 100 m _ he _ t es [] Ht Hm Hx)
    as (ok & t' & _ & _ & Ha' & _ & Hn).
  destruct (Hn (heard_unknown _ _ _ Hh Hf)) as [[_ []]|(_ & l & Hl & Ht')]; [done|done|].
  destruct (IH (xs ++ [(k, he)]) (es ++ [refreshed nts 100 he (first_hello nts supports (uuid_demo.uuid k) he l)]) t')
    as (t2 & es2 & Hh2 & ? & ?);
    [apply Forall2_app; [done|]; constructor; [by exists l|constructor]|exact Ht'|apply Ha'; by intros []|done|done|]. exists t2, es2. by rewrite <- app_assoc in Hh2.
Qed.

Lemma table_heard ys : distinct [] ys = true ->
  Forall (fun y => isd nts (he_uuidNuggetType y.2) = true -> he_addressList y.2 = json_demo.words2) ys ->
  exists t es, heard ys es /\ holds nts t es [] /\ st_allocs (t_store t) = [].
Proof.
  destruct (Start_holds nts store0 eq_refl) as (t & _ & Ht & Es). apply (table_of [] ys [] t (Forall2_nil_2 _ _ _) Ht). by rewrite Es.
Qed.

(** Two inspectors of a kind, and two dispatchers. *)
Definition inspectors : list (Z * MessageHello) := [(1, inspector 5); (2, inspector 5)].
Definition dispatchers : list (Z * MessageHello) := [(1, disp 1 2); (2, disp 7 1)].

Lemma inspectors_table : exists t es, heard inspectors es /\ holds nts t es [] /\ st_allocs (t_store t) = [].
Proof. apply table_heard; [reflexivity|]. by repeat (apply Forall_cons_2; [intros [=]|]). Qed.

Lemma dispatchers_table : exists t es, heard dispatchers es /\ holds nts t es [] /\ st_allocs (t_store t) = [].
Proof. apply table_heard; [reflexivity|]. by repeat (apply Forall_cons_2; [done|]). Qed.

Lemma heard_pair x y es : heard [x; y] es -> exists e1 e2, es = [e1; e2] /\ entity_of x e1 /\ entity_of y e2.
Proof.
  intros Hh. apply Forall2_cons_inv_l in Hh as (e1 & es' & H1 & Hh & ->). apply Forall2_cons_inv_l in Hh as (e2 & es'' & H2 & Hh & ->).
  apply Forall2_nil_inv_l in Hh as ->. by exists e1, e2.
Qed.
End entity_demo.

Lemma ConnectedEntityList_Update_refines_witness : exists t m ok t',
  holds entity_demo.nts t [] [] /\ is_hello m (uuid_demo.uuid 1) (entity_demo.disp 1 1) /\
  ConnectedEntityList_Update cnc_demo.sg entity_demo.transports (uuid_demo.uuid 0) [] 100 (Some m) t = Some (ok, t').
Proof.
  destruct (Start_holds entity_demo.nts entity_demo.store0 eq_refl) as (t & _ & Ht & _).
  destruct (entity_demo.hello_message (uuid_demo.uuid 1) (entity_demo.disp 1 1)) as (m & Hm).
  destruct (ConnectedEntityList_Update_refines cnc_demo.sg entity_demo.nts cnc_demo.nugget_entries entity_demo.transports
    entity_demo.supports entity_demo.transports_ok (uuid_demo.uuid 0) [] 100 m _ _ ["abc"; "de"] t [] [] Ht Hm
    (fun _ => json_demo.words2_strings)) as (ok & t' & E & _).
  exists t, m, ok, t'. split; [exact Ht|]. split; [exact Hm|exact E].
Defined.

Lemma ConnectedEntityList_Prune_removes_witness : exists t es t', entity_demo.heard entity_demo.inspectors es /\
  holds entity_demo.nts t es [] /\ ConnectedEntityList_Prune entity_demo.cfg (fun _ => 1000) t = Some ((), t').
Proof.
  destruct entity_demo.inspectors_table as (t & es & Hh & Ht & _).
  destruct (ConnectedEntityList_Prune_removes entity_demo.nts entity_demo.cfg (fun _ => 1000) t es [] Ht) as (t' & E & _).
  exists t, es, t'. split; [exact Hh|]. split; [exact Ht|exact E].
Defined.

Lemma Prune_never_reports_last_witness : exists t t' es', entity_demo.heard entity_demo.inspectors es' /\
  holds entity_demo.nts t es' [] /\ ConnectedEntityList_Prune entity_demo.cfg (fun _ => 1000) t = Some ((), t').
Proof.
  destruct entity_demo.inspectors_table as (t & es & Hh & Ht & _).
  destruct (entity_demo.heard_pair _ _ _ Hh) as (e1 & e2 & -> & (l1 & _ & E1) & (l2 & _ & E2)).
  destruct (Prune_never_reports_last entity_demo.nts entity_demo.cfg (fun _ => 1000) t [e1; e2] [] e1 e2 Ht)
    as (t' & es' & calls & E & _).
  - reflexivity.
  - left.
  - right. left.
  - rewrite E1, E2. cbn. discriminate.
  - rewrite E1, E2. reflexivity.
  - intros e He _. apply elem_of_cons in He as [->|He]; [rewrite E1; reflexivity|].
    apply list_elem_of_singleton in He as ->. rewrite E2. reflexivity.
  - exists t, t', [e1; e2]. split; [exact Hh|]. split; [exact Ht|exact E].
Defined.

Lemma GetDispatcher_first_usable_witness : exists t es r, entity_demo.heard entity_demo.dispatchers es /\
  ConnectedEntityList_GetDispatcher cnc_demo.sg entity_demo.cfg [] t = Some (r, t) /\
  exists c, r = Some c /\ ce_uuidNuggetId c = uuid_demo.uuid 2.
Proof.
  destruct entity_demo.dispatchers_table as (t & es & Hh & Ht & Ha).
  destruct (entity_demo.heard_pair _ _ _ Hh) as (e1 & e2 & -> & (l1 & _ & E1) & (l2 & _ & E2)).
  destruct (GetDispatcher_first_usable cnc_demo.sg entity_demo.nts cnc_demo.nugget_entries entity_demo.cfg t [e1; e2] [] Ht eq_refl Ha)
    as (r & E & Hr).
  exists t, [e1; e2], r. split; [exact Hh|]. split; [exact E|]. rewrite E1, E2 in Hr. destruct Hr as (c & -> & Hc).
  exists c. split; [reflexivity|]. destruct Hc as (d & l & xs & _ & _ & _ & ->). reflexivity.
Defined.

Lemma HighestPriority_maximal_witness : exists t es c t', entity_demo.heard entity_demo.dispatchers es /\
  ConnectedEntityList_GetDispatcher_HighestPriority cnc_demo.sg [] t = Some (Some c, t').
Proof.
  destruct entity_demo.dispatchers_table as (t & es & Hh & Ht & Ha).
  destruct (entity_demo.heard_pair _ _ _ Hh) as (e1 & e2 & -> & (l1 & _ & E1) & (l2 & _ & E2)).
  destruct (HighestPriority_maximal cnc_demo.sg entity_demo.nts cnc_demo.nugget_entries [] t [e1; e2] [] Ht)
    as (r & t' & E & _ & _ & Hd).
  destruct Hd as (e & es1 & es2 & _ & _ & _ & _ & Hok); [rewrite E1, E2; discriminate|].
  destruct r as [c|]; [|destruct (Hok ltac:(by intros [])); reflexivity]. exists t, [e1; e2], c, t'. split; [exact Hh|exact E].
Defined.

Lemma EntityTable_reachable_witness : exists t x t', runs cnc_demo.sg entity_demo.nts entity_demo.cfg entity_demo.transports t [x] t' /\
  exists es hs, holds entity_demo.nts t' es hs.
Proof.
  destruct (Start_holds entity_demo.nts entity_demo.store0 eq_refl) as (t & E & Ht & _).
  destruct (op_step cnc_demo.sg entity_demo.nts cnc_demo.nugget_entries entity_demo.cfg entity_demo.transports entity_demo.supports
    entity_demo.transports_ok (OPrune (fun _ => 1000)) t [] [] Ht I) as (t' & _ & _ & Ex & _).
  assert (Hr : runs cnc_demo.sg entity_demo.nts entity_demo.cfg entity_demo.transports t [OPrune (fun _ => 1000)] t')
    by (econstructor; [exact Ht|exact I|exact Ex|constructor]).
  destruct (EntityTable_reachable cnc_demo.sg entity_demo.nts cnc_demo.nugget_entries entity_demo.cfg entity_demo.transports
    entity_demo.supports entity_demo.transports_ok entity_demo.store0 _ t t' eq_refl E Hr) as (es & hs & Ht' & _).
  exists t. eexists. exists t'. split; [exact Hr|]. exists es, hs. exact Ht'.
Defined.

Lemma silent_nugget_forgotten_witness : exists t es t' es' hs', entity_demo.heard entity_demo.inspectors es /\
  holds entity_demo.nts t es [] /\ holds entity_demo.nts t' es' hs' /\ ~ known (uuid_demo.uuid 1) es'.
Proof.
  destruct entity_demo.inspectors_table as (t & es & Hh & Ht & _).
  destruct (op_step cnc_demo.sg entity_demo.nts cnc_demo.nugget_entries entity_demo.cfg entity_demo.transports entity_demo.supports
    entity_demo.transports_ok (OPrune (fun _ => 1000)) t es [] Ht I) as (t' & es' & hs' & Ex & Ht' & _).
  exists t, es, t', es', hs'. split; [exact Hh|]. split; [exact Ht|]. split; [exact Ht'|].
  destruct (entity_demo.heard_pair _ _ _ Hh) as (e1 & e2 & -> & (l1 & _ & E1) & (l2 & _ & E2)).
  apply (silent_nugget_forgotten cnc_demo.sg entity_demo.nts cnc_demo.nugget_entries entity_demo.cfg entity_demo.transports
    entity_demo.supports entity_demo.transports_ok t [e1; e2] [] (uuid_demo.uuid 1) 100 [] (fun _ => 1000) [] t' es' hs' Ht).
  - intros h' (e & He & _ & <-). apply elem_of_cons in He as [->|He]; [rewrite E1; reflexivity|].
    apply list_elem_of_singleton in He as ->. rewrite E2. reflexivity.
  - reflexivity.
  - econstructor; [exact Ht|exact I|exact Ex|constructor].
  - constructor; [intros []|constructor].
  - reflexivity.
  - exact Ht'.
Defined.

Lemma dispatcher_announced_witness : exists ctx t m m1 text m2 t' c,
  MessageHello_Initialize cnc_demo.sg [] (Some ctx) [] = Some (Some m, []) /\
  Hello_Serialize cnc_demo.sg (Some m) [] = Some (true, Some m1, []) /\
  Hello_Deserialize cnc_demo.sg (Some (mkMessage (m_type m) 0 1 (m_headers m) None (Some text) None)) [] = Some (true, Some m2, []) /\
  ConnectedEntityList_Update cnc_demo.sg entity_demo.transports (uuid_demo.uuid 0) [] 100 (Some m2) t = Some (true, t') /\
  ConnectedEntityList_GetDispatcher cnc_demo.sg entity_demo.cfg [] t' = Some (Some c, t').
Proof.
  set (ctx := mkContext 1 (uuid_demo.uuid 9) (uuid_demo.uuid 11) (uuid_demo.uuid 4) 3 (mkDispatcher 2 7 8080 1 json_demo.words2)).
  destruct entity_demo.inspectors_table as (t & es & Hh & Ht & Ha).
  destruct (entity_demo.heard_pair _ _ _ Hh) as (e1 & e2 & -> & (l1 & _ & E1) & (l2 & _ & E2)).
  destruct (dispatcher_announced cnc_demo.sg entity_demo.nts cnc_demo.nugget_entries entity_demo.cfg entity_demo.transports
    entity_demo.supports entity_demo.transports_ok ctx ["abc"; "de"] (uuid_demo.uuid 0) 100 t [e1; e2] [])
    as (m & m1 & text & Ei & Es & _ & Hd).
  - reflexivity.
  - by_evaluation.
  - by_evaluation.
  - by_evaluation.
  - exact json_demo.words2_strings.
  - by_evaluation.
  - reflexivity.
  - exact Ht.
  - exact Ha.
  - reflexivity.
  - exact (entity_demo.heard_unknown _ _ 9 Hh eq_refl).
  - rewrite E1, E2. reflexivity.
  - destruct (Hd (mkMessage (m_type m) 0 1 (m_headers m) None (Some text) None) eq_refl eq_refl eq_refl) as (m2 & t' & c & Ed & Eu & Eg & _).
    exists ctx, t, m, m1, text, m2, t', c. split; [exact Ei|]. split; [exact Es|]. split; [exact Ed|]. split; [exact Eu|exact Eg].
Defined.
