(* ===== verification/Transfer.v ===== *)
(** * Transfer of blocks: src/transfer/core.c and src/transfer/file.c

    A block is stored for the dispatcher and fetched by the inspectors through the
    transport that the protocol of the dispatcher names; core.c chooses it and
    retries, file.c is the transport over a shared file system.

    A host has the world of the block pool with its files, the directories, and the
    outcomes of the coming system calls: [ho_sys] tells whether the coming calls of
    mkdir, open, fopen, fstat and mmap succeed, [ho_writes] how many bytes the coming
    calls of write take, or that they fail; when a list is exhausted the calls
    succeed.  [ho_streams] is the number of fopen calls less that of fclose calls. *)

From S2P Require Import Prelude CLib RzbList RzbListProps ListM Hash LibUuid Uuids Ntlv Blocks BlockPool JsonC JsonBuffer Messages MessageCodecs CncMessages Entities.

Definition RETRIES : nat := 5.
Definition TRANSFER_MODE_FILE : Z := 0.
Definition TRANSFER_MODE_SSH : Z := 1.
Definition TRANSFER_MODE_HTTP : Z := 2.
Definition TRANSFER_MODE_HTTPS : Z := 3.

Section Host.
Context `{EVP} `{LibUuid}.

Record Host := mkHost {
  ho_world : World;
  ho_dirs : gset string;
  ho_sys : list bool;
  ho_writes : list (option nat);
  ho_allocs : allocs;
  ho_streams : Z
}.

Definition HM (A : Type) : Type := Host -> fault + (A * Host).

Definition set_world (h : Host) (w : World) : Host :=
  mkHost w (ho_dirs h) (ho_sys h) (ho_writes h) (ho_allocs h) (ho_streams h).
Definition set_dirs (h : Host) (d : gset string) : Host :=
  mkHost (ho_world h) d (ho_sys h) (ho_writes h) (ho_allocs h) (ho_streams h).
Definition set_sys (h : Host) (o : list bool) : Host :=
  mkHost (ho_world h) (ho_dirs h) o (ho_writes h) (ho_allocs h) (ho_streams h).
Definition set_writes (h : Host) (o : list (option nat)) : Host :=
  mkHost (ho_world h) (ho_dirs h) (ho_sys h) o (ho_allocs h) (ho_streams h).
Definition set_memory (h : Host) (o : allocs) : Host :=
  mkHost (ho_world h) (ho_dirs h) (ho_sys h) (ho_writes h) o (ho_streams h).
Definition set_streams (h : Host) (n : Z) : Host :=
  mkHost (ho_world h) (ho_dirs h) (ho_sys h) (ho_writes h) (ho_allocs h) n.
End Host.

Global Instance HM_ret `{EVP} `{LibUuid} : MRet HM := fun A x h => inr (x, h).
Global Instance HM_bind `{EVP} `{LibUuid} : MBind HM := fun A B f m h =>
  match m h with
  | inl e => inl e
  | inr (x, h') => f x h'
  end.

Section Transfer.
Context `{EVP} `{LibUuid}.

(** ** The host *)

Definition host : HM Host := fun h => inr (h, h).
Definition update_host (f : Host -> Host) : HM unit := fun h => inr ((), f h).
Definition faults {A} (e : fault) : HM A := fun _ => inl e.
Definition pointee {A} (p : option A) : HM A := match p with Some x => mret x | None => faults NullDeref end.

(** Code of the block pool, and code that allocates. *)
Definition in_pool {A} (m : PM A) : HM A := fun h =>
  match m (ho_world h) with inl e => inl e | inr (x, w) => inr (x, set_world h w) end.
Definition allocating {A} (m : M A) : HM (option A) := fun h =>
  match m (ho_allocs h) with None => inl NullDeref | Some (r, o) => inr (r, set_memory h o) end.

(** A system call that may fail. *)
Definition syscall : HM bool := fun h => let '(ok, o) := alloc_next (ho_sys h) in inr (ok, set_sys h o).

(** The bytes of a file, NULL when it does not exist, and their assignment. *)
Definition contents_of (path : string) : HM (option (list Z)) := fun h => inr (w_files (ho_world h) !! path, h).
Definition set_contents (path : string) (bs : list Z) : HM unit :=
  update_host (fun h => set_world h (set_files (ho_world h) (<[path := bs]> (w_files (ho_world h))))).

(** Opening an existing file for reading. *)
Definition open_file (path : string) : HM (option (list Z)) :=
  f ← contents_of path;
  match f with
  | None => mret None
  | Some bs => ok ← syscall; mret (if ok : bool then Some bs else None)
  end.

(** ** Names *)

(** [s[i]], the terminator included. *)
Definition char_at (s : string) (i : nat) : option ascii :=
  match String.get i s with
  | Some c => Some c
  | None => if decide (i = String.length s) then Some (chr 0) else None
  end.

(** The string that [asprintf] leaves: the conversion [%c] of a terminator ends it. *)
Fixpoint c_string (s : string) : string :=
  match s with
  | EmptyString => EmptyString
  | String c s' => if code c == 0 then EmptyString else String c (c_string s')
  end.

(** The directories of the store, by the first characters of the name. *)
Definition subdir (base : string) (cs : list ascii) : string :=
  fold_left (fun d c => d +:+ "/" +:+ String c EmptyString) cs base.

Definition Transfer_generateFilename (block : Block) : M string :=
  id ← deref (b_pId block);
  hash ← Hash_ToText (bi_pHash id);
  alloc ;;
  mret (hash +:+ "." +:+ print_dec (bi_iLength id)).

(** ** Directories *)

(** [access] and [mkdir]. *)
Definition exists_path (path : string) (h : Host) : bool :=
  bool_decide (path ∈ ho_dirs h) || match w_files (ho_world h) !! path with Some _ => true | None => false end.

Definition File_mkdir (dir : string) : HM (option string) :=
  r ← allocating alloc;
  match r with
  | None => mret None
  | Some _ =>
      h ← host;
      if exists_path dir h then mret (Some dir)
      else
        ok ← syscall;
        if ok : bool then update_host (fun h => set_dirs h ({[ dir ]} ∪ ho_dirs h)) ;; mret (Some dir)
        else mret None
  end.

(** [File_mkdir] for a list of prefixes; the last one is the result. *)
Fixpoint make_dirs (dirs : list string) (dir : string) : HM (option string) :=
  match dirs with
  | [] => mret (Some dir)
  | d :: dirs' =>
      r ← File_mkdir d;
      match r with
      | None => mret None
      | Some d' => make_dirs dirs' d'
      end
  end.

(** The result of [Transfer_generateFilename] is not tested. *)
Definition createDirectory (block : Block) (basepath : string) : HM (option string) :=
  hash ← allocating (Transfer_generateFilename block);
  hash ← pointee hash;
  c0 ← pointee (char_at hash 0);
  c1 ← pointee (char_at hash 1);
  c2 ← pointee (char_at hash 2);
  c3 ← pointee (char_at hash 3);
  make_dirs (map c_string [subdir basepath [c0]; subdir basepath [c0; c1]; subdir basepath [c0; c1; c2];
                           subdir basepath [c0; c1; c2; c3]]) basepath.

(** ** Writing *)

(** The loop of [writeWrap]: the bytes that reach the file, whether all did, and the
    remaining outcomes. *)
Fixpoint write_loop (ws : list (option nat)) (bs written : list Z) : bool * list Z * list (option nat) :=
  match bs with
  | [] => (true, written, ws)
  | _ :: _ =>
      match ws with
      | [] => (true, written ++ bs, [])
      | None :: ws' => (false, written, ws')
      | Some n :: ws' => write_loop ws' (drop n bs) (written ++ take n bs)
      end
  end.

(** A [uint64_t] converted to [int]. *)
Definition int_of (n : Z) : Z := let m := u32 n in if m <? 2 ^ 31 then m else m - 2 ^ 32.

(** [write] refuses a NULL pointer with an error. *)
Definition writeWrap (path : string) (data : option (list Z)) (len : Z) : HM bool :=
  let SizeDword := int_of len in
  if SizeDword <=? 0 then mret true
  else
    match data with
    | None => mret false
    | Some data =>
        bs ← pointee (read_bytes data SizeDword);
        old ← contents_of path;
        h ← host;
        let '(ok, written, ws) := write_loop (ho_writes h) bs [] in
        update_host (fun h => set_writes h ws) ;;
        set_contents path (default [] old ++ written) ;;
        mret ok
    end.

(** [while ((len = fread (data, 1, 4096, file)) > 0) writeWrap (fd, data, len)] *)
Fixpoint copy_loop (fuel : nat) (path : string) (f : File) : HM (bool * File) :=
  match fuel with
  | O => mret (true, f)
  | S fuel' =>
      let '(chunk, f') := fread 4096 f in
      match chunk with
      | [] => mret (true, f')
      | _ :: _ =>
          ok ← writeWrap path (Some chunk) (Z.of_nat (length chunk));
          if ok : bool then copy_loop fuel' path f' else mret (false, f')
      end
  end.

Definition with_file (d : BlockPoolData) (f : File) : BlockPoolData :=
  let b := bd_data d in
  mkBlockPoolData (bd_iLength d) (bd_iFlags d) (mkBlockData (bd_fileName b) (bd_pointer b) (Some f) (bd_tempFile b)).

(** The loop over the data of an item, with the data it leaves behind: the position
    of a file moves. *)
Fixpoint store_data (path : string) (ds : list BlockPoolData) : HM (bool * list BlockPoolData) :=
  match ds with
  | [] => mret (true, [])
  | d :: ds' =>
      '(ok, d') ← (if bd_iFlags d == BLOCK_POOL_DATA_FLAG_FILE then
          f ← pointee (bd_file (bd_data d));
          '(ok, f') ← copy_loop (S (length (f_data f))) path f;
          mret (ok, with_file d (if ok : bool then rewind f' else f'))
        else
          ok ← writeWrap path (bd_pointer (bd_data d)) (bd_iLength d);
          mret (ok, d));
      if ok : bool then '(ok', ds'') ← store_data path ds'; mret (ok', d' :: ds'')
      else mret (false, d' :: ds')
  end.

(** ** The file transport *)

Section File.
Variable LocalityBlockStore : string.

Definition Transfer_File_Store (item : option positive) : HM TransferStatus :=
  match item with
  | None => mret TRANSFER_FAIL_LOCAL
  | Some i =>
      x ← in_pool (load i);
      block ← pointee (e_pBlock (bp_pEvent x));
      filename ← allocating (Transfer_generateFilename block);
      match filename with
      | None => mret TRANSFER_FAIL_LOCAL
      | Some filename =>
          dir ← createDirectory block LocalityBlockStore;
          match dir with
          | None => mret TRANSFER_FAIL_LOCAL
          | Some dir =>
              r ← allocating alloc;
              match r with
              | None => mret TRANSFER_FAIL_LOCAL
              | Some _ =>
                  let path := dir +:+ "/" +:+ filename in
                  fd ← open_file path;
                  match fd with
                  | Some _ => mret TRANSFER_OK
                  | None =>
                      fd ← syscall;
                      if negb fd then mret TRANSFER_FAIL_LOCAL
                      else
                        set_contents path [] ;;
                        '(ok, ds) ← store_data path (bp_pData x);
                        in_pool (BlockPool.store i (set_pData x ds)) ;;
                        mret (if ok : bool then TRANSFER_OK else TRANSFER_FAIL_LOCAL)
                  end
              end
          end
      end
  end.

Definition set_data (b : Block) (d : BlockData) : Block :=
  mkBlock (b_pId b) (b_pParentId b) (b_pParentBlock b) (b_pMetaDataList b) d.

(** The mapping shows the file: [mmap] of no bytes fails, and bytes past the end of
    the file cannot be read. *)
Definition Transfer_Prepare_File (block : Block) (file : option string) (temp : bool) : HM (bool * Block) :=
  match file with
  | None => mret (false, block)
  | Some file =>
      fd ← open_file file;
      match fd with
      | None => mret (false, set_data block (mkBlockData (bd_fileName (b_data block)) (bd_pointer (b_data block)) None
                                               (bd_tempFile (b_data block))))
      | Some bs =>
          update_host (fun h => set_streams h (ho_streams h + 1)) ;;
          id ← pointee (b_pId block);
          let data p := mkBlockData (Some file) p (Some (mkFile bs 0 None)) temp in
          ok ← (if bi_iLength id == 0 then mret false else syscall);
          if ok : bool then mret (true, set_data block (data (Some (take (Z.to_nat (bi_iLength id)) bs))))
          else
            update_host (fun h => set_streams h (ho_streams h - 1)) ;;
            mret (false, set_data block (data None))
      end
  end.

(** The path of a block. *)
Definition block_path (filename : string) : HM (option string) :=
  c0 ← pointee (char_at filename 0);
  c1 ← pointee (char_at filename 1);
  c2 ← pointee (char_at filename 2);
  c3 ← pointee (char_at filename 3);
  r ← allocating alloc;
  mret (match r with
        | None => None
        | Some _ => Some (c_string (subdir LocalityBlockStore [c0; c1; c2; c3] +:+ "/" +:+ filename))
        end).

Definition Transfer_File_Fetch (block : option Block) : HM (TransferStatus * option Block) :=
  match block with
  | None => mret (TRANSFER_FAIL_LOCAL, None)
  | Some b =>
      filename ← allocating (Transfer_generateFilename b);
      match filename with
      | None => mret (TRANSFER_FAIL_LOCAL, block)
      | Some filename =>
          path ← block_path filename;
          match path with
          | None => mret (TRANSFER_FAIL_LOCAL, block)
          | Some path =>
              fd ← open_file path;
              match fd with
              | None => mret (TRANSFER_FAIL_LOCAL, block)
              | Some _ =>
                  fstat ← syscall;
                  if negb fstat then mret (TRANSFER_FAIL_LOCAL, block)
                  else
                    '(ok, b') ← Transfer_Prepare_File b (Some path) false;
                    mret (if ok : bool then TRANSFER_OK else TRANSFER_FAIL_LOCAL, Some b')
              end
          end
      end
  end.

(** The result of [remove] is only logged. *)
Definition File_Delete (block : option Block) : HM bool :=
  match block with
  | None => mret false
  | Some b =>
      filename ← allocating (Transfer_generateFilename b);
      match filename with
      | None => mret false
      | Some filename =>
          path ← block_path filename;
          match path with
          | None => mret false
          | Some path => in_pool (unlink path) ;; mret true
          end
      end
  end.
End File.

(** The fields of the block are not reset. *)
Definition Transfer_Free (block : Block) : HM unit :=
  let d := b_data block in
  (match bd_file d with
   | Some _ => update_host (fun h => set_streams h (ho_streams h - 1))
   | None => mret ()
   end) ;;
  match bd_fileName d with
  | Some f => if bd_tempFile d then in_pool (unlink f) else mret ()
  | None => mret ()
  end.
End Transfer.

(** ** The choice of the transport: src/transfer/core.c *)

Section Core.
Context `{EVP} `{LibUuid}.
Variable sg_transportList : option transport_list.

(** The loop over the attempts; [status] is that of the last one. *)
Fixpoint attempts {S} (n : nat) (status : TransferStatus) (attempt : S -> fault + (TransferStatus * S)) (s : S)
    : fault + (TransferStatus * S) :=
  match n with
  | O => inr (status, s)
  | Datatypes.S n' =>
      match attempt s with
      | inl e => inl e
      | inr (TRANSFER_OK, s') => inr (TRANSFER_OK, s')
      | inr (status', s') => attempts n' status' attempt s'
      end
  end.

(** The lookup both directions share; [attempt] is [trans->store] or [trans->fetch]. *)
Definition transfer {S} (attempt : TransportDescriptor -> S -> fault + (TransferStatus * S))
    (dispatcher : option ConnectedEntity) (s : S) : fault + (TransferStatus * S) :=
  match d ← dispatcher; ce_dispatcher d with
  | None => inr (TRANSFER_FAIL_LOCAL, s)
  | Some d =>
      match List_Find sg_transportList (Some (de_protocol d)) [] with
      | None => inl NullDeref
      | Some (None, _, _) => inr (TRANSFER_FAIL_LOCAL, s)
      | Some (Some trans, _, _) => attempts RETRIES TRANSFER_FAIL_LOCAL (attempt trans) s
      end
  end.

(** [store] and [fetch] are the functions of the descriptors. *)
Definition Transfer_Store {S} (store : TransportDescriptor -> positive -> ConnectedEntity -> S -> fault + (TransferStatus * S))
    (item : positive) (dispatcher : option ConnectedEntity) : S -> fault + (TransferStatus * S) :=
  transfer (fun trans s => match dispatcher with Some d => store trans item d s | None => inr (TRANSFER_FAIL_LOCAL, s) end)
    dispatcher.

Definition Transfer_Fetch {S} (fetch : TransportDescriptor -> ConnectedEntity -> S -> fault + (TransferStatus * S))
    (dispatcher : option ConnectedEntity) : S -> fault + (TransferStatus * S) :=
  transfer (fun trans s => match dispatcher with Some d => fetch trans d s | None => inr (TRANSFER_FAIL_LOCAL, s) end)
    dispatcher.
End Core.

(** The function [store] of a descriptor: that of the file transport, and [others]
    for the network transports and the plugins. *)
Definition transport_store `{EVP} `{LibUuid} (LocalityBlockStore : string)
    (others : TransportDescriptor -> positive -> ConnectedEntity -> HM TransferStatus)
    (trans : TransportDescriptor) (item : positive) (d : ConnectedEntity) : HM TransferStatus :=
  if td_id trans == TRANSFER_MODE_FILE then Transfer_File_Store LocalityBlockStore (Some item) else others trans item d.

(** ** Start *)

Section Init.

Definition File_Init : option transport_list -> M (bool * option transport_list) :=
  Transport_Register (mkTransport TRANSFER_MODE_FILE "File").

(** [sessions_ok] tells whether the list of sessions could be created. *)
Definition SSH_Init (sessions_ok : bool) (l : option transport_list) : M (bool * option transport_list) :=
  if sessions_ok then Transport_Register (mkTransport TRANSFER_MODE_SSH "SSH") l else mret (false, l).

Definition HTTP_Init (l : option transport_list) : M (bool * option transport_list) :=
  '(ok, l) ← Transport_Register (mkTransport TRANSFER_MODE_HTTP "HTTP") l;
  if ok : bool then Transport_Register (mkTransport TRANSFER_MODE_HTTPS "HTTPS") l else mret (false, l).

(** [plugin] is the library a mode other than the traditional one loads: [None] when
    it cannot be opened or has no [transferInit], else that function.  The result is
    the status, the registry and [sg_bTraditionalMode]. *)
Definition Transfer_Init (sessions_ok : bool)
    (plugin : string -> option (option transport_list -> M (bool * option transport_list)))
    (mode : option string) : M (bool * option transport_list * bool) :=
  match mode with
  | None | Some EmptyString => mret (false, None, true)
  | Some mode =>
      fun o =>
      match Transport_List_Create o with
      | None => None
      | Some (None, o) => Some (Some (false, None, true), o)
      | Some (Some l, o) =>
          ('(ok, l) ← File_Init (Some l);
           if negb ok then mret (false, l, true)
           else
             '(ok, l) ← SSH_Init sessions_ok l;
             if negb ok then mret (false, l, true)
             else
               '(ok, l) ← HTTP_Init l;
               if negb ok then mret (false, l, true)
               else if decide (mode = "traditional") then mret (true, l, true)
               else
                 match plugin mode with
                 | None => mret (false, l, false)
                 | Some initPlugin => '(ok, l) ← initPlugin l; mret (ok, l, false)
                 end) o
      end
  end.
End Init.
