(* ===== verification/TransferProps.v ===== *)
(** * Properties of the transfer of blocks

    What a write, a copy and the loop over the data of an item leave in the file, the
    name and the path of a block, and what the file transport does as a whole. *)

From S2P Require Import Prelude CLib RzbList RzbListProps ListM Hash LibUuid Uuids Ntlv Blocks BlockPool BlockPoolProps JsonC JsonBuffer Messages MessageCodecs CncMessages Entities EntitiesProps Transfer.

Section Run.
Context `{EVP} `{LibUuid}.
Implicit Types h : Host.

Lemma HM_bind_inr {A B} (m : HM A) (f : A -> HM B) h x h' : m h = inr (x, h') -> (m ≫= f) h = f x h'.
Proof. intros E. unfold mbind, HM_bind. by rewrite E. Qed.

Lemma HM_bind_inl {A B} (m : HM A) (f : A -> HM B) h e : m h = inl e -> (m ≫= f) h = inl e.
Proof. intros E. unfold mbind, HM_bind. by rewrite E. Qed.

Lemma HM_ret_bind {A B} (x : A) (f : A -> HM B) h : (mret x ≫= f) h = f x h.
Proof. done. Qed.

Lemma pointee_run {A} (p : option A) x h : p = Some x -> pointee p h = inr (x, h).
Proof. by intros ->. Qed.

Lemma in_pool_run {A} (m : PM A) h x w : m (ho_world h) = inr (x, w) -> in_pool m h = inr (x, set_world h w).
Proof. intros E. unfold in_pool. by rewrite E. Qed.

Lemma allocating_run {A} (m : M A) h r o : m (ho_allocs h) = Some (r, o) -> allocating m h = inr (r, set_memory h o).
Proof. intros E. unfold allocating. by rewrite E. Qed.

(** ** Files *)

Definition file_at h (path : string) : option (list Z) := w_files (ho_world h) !! path.

(** The host after writes to a file. *)
Definition wrote h (path : string) (bs : list Z) (ws : list (option nat)) : Host :=
  mkHost (set_files (ho_world h) (<[path := bs]> (w_files (ho_world h)))) (ho_dirs h) (ho_sys h) ws (ho_allocs h) (ho_streams h).

Lemma wrote_file h path bs ws : file_at (wrote h path bs ws) path = Some bs.
Proof. apply lookup_insert_eq. Qed.

Lemma wrote_wrote h path a ws b ws' : wrote (wrote h path a ws) path b ws' = wrote h path b ws'.
Proof. unfold wrote, set_files. cbn. by rewrite insert_insert_eq. Qed.

Lemma wrote_same h path bs : file_at h path = Some bs -> wrote h path bs (ho_writes h) = h.
Proof. unfold file_at, wrote, set_files. intros E. rewrite insert_id by done. by destruct h as [[]]. Qed.

Lemma write_loop_spec ws : forall bs written, exists ok k ws',
  write_loop ws bs written = (ok, written ++ take k bs, ws') /\
  (if ok then take k bs = bs else (k < length bs)%nat) /\ (ws = [] -> ok = true /\ ws' = []).
Proof.
  induction ws as [|[n|] ws IH]; intros [|b bs] written; simpl.
  - exists true, 0%nat, []. by rewrite app_nil_r.
  - exists true, (S (length bs)), []. by rewrite take_ge by (simpl; lia).
  - exists true, 0%nat, (Some n :: ws). by rewrite app_nil_r.
  - destruct (IH (drop n (b :: bs)) (written ++ take n (b :: bs))) as (ok & k & ws' & E & Hok & _).
    exists ok, (n + k)%nat, ws'. rewrite E, <- app_assoc, take_take_drop. split_and!; [done| |done].
    destruct ok; [rewrite <- take_take_drop, Hok; apply take_drop|]. rewrite length_drop in Hok. cbn [length] in *. lia.
  - exists true, 0%nat, (None :: ws). by rewrite app_nil_r.
  - exists false, 0%nat, ws. rewrite app_nil_r. split_and!; [done|lia|done].
Qed.

Lemma int_of_small n : 0 <= n < 2 ^ 31 -> int_of n = n.
Proof.
  intros Hn. unfold int_of, u32. rewrite wrap_small by (unfold in_width; lia). by destruct (Z.ltb_spec n (2 ^ 31)); [|lia].
Qed.

Lemma writeWrap_run h path old data n : file_at h path = Some old -> 0 <= n < 2 ^ 31 -> n <= Z.of_nat (length data) ->
  let bs := take (Z.to_nat n) data in
  exists ok k ws, writeWrap path (Some data) n h = inr (ok, wrote h path (old ++ take k bs) ws) /\
    (if ok then take k bs = bs else (k < length bs)%nat) /\ (ho_writes h = [] -> ok = true /\ ws = []).
Proof.
  intros Hf Hn Hl bs. unfold writeWrap. rewrite int_of_small by done. destruct (Z.leb_spec n 0).
  { assert (n = 0) as -> by lia. exists true, 0%nat, (ho_writes h). simpl. rewrite app_nil_r, wrote_same by done. by split_and!. }
  assert (Er : read_bytes data n = Some bs) by (unfold read_bytes; by destruct (Z.ltb_spec (Z.of_nat (length data)) n); [lia|]).
  rewrite (HM_bind_inr _ _ _ _ _ (pointee_run _ _ h Er)).
  rewrite (HM_bind_inr _ _ _ _ _ (eq_refl : contents_of path h = inr (file_at h path, h))), Hf.
  rewrite (HM_bind_inr _ _ _ _ _ (eq_refl : host h = inr (h, h))).
  destruct (write_loop_spec (ho_writes h) bs []) as (ok & k & ws & E & Hok & Hws). rewrite E.
  exists ok, k, ws. by split_and!.
Qed.

Lemma fread_all n f : (0 < n)%nat -> f_rest f <> [] -> exists b chunk f', fread n f = (b :: chunk, f') /\
  b :: chunk = take n (f_rest f) /\ f_rest f' = drop n (f_rest f) /\ rewind f' = rewind f.
Proof.
  intros Hp Hne. destruct (fread_rest n f) as (Hc & Hr & Hw). destruct (fread n f) as [chunk f']. cbn [fst snd] in *.
  destruct chunk as [|b chunk]; [|by exists b, chunk, f']. destruct n; [lia|]. by destruct (f_rest f).
Qed.

(** A chunk and the beginning of what follows it. *)
Lemma take_chunk {A} (xs : list A) n k : take n xs ++ take k (drop n xs) = take (length (take n xs) + k) xs.
Proof.
  rewrite length_take. destruct (decide (n <= length xs)%nat).
  - rewrite Nat.min_l by lia. by rewrite take_take_drop.
  - rewrite Nat.min_r by lia. rewrite drop_ge, take_nil, app_nil_r by lia. rewrite !take_ge by lia. done.
Qed.

Lemma copy_loop_run path : forall fuel h old f, file_at h path = Some old -> (length (f_rest f) < fuel)%nat ->
  exists ok k ws f', copy_loop fuel path f h = inr ((ok, f'), wrote h path (old ++ take k (f_rest f)) ws) /\
    (if ok then take k (f_rest f) = f_rest f /\ rewind f' = rewind f else (k < length (f_rest f))%nat) /\ (ho_writes h = [] -> ok = true /\ ws = []).
Proof.
  induction fuel as [|fuel IH]; intros h old f Hf Hl; [lia|]. cbn [copy_loop].
  assert (exists c, c = 4096%nat /\ (0 < c)%nat /\ Z.of_nat c < 2 ^ 31) as (c & Ec & Hc0 & Hc1) by (exists 4096%nat; split; [done|split; lia]).
  rewrite <- Ec. clear Ec. destruct (decide (f_rest f = [])) as [Hn|Hn].
  { destruct (fread_rest c f) as (Hc & _ & Hw). destruct (fread c f) as [chunk f']. cbn [fst snd] in *.
    rewrite Hn in *. rewrite take_nil in Hc. subst chunk. exists true, 0%nat, (ho_writes h), f'.
    rewrite app_nil_r, wrote_same by done. by split_and!. }
  destruct (fread_all c f Hc0 Hn) as (b & chunk & f' & -> & Hc & Hr & Hw). set (n := Z.of_nat (length (b :: chunk))).
  assert (Hlen : (length (b :: chunk) <= c)%nat) by (rewrite Hc, length_take; lia).
  destruct (writeWrap_run h path old (b :: chunk) n Hf) as (ok & k & ws & E & Hok & Hws); [unfold n; lia..|].
  assert (Eb : take (Z.to_nat n) (b :: chunk) = b :: chunk) by (unfold n; rewrite Nat2Z.id; by apply take_ge).
  rewrite Eb in E, Hok. rewrite (HM_bind_inr _ _ _ _ _ E). destruct ok.
  - rewrite Hok in *.
    destruct (IH (wrote h path (old ++ b :: chunk) ws) (old ++ b :: chunk) f') as (ok & k' & ws' & f2 & E' & Hok' & Hws').
    { apply wrote_file. }
    { rewrite Hr, length_drop. destruct (f_rest f); [done|]. cbn [length] in *. lia. }
    exists ok, (length (b :: chunk) + k')%nat, ws', f2. rewrite E', wrote_wrote, <- app_assoc.
    assert (Et : (b :: chunk) ++ take k' (f_rest f') = take (length (b :: chunk) + k') (f_rest f)) by (rewrite Hc, Hr; apply take_chunk).
    rewrite Et. split_and!; [done| |].
    + destruct ok; [destruct Hok' as [Ek Er]; split; [|congruence]; rewrite <- Et, Ek, Hc, Hr; apply take_drop|].
      apply (f_equal length) in Hc. rewrite length_take in Hc. rewrite Hr, length_drop in Hok'. lia.
    + intros Hw0. apply Hws'. by apply Hws.
  - exists false, (Nat.min k c), ws, f'. rewrite Hc in Hok |- *. rewrite take_take. split_and!; [done| |intros Hw0; by destruct (Hws Hw0)].
    rewrite length_take in Hok. lia.
Qed.

(** ** The data of an item *)

(** A piece that [writeWrap] can store: memory of less than 2 GiB or a file at its
    start. *)
Definition storable (d : BlockPoolData) : Prop :=
  at_start d \/ in_memory d /\ bd_iFlags d <> BLOCK_POOL_DATA_FLAG_FILE /\ bd_iLength d < 2 ^ 31.

Lemma f_rest_start c : f_rest (mkFile c 0 None) = c.
Proof. done. Qed.

(** One piece. *)
Definition store_piece (path : string) (d : BlockPoolData) : HM (bool * BlockPoolData) :=
  if bd_iFlags d == BLOCK_POOL_DATA_FLAG_FILE then
    f ← pointee (bd_file (bd_data d));
    '(ok, f') ← copy_loop (S (length (f_data f))) path f;
    mret (ok, with_file d (if ok : bool then rewind f' else f'))
  else
    ok ← writeWrap path (bd_pointer (bd_data d)) (bd_iLength d);
    mret (ok, d).

Lemma store_piece_run path h old d : file_at h path = Some old -> storable d ->
  exists ok k ws d', store_piece path d h = inr ((ok, d'), wrote h path (old ++ take k (piece d)) ws) /\
    (if ok then take k (piece d) = piece d /\ d' = d else (k < length (piece d))%nat) /\ (ho_writes h = [] -> ok = true /\ ws = []).
Proof.
  intros Hf [((Hfl & Hp & _) & c & Hc)|((p & Hp & Hn & Hl) & Hfl & Hs)]; unfold store_piece, piece.
  - rewrite Hfl, Z.eqb_refl, Hc. cbn [f_data].
    rewrite (HM_bind_inr _ _ _ _ _ (pointee_run (Some (mkFile c 0 None)) _ h eq_refl)).
    destruct (copy_loop_run path (S (length c)) h old (mkFile c 0 None) Hf) as (ok & k & ws & f' & E & Hok & Hws);
      [rewrite f_rest_start; lia|].
    rewrite (HM_bind_inr _ _ _ _ _ E). rewrite f_rest_start in *. eexists ok, k, ws, _. split_and!; [reflexivity| |done].
    destruct ok; [|done]. destruct Hok as [Ek Er]. split; [done|]. rewrite Er. unfold with_file, rewind. cbn.
    destruct d as [? ? []]. cbn in *. by subst.
  - destruct (Z.eqb_spec (bd_iFlags d) BLOCK_POOL_DATA_FLAG_FILE); [done|]. rewrite Hn, Hp.
    destruct (writeWrap_run h path old p (bd_iLength d) Hf) as (ok & k & ws & E & Hok & Hws); [lia..|].
    rewrite (HM_bind_inr _ _ _ _ _ E). exists ok, k, ws, d. split_and!; [done| |done]. by destruct ok.
Qed.

Lemma store_data_eq path d ds h : store_data path (d :: ds) h =
  ('(ok, d') ← store_piece path d;
   if ok : bool then '(ok', ds') ← store_data path ds; mret (ok', d' :: ds') else mret (false, d' :: ds)) h.
Proof. done. Qed.

Lemma store_data_run path ds : forall h old, file_at h path = Some old -> Forall storable ds ->
  exists ok k ws ds', store_data path ds h = inr ((ok, ds'), wrote h path (old ++ take k (concat (map piece ds))) ws) /\
    (if ok then take k (concat (map piece ds)) = concat (map piece ds) /\ ds' = ds
     else (k < length (concat (map piece ds)))%nat) /\
    (ho_writes h = [] -> ok = true /\ ws = []).
Proof.
  induction ds as [|d ds IH]; intros h old Hf Hs.
  { exists true, 0%nat, (ho_writes h), []. simpl. rewrite app_nil_r, wrote_same by done. by split_and!. }
  apply Forall_cons in Hs as [Hd Hds]. rewrite store_data_eq.
  destruct (store_piece_run path h old d Hf Hd) as (ok & k & ws & d' & E & Hok & Hws). rewrite (HM_bind_inr _ _ _ _ _ E).
  cbn [map concat]. destruct ok.
  - destruct Hok as [Ek ->]. rewrite Ek in *.
    destruct (IH (wrote h path (old ++ piece d) ws) (old ++ piece d)) as (ok & k' & ws' & ds' & E' & Hok' & Hws'); [apply wrote_file|done|].
    rewrite (HM_bind_inr _ _ _ _ _ E'), wrote_wrote, <- app_assoc. exists ok, (length (piece d) + k')%nat, ws', (d :: ds').
    rewrite take_app_add. split_and!; [done| |intros Hw; apply Hws'; by apply Hws].
    destruct ok; [by destruct Hok' as [-> ->]|]. rewrite length_app. lia.
  - exists false, (Nat.min k (length (piece d))), ws, (d' :: ds). split_and!; [|rewrite length_app; lia|intros Hw; by destruct (Hws Hw)].
    rewrite take_app_le by lia. by rewrite <- take_take, (take_ge (piece d) (length (piece d))) by lia.
Qed.
End Run.

(** ** Names and paths *)

Section Paths.
Context `{EVPLaws} `{LibUuid}.
Implicit Types h : Host.

(** The name of a block in the store, from its digest and its length. *)
Definition block_name (digest : list Z) (len : Z) : string := hex_text digest +:+ "." +:+ print_dec len.

(** Its first four characters. *)
Definition initials (name : string) : list ascii :=
  [default zero (String.get 0 name); default zero (String.get 1 name);
   default zero (String.get 2 name); default zero (String.get 3 name)].
Definition block_dir (base name : string) : string := subdir base (initials name).
Definition block_file (base name : string) : string := block_dir base name +:+ "/" +:+ name.

Lemma generateFilename_run b id hash o : b_pId b = Some id -> bi_pHash id = Some hash -> complete hash ->
  Transfer_generateFilename b o = (alloc ;; alloc ;; mret (block_name (digest hash) (bi_iLength id))) o.
Proof.
  intros Hb Hh Hc. unfold Transfer_generateFilename. rewrite Hb, deref_bind, Hh. unfold mbind at 1, M_bind at 1.
  rewrite ToText_complete by done. unfold mbind, M_bind, alloc. destruct (alloc_next o) as [[] o1]; [|done]. cbn.
  by destruct (alloc_next o1) as [[] o2].
Qed.

Lemma generateFilename_ok b id hash : b_pId b = Some id -> bi_pHash id = Some hash -> complete hash ->
  Transfer_generateFilename b [] = Some (Some (block_name (digest hash) (bi_iLength id)), []).
Proof. intros Hb Hh Hc. by rewrite (generateFilename_run b id hash). Qed.

Lemma nul_free_app a b : nul_free (a +:+ b) = nul_free a && nul_free b.
Proof. apply str_forall_app. Qed.

Lemma c_string_nul_free s : nul_free s = true -> c_string s = s.
Proof.
  unfold nul_free. induction s as [|c s IH]; simpl; [done|]. intros [Hc Hs]%andb_true_iff.
  destruct (code c == 0); [done|]. by rewrite IH.
Qed.

Lemma get_chars s : (4 <= String.length s)%nat -> exists c0 c1 c2 c3 t,
  s = String c0 (String c1 (String c2 (String c3 t))) /\ initials s = [c0; c1; c2; c3] /\
  char_at s 0 = Some c0 /\ char_at s 1 = Some c1 /\ char_at s 2 = Some c2 /\ char_at s 3 = Some c3.
Proof.
  destruct s as [|c0 [|c1 [|c2 [|c3 t]]]]; simpl; try lia. intros _. by exists c0, c1, c2, c3, t.
Qed.

(** The name has at least four characters and no terminator among them. *)
Lemma block_name_ok hash len : complete hash -> 0 <= len ->
  nul_free (block_name (digest hash) len) = true /\ (4 <= String.length (block_name (digest hash) len))%nat.
Proof.
  intros Hc Hl. destruct (read_digest hash Hc) as (d & _ & _ & _ & Hd & Hb). destruct (hex_text_spec _ Hb) as (Ht & Hx & _).
  unfold block_name. rewrite !nul_free_app, (nul_free_xdigits _ Hx), print_dec_nul_free by done. split; [done|].
  assert (16 <= h_iSize hash).
  { rewrite (complete_size _ Hc). pose proof (complete_type _ Hc) as Hn. revert Hn. unfold Hash_Get_ExpectedDigestLength.
    repeat case_match; lia. }
  assert (strlen (hex_text (digest hash) +:+ "." +:+ print_dec len) = 2 * h_iSize hash + strlen ("." +:+ print_dec len))
    by (rewrite strlen_app; lia). unfold strlen in *. lia.
Qed.

Lemma subdir_nul_free base cs : nul_free base = true -> Forall (fun c => code c <> 0) cs -> nul_free (subdir base cs) = true.
Proof.
  unfold subdir. intros Hb Hc. revert base Hb. induction Hc as [|c cs Hn _ IH]; intros base Hb; [done|]. simpl. apply IH.
  rewrite !nul_free_app, Hb. simpl. unfold nul_free. simpl. by destruct (Z.eqb_spec (code c) 0).
Qed.

Lemma initials_nul_free s : nul_free s = true -> (4 <= String.length s)%nat -> Forall (fun c => code c <> 0) (initials s).
Proof.
  intros Hn Hl. destruct (get_chars s Hl) as (c0 & c1 & c2 & c3 & t & -> & -> & _). unfold nul_free in Hn. simpl in Hn.
  rewrite !andb_true_iff, !negb_true_iff, !Z.eqb_neq in Hn. destruct Hn as (? & ? & ? & ? & _). by repeat constructor.
Qed.

(** ** Directories *)

(** The calls that do not touch files change only the directories and the outcomes. *)
Record aside h h' : Prop := {
  as_world : ho_world h' = ho_world h;
  as_writes : ho_writes h' = ho_writes h;
  as_streams : ho_streams h' = ho_streams h;
  as_allocs : ho_allocs h = [] -> ho_allocs h' = [];
  as_sys : ho_sys h = [] -> ho_sys h' = []
}.

Lemma aside_refl h : aside h h.
Proof. by split. Qed.

Lemma aside_trans h1 h2 h3 : aside h1 h2 -> aside h2 h3 -> aside h1 h3.
Proof. intros [] []. split; try congruence; auto. Qed.

Lemma File_mkdir_run dir h : exists r h', File_mkdir dir h = inr (r, h') /\ aside h h' /\
  (forall d, r = Some d -> d = dir) /\ (ho_allocs h = [] -> ho_sys h = [] -> r = Some dir).
Proof.
  unfold File_mkdir. rewrite (HM_bind_inr _ _ h (if fst (alloc_next (ho_allocs h)) then Some () else None)
    (set_memory h (snd (alloc_next (ho_allocs h))))).
  2: { unfold allocating, alloc. by destruct (alloc_next (ho_allocs h)). }
  destruct (alloc_next (ho_allocs h)) as [b o] eqn:Eo; cbn [fst snd].
  assert (Ho : ho_allocs h = [] -> o = [] /\ b = true) by (intros E; rewrite E in Eo; by injection Eo).
  assert (Ha : aside h (set_memory h o)) by (split; [done..|by intros E; destruct (Ho E)|done]).
  destruct b; cbn [fst]; [|eexists None, _; split_and!; [reflexivity|done|done|intros E _; by destruct (Ho E)]].
  rewrite (HM_bind_inr host _ (set_memory h o) (set_memory h o) (set_memory h o) eq_refl).
  destruct (exists_path dir (set_memory h o)); [eexists _, _; split_and!; [reflexivity|done|by intros ? [= ->]|done]|].
  unfold mbind at 1, HM_bind at 1, syscall. cbn [ho_sys set_memory]. destruct (alloc_next (ho_sys h)) as [b2 o2] eqn:Eo2.
  assert (Ho2 : ho_sys h = [] -> o2 = [] /\ b2 = true) by (intros E; rewrite E in Eo2; by injection Eo2).
  destruct b2.
  - eexists _, _. split_and!; [reflexivity| |by intros ? [= ->]|done].
    split; [done..|by intros E; destruct (Ho E)|by intros E; destruct (Ho2 E)].
  - eexists None, _. split_and!; [reflexivity| |done|intros _ E; by destruct (Ho2 E)].
    split; [done..|by intros E; destruct (Ho E)|by intros E; destruct (Ho2 E)].
Qed.

Lemma make_dirs_run dirs : forall dir h, exists r h', make_dirs dirs dir h = inr (r, h') /\ aside h h' /\
  (forall d, r = Some d -> d = default dir (last dirs)) /\
  (ho_allocs h = [] -> ho_sys h = [] -> r = Some (default dir (last dirs))).
Proof.
  induction dirs as [|d dirs IH]; intros dir h; cbn [make_dirs].
  { eexists _, h. split_and!; [reflexivity|apply aside_refl|by intros ? [= ->]|done]. }
  destruct (File_mkdir_run d h) as (r & h1 & E & Ha & Hr & Hok). rewrite (HM_bind_inr _ _ _ _ _ E). rewrite last_cons.
  destruct r as [d'|].
  - specialize (Hr d' eq_refl) as ->. destruct (IH d h1) as (r & h2 & E' & Ha' & Hr' & Hok'). exists r, h2.
    destruct (last dirs) as [z|]; simpl in *; (split_and!; [done|by eapply aside_trans|done|]; intros Hq1 Hq2; apply Hok';
      [by apply Ha|by apply Ha]).
  - exists None, h1. split_and!; [done..|]. intros Hq1 Hq2. by specialize (Hok Hq1 Hq2).
Qed.

Lemma allocs_empty {A} (x : A) h : ho_allocs h = [] -> allocating (alloc ;; mret x) h = inr (Some x, h).
Proof. intros E. unfold allocating. rewrite E. destruct h. simpl in E. by subst. Qed.

Lemma alloc_empty h : ho_allocs h = [] -> allocating alloc h = inr (Some (), h).
Proof. intros E. unfold allocating. rewrite E. destruct h. simpl in E. by subst. Qed.

Lemma filename_empty b id hash h : b_pId b = Some id -> bi_pHash id = Some hash -> complete hash -> ho_allocs h = [] ->
  allocating (Transfer_generateFilename b) h = inr (Some (block_name (digest hash) (bi_iLength id)), h).
Proof.
  intros Hb Hh Hc E. unfold allocating. rewrite E, (generateFilename_ok b id hash) by done. destruct h. simpl in E. by subst.
Qed.

(** A step of a run on a host. *)
Local Ltac hm H := rewrite (HM_bind_inr _ _ _ _ _ H).

Lemma createDirectory_run base b id hash h : b_pId b = Some id -> bi_pHash id = Some hash -> complete hash -> 0 <= bi_iLength id ->
  nul_free base = true -> ho_allocs h = [] ->
  exists r h', createDirectory b base h = inr (r, h') /\ aside h h' /\
    (forall d, r = Some d -> d = block_dir base (block_name (digest hash) (bi_iLength id))) /\
    (ho_sys h = [] -> r <> None).
Proof.
  intros Hb Hh Hc Hl Hn Ha. unfold createDirectory. destruct (block_name_ok hash (bi_iLength id) Hc Hl) as [Hnul Hlen].
  hm (filename_empty b id hash h Hb Hh Hc Ha). set (name := block_name (digest hash) (bi_iLength id)) in *.
  hm (pointee_run (Some name) name h eq_refl). pose proof (initials_nul_free name Hnul Hlen) as Hi. unfold block_dir.
  destruct (get_chars name Hlen) as (c0 & c1 & c2 & c3 & t & _ & Ei & E0 & E1 & E2 & E3). rewrite Ei in *.
  hm (pointee_run _ _ h E0). hm (pointee_run _ _ h E1). hm (pointee_run _ _ h E2). hm (pointee_run _ _ h E3).
  destruct (make_dirs_run (map c_string [subdir base [c0]; subdir base [c0; c1]; subdir base [c0; c1; c2];
    subdir base [c0; c1; c2; c3]]) base h) as (r & h' & E & Has & Hr & Hok).
  exists r, h'. split_and!; [done..| |].
  - intros d Hd. rewrite (Hr d Hd). by apply (c_string_nul_free (subdir base [c0; c1; c2; c3])), subdir_nul_free.
  - intros Hs. by rewrite (Hok Ha Hs).
Qed.

Lemma open_file_run path h : exists r h', open_file path h = inr (r, h') /\ aside h h' /\ ho_allocs h' = ho_allocs h /\
  (forall bs, r = Some bs -> file_at h path = Some bs) /\
  (file_at h path = None -> r = None /\ h' = h) /\ (ho_sys h = [] -> r = file_at h path).
Proof.
  unfold open_file. hm (eq_refl : contents_of path h = inr (file_at h path, h)). destruct (file_at h path) as [bs|].
  2: { exists None, h. split_and!; [done|apply aside_refl|done..]. }
  unfold mbind, HM_bind, syscall. destruct (alloc_next (ho_sys h)) as [b o] eqn:Eo.
  assert (Ho : ho_sys h = [] -> o = [] /\ b = true) by (intros E; rewrite E in Eo; by injection Eo).
  eexists _, _. split_and!; [reflexivity| |done| |done|].
  - split; [done..|]. intros E. by destruct (Ho E).
  - by destruct b; intros ? [= ->].
  - intros E. destruct (Ho E) as [-> ->]. done.
Qed.

Lemma syscall_run h : exists b o, syscall h = inr (b, set_sys h o) /\ (ho_sys h = [] -> b = true /\ o = []).
Proof.
  unfold syscall. destruct (alloc_next (ho_sys h)) as [b o] eqn:Eo. exists b, o. split; [done|].
  intros E. rewrite E in Eo. by injection Eo as <- <-.
Qed.

(** ** Storing *)

(** The item is live and finalised, and its data can be stored. *)
Definition stores h (i : positive) (x : BlockPoolItem) (id : BlockId) (hash : Hash) : Prop :=
  w_items (ho_world h) !! i = Some x /\ item_id x = Some id /\ bi_pHash id = Some hash /\ complete hash /\
  0 <= bi_iLength id /\ Forall storable (bp_pData x).

Definition name_of (id : BlockId) (hash : Hash) : string := block_name (digest hash) (bi_iLength id).

(** [h'] differs from [h] in a file of the store, and not in the items. *)
Definition stored h h' (path : string) (bs : list Z) : Prop :=
  w_files (ho_world h') = <[path := bs]> (w_files (ho_world h)) /\
  ho_allocs h' = ho_allocs h /\ ho_streams h' = ho_streams h.

Lemma set_world_same h : set_world h (ho_world h) = h.
Proof. by destruct h. Qed.

Lemma set_pData_same x : set_pData x (bp_pData x) = x.
Proof. by destruct x. Qed.

(** The path to the file: the directories are there or the store fails. *)
Lemma File_Store_front base i x id hash h : w_items (ho_world h) !! i = Some x -> item_id x = Some id ->
  bi_pHash id = Some hash -> complete hash -> 0 <= bi_iLength id -> nul_free base = true -> ho_allocs h = [] ->
  let path := block_file base (name_of id hash) in
  exists r h1, aside h h1 /\ (ho_sys h = [] -> r = true) /\
    Transfer_File_Store base (Some i) h =
    if r : bool then
      (fd ← open_file path;
       match fd with
       | Some _ => mret TRANSFER_OK
       | None =>
           fd ← syscall;
           if negb fd then mret TRANSFER_FAIL_LOCAL
           else
             set_contents path [] ;;
             '(ok, ds) ← store_data path (bp_pData x);
             in_pool (BlockPool.store i (set_pData x ds)) ;;
             mret (if ok : bool then TRANSFER_OK else TRANSFER_FAIL_LOCAL)
       end) h1
    else inr (TRANSFER_FAIL_LOCAL, h1).
Proof.
  intros Hx Hid Hh Hc Hl Hn Ha path. unfold Transfer_File_Store, name_of in *.
  hm (in_pool_run _ h _ _ (load_run i x _ Hx)). rewrite set_world_same.
  unfold item_id in Hid. destruct (e_pBlock (bp_pEvent x)) as [b|]; [|done]. cbn [mbind option_bind] in Hid.
  hm (pointee_run (Some b) b h eq_refl). hm (filename_empty b id hash h Hid Hh Hc Ha).
  destruct (createDirectory_run base b id hash h Hid Hh Hc Hl Hn Ha) as (r & h1 & E1 & A1 & Hr & Hok1). hm E1.
  destruct r as [dir|]; [|exists false, h1; split_and!; [done| |done]; intros Hs; by destruct (Hok1 Hs)].
  specialize (Hr dir eq_refl) as ->. hm (alloc_empty h1 (as_allocs _ _ A1 Ha)). exists true, h1. split_and!; [done|done|reflexivity].
Qed.

(** A block that is there is not stored again. *)
Lemma File_Store_present base i x id hash h bs : w_items (ho_world h) !! i = Some x -> item_id x = Some id ->
  bi_pHash id = Some hash -> complete hash -> 0 <= bi_iLength id -> nul_free base = true -> ho_allocs h = [] ->
  file_at h (block_file base (name_of id hash)) = Some bs -> ho_sys h = [] ->
  exists h', Transfer_File_Store base (Some i) h = inr (TRANSFER_OK, h') /\ aside h h'.
Proof.
  intros Hx Hid Hh Hc Hl Hn Ha Hf Hs.
  destruct (File_Store_front base i x id hash h Hx Hid Hh Hc Hl Hn Ha) as (r & h1 & A1 & Hr & ->). rewrite (Hr Hs).
  destruct (open_file_run (block_file base (name_of id hash)) h1) as (o & h2 & E2 & A2 & _ & _ & _ & Hok). hm E2.
  rewrite (Hok (as_sys _ _ A1 Hs)). unfold file_at in *. rewrite (as_world _ _ A1), Hf. exists h2. split; [done|].
  by eapply aside_trans.
Qed.

(** The outcomes of a store. *)
Lemma File_Store_run base i x id hash h : stores h i x id hash -> nul_free base = true -> ho_allocs h = [] ->
  let path := block_file base (name_of id hash) in
  exists status h', Transfer_File_Store base (Some i) h = inr (status, h') /\
    (((status = TRANSFER_OK /\ is_Some (file_at h path)) \/ (status = TRANSFER_FAIL_LOCAL /\ ho_sys h <> [])) /\ aside h h' \/
     exists k ds,
       (status = TRANSFER_OK /\ take k (data_of x) = data_of x /\ ds = bp_pData x \/
        status = TRANSFER_FAIL_LOCAL /\ (k < length (data_of x))%nat /\ ho_writes h <> []) /\
       stored h h' path (take k (data_of x)) /\ (ho_sys h = [] -> ho_sys h' = []) /\
       w_items (ho_world h') = <[i := set_pData x ds]> (w_items (ho_world h)) /\ w_size (ho_world h') = w_size (ho_world h) /\
       w_held (ho_world h') = w_held (ho_world h) /\ (file_at h path <> None -> ho_sys h <> [])).
Proof.
  intros (Hx & Hid & Hh & Hc & Hl & Hst) Hn Ha path.
  destruct (File_Store_front base i x id hash h Hx Hid Hh Hc Hl Hn Ha) as (r & h1 & A1 & Hr & ->). fold path.
  destruct r.
  2: { eexists _, h1. split; [done|]. left. split; [right|done]. split; [done|]. intros Hs. by specialize (Hr Hs). }
  destruct (open_file_run path h1) as (r & h2 & E2 & A2 & Ha2 & Hr2 & Hno & Hok2). hm E2.
  pose proof (aside_trans _ _ _ A1 A2) as A12.
  assert (Hf1 : file_at h1 path = file_at h path) by (unfold file_at; by rewrite (as_world _ _ A1)). rewrite Hf1 in *.
  destruct r as [bs|].
  { eexists _, h2. split; [reflexivity|]. left. split; [left|done]. split; [done|]. by rewrite (Hr2 bs eq_refl). }
  destruct (syscall_run h2) as (ok & o & E3 & Hok3). hm E3.
  assert (A3 : aside h (set_sys h2 o)) by (destruct A12; split; [done..|]; intros Hs; by apply Hok3; auto).
  destruct ok; cbn [negb].
  2: { eexists _, _. split; [reflexivity|]. left. split; [right|done]. split; [done|]. intros Hs. by destruct (Hok3 (as_sys _ _ A12 Hs)). }
  hm (eq_refl : set_contents path [] (set_sys h2 o) = inr ((), wrote (set_sys h2 o) path [] (ho_writes (set_sys h2 o)))).
  set (h3 := wrote _ path [] _). destruct (store_data_run path (bp_pData x) h3 []) as (ok & k & ws & ds & E4 & Hok4 & Hws).
  { apply wrote_file. } { done. }
  hm E4. unfold h3. rewrite wrote_wrote, app_nil_l. fold (data_of x) in *.
  hm (in_pool_run _ (wrote (set_sys h2 o) path (take k (data_of x)) ws) _ _ (store_run i (set_pData x ds) _)).
  pose proof (as_world _ _ A3) as Hw3. pose proof (as_writes _ _ A3) as Hwr.
  eexists _, _. split; [reflexivity|]. right. exists k, ds. split_and!.
  - destruct ok; [left; by destruct Hok4|right]. split_and!; [done..|]. intros Hw. by destruct (Hws (eq_trans Hwr Hw)).
  - unfold stored. cbn. rewrite <- Hw3. split_and!; [done| |by apply A3]. rewrite Ha. by apply A3.
  - intros Hs. by apply A3.
  - cbn. by rewrite <- Hw3.
  - cbn. by rewrite <- Hw3.
  - cbn. by rewrite <- Hw3.
  - intros Hf Hs. by rewrite <- (Hok2 (as_sys _ _ A1 Hs)) in Hf.
Qed.

(** ** Fetching *)

Lemma block_path_run base name h : nul_free base = true -> nul_free name = true -> (4 <= String.length name)%nat ->
  ho_allocs h = [] -> block_path base name h = inr (Some (block_file base name), h).
Proof.
  intros Hb Hn Hl Ha. unfold block_path, block_file, block_dir. pose proof (initials_nul_free name Hn Hl) as Hi.
  destruct (get_chars name Hl) as (c0 & c1 & c2 & c3 & t & _ & Ei & E0 & E1 & E2 & E3). rewrite Ei in *.
  hm (pointee_run _ _ h E0). hm (pointee_run _ _ h E1). hm (pointee_run _ _ h E2). hm (pointee_run _ _ h E3).
  hm (alloc_empty h Ha). rewrite c_string_nul_free; [done|]. by rewrite !nul_free_app, subdir_nul_free, Hn by done.
Qed.

(** The block with the data of a file. *)
Definition fetched (b : Block) (path : string) (len : Z) (bs : list Z) : Block :=
  set_data b (mkBlockData (Some path) (Some (take (Z.to_nat len) bs)) (Some (mkFile bs 0 None)) false).

Lemma File_Fetch_run base b id hash h : b_pId b = Some id -> bi_pHash id = Some hash -> complete hash -> 0 <= bi_iLength id ->
  nul_free base = true -> ho_allocs h = [] -> ho_sys h = [] ->
  let path := block_file base (name_of id hash) in
  match file_at h path with
  | Some bs =>
      if bi_iLength id == 0 then Transfer_File_Fetch base (Some b) h = inr ((TRANSFER_FAIL_LOCAL, Some
        (set_data b (mkBlockData (Some path) None (Some (mkFile bs 0 None)) false))), h)
      else Transfer_File_Fetch base (Some b) h =
        inr ((TRANSFER_OK, Some (fetched b path (bi_iLength id) bs)), set_streams h (ho_streams h + 1))
  | None => Transfer_File_Fetch base (Some b) h = inr ((TRANSFER_FAIL_LOCAL, Some b), h)
  end.
Proof.
  intros Hid Hh Hc Hl Hb Ha Hs path. unfold Transfer_File_Fetch. hm (filename_empty b id hash h Hid Hh Hc Ha).
  destruct (block_name_ok hash (bi_iLength id) Hc Hl) as [Hn Hlen]. hm (block_path_run base _ h Hb Hn Hlen Ha). fold path.
  assert (Ho : forall h', ho_sys h' = [] -> open_file path h' = inr (file_at h' path, h')).
  { intros h' Hs'. unfold open_file. hm (eq_refl : contents_of path h' = inr (file_at h' path, h')). destruct (file_at h' path); [|done].
    unfold mbind, HM_bind, syscall. rewrite Hs'. destruct h'. simpl in Hs'. by subst. }
  assert (Hy : forall h', ho_sys h' = [] -> syscall h' = inr (true, h')).
  { intros h' Hs'. unfold syscall. rewrite Hs'. destruct h'. simpl in Hs'. by subst. }
  change (block_file base (block_name (digest hash) (bi_iLength id))) with path. hm (Ho h Hs).
  destruct (file_at h path) as [bs|] eqn:Ef; [|done].
  hm (Hy h Hs). cbn [negb]. unfold Transfer_Prepare_File.
  set (opened_at := set_streams h (ho_streams h + 1)).
  destruct (bi_iLength id == 0) eqn:E0.
  - unfold mbind at 1, HM_bind at 1. hm (Ho h Hs). rewrite Ef.
    hm (eq_refl : update_host (fun h => set_streams h (ho_streams h + 1)) h = inr ((), opened_at)).
    hm (pointee_run _ _ opened_at Hid). rewrite E0, HM_ret_bind.
    unfold mbind, HM_bind, update_host, mret, HM_ret, opened_at, set_streams. cbn.
    replace (ho_streams h + 1 - 1) with (ho_streams h) by lia. by destruct h.
  - unfold mbind at 1, HM_bind at 1. hm (Ho h Hs). rewrite Ef.
    hm (eq_refl : update_host (fun h => set_streams h (ho_streams h + 1)) h = inr ((), opened_at)).
    hm (pointee_run _ _ opened_at Hid). rewrite E0. by hm (Hy opened_at Hs).
Qed.
End Paths.
