(* ===== verification/TransferThms.v ===== *)
(** * Theorems about the transfer of blocks

    What is stored is what is fetched, how often a transport is tried, that a name
    stands for one content; and what happens when a write fails, memory runs out, a
    piece is too long or a file cannot be mapped. *)

From S2P Require Import Prelude CLib RzbList RzbListProps ListM Hash LibUuid Uuids Ntlv Blocks BlockPool BlockPoolProps JsonC JsonBuffer Messages MessageCodecs CncMessages Entities EntitiesProps Transfer TransferProps.

(** ** Attempts *)

Section Attempts.
Context `{EVP} `{LibUuid} {S : Type}.
Variable attempt : S -> fault + (TransferStatus * S).

(** [n] attempts in a row that fail, with the status of the last one. *)
Inductive failed : nat -> S -> TransferStatus -> S -> Prop :=
  | failed_0 s : failed 0 s TRANSFER_FAIL_LOCAL s
  | failed_S n s st0 s1 st s' : failed n s st0 s1 -> attempt s1 = inr (st, s') -> st <> TRANSFER_OK -> failed (Datatypes.S n) s st s'.

Lemma failed_next n st0 s0 s st s' : attempt s0 = inr (st0, s) -> st0 <> TRANSFER_OK -> failed n s st s' ->
  failed (Datatypes.S n) s0 (match n with O => st0 | _ => st end) s'.
Proof.
  intros E0 Hn Hf. revert E0. induction Hf as [s|n s st1 s1 st s' Hf IH E Hst]; intros E0.
  - econstructor; [apply failed_0|done|done].
  - econstructor; [by apply IH|done|done].
Qed.

Lemma attempts_run n : forall status s r s', attempts n status attempt s = inr (r, s') ->
  (exists k st s1, (k < n)%nat /\ failed k s st s1 /\ attempt s1 = inr (TRANSFER_OK, s') /\ r = TRANSFER_OK) \/
  (exists st, failed n s st s' /\ r = (match n with O => status | _ => st end)).
Proof.
  induction n as [|n IH]; intros status s r s'; simpl.
  { intros [= <- <-]. right. eexists. split; [apply failed_0|done]. }
  destruct (attempt s) as [e|[st s1]] eqn:E; [done|]. intros Hr.
  assert (Hcase : st = TRANSFER_OK /\ r = TRANSFER_OK /\ s' = s1 \/ st <> TRANSFER_OK /\ attempts n st attempt s1 = inr (r, s')).
  { destruct st; [injection Hr as <- <-; auto|right; done|right; done]. }
  destruct Hcase as [(-> & -> & ->)|[Hn Hr']].
  - left. exists 0%nat, TRANSFER_FAIL_LOCAL, s. split_and!; [lia|apply failed_0|done|done].
  - destruct (IH st s1 r s' Hr') as [(k & st' & s2 & Hk & Hf & Ho & ->)|(st' & Hf & ->)].
    + left. eexists (Datatypes.S k), _, s2. split_and!; [lia|by eapply failed_next|done|done].
    + right. eexists. split; [by eapply failed_next|done].
Qed.

Lemma attempts_failed k s st s1 : failed k s st s1 -> forall n status,
  attempts (k + n) status attempt s = attempts n (match k with O => status | _ => st end) attempt s1.
Proof.
  induction 1 as [s|k s st0 s1 st s' Hf IH E Hst]; intros n status; [done|].
  replace (Datatypes.S k + n)%nat with (k + Datatypes.S n)%nat by lia. rewrite IH. simpl. rewrite E. by destruct st.
Qed.

Lemma attempts_iff n status s r s' : (0 < n)%nat ->
  attempts n status attempt s = inr (r, s') <->
  (exists k st s1, (k < n)%nat /\ failed k s st s1 /\ attempt s1 = inr (TRANSFER_OK, s') /\ r = TRANSFER_OK) \/ failed n s r s'.
Proof.
  intros Hn. split.
  - intros E. destruct (attempts_run _ _ _ _ _ E) as [?|(st & Hf & ->)]; [by left|right]. by destruct n; [lia|].
  - intros [(k & st & s1 & Hk & Hf & Ho & ->)|Hf].
    + replace n with (k + Datatypes.S (n - k - 1))%nat by lia. rewrite (attempts_failed _ _ _ _ Hf). simpl. by rewrite Ho.
    + replace n with (n + 0)%nat at 1 by lia. rewrite (attempts_failed _ _ _ _ Hf). by destruct n; [lia|].
Qed.
End Attempts.

Section Core.
Context `{EVP} `{LibUuid}.

(** C40. A transfer tries its transport until it succeeds and five times at most.  The
    status is OK exactly when one of the attempts is, no attempt is made after it, and
    the state is the one the last attempt leaves; after five failures the status is
    that of the fifth.  Without a dispatcher or a transport for its protocol nothing is
    tried and the failure is local. *)
Theorem Transfer_Store_attempts {S} (store : TransportDescriptor -> positive -> ConnectedEntity -> S -> fault + (TransferStatus * S))
    transports ds item (d : ConnectedEntity) e s r s' : registry transports ds -> ce_dispatcher d = Some e ->
  Transfer_Store transports store item (Some d) s = inr (r, s') <->
  match find_first (fun t => td_id t == de_protocol e) ds with
  | None => r = TRANSFER_FAIL_LOCAL /\ s' = s
  | Some t =>
      (exists k st s1, (k < 5)%nat /\ failed (store t item d) k s st s1 /\ store t item d s1 = inr (TRANSFER_OK, s') /\
         r = TRANSFER_OK) \/
      failed (store t item d) 5 s r s'
  end.
Proof.
  intros (l & -> & Hc & Hp & Hk) He. unfold Transfer_Store, transfer. cbn [mbind option_bind]. rewrite He.
  rewrite (Find_contents l ds Transport_KeyCmp (de_protocol e) [] Hc (plain_locks _ Hp) Hk).
  rewrite (find_first_ext _ (fun t => td_id t == de_protocol e)).
  2: { intros t. unfold Transport_KeyCmp. apply eq_true_iff_eq. rewrite !Z.eqb_eq. lia. }
  destruct (find_first _ ds) as [t|]; [apply (attempts_iff (store t item d) RETRIES); unfold RETRIES; lia|].
  split; [by intros [= <- <-]|]. by intros [-> ->].
Qed.
End Core.

(** ** Names *)

Lemma dot_split a b a' b' : str_forall isxdigit a = true -> str_forall isxdigit a' = true ->
  a +:+ "." +:+ b = a' +:+ "." +:+ b' -> a = a' /\ b = b'.
Proof.
  revert a'. induction a as [|c a IH]; intros [|c' a'] Ha Ha'; simpl in *; intros E.
  - by injection E.
  - injection E as <- _. by apply andb_true_iff in Ha' as [? _].
  - injection E as -> _. by apply andb_true_iff in Ha as [? _].
  - injection E as -> E. apply andb_true_iff in Ha as [_ Ha], Ha' as [_ Ha']. by destruct (IH a' Ha Ha' E) as [-> ->].
Qed.

Lemma hex_text_inj a b : Forall (fun x => 0 <= x < 256) a -> Forall (fun x => 0 <= x < 256) b -> hex_text a = hex_text b -> a = b.
Proof.
  intros Ha Hb E. destruct (hex_text_spec a Ha) as (La & _ & Sa), (hex_text_spec b Hb) as (Lb & _ & Sb).
  rewrite <- Sa, <- Sb, E. f_equal. rewrite E in La. lia.
Qed.

Lemma print_dec_inj m n : in_width 64 m -> in_width 64 n -> print_dec m = print_dec n -> m = n.
Proof.
  intros Hm Hn E. pose proof (sscanf_print 64 m ltac:(lia) Hm) as H1. rewrite E, (sscanf_print 64 n ltac:(lia) Hn) in H1. congruence.
Qed.

Section Theorems.
Context `{EVPLaws} `{LibUuid}.

(** The name of a block in the store stands for its content: two blocks have the
    same name exactly when they have the same digest and the same length. *)
Theorem Transfer_generateFilename_injective b1 b2 id1 id2 (h1 h2 : Hash) : b_pId b1 = Some id1 -> b_pId b2 = Some id2 ->
  bi_pHash id1 = Some h1 -> bi_pHash id2 = Some h2 -> complete h1 -> complete h2 ->
  in_width 64 (bi_iLength id1) -> in_width 64 (bi_iLength id2) ->
  (Transfer_generateFilename b1 [] = Transfer_generateFilename b2 [] <->
   digest h1 = digest h2 /\ bi_iLength id1 = bi_iLength id2).
Proof.
  intros E1 E2 Eh1 Eh2 C1 C2 W1 W2. rewrite (generateFilename_ok b1 id1 h1), (generateFilename_ok b2 id2 h2) by done.
  destruct (read_digest h1 C1) as (_ & _ & _ & _ & _ & B1), (read_digest h2 C2) as (_ & _ & _ & _ & _ & B2).
  destruct (hex_text_spec _ B1) as (_ & X1 & _), (hex_text_spec _ B2) as (_ & X2 & _).
  split; [|by intros [-> ->]]. intros [= E]. apply dot_split in E as [Ed El]; [|done|done].
  split; [by apply hex_text_inj|by apply print_dec_inj].
Qed.

(** *** The file transport *)

(** C39. What is stored is what is fetched.  An item whose block is not in the store yet
    is stored under the name of its block, no other file changing; a nugget that
    shares the file system and has a block with the same digest and length then
    fetches exactly the data of the item. *)
Theorem Transfer_File_roundtrip base i x id hash h b id' hash' :
  stores h i x id hash -> nul_free base = true -> ho_allocs h = [] -> ho_sys h = [] -> ho_writes h = [] ->
  file_at h (block_file base (name_of id hash)) = None ->
  bi_iLength id = Z.of_nat (length (data_of x)) -> 0 < bi_iLength id ->
  b_pId b = Some id' -> bi_pHash id' = Some hash' -> complete hash' -> digest hash' = digest hash ->
  bi_iLength id' = bi_iLength id ->
  exists h1 h2 b', Transfer_File_Store base (Some i) h = inr (TRANSFER_OK, h1) /\
    (forall q, q <> block_file base (name_of id hash) -> file_at h1 q = file_at h q) /\
    w_items (ho_world h1) = w_items (ho_world h) /\
    Transfer_File_Fetch base (Some b) h1 = inr ((TRANSFER_OK, Some b'), h2) /\
    bd_pointer (b_data b') = Some (data_of x).
Proof.
  intros Hst Hb Ha Hs Hw Hf Hlen Hpos Eb Eh' Hc' Hd Hl'.
  destruct (File_Store_run base i x id hash h Hst Hb Ha) as (status & h1 & E & [[[[_ Hp]|[_ Hns]] _]|(k & ds & Hk & Hsto & Hs1 & Hi & _)]).
  { rewrite Hf in Hp. by destruct Hp. } { done. }
  destruct Hk as [(-> & Hk & ->)|(_ & _ & Hnw)]; [|done]. destruct Hsto as (Hfs & Ha1 & _). rewrite Hk in Hfs.
  destruct Hst as (Hx & _). rewrite set_pData_same, insert_id in Hi by done.
  assert (En : name_of id' hash' = name_of id hash) by (unfold name_of; by rewrite Hd, Hl').
  assert (Hf1 : file_at h1 (block_file base (name_of id' hash')) = Some (data_of x))
    by (unfold file_at; rewrite Hfs, En; apply lookup_insert_eq).
  pose proof (File_Fetch_run base b id' hash' h1 Eb Eh' Hc' ltac:(lia) Hb (eq_trans Ha1 Ha) (Hs1 Hs)) as Hfetch.
  cbv zeta in Hfetch. rewrite Hf1 in Hfetch.
  destruct (Z.eqb_spec (bi_iLength id') 0); [lia|].
  eexists h1, _, _. split_and!; [exact E| |done|exact Hfetch|].
  - intros q Hq. unfold file_at. rewrite Hfs. by apply lookup_insert_ne.
  - cbn. rewrite Hl', Hlen, Nat2Z.id. by rewrite take_ge.
Qed.

(** A failed write is reported as a success.  When an attempt to store a block fails
    in a write, the file stays truncated; the next attempt finds it there and takes
    the block for stored.  [Transfer_Store] returns OK, the store holds less than the
    data, and whoever fetches the block gets the truncated data as the block. *)
Theorem Transfer_Store_truncates base others transports ds i x id hash (d : ConnectedEntity) e h h1 :
  registry transports ds -> find_first (fun t => td_id t == de_protocol e) ds = Some (mkTransport TRANSFER_MODE_FILE "File") ->
  ce_dispatcher d = Some e -> stores h i x id hash -> nul_free base = true -> ho_allocs h = [] -> ho_sys h = [] ->
  Transfer_File_Store base (Some i) h = inr (TRANSFER_FAIL_LOCAL, h1) ->
  exists h2 k, Transfer_Store transports (transport_store base others) i (Some d) h = inr (TRANSFER_OK, h2) /\
    file_at h2 (block_file base (name_of id hash)) = Some (take k (data_of x)) /\ (k < length (data_of x))%nat.
Proof.
  intros (l & -> & Hcl & Hp & Hk) Ht He Hst Hb Ha Hs E1.
  destruct (File_Store_run base i x id hash h Hst Hb Ha) as (status & h1' & E & Hor). rewrite E1 in E. injection E as <- <-.
  destruct Hor as [[[[? _]|[_ ?]] _]|(k & ps & Hkk & (Hfs & Ha1 & _) & Hs1 & Hi & _)]; [done..|].
  destruct Hkk as [[? _]|(_ & Hlt & _)]; [done|]. destruct Hst as (Hx & Hid & Hh & Hc & Hl & _).
  destruct (File_Store_present base i (set_pData x ps) id hash h1 (take k (data_of x))) as (h2 & E2 & A2); try done.
  { rewrite Hi. apply lookup_insert_eq. } { by rewrite Ha1. } { unfold file_at. rewrite Hfs. apply lookup_insert_eq. } { by apply Hs1. }
  exists h2, k. split_and!; [|unfold file_at; rewrite (as_world _ _ A2), Hfs; apply lookup_insert_eq|done].
  unfold Transfer_Store, transfer. cbn [mbind option_bind]. rewrite He.
  rewrite (Find_contents l ds Transport_KeyCmp (de_protocol e) [] Hcl (plain_locks _ Hp) Hk).
  rewrite (find_first_ext _ (fun t => td_id t == de_protocol e)), Ht.
  2: { intros t. unfold Transport_KeyCmp. apply eq_true_iff_eq. rewrite !Z.eqb_eq. lia. }
  assert (Et : forall h, transport_store base others (mkTransport TRANSFER_MODE_FILE "File") i d h = Transfer_File_Store base (Some i) h)
    by done.
  unfold RETRIES. cbn [attempts]. by rewrite Et, E1, Et, E2.
Qed.

(** A piece of 2 GiB or more is dropped: its length is negative as an [int], so
    [writeWrap] writes nothing and reports success.  An item of one such piece is
    stored as an empty file. *)
Theorem Transfer_File_Store_drops_large base i x id hash h p : w_items (ho_world h) !! i = Some x -> item_id x = Some id ->
  bi_pHash id = Some hash -> complete hash -> 0 <= bi_iLength id -> nul_free base = true ->
  ho_allocs h = [] -> ho_sys h = [] -> file_at h (block_file base (name_of id hash)) = None ->
  bp_pData x = [p] -> bd_iFlags p <> BLOCK_POOL_DATA_FLAG_FILE -> 2 ^ 31 <= bd_iLength p < 2 ^ 32 ->
  exists h', Transfer_File_Store base (Some i) h = inr (TRANSFER_OK, h') /\
    file_at h' (block_file base (name_of id hash)) = Some [].
Proof.
  intros Hx Hid Hh Hc Hl Hb Ha Hs Hf Hd Hfl Hbig.
  destruct (File_Store_front base i x id hash h Hx Hid Hh Hc Hl Hb Ha) as (r & h1 & A1 & Hr & ->). rewrite (Hr Hs).
  set (path := block_file base (name_of id hash)) in *.
  destruct (open_file_run path h1) as (o & h2 & E2 & A2 & _ & _ & Hno & _). rewrite (HM_bind_inr _ _ _ _ _ E2).
  destruct Hno as [-> ->]; [unfold file_at; by rewrite (as_world _ _ A1)|].
  destruct (syscall_run h1) as (ok & o' & E3 & Hok). destruct (Hok (as_sys _ _ A1 Hs)) as [-> ->]. rewrite (HM_bind_inr _ _ _ _ _ E3).
  cbn [negb]. rewrite Hd.
  assert (Ew : forall h, writeWrap path (bd_pointer (bd_data p)) (bd_iLength p) h = inr (true, h)).
  { intros h0. unfold writeWrap, int_of, u32. rewrite wrap_small by (unfold in_width; lia).
    destruct (Z.ltb_spec (bd_iLength p) (2 ^ 31)); [lia|]. by destruct (Z.leb_spec (bd_iLength p - 2 ^ 32) 0); [|lia]. }
  assert (Es : forall h, store_data path [p] h = inr ((true, [p]), h)).
  { intros h0. rewrite store_data_eq. unfold store_piece. destruct (Z.eqb_spec (bd_iFlags p) BLOCK_POOL_DATA_FLAG_FILE); [done|].
    unfold mbind, HM_bind. by rewrite Ew. }
  unfold mbind, HM_bind, set_contents, update_host. rewrite Es. eexists. split; [reflexivity|]. unfold file_at. cbn. apply lookup_insert_eq.
Qed.

(** Two error paths of the file transport.  When memory runs out while the name is
    made for the second time, [createDirectory] dereferences NULL.  When a fetched file
    cannot be mapped, as a block of length 0 never can, its stream is closed and stays
    in the block: releasing the block closes it again. *)
Theorem Transfer_File_error_paths base i x id hash h b : w_items (ho_world h) !! i = Some x -> item_id x = Some id ->
  bi_pHash id = Some hash -> complete hash ->
  (ho_allocs h = [true; true; false] -> Transfer_File_Store base (Some i) h = inl NullDeref) /\
  (ho_allocs h = [] -> ho_sys h = [] -> nul_free base = true -> is_Some (file_at h (block_file base (name_of id hash))) ->
   b_pId b = Some id -> bi_iLength id = 0 ->
   exists b', Transfer_File_Fetch base (Some b) h = inr ((TRANSFER_FAIL_LOCAL, Some b'), h) /\
     exists h', Transfer_Free b' h = inr ((), h') /\ ho_streams h' = ho_streams h - 1).
Proof.
  intros Hx Hid Hh Hc. split.
  - intros Ha. unfold Transfer_File_Store. rewrite (HM_bind_inr _ _ _ _ _ (in_pool_run _ h _ _ (load_run i x _ Hx))).
    rewrite set_world_same. unfold item_id in Hid. destruct (e_pBlock (bp_pEvent x)) as [b0|]; [|done].
    cbn [mbind option_bind] in Hid. rewrite (HM_bind_inr _ _ _ _ _ (pointee_run (Some b0) b0 h eq_refl)).
    assert (Eg : forall o, Transfer_generateFilename b0 o = (alloc ;; alloc ;; mret (name_of id hash)) o)
      by (intros o; by apply generateFilename_run).
    rewrite (HM_bind_inr _ _ h (Some (name_of id hash)) (set_memory h [false]));
      [|unfold allocating; rewrite Ha, Eg; reflexivity].
    unfold createDirectory, mbind, HM_bind, allocating. cbn [ho_allocs set_memory]. by rewrite Eg.
  - intros Ha Hs Hb [bs Hf] Eb El. pose proof (File_Fetch_run base b id hash h Eb Hh Hc ltac:(lia) Hb Ha Hs) as Hfetch.
    cbv zeta in Hfetch. rewrite Hf, El in Hfetch. eexists. split; [exact Hfetch|]. eexists. split; reflexivity.
Qed.
End Theorems.

(** ** Start *)

(** After [Transfer_Init] in the traditional mode the file, SSH, HTTP and HTTPS
    transports are registered and no protocol has another; without a mode nothing is
    started. *)
Theorem Transfer_Init_registers plugin : Transfer_Init true plugin None [] = Some (Some (false, None, true), []) /\
  exists p, Transfer_Init true plugin (Some "traditional") [] = Some (Some (true, p, true), []) /\
    registry p [mkTransport TRANSFER_MODE_FILE "File"; mkTransport TRANSFER_MODE_SSH "SSH";
                mkTransport TRANSFER_MODE_HTTP "HTTP"; mkTransport TRANSFER_MODE_HTTPS "HTTPS"] /\
    forall protocol, Transport_IsSupported p protocol =
      Some ((0 <=? protocol) && (protocol <=? 3)).
Proof.
  split; [done|]. destruct Transport_List_Create_run as (l0 & E0 & H0).
  destruct (Transport_Register_run (mkTransport TRANSFER_MODE_FILE "File") _ _ H0) as (l1 & E1 & H1).
  destruct (Transport_Register_run (mkTransport TRANSFER_MODE_SSH "SSH") _ _ H1) as (l2 & E2 & H2).
  destruct (Transport_Register_run (mkTransport TRANSFER_MODE_HTTP "HTTP") _ _ H2) as (l3 & E3 & H3).
  destruct (Transport_Register_run (mkTransport TRANSFER_MODE_HTTPS "HTTPS") _ _ H3) as (l4 & E4 & H4).
  exists l4. split_and!; [|exact H4|].
  - unfold Transfer_Init. rewrite E0. unfold File_Init. rewrite (M_bind_ok _ _ _ _ _ E1). cbn [negb].
    unfold SSH_Init. rewrite (M_bind_ok _ _ _ _ _ E2). cbn [negb]. unfold HTTP_Init.
    rewrite (M_bind_ok _ _ _ (true, l4) []); [done|]. by rewrite (M_bind_ok _ _ _ _ _ E3).
  - intros protocol. rewrite (Transport_IsSupported_run _ _ protocol H4). f_equal. cbn [existsb td_id app].
    unfold TRANSFER_MODE_FILE, TRANSFER_MODE_SSH, TRANSFER_MODE_HTTP, TRANSFER_MODE_HTTPS.
    apply eq_true_iff_eq. rewrite !orb_true_iff, andb_true_iff, !Z.eqb_eq, !Z.leb_le. lia.
Qed.

(** ** Witnesses *)

Module transfer_demo.
Import bytes16 toy.
Definition memory (n : Z) (bs : list Z) : BlockPoolData :=
  mkBlockPoolData n BLOCK_POOL_DATA_FLAG_MALLOCD (mkBlockData None (Some bs) None false).
Definition id (n : Z) : BlockId := mkBlockId (Some md5) uuid_null n.
Definition block (n : Z) : Block := mkBlock (Some (id n)) None None None no_data.
Definition ctx : RazorbackContext := mkContext 7 (uuid_demo.uuid 4) (uuid_demo.uuid 6) (uuid_demo.uuid 5) 0 (mkDispatcher 0 0 0 0 None).
Definition item (n : Z) (ds : list BlockPoolData) : BlockPoolItem :=
  mkBlockPoolItem BLOCK_POOL_STATUS_FINALIZED ds None ctx (mkEvent None None None uuid_null (Some (block n)) None).
Definition at_host (x : BlockPoolItem) (f : gmap string (list Z)) (ws : list (option nat)) (o : allocs) : Host :=
  mkHost (mkWorld {[ 1%positive := x ]} 3 [] f) ∅ [] ws o 0.
Definition host0 (ws : list (option nat)) : Host := at_host (item 3 [memory 3 [1; 2; 3; 4]]) ∅ ws [].

Lemma stores0 ws : stores (host0 ws) 1 (item 3 [memory 3 [1; 2; 3; 4]]) (id 3) md5.
Proof.
  split; [apply lookup_singleton_eq|]. split; [reflexivity|]. split; [reflexivity|]. split; [apply md5_complete|]. split; [done|].
  constructor; [|constructor]. right. split; [|split; [done|reflexivity]]. exists [1; 2; 3; 4]. by split_and!.
Qed.

Definition dispatcher : ConnectedEntity :=
  mkConnectedEntity (uuid_demo.uuid 1) (uuid_demo.uuid 11) (uuid_demo.uuid 4) 100 0 (Some (mkDispatcherEntity 0 0 None TRANSFER_MODE_FILE 0 true)).
Definition no_transport (trans : TransportDescriptor) (item : positive) (d : ConnectedEntity) : HM TransferStatus :=
  mret TRANSFER_FAIL_DISPATCHER.

(** A registry with the file transport. *)
Lemma file_registry : exists p, registry p [mkTransport TRANSFER_MODE_FILE "File"].
Proof.
  destruct Transport_List_Create_run as (l0 & _ & H0).
  destruct (Transport_Register_run (mkTransport TRANSFER_MODE_FILE "File") _ _ H0) as (l1 & _ & H1). by exists l1.
Qed.

(** The first attempt fails after one byte. *)
Lemma first_fails : exists h1, Transfer_File_Store "store" (Some 1%positive) (host0 [Some 1%nat; None]) = inr (TRANSFER_FAIL_LOCAL, h1).
Proof.
  assert (E : match Transfer_File_Store "store" (Some 1%positive) (host0 [Some 1%nat; None]) with
    | inr (TRANSFER_FAIL_LOCAL, _) => true | _ => false end = true) by (vm_compute; reflexivity).
  destruct (Transfer_File_Store _ _ _) as [|[[] h1]]; try discriminate E. by exists h1.
Qed.
End transfer_demo.

Import bytes16 toy.

Lemma Transfer_Store_attempts_witness : exists transports,
  Transfer_Store transports (fun _ _ _ n => inr (if (n <? 3)%nat then TRANSFER_FAIL_DISPATCHER else TRANSFER_OK, S n)) 1
    (Some transfer_demo.dispatcher) 0%nat = inr (TRANSFER_OK, 4%nat).
Proof.
  destruct transfer_demo.file_registry as (p & Hp). exists p.
  set (store := fun (_ : TransportDescriptor) (_ : positive) (_ : ConnectedEntity) (n : nat) =>
    (inr (if (n <? 3)%nat then TRANSFER_FAIL_DISPATCHER else TRANSFER_OK, S n) : fault + (TransferStatus * nat))).
  apply (Transfer_Store_attempts store p _ 1 transfer_demo.dispatcher _ 0%nat TRANSFER_OK 4%nat Hp eq_refl).
  left. exists 3%nat, TRANSFER_FAIL_DISPATCHER, 3%nat. split; [lia|]. split; [|split; reflexivity].
  apply (failed_S _ 2 _ TRANSFER_FAIL_DISPATCHER 2%nat); [|reflexivity|discriminate].
  apply (failed_S _ 1 _ TRANSFER_FAIL_DISPATCHER 1%nat); [|reflexivity|discriminate].
  apply (failed_S _ 0 _ TRANSFER_FAIL_LOCAL 0%nat); [apply failed_0|reflexivity|discriminate].
Defined.

Lemma Transfer_generateFilename_injective_witness :
  Transfer_generateFilename (transfer_demo.block 3) [] <> Transfer_generateFilename (transfer_demo.block 4) [].
Proof.
  intros E. apply (Transfer_generateFilename_injective (transfer_demo.block 3) (transfer_demo.block 4) (transfer_demo.id 3)
    (transfer_demo.id 4) md5 md5) in E; [|reflexivity..|apply md5_complete|apply md5_complete|split; done|split; done].
  destruct E as [_ E]. discriminate E.
Defined.

Lemma Transfer_File_roundtrip_witness : exists h1 h2 b',
  Transfer_File_Store "store" (Some 1%positive) (transfer_demo.host0 []) = inr (TRANSFER_OK, h1) /\
  Transfer_File_Fetch "store" (Some (transfer_demo.block 3)) h1 = inr ((TRANSFER_OK, Some b'), h2) /\
  bd_pointer (b_data b') = Some [1; 2; 3].
Proof.
  destruct (Transfer_File_roundtrip "store" 1 (transfer_demo.item 3 [transfer_demo.memory 3 [1; 2; 3; 4]]) (transfer_demo.id 3) md5
    (transfer_demo.host0 []) (transfer_demo.block 3) (transfer_demo.id 3) md5 (transfer_demo.stores0 []))
    as (h1 & h2 & b' & E1 & _ & _ & E2 & Hp); [reflexivity..|apply md5_complete|reflexivity|reflexivity|].
  exists h1, h2, b'. split; [exact E1|]. split; [exact E2|exact Hp].
Defined.

Lemma Transfer_Store_truncates_witness : exists transports h2 k,
  Transfer_Store transports (transport_store "store" transfer_demo.no_transport) 1 (Some transfer_demo.dispatcher)
    (transfer_demo.host0 [Some 1%nat; None]) = inr (TRANSFER_OK, h2) /\
  file_at h2 (block_file "store" (name_of (transfer_demo.id 3) md5)) = Some (take k [1; 2; 3]) /\ (k < 3)%nat.
Proof.
  destruct transfer_demo.file_registry as (p & Hp). destruct transfer_demo.first_fails as (h1 & E1).
  destruct (Transfer_Store_truncates "store" transfer_demo.no_transport p _ 1
    (transfer_demo.item 3 [transfer_demo.memory 3 [1; 2; 3; 4]]) (transfer_demo.id 3) md5 transfer_demo.dispatcher (mkDispatcherEntity 0 0 None TRANSFER_MODE_FILE 0 true)
    (transfer_demo.host0 [Some 1%nat; None]) h1 Hp eq_refl eq_refl (transfer_demo.stores0 _) eq_refl eq_refl eq_refl E1)
    as (h2 & k & E2 & Hf & Hk).
  exists p, h2, k. split; [exact E2|]. split; [exact Hf|exact Hk].
Defined.

Lemma Transfer_File_Store_drops_large_witness : exists h',
  Transfer_File_Store "store" (Some 1%positive)
    (transfer_demo.at_host (transfer_demo.item 3000000000 [transfer_demo.memory 3000000000 []]) ∅ [] []) = inr (TRANSFER_OK, h') /\
  file_at h' (block_file "store" (name_of (transfer_demo.id 3000000000) md5)) = Some [].
Proof.
  apply (Transfer_File_Store_drops_large "store" 1 (transfer_demo.item 3000000000 [transfer_demo.memory 3000000000 []])
    (transfer_demo.id 3000000000) md5 _ (transfer_demo.memory 3000000000 [])); try reflexivity; try discriminate.
  - apply md5_complete.
  - split; [discriminate|reflexivity].
Defined.

Lemma Transfer_File_error_paths_witness :
  Transfer_File_Store "store" (Some 1%positive)
    (transfer_demo.at_host (transfer_demo.item 0 []) ∅ [] [true; true; false]) = inl NullDeref /\
  exists b' h', Transfer_Free b' (transfer_demo.at_host (transfer_demo.item 0 [])
    {[ block_file "store" (name_of (transfer_demo.id 0) md5) := [] ]} [] []) = inr ((), h') /\ ho_streams h' = -1.
Proof.
  split.
  - apply (Transfer_File_error_paths "store" 1 (transfer_demo.item 0 []) (transfer_demo.id 0) md5 _ (transfer_demo.block 0)
      (lookup_singleton_eq _ _) eq_refl eq_refl (proj1 md5_complete)). reflexivity.
  - destruct (Transfer_File_error_paths "store" 1 (transfer_demo.item 0 []) (transfer_demo.id 0) md5
      (transfer_demo.at_host (transfer_demo.item 0 []) {[ block_file "store" (name_of (transfer_demo.id 0) md5) := [] ]} [] [])
      (transfer_demo.block 0) (lookup_singleton_eq _ _) eq_refl eq_refl (proj1 md5_complete)) as [_ Hf].
    destruct Hf as (b' & _ & h' & E & Hs); [reflexivity|reflexivity|reflexivity| |reflexivity|reflexivity|].
    + exists []. apply lookup_singleton_eq.
    + exists b', h'. split; [exact E|exact Hs].
Defined.
