(* ===== verification/Submission.v ===== *)
(** * Submission: src/submission.c

    A collector submits a finalised item of the block pool.  A block the local cache
    knows goes to the queue of submissions as an event; another one to the queue of
    requests.  Request threads ask the dispatcher for each request; response threads
    enter the answers in the local cache and move the items that wait for them to the
    queue of submissions; submission threads store the data with a dispatcher and send
    the event.  On every way out the callback of the item is called and the item
    destroyed.

    The definitions named after threads are one turn of the thread's loop: a turn works
    under the lock of its item, and an interleaving is a sequence of turns
    ([SubmissionThms]).  The callback is code of the collector: a call is recorded in
    [sb_calls] with the status of the item.  The broker is external: [put_ok] tells
    whether it takes a message, and [sb_sent] records the messages it took. *)

From S2P Require Import Prelude CLib RzbList RzbListProps ListM Hash LibUuid Uuids Ntlv Blocks JsonC JsonBuffer JsonText Messages MessageCodecs CncMessages LocalCache Entities BlockPool Transfer.

Local Open Scope Z_scope.

Definition BLOCK_POOL_STATUS_CHECK_GLOBAL_CACHE : Z := 4.
Definition BLOCK_POOL_STATUS_CHECKING_GLOBAL_CACHE : Z := 8.
Definition BLOCK_POOL_STATUS_SUBMIT_DATA : Z := 16.
Definition BLOCK_POOL_STATUS_ERROR : Z := 32.
Definition BLOCK_POOL_STATUS_NO_TYPE : Z := 33.
Definition BLOCK_POOL_FLAG_MAY_REUSE : Z := 16777216.
Definition BLOCK_POOL_FLAG_UPDATE : Z := 33554432.
Definition BLOCK_POOL_FLAG_EVENT_ONLY : Z := 67108864.
Definition SUBMISSION_REASON_EVENT : Z := 0.
Definition SUBMISSION_REASON_REQUESTED : Z := 1.
Definition SF_FLAG_BAD : Z := 2.
Definition SF_FLAG_CANHAZ : Z := 32.
Definition SF_FLAG_ALL : Z := 4294967295.
Definition SUBMISSION_QUEUE_POP_TIMEOUT_MS : Z := 100.
Definition RZB_SUBMISSION_OK : Z := 0.
Definition RZB_SUBMISSION_ERROR : Z := 1.
Definition RZB_SUBMISSION_NO_TYPE : Z := 2.
Definition INPUT_QUEUE : string := "INPUT".
Definition REQUEST_QUEUE : string := "REQUEST".

(** When the request for an item was made. *)
Record CacheLookupTiming := mkTiming { ct_item : positive; ct_startedAt : Z }.

Global Instance CacheLookupTiming_eq_dec : EqDecision CacheLookupTiming.
Proof. solve_decision. Defined.

Abbreviation timing_list := (vlist positive CacheLookupTiming).
Abbreviation queue := (List_t unit unit positive).

(** The locks and the thread pools of the file, whether they exist. *)
Record SubShared := mkSubShared {
  sg_subInitLock : bool;
  sg_subInitDone : bool;
  requestThreadPool : bool;
  submissionThreadPool : bool;
  requestTimingLock : bool
}.

Section State.
Context `{EVP} `{LibUuid}.

(** The static variables of the file, the pool, the caches and the table of entities
    it works on, and what it did. *)
Record Sub := mkSub {
  sb_bpList : option (List_t (fault + World) unit positive);
  sb_host : Host;
  requestQueue : option queue;
  submitQueue : option queue;
  requestTiming : option timing_list;
  sb_shared : SubShared;
  sb_caches : CacheType -> CACHE;
  sb_table : Table;
  sb_calls : list (positive * positive * Z);
  sb_sent : list (string * Message)
}.

Definition SM (A : Type) : Type := Sub -> fault + (A * Sub).

Definition set_pool (s : Sub) (p : Pool) : Sub :=
  mkSub (sg_bpList p) (set_world (sb_host s) (pool_world p)) (requestQueue s) (submitQueue s) (requestTiming s) (sb_shared s) (sb_caches s)
    (sb_table s) (sb_calls s) (sb_sent s).
Definition set_host (s : Sub) (h : Host) : Sub :=
  mkSub (sb_bpList s) h (requestQueue s) (submitQueue s) (requestTiming s) (sb_shared s) (sb_caches s) (sb_table s) (sb_calls s) (sb_sent s).
Definition set_requests (s : Sub) (q : option queue) : Sub :=
  mkSub (sb_bpList s) (sb_host s) q (submitQueue s) (requestTiming s) (sb_shared s) (sb_caches s) (sb_table s) (sb_calls s) (sb_sent s).
Definition set_submits (s : Sub) (q : option queue) : Sub :=
  mkSub (sb_bpList s) (sb_host s) (requestQueue s) q (requestTiming s) (sb_shared s) (sb_caches s) (sb_table s) (sb_calls s) (sb_sent s).
Definition set_timing (s : Sub) (q : option timing_list) : Sub :=
  mkSub (sb_bpList s) (sb_host s) (requestQueue s) (submitQueue s) q (sb_shared s) (sb_caches s) (sb_table s) (sb_calls s) (sb_sent s).
Definition set_shared (s : Sub) (h : SubShared) : Sub :=
  mkSub (sb_bpList s) (sb_host s) (requestQueue s) (submitQueue s) (requestTiming s) h (sb_caches s) (sb_table s) (sb_calls s)
    (sb_sent s).
Definition set_caches (s : Sub) (c : CacheType -> CACHE) : Sub :=
  mkSub (sb_bpList s) (sb_host s) (requestQueue s) (submitQueue s) (requestTiming s) (sb_shared s) c (sb_table s) (sb_calls s) (sb_sent s).
Definition set_table (s : Sub) (t : Table) : Sub :=
  mkSub (sb_bpList s) (sb_host s) (requestQueue s) (submitQueue s) (requestTiming s) (sb_shared s) (sb_caches s) t (sb_calls s) (sb_sent s).
Definition add_call (s : Sub) (c : positive * positive * Z) : Sub :=
  mkSub (sb_bpList s) (sb_host s) (requestQueue s) (submitQueue s) (requestTiming s) (sb_shared s) (sb_caches s) (sb_table s)
    (sb_calls s ++ [c]) (sb_sent s).
Definition add_sent (s : Sub) (m : string * Message) : Sub :=
  mkSub (sb_bpList s) (sb_host s) (requestQueue s) (submitQueue s) (requestTiming s) (sb_shared s) (sb_caches s) (sb_table s) (sb_calls s)
    (sb_sent s ++ [m]).
Definition sub_pool (s : Sub) : Pool := mkPool (sb_bpList s) (ho_world (sb_host s)).
End State.

Global Instance SM_ret `{EVP} `{LibUuid} : MRet SM := fun A x s => inr (x, s).
Global Instance SM_bind `{EVP} `{LibUuid} : MBind SM := fun A B f m s =>
  match m s with
  | inl e => inl e
  | inr (x, s') => f x s'
  end.

Section Submission.
Context `{EVP} `{LibUuid}.

(** ** Calls to other components *)

Definition in_host {A} (m : HM A) : SM A := fun s =>
  match m (sb_host s) with inl e => inl e | inr (x, h) => inr (x, set_host s h) end.
Definition in_items {A} (m : PM A) : SM A := in_host (in_pool m).
Definition on_pool {A} (f : Pool -> fault + (A * Pool)) : SM A := fun s =>
  match f (sub_pool s) with inl e => inl e | inr (x, p) => inr (x, set_pool s p) end.
Definition on_table {A} (m : TM A) : SM A := fun s =>
  match m (sb_table s) with None => inl NullDeref | Some (x, t) => inr (x, set_table s t) end.
Definition ask_state : SM Sub := fun s => inr (s, s).
Definition update_state (f : Sub -> Sub) : SM unit := fun s => inr ((), f s).
Definition sm_deref {A} (p : option A) : SM A := fun s => match p with Some x => inr (x, s) | None => inl NullDeref end.

(** [List_Push] on one of the queues; its result is not looked at. *)
Definition queue_push (get : Sub -> option queue) (set : Sub -> option queue -> Sub) (i : positive) : SM unit := fun s =>
  let '(ok, o) := alloc_next (ho_allocs (sb_host s)) in
  match List_Push ok (get s) i with
  | None => inl NullDeref
  | Some (_, q) => inr ((), set (set_host s (set_memory (sb_host s) o)) q)
  end.

(** [List_Pop_Ex (queue, SUBMISSION_QUEUE_POP_TIMEOUT_MS)]: NULL after the timeout. *)
Definition queue_pop (get : Sub -> option queue) (set : Sub -> option queue -> Sub) : SM (option positive) := fun s =>
  match List_Pop_Ex (get s) SUBMISSION_QUEUE_POP_TIMEOUT_MS with
  | Some (Returned r, q) => inr (r, set s q)
  | Some (Blocked, _) => inl Deadlock
  | None => inl NullDeref
  end.

(** [if (item->submittedCallback != NULL) item->submittedCallback (item)] *)
Definition submittedCallback (i : positive) : SM unit :=
  x ← in_items (load i);
  match bp_submittedCallback x with
  | Some f => update_state (fun s => add_call s (f, i, bp_iStatus x))
  | None => mret ()
  end.

(** The end of a failed submission. *)
Definition drop_item (i : positive) (status : Z) : SM unit :=
  in_items (BlockPool_SetStatus (Some i) status) ;;
  submittedCallback i ;;
  in_items (BlockPool_Item_Unlock i) ;;
  on_pool (BlockPool_DestroyItem (Some i)) ;;
  mret ().

(** [item->pEvent->pBlock->pId] *)
Definition item_block_id (i : positive) : SM BlockId :=
  x ← in_items (load i); sm_deref (item_id x).

(** ** The times of the requests *)

Definition Submission_CacheLookupTiming_KeyCmp (s : allocs) (a : CacheLookupTiming) (key : positive) : Z :=
  if decide (ct_item a = key) then 0 else -1.
Definition Submission_CacheLookupTiming_Cmp (s : allocs) (a b : CacheLookupTiming) : Z :=
  if decide (ct_item a = ct_item b) then 0 else -1.
Definition Submission_CacheLookupTiming_Destroy (item : CacheLookupTiming) (s : allocs) : allocs := s.

(** [entry = List_Find (requestTiming, item); if (entry != NULL) List_Remove (...)],
    with whether there was one. *)
Definition remove_timing (i : positive) : SM bool := fun s =>
  let o := ho_allocs (sb_host s) in
  match List_Find (requestTiming s) (Some i) o with
  | None => inl NullDeref
  | Some (None, _, _) => inr (false, s)
  | Some (Some entry, _, _) =>
      match List_Remove (requestTiming s) (Some entry) o with
      | None => inl NullDeref
      | Some (_, l, _) => inr (true, set_timing s l)
      end
  end.

(** Neither the list nor its lock is NULL. *)
Definition timing_ready (s : Sub) : bool :=
  match requestTiming s with Some _ => requestTimingLock (sb_shared s) | None => false end.

Definition Submission_ClearCacheLookupTiming (i : positive) : SM unit :=
  s ← ask_state;
  if negb (timing_ready s) then mret ()
  else remove_timing i ;; mret ().

(** [now] is [Telemetry_GetMonotonicTimeSeconds ()]. *)
Definition Submission_RecordCacheLookupStart (now : Z) (i : positive) : SM unit :=
  s ← ask_state;
  if negb (timing_ready s) then mret ()
  else
      r ← in_host (allocating alloc);
      match r with
      | None => mret ()
      | Some _ =>
          remove_timing i ;;
          s ← ask_state;
          r ← in_host (allocating (list_push (requestTiming s) (mkTiming i now)));
          match r with
          | Some (_, l) => update_state (fun s => set_timing s l)
          | None => mret ()
          end
      end.

(** The duration goes to the telemetry. *)
Definition Submission_RecordCacheLookupWait (i : positive) : SM unit :=
  s ← ask_state;
  if negb (timing_ready s) then mret ()
  else remove_timing i ;; mret ().

Definition Submission_NeedsStore (item : option BlockPoolItem) : bool :=
  match item with
  | None => false
  | Some x => Z.land (bp_iStatus x) (Z.lor BLOCK_POOL_FLAG_EVENT_ONLY BLOCK_POOL_FLAG_UPDATE) == 0
  end.

(** ** Submitting *)

(** A lookup of the hash of a block id in one of the local caches. *)
Definition check_local (id : BlockId) (sf ent : Z) (type : CacheType) : SM (bool * Z * Z) := fun s =>
  match h ← bi_pHash id; checkLocalEntry (h_pData h) (h_iSize h) (Some sf) (Some ent) type (sb_caches s) with
  | Some (r, Some sf', Some ent', c) => inr ((match r with R_FOUND => true | _ => false end, sf', ent'), set_caches s c)
  | _ => inl NullDeref
  end.

(** [flags_ok]: neither pointer for the flags is NULL.  The result is the status and
    the flags.  The ids of a block are objects of their own. *)
Definition Submission_Submit (now : Z) (i : positive) (p_iFlags : Z) (flags_ok : bool) : SM (Z * Z * Z) :=
  in_items (BlockPool_Item_Lock i) ;;
  x ← in_items (load i);
  block ← sm_deref (e_pBlock (bp_pEvent x));
  own_parent ← (match b_pParentId block with
                | None => mret false
                | Some parent => sm_deref (BlockId_IsEqual false false (b_pId block) (Some parent))
                end);
  if own_parent : bool then drop_item i BLOCK_POOL_STATUS_ERROR ;; mret (RZB_SUBMISSION_ERROR, 0, 0)
  else if negb flags_ok then drop_item i BLOCK_POOL_STATUS_ERROR ;; mret (RZB_SUBMISSION_ERROR, 0, 0)
  else
    id ← sm_deref (b_pId block);
    if uuid_is_null (bi_uuidDataType id) == 1 then drop_item i BLOCK_POOL_STATUS_NO_TYPE ;; mret (RZB_SUBMISSION_NO_TYPE, 0, 0)
    else
      '(found, sf, ent) ← check_local id 0 0 BADHASH;
      '(found, sf, ent) ← (if found : bool then mret (true, sf, ent) else check_local id sf ent GOODHASH);
      (if found : bool then
         in_items (BlockPool_DestroyItemDataList (bp_pData x)) ;;
         in_items (BlockPool.store i (set_pData x [])) ;;
         in_items (BlockPool_SetStatus (Some i) BLOCK_POOL_STATUS_SUBMIT_DATA) ;;
         in_items (BlockPool_SetFlags (Some i) (Z.lor p_iFlags BLOCK_POOL_FLAG_EVENT_ONLY)) ;;
         queue_push submitQueue set_submits i
       else
         in_items (BlockPool_SetStatus (Some i) BLOCK_POOL_STATUS_CHECK_GLOBAL_CACHE) ;;
         in_items (BlockPool_SetFlags (Some i) p_iFlags) ;;
         queue_push requestQueue set_requests i ;;
         Submission_RecordCacheLookupStart now i) ;;
      in_items (BlockPool_Item_Unlock i) ;;
      mret (RZB_SUBMISSION_OK, sf, ent).

Definition Submission_GetSubmitQueueDepth : SM Z := fun s =>
  inr (match submitQueue s with None => 0 | Some q => List_Length (Some q) end, s).

Definition Submission_CountContextSubmitQueueItem (w : World) (context : positive) (item : positive) (count : Z) (s : unit)
    : option (Z * Z * unit) :=
  x ← w_items w !! item;
  Some (LIST_EACH_OK, if decide (ctx_address (bp_context x) = context) then u64 (count + 1) else count, s).

Definition Submission_GetContextSubmitQueueDepth (p_pContext : option RazorbackContext) : SM Z := fun s =>
  match p_pContext, submitQueue s with
  | Some ctx, Some q =>
      match List_ForEach (Some q) (Some (Submission_CountContextSubmitQueueItem (ho_world (sb_host s)) (ctx_address ctx))) 0 () with
      | None => inl UseAfterFree
      | Some (_, q', count, _) => inr (count, set_submits s q')
      end
  | _, _ => inr (0, s)
  end.

(** ** Requests *)

(** One turn of [Submission_GlobalCache_RequestThread]; false after a timeout. *)
Definition Submission_GlobalCache_Request (put_ok : bool) : SM bool :=
  item ← queue_pop requestQueue set_requests;
  match item with
  | None => mret false
  | Some i =>
      in_items (BlockPool_Item_Lock i) ;;
      status ← in_items (BlockPool_GetStatus (Some i));
      (if status != BLOCK_POOL_STATUS_CHECK_GLOBAL_CACHE then in_items (BlockPool_Item_Unlock i)
       else
         in_items (BlockPool_SetStatus (Some i) BLOCK_POOL_STATUS_CHECKING_GLOBAL_CACHE) ;;
         x ← in_items (load i);
         eid ← sm_deref (e_pId (bp_pEvent x));
         block ← sm_deref (e_pBlock (bp_pEvent x));
         message ← in_host (allocating (MessageCacheReq_Initialize (ei_uuidNuggetId eid) (b_pId block)));
         match message with
         | None => Submission_ClearCacheLookupTiming i ;; drop_item i BLOCK_POOL_STATUS_ERROR
         | Some m =>
             if negb put_ok then Submission_ClearCacheLookupTiming i ;; drop_item i BLOCK_POOL_STATUS_ERROR
             else update_state (fun s => add_sent s (REQUEST_QUEUE, m)) ;; in_items (BlockPool_Item_Unlock i)
         end) ;;
      mret true
  end.

(** ** Responses *)

(** [struct CacheResult], the answer being fixed, and what the handler changes besides
    the items. *)
Record Response := mkResponse { rs_matchedCount : Z; rs_sub : Sub }.

(** A computation of the handler, whose world is the one of the iteration. *)
Definition in_iteration (m : SM unit) (r : Response) (st : fault + World) : Response * (fault + World) :=
  match st with
  | inl e => (r, inl e)
  | inr w =>
      let s := rs_sub r in
      match m (set_host s (set_world (sb_host s) w)) with
      | inl e => (r, inl e)
      | inr (_, s') => (mkResponse (rs_matchedCount r) s', inr (ho_world (sb_host s')))
      end
  end.

(** What the handler does with an item that waits for the answer. *)
Definition answer_item (sf ent : Z) (i : positive) : SM unit :=
  id ← item_block_id i;
  h ← sm_deref (bi_pHash id);
  let type := if Z.land sf SF_FLAG_BAD != 0 then BADHASH else GOODHASH in
  malloc ← in_host (allocating alloc);
  s ← ask_state;
  '(_, c) ← sm_deref (addLocalEntry (match malloc with Some _ => true | None => false end) (h_pData h) (h_iSize h)
                        (Z.land sf (Z.lxor SF_FLAG_CANHAZ SF_FLAG_ALL)) ent type (sb_caches s));
  update_state (fun s => set_caches s c) ;;
  in_items (BlockPool_SetStatus (Some i) BLOCK_POOL_STATUS_SUBMIT_DATA) ;;
  (if Z.land sf SF_FLAG_CANHAZ != SF_FLAG_CANHAZ then
     x ← in_items (load i);
     in_items (BlockPool_SetFlags (Some i) (Z.lor (bp_iStatus x) BLOCK_POOL_FLAG_EVENT_ONLY))
   else mret ()) ;;
  Submission_RecordCacheLookupWait i ;;
  queue_push submitQueue set_submits i.

Definition Submission_GlobalCache_ResponseHandler (context : positive) (pId : option BlockId) (sf ent : Z)
    (i : positive) (r : Response) (st : fault + World) : option (Z * Response * (fault + World)) :=
  match st with
  | inl e => Some (LIST_EACH_OK, r, inl e)
  | inr w =>
      match load i w with
      | inl e => Some (LIST_EACH_OK, r, inl e)
      | inr (x, _) =>
          if Z.land (bp_iStatus x) BLOCK_POOL_STATUS_MASK != BLOCK_POOL_STATUS_CHECKING_GLOBAL_CACHE then Some (LIST_EACH_OK, r, st)
          else if decide (ctx_address (bp_context x) <> context) then Some (LIST_EACH_OK, r, st)
          else
            match b ← e_pBlock (bp_pEvent x); BlockId_IsEqual false false (b_pId b) pId with
            | None => Some (LIST_EACH_OK, r, inl NullDeref)
            | Some false => Some (LIST_EACH_OK, r, st)
            | Some true =>
                let '(r', st') := in_iteration (answer_item sf ent i)
                                    (mkResponse (u32 (rs_matchedCount r + 1)) (rs_sub r)) st in
                Some (LIST_EACH_OK, r', st')
            end
      end
  end.

(** One turn of [Submission_GlobalCache_ResponseThread] of a context with the message
    it received; true when it was a response. *)
Definition Submission_GlobalCache_Response (context : RazorbackContext) (message : Message) : SM bool :=
  if m_type message != MESSAGE_TYPE_RESP then mret false
  else
    resp ← sm_deref (b ← m_message message; proj b : option MessageCacheResp);
    ((fun s =>
       match BlockPool_ForEachItem (Submission_GlobalCache_ResponseHandler (ctx_address context) (cr_pId resp)
               (cr_iSfFlags resp) (cr_iEntFlags resp)) (mkResponse 0 s) (sub_pool s) with
       | inl e => inl e
       | inr (r, p) => inr (true, set_pool (rs_sub r) p)
       end) : SM bool).

(** ** Transfer and submission *)

Section Threads.
Variable sg : UuidLists.
Variable cfg : EntityConfig.
Variable transports : option transport_list.
Variable store : TransportDescriptor -> positive -> ConnectedEntity -> HM TransferStatus.

(** The loop over the attempts to store the data: the dispatcher that has it. *)
Fixpoint transfer_loop (tries : nat) (pushes : allocs) (i : positive) : SM (option ConnectedEntity) :=
  match tries with
  | O => mret None
  | S tries' =>
      dispatcher ← on_table (ConnectedEntityList_GetDispatcher sg cfg pushes);
      match dispatcher with
      | None => mret None
      | Some d =>
          transfered ← in_host (Transfer_Store transports store i (Some d));
          match transfered with
          | TRANSFER_OK => mret (Some d)
          | TRANSFER_FAIL_DISPATCHER =>
              on_table (ConnectedEntityList_MarkDispatcherUnusable (ce_uuidNuggetId d)) ;; transfer_loop tries' pushes i
          | TRANSFER_FAIL_LOCAL => transfer_loop tries' pushes i
          end
      end
  end.

(** The data of the item is no longer needed. *)
Definition drop_data (i : positive) : SM unit :=
  x ← in_items (load i);
  in_items (BlockPool_DestroyItemDataList (bp_pData x)) ;;
  x ← in_items (load i);
  in_items (BlockPool.store i (set_pData x [])).

(** The message is sent and the item is finished. *)
Definition send_submission (put_ok : bool) (i : positive) (reason storedLocality : Z) : SM unit :=
  x ← in_items (load i);
  message ← in_host (allocating (MessageBlockSubmission_Initialize (Some (bp_pEvent x)) reason storedLocality));
  match message with
  | None => drop_item i BLOCK_POOL_STATUS_ERROR
  | Some m =>
      (if put_ok then
         update_state (fun s => add_sent s (INPUT_QUEUE, m)) ;;
         in_items (BlockPool_SetStatus (Some i) BLOCK_POOL_STATUS_FINALIZED)
       else in_items (BlockPool_SetStatus (Some i) BLOCK_POOL_STATUS_ERROR)) ;;
      submittedCallback i ;;
      x ← in_items (load i);
      if Z.land (bp_iStatus x) BLOCK_POOL_FLAG_MAY_REUSE == BLOCK_POOL_FLAG_MAY_REUSE then
        in_items (BlockPool_SetFlags (Some i) 0) ;;
        drop_data i ;;
        in_items (BlockPool_Item_Unlock i)
      else
        in_items (BlockPool_Item_Unlock i) ;;
        on_pool (BlockPool_DestroyItem (Some i)) ;;
        mret ()
  end.

(** One turn of [Submission_SubmitThread].  [storedLocality] is a variable of the
    thread that lives longer than a turn: it is an argument, and its value after the
    turn is the result, with false after a timeout. *)
Definition Submission_SubmitTurn (put_ok : bool) (pushes : allocs) (storedLocality : Z) : SM (bool * Z) :=
  item ← queue_pop submitQueue set_submits;
  match item with
  | None => mret (false, storedLocality)
  | Some i =>
      in_items (BlockPool_Item_Lock i) ;;
      status ← in_items (BlockPool_GetStatus (Some i));
      if status != BLOCK_POOL_STATUS_SUBMIT_DATA then in_items (BlockPool_Item_Unlock i) ;; mret (true, storedLocality)
      else
        x ← in_items (load i);
        if Z.land (bp_iStatus x) (Z.lor BLOCK_POOL_FLAG_EVENT_ONLY BLOCK_POOL_FLAG_UPDATE) != 0 then
          send_submission put_ok i SUBMISSION_REASON_EVENT storedLocality ;; mret (true, storedLocality)
        else
          dispatcher ← transfer_loop 20 pushes i;
          match dispatcher with
          | None => drop_item i BLOCK_POOL_STATUS_ERROR ;; mret (true, storedLocality)
          | Some d => send_submission put_ok i SUBMISSION_REASON_REQUESTED (ce_locality d) ;; mret (true, ce_locality d)
          end
  end.
End Threads.

(** ** Shutdown *)

(** The user data is the first item found; the iteration ends there. *)
Definition Submission_FindStuckCacheLookup (context : positive) (i : positive) (found : option positive) (st : fault + World)
    : option (Z * option positive * (fault + World)) :=
  match st with
  | inl e => Some (LIST_EACH_OK, found, inl e)
  | inr w =>
      match load i w with
      | inl e => Some (LIST_EACH_OK, found, inl e)
      | inr (x, _) =>
          if decide (ctx_address (bp_context x) <> context) then Some (LIST_EACH_OK, found, st)
          else if Z.land (bp_iStatus x) BLOCK_POOL_STATUS_MASK != BLOCK_POOL_STATUS_CHECKING_GLOBAL_CACHE then
            Some (LIST_EACH_OK, found, st)
          else Some (LIST_EACH_END, Some i, st)
      end
  end.

(** The loop runs on fuel; [None] when it is used up. *)
Fixpoint Submission_AbandonStuckContextCacheLookups (fuel : nat) (context : RazorbackContext) (count : Z) : SM (option Z) :=
  match fuel with
  | O => mret None
  | S fuel' =>
      item ← on_pool (BlockPool_ForEachItem (Submission_FindStuckCacheLookup (ctx_address context)) None);
      match item with
      | None => mret (Some count)
      | Some i =>
          in_items (BlockPool_Item_Lock i) ;;
          x ← in_items (load i);
          if negb (bool_decide (ctx_address (bp_context x) = ctx_address context)) ||
             (Z.land (bp_iStatus x) BLOCK_POOL_STATUS_MASK != BLOCK_POOL_STATUS_CHECKING_GLOBAL_CACHE) then
            in_items (BlockPool_Item_Unlock i) ;;
            Submission_AbandonStuckContextCacheLookups fuel' context count
          else
            Submission_ClearCacheLookupTiming i ;;
            in_items (BlockPool_SetStatus (Some i) BLOCK_POOL_STATUS_ERROR) ;;
            in_items (BlockPool_Item_Unlock i) ;;
            submittedCallback i ;;
            on_pool (BlockPool_DestroyItem (Some i)) ;;
            Submission_AbandonStuckContextCacheLookups fuel' context (u64 (count + 1))
      end
  end.

(** ** Start and end of the services *)

(** [List_Create] without a clone and without locks: the list, its lock and, for a
    queue, its semaphore are allocated. *)
Definition create_list {St Key Item} (mode : Z) (cmp : option (St -> Item -> Item -> Z)) (keyCmp : option (St -> Item -> Key -> Z))
    (destroy : option (Item -> St -> St)) : M (List_t St Key Item) := fun o =>
  let '(b1, o1) := alloc_next o in
  if negb b1 then Some (None, o1)
  else
    let '(b2, o2) := alloc_next o1 in
    if negb b2 then Some (None, o2)
    else
      let '(b3, o3) := if mode == LIST_MODE_QUEUE then alloc_next o2 else (true, o2) in
      Some (List_Create true true b3 mode cmp keyCmp destroy None None None, o3).

Definition shared (f : SubShared -> SubShared) : SM unit := update_state (fun s => set_shared s (f (sb_shared s))).
Definition set_initLock (b : bool) (h : SubShared) : SubShared :=
  mkSubShared b (sg_subInitDone h) (requestThreadPool h) (submissionThreadPool h) (requestTimingLock h).
Definition set_initDone (b : bool) (h : SubShared) : SubShared :=
  mkSubShared (sg_subInitLock h) b (requestThreadPool h) (submissionThreadPool h) (requestTimingLock h).
Definition set_requestPool (b : bool) (h : SubShared) : SubShared :=
  mkSubShared (sg_subInitLock h) (sg_subInitDone h) b (submissionThreadPool h) (requestTimingLock h).
Definition set_submissionPool (b : bool) (h : SubShared) : SubShared :=
  mkSubShared (sg_subInitLock h) (sg_subInitDone h) (requestThreadPool h) b (requestTimingLock h).
Definition set_timingLock (b : bool) (h : SubShared) : SubShared :=
  mkSubShared (sg_subInitLock h) (sg_subInitDone h) (requestThreadPool h) (submissionThreadPool h) b.

(** [List_Destroy]: the entries of the lists hold nothing that is destroyed with them. *)
Definition destroy_list {St Key Item} (l : option (List_t St Key Item)) (st : St) : SM unit :=
  match l with
  | None => mret ()
  | Some _ => sm_deref (List_Destroy l st) ;; mret ()
  end.

(** [ThreadPool_Destroy] waits for the threads of a pool, which end when their queue
    is empty: [requests] and [submits] are the turns they still take. *)
Section Pools.
Variables requests submits : SM unit.

Definition Submission_DestroySharedResources : SM unit :=
  s ← ask_state;
  (if requestThreadPool (sb_shared s) then requests ;; shared (set_requestPool false) else mret ()) ;;
  s ← ask_state;
  (if submissionThreadPool (sb_shared s) then submits ;; shared (set_submissionPool false) else mret ()) ;;
  shared (set_timingLock false) ;;
  s ← ask_state;
  destroy_list (requestTiming s) (ho_allocs (sb_host s)) ;;
  update_state (fun s => set_timing s None) ;;
  s ← ask_state;
  destroy_list (submitQueue s) () ;;
  update_state (fun s => set_submits s None) ;;
  s ← ask_state;
  destroy_list (requestQueue s) () ;;
  update_state (fun s => set_requests s None).

Definition Submission_Initialize : SM bool :=
  shared (set_initDone false) ;;
  s ← ask_state;
  if sg_subInitLock (sb_shared s) then mret true
  else
    r ← in_host (allocating alloc);
    match r with
    | None => mret false
    | Some _ => shared (set_initLock true) ;; mret true
    end.

(** [request_ok] and [submit_ok] tell whether the thread pools could be created. *)
Definition Submission_Initialize_Once (request_ok submit_ok : bool) : SM bool :=
  s ← ask_state;
  if negb (sg_subInitLock (sb_shared s)) then mret false
  else if sg_subInitDone (sb_shared s) then mret true
  else
    l ← in_host (allocating (create_list LIST_MODE_QUEUE None None None));
    update_state (fun s => set_requests s l) ;;
    l ← in_host (allocating (create_list LIST_MODE_QUEUE None None None));
    update_state (fun s => set_submits s l) ;;
    l ← in_host (allocating (create_list LIST_MODE_GENERIC (Some Submission_CacheLookupTiming_Cmp)
                   (Some Submission_CacheLookupTiming_KeyCmp) (Some Submission_CacheLookupTiming_Destroy)));
    update_state (fun s => set_timing s l) ;;
    lock ← in_host (allocating alloc);
    shared (set_timingLock (match lock with Some _ => true | None => false end)) ;;
    s ← ask_state;
    match requestQueue s, submitQueue s, requestTiming s, requestTimingLock (sb_shared s) with
    | Some _, Some _, Some _, true =>
        shared (set_requestPool request_ok) ;;
        if negb request_ok then Submission_DestroySharedResources ;; mret false
        else
          shared (set_submissionPool submit_ok) ;;
          if negb submit_ok then Submission_DestroySharedResources ;; mret false
          else shared (set_initDone true) ;; mret true
    | _, _, _, _ => Submission_DestroySharedResources ;; mret false
    end.

Definition Submission_Shutdown_Global : SM unit :=
  s ← ask_state;
  if negb (sg_subInitLock (sb_shared s)) then mret ()
  else
    (if sg_subInitDone (sb_shared s) then Submission_DestroySharedResources ;; shared (set_initDone false) else mret ()) ;;
    shared (set_initLock false).

(** The result and whether the context has response threads after the call. *)
Definition Submission_Init (request_ok submit_ok response_ok : bool) (p_pContext : option RazorbackContext)
    (responseThreadPool : bool) : SM (bool * bool) :=
  match p_pContext with
  | None => mret (false, responseThreadPool)
  | Some _ =>
      if responseThreadPool then mret (true, true)
      else
        ok ← Submission_Initialize_Once request_ok submit_ok;
        if negb ok then mret (false, false) else mret (response_ok, response_ok)
  end.
End Pools.

(** [while (BlockPool_GetContextItemCount (context) > 0 ...) Thread_Sleep (...)]: one
    of the turns of the other threads is taken in each wait; false when there are no
    more of them (the deadline of the first loop is reached) and items are left. *)
Fixpoint wait_for_items (turns : list (SM unit)) (context : RazorbackContext) : SM bool :=
  n ← on_pool (BlockPool_GetContextItemCount (Some context));
  if 0 <? n then
    match turns with
    | [] => mret false
    | turn :: turns' => turn ;; wait_for_items turns' context
    end
  else mret true.

(** [None] when the call does not return: [turns1] are the turns until the deadline,
    [turns2] those after it and [responses] what the response threads do before they
    end.  The result tells whether the context has response threads. *)
Definition Submission_Shutdown (fuel : nat) (turns1 turns2 : list (SM unit)) (responses : SM unit)
    (p_pContext : option RazorbackContext) (responseThreadPool : bool) : SM (option bool) :=
  match p_pContext with
  | None => mret (Some responseThreadPool)
  | Some context =>
      if negb responseThreadPool then mret (Some false)
      else
        wait_for_items turns1 context ;;
        cleaned ← Submission_AbandonStuckContextCacheLookups fuel context 0;
        match cleaned with
        | None => mret None
        | Some _ =>
            done ← wait_for_items turns2 context;
            if negb done then mret None
            else responses ;; mret (Some false)
        end
  end.
End Submission.
