(* ===== verification/SubmissionProps.v ===== *)
(** * Lemmas about the submission of blocks

    [serves] is the invariant of the submission services: the queues hold items of the
    pool that are in the state the queue is for, each once, the times of the requests
    belong to items that wait, and no mutex is held.  Each turn of a thread is shown
    to lead from such a state to such a state. *)

From S2P Require Import CLib RzbList RzbListProps ListM Hash LibUuid Uuids Ntlv Blocks BlockPool BlockPoolProps PoolThms JsonC JsonBuffer JsonText Messages MessageCodecs CncMessages MessageProps MessageThms CncThms LocalCache Arc LocalCacheProps CacheThms Entities EntitiesProps Transfer TransferProps Submission Prelude.

Local Open Scope Z_scope.

(** ** Running *)

Section Run.
Context `{EVPLaws} `{LibUuidLaws}.
Implicit Types (s : Sub) (w : World) (x : BlockPoolItem).

Definition world s : World := ho_world (sb_host s).
Definition with_world s w : Sub := set_host s (set_world (sb_host s) w).

Lemma SM_bind_inr {A B} (m : SM A) (f : A -> SM B) s y s' : m s = inr (y, s') -> (m ≫= f) s = f y s'.
Proof. intros E. unfold mbind, SM_bind. by rewrite E. Qed.

Lemma SM_assoc {A B C} (m : SM A) (f : A -> SM B) (g : B -> SM C) s : ((m ≫= f) ≫= g) s = (m ≫= (fun y => f y ≫= g)) s.
Proof. unfold mbind, SM_bind. by destruct (m s) as [|[]]. Qed.

Lemma sm_deref_run {A} (p : option A) y s : p = Some y -> sm_deref p s = inr (y, s).
Proof. by intros ->. Qed.

Lemma with_world_same s : with_world s (world s) = s.
Proof. destruct s as [? [] ? ? ? ? ? ? ? ?]. reflexivity. Qed.

Lemma in_items_run {A} (m : PM A) s w y w' : m w = inr (y, w') -> in_items m (with_world s w) = inr (y, with_world s w').
Proof. intros E. unfold in_items, in_host, in_pool. simpl. by rewrite E. Qed.

(** The world while an item is locked, and after it is released. *)
Definition locked w (i : positive) x : World := mkWorld (<[i := x]> (w_items w)) (w_size w) [Some i] (w_files w).
Definition updated w (i : positive) x : World := mkWorld (<[i := x]> (w_items w)) (w_size w) [] (w_files w).

(** The world after the data of an item was destroyed. *)
Definition drained w (ds : list BlockPoolData) : World :=
  mkWorld (w_items w) (u64 (w_size w - data_bytes ds)) (w_held w) (foldl (fun f d => unlinked d f) (w_files w) ds).

Lemma locked_lookup w i x : w_items (locked w i x) !! i = Some x.
Proof. apply lookup_insert_eq. Qed.

Lemma lock_locked w i x : w_items w !! i = Some x -> w_held w = [] -> BlockPool_Item_Lock i w = inr ((), locked w i x).
Proof.
  intros Hi Hh. rewrite (item_lock_run i x w) by done. unfold locked, set_held. by rewrite insert_id.
Qed.

Lemma unlock_locked w i x : BlockPool_Item_Unlock i (locked w i x) = inr ((), updated w i x).
Proof. by rewrite (item_unlock_run i x (locked w i x)) by (apply locked_lookup || done). Qed.

Lemma load_locked w i x : load i (locked w i x) = inr (x, locked w i x).
Proof. apply load_run, locked_lookup. Qed.

Lemma store_locked w i x x' : BlockPool.store i x' (locked w i x) = inr ((), locked w i x').
Proof. unfold BlockPool.store, locked, set_items. simpl. by rewrite insert_insert_eq. Qed.

(** The status word with new status bits, and with new flags. *)
Definition status_word (n old : Z) : Z := Z.lor (Z.land n BLOCK_POOL_STATUS_MASK) (Z.land old BLOCK_POOL_FLAG_MASK).
Definition flags_word (n old : Z) : Z := Z.lor (Z.land n BLOCK_POOL_FLAG_MASK) (Z.land old BLOCK_POOL_STATUS_MASK).

Lemma SetStatus_locked n w i x : BlockPool_SetStatus (Some i) n (locked w i x) =
  inr ((), locked w i (set_iStatus x (status_word n (bp_iStatus x)))).
Proof. unfold BlockPool_SetStatus. pm (load_locked w i x). apply store_locked. Qed.

Lemma SetFlags_locked n w i x : BlockPool_SetFlags (Some i) n (locked w i x) =
  inr ((), locked w i (set_iStatus x (flags_word n (bp_iStatus x)))).
Proof. unfold BlockPool_SetFlags. pm (load_locked w i x). apply store_locked. Qed.

Lemma GetStatus_locked w i x : BlockPool_GetStatus (Some i) (locked w i x) =
  inr (Z.land (bp_iStatus x) BLOCK_POOL_STATUS_MASK, locked w i x).
Proof. unfold BlockPool_GetStatus. by pm (load_locked w i x). Qed.

Lemma add_sg_size_held n w : None ∉ w_held w -> add_sg_size n w = inr ((), grown w n).
Proof.
  intros Hn. unfold add_sg_size. pm (lock_run None w Hn). pm (eq_refl : get _ = inr (_, _)).
  unfold put. simpl. unfold mbind, PM_bind. rewrite (unlock_run None _ (w_held w)) by done. by destruct w.
Qed.

Lemma DestroyItemDataList_held ds w : None ∉ w_held w -> in_width 64 (w_size w) ->
  BlockPool_DestroyItemDataList ds w = inr ((), drained w ds).
Proof.
  revert w. induction ds as [|d ds IH]; intros w Hn Hw.
  - simpl. unfold mret, PM_ret, drained. simpl. rewrite Z.sub_0_r. unfold u64. rewrite wrap_small by done. by destruct w.
  - cbn [BlockPool_DestroyItemDataList].
    assert (E : (if bd_iFlags d == BLOCK_POOL_DATA_FLAG_FILE then
         match bd_fileName (bd_data d) with
         | Some f => if bd_tempFile (bd_data d) then unlink f else mret ()
         | None => mret ()
         end else mret ()) w = inr ((), set_files w (unlinked d (w_files w)))).
    { unfold unlinked. destruct w. destruct (_ == _); [|done]. destruct (bd_fileName _); [|done]. by destruct (bd_tempFile _). }
    pm E. pm (add_sg_size_held (- bd_iLength d) (set_files w (unlinked d (w_files w))) Hn).
    rewrite IH; [|done|by apply wrap_range].
    unfold drained. simpl. do 3 f_equal. unfold u64. rewrite wrap_sub_l. f_equal. lia.
Qed.

Lemma drain_locked ds w i x : in_width 64 (w_size w) ->
  BlockPool_DestroyItemDataList ds (locked w i x) = inr ((), locked (drained w ds) i x).
Proof. intros Hw. rewrite DestroyItemDataList_held; [done|set_solver|done]. Qed.
End Run.

(** One step of a run: [H] is the result of the first operation. *)
Tactic Notation "sm" uconstr(H) := rewrite (SM_bind_inr _ _ _ _ _ H); cbv beta iota delta [negb].

(** One step that works on the items of the pool. *)
Tactic Notation "smi" uconstr(H) := rewrite (SM_bind_inr _ _ _ _ _ (in_items_run _ _ _ _ _ H)); cbv beta iota delta [negb].

(** ** Caches whose keys may repeat *)

Section Cache.
Variable K : nat.
Implicit Types (c : CACHE) (C : CacheType -> CACHE) (key : list Z).

(** What [LocalCacheProps.cache_rep] says of the links, the counters and the keys. *)
Definition cache_shape c : Prop :=
  exists L, good c L /\ L LT_NONE = [] /\ sized c /\ bounded (c_size c) (slots c L) /\
    Z.of_nat (length (c_entrylist c)) = 2 * c_size c /\ keyed K c.

Definition caches_shape C : Prop := forall t, t <> ALL -> cache_shape (C t).

Lemma rep_shape c a : cache_rep K c a -> cache_shape c.
Proof. intros (L & ? & ? & ? & ? & ? & ? & _). by exists L. Qed.

Lemma slots_nodup c L : good c L -> NoDup (all (slots c L)).
Proof.
  intros Hg. pose proof (g_lists _ _ Hg) as HL. unfold all, slots. simpl.
  pose proof (fun lt lt' i => disjoint_slots c L lt lt' i HL) as Hd.
  assert (Hn : forall lt xs, NoDup xs -> (forall i, i ∈ L lt -> i ∉ xs) -> NoDup (L lt ++ xs)).
  { intros lt xs Hx Hi. apply NoDup_app. split_and!; [apply (l_nodup _ _ HL)|done|done]. }
  repeat apply Hn; try apply (l_nodup _ _ HL); intros i Hi; rewrite ?elem_of_app; intros Hi';
    repeat match type of Hi' with _ \/ _ => destruct Hi' as [Hi'|Hi'] end; discriminate (Hd _ _ _ Hi Hi').
Qed.

Lemma shape_kept c c' L' : cache_shape c -> hit_kept c c' -> good c' L' -> L' LT_NONE = [] ->
  bounded (c_size c) (slots c' L') -> cache_shape c'.
Proof.
  intros (L & Hg & HN & Hsz & Hb & Hlen & Hk) HK Hg' HN' Hb'. pose proof HK as (S1 & S2 & S3). exists L'. split_and!; try done.
  - unfold sized. by rewrite S1.
  - by rewrite S1.
  - rewrite S1, <- Hlen. pose proof (f_equal length S3) as El. rewrite !length_fmap in El. by rewrite El.
  - by eapply keyed_kept.
Qed.

Lemma check_shape c key : cache_shape c -> length key = K ->
  exists r i c', check_cache key (Z.of_nat K) c = Some (r, i, c') /\ cache_shape c' /\
    (forall j, i = Some j -> is_Some (c_entrylist c' !! j)).
Proof.
  intros Hs HK. pose proof Hs as (L & Hg & HN & Hsz & Hb & Hlen & Hk).
  destruct (FindEntry_keys K c key Hk HK) as ([i|] & EF & Hr).
  - destruct Hr as [Hi _].
    assert (Hsel : selects (fun j => bool_decide (j = i)) i (slots c L)).
    { split_and!; [by apply (slot_all c L i Hg HN)|by apply slots_nodup|]. intros y _. by rewrite bool_decide_eq_true. }
    destruct (check_hit_slots c L _ i key _ Hg HN Hsz Hb EF Hsel) as (c' & L' & -> & Hg' & HN' & HK' & EH).
    eexists _, _, _. split; [done|]. split.
    + eapply shape_kept; try done. eapply hit_bounded; try done. apply Hsz.
    + intros j [= <-]. destruct (Hk i Hi) as (e & bs & He & _). destruct HK' as (_ & _ & S3).
      destruct (payload_lookup _ _ i e S3 He) as (e' & He' & _). eauto.
  - eexists _, _, _. unfold check_cache. rewrite EF. done.
Qed.

Lemma add_shape c key sf ent : cache_shape c -> length key = K ->
  exists c', add_cache true (Some key) (Z.of_nat K) sf ent c = Some (R_SUCCESS, c') /\ cache_shape c'.
Proof.
  intros (L & Hg & HN & Hsz & Hb & Hlen & Hk) HK.
  destruct (add_slots K c L _ key sf ent true Hg HN Hsz Hb Hlen Hk eq_refl HK)
    as (i & c' & L' & E & Hg' & HN' & R & Hi & ES & _ & (e & He & Hke & _)).
  exists c'. split; [done|]. exists L'. split_and!; try done.
  - unfold sized. by rewrite (rk_size _ _ _ R).
  - rewrite ES, (rk_size _ _ _ R). apply miss_bounded; [apply Hsz|done].
  - by rewrite (rk_length _ _ _ R), (rk_size _ _ _ R).
  - intros j Hj. destruct (decide (j = i)) as [->|Hne]; [by exists e, key|].
    destruct (rk_entries _ _ _ R j Hj) as [?|Hj']; [done|]. destruct (Hk j Hj') as (ej & bs & Hej & Hkj & Hl).
    pose proof (rk_payload _ _ _ R j Hne) as Hp. rewrite Hej in Hp.
    destruct (c_entrylist c' !! j) as [e'|]; [|done]. apply (inj Some), payload_item in Hp as [_ Hp].
    exists e', bs. split_and!; congruence.
Qed.

(** The caches compare the first bytes of a key only. *)
Lemma read_prefix key n : 0 <= n <= Z.of_nat (length key) -> read_bytes (take (Z.to_nat n) key) n = read_bytes key n.
Proof.
  intros Hn. unfold read_bytes. rewrite length_take, !(proj2 (Z.ltb_ge _ _)) by lia. by rewrite take_take, Nat.min_id.
Qed.

Lemma FindEntry_prefix es n i key size : 0 <= size <= Z.of_nat (length key) ->
  FindEntry_loop es n i (take (Z.to_nat size) key) size = FindEntry_loop es n i key size.
Proof.
  intros Hs. revert i. induction n as [|n IH]; intros i; [done|]. cbn [FindEntry_loop]. destruct (es !! i) as [e|]; [|done].
  cbn [mbind option_bind]. unfold key_equal. destruct (e_key e); try done. rewrite read_prefix by done. rewrite IH. done.
Qed.

Lemma check_prefix C t key size sf ent : 0 <= size <= Z.of_nat (length key) ->
  checkLocalEntry (Some (take (Z.to_nat size) key)) size sf ent t C = checkLocalEntry (Some key) size sf ent t C.
Proof.
  intros Hs. unfold checkLocalEntry, check_cache, FindEntry. by rewrite FindEntry_prefix.
Qed.

Lemma add_prefix ok C t key size sf ent : 0 <= size <= Z.of_nat (length key) ->
  addLocalEntry ok (Some (take (Z.to_nat size) key)) size sf ent t C = addLocalEntry ok (Some key) size sf ent t C.
Proof.
  intros Hs. unfold addLocalEntry, add_cache. cbn [mbind option_bind]. by rewrite read_prefix.
Qed.

Lemma checkLocal_shape C t key sf ent : t <> ALL -> caches_shape C -> length key = K ->
  exists r sf' ent' C', checkLocalEntry (Some key) (Z.of_nat K) (Some sf) (Some ent) t C = Some (r, Some sf', Some ent', C') /\
    caches_shape C'.
Proof.
  intros Ht HC HK. destruct (check_shape (C t) key (HC t Ht) HK) as (r & i & c' & E & Hc & Hi).
  unfold checkLocalEntry. rewrite decide_False, E by done. cbn [mbind option_bind].
  assert (HC' : caches_shape (<[t := c']> C)).
  { intros t' Ht'. destruct (decide (t' = t)) as [->|Hne]; [by rewrite fn_lookup_insert|]. rewrite fn_lookup_insert_ne by done. auto. }
  destruct i as [j|]; [|by eexists _, _, _, _]. destruct (Hi j eq_refl) as [e ->]. by eexists _, _, _, _.
Qed.

Lemma addLocal_shape C t key sf ent : t <> ALL -> caches_shape C -> length key = K ->
  exists C', addLocalEntry true (Some key) (Z.of_nat K) sf ent t C = Some (R_SUCCESS, C') /\ caches_shape C'.
Proof.
  intros Ht HC HK. destruct (add_shape (C t) key sf ent (HC t Ht) HK) as (c' & E & Hc).
  unfold addLocalEntry. rewrite decide_False, E by done. eexists. split; [done|].
  intros t' Ht'. destruct (decide (t' = t)) as [->|Hne]; [by rewrite fn_lookup_insert|]. rewrite fn_lookup_insert_ne by done. auto.
Qed.
End Cache.

(** ** The queues and the list of times *)

Section Lists.
Context `{EVP} `{LibUuid}.
Implicit Types (s : Sub) (i : positive) (l : list positive) (ts : list CacheLookupTiming).

(** A queue as [Submission_Initialize_Once] makes it, with as many units in its
    semaphore as items. *)
Definition queue_holds (p : option queue) l : Prop :=
  exists q, p = Some q /\ contents q l /\ l_mode q = LIST_MODE_QUEUE /\ l_limit q = 0 /\ no_locks q /\
    l_sem q = Some (Z.of_nat (length l)).

Definition times_hold (p : option timing_list) ts : Prop :=
  exists q, p = Some q /\ contents q ts /\ plain q /\ l_cmp q = Some Submission_CacheLookupTiming_Cmp /\
    l_keyCmp q = Some Submission_CacheLookupTiming_KeyCmp.

Lemma queue_known (q : queue) : l_mode q = LIST_MODE_QUEUE -> l_limit q = 0 ->
  known_mode q = true /\ is_stack q = false /\ at_limit q = false.
Proof. intros Hm Hl. unfold known_mode, is_stack, at_limit. by rewrite Hm, Hl. Qed.

Lemma queue_meta (q q' : queue) : meta q' = meta q -> l_mode q = LIST_MODE_QUEUE -> l_limit q = 0 -> no_locks q ->
  l_mode q' = LIST_MODE_QUEUE /\ l_limit q' = 0 /\ no_locks q'.
Proof. unfold meta, no_locks. intros E ? ? [? ?]. split_and!; congruence. Qed.

Lemma memory_same (h : Host) : ho_allocs h = [] -> set_memory h [] = h.
Proof. destruct h. simpl. by intros ->. Qed.

Lemma push_run get set s i l : queue_holds (get s) l -> ho_allocs (sb_host s) = [] ->
  exists q, queue_push get set i s = inr ((), set s q) /\ queue_holds q (l ++ [i]).
Proof.
  intros (q & E & Hc & Hm & Hl & Hn & Hs) Ha. destruct (queue_known q Hm Hl) as (Hk & Hst & Hal).
  destruct (Push_ok q l i Hc Hal Hk) as (q' & Ep & Hme & Hse & Hc'). unfold queue_push. rewrite Ha. cbn [alloc_next].
  rewrite E, Ep, memory_same by done. exists (Some q'). split; [f_equal; f_equal; destruct s; reflexivity|]. rewrite Hst in Hc'.
  exists q'. destruct (queue_meta q q' Hme Hm Hl Hn) as (? & ? & ?). split_and!; try done.
  rewrite Hse, Hs. simpl. f_equal. rewrite length_app. simpl. lia.
Qed.

Lemma pop_run get set s l : queue_holds (get s) l ->
  exists q, queue_pop get set s = inr (list.last l, set s q) /\ queue_holds q (removelast l).
Proof.
  intros (q & E & Hc & Hm & Hl & Hn & Hs). destruct (queue_known q Hm Hl) as (Hk & Hst & _).
  unfold queue_pop, List_Pop_Ex. rewrite E, Hs. destruct (decide (l = [])) as [->|Hne].
  { exists (Some q). split; [done|]. by exists q. }
  destruct (exists_last Hne) as (l' & i & ->). rewrite (proj2 (Z.ltb_lt _ _)) by (rewrite length_app; simpl; lia).
  rewrite last_snoc, removelast_last. set (q0 := set_sem q _).
  assert (Hc0 : contents q0 (l' ++ [i])) by by apply contents_sem.
  destruct (Pop_take q0 (l' ++ [i]) _ Hc0 Hk eq_refl) as (q' & Ep & Hme & Hse & Hc'). rewrite Ep.
  change (is_stack q0) with (is_stack q) in Hc' |- *. rewrite Hst in Hc' |- *. unfold spec.pop in Hc' |- *.
  rewrite reverse_snoc in Hc' |- *. simpl in Hc' |- *. rewrite reverse_involutive in Hc'. exists (Some q'). split; [done|].
  exists q'. destruct (queue_meta q q' Hme Hm Hl Hn) as (? & ? & ?). split_and!; try done.
  rewrite Hse. simpl. f_equal. rewrite length_app. simpl. lia.
Qed.

(** The times without those of an item. *)
Definition without_time i ts : list CacheLookupTiming := filter (fun t => ct_item t <> i) ts.

Lemma set_timing_same s : set_timing s (requestTiming s) = s.
Proof. by destruct s. Qed.

Lemma filter_same (ts : list CacheLookupTiming) i : (forall t, t ∈ ts -> ct_item t <> i) -> without_time i ts = ts.
Proof.
  intros Hn. unfold without_time. induction ts as [|t ts IH]; [done|]. rewrite filter_cons, decide_True by (apply Hn; set_solver).
  f_equal. apply IH. set_solver.
Qed.

Lemma remove_timing_run i s ts : times_hold (requestTiming s) ts ->
  exists b q, remove_timing i s = inr (b, set_timing s q) /\ times_hold q (without_time i ts).
Proof.
  intros (q & E & Hc & Hp & Hcmp & Hk). unfold remove_timing. rewrite E.
  rewrite (Find_contents q ts _ i _ Hc (plain_locks _ Hp) Hk).
  destruct (find_first _ ts) as [t|] eqn:Ef.
  - apply find_first_Some in Ef as (xs1 & xs2 & _ & Ht & _). apply Z.eqb_eq in Ht.
    unfold Submission_CacheLookupTiming_KeyCmp in Ht. destruct (decide (ct_item t = i)) as [Hi|]; [|done].
    destruct (Remove_contents q ts t (ho_allocs (sb_host s)) Hc (plain_locks _ Hp)) as (q' & Er & Hme & _ & Hc').
    rewrite Er. exists true, (Some q'). split; [done|]. exists q'.
    pose proof (plain_meta _ _ Hme Hp). unfold meta in Hme. split_and!; try done; [|congruence..].
    replace (without_time i ts) with (filter (fun x => removes q (ho_allocs (sb_host s)) t x = false) ts); [done|].
    unfold without_time. apply list_filter_iff. intros x. unfold removes. rewrite Hcmp.
    unfold Submission_CacheLookupTiming_Cmp. rewrite Hi. destruct (decide (ct_item x = i)) as [Hx|Hx].
    + simpl. rewrite orb_true_r. naive_solver.
    + simpl. rewrite orb_false_r. rewrite bool_decide_eq_false. naive_solver.
  - exists false, (requestTiming s). rewrite set_timing_same, filter_same; [split; [done|]; by exists q|].
    intros t Ht Hi. rewrite find_first_None, Forall_forall in Ef. pose proof (Ef t Ht) as Hz. simpl in Hz.
    unfold Submission_CacheLookupTiming_KeyCmp in Hz. by rewrite decide_True in Hz.
Qed.

Lemma timing_ready_run s ts : times_hold (requestTiming s) ts -> requestTimingLock (sb_shared s) = true -> timing_ready s = true.
Proof. intros (q & E & _) Hl. unfold timing_ready. by rewrite E. Qed.

Lemma Clear_run i s ts : times_hold (requestTiming s) ts -> requestTimingLock (sb_shared s) = true ->
  exists q, Submission_ClearCacheLookupTiming i s = inr ((), set_timing s q) /\ times_hold q (without_time i ts).
Proof.
  intros Ht Hl. destruct (remove_timing_run i s ts Ht) as (b & q & E & Hq). exists q. split; [|done].
  unfold Submission_ClearCacheLookupTiming. sm (eq_refl : ask_state s = inr (s, s)).
  rewrite (timing_ready_run s ts Ht Hl). simpl. by rewrite (SM_bind_inr _ _ _ _ _ E).
Qed.

Lemma Wait_run i s ts : times_hold (requestTiming s) ts -> requestTimingLock (sb_shared s) = true ->
  exists q, Submission_RecordCacheLookupWait i s = inr ((), set_timing s q) /\ times_hold q (without_time i ts).
Proof. exact (Clear_run i s ts). Qed.

Lemma allocating_nil {A} (m : M A) s r : ho_allocs (sb_host s) = [] -> m [] = Some (r, []) ->
  in_host (allocating m) s = inr (r, s).
Proof.
  intros Ha E. unfold in_host, allocating. rewrite Ha, E, memory_same by done. f_equal. f_equal. by destruct s.
Qed.

Lemma Start_run now i s ts : times_hold (requestTiming s) ts -> requestTimingLock (sb_shared s) = true ->
  ho_allocs (sb_host s) = [] ->
  exists q, Submission_RecordCacheLookupStart now i s = inr ((), set_timing s q) /\
    times_hold q (without_time i ts ++ [mkTiming i now]).
Proof.
  intros Ht Hl Ha. unfold Submission_RecordCacheLookupStart. sm (eq_refl : ask_state s = inr (s, s)).
  rewrite (timing_ready_run s ts Ht Hl). cbv beta iota delta [negb]. sm (allocating_nil alloc s _ Ha alloc_ok).
  destruct (remove_timing_run i s ts Ht) as (b & q & E & Hq). sm E.
  sm (eq_refl : ask_state (set_timing s q) = inr (set_timing s q, set_timing s q)).
  destruct Hq as (l & -> & Hc & Hp & Hcmp & Hk).
  destruct (push_plain l _ (mkTiming i now) [] Hc Hp) as (l' & Ep & Hme & Hc'). cbn [alloc_next fst snd] in Ep, Hc'.
  sm (allocating_nil _ (set_timing s (Some l)) _ Ha Ep). exists (Some l'). split; [done|].
  exists l'. pose proof (plain_meta _ _ Hme Hp). unfold meta in Hme. split_and!; try done; congruence.
Qed.
End Lists.

(** ** The invariant *)

Section Invariant.
Context `{EVPLaws} `{LibUuidLaws}.
Variable sg : UuidLists.
Variable nts : list UUIDListNode.
Variable cfg : EntityConfig.
Hypothesis nuggets_entries : entries (UUID_Get_List sg UUID_TYPE_NUGGET_TYPE) nts.
Variable K : nat.
Implicit Types (s : Sub) (w : World) (x : BlockPoolItem) (i j : positive) (xs rq sq : list positive) (ts : list CacheLookupTiming).

Definition status_of x : Z := Z.land (bp_iStatus x) BLOCK_POOL_STATUS_MASK.

(** A piece that a transport can read: memory or a file, as its flags say. *)
Definition sendable (d : BlockPoolData) : Prop := in_memory d /\ bd_iFlags d <> BLOCK_POOL_DATA_FLAG_FILE \/ in_file d.

(** An item that can be submitted: its event and its block have ids, the hash is
    finalised, of the type whose digests have [K] bytes. *)
Definition ready x : Prop :=
  exists eid b id h, e_pId (bp_pEvent x) = Some eid /\ e_pBlock (bp_pEvent x) = Some b /\ b_pId b = Some id /\
    bi_pHash id = Some h /\ complete h /\ h_iSize h = Z.of_nat K /\ in_width 64 (bi_iLength id) /\
    (forall parent, b_pParentId b = Some parent -> id_ok parent).

Definition in_flight (n : Z) : Prop :=
  n = BLOCK_POOL_STATUS_CHECK_GLOBAL_CACHE \/ n = BLOCK_POOL_STATUS_CHECKING_GLOBAL_CACHE \/ n = BLOCK_POOL_STATUS_SUBMIT_DATA.

(** Collecting items are as the pool leaves them, items in flight can be submitted. *)
Definition sitem_ok x : Prop :=
  (status_of x = BLOCK_POOL_STATUS_COLLECTING -> pitem_ok x) /\
  (in_flight (status_of x) -> ready x /\ Forall sendable (bp_pData x)).

Lemma status_of_word n old x : status_of (set_iStatus x (status_word n old)) = Z.land n BLOCK_POOL_STATUS_MASK.
Proof. apply status_bits. Qed.

Lemma status_of_flags n x : status_of (set_iStatus x (flags_word n (bp_iStatus x))) = status_of x.
Proof.
  unfold status_of, flags_word. simpl. rewrite Z.land_lor_distr_l, <- !Z.land_assoc.
  change (Z.land BLOCK_POOL_FLAG_MASK BLOCK_POOL_STATUS_MASK) with 0. by rewrite Z.land_0_r, Z.land_diag.
Qed.

(** An item of the pool with a status. *)
Definition in_state w xs (n : Z) i : Prop := i ∈ xs /\ exists x, w_items w !! i = Some x /\ status_of x = n.

(** An item whose request is on its way. *)
Definition waiting w xs i : Prop :=
  in_state w xs BLOCK_POOL_STATUS_CHECK_GLOBAL_CACHE i \/ in_state w xs BLOCK_POOL_STATUS_CHECKING_GLOBAL_CACHE i.

Record serves s xs rq sq ts : Prop := {
  sv_pool : pool_inv sitem_ok (sub_pool s) xs;
  sv_rq : queue_holds (requestQueue s) rq;
  sv_sq : queue_holds (submitQueue s) sq;
  sv_ts : times_hold (requestTiming s) ts;
  sv_lock : requestTimingLock (sb_shared s) = true;
  sv_caches : caches_shape K (sb_caches s);
  sv_table : exists es hs, holds nts (sb_table s) es hs /\ Z.of_nat (length es) < 2 ^ 32;
  sv_memory : ho_allocs (sb_host s) = [];
  sv_rq_once : NoDup rq;
  sv_sq_once : NoDup sq;
  sv_request : Forall (in_state (world s) xs BLOCK_POOL_STATUS_CHECK_GLOBAL_CACHE) rq;
  sv_submit : Forall (in_state (world s) xs BLOCK_POOL_STATUS_SUBMIT_DATA) sq;
  sv_times : Forall (fun t => waiting (world s) xs (ct_item t)) ts
}.

(** *** Changes of one item *)

(** [w'] has another item at [i] only. *)
Definition same_but w w' i : Prop := forall j, j <> i -> w_items w' !! j = w_items w !! j.

Lemma in_state_frame w w' xs xs' i j n : same_but w w' i -> (forall j, j <> i -> j ∈ xs -> j ∈ xs') -> j <> i ->
  in_state w xs n j -> in_state w' xs' n j.
Proof. intros Hw Hx Hj (Hin & x & Hl & Hs). split; [auto|]. exists x. by rewrite Hw. Qed.

Lemma waiting_frame w w' xs xs' i j : same_but w w' i -> (forall j, j <> i -> j ∈ xs -> j ∈ xs') -> j <> i ->
  waiting w xs j -> waiting w' xs' j.
Proof. intros Hw Hx Hj [?|?]; [left|right]; by eapply in_state_frame. Qed.

Lemma in_state_ne w xs n n' i j : in_state w xs n i -> in_state w xs n' j -> n <> n' -> i <> j.
Proof. intros (_ & x & Hx & Hs) (_ & y & Hy & Hs') Hn ->. congruence. Qed.

Lemma Forall_frame w w' xs xs' i n l : same_but w w' i -> (forall j, j <> i -> j ∈ xs -> j ∈ xs') -> i ∉ l ->
  Forall (in_state w xs n) l -> Forall (in_state w' xs' n) l.
Proof.
  intros Hw Hx Hi Hl. rewrite Forall_forall in *. intros j Hj. eapply in_state_frame; [done..| |by apply Hl]. by intros ->.
Qed.

Lemma times_frame w w' xs xs' i ts : same_but w w' i -> (forall j, j <> i -> j ∈ xs -> j ∈ xs') ->
  Forall (fun t => waiting w xs (ct_item t)) ts -> Forall (fun t => waiting w' xs' (ct_item t)) (without_time i ts).
Proof.
  intros Hw Hx Ht. rewrite Forall_forall in *. intros t [Hi Hin]%list_elem_of_filter.
  eapply waiting_frame; [done..|]. by apply Ht.
Qed.

(** An item that is in no queue and has no time. *)
Lemma not_queued s xs rq sq ts i n : serves s xs rq sq ts -> in_state (world s) xs n i ->
  (n <> BLOCK_POOL_STATUS_CHECK_GLOBAL_CACHE -> i ∉ rq) /\ (n <> BLOCK_POOL_STATUS_SUBMIT_DATA -> i ∉ sq).
Proof.
  intros Hs Hi. split; intros Hn Hin.
  - pose proof (sv_request _ _ _ _ _ Hs) as Hr. rewrite Forall_forall in Hr.
    exact (in_state_ne _ _ _ _ _ _ Hi (Hr i Hin) Hn eq_refl).
  - pose proof (sv_submit _ _ _ _ _ Hs) as Hr. rewrite Forall_forall in Hr.
    exact (in_state_ne _ _ _ _ _ _ Hi (Hr i Hin) Hn eq_refl).
Qed.

Lemma not_timed s xs rq sq ts i n : serves s xs rq sq ts -> in_state (world s) xs n i ->
  n <> BLOCK_POOL_STATUS_CHECK_GLOBAL_CACHE -> n <> BLOCK_POOL_STATUS_CHECKING_GLOBAL_CACHE -> without_time i ts = ts.
Proof.
  intros Hs Hi H1' H2'. apply filter_same. intros t Ht <-. pose proof (sv_times _ _ _ _ _ Hs) as Hr. rewrite Forall_forall in Hr.
  destruct (Hr t Ht) as [Hw|Hw]; [exact (in_state_ne _ _ _ _ _ _ Hi Hw H1' eq_refl)|exact (in_state_ne _ _ _ _ _ _ Hi Hw H2' eq_refl)].
Qed.

(** The pool after an item was changed and released. *)
Lemma pool_updated s xs i x x' ds : pool_inv sitem_ok (sub_pool s) xs -> w_items (world s) !! i = Some x -> sitem_ok x' ->
  item_bytes x = data_bytes ds + item_bytes x' ->
  pool_inv sitem_ok (mkPool (sb_bpList s) (updated (drained (world s) ds) i x')) xs.
Proof.
  intros Hp Hi Hx Hd. apply (pool_inv_insert _ (sub_pool s) xs); [done|].
  replace (w_size (drained (world s) ds)) with (u64 (w_size (world s) + - data_bytes ds)) by done.
  apply (world_inv_store _ (world s) i x); [by apply (po_world _ _ Hp)|done..|].
  lia.
Qed.

Lemma drained_nil w : in_width 64 (w_size w) -> drained w [] = w.
Proof. intros Hw. unfold drained. simpl. unfold u64. rewrite Z.sub_0_r, wrap_small by done. by destruct w. Qed.

Lemma settled x : status_of x <> BLOCK_POOL_STATUS_COLLECTING -> ~ in_flight (status_of x) -> sitem_ok x.
Proof. by split. Qed.

(** The pool without an item. *)
Definition others i xs : list positive := filter (fun y => bool_decide (y = i) = false) xs.

Lemma elem_of_others i j xs : j ∈ others i xs <-> j ∈ xs /\ j <> i.
Proof. unfold others. rewrite list_elem_of_filter, bool_decide_eq_false. naive_solver. Qed.

Lemma without_updated w i x : without (updated w i x) i x = without w i x.
Proof. unfold without, updated. simpl. by rewrite delete_insert_eq. Qed.

(** The state after a call of the callback of an item. *)
Definition called i x s : Sub :=
  match bp_submittedCallback x with Some f => add_call s (f, i, bp_iStatus x) | None => s end.

Lemma callback_run i x s w : submittedCallback i (with_world s (locked w i x)) = inr ((), called i x (with_world s (locked w i x))).
Proof.
  unfold submittedCallback. smi (load_locked w i x). unfold called. by destruct (bp_submittedCallback x).
Qed.

Lemma called_world i x s w : called i x (with_world s w) = with_world (called i x s) w.
Proof. unfold called. by destruct (bp_submittedCallback x). Qed.

Lemma sub_pool_with s w : sub_pool (with_world s w) = mkPool (sb_bpList s) w.
Proof. done. Qed.

Lemma called_list i x s : sb_bpList (called i x s) = sb_bpList s.
Proof. unfold called. by destruct (bp_submittedCallback x). Qed.

Lemma set_pool_with s w p : set_pool (with_world s w) p = set_pool s p.
Proof. done. Qed.

Lemma destroy_run s w xs i x : pool_inv sitem_ok (mkPool (sb_bpList s) (updated w i x)) xs -> i ∈ xs ->
  exists p, on_pool (BlockPool_DestroyItem (Some i)) (with_world s (updated w i x)) = inr (true, set_pool s p) /\
    pool_inv sitem_ok p (others i xs) /\ pool_world p = without w i x.
Proof.
  intros Hp Hi. destruct (DestroyItem_run _ _ xs i Hp) as (p & E & Hp' & Hw).
  rewrite decide_True in Hw by done. destruct Hw as (x' & Hx & Hw). simpl in Hx, Hw.
  rewrite lookup_insert_eq in Hx. injection Hx as <-. rewrite without_updated in Hw.
  exists p. split; [|done]. unfold on_pool. rewrite sub_pool_with, E. done.
Qed.

(** The item after a change of its status. *)
Definition with_status x (n : Z) : BlockPoolItem := set_iStatus x (status_word n (bp_iStatus x)).
Definition with_flags x (n : Z) : BlockPoolItem := set_iStatus x (flags_word n (bp_iStatus x)).

Lemma drop_item_run s w xs i x n : pool_inv sitem_ok (mkPool (sb_bpList s) (updated w i (with_status x n))) xs -> i ∈ xs ->
  exists p, drop_item i n (with_world s (locked w i x)) = inr ((), set_pool (called i (with_status x n) s) p) /\
    pool_inv sitem_ok p (others i xs) /\ pool_world p = without w i (with_status x n).
Proof.
  intros Hp Hi. unfold drop_item. smi (SetStatus_locked n w i x). fold (with_status x n).
  sm (callback_run i (with_status x n) s w). rewrite called_world. smi (unlock_locked w i (with_status x n)).
  rewrite <- (called_list i (with_status x n) s) in Hp.
  destruct (destroy_run (called i (with_status x n) s) w xs i (with_status x n) Hp Hi) as (p & E & Hp' & Hw).
  sm E. by exists p.
Qed.

(** *** From a state to the next *)

Lemma serves_item s s' xs xs' rq rq' sq sq' ts ts' i : serves s xs rq sq ts ->
  pool_inv sitem_ok (sub_pool s') xs' -> same_but (world s) (world s') i -> (forall j, j <> i -> j ∈ xs -> j ∈ xs') ->
  queue_holds (requestQueue s') rq' -> queue_holds (submitQueue s') sq' -> times_hold (requestTiming s') ts' ->
  sb_shared s' = sb_shared s -> caches_shape K (sb_caches s') ->
  (exists es hs, holds nts (sb_table s') es hs /\ Z.of_nat (length es) < 2 ^ 32) -> ho_allocs (sb_host s') = [] ->
  NoDup rq' -> (forall j, j <> i -> j ∈ rq' -> j ∈ rq) -> (i ∈ rq' -> in_state (world s') xs' BLOCK_POOL_STATUS_CHECK_GLOBAL_CACHE i) ->
  NoDup sq' -> (forall j, j <> i -> j ∈ sq' -> j ∈ sq) -> (i ∈ sq' -> in_state (world s') xs' BLOCK_POOL_STATUS_SUBMIT_DATA i) ->
  (forall t, t ∈ ts' -> ct_item t <> i -> t ∈ ts) -> (forall t, t ∈ ts' -> ct_item t = i -> waiting (world s') xs' i) ->
  serves s' xs' rq' sq' ts'.
Proof.
  intros Hs Hp Hsame Hxs Hrq Hsq Hts Hsh Hc Ht Ha Nr Hr Hri Ns Hsu Hsi Htt Hti. split; try done.
  - rewrite Hsh. apply (sv_lock _ _ _ _ _ Hs).
  - pose proof (sv_request _ _ _ _ _ Hs) as Ho. rewrite Forall_forall in *. intros j Hj.
    destruct (decide (j = i)) as [->|Hne]; [auto|]. eapply in_state_frame; [done..|]. auto.
  - pose proof (sv_submit _ _ _ _ _ Hs) as Ho. rewrite Forall_forall in *. intros j Hj.
    destruct (decide (j = i)) as [->|Hne]; [auto|]. eapply in_state_frame; [done..|]. auto.
  - pose proof (sv_times _ _ _ _ _ Hs) as Ho. rewrite Forall_forall in *. intros t Ht'.
    destruct (decide (ct_item t = i)) as [E|Hne]; [rewrite E; eauto|]. eapply waiting_frame; [done..|]. auto.
Qed.

Lemma same_updated w i x : same_but w (updated w i x) i.
Proof. intros j Hj. simpl. by rewrite lookup_insert_ne. Qed.

Lemma same_drained w ds i x : same_but w (updated (drained w ds) i x) i.
Proof. intros j Hj. simpl. by rewrite lookup_insert_ne. Qed.

Lemma same_without w i x : same_but w (without w i x) i.
Proof. intros j Hj. simpl. by rewrite lookup_delete_ne. Qed.

Lemma elem_of_without_time t i ts : t ∈ without_time i ts <-> ct_item t <> i /\ t ∈ ts.
Proof. unfold without_time. by rewrite list_elem_of_filter. Qed.

(** A call changes the list of calls only. *)
Lemma called_same i x s : requestQueue (called i x s) = requestQueue s /\ submitQueue (called i x s) = submitQueue s /\
  requestTiming (called i x s) = requestTiming s /\ sb_shared (called i x s) = sb_shared s /\
  sb_caches (called i x s) = sb_caches s /\ sb_table (called i x s) = sb_table s /\ sb_host (called i x s) = sb_host s.
Proof. unfold called. by destruct (bp_submittedCallback x). Qed.

(** An item is dropped after it was taken out of the queues. *)
Lemma serves_dropped s s1 w xs rq rq' sq sq' ts ts' i x p : serves s xs rq sq ts ->
  pool_inv sitem_ok p (others i xs) -> pool_world p = without w i x -> same_but (world s) w i ->
  queue_holds (requestQueue s1) rq' -> queue_holds (submitQueue s1) sq' -> times_hold (requestTiming s1) ts' ->
  sb_shared s1 = sb_shared s -> caches_shape K (sb_caches s1) ->
  (exists es hs, holds nts (sb_table s1) es hs /\ Z.of_nat (length es) < 2 ^ 32) -> ho_allocs (sb_host s1) = [] ->
  NoDup rq' -> (forall j, j ∈ rq' -> j ∈ rq /\ j <> i) -> NoDup sq' -> (forall j, j ∈ sq' -> j ∈ sq /\ j <> i) ->
  (forall t, t ∈ ts' -> t ∈ ts /\ ct_item t <> i) ->
  serves (set_pool (called i x s1) p) (others i xs) rq' sq' ts'.
Proof.
  intros Hs Hp Hw Hsame Hrq Hsq Hts Hsh Hc Ht Ha Nr Hr Ns Hsu Htt.
  destruct (called_same i x s1) as (E1 & E2 & E3 & E4 & E5 & E6 & E7).
  eapply (serves_item s _ xs (others i xs) rq rq' sq sq' ts ts' i Hs); simpl; rewrite ?E1, ?E2, ?E3, ?E4, ?E5, ?E6, ?E7; try done.
  - unfold sub_pool. simpl. by rewrite pool_eta.
  - unfold world. simpl. rewrite Hw. intros j Hj. rewrite (same_without w i x) by done. by apply Hsame.
  - intros j Hj Hin. by apply elem_of_others.
  - naive_solver.
  - naive_solver.
  - naive_solver.
  - naive_solver.
  - naive_solver.
  - naive_solver.
Qed.

(** *** Messages *)

Lemma CacheReq_run u id : id_ok id -> exists m, MessageCacheReq_Initialize u (Some id) [] = Some (Some m, []) /\
  m_type m = MESSAGE_TYPE_REQ /\ m_message m = Some (Messages.inj (mkCacheReq u (Some (id_clone id)))).
Proof.
  intros Hid. unfold MessageCacheReq_Initialize, nonnull. rewrite M_ret_bind.
  destruct (CncThms.Create_run MESSAGE_TYPE_REQ MESSAGE_VERSION_1 (Some (Messages.inj zero_CacheReq))) as (p & E & _).
  rewrite (M_bind_ok _ _ _ _ _ E), (M_bind_ok _ _ _ _ _ (proj1 (BlockId_Clone_ok id Hid))).
  eexists. split; [reflexivity|]. done.
Qed.

Lemma BlockSubmission_run e reason locality : exists m,
  MessageBlockSubmission_Initialize (Some e) reason locality [] = Some (Some m, []) /\
  m_type m = MESSAGE_TYPE_BLOCK /\ m_message m = Some (Messages.inj (mkBlockSubmission reason (Some e) locality)).
Proof.
  unfold MessageBlockSubmission_Initialize, nonnull. rewrite M_ret_bind.
  destruct (CncThms.Create_run MESSAGE_TYPE_BLOCK MESSAGE_VERSION_1 (Some (Messages.inj zero_BlockSubmission))) as (p & E & _).
  rewrite (M_bind_ok _ _ _ _ _ E). eexists. split; [reflexivity|]. done.
Qed.

(** *** Requests *)

Lemma pop_empty get set s : queue_holds (get s) [] -> queue_pop get set s = inr (None, set s (get s)).
Proof. intros (q & E & _ & _ & _ & _ & Hs). unfold queue_pop, List_Pop_Ex. by rewrite E, Hs. Qed.

Lemma last_queue (l : list positive) : l = [] \/ exists l' i, l = l' ++ [i] /\ list.last l = Some i /\ removelast l = l'.
Proof.
  destruct (decide (l = [])) as [|Hne]; [by left|]. right. destruct (exists_last Hne) as (l' & i & ->).
  exists l', i. by rewrite last_snoc, removelast_last.
Qed.

Lemma NoDup_last (l : list positive) i : NoDup (l ++ [i]) -> NoDup l /\ i ∉ l.
Proof. intros (Hl & Hd & _)%NoDup_app. split; [done|]. intros Hi. by apply (Hd i Hi), list_elem_of_singleton. Qed.

Lemma sitem_status x n : ready x -> Forall sendable (bp_pData x) -> Z.land n BLOCK_POOL_STATUS_MASK <> BLOCK_POOL_STATUS_COLLECTING ->
  sitem_ok (with_status x n).
Proof. intros Hr Hp Hn. split; [|done]. unfold with_status. by rewrite status_of_word. Qed.

Lemma in_state_item s xs i n rq sq ts : serves s xs rq sq ts -> in_state (world s) xs n i -> in_flight n ->
  exists x, i ∈ xs /\ w_items (world s) !! i = Some x /\ status_of x = n /\ ready x /\ Forall sendable (bp_pData x).
Proof.
  intros Hs (Hin & x & Hx & Hn) Hf. exists x. split_and!; try done.
  all: pose proof (wo_items _ (po_world _ _ (sv_pool _ _ _ _ _ Hs)) i x Hx) as [_ Ho]; simpl in Ho; rewrite Hn in Ho; by apply Ho.
Qed.

Lemma serves_held s xs rq sq ts : serves s xs rq sq ts -> w_held (world s) = [] /\ in_width 64 (w_size (world s)).
Proof.
  intros Hs. pose proof (po_world _ _ (sv_pool _ _ _ _ _ Hs)) as Hw. split; [exact (wo_held _ Hw)|exact (wo_width _ Hw)].
Qed.

(** The pool with a new status for an item. *)
Lemma pool_status s xs rq sq ts i x x' : serves s xs rq sq ts -> w_items (world s) !! i = Some x -> sitem_ok x' ->
  bp_pData x' = bp_pData x -> pool_inv sitem_ok (mkPool (sb_bpList s) (updated (world s) i x')) xs.
Proof.
  intros Hs Hi Hx Hd. destruct (serves_held _ _ _ _ _ Hs) as [_ Hw]. rewrite <- (drained_nil (world s)) by done.
  apply (pool_updated s xs i x x' []); [apply (sv_pool _ _ _ _ _ Hs)|done..|]. unfold item_bytes. rewrite Hd. done.
Qed.

(** What a turn leaves as it was. *)
Ltac keeps Hs := first [exact (sv_rq _ _ _ _ _ Hs)|exact (sv_sq _ _ _ _ _ Hs)|exact (sv_ts _ _ _ _ _ Hs)|
  exact (sv_caches _ _ _ _ _ Hs)|exact (sv_table _ _ _ _ _ Hs)|exact (sv_memory _ _ _ _ _ Hs)|
  exact (sv_rq_once _ _ _ _ _ Hs)|exact (sv_sq_once _ _ _ _ _ Hs)].

Lemma Request_run put_ok s xs rq sq ts : serves s xs rq sq ts ->
  exists s', Submission_GlobalCache_Request put_ok s = inr (bool_decide (rq <> []), s') /\
    match list.last rq with
    | None => s' = s
    | Some i => exists x, w_items (world s) !! i = Some x /\
        if put_ok then
          serves s' xs (removelast rq) sq ts /\
          world s' = updated (world s) i (with_status x BLOCK_POOL_STATUS_CHECKING_GLOBAL_CACHE) /\ sb_calls s' = sb_calls s /\
          exists m eid id, sb_sent s' = sb_sent s ++ [(REQUEST_QUEUE, m)] /\ m_type m = MESSAGE_TYPE_REQ /\
            e_pId (bp_pEvent x) = Some eid /\ item_id x = Some id /\
            m_message m = Some (Messages.inj (mkCacheReq (ei_uuidNuggetId eid) (Some (id_clone id))))
        else
          serves s' (others i xs) (removelast rq) sq (without_time i ts) /\ sb_sent s' = sb_sent s /\
          world s' = without (world s) i (with_status x BLOCK_POOL_STATUS_ERROR) /\
          sb_calls s' = sb_calls (called i (with_status x BLOCK_POOL_STATUS_ERROR) s)
    end.
Proof.
  intros Hs. destruct (serves_held _ _ _ _ _ Hs) as [Hh Hw]. unfold Submission_GlobalCache_Request.
  destruct (last_queue rq) as [->|(rq' & i & -> & El & Er)].
  { sm (pop_empty requestQueue set_requests s (sv_rq _ _ _ _ _ Hs)). eexists. split; [done|]. by destruct s. }
  destruct (pop_run requestQueue set_requests s _ (sv_rq _ _ _ _ _ Hs)) as (q & Eq & Hq). rewrite El in Eq |- *. rewrite Er in Hq |- *.
  sm Eq. rewrite bool_decide_eq_true_2 by (by destruct rq').
  pose proof (sv_request _ _ _ _ _ Hs) as Hr. apply Forall_app in Hr as [Hr Hi]. rewrite Forall_singleton in Hi.
  destruct (in_state_item s xs i _ _ _ _ Hs Hi (or_introl eq_refl)) as (x & Hin & Hx & Hst & Hrd & Hps).
  destruct (NoDup_last _ _ (sv_rq_once _ _ _ _ _ Hs)) as [Hnd Hni].
  pose proof (proj2 (not_queued s xs _ sq ts i _ Hs Hi) ltac:(done)) as Hsq.
  set (s1 := set_requests s q).
  assert (E1 : s1 = with_world s1 (world s)) by (symmetry; apply (with_world_same s1)). rewrite E1.
  smi (lock_locked (world s) i x Hx Hh). smi (GetStatus_locked (world s) i x). fold (status_of x). rewrite Hst.
  rewrite Z.eqb_refl. cbv iota. rewrite SM_assoc. smi (SetStatus_locked BLOCK_POOL_STATUS_CHECKING_GLOBAL_CACHE (world s) i x).
  fold (with_status x BLOCK_POOL_STATUS_CHECKING_GLOBAL_CACHE). set (x1 := with_status x _). rewrite SM_assoc.
  smi (load_locked (world s) i x1).
  pose proof Hrd as (eid & b & id & h & Heid & Hb & Hid & Hh' & Hco & HK & Hlen & Hpar).
  rewrite SM_assoc. sm (sm_deref_run (e_pId (bp_pEvent x1)) eid _ Heid).
  rewrite SM_assoc. sm (sm_deref_run (e_pBlock (bp_pEvent x1)) b _ Hb).
  assert (Hidok : id_ok id) by (split; [by exists h|done]).
  destruct (CacheReq_run (ei_uuidNuggetId eid) id Hidok) as (m & Em & Hty & Hbody). rewrite Hid, SM_assoc.
  sm (allocating_nil _ (with_world s1 (locked (world s) i x1)) _ (sv_memory _ _ _ _ _ Hs) Em).
  assert (Hitem : item_id x = Some id) by (unfold item_id; by rewrite Hb).
  destruct put_ok; cbv beta iota delta [negb].
  - assert (E2 : update_state (fun s => add_sent s (REQUEST_QUEUE, m)) (with_world s1 (locked (world s) i x1)) =
      inr ((), with_world (add_sent s1 (REQUEST_QUEUE, m)) (locked (world s) i x1))) by done.
    rewrite (SM_bind_inr _ _ _ () (with_world (add_sent s1 (REQUEST_QUEUE, m)) (updated (world s) i x1))).
    2: { rewrite (SM_bind_inr _ _ _ _ _ E2). by rewrite (in_items_run _ _ _ _ _ (unlock_locked (world s) i x1)). }
    eexists. split; [done|]. exists x. split; [done|]. split_and!; try done; [|by exists m, eid, id].
    assert (Hst1 : in_state (updated (world s) i x1) xs BLOCK_POOL_STATUS_CHECKING_GLOBAL_CACHE i).
    { split; [done|]. exists x1. simpl. rewrite lookup_insert_eq. split; [done|]. unfold x1, with_status. by rewrite status_of_word. }
    eapply (serves_item s _ xs xs _ rq' sq sq ts ts i Hs); simpl; try done; try keeps Hs.
    + apply (pool_status _ _ _ _ _ i x x1 Hs); [done| |done]. by apply sitem_status.
    + apply same_updated.
    + intros j _ Hj. apply elem_of_app. by left.
    + intros t _ _. by right.
  - destruct (Clear_run i (with_world s1 (locked (world s) i x1)) ts (sv_ts _ _ _ _ _ Hs) (sv_lock _ _ _ _ _ Hs)) as (q2 & E2 & Hq2).
    assert (Hpool : pool_inv sitem_ok (mkPool (sb_bpList (set_timing s1 q2)) (updated (world s) i (with_status x1 BLOCK_POOL_STATUS_ERROR))) xs).
    { apply (pool_status _ _ _ _ _ i x _ Hs); [done| |done]. by apply sitem_status. }
    destruct (drop_item_run (set_timing s1 q2) (world s) xs i x1 BLOCK_POOL_STATUS_ERROR Hpool Hin) as (p & Ed & Hp & Hpw).
    rewrite (SM_bind_inr _ _ _ () (set_pool (called i (with_status x1 BLOCK_POOL_STATUS_ERROR) (set_timing s1 q2)) p)).
    2: { rewrite (SM_bind_inr _ _ _ _ _ E2). exact Ed. }
    assert (Ex : with_status x1 BLOCK_POOL_STATUS_ERROR = with_status x BLOCK_POOL_STATUS_ERROR).
    { unfold x1, with_status, set_iStatus, status_word. simpl. do 2 f_equal. apply flag_bits. }
    rewrite Ex in *. eexists. split; [done|]. exists x. split; [done|]. split_and!.
    + eapply (serves_dropped s (set_timing s1 q2) (world s)); try done; try keeps Hs.
      * intros j Hj. split; [apply elem_of_app; by left|]. by intros ->.
      * intros j Hj. split; [done|]. by intros ->.
      * intros t [? ?]%elem_of_without_time. done.
    + unfold called. simpl. by destruct (bp_submittedCallback x).
    + done.
    + unfold called. simpl. by destruct (bp_submittedCallback x).
Qed.

(** *** Submitting *)

(** The two lookups in the local caches. *)
Definition consult (h : Hash) (C : CacheType -> CACHE) : option (bool * Z * Z * (CacheType -> CACHE)) :=
  '(r, sf, ent, C1) ← checkLocalEntry (h_pData h) (h_iSize h) (Some 0) (Some 0) BADHASH C;
  match r with
  | R_FOUND => sf ← sf; ent ← ent; Some (true, sf, ent, C1)
  | _ =>
      '(r, sf, ent, C2) ← checkLocalEntry (h_pData h) (h_iSize h) sf ent GOODHASH C1;
      sf ← sf; ent ← ent; Some (match r with R_FOUND => true | _ => false end, sf, ent, C2)
  end.

Lemma hash_key h : complete h -> h_iSize h = Z.of_nat K -> exists d, h_pData h = Some d /\ 0 <= h_iSize h <= Z.of_nat (length d) /\
  take (Z.to_nat (h_iSize h)) d = digest h /\ length (digest h) = K.
Proof.
  intros Hc HK. destruct (complete_data _ Hc) as (d & Hd & Hl & _). exists d. unfold digest. rewrite Hd. simpl.
  split_and!; try done; try lia. rewrite length_take. lia.
Qed.

Lemma check_hash h C sf ent t : complete h -> h_iSize h = Z.of_nat K ->
  checkLocalEntry (h_pData h) (h_iSize h) sf ent t C = checkLocalEntry (Some (digest h)) (Z.of_nat K) sf ent t C.
Proof. intros Hc HK. destruct (hash_key h Hc HK) as (d & -> & Hl & Et & _). rewrite <- Et, <- HK. by rewrite check_prefix by done. Qed.

Lemma add_hash ok h C sf ent t : complete h -> h_iSize h = Z.of_nat K ->
  addLocalEntry ok (h_pData h) (h_iSize h) sf ent t C = addLocalEntry ok (Some (digest h)) (Z.of_nat K) sf ent t C.
Proof. intros Hc HK. destruct (hash_key h Hc HK) as (d & -> & Hl & Et & _). rewrite <- Et, <- HK. by rewrite add_prefix by done. Qed.

Lemma consult_shape h C : complete h -> h_iSize h = Z.of_nat K -> caches_shape K C ->
  exists found sf ent C', consult h C = Some (found, sf, ent, C') /\ caches_shape K C'.
Proof.
  intros Hc HK HC. destruct (hash_key h Hc HK) as (_ & _ & _ & _ & Hd). unfold consult.
  destruct (checkLocal_shape K C BADHASH (digest h) 0 0 ltac:(done) HC Hd) as (r & sf & ent & C1 & E & HC1).
  rewrite check_hash, E by done. cbn [mbind option_bind].
  destruct (checkLocal_shape K C1 GOODHASH (digest h) sf ent ltac:(done) HC1 Hd) as (r' & sf' & ent' & C2 & E' & HC2).
  rewrite check_hash, E' by done. cbn [mbind option_bind]. destruct r; eauto 8.
Qed.

Lemma consult_run {A} id h (k : bool -> Z -> Z -> SM A) s found sf ent C : bi_pHash id = Some h ->
  consult h (sb_caches s) = Some (found, sf, ent, C) ->
  ('(found, sf, ent) ← check_local id 0 0 BADHASH;
   '(found, sf, ent) ← (if found : bool then mret (true, sf, ent) else check_local id sf ent GOODHASH);
   k found sf ent) s = k found sf ent (set_caches s C).
Proof.
  intros Hh. unfold consult. destruct (checkLocalEntry _ _ _ _ BADHASH _) as [[[[r o1] o2] C1]|] eqn:E; [|done]. cbn [mbind option_bind].
  intros E2. unfold mbind at 1. unfold SM_bind. unfold check_local at 1. rewrite Hh. cbn [mbind option_bind]. rewrite E.
  assert (Hgo : forall z1 z2,
    ('(r, sf, ent, C2) ← checkLocalEntry (h_pData h) (h_iSize h) (Some z1) (Some z2) GOODHASH C1;
      sf ← sf; ent ← ent; Some (match r with R_FOUND => true | _ => false end, sf, ent, C2)) = Some (found, sf, ent, C) ->
    ('(found, sf, ent) ← check_local id z1 z2 GOODHASH; k found sf ent) (set_caches s C1) = k found sf ent (set_caches s C)).
  { clear E2. intros z1 z2 E3. unfold mbind at 1. unfold SM_bind, check_local. rewrite Hh. cbn [mbind option_bind sb_caches set_caches].
    destruct (checkLocalEntry _ _ _ _ GOODHASH C1) as [[[[r' [o3|]] [o4|]] C2]|]; cbn [mbind option_bind] in E3; try done.
    by injection E3 as <- <- <- <-. }
  destruct o1 as [z1|], o2 as [z2|]; destruct r; cbn [mbind option_bind] in E2;
    try (by apply Hgo); try (injection E2 as <- <- <- <-; done); try discriminate E2.
  all: unfold checkLocalEntry in E2; rewrite decide_False in E2 by done; discriminate E2.
Qed.

(** The item is gone, its callback was called with the status [n]. *)
Definition dropped s s' i x (n : Z) : Prop :=
  world s' = without (world s) i (with_status x n) /\ sb_calls s' = sb_calls (called i (with_status x n) s) /\ sb_sent s' = sb_sent s.

Lemma called_fields i x s p : sb_calls (set_pool (called i x s) p) = sb_calls (called i x s) /\ sb_sent (set_pool (called i x s) p) = sb_sent s.
Proof. unfold called. by destruct (bp_submittedCallback x). Qed.

(** An item that is in no queue is dropped. *)
Lemma reject_run s xs rq sq ts i x n : serves s xs rq sq ts -> i ∈ xs -> w_items (world s) !! i = Some x ->
  i ∉ rq -> i ∉ sq -> without_time i ts = ts -> sitem_ok (with_status x n) ->
  exists s', drop_item i n (with_world s (locked (world s) i x)) = inr ((), s') /\ serves s' (others i xs) rq sq ts /\ dropped s s' i x n.
Proof.
  intros Hs Hin Hx Hr Hq Ht Hok.
  destruct (drop_item_run s (world s) xs i x n (pool_status _ _ _ _ _ i x _ Hs Hx Hok eq_refl) Hin) as (p & E & Hp & Hpw).
  eexists. split; [exact E|]. destruct (called_fields i (with_status x n) s p) as [Ec Es]. split; [|by split_and!].
  eapply (serves_dropped s s (world s)); try done; try keeps Hs.
  - intros j Hj. split; [done|]. by intros ->.
  - intros j Hj. split; [done|]. by intros ->.
  - intros t Hj. rewrite <- Ht in Hj. apply elem_of_without_time in Hj as [? ?]. done.
Qed.

(** The block names itself as its parent; it has no data type. *)
Definition own_parent x : bool :=
  match b ← e_pBlock (bp_pEvent x); parent ← b_pParentId b; BlockId_IsEqual false false (b_pId b) (Some parent) with
  | Some r => r
  | None => false
  end.
Definition untyped x : bool := match item_id x with Some id => uuid_is_null (bi_uuidDataType id) == 1 | None => false end.
Definition item_hash x : option Hash := id ← item_id x; bi_pHash id.

(** The item on its way to the queues. *)
Definition to_submit x (fl : Z) : BlockPoolItem :=
  with_flags (with_status (set_pData x []) BLOCK_POOL_STATUS_SUBMIT_DATA) (Z.lor fl BLOCK_POOL_FLAG_EVENT_ONLY).
Definition to_request x (fl : Z) : BlockPoolItem := with_flags (with_status x BLOCK_POOL_STATUS_CHECK_GLOBAL_CACHE) fl.

Lemma with_flags_status x n fl : status_of (with_flags (with_status x n) fl) = Z.land n BLOCK_POOL_STATUS_MASK.
Proof. unfold with_flags. rewrite status_of_flags. unfold with_status. apply status_of_word. Qed.

Lemma sitem_flags x n fl : ready x -> Forall sendable (bp_pData x) -> Z.land n BLOCK_POOL_STATUS_MASK <> BLOCK_POOL_STATUS_COLLECTING ->
  sitem_ok (with_flags (with_status x n) fl).
Proof. intros Hr Hp Hn. split; [|done]. by rewrite with_flags_status. Qed.

(** A submission that the local cache answers. *)
Lemma hit_tail i fl s C xs rq sq ts x : serves s xs rq sq ts -> i ∈ xs -> w_items (world s) !! i = Some x ->
  i ∉ rq -> i ∉ sq -> without_time i ts = ts -> ready x -> caches_shape K C ->
  exists s1 s', (in_items (BlockPool_DestroyItemDataList (bp_pData x)) ;;
     in_items (BlockPool.store i (set_pData x [])) ;;
     in_items (BlockPool_SetStatus (Some i) BLOCK_POOL_STATUS_SUBMIT_DATA) ;;
     in_items (BlockPool_SetFlags (Some i) (Z.lor fl BLOCK_POOL_FLAG_EVENT_ONLY)) ;;
     queue_push submitQueue set_submits i) (with_world (set_caches s C) (locked (world s) i x)) = inr ((), s1) /\
    in_items (BlockPool_Item_Unlock i) s1 = inr ((), s') /\
    serves s' xs rq (sq ++ [i]) ts /\ sb_caches s' = C /\ sb_calls s' = sb_calls s /\ sb_sent s' = sb_sent s /\
    world s' = updated (drained (world s) (bp_pData x)) i (to_submit x fl).
Proof.
  intros Hs Hin Hx Hnr Hnq Hnt Hrd HC. destruct (serves_held _ _ _ _ _ Hs) as [Hh Hw]. set (w := world s) in *. set (ds := bp_pData x).
  smi (drain_locked ds w i x Hw). smi (store_locked (drained w ds) i x (set_pData x [])).
  smi (SetStatus_locked BLOCK_POOL_STATUS_SUBMIT_DATA (drained w ds) i (set_pData x [])).
  smi (SetFlags_locked (Z.lor fl BLOCK_POOL_FLAG_EVENT_ONLY) (drained w ds) i (with_status (set_pData x []) BLOCK_POOL_STATUS_SUBMIT_DATA)).
  fold (with_flags (with_status (set_pData x []) BLOCK_POOL_STATUS_SUBMIT_DATA) (Z.lor fl BLOCK_POOL_FLAG_EVENT_ONLY)). fold (to_submit x fl).
  destruct (push_run submitQueue set_submits (with_world (set_caches s C) (locked (drained w ds) i (to_submit x fl))) i sq
    (sv_sq _ _ _ _ _ Hs) (sv_memory _ _ _ _ _ Hs)) as (q & E & Hq).
  eexists _, _. split; [exact E|].
  split; [exact (in_items_run _ (set_submits (set_caches s C) q) _ _ _ (unlock_locked (drained w ds) i (to_submit x fl)))|]. split; [|done].
  assert (Hst : in_state (updated (drained w ds) i (to_submit x fl)) xs BLOCK_POOL_STATUS_SUBMIT_DATA i).
  { split; [done|]. exists (to_submit x fl). simpl. rewrite lookup_insert_eq. split; [done|]. apply with_flags_status. }
  eapply (serves_item s _ xs xs rq rq sq (sq ++ [i]) ts ts i Hs); simpl; try done; try keeps Hs.
  - apply (pool_updated s xs i x); [apply (sv_pool _ _ _ _ _ Hs)|done| |change (item_bytes (to_submit x fl)) with 0; unfold item_bytes; fold ds; lia]. by apply sitem_flags.
  - apply same_drained.
  - apply NoDup_app. split_and!; [apply (sv_sq_once _ _ _ _ _ Hs)| |apply NoDup_singleton]. intros j Hj Ej%list_elem_of_singleton. by subst.
  - intros j Hj [?|Ej%list_elem_of_singleton]%elem_of_app; by subst.
  - intros t Hj Et. rewrite <- Hnt in Hj. apply elem_of_without_time in Hj as [? ?]. done.
Qed.

(** One that it does not. *)
Lemma miss_tail now i fl s C xs rq sq ts x : serves s xs rq sq ts -> i ∈ xs -> w_items (world s) !! i = Some x ->
  i ∉ rq -> i ∉ sq -> without_time i ts = ts -> ready x -> Forall sendable (bp_pData x) -> caches_shape K C ->
  exists s1 s', (in_items (BlockPool_SetStatus (Some i) BLOCK_POOL_STATUS_CHECK_GLOBAL_CACHE) ;;
     in_items (BlockPool_SetFlags (Some i) fl) ;;
     queue_push requestQueue set_requests i ;;
     Submission_RecordCacheLookupStart now i) (with_world (set_caches s C) (locked (world s) i x)) = inr ((), s1) /\
    in_items (BlockPool_Item_Unlock i) s1 = inr ((), s') /\
    serves s' xs (rq ++ [i]) sq (ts ++ [mkTiming i now]) /\ sb_caches s' = C /\ sb_calls s' = sb_calls s /\ sb_sent s' = sb_sent s /\
    world s' = updated (world s) i (to_request x fl).
Proof.
  intros Hs Hin Hx Hnr Hnq Hnt Hrd Hps HC. set (w := world s) in *.
  smi (SetStatus_locked BLOCK_POOL_STATUS_CHECK_GLOBAL_CACHE w i x).
  smi (SetFlags_locked fl w i (with_status x BLOCK_POOL_STATUS_CHECK_GLOBAL_CACHE)).
  fold (with_flags (with_status x BLOCK_POOL_STATUS_CHECK_GLOBAL_CACHE) fl). fold (to_request x fl).
  destruct (push_run requestQueue set_requests (with_world (set_caches s C) (locked w i (to_request x fl))) i rq
    (sv_rq _ _ _ _ _ Hs) (sv_memory _ _ _ _ _ Hs)) as (q & E & Hq). sm E.
  set (s1 := set_requests _ q).
  destruct (Start_run now i s1 ts (sv_ts _ _ _ _ _ Hs) (sv_lock _ _ _ _ _ Hs) (sv_memory _ _ _ _ _ Hs)) as (q2 & E2 & Hq2).
  eexists _, _. split; [exact E2|].
  split; [exact (in_items_run _ (set_timing (set_requests (set_caches s C) q) q2) _ _ _ (unlock_locked w i (to_request x fl)))|].
  split; [|done]. rewrite Hnt in Hq2.
  assert (Hst : in_state (updated w i (to_request x fl)) xs BLOCK_POOL_STATUS_CHECK_GLOBAL_CACHE i).
  { split; [done|]. exists (to_request x fl). simpl. rewrite lookup_insert_eq. split; [done|]. apply with_flags_status. }
  eapply (serves_item s _ xs xs rq (rq ++ [i]) sq sq ts (ts ++ [mkTiming i now]) i Hs); simpl; try done; try keeps Hs.
  - apply (pool_status _ _ _ _ _ i x _ Hs); [done| |done]. by apply sitem_flags.
  - apply same_updated.
  - apply NoDup_app. split_and!; [apply (sv_rq_once _ _ _ _ _ Hs)| |apply NoDup_singleton]. intros j Hj Ej%list_elem_of_singleton. by subst.
  - intros j Hj [?|Ej%list_elem_of_singleton]%elem_of_app; by subst.
  - intros t [?|Et%list_elem_of_singleton]%elem_of_app; [done|]. by subst.
  - intros t _ _. by left.
Qed.

Lemma own_parent_run {A} x b (k : bool -> SM A) s : ready x -> e_pBlock (bp_pEvent x) = Some b ->
  (own ← (match b_pParentId b with
          | None => mret false
          | Some parent => sm_deref (BlockId_IsEqual false false (b_pId b) (Some parent))
          end); k own) s = k (own_parent x) s.
Proof.
  intros (eid & b' & id & h & _ & Hb' & Hid & Hh & Hc & _ & Hl & Hpar) Hb. rewrite Hb in Hb'. injection Hb' as <-.
  unfold own_parent. rewrite Hb. cbn [mbind option_bind]. destruct (b_pParentId b) as [parent|] eqn:Ep; [|done].
  cbn [mbind option_bind]. rewrite Hid.
  destruct (BlockId_IsEqual_iff id parent (conj (ex_intro _ h (conj Hh Hc)) Hl) (Hpar parent eq_refl)) as (r & Er & _).
  rewrite Er. by rewrite (SM_bind_inr _ _ _ _ _ (sm_deref_run _ _ _ eq_refl)).
Qed.

Lemma Submit_run now i fl ok s xs rq sq ts x : serves s xs rq sq ts -> i ∈ xs -> w_items (world s) !! i = Some x ->
  status_of x = BLOCK_POOL_STATUS_FINALIZED -> ready x -> Forall sendable (bp_pData x) ->
  exists r s', Submission_Submit now i fl ok s = inr (r, s') /\
    if own_parent x || negb ok then
      r = (RZB_SUBMISSION_ERROR, 0, 0) /\ serves s' (others i xs) rq sq ts /\ dropped s s' i x BLOCK_POOL_STATUS_ERROR
    else if untyped x then
      r = (RZB_SUBMISSION_NO_TYPE, 0, 0) /\ serves s' (others i xs) rq sq ts /\ dropped s s' i x BLOCK_POOL_STATUS_NO_TYPE
    else exists h found sf ent C, item_hash x = Some h /\ consult h (sb_caches s) = Some (found, sf, ent, C) /\
      r = (RZB_SUBMISSION_OK, sf, ent) /\ sb_caches s' = C /\ sb_calls s' = sb_calls s /\ sb_sent s' = sb_sent s /\
      if found : bool then serves s' xs rq (sq ++ [i]) ts /\ world s' = updated (drained (world s) (bp_pData x)) i (to_submit x fl)
      else serves s' xs (rq ++ [i]) sq (ts ++ [mkTiming i now]) /\ world s' = updated (world s) i (to_request x fl).
Proof.
  intros Hs Hin Hx Hst Hrd Hps. destruct (serves_held _ _ _ _ _ Hs) as [Hh Hw].
  assert (Hi : in_state (world s) xs BLOCK_POOL_STATUS_FINALIZED i) by (split; [done|]; by exists x).
  destruct (not_queued _ _ _ _ _ _ _ Hs Hi) as [Hnr Hnq]. specialize (Hnr ltac:(done)). specialize (Hnq ltac:(done)).
  pose proof (not_timed _ _ _ _ _ _ _ Hs Hi ltac:(done) ltac:(done)) as Hnt.
  assert (Hrej : forall n, Z.land n BLOCK_POOL_STATUS_MASK <> BLOCK_POOL_STATUS_COLLECTING -> exists s',
    drop_item i n (with_world s (locked (world s) i x)) = inr ((), s') /\ serves s' (others i xs) rq sq ts /\ dropped s s' i x n).
  { intros n Hn. apply reject_run; try done. by apply sitem_status. }
  pose proof Hrd as (eid & b & id & h & Heid & Hb & Hid & Hph & Hco & HK & Hlen & Hpar).
  replace (Submission_Submit now i fl ok s) with (Submission_Submit now i fl ok (with_world s (world s))) by (by rewrite with_world_same).
  unfold Submission_Submit. smi (lock_locked (world s) i x Hx Hh). smi (load_locked (world s) i x).
  sm (sm_deref_run (e_pBlock (bp_pEvent x)) b _ Hb). rewrite (own_parent_run x b) by done.
  destruct (own_parent x); [|destruct ok]; cbv beta iota delta [orb negb].
  1, 3: destruct (Hrej BLOCK_POOL_STATUS_ERROR ltac:(done)) as (s' & E & Hs' & Hd); sm E; by eexists _, _.
  sm (sm_deref_run (b_pId b) id _ Hid). unfold untyped, item_hash, item_id. rewrite Hb. cbn [mbind option_bind]. rewrite Hid.
  cbn [mbind option_bind]. destruct (uuid_is_null (bi_uuidDataType id) == 1).
  { destruct (Hrej BLOCK_POOL_STATUS_NO_TYPE ltac:(done)) as (s' & E & Hs' & Hd). sm E. by eexists _, _. }
  destruct (consult_shape h (sb_caches s) Hco HK (sv_caches _ _ _ _ _ Hs)) as (found & sf & ent & C & Ec & HC).
  pose proof (consult_run id h (fun found sf ent =>
      (if found : bool then
         in_items (BlockPool_DestroyItemDataList (bp_pData x)) ;;
         in_items (BlockPool.store i (set_pData x [])) ;;
         in_items (BlockPool_SetStatus (Some i) BLOCK_POOL_STATUS_SUBMIT_DATA) ;;
         in_items (BlockPool_SetFlags (Some i) (Z.lor fl BLOCK_POOL_FLAG_EVENT_ONLY)) ;;
         queue_push submitQueue set_submits i
       else
         in_items (BlockPool_SetStatus (Some i) BLOCK_POOL_STATUS_CHECK_GLOBAL_CACHE) ;;
         in_items (BlockPool_SetFlags (Some i) fl) ;;
         queue_push requestQueue set_requests i ;;
         Submission_RecordCacheLookupStart now i) ;;
      in_items (BlockPool_Item_Unlock i) ;;
      mret (RZB_SUBMISSION_OK, sf, ent)) (with_world s (locked (world s) i x)) found sf ent C Hph Ec) as Er.
  cbv beta in Er. rewrite Er. clear Er.
  change (set_caches (with_world s (locked (world s) i x)) C) with (with_world (set_caches s C) (locked (world s) i x)).
  destruct found.
  - destruct (hit_tail i fl s C xs rq sq ts x Hs Hin Hx Hnr Hnq Hnt Hrd HC) as (s1 & s' & E1 & E2 & Hs' & Hrest). sm E1. sm E2.
    eexists _, s'. split; [done|]. exists h, true, sf, ent, C. naive_solver.
  - destruct (miss_tail now i fl s C xs rq sq ts x Hs Hin Hx Hnr Hnq Hnt Hrd Hps HC) as (s1 & s' & E1 & E2 & Hs' & Hrest). sm E1. sm E2.
    eexists _, s'. split; [done|]. exists h, false, sf, ent, C. naive_solver.
Qed.

(** *** The transfer *)

(** What the submission relies on of the transports: a store returns, memory does not
    run out in it, and of the pool it changes only files and the positions in the data
    of the item. *)
Definition stored_by (h : Host) (i : positive) (x : BlockPoolItem) (h' : Host) (ds : list BlockPoolData) : Prop :=
  ho_allocs h' = [] /\ Forall sendable ds /\ data_bytes ds = data_bytes (bp_pData x) /\
  exists f, ho_world h' = mkWorld (<[i := set_pData x ds]> (w_items (ho_world h))) (w_size (ho_world h)) (w_held (ho_world h)) f.

Class TransportSafe (store : TransportDescriptor -> positive -> ConnectedEntity -> HM TransferStatus) : Prop :=
  transport_safe trans i d h x : w_items (ho_world h) !! i = Some x -> ready x -> Forall sendable (bp_pData x) -> ho_allocs h = [] ->
    exists st h' ds, store trans i d h = inr (st, h') /\ stored_by h i x h' ds.

Section Transfer.
Variable transports : option transport_list.
Variable tds : list TransportDescriptor.
Hypothesis transports_ok : registry transports tds.
Variable store : TransportDescriptor -> positive -> ConnectedEntity -> HM TransferStatus.
Context `{!TransportSafe store}.

Lemma stored_by_lookup h i x h' ds : stored_by h i x h' ds -> w_items (ho_world h') !! i = Some (set_pData x ds).
Proof. intros (_ & _ & _ & f & ->). simpl. apply lookup_insert_eq. Qed.

Lemma stored_by_trans h i x h1 ds1 h2 ds2 : stored_by h i x h1 ds1 -> stored_by h1 i (set_pData x ds1) h2 ds2 -> stored_by h i x h2 ds2.
Proof.
  intros (_ & _ & Hb1 & f1 & Hw1) (Ha & Hp & Hb2 & f2 & Hw2). split_and!; [done..|by rewrite Hb2|]. exists f2. rewrite Hw2, Hw1. simpl.
  by rewrite insert_insert_eq.
Qed.

Lemma stored_by_refl h i x : w_items (ho_world h) !! i = Some x -> Forall sendable (bp_pData x) -> ho_allocs h = [] ->
  stored_by h i x h (bp_pData x).
Proof.
  intros Hx Hp Ha. split_and!; [done..|]. exists (w_files (ho_world h)). rewrite insert_id; [by destruct (ho_world h)|].
  rewrite Hx. by destruct x.
Qed.

Lemma attempts_safe trans i d n : forall st h x, w_items (ho_world h) !! i = Some x -> ready x -> Forall sendable (bp_pData x) ->
  ho_allocs h = [] -> exists st' h' ds, attempts n st (store trans i d) h = inr (st', h') /\ stored_by h i x h' ds.
Proof.
  induction n as [|n IH]; intros st h x Hx Hr Hp Ha.
  { exists st, h, (bp_pData x). split; [done|]. by apply stored_by_refl. }
  destruct (transport_safe trans i d h x Hx Hr Hp Ha) as (st1 & h1 & ds1 & E & Hs). cbn [attempts]. rewrite E.
  pose proof Hs as (Ha1 & Hp1 & _ & _).
  destruct (IH st1 h1 (set_pData x ds1) (stored_by_lookup _ _ _ _ _ Hs) Hr Hp1 Ha1) as (st2 & h2 & ds2 & E2 & Hs2).
  destruct st1; [eexists _, _, ds1; by split|..]; exists st2, h2, ds2; split; try done; by eapply stored_by_trans.
Qed.

Lemma Transfer_Store_safe i d e h x : ce_dispatcher d = Some e -> w_items (ho_world h) !! i = Some x -> ready x ->
  Forall sendable (bp_pData x) -> ho_allocs h = [] ->
  exists st h' ds, Transfer_Store transports store i (Some d) h = inr (st, h') /\ stored_by h i x h' ds.
Proof.
  intros He Hx Hr Hp Ha. unfold Transfer_Store, transfer. cbn [mbind option_bind]. rewrite He.
  destruct transports_ok as (l & -> & Hc & Hpl & Hk). rewrite (Find_contents l tds _ _ _ Hc (plain_locks _ Hpl) Hk).
  destruct (find_first _ tds) as [trans|]; [by apply attempts_safe|].
  exists TRANSFER_FAIL_LOCAL, h, (bp_pData x). split; [done|]. by apply stored_by_refl.
Qed.

(** The table keeps its entities, some of them marked. *)
Definition table_ok (t : Table) (n : nat) : Prop := exists es hs, holds nts t es hs /\ length es = n.

Lemma GetDispatcher_safe pushes t n : table_ok t n -> Z.of_nat n < 2 ^ 32 ->
  exists r t', ConnectedEntityList_GetDispatcher sg cfg pushes t = Some (r, t') /\ table_ok t' n /\
    forall d, r = Some d -> is_Some (ce_dispatcher d) /\
      exists t'' b, ConnectedEntityList_MarkDispatcherUnusable (ce_uuidNuggetId d) t' = Some (b, t'') /\ table_ok t'' n.
Proof.
  intros (es & hs & Ht & <-) Hn. destruct (GetDispatcher_run sg nts nuggets_entries cfg pushes t es hs Ht Hn) as (r & o & E & Hr & _).
  assert (Ht' : holds nts (with_store t (set_allocs (t_store t) o)) es hs).
  { destruct Ht as (as_ & Ht). exists as_. by apply tracks_allocs. }
  exists r, (with_store t (set_allocs (t_store t) o)). split; [done|]. split; [by exists es, hs|]. intros d ->.
  destruct (Hr d eq_refl) as (e & He & _ & (de & l & xs & Hde & _ & _ & ->)). split; [done|].
  destruct (Mark_run sg nts nuggets_entries (ce_uuidNuggetId e) _ es hs Ht') as (t'' & Em & Ht'' & _).
  { intros e' He' Hid. destruct Ht as (as_ & Ht). unfold dispatchers_of in He. apply list_elem_of_filter in He as [Hd He].
    pose proof (NoDup_fmap_elem _ _ _ _ (tr_ids _ _ _ _ _ Ht) He' He Hid) as ->. done. }
  exists t'', (bool_decide (known (ce_uuidNuggetId e) es)). split; [exact Em|]. exists (unusable (ce_uuidNuggetId e) es), hs.
  split; [done|]. unfold unusable. by rewrite length_map.
Qed.

Lemma transfer_loop_run pushes i n s tries : forall w x h t, table_ok t n -> Z.of_nat n < 2 ^ 32 ->
  ho_world h = locked w i x -> ready x -> Forall sendable (bp_pData x) -> ho_allocs h = [] ->
  exists r h' t' ds f, transfer_loop sg cfg transports store tries pushes i (set_table (set_host s h) t) =
      inr (r, set_table (set_host s h') t') /\ table_ok t' n /\ ho_allocs h' = [] /\ Forall sendable ds /\
    data_bytes ds = data_bytes (bp_pData x) /\ ho_world h' = locked (set_files w f) i (set_pData x ds).
Proof.
  induction tries as [|tries IH]; intros w x h t Ht Hn Hw Hr Hp Ha.
  { exists None, h, t, (bp_pData x), (w_files w). split_and!; try done. rewrite Hw. by destruct w, x. }
  cbn [transfer_loop]. destruct (GetDispatcher_safe pushes t n Ht Hn) as (r & t1 & E & Ht1 & Hd).
  assert (Ed : on_table (ConnectedEntityList_GetDispatcher sg cfg pushes) (set_table (set_host s h) t) = inr (r, set_table (set_host s h) t1)).
  { unfold on_table. simpl. by rewrite E. }
  sm Ed. destruct r as [d|].
  2: { exists None, h, t1, (bp_pData x), (w_files w). split_and!; try done. rewrite Hw. by destruct w, x. }
  destruct (Hd d eq_refl) as ([de Hde] & t2 & b & Em & Ht2).
  assert (Hx : w_items (ho_world h) !! i = Some x) by (rewrite Hw; apply locked_lookup).
  destruct (Transfer_Store_safe i d de h x Hde Hx Hr Hp Ha) as (st & h1 & ds & Es & Ha1 & Hp1 & Hb1 & f & Hw1).
  assert (Eh : in_host (Transfer_Store transports store i (Some d)) (set_table (set_host s h) t1) = inr (st, set_table (set_host s h1) t1)).
  { unfold in_host. simpl. by rewrite Es. }
  sm Eh. assert (Hw1' : ho_world h1 = locked (set_files w f) i (set_pData x ds)).
  { rewrite Hw1, Hw. unfold locked. simpl. by rewrite insert_insert_eq. }
  assert (Hfin : forall r h' t', (exists ds' f', ho_world h' = locked (set_files (set_files w f) f') i (set_pData (set_pData x ds) ds') /\
    table_ok t' n /\ ho_allocs h' = [] /\ Forall sendable ds' /\ data_bytes ds' = data_bytes ds) ->
    exists r0 h0 t0 ds0 f0, inr (r, set_table (set_host s h') t') = (inr (r0, set_table (set_host s h0) t0) : fault + (option ConnectedEntity * Sub)) /\
      table_ok t0 n /\ ho_allocs h0 = [] /\ Forall sendable ds0 /\ data_bytes ds0 = data_bytes (bp_pData x) /\
      ho_world h0 = locked (set_files w f0) i (set_pData x ds0)).
  { intros r h' t' (ds' & f' & Hw' & ? & ? & ? & Hb'). exists r, h', t', ds', f'. split_and!; try done. by rewrite Hb'. }
  destruct st.
  - exists (Some d), h1, t1, ds, f. split_and!; done.
  - assert (Emk : on_table (ConnectedEntityList_MarkDispatcherUnusable (ce_uuidNuggetId d)) (set_table (set_host s h1) t1) =
      inr (b, set_table (set_host s h1) t2)) by (unfold on_table; simpl; by rewrite Em).
    sm Emk. destruct (IH (set_files w f) (set_pData x ds) h1 t2 Ht2 Hn Hw1' Hr Hp1 Ha1) as (r & h' & t' & ds' & f' & -> & Ht' & Ha' & Hp' & Hb' & Hw').
    apply Hfin. exists ds', f'. split_and!; try done.
  - destruct (IH (set_files w f) (set_pData x ds) h1 t1 Ht1 Hn Hw1' Hr Hp1 Ha1) as (r & h' & t' & ds' & f' & -> & Ht' & Ha' & Hp' & Hb' & Hw').
    apply Hfin. exists ds', f'. split_and!; try done.
Qed.

(** *** The message *)

Definition reusable x : bool := Z.land (bp_iStatus x) BLOCK_POOL_FLAG_MAY_REUSE == BLOCK_POOL_FLAG_MAY_REUSE.

Lemma reusable_status x n : reusable (with_status x n) = reusable x.
Proof.
  unfold reusable, with_status. simpl. f_equal. unfold status_word. rewrite Z.land_lor_distr_l, <- !Z.land_assoc.
  change (Z.land BLOCK_POOL_STATUS_MASK BLOCK_POOL_FLAG_MAY_REUSE) with 0.
  change (Z.land BLOCK_POOL_FLAG_MASK BLOCK_POOL_FLAG_MAY_REUSE) with BLOCK_POOL_FLAG_MAY_REUSE. by rewrite Z.land_0_r, Z.lor_0_l.
Qed.

(** The status of an item that was sent. *)
Definition sent_status (put_ok : bool) : Z := if put_ok then BLOCK_POOL_STATUS_FINALIZED else BLOCK_POOL_STATUS_ERROR.

(** An item that is kept for its collector. *)
Definition recycled x (n : Z) : BlockPoolItem := set_pData (with_flags (with_status x n) 0) [].

Lemma send_run (put_ok : bool) i reason loc s w x xs : ho_allocs (sb_host s) = [] -> in_width 64 (w_size w) -> i ∈ xs ->
  pool_inv sitem_ok (mkPool (sb_bpList s) (updated w i (with_status x (sent_status put_ok)))) xs ->
  exists m p, send_submission put_ok i reason loc (with_world s (locked w i x)) =
      inr ((), set_pool (called i (with_status x (sent_status put_ok)) (if put_ok then add_sent s (INPUT_QUEUE, m) else s)) p) /\
    m_type m = MESSAGE_TYPE_BLOCK /\ m_message m = Some (Messages.inj (mkBlockSubmission reason (Some (bp_pEvent x)) loc)) /\
    if reusable x then p = mkPool (sb_bpList s) (updated (drained w (bp_pData x)) i (recycled x (sent_status put_ok)))
    else pool_inv sitem_ok p (others i xs) /\ pool_world p = without w i (with_status x (sent_status put_ok)).
Proof.
  intros Ha Hw Hin Hp. unfold send_submission. smi (load_locked w i x).
  destruct (BlockSubmission_run (bp_pEvent x) reason loc) as (m & Em & Hty & Hbody).
  sm (allocating_nil _ (with_world s (locked w i x)) _ Ha Em). exists m. set (y := with_status x (sent_status put_ok)).
  set (s1 := if put_ok then add_sent s (INPUT_QUEUE, m) else s).
  assert (E1 : (if put_ok then
       update_state (fun s => add_sent s (INPUT_QUEUE, m)) ;; in_items (BlockPool_SetStatus (Some i) BLOCK_POOL_STATUS_FINALIZED)
     else in_items (BlockPool_SetStatus (Some i) BLOCK_POOL_STATUS_ERROR)) (with_world s (locked w i x)) = inr ((), with_world s1 (locked w i y))).
  { unfold s1, y. destruct put_ok; [|exact (in_items_run _ _ _ _ _ (SetStatus_locked _ w i x))].
    exact (in_items_run _ (add_sent s (INPUT_QUEUE, m)) _ _ _ (SetStatus_locked BLOCK_POOL_STATUS_FINALIZED w i x)). }
  sm E1. sm (callback_run i y s1 w). rewrite called_world. smi (load_locked w i y).
  assert (El : sb_bpList s = sb_bpList (called i y s1)) by (rewrite called_list; unfold s1; by destruct put_ok).
  fold (reusable y). unfold y at 1. rewrite reusable_status. destruct (reusable x).
  - smi (SetFlags_locked 0 w i y). fold (with_flags y 0). unfold drop_data. rewrite SM_assoc. smi (load_locked w i (with_flags y 0)).
    rewrite SM_assoc. smi (drain_locked (bp_pData x) w i (with_flags y 0) Hw).
    rewrite SM_assoc. smi (load_locked (drained w (bp_pData x)) i (with_flags y 0)).
    smi (store_locked (drained w (bp_pData x)) i (with_flags y 0) (set_pData (with_flags y 0) [])).
    rewrite (in_items_run _ _ _ _ _ (unlock_locked _ i _)). eexists. split; [|by split_and!].
    by rewrite El.
  - smi (unlock_locked w i y).
    fold y in Hp. rewrite El in Hp.
    destruct (destroy_run (called i y s1) w xs i y Hp Hin) as (p & E & Hp' & Hpw). sm E. by exists p.
Qed.

(** *** A turn of a submission thread *)

(** [s1] is [s] after the last item of the queue of submissions was taken and
    possibly transferred. *)
Record taken s s1 sq' : Prop := {
  tk_list : sb_bpList s1 = sb_bpList s;
  tk_rq : requestQueue s1 = requestQueue s;
  tk_sq : queue_holds (submitQueue s1) sq';
  tk_ts : requestTiming s1 = requestTiming s;
  tk_shared : sb_shared s1 = sb_shared s;
  tk_caches : sb_caches s1 = sb_caches s;
  tk_table : exists es hs, holds nts (sb_table s1) es hs /\ Z.of_nat (length es) < 2 ^ 32;
  tk_memory : ho_allocs (sb_host s1) = [];
  tk_calls : sb_calls s1 = sb_calls s;
  tk_sent : sb_sent s1 = sb_sent s
}.

Section Taken.
Variables (s s1 : Sub) (xs rq sq' : list positive) (ts : list CacheLookupTiming) (i : positive) (x : BlockPoolItem).
Variables (ds : list BlockPoolData) (f : gmap string (list Z)).
Hypothesis Hs : serves s xs rq (sq' ++ [i]) ts.
Hypothesis Htk : taken s s1 sq'.
Hypothesis Hin : i ∈ xs.
Hypothesis Hx : w_items (world s) !! i = Some x.
Hypothesis Hst : status_of x = BLOCK_POOL_STATUS_SUBMIT_DATA.
Hypothesis Hrd : ready x.
Hypothesis Hds : Forall sendable ds.
Hypothesis Hby : data_bytes ds = data_bytes (bp_pData x).

Abbreviation w1 := (set_files (world s) f).
Abbreviation x1 := (set_pData x ds).

Lemma taken_item : (i ∉ rq) /\ NoDup sq' /\ (i ∉ sq') /\ without_time i ts = ts.
Proof.
  assert (Hi : in_state (world s) xs BLOCK_POOL_STATUS_SUBMIT_DATA i) by (split; [done|]; by exists x).
  destruct (NoDup_last _ _ (sv_sq_once _ _ _ _ _ Hs)) as [Hnd Hni]. split_and!; try done.
  - exact (proj1 (not_queued _ _ _ _ _ _ _ Hs Hi) ltac:(done)).
  - exact (not_timed _ _ _ _ _ _ _ Hs Hi ltac:(done) ltac:(done)).
Qed.

Lemma taken_pool x' ds' : sitem_ok x' -> data_bytes (bp_pData x) = data_bytes ds' + item_bytes x' ->
  pool_inv sitem_ok (mkPool (sb_bpList s1) (updated (drained w1 ds') i x')) xs.
Proof.
  intros Hok Hb. rewrite (tk_list _ _ _ Htk). apply (pool_inv_insert _ (sub_pool s)); [apply (sv_pool _ _ _ _ _ Hs)|].
  replace (w_size (drained w1 ds')) with (u64 (w_size (world s) + - data_bytes ds')) by done.
  apply (world_inv_store _ (world s) i x); [exact (po_world _ _ (sv_pool _ _ _ _ _ Hs))|done..|]. unfold item_bytes in *. lia.
Qed.

Lemma taken_status n : Z.land n BLOCK_POOL_STATUS_MASK <> BLOCK_POOL_STATUS_COLLECTING ->
  pool_inv sitem_ok (mkPool (sb_bpList s1) (updated w1 i (with_status x1 n))) xs.
Proof.
  intros Hn. destruct (serves_held _ _ _ _ _ Hs) as [_ Hw]. rewrite <- (drained_nil w1) by done. apply (taken_pool _ []).
  - by apply sitem_status.
  - unfold item_bytes. simpl. by rewrite Hby.
Qed.

Lemma called_taken n s2 : sb_calls (called i (with_status x1 n) s2) = sb_calls (called i (with_status x n) s2).
Proof. done. Qed.

(** It is dropped. *)
Lemma taken_dropped s2 n p : taken s s2 sq' \/ (exists m, s2 = add_sent s1 m) -> pool_inv sitem_ok p (others i xs) ->
  pool_world p = without w1 i (with_status x1 n) ->
  serves (set_pool (called i (with_status x1 n) s2) p) (others i xs) rq sq' ts.
Proof.
  intros Hs2 Hp Hpw. destruct taken_item as (Hnr & Hnd & Hni & Hnt).
  assert (Hf : requestQueue s2 = requestQueue s /\ queue_holds (submitQueue s2) sq' /\ requestTiming s2 = requestTiming s /\
    sb_shared s2 = sb_shared s /\ sb_caches s2 = sb_caches s /\
    (exists es hs, holds nts (sb_table s2) es hs /\ Z.of_nat (length es) < 2 ^ 32) /\ ho_allocs (sb_host s2) = []).
  { destruct Hs2 as [[]|(m & ->)]; [by split_and!|]. destruct Htk. by split_and!. }
  destruct Hf as (E1 & E2 & E3 & E4 & E5 & E6 & E7).
  eapply (serves_dropped s s2 w1); rewrite ?E1, ?E3, ?E4, ?E5, ?E7; try done; try keeps Hs.
  - intros j Hj. split; [done|]. by intros ->.
  - intros j Hj. split; [apply elem_of_app; by left|]. by intros ->.
  - intros t Hj. rewrite <- Hnt in Hj. apply elem_of_without_time in Hj as [? ?]. done.
Qed.

Lemma taken_drop_run : exists s', drop_item i BLOCK_POOL_STATUS_ERROR (with_world s1 (locked w1 i x1)) = inr ((), s') /\
  serves s' (others i xs) rq sq' ts /\ same_but (world s) (world s') i /\ sb_sent s' = sb_sent s /\
  sb_calls s' = sb_calls (called i (with_status x BLOCK_POOL_STATUS_ERROR) s).
Proof.
  destruct (drop_item_run s1 w1 xs i x1 BLOCK_POOL_STATUS_ERROR (taken_status BLOCK_POOL_STATUS_ERROR ltac:(done)) Hin) as (p & E & Hp & Hpw).
  eexists. split; [exact E|]. split; [by apply taken_dropped; [left|..]|].
  split; [unfold world; simpl; rewrite Hpw; exact (same_without w1 i _)|].
  destruct (called_fields i (with_status x1 BLOCK_POOL_STATUS_ERROR) s1 p) as [Ec Es]. rewrite Ec, Es, (tk_sent _ _ _ Htk). split; [done|].
  unfold called. simpl. destruct (bp_submittedCallback x); simpl; by rewrite (tk_calls _ _ _ Htk).
Qed.

(** The message is sent and the item is finished. *)
Lemma taken_send_run (put_ok : bool) reason loc : exists m s', send_submission put_ok i reason loc (with_world s1 (locked w1 i x1)) = inr ((), s') /\
  serves s' (if reusable x then xs else others i xs) rq sq' ts /\ same_but (world s) (world s') i /\
  sb_sent s' = sb_sent s ++ (if put_ok then [(INPUT_QUEUE, m)] else []) /\
  sb_calls s' = sb_calls (called i (with_status x (sent_status put_ok)) s) /\
  m_type m = MESSAGE_TYPE_BLOCK /\ m_message m = Some (Messages.inj (mkBlockSubmission reason (Some (bp_pEvent x)) loc)).
Proof.
  destruct (serves_held _ _ _ _ _ Hs) as [_ Hw]. destruct taken_item as (Hnr & Hnd & Hni & Hnt).
  destruct (send_run put_ok i reason loc s1 w1 x1 xs (tk_memory _ _ _ Htk) Hw Hin (taken_status (sent_status put_ok) ltac:(by destruct put_ok)))
    as (m & p & E & Hty & Hbody & Hp).
  exists m. eexists. split; [exact E|]. set (s2 := if put_ok then _ else s1).
  assert (Hsent : sb_sent s2 = sb_sent s ++ (if put_ok then [(INPUT_QUEUE, m)] else [])).
  { unfold s2. destruct put_ok; simpl; rewrite (tk_sent _ _ _ Htk); [done|by rewrite app_nil_r]. }
  assert (Hcalls : sb_calls s2 = sb_calls s) by (unfold s2; destruct put_ok; apply (tk_calls _ _ _ Htk)).
  destruct (called_fields i (with_status x1 (sent_status put_ok)) s2 p) as [Ec Es]. rewrite Ec, Es, Hsent.
  change (reusable x1) with (reusable x) in Hp. split; [|split_and!; try done].
  2: { unfold world. simpl. destruct (reusable x); [rewrite Hp; exact (same_drained w1 _ i _)|]. destruct Hp as [_ ->]. exact (same_without w1 i _). }
  2: { unfold called; simpl; destruct (bp_submittedCallback x); simpl; by rewrite Hcalls. }
  destruct (reusable x).
  2: { destruct Hp as [Hp Hpw]. apply taken_dropped; [|done..]. unfold s2. destruct put_ok; [right; by eexists|by left]. }
  assert (Hf : requestQueue s2 = requestQueue s /\ queue_holds (submitQueue s2) sq' /\ requestTiming s2 = requestTiming s /\
    sb_shared s2 = sb_shared s /\ sb_caches s2 = sb_caches s /\
    (exists es hs, holds nts (sb_table s2) es hs /\ Z.of_nat (length es) < 2 ^ 32) /\ ho_allocs (sb_host s2) = []).
  { unfold s2. destruct Htk. destruct put_ok; by split_and!. }
  destruct Hf as (E1 & E2 & E3 & E4 & E5 & E6 & E7).
  destruct (called_same i (with_status x1 (sent_status put_ok)) s2) as (F1 & F2 & F3 & F4 & F5 & F6 & F7).
  eapply (serves_item s _ xs xs rq rq (sq' ++ [i]) sq' ts ts i Hs); simpl;
    rewrite ?F1, ?F2, ?F3, ?F4, ?F5, ?F6, ?F7, ?E1, ?E3, ?E4, ?E5, ?E7; try done; try keeps Hs.
  - unfold sub_pool. simpl. rewrite pool_eta, Hp. apply taken_pool.
    + assert (Est : status_of (recycled x1 (sent_status put_ok)) = Z.land (sent_status put_ok) BLOCK_POOL_STATUS_MASK)
        by apply with_flags_status.
      apply settled; rewrite Est; destruct put_ok; unfold in_flight; cbv; intuition discriminate.
    + unfold item_bytes, recycled. simpl. by rewrite Hby, Z.add_0_r.
  - unfold world. simpl. rewrite Hp. exact (same_drained w1 _ i _).
  - intros j _ Hj. apply elem_of_app. by left.
  - intros t Hj Et. rewrite <- Hnt in Hj. apply elem_of_without_time in Hj as [? ?]. done.
Qed.
End Taken.

Lemma taken_popped s xs rq sq' ts i q : serves s xs rq (sq' ++ [i]) ts -> queue_holds q sq' -> taken s (set_submits s q) sq'.
Proof. intros Hs Hq. split; try done; keeps Hs. Qed.

Lemma taken_moved s s1 sq' h t n : taken s s1 sq' -> ho_allocs h = [] -> table_ok t n -> Z.of_nat n < 2 ^ 32 ->
  taken s (set_table (set_host s1 h) t) sq'.
Proof. intros [] Ha (es & hs & Ht & <-) Hn. split; try done. eauto. Qed.

(** What a turn does with the item it takes; [loc] and [loc'] are the localities
    before and after it. *)
Definition turned (put_ok : bool) s s' xs rq sq' ts i x (loc loc' : Z) : Prop :=
  same_but (world s) (world s') i /\
  ((serves s' (others i xs) rq sq' ts /\ Submission_NeedsStore (Some x) = true /\ loc' = loc /\ sb_sent s' = sb_sent s /\
   sb_calls s' = sb_calls (called i (with_status x BLOCK_POOL_STATUS_ERROR) s)) \/
  (exists m, serves s' (if reusable x then xs else others i xs) rq sq' ts /\
   sb_sent s' = sb_sent s ++ (if put_ok then [(INPUT_QUEUE, m)] else []) /\
   sb_calls s' = sb_calls (called i (with_status x (sent_status put_ok)) s) /\ m_type m = MESSAGE_TYPE_BLOCK /\
   if Submission_NeedsStore (Some x) then
     m_message m = Some (Messages.inj (mkBlockSubmission SUBMISSION_REASON_REQUESTED (Some (bp_pEvent x)) loc'))
   else loc' = loc /\ m_message m = Some (Messages.inj (mkBlockSubmission SUBMISSION_REASON_EVENT (Some (bp_pEvent x)) loc)))).

Lemma SubmitTurn_run put_ok pushes loc s xs rq sq ts : serves s xs rq sq ts ->
  exists loc' s', Submission_SubmitTurn sg cfg transports store put_ok pushes loc s = inr ((bool_decide (sq <> []), loc'), s') /\
    match list.last sq with
    | None => s' = s /\ loc' = loc
    | Some i => exists x, w_items (world s) !! i = Some x /\ status_of x = BLOCK_POOL_STATUS_SUBMIT_DATA /\
        turned put_ok s s' xs rq (removelast sq) ts i x loc loc'
    end.
Proof.
  intros Hs. destruct (serves_held _ _ _ _ _ Hs) as [Hh Hw]. unfold Submission_SubmitTurn.
  destruct (last_queue sq) as [->|(sq' & i & -> & El & Er)].
  { sm (pop_empty submitQueue set_submits s (sv_sq _ _ _ _ _ Hs)). eexists _, _. split; [done|]. by destruct s. }
  destruct (pop_run submitQueue set_submits s _ (sv_sq _ _ _ _ _ Hs)) as (q & Eq & Hq). rewrite El in Eq |- *. rewrite Er in Hq |- *.
  sm Eq. rewrite bool_decide_eq_true_2 by (by destruct sq'). pose proof (taken_popped s xs rq sq' ts i q Hs Hq) as Htk.
  pose proof (sv_submit _ _ _ _ _ Hs) as Hr. apply Forall_app in Hr as [_ Hi]. rewrite Forall_singleton in Hi.
  destruct (in_state_item s xs i _ _ _ _ Hs Hi (or_intror (or_intror eq_refl))) as (x & Hin & Hx & Hst & Hrd & Hps).
  rewrite <- (with_world_same (set_submits s q)). change (world (set_submits s q)) with (world s).
  smi (lock_locked (world s) i x Hx Hh). smi (GetStatus_locked (world s) i x). fold (status_of x). rewrite Hst, Z.eqb_refl. cbv iota.
  smi (load_locked (world s) i x).
  unfold turned. unfold Submission_NeedsStore. destruct (Z.land (bp_iStatus x) _ == 0) eqn:En; cbv beta iota delta [negb].
  - destruct (sv_table _ _ _ _ _ Hs) as (es & hs & Ht & Hn).
    destruct (transfer_loop_run pushes i (length es) (set_submits s q) 20 (world s) x
      (set_world (sb_host s) (locked (world s) i x)) (sb_table s) (ex_intro _ es (ex_intro _ hs (conj Ht eq_refl))) Hn eq_refl Hrd Hps
      (sv_memory _ _ _ _ _ Hs)) as (r & h' & t' & ds & f & El' & Ht' & Ha' & Hp' & Hb' & Hw').
    assert (E0 : with_world (set_submits s q) (locked (world s) i x) =
      set_table (set_host (set_submits s q) (set_world (sb_host s) (locked (world s) i x))) (sb_table s)) by (by destruct s).
    rewrite E0. sm El'. clear E0 El'. pose proof (taken_moved _ _ _ h' t' _ Htk Ha' Ht' Hn) as Htk'.
    set (s1 := set_table _ t') in *.
    assert (E1 : s1 = with_world s1 (locked (set_files (world s) f) i (set_pData x ds))).
    { rewrite <- (with_world_same s1) at 1. f_equal. exact Hw'. }
    rewrite E1. destruct r as [d|].
    + destruct (taken_send_run s s1 xs rq sq' ts i x ds f Hs Htk' Hin Hx Hst Hrd Hp' Hb' put_ok SUBMISSION_REASON_REQUESTED (ce_locality d))
        as (m & s' & Es & Hs' & Hsame & Hrest). sm Es. exists (ce_locality d), s'. split; [done|]. exists x. rewrite En. split_and!; [done..|]. right. exists m.
      destruct Hrest as (? & ? & ? & ?). by split_and!.
    + destruct (taken_drop_run s s1 xs rq sq' ts i x ds f Hs Htk' Hin Hx Hst Hrd Hp' Hb') as (s' & Es & Hs' & Hsame & Hrest).
      sm Es. exists loc, s'. split; [done|]. exists x. rewrite En. split_and!; [done..|]. left.
      destruct Hrest as (? & ?). by split_and!.
  - replace (locked (world s) i x) with (locked (set_files (world s) (w_files (world s))) i (set_pData x (bp_pData x))) by (by destruct x).
    destruct (taken_send_run s (set_submits s q) xs rq sq' ts i x (bp_pData x) (w_files (world s)) Hs Htk Hin Hx Hst Hrd Hps eq_refl
      put_ok SUBMISSION_REASON_EVENT loc) as (m & s' & Es & Hs' & Hsame & Hrest). sm Es. exists loc, s'. split; [done|]. exists x. rewrite En.
    split_and!; [done..|]. right. exists m.
      destruct Hrest as (? & ? & ? & ?). by split_and!.
Qed.
End Transfer.

(** *** Responses *)

(** The item after the answer, and the caches that learned it. *)
Definition answered (sf : Z) x : BlockPoolItem :=
  let y := with_status x BLOCK_POOL_STATUS_SUBMIT_DATA in
  if Z.land sf SF_FLAG_CANHAZ != SF_FLAG_CANHAZ then with_flags y (Z.lor (bp_iStatus y) BLOCK_POOL_FLAG_EVENT_ONLY) else y.
Definition answer_type (sf : Z) : CacheType := if Z.land sf SF_FLAG_BAD != 0 then BADHASH else GOODHASH.
Definition learn (sf ent : Z) (d : list Z) (C : CacheType -> CACHE) : CacheType -> CACHE :=
  match addLocalEntry true (Some d) (Z.of_nat K) (Z.land sf (Z.lxor SF_FLAG_CANHAZ SF_FLAG_ALL)) ent (answer_type sf) C with
  | Some (_, C') => C'
  | None => C
  end.

Lemma answered_status sf x : status_of (answered sf x) = BLOCK_POOL_STATUS_SUBMIT_DATA.
Proof. unfold answered. destruct (_ != _); [apply with_flags_status|apply status_of_word]. Qed.

Lemma answered_ok sf x : ready x -> Forall sendable (bp_pData x) -> sitem_ok (answered sf x).
Proof. intros Hr Hp. split; [by rewrite answered_status|]. intros _. unfold answered. by destruct (_ != _). Qed.

Lemma answered_data sf x : bp_pData (answered sf x) = bp_pData x.
Proof. unfold answered. by destruct (_ != _). Qed.

Lemma learn_shape sf ent d C : length d = K -> caches_shape K C ->
  caches_shape K (learn sf ent d C) /\
  addLocalEntry true (Some d) (Z.of_nat K) (Z.land sf (Z.lxor SF_FLAG_CANHAZ SF_FLAG_ALL)) ent (answer_type sf) C =
    Some (R_SUCCESS, learn sf ent d C).
Proof.
  intros Hd HC. unfold learn. assert (Ht : answer_type sf <> ALL) by (unfold answer_type; by destruct (_ != _)).
  destruct (addLocal_shape K C _ d (Z.land sf (Z.lxor SF_FLAG_CANHAZ SF_FLAG_ALL)) ent Ht HC Hd) as (C' & E & HC').
  by rewrite E.
Qed.

Lemma answer_run sf ent s w i x h xs rq sq ts : serves (with_world s w) xs rq sq ts -> i ∈ xs -> w_items w !! i = Some x ->
  status_of x = BLOCK_POOL_STATUS_CHECKING_GLOBAL_CACHE -> item_hash x = Some h ->
  exists s', answer_item sf ent i (with_world s (locked w i x)) = inr ((), with_world s' (locked w i (answered sf x))) /\
    serves (with_world s' (updated w i (answered sf x))) xs rq (sq ++ [i]) (without_time i ts) /\
    sb_caches s' = learn sf ent (digest h) (sb_caches s) /\ sb_calls s' = sb_calls s /\ sb_sent s' = sb_sent s /\ sb_bpList s' = sb_bpList s.
Proof.
  intros Hs Hin Hx Hst Hhash.
  assert (Hi : in_state w xs BLOCK_POOL_STATUS_CHECKING_GLOBAL_CACHE i) by (split; [done|]; by exists x).
  destruct (not_queued _ _ _ _ _ _ _ Hs Hi) as [Hnr Hnq]. specialize (Hnr ltac:(done)). specialize (Hnq ltac:(done)).
  destruct (in_state_item _ xs i _ _ _ _ Hs Hi (or_intror (or_introl eq_refl))) as (x' & _ & Hx' & _ & Hrd & Hps).
  change (w_items w !! i = Some x') in Hx'. rewrite Hx in Hx'. injection Hx' as <-.
  pose proof Hrd as (eid & b & id & h' & _ & Hb & Hid & Hph & Hco & HK & _ & _).
  assert (Hit : item_id x = Some id) by (unfold item_id; by rewrite Hb).
  unfold item_hash in Hhash. rewrite Hit in Hhash. cbn [mbind option_bind] in Hhash. rewrite Hph in Hhash. injection Hhash as ->.
  destruct (hash_key h Hco HK) as (_ & _ & _ & _ & Hd).
  destruct (learn_shape sf ent (digest h) (sb_caches s) Hd (sv_caches _ _ _ _ _ Hs)) as [HC EC].
  unfold answer_item, item_block_id. rewrite SM_assoc. smi (load_locked w i x). sm (sm_deref_run (item_id x) id _ Hit).
  sm (sm_deref_run (bi_pHash id) h _ Hph). sm (allocating_nil alloc (with_world s (locked w i x)) _ (sv_memory _ _ _ _ _ Hs) alloc_ok).
  set (S0 := with_world s (locked w i x)). sm (eq_refl : ask_state S0 = inr (S0, S0)). rewrite add_hash by done.
  change (sb_caches S0) with (sb_caches s).
  change (if if Z.land sf SF_FLAG_BAD == 0 then false else true then BADHASH else GOODHASH) with (answer_type sf). rewrite EC. sm (sm_deref_run (Some (R_SUCCESS, learn sf ent (digest h) (sb_caches s))) _ _ eq_refl).
  set (C1 := learn sf ent (digest h) (sb_caches s)) in *. set (s1 := set_caches s C1).
  sm (eq_refl : update_state (fun s => set_caches s C1) S0 = inr ((), with_world s1 (locked w i x))).
  smi (SetStatus_locked BLOCK_POOL_STATUS_SUBMIT_DATA w i x). fold (with_status x BLOCK_POOL_STATUS_SUBMIT_DATA).
  set (y := with_status x BLOCK_POOL_STATUS_SUBMIT_DATA).
  assert (Ef : (if Z.land sf SF_FLAG_CANHAZ != SF_FLAG_CANHAZ then
      x ← in_items (load i); in_items (BlockPool_SetFlags (Some i) (Z.lor (bp_iStatus x) BLOCK_POOL_FLAG_EVENT_ONLY))
    else mret ()) (with_world s1 (locked w i y)) = inr ((), with_world s1 (locked w i (answered sf x)))).
  { unfold answered. fold y. destruct (_ != _); [|done]. smi (load_locked w i y).
    exact (in_items_run _ _ _ _ _ (SetFlags_locked _ w i y)). }
  sm Ef. destruct (Wait_run i (with_world s1 (locked w i (answered sf x))) ts (sv_ts _ _ _ _ _ Hs) (sv_lock _ _ _ _ _ Hs)) as (q2 & E2 & Hq2).
  sm E2. destruct (push_run submitQueue set_submits (set_timing (with_world s1 (locked w i (answered sf x))) q2) i sq
    (sv_sq _ _ _ _ _ Hs) (sv_memory _ _ _ _ _ Hs)) as (q & E3 & Hq). rewrite E3.
  exists (set_submits (set_timing s1 q2) q). split; [done|]. split; [|done].
  assert (Hst' : in_state (updated w i (answered sf x)) xs BLOCK_POOL_STATUS_SUBMIT_DATA i).
  { split; [done|]. exists (answered sf x). simpl. rewrite lookup_insert_eq. split; [done|]. apply answered_status. }
  eapply (serves_item _ _ xs xs rq rq sq (sq ++ [i]) ts (without_time i ts) i Hs); simpl; try done; try keeps Hs.
  - apply (pool_status _ _ _ _ _ i x _ Hs); [done|by apply answered_ok|apply answered_data].
  - apply same_updated.
  - apply NoDup_app. split_and!; [apply (sv_sq_once _ _ _ _ _ Hs)| |apply NoDup_singleton]. intros j Hj Ej%list_elem_of_singleton. by subst.
  - intros j Hj [?|Ej%list_elem_of_singleton]%elem_of_app; by subst.
  - intros t [? ?]%elem_of_without_time. done.
  - intros t [? ?]%elem_of_without_time. done.
Qed.
End Invariant.
