(* ===== verification/SubmissionRuns.v ===== *)
(** * Runs of the response and shutdown threads of the submission services

    A response is given to every item of the pool that waits for it, in the order of
    the pool ([Response_run]); the end of a context drops the items that still wait
    ([Abandon_run]); the file transport is one the submission can rely on
    ([File_Store_safe]). *)

From S2P Require Import CLib RzbList RzbListProps ListM Hash LibUuid Uuids Ntlv Blocks BlockPool BlockPoolProps PoolThms JsonC JsonBuffer JsonText Messages MessageCodecs CncMessages MessageProps MessageThms CncThms LocalCache Arc LocalCacheProps CacheThms Entities EntitiesProps Transfer TransferProps Submission SubmissionProps Prelude.

Local Open Scope Z_scope.

Lemma filter_cong {A} (P Q : A -> Prop) `{!forall x, Decision (P x)} `{!forall x, Decision (Q x)} (l : list A) :
  (forall x, x ∈ l -> P x <-> Q x) -> filter P l = filter Q l.
Proof.
  induction l as [|x l IH]; intros Hl; [done|]. rewrite !filter_cons, IH by set_solver.
  pose proof (Hl x (list_elem_of_here _ _)). repeat destruct (decide _); naive_solver.
Qed.

Lemma filter_all {A} (P : A -> Prop) `{!forall x, Decision (P x)} (l : list A) : (forall x, x ∈ l -> P x) -> filter P l = l.
Proof. induction l as [|x l IH]; intros Hl; [done|]. rewrite filter_cons, decide_True, IH by set_solver. done. Qed.

Lemma filter_nothing {A} (P : A -> Prop) `{!forall x, Decision (P x)} (l : list A) : (forall x, x ∈ l -> ~ P x) -> filter P l = [].
Proof. induction l as [|x l IH]; intros Hl; [done|]. rewrite filter_cons, decide_False, IH by set_solver. done. Qed.

(** What a turn leaves as it was. *)
Ltac kept Hs := first [exact (sv_rq _ _ _ _ _ _ _ Hs)|exact (sv_sq _ _ _ _ _ _ _ Hs)|exact (sv_ts _ _ _ _ _ _ _ Hs)|
  exact (sv_caches _ _ _ _ _ _ _ Hs)|exact (sv_table _ _ _ _ _ _ _ Hs)|exact (sv_memory _ _ _ _ _ _ _ Hs)|
  exact (sv_rq_once _ _ _ _ _ _ _ Hs)|exact (sv_sq_once _ _ _ _ _ _ _ Hs)].

Section Runs.
Context `{EVPLaws} `{LibUuidLaws}.
Variable nts : list UUIDListNode.
Variable K : nat.
Implicit Types (s : Sub) (w : World) (x : BlockPoolItem) (i j c : positive) (xs ys rq sq : list positive) (ts : list CacheLookupTiming).
Local Abbreviation serves := (serves nts K).

(** ** Responses *)

(** The item waits, in the context [c], for an answer about the block [id]. *)
Definition awaits w c (id : BlockId) i : bool :=
  match w_items w !! i with
  | None => false
  | Some x =>
      (status_of x == BLOCK_POOL_STATUS_CHECKING_GLOBAL_CACHE) && bool_decide (ctx_address (bp_context x) = c) &&
      match BlockId_IsEqual false false (item_id x) (Some id) with Some b => b | None => false end
  end.
Definition awaiting w c (id : BlockId) ys : list positive := filter (fun i => awaits w c id i = true) ys.

Definition without_times (l : list positive) ts : list CacheLookupTiming := foldl (fun ts i => without_time i ts) ts l.
Definition learn_all (sf ent : Z) (d : list Z) (l : list positive) (C : CacheType -> CACHE) : CacheType -> CACHE :=
  foldl (fun C _ => learn K sf ent d C) C l.
Definition id_digest (id : BlockId) : list Z := match bi_pHash id with Some h => digest h | None => [] end.

Lemma awaits_updated w c id i j x : i <> j -> awaits (updated w i x) c id j = awaits w c id j.
Proof. intros Hn. unfold awaits. simpl. by rewrite lookup_insert_ne. Qed.

Lemma awaiting_updated w c id i x ys : i ∉ ys -> awaiting (updated w i x) c id ys = awaiting w c id ys.
Proof.
  intros Hi. unfold awaiting. induction ys as [|y ys IH]; [done|]. rewrite !filter_cons, awaits_updated by set_solver.
  rewrite IH by set_solver. done.
Qed.

(** The item is answered when [b], and left alone otherwise. *)
Definition answered_if (b : bool) sf x : BlockPoolItem := if b then answered sf x else x.
Definition handles (b : bool) sf ent (id : BlockId) i x (n : Z) s w xs rq sq ts (r : option (Z * Response * (fault + World))) : Prop :=
  exists s', r = Some (LIST_EACH_OK, mkResponse (if b then u32 (n + 1) else n) s', inr (locked w i (answered_if b sf x))) /\
    serves (with_world s' (updated w i (answered_if b sf x))) xs rq (if b then sq ++ [i] else sq) (if b then without_time i ts else ts) /\
    sb_caches s' = (if b then learn K sf ent (id_digest id) (sb_caches s) else sb_caches s) /\
    sb_calls s' = sb_calls s /\ sb_sent s' = sb_sent s /\ sb_bpList s' = sb_bpList s.

Lemma updated_same w i x : w_items w !! i = Some x -> w_held w = [] -> updated w i x = w.
Proof. intros Hx Hh. unfold updated. rewrite insert_id by done. destruct w. simpl in *. by subst. Qed.

(** The locks of the iteration. *)
Lemma lock_unit w i x : w_items w !! i = Some x -> w_held w = [] -> run_unit (BlockPool_Item_Lock i) (inr w) = inr (locked w i x).
Proof. intros Hx Hh. simpl. by rewrite (lock_locked w i x). Qed.

Lemma unlock_unit w i x : run_unit (BlockPool_Item_Unlock i) (inr (locked w i x)) = inr (updated w i x).
Proof. simpl. by rewrite (unlock_locked w i x). Qed.

(** What the handler does with one item: nothing unless it awaits the answer. *)
Lemma handler_run c id sf ent i x n s w xs rq sq ts : serves (with_world s w) xs rq sq ts -> i ∈ xs -> id_ok id ->
  w_items w !! i = Some x -> handles (awaits w c id i) sf ent id i x n s w xs rq sq ts
    (Submission_GlobalCache_ResponseHandler c (Some id) sf ent i (mkResponse n s) (inr (locked w i x))).
Proof.
  intros Hs Hin Hok Hx. destruct (serves_held nts K _ _ _ _ _ Hs) as [Hh _].
  assert (Hno : handles false sf ent id i x n s w xs rq sq ts (Some (LIST_EACH_OK, mkResponse n s, inr (locked w i x)))).
  { exists s. unfold answered_if. rewrite updated_same by done. by split_and!. }
  unfold Submission_GlobalCache_ResponseHandler. rewrite load_locked. fold (status_of x).
  unfold awaits. rewrite Hx. destruct (status_of x == BLOCK_POOL_STATUS_CHECKING_GLOBAL_CACHE) eqn:Est; cbn [negb andb]; [|exact Hno].
  apply Z.eqb_eq in Est. destruct (decide (ctx_address (bp_context x) = c)) as [Hc|Hc].
  2: { rewrite decide_True, bool_decide_eq_false_2 by done. exact Hno. }
  rewrite decide_False by (by intros Hn). rewrite bool_decide_eq_true_2 by done. cbn [andb].
  assert (Hi : in_state (world (with_world s w)) xs BLOCK_POOL_STATUS_CHECKING_GLOBAL_CACHE i) by (split; [done|]; by exists x).
  destruct (in_state_item nts K _ xs i _ _ _ _ Hs Hi (or_intror (or_introl eq_refl))) as (x' & _ & Hx' & _ & Hrd & _).
  change (w_items w !! i = Some x') in Hx'. rewrite Hx in Hx'. injection Hx' as <-.
  pose proof Hrd as (eid & b & id' & h & _ & Hb & Hid & Hph & Hco & HK & Hl & _).
  assert (Hit : item_id x = Some id') by (unfold item_id; by rewrite Hb).
  rewrite Hb, Hit. cbn [mbind option_bind]. rewrite Hid.
  destruct (BlockId_IsEqual_iff id' id (conj (ex_intro _ h (conj Hph Hco)) Hl) Hok) as (r & Er & Hr). rewrite Er.
  destruct r; [|exact Hno].
  destruct (proj1 Hr eq_refl) as (_ & _ & h1 & h2 & E1 & E2 & Hd & _).
  rewrite Hph in E1. injection E1 as <-.
  assert (Hhash : item_hash x = Some h) by (unfold item_hash; rewrite Hit; exact Hph).
  destruct (answer_run nts K sf ent s w i x h xs rq sq ts Hs Hin Hx Est Hhash) as (s' & E & Hs' & HC & Hca & Hse & Hbl).
  exists (with_world s' (locked w i (answered sf x))). unfold in_iteration. cbn [rs_sub rs_matchedCount].
  fold (with_world s (locked w i x)). rewrite E. split; [done|]. split; [exact Hs'|]. split_and!; try done.
  change (sb_caches s' = learn K sf ent (id_digest id) (sb_caches s)). rewrite HC. unfold id_digest. by rewrite E2, Hd.
Qed.

(** The handler over a part of the pool. *)
Lemma response_scan c id sf ent xs rq ys : id_ok id -> NoDup ys -> (forall i, i ∈ ys -> i ∈ xs) ->
  forall n s w sq ts, serves (with_world s w) xs rq sq ts -> let l := awaiting w c id ys in
  exists n' s' w', spec.scan (Submission_GlobalCache_ResponseHandler c (Some id) sf ent)
      (Some (fun i => run_unit (BlockPool_Item_Lock i))) (Some (fun i => run_unit (BlockPool_Item_Unlock i)))
      ys (mkResponse n s) (inr w) true = Some (true, replicate (length ys) false, mkResponse n' s', inr w') /\
    serves (with_world s' w') xs rq (sq ++ l) (without_times l ts) /\
    sb_caches s' = learn_all sf ent (id_digest id) l (sb_caches s) /\
    sb_calls s' = sb_calls s /\ sb_sent s' = sb_sent s /\ sb_bpList s' = sb_bpList s /\
    (forall i, w_items w' !! i = answered_if (bool_decide (i ∈ l)) sf <$> w_items w !! i).
Proof.
  intros Hok Hnd Hsub. induction Hnd as [|i ys Hi Hnd IH]; intros n s w sq ts Hs l.
  { exists n, s, w. change l with (@nil positive). rewrite app_nil_r. split_and!; try done. intros i.
    rewrite bool_decide_eq_false_2 by set_solver. by destruct (w_items w !! i). }
  assert (Hin : i ∈ xs) by set_solver. destruct (serves_held nts K _ _ _ _ _ Hs) as [Hh _]. change (w_held w = []) in Hh.
  destruct (proj1 (Forall_forall _ _) (pi_live _ _ _ (sv_pool _ _ _ _ _ _ _ Hs)) i Hin) as [x Hx]. change (w_items w !! i = Some x) in Hx.
  destruct (handler_run c id sf ent i x n s w xs rq sq ts Hs Hin Hok Hx) as (s1 & E & Hs1 & HC & Hca & Hse & Hbl).
  cbn [spec.scan run_callback]. rewrite (lock_unit w i x Hx Hh), E. cbn [mbind option_bind].
  rewrite unlock_unit. cbn [Z.eqb]. set (b := awaits w c id i) in *.
  destruct (IH ltac:(set_solver) (if b then u32 (n + 1) else n) s1 _ _ _ Hs1) as (n' & s' & w' & E' & Hs' & HC' & Hca' & Hse' & Hbl' & Hw').
  rewrite awaiting_updated in Hs', HC', Hw' by done. rewrite E'. cbn [mbind option_bind].
  assert (El : l = (if b then [i] else []) ++ awaiting w c id ys).
  { subst l. unfold awaiting. rewrite filter_cons. fold b. by destruct b. }
  exists n', s', w'. split; [done|]. split; [|split].
  - rewrite El. destruct b; [|done]. by rewrite app_assoc.
  - rewrite HC', HC, El. by destruct b.
  - split_and!; [congruence..|]. intros j. rewrite Hw', El. simpl. destruct (decide (j = i)) as [->|Hne].
    + rewrite lookup_insert_eq, Hx. cbn [fmap option_fmap option_map]. f_equal.
      assert (Hni : i ∉ awaiting w c id ys) by (intros [_ ?]%list_elem_of_filter; done).
      rewrite (bool_decide_eq_false_2 _ Hni). destruct b; cbn [answered_if].
      * by rewrite bool_decide_eq_true_2 by set_solver.
      * by rewrite bool_decide_eq_false_2 by done.
    + rewrite lookup_insert_ne by done. f_equal. f_equal. apply bool_decide_ext. destruct b; set_solver.
Qed.

(** A turn of a response thread. *)
Lemma Response_run context m resp id s xs rq sq ts : serves s xs rq sq ts ->
  m_type m = MESSAGE_TYPE_RESP -> m_message m = Some (Messages.inj (resp : MessageCacheResp)) -> cr_pId resp = Some id -> id_ok id ->
  let l := awaiting (world s) (ctx_address context) id xs in
  exists s', Submission_GlobalCache_Response context m s = inr (true, s') /\
    serves s' xs rq (sq ++ l) (without_times l ts) /\
    sb_caches s' = learn_all (cr_iSfFlags resp) (cr_iEntFlags resp) (id_digest id) l (sb_caches s) /\
    sb_calls s' = sb_calls s /\ sb_sent s' = sb_sent s /\
    (forall i, w_items (world s') !! i = answered_if (bool_decide (i ∈ l)) (cr_iSfFlags resp) <$> w_items (world s) !! i).
Proof.
  intros Hs Hty Hm Hid Hok l. unfold Submission_GlobalCache_Response. rewrite Hty, Hm. cbn [negb Z.eqb].
  set (c := ctx_address context) in *. cbn [mbind option_bind]. rewrite Z.eqb_refl. cbn [negb].
  rewrite (SM_bind_inr _ _ _ resp s) by done. rewrite Hid. unfold BlockPool_ForEachItem.
  destruct (pi_list _ _ _ (sv_pool _ _ _ _ _ _ _ Hs)) as (bl & El & Hsh & Hc).
  set (op := Submission_GlobalCache_ResponseHandler c (Some id) (cr_iSfFlags resp) (cr_iEntFlags resp)).
  pose proof (ForEach_contents op bl xs (mkResponse 0 s) (inr (pool_world (sub_pool s))) Hc) as Hfe.
  unfold spec.for_each in Hfe. rewrite (ps_lock _ Hsh), (ps_unlock _ Hsh), (ps_destroy _ Hsh) in Hfe.
  assert (Hs0 : serves (with_world s (world s)) xs rq sq ts) by (by rewrite with_world_same).
  destruct (response_scan c id (cr_iSfFlags resp) (cr_iEntFlags resp) xs rq xs Hok (pi_nodup _ _ _ (sv_pool _ _ _ _ _ _ _ Hs))
    ltac:(done) 0 s (world s) sq ts Hs0) as (n' & s' & w' & E & Hs' & HC & Hca & Hse & Hbl & Hw).
  fold op in E. change (pool_world (sub_pool s)) with (world s) in *. rewrite E in Hfe. cbn [mbind option_bind] in Hfe.
  destruct (select_none xs) as [E1 E2]. rewrite E1, E2 in Hfe.
  destruct Hfe as (l' & El' & _ & _ & _ & Hfid). rewrite (Hfid eq_refl) in El'. rewrite El, El'. cbn [rs_sub spec.destroy_all foldl].
  exists (with_world s' w'). split; [|done]. do 2 f_equal. unfold set_pool, with_world. simpl.
  change (sb_bpList s = Some bl) in El. rewrite <- El, <- Hbl. done.
Qed.

(** ** Shutdown *)

(** The item of the context waits for an answer. *)
Definition stuck w c i : bool :=
  match w_items w !! i with
  | None => false
  | Some x => bool_decide (ctx_address (bp_context x) = c) && (status_of x == BLOCK_POOL_STATUS_CHECKING_GLOBAL_CACHE)
  end.
Definition stuck_items w c xs : list positive := filter (fun i => stuck w c i = true) xs.
Definition free_items w c xs : list positive := filter (fun i => stuck w c i = false) xs.

Lemma FindStuck_run w c i x found : w_items w !! i = Some x ->
  Submission_FindStuckCacheLookup c i found (inr (locked w i x)) =
  Some (if stuck w c i then LIST_EACH_END else LIST_EACH_OK, if stuck w c i then Some i else found, inr (locked w i x)).
Proof.
  intros Hx. unfold Submission_FindStuckCacheLookup, stuck. rewrite load_locked, Hx. fold (status_of x).
  destruct (decide (ctx_address (bp_context x) = c)) as [E|E].
  - rewrite decide_False, bool_decide_eq_true_2 by (done || by intros ?). by destruct (_ == _).
  - by rewrite decide_True, bool_decide_eq_false_2 by done.
Qed.

Lemma stuck_scan w c ys : w_held w = [] -> Forall (fun i => is_Some (w_items w !! i)) ys ->
  spec.scan (Submission_FindStuckCacheLookup c)
    (Some (fun i => run_unit (BlockPool_Item_Lock i))) (Some (fun i => run_unit (BlockPool_Item_Unlock i)))
    ys None (inr w) true = Some (true, replicate (length ys) false, find_first (stuck w c) ys, inr w).
Proof.
  intros Hh. induction 1 as [|i ys [x Hx] _ IH]; [done|]. cbn [spec.scan run_callback find_first].
  rewrite (lock_unit w i x Hx Hh), (FindStuck_run w c i x None Hx). cbn [mbind option_bind]. rewrite unlock_unit, updated_same by done.
  destruct (stuck w c i); cbn [Z.eqb]; [done|]. by rewrite IH.
Qed.

Lemma FindStuck_first context s xs rq sq ts : serves s xs rq sq ts ->
  on_pool (BlockPool_ForEachItem (Submission_FindStuckCacheLookup (ctx_address context)) None) s =
  inr (find_first (stuck (world s) (ctx_address context)) xs, s).
Proof.
  intros Hs. destruct (sv_pool _ _ _ _ _ _ _ Hs) as [(l & El & Hsh & Hc) _ Hlive Hw]. unfold on_pool, BlockPool_ForEachItem. rewrite El.
  pose proof (ForEach_contents (Submission_FindStuckCacheLookup (ctx_address context)) l xs None (inr (world s)) Hc) as Hfe.
  unfold spec.for_each in Hfe. rewrite (ps_lock _ Hsh), (ps_unlock _ Hsh), (ps_destroy _ Hsh) in Hfe.
  rewrite (stuck_scan _ _ _ (wo_held _ Hw) Hlive) in Hfe. cbn [mbind option_bind] in Hfe.
  destruct (select_none xs) as [E1 E2]. rewrite E1, E2 in Hfe. destruct Hfe as (l' & El' & _ & _ & _ & Hid).
  rewrite (Hid eq_refl) in El'. change (pool_world (sub_pool s)) with (world s). rewrite El'. cbn [spec.destroy_all foldl].
  change (sb_bpList s = Some l) in El. rewrite <- El. by destruct s as [? [] ? ? ? ? ? ? ? ?].
Qed.

(** The calls for an item that is dropped. *)
Definition call_of i x : list (positive * positive * Z) :=
  match bp_submittedCallback x with Some f => [(f, i, bp_iStatus x)] | None => [] end.
Definition calls_of w (n : Z) (l : list positive) : list (positive * positive * Z) :=
  flat_map (fun i => match w_items w !! i with Some x => call_of i (with_status x n) | None => [] end) l.

Lemma called_calls i x s : sb_calls (called i x s) = sb_calls s ++ call_of i x.
Proof. unfold called, call_of. destruct (bp_submittedCallback x); [done|]. by rewrite app_nil_r. Qed.

(** One turn of the loop. *)
Lemma abandon_one context s xs rq sq ts i x fuel n : serves s xs rq sq ts -> i ∈ xs -> w_items (world s) !! i = Some x ->
  find_first (stuck (world s) (ctx_address context)) xs = Some i -> stuck (world s) (ctx_address context) i = true ->
  exists s', Submission_AbandonStuckContextCacheLookups (S fuel) context n s =
      Submission_AbandonStuckContextCacheLookups fuel context (u64 (n + 1)) s' /\
    serves s' (others i xs) rq sq (without_time i ts) /\ world s' = without (world s) i (with_status x BLOCK_POOL_STATUS_ERROR) /\
    sb_calls s' = sb_calls s ++ call_of i (with_status x BLOCK_POOL_STATUS_ERROR) /\ sb_sent s' = sb_sent s /\ sb_caches s' = sb_caches s.
Proof.
  intros Hs Hin Hx Hf Hst. destruct (serves_held nts K _ _ _ _ _ Hs) as [Hh Hw]. cbn [Submission_AbandonStuckContextCacheLookups].
  sm (FindStuck_first context s xs rq sq ts Hs). rewrite Hf.
  unfold stuck in Hst. rewrite Hx in Hst. apply andb_true_iff in Hst as [Hc%bool_decide_eq_true Hst%Z.eqb_eq].
  assert (Hi : in_state (world s) xs BLOCK_POOL_STATUS_CHECKING_GLOBAL_CACHE i) by (split; [done|]; by exists x).
  destruct (not_queued nts K _ _ _ _ _ _ _ Hs Hi) as [Hnr Hnq]. specialize (Hnr ltac:(done)). specialize (Hnq ltac:(done)).
  destruct (in_state_item nts K _ xs i _ _ _ _ Hs Hi (or_intror (or_introl eq_refl))) as (x' & _ & Hx' & _ & Hrd & Hps).
  rewrite Hx in Hx'. injection Hx' as <-.
  assert (E0 : in_items (BlockPool_Item_Lock i) s = inr ((), with_world s (locked (world s) i x))).
  { rewrite <- (with_world_same s) at 1. exact (in_items_run _ _ _ _ _ (lock_locked (world s) i x Hx Hh)). }
  sm E0. clear E0. smi (load_locked (world s) i x). fold (status_of x). rewrite Hst, bool_decide_eq_true_2 by done. rewrite Z.eqb_refl. cbn [negb orb].
  destruct (Clear_run i (with_world s (locked (world s) i x)) ts (sv_ts _ _ _ _ _ _ _ Hs) (sv_lock _ _ _ _ _ _ _ Hs)) as (q & E & Hq).
  sm E. clear E. set (s1 := set_timing s q). change (set_timing (with_world s (locked (world s) i x)) q) with (with_world s1 (locked (world s) i x)).
  smi (SetStatus_locked BLOCK_POOL_STATUS_ERROR (world s) i x). fold (with_status x BLOCK_POOL_STATUS_ERROR).
  set (y := with_status x BLOCK_POOL_STATUS_ERROR). smi (unlock_locked (world s) i y).
  assert (Ecb : submittedCallback i (with_world s1 (updated (world s) i y)) = inr ((), with_world (called i y s1) (updated (world s) i y))).
  { unfold submittedCallback. smi (load_run i y (updated (world s) i y) (lookup_insert_eq _ _ _)). rewrite <- called_world. unfold called.
    by destruct (bp_submittedCallback y). }
  sm Ecb.
  assert (Hpool : pool_inv (sitem_ok K) (mkPool (sb_bpList (called i y s1)) (updated (world s) i y)) xs).
  { rewrite called_list. apply (pool_status nts K _ _ _ _ _ i x y Hs); [done| |done]. by apply sitem_status. }
  destruct (destroy_run K (called i y s1) (world s) xs i y Hpool Hin) as (p & Ed & Hp & Hpw). sm Ed.
  eexists. split; [done|]. destruct (called_fields i y s1 p) as [Ec Es].
  split_and!; [|exact Hpw|by rewrite Ec, called_calls|by rewrite Es|by destruct (called_same i y s1) as (_ & _ & _ & _ & ? & _)].
  eapply (serves_dropped nts K s s1 (world s)); try done; try kept Hs.
  - intros j Hj. split; [done|]. by intros ->.
  - intros j Hj. split; [done|]. by intros ->.
  - intros t [? ?]%elem_of_without_time. done.
Qed.

Lemma stuck_without w c i j x : i <> j -> stuck (without w i x) c j = stuck w c j.
Proof. intros Hn. unfold stuck. simpl. by rewrite lookup_delete_ne. Qed.

Lemma others_fresh i xs : i ∉ xs -> others i xs = xs.
Proof. intros Hi. apply filter_all. intros j Hj. apply bool_decide_eq_false. by intros ->. Qed.

Lemma others_cons i y xs : NoDup (y :: xs) -> others i (y :: xs) = if decide (y = i) then xs else y :: others i xs.
Proof.
  intros [Hy _]%NoDup_cons. unfold others at 1. rewrite filter_cons. destruct (decide (y = i)) as [->|Hne].
  - rewrite decide_False by (by rewrite bool_decide_eq_true_2). fold (others i xs). by apply others_fresh.
  - by rewrite decide_True by (by rewrite bool_decide_eq_false_2).
Qed.

Lemma find_stuck w c xs i : NoDup xs -> find_first (stuck w c) xs = Some i ->
  i ∈ xs /\ stuck w c i = true /\ stuck_items w c xs = i :: stuck_items w c (others i xs) /\ free_items w c xs = free_items w c (others i xs).
Proof.
  intros Hnd. induction xs as [|y xs IH]; [done|]. pose proof (proj1 (NoDup_cons _ _) Hnd) as [Hy Hnd'].
  cbn [find_first]. rewrite others_cons by done. destruct (stuck w c y) eqn:E.
  - intros [= ->]. rewrite decide_True by done. unfold stuck_items, free_items. rewrite !filter_cons, !E.
    split_and!; try done. apply list_elem_of_here.
  - intros Hf. destruct (IH Hnd' Hf) as (Hin & Hs & E1 & E2). rewrite decide_False by congruence.
    unfold stuck_items, free_items in *. rewrite !filter_cons, !E, E1, E2. split_and!; try done. by apply list_elem_of_further.
Qed.

Lemma stuck_items_without w c i x xs : stuck_items (without w i x) c (others i xs) = stuck_items w c (others i xs) /\
  free_items (without w i x) c (others i xs) = free_items w c (others i xs).
Proof.
  unfold stuck_items, free_items. split; apply filter_cong; intros j [_ Hj]%elem_of_others; by rewrite stuck_without.
Qed.

Lemma calls_of_without w i x n l : i ∉ l -> calls_of (without w i x) n l = calls_of w n l.
Proof.
  intros Hi. unfold calls_of. induction l as [|j l IH]; [done|]. cbn [flat_map]. rewrite IH by set_solver.
  f_equal. simpl. by rewrite lookup_delete_ne by set_solver.
Qed.

(** The loop drops every item of the context that waits, and ends. *)
Lemma Abandon_run context fuel : forall s xs rq sq ts n, serves s xs rq sq ts ->
  let c := ctx_address context in let l := stuck_items (world s) c xs in (length l < fuel)%nat ->
  exists s', Submission_AbandonStuckContextCacheLookups fuel context n s = inr (Some (Nat.iter (length l) (fun n => u64 (n + 1)) n), s') /\
    serves s' (free_items (world s) c xs) rq sq (without_times l ts) /\
    sb_calls s' = sb_calls s ++ calls_of (world s) BLOCK_POOL_STATUS_ERROR l /\ sb_sent s' = sb_sent s /\ sb_caches s' = sb_caches s /\
    (forall i, i ∉ l -> w_items (world s') !! i = w_items (world s) !! i).
Proof.
  induction fuel as [|fuel IH]; intros s xs rq sq ts n Hs c l Hl; [lia|].
  pose proof (pi_nodup _ _ _ (sv_pool _ _ _ _ _ _ _ Hs)) as Hnd.
  destruct (find_first (stuck (world s) c) xs) as [i|] eqn:Ef.
  - destruct (find_stuck _ _ _ _ Hnd Ef) as (Hin & Hst & E1 & E2).
    destruct (proj1 (Forall_forall _ _) (pi_live _ _ _ (sv_pool _ _ _ _ _ _ _ Hs)) i Hin) as [x Hx].
    change (w_items (world s) !! i = Some x) in Hx. destruct (abandon_one context s xs rq sq ts i x fuel n Hs Hin Hx Ef Hst) as (s1 & E & Hs1 & Hw1 & Hc1 & Hm1 & Hk1).
    set (y := with_status x BLOCK_POOL_STATUS_ERROR) in *. destruct (stuck_items_without (world s) c i y xs) as [E3 E4].
    destruct (IH s1 (others i xs) rq sq (without_time i ts) (u64 (n + 1)) Hs1) as (s' & E' & Hs' & Hc' & Hm' & Hk' & Hw').
    { fold c. rewrite Hw1, E3. unfold l in Hl. rewrite E1 in Hl. simpl in Hl. lia. }
    fold c in E', Hs', Hc', Hw'. rewrite Hw1, E3 in E', Hc', Hw'. rewrite Hw1, E3, E4 in Hs'.
    assert (El : l = i :: stuck_items (world s) c (others i xs)) by done.
    assert (Hni : i ∉ stuck_items (world s) c (others i xs)) by (intros [_ [_ ?]%elem_of_others]%list_elem_of_filter; done).
    exists s'. rewrite El. cbn [length]. rewrite Nat.iter_succ_r. split_and!; try congruence.
    + by rewrite E2.
    + rewrite Hc', Hc1, calls_of_without by done. cbn [calls_of flat_map]. rewrite Hx. by rewrite <- app_assoc.
    + intros j [Hj Hj']%not_elem_of_cons. rewrite Hw' by done. simpl. by rewrite lookup_delete_ne.
  - apply find_first_None in Ef. assert (El : l = []).
    { apply filter_nothing. intros i Hi. rewrite Forall_forall in Ef. by rewrite Ef. }
    assert (Efr : free_items (world s) c xs = xs).
    { apply filter_all. intros i Hi. rewrite Forall_forall in Ef. by apply Ef. }
    exists s. rewrite El, Efr. cbn [Submission_AbandonStuckContextCacheLookups]. sm (FindStuck_first context s xs rq sq ts Hs).
    fold c. assert (Ef' : find_first (stuck (world s) c) xs = None) by (by apply find_first_None). rewrite Ef'.
    split_and!; try done. by rewrite app_nil_r.
Qed.
End Runs.

(** ** The file transport *)

Section File.
Context `{EVPLaws} `{LibUuidLaws}.
Variable K : nat.
Implicit Types (h : Host) (path : string) (d : BlockPoolData).

Lemma int_of_le n : 0 <= n -> int_of n <= n.
Proof.
  intros Hn. unfold int_of, u32, wrap. pose proof (Z.mod_le n (2 ^ 32) Hn ltac:(lia)). pose proof (Z.mod_pos_bound n (2 ^ 32) ltac:(lia)).
  destruct (Z.ltb_spec (n mod 2 ^ 32) (2 ^ 31)); lia.
Qed.

Lemma writeWrap_safe path old data n h : file_at h path = Some old -> 0 <= n <= Z.of_nat (length data) ->
  exists ok bs ws, writeWrap path (Some data) n h = inr (ok, wrote h path bs ws).
Proof.
  intros Hf Hn. unfold writeWrap. destruct (Z.leb_spec (int_of n) 0).
  { exists true, old, (ho_writes h). by rewrite wrote_same. }
  pose proof (int_of_le n ltac:(lia)).
  assert (Er : read_bytes data (int_of n) = Some (take (Z.to_nat (int_of n)) data)).
  { unfold read_bytes. by destruct (Z.ltb_spec (Z.of_nat (length data)) (int_of n)); [lia|]. }
  rewrite (HM_bind_inr _ _ _ _ _ (pointee_run _ _ h Er)).
  rewrite (HM_bind_inr _ _ _ _ _ (eq_refl : contents_of path h = inr (file_at h path, h))), Hf.
  rewrite (HM_bind_inr _ _ _ _ _ (eq_refl : host h = inr (h, h))).
  destruct (write_loop (ho_writes h) _ []) as [[ok written] ws]. by eexists ok, _, ws.
Qed.

(** A copy only moves the position. *)
Lemma copy_loop_data path fuel : forall f h ok f' h', copy_loop fuel path f h = inr ((ok, f'), h') ->
  f_data f' = f_data f /\ f_err f' = f_err f.
Proof.
  induction fuel as [|fuel IH]; intros f h ok f' h'; cbn [copy_loop]; [by intros [= <- <- <-]|].
  unfold fread. destruct (take 4096 (f_rest f)) as [|b chunk]; [by intros [= <- <- <-]|].
  unfold mbind, HM_bind. destruct (writeWrap _ _ _ h) as [|[[] h1]]; [done| |by intros [= <- <- <-]].
  intros E. apply IH in E as [? ?]. done.
Qed.

Lemma store_piece_safe path old d h : file_at h path = Some old -> sendable d ->
  exists ok bs ws d', store_piece path d h = inr ((ok, d'), wrote h path bs ws) /\ sendable d' /\ bd_iLength d' = bd_iLength d.
Proof.
  intros Hf [((p & Hp & Hn & Hl) & Hfl)|(Hfl & Hp & c & n & Hc & Hl)]; unfold store_piece.
  - destruct (Z.eqb_spec (bd_iFlags d) BLOCK_POOL_DATA_FLAG_FILE); [done|]. rewrite Hp.
    destruct (writeWrap_safe path old p (bd_iLength d) h Hf Hl) as (ok & bs & ws & E). rewrite (HM_bind_inr _ _ _ _ _ E).
    exists ok, bs, ws, d. split_and!; [done| |done]. left. split; [|done]. by exists p.
  - rewrite Hfl, Z.eqb_refl, Hc. rewrite (HM_bind_inr _ _ _ _ _ (pointee_run (Some (mkFile c n None)) _ h eq_refl)).
    destruct (copy_loop_run path (S (length c)) h old (mkFile c n None) Hf) as (ok & k & ws & f' & E & _).
    { unfold f_rest. simpl. rewrite length_drop. lia. }
    destruct (copy_loop_data _ _ _ _ _ _ _ E) as [Ed Ee]. simpl in Ed, Ee. rewrite (HM_bind_inr _ _ _ _ _ E).
    eexists ok, _, ws, _. split; [reflexivity|]. split; [|done]. right. split_and!; [done..|].
    exists c. destruct f' as [c' n' e']. simpl in Ed, Ee. subst. destruct ok; [by exists 0%nat|by exists n'].
Qed.

Lemma store_data_safe path ds : forall h old, file_at h path = Some old -> Forall sendable ds ->
  exists ok bs ws ds', store_data path ds h = inr ((ok, ds'), wrote h path bs ws) /\ Forall sendable ds' /\ data_bytes ds' = data_bytes ds.
Proof.
  induction ds as [|d ds IH]; intros h old Hf Hs.
  { exists true, old, (ho_writes h), []. by rewrite wrote_same. }
  apply Forall_cons in Hs as [Hd Hds]. rewrite store_data_eq.
  destruct (store_piece_safe path old d h Hf Hd) as (ok & bs & ws & d' & E & Hd' & Hl). rewrite (HM_bind_inr _ _ _ _ _ E).
  destruct ok.
  - destruct (IH (wrote h path bs ws) bs (wrote_file _ _ _ _) Hds) as (ok & bs' & ws' & ds' & E' & Hds' & Hl').
    rewrite (HM_bind_inr _ _ _ _ _ E'), wrote_wrote. exists ok, bs', ws', (d' :: ds'). split_and!; [done|by constructor|].
    unfold data_bytes in *. simpl. lia.
  - exists false, bs, ws, (d' :: ds). split_and!; [done|by constructor|]. unfold data_bytes. simpl. lia.
Qed.

Lemma stored_aside h h' i x : aside h h' -> w_items (ho_world h) !! i = Some x -> Forall sendable (bp_pData x) -> ho_allocs h = [] ->
  stored_by h i x h' (bp_pData x).
Proof.
  intros A Hx Hp Ha. destruct (stored_by_refl h i x Hx Hp Ha) as (_ & _ & _ & f & Hw). split_and!; [by apply A|done..|].
  exists f. by rewrite (as_world _ _ A).
Qed.

(** The file transport is one the submission can use. *)
Global Instance File_Store_safe base : nul_free base = true ->
  TransportSafe K (fun _ i _ => Transfer_File_Store base (Some i)).
Proof.
  intros Hn trans i e h x Hx (eid & b & id & hash & _ & Hb & Hid & Hh & Hc & _ & Hl & _) Hp Ha.
  assert (Hit : item_id x = Some id) by (unfold item_id; by rewrite Hb).
  destruct (File_Store_front base i x id hash h Hx Hit Hh Hc ltac:(unfold in_width in Hl; lia) Hn Ha) as (r & h1 & A1 & _ & ->).
  destruct r; [|eexists _, h1, _; split; [done|by apply stored_aside]].
  set (path := block_file base (name_of id hash)).
  destruct (open_file_run path h1) as (r & h2 & E2 & A2 & Ha2 & _). rewrite (HM_bind_inr _ _ _ _ _ E2).
  pose proof (aside_trans _ _ _ A1 A2) as A12.
  destruct r as [bs|]; [eexists _, h2, _; split; [done|by apply stored_aside]|].
  destruct (syscall_run h2) as (ok & o & E3 & Ho). rewrite (HM_bind_inr _ _ _ _ _ E3).
  assert (A3 : aside h (set_sys h2 o)) by (destruct A12; split; [done..|]; intros Hs; by apply Ho; auto).
  destruct ok; cbn [negb]; [|eexists _, _, _; split; [done|by apply stored_aside]].
  set (h3 := set_sys h2 o) in *.
  rewrite (HM_bind_inr _ _ _ _ _ (eq_refl : set_contents path [] h3 = inr ((), wrote h3 path [] (ho_writes h3)))).
  destruct (store_data_safe path (bp_pData x) (wrote h3 path [] (ho_writes h3)) [] (wrote_file _ _ _ _) Hp) as (ok & bs & ws & ds & E & Hds & Hbs).
  rewrite (HM_bind_inr _ _ _ _ _ E), wrote_wrote.
  rewrite (HM_bind_inr _ _ _ _ _ (in_pool_run _ (wrote h3 path bs ws) _ _ (store_run i (set_pData x ds) _))).
  eexists _, _, ds. split; [reflexivity|]. split_and!; [by apply (as_allocs _ _ A3)|done..|].
  eexists. cbn. rewrite (as_world _ _ A12). reflexivity.
Qed.
End File.
