(* ===== verification/SubmissionThms.v ===== *)
(** * Theorems about the submission of blocks

    The services start with all their resources or none; from there every sequence of
    turns of the threads keeps the invariant and every turn returns; what becomes of a
    submission, a response and a turn of a submission thread; an answer is remembered
    by the local cache; the items of a context that ends are dropped. *)

From S2P Require Import CLib RzbList RzbListProps ListM Hash LibUuid Uuids Ntlv Blocks BlockPool BlockPoolProps PoolThms JsonC JsonBuffer JsonText Messages MessageCodecs CncMessages MessageProps MessageThms CncThms LocalCache Arc LocalCacheProps CacheThms Entities EntitiesProps EntityThms Transfer TransferProps TransferThms Submission SubmissionProps SubmissionRuns Prelude.

Local Open Scope Z_scope.

(** ** The start of the services *)

Section Start.
Context `{EVPLaws} `{LibUuidLaws}.
Variable nts : list UUIDListNode.
Variable K : nat.
Implicit Types (s : Sub) (xs : list positive).

Definition fresh_list {St Key Item} (mode : Z) (cmp : option (St -> Item -> Item -> Z)) (kc : option (St -> Item -> Key -> Z))
    (de : option (Item -> St -> St)) : List_t St Key Item :=
  mkList None None 0 0 mode cmp kc de None None None (if mode == LIST_MODE_QUEUE then Some 0 else None) ∅.
Definition fresh_queue : queue := fresh_list LIST_MODE_QUEUE None None None.
Definition fresh_times : timing_list := fresh_list LIST_MODE_GENERIC (Some Submission_CacheLookupTiming_Cmp)
  (Some Submission_CacheLookupTiming_KeyCmp) (Some Submission_CacheLookupTiming_Destroy).

Lemma create_list_run {St Key Item} mode (cmp : option (St -> Item -> Item -> Z)) (kc : option (St -> Item -> Key -> Z))
    (de : option (Item -> St -> St)) o : mode = LIST_MODE_QUEUE \/ mode = LIST_MODE_GENERIC ->
  exists b o', create_list mode cmp kc de o = Some (if b : bool then Some (fresh_list mode cmp kc de) else None, o') /\
    (o = [] -> b = true /\ o' = []).
Proof.
  intros Hm. unfold create_list.
  destruct (alloc_next o) as [[] o1] eqn:E1; cbn [negb]; [|exists false, o1; split; [done|by intros ->]].
  destruct (alloc_next o1) as [[] o2] eqn:E2; cbn [negb]; [|exists false, o2; split; [done|]; intros ->; injection E1 as <-; discriminate].
  destruct Hm as [->| ->].
  - cbn. destruct (alloc_next o2) as [b o3] eqn:E3. exists b, o3. split; [by destruct b|].
    intros ->. injection E1 as <-. injection E2 as <-. by injection E3 as <- <-.
  - exists true, o2. split; [done|]. intros ->. injection E1 as <-. by injection E2 as <-.
Qed.

Lemma fresh_contents {St Key Item} mode cmp kc de : contents (@fresh_list St Key Item mode cmp kc de) [].
Proof. exists []. split; [constructor; done || constructor|done]. Qed.

Lemma fresh_queue_holds : queue_holds (Some fresh_queue) [].
Proof. exists fresh_queue. split_and!; try done. apply fresh_contents. Qed.

Lemma fresh_times_hold : times_hold (Some fresh_times) [].
Proof. exists fresh_times. split_and!; try done. apply fresh_contents. Qed.

(** The state with new lists and a new lock, where they could be made. *)
Definition given {A} (b : bool) (x : A) : option A := if b then Some x else None.
Definition listed s (o : allocs) (b1 b2 b3 b4 : bool) : Sub :=
  mkSub (sb_bpList s) (set_memory (sb_host s) o) (given b1 fresh_queue) (given b2 fresh_queue) (given b3 fresh_times)
    (set_timingLock b4 (sb_shared s)) (sb_caches s) (sb_table s) (sb_calls s) (sb_sent s).

Lemma allocating_any {A} (m : M A) s r o : m (ho_allocs (sb_host s)) = Some (r, o) ->
  in_host (allocating m) s = inr (r, set_host s (set_memory (sb_host s) o)).
Proof. intros E. unfold in_host, allocating. by rewrite E. Qed.

(** The resources are given back. *)
Lemma DestroyShared_run requests submits s o b1 b2 b3 b4 : (forall s, requests s = inr ((), s)) ->
  submissionThreadPool (sb_shared s) = false ->
  Submission_DestroySharedResources requests submits (listed s o b1 b2 b3 b4) =
    inr ((), set_shared (listed s o false false false false) (set_requestPool false (set_timingLock false (sb_shared s)))).
Proof.
  intros Hr Hp. unfold Submission_DestroySharedResources. set (L := listed s o b1 b2 b3 b4).
  sm (eq_refl : ask_state L = inr (L, L)).
  assert (E1 : (if requestThreadPool (sb_shared L) then requests ;; shared (set_requestPool false) else mret ()) L =
    inr ((), set_shared L (set_requestPool false (sb_shared L)))).
  { destruct s as [? ? ? ? ? [? ? [] ? ?]]; [|done]. subst L. simpl. unfold mbind, SM_bind. rewrite Hr. done. }
  sm E1. set (L1 := set_shared L _). sm (eq_refl : ask_state L1 = inr (L1, L1)).
  replace (submissionThreadPool (sb_shared L1)) with false. cbv iota. sm (eq_refl : (mret () : SM unit) L1 = inr ((), L1)).
  destruct b1, b2, b3; reflexivity.
Qed.

(** The services have everything they need, or nothing. *)
Definition started s : Prop :=
  queue_holds (requestQueue s) [] /\ queue_holds (submitQueue s) [] /\ times_hold (requestTiming s) [] /\
  requestTimingLock (sb_shared s) = true /\ requestThreadPool (sb_shared s) = true /\ submissionThreadPool (sb_shared s) = true.
Definition stopped s : Prop :=
  requestQueue s = None /\ submitQueue s = None /\ requestTiming s = None /\
  requestTimingLock (sb_shared s) = false /\ requestThreadPool (sb_shared s) = false /\ submissionThreadPool (sb_shared s) = false.
Definition rest s s' : Prop :=
  sub_pool s' = sub_pool s /\ sb_caches s' = sb_caches s /\ sb_table s' = sb_table s /\ sb_calls s' = sb_calls s /\ sb_sent s' = sb_sent s.

Lemma start_fails requests submits s o b1 b2 b3 b4 : (forall s, requests s = inr ((), s)) ->
  submissionThreadPool (sb_shared s) = false -> sg_subInitDone (sb_shared s) = false ->
  exists s', (Submission_DestroySharedResources requests submits ;; mret false) (listed s o b1 b2 b3 b4) = inr (false, s') /\ rest s s' /\
    sg_subInitDone (sb_shared s') = false /\ stopped s' /\ ho_allocs (sb_host s') = o.
Proof.
  intros Hr Hp Hd. sm (DestroyShared_run requests submits s o b1 b2 b3 b4 Hr Hp). eexists. split; [done|]. by split_and!.
Qed.

Lemma Initialize_Once_run requests submits request_ok submit_ok s : (forall s, requests s = inr ((), s)) ->
  sg_subInitLock (sb_shared s) = true -> sg_subInitDone (sb_shared s) = false ->
  requestThreadPool (sb_shared s) = false -> submissionThreadPool (sb_shared s) = false ->
  exists ok s', Submission_Initialize_Once requests submits request_ok submit_ok s = inr (ok, s') /\ rest s s' /\
    sg_subInitDone (sb_shared s') = ok /\ (if ok then started s' else stopped s') /\
    (ho_allocs (sb_host s) = [] -> ok = request_ok && submit_ok /\ ho_allocs (sb_host s') = []).
Proof.
  intros Hr Hl Hd Hp1 Hp2. unfold Submission_Initialize_Once. sm (eq_refl : ask_state s = inr (s, s)). rewrite Hl, Hd. cbv iota.
  destruct (create_list_run (St:=unit) (Key:=unit) (Item:=positive) LIST_MODE_QUEUE None None None (ho_allocs (sb_host s)) (or_introl eq_refl))
    as (b1 & o1 & E1 & H1').
  sm (allocating_any _ s _ _ E1). set (s1 := set_host s _). set (q1 := if b1 then _ else _).
  sm (eq_refl : update_state (fun s => set_requests s q1) s1 = inr ((), set_requests s1 q1)).
  destruct (create_list_run (St:=unit) (Key:=unit) (Item:=positive) LIST_MODE_QUEUE None None None o1 (or_introl eq_refl))
    as (b2 & o2 & E2 & H2').
  sm (allocating_any _ (set_requests s1 q1) _ _ E2). set (s2 := set_host _ _). set (q2 := if b2 then _ else _).
  sm (eq_refl : update_state (fun s => set_submits s q2) s2 = inr ((), set_submits s2 q2)).
  destruct (create_list_run LIST_MODE_GENERIC (Some Submission_CacheLookupTiming_Cmp)
                   (Some Submission_CacheLookupTiming_KeyCmp) (Some Submission_CacheLookupTiming_Destroy) o2 (or_intror eq_refl))
    as (b3 & o3 & E3 & H3').
  sm (allocating_any _ (set_submits s2 q2) _ _ E3). set (s3 := set_host _ _). set (q3 := if b3 then _ else _).
  sm (eq_refl : update_state (fun s => set_timing s q3) s3 = inr ((), set_timing s3 q3)).
  destruct (alloc_next o3) as [b4 o4] eqn:E4.
  assert (E4' : alloc o3 = Some (given b4 (), o4)) by (unfold alloc; by rewrite E4; destruct b4).
  sm (allocating_any alloc (set_timing s3 q3) _ _ E4'). set (s4 := set_host _ _).
  replace (match given b4 () with Some _ => true | None => false end) with b4 by by destruct b4.
  sm (eq_refl : shared (set_timingLock b4) s4 = inr ((), listed s o4 b1 b2 b3 b4)).
  assert (Ho : ho_allocs (sb_host s) = [] -> b1 = true /\ b2 = true /\ b3 = true /\ b4 = true /\ o4 = []).
  { intros Ha. destruct (H1' Ha) as [-> Ho1]. destruct (H2' Ho1) as [-> Ho2]. destruct (H3' Ho2) as [-> ->]. by injection E4 as <- <-. }
  clear -Hr Hd Hp1 Hp2 Ho. set (L := listed s o4 b1 b2 b3 b4). sm (eq_refl : ask_state L = inr (L, L)).
  destruct (b1 && b2 && b3 && b4) eqn:Eb.
  2: { destruct (start_fails requests submits s o4 b1 b2 b3 b4 Hr Hp2 Hd) as (s' & E & Hrest & Hdone & Hst & Ha).
       exists false, s'. split; [by destruct b1, b2, b3, b4|]. split_and!; try done. intros Ha0. destruct (Ho Ha0) as (-> & -> & -> & -> & _). done. }
  apply andb_true_iff in Eb as [[[-> ->]%andb_true_iff ->]%andb_true_iff ->]. cbn [requestQueue submitQueue requestTiming sb_shared L listed given
    set_timingLock requestTimingLock]. fold (listed s o4 true true true true). fold L.
  set (sr := set_shared s (set_requestPool request_ok (sb_shared s))).
  sm (eq_refl : shared (set_requestPool request_ok) L = inr ((), listed sr o4 true true true true)). destruct request_ok; cbn [negb].
  2: { destruct (start_fails requests submits sr o4 true true true true Hr Hp2 Hd) as (s' & E & Hrest & Hdone & Hst & Ha).
       exists false, s'. split; [exact E|]. split_and!; try done. intros Ha0. destruct (Ho Ha0) as (_ & _ & _ & _ & ->). done. }
  set (ss := set_shared sr (set_submissionPool submit_ok (sb_shared sr))).
  sm (eq_refl : shared (set_submissionPool submit_ok) (listed sr o4 true true true true) = inr ((), listed ss o4 true true true true)).
  destruct submit_ok; cbn [negb].
  2: { destruct (start_fails requests submits ss o4 true true true true Hr eq_refl Hd) as (s' & E & Hrest & Hdone & Hst & Ha).
       exists false, s'. split; [exact E|]. split_and!; try done. intros Ha0. destruct (Ho Ha0) as (_ & _ & _ & _ & ->). done. }
  eexists true, _. split; [done|]. split; [done|]. split; [done|]. split.
  - split_and!; try done; apply fresh_queue_holds || apply fresh_times_hold.
  - intros Ha0. destruct (Ho Ha0) as (_ & _ & _ & _ & ->). done.
Qed.
End Start.

(** ** Sequences of turns *)

Section Reach.
Context `{EVPLaws} `{LibUuidLaws}.
Variable sg : UuidLists.
Variable nts : list UUIDListNode.
Variable cfg : EntityConfig.
Hypothesis nuggets_entries : entries (UUID_Get_List sg UUID_TYPE_NUGGET_TYPE) nts.
Variable K : nat.
Variable transports : option transport_list.
Variable tds : list TransportDescriptor.
Hypothesis transports_ok : registry transports tds.
Variable store : TransportDescriptor -> positive -> ConnectedEntity -> HM TransferStatus.
Context `{!TransportSafe K store}.
Implicit Types (s : Sub) (p : Pool) (xs : list positive).
Local Abbreviation serves := (serves nts K).
Local Abbreviation pool_holds := (pool_inv (sitem_ok K)).

(** A turn of a thread of the services, or of the collector, which works on the pool. *)
Inductive turn :=
  | Submits (now : Z) (i : positive) (flags : Z) (flags_ok : bool)
  | Requests (put_ok : bool)
  | Responds (context : RazorbackContext) (message : Message)
  | Sends (put_ok : bool) (pushes : allocs) (storedLocality : Z)
  | Abandons (fuel : nat) (context : RazorbackContext)
  | Collects (p : Pool).

Definition after {A} (r : fault + (A * Sub)) : fault + Sub := match r with inl e => inl e | inr (_, s) => inr s end.

Definition run_turn (a : turn) s : fault + Sub :=
  match a with
  | Submits now i flags ok => after (Submission_Submit now i flags ok s)
  | Requests put_ok => after (Submission_GlobalCache_Request put_ok s)
  | Responds context m => after (Submission_GlobalCache_Response context m s)
  | Sends put_ok pushes loc => after (Submission_SubmitTurn sg cfg transports store put_ok pushes loc s)
  | Abandons fuel context => after (Submission_AbandonStuckContextCacheLookups fuel context 0 s)
  | Collects p => inr (set_pool s p)
  end.

(** The item is in the pool, finalised, and can be submitted. *)
Definition finished s (i : positive) : Prop :=
  exists x, w_items (world s) !! i = Some x /\ status_of x = BLOCK_POOL_STATUS_FINALIZED /\ ready K x /\ Forall sendable (bp_pData x) /\
    forall xs, pool_holds (sub_pool s) xs -> i ∈ xs.

(** The pool after the collector worked on it: items in flight are not touched. *)
Definition collected s p : Prop :=
  forall xs, pool_holds (sub_pool s) xs -> exists xs', pool_holds p xs' /\
    forall i x, i ∈ xs -> w_items (world s) !! i = Some x -> in_flight (status_of x) -> i ∈ xs' /\ w_items (pool_world p) !! i = Some x.

Definition valid_turn (a : turn) s : Prop :=
  match a with
  | Submits _ i _ _ => finished s i
  | Responds _ m => m_type m = MESSAGE_TYPE_RESP ->
      exists resp id, m_message m = Some (Messages.inj (resp : MessageCacheResp)) /\ cr_pId resp = Some id /\ id_ok id
  | Abandons fuel _ => forall xs, pool_holds (sub_pool s) xs -> (length xs < fuel)%nat
  | Collects p => collected s p
  | _ => True
  end.

Definition working s : Prop := exists xs rq sq ts, serves s xs rq sq ts.

Lemma collect_working s p : working s -> collected s p -> working (set_pool s p).
Proof.
  intros (xs & rq & sq & ts & Hs) Hc. destruct (Hc xs (sv_pool _ _ _ _ _ _ _ Hs)) as (xs' & Hp & Hf).
  assert (Hst : forall n j, in_flight n -> in_state (world s) xs n j -> in_state (world (set_pool s p)) xs' n j).
  { intros n j Hn (Hj & x & Hx & Hxn). destruct (Hf j x Hj Hx ltac:(by rewrite Hxn)) as [? ?]. split; [done|]. by exists x. }
  exists xs', rq, sq, ts. split; try kept Hs; try (exact (sv_lock _ _ _ _ _ _ _ Hs)).
  - unfold sub_pool. simpl. by rewrite pool_eta.
  - eapply Forall_impl; [exact (sv_request _ _ _ _ _ _ _ Hs)|]. intros j. apply Hst. by left.
  - eapply Forall_impl; [exact (sv_submit _ _ _ _ _ _ _ Hs)|]. intros j. apply Hst. by right; right.
  - eapply Forall_impl; [exact (sv_times _ _ _ _ _ _ _ Hs)|]. intros t [?|?]; [left|right]; apply Hst; try done; [by left|by right; left].
Qed.

Lemma turn_working a s : working s -> valid_turn a s -> exists s', run_turn a s = inr s' /\ working s'.
Proof.
  intros Hw Hv. pose proof Hw as (xs & rq & sq & ts & Hs). destruct a as [now i fl ok|put_ok|context m|put_ok pushes loc|fuel context|p]; simpl in *.
  - destruct Hv as (x & Hx & Hst & Hr & Hp & Hin).
    destruct (Submit_run nts K now i fl ok s xs rq sq ts x Hs (Hin xs (sv_pool _ _ _ _ _ _ _ Hs)) Hx Hst Hr Hp) as (r & s' & -> & Hres).
    exists s'. split; [done|]. unfold working. destruct (own_parent x || negb ok); [naive_solver|]. destruct (untyped x); [naive_solver|].
    destruct Hres as (h & found & sf & ent & C & _ & _ & _ & _ & _ & _ & Hres). destruct found; naive_solver.
  - destruct (Request_run nts K put_ok s xs rq sq ts Hs) as (s' & -> & Hres). exists s'. split; [done|].
    destruct (list.last rq) as [i|]; [|by subst]. destruct Hres as (x & _ & Hres). unfold working. destruct put_ok; naive_solver.
  - destruct (decide (m_type m = MESSAGE_TYPE_RESP)) as [E|E].
    + destruct (Hv E) as (resp & id & Hm & Hid & Hok).
      destruct (Response_run nts K context m resp id s xs rq sq ts Hs E Hm Hid Hok) as (s' & -> & Hs' & _). exists s'. split; [done|].
      unfold working. eauto.
    + unfold Submission_GlobalCache_Response. destruct (Z.eqb_spec (m_type m) MESSAGE_TYPE_RESP); [done|]. by exists s.
  - destruct (SubmitTurn_run sg nts cfg nuggets_entries K transports tds transports_ok store put_ok pushes loc s xs rq sq ts Hs)
      as (loc' & s' & -> & Hres). exists s'. split; [done|].
    destruct (list.last sq) as [i|]; [|destruct Hres as [-> _]; done]. destruct Hres as (x & _ & _ & _ & Hres). unfold working.
    destruct Hres as [(? & _)|(m & ? & _)]; eauto.
  - assert (Hl : (length (stuck_items (world s) (ctx_address context) xs) < fuel)%nat).
    { specialize (Hv xs (sv_pool _ _ _ _ _ _ _ Hs)). unfold stuck_items. pose proof (length_filter (fun i => stuck (world s) (ctx_address context) i = true) xs). lia. }
    destruct (Abandon_run nts K context fuel s xs rq sq ts 0 Hs Hl) as (s' & -> & Hs' & _). exists s'. split; [done|]. unfold working. eauto.
  - exists (set_pool s p). split; [done|]. by apply collect_working.
Qed.

(** Turns of a submission thread in a row. *)
Fixpoint submit_turns (n : nat) (put_ok : bool) (pushes : allocs) (loc : Z) s : fault + (Z * Sub) :=
  match n with
  | O => inr (loc, s)
  | S n' =>
      match Submission_SubmitTurn sg cfg transports store put_ok pushes loc s with
      | inl e => inl e
      | inr ((_, loc'), s') => submit_turns n' put_ok pushes loc' s'
      end
  end.

(** The callbacks of a sequence of items. *)
Definition callbacks (w : World) (l : list positive) : list (positive * positive) :=
  flat_map (fun i => match x ← w_items w !! i; bp_submittedCallback x with Some f => [(f, i)] | None => [] end) l.

Lemma callbacks_same w w' i l : same_but w w' i -> i ∉ l -> callbacks w' l = callbacks w l.
Proof.
  intros Hw Hi. unfold callbacks. induction l as [|j l IH]; [done|]. cbn [flat_map]. rewrite IH by set_solver. by rewrite (Hw j) by set_solver.
Qed.

Lemma turned_calls put_ok s s' xs rq sq' ts i x loc loc' : w_items (world s) !! i = Some x ->
  turned nts K put_ok s s' xs rq sq' ts i x loc loc' ->
  exists new, sb_calls s' = sb_calls s ++ new /\ map fst new = callbacks (world s) [i].
Proof.
  intros Hx (_ & Ht). assert (Hc : exists n, sb_calls s' = sb_calls (called i (with_status x n) s)).
  { destruct Ht as [(_ & _ & _ & _ & ?)|(m & _ & _ & ? & _)]; eauto. }
  destruct Hc as (n & ->). rewrite called_calls. eexists. split; [done|]. unfold callbacks, call_of. simpl. rewrite Hx. simpl.
  by destruct (bp_submittedCallback x).
Qed.

Lemma submit_turns_run put_ok pushes sq : forall loc s xs rq ts, serves s xs rq sq ts ->
  exists loc' s' xs' new, submit_turns (length sq) put_ok pushes loc s = inr (loc', s') /\ serves s' xs' rq [] ts /\
    sb_calls s' = sb_calls s ++ new /\ map fst new = callbacks (world s) (rev sq).
Proof.
  induction sq as [|i sq IH] using rev_ind; intros loc s xs rq ts Hs.
  { exists loc, s, xs, []. split_and!; try done. by rewrite app_nil_r. }
  rewrite length_app, Nat.add_comm. cbn [length Nat.add submit_turns].
  destruct (SubmitTurn_run sg nts cfg nuggets_entries K transports tds transports_ok store put_ok pushes loc s xs rq _ ts Hs)
    as (loc1 & s1 & -> & Ht). rewrite last_snoc, removelast_last in Ht. destruct Ht as (x & Hx & _ & Ht).
  destruct (turned_calls _ _ _ _ _ _ _ _ _ _ _ Hx Ht) as (new1 & E1 & Hn1). destruct Ht as (Hsame & Ht).
  assert (Hs1 : exists xs1, serves s1 xs1 rq sq ts) by (destruct Ht as [(? & _)|(m & ? & _)]; eauto). destruct Hs1 as (xs1 & Hs1).
  destruct (IH loc1 s1 xs1 rq ts Hs1) as (loc' & s' & xs' & new & -> & Hs' & E & Hn).
  exists loc', s', xs', (new1 ++ new). split_and!; try done; [by rewrite E, E1, <- app_assoc|].
  destruct (NoDup_last _ _ (sv_sq_once _ _ _ _ _ _ _ Hs)) as [_ Hni].
  rewrite rev_app_distr, map_app, Hn1, Hn. rewrite (callbacks_same (world s) (world s1) i); [|done|].
  - unfold callbacks. by rewrite <- flat_map_app.
  - intros Hi. apply Hni. by apply list_elem_of_In, in_rev, list_elem_of_In.
Qed.
End Reach.

(** ** The local cache *)

Section Cache.
Context `{EVPLaws} `{LibUuidLaws}.
Variable nts : list UUIDListNode.
Variable K : nat.
Implicit Types (s : Sub) (C : CacheType -> CACHE) (h : Hash) (d : list Z).

(** The caches of bad and of good hashes hold what the specification says. *)
Definition knows C (bad good : arc item) : Prop := cache_rep K (C BADHASH) bad /\ cache_rep K (C GOODHASH) good.

(** What they tell about a digest; a bad hash comes first. *)
Definition verdict d (bad good : arc item) : option (Z * Z) := match flags d bad with Some v => Some v | None => flags d good end.

Lemma ready_hash x h : ready K x -> item_hash x = Some h -> complete h /\ h_iSize h = Z.of_nat K.
Proof.
  intros (eid & b & id & h' & _ & Hb & Hid & Hph & Hco & HK & _). unfold item_hash, item_id. rewrite Hb. cbn [mbind option_bind].
  rewrite Hid. cbn [mbind option_bind]. rewrite Hph. by intros [= <-].
Qed.

Lemma consult_knows h C bad good : complete h -> h_iSize h = Z.of_nat K -> knows C bad good ->
  exists C', consult h C = Some (match verdict (digest h) bad good with Some (sf, ent) => (true, sf, ent) | None => (false, 0, 0) end, C').
Proof.
  intros Hc HK [Hb Hg]. destruct (hash_key K h Hc HK) as (_ & _ & _ & _ & Hd). unfold consult, verdict.
  rewrite (check_hash K) by done.
  destruct (check_spec K C BADHASH bad (digest h) 0 0 ltac:(done) Hb Hd) as (C1 & -> & _ & _ & Hoth).
  destruct (flags (digest h) bad) as [[sf ent]|]; cbn [answer mbind option_bind]; [by eexists|].
  rewrite (check_hash K) by done. rewrite <- (Hoth GOODHASH) in Hg by done.
  destruct (check_spec K C1 GOODHASH good (digest h) 0 0 ltac:(done) Hg Hd) as (C2 & -> & _).
  destruct (flags (digest h) good) as [[sf ent]|]; cbn [answer mbind option_bind]; by eexists.
Qed.

(** A new answer is what the caches tell afterwards. *)
Lemma learn_knows sf ent d C bad good : length d = K -> knows C bad good -> flags d bad = None -> flags d good = None ->
  exists bad' good', knows (learn K sf ent d C) bad' good' /\
    verdict d bad' good' = Some (Z.land sf (Z.lxor SF_FLAG_CANHAZ SF_FLAG_ALL), ent).
Proof.
  intros Hd [Hb Hg] Fb Fg. unfold learn, answer_type. set (sf' := Z.land sf _).
  destruct (Z.land sf SF_FLAG_BAD != 0).
  - destruct (add_spec K C BADHASH bad d sf' ent ltac:(done) Hb Hd Fb) as (C' & -> & Hr & _ & Ho).
    eexists _, good. split; [split; [exact Hr|by rewrite Ho]|]. unfold verdict. rewrite flags_miss by (done || by destruct Hb as (? & ? & ? & ? & ? & ? & ? & ? & ?)).
    by rewrite decide_True.
  - destruct (add_spec K C GOODHASH good d sf' ent ltac:(done) Hg Hd Fg) as (C' & -> & Hr & _ & Ho).
    eexists bad, _. split; [split; [by rewrite Ho|exact Hr]|]. unfold verdict. rewrite Fb.
    rewrite flags_miss by (done || by destruct Hg as (? & ? & ? & ? & ? & ? & ? & ? & ?)). by rewrite decide_True.
Qed.
End Cache.

(** ** Theorems *)

Section Theorems.
Context `{EVPLaws} `{LibUuidLaws}.
Variable sg : UuidLists.
Variable nts : list UUIDListNode.
Variable cfg : EntityConfig.
Hypothesis nuggets_entries : entries (UUID_Get_List sg UUID_TYPE_NUGGET_TYPE) nts.
Variable K : nat.
Variable transports : option transport_list.
Variable tds : list TransportDescriptor.
Hypothesis transports_ok : registry transports tds.
Variable store : TransportDescriptor -> positive -> ConnectedEntity -> HM TransferStatus.
Context `{!TransportSafe K store}.
Implicit Types (s : Sub) (xs rq sq : list positive) (ts : list CacheLookupTiming) (i : positive).
Local Abbreviation serves := (serves nts K).

(** The services before they start: the pool, the caches and the table are in order. *)
Record idle s : Prop := {
  id_pool : exists xs, pool_inv (sitem_ok K) (sub_pool s) xs;
  id_caches : caches_shape K (sb_caches s);
  id_table : exists es hs, holds nts (sb_table s) es hs /\ Z.of_nat (length es) < 2 ^ 32;
  id_memory : ho_allocs (sb_host s) = [];
  id_lock : sg_subInitLock (sb_shared s) = true;
  id_done : sg_subInitDone (sb_shared s) = false;
  id_requests : requestThreadPool (sb_shared s) = false;
  id_submits : submissionThreadPool (sb_shared s) = false
}.

(** The states that turns reach from the start of the services. *)
Inductive serving : Sub -> Prop :=
  | serving_start requests submits s s' : idle s -> (forall s, requests s = inr ((), s)) ->
      Submission_Initialize_Once requests submits true true s = inr (true, s') -> serving s'
  | serving_turn s a s' : serving s -> valid_turn K a s -> run_turn sg cfg transports store a s = inr s' -> serving s'.

Lemma start_serves requests submits s s' xs : idle s -> pool_inv (sitem_ok K) (sub_pool s) xs -> (forall s, requests s = inr ((), s)) ->
  Submission_Initialize_Once requests submits true true s = inr (true, s') -> serves s' xs [] [] [] /\ rest s s'.
Proof.
  intros [_ HC Ht Ha Hl Hd Hr Hs] Hp Hreq E.
  destruct (Initialize_Once_run requests submits true true s Hreq Hl Hd Hr Hs) as (ok & s1 & E1 & Hrest & _ & Hst & Hm).
  rewrite E in E1. injection E1 as <- <-. destruct Hst as (Q1 & Q2 & Q3 & Q4 & _). destruct (Hm Ha) as [_ Hm'].
  split; [|done]. destruct Hrest as (R1 & R2 & R3 & _). split; try done; [by rewrite R1|by rewrite R2|by rewrite R3|constructor|constructor].
Qed.

Lemma serving_working s : serving s -> working nts K s.
Proof.
  induction 1 as [requests submits s s' Hi Hr E|s a s' _ IH Hv E].
  - destruct (id_pool _ Hi) as (xs & Hp). exists xs, [], [], []. by eapply start_serves.
  - destruct (turn_working sg nts cfg nuggets_entries K transports tds transports_ok store a s IH Hv) as (s2 & E2 & Hw).
    rewrite E in E2. by injection E2 as <-.
Qed.

(** C12. In every state that turns of the threads reach from the start of the services
    no mutex is held, the queue of requests holds, each once, items of the pool that
    are to be requested, the queue of submissions, each once, items to be submitted,
    times are kept for items that wait; and every turn returns. *)
Theorem Submission_reachable s : serving s ->
  w_held (world s) = [] /\
  (exists xs rq sq ts, pool_inv (sitem_ok K) (sub_pool s) xs /\
    queue_holds (requestQueue s) rq /\ NoDup rq /\ Forall (in_state (world s) xs BLOCK_POOL_STATUS_CHECK_GLOBAL_CACHE) rq /\
    queue_holds (submitQueue s) sq /\ NoDup sq /\ Forall (in_state (world s) xs BLOCK_POOL_STATUS_SUBMIT_DATA) sq /\
    times_hold (requestTiming s) ts /\ Forall (fun t => waiting (world s) xs (ct_item t)) ts) /\
  forall a, valid_turn K a s -> exists s', run_turn sg cfg transports store a s = inr s'.
Proof.
  intros Hs. apply serving_working in Hs as Hw. pose proof Hw as (xs & rq & sq & ts & Hv).
  split; [exact (proj1 (serves_held nts K _ _ _ _ _ Hv))|]. split; [exists xs, rq, sq, ts; destruct Hv; by split_and!|].
  intros a Ha. destruct (turn_working sg nts cfg nuggets_entries K transports tds transports_ok store a s Hw Ha) as (s' & ? & _). eauto.
Qed.

(** C14. What becomes of a submission: a block that names itself as its parent is
    refused, so is one without a data type, and the item is dropped after its callback;
    a block the local cache knows gives up its data and waits to be sent as an event,
    the caller gets its flags; another one waits to be requested, with the time. *)
Theorem Submission_Submit_outcomes now i fl s xs rq sq ts x h bad good : serves s xs rq sq ts -> i ∈ xs ->
  w_items (world s) !! i = Some x -> status_of x = BLOCK_POOL_STATUS_FINALIZED -> ready K x -> Forall sendable (bp_pData x) ->
  item_hash x = Some h -> knows K (sb_caches s) bad good ->
  exists r s', Submission_Submit now i fl true s = inr (r, s') /\ sb_sent s' = sb_sent s /\
    if own_parent x then
      r = (RZB_SUBMISSION_ERROR, 0, 0) /\ serves s' (others i xs) rq sq ts /\ dropped s s' i x BLOCK_POOL_STATUS_ERROR
    else if untyped x then
      r = (RZB_SUBMISSION_NO_TYPE, 0, 0) /\ serves s' (others i xs) rq sq ts /\ dropped s s' i x BLOCK_POOL_STATUS_NO_TYPE
    else
      match verdict (digest h) bad good with
      | Some (sf, ent) => r = (RZB_SUBMISSION_OK, sf, ent) /\ serves s' xs rq (sq ++ [i]) ts /\
          world s' = updated (drained (world s) (bp_pData x)) i (to_submit x fl)
      | None => r = (RZB_SUBMISSION_OK, 0, 0) /\ serves s' xs (rq ++ [i]) sq (ts ++ [mkTiming i now]) /\
          world s' = updated (world s) i (to_request x fl)
      end.
Proof.
  intros Hs Hin Hx Hst Hrd Hps Hh Hk. destruct (Submit_run nts K now i fl true s xs rq sq ts x Hs Hin Hx Hst Hrd Hps) as (r & s' & E & Hres).
  exists r, s'. split; [done|]. rewrite orb_false_r in Hres. destruct (own_parent x).
  { destruct Hres as (? & ? & (? & ? & ?)); by split_and!. }
  destruct (untyped x); [destruct Hres as (? & ? & (? & ? & ?)); by split_and!|].
  destruct Hres as (h' & found & sf & ent & C & Hh' & Ec & -> & _ & _ & Hsent & Hres). rewrite Hh in Hh'. injection Hh' as <-.
  destruct (ready_hash K x h Hrd Hh) as [Hco HK].
  destruct (consult_knows K h (sb_caches s) bad good Hco HK Hk) as (C' & Ek). rewrite Ec in Ek.
  split; [done|]. destruct (verdict (digest h) bad good) as [[sf' ent']|]; injection Ek as -> -> -> ->; naive_solver.
Qed.

(** A response answers exactly the items of its context that asked about its
    block: each gets to the queue of submissions with the data unless the dispatcher
    does not want it, its time is forgotten, nothing else of the pool changes; and each
    of them enters the answer in the local cache. *)
Theorem Submission_Response_answers context m resp id s xs rq sq ts : serves s xs rq sq ts ->
  m_type m = MESSAGE_TYPE_RESP -> m_message m = Some (Messages.inj (resp : MessageCacheResp)) -> cr_pId resp = Some id -> id_ok id ->
  let l := awaiting (world s) (ctx_address context) id xs in let sf := cr_iSfFlags resp in
  exists s', Submission_GlobalCache_Response context m s = inr (true, s') /\
    serves s' xs rq (sq ++ l) (without_times l ts) /\ sb_calls s' = sb_calls s /\ sb_sent s' = sb_sent s /\
    sb_caches s' = learn_all K sf (cr_iEntFlags resp) (id_digest id) l (sb_caches s) /\
    (forall i x, i ∈ l -> w_items (world s) !! i = Some x -> w_items (world s') !! i = Some (answered sf x) /\
       status_of (answered sf x) = BLOCK_POOL_STATUS_SUBMIT_DATA /\ bp_pData (answered sf x) = bp_pData x) /\
    (forall i, i ∉ l -> w_items (world s') !! i = w_items (world s) !! i).
Proof.
  intros Hs Hty Hm Hid Hok l sf. destruct (Response_run nts K context m resp id s xs rq sq ts Hs Hty Hm Hid Hok)
    as (s' & E & Hs' & HC & Hca & Hse & Hw). fold l sf in Hs', HC, Hw. exists s'. split_and!; try done.
  - intros i x Hi Hx. rewrite Hw, Hx, bool_decide_eq_true_2 by done. split_and!; [done|apply answered_status|apply answered_data].
  - intros i Hi. rewrite Hw, bool_decide_eq_false_2 by done. by destruct (w_items (world s) !! i).
Qed.

(** C13. An answer is remembered: after the response to the one item that asked about
    an unknown block, the next submission of a block with that digest is answered from
    the local cache, with the flags of the response but for CANHAZ; its data is dropped
    and it waits to be sent as an event, without a request. *)
Theorem Submission_answer_remembered context m resp id s xs rq sq ts bad good i0 now i fl x h s' : serves s xs rq sq ts ->
  m_type m = MESSAGE_TYPE_RESP -> m_message m = Some (Messages.inj (resp : MessageCacheResp)) -> cr_pId resp = Some id -> id_ok id ->
  length (id_digest id) = K -> awaiting (world s) (ctx_address context) id xs = [i0] ->
  knows K (sb_caches s) bad good -> verdict (id_digest id) bad good = None ->
  Submission_GlobalCache_Response context m s = inr (true, s') ->
  i ∈ xs -> w_items (world s') !! i = Some x -> status_of x = BLOCK_POOL_STATUS_FINALIZED -> ready K x -> Forall sendable (bp_pData x) ->
  item_hash x = Some h -> digest h = id_digest id -> own_parent x = false -> untyped x = false ->
  exists s2, Submission_Submit now i fl true s' =
      inr ((RZB_SUBMISSION_OK, Z.land (cr_iSfFlags resp) (Z.lxor SF_FLAG_CANHAZ SF_FLAG_ALL), cr_iEntFlags resp), s2) /\
    serves s2 xs rq (sq ++ [i0; i]) (without_time i0 ts) /\ world s2 = updated (drained (world s') (bp_pData x)) i (to_submit x fl).
Proof.
  intros Hs Hty Hm Hid Hok Hd Hl Hk Hv E Hin Hx Hst Hrd Hps Hh Hdig Hown Htyp.
  destruct (Response_run nts K context m resp id s xs rq sq ts Hs Hty Hm Hid Hok) as (s1 & E1 & Hs1 & HC & _). rewrite Hl in Hs1, HC.
  rewrite E in E1. injection E1 as <-.
  assert (Hfl : flags (id_digest id) bad = None /\ flags (id_digest id) good = None).
  { unfold verdict in Hv. by destruct (flags (id_digest id) bad). }
  destruct (learn_knows K (cr_iSfFlags resp) (cr_iEntFlags resp) (id_digest id) (sb_caches s) bad good Hd Hk (proj1 Hfl) (proj2 Hfl))
    as (bad' & good' & Hk' & Hv'). unfold learn_all in HC. cbn [foldl] in HC. rewrite <- HC in Hk'.
  destruct (Submit_run nts K now i fl true s' xs rq _ _ x Hs1 Hin Hx Hst Hrd Hps) as (r & s2 & E2 & Hres).
  rewrite Hown, Htyp in Hres. cbn [orb negb] in Hres.
  destruct Hres as (h' & found & sf & ent & C & Hh' & Ec & -> & _ & _ & _ & Hres). rewrite Hh in Hh'. injection Hh' as <-.
  destruct (ready_hash K x h Hrd Hh) as [Hco HK].
  destruct (consult_knows K h (sb_caches s') bad' good' Hco HK Hk') as (C' & Ek). rewrite Hdig, Hv', Ec in Ek. injection Ek as -> -> -> ->.
  exists s2. destruct Hres as [Hs2 Hw2]. split; [done|]. split; [|done]. by rewrite <- app_assoc in Hs2.
Qed.

(** A turn of a submission thread with an item: either no dispatcher takes the data
    and the item is dropped in error, or one message is sent, with the event of the
    item, as a submission of data that was stored or as an event only; the callback is
    called once, with the outcome, and the item is destroyed unless it may be reused. *)
Theorem Submission_SubmitTurn_outcomes put_ok pushes loc s xs rq sq ts i : serves s xs rq (sq ++ [i]) ts ->
  exists x loc' s', Submission_SubmitTurn sg cfg transports store put_ok pushes loc s = inr ((true, loc'), s') /\
    w_items (world s) !! i = Some x /\ same_but (world s) (world s') i /\
    ((Submission_NeedsStore (Some x) = true /\ serves s' (others i xs) rq sq ts /\ sb_sent s' = sb_sent s /\
      sb_calls s' = sb_calls s ++ call_of i (with_status x BLOCK_POOL_STATUS_ERROR)) \/
     (exists m, serves s' (if reusable x then xs else others i xs) rq sq ts /\
      sb_sent s' = sb_sent s ++ (if put_ok then [(INPUT_QUEUE, m)] else []) /\
      sb_calls s' = sb_calls s ++ call_of i (with_status x (sent_status put_ok)) /\
      m_message m = Some (Messages.inj (if Submission_NeedsStore (Some x)
        then mkBlockSubmission SUBMISSION_REASON_REQUESTED (Some (bp_pEvent x)) loc'
        else mkBlockSubmission SUBMISSION_REASON_EVENT (Some (bp_pEvent x)) loc)))).
Proof.
  intros Hs. destruct (SubmitTurn_run sg nts cfg nuggets_entries K transports tds transports_ok store put_ok pushes loc s xs rq _ ts Hs)
    as (loc' & s' & E & Ht). rewrite last_snoc, removelast_last in Ht. destruct Ht as (x & Hx & _ & Hsame & Ht).
  rewrite bool_decide_eq_true_2 in E by (by destruct sq). exists x, loc', s'. split_and!; try done. destruct Ht as [Ht|(m & Ht)].
  - left. destruct Ht as (? & ? & _ & ? & Ec). rewrite called_calls in Ec. by split_and!.
  - right. exists m. destruct Ht as (? & ? & Ec & _ & Hm). rewrite called_calls in Ec. split_and!; try done.
    destruct (Submission_NeedsStore (Some x)); [done|]. by destruct Hm.
Qed.


(** The locality in an event-only submission is that of the last block the thread
    stored, of whatever item, and 0 in a thread that has stored none. *)
Theorem Submission_event_locality_stale pushes loc s xs rq sq ts i x : serves s xs rq (sq ++ [i]) ts -> w_items (world s) !! i = Some x ->
  Submission_NeedsStore (Some x) = false ->
  exists m s', Submission_SubmitTurn sg cfg transports store true pushes loc s = inr ((true, loc), s') /\
    sb_sent s' = sb_sent s ++ [(INPUT_QUEUE, m)] /\
    m_message m = Some (Messages.inj (mkBlockSubmission SUBMISSION_REASON_EVENT (Some (bp_pEvent x)) loc)).
Proof.
  intros Hs Hx Hn. destruct (SubmitTurn_run sg nts cfg nuggets_entries K transports tds transports_ok store true pushes loc s xs rq _ ts Hs)
    as (loc' & s' & E & Ht). rewrite last_snoc in Ht. destruct Ht as (x' & Hx' & _ & _ & Ht). rewrite Hx in Hx'. injection Hx' as <-.
  rewrite bool_decide_eq_true_2 in E by (by destruct sq). rewrite Hn in Ht. destruct Ht as [(_ & ? & _)|(m & _ & Hse & _ & _ & -> & Hm)]; [done|].
  by exists m, s'.
Qed.

(** C16. The loop that drops the items a context still waits for ends after one more turn
    than there are such items; each is dropped in error after its callback, in the
    order of the pool, nothing else is touched, and none is left. *)
Theorem Submission_Abandon_terminates context s xs rq sq ts : serves s xs rq sq ts ->
  let c := ctx_address context in let l := stuck_items (world s) c xs in
  exists s', Submission_AbandonStuckContextCacheLookups (S (length l)) context 0 s = inr (Some (Nat.iter (length l) (fun n => u64 (n + 1)) 0), s') /\
    serves s' (free_items (world s) c xs) rq sq (without_times l ts) /\
    sb_calls s' = sb_calls s ++ calls_of (world s) BLOCK_POOL_STATUS_ERROR l /\
    (forall i, i ∉ l -> w_items (world s') !! i = w_items (world s) !! i) /\
    stuck_items (world s') c (free_items (world s) c xs) = [].
Proof.
  intros Hs c l. destruct (Abandon_run nts K context (S (length l)) s xs rq sq ts 0 Hs) as (s' & E & Hs' & Hc & _ & _ & Hw); [fold c l; lia|].
  fold c l in E, Hs', Hc, Hw. exists s'. split_and!; try done. apply filter_nothing. intros i [Hf Hi]%list_elem_of_filter.
  unfold stuck. rewrite Hw; [unfold stuck in Hf; by rewrite Hf|]. intros [Ht _]%list_elem_of_filter. by rewrite Ht in Hf.
Qed.

(** [Submission_Initialize_Once] makes the two queues, the list of times, its lock
    and the two thread pools, or, when any of them cannot be made, leaves none of them
    behind and reports failure; with memory and threads it succeeds. *)
Theorem Submission_Initialize_Once_all_or_nothing requests submits request_ok submit_ok s : (forall s, requests s = inr ((), s)) ->
  sg_subInitLock (sb_shared s) = true -> sg_subInitDone (sb_shared s) = false ->
  requestThreadPool (sb_shared s) = false -> submissionThreadPool (sb_shared s) = false ->
  exists ok s', Submission_Initialize_Once requests submits request_ok submit_ok s = inr (ok, s') /\ rest s s' /\
    sg_subInitDone (sb_shared s') = ok /\ (if ok then started s' else stopped s') /\
    (ho_allocs (sb_host s) = [] -> ok = request_ok && submit_ok).
Proof.
  intros Hr Hl Hd Hp1 Hp2. destruct (Initialize_Once_run requests submits request_ok submit_ok s Hr Hl Hd Hp1 Hp2)
    as (ok & s' & E & ? & ? & ? & Hm). exists ok, s'. split_and!; try done. intros Ha. by destruct (Hm Ha).
Qed.
End Theorems.

(** ** Witnesses *)

Module submission_demo.
Import bytes16 toy.

Definition K : nat := 16.
Definition piece0 : BlockPoolData := mkBlockPoolData 3 BLOCK_POOL_DATA_FLAG_MALLOCD (mkBlockData None (Some [1; 2; 3; 4]) None false).
Definition id : BlockId := mkBlockId (Some md5) (uuid_demo.uuid 5) 3.
Definition event : Event :=
  mkEvent (Some (mkEventId (uuid_demo.uuid 4) 5 6)) None None uuid_null (Some (mkBlock (Some id) None None None no_data)) None.
Definition item (status : Z) : BlockPoolItem := mkBlockPoolItem status [piece0] (Some 9%positive) transfer_demo.ctx event.

(** Item 1 waits for an answer, item 2 can be submitted. *)
Definition items : gmap positive BlockPoolItem :=
  <[1%positive := item BLOCK_POOL_STATUS_CHECKING_GLOBAL_CACHE]> {[ 2%positive := item BLOCK_POOL_STATUS_FINALIZED ]}.
Definition world0 : World := mkWorld items 6 [] ∅.
Definition caches : CacheType -> CACHE := initcache cache_demo.garbage 10 10 [].
Definition shared0 : SubShared := mkSubShared true false false false false.
Definition state l t : Sub := mkSub (Some l) (mkHost world0 ∅ [] [] [] 0) None None None shared0 caches t [] [].
Definition no_threads : SM unit := fun s => inr ((), s).
Definition answer_of (sf : Z) : MessageCacheResp := mkCacheResp (Some id) sf 4.
Definition resp : MessageCacheResp := answer_of (SF_FLAG_BAD + SF_FLAG_CANHAZ).
Definition message_of (sf : Z) : Message :=
  mkMessage MESSAGE_TYPE_RESP 0 MESSAGE_VERSION_1 None (Some (Messages.inj (answer_of sf))) None None.
Definition message : Message := message_of (SF_FLAG_BAD + SF_FLAG_CANHAZ).

Lemma item_ready n : ready K (item n).
Proof.
  exists (mkEventId (uuid_demo.uuid 4) 5 6), (mkBlock (Some id) None None None no_data), id, md5.
  split_and!; try done. apply md5_complete.
Qed.

Lemma item_sendable n : Forall sendable (bp_pData (item n)).
Proof. constructor; [|constructor]. left. split; [|done]. exists [1; 2; 3; 4]. by split_and!. Qed.

Lemma item_sound n : n <> BLOCK_POOL_STATUS_COLLECTING -> Z.land n BLOCK_POOL_STATUS_MASK = n -> sitem_ok K (item n).
Proof. intros Hn E. split; [unfold status_of; simpl; by rewrite E|]. intros _. split; [apply item_ready|apply item_sendable]. Qed.

Lemma pool_list : exists l, pool_shape l /\ contents l [1; 2]%positive.
Proof.
  destruct (pi_list _ _ _ (Init_ok ∅ _ eq_refl)) as (l0 & _ & S0 & C0).
  destruct (pool_shape_known _ S0) as (k0 & st0 & li0). destruct (Push_ok l0 [] 1%positive C0 li0 k0) as (l1 & _ & M1 & _ & C1).
  pose proof (pool_shape_meta _ _ M1 S0) as S1. destruct (pool_shape_known _ S1) as (k1 & st1 & li1). rewrite st0 in C1.
  destruct (Push_ok l1 _ 2%positive C1 li1 k1) as (l2 & _ & M2 & _ & C2). rewrite st1 in C2. exists l2. split; [by eapply pool_shape_meta|exact C2].
Qed.

Lemma world_sound : world_inv (sitem_ok K) world0.
Proof.
  split; [done|vm_compute; reflexivity|]. apply map_Forall_insert_2; [by apply item_sound|]. apply map_Forall_singleton. by apply item_sound.
Qed.

Lemma lookups : items !! 1%positive = Some (item BLOCK_POOL_STATUS_CHECKING_GLOBAL_CACHE) /\ items !! 2%positive = Some (item BLOCK_POOL_STATUS_FINALIZED).
Proof. split; [apply lookup_insert_eq|]. unfold items. by rewrite lookup_insert_ne, lookup_singleton_eq by done. Qed.

Lemma pool_sound l t : pool_shape l -> contents l [1; 2]%positive -> pool_inv (sitem_ok K) (sub_pool (state l t)) [1; 2]%positive.
Proof.
  intros Hs Hc. destruct lookups as [L1 L2]. split; [by exists l| | |apply world_sound].
  - repeat constructor; set_solver.
  - constructor; [exists (item BLOCK_POOL_STATUS_CHECKING_GLOBAL_CACHE); exact L1|].
    constructor; [exists (item BLOCK_POOL_STATUS_FINALIZED); exact L2|constructor].
Qed.

Lemma caches_know : knows K caches (arc_empty 10) (arc_empty 10).
Proof.
  split; [apply (initcache_rep K cache_demo.garbage 10 10 BADHASH)|apply (initcache_rep K cache_demo.garbage 10 10 GOODHASH)]; unfold in_limit; try lia; done.
Qed.

Lemma caches_sound : caches_shape K caches.
Proof. intros t Ht. eapply rep_shape, initcache_rep; [unfold in_limit; lia..|done]. Qed.

Lemma state_idle : exists l t, pool_shape l /\ contents l [1; 2]%positive /\ idle entity_demo.nts K (state l t).
Proof.
  destruct pool_list as (l & Hs & Hc). destruct entity_demo.dispatchers_table as (t & es & Hh & Ht & _). exists l, t. split; [done|]. split; [done|].
  split; try done; [eexists; by apply pool_sound|apply caches_sound|]. exists es, []. split; [done|].
  by destruct (entity_demo.heard_pair _ _ _ Hh) as (e1 & e2 & -> & _).
Qed.

(** The services have started. *)
Lemma running : exists s0 s, idle entity_demo.nts K s0 /\ Submission_Initialize_Once no_threads no_threads true true s0 = inr (true, s) /\
  serves entity_demo.nts K s [1; 2]%positive [] [] [] /\ world s = world0 /\ sb_caches s = caches.
Proof.
  destruct state_idle as (l & t & Hs & Hc & Hi). set (s0 := state l t) in *.
  destruct (Initialize_Once_run no_threads no_threads true true s0 (fun _ => eq_refl) eq_refl eq_refl eq_refl eq_refl)
    as (ok & s & E & _ & _ & _ & Hm). destruct (Hm eq_refl) as [-> _].
  destruct (start_serves entity_demo.nts K no_threads no_threads s0 s [1; 2]%positive Hi (pool_sound l t Hs Hc) (fun _ => eq_refl) E)
    as (Hv & R1 & R2 & _). exists s0, s. split; [done|]. split; [done|]. split; [done|]. split; [|by rewrite R2].
  exact (f_equal pool_world R1).
Qed.

Lemma id_sound : id_ok id.
Proof. split; [|done]. exists md5. split; [done|]. apply md5_complete. Qed.

Lemma waits : awaiting world0 (ctx_address transfer_demo.ctx) id [1; 2]%positive = [1%positive].
Proof. vm_compute. reflexivity. Qed.
End submission_demo.

Import bytes16 toy submission_demo.

Local Abbreviation file_store := (fun (_ : TransportDescriptor) (i : positive) (_ : ConnectedEntity) => Transfer_File_Store "store" (Some i)).
Local Abbreviation demo_serves := (serves entity_demo.nts K).

Lemma Submission_reachable_witness : exists transports s s',
  serving cnc_demo.sg entity_demo.nts entity_demo.cfg K transports file_store s /\ w_held (world s) = [] /\
  run_turn cnc_demo.sg entity_demo.cfg transports file_store (Submits 8 2 0 true) s = inr s'.
Proof.
  destruct transfer_demo.file_registry as (p & Hp). destruct running as (s0 & s & Hi & E & Hs & Hw & _).
  assert (Hv : serving cnc_demo.sg entity_demo.nts entity_demo.cfg K p file_store s)
    by exact (serving_start _ _ _ _ _ _ no_threads no_threads s0 s Hi (fun _ => eq_refl) E).
  destruct (Submission_reachable cnc_demo.sg entity_demo.nts entity_demo.cfg cnc_demo.nugget_entries K p _ Hp file_store
    (TransportSafe0 := File_Store_safe K "store" eq_refl) s Hv) as (Hh & (xs & rq & sq & ts & Hpi & _) & Ht).
  destruct (Ht (Submits 8 2 0 true)) as (s' & E').
  - exists (item BLOCK_POOL_STATUS_FINALIZED). rewrite Hw. split; [exact (proj2 lookups)|]. split; [reflexivity|].
    split; [apply item_ready|]. split; [apply item_sendable|]. intros ys Hy. destruct (pi_list _ _ _ Hy) as (l & El & Hsh & Hc).
    destruct (pi_list _ _ _ (sv_pool _ _ _ _ _ _ _ Hs)) as (l' & El' & _ & Hc'). rewrite El in El'. injection El' as <-.
    rewrite (contents_inj l _ _ (inr world0) Hc Hc'). right. left.
  - exists p, s, s'. split; [exact Hv|]. split; [exact Hh|exact E'].
Defined.

Lemma Submission_Submit_outcomes_witness : exists s s', demo_serves s [1; 2]%positive [] [] [] /\
  Submission_Submit 8 2 0 true s = inr ((RZB_SUBMISSION_OK, 0, 0), s') /\
  demo_serves s' [1; 2]%positive [2%positive] [] [mkTiming 2 8].
Proof.
  destruct running as (s0 & s & _ & _ & Hs & Hw & HC).
  destruct (Submission_Submit_outcomes entity_demo.nts K 8 2 0 s _ _ _ _ (item BLOCK_POOL_STATUS_FINALIZED) md5 (arc_empty 10) (arc_empty 10) Hs)
    as (r & s' & E & _ & Hres).
  - right. left.
  - rewrite Hw. exact (proj2 lookups).
  - reflexivity.
  - apply item_ready.
  - apply item_sendable.
  - reflexivity.
  - rewrite HC. apply caches_know.
  - exists s, s'. split; [exact Hs|]. destruct Hres as (-> & Hs' & _). split; [exact E|exact Hs'].
Defined.

Lemma Submission_Response_answers_witness : exists s s', demo_serves s [1; 2]%positive [] [] [] /\
  Submission_GlobalCache_Response transfer_demo.ctx message s = inr (true, s') /\ demo_serves s' [1; 2]%positive [] [1%positive] [].
Proof.
  destruct running as (s0 & s & _ & _ & Hs & Hw & HC).
  destruct (Submission_Response_answers entity_demo.nts K transfer_demo.ctx message resp id s _ _ _ _ Hs eq_refl eq_refl eq_refl id_sound)
    as (s' & E & Hs' & _). rewrite Hw, waits in Hs'. exists s, s'. split; [exact Hs|]. split; [exact E|exact Hs'].
Defined.

Lemma Submission_answer_remembered_witness : exists s s' s2, demo_serves s [1; 2]%positive [] [] [] /\
  Submission_GlobalCache_Response transfer_demo.ctx message s = inr (true, s') /\
  Submission_Submit 8 2 0 true s' = inr ((RZB_SUBMISSION_OK, SF_FLAG_BAD, 4), s2) /\ demo_serves s2 [1; 2]%positive [] [1; 2]%positive [].
Proof.
  destruct running as (s0 & s & _ & _ & Hs & Hw & HC).
  destruct (Response_run entity_demo.nts K transfer_demo.ctx message resp id s _ _ _ _ Hs eq_refl eq_refl eq_refl id_sound)
    as (s' & E & _ & _ & _ & _ & Hi). rewrite Hw, waits in Hi.
  destruct (Submission_answer_remembered entity_demo.nts K transfer_demo.ctx message resp id s [1; 2]%positive [] [] [] (arc_empty 10) (arc_empty 10)
    1 8 2 0 (item BLOCK_POOL_STATUS_FINALIZED) md5 s' Hs) as (s2 & E2 & Hs2 & _); try done.
  - apply id_sound.
  - rewrite Hw. exact waits.
  - rewrite HC. apply caches_know.
  - right. left.
  - apply item_ready.
  - apply item_sendable.
  - exists s, s', s2. split; [exact Hs|]. split; [exact E|]. split; [exact E2|exact Hs2].
Defined.

(** The item that asked is in the queue of submissions. *)
Lemma queued sf : exists s, demo_serves s [1; 2]%positive [] ([] ++ [1%positive]) [] /\
  w_items (world s) !! 1%positive = Some (answered sf (item BLOCK_POOL_STATUS_CHECKING_GLOBAL_CACHE)).
Proof.
  destruct running as (s0 & s & _ & _ & Hs & Hw & HC).
  destruct (Response_run entity_demo.nts K transfer_demo.ctx (message_of sf) (answer_of sf) id s _ _ _ _ Hs eq_refl eq_refl eq_refl id_sound)
    as (s' & _ & Hs' & _ & _ & _ & Hi). rewrite Hw, waits in Hs', Hi. exists s'.
  split; [exact Hs'|]. rewrite Hi. exact (f_equal (fmap (answered_if true _)) (proj1 lookups)).
Qed.

Lemma Submission_SubmitTurn_outcomes_witness : exists transports s loc' s', demo_serves s [1; 2]%positive [] [1%positive] [] /\
  Submission_SubmitTurn cnc_demo.sg entity_demo.cfg transports file_store true [] 0 s = inr ((true, loc'), s').
Proof.
  destruct transfer_demo.file_registry as (p & Hp). destruct (queued SF_FLAG_CANHAZ) as (s & Hs & _).
  destruct (Submission_SubmitTurn_outcomes cnc_demo.sg entity_demo.nts entity_demo.cfg cnc_demo.nugget_entries K p _ Hp file_store
    (TransportSafe0 := File_Store_safe K "store" eq_refl) true [] 0 s _ _ [] [] 1 Hs) as (x' & loc' & s' & E & _).
  exists p, s, loc', s'. split; [exact Hs|exact E].
Defined.


Lemma Submission_event_locality_stale_witness : exists transports s m s', demo_serves s [1; 2]%positive [] [1%positive] [] /\
  Submission_SubmitTurn cnc_demo.sg entity_demo.cfg transports file_store true [] 77 s = inr ((true, 77), s') /\
  m_message m = Some (Messages.inj (mkBlockSubmission SUBMISSION_REASON_EVENT (Some event) 77)).
Proof.
  destruct transfer_demo.file_registry as (p & Hp). destruct (queued SF_FLAG_BAD) as (s & Hs & Hx).
  destruct (Submission_event_locality_stale cnc_demo.sg entity_demo.nts entity_demo.cfg cnc_demo.nugget_entries K p _ Hp file_store
    (TransportSafe0 := File_Store_safe K "store" eq_refl) [] 77 s _ _ [] [] 1 _ Hs Hx eq_refl) as (m & s' & E & _ & Hm).
  exists p, s, m, s'. split; [exact Hs|]. split; [exact E|exact Hm].
Defined.

Lemma Submission_Abandon_terminates_witness : exists s s', demo_serves s [1; 2]%positive [] [] [] /\
  Submission_AbandonStuckContextCacheLookups 2 transfer_demo.ctx 0 s = inr (Some 1, s') /\ demo_serves s' [2%positive] [] [] [].
Proof.
  destruct running as (s0 & s & _ & _ & Hs & Hw & HC).
  destruct (Submission_Abandon_terminates entity_demo.nts K transfer_demo.ctx s _ _ _ _ Hs) as (s' & E & Hs' & _). rewrite Hw in E, Hs'.
  exists s, s'. split; [exact Hs|]. split; [exact E|exact Hs'].
Defined.

Lemma Submission_Initialize_Once_all_or_nothing_witness : exists s ok s', sg_subInitLock (sb_shared s) = true /\
  Submission_Initialize_Once no_threads no_threads true false s = inr (ok, s') /\ ok = false /\ stopped s'.
Proof.
  destruct state_idle as (l & t & _ & _ & Hi).
  destruct (Submission_Initialize_Once_all_or_nothing no_threads no_threads true false (state l t) (fun _ => eq_refl) eq_refl eq_refl eq_refl eq_refl)
    as (ok & s' & E & _ & _ & Hst & Hok). specialize (Hok eq_refl). exists (state l t), ok, s'. split; [reflexivity|].
  split; [exact E|]. split; [exact Hok|]. rewrite Hok in Hst. exact Hst.
Defined.
