(* ===== verification/Command.v ===== *)
(** * Command and control: src/command_and_control.c and the contexts of src/api.c

    The nuggets of a process are its contexts.  One thread of the process receives the
    commands of the dispatchers and hands each to the context it names, or to all of
    them; a table of hooks per context says what a command does, and the default hooks
    register the context, take over the configuration, pause and resume it, and end
    the process.

    Contexts live in a finite map by address ([cn_contexts]); the list of api.c holds
    their addresses, and reading one that was freed is a crash.  The definitions named
    after threads are one turn of the thread's loop.  A thread that waits, for a
    dispatcher or for the semaphore of its registration, gets the turns that the other
    threads take in the meantime: [None] when they do not suffice.  The broker is
    external: [cn_puts] are the outcomes of the coming sends and [cn_sent] the messages
    it took; [cn_sys] are the outcomes of the coming creations of locks, queues, threads,
    timers and semaphores. *)

From S2P Require Import Prelude CLib RzbList RzbListProps ListM Hash LibUuid Uuids Ntlv Blocks JsonC JsonBuffer JsonText Messages MessageCodecs CncMessages LocalCache Entities BlockPool.

Local Open Scope Z_scope.

Definition CONTEXT_FLAG_STAND_ALONE : Z := 1.
Definition NUGGET_TYPE_COLLECTION : string := "COLLECTION".
Definition NUGGET_TYPE_INSPECTION : string := "INSPECTION".
Definition NUGGET_TYPE_OUTPUT : string := "OUTPUT".

(** The hooks of a context: the default ones or a structure of the nugget. *)
Inductive HooksPtr := DefaultHooks | OwnHooks (a : positive).

Section State.
Context `{EVP} `{LibUuid}.

(** [struct RazorbackContext]; [cx_context] has the fields that other files use. *)
Record Context := mkCtx {
  cx_context : RazorbackContext;
  cx_iFlags : Z;
  cx_pCommandHooks : option HooksPtr;
  cx_regSem : option Z;
  cx_regOk : bool;
  cx_paused : bool;
  cx_dataTypeCount : Z;
  cx_dataTypeList : heap_ptr (list uuid_t);
  cx_judgmentQueue : bool
}.

Definition set_locality (l : Z) (x : Context) : Context :=
  let c := cx_context x in
  mkCtx (mkContext (ctx_address c) (ctx_uuidNuggetId c) (ctx_uuidNuggetType c) (ctx_uuidApplicationType c) l (ctx_dispatcher c))
    (cx_iFlags x) (cx_pCommandHooks x) (cx_regSem x) (cx_regOk x) (cx_paused x) (cx_dataTypeCount x) (cx_dataTypeList x) (cx_judgmentQueue x).
Definition set_hooks (h : option HooksPtr) (x : Context) : Context :=
  mkCtx (cx_context x) (cx_iFlags x) h (cx_regSem x) (cx_regOk x) (cx_paused x) (cx_dataTypeCount x) (cx_dataTypeList x) (cx_judgmentQueue x).
Definition set_regSem (n : option Z) (x : Context) : Context :=
  mkCtx (cx_context x) (cx_iFlags x) (cx_pCommandHooks x) n (cx_regOk x) (cx_paused x) (cx_dataTypeCount x) (cx_dataTypeList x) (cx_judgmentQueue x).
Definition set_regOk (b : bool) (x : Context) : Context :=
  mkCtx (cx_context x) (cx_iFlags x) (cx_pCommandHooks x) (cx_regSem x) b (cx_paused x) (cx_dataTypeCount x) (cx_dataTypeList x) (cx_judgmentQueue x).
Definition set_paused (b : bool) (x : Context) : Context :=
  mkCtx (cx_context x) (cx_iFlags x) (cx_pCommandHooks x) (cx_regSem x) (cx_regOk x) b (cx_dataTypeCount x) (cx_dataTypeList x) (cx_judgmentQueue x).
Definition set_judgmentQueue (b : bool) (x : Context) : Context :=
  mkCtx (cx_context x) (cx_iFlags x) (cx_pCommandHooks x) (cx_regSem x) (cx_regOk x) (cx_paused x) (cx_dataTypeCount x) (cx_dataTypeList x) b.

(** The static variables of command_and_control.c: whether the queues exist, the lock
    with whether it is held, the thread with its context, the last hello timer, and
    how many run.  [cn_threads] are the contexts for which a thread of
    re-registration was launched. *)
Record Cnc := mkCnc {
  cn_contexts : gmap positive Context;
  cn_uuids : UuidLists;
  cn_table : Table;
  cn_caches : CacheType -> CACHE;
  sg_bQueueInitialized : bool;
  processLock : option bool;
  sg_readQueue : bool;
  sg_writeQueue : bool;
  sg_tThread : option (option positive);
  sg_helloTimer : bool;
  cn_timers : Z;
  cn_threads : list positive;
  cn_sent : list Message;
  cn_puts : list bool;
  cn_sys : list bool;
  cn_allocs : allocs
}.

(** A computation that does not return: a crash, or the end of the process. *)
Inductive halt := Crash (e : fault) | Exit (c : Cnc).

Definition CM (A : Type) : Type := Cnc -> halt + (A * Cnc).

Abbreviation context_list := (List_t (halt + Cnc) uuid_t positive).

(** The process: [sg_ContextList] of api.c, and the rest. *)
Record Node := mkNode { sg_ContextList : option context_list; nd_cnc : Cnc }.

Definition NM (A : Type) : Type := Node -> halt + (A * Node).

Definition set_contexts (m : gmap positive Context) (c : Cnc) : Cnc :=
  mkCnc m (cn_uuids c) (cn_table c) (cn_caches c) (sg_bQueueInitialized c) (processLock c) (sg_readQueue c) (sg_writeQueue c) (sg_tThread c)
    (sg_helloTimer c) (cn_timers c) (cn_threads c) (cn_sent c) (cn_puts c) (cn_sys c) (cn_allocs c).
Definition set_uuids (u : UuidLists) (c : Cnc) : Cnc :=
  mkCnc (cn_contexts c) u (cn_table c) (cn_caches c) (sg_bQueueInitialized c) (processLock c) (sg_readQueue c) (sg_writeQueue c) (sg_tThread c)
    (sg_helloTimer c) (cn_timers c) (cn_threads c) (cn_sent c) (cn_puts c) (cn_sys c) (cn_allocs c).
Definition set_entity_table (t : Table) (c : Cnc) : Cnc :=
  mkCnc (cn_contexts c) (cn_uuids c) t (cn_caches c) (sg_bQueueInitialized c) (processLock c) (sg_readQueue c) (sg_writeQueue c) (sg_tThread c)
    (sg_helloTimer c) (cn_timers c) (cn_threads c) (cn_sent c) (cn_puts c) (cn_sys c) (cn_allocs c).
Definition set_cnc_caches (k : CacheType -> CACHE) (c : Cnc) : Cnc :=
  mkCnc (cn_contexts c) (cn_uuids c) (cn_table c) k (sg_bQueueInitialized c) (processLock c) (sg_readQueue c) (sg_writeQueue c) (sg_tThread c)
    (sg_helloTimer c) (cn_timers c) (cn_threads c) (cn_sent c) (cn_puts c) (cn_sys c) (cn_allocs c).
Definition set_initialized (b : bool) (c : Cnc) : Cnc :=
  mkCnc (cn_contexts c) (cn_uuids c) (cn_table c) (cn_caches c) b (processLock c) (sg_readQueue c) (sg_writeQueue c) (sg_tThread c)
    (sg_helloTimer c) (cn_timers c) (cn_threads c) (cn_sent c) (cn_puts c) (cn_sys c) (cn_allocs c).
Definition set_processLock (b : option bool) (c : Cnc) : Cnc :=
  mkCnc (cn_contexts c) (cn_uuids c) (cn_table c) (cn_caches c) (sg_bQueueInitialized c) b (sg_readQueue c) (sg_writeQueue c) (sg_tThread c)
    (sg_helloTimer c) (cn_timers c) (cn_threads c) (cn_sent c) (cn_puts c) (cn_sys c) (cn_allocs c).
Definition set_queues (r w : bool) (c : Cnc) : Cnc :=
  mkCnc (cn_contexts c) (cn_uuids c) (cn_table c) (cn_caches c) (sg_bQueueInitialized c) (processLock c) r w (sg_tThread c)
    (sg_helloTimer c) (cn_timers c) (cn_threads c) (cn_sent c) (cn_puts c) (cn_sys c) (cn_allocs c).
Definition set_thread (t : option (option positive)) (c : Cnc) : Cnc :=
  mkCnc (cn_contexts c) (cn_uuids c) (cn_table c) (cn_caches c) (sg_bQueueInitialized c) (processLock c) (sg_readQueue c) (sg_writeQueue c) t
    (sg_helloTimer c) (cn_timers c) (cn_threads c) (cn_sent c) (cn_puts c) (cn_sys c) (cn_allocs c).
Definition set_timer (b : bool) (n : Z) (c : Cnc) : Cnc :=
  mkCnc (cn_contexts c) (cn_uuids c) (cn_table c) (cn_caches c) (sg_bQueueInitialized c) (processLock c) (sg_readQueue c) (sg_writeQueue c)
    (sg_tThread c) b n (cn_threads c) (cn_sent c) (cn_puts c) (cn_sys c) (cn_allocs c).
Definition set_threads (l : list positive) (c : Cnc) : Cnc :=
  mkCnc (cn_contexts c) (cn_uuids c) (cn_table c) (cn_caches c) (sg_bQueueInitialized c) (processLock c) (sg_readQueue c) (sg_writeQueue c)
    (sg_tThread c) (sg_helloTimer c) (cn_timers c) l (cn_sent c) (cn_puts c) (cn_sys c) (cn_allocs c).
Definition set_sent (l : list Message) (o : list bool) (c : Cnc) : Cnc :=
  mkCnc (cn_contexts c) (cn_uuids c) (cn_table c) (cn_caches c) (sg_bQueueInitialized c) (processLock c) (sg_readQueue c) (sg_writeQueue c)
    (sg_tThread c) (sg_helloTimer c) (cn_timers c) (cn_threads c) l o (cn_sys c) (cn_allocs c).
Definition set_outcomes (o : list bool) (c : Cnc) : Cnc :=
  mkCnc (cn_contexts c) (cn_uuids c) (cn_table c) (cn_caches c) (sg_bQueueInitialized c) (processLock c) (sg_readQueue c) (sg_writeQueue c)
    (sg_tThread c) (sg_helloTimer c) (cn_timers c) (cn_threads c) (cn_sent c) (cn_puts c) o (cn_allocs c).
Definition set_cnc_allocs (o : allocs) (c : Cnc) : Cnc :=
  mkCnc (cn_contexts c) (cn_uuids c) (cn_table c) (cn_caches c) (sg_bQueueInitialized c) (processLock c) (sg_readQueue c) (sg_writeQueue c)
    (sg_tThread c) (sg_helloTimer c) (cn_timers c) (cn_threads c) (cn_sent c) (cn_puts c) (cn_sys c) o.
End State.

Global Instance CM_ret `{EVP} `{LibUuid} : MRet CM := fun A x c => inr (x, c).
Global Instance CM_bind `{EVP} `{LibUuid} : MBind CM := fun A B f m c =>
  match m c with
  | inl e => inl e
  | inr (x, c') => f x c'
  end.
Global Instance NM_ret `{EVP} `{LibUuid} : MRet NM := fun A x n => inr (x, n).
Global Instance NM_bind `{EVP} `{LibUuid} : MBind NM := fun A B f m n =>
  match m n with
  | inl e => inl e
  | inr (x, n') => f x n'
  end.

Section Command.
Context `{EVP} `{LibUuid}.

(** ** The process *)

Definition cnc : CM Cnc := fun c => inr (c, c).
Definition update (f : Cnc -> Cnc) : CM unit := fun c => inr ((), f c).
Definition halts {A} (e : halt) : CM A := fun _ => inl e.
(** [exit (0)] *)
Definition exits {A} : CM A := fun c => inl (Exit c).
Definition nonzero {A} (p : option A) : CM A := match p with Some x => mret x | None => halts (Crash NullDeref) end.
Definition context_at (a : positive) : CM Context := fun c =>
  match cn_contexts c !! a with Some x => inr (x, c) | None => inl (Crash UseAfterFree) end.
Definition context_update (a : positive) (f : Context -> Context) : CM unit :=
  x ← context_at a; update (fun c => set_contexts (<[a := f x]> (cn_contexts c)) c).

(** Code that allocates, code of the table, and the next outcomes. *)
Definition allocates {A} (m : M A) : CM (option A) := fun c =>
  match m (cn_allocs c) with None => inl (Crash NullDeref) | Some (r, o) => inr (r, set_cnc_allocs o c) end.
Definition in_table {A} (m : TM A) : CM A := fun c =>
  match m (cn_table c) with None => inl (Crash NullDeref) | Some (x, t) => inr (x, set_entity_table t c) end.
Definition creates : CM bool := fun c => let '(ok, o) := alloc_next (cn_sys c) in inr (ok, set_outcomes o c).

(** [Queue_Put (sg_writeQueue, message)] *)
Definition put_command (m : Message) : CM bool := fun c =>
  if negb (sg_writeQueue c) then inl (Crash NullDeref)
  else
    let '(ok, o) := alloc_next (cn_puts c) in
    inr (ok, set_sent (if ok then cn_sent c ++ [m] else cn_sent c) o c).

(** [Thread_GetContext (sg_tThread)] *)
Definition thread_context : CM (option positive) := fun c => inr (default None (sg_tThread c), c).

(** [Mutex_Lock (processLock)] and [Mutex_Unlock (processLock)] *)
Definition CommandAndControl_Pause : CM unit := fun c =>
  match processLock c with
  | None => inl (Crash NullDeref)
  | Some true => inl (Crash Deadlock)
  | Some false => inr ((), set_processLock (Some true) c)
  end.
Definition CommandAndControl_Unpause : CM unit := fun c =>
  match processLock c with
  | None => inl (Crash NullDeref)
  | Some _ => inr ((), set_processLock (Some false) c)
  end.

Definition Semaphore_Post (a : positive) : CM unit :=
  x ← context_at a;
  n ← nonzero (cx_regSem x);
  context_update a (set_regSem (Some (n + 1))).

(** The type of the nugget is that of a dispatcher; NULL when the type is unknown. *)
Definition isDispatcher (type : uuid_t) : CM (option bool) :=
  c ← cnc; allocates (is_dispatcher (cn_uuids c) type).

(** ** Hooks *)

Record RazorbackCommandAndControlHooks := mkHooks {
  processRegReqMessage : option (Message -> CM (bool * Message));
  processRegRespMessage : option (Message -> CM (bool * Message));
  processRegErrMessage : option (Message -> CM (bool * Message));
  processConfUpdateMessage : option (Message -> CM (bool * Message));
  processConfAckMessage : option (Message -> CM (bool * Message));
  processConfErrMessage : option (Message -> CM (bool * Message));
  processPauseMessage : option (Message -> CM (bool * Message));
  processPausedMessage : option (Message -> CM (bool * Message));
  processGoMessage : option (Message -> CM (bool * Message));
  processRunningMessage : option (Message -> CM (bool * Message));
  processTermMessage : option (Message -> CM (bool * Message));
  processByeMessage : option (Message -> CM (bool * Message));
  processHelloMessage : option (Message -> CM (bool * Message));
  processReRegMessage : option (Message -> CM (bool * Message))
}.

Section Config.
(** The transports, the clock, the values of the configuration; [undef] is what an
    uninitialised UUID holds and [pushes] are the outcomes of the node allocations of
    cloned lists. *)
Variable transports : option transport_list.
Variable undef : uuid_t.
Variable pushes : allocs.
Variable now : Z.

(** *** Sending *)

Definition CommandAndControl_SendBye (context : option positive) : CM bool :=
  match context with
  | None => mret false
  | Some a =>
      x ← context_at a;
      bye ← allocates (MessageBye_Initialize (ctx_uuidNuggetId (cx_context x)));
      match bye with
      | None => mret false
      | Some bye => put_command bye
      end
  end.

Definition CommandAndControl_SendHello (context : option positive) : CM Z :=
  match context with
  | None => mret LIST_EACH_ERROR
  | Some a =>
      x ← context_at a;
      c ← cnc;
      hello ← allocates (MessageHello_Initialize (cn_uuids c) pushes (Some (cx_context x)));
      match hello with
      | None => mret LIST_EACH_ERROR
      | Some hello => ok ← put_command hello; mret (if ok : bool then LIST_EACH_OK else LIST_EACH_ERROR)
      end
  end.

(** The timer that was there is forgotten. *)
Definition CommandAndControl_ArmHelloTimer : CM bool :=
  ok ← creates;
  update (fun c => set_timer ok (if ok : bool then cn_timers c + 1 else cn_timers c) c) ;;
  mret ok.

(** *** The default hooks *)

(** The hooks that only log. *)
Definition Default_log (message : Message) : CM (bool * Message) := mret (true, message).

Definition Default_processRegReqMessage : Message -> CM (bool * Message) := Default_log.
Definition Default_processConfAckMessage : Message -> CM (bool * Message) := Default_log.
Definition Default_processConfErrMessage : Message -> CM (bool * Message) := Default_log.
Definition Default_processPausedMessage : Message -> CM (bool * Message) := Default_log.
Definition Default_processRunningMessage : Message -> CM (bool * Message) := Default_log.
Definition Default_processByeMessage : Message -> CM (bool * Message) := Default_log.

Definition Default_processHelloMessage (message : Message) : CM (bool * Message) :=
  hello ← nonzero (hello_of message);
  d ← isDispatcher (he_uuidNuggetType hello);
  match d with
  | None => mret (false, message)
  | Some false => mret (true, message)
  | Some true =>
      c ← cnc;
      in_table (ConnectedEntityList_Update (cn_uuids c) transports undef pushes now (Some message)) ;;
      mret (true, message)
  end.

Definition CommandAndControl_processCacheClearMessage (context : positive) : CM bool :=
  x ← context_at context;
  d ← isDispatcher (ctx_uuidNuggetType (cx_context x));
  match d with
  | None => mret false
  | Some d =>
      (if negb d && (Z.land (cx_iFlags x) CONTEXT_FLAG_STAND_ALONE == CONTEXT_FLAG_STAND_ALONE) then
         c ← cnc;
         '(_, k) ← nonzero (clearLocalEntry ALL (cn_caches c));
         update (set_cnc_caches k)
       else mret ()) ;;
      mret true
  end.

(** The results of the two calls are not looked at. *)
Definition Default_processRegRespMessage (message : Message) : CM (bool * Message) :=
  context ← thread_context;
  a ← nonzero context;
  x ← context_at a;
  (if Z.land (cx_iFlags x) CONTEXT_FLAG_STAND_ALONE == CONTEXT_FLAG_STAND_ALONE then
     CommandAndControl_SendHello (Some a) ;;
     CommandAndControl_ArmHelloTimer ;; mret ()
   else mret ()) ;;
  mret (true, message).

Definition Default_processRegErrMessage (message : Message) : CM (bool * Message) :=
  nonzero (b ← m_message message; proj b : option MessageError) ;;
  context ← thread_context;
  a ← nonzero context;
  context_update a (set_regOk false) ;;
  Semaphore_Post a ;;
  mret (true, message).

Definition set_list (type : Z) (l : option uuid_list) (sg : UuidLists) : UuidLists :=
  if type == UUID_TYPE_DATA_TYPE then mkUuidLists l (sg_IntelTypeList sg) (sg_NtlvTypeList sg) (sg_NtlvNameList sg) (sg_NuggetList sg) (sg_NuggetTypeList sg)
  else if type == UUID_TYPE_NTLV_TYPE then mkUuidLists (sg_DataTypeList sg) (sg_IntelTypeList sg) l (sg_NtlvNameList sg) (sg_NuggetList sg) (sg_NuggetTypeList sg)
  else if type == UUID_TYPE_NTLV_NAME then mkUuidLists (sg_DataTypeList sg) (sg_IntelTypeList sg) (sg_NtlvTypeList sg) l (sg_NuggetList sg) (sg_NuggetTypeList sg)
  else sg.

(** The list of the message after the call. *)
Definition CnC_UpdateUUIDList (listType : Z) (msgList : option uuid_list) : CM (option uuid_list) :=
  match msgList with
  | None => mret None
  | Some _ =>
      c ← cnc;
      '(_, list, msgList, o) ← nonzero (List_Transfer (UUID_Get_List (cn_uuids c) listType) msgList (cn_allocs c));
      update (fun c => set_cnc_allocs o (set_uuids (set_list listType list (cn_uuids c)) c)) ;;
      mret msgList
  end.

(** A missing context is logged and then used. *)
Definition Default_processConfUpdateMessage (message : Message) : CM (bool * Message) :=
  update ← nonzero (b ← m_message message; proj b : option MessageConfigurationUpdate);
  types ← CnC_UpdateUUIDList UUID_TYPE_NTLV_TYPE (cu_ntlvTypes update);
  names ← CnC_UpdateUUIDList UUID_TYPE_NTLV_NAME (cu_ntlvNames update);
  datas ← CnC_UpdateUUIDList UUID_TYPE_DATA_TYPE (cu_dataTypes update);
  let message := with_body message (Some (Messages.inj (mkConfigurationUpdate types names datas))) in
  context ← thread_context;
  nuggets ← allocates (Message_Get_Nuggets (Some message));
  a ← nonzero context;
  x ← context_at a;
  configAck ← allocates (MessageConfigurationAck_Initialize (ctx_uuidNuggetId (cx_context x)) (default undef (fst <$> nuggets))
                 (ctx_uuidNuggetType (cx_context x)) (ctx_uuidApplicationType (cx_context x)));
  match configAck with
  | None => mret (false, message)
  | Some configAck => ok ← put_command configAck; mret (ok, message)
  end.

Definition Default_processPauseMessage (message : Message) : CM (bool * Message) :=
  context ← thread_context;
  match context with
  | None => mret (false, message)
  | Some a => context_update a (set_paused true) ;; mret (true, message)
  end.

Definition Default_processGoMessage (message : Message) : CM (bool * Message) :=
  context ← thread_context;
  match context with
  | None => mret (false, message)
  | Some a =>
      context_update a (set_paused false) ;;
      context_update a (set_regOk true) ;;
      Semaphore_Post a ;;
      nuggets ← allocates (Message_Get_Nuggets (Some message));
      let '(source, dest) := default (undef, undef) nuggets in
      running ← allocates (MessageRunning_Initialize dest source);
      match running with
      | None => mret (false, message)
      | Some running => ok ← put_command running; mret (ok, message)
      end
  end.

Definition Default_processTermMessage (message : Message) : CM (bool * Message) :=
  nonzero (b ← m_message message; proj b : option MessageTerminate) ;;
  context ← thread_context;
  a ← nonzero context;
  x ← context_at a;
  bye ← allocates (MessageBye_Initialize (ctx_uuidNuggetId (cx_context x)));
  (match bye with
   | None => mret ()
   | Some bye => put_command bye ;; mret ()
   end) ;;
  exits.

(** The thread is launched and runs [ReregistrationThread]; when it cannot be, the
    command is lost. *)
Definition Default_processReRegMessage (message : Message) : CM (bool * Message) :=
  context ← thread_context;
  ok ← creates;
  (match context with
   | Some a => if ok : bool then update (fun c => set_threads (cn_threads c ++ [a]) c) else mret ()
   | None => mret ()
   end) ;;
  mret (true, message).

Definition sg_DefaultHooks : RazorbackCommandAndControlHooks :=
  mkHooks (Some Default_processRegReqMessage) (Some Default_processRegRespMessage) (Some Default_processRegErrMessage)
    (Some Default_processConfUpdateMessage) (Some Default_processConfAckMessage) (Some Default_processConfErrMessage)
    (Some Default_processPauseMessage) (Some Default_processPausedMessage) (Some Default_processGoMessage)
    (Some Default_processRunningMessage) (Some Default_processTermMessage) (Some Default_processByeMessage)
    (Some Default_processHelloMessage) (Some Default_processReRegMessage).

(** *** Dispatch *)

(** The hooks of nuggets, by address. *)
Variable own_hooks : positive -> RazorbackCommandAndControlHooks.

Definition hooks_of (p : HooksPtr) : RazorbackCommandAndControlHooks :=
  match p with DefaultHooks => sg_DefaultHooks | OwnHooks a => own_hooks a end.

(** A UUID in the log: its description is looked up and released. *)
Definition CommandAndControl_PrintUuid (u : uuid_t) (type : Z) : CM unit :=
  c ← cnc; allocates (UUID_Get_DescriptionByUUID (cn_uuids c) u type) ;; mret ().

Fixpoint print_uuids (us : list uuid_t) (type : Z) : CM unit :=
  match us with [] => mret () | u :: us' => CommandAndControl_PrintUuid u type ;; print_uuids us' type end.

(** A call of a hook, which may be NULL. *)
Definition call_hook (f : option (Message -> CM (bool * Message))) (message : Message) : CM (Z * Message) :=
  match f with
  | None => mret (LIST_EACH_OK, message)
  | Some f => '(ok, message) ← f message; mret (if ok : bool then LIST_EACH_OK else LIST_EACH_ERROR, message)
  end.

Definition CommandAndControl_DispatchCommand (p_pContext : positive) (message : Message) : CM (Z * Message) :=
  x ← context_at p_pContext;
  match cx_pCommandHooks x with
  | None => mret (LIST_EACH_ERROR, message)
  | Some p =>
      let hooks := hooks_of p in
      if m_type message == MESSAGE_TYPE_HELLO then
        hello ← nonzero (hello_of message);
        CommandAndControl_PrintUuid (he_uuidNuggetType hello) UUID_TYPE_NUGGET_TYPE ;;
        CommandAndControl_PrintUuid (he_uuidApplicationType hello) UUID_TYPE_NUGGET ;;
        call_hook (processHelloMessage hooks) message
      else if m_type message == MESSAGE_TYPE_REG_REQ then
        req ← nonzero (b ← m_message message; proj b : option MessageRegistrationRequest);
        CommandAndControl_PrintUuid (rr_uuidNuggetType req) UUID_TYPE_NUGGET_TYPE ;;
        CommandAndControl_PrintUuid (rr_uuidApplicationType req) UUID_TYPE_NUGGET_TYPE ;;
        us ← nonzero (read_uuids (rr_pDataTypeList req) (rr_iDataTypeCount req));
        print_uuids us UUID_TYPE_DATA_TYPE ;;
        call_hook (processRegReqMessage hooks) message
      else if m_type message == MESSAGE_TYPE_REG_RESP then call_hook (processRegRespMessage hooks) message
      else if m_type message == MESSAGE_TYPE_REG_ERR then call_hook (processRegErrMessage hooks) message
      else if m_type message == MESSAGE_TYPE_CONFIG_UPDATE then call_hook (processConfUpdateMessage hooks) message
      else if m_type message == MESSAGE_TYPE_CONFIG_ACK then call_hook (processConfAckMessage hooks) message
      else if m_type message == MESSAGE_TYPE_CONFIG_ERR then call_hook (processConfErrMessage hooks) message
      else if m_type message == MESSAGE_TYPE_PAUSE then call_hook (processPauseMessage hooks) message
      else if m_type message == MESSAGE_TYPE_PAUSED then call_hook (processPausedMessage hooks) message
      else if m_type message == MESSAGE_TYPE_GO then call_hook (processGoMessage hooks) message
      else if m_type message == MESSAGE_TYPE_RUNNING then call_hook (processRunningMessage hooks) message
      else if m_type message == MESSAGE_TYPE_TERM then call_hook (processTermMessage hooks) message
      else if m_type message == MESSAGE_TYPE_BYE then call_hook (processByeMessage hooks) message
      else if m_type message == MESSAGE_TYPE_CLEAR then
        result ← CommandAndControl_processCacheClearMessage p_pContext;
        mret (if result : bool then 1 else 0, message)
      else if m_type message == MESSAGE_TYPE_REREG then call_hook (processReRegMessage hooks) message
      else mret (LIST_EACH_ERROR, message)
  end.

(** ** The contexts: src/api.c *)

Definition in_cnc {A} (m : CM A) : NM A := fun n =>
  match m (nd_cnc n) with inl e => inl e | inr (x, c) => inr (x, mkNode (sg_ContextList n) c) end.

Definition Context_KeyCmp (st : halt + Cnc) (a : positive) (id : uuid_t) : Z :=
  match st with
  | inl _ => -1
  | inr c => match cn_contexts c !! a with Some x => uuid_compare (ctx_uuidNuggetId (cx_context x)) id | None => -1 end
  end.

Definition Context_Cmp (st : halt + Cnc) (a b : positive) : Z :=
  if decide (a = b) then 0
  else
    match st with
    | inl _ => -1
    | inr c =>
        match cn_contexts c !! a, cn_contexts c !! b with
        | Some x, Some y => uuid_compare (ctx_uuidNuggetId (cx_context x)) (ctx_uuidNuggetId (cx_context y))
        | _, _ => -1
        end
    end.

(** A callback of the list that reads the context it is called with. *)
Definition reading {U} (op : positive -> U -> halt + Cnc -> option (Z * U * (halt + Cnc))) (a : positive) (u : U) (st : halt + Cnc)
    : option (Z * U * (halt + Cnc)) :=
  match st with
  | inl e => Some (LIST_EACH_ERROR, u, inl e)
  | inr c => match cn_contexts c !! a with Some _ => op a u st | None => Some (LIST_EACH_ERROR, u, inl (Crash UseAfterFree)) end
  end.

Definition each_context {U} (op : positive -> U -> halt + Cnc -> option (Z * U * (halt + Cnc))) (u : U) : NM U := fun n =>
  match List_ForEach (sg_ContextList n) (Some op) u (inr (nd_cnc n)) with
  | None => inl (Crash NullDeref)
  | Some (_, l, u', inl e) => inl e
  | Some (_, l, u', inr c) => inr (u', mkNode l c)
  end.

Definition initApi (n : Node) : Node :=
  let c := nd_cnc n in
  let '(b1, o1) := alloc_next (cn_allocs c) in
  if negb b1 then mkNode None (set_cnc_allocs o1 c)
  else
    let '(b2, o2) := alloc_next o1 in
    mkNode (List_Create true b2 true LIST_MODE_GENERIC (Some Context_Cmp) (Some Context_KeyCmp) None None None None)
      (set_cnc_allocs o2 c).

(** [List_Find] and [List_Remove] on the list of contexts. *)
Definition Razorback_LookupContext (nuggetId : uuid_t) : NM (option positive) :=
  each_context (reading (List_FindKeyCmp Context_KeyCmp nuggetId)) None.

Definition Razorback_Remove_Context (context : option positive) : NM unit :=
  match context with
  | None => mret ()
  | Some a => each_context (reading (List_FindRemove (Some Context_Cmp) a)) None ;; mret ()
  end.

Definition Razorback_Destroy_Context (context : option positive) : CM unit :=
  match context with
  | None => mret ()
  | Some a => context_at a ;; update (fun c => set_contexts (delete a (cn_contexts c)) c)
  end.

(** [current] tells whether the calling thread is the one of command and control,
    whose context is changed for the call. *)
Definition ForEach_Context_Wrapper {U} (current : bool) (function : positive -> U -> CM (Z * U)) (a : positive) (u : U) (st : halt + Cnc)
    : option (Z * U * (halt + Cnc)) :=
  match st with
  | inl e => Some (LIST_EACH_ERROR, u, inl e)
  | inr c =>
      let prev := sg_tThread c in
      match function a u (if current then set_thread (Some (Some a)) c else c) with
      | inl e => Some (LIST_EACH_ERROR, u, inl e)
      | inr ((ret, u'), c') => Some (ret, u', inr (if current then set_thread prev c' else c'))
      end
  end.

Definition Razorback_ForEach_Context {U} (current : bool) (function : positive -> U -> CM (Z * U)) (u : U) : NM U :=
  each_context (ForEach_Context_Wrapper current function) u.

(** ** The thread *)

(** One turn of [CommandAndControl_Thread]; [None] when nothing was received. *)
Definition CommandAndControl_Turn (message : option Message) : NM unit :=
  match message with
  | None => mret ()
  | Some message =>
      in_cnc CommandAndControl_Pause ;;
      nuggets ← in_cnc (allocates (Message_Get_Nuggets (Some message)));
      (match nuggets with
       | None => mret ()
       | Some (source, dest) =>
           if uuid_is_null dest == 1 then
             context ← Razorback_LookupContext source;
             match context with
             | Some _ => mret ()
             | None => Razorback_ForEach_Context true CommandAndControl_DispatchCommand message ;; mret ()
             end
           else
             context ← Razorback_LookupContext dest;
             match context with
             | None => mret ()
             | Some a =>
                 prevContext ← in_cnc thread_context;
                 in_cnc (update (set_thread (Some (Some a)))) ;;
                 in_cnc (CommandAndControl_DispatchCommand a message) ;;
                 in_cnc (update (set_thread (Some prevContext)))
             end
       end) ;;
      in_cnc CommandAndControl_Unpause
  end.

Definition CommandAndControl_HelloTimer : NM unit :=
  in_cnc CommandAndControl_Pause ;;
  Razorback_ForEach_Context false (fun a u => r ← CommandAndControl_SendHello (Some a); mret (r, u)) () ;;
  in_cnc CommandAndControl_Unpause.

(** ** Registration *)

(** The loop that waits for a dispatcher: it with the turns that are left, or NULL when
    there are no more. *)
Fixpoint wait_for_dispatcher (turns : list (NM unit)) : NM (option (ConnectedEntity * list (NM unit))) :=
  dispatcher ← in_cnc (in_table (ConnectedEntityList_GetDedicatedDispatcher pushes));
  match dispatcher with
  | Some d => mret (Some (d, turns))
  | None =>
      match turns with
      | [] => mret None
      | turn :: turns' => turn ;; wait_for_dispatcher turns'
      end
  end.

(** [Semaphore_Wait (context->regSem)] *)
Fixpoint wait_for_registration (turns : list (NM unit)) (a : positive) : NM (option unit) :=
  x ← in_cnc (context_at a);
  n ← in_cnc (nonzero (cx_regSem x));
  if 0 <? n then in_cnc (context_update a (set_regSem (Some (n - 1)))) ;; mret (Some ())
  else
    match turns with
    | [] => mret None
    | turn :: turns' => turn ;; wait_for_registration turns' a
    end.

Definition CommandAndControl_Register (turns : list (NM unit)) (context : option positive) : NM (option bool) :=
  match context with
  | None => mret (Some false)
  | Some a =>
      r ← wait_for_dispatcher turns;
      match r with
      | None => mret None
      | Some (dispatcher, turns') =>
          x ← in_cnc (context_at a);
          regReq ← in_cnc (allocates (MessageRegistrationRequest_Initialize (ce_uuidNuggetId dispatcher)
                     (ctx_uuidNuggetId (cx_context x)) (ctx_uuidNuggetType (cx_context x)) (ctx_uuidApplicationType (cx_context x))
                     (cx_dataTypeCount x) (cx_dataTypeList x)));
          match regReq with
          | None => mret (Some false)
          | Some regReq =>
              ok ← in_cnc (put_command regReq);
              if negb ok then mret (Some false)
              else
                w ← wait_for_registration turns' a;
                match w with
                | None => mret None
                | Some _ => x ← in_cnc (context_at a); mret (Some (cx_regOk x))
                end
          end
      end
  end.

(** The context is destroyed when it cannot be registered again. *)
Definition ReregistrationThread (turns : list (NM unit)) (context : option positive) : NM (option unit) :=
  match context with
  | None => mret (Some ())
  | Some a =>
      in_cnc (context_update a (set_regOk false)) ;;
      r ← CommandAndControl_Register turns (Some a);
      match r with
      | None => mret None
      | Some true => mret (Some ())
      | Some false => in_cnc (Razorback_Destroy_Context (Some a)) ;; mret (Some ())
      end
  end.

(** ** Start and end *)

(** The queues, the table and the thread of a process; the result of the start of the
    table is not looked at. *)
Definition start_process (a : positive) : CM bool :=
  lock ← creates;
  update (set_processLock (if lock : bool then Some false else None)) ;;
  if negb lock then mret false
  else
    read ← creates;
    update (fun c => set_queues read (sg_writeQueue c) c) ;;
    if negb read then mret false
    else
      write ← creates;
      update (fun c => set_queues (sg_readQueue c) write c) ;;
      if negb write then mret false
      else
        timer ← creates;
        in_table (ConnectedEntityList_Start timer) ;;
        update (set_initialized true) ;;
        thread ← creates;
        update (set_thread (if thread : bool then Some (Some a) else None)) ;;
        mret thread.

Definition CommandAndControl_Start (turns : list (NM unit)) (p_pContext : option positive) : NM (option bool) :=
  match p_pContext with
  | None => mret (Some false)
  | Some a =>
      x ← in_cnc (context_at a);
      (match cx_pCommandHooks x with
       | None => in_cnc (context_update a (set_hooks (Some DefaultHooks)))
       | Some _ => mret ()
       end) ;;
      c ← in_cnc cnc;
      started ← (if Z.land (cx_iFlags x) CONTEXT_FLAG_STAND_ALONE == CONTEXT_FLAG_STAND_ALONE then
                   if sg_bQueueInitialized c then mret true else in_cnc (start_process a)
                 else mret (sg_bQueueInitialized c));
      if negb started then mret (Some false)
      else
        d ← in_cnc (isDispatcher (ctx_uuidNuggetType (cx_context x)));
        match d with
        | None => mret (Some false)
        | Some true => mret (Some true)
        | Some false => CommandAndControl_Register turns (Some a)
        end
  end.

(** The thread terminates the queues when it ends; [Timer_Destroy] accepts NULL. *)
Definition CommandAndControl_Shutdown : CM unit :=
  in_table ConnectedEntityList_Stop ;;
  update (fun c => if sg_helloTimer c then set_timer (sg_helloTimer c) (cn_timers c - 1) c else c) ;;
  update (fun c => match sg_tThread c with Some _ => set_queues false false c | None => c end) ;;
  update (set_thread None).

(** ** The contexts of a process *)

(** [Config_getLocalityId ()] and [Submission_Init]. *)
Variable locality : Z.
Variable Submission_Init : positive -> NM bool.

(** [List_Push] on the list of contexts; its result is not looked at. *)
Definition push_context (a : positive) : NM unit := fun n =>
  let '(ok, o) := alloc_next (cn_allocs (nd_cnc n)) in
  match List_Push ok (sg_ContextList n) a with
  | None => inl (Crash NullDeref)
  | Some (_, l) => inr ((), mkNode l (set_cnc_allocs o (nd_cnc n)))
  end.

(** The UUID of the collection type stays uninitialised when there is none. *)
Definition Razorback_Init_Context (turns : list (NM unit)) (context : option positive) : NM (option bool) :=
  match context with
  | None => mret (Some false)
  | Some a =>
      in_cnc (context_update a (fun x => set_locality locality (set_paused false x))) ;;
      sem ← in_cnc creates;
      in_cnc (context_update a (set_regSem (if sem : bool then Some 0 else None))) ;;
      if negb sem then mret (Some false)
      else
        push_context a ;;
        r ← CommandAndControl_Start turns (Some a);
        match r with
        | None => mret None
        | Some false => Razorback_Remove_Context (Some a) ;; mret (Some false)
        | Some true =>
            c ← in_cnc cnc;
            u ← in_cnc (allocates (UUID_Get_UUID (cn_uuids c) NUGGET_TYPE_COLLECTION UUID_TYPE_NUGGET_TYPE));
            x ← in_cnc (context_at a);
            if uuid_compare (ctx_uuidNuggetType (cx_context x)) (default undef u) == 0 then
              ok ← Submission_Init a;
              if ok : bool then mret (Some true) else Razorback_Remove_Context (Some a) ;; mret (Some false)
            else mret (Some true)
        end
  end.

(** [calloc]: the address of the new context. *)
Definition new_context (x : positive -> Context) : NM (option positive) := fun n =>
  let c := nd_cnc n in
  let '(ok, o) := alloc_next (cn_allocs c) in
  if negb ok then inr (None, mkNode (sg_ContextList n) (set_cnc_allocs o c))
  else
    let a := fresh (dom (cn_contexts c)) in
    inr (Some a, mkNode (sg_ContextList n) (set_cnc_allocs o (set_contexts (<[a := x a]> (cn_contexts c)) c))).

Definition no_dispatcher : Dispatcher := mkDispatcher 0 0 0 0 None.

(** What the contexts of collectors have in common with those of output nuggets. *)
Definition Razorback_Init_Plain_Context (turns : list (NM unit)) (type : string) (flags : Z) (nuggetId applicationType : uuid_t)
    : NM (option (option positive)) :=
  c ← in_cnc cnc;
  u ← in_cnc (allocates (UUID_Get_UUID (cn_uuids c) type UUID_TYPE_NUGGET_TYPE));
  context ← new_context (fun a => mkCtx (mkContext a nuggetId (default undef u) applicationType 0 no_dispatcher)
              flags None None false false 0 PNull false);
  match context with
  | None => mret (Some None)
  | Some a =>
      r ← Razorback_Init_Context turns (Some a);
      match r with
      | None => mret None
      | Some false => in_cnc (Razorback_Destroy_Context (Some a)) ;; mret (Some None)
      | Some true => mret (Some (Some a))
      end
  end.

Definition Razorback_Init_Collection_Context (turns : list (NM unit)) : uuid_t -> uuid_t -> NM (option (option positive)) :=
  Razorback_Init_Plain_Context turns NUGGET_TYPE_COLLECTION CONTEXT_FLAG_STAND_ALONE.

(** [Inspection_Launch]; [types] is the array of the caller. *)
Variable Inspection_Launch : positive -> NM bool.

Definition Razorback_Init_Inspection_Context (turns : list (NM unit)) (hooks : bool) (nuggetId applicationType : uuid_t)
    (dataTypeCount : Z) (types : list uuid_t) : NM (option (option positive)) :=
  c ← in_cnc cnc;
  u ← in_cnc (allocates (UUID_Get_UUID (cn_uuids c) NUGGET_TYPE_INSPECTION UUID_TYPE_NUGGET_TYPE));
  if negb hooks then mret (Some None)
  else
    context ← new_context (fun a => mkCtx (mkContext a nuggetId (default undef u) applicationType 0 no_dispatcher)
                0 None None false false dataTypeCount PNull false);
    match context with
    | None => mret (Some None)
    | Some a =>
        array ← in_cnc (allocates alloc);
        match array with
        | None => in_cnc (Razorback_Destroy_Context (Some a)) ;; mret (Some None)
        | Some _ =>
            us ← in_cnc (nonzero (if dataTypeCount <=? Z.of_nat (length types) then Some (take (Z.to_nat dataTypeCount) types) else None));
            in_cnc (context_update a (fun x => mkCtx (cx_context x) (cx_iFlags x) (cx_pCommandHooks x) (cx_regSem x) (cx_regOk x)
                      (cx_paused x) (cx_dataTypeCount x) (PLive us) (cx_judgmentQueue x))) ;;
            r ← Razorback_Init_Context turns (Some a);
            match r with
            | None => mret None
            | Some false => in_cnc (Razorback_Destroy_Context (Some a)) ;; mret (Some None)
            | Some true =>
                queue ← in_cnc creates;
                in_cnc (context_update a (set_judgmentQueue queue)) ;;
                if negb queue then Razorback_Remove_Context (Some a) ;; mret (Some None)
                else
                  ok ← Inspection_Launch a;
                  if negb ok then Razorback_Remove_Context (Some a) ;; mret (Some None)
                  else
                    ok ← Submission_Init a;
                    if negb ok then Razorback_Remove_Context (Some a) ;; mret (Some None)
                    else mret (Some (Some a))
            end
        end
    end.

(** [Inspection_Shutdown] and [Submission_Shutdown]; the threads of an output nugget
    end when they are interrupted. *)
Variables Inspection_Shutdown Submission_Shutdown : positive -> NM unit.

Definition Razorback_Shutdown_Context (a : positive) : NM unit :=
  in_cnc (CommandAndControl_SendBye (Some a)) ;;
  in_cnc CommandAndControl_Pause ;;
  Razorback_Remove_Context (Some a) ;;
  in_cnc CommandAndControl_Unpause ;;
  Inspection_Shutdown a ;;
  Submission_Shutdown a ;;
  x ← in_cnc (context_at a);
  (if Z.land (cx_iFlags x) CONTEXT_FLAG_STAND_ALONE == CONTEXT_FLAG_STAND_ALONE then in_cnc CommandAndControl_Shutdown else mret ()) ;;
  in_cnc (context_update a (set_judgmentQueue false)) ;;
  in_cnc (Razorback_Destroy_Context (Some a)).
End Config.
End Command.
