(* ===== verification/CommandProps.v ===== *)
(** * Runs of the commands

    The weakest preconditions of the commands, the states in which a process can take
    commands ([cnc_ok], [node_ok]), what a command does to a context ([react]), what it
    is answered with ([replies]), and the runs of the default hooks, of their dispatch
    and of the lookups in the list of contexts. *)

From S2P Require Import CLib RzbList RzbListProps ListM Hash LibUuid Uuids Ntlv Blocks JsonC JsonBuffer JsonText Messages MessageCodecs CncMessages MessageProps MessageSafety CncThms LocalCache Arc LocalCacheProps CacheThms Entities EntitiesProps EntityThms Command Prelude.

Local Open Scope Z_scope.

(** ** Messages *)

Section Letters.
Context `{EVP} `{LibUuidLaws}.

(** The function neither crashes nor depends on the allocator for what it makes to
    satisfy [P]; when nothing fails it makes something that satisfies [R]. *)
Definition makes {A} (m : M A) (P R : A -> Prop) : Prop :=
  ensures m P /\ exists x, m [] = Some (Some x, []) /\ R x.

(** The nuggets that the headers of [m] name. *)
Definition parsed (m : Message) (r : option (uuid_t * uuid_t)) : Prop :=
  forall o, Message_Get_Nuggets (Some m) o = Some (r, o).

(** The message is of the type, from one nugget to another. *)
Definition letter (t : Z) (source dest : uuid_t) (m : Message) : Prop := m_type m = t /\ parsed m (Some (source, dest)).

Lemma makes_bind {A B} (m : M A) (k : A -> M B) P R P' R' : makes m P R -> (forall x, P x -> ensures (k x) P') ->
  (forall x, R x -> exists y, k x [] = Some (Some y, []) /\ R' y) -> makes (m ≫= k) P' R'.
Proof.
  intros [He (x & E & HR)] Hp Hr. split; [by eapply ensures_bind|]. destruct (Hr x HR) as (y & E' & Hy).
  exists y. split; [|done]. by rewrite (M_bind_ok _ _ _ _ _ E).
Qed.

Lemma Add_Header_total m n v o : some_headers (m_headers m) -> exists ok p o',
  Message_Add_Header (Some n) (Some v) (Some m) o = Some (ok, Some (with_headers m p), o') /\ some_headers p.
Proof.
  intros Hh. destruct (HeaderList_Add_ensures (m_headers m) n v Hh o) as (r & o' & E & Hr).
  pose proof (lift_run _ m o _ _ E) as E'. unfold Message_Add_Header, on_message. cbn [nonnull].
  rewrite (MM_bind_ok _ _ m o n m o eq_refl), (MM_bind_ok _ _ m o v m o eq_refl), (MM_bind_ok _ _ m o m m o eq_refl).
  destruct r as [p|].
  - rewrite (MM_bind_ok _ _ m o p m o' E'). exists true, p, o'. split; [done|]. by apply Hr.
  - rewrite (MM_bind_fail _ _ m o m o' E'). exists false, (m_headers m), o'. split; [by destruct m|done].
Qed.

Lemma with_nuggets_ensures source dest m : some_headers (m_headers m) ->
  ensures (with_nuggets source dest m) (fun m' => exists p, m' = with_headers m p).
Proof.
  intros Hh o. unfold with_nuggets, Message_Add_Directed_Headers.
  destruct (Add_Header_total m MSG_CNC_HEADER_SOURCE (uuid_unparse source) o Hh) as (b1 & p1 & o1 & -> & Hp1). cbn [mbind option_bind].
  destruct (Add_Header_total (with_headers m p1) MSG_CNC_HEADER_DEST (uuid_unparse dest) o1 Hp1) as (b2 & p2 & o2 & -> & Hp2).
  cbn [mbind option_bind]. eexists _, _. split; [reflexivity|]. intros ? [= <-]. by exists p2.
Qed.

Lemma Create_Directed_makes t v zero source dest : makes (Message_Create_Directed t v zero source dest)
  (fun m => m_type m = t /\ m_message m = zero) (fun m => letter t source dest m /\ m_message m = zero).
Proof.
  split.
  - unfold Message_Create_Directed, Message_Create.
    apply ensures_bind with (fun m => some_headers (m_headers m) /\ m_type m = t /\ m_message m = zero).
    + m_step. m_step. { instantiate (1 := fun _ => True). destruct zero; [apply ensures_alloc|by m_step]. } intros [] _.
      m_step; [apply Header_List_ensures|]. intros p Hp. by m_step.
    + intros m [Hh Hm]. eapply ensures_weaken; [by apply with_nuggets_ensures|]. by intros m' (p & ->).
  - destruct (Create_run t v zero) as (p & E & Hp). set (m0 := mkMessage t 0 v p zero None None) in *.
    destruct (with_nuggets_run source dest m0 Hp) as (p1 & E1 & H1'). exists (with_headers m0 p1).
    unfold Message_Create_Directed. rewrite (M_bind_ok _ _ _ _ _ E). split; [done|]. split; [|done]. split; [done|].
    intros o. by apply Get_Nuggets_run.
Qed.

Lemma letter_body t source dest m b : letter t source dest m -> letter t source dest (with_body m b).
Proof. intros [? ?]. by split. Qed.

Lemma letter_codec t source dest m k : letter t source dest m -> letter t source dest (with_codec m k).
Proof. intros [? ?]. by split. Qed.

Lemma Bye_makes id : makes (MessageBye_Initialize id) (fun m => m_type m = MESSAGE_TYPE_BYE) (letter MESSAGE_TYPE_BYE id uuid_null).
Proof.
  eapply makes_bind; [apply (Create_Directed_makes _ _ _ id uuid_null)| |].
  - intros x [Hx _]. by apply ensures_ret.
  - intros x [Hx _]. eexists. split; [reflexivity|]. by apply letter_codec.
Qed.

Lemma Running_makes source dest : makes (MessageRunning_Initialize source dest) (fun m => m_type m = MESSAGE_TYPE_RUNNING)
  (letter MESSAGE_TYPE_RUNNING source dest).
Proof.
  eapply makes_bind; [apply (Create_Directed_makes _ _ _ source dest)| |].
  - intros x [Hx _]. by apply ensures_ret.
  - intros x [Hx _]. eexists. split; [reflexivity|]. by apply letter_codec.
Qed.

Lemma ConfigurationAck_makes source dest t u : makes (MessageConfigurationAck_Initialize source dest t u)
  (fun m => m_type m = MESSAGE_TYPE_CONFIG_ACK) (letter MESSAGE_TYPE_CONFIG_ACK source dest).
Proof.
  eapply makes_bind; [apply (Create_Directed_makes _ _ _ source dest)| |].
  - intros x [Hx _]. by apply ensures_ret.
  - intros x [Hx _]. eexists. split; [reflexivity|]. by apply letter_codec, letter_body.
Qed.

Lemma RegistrationRequest_makes dispatcher id t u n p : is_Some (read_uuids p n) ->
  makes (MessageRegistrationRequest_Initialize dispatcher id t u n p)
    (fun m => m_type m = MESSAGE_TYPE_REG_REQ) (letter MESSAGE_TYPE_REG_REQ id dispatcher).
Proof.
  intros [us Hus]. eapply makes_bind; [apply (Create_Directed_makes _ _ _ id dispatcher)| |].
  - intros x [Hx _]. apply ensures_bind with (fun _ => True); [destruct (0 <? n); [apply ensures_alloc|by m_step]|]. intros [] _.
    rewrite Hus. cbn [deref]. apply ensures_bind with (fun _ => True); [by apply ensures_ret|]. intros ? _. by apply ensures_ret.
  - intros x [Hx _]. rewrite Hus. exists (with_codec (with_body x (Some (Messages.inj (mkRegistrationRequest t u n
      (if 0 <? n then PLive us else PNull))))) C_RegistrationRequest).
    split; [by destruct (0 <? n)|]. by apply letter_codec, letter_body.
Qed.

(** The hello of a context; [d] is the entry of the type of dispatchers. *)
Lemma Hello_makes sg nts d pushes ctx xs : entries (UUID_Get_List sg UUID_TYPE_NUGGET_TYPE) nts ->
  named NUGGET_TYPE_DISPATCHER nts = Some d ->
  (isd nts (ctx_uuidNuggetType ctx) = true -> strings (d_addressList (ctx_dispatcher ctx)) xs) ->
  ensures (MessageHello_Initialize sg pushes (Some ctx)) (fun m => m_type m = MESSAGE_TYPE_HELLO) /\
  (pushes = [] -> exists m, MessageHello_Initialize sg pushes (Some ctx) [] = Some (Some m, []) /\
     letter MESSAGE_TYPE_HELLO (ctx_uuidNuggetId ctx) uuid_null m).
Proof.
  intros Hn Hd Hx. unfold isd in Hx. rewrite Hd in Hx.
  destruct (Create_Directed_makes MESSAGE_TYPE_HELLO MESSAGE_VERSION_1 (Some (Messages.inj zero_Hello)) (ctx_uuidNuggetId ctx) uuid_null)
    as [He (m & E & Hm & _)].
  split.
  - unfold MessageHello_Initialize. cbn [deref]. m_step; [by apply (ensures_ret ctx (fun c => c = ctx))|]. intros ? ->.
    m_step; [exact He|]. intros m0 [Ht _]. cbv beta in Ht.
    apply ensures_bind with (fun b => b = bool_decide (un_uuid d = ctx_uuidNuggetType ctx)).
    { intros o. rewrite (is_dispatcher_run sg nts d _ o Hn Hd). eexists _, _. split; [done|]. by intros ? [= <-]. }
    intros b ->. apply ensures_bind with (fun _ => True); [|intros he _; by apply ensures_ret].
    case_bool_decide; [|by apply ensures_ret]. apply ensures_bind with (fun _ => True); [|intros l _; by apply ensures_ret].
    intros o. destruct (strings_clone pushes _ xs o (Hx eq_refl)) as (r & o' & -> & _). by exists r, o'.
  - intros ->. unfold MessageHello_Initialize. cbn [deref]. rewrite M_ret_bind.
    change (Message_Create_Broadcast MESSAGE_TYPE_HELLO MESSAGE_VERSION_1 (Some (Messages.inj zero_Hello)) (ctx_uuidNuggetId ctx))
      with (Message_Create_Directed MESSAGE_TYPE_HELLO MESSAGE_VERSION_1 (Some (Messages.inj zero_Hello)) (ctx_uuidNuggetId ctx) uuid_null).
    rewrite (M_bind_ok _ _ _ _ _ E), (M_bind_ok _ _ _ _ _ (is_dispatcher_run sg nts d _ [] Hn Hd)).
    case_bool_decide.
    + destruct (strings_clone_ok _ xs (Hx eq_refl)) as (l & El & _). erewrite M_bind_ok.
      2: { rewrite (M_bind_ok _ _ _ _ _ El). reflexivity. }
      eexists. split; [reflexivity|]. by apply letter_codec, letter_body.
    + rewrite M_ret_bind. eexists. split; [reflexivity|]. by apply letter_codec, letter_body.
Qed.
End Letters.

(** ** Weakest preconditions *)

Section Wp.
Context `{EVP} `{LibUuid}.

(** The command returns, and its result and the state it leaves satisfy [Q]. *)
Definition wp {A} (m : CM A) (Q : A -> Cnc -> Prop) (c : Cnc) : Prop :=
  match m c with inr (x, c') => Q x c' | inl _ => False end.

Lemma wp_bind {A B} (m : CM A) (k : A -> CM B) Q c : wp m (fun x c' => wp (k x) Q c') c -> wp (m ≫= k) Q c.
Proof. unfold wp, mbind, CM_bind. by destruct (m c) as [e|[x c']]. Qed.

Lemma wp_ret {A} (x : A) Q c : Q x c -> wp (mret x) Q c.
Proof. done. Qed.

Lemma wp_mono {A} (m : CM A) (Q R : A -> Cnc -> Prop) c : wp m Q c -> (forall x c', Q x c' -> R x c') -> wp m R c.
Proof. unfold wp. destruct (m c) as [e|[x c']]; auto. Qed.

Lemma wp_inv {A} (m : CM A) Q c : wp m Q c -> exists x c', m c = inr (x, c') /\ Q x c'.
Proof. unfold wp. destruct (m c) as [e|[x c']]; [done|]. eauto. Qed.

Lemma wp_cnc Q c : Q c c -> wp cnc Q c.
Proof. done. Qed.

Lemma wp_update f Q c : Q () (f c) -> wp (update f) Q c.
Proof. done. Qed.

Lemma wp_thread_context t Q c : sg_tThread c = Some t -> Q t c -> wp thread_context Q c.
Proof. unfold wp, thread_context. by intros ->. Qed.

Lemma wp_context_at a x Q c : cn_contexts c !! a = Some x -> Q x c -> wp (context_at a) Q c.
Proof. unfold wp, context_at. by intros ->. Qed.

Lemma wp_context_update a f x Q c : cn_contexts c !! a = Some x ->
  Q () (set_contexts (<[a := f x]> (cn_contexts c)) c) -> wp (context_update a f) Q c.
Proof. intros E HQ. unfold context_update. by apply wp_bind, wp_context_at with x. Qed.

Lemma wp_nonzero {A} (p : option A) x Q c : p = Some x -> Q x c -> wp (nonzero p) Q c.
Proof. by intros ->. Qed.

Lemma wp_allocates {A} (m : M A) P R Q c : ensures m P -> (cn_allocs c = [] -> exists x, m [] = Some (Some x, []) /\ R x) ->
  (forall r o, (forall x, r = Some x -> P x) -> (cn_allocs c = [] -> o = [] /\ exists x, r = Some x /\ R x) ->
     Q r (set_cnc_allocs o c)) -> wp (allocates m) Q c.
Proof.
  intros He Hr HQ. unfold wp, allocates. destruct (He (cn_allocs c)) as (r & o & E & HP). rewrite E. apply HQ; [done|].
  intros Ha. destruct (Hr Ha) as (x & Ex & HR). rewrite Ha, Ex in E. injection E as <- <-. eauto.
Qed.

Lemma wp_makes {A} (m : M A) P R Q c : makes m P R ->
  (forall r o, (forall x, r = Some x -> P x) -> (cn_allocs c = [] -> o = [] /\ exists x, r = Some x /\ R x) ->
     Q r (set_cnc_allocs o c)) -> wp (allocates m) Q c.
Proof. intros [He Hx]. eapply wp_allocates; eauto. Qed.

(** Code whose result does not depend on the allocator, which it leaves. *)
Lemma wp_reads {A} (m : M A) r Q c : (forall o, m o = Some (r, o)) -> Q r c -> wp (allocates m) Q c.
Proof. intros Hm HQ. unfold wp, allocates. rewrite Hm. by destruct c. Qed.

Lemma wp_in_table {A} (m : TM A) x t Q c : m (cn_table c) = Some (x, t) -> Q x (set_entity_table t c) -> wp (in_table m) Q c.
Proof. unfold wp, in_table. by intros ->. Qed.

Lemma wp_creates Q c : (forall ok o, Q ok (set_outcomes o c)) -> wp creates Q c.
Proof. intros HQ. unfold wp, creates. by destruct (alloc_next (cn_sys c)). Qed.

Lemma wp_put m Q c : sg_writeQueue c = true ->
  (forall ok o, (cn_puts c = [] -> ok = true /\ o = []) -> Q ok (set_sent (cn_sent c ++ if ok : bool then [m] else []) o c)) ->
  wp (put_command m) Q c.
Proof.
  intros Hw HQ. unfold wp, put_command. rewrite Hw. cbn [negb]. destruct (alloc_next (cn_puts c)) as [ok o] eqn:E.
  specialize (HQ ok o). destruct ok; [|rewrite app_nil_r in HQ]; apply HQ; intros Hp; rewrite Hp in E; by injection E as <-.
Qed.
End Wp.

(** Tests between constants. *)
Ltac test_types :=
  repeat match goal with
  | |- context [?p == ?q] =>
      let b := eval vm_compute in (p == q) in
      lazymatch b with true => idtac | false => idtac end; change (p == q) with b; cbv iota
  end.

(** One step of a command: the rule for its head. *)
Ltac wp_step :=
  cbv beta iota; lazymatch goal with
  | |- wp (mbind _ _) _ _ => apply wp_bind; wp_step
  | |- wp (mret _) _ _ => apply wp_ret
  | |- wp cnc _ _ => apply wp_cnc
  | |- wp (update _) _ _ => apply wp_update
  | |- wp thread_context _ _ => eapply wp_thread_context; [eassumption|]
  | |- wp (context_at _) _ _ => eapply wp_context_at; [eassumption|]
  | |- wp (context_update _ _) _ _ => eapply wp_context_update; [eassumption|]
  | |- wp creates _ _ => apply wp_creates; intros
  | _ => idtac
  end; cbv beta iota.

(** ** The state of a process *)

Section Ok.
Context `{EVP} `{LibUuidLaws}.
Variable nts : list UUIDListNode.
Variable pushes : allocs.
Implicit Types (c : Cnc) (x : Context) (a : positive) (m : Message).

(** A UUID list of the process. *)
Definition uuid_table (p : option uuid_list) (xs : list UUIDListNode) : Prop :=
  entries p xs /\ exists l, p = Some l /\ l_destroy l = Some UUID_Destroy.

Definition uuid_types : list Z :=
  [UUID_TYPE_DATA_TYPE; UUID_TYPE_INTEL_TYPE; UUID_TYPE_NTLV_TYPE; UUID_TYPE_NTLV_NAME; UUID_TYPE_NUGGET; UUID_TYPE_NUGGET_TYPE].

(** No entry of the cache was freed. *)
Definition unfreed (k : CACHE) : Prop :=
  forall i, (i < c_entries k)%nat -> exists e bs, c_entrylist k !! i = Some e /\ e_key e = KData bs.

(** The data of a process that takes commands, but for its contexts. *)
Record cnc_ok c : Prop := {
  ok_nuggets : entries (UUID_Get_List (cn_uuids c) UUID_TYPE_NUGGET_TYPE) nts;
  ok_uuids : Forall (fun t => exists xs, uuid_table (UUID_Get_List (cn_uuids c) t) xs) uuid_types;
  ok_table : exists es hs, holds nts (cn_table c) es hs;
  ok_caches : forall t, t <> ALL -> unfreed (cn_caches c t);
  ok_write : sg_writeQueue c = true
}.

(** No allocation and no send fails. *)
Definition fault_free c : Prop := cn_allocs c = [] /\ cn_puts c = [] /\ pushes = [].

(** A context with the default hooks. *)
Record context_ok x : Prop := {
  co_hooks : cx_pCommandHooks x = Some DefaultHooks;
  co_sem : is_Some (cx_regSem x);
  co_types : is_Some (read_uuids (cx_dataTypeList x) (cx_dataTypeCount x));
  co_addresses : exists xs, isd nts (ctx_uuidNuggetType (cx_context x)) = true ->
    strings (d_addressList (ctx_dispatcher (cx_context x))) xs
}.

Definition stand_alone x : bool := Z.land (cx_iFlags x) CONTEXT_FLAG_STAND_ALONE == CONTEXT_FLAG_STAND_ALONE.

(** The body of a command suits its type. *)
Record command_ok m : Prop := {
  cm_hello : m_type m = MESSAGE_TYPE_HELLO -> exists he xs, hello_of m = Some he /\
    (isd nts (he_uuidNuggetType he) = true -> strings (he_addressList he) xs);
  cm_request : m_type m = MESSAGE_TYPE_REG_REQ -> exists rr, (b ← m_message m; proj b) = Some rr /\
    is_Some (read_uuids (rr_pDataTypeList rr) (rr_iDataTypeCount rr));
  cm_error : m_type m = MESSAGE_TYPE_REG_ERR -> exists e : MessageError, (b ← m_message m; proj b) = Some e;
  cm_update : m_type m = MESSAGE_TYPE_CONFIG_UPDATE -> exists u, (b ← m_message m; proj b) = Some u /\
    Forall (fun p => exists xs, entries p xs) [cu_ntlvTypes u; cu_ntlvNames u; cu_dataTypes u];
  cm_term : m_type m = MESSAGE_TYPE_TERM -> exists t : MessageTerminate, (b ← m_message m; proj b) = Some t
}.

(** What a command of the type does to a context. *)
Definition react (t : Z) x : Context :=
  if t == MESSAGE_TYPE_PAUSE then set_paused true x
  else if t == MESSAGE_TYPE_GO then set_regSem ((fun n => n + 1) <$> cx_regSem x) (set_regOk true (set_paused false x))
  else if t == MESSAGE_TYPE_REG_ERR then set_regSem ((fun n => n + 1) <$> cx_regSem x) (set_regOk false x)
  else x.

(** The type, source and destination of what a context answers to a command. *)
Definition replies (t : Z) (source dest : uuid_t) x : list (Z * uuid_t * uuid_t) :=
  if t == MESSAGE_TYPE_REG_RESP then
    if stand_alone x then [(MESSAGE_TYPE_HELLO, ctx_uuidNuggetId (cx_context x), uuid_null)] else []
  else if t == MESSAGE_TYPE_CONFIG_UPDATE then [(MESSAGE_TYPE_CONFIG_ACK, ctx_uuidNuggetId (cx_context x), source)]
  else if t == MESSAGE_TYPE_GO then [(MESSAGE_TYPE_RUNNING, dest, source)]
  else [].

Definition are_letters (es : list (Z * uuid_t * uuid_t)) (ms : list Message) : Prop :=
  Forall2 (fun e m => let '(t, source, dest) := e in letter t source dest m) es ms.

Lemma letters_one t source dest m : letter t source dest m -> are_letters [(t, source, dest)] [m].
Proof. intros Hm. constructor; [exact Hm|constructor]. Qed.

(** What a command leaves of a process, apart from contexts and messages. *)
Record stays c c' : Prop := {
  sy_ok : cnc_ok c -> cnc_ok c';
  sy_lock : processLock c' = processLock c;
  sy_thread : sg_tThread c' = sg_tThread c;
  sy_started : sg_bQueueInitialized c' = sg_bQueueInitialized c;
  sy_free : fault_free c -> fault_free c'
}.

#[global] Instance stays_refl : Reflexive stays.
Proof. by split. Qed.
#[global] Instance stays_trans : Transitive stays.
Proof. intros c1 c2 c3 [] []. split; [auto|congruence..|auto]. Qed.
End Ok.

(** ** The default hooks *)

Section Hooks.
Context `{EVP} `{LibUuidLaws}.
Variable nts : list UUIDListNode.
Variable transports : option transport_list.
Variable ds : list TransportDescriptor.
Variable undef : uuid_t.
Variable pushes : allocs.
Variable now : Z.
Variable d : UUIDListNode.
Hypothesis transports_ok : registry transports ds.
Hypothesis dispatcher_named : named NUGGET_TYPE_DISPATCHER nts = Some d.
Implicit Types (c : Cnc) (x : Context) (a : positive) (m : Message) (source dest : uuid_t).

(** The context at [a] was given the command: [good] says that it succeeded. *)
Record answered m source dest a x c (good : Prop) m' c' : Prop := {
  an_stays : stays nts pushes c c';
  an_contexts : cn_contexts c' = <[a := react (m_type m) x]> (cn_contexts c);
  an_type : m_type m' = m_type m;
  an_parsed : parsed m' (Some (source, dest));
  an_command : command_ok nts m';
  an_good : fault_free pushes c -> good;
  an_sent : exists ms, cn_sent c' = cn_sent c ++ ms /\
    (fault_free pushes c -> are_letters (replies (m_type m) source dest x) ms)
}.

(** The hook runs in the context of the thread. *)
Definition serves (t : Z) (f : Message -> CM (bool * Message)) : Prop :=
  forall m source dest a x c, m_type m = t -> cnc_ok nts c -> command_ok nts m -> parsed m (Some (source, dest)) ->
    sg_tThread c = Some (Some a) -> cn_contexts c !! a = Some x -> context_ok nts x ->
    wp (f m) (fun '(ok, m') c' => answered m source dest a x c (ok = true) m' c') c.

(** A command that changes neither the context nor what was sent. *)
Lemma answered_quiet m source dest a x c (good : Prop) c' : command_ok nts m -> parsed m (Some (source, dest)) ->
  cn_contexts c !! a = Some x -> react (m_type m) x = x -> replies (m_type m) source dest x = [] -> good ->
  stays nts pushes c c' -> cn_contexts c' = cn_contexts c -> cn_sent c' = cn_sent c -> answered m source dest a x c good m c'.
Proof.
  intros Hm Hp Ha Hr Hn Hg Hs Hc Hse. split; try done.
  - by rewrite Hr, insert_id.
  - exists []. rewrite app_nil_r, Hn. split; [done|]. by constructor.
Qed.

Lemma log_serves t : (forall x, react t x = x) -> (forall source dest x, replies t source dest x = []) -> serves t Default_log.
Proof. intros Hr Hn m source dest a x c <- Hok Hm Hp Ht Ha Hx. unfold Default_log. wp_step. apply answered_quiet; auto; done. Qed.

Lemma wp_isDispatcher u Q c : cnc_ok nts c -> Q (Some (isd nts u)) c -> wp (isDispatcher u) Q c.
Proof.
  intros Hok HQ. unfold isDispatcher. wp_step. wp_step.
  eapply wp_reads; [|exact HQ]. intros o. unfold isd. rewrite dispatcher_named.
  by rewrite (is_dispatcher_run _ nts d u o (ok_nuggets _ _ Hok) dispatcher_named).
Qed.

Lemma hello_serves : serves MESSAGE_TYPE_HELLO (Default_processHelloMessage transports undef pushes now).
Proof.
  intros m source dest a x c Ht Hok Hm Hp Hth Ha Hx. destruct (cm_hello _ _ Hm Ht) as (he & xs & Hh & Hxs).
  unfold Default_processHelloMessage. apply wp_bind, (wp_nonzero _ he); [done|]. apply wp_bind, wp_isDispatcher; [done|].
  assert (HT : forall u, react MESSAGE_TYPE_HELLO u = u) by done.
  destruct (isd nts (he_uuidNuggetType he)) eqn:Ed; [|wp_step; apply answered_quiet; rewrite ?Ht; done].
  wp_step. wp_step. destruct (ok_table _ _ Hok) as (es & hs & Htb).
  destruct (Update_run (cn_uuids c) nts (ok_nuggets _ _ Hok) transports (fun p => existsb (fun d => td_id d == p) ds)
              (fun p => Transport_IsSupported_run transports ds p transports_ok) undef pushes now m source he xs (cn_table c) es hs Htb)
    as (ok & t' & E & _ & _ & Hk & Hnk); [by split_and!; [..|exists dest]|by intros _; apply Hxs|].
  eapply wp_in_table; [exact E|]. wp_step. apply answered_quiet; rewrite ?Ht; try done. split; try done. intros _. destruct Hok. split; try done.
  simpl. destruct (decide (known source es)) as [Hkn|Hkn]; [destruct (Hk Hkn); eauto|].
  destruct (Hnk Hkn) as [[? _]|(_ & l & _ & ?)]; eauto.
Qed.

Lemma wp_SendHello a x Q c : cnc_ok nts c -> cn_contexts c !! a = Some x -> context_ok nts x ->
  (forall r ms o p, r = LIST_EACH_OK \/ r = LIST_EACH_ERROR -> (fault_free pushes c -> r = LIST_EACH_OK /\ o = [] /\ p = [] /\
       are_letters [(MESSAGE_TYPE_HELLO, ctx_uuidNuggetId (cx_context x), uuid_null)] ms) ->
     Q r (set_sent (cn_sent c ++ ms) p (set_cnc_allocs o c))) ->
  wp (CommandAndControl_SendHello pushes (Some a)) Q c.
Proof.
  intros Hok Ha Hx HQ. destruct (co_addresses _ _ Hx) as [xs Hxs].
  destruct (Hello_makes (cn_uuids c) nts d pushes (cx_context x) xs (ok_nuggets _ _ Hok) dispatcher_named Hxs) as [He Hr].
  unfold CommandAndControl_SendHello. wp_step. wp_step. wp_step. unfold wp at 1, allocates.
  destruct (He (cn_allocs c)) as (r & o & E & _). rewrite E.
  assert (Hf : fault_free pushes c -> o = [] /\ exists m, r = Some m /\ letter MESSAGE_TYPE_HELLO (ctx_uuidNuggetId (cx_context x)) uuid_null m).
  { intros (Ha0 & _ & Hp). destruct (Hr Hp) as (m & Em & Hm). rewrite Ha0, Em in E. injection E as <- <-. eauto. }
  destruct r as [m|].
  - apply wp_bind, wp_put; [exact (ok_write _ _ Hok)|]. intros ok p Hok'. wp_step. cbn [cn_sent set_cnc_allocs].
    apply HQ; [destruct ok; auto|]. intros Hff. destruct (Hf Hff) as (-> & ? & [= <-] & Hm). destruct (Hok' (proj1 (proj2 Hff))) as [-> ->].
    split_and!; [done..|]. by apply letters_one.
  - wp_step. replace (set_cnc_allocs o c) with (set_sent (cn_sent c ++ []) (cn_puts c) (set_cnc_allocs o c)) by (rewrite app_nil_r; by destruct c).
    apply HQ; [by right|]. intros Hff. by destruct (Hf Hff) as (_ & ? & ? & _).
Qed.

Lemma set_ok c c' : cn_uuids c' = cn_uuids c -> cn_table c' = cn_table c -> cn_caches c' = cn_caches c ->
  sg_writeQueue c' = sg_writeQueue c -> cnc_ok nts c -> cnc_ok nts c'.
Proof. intros Hu Ht Hc Hw []. split; rewrite ?Hu, ?Ht, ?Hc, ?Hw; done. Qed.

Lemma reg_resp_serves : serves MESSAGE_TYPE_REG_RESP (Default_processRegRespMessage pushes).
Proof.
  intros m source dest a x c Ht Hok Hm Hp Hth Ha Hx. unfold Default_processRegRespMessage. wp_step.
  apply wp_bind, (wp_nonzero _ a); [done|]. wp_step. apply wp_bind.
  change (Z.land (cx_iFlags x) CONTEXT_FLAG_STAND_ALONE == CONTEXT_FLAG_STAND_ALONE) with (stand_alone x).
  destruct (stand_alone x) eqn:Es; [|wp_step; wp_step; apply answered_quiet; rewrite ?Ht; try done; unfold replies; by rewrite Es].
  apply wp_bind, (wp_SendHello a x); [done..|]. intros r ms o p _ Hf. unfold CommandAndControl_ArmHelloTimer.
  do 2 (wp_step; wp_step). wp_step. split; try done; rewrite ?Ht; simpl.
  - split; try done; [by apply set_ok|]. intros Hff. destruct (Hf Hff) as (_ & -> & -> & _). by split_and!; try apply Hff.
  - by rewrite insert_id.
  - exists ms. split; [done|]. unfold replies. rewrite Es. intros Hff. apply (Hf Hff).
Qed.

Lemma wp_Semaphore_Post a x n Q c : cn_contexts c !! a = Some x -> cx_regSem x = Some n ->
  Q () (set_contexts (<[a := set_regSem (Some (n + 1)) x]> (cn_contexts c)) c) -> wp (Semaphore_Post a) Q c.
Proof. intros Ha Hn HQ. unfold Semaphore_Post. wp_step. apply wp_bind, (wp_nonzero _ n); [done|]. by apply wp_context_update with x. Qed.

Lemma reg_err_serves : serves MESSAGE_TYPE_REG_ERR Default_processRegErrMessage.
Proof.
  intros m source dest a x c Ht Hok Hm Hp Hth Ha Hx. unfold Default_processRegErrMessage. destruct (cm_error _ _ Hm Ht) as (e & Ee).
  apply wp_bind, (wp_nonzero _ e); [done|]. wp_step. apply wp_bind, (wp_nonzero _ a); [done|]. wp_step.
  destruct (co_sem _ _ Hx) as [n Hn]. apply wp_bind, (wp_Semaphore_Post a (set_regOk false x) n); [by apply lookup_insert_eq|done|].
  wp_step. split; try done; rewrite ?Ht; simpl.
  - split; try done. by apply set_ok.
  - rewrite insert_insert_eq. unfold react. by rewrite Hn.
  - exists []. split; [by rewrite app_nil_r|by constructor].
Qed.

Lemma pause_serves : serves MESSAGE_TYPE_PAUSE Default_processPauseMessage.
Proof.
  intros m source dest a x c Ht Hok Hm Hp Hth Ha Hx. unfold Default_processPauseMessage. wp_step. wp_step. wp_step.
  split; try done; rewrite ?Ht; simpl.
  - split; try done. by apply set_ok.
  - done.
  - exists []. split; [by rewrite app_nil_r|by constructor].
Qed.

Lemma go_serves : serves MESSAGE_TYPE_GO (Default_processGoMessage undef).
Proof.
  intros m source dest a x c Ht Hok Hm Hp Hth Ha Hx. unfold Default_processGoMessage. wp_step. wp_step.
  apply wp_bind, wp_context_update with (set_paused false x); [by apply lookup_insert_eq|].
  destruct (co_sem _ _ Hx) as [n Hn].
  apply wp_bind, (wp_Semaphore_Post a (set_regOk true (set_paused false x)) n); [by apply lookup_insert_eq|done|].
  apply wp_bind, (wp_reads _ _ _ _ Hp). cbn [default]. apply wp_bind. eapply wp_makes; [apply Running_makes|]. intros r o _ Hr.
  assert (Hc : <[a := set_regSem (Some (n + 1)) (set_regOk true (set_paused false x))]>
      (<[a := set_regOk true (set_paused false x)]> (<[a := set_paused false x]> (cn_contexts c))) =
    <[a := react MESSAGE_TYPE_GO x]> (cn_contexts c)).
  { rewrite !insert_insert_eq. unfold react. by rewrite Hn. }
  destruct r as [running|].
  - apply wp_bind, wp_put; [exact (ok_write _ _ Hok)|]. intros ok p Hput. wp_step. split; try done; rewrite ?Ht; simpl.
    + split; try done; [by apply set_ok|]. intros (Ha0 & Hp0 & Hpu). destruct (Hr Ha0) as [-> _], (Hput Hp0) as [_ ->]. done.
    + done.
    + intros (_ & Hp0 & _). apply (Hput Hp0).
    + eexists. split; [reflexivity|]. intros (Ha0 & Hp0 & _). destruct (Hr Ha0) as (_ & ? & [= <-] & Hl), (Hput Hp0) as [-> _].
      by apply letters_one.
  - assert (Hn0 : ~ fault_free pushes c) by (intros (Ha0 & _); by destruct (Hr Ha0) as (_ & ? & ? & _)).
    wp_step. split; try done; rewrite ?Ht; simpl; [split; try done; by apply set_ok|done|].
    exists []. split; [by rewrite app_nil_r|done].
Qed.

(** *** Configuration *)

Lemma destroy_uuids xs o : spec.destroy_all (Some UUID_Destroy) xs o = o.
Proof. induction xs as [|y xs IH] in o |- *; [done|]. exact (IH o). Qed.

Lemma Transfer_run p q xs ys o : uuid_table p xs -> entries q ys ->
  exists p' q', List_Transfer p q o = Some (true, p', q', o) /\ uuid_table p' ys /\ entries q' [].
Proof.
  intros [(l & -> & Hc & Hp & Hk) (? & [= <-] & Hd)] (l2 & -> & (cs & [Hh Ht Hch Hn Hdo Hl] & Hf & Hx) & Hp2 & Hk2).
  destruct (Clear_all l xs o Hc (proj1 (plain_known _ Hp))) as (l' & E & Hm & _ & _). unfold List_Transfer. rewrite E.
  cbn [mbind option_bind]. rewrite Hd, destroy_uuids. assert (Hpl : plain l') by by eapply plain_meta. unfold meta in Hm.
  destruct Hpl as [? [? ?] ?], Hp2 as [? [? ?] ?]. eexists _, _. split; [reflexivity|]. split.
  - split; eexists; (split; [reflexivity|]); [|simpl; congruence]. split_and!; [|by split|simpl; congruence].
    exists cs. split; [by constructor|done].
  - eexists. split; [reflexivity|]. split_and!; [|by split|done]. exists []. split; [constructor; done || constructor|done].
Qed.

(** The process has the lists of [xs] for the type [t], and its old ones for others. *)
Definition takes_list (t : Z) (xs : list UUIDListNode) (u u' : UuidLists) : Prop :=
  uuid_table (UUID_Get_List u' t) xs /\ forall t', t' <> t -> UUID_Get_List u' t' = UUID_Get_List u t'.

Definition config_types : list Z := [UUID_TYPE_NTLV_TYPE; UUID_TYPE_NTLV_NAME; UUID_TYPE_DATA_TYPE].

Lemma set_list_get t p u : t ∈ config_types -> UUID_Get_List (set_list t p u) t = p.
Proof. unfold config_types. set_unfold. by intros [->|[->|[->|[]]]]. Qed.

Lemma set_list_other t t' p u : t' <> t -> UUID_Get_List (set_list t p u) t' = UUID_Get_List u t'.
Proof.
  intros Hn. unfold UUID_Get_List, set_list.
  repeat match goal with |- context [?y == ?z] => destruct (Z.eqb_spec y z); [subst; simpl; try done|simpl] end; done.
Qed.

Lemma wp_UpdateUUIDList t p xs Q c : cnc_ok nts c -> t ∈ config_types -> entries p xs ->
  (forall p' u, entries p' [] -> takes_list t xs (cn_uuids c) u -> cnc_ok nts (set_uuids u c) -> Q p' (set_uuids u c)) ->
  wp (CnC_UpdateUUIDList t p) Q c.
Proof.
  intros Hok Ht Hp HQ. unfold CnC_UpdateUUIDList. destruct p as [l|]; [|by destruct Hp as (? & ? & _)]. wp_step. wp_step.
  assert (Hty : t ∈ uuid_types) by (revert Ht; unfold config_types, uuid_types; set_solver).
  destruct (proj1 (Forall_forall _ _) (ok_uuids _ _ Hok) t Hty) as (ys & Hys).
  destruct (Transfer_run _ _ ys xs (cn_allocs c) Hys Hp) as (p' & q' & E & Hp' & Hq').
  eapply wp_nonzero; [exact E|]. wp_step. wp_step.
  assert (Htk : takes_list t xs (cn_uuids c) (set_list t p' (cn_uuids c))).
  { split; [by rewrite set_list_get|]. intros. by apply set_list_other. }
  assert (Hok' : cnc_ok nts (set_uuids (set_list t p' (cn_uuids c)) c)).
  { destruct Hok as [Hn Hu ? ? ?]. split; simpl; try done.
    - by rewrite set_list_other by (revert Ht; unfold config_types; set_unfold; naive_solver).
    - apply Forall_forall. intros t' Ht'. destruct (decide (t' = t)) as [->|Hne]; [exists xs; by apply Htk|].
      rewrite set_list_other by done. by apply (proj1 (Forall_forall _ _) Hu). }
  replace (set_cnc_allocs _ _) with (set_uuids (set_list t p' (cn_uuids c)) c) by by destruct c. by apply HQ.
Qed.

(** The lists of the process for the three types of a configuration. *)
Definition configured (u : UuidLists) (types names datas : list UUIDListNode) : Prop :=
  uuid_table (UUID_Get_List u UUID_TYPE_NTLV_TYPE) types /\ uuid_table (UUID_Get_List u UUID_TYPE_NTLV_NAME) names /\
  uuid_table (UUID_Get_List u UUID_TYPE_DATA_TYPE) datas.

(** The lists that a message carries. *)
Definition carries m (types names datas : list UUIDListNode) : Prop :=
  exists u, (b ← m_message m; proj b) = Some u /\ entries (cu_ntlvTypes u) types /\ entries (cu_ntlvNames u) names /\
    entries (cu_dataTypes u) datas.

Lemma carries_command m types names datas : m_type m = MESSAGE_TYPE_CONFIG_UPDATE -> carries m types names datas -> command_ok nts m.
Proof.
  intros Ht (u & Hu & H1' & H2' & H3'). split; rewrite Ht; try done. intros _. exists u. split; [done|].
  repeat constructor; eauto.
Qed.

Lemma conf_update_run m source dest a x c types names datas : m_type m = MESSAGE_TYPE_CONFIG_UPDATE -> cnc_ok nts c ->
  carries m types names datas -> parsed m (Some (source, dest)) -> sg_tThread c = Some (Some a) -> cn_contexts c !! a = Some x ->
  wp (Default_processConfUpdateMessage undef m) (fun '(ok, m') c' => answered m source dest a x c (ok = true) m' c' /\
    configured (cn_uuids c') types names datas /\ carries m' [] [] []) c.
Proof.
  intros Ht Hok (u & Hu & He1 & He2 & He3) Hp Hth Ha. unfold Default_processConfUpdateMessage.
  apply wp_bind, (wp_nonzero _ u); [done|].
  apply wp_bind, (wp_UpdateUUIDList _ _ types); [done|by apply list_elem_of_here|done|]. intros p1 u1 Hp1 [Hl1 Ho1] Hok1.
  apply wp_bind, (wp_UpdateUUIDList _ _ names); [done|by apply list_elem_of_further, list_elem_of_here|done|].
  intros p2 u2 Hp2 [Hl2 Ho2] Hok2.
  apply wp_bind, (wp_UpdateUUIDList _ _ datas); [done|by do 2 apply list_elem_of_further; apply list_elem_of_here|done|].
  intros p3 u3 Hp3 [Hl3 Ho3] Hok3. simpl in Ho1, Ho2, Ho3.
  replace (set_uuids u3 _) with (set_uuids u3 c) in * by by destruct c. clear Hok1 Hok2.
  set (m' := with_body m _). assert (Hp' : parsed m' (Some (source, dest))) by exact Hp.
  assert (Hca : carries m' [] [] []) by (eexists; split; [reflexivity|by split_and!]).
  assert (Hco : configured u3 types names datas) by (unfold configured; rewrite !Ho3, Ho2 by done; by split_and!).
  pose proof (carries_command m' _ _ _ Ht Hca) as Hm'. wp_step. apply wp_bind, (wp_reads _ _ _ _ Hp').
  apply wp_bind, (wp_nonzero _ a); [done|]. wp_step. cbn [default fmap option_fmap option_map fst]. apply wp_bind.
  eapply wp_makes; [apply ConfigurationAck_makes|]. intros r o _ Hr. destruct r as [ack|].
  - apply wp_bind, wp_put; [exact (ok_write _ _ Hok)|]. intros ok p Hput. wp_step. split; [|done]. split; try done; rewrite ?Ht; simpl.
    + split; try done; [intros _; by eapply set_ok; [..|exact Hok3]|]. intros (Ha0 & Hp0 & Hpu).
      destruct (Hr Ha0) as [-> _], (Hput Hp0) as [_ ->]. done.
    + by rewrite insert_id.
    + intros (_ & Hp0 & _). apply (Hput Hp0).
    + eexists. split; [reflexivity|]. intros (Ha0 & Hp0 & _). destruct (Hr Ha0) as (_ & ? & [= <-] & Hl), (Hput Hp0) as [-> _].
      by apply letters_one.
  - assert (Hn0 : ~ fault_free pushes c) by (intros (Ha0 & _); by destruct (Hr Ha0) as (_ & ? & ? & _)).
    wp_step. split; [|done]. split; try done; rewrite ?Ht; simpl.
    + split; try done. intros _. by eapply set_ok; [..|exact Hok3].
    + by rewrite insert_id.
    + exists []. split; [by rewrite app_nil_r|done].
Qed.

Lemma conf_update_serves : serves MESSAGE_TYPE_CONFIG_UPDATE (Default_processConfUpdateMessage undef).
Proof.
  intros m source dest a x c Ht Hok Hm Hp Hth Ha Hx. destruct (cm_update _ _ Hm Ht) as (u & Hu & Hl).
  apply Forall_cons in Hl as [[xs1 H1'] Hl]. apply Forall_cons in Hl as [[xs2 H2'] Hl]. apply Forall_cons in Hl as [[xs3 H3'] _].
  eapply wp_mono; [apply (conf_update_run m source dest a x c xs1 xs2 xs3); try done; by exists u|]. by intros [ok m'] c' [? _].
Qed.

Lemma rereg_serves : serves MESSAGE_TYPE_REREG Default_processReRegMessage.
Proof.
  intros m source dest a x c Ht Hok Hm Hp Hth Ha Hx. unfold Default_processReRegMessage. wp_step. wp_step.
  destruct ok; wp_step; wp_step; apply answered_quiet; rewrite ?Ht; try done; (split; try done; by apply set_ok).
Qed.

(** *** Cache clearing *)

Lemma clear_one_unfreed j (C : CacheType -> CACHE) : unfreed (C j) -> j <> ALL ->
  exists C', clear_one j C = Some C' /\ c_entries (C' j) = 0%nat /\
    forall t, t <> j -> c_entries (C' t) = c_entries (C t) /\ c_entrylist (C' t) = c_entrylist (C t).
Proof.
  intros Hk Hj. unfold clear_one. destruct (destroy_loop_frees (c_entries (C j)) 0 (C j)) as (es & -> & _).
  { intros i Hi. apply Hk. lia. }
  cbn [mbind option_bind]. eexists. split; [reflexivity|]. split.
  - destruct (decide (j = GOODHASH)) as [->|Hn]; rewrite ?fn_lookup_insert; [simpl; by rewrite ?fn_lookup_insert|].
    by rewrite fn_lookup_insert_ne, fn_lookup_insert by done.
  - intros t Ht. destruct (decide (t = GOODHASH)) as [->|Hn]; [rewrite fn_lookup_insert|rewrite fn_lookup_insert_ne by done]; simpl;
      by rewrite fn_lookup_insert_ne.
Qed.

Lemma clear_all_unfreed (C : CacheType -> CACHE) : (forall t, t <> ALL -> unfreed (C t)) ->
  exists C', clearLocalEntry ALL C = Some (R_SUCCESS, C') /\ forall t, t <> ALL -> c_entries (C' t) = 0%nat.
Proof.
  intros Hk. unfold clearLocalEntry.
  destruct (clear_one_unfreed GOODHASH C) as (C1 & -> & Hg1 & Ho1); [by apply Hk|done|]. cbn [mbind option_bind].
  destruct (clear_one_unfreed BADHASH C1) as (C2 & -> & Hg2 & Ho2); [|done|].
  { unfold unfreed. destruct (Ho1 BADHASH) as [-> ->]; [done|]. by apply Hk. }
  cbn [mbind option_bind]. destruct (clear_one_unfreed URL C2) as (C3 & -> & Hg3 & Ho3); [|done|].
  { unfold unfreed. destruct (Ho2 URL) as [-> ->]; [done|]. destruct (Ho1 URL) as [-> ->]; [done|]. by apply Hk. }
  exists C3. split; [done|]. intros [] Ht; try done.
  - destruct (Ho3 GOODHASH) as [-> _]; [done|]. by destruct (Ho2 GOODHASH) as [-> _].
  - by destruct (Ho3 BADHASH) as [-> _].
Qed.

(** ** Dispatch *)

Variable own_hooks : positive -> RazorbackCommandAndControlHooks.
Local Abbreviation dispatch := (CommandAndControl_DispatchCommand transports undef pushes now own_hooks).

(** The types of commands that are handled, but for the two below. *)
Definition command_types : list Z :=
  [MESSAGE_TYPE_HELLO; MESSAGE_TYPE_REG_REQ; MESSAGE_TYPE_REG_RESP; MESSAGE_TYPE_REG_ERR; MESSAGE_TYPE_CONFIG_UPDATE;
   MESSAGE_TYPE_CONFIG_ACK; MESSAGE_TYPE_CONFIG_ERR; MESSAGE_TYPE_PAUSE; MESSAGE_TYPE_PAUSED; MESSAGE_TYPE_GO;
   MESSAGE_TYPE_RUNNING; MESSAGE_TYPE_BYE; MESSAGE_TYPE_REREG].

Lemma wp_PrintUuid u t Q c : cnc_ok nts c -> t ∈ uuid_types ->
  (forall o, (cn_allocs c = [] -> o = []) -> Q () (set_cnc_allocs o c)) -> wp (CommandAndControl_PrintUuid u t) Q c.
Proof.
  intros Hok Ht HQ. destruct (proj1 (Forall_forall _ _) (ok_uuids _ _ Hok) t Ht) as (xs & Hxs & _).
  unfold CommandAndControl_PrintUuid. wp_step. wp_step.
  assert (He : ensures (UUID_Get_DescriptionByUUID (cn_uuids c) u t) (fun _ => True)).
  { unfold UUID_Get_DescriptionByUUID. apply ensures_bind with (fun _ => True); [|intros n _; m_step; m_step; by m_step].
    intros o. rewrite (getNodeByUUID_entries (cn_uuids c) t xs u o Hxs). by eexists _, _. }
  unfold wp at 1, allocates. destruct (He (cn_allocs c)) as (r & o & E & _). rewrite E. wp_step. apply HQ. intros Ha. rewrite Ha in E.
  unfold UUID_Get_DescriptionByUUID, mbind, M_bind in E. rewrite (getNodeByUUID_entries (cn_uuids c) t xs u [] Hxs) in E.
  destruct (with_uuid u xs) as [n|]; [|congruence]. destruct (un_sDescription n); cbn in E; by injection E.
Qed.

Lemma allocs_ok o c : cnc_ok nts c -> cnc_ok nts (set_cnc_allocs o c).
Proof. by apply set_ok. Qed.

Lemma wp_print_uuids us t Q c : cnc_ok nts c -> t ∈ uuid_types ->
  (forall o, (cn_allocs c = [] -> o = []) -> Q () (set_cnc_allocs o c)) -> wp (print_uuids us t) Q c.
Proof.
  induction us as [|u us IH] in c |- *; intros Hok Ht HQ.
  - simpl. wp_step. specialize (HQ (cn_allocs c) id). by destruct c.
  - simpl. apply wp_bind, wp_PrintUuid; [done..|]. intros o Ho. apply IH; [by apply allocs_ok|done|]. intros o' Ho'.
    replace (set_cnc_allocs o' _) with (set_cnc_allocs o' c) by by destruct c. apply HQ. intros Ha. auto.
Qed.

(** Allocations before a command. *)
Lemma answered_allocs m source dest a x c o (good : Prop) m' c' : (cn_allocs c = [] -> o = []) ->
  answered m source dest a x (set_cnc_allocs o c) good m' c' -> answered m source dest a x c good m' c'.
Proof.
  intros Ho [Hs Hc Ht Hp Hm Hg Hse].
  assert (Hf : fault_free pushes c -> fault_free pushes (set_cnc_allocs o c)) by (intros (? & ? & ?); split_and!; auto).
  split; try done; [|auto|].
  - etrans; [|exact Hs]. split; try done. by apply allocs_ok.
  - destruct Hse as (ms & ? & ?). eauto.
Qed.

Lemma wp_call_hook t f m source dest a x c : serves t f -> m_type m = t -> t ∈ command_types -> cnc_ok nts c -> command_ok nts m ->
  parsed m (Some (source, dest)) -> sg_tThread c = Some (Some a) -> cn_contexts c !! a = Some x -> context_ok nts x ->
  wp (call_hook (Some f) m) (fun '(r, m') c' => answered m source dest a x c (m_type m ∈ command_types -> r = LIST_EACH_OK) m' c' /\
    (r = LIST_EACH_OK \/ r = LIST_EACH_ERROR)) c.
Proof.
  intros Hf Ht Hct Hok Hm Hp Hth Ha Hx. unfold call_hook. apply wp_bind. eapply wp_mono; [by apply (Hf m source dest a x c)|].
  intros [ok m'] c' [? ? ? ? ? Hg ?]. wp_step. split; [|destruct ok; auto]. split; try done. intros Hff _. by rewrite (Hg Hff).
Qed.

(** The hook of a type, of the default ones. *)
Definition default_hook (t : Z) : Message -> CM (bool * Message) :=
  if t == MESSAGE_TYPE_HELLO then Default_processHelloMessage transports undef pushes now
  else if t == MESSAGE_TYPE_REG_RESP then Default_processRegRespMessage pushes
  else if t == MESSAGE_TYPE_REG_ERR then Default_processRegErrMessage
  else if t == MESSAGE_TYPE_CONFIG_UPDATE then Default_processConfUpdateMessage undef
  else if t == MESSAGE_TYPE_PAUSE then Default_processPauseMessage
  else if t == MESSAGE_TYPE_GO then Default_processGoMessage undef
  else if t == MESSAGE_TYPE_REREG then Default_processReRegMessage
  else Default_log.

Lemma default_hook_serves t : t ∈ command_types -> serves t (default_hook t).
Proof.
  unfold command_types. intros Ht. repeat (apply elem_of_cons in Ht as [->|Ht]); [..|by apply elem_of_nil in Ht];
    first [exact hello_serves|exact reg_resp_serves|exact reg_err_serves|exact conf_update_serves|exact pause_serves|
           exact go_serves|exact rereg_serves|by apply log_serves].
Qed.

(** What is logged of a command before its hook is called. *)
Definition logged m : CM unit :=
  if m_type m == MESSAGE_TYPE_HELLO then
    hello ← nonzero (hello_of m);
    CommandAndControl_PrintUuid (he_uuidNuggetType hello) UUID_TYPE_NUGGET_TYPE ;;
    CommandAndControl_PrintUuid (he_uuidApplicationType hello) UUID_TYPE_NUGGET
  else if m_type m == MESSAGE_TYPE_REG_REQ then
    req ← nonzero (b ← m_message m; proj b : option MessageRegistrationRequest);
    CommandAndControl_PrintUuid (rr_uuidNuggetType req) UUID_TYPE_NUGGET_TYPE ;;
    CommandAndControl_PrintUuid (rr_uuidApplicationType req) UUID_TYPE_NUGGET_TYPE ;;
    us ← nonzero (read_uuids (rr_pDataTypeList req) (rr_iDataTypeCount req));
    print_uuids us UUID_TYPE_DATA_TYPE
  else mret ().

Lemma wp_logged m Q c : cnc_ok nts c -> command_ok nts m ->
  (forall o, (cn_allocs c = [] -> o = []) -> Q () (set_cnc_allocs o c)) -> wp (logged m) Q c.
Proof.
  intros Hok Hm HQ. unfold logged. pose proof (allocs_ok) as Hal.
  assert (H2s : forall o1 o2, set_cnc_allocs o2 (set_cnc_allocs o1 c) = set_cnc_allocs o2 c) by by destruct c.
  destruct (Z.eqb_spec (m_type m) MESSAGE_TYPE_HELLO) as [Ht|_].
  { destruct (cm_hello _ _ Hm Ht) as (he & xs & Hh & _). apply wp_bind, (wp_nonzero _ he); [done|].
    apply wp_bind, wp_PrintUuid; [done|unfold uuid_types; set_solver|]. intros o1 Ho1.
    apply wp_PrintUuid; [by apply Hal|unfold uuid_types; set_solver|]. intros o2 Ho2. rewrite H2s. auto. }
  destruct (Z.eqb_spec (m_type m) MESSAGE_TYPE_REG_REQ) as [Ht|_].
  { destruct (cm_request _ _ Hm Ht) as (rr & Hr & us & Hus). apply wp_bind, (wp_nonzero _ rr); [done|].
    apply wp_bind, wp_PrintUuid; [done|unfold uuid_types; set_solver|]. intros o1 Ho1.
    apply wp_bind, wp_PrintUuid; [by apply Hal|unfold uuid_types; set_solver|]. intros o2 Ho2. rewrite H2s.
    apply wp_bind, (wp_nonzero _ us); [done|].
    apply wp_print_uuids; [by apply Hal|unfold uuid_types; set_solver|]. intros o3 Ho3. rewrite H2s. auto. }
  wp_step. specialize (HQ (cn_allocs c) id). by destruct c.
Qed.

Lemma CM_assoc {A B C} (f : CM A) (g : A -> CM B) (h : B -> CM C) c :
  ((f ≫= g) ≫= h) c = (f ≫= (fun y => g y ≫= h)) c.
Proof. unfold mbind, CM_bind. by destruct (f c) as [e|[y c']]. Qed.

Lemma CM_run {A B} (f : CM A) (k : A -> CM B) c y c' : f c = inr (y, c') -> (f ≫= k) c = k y c'.
Proof. intros E. unfold mbind, CM_bind. by rewrite E. Qed.

Lemma context_at_run a x c : cn_contexts c !! a = Some x -> context_at a c = inr (x, c).
Proof. unfold context_at. by intros ->. Qed.

Lemma CM_ext {A B} (f : CM A) (g h : A -> CM B) c : (forall y c', g y c' = h y c') -> (f ≫= g) c = (f ≫= h) c.
Proof. intros E. unfold mbind, CM_bind. by destruct (f c) as [e|[y c']]. Qed.

Lemma dispatch_eq m a x c : m_type m ∈ command_types -> cn_contexts c !! a = Some x -> cx_pCommandHooks x = Some DefaultHooks ->
  dispatch a m c = (logged m ≫= (fun _ => call_hook (Some (default_hook (m_type m))) m)) c.
Proof.
  intros Ht Ha Hh. unfold CommandAndControl_DispatchCommand, mbind at 1, CM_bind, context_at. rewrite Ha, Hh. cbv zeta. unfold logged, default_hook.
  remember (m_type m) as t eqn:Et. clear Et. unfold command_types in Ht.
  repeat (apply elem_of_cons in Ht as [->|Ht]); [..|by apply elem_of_nil in Ht]; test_types;
    first [reflexivity|repeat (rewrite CM_assoc; apply CM_ext; intros ? ?); reflexivity].
Qed.

(** A command that is handled reaches its hook in the context. *)
Lemma dispatch_run m source dest a x c : m_type m ∈ command_types -> cnc_ok nts c -> command_ok nts m ->
  parsed m (Some (source, dest)) -> sg_tThread c = Some (Some a) -> cn_contexts c !! a = Some x -> context_ok nts x ->
  wp (dispatch a m) (fun '(r, m') c' => answered m source dest a x c (m_type m ∈ command_types -> r = LIST_EACH_OK) m' c' /\
    (r = LIST_EACH_OK \/ r = LIST_EACH_ERROR)) c.
Proof.
  intros Ht Hok Hm Hp Hth Ha Hx. unfold wp. rewrite (dispatch_eq m a x c Ht Ha (co_hooks _ _ Hx)).
  apply (wp_bind (logged m)), wp_logged; [done..|]. intros o Ho.
  eapply wp_mono; [apply (wp_call_hook (m_type m) _ m source dest a x); try done; [by apply default_hook_serves|by apply allocs_ok]|].
  intros [r m'] c' [Han Hr]. split; [by apply answered_allocs in Han|done].
Qed.

(** The clearing of the caches: its success is reported as an error. *)
Lemma clear_run m source dest a x c : m_type m = MESSAGE_TYPE_CLEAR -> cnc_ok nts c -> command_ok nts m ->
  parsed m (Some (source, dest)) -> cn_contexts c !! a = Some x -> context_ok nts x ->
  wp (dispatch a m) (fun '(r, m') c' => answered m source dest a x c True m' c' /\ m' = m /\ r = LIST_EACH_ERROR /\
    if negb (isd nts (ctx_uuidNuggetType (cx_context x))) && stand_alone x then
      forall t, t <> ALL -> c_entries (cn_caches c' t) = 0%nat
    else c' = c) c.
Proof.
  intros Ht Hok Hm Hp Ha Hx. unfold CommandAndControl_DispatchCommand. wp_step. rewrite (co_hooks _ _ Hx), Ht. test_types.
  assert (Hq : forall c', stays nts pushes c c' -> cn_contexts c' = cn_contexts c -> cn_sent c' = cn_sent c ->
    answered m source dest a x c True m c') by (intros; by apply answered_quiet; rewrite ?Ht).
  unfold CommandAndControl_processCacheClearMessage. apply wp_bind. wp_step. apply wp_bind, wp_isDispatcher; [done|].
  change (Z.land (cx_iFlags x) CONTEXT_FLAG_STAND_ALONE == CONTEXT_FLAG_STAND_ALONE) with (stand_alone x).
  apply wp_bind. destruct (negb _ && _).
  - wp_step. destruct (clear_all_unfreed (cn_caches c) (ok_caches _ _ Hok)) as (C' & E & HC).
    apply wp_bind. eapply wp_nonzero; [exact E|]. wp_step. wp_step. wp_step. split_and!; try done. apply Hq; try done. split; try done.
    intros _. destruct Hok. split; try done. simpl. intros t Hn i Hi. rewrite (HC t Hn) in Hi. lia.
  - wp_step. wp_step. wp_step. by split_and!; try apply Hq.
Qed.

(** A command of an unknown type is dropped. *)
Lemma unknown_run m source dest a x c : m_type m ∉ command_types -> m_type m <> MESSAGE_TYPE_CLEAR -> m_type m <> MESSAGE_TYPE_TERM ->
  command_ok nts m -> parsed m (Some (source, dest)) -> cn_contexts c !! a = Some x -> context_ok nts x ->
  dispatch a m c = inr ((LIST_EACH_ERROR, m), c).
Proof.
  intros Hn Hc Ht Hm Hp Ha Hx. unfold CommandAndControl_DispatchCommand, mbind at 1, CM_bind, context_at. rewrite Ha, (co_hooks _ _ Hx).
  cbv zeta. unfold command_types in Hn. repeat (apply not_elem_of_cons in Hn as [? Hn]).
  repeat match goal with |- context [m_type m == ?t] => rewrite (proj2 (Z.eqb_neq (m_type m) t)) by done end. done.
Qed.

(** A terminate command says goodbye and ends the process. *)
Lemma term_run m a x c : m_type m = MESSAGE_TYPE_TERM -> cnc_ok nts c -> command_ok nts m ->
  sg_tThread c = Some (Some a) -> cn_contexts c !! a = Some x -> context_ok nts x ->
  exists c' ms, dispatch a m c = inl (Exit c') /\ cn_sent c' = cn_sent c ++ ms /\
    (fault_free pushes c -> are_letters [(MESSAGE_TYPE_BYE, ctx_uuidNuggetId (cx_context x), uuid_null)] ms).
Proof.
  intros Ht Hok Hm Hth Ha Hx. destruct (cm_term _ _ Hm Ht) as (tm & Htm).
  unfold CommandAndControl_DispatchCommand. rewrite (CM_run _ _ _ _ _ (context_at_run a x c Ha)), (co_hooks _ _ Hx), Ht. cbv zeta. test_types.
  unfold call_hook. cbn [processTermMessage hooks_of sg_DefaultHooks]. unfold Default_processTermMessage. rewrite CM_assoc. rewrite Htm. cbn [nonzero].
  rewrite (CM_run _ _ _ tm c eq_refl), CM_assoc.
  rewrite (CM_run _ _ _ (Some a) c) by (unfold thread_context; by rewrite Hth). rewrite CM_assoc.
  rewrite (CM_run _ _ _ a c eq_refl), CM_assoc, (CM_run _ _ _ _ _ (context_at_run a x c Ha)), CM_assoc.
  destruct (Bye_makes (ctx_uuidNuggetId (cx_context x))) as [He (b & Eb & Hb)].
  destruct (He (cn_allocs c)) as (r & o & E & _).
  rewrite (CM_run _ _ _ r (set_cnc_allocs o c)) by (unfold allocates; by rewrite E).
  destruct r as [bye|].
  - pose proof (ok_write _ _ Hok) as Hw. rewrite !CM_assoc. unfold mbind at 1, CM_bind at 1, put_command. cbn [sg_writeQueue set_cnc_allocs cn_puts cn_sent].
    rewrite Hw. cbn [negb]. destruct (alloc_next (cn_puts c)) as [ok p] eqn:Ep. eexists _, (if ok then [bye] else []). split; [reflexivity|].
    split; [destruct ok; [done|by rewrite app_nil_r]|]. intros (Ha0 & Hp0 & _). rewrite Ha0, Eb in E. rewrite Hp0 in Ep. simplify_eq/=.
    by apply letters_one.
  - eexists _, []. split; [reflexivity|]. split; [by rewrite app_nil_r|]. intros (Ha0 & _). rewrite Ha0, Eb in E. done.
Qed.

Lemma dispatch_any m source dest a x c : m_type m <> MESSAGE_TYPE_TERM -> cnc_ok nts c -> command_ok nts m ->
  parsed m (Some (source, dest)) -> sg_tThread c = Some (Some a) -> cn_contexts c !! a = Some x -> context_ok nts x ->
  wp (dispatch a m) (fun '(r, m') c' => answered m source dest a x c (m_type m ∈ command_types -> r = LIST_EACH_OK) m' c' /\
    (r = LIST_EACH_OK \/ r = LIST_EACH_ERROR)) c.
Proof.
  intros Ht Hok Hm Hp Hth Ha Hx. destruct (decide (m_type m ∈ command_types)) as [Hc|Hc]; [by apply dispatch_run|].
  destruct (decide (m_type m = MESSAGE_TYPE_CLEAR)) as [Hcl|Hcl].
  - eapply wp_mono; [by apply (clear_run m source dest a x c)|]. intros [r m'] c' ([] & _ & -> & _). split; [|by right]. by split.
  - unfold wp. rewrite (unknown_run m source dest a x c) by done. split; [|by right].
    assert (Hr : react (m_type m) x = x /\ replies (m_type m) source dest x = []).
    { unfold command_types in Hc. repeat (apply not_elem_of_cons in Hc as [? Hc]). unfold react, replies.
      by repeat match goal with |- context [m_type m == ?t] => rewrite (proj2 (Z.eqb_neq (m_type m) t)) by done end. }
    destruct Hr. by apply answered_quiet.
Qed.
End Hooks.

(** ** The list of contexts *)

Section Nodes.
Context `{EVP} `{LibUuidLaws}.
Variable nts : list UUIDListNode.
Implicit Types (c : Cnc) (x : Context) (a : positive) (m : Message) (n : Node) (l : list positive).

Definition context_list_of (L : List_t (halt + Cnc) uuid_t positive) l : Prop :=
  contents L l /\ no_locks L /\ l_mode L = LIST_MODE_GENERIC /\ l_limit L = 0 /\ l_destroy L = None.

(** The contexts of the list exist. *)
Definition live c l : Prop := Forall (fun a => exists x, cn_contexts c !! a = Some x /\ context_ok nts x) l.

(** A process that takes commands; [l] are its contexts. *)
Record node_ok n l : Prop := {
  nk_list : exists L, sg_ContextList n = Some L /\ context_list_of L l;
  nk_nodup : NoDup l;
  nk_live : live (nd_cnc n) l;
  nk_ok : cnc_ok nts (nd_cnc n);
  nk_lock : processLock (nd_cnc n) = Some false;
  nk_thread : exists t, sg_tThread (nd_cnc n) = Some t
}.

Definition has_id c (id : uuid_t) a : bool :=
  match cn_contexts c !! a with Some x => bool_decide (ctx_uuidNuggetId (cx_context x) = id) | None => false end.

(** An iteration that removes nothing. *)
Lemma each_context_run {U} (op : positive -> U -> halt + Cnc -> option (Z * U * (halt + Cnc))) u n L l b u' st :
  sg_ContextList n = Some L -> context_list_of L l ->
  spec.scan op None None l u (inr (nd_cnc n)) true = Some (b, replicate (length l) false, u', st) ->
  each_context op u n = match st with inl e => inl e | inr c => inr (u', mkNode (sg_ContextList n) c) end.
Proof.
  intros EL (Hc & [Hl1 Hl2] & _ & _ & Hd) Es. pose proof (ForEach_contents op L l u (inr (nd_cnc n)) Hc) as HF.
  unfold spec.for_each in HF. rewrite Hl1, Hl2, Hd, Es in HF. cbn [mbind option_bind] in HF.
  destruct (select_none l) as [E1 E2]. rewrite E1, E2 in HF. destruct HF as (L' & E & _ & _ & _ & Hid).
  unfold each_context. rewrite EL, E, (Hid eq_refl). by destruct st.
Qed.

Lemma FindKeyCmp_eq c a x id r : cn_contexts c !! a = Some x -> List_FindKeyCmp Context_KeyCmp id a r (inr c) =
  if bool_decide (ctx_uuidNuggetId (cx_context x) = id) then Some (LIST_EACH_END, Some a, inr c) else Some (LIST_EACH_OK, r, inr c).
Proof. intros Ha. unfold List_FindKeyCmp, Context_KeyCmp. rewrite Ha, uuid_compare_eqb. by case_bool_decide. Qed.

Lemma scan_lookup c id l : live c l ->
  spec.scan (reading (List_FindKeyCmp Context_KeyCmp id)) None None l None (inr c) true =
  Some (true, replicate (length l) false, find_first (has_id c id) l, inr c).
Proof.
  induction 1 as [|a l (x & Ha & _) Hl IH]; [done|]. cbn [spec.scan run_callback reading find_first]. unfold has_id at 1.
  rewrite Ha, (FindKeyCmp_eq c a x id None Ha). case_bool_decide; [done|].
  cbn [mbind option_bind run_callback]. test_types. rewrite IH. by test_types.
Qed.

Lemma lookup_run n L l id : sg_ContextList n = Some L -> context_list_of L l -> live (nd_cnc n) l ->
  Razorback_LookupContext id n = inr (find_first (has_id (nd_cnc n) id) l, n).
Proof.
  intros EL HL Hv. unfold Razorback_LookupContext. erewrite each_context_run; [|exact EL|exact HL|by apply scan_lookup]. by destruct n.
Qed.
End Nodes.
