(* ===== verification/CommandThms.v ===== *)
(** * Theorems about command and control

    What one turn of the thread of command and control does to the contexts of the
    process, the registration of a context, and the errors of the commands. *)

From S2P Require Import CLib RzbList RzbListProps ListM Hash LibUuid Uuids Ntlv Blocks BlockPool JsonC JsonBuffer JsonCodec JsonNtlv JsonObjects JsonSafety JsonProps JsonText Messages MessageCodecs CncMessages MessageProps MessageSafety CncThms LocalCache Arc LocalCacheProps CacheThms Entities EntitiesProps EntityThms Command CommandProps Prelude.

Local Open Scope Z_scope.

Section Turns.
Context `{EVP} `{LibUuidLaws}.
Variable nts : list UUIDListNode.
Variable transports : option transport_list.
Variable ds : list TransportDescriptor.
Variable undef : uuid_t.
Variable pushes : allocs.
Variable now : Z.
Variable d : UUIDListNode.
Variable own_hooks : positive -> RazorbackCommandAndControlHooks.
Hypothesis transports_ok : registry transports ds.
Hypothesis dispatcher_named : named NUGGET_TYPE_DISPATCHER nts = Some d.
Implicit Types (c : Cnc) (x : Context) (a : positive) (m : Message) (n : Node) (l : list positive) (source dest : uuid_t).
Local Abbreviation dispatch := (CommandAndControl_DispatchCommand transports undef pushes now own_hooks).
Local Abbreviation Turn := (CommandAndControl_Turn transports undef pushes now own_hooks).
Local Abbreviation node_ok := (node_ok nts).
Local Abbreviation fault_free := (fault_free pushes).

(** ** Delivery *)

(** The contexts [l] got a command of the type. *)
Definition delivered (t : Z) l (cs : gmap positive Context) : gmap positive Context := foldl (fun cs a => alter (react t) a cs) cs l.

Definition replies_of (t : Z) source dest l (cs : gmap positive Context) : list (Z * uuid_t * uuid_t) :=
  l ≫= (fun a => match cs !! a with Some x => replies t source dest x | None => [] end).

Lemma delivered_lookup t l cs a : NoDup l -> delivered t l cs !! a = (if decide (a ∈ l) then react t else id) <$> cs !! a.
Proof.
  induction l as [|b l IH] in cs |- *; simpl; intros Hn; [by destruct (cs !! a)|]. apply NoDup_cons in Hn as [Hb Hn].
  rewrite (IH (alter (react t) b cs)) by done. destruct (decide (a = b)) as [->|Hne].
  - rewrite lookup_alter_eq, decide_False, decide_True by (done || set_solver). by destruct (cs !! b).
  - rewrite lookup_alter_ne by done. destruct (decide (a ∈ l)), (decide (a ∈ b :: l)); set_solver.
Qed.

Lemma replies_alter t source dest l cs a f : a ∉ l -> replies_of t source dest l (alter f a cs) = replies_of t source dest l cs.
Proof.
  intros Ha. unfold replies_of. induction l as [|b l IH]; [done|]. apply not_elem_of_cons in Ha as [Hab Ha]. cbn.
  rewrite lookup_alter_ne by done. f_equal. by apply IH.
Qed.

Lemma alter_insert {A} (f : A -> A) a y (cs : gmap positive A) : cs !! a = Some y -> alter f a cs = <[a := f y]> cs.
Proof.
  intros Ha. apply map_eq. intros b. destruct (decide (a = b)) as [<-|Hn].
  - by rewrite lookup_alter_eq, Ha, lookup_insert_eq.
  - by rewrite lookup_alter_ne, lookup_insert_ne.
Qed.

(** A context stays one when it gets a command. *)
Lemma react_ok t x : context_ok nts x -> context_ok nts (react t x).
Proof.
  intros [Hh [k Hk] Ht Ha]. unfold react. repeat case_match; (split; simpl; try done); rewrite Hk; by eexists.
Qed.

Lemma react_id t x : cx_context (react t x) = cx_context x.
Proof. unfold react. by repeat case_match. Qed.

Lemma live_delivered t l l' c c' : NoDup l -> live nts c l' -> cn_contexts c' = delivered t l (cn_contexts c) -> live nts c' l'.
Proof.
  intros Hd Hv E. eapply Forall_impl; [exact Hv|]. intros a (x & Ha & Hx). rewrite E, delivered_lookup, Ha by done.
  eexists. split; [reflexivity|]. destruct (decide _); [by apply react_ok|done].
Qed.

(** A broadcast reaches the contexts of the list in order, up to the first that
    fails. *)
Lemma scan_dispatch l m source dest c : m_type m <> MESSAGE_TYPE_TERM -> NoDup l -> live nts c l -> cnc_ok nts c -> command_ok nts m ->
  parsed m (Some (source, dest)) ->
  exists l1 l2 b m' c', l = l1 ++ l2 /\
    spec.scan (ForEach_Context_Wrapper true dispatch) None None l m (inr c) true = Some (b, replicate (length l) false, m', inr c') /\
    stays nts pushes c c' /\ cn_contexts c' = delivered (m_type m) l1 (cn_contexts c) /\
    (fault_free c -> m_type m ∈ command_types -> l2 = []) /\ (l <> [] -> l1 <> []) /\
    exists ms, cn_sent c' = cn_sent c ++ ms /\
      (fault_free c -> are_letters (replies_of (m_type m) source dest l1 (cn_contexts c)) ms).
Proof.
  revert m c. induction l as [|a l IH]; intros m c Ht Hn Hv Hok Hm Hp.
  { exists [], [], true, m, c. split_and!; try done. exists []. split; [by rewrite app_nil_r|]. by constructor. }
  apply NoDup_cons in Hn as [Hna Hn]. apply Forall_cons in Hv as [(x & Ha & Hx) Hv].
  set (c0 := set_thread (Some (Some a)) c).
  pose proof (dispatch_any nts transports ds undef pushes now d transports_ok dispatcher_named own_hooks m source dest a x c0 Ht) as Hd.
  destruct (wp_inv _ _ _ (Hd ltac:(by apply (set_ok nts c)) Hm Hp eq_refl Ha Hx)) as ([r m1] & c1 & E & [Hs Hc Hty Hp1 Hm1 Hg Hse] & Hr).
  assert (Hs2 : stays nts pushes c (set_thread (sg_tThread c) c1)).
  { destruct Hs as [So Sl St Si Sf]. split; try done. intros Hok'. apply (set_ok nts c1); try done. by apply So, (set_ok nts c). }
  set (c2 := set_thread (sg_tThread c) c1) in *.
  assert (Hc2 : cn_contexts c2 = alter (react (m_type m)) a (cn_contexts c)) by (by rewrite (alter_insert _ a x)).
  assert (Ew : ForEach_Context_Wrapper true dispatch a m (inr c) = Some (r, m1, inr c2)).
  { unfold ForEach_Context_Wrapper. fold c0. by rewrite E. }
  assert (Hrx : match cn_contexts c !! a with Some y => replies (m_type m) source dest y | None => [] end =
    replies (m_type m) source dest x) by by rewrite Ha.
  cbn [spec.scan run_callback]. rewrite Ew. cbn [mbind option_bind]. destruct Hr as [-> | ->]; test_types.
  - destruct (IH m1 c2) as (l1 & l2 & b & m' & c' & -> & -> & Hs' & Hc' & Hg' & _ & ms' & Hms' & Hlt'); try done.
    { congruence. }
    { apply Forall_forall. intros b Hb. destruct (proj1 (Forall_forall _ _) Hv b Hb) as (y & Hy & Hyo). exists y. rewrite Hc2.
      rewrite lookup_alter_ne by (intros ->; done). done. }
    { by apply Hs2. }
    exists (a :: l1), l2, b, m', c'. cbn [mbind option_bind]. rewrite Hty in *. split_and!; try done.
    + by etrans.
    + by rewrite Hc', Hc2.
    + intros Hff Hct. by rewrite (Hg' (sy_free _ _ _ _ Hs2 Hff) Hct).
    + destruct Hse as (ms & Hms & Hlt). exists (ms ++ ms'). rewrite Hms'. change (cn_sent c2) with (cn_sent c1). rewrite Hms.
      split; [by rewrite app_assoc|]. intros Hff. cbn. rewrite Hrx. apply Forall2_app; [by apply Hlt|].
      specialize (Hlt' (sy_free _ _ _ _ Hs2 Hff)). rewrite Hc2, replies_alter in Hlt'; [exact Hlt'|set_solver].
  - exists [a], l, false, m1, c2. split_and!; try done.
    + intros Hff Hct. by specialize (Hg Hff Hct).
    + destruct Hse as (ms & Hms & Hlt). exists ms. split; [done|]. intros Hff. cbn. rewrite Hrx, app_nil_r. by apply Hlt.
Qed.

(** ** Turns *)

Lemma NM_run {A B} (f : NM A) (k : A -> NM B) n y n' : f n = inr (y, n') -> (f ≫= k) n = k y n'.
Proof. intros E. unfold mbind, NM_bind. by rewrite E. Qed.

Lemma NM_assoc {A B C} (f : NM A) (g : A -> NM B) (h : B -> NM C) n : ((f ≫= g) ≫= h) n = (f ≫= (fun y => g y ≫= h)) n.
Proof. unfold mbind, NM_bind. by destruct (f n) as [e|[y n']]. Qed.

Lemma NM_halt {A B} (f : NM A) (k : A -> NM B) n e : f n = inl e -> (f ≫= k) n = inl e.
Proof. intros E. unfold mbind, NM_bind. by rewrite E. Qed.

Lemma in_cnc_run {A} (f : CM A) n y c : f (nd_cnc n) = inr (y, c) -> in_cnc f n = inr (y, mkNode (sg_ContextList n) c).
Proof. intros E. unfold in_cnc. by rewrite E. Qed.

Lemma in_cnc_halt {A} (f : CM A) n e : f (nd_cnc n) = inl e -> in_cnc f n = inl e.
Proof. intros E. unfold in_cnc. by rewrite E. Qed.

Lemma at_run n a x : cn_contexts (nd_cnc n) !! a = Some x -> in_cnc (context_at a) n = inr (x, n).
Proof. intros E. rewrite (in_cnc_run _ n x (nd_cnc n)) by by apply context_at_run. by destruct n. Qed.

Lemma pure_run {A} (y : A) n : in_cnc (mret y) n = inr (y, n).
Proof. by destruct n. Qed.

Definition broadcast dest : bool := uuid_is_null dest == 1.

(** The contexts that a command is for: the one it names or, when it names none and
    is not of a context of the process, all. *)
Definition recipients (r : option (uuid_t * uuid_t)) c l : list positive :=
  match r with
  | None => []
  | Some (source, dest) =>
      if broadcast dest then match find_first (has_id c source) l with Some _ => [] | None => l end
      else match find_first (has_id c dest) l with Some a => [a] | None => [] end
  end.

Definition answers (t : Z) (r : option (uuid_t * uuid_t)) l (cs : gmap positive Context) : list (Z * uuid_t * uuid_t) :=
  match r with Some (source, dest) => replies_of t source dest l cs | None => [] end.

(** What a turn does: [l1] are the contexts that the command reached. *)
Record turn_of m (r : option (uuid_t * uuid_t)) n l l1 l2 n' : Prop := {
  to_ok : node_ok n' l;
  to_recipients : recipients r (nd_cnc n) l = l1 ++ l2;
  to_contexts : cn_contexts (nd_cnc n') = delivered (m_type m) l1 (cn_contexts (nd_cnc n));
  to_stays : stays nts pushes (nd_cnc n) (nd_cnc n');
  to_list : sg_ContextList n' = sg_ContextList n;
  to_directed : match r with Some (_, dest) => broadcast dest = false -> l2 = [] | None => True end;
  to_all : fault_free (nd_cnc n) -> m_type m ∈ command_types -> l2 = [];
  to_sent : exists ms, cn_sent (nd_cnc n') = cn_sent (nd_cnc n) ++ ms /\
    (fault_free (nd_cnc n) -> are_letters (answers (m_type m) r l1 (cn_contexts (nd_cnc n))) ms)
}.

(** The thread between the lock and the unlock. *)
Definition locked n : Node := mkNode (sg_ContextList n) (set_processLock (Some true) (nd_cnc n)).
Definition unlocked n : Node := mkNode (sg_ContextList n) (set_processLock (Some false) (nd_cnc n)).

Lemma Pause_run n : processLock (nd_cnc n) = Some false -> in_cnc CommandAndControl_Pause n = inr ((), locked n).
Proof. intros E. apply in_cnc_run. unfold CommandAndControl_Pause. by rewrite E. Qed.

Lemma Unpause_run n b : processLock (nd_cnc n) = Some b -> in_cnc CommandAndControl_Unpause n = inr ((), unlocked n).
Proof. intros E. apply in_cnc_run. unfold CommandAndControl_Unpause. by rewrite E. Qed.

Lemma nuggets_run m r n : parsed m r -> in_cnc (allocates (Message_Get_Nuggets (Some m))) n = inr (r, n).
Proof.
  intros Hp. destruct n as [L c]. apply (in_cnc_run _ (mkNode L c) r c). unfold allocates. simpl. rewrite Hp. by destruct c.
Qed.

(** The end of a turn. *)
Lemma turn_ends m r n l l1 l2 c' : node_ok n l -> recipients r (nd_cnc n) l = l1 ++ l2 -> NoDup l1 ->
  stays nts pushes (set_processLock (Some true) (nd_cnc n)) c' -> cn_contexts c' = delivered (m_type m) l1 (cn_contexts (nd_cnc n)) ->
  match r with Some (_, dest) => broadcast dest = false -> l2 = [] | None => True end ->
  (fault_free (nd_cnc n) -> m_type m ∈ command_types -> l2 = []) ->
  (exists ms, cn_sent c' = cn_sent (nd_cnc n) ++ ms /\
     (fault_free (nd_cnc n) -> are_letters (answers (m_type m) r l1 (cn_contexts (nd_cnc n))) ms)) ->
  exists n', in_cnc CommandAndControl_Unpause (mkNode (sg_ContextList n) c') = inr ((), n') /\ turn_of m r n l l1 l2 n'.
Proof.
  intros Hn Hr Hnd Hs Hc Hd Hall Hms. eexists. split; [apply (Unpause_run _ true); exact (sy_lock _ _ _ _ Hs)|].
  destruct Hn as [Hl Hnn Hv Hok Hlk [t Hth]]. destruct Hs as [So Sl St Si Sf].
  assert (Hok' : cnc_ok nts c') by (apply So; by apply (set_ok nts (nd_cnc n))).
  assert (Hok2 : cnc_ok nts (set_processLock (Some false) c')) by by apply (set_ok nts c').
  split; try done.
  - split; try done; [|exists t; exact (eq_trans St Hth)]. by eapply (live_delivered (m_type m) l1 l (nd_cnc n)).
Qed.

(** A command that is for no context. *)
Lemma turn_idle n l m r : node_ok n l -> parsed m r -> recipients r (nd_cnc n) l = [] ->
  exists n', Turn (Some m) n = inr ((), n') /\ turn_of m r n l [] [] n'.
Proof.
  intros Hn Hp Hr. pose proof Hn as [(L & EL & HL) Hnd Hv Hok Hlk [t Hth]]. unfold CommandAndControl_Turn.
  rewrite (NM_run _ _ _ _ _ (Pause_run n Hlk)), (NM_run _ _ _ _ _ (nuggets_run m r (locked n) Hp)).
  destruct (turn_ends m r n l [] [] (nd_cnc (locked n)) Hn Hr) as (n' & E & Ho); try done; try by constructor.
  { by destruct r as [[? ?]|]. }
  { exists []. split; [by rewrite app_nil_r|]. intros _. destruct r as [[? ?]|]; constructor. }
  exists n'. split; [|done]. unfold recipients, broadcast in Hr. destruct r as [[source dest]|]; [|exact E].
  destruct (uuid_is_null dest == 1).
  - rewrite NM_assoc, (NM_run _ _ _ _ _ (lookup_run nts (locked n) L l source EL HL Hv)).
    change (has_id (nd_cnc (locked n)) source) with (has_id (nd_cnc n) source).
    destruct (find_first _ l) eqn:Ef; [exact E|]. subst l. rewrite NM_assoc.
    rewrite (NM_run _ _ _ _ _ (each_context_run (ForEach_Context_Wrapper true dispatch) m (locked n) L [] true m (inr (nd_cnc (locked n))) EL HL eq_refl)). exact E.
  - rewrite NM_assoc, (NM_run _ _ _ _ _ (lookup_run nts (locked n) L l dest EL HL Hv)).
    change (has_id (nd_cnc (locked n)) dest) with (has_id (nd_cnc n) dest). destruct (find_first _ l); [done|exact E].
Qed.

Lemma turn_broadcast n l m source dest : node_ok n l -> parsed m (Some (source, dest)) -> broadcast dest = true ->
  find_first (has_id (nd_cnc n) source) l = None ->
  Turn (Some m) n = (Razorback_ForEach_Context true dispatch m ≫= (fun _ => in_cnc CommandAndControl_Unpause)) (locked n).
Proof.
  intros [(L & EL & HL) Hnd Hv Hok Hlk [t Hth]] Hp Hb Hf. unfold CommandAndControl_Turn, broadcast in *.
  rewrite (NM_run _ _ _ _ _ (Pause_run n Hlk)), (NM_run _ _ _ _ _ (nuggets_run m _ (locked n) Hp)), Hb.
  rewrite NM_assoc, (NM_run _ _ _ _ _ (lookup_run nts (locked n) L l source EL HL Hv)).
  change (has_id (nd_cnc (locked n)) source) with (has_id (nd_cnc n) source). by rewrite Hf, NM_assoc.
Qed.

(** The thread in the context [a]. *)
Definition at_context a n : Node := mkNode (sg_ContextList n) (set_thread (Some (Some a)) (nd_cnc n)).

Lemma turn_directed n l m source dest a t : node_ok n l -> parsed m (Some (source, dest)) -> broadcast dest = false ->
  find_first (has_id (nd_cnc n) dest) l = Some a -> sg_tThread (nd_cnc n) = Some t ->
  Turn (Some m) n = (in_cnc (dispatch a m) ≫= (fun _ => in_cnc (update (set_thread (Some t))) ≫= (fun _ =>
    in_cnc CommandAndControl_Unpause))) (at_context a (locked n)).
Proof.
  intros [(L & EL & HL) Hnd Hv Hok Hlk _] Hp Hb Hf Hth. unfold CommandAndControl_Turn, broadcast in *.
  rewrite (NM_run _ _ _ _ _ (Pause_run n Hlk)), (NM_run _ _ _ _ _ (nuggets_run m _ (locked n) Hp)), Hb.
  rewrite NM_assoc, (NM_run _ _ _ _ _ (lookup_run nts (locked n) L l dest EL HL Hv)).
  change (has_id (nd_cnc (locked n)) dest) with (has_id (nd_cnc n) dest). rewrite Hf, NM_assoc.
  rewrite (NM_run _ _ _ t (locked n)) by (destruct n; unfold in_cnc, thread_context; simpl in *; by rewrite Hth).
  rewrite NM_assoc. erewrite NM_run by reflexivity. by rewrite NM_assoc.
Qed.

Lemma found_live n l a p : node_ok n l -> find_first p l = Some a -> a ∈ l /\ exists x, cn_contexts (nd_cnc n) !! a = Some x /\ context_ok nts x.
Proof.
  intros [_ _ Hv _ _ _] Hf. apply find_first_Some in Hf as (pre & post & -> & _). split; [set_solver|].
  apply (proj1 (Forall_forall _ _) Hv). set_solver.
Qed.

Lemma turn_run n l m r : node_ok n l -> command_ok nts m -> parsed m r -> m_type m <> MESSAGE_TYPE_TERM ->
  exists n' l1 l2, Turn (Some m) n = inr ((), n') /\ turn_of m r n l l1 l2 n'.
Proof.
  intros Hn Hm Hp Ht. destruct (decide (recipients r (nd_cnc n) l = [])) as [Hr|Hr].
  { destruct (turn_idle n l m r Hn Hp Hr) as (n' & ? & ?). by exists n', [], []. }
  pose proof Hn as [(L & EL & HL) Hnd Hv Hok Hlk [t Hth]]. destruct r as [[source dest]|]; [|done]. unfold recipients in Hr.
  destruct (broadcast dest) eqn:Eb, (find_first _ l) as [a|] eqn:Ef; try done.
  - rewrite (turn_broadcast n l m source dest Hn Hp Eb Ef).
    destruct (scan_dispatch l m source dest (nd_cnc (locked n)) Ht Hnd Hv) as (l1 & l2 & b & m' & c' & Hl & Es & Hs & Hc & Hall & _ & Hms);
      [by apply (set_ok nts (nd_cnc n))|done|done|].
    rewrite (NM_run _ _ _ _ _ (each_context_run _ m (locked n) L l b m' (inr c') EL HL Es)).
    destruct (turn_ends m (Some (source, dest)) n l l1 l2 c' Hn) as (n' & E & Ho); try done.
    + unfold recipients. by rewrite Eb, Ef.
    + apply NoDup_app with (l := l1) (k := l2). by rewrite <- Hl.
    + by rewrite Eb.
    + exists n', l1, l2. split; [exact E|done].
  - rewrite (turn_directed n l m source dest a t Hn Hp Eb Ef Hth). destruct (found_live n l a _ Hn Ef) as (_ & x & Ha & Hx).
    pose proof (dispatch_any nts transports ds undef pushes now d transports_ok dispatcher_named own_hooks m source dest a x
      (nd_cnc (at_context a (locked n))) Ht) as Hd.
    destruct (wp_inv _ _ _ (Hd ltac:(by apply (set_ok nts (nd_cnc n))) Hm Hp eq_refl Ha Hx)) as ([r1 m1] & c1 & E & [Hs Hc Hty Hp1 Hm1 Hg Hse] & Hr1).
    rewrite (NM_run _ _ _ _ _ (in_cnc_run _ (at_context a (locked n)) _ _ E)). erewrite NM_run by reflexivity.
    destruct (turn_ends m (Some (source, dest)) n l [a] [] (set_thread (Some t) c1) Hn) as (n' & E' & Ho); try done.
    + unfold recipients. by rewrite Eb, Ef.
    + apply NoDup_singleton.
    + destruct Hs as [So Sl St Si Sf]. split; try done. intros Hok'. apply (set_ok nts c1); try done. by apply So, (set_ok nts (nd_cnc n)).
    + cbn. by rewrite (alter_insert _ a x).
    + destruct Hse as (ms & Hms & Hlt). exists ms. split; [done|]. intros Hff. cbn. rewrite Ha, app_nil_r. by apply Hlt.
    + exists n', [a], []. split; [exact E'|done].
Qed.

(** A terminate command ends the process of the first context that it is for. *)
Lemma term_turn n l m r a l' : node_ok n l -> command_ok nts m -> parsed m r -> m_type m = MESSAGE_TYPE_TERM ->
  recipients r (nd_cnc n) l = a :: l' ->
  exists c' x ms, Turn (Some m) n = inl (Exit c') /\ cn_contexts (nd_cnc n) !! a = Some x /\
    cn_sent c' = cn_sent (nd_cnc n) ++ ms /\
    (fault_free (nd_cnc n) -> are_letters [(MESSAGE_TYPE_BYE, ctx_uuidNuggetId (cx_context x), uuid_null)] ms).
Proof.
  intros Hn Hm Hp Ht Hr. pose proof Hn as [(L & EL & HL) Hnd Hv Hok Hlk [t Hth]]. destruct r as [[source dest]|]; [|done].
  assert (Hex : forall x, cn_contexts (nd_cnc n) !! a = Some x -> context_ok nts x -> exists c' ms,
    dispatch a m (nd_cnc (at_context a (locked n))) = inl (Exit c') /\ cn_sent c' = cn_sent (nd_cnc n) ++ ms /\
    (fault_free (nd_cnc n) -> are_letters [(MESSAGE_TYPE_BYE, ctx_uuidNuggetId (cx_context x), uuid_null)] ms)).
  { intros x Ha Hx. by apply (term_run nts transports undef pushes now own_hooks m a x (nd_cnc (at_context a (locked n)))); try done;
      apply (set_ok nts (nd_cnc n)). }
  unfold recipients in Hr. destruct (broadcast dest) eqn:Eb, (find_first _ l) as [b|] eqn:Ef; try done.
  - rewrite (turn_broadcast n l m source dest Hn Hp Eb Ef). subst l. apply Forall_cons in Hv as [(x & Ha & Hx) _].
    destruct (Hex x Ha Hx) as (c' & ms & E & Hms). exists c', x, ms. split_and!; try apply Hms; try done.
    apply NM_halt. unfold Razorback_ForEach_Context. erewrite (each_context_run _ m (locked n) L (a :: l') false m (inl (Exit c')) EL HL); [done|].
    assert (Ew : ForEach_Context_Wrapper true dispatch a m (inr (nd_cnc (locked n))) = Some (LIST_EACH_ERROR, m, inl (Exit c'))).
    { unfold ForEach_Context_Wrapper. unfold at_context in E. cbn [nd_cnc] in E. by rewrite E. }
    cbn [spec.scan run_callback]. by rewrite Ew.
  - injection Hr as -> <-. rewrite (turn_directed n l m source dest a t Hn Hp Eb Ef Hth).
    destruct (found_live n l a _ Hn Ef) as (_ & x & Ha & Hx). destruct (Hex x Ha Hx) as (c' & ms & E & Hms).
    exists c', x, ms. split_and!; try apply Hms; try done. by apply NM_halt, in_cnc_halt.
Qed.

(** The messages that the thread receives, one after the other. *)
Fixpoint receive (ms : list Message) : NM unit :=
  match ms with [] => mret () | m :: ms' => Turn (Some m) ;; receive ms' end.

Definition valid m : Prop := command_ok nts m /\ exists r, parsed m r.

(** ** Registration *)

Definition dedicated (e : ConnectedEntity) : bool :=
  match ce_dispatcher e with Some d => Z.land (de_flags d) DISP_HELLO_FLAG_DD != 0 | None => false end.

Lemma Dedicated_run t es hs : holds nts t es hs ->
  exists r o, ConnectedEntityList_GetDedicatedDispatcher pushes t = Some (r, with_store t (set_allocs (t_store t) o)) /\
    match find_first dedicated es with
    | None => r = None /\ o = st_allocs (t_store t)
    | Some e => (forall e', r = Some e' -> clone_of_entity e e') /\ (st_allocs (t_store t) = [] -> pushes = [] -> r <> None /\ o = [])
    end.
Proof.
  intros [as_ Ht]. destruct (tr_list _ _ _ _ _ Ht) as (L & EL & _). unfold ConnectedEntityList_GetDedicatedDispatcher.
  erewrite TM_bind_eq by reflexivity. rewrite EL.
  pose proof (find_tracks nts t as_ es hs _ _ Ht (fun a e Ha => KeyCmp_dd (t_store t) a e Ha)) as Hf. fold dedicated in Hf.
  change (fun e => match ce_dispatcher e with Some d => Z.land (de_flags d) DISP_HELLO_FLAG_DD != 0 | None => false end) with dedicated in Hf.
  destruct (find_first dedicated es) as [e|] eqn:Ef.
  - destruct Hf as (as1 & a & as2 & es1 & es2 & -> & -> & Hl & E). rewrite (TM_bind_eq _ _ _ _ _ E).
    pose proof (tracks_at nts _ _ _ _ _ _ _ _ Ht Hl) as Ha. pose proof (tr_ok _ _ _ _ _ Ht) as Ho.
    apply Forall_app in Ho as [_ [He _]%Forall_cons].
    assert (Hi : isd nts (ce_uuidNuggetType e) = true).
    { unfold entity_ok in He. destruct (isd nts (ce_uuidNuggetType e)); [done|]. apply find_first_Some in Ef as (? & ? & _ & Hd & _).
      unfold dedicated in Hd. by rewrite He in Hd. }
    destruct (clone_found_run nts pushes t e a Ha Hi He) as (r & o & Er & Hcl & Hfr). exists r, o. by split_and!.
  - exists None, (st_allocs (t_store t)). rewrite (TM_bind_eq _ _ _ _ _ Hf), set_allocs_same, with_store_same. done.
Qed.

(** The process knows a dedicated dispatcher, the first of which is [e], and no
    allocation of its table fails. *)
Definition knows_dispatcher c (e : ConnectedEntity) : Prop :=
  st_allocs (t_store (cn_table c)) = [] /\ exists es hs, holds nts (cn_table c) es hs /\ find_first dedicated es = Some e.

Lemma wait_for_dispatcher_run turns n l e : node_ok n l -> fault_free (nd_cnc n) -> knows_dispatcher (nd_cnc n) e ->
  exists e' t', wait_for_dispatcher pushes turns n = inr (Some (e', turns), mkNode (sg_ContextList n) (set_entity_table t' (nd_cnc n))) /\
    ce_uuidNuggetId e' = ce_uuidNuggetId e /\ cnc_ok nts (set_entity_table t' (nd_cnc n)).
Proof.
  intros [_ _ _ Hok _ _] (_ & _ & Hpu) (Hal & es & hs & Ht & Hf).
  destruct (Dedicated_run (cn_table (nd_cnc n)) es hs Ht) as (r & o & E & Hr). rewrite Hf in Hr. destruct Hr as [Hcl Hfr].
  destruct (Hfr Hal Hpu) as [Hne _]. destruct r as [e'|]; [|done]. destruct (Hcl e' eq_refl) as (dd & L & xs & _ & _ & _ & ->).
  eexists _, _. split.
  { destruct turns; simpl; rewrite (NM_run _ _ _ _ _ (in_cnc_run (in_table _) n _ _ ltac:(unfold in_table; rewrite E; reflexivity))); reflexivity. }
  split; [done|]. destruct Hok. split; try done. exists es, hs. simpl. destruct Ht as [as_ Ht]. exists as_. by apply tracks_allocs.
Qed.

(** What follows the registration request. *)
Definition awaits_registration turns a : NM (option bool) :=
  w ← wait_for_registration turns a;
  match w with
  | None => mret None
  | Some _ => x ← in_cnc (context_at a); mret (Some (cx_regOk x))
  end.

Lemma Register_requests turns n l a x e : node_ok n l -> a ∈ l -> cn_contexts (nd_cnc n) !! a = Some x ->
  fault_free (nd_cnc n) -> knows_dispatcher (nd_cnc n) e ->
  exists n1 m, CommandAndControl_Register pushes turns (Some a) n = awaits_registration turns a n1 /\ node_ok n1 l /\
    cn_contexts (nd_cnc n1) = cn_contexts (nd_cnc n) /\ fault_free (nd_cnc n1) /\ cn_sent (nd_cnc n1) = cn_sent (nd_cnc n) ++ [m] /\
    sg_ContextList n1 = sg_ContextList n /\ sg_tThread (nd_cnc n1) = sg_tThread (nd_cnc n) /\
    letter MESSAGE_TYPE_REG_REQ (ctx_uuidNuggetId (cx_context x)) (ce_uuidNuggetId e) m.
Proof.
  intros Hn Ha Hx Hff Hk. destruct (wait_for_dispatcher_run turns n l e Hn Hff Hk) as (e' & t' & E & Hid & Hok').
  unfold CommandAndControl_Register. rewrite (NM_run _ _ _ _ _ E). cbv iota beta.
  set (n0 := mkNode (sg_ContextList n) (set_entity_table t' (nd_cnc n))) in *.
  rewrite (NM_run _ _ _ _ _ (at_run n0 a x Hx)).
  destruct Hn as [Hl Hnd Hv Hok Hlk Hth]. destruct (proj1 (Forall_forall _ _) Hv a Ha) as (y & Hy & Hyo). assert (y = x) as -> by congruence.
  destruct (RegistrationRequest_makes (ce_uuidNuggetId e') (ctx_uuidNuggetId (cx_context x)) (ctx_uuidNuggetType (cx_context x))
    (ctx_uuidApplicationType (cx_context x)) _ _ (co_types _ _ Hyo)) as [_ (m & Em & Hm)].
  destruct Hff as (Ha0 & Hp0 & Hpu).
  rewrite (NM_run _ _ _ (Some m) n0).
  2: { unfold in_cnc, allocates. cbn [nd_cnc n0 cn_allocs set_entity_table]. rewrite Ha0, Em. unfold n0. destruct n as [? []]. simpl in *. by subst. }
  pose proof (ok_write _ _ Hok) as Hw.
  set (n1 := mkNode (sg_ContextList n) (set_sent (cn_sent (nd_cnc n) ++ [m]) [] (set_entity_table t' (nd_cnc n)))).
  rewrite (NM_run _ _ _ true n1).
  2: { unfold in_cnc, put_command. cbn [nd_cnc n0 sg_writeQueue set_entity_table cn_puts]. by rewrite Hw, Hp0. }
  cbn [negb]. exists n1, m. rewrite <- Hid. split_and!; try done. split; try done. by apply (set_ok nts (nd_cnc n0)).
Qed.

(** The semaphore of a context is not posted by other commands. *)
Definition quiet (t : Z) : Prop := t <> MESSAGE_TYPE_GO /\ t <> MESSAGE_TYPE_REG_ERR /\ t <> MESSAGE_TYPE_TERM.

Lemma react_quiet t x : quiet t -> cx_regSem (react t x) = cx_regSem x /\ cx_regOk (react t x) = cx_regOk x.
Proof.
  intros (Hg & He & _). unfold react. rewrite (proj2 (Z.eqb_neq t MESSAGE_TYPE_GO) Hg), (proj2 (Z.eqb_neq t MESSAGE_TYPE_REG_ERR) He).
  by destruct (t == MESSAGE_TYPE_PAUSE).
Qed.

Lemma delivered_id t l cs a x : NoDup l -> delivered t l cs !! a = Some x ->
  exists y, cs !! a = Some y /\ cx_context y = cx_context x /\ (x = y \/ x = react t y).
Proof.
  intros Hn. rewrite delivered_lookup by done. destruct (cs !! a) as [y|]; [|done]. cbn. intros [= <-]. exists y.
  destruct (decide (a ∈ l)); [rewrite react_id|]; auto.
Qed.

Lemma delivered_has_id t l c c' id : NoDup l -> cn_contexts c' = delivered t l (cn_contexts c) -> forall a, has_id c' id a = has_id c id a.
Proof.
  intros Hn E a. unfold has_id. rewrite E, delivered_lookup by done. destruct (cn_contexts c !! a) as [y|]; [|done].
  cbn. destruct (decide (a ∈ l)); [by rewrite react_id|done].
Qed.

Lemma turn_nodup m r n l l1 l2 n' : node_ok n l -> turn_of m r n l l1 l2 n' -> NoDup l1.
Proof.
  intros Hn Ho. apply NoDup_app with (l := l1) (k := l2). rewrite <- (to_recipients _ _ _ _ _ _ _ Ho). unfold recipients.
  destruct r as [[source dest]|]; [|constructor].
  destruct (broadcast dest), (find_first _ l); try constructor; [apply (nk_nodup _ _ _ Hn)|set_solver|constructor].
Qed.

(** The turns of quiet commands pass; the context keeps what its registration
    waits for. *)
Lemma wait_quiet ms turns n l a x : node_ok n l -> cn_contexts (nd_cnc n) !! a = Some x -> cx_regSem x = Some 0 -> a ∈ l ->
  Forall (fun m => valid m /\ quiet (m_type m)) ms ->
  exists n' x', wait_for_registration (map (fun m => Turn (Some m)) ms ++ turns) a n = wait_for_registration turns a n' /\ node_ok n' l /\
    cn_contexts (nd_cnc n') !! a = Some x' /\ cx_regSem x' = Some 0 /\ cx_context x' = cx_context x /\
    (forall id b, has_id (nd_cnc n') id b = has_id (nd_cnc n) id b) /\ exists ms', cn_sent (nd_cnc n') = cn_sent (nd_cnc n) ++ ms'.
Proof.
  intros Hn Hx Hs Ha Hms. revert n x Hn Hx Hs. induction Hms as [|m ms [[Hm [r Hp]] Hq] _ IH]; intros n x Hn Hx Hs.
  { exists n, x. split_and!; try done. exists []. by rewrite app_nil_r. }
  simpl. rewrite (NM_run _ _ _ _ _ (at_run n a x Hx)), Hs.
  destruct (turn_run n l m r Hn Hm Hp (proj2 (proj2 Hq))) as (n1 & l1 & l2 & E & Ho).
  pose proof (turn_nodup m r n l l1 l2 n1 Hn Ho) as Hnd. pose proof (to_contexts _ _ _ _ _ _ _ Ho) as Hc.
  assert (Hx1 : exists x1, cn_contexts (nd_cnc n1) !! a = Some x1 /\ cx_regSem x1 = Some 0 /\ cx_context x1 = cx_context x).
  { rewrite Hc, delivered_lookup, Hx by done. eexists. split; [reflexivity|].
    destruct (decide (a ∈ l1)); [rewrite (proj1 (react_quiet _ _ Hq)), react_id|]; done. }
  destruct Hx1 as (x1 & Hx1 & Hs1 & Hc1). destruct (IH n1 x1 (to_ok _ _ _ _ _ _ _ Ho) Hx1 Hs1) as (n' & x' & E' & Hn' & Hx' & Hs' & Hc' & Hi & ms' & Hms').
  exists n', x'. split_and!; try done.
  - cbn [nonzero]. rewrite (NM_run _ _ _ _ _ (pure_run 0 n)). change (0 <? 0) with false. cbv iota.
    rewrite (NM_run _ _ _ _ _ E). exact E'.
  - congruence.
  - intros id b. rewrite Hi. by apply (delivered_has_id (m_type m) l1).
  - destruct (to_sent _ _ _ _ _ _ _ Ho) as (ms1 & Hms1 & _). exists (ms1 ++ ms'). by rewrite Hms', Hms1, app_assoc.
Qed.

Lemma find_first_same {A} (p q : A -> bool) xs : (forall y, p y = q y) -> find_first p xs = find_first q xs.
Proof. intros E. induction xs as [|y xs IH]; [done|]. simpl. by rewrite E, IH. Qed.

(** A context of the list changes. *)
Lemma update_node_ok n l a x f : node_ok n l -> a ∈ l -> cn_contexts (nd_cnc n) !! a = Some x -> (context_ok nts x -> context_ok nts (f x)) ->
  exists n', in_cnc (context_update a f) n = inr ((), n') /\ node_ok n' l /\ sg_ContextList n' = sg_ContextList n /\
    nd_cnc n' = set_contexts (<[a := f x]> (cn_contexts (nd_cnc n))) (nd_cnc n).
Proof.
  intros [Hl Hnd Hv Hok Hlk Hth] Ha Hx Hf. eexists. split.
  { apply in_cnc_run. unfold context_update. rewrite (CM_run _ _ _ _ _ (context_at_run a x _ Hx)). reflexivity. }
  split; [|done]. split; try done; [|by apply (set_ok nts (nd_cnc n))]. apply Forall_forall. intros b Hb.
  destruct (proj1 (Forall_forall _ _) Hv b Hb) as (y & Hy & Hyo). simpl. destruct (decide (b = a)) as [->|Hne].
  - rewrite lookup_insert_eq. eexists. split; [done|]. apply Hf. congruence.
  - rewrite lookup_insert_ne by done. eauto.
Qed.

Lemma set_regSem_ok k x : context_ok nts x -> context_ok nts (set_regSem (Some k) x).
Proof. intros []. by split. Qed.

Lemma set_regOk_ok b x : context_ok nts x -> context_ok nts (set_regOk b x).
Proof. intros []. by split. Qed.

(** A semaphore that was posted does not wait. *)
Lemma awaits_posted turns n l a x k : node_ok n l -> a ∈ l -> cn_contexts (nd_cnc n) !! a = Some x -> cx_regSem x = Some k -> 0 < k ->
  exists n', awaits_registration turns a n = inr (Some (cx_regOk x), n') /\ node_ok n' l /\ sg_ContextList n' = sg_ContextList n /\
    nd_cnc n' = set_contexts (<[a := set_regSem (Some (k - 1)) x]> (cn_contexts (nd_cnc n))) (nd_cnc n).
Proof.
  intros Hn Ha Hx Hs Hk. destruct (update_node_ok n l a x (set_regSem (Some (k - 1))) Hn Ha Hx (set_regSem_ok _ _)) as (n' & E & Hn' & HL & Hc).
  exists n'. split; [|done]. unfold awaits_registration.
  assert (Ew : wait_for_registration turns a n = inr (Some (), n')).
  { destruct turns; simpl; rewrite (NM_run _ _ _ _ _ (at_run n a x Hx)), Hs; cbn [nonzero]; rewrite (NM_run _ _ _ _ _ (pure_run k n));
      rewrite (proj2 (Z.ltb_lt 0 k) Hk), (NM_run _ _ _ _ _ E); done. }
  rewrite (NM_run _ _ _ _ _ Ew). rewrite (NM_run _ _ _ _ _ (at_run n' a (set_regSem (Some (k - 1)) x) ltac:(rewrite Hc; simpl; by apply lookup_insert_eq))).
  done.
Qed.

Lemma Register_run ms go src turns n l a x e : node_ok n l -> a ∈ l -> cn_contexts (nd_cnc n) !! a = Some x -> cx_regSem x = Some 0 ->
  fault_free (nd_cnc n) -> knows_dispatcher (nd_cnc n) e ->
  broadcast (ctx_uuidNuggetId (cx_context x)) = false -> find_first (has_id (nd_cnc n) (ctx_uuidNuggetId (cx_context x))) l = Some a ->
  Forall (fun m => valid m /\ quiet (m_type m)) ms ->
  command_ok nts go -> parsed go (Some (src, ctx_uuidNuggetId (cx_context x))) -> m_type go = MESSAGE_TYPE_GO \/ m_type go = MESSAGE_TYPE_REG_ERR ->
  exists n' x' m rest, CommandAndControl_Register pushes (map (fun m => Turn (Some m)) ms ++ Turn (Some go) :: turns) (Some a) n =
      inr (Some (m_type go == MESSAGE_TYPE_GO), n') /\ node_ok n' l /\ cn_contexts (nd_cnc n') !! a = Some x' /\ cx_regSem x' = Some 0 /\
    cn_sent (nd_cnc n') = cn_sent (nd_cnc n) ++ m :: rest /\
    letter MESSAGE_TYPE_REG_REQ (ctx_uuidNuggetId (cx_context x)) (ce_uuidNuggetId e) m.
Proof.
  intros Hn Ha Hx Hs Hff Hk Hb Hfi Hms Hgo Hpg Htg.
  destruct (Register_requests (map (fun m => Turn (Some m)) ms ++ Turn (Some go) :: turns) n l a x e Hn Ha Hx Hff Hk)
    as (n1 & m & -> & Hn1 & Hc1 & _ & Hse1 & _ & _ & Hm).
  destruct (wait_quiet ms (Turn (Some go) :: turns) n1 l a x Hn1) as (n2 & x2 & E2 & Hn2 & Hx2 & Hs2 & Hcx2 & Hi2 & ms2 & Hms2); try done.
  { by rewrite Hc1. }
  assert (Ht : m_type go <> MESSAGE_TYPE_TERM) by (by destruct Htg as [-> | ->]).
  destruct (turn_run n2 l go _ Hn2 Hgo Hpg Ht) as (n3 & l1 & l2 & E3 & Ho).
  assert (Hl1 : l1 = [a]).
  { pose proof (to_recipients _ _ _ _ _ _ _ Ho) as Hr. pose proof (to_directed _ _ _ _ _ _ _ Ho Hb) as ->. rewrite app_nil_r in Hr.
    rewrite <- Hr. unfold recipients. rewrite Hb.
    rewrite (find_first_same _ (has_id (nd_cnc n) (ctx_uuidNuggetId (cx_context x)))); [by rewrite Hfi|].
    intros b. rewrite Hi2. unfold has_id. by rewrite Hc1. }
  assert (Hx3 : cn_contexts (nd_cnc n3) !! a = Some (react (m_type go) x2)).
  { rewrite (to_contexts _ _ _ _ _ _ _ Ho), Hl1. cbn. by rewrite lookup_alter_eq, Hx2. }
  assert (Hr3 : cx_regSem (react (m_type go) x2) = Some 1 /\ cx_regOk (react (m_type go) x2) = (m_type go == MESSAGE_TYPE_GO)).
  { destruct Htg as [-> | ->]; unfold react; test_types; simpl; by rewrite Hs2. }
  destruct Hr3 as [Hs3 Ho3].
  destruct (awaits_posted turns n3 l a _ 1 (to_ok _ _ _ _ _ _ _ Ho) Ha Hx3 Hs3 ltac:(lia)) as (n4 & E4 & Hn4 & HL4 & Hc4).
  destruct (to_sent _ _ _ _ _ _ _ Ho) as (ms3 & Hms3 & _).
  exists n4, (set_regSem (Some (1 - 1)) (react (m_type go) x2)), m, (ms2 ++ ms3). split_and!; try done.
  - rewrite <- Ho3, <- E4. unfold awaits_registration, mbind at 1 3, NM_bind at 1 3. rewrite E2. simpl.
    rewrite (NM_run _ _ _ _ _ (at_run n2 a x2 Hx2)), Hs2. cbn [nonzero]. rewrite (NM_run _ _ _ _ _ (pure_run 0 n2)).
    change (0 <? 0) with false. cbv iota. by rewrite (NM_run _ _ _ _ _ E3).
  - rewrite Hc4. simpl. by rewrite lookup_insert_eq.
  - rewrite Hc4. simpl. by rewrite Hms3, Hms2, Hse1, <- !app_assoc.
Qed.

(** ** Configuration *)

Lemma dispatch_config m source dest a x c types names datas : m_type m = MESSAGE_TYPE_CONFIG_UPDATE -> cnc_ok nts c ->
  carries m types names datas -> parsed m (Some (source, dest)) -> sg_tThread c = Some (Some a) -> cn_contexts c !! a = Some x ->
  context_ok nts x ->
  exists r m' c', dispatch a m c = inr ((r, m'), c') /\ answered nts pushes m source dest a x c (r = LIST_EACH_OK) m' c' /\
    configured (cn_uuids c') types names datas /\ carries m' [] [] [].
Proof.
  intros Ht Hok Hca Hp Hth Ha Hx.
  rewrite (dispatch_eq transports undef pushes now own_hooks m a x c); [|rewrite Ht; unfold command_types; set_solver|done|exact (co_hooks _ _ Hx)].
  unfold logged. rewrite Ht. test_types. rewrite (CM_run _ _ _ () c eq_refl). change (default_hook _ _ _ _ _) with (Default_processConfUpdateMessage undef).
  destruct (wp_inv _ _ _ (conf_update_run nts transports ds undef pushes d transports_ok dispatcher_named m source dest a x c types names datas Ht Hok Hca Hp Hth Ha))
    as ([ok m'] & c' & E & [] & Hco & Hca').
  unfold call_hook. rewrite (CM_run _ _ _ _ _ E). eexists _, m', c'. split; [reflexivity|]. split_and!; try done. split; try done.
  intros Hff. by rewrite (an_good Hff).
Qed.

(** The lists of a message are moved: the second context finds them empty. *)
Lemma scan_config l m source dest c types names datas : m_type m = MESSAGE_TYPE_CONFIG_UPDATE -> NoDup l -> live nts c l -> cnc_ok nts c ->
  carries m types names datas -> parsed m (Some (source, dest)) -> fault_free c ->
  exists b m' c', spec.scan (ForEach_Context_Wrapper true dispatch) None None l m (inr c) true = Some (b, replicate (length l) false, m', inr c') /\
    match l with
    | [] => cn_uuids c' = cn_uuids c
    | [_] => configured (cn_uuids c') types names datas
    | _ => configured (cn_uuids c') [] [] []
    end.
Proof.
  revert m c types names datas. induction l as [|a l IH]; intros m c types names datas Ht Hn Hv Hok Hca Hp Hff.
  { by exists true, m, c. }
  apply NoDup_cons in Hn as [Hna Hn]. apply Forall_cons in Hv as [(x & Ha & Hx) Hv].
  set (c0 := set_thread (Some (Some a)) c).
  destruct (dispatch_config m source dest a x c0 types names datas Ht ltac:(by apply (set_ok nts c)) Hca Hp eq_refl Ha Hx)
    as (r & m1 & c1 & E & [Hs Hc Hty Hp1 Hm1 Hg Hse] & Hco & Hca1).
  set (c2 := set_thread (sg_tThread c) c1).
  assert (Ew : ForEach_Context_Wrapper true dispatch a m (inr c) = Some (LIST_EACH_OK, m1, inr c2)).
  { unfold ForEach_Context_Wrapper. fold c0. rewrite E. by rewrite (Hg Hff). }
  destruct (IH m1 c2 [] [] []) as (b & m' & c' & E' & Hu); try done.
  { congruence. }
  { apply Forall_forall. intros b Hb. destruct (proj1 (Forall_forall _ _) Hv b Hb) as (y & Hy & Hyo). exists y.
    unfold c2. simpl. rewrite Hc, lookup_insert_ne by (intros ->; done). done. }
  { apply (set_ok nts c1); try done. apply Hs. by apply (set_ok nts c). }
  { by apply (sy_free _ _ _ _ Hs). }
  exists b, m', c'. split.
  - cbn [spec.scan run_callback]. rewrite Ew. cbn [mbind option_bind]. test_types. rewrite E'. by test_types.
  - destruct l as [|b' [|b2 l]]; [|done..]. by rewrite Hu.
Qed.

(** ** Freed contexts *)

(** A search that meets a freed context. *)
Lemma scan_lookup_freed c id pre a post : live nts c pre -> find_first (has_id c id) pre = None -> cn_contexts c !! a = None ->
  spec.scan (reading (List_FindKeyCmp Context_KeyCmp id)) None None (pre ++ a :: post) None (inr c) true =
  Some (false, replicate (length (pre ++ a :: post)) false, None, inl (Crash UseAfterFree)).
Proof.
  intros Hv Hf Ha. induction Hv as [|b pre (x & Hb & _) Hl IH].
  - cbn [app spec.scan run_callback reading]. by rewrite Ha.
  - simpl in Hf. destruct (has_id c id b) eqn:Eb; [done|]. specialize (IH Hf). cbn [app spec.scan run_callback reading]. rewrite Hb.
    rewrite (FindKeyCmp_eq c b x id None Hb). unfold has_id in Eb. rewrite Hb in Eb. rewrite Eb. cbn [mbind option_bind]. test_types.
    rewrite IH. by test_types.
Qed.

Lemma turn_freed n L l1 l2 a m source dest : sg_ContextList n = Some L -> context_list_of L (l1 ++ a :: l2) -> live nts (nd_cnc n) l1 ->
  cn_contexts (nd_cnc n) !! a = None -> processLock (nd_cnc n) = Some false -> parsed m (Some (source, dest)) ->
  find_first (has_id (nd_cnc n) (if broadcast dest then source else dest)) l1 = None ->
  Turn (Some m) n = inl (Crash UseAfterFree).
Proof.
  intros EL HL Hv Ha Hlk Hp Hf. unfold CommandAndControl_Turn.
  rewrite (NM_run _ _ _ _ _ (Pause_run n Hlk)), (NM_run _ _ _ _ _ (nuggets_run m _ (locked n) Hp)).
  unfold broadcast in Hf. cbv beta iota.
  pose proof (each_context_run _ None (locked n) L _ _ _ _ EL HL (scan_lookup_freed (nd_cnc (locked n)) _ l1 a l2 Hv Hf Ha)) as E.
  destruct (uuid_is_null dest == 1); apply NM_halt, NM_halt; exact E.
Qed.

(** ** Theorems *)


(** C29. One turn of the thread of command and control: a command that names a context
    reaches the first context with that id and no other, a broadcast reaches the
    contexts in the order of the list up to the first whose hook fails (all of them when
    nothing fails), and one that a context of the process sent reaches none.  Only the
    contexts that it reached change, by the type of the command ([react]): pause and go
    set and reset the flag, go and the registration error post the semaphore of the
    registration.  When nothing fails the process sends exactly the answers
    ([replies_of]).  A terminate command makes the first context that it reaches say
    goodbye and ends the process. *)
Theorem CommandAndControl_Turn_delivers n l m r : node_ok n l -> command_ok nts m -> parsed m r ->
  if decide (m_type m = MESSAGE_TYPE_TERM) then
    match recipients r (nd_cnc n) l with
    | [] => exists n', Turn (Some m) n = inr ((), n') /\ turn_of m r n l [] [] n'
    | a :: _ => exists c' x ms, Turn (Some m) n = inl (Exit c') /\ cn_contexts (nd_cnc n) !! a = Some x /\
        cn_sent c' = cn_sent (nd_cnc n) ++ ms /\
        (fault_free (nd_cnc n) -> are_letters [(MESSAGE_TYPE_BYE, ctx_uuidNuggetId (cx_context x), uuid_null)] ms)
    end
  else exists n' l1 l2, Turn (Some m) n = inr ((), n') /\ turn_of m r n l l1 l2 n'.
Proof.
  intros Hn Hm Hp. destruct (decide _) as [Ht|Ht]; [|by apply turn_run].
  destruct (recipients r (nd_cnc n) l) as [|a l'] eqn:Er; [by apply turn_idle|by apply (term_turn n l m r a l')].
Qed.

(** C30. A registration ends with the answer of the dispatcher: the request goes to the
    first dedicated dispatcher that is known, and the call returns when the go or the
    registration error of the context was received, whatever other commands are
    received before, with true for a go and false for an error; its semaphore is again
    0. *)
Theorem CommandAndControl_Register_decides ms go src turns n l a x e : node_ok n l -> a ∈ l ->
  cn_contexts (nd_cnc n) !! a = Some x -> cx_regSem x = Some 0 ->
  fault_free (nd_cnc n) -> knows_dispatcher (nd_cnc n) e ->
  broadcast (ctx_uuidNuggetId (cx_context x)) = false -> find_first (has_id (nd_cnc n) (ctx_uuidNuggetId (cx_context x))) l = Some a ->
  Forall (fun m => valid m /\ quiet (m_type m)) ms ->
  command_ok nts go -> parsed go (Some (src, ctx_uuidNuggetId (cx_context x))) -> m_type go = MESSAGE_TYPE_GO \/ m_type go = MESSAGE_TYPE_REG_ERR ->
  exists n' x' m rest, CommandAndControl_Register pushes (map (fun m => Turn (Some m)) ms ++ Turn (Some go) :: turns) (Some a) n =
      inr (Some (m_type go == MESSAGE_TYPE_GO), n') /\ node_ok n' l /\ cn_contexts (nd_cnc n') !! a = Some x' /\ cx_regSem x' = Some 0 /\
    cn_sent (nd_cnc n') = cn_sent (nd_cnc n) ++ m :: rest /\
    letter MESSAGE_TYPE_REG_REQ (ctx_uuidNuggetId (cx_context x)) (ce_uuidNuggetId e) m.
Proof. exact (Register_run ms go src turns n l a x e). Qed.

(** C32. Every go posts the semaphore of the registration, also the one that resumes a
    paused context.  When the context is then told to register again, the thread does
    not wait for the answer: it finds the semaphore posted and the registration not yet
    granted, and frees the context, which stays in the list of contexts; the next
    command that is looked up there reads freed memory. *)
Theorem ReregistrationThread_destroys_resumed n pre a post x k e m source dest : node_ok n (pre ++ a :: post) ->
  cn_contexts (nd_cnc n) !! a = Some x -> cx_regSem x = Some k -> 0 < k ->
  fault_free (nd_cnc n) -> knows_dispatcher (nd_cnc n) e ->
  parsed m (Some (source, dest)) -> find_first (has_id (nd_cnc n) (if broadcast dest then source else dest)) pre = None ->
  exists n', ReregistrationThread pushes [] (Some a) n = inr (Some (), n') /\ cn_contexts (nd_cnc n') !! a = None /\
    sg_ContextList n' = sg_ContextList n /\ Turn (Some m) n' = inl (Crash UseAfterFree).
Proof.
  intros Hn Hx Hs Hk Hff Hkd Hp Hf. assert (Ha : a ∈ pre ++ a :: post) by set_solver.
  destruct (update_node_ok n _ a x (set_regOk false) Hn Ha Hx (set_regOk_ok _ _)) as (n0 & E0 & Hn0 & HL0 & Hc0).
  assert (Hx0 : cn_contexts (nd_cnc n0) !! a = Some (set_regOk false x)) by (rewrite Hc0; apply lookup_insert_eq).
  destruct (Register_requests [] n0 _ a _ e Hn0 Ha Hx0) as (n1 & m1 & E1 & Hn1 & Hc1 & _ & _ & HL1 & _); [by rewrite Hc0..|].
  destruct (awaits_posted [] n1 _ a (set_regOk false x) k Hn1 Ha ltac:(by rewrite Hc1) Hs Hk) as (n2 & E2 & Hn2 & HL2 & Hc2).
  assert (Hx2 : cn_contexts (nd_cnc n2) !! a = Some (set_regSem (Some (k - 1)) (set_regOk false x))) by (rewrite Hc2; apply lookup_insert_eq).
  set (n' := mkNode (sg_ContextList n2) (set_contexts (delete a (cn_contexts (nd_cnc n2))) (nd_cnc n2))). exists n'. split_and!.
  - unfold ReregistrationThread. rewrite (NM_run _ _ _ _ _ E0), (NM_run _ _ _ _ _ (eq_trans E1 E2)). cbn [cx_regOk set_regOk].
    rewrite (NM_run _ _ _ () n'); [done|]. apply in_cnc_run. unfold Razorback_Destroy_Context.
    by rewrite (CM_run _ _ _ _ _ (context_at_run a _ _ Hx2)).
  - apply lookup_delete_eq.
  - unfold n'. simpl. congruence.
  - destruct Hn2 as [(L & EL & HL) Hnd Hv Hok Hlk _]. apply NoDup_app in Hnd as (_ & Hd & _). apply Forall_app in Hv as [Hv _].
    assert (Hne : forall b, b ∈ pre -> a <> b) by (intros b Hb ->; apply (Hd b Hb); set_solver).
    apply (turn_freed n' L pre post a m source dest); try done.
    + apply Forall_forall. intros b Hb. unfold n'. cbn [nd_cnc set_contexts cn_contexts]. rewrite lookup_delete_ne by auto.
      by apply (proj1 (Forall_forall _ _) Hv).
    + apply lookup_delete_eq.
    + rewrite <- Hf. clear -Hne Hc2 Hc1 Hc0. induction pre as [|b pre IH]; [done|]. cbn [find_first].
      assert (Eb : has_id (nd_cnc n') (if broadcast dest then source else dest) b = has_id (nd_cnc n) (if broadcast dest then source else dest) b).
      { unfold has_id, n'. cbn [nd_cnc set_contexts cn_contexts]. rewrite lookup_delete_ne, Hc2 by (apply Hne; set_solver).
        cbn [cn_contexts set_contexts]. rewrite lookup_insert_ne, Hc1, Hc0 by (apply Hne; set_solver). cbn [cn_contexts set_contexts].
        by rewrite lookup_insert_ne by (apply Hne; set_solver). }
      rewrite Eb, IH by (intros ? ?; apply Hne; set_solver). done.
Qed.

(** The lists of a configuration are moved out of the message into the process.  An
    update for one context, or a broadcast in a process with one, replaces the lists of
    types, names and data types by those of the message; a broadcast in a process with
    more contexts leaves all three lists empty, because the second context moves the
    lists that the first has emptied. *)
Theorem CommandAndControl_config_moves n l m source dest types names datas a l' : node_ok n l ->
  m_type m = MESSAGE_TYPE_CONFIG_UPDATE -> carries m types names datas -> parsed m (Some (source, dest)) -> fault_free (nd_cnc n) ->
  recipients (Some (source, dest)) (nd_cnc n) l = a :: l' ->
  exists n', Turn (Some m) n = inr ((), n') /\
    match l' with
    | [] => configured (cn_uuids (nd_cnc n')) types names datas
    | _ => configured (cn_uuids (nd_cnc n')) [] [] []
    end.
Proof.
  intros Hn Ht Hca Hp Hff Hr. pose proof Hn as [(L & EL & HL) Hnd Hv Hok Hlk [t Hth]].
  assert (Hok1 : cnc_ok nts (nd_cnc (locked n))) by by apply (set_ok nts (nd_cnc n)).
  unfold recipients in Hr. destruct (broadcast dest) eqn:Eb, (find_first _ l) as [b|] eqn:Ef; try done.
  - rewrite (turn_broadcast n l m source dest Hn Hp Eb Ef). subst l.
    destruct (scan_config _ m source dest (nd_cnc (locked n)) types names datas Ht Hnd Hv Hok1 Hca Hp Hff) as (b & m' & c' & Es & Hu).
    destruct (scan_dispatch (a :: l') m source dest (nd_cnc (locked n))) as (_ & _ & b2 & m2 & c2 & _ & Es2 & Hs & _); try done.
    { by rewrite Ht. }
    { by eapply carries_command. }
    rewrite Es in Es2. injection Es2 as <- <- <-.
    rewrite (NM_run _ _ _ _ _ (each_context_run _ m (locked n) L _ b m' (inr c') EL HL Es)).
    eexists. split; [apply (Unpause_run _ true); exact (sy_lock _ _ _ _ Hs)|]. by destruct l'.
  - injection Hr as -> <-. rewrite (turn_directed n l m source dest a t Hn Hp Eb Ef Hth).
    destruct (found_live n l a _ Hn Ef) as (_ & x & Ha & Hx).
    destruct (dispatch_config m source dest a x (nd_cnc (at_context a (locked n))) types names datas Ht
      ltac:(by apply (set_ok nts (nd_cnc n))) Hca Hp eq_refl Ha Hx) as (r1 & m1 & c1 & E & [Hs _ _ _ _ _ _] & Hco & _).
    rewrite (NM_run _ _ _ _ _ (in_cnc_run _ (at_context a (locked n)) _ _ E)). erewrite NM_run by reflexivity.
    eexists. split; [apply (Unpause_run _ true); exact (sy_lock _ _ _ _ Hs)|]. exact Hco.
Qed.

(** The clearing of the caches reports its success as an error of the list and its
    failure as success: a broadcast ends at the first context, and clears the caches
    only when that one stands alone and is no dispatcher, whatever the others are. *)
Theorem CommandAndControl_clear_inverted n a l m source dest x : node_ok n (a :: l) -> m_type m = MESSAGE_TYPE_CLEAR ->
  command_ok nts m -> parsed m (Some (source, dest)) -> broadcast dest = true -> find_first (has_id (nd_cnc n) source) (a :: l) = None ->
  cn_contexts (nd_cnc n) !! a = Some x ->
  (exists c', dispatch a m (nd_cnc n) = inr ((LIST_EACH_ERROR, m), c')) /\
  exists n', Turn (Some m) n = inr ((), n') /\ node_ok n' (a :: l) /\ cn_contexts (nd_cnc n') = cn_contexts (nd_cnc n) /\
    if negb (isd nts (ctx_uuidNuggetType (cx_context x))) && stand_alone x then
      forall t, t <> ALL -> c_entries (cn_caches (nd_cnc n') t) = 0%nat
    else cn_caches (nd_cnc n') = cn_caches (nd_cnc n).
Proof.
  intros Hn Ht Hm Hp Hb Hf Hx. pose proof Hn as [(L & EL & HL) Hnd Hv Hok Hlk [t Hth]]. apply Forall_cons in Hv as [(y & Hy & Hyo) Hv].
  assert (y = x) as -> by congruence.
  assert (Hrun : forall c, cnc_ok nts c -> cn_contexts c !! a = Some x -> exists c', dispatch a m c = inr ((LIST_EACH_ERROR, m), c') /\
    answered nts pushes m source dest a x c True m c' /\
    if negb (isd nts (ctx_uuidNuggetType (cx_context x))) && stand_alone x then forall t, t <> ALL -> c_entries (cn_caches c' t) = 0%nat else c' = c).
  { intros c Hc Ha. destruct (wp_inv _ _ _ (clear_run nts transports undef pushes now d dispatcher_named own_hooks m source dest a x c Ht Hc Hm Hp Ha Hyo))
      as ([r m'] & c' & E & Han & -> & -> & Hcl). by exists c'. }
  split; [destruct (Hrun _ Hok Hx) as (c' & ? & _); by exists c'|]. rewrite (turn_broadcast n _ m source dest Hn Hp Hb Hf).
  set (c0 := set_thread (Some (Some a)) (nd_cnc (locked n))).
  destruct (Hrun c0 ltac:(by apply (set_ok nts (nd_cnc n))) Hx) as (c1 & E & [Hs Hc _ _ _ _ _] & Hcl).
  set (c2 := set_thread (sg_tThread (nd_cnc n)) c1).
  assert (Ew : ForEach_Context_Wrapper true dispatch a m (inr (nd_cnc (locked n))) = Some (LIST_EACH_ERROR, m, inr c2)).
  { unfold ForEach_Context_Wrapper. fold c0. by rewrite E. }
  rewrite (NM_run _ _ _ m (mkNode (sg_ContextList n) c2)).
  2: { unfold Razorback_ForEach_Context. erewrite (each_context_run _ m (locked n) L (a :: l) false m (inr c2) EL HL); [done|].
       cbn [spec.scan run_callback]. by rewrite Ew. }
  assert (Hc2 : cn_contexts c2 = cn_contexts (nd_cnc n)).
  { unfold c2. simpl. rewrite Hc. unfold react. rewrite Ht. test_types. by rewrite insert_id. }
  eexists. split; [apply (Unpause_run _ true); exact (sy_lock _ _ _ _ Hs)|]. split_and!.
  - split; try done; [by exists L| |apply (set_ok nts c1); try done; apply Hs; by apply (set_ok nts (nd_cnc n))|by exists t].
    apply Forall_cons. split; [exists x; by rewrite <- Hc2 in Hx|]. eapply Forall_impl; [exact Hv|]. intros b (z & Hz & Hzo). exists z.
    by rewrite <- Hc2 in Hz.
  - done.
  - destruct (negb _ && _); [exact Hcl|]. unfold c2. simpl. by rewrite Hcl.
Qed.

(** ** The hello timer *)

Definition hellos l (cs : gmap positive Context) : list (Z * uuid_t * uuid_t) :=
  l ≫= (fun a => match cs !! a with Some x => [(MESSAGE_TYPE_HELLO, ctx_uuidNuggetId (cx_context x), uuid_null)] | None => [] end).

Local Abbreviation say_hello := (fun a (u : unit) => r ← CommandAndControl_SendHello pushes (Some a); mret (r, u)).

Lemma scan_hello l c : live nts c l -> cnc_ok nts c ->
  exists b c', spec.scan (ForEach_Context_Wrapper false say_hello) None None l () (inr c) true = Some (b, replicate (length l) false, (), inr c') /\
    stays nts pushes c c' /\ cn_contexts c' = cn_contexts c /\
    exists ms, cn_sent c' = cn_sent c ++ ms /\ (fault_free c -> are_letters (hellos l (cn_contexts c)) ms).
Proof.
  intros Hv. revert c Hv. induction l as [|a l IH]; intros c Hv Hok.
  { exists true, c. split_and!; try done. exists []. split; [by rewrite app_nil_r|constructor]. }
  apply Forall_cons in Hv as [(x & Ha & Hx) Hv].
  assert (Hd : wp (say_hello a ()) (fun '(r, _) c' => (r = LIST_EACH_OK \/ r = LIST_EACH_ERROR) /\ stays nts pushes c c' /\
    cn_contexts c' = cn_contexts c /\ exists ms, cn_sent c' = cn_sent c ++ ms /\ (fault_free c -> r = LIST_EACH_OK /\
      are_letters [(MESSAGE_TYPE_HELLO, ctx_uuidNuggetId (cx_context x), uuid_null)] ms)) c).
  { apply wp_bind. apply (wp_SendHello nts pushes d dispatcher_named a x); try done. intros r ms o p Hr Hf. wp_step. split; [done|].
    split_and!; [|done|exists ms; split; [done|intros Hff; split; apply (Hf Hff)]]. split; try done; [by apply set_ok|].
    intros Hff. destruct (Hf Hff) as (_ & -> & -> & _). by split_and!; try apply Hff. }
  destruct (wp_inv _ _ _ Hd) as ([r []] & c1 & E & Hr & Hs & Hc & ms & Hms & Hlt).
  assert (Ew : ForEach_Context_Wrapper false say_hello a () (inr c) = Some (r, (), inr c1)).
  { unfold ForEach_Context_Wrapper. by rewrite E. }
  assert (Hrx : match cn_contexts c !! a with Some y => [(MESSAGE_TYPE_HELLO, ctx_uuidNuggetId (cx_context y), uuid_null)] | None => [] end =
    [(MESSAGE_TYPE_HELLO, ctx_uuidNuggetId (cx_context x), uuid_null)]) by by rewrite Ha.
  cbn [spec.scan run_callback]. rewrite Ew. cbn [mbind option_bind]. destruct Hr as [-> | ->]; test_types.
  - destruct (IH c1) as (b & c' & -> & Hs' & Hc' & ms' & Hms' & Hlt').
    { eapply Forall_impl; [exact Hv|]. intros b. by rewrite Hc. }
    { by apply Hs. }
    exists b, c'. cbn [mbind option_bind]. split_and!; [done|by etrans|congruence|]. exists (ms ++ ms').
    split; [by rewrite Hms', Hms, app_assoc|]. intros Hff. unfold hellos. cbn. rewrite Hrx.
    apply Forall2_app; [by apply Hlt|]. rewrite <- Hc. by apply Hlt', Hs.
  - exists false, c1. split_and!; [done..|]. exists ms. split; [done|]. intros Hff. by destruct (Hlt Hff) as [? _].
Qed.

Lemma HelloTimer_run n l : node_ok n l ->
  exists n', CommandAndControl_HelloTimer pushes n = inr ((), n') /\ node_ok n' l /\ cn_contexts (nd_cnc n') = cn_contexts (nd_cnc n) /\
    exists ms, cn_sent (nd_cnc n') = cn_sent (nd_cnc n) ++ ms /\
      (fault_free (nd_cnc n) -> are_letters (hellos l (cn_contexts (nd_cnc n))) ms).
Proof.
  intros Hn. pose proof Hn as [(L & EL & HL) Hnd Hv Hok Hlk [t Hth]].
  assert (Hok1 : cnc_ok nts (nd_cnc (locked n))) by by apply (set_ok nts (nd_cnc n)).
  destruct (scan_hello l (nd_cnc (locked n)) Hv Hok1) as (b & c' & Es & Hs & Hc & ms & Hms & Hlt).
  unfold CommandAndControl_HelloTimer. rewrite (NM_run _ _ _ _ _ (Pause_run n Hlk)).
  rewrite (NM_run _ _ _ _ _ (each_context_run _ () (locked n) L l b () (inr c') EL HL Es)).
  eexists. split; [apply (Unpause_run _ true); exact (sy_lock _ _ _ _ Hs)|]. split_and!; [|done|by exists ms].
  split; try done; [by exists L| |apply (set_ok nts c'); try done; by apply Hs|exists t; exact (eq_trans (sy_thread _ _ _ _ Hs) Hth)].
  eapply Forall_impl; [exact Hv|]. intros b' (y & Hy & Hyo). exists y. split; [|done]. simpl. by rewrite Hc.
Qed.

(** ** Removal of contexts *)

(** The contexts with another id. *)
Definition other_contexts c (id : uuid_t) l : list positive := filter (fun b => has_id c id b = false) l.

Lemma FindRemove_eq c a x b y r : cn_contexts c !! a = Some x -> cn_contexts c !! b = Some y ->
  List_FindRemove (Some Context_Cmp) a b r (inr c) =
  if has_id c (ctx_uuidNuggetId (cx_context x)) b then Some (LIST_EACH_REMOVE, Some b, inr c) else Some (LIST_EACH_OK, r, inr c).
Proof.
  intros Ha Hb. unfold List_FindRemove, has_id, Context_Cmp. rewrite Hb. destruct (decide (b = a)) as [->|Hn].
  - rewrite bool_decide_true by done. rewrite bool_decide_true by congruence. done.
  - rewrite bool_decide_false by done. rewrite Ha, uuid_compare_eqb. by case_bool_decide.
Qed.

Lemma scan_remove_contexts c a x l r : cn_contexts c !! a = Some x -> live nts c l ->
  exists r', spec.scan (reading (List_FindRemove (Some Context_Cmp) a)) None None l r (inr c) true =
    Some (true, map (has_id c (ctx_uuidNuggetId (cx_context x))) l, r', inr c).
Proof.
  intros Ha Hv. revert r. induction Hv as [|b l (y & Hb & _) Hv IH]; intros r; [by exists r|].
  cbn [spec.scan run_callback reading]. rewrite Hb, (FindRemove_eq c a x b y r Ha Hb). cbn [map].
  destruct (has_id c (ctx_uuidNuggetId (cx_context x)) b); cbn [mbind option_bind]; test_types.
  - destruct (IH (Some b)) as (r' & ->). by exists r'.
  - destruct (IH r) as (r' & ->). by exists r'.
Qed.

Lemma Remove_run n L l a x : sg_ContextList n = Some L -> context_list_of L l -> cn_contexts (nd_cnc n) !! a = Some x -> live nts (nd_cnc n) l ->
  exists L', Razorback_Remove_Context (Some a) n = inr ((), mkNode (Some L') (nd_cnc n)) /\
    context_list_of L' (other_contexts (nd_cnc n) (ctx_uuidNuggetId (cx_context x)) l).
Proof.
  intros EL (Hc & [Hl1 Hl2] & Hm & Hli & Hd) Ha Hv. destruct (scan_remove_contexts (nd_cnc n) a x l None Ha Hv) as (r & Es).
  pose proof (ForEach_contents (reading (List_FindRemove (Some Context_Cmp) a)) L l None (inr (nd_cnc n)) Hc) as HF.
  unfold spec.for_each in HF. rewrite Hl1, Hl2, Hd, Es in HF. cbn [mbind option_bind] in HF.
  destruct (select_filter (has_id (nd_cnc n) (ctx_uuidNuggetId (cx_context x))) l) as [E1 E2]. rewrite E1, E2 in HF.
  assert (Hde : forall (xs : list positive) (s : halt + Cnc), spec.destroy_all None xs s = s) by (intros xs; induction xs; intros; simpl; auto).
  rewrite Hde in HF. destruct HF as (L' & E & Hme & _ & Hc' & _). exists L'. split.
  - unfold Razorback_Remove_Context. erewrite NM_run; [reflexivity|]. unfold each_context. by rewrite EL, E.
  - unfold meta in Hme. split_and!; [done|split|..]; congruence.
Qed.

(** The hello timer sends a hello for every context of the list, in order, when
    nothing fails, and never changes a context. *)
Theorem CommandAndControl_HelloTimer_announces n l : node_ok n l ->
  exists n', CommandAndControl_HelloTimer pushes n = inr ((), n') /\ node_ok n' l /\ cn_contexts (nd_cnc n') = cn_contexts (nd_cnc n) /\
    exists ms, cn_sent (nd_cnc n') = cn_sent (nd_cnc n) ++ ms /\
      (fault_free (nd_cnc n) -> are_letters (hellos l (cn_contexts (nd_cnc n))) ms).
Proof. exact (HelloTimer_run n l). Qed.

(** What the shutdown of the inspection and of the submission services of a context
    leaves of the process: both belong to other components. *)
Variables Inspection_Shutdown Submission_Shutdown : positive -> NM unit.


(** ** Starts *)

(** Without a thread that receives hellos no dispatcher is ever found. *)
Lemma wait_for_dispatcher_none k n : holds nts (cn_table (nd_cnc n)) [] [] ->
  wait_for_dispatcher pushes (replicate k (mret ())) n = inr (None, n).
Proof.
  intros Ht. destruct (Dedicated_run (cn_table (nd_cnc n)) [] [] Ht) as (r & o & E & -> & ->).
  rewrite set_allocs_same, with_store_same in E.
  assert (Ed : in_cnc (in_table (ConnectedEntityList_GetDedicatedDispatcher pushes)) n = inr (None, n)).
  { rewrite (in_cnc_run _ n None (nd_cnc n)); [by destruct n|]. unfold in_table. rewrite E. by destruct (nd_cnc n). }
  induction k as [|k IH]; simpl; rewrite (NM_run _ _ _ _ _ Ed); [done|]. erewrite NM_run by reflexivity. exact IH.
Qed.

Lemma start_process_fails a c : cn_table c = mkTable None None false (t_store (cn_table c)) -> st_allocs (t_store (cn_table c)) = [] ->
  cn_sys c = [true; true; true; true; false] ->
  exists c', start_process a c = inr (false, c') /\ sg_bQueueInitialized c' = true /\ cn_contexts c' = cn_contexts c /\
    cn_uuids c' = cn_uuids c /\ holds nts (cn_table c') [] [].
Proof.
  intros Htb Hal Hsys. destruct (Start_holds nts _ Hal) as (t & Et & Ht & _). rewrite <- Htb in Et.
  set (c3 := set_outcomes [false] (set_queues true true (set_processLock (Some false) c))).
  exists (set_thread None (set_outcomes [] (set_initialized true (set_entity_table t c3)))). split; [|done].
  unfold start_process. rewrite (CM_run _ _ _ true (set_outcomes [true; true; true; false] c)) by (unfold creates; by rewrite Hsys).
  do 3 (erewrite CM_run by reflexivity; cbn [negb]). do 2 (erewrite CM_run by reflexivity; cbn [negb]).
  rewrite (CM_run _ _ _ true c3) by by destruct c.
  rewrite (CM_run _ _ _ true (set_entity_table t c3)) by (unfold in_table; change (cn_table c3) with (cn_table c); by rewrite Et).
  do 3 erewrite CM_run by reflexivity. done.
Qed.

(** When the thread of command and control cannot be launched the start fails, but
    the process counts as started: the next start of a context launches no thread, and
    waits for a dispatcher that nobody can hear of, however long it waits. *)
Theorem CommandAndControl_Start_stuck n a x turns : cn_contexts (nd_cnc n) !! a = Some x -> stand_alone x = true ->
  isd nts (ctx_uuidNuggetType (cx_context x)) = false -> entries (UUID_Get_List (cn_uuids (nd_cnc n)) UUID_TYPE_NUGGET_TYPE) nts ->
  sg_bQueueInitialized (nd_cnc n) = false ->
  cn_table (nd_cnc n) = mkTable None None false (t_store (cn_table (nd_cnc n))) -> st_allocs (t_store (cn_table (nd_cnc n))) = [] ->
  cn_sys (nd_cnc n) = [true; true; true; true; false] ->
  exists n1, CommandAndControl_Start pushes turns (Some a) n = inr (Some false, n1) /\
    forall k, CommandAndControl_Start pushes (replicate k (mret ())) (Some a) n1 = inr (None, n1).
Proof.
  intros Hx Hst Hd Hu Hin Htb Hal Hsys.
  assert (Hh : exists n0 x0, (match cx_pCommandHooks x with None => in_cnc (context_update a (set_hooks (Some DefaultHooks))) | Some _ => mret () end) n = inr ((), n0) /\
    cn_contexts (nd_cnc n0) !! a = Some x0 /\ is_Some (cx_pCommandHooks x0) /\ stand_alone x0 = true /\ cx_context x0 = cx_context x /\
    cn_uuids (nd_cnc n0) = cn_uuids (nd_cnc n) /\ sg_bQueueInitialized (nd_cnc n0) = false /\ cn_table (nd_cnc n0) = cn_table (nd_cnc n) /\
    cn_sys (nd_cnc n0) = cn_sys (nd_cnc n)).
  { destruct (cx_pCommandHooks x) eqn:Eh; [by exists n, x|]. eexists _, (set_hooks (Some DefaultHooks) x). split.
    - apply in_cnc_run. unfold context_update. by rewrite (CM_run _ _ _ _ _ (context_at_run a x _ Hx)).
    - split_and!; try done. apply lookup_insert_eq. }
  destruct Hh as (n0 & x0 & E0 & Hx0 & [h Hh0] & Hst0 & Hcx0 & Hu0 & Hi0 & Ht0 & Hs0).
  destruct (start_process_fails a (nd_cnc n0)) as (c1 & E1 & Hi1 & Hc1 & Hu1 & Ht1); [congruence..|].
  set (n1 := mkNode (sg_ContextList n0) c1). exists n1. split.
  - unfold CommandAndControl_Start. rewrite (NM_run _ _ _ _ _ (at_run n a x Hx)), (NM_run _ _ _ _ _ E0).
    rewrite (NM_run _ _ _ (nd_cnc n0) n0) by by destruct n0.
    change (Z.land (cx_iFlags x) CONTEXT_FLAG_STAND_ALONE == CONTEXT_FLAG_STAND_ALONE) with (stand_alone x). rewrite Hst, Hi0.
    by rewrite (NM_run _ _ _ _ _ (in_cnc_run _ n0 _ _ E1)).
  - intros k. unfold CommandAndControl_Start. assert (Hx1 : cn_contexts (nd_cnc n1) !! a = Some x0) by (simpl; by rewrite Hc1).
    rewrite (NM_run _ _ _ _ _ (at_run n1 a x0 Hx1)), Hh0. erewrite NM_run by reflexivity. rewrite (NM_run _ _ _ c1 n1) by done.
    change (Z.land (cx_iFlags x0) CONTEXT_FLAG_STAND_ALONE == CONTEXT_FLAG_STAND_ALONE) with (stand_alone x0). rewrite Hst0, Hi1.
    erewrite NM_run by reflexivity. cbn [negb].
    rewrite (NM_run _ _ _ (Some false) n1).
    + unfold CommandAndControl_Register. by rewrite (NM_run _ _ _ _ _ (wait_for_dispatcher_none k n1 Ht1)).
    + rewrite (in_cnc_run _ n1 (Some false) c1); [done|]. unfold isDispatcher. rewrite (CM_run _ _ _ c1 c1 eq_refl). unfold allocates.
      rewrite (is_dispatcher_run _ nts d) by (congruence || (rewrite Hu1, Hu0; done)). rewrite Hcx0. unfold isd in Hd. rewrite dispatcher_named in Hd.
      rewrite Hd. by destruct c1.
Qed.
End Turns.

(** ** Witnesses *)

Module command_demo.
Import bytes16 toy.
Local Open Scope positive_scope.

Definition nts : list UUIDListNode := entity_demo.nts.
Definition lists : UuidLists :=
  mkUuidLists uuid_demo.list0 uuid_demo.list0 uuid_demo.list0 uuid_demo.list0 uuid_demo.list0 cnc_demo.types.

Definition context (a : positive) (id flags k : Z) : Context :=
  mkCtx (mkContext a (uuid_demo.uuid id) (uuid_demo.uuid 5) (uuid_demo.uuid 4) 3 no_dispatcher) flags (Some DefaultHooks) (Some k)
    true false 0 PNull false.

(** The first context stands alone; [k] is the semaphore of the second. *)
Definition contexts (k : Z) : gmap positive Context := <[1 := context 1 21 CONTEXT_FLAG_STAND_ALONE 0]> {[2 := context 2 22 0 k]}.
Definition caches : CacheType -> CACHE := initcache cache_demo.garbage 10 10 [].
Definition cnc (t : Table) (k : Z) : Cnc :=
  mkCnc (contexts k) lists t caches true (Some false) true true (Some (Some 1)) false 0 [] [] [] [] [].
Definition node L t (k : Z) : Node := mkNode (Some L) (cnc t k).
Definition no_hooks (a : positive) : RazorbackCommandAndControlHooks :=
  mkHooks None None None None None None None None None None None None None None.

Lemma lookup_by_id k : contexts k !! 1 = Some (context 1 21 CONTEXT_FLAG_STAND_ALONE 0) /\ contexts k !! 2 = Some (context 2 22 0 k).
Proof. split; [apply lookup_insert_eq|]. unfold contexts. by rewrite lookup_insert_ne, lookup_singleton_eq by done. Qed.

Lemma list0_table : uuid_table uuid_demo.list0 [].
Proof.
  unfold uuid_demo.list0. destruct (create_ok UUID_Cmp UUID_KeyCmp UUID_Destroy UUID_Clone) as (l & E & Hc & Hp & _ & Hk & Hd & _).
  unfold UUID_Create_List. rewrite E. split; [by exists l|]. by exists l.
Qed.

Lemma types_table : uuid_table cnc_demo.types nts.
Proof.
  split; [exact cnc_demo.nugget_entries|]. unfold cnc_demo.types, uuid_demo.add, uuid_demo.list0.
  destruct (create_ok UUID_Cmp UUID_KeyCmp UUID_Destroy UUID_Clone) as (l & E & Hc & Hp & _ & Hk & Hd & _).
  unfold UUID_Create_List. rewrite E.
  destruct (push_plain l [] cnc_demo.dispatcher [] Hc Hp) as (l' & Ep & Hm & _).
  assert (E' : UUID_Add_List_Entry (Some l) (un_uuid cnc_demo.dispatcher) (Some NUGGET_TYPE_DISPATCHER) None [] = Some (Some (Some l'), [])).
  { unfold UUID_Add_List_Entry, nonnull. rewrite !M_ret_bind, require_bind.
    destruct (Z.eqb_spec (strlen NUGGET_TYPE_DISPATCHER) 0); [done|]. simpl.
    rewrite !(M_bind_ok _ _ _ _ _ alloc_ok). by erewrite M_bind_ok by exact Ep. }
  exists l'. cbn [cnc_demo.dispatcher un_uuid un_sName un_sDescription] in *. rewrite E'. split; [done|]. unfold meta in Hm. congruence.
Qed.

Lemma transports_registry : registry entity_demo.transports [mkTransport 1 "file"].
Proof.
  unfold entity_demo.transports. destruct Transport_List_Create_run as (l & -> & Hl).
  by destruct (Transport_Register_run (mkTransport 1 "file") _ _ Hl) as (p' & -> & Hp).
Qed.

Lemma named_dispatcher : named NUGGET_TYPE_DISPATCHER nts = Some cnc_demo.dispatcher.
Proof. reflexivity. Qed.

Lemma push_context_list L l a : context_list_of L l -> exists L', context_list_of L' (l ++ [a]).
Proof.
  intros (Hc & [? ?] & Hm & Hl & Hd).
  destruct (Push_ok L l a Hc) as (L' & _ & Hme & _ & Hc'); [unfold at_limit; by rewrite Hl|unfold known_mode; by rewrite Hm|].
  unfold is_stack in Hc'. rewrite Hm in Hc'. exists L'. unfold meta in Hme. split_and!; [done|split|..]; congruence.
Qed.

Lemma two_contexts : exists L, context_list_of L [1; 2].
Proof.
  destruct (List_Create true true true LIST_MODE_GENERIC (Some Context_Cmp) (Some Context_KeyCmp) None None None None) as [L0|] eqn:E; [|done].
  assert (H0 : context_list_of L0 []) by (split_and!; [by eapply Create_contents|by injection E as <-..]).
  destruct (push_context_list L0 [] 1 H0) as (L1 & H1). exact (push_context_list L1 [1] 2 H1).
Qed.

Lemma context_sound a id flags k : context_ok nts (context a id flags k).
Proof. split; [done|by exists k|by exists []|]. exists []. intros Hi. exfalso. revert Hi. by vm_compute. Qed.

Lemma caches_unfreed t : t <> ALL -> unfreed (caches t).
Proof. intros Ht i Hi. exfalso. destruct t; try done; vm_compute in Hi; lia. Qed.

Lemma cnc_sound t k es hs : holds nts t es hs -> cnc_ok nts (cnc t k).
Proof.
  intros Ht. split; [exact (proj1 types_table)| |by exists es, hs|exact caches_unfreed|done].
  repeat (apply Forall_cons; split; [first [exists []; exact list0_table|exists nts; exact types_table]|]). constructor.
Qed.

Lemma node_sound L t k es hs : context_list_of L [1; 2] -> holds nts t es hs -> node_ok nts (node L t k) [1; 2].
Proof.
  intros HL Ht. destruct (lookup_by_id k) as [L1 L2]. split; [by exists L| | |by eapply cnc_sound|done|by exists (Some 1)].
  - repeat constructor; set_solver.
  - apply Forall_cons. split; [eexists; split; [exact L1|apply context_sound]|].
    apply Forall_cons. split; [eexists; split; [exact L2|apply context_sound]|constructor].
Qed.

(** A command from one nugget to another. *)
Lemma command_of t b source dest : exists m, letter t source dest m /\ m_message m = b.
Proof. destruct (Create_Directed_makes t MESSAGE_VERSION_1 b source dest) as [_ (m & _ & Hm)]. by exists m. Qed.

(** The type of the command has no body to look at. *)
Definition bodyless (t : Z) : bool :=
  negb (bool_decide (t ∈ [MESSAGE_TYPE_HELLO; MESSAGE_TYPE_REG_REQ; MESSAGE_TYPE_REG_ERR; MESSAGE_TYPE_CONFIG_UPDATE; MESSAGE_TYPE_TERM])).

Lemma bodyless_ok m : bodyless (m_type m) = true -> command_ok nts m.
Proof.
  unfold bodyless. intros Hb%negb_true_iff%bool_decide_eq_false_1. split; intros Ht; exfalso; apply Hb; rewrite Ht; set_solver.
Qed.

(** A dedicated dispatcher is known. *)
Definition dd : MessageHello := mkHello (uuid_demo.uuid 11) (uuid_demo.uuid 4) 3 1 DISP_HELLO_FLAG_DD json_demo.words2 1 8080.

Lemma dd_table : exists t e, holds nts t [e] [] /\ st_allocs (t_store t) = [] /\ dedicated e = true.
Proof.
  destruct (entity_demo.table_heard [(3%Z, dd)]) as (t & es & Hh & Ht & Ha); [reflexivity|by repeat (apply Forall_cons_2; [done|])|].
  apply Forall2_cons_inv_l in Hh as (e & es' & (l & _ & ->) & Hh & ->). apply Forall2_nil_inv_l in Hh as ->. by exists t, (refreshed entity_demo.nts 100 dd
    (first_hello entity_demo.nts entity_demo.supports (uuid_demo.uuid 3) dd l)).
Qed.

Lemma dd_known t e k : holds nts t [e] [] -> st_allocs (t_store t) = [] -> dedicated e = true -> knows_dispatcher nts (cnc t k) e.
Proof. intros Ht Ha Hd. split; [done|]. exists [e], []. split; [done|]. simpl. by rewrite Hd. Qed.

Lemma ids t k id : has_id (cnc t k) id 1 = bool_decide (uuid_demo.uuid 21 = id) /\ has_id (cnc t k) id 2 = bool_decide (uuid_demo.uuid 22 = id).
Proof. unfold has_id. simpl. destruct (lookup_by_id k) as [-> ->]. done. Qed.

(** A nugget that is not of this process, and the second context. *)
Lemma find_foreign t k l : (l = [1; 2] \/ l = [1] \/ l = []) -> find_first (has_id (cnc t k) (uuid_demo.uuid 9)) l = None.
Proof. destruct (ids t k (uuid_demo.uuid 9)) as [E1 E2]. intros [-> | [-> | ->]]; cbn [find_first]; rewrite ?E1, ?E2; by vm_compute. Qed.

Lemma find_second t k l : (l = [1; 2] \/ l = [2]) -> find_first (has_id (cnc t k) (uuid_demo.uuid 22)) l = Some 2.
Proof. destruct (ids t k (uuid_demo.uuid 22)) as [E1 E2]. intros [-> | ->]; cbn [find_first]; rewrite ?E1, ?E2; by vm_compute. Qed.

Lemma to_all : broadcast uuid_null = true.
Proof. by vm_compute. Qed.

Lemma to_second : broadcast (uuid_demo.uuid 22) = false.
Proof. by vm_compute. Qed.

Definition turn (m : option Message) : NM unit := CommandAndControl_Turn entity_demo.transports (uuid_demo.uuid 0) [] 100 no_hooks m.
End command_demo.

Import command_demo.


Lemma CommandAndControl_Turn_delivers_witness : exists n m n' l1 l2, turn (Some m) n = inr ((), n') /\
  turn_of nts [] m (Some (uuid_demo.uuid 9, uuid_null)) n [1%positive; 2%positive] l1 l2 n'.
Proof.
  destruct two_contexts as (L & HL), dd_table as (t & e & Ht & _).
  destruct (command_of MESSAGE_TYPE_GO None (uuid_demo.uuid 9) uuid_null) as (m & [Em Pm] & _).
  pose proof (CommandAndControl_Turn_delivers nts entity_demo.transports [mkTransport 1 "file"] (uuid_demo.uuid 0) [] 100 cnc_demo.dispatcher no_hooks
    transports_registry named_dispatcher (node L t 0) [1%positive; 2%positive] m (Some (uuid_demo.uuid 9, uuid_null))) as Hd.
  rewrite decide_False in Hd by by rewrite Em. destruct Hd as (n' & l1 & l2 & ? & ?); [by eapply node_sound|apply bodyless_ok; rewrite Em; by vm_compute|done|].
  by exists (node L t 0), m, n', l1, l2.
Defined.

Lemma CommandAndControl_Register_decides_witness : exists n go n', m_type go = MESSAGE_TYPE_GO /\
  CommandAndControl_Register [] (map (fun m => turn (Some m)) [] ++ [turn (Some go)]) (Some 2%positive) n = inr (Some (m_type go == MESSAGE_TYPE_GO), n').
Proof.
  destruct two_contexts as (L & HL), dd_table as (t & e & Ht & Ha & Hd).
  destruct (command_of MESSAGE_TYPE_GO None (uuid_demo.uuid 3) (uuid_demo.uuid 22)) as (m & [Em Pm] & _).
  destruct (CommandAndControl_Register_decides nts entity_demo.transports [mkTransport 1 "file"] (uuid_demo.uuid 0) [] 100 cnc_demo.dispatcher no_hooks
    transports_registry named_dispatcher [] m (uuid_demo.uuid 3) [] (node L t 0) [1%positive; 2%positive] 2 (context 2 22 0 0) e) as (n' & _ & _ & _ & E & _).
  - by eapply node_sound.
  - set_solver.
  - apply lookup_by_id.
  - done.
  - done.
  - by apply dd_known.
  - exact to_second.
  - apply (find_second t 0 [1%positive; 2%positive]); by left.
  - constructor.
  - apply bodyless_ok; rewrite Em; by vm_compute.
  - exact Pm.
  - by left.
  - exists (node L t 0), m, n'. split; [done|exact E].
Defined.

Lemma ReregistrationThread_destroys_resumed_witness : exists n m n',
  ReregistrationThread [] [] (Some 2%positive) n = inr (Some (), n') /\ turn (Some m) n' = inl (Crash UseAfterFree).
Proof.
  destruct two_contexts as (L & HL), dd_table as (t & e & Ht & Ha & Hd).
  destruct (command_of MESSAGE_TYPE_PAUSE None (uuid_demo.uuid 9) uuid_null) as (m & [Em Pm] & _).
  destruct (ReregistrationThread_destroys_resumed nts entity_demo.transports [mkTransport 1 "file"] (uuid_demo.uuid 0) [] 100 cnc_demo.dispatcher no_hooks
    transports_registry named_dispatcher (node L t 1) [1%positive] 2%positive [] (context 2 22 0 1) 1 e m (uuid_demo.uuid 9) uuid_null)
    as (n' & E & _ & _ & Et).
  - by eapply node_sound.
  - apply lookup_by_id.
  - done.
  - lia.
  - done.
  - by apply dd_known.
  - exact Pm.
  - rewrite to_all. apply (find_foreign t 1 [1%positive]). by right; left.
  - by exists (node L t 1), m, n'.
Defined.

Lemma CommandAndControl_config_moves_witness : exists n m n', carries m [] nts [] /\ turn (Some m) n = inr ((), n') /\
  configured (cn_uuids (nd_cnc n')) [] [] [].
Proof.
  destruct two_contexts as (L & HL), dd_table as (t & e & Ht & Ha & Hd).
  destruct (command_of MESSAGE_TYPE_CONFIG_UPDATE (Some (Messages.inj (mkConfigurationUpdate uuid_demo.list0 cnc_demo.types uuid_demo.list0)))
    (uuid_demo.uuid 9) uuid_null) as (m & [Em Pm] & Bm).
  assert (Hca : carries m [] nts []).
  { exists (mkConfigurationUpdate uuid_demo.list0 cnc_demo.types uuid_demo.list0). rewrite Bm. split; [reflexivity|].
    split_and!; [apply list0_table|apply types_table|apply list0_table]. }
  destruct (CommandAndControl_config_moves nts entity_demo.transports [mkTransport 1 "file"] (uuid_demo.uuid 0) [] 100 cnc_demo.dispatcher no_hooks
    transports_registry named_dispatcher (node L t 0) [1%positive; 2%positive] m (uuid_demo.uuid 9) uuid_null [] nts [] 1%positive [2%positive])
    as (n' & E & Hc).
  - by eapply node_sound.
  - exact Em.
  - exact Hca.
  - exact Pm.
  - done.
  - unfold recipients. rewrite to_all. unfold node. cbn [nd_cnc].
    rewrite (find_foreign t 0 [1%positive; 2%positive]); [reflexivity|by left].
  - by exists (node L t 0), m, n'.
Defined.

Lemma CommandAndControl_clear_inverted_witness : exists n m n', turn (Some m) n = inr ((), n') /\
  forall t, t <> ALL -> c_entries (cn_caches (nd_cnc n') t) = 0%nat.
Proof.
  destruct two_contexts as (L & HL), dd_table as (t & e & Ht & Ha & Hd).
  destruct (command_of MESSAGE_TYPE_CLEAR None (uuid_demo.uuid 9) uuid_null) as (m & [Em Pm] & _).
  destruct (CommandAndControl_clear_inverted nts entity_demo.transports (uuid_demo.uuid 0) [] 100 cnc_demo.dispatcher no_hooks named_dispatcher
    (node L t 0) 1%positive [2%positive] m (uuid_demo.uuid 9) uuid_null (context 1 21 CONTEXT_FLAG_STAND_ALONE 0)) as (_ & n' & E & _ & _ & Hc).
  - by eapply node_sound.
  - exact Em.
  - apply bodyless_ok; rewrite Em; by vm_compute.
  - exact Pm.
  - exact to_all.
  - apply (find_foreign t 0 [1%positive; 2%positive]). by left.
  - apply lookup_by_id.
  - exists (node L t 0), m, n'. split; [exact E|exact Hc].
Defined.

Lemma CommandAndControl_HelloTimer_announces_witness : exists n n' ms, CommandAndControl_HelloTimer [] n = inr ((), n') /\
  cn_sent (nd_cnc n') = cn_sent (nd_cnc n) ++ ms /\ length ms = 2%nat.
Proof.
  destruct two_contexts as (L & HL), dd_table as (t & e & Ht & Ha & Hd).
  destruct (CommandAndControl_HelloTimer_announces nts [] cnc_demo.dispatcher named_dispatcher (node L t 0) [1%positive; 2%positive])
    as (n' & E & _ & _ & ms & Hms & Hl); [by eapply node_sound|].
  exists (node L t 0), n', ms. split_and!; [exact E|exact Hms|]. specialize (Hl ltac:(done)). apply Forall2_length in Hl. rewrite <- Hl.
  unfold hellos. cbn. destruct (lookup_by_id 0) as [-> ->]. done.
Defined.


Lemma CommandAndControl_Start_stuck_witness : exists n n1, CommandAndControl_Start [] [] (Some 1%positive) n = inr (Some false, n1) /\
  forall k, CommandAndControl_Start [] (replicate k (mret ())) (Some 1%positive) n1 = inr (None, n1).
Proof.
  set (c := mkCnc (contexts 0) lists (mkTable None None false entity_demo.store0) caches false None false false None false 0 [] [] []
    [true; true; true; true; false] []).
  destruct (CommandAndControl_Start_stuck nts [] cnc_demo.dispatcher named_dispatcher (mkNode None c) 1%positive
    (context 1 21 CONTEXT_FLAG_STAND_ALONE 0) []) as (n1 & E & Hk).
  - apply lookup_by_id.
  - done.
  - by vm_compute.
  - exact (proj1 types_table).
  - done.
  - done.
  - done.
  - done.
  - exists (mkNode None c), n1. split; [exact E|exact Hk].
Defined.
