(* ===== verification/Queue.v ===== *)
(** * Queues: src/queue.c

    A queue is a pair of connections to the message broker, one to receive from and one
    to send on.  A receiver takes a delivery and settles it (acknowledges or rejects it)
    later: the settlement is put on a list and sent by the next call that receives, so
    that the connection is used by one thread only.  A settlement names the connection
    of its delivery by a serial number; those of an earlier connection are dropped.

    The client library of the broker (librabbitmq) and the broker are external.  Their
    behaviour is a part of the state, [Net]: the outcomes of the coming calls, the
    deliveries that come, with what the other threads do while the receiver waits, and
    the frames.  What reaches the library is recorded in [nt_log].  A list of outcomes
    that is exhausted stands for success, for a wait it stands for a timeout. *)

From S2P Require Import Prelude CLib RzbList RzbListProps ListM Hash LibUuid Uuids Ntlv Blocks JsonC JsonBuffer JsonText Messages MessageCodecs CncMessages Entities BlockPool Transfer.

Local Open Scope Z_scope.

Definition QUEUE_FLAG_SEND : Z := 1.
Definition QUEUE_FLAG_RECV : Z := 2.
Definition QUEUE_FLAG_EXTERNAL_MODE : Z := 4.
Definition QUEUE_GET_POLL_TIMEOUT_MS : Z := 100.
Definition EIO : Z := 5.
Definition EAGAIN : Z := 11.

(** The numbers of the methods in the protocol: class and method. *)
Definition AMQP_CONNECTION_CLOSE_METHOD : Z := 0x000A0032.
Definition AMQP_CHANNEL_CLOSE_METHOD : Z := 0x00140028.
Definition AMQP_BASIC_CANCEL_METHOD : Z := 0x003C001E.
Definition AMQP_BASIC_RETURN_METHOD : Z := 0x003C0032.
Definition AMQP_BASIC_DELIVER_METHOD : Z := 0x003C003C.
Definition AMQP_BASIC_ACK_METHOD : Z := 0x003C0050.

Definition sg_messageTypeHeaderName : string := "rzb-msg-type".
Definition sg_messageVersionHeaderName : string := "rzb-msg-ver".

(** ** The library and the broker *)

Inductive field_kind := AMQP_FIELD_KIND_UTF8 | AMQP_FIELD_KIND_BYTES | AMQP_FIELD_KIND_OTHER.

(** An entry of a header table.  The bytes of a value have a length and no terminator:
    [te_after] is what follows them in memory. *)
Record amqp_table_entry := mkEntry { te_key : string; te_kind : field_kind; te_bytes : string; te_after : string }.

Record amqp_envelope := mkEnvelope {
  en_delivery_tag : Z;
  en_headers : option (list amqp_table_entry);
  en_body : string
}.

(** A frame: not a method, or the number of one; [fr_tag] is the tag of a delivery. *)
Record amqp_frame := mkFrame { fr_method : option Z; fr_tag : Z }.

(** The result of [amqp_simple_wait_frame_noblock]; with a frame, whether others are
    enqueued after it. *)
Inductive wait_result := WaitTimeout | WaitError | WaitFrame (f : amqp_frame) (enqueued : bool).

(** The reply of [amqp_consume_message]. *)
Inductive consume_reply := Delivered (e : amqp_envelope) | ConsumeTimeout | ConsumeError.

Record MessageSettlement := mkSettlement {
  ms_deliveryTag : Z;
  ms_connectionSerial : Z;
  ms_acknowledge : bool;
  ms_requeue : bool
}.

Global Instance MessageSettlement_eq_dec : EqDecision MessageSettlement.
Proof. solve_decision. Defined.

(** What happens while the receiver waits: the settlements other threads enqueue,
    whether the queue is terminated, and the reply. *)
Record arrival := mkArrival { ar_settlements : list MessageSettlement; ar_terminate : bool; ar_reply : consume_reply }.

(** What is handed to the library, by connection; [E_Refused] is a settlement the
    library refuses. *)
Inductive event :=
  | E_Open (c : positive)
  | E_Close (c : positive)
  | E_Declare (c : positive) (name : option string)
  | E_Bind (c : positive) (exchange key : string)
  | E_Qos (c : positive) (prefetch : Z)
  | E_Consume (c : positive)
  | E_Deliver (c : positive) (tag : Z)
  | E_Ack (c : positive) (tag : Z)
  | E_Reject (c : positive) (tag : Z) (requeue : bool)
  | E_Refused (c : positive)
  | E_Publish (c : positive) (exchange key : string) (headers : list amqp_table_entry) (body : string).

Record Net := mkNet {
  nt_new : list bool;           (* the coming calls of amqp_new_connection *)
  nt_calls : list bool;         (* the coming calls that may fail *)
  nt_arrivals : list arrival;
  nt_frames : list wait_result;
  nt_allocs : allocs;
  nt_next : positive;           (* the next connection *)
  nt_open : gset positive;      (* those that are not destroyed *)
  nt_log : list event
}.

Definition set_new (n : Net) (x : list bool) : Net :=
  mkNet x (nt_calls n) (nt_arrivals n) (nt_frames n) (nt_allocs n) (nt_next n) (nt_open n) (nt_log n).
Definition set_calls (n : Net) (x : list bool) : Net :=
  mkNet (nt_new n) x (nt_arrivals n) (nt_frames n) (nt_allocs n) (nt_next n) (nt_open n) (nt_log n).
Definition set_arrivals (n : Net) (x : list arrival) : Net :=
  mkNet (nt_new n) (nt_calls n) x (nt_frames n) (nt_allocs n) (nt_next n) (nt_open n) (nt_log n).
Definition set_frames (n : Net) (x : list wait_result) : Net :=
  mkNet (nt_new n) (nt_calls n) (nt_arrivals n) x (nt_allocs n) (nt_next n) (nt_open n) (nt_log n).
Definition set_mem (n : Net) (x : allocs) : Net :=
  mkNet (nt_new n) (nt_calls n) (nt_arrivals n) (nt_frames n) x (nt_next n) (nt_open n) (nt_log n).
Definition set_open (n : Net) (x : gset positive) : Net :=
  mkNet (nt_new n) (nt_calls n) (nt_arrivals n) (nt_frames n) (nt_allocs n) (nt_next n) x (nt_log n).
Definition set_fresh (n : Net) (x : positive) : Net :=
  mkNet (nt_new n) (nt_calls n) (nt_arrivals n) (nt_frames n) (nt_allocs n) x (nt_open n) (nt_log n).
Definition add_event (n : Net) (e : event) : Net :=
  mkNet (nt_new n) (nt_calls n) (nt_arrivals n) (nt_frames n) (nt_allocs n) (nt_next n) (nt_open n)
    (nt_log n ++ [e]).

(** ** Queues *)

Record AMQP_Socket := mkSocket {
  so_pConn : positive;
  so_pQueueName : option string;
  so_bChannelOpen : bool
}.

Record QueueConfig := mkQueueConfig {
  qc_sHostname : option string;
  qc_iPort : Z;
  qc_sUser : option string;
  qc_sPassword : option string;
  qc_sVhost : option string;
  qc_bUseSSL : bool;
  qc_iPrefetch : Z
}.

Abbreviation settlement_list := (List_t unit unit MessageSettlement).

(** [struct Queue]; the mutexes exist as long as the queue does, the timer is there
    or not. *)
Record Queue := mkQueue {
  q_pReadSocket : option AMQP_Socket;
  q_pWriteSocket : option AMQP_Socket;
  q_sName : string;
  q_iFlags : Z;
  q_pendingSettlements : option settlement_list;
  q_readConnectionSerial : Z;
  q_refs : Z;
  q_config : QueueConfig;
  q_bTopic : bool;
  q_pWriteHeartbeat : bool;
  q_bShuttingDown : bool
}.

Definition set_pReadSocket (q : Queue) (x : option AMQP_Socket) : Queue :=
  mkQueue x (q_pWriteSocket q) (q_sName q) (q_iFlags q) (q_pendingSettlements q) (q_readConnectionSerial q) (q_refs q) (q_config q)
    (q_bTopic q) (q_pWriteHeartbeat q) (q_bShuttingDown q).
Definition set_pWriteSocket (q : Queue) (x : option AMQP_Socket) : Queue :=
  mkQueue (q_pReadSocket q) x (q_sName q) (q_iFlags q) (q_pendingSettlements q) (q_readConnectionSerial q) (q_refs q) (q_config q)
    (q_bTopic q) (q_pWriteHeartbeat q) (q_bShuttingDown q).
Definition set_pendingSettlements (q : Queue) (x : option settlement_list) : Queue :=
  mkQueue (q_pReadSocket q) (q_pWriteSocket q) (q_sName q) (q_iFlags q) x (q_readConnectionSerial q) (q_refs q) (q_config q)
    (q_bTopic q) (q_pWriteHeartbeat q) (q_bShuttingDown q).
Definition set_serial (q : Queue) (x : Z) : Queue :=
  mkQueue (q_pReadSocket q) (q_pWriteSocket q) (q_sName q) (q_iFlags q) (q_pendingSettlements q) x (q_refs q) (q_config q)
    (q_bTopic q) (q_pWriteHeartbeat q) (q_bShuttingDown q).
Definition set_refs (q : Queue) (x : Z) : Queue :=
  mkQueue (q_pReadSocket q) (q_pWriteSocket q) (q_sName q) (q_iFlags q) (q_pendingSettlements q) (q_readConnectionSerial q) x
    (q_config q) (q_bTopic q) (q_pWriteHeartbeat q) (q_bShuttingDown q).
Definition set_heartbeat (q : Queue) (x : bool) : Queue :=
  mkQueue (q_pReadSocket q) (q_pWriteSocket q) (q_sName q) (q_iFlags q) (q_pendingSettlements q) (q_readConnectionSerial q) (q_refs q)
    (q_config q) (q_bTopic q) x (q_bShuttingDown q).
Definition set_shutting (q : Queue) (x : bool) : Queue :=
  mkQueue (q_pReadSocket q) (q_pWriteSocket q) (q_sName q) (q_iFlags q) (q_pendingSettlements q) (q_readConnectionSerial q) (q_refs q)
    (q_config q) (q_bTopic q) (q_pWriteHeartbeat q) x.

(** The queue, [None] when it is freed, errno and the library. *)
Record QS := mkQS { qs_queue : option Queue; qs_errno : Z; qs_net : Net }.

Definition QM (A : Type) : Type := QS -> fault + (A * QS).

Global Instance QM_ret : MRet QM := fun A x s => inr (x, s).
Global Instance QM_bind : MBind QM := fun A B f m s =>
  match m s with
  | inl e => inl e
  | inr (x, s') => f x s'
  end.

(** *** Access to the state *)

Definition qm_fault {A} (e : fault) : QM A := fun _ => inl e.
Definition qm_deref {A} (p : option A) : QM A := match p with Some x => mret x | None => qm_fault NullDeref end.

(** Reading the queue; it is a use after free when the queue is gone. *)
Definition the_queue : QM Queue := fun s =>
  match qs_queue s with Some q => inr (q, s) | None => inl UseAfterFree end.
Definition set_queue (p : option Queue) : QM unit := fun s => inr ((), mkQS p (qs_errno s) (qs_net s)).
Definition on_queue (f : Queue -> Queue) : QM unit := q ← the_queue; set_queue (Some (f q)).
Definition set_errno (e : Z) : QM unit := fun s => inr ((), mkQS (qs_queue s) e (qs_net s)).
Definition on_net (f : Net -> Net) : QM unit := fun s => inr ((), mkQS (qs_queue s) (qs_errno s) (f (qs_net s))).
Definition record_event (e : event) : QM unit := on_net (fun n => add_event n e).

(** The outcome of a call to the library. *)
Definition lib_call : QM bool := fun s =>
  let '(ok, r) := alloc_next (nt_calls (qs_net s)) in inr (ok, mkQS (qs_queue s) (qs_errno s) (set_calls (qs_net s) r)).

(** Code that allocates. *)
Definition in_mem {A} (m : M A) : QM (option A) := fun s =>
  match m (nt_allocs (qs_net s)) with
  | None => inl NullDeref
  | Some (r, o) => inr (r, mkQS (qs_queue s) (qs_errno s) (set_mem (qs_net s) o))
  end.

(** ** Connections *)

(** [amqp_new_connection]: its result is not tested before it is used. *)
Definition amqp_new_connection : QM positive := fun s =>
  let n := qs_net s in
  let '(ok, r) := alloc_next (nt_new n) in
  if ok : bool then
    let c := nt_next n in
    inr (c, mkQS (qs_queue s) (qs_errno s)
              (add_event (set_open (set_fresh (set_new n r) (Pos.succ c)) ({[ c ]} ∪ nt_open n)) (E_Open c)))
  else inl NullDeref.

Definition amqp_destroy_connection (c : positive) : QM unit :=
  on_net (fun n => add_event (set_open n (nt_open n ∖ {[ c ]})) (E_Close c)).

(** The results of closing the channel and the connection are not looked at. *)
Definition AMQP_Socket_Close (socket : option AMQP_Socket) : QM unit :=
  match socket with
  | None => mret ()
  | Some s => amqp_destroy_connection (so_pConn s)
  end.

(** The socket of a connection: a TLS socket has its certificates set. *)
Definition new_socket (useSSL : bool) : QM bool :=
  ok ← lib_call;
  if ok && useSSL then lib_call else mret ok.

Definition Queue_Connect_Socket (cfg : QueueConfig) : QM (option AMQP_Socket) :=
  match qc_sHostname cfg, qc_sUser cfg, qc_sPassword cfg with
  | Some _, Some _, Some _ =>
      r ← in_mem alloc;
      match r with
      | None => mret None
      | Some _ =>
          c ← amqp_new_connection;
          ok ← new_socket (qc_bUseSSL cfg);
          if negb ok then amqp_destroy_connection c ;; mret None
          else
            open ← lib_call;
            if negb open then amqp_destroy_connection c ;; mret None
            else
              login ← lib_call;
              if negb login then AMQP_Socket_Close (Some (mkSocket c None false)) ;; mret None
              else
                channel ← lib_call;
                if negb channel then AMQP_Socket_Close (Some (mkSocket c None false)) ;; mret None
                else mret (Some (mkSocket c None true))
      end
  | _, _, _ => mret None
  end.

(** A call that is recorded when it succeeds. *)
Definition recorded_call (e : event) : QM bool :=
  ok ← lib_call;
  if ok : bool then record_event e ;; mret true else mret false.

(** The name of the queue of a topic is made by the broker. *)
Definition Queue_BeginReading : QM bool :=
  q ← the_queue;
  s ← qm_deref (q_pReadSocket q);
  let c := so_pConn s in
  let name := if q_bTopic q then None else Some (q_sName q) in
  declared ← recorded_call (E_Declare c name);
  if negb declared then mret false
  else
    dup ← in_mem alloc;
    match dup with
    | None => mret false
    | Some _ =>
        on_queue (fun q => set_pReadSocket q (Some (mkSocket c (Some (default "" name)) (so_bChannelOpen s)))) ;;
        bound ← (if q_bTopic q then recorded_call (E_Bind c "amq.topic" (q_sName q)) else mret true);
        if negb bound then mret false
        else
          qos ← (if 0 <? qc_iPrefetch (q_config q) then recorded_call (E_Qos c (qc_iPrefetch (q_config q))) else mret true);
          if negb qos then mret false
          else recorded_call (E_Consume c)
    end.

Definition Queue_EndReading : QM bool := mret true.

Definition has_flag (q : Queue) (flag : Z) : bool := Z.land (q_iFlags q) flag == flag.

(** The serial number of the next connection; it is never 0. *)
Definition next_serial (n : Z) : Z := let n' := u64 (n + 1) in if n' == 0 then u64 (n' + 1) else n'.

Definition Queue_Connect_ReadSocket : QM bool :=
  q ← the_queue;
  if q_bShuttingDown q then mret false
  else if negb (has_flag q QUEUE_FLAG_RECV) || match q_pReadSocket q with Some _ => true | None => false end then mret true
  else
    socket ← Queue_Connect_Socket (q_config q);
    on_queue (fun q => set_pReadSocket q socket) ;;
    match socket with
    | None => mret false
    | Some _ =>
        ok ← Queue_BeginReading;
        if negb ok then
          q ← the_queue;
          AMQP_Socket_Close (q_pReadSocket q) ;;
          on_queue (fun q => set_pReadSocket q None) ;;
          mret false
        else
          on_queue (fun q => set_serial q (next_serial (q_readConnectionSerial q))) ;;
          mret true
    end.

Definition Queue_Connect_WriteSocket : QM bool :=
  q ← the_queue;
  if q_bShuttingDown q then mret false
  else if negb (has_flag q QUEUE_FLAG_SEND) || match q_pWriteSocket q with Some _ => true | None => false end then mret true
  else
    socket ← Queue_Connect_Socket (q_config q);
    on_queue (fun q => set_pWriteSocket q socket) ;;
    match socket with
    | None => mret false
    | Some _ =>
        q ← the_queue;
        if q_pWriteHeartbeat q then mret true
        else
          timer ← in_mem alloc;
          match timer with
          | None =>
              AMQP_Socket_Close socket ;;
              on_queue (fun q => set_pWriteSocket q None) ;;
              mret false
          | Some _ => on_queue (fun q => set_heartbeat q true) ;; mret true
          end
    end.

Definition Queue_Connect : QM bool :=
  ok ← Queue_Connect_ReadSocket;
  if negb ok then mret false else Queue_Connect_WriteSocket.

Definition wants (p_iSide flag : Z) : bool := Z.land p_iSide flag == flag.

Definition Queue_Reconnect (p_iSide : Z) : QM bool :=
  q ← the_queue;
  if q_bShuttingDown q then mret false
  else
    (if wants p_iSide QUEUE_FLAG_RECV then
       AMQP_Socket_Close (q_pReadSocket q) ;; on_queue (fun q => set_pReadSocket q None)
     else mret ()) ;;
    (if wants p_iSide QUEUE_FLAG_SEND then
       AMQP_Socket_Close (q_pWriteSocket q) ;; on_queue (fun q => set_pWriteSocket q None)
     else mret ()) ;;
    read ← (if wants p_iSide QUEUE_FLAG_RECV then Queue_Connect_ReadSocket else mret true);
    if negb read then mret false
    else if wants p_iSide QUEUE_FLAG_SEND then Queue_Connect_WriteSocket else mret true.

(** ** Frames *)

(** Reading the returned message only consumes its frames. *)
Definition AMQP_Handle_Frame (frame : amqp_frame) : bool :=
  match fr_method frame with
  | None => true
  | Some m =>
      if m == AMQP_BASIC_ACK_METHOD then true
      else if m == AMQP_BASIC_RETURN_METHOD then true
      else if (m == AMQP_BASIC_CANCEL_METHOD) || (m == AMQP_CHANNEL_CLOSE_METHOD) || (m == AMQP_CONNECTION_CLOSE_METHOD) then false
      else true
  end.

(** The loop over the frames that are there. *)
Fixpoint service_frames (frames : list wait_result) : bool * list wait_result :=
  match frames with
  | [] => (true, [])
  | WaitTimeout :: r => (true, r)
  | WaitError :: r => (false, r)
  | WaitFrame f enqueued :: r =>
      if negb (AMQP_Handle_Frame f) then (false, r)
      else if enqueued then service_frames r else (true, r)
  end.

Definition AMQP_Service_Connection (socket : option AMQP_Socket) : QM bool := fun s =>
  match socket with
  | None => inr (false, s)
  | Some _ =>
      let '(ok, r) := service_frames (nt_frames (qs_net s)) in
      inr (ok, mkQS (qs_queue s) (qs_errno s) (set_frames (qs_net s) r))
  end.

(** One call of the timer. *)
Definition AMQP_Heartbeat : QM unit :=
  q ← the_queue;
  if q_bShuttingDown q then mret ()
  else
    match q_pWriteSocket q with
    | None => Queue_Reconnect QUEUE_FLAG_SEND ;; mret ()
    | Some s =>
        ok ← AMQP_Service_Connection (Some s);
        if negb ok then Queue_Reconnect QUEUE_FLAG_SEND ;; mret () else mret ()
    end.

(** ** Settlements *)

(** Handing a settlement to the library; after a failure the connection is replaced. *)
Definition settle (e : positive -> event) : QM bool :=
  q ← the_queue;
  match q_pReadSocket q with
  | None => mret false
  | Some s =>
      ok ← lib_call;
      if ok : bool then record_event (e (so_pConn s)) ;; mret true
      else record_event (E_Refused (so_pConn s)) ;; Queue_Reconnect QUEUE_FLAG_RECV ;; mret false
  end.

Definition Queue_Reject_Delivery (delivery_tag : Z) (requeue : bool) : QM bool :=
  settle (fun c => E_Reject c delivery_tag requeue).
Definition Queue_Acknowledge_Delivery (delivery_tag : Z) : QM bool :=
  settle (fun c => E_Ack c delivery_tag).

(** [List_Pop (queue->pendingSettlements)] *)
Definition pop_settlement : QM (option MessageSettlement) :=
  q ← the_queue;
  match List_Pop (q_pendingSettlements q) with
  | Some (Returned r, l) => set_queue (Some (set_pendingSettlements q l)) ;; mret r
  | Some (Blocked, _) => qm_fault Deadlock
  | None => qm_fault NullDeref
  end.

(** The loop; one unit of fuel per entry of the list, and one to find it empty. *)
Fixpoint settle_loop (fuel : nat) : QM bool :=
  match fuel with
  | O => qm_fault Deadlock
  | S fuel' =>
      settlement ← pop_settlement;
      match settlement with
      | None => mret true
      | Some m =>
          q ← the_queue;
          if ms_connectionSerial m != q_readConnectionSerial q then settle_loop fuel'
          else
            ok ← (if ms_acknowledge m then Queue_Acknowledge_Delivery (ms_deliveryTag m)
                  else Queue_Reject_Delivery (ms_deliveryTag m) (ms_requeue m));
            q ← the_queue;
            if negb ok && match q_pReadSocket q with None => true | Some _ => false end then mret false
            else settle_loop fuel'
      end
  end.

Definition Queue_Process_Pending_Settlements : QM bool :=
  q ← the_queue;
  match q_pendingSettlements q with
  | None => mret true
  | Some l =>
      match q_pReadSocket q with
      | None => mret false
      | Some _ => settle_loop (S (fuel_of l))
      end
  end.

(** [settlement] is [message->brokerSettlement]; the result is the status and the value
    of that pointer afterwards. *)
Definition Queue_Enqueue_Settlement (settlement : option MessageSettlement) (acknowledge requeue : bool)
    : QM (bool * option MessageSettlement) :=
  match settlement with
  | None => mret (true, None)
  | Some m =>
      let m := mkSettlement (ms_deliveryTag m) (ms_connectionSerial m) acknowledge requeue in
      q ← the_queue;
      match q_pendingSettlements q with
      | None => mret (false, Some m)
      | Some l =>
          ok ← in_mem alloc;
          match List_Push (match ok with Some _ => true | None => false end) (Some l) m with
          | None => qm_fault NullDeref
          | Some (pushed, l') =>
              set_queue (Some (set_pendingSettlements q l')) ;;
              mret (pushed, if pushed : bool then None else Some m)
          end
      end
  end.

(** ** The life of a queue *)

(** The loop of the compare and exchange ends with the value it read last. *)
Definition Queue_Retain : QM bool :=
  q ← the_queue;
  if q_refs q == 0 then mret false
  else on_queue (fun q => set_refs q (u32 (q_refs q + 1))) ;; mret true.

Definition Queue_Final_Destroy : QM unit :=
  on_queue (fun q => set_heartbeat q false) ;;
  q ← the_queue;
  (match q_pReadSocket q with
   | Some _ => Queue_Process_Pending_Settlements ;; Queue_EndReading ;; mret ()
   | None => mret ()
   end) ;;
  q ← the_queue;
  AMQP_Socket_Close (q_pReadSocket q) ;;
  AMQP_Socket_Close (q_pWriteSocket q) ;;
  (match q_pendingSettlements q with
   | Some l => qm_deref (List_Destroy (Some l) ()) ;; mret ()
   | None => mret ()
   end) ;;
  set_queue None.

Definition Queue_Release : QM unit :=
  q ← the_queue;
  on_queue (fun q => set_refs q (u32 (q_refs q - 1))) ;;
  if q_refs q == 1 then Queue_Final_Destroy else mret ().

Definition Queue_Terminate : QM unit :=
  q ← the_queue;
  on_queue (fun q => set_shutting q true) ;;
  if q_bShuttingDown q then mret () else Queue_Release.

Definition Queue_Pending_Settlement_Destroy (item : MessageSettlement) (s : unit) : unit := s.

(** The state starts without the queue; the result tells whether it was made.  When an
    allocation fails nothing has been connected. *)
Definition Queue_Create_With_Host (p_sQueueName : option string) (p_bTopic : bool) (p_iFlags : Z) (cfg : QueueConfig) : QM bool :=
  match p_sQueueName with
  | None => mret false
  | Some name =>
      made ← in_mem (alloc ;; alloc ;; alloc ;; alloc ;; alloc);
      match made with
      | None => mret false
      | Some _ =>
          b1 ← in_mem alloc;
          b2 ← (match b1 with Some _ => in_mem alloc | None => mret None end);
          match List_Create (match b1 with Some _ => true | None => false end) (match b2 with Some _ => true | None => false end) true
                  LIST_MODE_GENERIC None None (Some Queue_Pending_Settlement_Destroy) None None None with
          | None => mret false
          | Some l =>
              set_queue (Some (mkQueue None None name p_iFlags (Some l) 0 1 cfg p_bTopic false false)) ;;
              ok ← Queue_Connect;
              if negb ok then Queue_Terminate ;; mret false else mret true
          end
      end
  end.

(** With the broker of the configuration: the results of the functions [Config_getMq...]. *)
Definition Queue_Create (config : QueueConfig) (p_sQueueName : option string) (p_bTopic : bool) (p_iFlags : Z) : QM bool :=
  Queue_Create_With_Host p_sQueueName p_bTopic p_iFlags config.

(** *** Settling a message

    The settlement of the message before and after the call. *)

Definition retained {A} (fallback : A) (m : QM A) : QM A :=
  ok ← Queue_Retain;
  if negb ok then mret fallback
  else x ← m; Queue_Release ;; mret x.

Definition Queue_Ack_Message (settlement : option MessageSettlement) : QM (bool * option MessageSettlement) :=
  retained (false, settlement) (Queue_Enqueue_Settlement settlement true false).
Definition Queue_Reject_Message (settlement : option MessageSettlement) (requeue : bool) : QM (bool * option MessageSettlement) :=
  retained (false, settlement) (Queue_Enqueue_Settlement settlement false requeue).
Definition Queue_Settle_Message (settlement : option MessageSettlement) (ackMessage requeueMessage : bool)
    : QM (bool * option MessageSettlement) :=
  retained (false, settlement) (Queue_Enqueue_Settlement settlement ackMessage requeueMessage).

(** ** Waiting for a delivery *)

(** [List_Push] of a settlement by another thread. *)
Definition other_settles (m : MessageSettlement) : QM unit :=
  Queue_Enqueue_Settlement (Some m) (ms_acknowledge m) (ms_requeue m) ;; mret ().

Fixpoint others_settle (ms : list MessageSettlement) : QM unit :=
  match ms with
  | [] => mret ()
  | m :: ms' => other_settles m ;; others_settle ms'
  end.

(** [amqp_consume_message] on connection [c], and what the other threads do meanwhile. *)
Definition amqp_consume_message (c : positive) : QM consume_reply := fun s =>
  match nt_arrivals (qs_net s) with
  | [] => inr (ConsumeTimeout, s)
  | a :: r =>
      (on_net (fun n => set_arrivals n r) ;;
       others_settle (ar_settlements a) ;;
       (if ar_terminate a then Queue_Terminate else mret ()) ;;
       (match ar_reply a with Delivered e => record_event (E_Deliver c (en_delivery_tag e)) | _ => mret () end) ;;
       mret (ar_reply a)) s
  end.

(** How the loop of [Queue_Get_Ex] ends: with a delivery, or at the label cleanup with
    the delivery to reject and to requeue, if there is one. *)
Inductive waited := W_envelope (e : amqp_envelope) | W_cleanup (rejected : option amqp_envelope).

Fixpoint wait_loop (fuel : nat) (timeoutMilliseconds remainingTimeout : Z) : QM waited :=
  match fuel with
  | O => qm_fault Deadlock
  | S fuel' =>
      let pollTimeout := if (0 <? timeoutMilliseconds) && (remainingTimeout <? QUEUE_GET_POLL_TIMEOUT_MS) then remainingTimeout
                         else QUEUE_GET_POLL_TIMEOUT_MS in
      q ← the_queue;
      socket ← qm_deref (q_pReadSocket q);
      res ← amqp_consume_message (so_pConn socket);
      match res with
      | Delivered envelope =>
          ok ← Queue_Process_Pending_Settlements;
          if negb ok then set_errno EIO ;; mret (W_cleanup None)
          else
            q ← the_queue;
            if q_bShuttingDown q then mret (W_cleanup (Some envelope)) else mret (W_envelope envelope)
      | ConsumeTimeout =>
          set_errno EAGAIN ;;
          q ← the_queue;
          ok ← AMQP_Service_Connection (q_pReadSocket q);
          if negb ok then
            reconnected ← Queue_Reconnect QUEUE_FLAG_RECV;
            q ← the_queue;
            if negb reconnected || match q_pReadSocket q with None => true | Some _ => false end then
              set_errno EIO ;; mret (W_cleanup None)
            else if timeoutMilliseconds == 0 then wait_loop fuel' timeoutMilliseconds remainingTimeout
            else set_errno EIO ;; mret (W_cleanup None)
          else
            ok ← Queue_Process_Pending_Settlements;
            if negb ok then set_errno EIO ;; mret (W_cleanup None)
            else
              q ← the_queue;
              if q_bShuttingDown q then mret (W_cleanup None)
              else if timeoutMilliseconds == 0 then wait_loop fuel' timeoutMilliseconds remainingTimeout
              else if remainingTimeout <=? pollTimeout then mret (W_cleanup None)
              else wait_loop fuel' timeoutMilliseconds (remainingTimeout - pollTimeout)
      | ConsumeError => Queue_Reconnect QUEUE_FLAG_RECV ;; mret (W_cleanup None)
      end
  end.

(** The number of polls: those the timeout allows; without one as many as deliveries
    come, and one to find that there are no more: the call then waits for ever. *)
Definition polls (timeoutMilliseconds : Z) (arrivals : list arrival) : nat :=
  if timeoutMilliseconds == 0 then S (length arrivals)
  else Z.to_nat ((timeoutMilliseconds + QUEUE_GET_POLL_TIMEOUT_MS - 1) / QUEUE_GET_POLL_TIMEOUT_MS).

(** ** Messages on the wire *)

(** [strtoul (s, NULL, 10)] stored in a [uint32_t]. *)
Definition strtoul32 (s : string) : Z := u32 (strtoumax s).1.1.

(** The headers of a delivery.  The value of an entry of kind UTF8 is read as a string,
    past its length when no terminator follows; other kinds are left out. *)
Fixpoint copy_headers (entries : list amqp_table_entry) (headers : option header_list) : M (option header_list) :=
  match entries with
  | [] => mret headers
  | entry :: entries' =>
      alloc ;;
      let name := c_string (te_key entry) in
      headers ← (match te_kind entry with
                 | AMQP_FIELD_KIND_UTF8 => Message_HeaderList_Add headers (Some name) (Some (c_string (te_bytes entry +:+ te_after entry)))
                 | AMQP_FIELD_KIND_BYTES => alloc ;; Message_HeaderList_Add headers (Some name) (Some (c_string (te_bytes entry)))
                 | AMQP_FIELD_KIND_OTHER => mret headers
                 end);
      copy_headers entries' headers
  end.

Section Wire.
Context `{EVP} `{LibUuid} `{JsonText} `{Base64} `{Inet}.
Variable sg : UuidLists.
Variable handlerList : option handler_list.

(** A message with the settlement its receiver owes. *)
Record Received := mkReceived { rv_message : Message; rv_brokerSettlement : option MessageSettlement }.

(** What becomes of a delivery: it is rejected with the message as far as it was made,
    or it is the result. *)
Inductive received := R_rejected (requeue : bool) (m : option Message) | R_message (r : Received).

(** [message->destroy (message)], or [Message_Destroy] before the type is known. *)
Definition destroy_message (m : Message) : option (list part) :=
  match m_codec m with
  | Some c => destroy c (Some m)
  | None => Some (Message_Destroy (Some m))
  end.

(** A function of a message. *)
Definition call_message (c : Call) (m : Message) : QM (bool * Message) := fun s =>
  match c (Some m) (nt_allocs (qs_net s)) with
  | Some (ok, Some m', o) => inr ((ok, m'), mkQS (qs_queue s) (qs_errno s) (set_mem (qs_net s) o))
  | _ => inl NullDeref
  end.

(** The type, the version and the body; not for a queue in external mode. *)
Definition decode_message (m : Message) : QM (bool * Message) :=
  header ← in_mem (list_find (m_headers m) sg_messageTypeHeaderName);
  match header with
  | None => mret (false, m)
  | Some header =>
      let m := mkMessage (strtoul32 (mh_sValue header)) (m_length m) (m_version m) (m_headers m) (m_message m) (m_serialized m) (m_codec m) in
      header ← in_mem (list_find (m_headers m) sg_messageVersionHeaderName);
      match header with
      | None => mret (false, m)
      | Some header =>
          let m := mkMessage (m_type m) (m_length m) (strtoul32 (mh_sValue header)) (m_headers m) (m_message m) (m_serialized m) (m_codec m) in
          '(ok, m) ← call_message (Message_Setup handlerList) m;
          if negb ok then mret (false, m)
          else
            c ← qm_deref (m_codec m);
            call_message (deserialize sg c) m
      end
  end.

(** The message of a delivery.  The body is copied with a terminator: its readers see it
    up to the first NUL. *)
Definition read_envelope (autoAck : bool) (envelope : amqp_envelope) : QM received :=
  made ← in_mem alloc;
  match made with
  | None => mret (R_rejected true None)
  | Some _ =>
      headers ← in_mem Message_Header_List_Create;
      let m := mkMessage 0 0 0 headers None None None in
      match headers with
      | None => mret (R_rejected true (Some m))
      | Some _ =>
          settlement ← (if autoAck then mret (Some None) else x ← in_mem alloc; mret (Some <$> x));
          match settlement with
          | None => mret (R_rejected true (Some m))
          | Some _ =>
              body ← in_mem alloc;
              match body with
              | None => mret (R_rejected true (Some m))
              | Some _ =>
                  let m := with_serialized m (c_string (en_body envelope)) (strlen (en_body envelope)) in
                  q ← the_queue;
                  let settlement := if autoAck then None
                                    else Some (mkSettlement (en_delivery_tag envelope) (q_readConnectionSerial q) false false) in
                  headers ← in_mem (match en_headers envelope with Some es => copy_headers es headers | None => mret headers end);
                  match headers with
                  | None => mret (R_rejected true (Some m))
                  | Some headers =>
                      let m := with_headers m headers in
                      q ← the_queue;
                      if has_flag q QUEUE_FLAG_EXTERNAL_MODE then mret (R_message (mkReceived m settlement))
                      else
                        '(ok, m) ← decode_message m;
                        mret (if ok : bool then R_message (mkReceived m settlement) else R_rejected false (Some m))
                  end
              end
          end
      end
  end.

(** The end of the function: NULL and the destruction of a rejected message. *)
Definition drop_message (m : option Message) : QM (option Received) :=
  match m with
  | None => mret None
  | Some m => qm_deref (destroy_message m) ;; mret None
  end.

Definition Queue_Get_Ex (autoAck : bool) (timeoutMilliseconds : Z) : QM (option Received) :=
  ok ← Queue_Retain;
  if negb ok then mret None
  else
    q ← the_queue;
    if q_bShuttingDown q then Queue_Release ;; mret None
    else
      connected ← (match q_pReadSocket q with
                   | Some _ => mret true
                   | None =>
                       ok ← Queue_Reconnect QUEUE_FLAG_RECV;
                       q ← the_queue;
                       mret (ok && match q_pReadSocket q with Some _ => true | None => false end)
                   end);
      if negb connected then Queue_Release ;; mret None
      else
        w ← (fun s => wait_loop (polls timeoutMilliseconds (nt_arrivals (qs_net s))) timeoutMilliseconds timeoutMilliseconds s);
        match w with
        | W_cleanup None => Queue_Release ;; mret None
        | W_cleanup (Some envelope) =>
            Queue_Reject_Delivery (en_delivery_tag envelope) true ;; Queue_Release ;; mret None
        | W_envelope envelope =>
            r ← read_envelope autoAck envelope;
            match r with
            | R_rejected requeue m =>
                Queue_Reject_Delivery (en_delivery_tag envelope) requeue ;; Queue_Release ;; drop_message m
            | R_message r =>
                (if autoAck then Queue_Acknowledge_Delivery (en_delivery_tag envelope) else mret true) ;;
                Queue_Release ;;
                mret (Some r)
            end
        end.

Definition Queue_Get : QM (option Received) := Queue_Get_Ex true 0.

(** *** Sending *)

(** [amqp_cstring_bytes] of a name and a value. *)
Definition utf8_entry (name value : string) : amqp_table_entry := mkEntry name AMQP_FIELD_KIND_UTF8 value "".

(** The user data are the entries written so far. *)
Definition Message_Header_To_AMQP_TableEntry (header : MessageHeader) (entries : list amqp_table_entry) (s : allocs)
    : option (Z * list amqp_table_entry * allocs) :=
  Some (LIST_EACH_OK, entries ++ [utf8_entry (mh_sName header) (mh_sValue header)], s).

(** The zeroed array, with the entries that are written from its start; writing past
    its end is a fault. *)
Definition header_table (num_entries : Z) (entries : list amqp_table_entry) : QM (list amqp_table_entry) :=
  if num_entries <? Z.of_nat (length entries) then qm_fault UseAfterFree
  else mret (entries ++ replicate (Z.to_nat num_entries - length entries) (mkEntry "" AMQP_FIELD_KIND_OTHER "" "")).

(** [injected] are the headers the telemetry adds. *)
Definition message_table (injected : list (string * string)) (m : Message) : QM (option (list amqp_table_entry)) :=
  let first := [utf8_entry sg_messageTypeHeaderName (print_dec (m_type m)); utf8_entry sg_messageVersionHeaderName (print_dec (m_version m))]
               ++ map (fun h => utf8_entry h.1 h.2) injected in
  let num_entries := 2 + Z.of_nat (length injected) + match m_headers m with Some l => List_Length (Some l) | None => 0 end in
  made ← in_mem alloc;
  match made with
  | None => mret None
  | Some _ =>
      match m_headers m with
      | None => es ← header_table num_entries first; mret (Some es)
      | Some l =>
          match List_ForEach (Some l) (Some Message_Header_To_AMQP_TableEntry) first [] with
          | None => qm_fault UseAfterFree
          | Some (true, _, es, _) => es ← header_table num_entries es; mret (Some es)
          | Some (false, _, _, _) => mret None
          end
      end
  end.

(** The two attempts. *)
Fixpoint publish (tries : nat) (exchange dest : string) (entries : list amqp_table_entry) (body : string) : QM bool :=
  match tries with
  | O => mret false
  | S tries' =>
      let retry :=
        match tries' with
        | O => mret false
        | S _ =>
            ok ← Queue_Reconnect QUEUE_FLAG_SEND;
            q ← the_queue;
            if ok && match q_pWriteSocket q with Some _ => true | None => false end
            then publish tries' exchange dest entries body else mret false
        end in
      q ← the_queue;
      alive ← AMQP_Service_Connection (q_pWriteSocket q);
      if negb alive then retry
      else
        q ← the_queue;
        s ← qm_deref (q_pWriteSocket q);
        ok ← recorded_call (E_Publish (so_pConn s) exchange dest entries body);
        if ok : bool then mret true else retry
  end.

(** The status and the message, which is serialized once. *)
Definition Queue_Put_Dest (injected : list (string * string)) (m : Message) (dest : string) : QM (bool * Message) :=
  retained (false, m) (
    q ← the_queue;
    if q_bShuttingDown q then mret (false, m)
    else
      connected ← (match q_pWriteSocket q with
                   | Some _ => mret true
                   | None =>
                       ok ← Queue_Reconnect QUEUE_FLAG_SEND;
                       q ← the_queue;
                       mret (ok && match q_pWriteSocket q with Some _ => true | None => false end)
                   end);
      if negb connected then mret (false, m)
      else
        '(ok, m) ← (match m_serialized m with
                    | Some _ => mret (true, m)
                    | None => c ← qm_deref (m_codec m); call_message (serialize sg c) m
                    end);
        if negb ok then mret (false, m)
        else
          texts ← in_mem (alloc ;; alloc);
          match texts with
          | None => mret (false, m)
          | Some _ =>
              text ← qm_deref (m_serialized m);
              let body := String.substring 0 (Z.to_nat (m_length m)) text in
              let exchange := if q_bTopic q then "amq.topic" else "" in
              table ← message_table injected m;
              match table with
              | None => mret (false, m)
              | Some entries => ok ← publish 2 exchange dest entries body; mret (ok, m)
              end
          end).

Definition Queue_Put (injected : list (string * string)) (m : Message) : QM (bool * Message) :=
  q ← the_queue; Queue_Put_Dest injected m (q_sName q).

(** [snprintf] keeps what fits in front of the terminator. *)
Definition Queue_GetQueueName (p_sLeading : option string) (p_pId : uuid_t) (p_iQueueNameSize : Z) : option string :=
  match p_sLeading with
  | None => None
  | Some leading =>
      if p_iQueueNameSize == 0 then None
      else Some (String.substring 0 (Z.to_nat (p_iQueueNameSize - 1)) (leading +:+ "." +:+ uuid_unparse p_pId))
  end.
End Wire.

(** ** Labels of the telemetry *)

Definition Queue_MessageFamily (messageType : Z) : string :=
  let group := Z.land messageType 0xF0000000 in
  if group == MESSAGE_GROUP_C_AND_C then "cnc"
  else if (group == MESSAGE_GROUP_CACHE) || (group == MESSAGE_GROUP_SUBMIT) then "submission"
  else "other".

Definition Queue_ExchangeKind (queue : option Queue) : string :=
  match queue with
  | None => "other"
  | Some q => if q_bTopic q then "topic" else "default"
  end.
