(* ===== verification/QueueProps.v ===== *)
(** * Runs of the operations of a queue

    What the record of a queue's connections means ([consumed], [deliveries],
    [settlements], [orderly]), the state of a queue between calls ([alive]), the rules
    for runs ([qwp]), and what connecting, settling, waiting and releasing do to it.

    [alive held xs k s]: the queue exists, its open connections are those of its sockets,
    [k] calls are under way besides the reference of the owner, and the settlements
    that are pending ([xs]), on their way or [held] by the receivers of messages belong to
    deliveries that are not settled yet.  The last part holds as long as the library
    refuses no settlement and tags are unique. *)

From S2P Require Import Prelude CLib RzbList RzbListProps ListM Hash LibUuid Uuids Ntlv Blocks JsonC JsonBuffer JsonText Messages MessageCodecs CncMessages Entities BlockPool Transfer Queue.

Local Open Scope Z_scope.

(** ** The record *)

(** The connections that were consumed from, in their order. *)
Definition consumed (log : list event) : list positive := omap (fun e => match e with E_Consume c => Some c | _ => None end) log.
Definition deliveries (log : list event) : list (positive * Z) :=
  omap (fun e => match e with E_Deliver c t => Some (c, t) | _ => None end) log.
Definition settled_by (e : event) : option (positive * Z) :=
  match e with E_Ack c t => Some (c, t) | E_Reject c t _ => Some (c, t) | _ => None end.
Definition settlements (log : list event) : list (positive * Z) := omap settled_by log.
Definition refusals (log : list event) : list positive := omap (fun e => match e with E_Refused c => Some c | _ => None end) log.

(** Each settlement is of a delivery made before on the same connection, and is the
    first of that delivery. *)
Definition orderly (log : list event) : Prop :=
  forall i e d, log !! i = Some e -> settled_by e = Some d -> d ∈ deliveries (take i log) /\ d ∉ settlements (take i log).

(** Tags are unique on a connection, no settlement is refused and the serial numbers do
    not wrap. *)
Definition good (log : list event) : Prop :=
  NoDup (deliveries log) /\ refusals log = [] /\ Z.of_nat (length (consumed log)) < 2 ^ 64 - 1.

(** A settlement that is still to be made. *)
Definition owed (log : list event) (m : MessageSettlement) : Prop :=
  exists c, 1 <= ms_connectionSerial m /\ consumed log !! Z.to_nat (ms_connectionSerial m - 1) = Some c /\
    (c, ms_deliveryTag m) ∈ deliveries log /\ (c, ms_deliveryTag m) ∉ settlements log.

Definition key (m : MessageSettlement) : Z * Z := (ms_connectionSerial m, ms_deliveryTag m).
Definition owing (log : list event) (ms : list MessageSettlement) : Prop := Forall (owed log) ms /\ NoDup (key <$> ms).

Lemma views_app l1 l2 : consumed (l1 ++ l2) = consumed l1 ++ consumed l2 /\ deliveries (l1 ++ l2) = deliveries l1 ++ deliveries l2 /\
  settlements (l1 ++ l2) = settlements l1 ++ settlements l2 /\ refusals (l1 ++ l2) = refusals l1 ++ refusals l2.
Proof. unfold consumed, deliveries, settlements, refusals. by rewrite !omap_app. Qed.

Lemma consumed_app l1 l2 : consumed (l1 ++ l2) = consumed l1 ++ consumed l2.
Proof. apply views_app. Qed.
Lemma deliveries_app l1 l2 : deliveries (l1 ++ l2) = deliveries l1 ++ deliveries l2.
Proof. apply views_app. Qed.
Lemma settlements_app l1 l2 : settlements (l1 ++ l2) = settlements l1 ++ settlements l2.
Proof. apply views_app. Qed.

Lemma good_prefix l1 l2 : good (l1 ++ l2) -> good l1.
Proof.
  unfold good. destruct (views_app l1 l2) as (-> & -> & _ & ->). intros (Hd & Hr & Hl). split_and!.
  - by apply NoDup_app in Hd as (? & _).
  - by apply app_eq_nil in Hr as [? _].
  - rewrite length_app in Hl. lia.
Qed.

Lemma orderly_snoc log e : orderly log ->
  (forall d, settled_by e = Some d -> d ∈ deliveries log /\ d ∉ settlements log) -> orderly (log ++ [e]).
Proof.
  intros Ho He i e' d Hi Hd. destruct (decide (i < length log)%nat) as [Hlt|Hge].
  - rewrite lookup_app_l in Hi by done. rewrite take_app_le by lia. by eapply Ho.
  - rewrite lookup_app_r in Hi by lia. assert (i = length log) as ->.
    { apply lookup_lt_Some in Hi. simpl in Hi. lia. }
    rewrite Nat.sub_diag in Hi. injection Hi as <-. rewrite take_app_length. by apply He.
Qed.

(** Events that are neither deliveries nor settlements nor the start of consuming. *)
Definition neutral (e : event) : Prop :=
  match e with E_Consume _ | E_Deliver _ _ | E_Ack _ _ | E_Reject _ _ _ | E_Refused _ => False | _ => True end.

Lemma neutral_views log es : Forall neutral es ->
  consumed (log ++ es) = consumed log /\ deliveries (log ++ es) = deliveries log /\ settlements (log ++ es) = settlements log.
Proof.
  intros Hn. destruct (views_app log es) as (-> & -> & -> & _).
  assert (E : consumed es = [] /\ deliveries es = [] /\ settlements es = []); [|destruct E as (-> & -> & ->); by rewrite !app_nil_r].
  induction Hn as [|[] es He Hn IH]; simpl; try done.
Qed.

Lemma neutral_orderly log es : Forall neutral es -> orderly log -> orderly (log ++ es).
Proof.
  intros Hn. revert log. induction Hn as [|e es He Hn IH]; intros log Ho; [by rewrite app_nil_r|].
  rewrite (cons_middle e), app_assoc. apply IH, orderly_snoc; [done|]. by destruct e.
Qed.

Lemma owed_neutral log es m : Forall neutral es -> owed log m -> owed (log ++ es) m.
Proof. intros Hn. unfold owed. destruct (neutral_views log es Hn) as (-> & -> & ->). done. Qed.

Lemma owed_app log es m : settlements es = [] -> owed log m -> owed (log ++ es) m.
Proof.
  intros He (c & Hs & Hc & Hd & Hn). exists c. rewrite consumed_app, deliveries_app, settlements_app, He, app_nil_r.
  split_and!; [done|by apply lookup_app_l_Some|apply elem_of_app; by left|done].
Qed.

Lemma owing_app log es ms : settlements es = [] -> owing log ms -> owing (log ++ es) ms.
Proof. intros He [Hf Hn]. split; [|done]. eapply Forall_impl; [exact Hf|]. intros m. by apply owed_app. Qed.

Lemma owing_sub log ms ms' : ms' ⊆+ ms -> owing log ms -> owing log ms'.
Proof.
  intros Hs [Hf Hn]. split.
  - apply Forall_forall. intros m Hm. eapply Forall_forall; [exact Hf|]. eapply elem_of_submseteq; eauto.
  - apply submseteq_Permutation in Hs as [k E]. rewrite E, fmap_app in Hn. by apply NoDup_app in Hn as (? & _).
Qed.

(** Two owed settlements of the same delivery are the same. *)
Lemma owed_key log m m' c : NoDup (consumed log) -> ms_deliveryTag m = ms_deliveryTag m' ->
  1 <= ms_connectionSerial m -> 1 <= ms_connectionSerial m' ->
  consumed log !! Z.to_nat (ms_connectionSerial m - 1) = Some c -> consumed log !! Z.to_nat (ms_connectionSerial m' - 1) = Some c ->
  key m = key m'.
Proof.
  intros Hnd Ht H1 H2 E1 E2. pose proof (NoDup_lookup _ _ _ _ Hnd E1 E2). unfold key. f_equal; [lia|done].
Qed.

(** The settlement is made. *)
Lemma owing_settle log e m ms c : NoDup (consumed log) -> owing log (m :: ms) ->
  consumed log !! Z.to_nat (ms_connectionSerial m - 1) = Some c -> settled_by e = Some (c, ms_deliveryTag m) ->
  (forall d, e <> E_Consume d) -> owing (log ++ [e]) ms /\ (c, ms_deliveryTag m) ∈ deliveries log /\ (c, ms_deliveryTag m) ∉ settlements log.
Proof.
  intros Hnd [Hf Hn] Hc He Hne. apply Forall_cons in Hf as [(c' & H1 & Hc' & Hd & Hs) Hf]. simpl in Hn. apply NoDup_cons in Hn as [Hk Hn].
  rewrite Hc in Hc'. injection Hc' as <-. split; [|done]. split; [|done].
  apply Forall_forall. intros m' Hm'. pose proof (proj1 (Forall_forall _ _) Hf m' Hm') as (c' & H1' & Hc' & Hd' & Hs').
  assert (Ec : consumed [e] = []) by (by destruct e; try done; edestruct Hne).
  exists c'. rewrite consumed_app, deliveries_app, settlements_app, Ec, app_nil_r.
  split_and!; [done|done|apply elem_of_app; by left|]. intros [Hin|Hin]%elem_of_app; [done|].
  unfold settlements in Hin. simpl in Hin. rewrite He in Hin. apply list_elem_of_singleton in Hin. injection Hin as -> Et.
  apply Hk. rewrite (owed_key log m m' c) by done. by apply list_elem_of_fmap_2.
Qed.

(** ** States *)

Definition conn_set (p : option AMQP_Socket) : gset positive := match p with Some s => {[ so_pConn s ]} | None => ∅ end.

(** The connections that are open are those of the sockets. *)
Record resources (q : Queue) (n : Net) : Prop := {
  rs_open : nt_open n = conn_set (q_pReadSocket q) ∪ conn_set (q_pWriteSocket q);
  rs_apart : conn_set (q_pReadSocket q) ## conn_set (q_pWriteSocket q);
  rs_fresh : forall c, c ∈ nt_open n -> (c < nt_next n)%positive;
  rs_new : nt_new n = []
}.

(** A list of settlements as [Queue_Create_With_Host] makes it. *)
Record simple (l : settlement_list) : Prop := {
  si_mode : l_mode l = LIST_MODE_GENERIC;
  si_limit : l_limit l = 0;
  si_sem : l_sem l = None
}.

Definition pending (q : Queue) (xs : list MessageSettlement) : Prop :=
  exists l, q_pendingSettlements q = Some l /\ contents l xs /\ simple l.

(** The settlements that other threads are about to enqueue. *)
Definition coming (n : Net) : list MessageSettlement := concat (ar_settlements <$> nt_arrivals n).

Record ledger (q : Queue) (ms : list MessageSettlement) (n : Net) : Prop := {
  lg_serial : q_readConnectionSerial q = Z.of_nat (length (consumed (nt_log n)));
  lg_reader : forall s, q_pReadSocket q = Some s -> last (consumed (nt_log n)) = Some (so_pConn s);
  lg_conns : NoDup (consumed (nt_log n));
  lg_used : forall c, c ∈ consumed (nt_log n) -> (c < nt_next n)%positive;
  lg_order : orderly (nt_log n);
  lg_owing : owing (nt_log n) ms
}.

(** The owner holds a reference until it terminates the queue, [k] calls one each. *)
Definition counted (q : Queue) (k : Z) : Prop :=
  q_refs q = (if q_bShuttingDown q then 0 else 1) + k /\ 0 <= k /\ 0 <= q_refs q < 2 ^ 32 - 1.

Definition alive (held xs : list MessageSettlement) (k : Z) (s : QS) : Prop :=
  exists q, qs_queue s = Some q /\ resources q (qs_net s) /\ pending q xs /\ counted q k /\
    (good (nt_log (qs_net s)) -> ledger q (xs ++ coming (qs_net s) ++ held) (qs_net s)).

(** The queue is freed and its connections are closed. *)
Definition gone (s : QS) : Prop :=
  qs_queue s = None /\ nt_open (qs_net s) = ∅ /\ (good (nt_log (qs_net s)) -> orderly (nt_log (qs_net s))).

(** ** Runs *)

Definition qwp {A} (m : QM A) (Q : A -> QS -> Prop) (s : QS) : Prop :=
  match m s with inl _ => False | inr (x, s') => Q x s' end.

Lemma qwp_bind {A B} (m : QM A) (f : A -> QM B) Q s : qwp m (fun x s' => qwp (f x) Q s') s -> qwp (m ≫= f) Q s.
Proof. unfold qwp, mbind, QM_bind. by destruct (m s) as [e|[x s']]. Qed.

Lemma qwp_ret {A} (x : A) Q s : Q x s -> qwp (mret x) Q s.
Proof. done. Qed.

Lemma qwp_mono {A} (m : QM A) (Q R : A -> QS -> Prop) s : qwp m Q s -> (forall x s', Q x s' -> R x s') -> qwp m R s.
Proof. unfold qwp. destruct (m s) as [e|[x s']]; auto. Qed.

Lemma qwp_inv {A} (m : QM A) Q s : qwp m Q s -> exists x s', m s = inr (x, s') /\ Q x s'.
Proof. unfold qwp. destruct (m s) as [e|[x s']]; [done|]. eauto. Qed.

Lemma qwp_queue q Q s : qs_queue s = Some q -> Q q s -> qwp the_queue Q s.
Proof. unfold qwp, the_queue. by intros ->. Qed.

Lemma qwp_on_queue f q Q s : qs_queue s = Some q -> Q () (mkQS (Some (f q)) (qs_errno s) (qs_net s)) -> qwp (on_queue f) Q s.
Proof. unfold qwp, on_queue, mbind, QM_bind, the_queue, set_queue. by intros ->. Qed.

Lemma qwp_alloc Q s : (forall r o, Q r (mkQS (qs_queue s) (qs_errno s) (set_mem (qs_net s) o))) -> qwp (in_mem alloc) Q s.
Proof. intros HQ. unfold qwp, in_mem, alloc. destruct (alloc_next _) as [[] o]; apply HQ. Qed.

Lemma qwp_lib_call Q s : (forall b o, Q b (mkQS (qs_queue s) (qs_errno s) (set_calls (qs_net s) o))) -> qwp lib_call Q s.
Proof. intros HQ. unfold qwp, lib_call. destruct (alloc_next _) as [b o]. apply HQ. Qed.

Lemma qwp_on_net f Q s : Q () (mkQS (qs_queue s) (qs_errno s) (f (qs_net s))) -> qwp (on_net f) Q s.
Proof. done. Qed.

Lemma qwp_errno e Q s : Q () (mkQS (qs_queue s) e (qs_net s)) -> qwp (set_errno e) Q s.
Proof. done. Qed.

(** One step of a run whose rule is known. *)
Ltac q_step :=
  match goal with
  | |- qwp (_ ≫= _) _ _ => apply qwp_bind
  | |- qwp (mret _) _ _ => apply qwp_ret
  | |- qwp (in_mem alloc) _ _ => apply qwp_alloc; intros
  | |- qwp lib_call _ _ => apply qwp_lib_call; intros
  | |- qwp (on_net _) _ _ => apply qwp_on_net
  | |- qwp (record_event _) _ _ => apply qwp_on_net
  | |- qwp (amqp_destroy_connection _) _ _ => apply qwp_on_net
  | |- qwp (set_errno _) _ _ => apply qwp_errno
  | |- qwp (if ?b then _ else _) _ _ => destruct b eqn:?
  | |- qwp (match ?x with Some _ => _ | None => _ end) _ _ => destruct x eqn:?
  end.

(** ** Connections *)

(** The library was called, without a delivery, a settlement or a new consumer. *)
Record quiet (n n' : Net) : Prop := {
  qu_arrivals : nt_arrivals n' = nt_arrivals n;
  qu_new : nt_new n' = nt_new n;
  qu_log : exists es, nt_log n' = nt_log n ++ es /\ Forall neutral es;
  qu_next : (nt_next n <= nt_next n')%positive
}.

Lemma quiet_refl n n' : nt_arrivals n' = nt_arrivals n -> nt_new n' = nt_new n -> nt_log n' = nt_log n -> nt_next n' = nt_next n -> quiet n n'.
Proof. intros Ha Hw Hl Hx. split; [done..| |by rewrite Hx]. exists []. rewrite app_nil_r. by split. Qed.

Lemma quiet_event n n' e : quiet n n' -> neutral e -> quiet n (add_event n' e).
Proof.
  intros [Ha Hw (es & Hl & Hn) Hx] He. split; [done..| |done]. exists (es ++ [e]). simpl. rewrite Hl, app_assoc. split; [done|].
  apply Forall_app. split; [done|]. by constructor.
Qed.

Lemma quiet_set n n' : quiet n n' ->
  (forall o, quiet n (set_mem n' o)) /\ (forall o, quiet n (set_calls n' o)) /\ (forall o, quiet n (set_frames n' o)) /\
  (forall o, quiet n (set_open n' o)).
Proof. intros [Ha Hw Hl Hx]. by split_and!. Qed.

(** Assignments to the outcomes, and neutral events. *)
Ltac quieten :=
  match goal with
  | |- quiet _ (add_event _ _) => apply quiet_event; [quieten|done]
  | |- quiet _ (set_mem _ _) => apply quiet_set; quieten
  | |- quiet _ (set_calls _ _) => apply quiet_set; quieten
  | |- quiet _ (set_frames _ _) => apply quiet_set; quieten
  | |- quiet _ (set_open _ _) => apply quiet_set; quieten
  | |- quiet _ _ => first [assumption | by apply quiet_refl]
  end.

Global Instance quiet_trans : Transitive quiet.
Proof.
  intros n1 n2 n3 [A1 W1 (e1 & L1 & N1) X1] [A2 W2 (e2 & L2 & N2) X2]. split; [congruence..| |lia].
  exists (e1 ++ e2). rewrite L2, L1, app_assoc. split; [done|]. by apply Forall_app.
Qed.

Lemma Connect_Socket_run cfg s : nt_new (qs_net s) = [] -> (forall c, c ∈ nt_open (qs_net s) -> (c < nt_next (qs_net s))%positive) ->
  qwp (Queue_Connect_Socket cfg) (fun r s' => qs_queue s' = qs_queue s /\ quiet (qs_net s) (qs_net s') /\
    match r with
    | None => nt_open (qs_net s') = nt_open (qs_net s)
    | Some k => so_pConn k = nt_next (qs_net s) /\ (nt_next (qs_net s) < nt_next (qs_net s'))%positive /\
        nt_open (qs_net s') = {[ nt_next (qs_net s) ]} ∪ nt_open (qs_net s)
    end) s.
Proof.
  intros Hn Hf. assert (Hc : nt_next (qs_net s) ∉ nt_open (qs_net s)) by (intros Hc; apply Hf in Hc; lia).
  unfold Queue_Connect_Socket. destruct (qc_sHostname cfg), (qc_sUser cfg), (qc_sPassword cfg);
    try by (apply qwp_ret; split_and!; [done|by apply quiet_refl|done]).
  q_step. q_step. destruct r as [[]|]; [|by (q_step; split_and!; [done|by apply quiet_refl|done])].
  assert (Hq : forall n', nt_arrivals n' = nt_arrivals (qs_net s) -> nt_new n' = nt_new (qs_net s) ->
    nt_log n' = nt_log (qs_net s) ++ [E_Open (nt_next (qs_net s))] -> nt_next n' = Pos.succ (nt_next (qs_net s)) -> quiet (qs_net s) n').
  { intros n' ? ? Hl Hx. split; [done..| |rewrite Hx; lia]. eexists. split; [exact Hl|]. by repeat constructor. }
  assert (Hd : ({[nt_next (qs_net s)]} ∪ nt_open (qs_net s)) ∖ {[nt_next (qs_net s)]} = nt_open (qs_net s)) by set_solver.
  q_step. unfold qwp at 1, amqp_new_connection. simpl. rewrite Hn. simpl.
  unfold new_socket, AMQP_Socket_Close, amqp_destroy_connection.
  repeat q_step; simpl; (split_and!; [done| |try done; try lia..]);
    first [by (apply quiet_event; [by apply Hq|done]) | by apply Hq].
Qed.

(** The record has grown, and arrivals may be past. *)
Definition later (s s' : QS) : Prop :=
  (exists es, nt_log (qs_net s') = nt_log (qs_net s) ++ es) /\ nt_arrivals (qs_net s') `suffix_of` nt_arrivals (qs_net s).

Global Instance later_refl : Reflexive later.
Proof. intros s. split; [exists []; by rewrite app_nil_r|done]. Qed.
Global Instance later_trans : Transitive later.
Proof. intros s1 s2 s3 [[e1 E1] A1] [[e2 E2] A2]. split; [exists (e1 ++ e2); by rewrite E2, E1, app_assoc|by etrans]. Qed.

Lemma later_log s s' es : nt_log (qs_net s') = nt_log (qs_net s) ++ es -> nt_arrivals (qs_net s') = nt_arrivals (qs_net s) -> later s s'.
Proof. intros El Ea. split; [by exists es|by rewrite Ea]. Qed.

Lemma quiet_later s s' : quiet (qs_net s) (qs_net s') -> later s s'.
Proof. intros [Ha _ (es & E & _) _]. by apply (later_log _ _ es). Qed.

Lemma net_later s s' : qs_net s' = qs_net s -> later s s'.
Proof. intros E. apply (later_log _ _ []); rewrite E; [by rewrite app_nil_r|done]. Qed.

Lemma later_good s s' : later s s' -> good (nt_log (qs_net s')) -> good (nt_log (qs_net s)).
Proof. intros [[es ->] _]. apply good_prefix. Qed.

(** The fields of a queue that only releasing, terminating and settling change. *)
Definition frame (q : Queue) := (q_pendingSettlements q, q_refs q, q_bShuttingDown q).

Lemma frame_parts q q' xs k : frame q' = frame q -> pending q xs -> counted q k -> pending q' xs /\ counted q' k.
Proof. unfold frame, pending, counted. intros [= -> -> ->]. by split. Qed.

(** Quiet calls keep the ledger when the reader is the old one or none. *)
Lemma ledger_quiet q q' ms n n' : quiet n n' -> q_readConnectionSerial q' = q_readConnectionSerial q ->
  (forall s, q_pReadSocket q' = Some s -> exists s0, q_pReadSocket q = Some s0 /\ so_pConn s = so_pConn s0) ->
  ledger q ms n -> ledger q' ms n'.
Proof.
  intros [Ha Hw (es & Hl & Hn) Hx] Hs Hr [L1 L2 L3 L4 L5 L6]. destruct (neutral_views (nt_log n) es Hn) as (V1 & V2 & V3).
  split; rewrite ?Hl, ?V1.
  - by rewrite Hs.
  - intros s Es. destruct (Hr s Es) as (s0 & E0 & ->). by apply L2.
  - done.
  - intros c Hc. specialize (L4 c Hc). lia.
  - by apply neutral_orderly.
  - apply owing_app; [|done]. rewrite settlements_app in V3. by rewrite <- (app_nil_r (settlements (nt_log n))) in V3 at 2; apply app_inv_head in V3.
Qed.

Lemma alive_quiet held xs k s s' q q' : quiet (qs_net s) (qs_net s') -> qs_queue s' = Some q' ->
  resources q' (qs_net s') -> pending q xs -> counted q k -> frame q' = frame q ->
  q_readConnectionSerial q' = q_readConnectionSerial q ->
  (forall so, q_pReadSocket q' = Some so -> exists s0, q_pReadSocket q = Some s0 /\ so_pConn so = so_pConn s0) ->
  (good (nt_log (qs_net s)) -> ledger q (xs ++ coming (qs_net s) ++ held) (qs_net s)) -> alive held xs k s'.
Proof.
  intros Hq Eq Hres Hp Hc Hf Hse Hr Hl. destruct (frame_parts q q' xs k Hf Hp Hc) as [Hp' Hc'].
  exists q'. split_and!; [done..|]. intros Hg. eapply ledger_quiet; [exact Hq|done|exact Hr|].
  unfold coming. rewrite (qu_arrivals _ _ Hq). apply Hl. eapply later_good; [by apply quiet_later|done].
Qed.

Lemma BeginReading_run q k s : qs_queue s = Some q -> q_pReadSocket q = Some k ->
  qwp Queue_BeginReading (fun ok s' => exists k', so_pConn k' = so_pConn k /\ qs_queue s' = Some (set_pReadSocket q (Some k')) /\
    nt_open (qs_net s') = nt_open (qs_net s) /\
    if ok : bool then exists n', quiet (qs_net s) n' /\ nt_open n' = nt_open (qs_net s) /\ qs_net s' = add_event n' (E_Consume (so_pConn k))
    else quiet (qs_net s) (qs_net s')) s.
Proof.
  intros Eq Ek. assert (E1 : q = set_pReadSocket q (Some k)) by (rewrite <- Ek; by destruct q).
  assert (E2 : forall x y, set_pReadSocket (set_pReadSocket q x) y = set_pReadSocket q y) by done.
  unfold Queue_BeginReading, recorded_call. q_step. apply (qwp_queue q); [done|]. q_step. rewrite Ek. simpl. do 5 q_step.
  2: { q_step. simpl. q_step. exists k. simpl. rewrite Eq. split_and!; [done|by rewrite <- E1|done|quieten]. }
  q_step. q_step. q_step. simpl. q_step. q_step.
  destruct r as [[]|].
  2: { q_step. exists k. simpl. rewrite Eq. split_and!; [done|by rewrite <- E1|done|quieten]. }
  q_step. apply (qwp_on_queue _ q); [done|]. simpl. rewrite <- E2 with (x := Some k), <- E1.
  set (k1 := mkSocket _ _ _).
  assert (Hb : forall (b : bool) (m : event) (sA : QS), neutral m -> quiet (qs_net s) (qs_net sA) ->
    nt_open (qs_net sA) = nt_open (qs_net s) -> qs_queue sA = Some (set_pReadSocket q (Some k1)) ->
    qwp (if b then ok ← lib_call; if ok : bool then record_event m ;; mret true else mret false else mret true)
      (fun _ s' => quiet (qs_net s) (qs_net s') /\ nt_open (qs_net s') = nt_open (qs_net s) /\
        qs_queue s' = Some (set_pReadSocket q (Some k1))) sA).
  { intros b' m sA Hm HA Ho Hk. destruct b'; [|by q_step]. q_step. q_step. q_step; [q_step; q_step|]; q_step; simpl; (split_and!; [quieten|done..]). }
  q_step. eapply qwp_mono; [apply Hb; [done|simpl; quieten|done|done]|]. intros x1 s1 (H1a & H1b & H1c). cbn beta.
  q_step. { q_step. exists k1. by split_and!. }
  q_step. eapply qwp_mono; [apply Hb; [done|exact H1a|done|done]|]. intros x2 s2 (H2a & H2b & H2c). cbn beta.
  q_step. { q_step. exists k1. by split_and!. }
  q_step. q_step. q_step; [q_step; q_step|]; q_step; exists k1; simpl; (split_and!; [done|done|done|]).
  - exists (set_calls (qs_net s2) o1). split_and!; [quieten|done|done].
  - quieten.
Qed.

Lemma next_serial_succ m : 0 <= m < 2 ^ 64 - 1 -> next_serial m = m + 1.
Proof.
  intros Hm. unfold next_serial, u64. rewrite (wrap_small 64 (m + 1)) by (unfold in_width; lia).
  destruct (Z.eqb_spec (m + 1) 0); [lia|done].
Qed.

Lemma ledger_consume q q' ms n k : (forall c, c ∈ consumed (nt_log n) -> (c < so_pConn k)%positive) -> (so_pConn k < nt_next n)%positive ->
  q_pReadSocket q' = Some k -> q_readConnectionSerial q' = next_serial (q_readConnectionSerial q) ->
  good (nt_log n ++ [E_Consume (so_pConn k)]) -> ledger q ms n -> ledger q' ms (add_event n (E_Consume (so_pConn k))).
Proof.
  intros Hold Hnew Hr Hs (_ & _ & Hlen) [L1 L2 L3 L4 L5 L6]. rewrite consumed_app, length_app in Hlen. simpl in Hlen.
  split; simpl; rewrite ?consumed_app; simpl.
  - rewrite Hs, L1, next_serial_succ by lia. rewrite length_app. simpl. lia.
  - intros s. rewrite Hr. intros [= <-]. by rewrite last_snoc.
  - apply NoDup_app. split_and!; [done| |apply NoDup_singleton]. intros c Hc%Hold ->%list_elem_of_singleton. lia.
  - intros c [Hc|Hc]%elem_of_app; [by apply L4|]. apply list_elem_of_singleton in Hc as ->. done.
  - by apply orderly_snoc.
  - by apply owing_app.
Qed.

Lemma Connect_ReadSocket_alive held xs k s : alive held xs k s ->
  qwp Queue_Connect_ReadSocket (fun _ s' => alive held xs k s' /\ later s s') s.
Proof.
  intros (q & Eq & Hr & Hp & Hc & Hl). unfold Queue_Connect_ReadSocket. q_step. apply (qwp_queue q); [done|].
  assert (Hsame : alive held xs k s /\ later s s) by (split; [by exists q|done]).
  q_step; [by q_step|]. q_step; [by q_step|]. destruct (q_pReadSocket q) as [?|] eqn:Er; [by rewrite orb_true_r in Heqb0|clear Heqb0].
  pose proof Hr as [Ro Ra Rf Rn]. rewrite Er in Ro. simpl in Ro. rewrite union_empty_l_L in Ro.
  q_step. eapply qwp_mono; [by apply Connect_Socket_run|]. intros r s1 (E1 & Q1 & H1'). cbn beta.
  q_step. apply (qwp_on_queue _ q); [by rewrite E1|]. set (q1 := set_pReadSocket q r).
  destruct r as [so|].
  2: { q_step. split; [|by apply quiet_later]. eapply (alive_quiet held xs k s _ q q1); try done.
       destruct Q1 as [_ W1 _ X1]. split; simpl; [by rewrite H1', union_empty_l_L|set_solver|rewrite H1'; intros c Hc'%Rf; lia|by rewrite W1]. }
  destruct H1' as (Hso & Hnx & Ho1). q_step. eapply qwp_mono; [by apply (BeginReading_run q1 so)|].
  intros ok s2 (so' & Es & E2 & Ho2 & H2'). cbn beta. simpl in *.
  assert (Hfr : nt_next (qs_net s) ∉ nt_open (qs_net s)) by (intros HH; apply Rf in HH; lia).
  q_step.
  - destruct ok; [done|]. q_step. apply (qwp_queue (set_pReadSocket q1 (Some so'))); [done|]. q_step. simpl. q_step. q_step.
    apply (qwp_on_queue _ (set_pReadSocket q1 (Some so'))); [done|]. q_step.
    assert (Qs : quiet (qs_net s) (qs_net s2)) by (by etrans).
    assert (Qs' : quiet (qs_net s) (add_event (set_open (qs_net s2) (nt_open (qs_net s2) ∖ {[so_pConn so']})) (E_Close (so_pConn so')))) by quieten.
    split; [|by apply quiet_later]. eapply (alive_quiet held xs k s _ q _); try done.
    destruct Qs as [_ W _ X]. rewrite Ho2, Ho1, Es, Hso. split; simpl; [|set_solver| |by rewrite W].
    + set_solver.
    + intros c Hc'. assert (Hi : c ∈ nt_open (qs_net s)) by set_solver. apply Rf in Hi. lia.
  - destruct ok; [|done]. destruct H2' as (n' & Q2 & Ho' & En). q_step. apply (qwp_on_queue _ (set_pReadSocket q1 (Some so'))); [done|]. q_step.
    assert (Qs : quiet (qs_net s) n') by (by etrans).
    split. 2: { destruct Qs as [Ha _ (es & El & _) _]. apply (later_log _ _ (es ++ [E_Consume (so_pConn so)])); simpl; rewrite En; simpl; [by rewrite El, app_assoc|done]. }
    eexists _. split; [done|]. simpl. rewrite En. split_and!.
    + destruct Qs as [_ W _ X]. split; simpl; [by rewrite Ho', Ho1, Es, Hso, Ro| | |by rewrite W].
      * rewrite Es, Hso, <- Ro. set_solver.
      * intros c. rewrite Ho', Ho1. intros Hc'. apply elem_of_union in Hc' as [->%elem_of_singleton|Hc'%Rf]; destruct Q2; lia.
    + done.
    + done.
    + rewrite <- Es. intros Hg. eapply (ledger_consume q); try done.
      * intros c. destruct Qs as [_ _ (es & El & Hn) _]. rewrite El. destruct (neutral_views (nt_log (qs_net s)) es Hn) as (-> & _).
        intros Hc'. rewrite Es, Hso. eapply lg_used; [apply Hl|done]. simpl in Hg. rewrite El, <- app_assoc in Hg. by eapply good_prefix.
      * rewrite Es, Hso. destruct Q2. lia.
      * eapply ledger_quiet; [exact Qs|done| |unfold coming; simpl; rewrite (qu_arrivals _ _ Qs)]; [intros ? E; rewrite Er in E; done|].
        apply Hl. destruct Qs as [_ _ (es & El & _) _]. simpl in Hg. rewrite El, <- app_assoc in Hg. by eapply good_prefix.
Qed.

Lemma heartbeat_same q b : q_pWriteHeartbeat q = b -> set_heartbeat q b = q.
Proof. intros <-. by destruct q. Qed.

Lemma Connect_WriteSocket_alive held xs k s : alive held xs k s ->
  qwp Queue_Connect_WriteSocket (fun _ s' => alive held xs k s' /\ later s s') s.
Proof.
  intros (q & Eq & Hr & Hp & Hc & Hl). unfold Queue_Connect_WriteSocket. q_step. apply (qwp_queue q); [done|].
  assert (Hsame : alive held xs k s /\ later s s) by (split; [by exists q|done]).
  q_step; [by q_step|]. q_step; [by q_step|]. destruct (q_pWriteSocket q) as [?|] eqn:Ew; [by rewrite orb_true_r in Heqb0|clear Heqb0].
  pose proof Hr as [Ro Ra Rf Rn]. rewrite Ew in Ro. simpl in Ro. rewrite union_empty_r_L in Ro.
  assert (Hfr : nt_next (qs_net s) ∉ nt_open (qs_net s)) by (intros HH; apply Rf in HH; lia).
  q_step. eapply qwp_mono; [by apply Connect_Socket_run|]. intros r s1 (E1 & Q1 & H1'). cbn beta.
  q_step. apply (qwp_on_queue _ q); [by rewrite E1|]. set (q1 := set_pWriteSocket q r).
  assert (Hend : forall s2 q2 xs2, quiet (qs_net s) (qs_net s2) -> qs_queue s2 = Some q2 -> resources q2 (qs_net s2) ->
    frame q2 = frame q -> q_readConnectionSerial q2 = q_readConnectionSerial q -> q_pReadSocket q2 = q_pReadSocket q ->
    xs2 = xs -> alive held xs k s2 /\ later s s2).
  { intros s2 q2 ? Q2 E2 R2 F2 S2 Er2 ->. split; [|by apply quiet_later]. eapply (alive_quiet held xs k s s2 q q2); try done.
    rewrite Er2. eauto. }
  destruct r as [so|].
  2: { q_step. eapply (Hend _ q1); try done. destruct Q1 as [_ W1 _ X1].
       split; simpl; [by rewrite H1', union_empty_r_L|set_solver|rewrite H1'; intros c Hc'%Rf; lia|by rewrite W1]. }
  destruct H1' as (Hso & Hnx & Ho1). destruct Q1 as [A1 W1 L1 X1] eqn:HQ1. clear HQ1.
  assert (R1 : forall n, nt_open n = nt_open (qs_net s1) -> nt_next n = nt_next (qs_net s1) -> nt_new n = nt_new (qs_net s1) ->
    forall b, resources (set_heartbeat q1 b) n).
  { intros n En Ex Ew' b. split; simpl; rewrite ?En, ?Ex, ?Ew', ?Ho1, ?Hso, ?Ro; [set_solver|rewrite <- Ro; set_solver| |by rewrite W1].
    intros c [->%elem_of_singleton|Hc']%elem_of_union; [lia|]. rewrite <- Ro in Hc'. apply Rf in Hc'. lia. }
  q_step. apply (qwp_queue q1); [done|]. q_step.
  { q_step. apply (Hend _ q1 xs); try done. rewrite <- (heartbeat_same q1 true) by done. by apply R1. }
  q_step. q_step. destruct r as [[]|].
  - q_step. apply (qwp_on_queue _ q1); [done|]. q_step. apply (Hend _ (set_heartbeat q1 true) xs); first [done|simpl; quieten|by apply R1].
  - q_step. simpl. q_step. q_step. apply (qwp_on_queue _ q1); [done|]. q_step.
    apply (Hend _ (set_pWriteSocket q1 None) xs); try first [done|simpl; quieten]. simpl. rewrite Ho1, Hso.
    split; simpl; [set_solver|set_solver| |by rewrite W1]. intros c Hc'. assert (Hi : c ∈ nt_open (qs_net s)) by set_solver. apply Rf in Hi. lia.
Qed.

(** Closing a socket of the queue. *)
Lemma close_read_alive held xs k q s : alive held xs k s -> qs_queue s = Some q ->
  qwp (AMQP_Socket_Close (q_pReadSocket q) ;; on_queue (fun q => set_pReadSocket q None))
    (fun _ s' => alive held xs k s' /\ later s s' /\ qs_queue s' = Some (set_pReadSocket q None)) s.
Proof.
  intros (q' & Eq & Hr & Hp & Hc & Hl) E. rewrite E in Eq. injection Eq as <-. pose proof Hr as [Ro Ra Rf Rn].
  q_step. unfold AMQP_Socket_Close. destruct (q_pReadSocket q) as [so|] eqn:Er; q_step; (apply (qwp_on_queue _ q); [done|]).
  - split_and!; [|apply quiet_later; simpl; quieten|done]. eapply (alive_quiet held xs k s _ q _); try done; [simpl; quieten|].
    simpl in Ro, Ra. split; simpl; rewrite ?Ro; [set_solver|set_solver|intros c Hc'; apply Rf; rewrite Ro; set_solver|done].
  - split_and!; [|by apply quiet_later, quiet_refl|done]. eapply (alive_quiet held xs k s _ q _); first [done|by apply quiet_refl].
Qed.

Lemma close_write_alive held xs k q s : alive held xs k s -> qs_queue s = Some q ->
  qwp (AMQP_Socket_Close (q_pWriteSocket q) ;; on_queue (fun q => set_pWriteSocket q None))
    (fun _ s' => alive held xs k s' /\ later s s' /\ qs_queue s' = Some (set_pWriteSocket q None)) s.
Proof.
  intros (q' & Eq & Hr & Hp & Hc & Hl) E. rewrite E in Eq. injection Eq as <-. pose proof Hr as [Ro Ra Rf Rn].
  q_step. unfold AMQP_Socket_Close. destruct (q_pWriteSocket q) as [so|] eqn:Er; q_step; (apply (qwp_on_queue _ q); [done|]).
  - split_and!; [|apply quiet_later; simpl; quieten|done]. eapply (alive_quiet held xs k s _ q _); try done; [simpl; quieten| |eauto].
    simpl in Ro, Ra. split; simpl; rewrite ?Ro; [set_solver|set_solver|intros c Hc'; apply Rf; rewrite Ro; set_solver|done].
  - split_and!; [|by apply quiet_later, quiet_refl|done]. eapply (alive_quiet held xs k s _ q _); first [done|by apply quiet_refl|by eauto].
Qed.

Lemma alive_queue held xs k s : alive held xs k s -> exists q, qs_queue s = Some q.
Proof. intros (q & E & _). by exists q. Qed.

Lemma Reconnect_alive held xs k side s : alive held xs k s -> qwp (Queue_Reconnect side) (fun _ s' => alive held xs k s' /\ later s s') s.
Proof.
  intros HA. destruct (alive_queue _ _ _ _ HA) as [q E]. unfold Queue_Reconnect. q_step. apply (qwp_queue q); [done|].
  q_step; [by q_step|]. q_step.
  apply (qwp_mono _ (fun _ s1 => alive held xs k s1 /\ later s s1 /\ exists q1, qs_queue s1 = Some q1 /\ q_pWriteSocket q1 = q_pWriteSocket q)).
  { destruct (wants side QUEUE_FLAG_RECV); [|q_step; split_and!; [done|done|by exists q]]. eapply qwp_mono; [by apply close_read_alive|].
    intros [] s1 (H1 & H2 & H3). split_and!; [done..|]. by eexists. }
  intros [] s1 (A1 & L1 & q1 & E1 & W1). q_step.
  apply (qwp_mono _ (fun _ s2 => alive held xs k s2 /\ later s s2)).
  { destruct (wants side QUEUE_FLAG_SEND); [|by q_step]. rewrite <- W1. eapply qwp_mono; [by apply close_write_alive|].
    intros [] s2 (H1 & H2 & _). split; [done|by etrans]. }
  intros [] s2 (A2 & L2). q_step.
  apply (qwp_mono _ (fun _ s3 => alive held xs k s3 /\ later s s3)).
  { destruct (wants side QUEUE_FLAG_RECV); [|by q_step]. eapply qwp_mono; [by apply Connect_ReadSocket_alive|].
    intros b s3 (H1 & H2). split; [done|by etrans]. }
  intros b s3 (A3 & L3). q_step; [by q_step|]. destruct (wants side QUEUE_FLAG_SEND); [|by q_step].
  eapply qwp_mono; [by apply Connect_WriteSocket_alive|]. intros b' s4 (H1 & H2). split; [done|by etrans].
Qed.

(** ** Settlements *)

Lemma alive_sub held held' xs k s : held' ⊆+ held -> alive held xs k s -> alive held' xs k s.
Proof.
  intros Hs (q & E & Hr & Hp & Hc & Hl). exists q. split_and!; [done..|]. intros Hg. destruct (Hl Hg) as [L1 L2 L3 L4 L5 L6].
  split; [done..|]. eapply owing_sub; [|exact L6]. by do 2 apply submseteq_skips_l.
Qed.

Lemma simple_known l : simple l -> known_mode l = true /\ is_stack l = false /\ at_limit l = false.
Proof. intros [Hm Hl _]. unfold known_mode, is_stack, at_limit. by rewrite Hm, Hl. Qed.

Lemma simple_meta l l' : meta l' = meta l -> l_sem l' = l_sem l -> simple l -> simple l'.
Proof. unfold meta. intros E Es [? ? ?]. split; congruence. Qed.

(** The settlement that was enqueued last is taken. *)
Lemma pop_settlement_run q xs s : qs_queue s = Some q -> pending q xs ->
  qwp pop_settlement (fun r s' => exists l', qs_queue s' = Some (set_pendingSettlements q l') /\ qs_net s' = qs_net s /\
    match r with
    | None => xs = [] /\ pending (set_pendingSettlements q l') []
    | Some m => exists xs', xs = xs' ++ [m] /\ pending (set_pendingSettlements q l') xs'
    end) s.
Proof.
  intros Eq (l & El & Hc & Hs). destruct (simple_known l Hs) as (Hk & Hst & _).
  destruct (Pop_take l xs None Hc Hk (si_sem _ Hs)) as (l' & E & Hm & Hse & Hc'). rewrite Hst in *.
  assert (Hs' : simple l') by (eapply simple_meta; [exact Hm|by rewrite (si_sem _ Hs)|done]).
  unfold pop_settlement. q_step. apply (qwp_queue q); [done|]. rewrite El. unfold List_Pop, List_Pop_Ex. rewrite (si_sem _ Hs), E.
  clear E. revert Hc'. destruct (spec.pop false xs) as [[m xs']|] eqn:Ep; intros Hc'; exists (Some l'); (split_and!; [done..|]).
  - apply spec.pop_Some in Ep. exists xs'. split; [done|]. by exists l'.
  - apply spec.pop_None in Ep as ->. split; [done|]. by exists l'.
Qed.

(** The serial number is that of before, unless a settlement was refused. *)
Definition same_serial (s s' : QS) : Prop := good (nt_log (qs_net s')) ->
  forall q q', qs_queue s = Some q -> qs_queue s' = Some q' -> q_readConnectionSerial q' = q_readConnectionSerial q.

Lemma same_serial_refl s : same_serial s s.
Proof. intros _ q q' E E'. congruence. Qed.

Lemma same_serial_eq s s' q q' : qs_queue s = Some q -> qs_queue s' = Some q' ->
  q_readConnectionSerial q' = q_readConnectionSerial q -> same_serial s s'.
Proof. intros E E' H _ ? ? E1 E2. congruence. Qed.

Lemma same_serial_trans s1 s2 s3 q2 : qs_queue s2 = Some q2 -> later s2 s3 -> same_serial s1 s2 -> same_serial s2 s3 -> same_serial s1 s3.
Proof.
  intros E2 L H1 H2 Hg q1 q3 E1 E3. rewrite (H2 Hg q2 q3 E2 E3). apply H1; [|done..]. by eapply later_good.
Qed.

(** There is a connection to receive from. *)
Definition reads (s : QS) : Prop := exists q so, qs_queue s = Some q /\ q_pReadSocket q = Some so.

Lemma ledger_current q ms n so : ledger q ms n -> q_pReadSocket q = Some so ->
  1 <= q_readConnectionSerial q /\ consumed (nt_log n) !! Z.to_nat (q_readConnectionSerial q - 1) = Some (so_pConn so).
Proof.
  intros [L1 L2 _ _ _ _] E. specialize (L2 so E). rewrite last_lookup in L2. pose proof (lookup_lt_Some _ _ _ L2).
  rewrite L1. split; [lia|]. rewrite <- L2. f_equal. lia.
Qed.

Lemma refused_bad log c es : ~ good ((log ++ [E_Refused c]) ++ es).
Proof.
  intros (_ & Hr & _). destruct (views_app (log ++ [E_Refused c]) es) as (_ & _ & _ & E). rewrite E in Hr.
  destruct (views_app log [E_Refused c]) as (_ & _ & _ & E'). rewrite E' in Hr. simpl in Hr.
  apply app_eq_nil in Hr as [Hr _]. by apply app_eq_nil in Hr as [_ Hr].
Qed.

Lemma settle_alive held xs k q so m e s : alive (m :: held) xs k s -> qs_queue s = Some q -> q_pReadSocket q = Some so ->
  (good (nt_log (qs_net s)) -> ms_connectionSerial m = q_readConnectionSerial q) ->
  (forall c, settled_by (e c) = Some (c, ms_deliveryTag m)) ->
  qwp (settle e) (fun ok s' => alive held xs k s' /\ later s s' /\ same_serial s s' /\ (ok = true -> reads s')) s.
Proof.
  intros HA E Er Hse He. pose proof HA as (q' & Eq & Hr & Hp & Hc & Hl). rewrite E in Eq. injection Eq as <-.
  unfold settle. q_step. apply (qwp_queue q); [done|]. rewrite Er. q_step. q_step. q_step.
  - q_step. q_step. q_step. split_and!; [|by eapply later_log|intros _ ? ? E1 E2; simpl in E2; congruence|intros _; by exists q, so].
    exists q. split_and!; [done| |done|done|].
    { destruct Hr. by split. }
    simpl. intros Hg. assert (Hg' : good (nt_log (qs_net s))) by (by eapply good_prefix). specialize (Hl Hg').
    destruct (ledger_current _ _ _ _ Hl Er) as [H1 Hcur]. destruct Hl as [L1 L2 L3 L4 L5 L6]. specialize (He (so_pConn so)).
    assert (Hne : forall d, e (so_pConn so) <> E_Consume d) by (intros d Ed; rewrite Ed in He; done).
    assert (Ec : consumed [e (so_pConn so)] = []) by (by destruct (e (so_pConn so)); try done; edestruct Hne).
    assert (Hw : owing (nt_log (qs_net s)) (m :: xs ++ coming (qs_net s) ++ held)).
    { eapply owing_sub; [|exact L6]. rewrite !Permutation_middle. done. }
    destruct (owing_settle _ (e (so_pConn so)) m _ (so_pConn so) L3 Hw) as (Ho & Hd & Hn); [by rewrite Hse|done..|].
    split; simpl; rewrite ?consumed_app, ?Ec, ?app_nil_r; try done. apply orderly_snoc; [done|]. intros d. rewrite He. by intros [= <-].
  - q_step. q_step. q_step.
    match goal with |- qwp _ _ ?sr => assert (HR : alive held xs k sr /\ later s sr) end.
    { split; [|by eapply later_log]. exists q. split_and!; [done| |done|done|].
      - destruct Hr. by split.
      - simpl. intros Hg. exfalso. eapply refused_bad. rewrite app_nil_r. exact Hg. }
    eapply qwp_mono; [apply Reconnect_alive, HR|]. intros b' s' (A' & L'). cbn beta. q_step.
    split_and!; [done|by etrans; [apply HR|]| |done]. intros Hg. exfalso. destruct L' as [[es L'] _]. rewrite L' in Hg. simpl in Hg. exact (refused_bad _ _ _ Hg).
Qed.

(** What a run does to a queue besides its own effect. *)
Definition steps (held xs : list MessageSettlement) (k : Z) (s s' : QS) : Prop := alive held xs k s' /\ later s s' /\ same_serial s s'.

Lemma steps_refl held xs k s : alive held xs k s -> steps held xs k s s.
Proof. intros. split_and!; [done|done|apply same_serial_refl]. Qed.

Lemma steps_trans held held' xs xs' k k' s1 s2 s3 : steps held xs k s1 s2 -> steps held' xs' k' s2 s3 -> steps held' xs' k' s1 s3.
Proof.
  intros (A1 & L1 & S1) (A2 & L2 & S2). split_and!; [done|by etrans|]. destruct (alive_queue _ _ _ _ A1) as [q2 E2].
  by eapply same_serial_trans.
Qed.

(** Popping moves a settlement from the pending ones to the caller. *)
Lemma pop_alive held xs k s : alive held xs k s -> reads s ->
  qwp pop_settlement (fun r s' => reads s' /\
    match r with
    | None => xs = [] /\ steps held xs k s s'
    | Some m => exists xs', xs = xs' ++ [m] /\ steps (m :: held) xs' k s s'
    end) s.
Proof.
  intros (q & E & Hr & Hp & Hc & Hl) (? & so & E' & Er). rewrite E in E'. injection E' as <-.
  eapply qwp_mono; [by apply (pop_settlement_run q xs)|]. intros r s' (l' & E' & En & H'). split; [by eexists _, so|].
  assert (Hr' : resources (set_pendingSettlements q l') (qs_net s')) by (rewrite En; destruct Hr; by split).
  assert (Hst : later s s' /\ same_serial s s') by (split; [by apply net_later|by eapply same_serial_eq]).
  destruct r as [m|]; [destruct H' as (xs' & -> & Hp'); exists xs'|destruct H' as [-> Hp']]; (split; [done|]); (split; [|done]);
    eexists; (split_and!; [done..|]); rewrite En; intros Hg; destruct (Hl Hg) as [L1 L2 L3 L4 L5 L6]; split; try done.
  eapply owing_sub; [|exact L6]. rewrite <- app_assoc. simpl. apply submseteq_app; [done|]. by rewrite Permutation_middle.
Qed.

Lemma settle_loop_alive held k fuel : forall xs s, alive held xs k s -> (length xs < fuel)%nat -> reads s ->
  qwp (settle_loop fuel) (fun ok s' => exists xs', xs' ⊆+ xs /\ steps held xs' k s s' /\ (ok = true -> reads s')) s.
Proof.
  induction fuel as [|fuel IH]; intros xs s HA Hf Hrd; [lia|]. simpl. q_step.
  eapply qwp_mono; [by apply pop_alive|]. intros r s1 (R1 & H1'). cbn beta.
  destruct r as [m|]; [|destruct H1' as [-> S1]; q_step; exists []; by split_and!].
  destruct H1' as (xs' & -> & S1). rewrite length_app in Hf. simpl in Hf. pose proof R1 as (q1 & so & E1 & Eso).
  assert (Hsub : xs' ⊆+ xs' ++ [m]) by by apply submseteq_inserts_r.
  assert (Hnext : forall s2, steps held xs' k s s2 -> reads s2 ->
    qwp (settle_loop fuel) (fun ok s' => exists xs0, xs0 ⊆+ xs' ++ [m] /\ steps held xs0 k s s' /\ (ok = true -> reads s')) s2).
  { intros s2 S2 R2. eapply qwp_mono; [apply IH; [by apply S2|lia|done]|]. intros ok s3 (xs0 & Hx & S3 & R3).
    exists xs0. split_and!; [by etrans|by eapply steps_trans|done]. }
  q_step. apply (qwp_queue q1); [done|]. q_step.
  - apply Hnext; [|done]. destruct S1 as (A1 & L1 & Se1). split_and!; [|done..]. eapply alive_sub; [|exact A1]. by constructor.
  - assert (Hcur : good (nt_log (qs_net s1)) -> ms_connectionSerial m = q_readConnectionSerial q1).
    { intros _. apply negb_false_iff, Z.eqb_eq in Heqb. done. }
    q_step. apply (qwp_mono _ (fun ok s2 => steps held xs' k s s2 /\ (ok = true -> reads s2))).
    { destruct (ms_acknowledge m); (eapply qwp_mono; [eapply (settle_alive held xs' k q1 so m); [by apply S1|done..]|]);
        (intros ok s2 (A2 & L2 & Se2 & R2); split; [eapply steps_trans; [exact S1|by split_and!]|done]). }
    intros ok s2 (S2 & R2). q_step. destruct (alive_queue _ _ _ _ (proj1 S2)) as [q2 E2].
    apply (qwp_queue q2); [done|]. q_step; [q_step; exists xs'; by split_and!|].
    apply Hnext; [done|]. destruct ok; [by apply R2|]. destruct (q_pReadSocket q2) as [so2|] eqn:Er2; [by exists q2, so2|done].
Qed.

Lemma Process_alive held xs k s : alive held xs k s ->
  qwp Queue_Process_Pending_Settlements (fun ok s' => exists xs', xs' ⊆+ xs /\ steps held xs' k s s' /\ (ok = true -> reads s')) s.
Proof.
  intros HA. pose proof HA as (q & E & Hr & (l & El & Hc & Hs) & _). unfold Queue_Process_Pending_Settlements.
  q_step. apply (qwp_queue q); [done|]. rewrite El. destruct (q_pReadSocket q) as [so|] eqn:Er.
  - apply settle_loop_alive; [done| |by exists q, so]. rewrite (fuel_of_contents _ _ Hc). lia.
  - q_step. exists xs. split_and!; [done|by apply steps_refl|done].
Qed.
