(* ===== verification/QueueRuns.v ===== *)
(** * Runs of the operations of a queue: settling, waiting, receiving, sending

    Enqueuing a settlement, the references of a queue and its end, the loop that waits
    for a delivery, and the complete calls; each keeps [alive] or ends in [gone]. *)

From S2P Require Import Prelude CLib RzbList RzbListProps ListM Hash LibUuid Uuids Ntlv Blocks JsonC JsonBuffer JsonText Messages MessageCodecs CncMessages Entities BlockPool Transfer Queue QueueProps.

Local Open Scope Z_scope.

(** ** Enqueuing *)

Lemma owed_flags log m m' : key m' = key m -> owed log m -> owed log m'.
Proof. unfold key, owed. intros [= -> ->]. done. Qed.

Lemma owing_flags log m m' ms : key m' = key m -> owing log (m :: ms) -> owing log (m' :: ms).
Proof.
  intros Hk [Hf Hn]. apply Forall_cons in Hf as [Hm Hf]. split; [constructor; [by eapply owed_flags|done]|]. simpl in *. by rewrite Hk.
Qed.

Lemma alive_flags m m' held xs k s : (good (nt_log (qs_net s)) -> key m' = key m) -> alive (m :: held) xs k s -> alive (m' :: held) xs k s.
Proof.
  intros Hk (q & E & Hr & Hp & Hc & Hl). exists q. split_and!; [done..|]. intros Hg. destruct (Hl Hg) as [L1 L2 L3 L4 L5 L6]. split; try done.
  rewrite app_assoc in L6 |- *. eapply owing_sub; [by rewrite <- Permutation_middle|]. eapply owing_flags; [by apply Hk|].
  eapply owing_sub; [by rewrite Permutation_middle|exact L6].
Qed.

Lemma alive_mem held xs k s o : alive held xs k s -> alive held xs k (mkQS (qs_queue s) (qs_errno s) (set_mem (qs_net s) o)).
Proof. intros (q & E & [] & Hp & Hc & Hl). exists q. split_and!; [done|by split|done|done|]. simpl. intros Hg. destruct (Hl Hg). by split. Qed.

(** The state but for the memory and errno. *)
Definition same_state (s s' : QS) : Prop := qs_queue s' = qs_queue s /\ exists o, qs_net s' = set_mem (qs_net s) o.

Lemma set_mem_same n : n = set_mem n (nt_allocs n).
Proof. by destruct n. Qed.

Lemma same_state_refl s : same_state s s.
Proof. split; [done|]. exists (nt_allocs (qs_net s)). apply set_mem_same. Qed.

Lemma same_state_trans s1 s2 s3 : same_state s1 s2 -> same_state s2 s3 -> same_state s1 s3.
Proof. intros [E1 [o1 N1]] [E2 [o2 N2]]. split; [congruence|]. exists o2. by rewrite N2, N1. Qed.

Lemma same_state_alive held xs k s s' : same_state s s' -> alive held xs k s -> steps held xs k s s'.
Proof.
  intros [E [o N]] HA. destruct (alive_queue _ _ _ _ HA) as [q Eq]. split_and!.
  - destruct (alive_mem held xs k s o HA) as (q' & E' & HH). exists q'. rewrite N, E. by split.
  - apply (later_log _ _ []); rewrite N; [by rewrite app_nil_r|done].
  - eapply same_serial_eq; [exact Eq|by rewrite E|done].
Qed.

Lemma same_state_reads s s' : same_state s s' -> reads s -> reads s'.
Proof. intros [E _] (q & so & Eq & Er). exists q, so. by rewrite E. Qed.

Lemma Enqueue_alive m held xs k ack rq s : alive (m :: held) xs k s ->
  qwp (Queue_Enqueue_Settlement (Some m) ack rq) (fun r s' => (reads s -> reads s') /\ exists xs',
    match r with
    | (true, p) => p = None /\ steps held xs' k s s'
    | (false, p) => exists m', p = Some m' /\ key m' = key m /\ steps (m' :: held) xs' k s s'
    end) s.
Proof.
  intros HA. pose proof HA as (q & E & Hr & Hp & Hc & Hl). unfold Queue_Enqueue_Settlement. set (m' := mkSettlement _ _ _ _).
  assert (Hk : key m' = key m) by done. pose proof Hp as (l & El & Hco & Hs). destruct (simple_known l Hs) as (Hkn & Hst & Hli).
  q_step. apply (qwp_queue q); [done|]. rewrite El. q_step. q_step.
  match goal with |- qwp _ _ ?sx => set (s1 := sx) end.
  assert (S1 : same_state s s1) by (split; [done|by eexists]).
  destruct r as [[]|].
  - destruct (Push_ok l xs m' Hco Hli Hkn) as (l' & -> & Hm & Hse & Hc'). rewrite Hst in Hc'. q_step. simpl. unfold qwp, set_queue. simpl.
    split; [intros (q0 & so & Eq0 & Er0); rewrite E in Eq0; injection Eq0 as <-; by eexists _, so|].
    exists (xs ++ [m']). split; [done|]. split_and!.
    + eexists. split; [done|]. split_and!; [destruct Hr; by split| |done|].
      * exists l'. split_and!; [done..|]. eapply simple_meta; [exact Hm| |done]. by rewrite Hse, (si_sem _ Hs).
      * simpl. intros Hg. destruct (Hl Hg) as [L1 L2 L3 L4 L5 L6]. split; try done. simpl. eapply (owing_sub _ (m' :: xs ++ coming (qs_net s) ++ held)).
        { rewrite <- app_assoc. simpl. by rewrite <- Permutation_middle. }
        eapply owing_flags; [exact Hk|]. eapply owing_sub; [|exact L6]. by rewrite !Permutation_middle.
    + apply (later_log _ _ []); simpl; [by rewrite app_nil_r|done].
    + by eapply same_serial_eq.
  - rewrite Push_refused by done. q_step. simpl. unfold qwp, set_queue. simpl.
    assert (S2 : same_state s (mkQS (Some (set_pendingSettlements q (Some l))) (qs_errno s) (set_mem (qs_net s) o))).
    { split; [|by eexists]. simpl. rewrite E, <- El. f_equal. by destruct q. }
    split; [by apply same_state_reads|]. exists xs, m'. split_and!; [done..|].
    eapply steps_trans; [by apply (same_state_alive (m :: held) xs k s _ S2)|]. apply steps_refl. apply (alive_flags m); [done|]. by apply (same_state_alive (m :: held) xs k s _ S2).
Qed.

(** Another thread settles what it holds. *)
Lemma others_settle_alive ms : forall held xs k s, alive (ms ++ held) xs k s ->
  qwp (others_settle ms) (fun _ s' => (reads s -> reads s') /\ exists xs', steps held xs' k s s') s.
Proof.
  induction ms as [|m ms IH]; intros held xs k s HA; simpl.
  - q_step. split; [done|]. exists xs. by apply steps_refl.
  - q_step. unfold other_settles. q_step. eapply qwp_mono; [by eapply Enqueue_alive|]. intros [ok p] s1 (R1 & xs1 & H1'). cbn beta. q_step.
    assert (A1 : alive (ms ++ held) xs1 k s1 /\ later s s1 /\ same_serial s s1).
    { destruct ok; [destruct H1' as (_ & ? & ? & ?); by split_and!|]. destruct H1' as (m' & _ & _ & A & ? & ?). split_and!; [|done..].
      eapply alive_sub; [|exact A]. by constructor. }
    eapply qwp_mono; [eapply IH; by apply A1|]. intros [] s2 (R2 & xs2 & S2). split; [auto|]. exists xs2. eapply steps_trans; [|exact S2].
    destruct A1 as (A & L & S). by split_and!.
Qed.

(** ** References *)

Lemma on_queue_same f q s : qs_queue s = Some q -> on_queue f s = inr ((), mkQS (Some (f q)) (qs_errno s) (qs_net s)).
Proof. intros E. unfold on_queue, mbind, QM_bind, the_queue. by rewrite E. Qed.

(** A change of the references and of the flag. *)
Lemma alive_refs held xs k k' s q q' : alive held xs k s -> qs_queue s = Some q -> counted q' k' ->
  (q_pReadSocket q', q_pWriteSocket q', q_pendingSettlements q', q_readConnectionSerial q') =
  (q_pReadSocket q, q_pWriteSocket q, q_pendingSettlements q, q_readConnectionSerial q) ->
  alive held xs k' (mkQS (Some q') (qs_errno s) (qs_net s)).
Proof.
  intros (q0 & E0 & Hr & Hp & _ & Hl) E Hc [= E1 E2 E3 E4]. rewrite E in E0. injection E0 as <-. exists q'. split; [done|]. split_and!.
  - destruct Hr. split; simpl; by rewrite ?E1, ?E2.
  - destruct Hp as (l & El & ?). exists l. by rewrite E3.
  - done.
  - simpl. intros Hg. destruct (Hl Hg) as [L1 L2 L3 L4 L5 L6]. split; try done; simpl; [by rewrite E4|by rewrite E1].
Qed.

(** The queue is not being freed. *)
Definition referenced (s : QS) : Prop := exists q, qs_queue s = Some q /\ 1 <= q_refs q.

Lemma referenced_held held xs k s : alive held xs k s -> 1 <= k -> referenced s.
Proof. intros (q & E & _ & _ & (Hr & _) & _) Hk. exists q. split; [done|]. destruct (q_bShuttingDown q); lia. Qed.

Lemma Retain_alive held xs k s : alive held xs k s -> referenced s -> k < 2 ^ 32 - 3 ->
  qwp Queue_Retain (fun ok s' => ok = true /\ alive held xs (k + 1) s' /\ qs_net s' = qs_net s /\
    exists q, qs_queue s = Some q /\ qs_queue s' = Some (set_refs q (u32 (q_refs q + 1)))) s.
Proof.
  intros HA (q & E & Hq) Hk. pose proof HA as (q' & E' & _ & _ & Hc & _). rewrite E in E'. injection E' as <-.
  unfold Queue_Retain. q_step. apply (qwp_queue q); [done|].
  replace (q_refs q == 0) with false by lia. q_step. apply (qwp_on_queue _ q); [done|]. q_step. split_and!; [done| |done|by exists q].
  apply (alive_refs held xs k (k + 1) s q (set_refs q (u32 (q_refs q + 1)))); [done..| |done]. destruct Hc as (Hr & Hk0 & Hb).
  unfold counted. simpl. unfold u32. rewrite wrap_small by (unfold in_width; lia).
  destruct (q_bShuttingDown q); lia.
Qed.

Lemma Destroy_simple l xs : contents l xs -> simple l -> exists u, List_Destroy (Some l) () = Some u.
Proof.
  intros Hc Hs. destruct (simple_known l Hs) as (Hk & _). destruct (Clear_all l xs () Hc Hk) as (l' & E & _).
  unfold List_Destroy, List_Clear. rewrite E. by eexists.
Qed.

Lemma Socket_Close_run p s : qwp (AMQP_Socket_Close p) (fun _ s' => nt_arrivals (qs_net s') = nt_arrivals (qs_net s) /\ nt_open (qs_net s') = nt_open (qs_net s) ∖ conn_set p /\
  exists es, nt_log (qs_net s') = nt_log (qs_net s) ++ es /\ Forall neutral es) s.
Proof.
  destruct p as [so|]; simpl; q_step.
  - split_and!; [done|done|]. eexists. split; [done|]. by repeat constructor.
  - split_and!; [done|set_solver|]. exists []. by rewrite app_nil_r.
Qed.

(** The end of a queue: both connections are closed. *)
Lemma Final_Destroy_gone held xs k s : alive held xs k s -> qwp Queue_Final_Destroy (fun _ s' => gone s' /\ later s s') s.
Proof.
  intros HA. pose proof HA as (q & E & _). unfold Queue_Final_Destroy. q_step. apply (qwp_on_queue _ q); [done|]. q_step.
  match goal with |- qwp _ _ ?sx => set (s1 := sx) end.
  assert (A1 : alive held xs k s1).
  { eapply (alive_refs held xs k k s q); [done..| |done]. destruct HA as (q' & E' & _ & _ & Hc & _). rewrite E in E'. by injection E' as <-. }
  apply (qwp_queue (set_heartbeat q false)); [done|]. q_step.
  apply (qwp_mono _ (fun _ s2 => exists xs2, alive held xs2 k s2 /\ later s s2)).
  { destruct (q_pReadSocket _); [|q_step; exists xs; split; [done|by apply net_later]].
    q_step. eapply qwp_mono; [by apply Process_alive|]. intros ok s2 (xs2 & _ & (A2 & L2 & _) & _). cbn beta. unfold Queue_EndReading.
    do 3 q_step. by exists xs2. }
  intros [] s2 (xs2 & A2 & L2). q_step. pose proof A2 as (q2 & E2 & Hr2 & Hp2 & Hc2 & Hl2). apply (qwp_queue q2); [done|].
  destruct Hr2 as [Ro Ra Rf Rn]. destruct Hp2 as (l & El & Hco & Hs). destruct (Destroy_simple l xs2 Hco Hs) as [u Eu]. rewrite El.
  assert (Hend : forall s3 es, nt_log (qs_net s3) = nt_log (qs_net s2) ++ es -> Forall neutral es -> nt_open (qs_net s3) = ∅ ->
    nt_arrivals (qs_net s3) = nt_arrivals (qs_net s2) ->
    qwp (qm_deref (List_Destroy (Some l) ())) (fun _ s' => qwp (mret ()) (fun _ s' => qwp (set_queue None) (fun _ s' =>
      gone s' /\ later s s') s') s') s3).
  { intros s3 es L3 N3 O3 Ar3. rewrite Eu. simpl. q_step. q_step. unfold qwp, set_queue. simpl. split.
    - split_and!; [done|done|]. simpl. rewrite L3. intros Hg. apply neutral_orderly; [done|]. eapply lg_order, Hl2. by eapply good_prefix.
    - etrans; [exact L2|]. by apply (later_log _ _ es). }
  q_step. eapply qwp_mono; [apply Socket_Close_run|]. intros [] s3 (Ar3 & O3 & es3 & L3 & N3). q_step.
  eapply qwp_mono; [apply Socket_Close_run|]. intros [] s4 (Ar4 & O4 & es4 & L4 & N4). do 2 q_step.
  apply (Hend s4 (es3 ++ es4)); [by rewrite L4, L3, app_assoc|by apply Forall_app| |by rewrite Ar4]. rewrite O4, O3, Ro. clear. set_solver.
Qed.

(** Dropping a reference: the queue is freed with the last one. *)
Lemma Release_alive held xs k s : alive held xs k s -> 1 <= k ->
  qwp Queue_Release (fun _ s' => later s s' /\ (alive held xs (k - 1) s' /\ qs_net s' = qs_net s /\ referenced s' \/
    gone s' /\ k = 1 /\ exists q, qs_queue s = Some q /\ q_bShuttingDown q = true)) s.
Proof.
  intros HA Hk. pose proof HA as (q & E & _ & _ & (Hr & Hk0 & Hb) & _). unfold Queue_Release. q_step. apply (qwp_queue q); [done|].
  q_step. apply (qwp_on_queue _ q); [done|].
  assert (Eu : u32 (q_refs q - 1) = q_refs q - 1) by (unfold u32; apply wrap_small; unfold in_width; destruct (q_bShuttingDown q); lia).
  match goal with |- qwp _ _ ?sx => set (s1 := sx) end.
  assert (A1 : alive held xs (k - 1) s1).
  { eapply (alive_refs held xs k (k - 1) s q); [done..| |done]. unfold counted. simpl. rewrite Eu. destruct (q_bShuttingDown q); lia. }
  destruct (Z.eqb_spec (q_refs q) 1) as [E1|E1].
  - eapply qwp_mono; [by eapply Final_Destroy_gone|]. intros [] s' [G L]. split; [done|]. right. split; [done|].
    destruct (q_bShuttingDown q) eqn:Es; [|lia]. split; [lia|]. by exists q.
  - q_step. split; [by apply net_later|]. left. split_and!; [done|done|]. eexists. split; [done|]. simpl. rewrite Eu.
    destruct (q_bShuttingDown q); lia.
Qed.

(** Termination by another thread while a call is under way. *)
Lemma Terminate_alive held xs k s : alive held xs k s -> 1 <= k ->
  qwp Queue_Terminate (fun _ s' => (reads s -> reads s') /\ steps held xs k s s') s.
Proof.
  intros HA Hk. pose proof HA as (q & E & _ & _ & (Hr & Hk0 & Hb) & _). unfold Queue_Terminate. q_step. apply (qwp_queue q); [done|].
  q_step. apply (qwp_on_queue _ q); [done|].
  assert (Hrd : forall q' e n, q_pReadSocket q' = q_pReadSocket q -> reads s -> reads (mkQS (Some q') e n)).
  { intros q' e n Eq' (q0 & so & E0 & Er0). exists q', so. split; [done|]. rewrite Eq'. congruence. }
  destruct (q_bShuttingDown q) eqn:Es.
  - q_step. split; [by apply Hrd|]. split_and!; [|by apply net_later|by eapply same_serial_eq].
    eapply (alive_refs held xs k k s q); [done..| |done]. unfold counted. simpl. lia.
  - unfold Queue_Release. q_step. eapply qwp_queue; [done|]. q_step. eapply qwp_on_queue; [done|]. simpl.
    replace (q_refs q == 1) with false by lia. q_step. split; [by apply Hrd|]. split_and!; [|by apply net_later|by eapply same_serial_eq].
    eapply (alive_refs held xs k k s q (set_refs (set_shutting q true) (u32 (q_refs q - 1)))); [done..| |done]. unfold counted. simpl.
    unfold u32. rewrite wrap_small by (unfold in_width; lia). lia.
Qed.

(** Code that allocates, by what its results satisfy. *)
Lemma qwp_ensures {A} (m : M A) P Q s : ensures m P ->
  (forall r o, (forall x, r = Some x -> P x) -> Q r (mkQS (qs_queue s) (qs_errno s) (set_mem (qs_net s) o))) -> qwp (in_mem m) Q s.
Proof.
  intros He HQ. unfold qwp, in_mem. destruct (He (nt_allocs (qs_net s))) as (r & o & -> & HP). by apply HQ.
Qed.

(** ** Waiting *)

Lemma settled_delivered log d : orderly log -> d ∈ settlements log -> d ∈ deliveries log.
Proof.
  intros Ho Hd. unfold settlements in Hd. apply list_elem_of_omap in Hd as (e & He & Hs). apply list_elem_of_lookup in He as [i Hi].
  destruct (Ho i e d Hi Hs) as [Hin _]. unfold deliveries in Hin |- *. rewrite <- (take_drop i log), omap_app. apply elem_of_app. by left.
Qed.

(** A delivery on the connection that is consumed from is owed a settlement. *)
Lemma ledger_deliver q ms n so tag m : ledger q ms n -> q_pReadSocket q = Some so -> good (nt_log n ++ [E_Deliver (so_pConn so) tag]) ->
  key m = (q_readConnectionSerial q, tag) -> ledger q (m :: ms) (add_event n (E_Deliver (so_pConn so) tag)).
Proof.
  intros HL Er (Hnd & _) [= Hs Ht]. destruct (ledger_current _ _ _ _ HL Er) as [H1 Hc]. destruct HL as [L1 L2 L3 L4 L5 [L6 L7]].
  rewrite deliveries_app in Hnd. apply NoDup_app in Hnd as (_ & Hnd & _).
  assert (Hnew : (so_pConn so, tag) ∉ deliveries (nt_log n)).
  { intros Hin. apply (Hnd _ Hin). simpl. apply list_elem_of_singleton. done. }
  split; simpl; rewrite ?consumed_app, ?app_nil_r; try done.
  - by apply orderly_snoc.
  - split.
    + constructor.
      * exists (so_pConn so). rewrite Hs, Ht, consumed_app, deliveries_app, settlements_app, !app_nil_r. split_and!; [done|done| |].
        -- apply elem_of_app. right. by apply list_elem_of_singleton.
        -- intros Hin. by apply Hnew, settled_delivered.
      * eapply Forall_impl; [exact L6|]. intros m'. by apply owed_app.
    + simpl. constructor; [|done]. intros (m' & Hk & Hm')%list_elem_of_fmap.
      pose proof (proj1 (Forall_forall _ _) L6 m' Hm') as (c & _ & Hc' & Hd & _). unfold key in Hk. injection Hk as Hk1 Hk2.
      rewrite <- Hk1, Hs, Hc in Hc'. injection Hc' as <-. apply Hnew. by rewrite <- Ht, Hk2.
Qed.

(** A delivery is at hand: its settlement is owed by the caller. *)
Definition delivered (e : amqp_envelope) (held xs : list MessageSettlement) (k : Z) (s : QS) : Prop :=
  exists m q, qs_queue s = Some q /\ alive (m :: held) xs k s /\ ms_deliveryTag m = en_delivery_tag e /\
    (good (nt_log (qs_net s)) -> ms_connectionSerial m = q_readConnectionSerial q).

(** The delivery is among those that come. *)
Definition arrived (e : amqp_envelope) (s : QS) : Prop := exists a, a ∈ nt_arrivals (qs_net s) /\ ar_reply a = Delivered e.

Lemma arrived_later e s s' : later s s' -> arrived e s' -> arrived e s.
Proof. intros [_ [r E]] (a & Ha & Hr). exists a. split; [|done]. rewrite E. apply elem_of_app. by right. Qed.

Lemma arrivals_alive held xs k s a r : alive held xs k s -> nt_arrivals (qs_net s) = a :: r ->
  alive (ar_settlements a ++ held) xs k (mkQS (qs_queue s) (qs_errno s) (set_arrivals (qs_net s) r)).
Proof.
  intros (q & E & [] & Hp & Hc & Hl) Ea. exists q. split_and!; [done|by split|done|done|]. simpl. intros Hg.
  destruct (Hl Hg) as [L1 L2 L3 L4 L5 L6]. split; try done. eapply owing_sub; [|exact L6]. unfold coming. rewrite Ea. simpl.
  apply submseteq_app; [done|]. rewrite <- app_assoc. by rewrite Permutation_app_swap_app.
Qed.

Lemma consume_alive held xs k q so s : alive held xs k s -> 1 <= k -> qs_queue s = Some q -> q_pReadSocket q = Some so ->
  qwp (amqp_consume_message (so_pConn so)) (fun r s' => reads s' /\ later s s' /\ exists xs',
    match r with
    | Delivered e => delivered e held xs' k s' /\ arrived e s
    | _ => alive held xs' k s'
    end) s.
Proof.
  intros HA Hk E Er. assert (Hrd : reads s) by (by exists q, so). unfold qwp, amqp_consume_message.
  destruct (nt_arrivals (qs_net s)) as [|a r] eqn:Ea; [split_and!; [done|done|by exists xs]|].
  match goal with |- match ?m s with _ => _ end => change (qwp m (fun r s' => reads s' /\ later s s' /\ exists xs',
    match r with Delivered e => delivered e held xs' k s' /\ arrived e s | _ => alive held xs' k s' end) s) end.
  q_step. q_step. q_step. set (s0 := mkQS (qs_queue s) (qs_errno s) (set_arrivals (qs_net s) r)).
  assert (A0 : alive (ar_settlements a ++ held) xs k s0) by by apply arrivals_alive.
  assert (R0 : reads s0) by done.
  eapply qwp_mono; [by eapply others_settle_alive|]. intros [] s1 (R1 & xs1 & S1). q_step.
  apply (qwp_mono _ (fun _ s2 => reads s2 /\ steps held xs1 k s0 s2)).
  { destruct (ar_terminate a); [|q_step; auto]. eapply qwp_mono; [apply Terminate_alive; [by apply S1|done]|].
    intros [] s2 (R2 & S2). split; [auto|]. by eapply steps_trans. }
  intros [] s2 (R2 & A2 & L2 & Se2). q_step.
  assert (L2' : later s s2).
  { destruct L2 as [Ll La]. split; [exact Ll|]. rewrite Ea. simpl in La. etrans; [exact La|]. by exists [a]. }
  destruct (ar_reply a) as [e| |] eqn:Erep; q_step; q_step; [|by split_and!; [| |exists xs1]..].
  destruct A2 as (q2 & E2 & Hr2 & Hp2 & Hc2 & Hl2). destruct R2 as (? & so2 & E2' & Er2). rewrite E2 in E2'. injection E2' as <-.
  split_and!; [by exists q2, so2| |].
  { etrans; [exact L2'|]. by eapply later_log. }
  exists xs1. split; [|exists a; split; [rewrite Ea; by left|done]].
  exists (mkSettlement (en_delivery_tag e) (q_readConnectionSerial q2) false false), q2. split_and!; [done| |done|done].
  exists q2. split_and!; [done|destruct Hr2; by split|done|done|]. simpl. intros Hg.
  assert (Hg2 : good (nt_log (qs_net s2))) by by eapply good_prefix. specialize (Hl2 Hg2).
  (* the connection is that of the call *)
  assert (Ec : so_pConn so = so_pConn so2).
  { pose proof HA as (q' & Eq' & _ & _ & _ & Hl). rewrite E in Eq'. injection Eq' as <-.
    assert (Hg0 : good (nt_log (qs_net s))) by by eapply later_good. specialize (Hl Hg0).
    pose proof (lg_reader _ _ _ Hl so Er) as H1. pose proof (lg_reader _ _ _ Hl2 so2 Er2) as H2.
    pose proof (lg_serial _ _ _ Hl) as H3. pose proof (lg_serial _ _ _ Hl2) as H4.
    assert (Hser : q_readConnectionSerial q2 = q_readConnectionSerial q) by by apply Se2.
    destruct L2' as [[es El] _]. rewrite El, consumed_app in H2, H4. rewrite length_app in H4.
    assert (consumed es = []) as Ece by (destruct (consumed es); [done|simpl in H4; lia]). rewrite Ece, app_nil_r in H2. congruence. }
  rewrite Ec in *. eapply (ledger_deliver q2 _ _ so2 (en_delivery_tag e) (mkSettlement (en_delivery_tag e) (q_readConnectionSerial q2) false false)) in Hl2; [|done..]. destruct Hl2. split; try done.
  simpl in *. eapply owing_sub; [|eassumption]. simpl. rewrite app_assoc, <- Permutation_middle, <- app_assoc. done.
Qed.

(** A run that either satisfies [qwp] or, without a timeout, never ends. *)
Definition qor {A} (waits : Prop) (m : QM A) (Q : A -> QS -> Prop) (s : QS) : Prop := (m s = inl Deadlock /\ waits) \/ qwp m Q s.

Lemma qor_bind {A B} waits (m : QM A) (f : A -> QM B) R Q s : qwp m R s -> (forall x s', R x s' -> qor waits (f x) Q s') ->
  qor waits (m ≫= f) Q s.
Proof.
  intros Hm Hf. apply qwp_inv in Hm as (x & s' & E & HR). unfold qor, qwp, mbind, QM_bind. rewrite E. by apply Hf.
Qed.

Lemma qor_bind' {A B} waits (m : QM A) (f : A -> QM B) R Q s : qor waits m R s -> (forall x s', R x s' -> qwp (f x) Q s') ->
  qor waits (m ≫= f) Q s.
Proof.
  intros [[E Hw]|Hm] Hf; [left; unfold mbind, QM_bind; by rewrite E|right]. q_step. by eapply qwp_mono.
Qed.

Lemma qor_ret {A} waits (x : A) (Q : A -> QS -> Prop) s : Q x s -> qor waits (mret x) Q s.
Proof. by right. Qed.

(** The state after the loop. *)
Definition wait_post (held : list MessageSettlement) (k : Z) (s : QS) (w : waited) (s' : QS) : Prop :=
  later s s' /\ exists xs', match w with
  | W_envelope e => delivered e held xs' k s' /\ reads s' /\ arrived e s
  | W_cleanup (Some e) => delivered e held xs' k s' /\ reads s' /\ arrived e s
  | W_cleanup None => alive held xs' k s'
  end.

Lemma wait_post_later held k s s1 w s' : later s s1 -> wait_post held k s1 w s' -> wait_post held k s w s'.
Proof.
  intros L [L' (xs' & H')]. split; [by etrans|]. exists xs'. destruct w as [e|[e|]]; [| |done];
    (destruct H' as (? & ? & ?); split_and!; [done..|by eapply arrived_later]).
Qed.

Lemma errno_alive held xs k s e : alive held xs k s -> alive held xs k (mkQS (qs_queue s) e (qs_net s)).
Proof. done. Qed.

Lemma Service_steps held xs k p s : alive held xs k s ->
  qwp (AMQP_Service_Connection p) (fun _ s' => alive held xs k s' /\ later s s' /\ qs_queue s' = qs_queue s) s.
Proof.
  intros HA. unfold qwp, AMQP_Service_Connection. destruct p; [|done]. destruct (service_frames _) as [ok r].
  destruct HA as (q & E & [] & Hp & Hc & Hl). split_and!; [|by apply (later_log _ _ []); [rewrite app_nil_r|]|done].
  exists q. split_and!; [done|by split|done|done|]. simpl. intros Hg. destruct (Hl Hg). by split.
Qed.

Lemma Service_alive held xs k p s : alive held xs k s -> reads s ->
  qwp (AMQP_Service_Connection p) (fun _ s' => alive held xs k s' /\ later s s' /\ reads s') s.
Proof.
  intros HA (q & so & E & Er). eapply qwp_mono; [by apply Service_steps|]. intros b s' (A' & L' & E'). split_and!; [done..|].
  exists q, so. split; [congruence|done].
Qed.

(** The time that is left suffices for the polls that are left. *)
Definition enough (fuel : nat) (timeout remaining : Z) : Prop := timeout = 0 \/ 0 < timeout /\ 0 < remaining <= 100 * Z.of_nat fuel.

Lemma wait_alive held k timeout fuel : 1 <= k -> forall remaining xs s, alive held xs k s -> reads s -> enough fuel timeout remaining ->
  qor (timeout = 0) (wait_loop fuel timeout remaining) (wait_post held k s) s.
Proof.
  intros Hk. induction fuel as [|fuel IH]; intros remaining xs s HA HR He.
  { destruct He as [->|[_ He]]; [by left|simpl in He; lia]. }
  simpl. pose proof HR as (q & so & E & Er).
  apply (qor_bind _ _ _ (fun x s' => x = q /\ s' = s)); [by eapply qwp_queue|]. intros ? ? [-> ->]. rewrite Er. simpl.
  apply (qor_bind _ _ _ (fun x s' => x = so /\ s' = s)); [done|]. intros ? ? [-> ->].
  eapply qor_bind; [by eapply consume_alive|]. intros res s1 (R1 & L1 & xs1 & H1').
  destruct res as [e| |].
  - right. destruct H1' as [(m & q1 & E1 & A1 & Ht & Hs) Harr]. q_step. eapply qwp_mono; [by apply Process_alive|].
    intros ok s2 (xs2 & _ & (A2 & L2 & Se2) & R2). cbn beta. q_step.
    + do 3 q_step. split; [by etrans|]. exists xs2. eapply errno_alive, alive_sub; [|exact A2]. by constructor.
    + destruct (alive_queue _ _ _ _ A2) as [q2 E2]. q_step. apply (qwp_queue q2); [done|].
      assert (HD : delivered e held xs2 k s2 /\ reads s2 /\ arrived e s).
      { split_and!; [|destruct ok; [by apply R2|done]|done]. exists m, q2. split_and!; [done..|]. intros Hg. rewrite Hs by (by eapply later_good).
        symmetry. by apply Se2. }
      q_step; q_step; (split; [by etrans|]); by exists xs2.
  - apply (qor_bind _ _ _ (fun _ s' => s' = mkQS (qs_queue s1) EAGAIN (qs_net s1))); [done|]. intros ? ? ->.
    pose proof R1 as (q1 & so1 & E1 & Er1).
    set (s1' := mkQS (qs_queue s1) EAGAIN (qs_net s1)).
    apply (qor_bind _ _ _ (fun x s' => x = q1 /\ s' = s1')); [by eapply qwp_queue|]. intros ? ? [-> ->].
    eapply qor_bind; [by apply (Service_alive held xs1 k (q_pReadSocket q1) s1')|]. intros ok s2 (A2 & L2 & R2).
    assert (L02 : later s s2) by (by etrans; [exact L1|]).
    destruct ok; simpl.
    + eapply qor_bind; [by apply Process_alive|]. intros ok s3 (xs3 & _ & (A3 & L3 & _) & R3).
      assert (L03 : later s s3) by (by etrans). destruct ok; simpl.
      2: { right. do 3 q_step. split; [done|]. by exists xs3. }
      specialize (R3 eq_refl). pose proof R3 as (q3 & so3 & E3 & Er3).
      apply (qor_bind _ _ _ (fun x s' => x = q3 /\ s' = s3)); [by eapply qwp_queue|]. intros ? ? [-> ->].
      destruct (q_bShuttingDown q3). { right. q_step. split; [done|]. by exists xs3. }
      destruct (Z.eqb_spec timeout 0) as [Et|Et].
      { destruct (IH remaining xs3 s3 A3 R3 (or_introl Et)) as [?|Hw]; [by left|right]. eapply qwp_mono; [exact Hw|].
        intros w s'. by apply wait_post_later. }
      destruct He as [?|[Ht He]]; [done|]. replace (0 <? timeout) with true by lia. cbn [andb].
      unfold QUEUE_GET_POLL_TIMEOUT_MS. destruct (Z.leb_spec remaining (if remaining <? 100 then remaining else 100)) as [Hle|Hgt].
      { right. q_step. split; [done|]. by exists xs3. }
      destruct (Z.ltb_spec remaining 100) as [?|Hge]; [lia|].
      destruct (IH (remaining - 100) xs3 s3 A3 R3) as [?|Hw]; [right; lia|by left|right]. eapply qwp_mono; [exact Hw|].
      intros w s'. by apply wait_post_later.
    + eapply qor_bind; [by eapply Reconnect_alive|]. intros ok s3 (A3 & L3). assert (L03 : later s s3) by (by etrans).
      destruct (alive_queue _ _ _ _ A3) as [q3 E3].
      apply (qor_bind _ _ _ (fun x s' => x = q3 /\ s' = s3)); [by eapply qwp_queue|]. intros ? ? [-> ->].
      destruct (negb ok || _) eqn:Eb. { right. do 3 q_step. split; [done|]. by exists xs1. }
      apply orb_false_iff in Eb as [_ Eb]. assert (R3 : reads s3) by (destruct (q_pReadSocket q3) as [so3|] eqn:Er3; [by exists q3, so3|done]).
      destruct (Z.eqb_spec timeout 0) as [Et|Et].
      { destruct (IH remaining xs1 s3 A3 R3 (or_introl Et)) as [?|Hw]; [by left|right]. eapply qwp_mono; [exact Hw|].
        intros w s'. by apply wait_post_later. }
      right. do 3 q_step. split; [done|]. by exists xs1.
  - right. q_step. eapply qwp_mono; [by eapply Reconnect_alive|]. intros ok s2 (A2 & L2). cbn beta. q_step. split; [by etrans|]. by exists xs1.
Qed.

Lemma polls_enough timeout arrivals : 0 <= timeout -> enough (polls timeout arrivals) timeout timeout.
Proof.
  intros Ht. unfold enough, polls, QUEUE_GET_POLL_TIMEOUT_MS. destruct (Z.eqb_spec timeout 0) as [->|Hn]; [by left|right].
  split; [lia|]. split; [lia|]. pose proof (Z.div_mod (timeout + 100 - 1) 100 ltac:(lia)). pose proof (Z.mod_pos_bound (timeout + 100 - 1) 100 ltac:(lia)).
  assert (0 <= (timeout + 100 - 1) / 100) by (apply Z.div_pos; lia). lia.
Qed.

(** ** Calls *)

(** The state after a call: the queue is still there, or it was terminated during the
    call and this was the last one. *)
Definition after (held : list MessageSettlement) (k : Z) (s s' : QS) : Prop :=
  later s s' /\ ((exists xs', alive held xs' k s' /\ referenced s') \/ gone s').

Lemma release_after held xs k s s1 : alive held xs (k + 1) s1 -> 0 <= k -> later s s1 ->
  qwp Queue_Release (fun _ s' => after held k s s') s1.
Proof.
  intros HA Hk L. eapply qwp_mono; [apply (Release_alive held xs (k + 1)); [done|lia]|].
  intros [] s' (L' & H'). split; [by etrans|]. destruct H' as [(A' & _ & R')|[G _]]; [|by right].
  left. exists xs. split; [|done]. by replace (k + 1 - 1) with k in A' by lia.
Qed.

Lemma alive_count held xs k s : alive held xs k s -> 0 <= k.
Proof. by intros (q & _ & _ & _ & (_ & Hk & _) & _). Qed.

(** A delivery that is at hand is settled. *)
Lemma settle_delivered e held xs k s f : delivered e held xs k s -> reads s -> (forall c, settled_by (f c) = Some (c, en_delivery_tag e)) ->
  qwp (settle f) (fun _ s' => alive held xs k s' /\ later s s') s.
Proof.
  intros (m & q & E & HA & Ht & Hs) (q' & so & E' & Er) Hf. rewrite E in E'. injection E' as <-.
  eapply qwp_mono; [eapply (settle_alive held xs k q so m); [done..|]; intros c; by rewrite Ht|]. intros ok s' (A' & L' & _). done.
Qed.

Lemma delivered_same e held xs k s s' : same_state s s' -> delivered e held xs k s -> delivered e held xs k s'.
Proof.
  intros S (m & q & E & HA & Ht & Hs). destruct (same_state_alive _ _ _ _ _ S HA) as (HA' & _). exists m, q. destruct S as [E' [o N]].
  split_and!; [by rewrite E'|done|done|]. rewrite N. done.
Qed.

Lemma same_later s s' : same_state s s' -> later s s'.
Proof. intros [_ [o N]]. apply (later_log _ _ []); rewrite N; simpl; [by rewrite app_nil_r|done]. Qed.

(** A call between the reference it takes and the one it drops. *)
Lemma retained_after {A} (fallback : A) (m : QM A) (held : list MessageSettlement) (held' : A -> list MessageSettlement) xs k s :
  alive held xs k s -> referenced s -> k < 2 ^ 32 - 3 ->
  (forall s1, alive held xs (k + 1) s1 -> qs_net s1 = qs_net s ->
    qwp m (fun x s2 => later s1 s2 /\ exists xs2, alive (held' x) xs2 (k + 1) s2) s1) ->
  qwp (retained fallback m) (fun x s' => after (held' x) k s s') s.
Proof.
  intros HA HR Hk Hm. pose proof (alive_count _ _ _ _ HA) as Hk0. unfold retained. q_step. eapply qwp_mono; [by eapply Retain_alive|].
  intros ok s1 (-> & A1 & N1 & _). simpl. q_step. eapply qwp_mono; [by apply Hm|]. intros x s2 (L2 & xs2 & A2). cbn beta.
  q_step. eapply qwp_mono; [eapply (release_after (held' x) xs2 k s); [done|done|]|].
  { etrans; [by apply net_later|exact L2]. }
  intros [] s3 H3. by q_step.
Qed.

(** Settling a message: its settlement is enqueued, or still owed. *)
Lemma settle_message_after m held xs k ack rq s : alive (m :: held) xs k s -> referenced s -> k < 2 ^ 32 - 3 ->
  qwp (Queue_Settle_Message (Some m) ack rq) (fun r s' => after (match r.2 with Some m' => m' :: held | None => held end) k s s' /\
    (r.1 = true <-> r.2 = None) /\ forall m', r.2 = Some m' -> key m' = key m) s.
Proof.
  intros HA HR Hk. unfold Queue_Settle_Message, retained. pose proof (alive_count _ _ _ _ HA) as Hk0.
  q_step. eapply qwp_mono; [by eapply Retain_alive|]. intros ok s1 (-> & A1 & N1 & _). simpl.
  q_step. eapply qwp_mono; [by eapply Enqueue_alive|]. intros [ok p] s2 (_ & xs2 & H2'). cbn beta.
  assert (L1 : later s s1) by by apply net_later.
  destruct ok; [destruct H2' as (-> & A2 & L2 & _)|destruct H2' as (m' & -> & Hkey & A2 & L2 & _)];
    (q_step; eapply qwp_mono; [eapply (release_after _ xs2 k s); [exact A2|done|by etrans]|]); intros [] s3 K3; q_step; simpl; (split; [done|split; [done|]]).
  - by intros m'.
  - by intros ? [= <-].
Qed.

Lemma Heartbeat_alive held xs k s : alive held xs k s -> qwp AMQP_Heartbeat (fun _ s' => alive held xs k s' /\ later s s') s.
Proof.
  intros HA. destruct (alive_queue _ _ _ _ HA) as [q E]. unfold AMQP_Heartbeat. q_step. apply (qwp_queue q); [done|].
  q_step; [by q_step|]. assert (Hrec : forall s1, alive held xs k s1 -> later s s1 ->
    qwp (Queue_Reconnect QUEUE_FLAG_SEND ;; mret ()) (fun _ s' => alive held xs k s' /\ later s s') s1).
  { intros s1 A1 L1. q_step. eapply qwp_mono; [by apply Reconnect_alive|]. intros b s2 (A2 & L2). cbn beta. q_step. split; [done|by etrans]. }
  destruct (q_pWriteSocket q) as [so|]; [|by apply Hrec].
  q_step. eapply qwp_mono; [by apply Service_steps|]. intros ok s1 (A1 & L1 & _). cbn beta. q_step; [by apply Hrec|by q_step].
Qed.

(** The owner terminates the queue: it is freed unless calls are under way. *)
Lemma Terminate_after held xs k s : alive held xs k s -> referenced s -> qwp Queue_Terminate (fun _ s' => later s s' /\
  ((exists xs', alive held xs' k s' /\ referenced s' /\ 1 <= k) \/ gone s' /\ k = 0)) s.
Proof.
  intros HA (q & E & Hq). pose proof HA as (q' & E' & _ & _ & (Hr & Hk & Hb) & _). rewrite E in E'. injection E' as <-.
  destruct (decide (1 <= k)) as [H1|H1].
  { eapply qwp_mono; [by apply Terminate_alive|]. intros [] s' (_ & A' & L' & _). split; [done|]. left. exists xs. split_and!; [done| |done].
    by eapply referenced_held. }
  assert (k = 0) as -> by lia. destruct (q_bShuttingDown q) eqn:Es; [lia|]. unfold Queue_Terminate. q_step. apply (qwp_queue q); [done|].
  q_step. apply (qwp_on_queue _ q); [done|]. rewrite Es. unfold Queue_Release. q_step. eapply qwp_queue; [done|]. q_step. eapply qwp_on_queue; [done|].
  simpl. replace (q_refs q == 1) with true by lia.
  eapply qwp_mono; [eapply (Final_Destroy_gone held xs 0)|].
  - eapply (alive_refs held xs 0 0 s q (set_refs (set_shutting q true) (u32 (q_refs q - 1)))); [done..| |done]. unfold counted. simpl.
    unfold u32. rewrite wrap_small by (unfold in_width; lia). lia.
  - intros [] s' (G & L). split; [etrans; [by apply net_later|exact L]|]. right. by split.
Qed.
