(* ===== verification/QueueGet.v ===== *)
(** * Receiving from a queue: src/queue.c

    What becomes of a delivery: [read_envelope] never crashes on one that names a type
    whose functions stand arbitrary texts ([tame]), and [Queue_Get_Ex] keeps the state
    of the queue, hands out the settlement of the message it returns, and ends. *)

From S2P Require Import Prelude CLib RzbList RzbListProps ListM Hash LibUuid Uuids Ntlv Blocks JsonC JsonBuffer JsonObjects JsonSafety JsonText Messages MessageCodecs CncMessages MessageProps CncThms MessageSafety Entities BlockPool Transfer Queue QueueProps QueueRuns Prelude.

Local Open Scope Z_scope.

(** ** Inspection submissions *)

Section Fields.
Context `{EVP} `{LibUuid} {B : Type} `{!BodyType B}.
Variable P : B -> Prop.

(** The function returns, changes only the body, and keeps [P] of it. *)
Definition keeps_with {A} (c : MM A) : Prop := forall m b o, m_message m = Some (Messages.inj b) -> P b ->
  exists r b' o', c m o = Some (r, with_body m (Some (Messages.inj b')), o') /\ P b'.

Lemma with_bind {A C} (c : MM A) (k : A -> MM C) : keeps_with c -> (forall x, keeps_with (k x)) -> keeps_with (c ≫= k).
Proof.
  intros Hc Hk m b o Hm Hb. destruct (Hc m b o Hm Hb) as (r & b1 & o1 & E & H1). unfold mbind, MM_bind. rewrite E.
  destruct r as [x|]; [|by eexists _, _, _].
  destruct (Hk x (with_body m (Some (Messages.inj b1))) b1 o1 eq_refl H1) as (r2 & b2 & o2 & E2 & H2). rewrite E2. by eexists _, _, _.
Qed.

Lemma with_fill {A} (set : A -> B -> B) (get : M A) Q : ensures get Q -> (forall x b, Q x -> P b -> P (set x b)) -> keeps_with (fill set get).
Proof.
  intros Hg Hs m b o Hm Hb. destruct (Hg o) as (r & o' & E & HQ). unfold fill. unfold mbind at 1, MM_bind at 1. rewrite (lift_run _ m o _ _ E).
  destruct r as [x|].
  - eexists _, (set x b), o'. split; [by apply body_store_run|]. by apply Hs; [apply HQ|].
  - eexists None, b, o'. split; [|done]. by rewrite (with_body_same m _ Hm).
Qed.
End Fields.

(** The block of a submission is well-formed. *)
Definition submission_wf `{EVP} `{LibUuid} (sub : MessageInspectionSubmission) : Prop := forall b, is_pBlock sub = Some b -> wf_block b.

(** A message of the type has a body of the type, with a well-formed block. *)
Definition fits_inspection `{EVP} `{LibUuid} (m : Message) : Prop := m_type m = MESSAGE_TYPE_INSPECTION ->
  forall body, m_message m = Some body -> exists sub : MessageInspectionSubmission, Messages.proj body = Some sub /\ submission_wf sub.

Section Submission.
Context `{EVP} `{LibUuidLaws} `{JsonTextLaws} `{Base64} `{InetLaws}.
Variable sg : UuidLists.
Variable types : list UUIDListNode.
Hypothesis types_entries : entries (UUID_Get_List sg UUID_TYPE_NTLV_TYPE) types.

(** Whatever the text, a submission that is read has a well-formed block, if any. *)
Lemma InspectionSubmission_wf m t o ok m' o' : m_serialized m = Some t ->
  InspectionSubmission_Deserialize sg (Some m) o = Some (ok, Some m', o') -> m_message m' = None \/
  exists sub : MessageInspectionSubmission, m_message m' = Some (Messages.inj sub) /\ submission_wf sub.
Proof.
  intros Ht. unfold InspectionSubmission_Deserialize, on_message.
  unfold mbind at 2, MM_bind at 1, new_body. destruct (alloc_next o) as [[] o1]; cbv iota beta.
  2: { cbn. intros [= <- <- <-]. by left. }
  set (m1 := with_body m (Some (Messages.inj zero_InspectionSubmission))).
  assert (Hp : exists r o2, parse_serialized m1 o1 = Some (r, m1, o2) /\ forall j, r = Some j -> (json_depth j < JSON_TOKENER_DEFAULT_DEPTH)%nat).
  { unfold parse_serialized. rewrite (MM_bind_ok ask _ m1 o1 m1 m1 o1 eq_refl). unfold lift.
    change (m_serialized m1) with (m_serialized m). rewrite Ht. unfold deref. rewrite M_ret_bind, alloc_bind.
    destruct (fst (alloc_next o1)); [|by eexists None, _].
    exists (json_tokener_parse t). eexists. split; [unfold nonnull; by destruct (json_tokener_parse t)|].
    intros j E. by eapply parse_depth. }
  destruct Hp as (r & o2 & Ep & Hj). unfold mbind at 2, MM_bind at 1. rewrite Ep. destruct r as [j|].
  2: { cbn. intros [= <- <- <-]. right. by eexists. }
  specialize (Hj j eq_refl).
  match goal with |- (match ?k with Some _ => _ | None => _ end) = _ -> _ => idtac | |- (mbind _ (?k m1 o2)) = _ -> _ =>
    assert (Hk : keeps_with submission_wf k) end.
  { apply with_bind; [by eapply with_fill; [apply Get_uint32_ensures|]|intros _].
    apply with_bind; [by eapply with_fill; [apply Get_EventId_ensures|]|intros _].
    apply with_bind; [by eapply with_fill; [eapply (Get_NTLVList_ensures sg types types_entries)|]|intros _].
    apply with_bind; [eapply with_fill; [by eapply (Get_Block_ensures sg types types_entries)|]|intros _].
    - intros x b Hx _ b' [= <-]. done.
    - by eapply with_fill; [apply Get_uint8List_ensures|]. }
  destruct (Hk m1 zero_InspectionSubmission o2 eq_refl) as (r3 & b3 & o3 & -> & Hb3); [done|].
  cbn. intros [= <- <- <-]. right. by exists b3.
Qed.
End Submission.

(** ** Receiving a message *)

Section Receive.
Context `{EVP} `{LibUuidLaws} `{JsonTextLaws} `{Base64} `{InetLaws}.
Variable sg : UuidLists.
Variable types nts : list UUIDListNode.
Hypothesis types_entries : entries (UUID_Get_List sg UUID_TYPE_NTLV_TYPE) types.
Hypothesis nuggets_entries : entries (UUID_Get_List sg UUID_TYPE_NUGGET_TYPE) nts.
Variable handlerList : option handler_list.
Variable table : list MessageHandler.
Hypothesis Htable : handlers handlerList table.

Lemma HeaderList_Add_headers p xs n v : headers p xs ->
  ensures (Message_HeaderList_Add p (Some n) (Some v)) (fun p' => headers p' xs \/ headers p' (xs ++ [mkHeader n v])).
Proof.
  intros (l & -> & Hc & Hp & Hk). unfold Message_HeaderList_Add. m_step. replace x with l by congruence. do 5 m_step.
  match goal with |- context [list_push _ ?h] => replace h with (mkHeader n v) by congruence end.
  apply ensures_bind with (fun r => headers (snd r) xs \/ headers (snd r) (xs ++ [mkHeader n v])); [|intros [b l'] Hx; by apply ensures_ret].
  intros o. destruct (push_plain l xs (mkHeader n v) o Hc Hp) as (l' & E' & Hm & Hc').
  eexists _, _. split; [exact E'|]. intros ? [= <-]. simpl. unfold meta in Hm.
  destruct (fst (alloc_next o)); [right|left]; exists l'; (split_and!; [done|done|by eapply plain_meta|congruence]).
Qed.

(** The string that an entry of the table becomes. *)
Definition entry_value (e : amqp_table_entry) : string :=
  match te_kind e with AMQP_FIELD_KIND_UTF8 => c_string (te_bytes e +:+ te_after e) | _ => c_string (te_bytes e) end.

(** The header comes from an entry. *)
Definition from_entries (es : list amqp_table_entry) (h : MessageHeader) : Prop :=
  exists e, e ∈ es /\ mh_sName h = c_string (te_key e) /\ mh_sValue h = entry_value e.

Lemma copy_headers_ensures all es p xs : es ⊆ all -> headers p xs -> Forall (from_entries all) xs ->
  ensures (copy_headers es p) (fun p' => exists ys, headers p' ys /\ Forall (from_entries all) ys).
Proof.
  revert p xs. induction es as [|e es IH]; intros p xs Hs Hh Hf; simpl; [apply ensures_ret; by exists xs|].
  assert (He : Forall (from_entries all) [mkHeader (c_string (te_key e)) (entry_value e)]).
  { constructor; [|done]. exists e. split_and!; [set_solver|done..]. }
  assert (Hstep : forall v, v = entry_value e -> forall k, (forall p' ys, headers p' ys -> Forall (from_entries all) ys -> ensures (k p')
      (fun p' => exists ys, headers p' ys /\ Forall (from_entries all) ys)) ->
    ensures (Message_HeaderList_Add p (Some (c_string (te_key e))) (Some v) ≫= k) (fun p' => exists ys, headers p' ys /\ Forall (from_entries all) ys)).
  { intros v -> k Hk. eapply ensures_bind; [by apply HeaderList_Add_headers|]. intros p' [Hp|Hp]; eapply Hk; try done. by apply Forall_app. }
  m_step. unfold entry_value in *. destruct (te_kind e).
  - apply Hstep; [done|]. intros p' ys Hp Hy. eapply IH; [set_solver|done..].
  - apply ensures_bind with (fun p' => exists ys, headers p' ys /\ Forall (from_entries all) ys).
    + m_step. eapply ensures_weaken; [by apply HeaderList_Add_headers|]. intros p' [Hp|Hp]; eexists; split; try done. by apply Forall_app.
    + intros p' (ys & Hp & Hy). eapply IH; [set_solver|done..].
  - eapply ensures_bind; [apply (ensures_ret _ (eq p)); done|]. intros ? <-. eapply IH; [set_solver|done..].
Qed.

(** The functions of a type whose texts may be arbitrary: not the registration request
    and the configuration update, see [MessageSafety]. *)
Definition robust (c : Codec) : Prop := c <> C_RegistrationRequest /\ c <> C_ConfigUpdate.

(** The delivery names no type with other functions. *)
Definition tame (e : amqp_envelope) : Prop :=
  forall es t c, en_headers e = Some es -> t ∈ es -> c_string (te_key t) = sg_messageTypeHeaderName ->
    hd_codec <$> find_first (fun h => MessageHandler_KeyCmp [] h (strtoul32 (entry_value t)) == 0) table = Some c -> robust c.

(** Inspection submissions have the functions of inspection submissions. *)
Definition inspects : Prop := forall h,
  find_first (fun h => MessageHandler_KeyCmp [] h MESSAGE_TYPE_INSPECTION == 0) table = Some h -> hd_codec h = C_InspectionSubmission.

Definition destroyable (m : Message) : Prop := exists ps, destroy_message m = Some ps.

Lemma no_codec_destroyable m : m_codec m = None -> destroyable m.
Proof. intros Hm. unfold destroyable, destroy_message. rewrite Hm. by eexists. Qed.

Lemma destroy_fits c m : m_codec m = Some c -> robust c -> body_fits c (m_message m) -> destroyable m.
Proof.
  intros Hc [Hr Hu] Hf. unfold destroyable, destroy_message. rewrite Hc. destruct (decide (c = C_Error)) as [->|He].
  - destruct m as [ty le ve hd [[]|] se co]; cbn [m_message] in *; try done; by eexists.
  - destruct (destroy_owned c m) as (ps & E & _); [done| |done..|by exists ps].
    destruct (m_message m) as [[]|]; try done; destruct c; done.
Qed.

Lemma list_find_headers p xs k : headers p xs -> forall o,
  ListM.list_find p k o = Some (find_first (fun h => MessageHeader_KeyCmp o h k == 0) xs, o).
Proof. intros (l & -> & Hc & Hp & Hk) o. by apply find_plain. Qed.

Lemma qwp_find p xs k Q s : headers p xs ->
  (forall r, (forall h, r = Some h -> h ∈ xs /\ strcmp (mh_sName h) k = 0) -> Q r s) -> qwp (in_mem (ListM.list_find p k)) Q s.
Proof.
  intros Hh HQ. unfold qwp, in_mem. rewrite (list_find_headers p xs k Hh).
  assert (E : mkQS (qs_queue s) (qs_errno s) (set_mem (qs_net s) (nt_allocs (qs_net s))) = s) by (destruct s; simpl; by rewrite <- set_mem_same).
  rewrite E. apply HQ. intros h Ef. apply find_first_elem in Ef as [Hin Hx]. split; [done|]. by apply Z.eqb_eq in Hx.
Qed.

Lemma Setup_run m o : Message_Setup handlerList (Some m) o =
  match find_first (fun h => MessageHandler_KeyCmp o h (m_type m) == 0) table with
  | Some h => Some (true, Some (with_codec m (hd_codec h)), o)
  | None => Some (false, Some m, o)
  end.
Proof.
  destruct Htable as (l & El & Hc & Hp & Hk). rewrite El. pose proof (find_plain l table MessageHandler_KeyCmp (m_type m) o Hc Hp Hk) as Ef.
  unfold Message_Setup, on_message. destruct (find_first _ table) as [h|].
  - mm (eq_refl : ask m o = Some (Some m, m, o)). by mm (lift_run _ m o _ _ Ef).
  - mm (eq_refl : ask m o = Some (Some m, m, o)). by rewrite (MM_bind_fail _ _ _ _ _ _ (lift_run _ m o _ _ Ef)).
Qed.

Lemma same_mem s o : same_state s (mkQS (qs_queue s) (qs_errno s) (set_mem (qs_net s) o)).
Proof. split; [done|]. by exists o. Qed.

(** The part of a message that decoding fills in. *)
Definition decoded (m m' : Message) : Prop := m_headers m' = m_headers m /\ m_serialized m' = m_serialized m /\ m_length m' = m_length m /\
  (inspects -> fits_inspection m').

Lemma no_body_fits m : m_message m = None -> fits_inspection m.
Proof. intros Hm _ body Hb. by rewrite Hm in Hb. Qed.

Lemma decode_run m es ys t s : headers (m_headers m) ys -> Forall (from_entries es) ys -> m_codec m = None -> m_message m = None ->
  m_serialized m = Some t -> (forall e, en_headers e = Some es -> tame e) ->
  qwp (decode_message sg handlerList m) (fun r s' => same_state s s' /\ decoded m r.2 /\ destroyable r.2) s.
Proof.
  intros Hh Hf Hc Hm Ht Htame. unfold decode_message. q_step. eapply qwp_find; [done|]. intros [h|] Hr.
  2: { q_step. split_and!; [apply same_state_refl|split_and!; try done; intros _; by apply no_body_fits|]. by apply no_codec_destroyable. }
  destruct (Hr h eq_refl) as [Hin Hn]. apply strcmp_eq in Hn. q_step. eapply qwp_find; [done|]. intros [h2|] Hr2.
  2: { q_step. split_and!; [apply same_state_refl|split_and!; try done; intros _; by apply no_body_fits|]. by apply no_codec_destroyable. }
  set (m1 := mkMessage _ _ _ _ _ _ _). q_step. unfold qwp at 1, call_message. rewrite Setup_run.
  replace (find_first (fun h0 => MessageHandler_KeyCmp (nt_allocs (qs_net s)) h0 (m_type m1) == 0) table)
    with (find_first (fun h0 => MessageHandler_KeyCmp [] h0 (m_type m1) == 0) table) by done.
  destruct (find_first _ table) as [hd|] eqn:Ef.
  2: { simpl. q_step. split_and!; [apply same_mem|split_and!; try done; intros _; by apply no_body_fits|]. by apply no_codec_destroyable. }
  simpl. q_step. simpl. q_step.
  assert (Hrob : robust (hd_codec hd)).
  { destruct (proj1 (Forall_forall _ _) Hf h Hin) as (e & He & En & Ev). apply (Htame (mkEnvelope 0 (Some es) "") eq_refl es e).
    - done.
    - done.
    - congruence.
    - rewrite <- Ev. change (m_type m1) with (strtoul32 (mh_sValue h)) in Ef. by rewrite Ef. }
  unfold qwp, call_message. destruct (decide (hd_codec hd = C_Empty)) as [Ee|Ee].
  { rewrite Ee. simpl. split_and!; [split; [done|by eexists]|split_and!; try done; intros _; by apply no_body_fits|]. unfold destroyable, destroy_message. simpl. by rewrite ?Ee; eexists. }
  match goal with |- context [deserialize sg _ (Some ?mm) ?o] => destruct (deserialize_fits sg types nts types_entries nuggets_entries (hd_codec hd) mm t o (proj1 Hrob) Ee Ht)
    as (ok & x & o' & Ed & Hfit & _) end.
  rewrite Ed. split_and!; [split; [done|by eexists]| |]; [split_and!; try done|].
  { intros Hi Hty body Hbody. cbn in Hty, Hbody. subst x. change (m_type m1) with (strtoul32 (mh_sValue h)) in Ef. rewrite Hty in Ef. rewrite (Hi hd Ef) in Ed. unfold deserialize in Ed.
    apply (InspectionSubmission_wf sg types types_entries _ t) in Ed as [Hnb|(sub & Hs & Hwf)]; [done| |done].
    cbn in Hs. injection Hs as ->. by exists sub. }
  by eapply (destroy_fits (hd_codec hd)).
Qed.

(** What becomes of a delivery. *)
Definition read_post (autoAck : bool) (e : amqp_envelope) (s : QS) (r : received) (s' : QS) : Prop :=
  same_state s s' /\
  match r with
  | R_rejected _ None => True
  | R_rejected _ (Some m) => destroyable m
  | R_message rv => exists q, qs_queue s = Some q /\ m_length (rv_message rv) = strlen (en_body e) /\
      destroyable (rv_message rv) /\ (inspects -> fits_inspection (rv_message rv)) /\
      rv_brokerSettlement rv = if autoAck then None else Some (mkSettlement (en_delivery_tag e) (q_readConnectionSerial q) false false)
  end.

Lemma read_run autoAck e q s : qs_queue s = Some q -> tame e -> qwp (read_envelope sg handlerList autoAck e) (read_post autoAck e s) s.
Proof.
  intros E Htame. unfold read_envelope. q_step. q_step. destruct r as [[]|]; [|q_step; split; [apply same_mem|done]].
  q_step. eapply qwp_ensures; [apply create_ensures|]. intros r o1 Hr.
  destruct r as [l|]. 2: { q_step. split; [split; [done|by eexists]|]. by eexists. }
  destruct (Hr l eq_refl) as (Hc & Hp & _ & Hk & _). assert (Hh : headers (Some l) []) by (exists l; by split_and!).
  match goal with |- qwp _ _ ?sx => assert (S1 : same_state s sx) by (split; [done|by eexists]); generalize dependent sx end.
  intros s1 S1. set (m0 := mkMessage 0 0 0 (Some l) None None None).
  q_step. apply (qwp_mono _ (fun _ s2 => same_state s s2)).
  { destruct autoAck; [by q_step|]. q_step. q_step. q_step. by eapply same_state_trans, same_mem. }
  intros p s2 S2. destruct p as [u|]; [|q_step; split; [done|by apply no_codec_destroyable]].
  q_step. q_step. assert (S3 : same_state s (mkQS (qs_queue s2) (qs_errno s2) (set_mem (qs_net s2) o0))) by by eapply same_state_trans, same_mem.
  generalize dependent (mkQS (qs_queue s2) (qs_errno s2) (set_mem (qs_net s2) o0)). intros s3 S3.
  destruct r as [[]|]; [|q_step; split; [done|by apply no_codec_destroyable]].
  assert (E3 : qs_queue s3 = Some q) by (destruct S3 as [-> _]; done).
  q_step. apply (qwp_queue q); [done|]. q_step.
  apply (qwp_mono _ (fun r s4 => same_state s s4 /\ forall p, r = Some p -> exists es ys, headers p ys /\ Forall (from_entries es) ys /\
    (forall e', en_headers e' = Some es -> tame e'))).
  { destruct (en_headers e) as [es|] eqn:Ees.
    - eapply qwp_ensures; [by apply (copy_headers_ensures es es (Some l) [])|]. intros r o2 Hr2. split; [by eapply same_state_trans, same_mem|].
      intros p' Hp'. destruct (Hr2 p' Hp') as (ys & Hy & Hfy). exists es, ys. split_and!; [done..|].
      intros e' Ee' es' t c Ees'. rewrite Ees' in Ee'. injection Ee' as ->. by apply Htame.
    - unfold qwp, in_mem. simpl. split; [by eapply same_state_trans, same_mem|]. intros p' [= <-]. exists [], []. split_and!; [done..|].
      intros e' Ee' es' t c Ees'. rewrite Ees' in Ee'. injection Ee' as ->. by intros ?%elem_of_nil. }
  intros r s4 (S4 & Hr4). destruct r as [p'|]; [|q_step; split; [done|by apply no_codec_destroyable]].
  destruct (Hr4 p' eq_refl) as (es & ys & Hy & Hfy & Hte).
  assert (E4 : qs_queue s4 = Some q) by (destruct S4 as [-> _]; done). q_step. apply (qwp_queue q); [done|]. q_step.
  - q_step. split; [done|]. exists q. split_and!; [done..|by apply no_codec_destroyable|intros _; by apply no_body_fits|]. by destruct autoAck.
  - q_step. eapply qwp_mono; [by eapply decode_run|]. intros [ok m'] s5 (S5 & (_ & _ & Hlen & Hfi) & Hd). cbn beta. q_step.
    assert (S5' : same_state s s5) by by eapply same_state_trans. simpl in *.
    destruct ok; split; try done. exists q. split_and!; [done..|]. by destruct autoAck.
Qed.

(** What a receiver without acknowledgement can rely on. *)
Definition deliverable (rv : Received) : Prop :=
  destroyable (rv_message rv) /\ (inspects -> fits_inspection (rv_message rv)).

(** The settlement that the receiver of a message owes. *)
Definition owes (r : option Received) : list MessageSettlement :=
  match r with Some rv => match rv_brokerSettlement rv with Some m => [m] | None => [] end | None => [] end.

Lemma Get_run autoAck timeout held xs k s : alive held xs k s -> referenced s -> k < 2 ^ 32 - 3 -> 0 <= timeout ->
  (forall e, arrived e s -> tame e) ->
  qor (timeout = 0) (Queue_Get_Ex sg handlerList autoAck timeout) (fun r s' => after (owes r ++ held) k s s' /\ forall rv, r = Some rv -> deliverable rv /\
    (autoAck = false -> is_Some (rv_brokerSettlement rv))) s.
Proof.
  intros HA HR Hk Ht Htame. pose proof (alive_count _ _ _ _ HA) as Hk0. unfold Queue_Get_Ex.
  eapply qor_bind; [by eapply Retain_alive|]. intros ok s1 (-> & A1 & N1 & _). simpl.
  assert (L1 : later s s1) by by apply net_later.
  destruct (alive_queue _ _ _ _ A1) as [q1 E1]. apply (qor_bind _ _ _ (fun x s' => x = q1 /\ s' = s1)); [by eapply qwp_queue|]. intros ? ? [-> ->].
  assert (Hnull : forall xs2 s2, alive held xs2 (k + 1) s2 -> later s s2 ->
    qwp (Queue_Release ;; mret None : QM (option Received)) (fun r s' => after (owes r ++ held) k s s' /\ forall rv, r = Some rv -> deliverable rv /\
      (autoAck = false -> is_Some (rv_brokerSettlement rv))) s2).
  { intros xs2 s2 A2 L2. q_step. eapply qwp_mono; [by eapply release_after|]. intros [] s3 K3. by q_step. }
  destruct (q_bShuttingDown q1); [right; by eapply Hnull|].
  apply (qor_bind _ _ _ (fun ok s2 => alive held xs (k + 1) s2 /\ later s s2 /\ (ok = true -> reads s2))).
  { destruct (q_pReadSocket q1) as [so|] eqn:Er1; [q_step; split_and!; [done..|]; intros _; by exists q1, so|].
    q_step. eapply qwp_mono; [by eapply Reconnect_alive|]. intros ok s2 (A2 & L2). cbn beta. destruct (alive_queue _ _ _ _ A2) as [q2 E2].
    q_step. apply (qwp_queue q2); [done|]. q_step. split_and!; [done|by etrans|]. intros [_ Hs]%andb_true_iff.
    destruct (q_pReadSocket q2) as [so|] eqn:Er2; [by exists q2, so|done]. }
  intros ok s2 (A2 & L2 & R2). destruct ok; simpl; [|right; by eapply Hnull].
  eapply qor_bind'.
  { apply (wait_alive held (k + 1) timeout (polls timeout (nt_arrivals (qs_net s2))) ltac:(lia) timeout xs s2 A2 (R2 eq_refl)).
    by apply polls_enough. }
  intros w s3 (L3 & xs3 & K3). assert (L03 : later s s3) by by etrans.
  destruct w as [e|[e|]].
  - destruct K3 as (D3 & R3 & Harr). pose proof D3 as (m & q3 & E3 & HA3 & Htag & Hser).
    q_step. eapply qwp_mono; [eapply read_run; [exact E3|exact (Htame e (arrived_later _ _ _ L2 Harr))]|]. intros r s4 (S4 & K4). cbn beta.
    pose proof (delivered_same _ _ _ _ _ _ S4 D3) as D4. pose proof (same_state_reads _ _ S4 R3) as R4.
    assert (L4 : later s s4) by (etrans; [exact L03|by apply same_later]).
    destruct r as [rq p|rv].
    + q_step. eapply qwp_mono; [by eapply settle_delivered|]. intros b s5 (A5 & L5). cbn beta.
      q_step. eapply qwp_mono; [eapply (release_after held xs3 k s); [done|done|by etrans]|]. intros [] s6 K6. unfold drop_message.
      destruct p as [mm|]; [|by q_step]. destruct K4 as [ps Eps]. rewrite Eps. q_step. simpl. by do 2 q_step.
    + destruct K4 as (q4 & E4 & _ & Hdes & Hfits & Hset). rewrite E3 in E4. injection E4 as <-.
      assert (A4 : alive (m :: held) xs3 (k + 1) s4) by by eapply same_state_alive. destruct autoAck.
      * q_step. eapply qwp_mono; [by eapply settle_delivered|]. intros b s5 (A5 & L5). cbn beta.
        q_step. eapply qwp_mono; [eapply (release_after held xs3 k s); [done|done|by etrans]|]. intros [] s6 K6. q_step. unfold owes. rewrite Hset. split; [done|]. intros ? [= <-]. split; [done|]. rewrite Hset. first [done|by intros _; eexists].
      * q_step. q_step. q_step. eapply qwp_mono; [eapply (release_after (mkSettlement (en_delivery_tag e) (q_readConnectionSerial q3) false false :: held) xs3 k s); [|done|done]|].
        { eapply alive_flags; [|exact A4]. intros Hg. unfold key. simpl. rewrite Htag, Hser; [done|]. eapply later_good; [by apply same_later|done]. }
        intros [] s6 K6. q_step. unfold owes. rewrite Hset. split; [done|]. intros ? [= <-]. split; [done|]. rewrite Hset. first [done|by intros _; eexists].
  - destruct K3 as (D3 & R3 & _). q_step. eapply qwp_mono; [by eapply settle_delivered|]. intros b s4 (A4 & L4). cbn beta.
    eapply Hnull; [done|by etrans].
  - by eapply Hnull.
Qed.
End Receive.
