(* ===== verification/QueueSend.v ===== *)
(** * Sending on a queue: src/queue.c

    What an operation adds to the record of the library ([logs]), and sending: the
    message is published once when [Queue_Put_Dest] returns true and not at all
    otherwise, with its type, its version and its headers in the table. *)

From S2P Require Import Prelude CLib RzbList RzbListProps ListM Hash LibUuid Uuids Ntlv Blocks JsonC JsonBuffer JsonText Messages MessageCodecs CncMessages MessageProps CncThms MessageSafety Entities BlockPool Transfer Queue QueueProps QueueRuns Prelude.

Local Open Scope Z_scope.

(** ** What an operation records *)

(** The run only adds events of this kind. *)
Definition logs {A} (P : event -> Prop) (m : QM A) : Prop :=
  forall s x s', m s = inr (x, s') -> exists es, nt_log (qs_net s') = nt_log (qs_net s) ++ es /\ Forall P es.

Create HintDb qlogs.

Section Logs.
Variable P : event -> Prop.

Lemma logs_ret {A} (x : A) : logs P (mret x).
Proof. intros s y s' [= <- <-]. exists []. by rewrite app_nil_r. Qed.

Lemma logs_bind {A B} (m : QM A) (f : A -> QM B) : logs P m -> (forall x, logs P (f x)) -> logs P (m ≫= f).
Proof.
  intros Hm Hf s y s' E. unfold mbind, QM_bind in E. destruct (m s) as [e|[x s1]] eqn:E1; [done|].
  destruct (Hm _ _ _ E1) as (es1 & L1 & P1). destruct (Hf x _ _ _ E) as (es2 & L2 & P2). exists (es1 ++ es2).
  rewrite L2, L1, app_assoc. split; [done|]. by apply Forall_app.
Qed.

(** A run that leaves the record as it is. *)
Lemma logs_same {A} (m : QM A) : (forall s x s', m s = inr (x, s') -> nt_log (qs_net s') = nt_log (qs_net s)) -> logs P m.
Proof. intros Hm s x s' E. exists []. rewrite app_nil_r. split; [by eapply Hm|done]. Qed.

Lemma logs_event e : P e -> logs P (record_event e).
Proof. intros He s x s' [= <- <-]. exists [e]. split; [done|]. by constructor. Qed.

Lemma logs_fault {A} e : logs P (qm_fault e : QM A).
Proof. by intros s x s'. Qed.

Lemma logs_deref {A} (p : option A) : logs P (qm_deref p).
Proof. destruct p; [apply logs_ret|apply logs_fault]. Qed.

Lemma logs_queue : logs P the_queue.
Proof. apply logs_same. intros s x s'. unfold the_queue. destruct (qs_queue s); [|done]. by intros [= <- <-]. Qed.

Lemma logs_set_queue p : logs P (set_queue p).
Proof. apply logs_same. by intros s x s' [= <- <-]. Qed.

Lemma logs_on_queue f : logs P (on_queue f).
Proof. apply logs_bind; [apply logs_queue|]. intros. apply logs_set_queue. Qed.

Lemma logs_lib_call : logs P lib_call.
Proof. apply logs_same. intros s x s'. unfold lib_call. destruct (alloc_next _). by intros [= <- <-]. Qed.

Lemma logs_in_mem {A} (m : M A) : logs P (in_mem m).
Proof. apply logs_same. intros s x s'. unfold in_mem. destruct (m _) as [[r o]|]; [|done]. by intros [= <- <-]. Qed.

Lemma logs_call_message `{EVP} `{LibUuid} (c : Call) m : logs P (call_message c m).
Proof. apply logs_same. intros s x s'. unfold call_message. destruct (c _ _) as [[[ok [m'|]] o]|]; try done. by intros [= <- <-]. Qed.

Lemma logs_new_connection : (forall c, P (E_Open c)) -> logs P amqp_new_connection.
Proof.
  intros Ho s x s'. unfold amqp_new_connection. destruct (alloc_next _) as [[] r]; [|done]. intros [= <- <-].
  eexists. split; [done|]. by constructor.
Qed.

Lemma logs_destroy_connection c : P (E_Close c) -> logs P (amqp_destroy_connection c).
Proof. intros Hc s x s' [= <- <-]. eexists. split; [done|]. by constructor. Qed.

Lemma logs_Service p : logs P (AMQP_Service_Connection p).
Proof.
  apply logs_same. intros s x s'. unfold AMQP_Service_Connection. destruct p; [|by intros [= <- <-]].
  destruct (service_frames _). by intros [= <- <-].
Qed.
End Logs.

#[export] Hint Resolve logs_ret logs_fault logs_deref logs_queue logs_set_queue logs_on_queue logs_lib_call logs_in_mem
  logs_call_message logs_event logs_new_connection logs_destroy_connection logs_Service : qlogs.

(** Follows the structure of an operation. *)
Ltac q_logs :=
  repeat match goal with
  | |- logs _ (_ ≫= _) => apply logs_bind; [|intros]
  | |- logs _ (if ?b then _ else _) => destruct b
  | |- logs _ (match ?x with _ => _ end) => destruct x
  | |- logs _ _ => progress (eauto with qlogs)
  end; try done.

(** Everything but publishing. *)
Definition unpublished (e : event) : Prop := match e with E_Publish _ _ _ _ _ => False | _ => True end.

Lemma logs_recorded e : unpublished e -> logs unpublished (recorded_call e).
Proof. intros He. unfold recorded_call. q_logs. Qed.
Lemma logs_Socket_Close p : logs unpublished (AMQP_Socket_Close p).
Proof. unfold AMQP_Socket_Close. q_logs; by apply logs_destroy_connection. Qed.
#[export] Hint Resolve logs_recorded logs_Socket_Close : qlogs.

Lemma logs_Connect_Socket cfg : logs unpublished (Queue_Connect_Socket cfg).
Proof. unfold Queue_Connect_Socket, new_socket. q_logs; first [by apply logs_new_connection | by apply logs_destroy_connection]. Qed.
Lemma logs_BeginReading : logs unpublished Queue_BeginReading.
Proof. unfold Queue_BeginReading. q_logs; by apply logs_recorded. Qed.
#[export] Hint Resolve logs_Connect_Socket logs_BeginReading : qlogs.

Lemma logs_Connect_ReadSocket : logs unpublished Queue_Connect_ReadSocket.
Proof. unfold Queue_Connect_ReadSocket. q_logs. Qed.
Lemma logs_Connect_WriteSocket : logs unpublished Queue_Connect_WriteSocket.
Proof. unfold Queue_Connect_WriteSocket. q_logs. Qed.
#[export] Hint Resolve logs_Connect_ReadSocket logs_Connect_WriteSocket : qlogs.

Lemma logs_Reconnect side : logs unpublished (Queue_Reconnect side).
Proof. unfold Queue_Reconnect. q_logs. Qed.
#[export] Hint Resolve logs_Reconnect : qlogs.

Lemma logs_settle f : (forall c, unpublished (f c)) -> logs unpublished (settle f).
Proof. intros Hf. unfold settle. q_logs; by apply logs_event. Qed.
Lemma logs_pop : logs unpublished pop_settlement.
Proof. unfold pop_settlement. q_logs. Qed.
#[export] Hint Resolve logs_pop : qlogs.

Lemma logs_settle_loop fuel : logs unpublished (settle_loop fuel).
Proof.
  induction fuel as [|fuel IH]; simpl; [apply logs_fault|].
  unfold Queue_Acknowledge_Delivery, Queue_Reject_Delivery. q_logs; by apply logs_settle.
Qed.
#[export] Hint Resolve logs_settle_loop : qlogs.

Lemma logs_Process : logs unpublished Queue_Process_Pending_Settlements.
Proof. unfold Queue_Process_Pending_Settlements. q_logs. Qed.
#[export] Hint Resolve logs_Process : qlogs.
Lemma logs_Final_Destroy : logs unpublished Queue_Final_Destroy.
Proof. unfold Queue_Final_Destroy, Queue_EndReading. q_logs. Qed.
#[export] Hint Resolve logs_Final_Destroy : qlogs.
Lemma logs_Release : logs unpublished Queue_Release.
Proof. unfold Queue_Release. q_logs. Qed.
Lemma logs_Retain : logs unpublished Queue_Retain.
Proof. unfold Queue_Retain. q_logs. Qed.
#[export] Hint Resolve logs_Release logs_Retain : qlogs.

(** ** Publishing *)

Definition publication : Type := string * string * list amqp_table_entry * string.
Definition published (log : list event) : list publication :=
  omap (fun e => match e with E_Publish _ x k t b => Some (x, k, t, b) | _ => None end) log.

Lemma published_app l1 l2 : published (l1 ++ l2) = published l1 ++ published l2.
Proof. apply omap_app. Qed.

Lemma unpublished_none es : Forall unpublished es -> published es = [].
Proof. induction 1 as [|[] es He _ IH]; done. Qed.

(** After [pre] was published, a run with result [x] has published [g x] in all. *)
Definition puts {A} (pre : list publication) (m : QM A) (g : A -> list publication) : Prop :=
  forall s x s', m s = inr (x, s') -> exists es, nt_log (qs_net s') = nt_log (qs_net s) ++ es /\ pre ++ published es = g x.

Definition returns {A} (m : QM A) (x : A) : Prop := exists s s', m s = inr (x, s').

Lemma puts_ret {A} pre (x : A) (g : A -> list publication) : g x = pre -> puts pre (mret x) g.
Proof. intros Hg s y s' [= <- <-]. exists []. by rewrite !app_nil_r, Hg. Qed.

Lemma puts_silent {A} pre (m : QM A) (g : A -> list publication) : logs unpublished m -> (forall x, returns m x -> g x = pre) -> puts pre m g.
Proof.
  intros Hm Hg s x s' E. destruct (Hm _ _ _ E) as (es & L & Hu). exists es. split; [done|].
  rewrite (unpublished_none _ Hu), app_nil_r, Hg; [done|]. by exists s, s'.
Qed.

Lemma puts_bind {A B} pre (m : QM A) (f : A -> QM B) h (g : B -> list publication) : puts pre m h ->
  (forall x, returns m x -> puts (h x) (f x) g) -> puts pre (m ≫= f) g.
Proof.
  intros Hm Hf s y s' E. unfold mbind, QM_bind in E. destruct (m s) as [e|[x s1]] eqn:E1; [done|].
  destruct (Hm _ _ _ E1) as (es1 & L1 & P1). destruct (Hf x ltac:(by exists s, s1) _ _ _ E) as (es2 & L2 & P2). exists (es1 ++ es2).
  rewrite L2, L1, app_assoc, published_app, app_assoc, P1. done.
Qed.

Lemma puts_skip {A B} pre (m : QM A) (f : A -> QM B) (g : B -> list publication) : logs unpublished m ->
  (forall x, returns m x -> puts pre (f x) g) -> puts pre (m ≫= f) g.
Proof. intros Hm Hf. eapply puts_bind; [by apply (puts_silent _ _ (fun _ => pre))|]. done. Qed.

(** What [publish] has published: the message once, or nothing. *)
Definition once (p : publication) (ok : bool) : list publication := if ok then [p] else [].

Lemma publish_puts tries x k t b : puts [] (publish tries x k t b) (once (x, k, t, b)).
Proof.
  induction tries as [|tries IH]; [by apply puts_ret|]. simpl.
  match goal with |- puts _ (the_queue ≫= ?f) _ => set (body := f) end.
  assert (Hretry : puts [] (match tries with O => mret false | S _ =>
      ok ← Queue_Reconnect QUEUE_FLAG_SEND; q ← the_queue;
      if ok && match q_pWriteSocket q with Some _ => true | None => false end then publish tries x k t b else mret false end) (once (x, k, t, b))).
  { destruct tries; [by apply puts_ret|]. apply puts_skip; [q_logs|]. intros ok _. apply puts_skip; [q_logs|]. intros q _.
    destruct (ok && _); [exact IH|by apply puts_ret]. }
  unfold body. apply puts_skip; [q_logs|]. intros q _. apply puts_skip; [q_logs|]. intros alive _. destruct alive; simpl; [|exact Hretry].
  apply puts_skip; [q_logs|]. intros q2 _. apply puts_skip; [q_logs|]. intros so _.
  apply puts_bind with (once (x, k, t, b)); [|intros ok _; destruct ok; [by apply puts_ret|exact Hretry]].
  unfold recorded_call. apply puts_skip; [q_logs|]. intros ok _. destruct ok; [|by apply puts_ret].
  intros s y s' [= <- <-]. eexists. split; [done|]. done.
Qed.

(** ** Messages *)

Section Send.
Context `{EVP} `{LibUuid} `{JsonText} `{Base64} `{Inet}.
Variable sg : UuidLists.

(** *** The table *)

Definition header_entry (h : MessageHeader) : amqp_table_entry := utf8_entry (mh_sName h) (mh_sValue h).

(** The headers of a message, if it has a list. *)
Definition some_header_list (p : option header_list) (xs : list MessageHeader) : Prop := p = None /\ xs = [] \/ headers p xs.

(** The table of a message: type, version, the telemetry's headers and its own. *)
Definition wire_table (injected : list (string * string)) (m : Message) (xs : list MessageHeader) : list amqp_table_entry :=
  utf8_entry sg_messageTypeHeaderName (print_dec (m_type m)) :: utf8_entry sg_messageVersionHeaderName (print_dec (m_version m)) ::
  map (fun h => utf8_entry h.1 h.2) injected ++ map header_entry xs.

Lemma each_entries xs es o : each Message_Header_To_AMQP_TableEntry xs es o = Some (true, es ++ map header_entry xs, o).
Proof.
  revert es. induction xs as [|x xs IH]; intros es; simpl; [by rewrite app_nil_r|]. rewrite IH, <- app_assoc. done.
Qed.

Lemma message_table_run injected m xs s : some_header_list (m_headers m) xs -> Z.of_nat (length xs) < 2 ^ 64 ->
  qwp (message_table injected m) (fun r s' => same_state s s' /\ (r = None \/ r = Some (wire_table injected m xs))) s.
Proof.
  intros Hh Hn. unfold message_table. q_step. q_step. assert (S1 : same_state s (mkQS (qs_queue s) (qs_errno s) (set_mem (qs_net s) o))) by by split; [|exists o].
  destruct r as [[]|]; [|q_step; by split; [|left]]. set (first := [_; _] ++ _).
  assert (Ef : length first = (2 + length injected)%nat) by (unfold first; by rewrite length_app, length_map).
  assert (Hput : forall n es, es = wire_table injected m xs -> n = Z.of_nat (length es) ->
    qwp (es ← header_table n es; mret (Some es)) (fun r s' => same_state s s' /\ (r = None \/ r = Some (wire_table injected m xs)))
      (mkQS (qs_queue s) (qs_errno s) (set_mem (qs_net s) o))).
  { intros n es -> ->. q_step. unfold header_table. replace (_ <? _) with false by lia. q_step. q_step. split; [done|right].
    by rewrite Nat2Z.id, Nat.sub_diag, app_nil_r. }
  destruct Hh as [[-> ->]|(l & -> & Hc & Hp & Hk)].
  - apply Hput; [by rewrite <- (app_nil_r first)|]. rewrite Ef. lia.
  - rewrite (ForEach_each Message_Header_To_AMQP_TableEntry l xs first []); [|done|apply Hp|].
    2: { intros x u o' r u' o'' _ [= <- <- <-]. by left. }
    rewrite each_entries. simpl. apply Hput; [unfold wire_table; simpl; done|].
    simpl. rewrite length_app, !length_map. rewrite (contents_length _ _ Hc). unfold u64. rewrite wrap_small by (unfold in_width; lia). lia.
Qed.

(** *** Sending a message *)

(** A message that can be sent: it is serialized, or the function of its type
    serializes it or fails, and leaves the headers. *)
Definition sendable (m : Message) (xs : list MessageHeader) : Prop :=
  some_header_list (m_headers m) xs /\ Z.of_nat (length xs) < 2 ^ 64 /\
  ((exists t, m_serialized m = Some t) \/
   m_serialized m = None /\ exists c, m_codec m = Some c /\ forall o, exists ok m' o', serialize sg c (Some m) o = Some (ok, Some m', o') /\
     m_headers m' = m_headers m /\ m_type m' = m_type m /\ m_version m' = m_version m /\ (ok = true -> exists t, m_serialized m' = Some t)).

(** The body of the message on the wire. *)
Definition wire_body (m : Message) : string := String.substring 0 (Z.to_nat (m_length m)) (default "" (m_serialized m)).

(** What is published of a message. *)
Definition wire (topic : bool) (dest : string) (injected : list (string * string)) (m : Message) (xs : list MessageHeader) : publication :=
  (if topic then "amq.topic" else "", dest, wire_table injected m xs, wire_body m).

(** The message after the call: it may have been serialized. *)
Definition serialized_from (m m' : Message) : Prop :=
  m_headers m' = m_headers m /\ m_type m' = m_type m /\ m_version m' = m_version m /\ (m_serialized m <> None -> m' = m).

Lemma publish_alive held xs k tries x d t b : forall s, alive held xs k s ->
  (forall q, qs_queue s = Some q -> q_pWriteSocket q <> None) ->
  qwp (publish tries x d t b) (fun _ s' => alive held xs k s' /\ later s s') s.
Proof.
  induction tries as [|tries IH]; intros s HA Hw; [by apply qwp_ret|]. simpl.
  assert (Hretry : forall s1, alive held xs k s1 -> later s s1 -> qwp (match tries with O => mret false | S _ =>
      ok ← Queue_Reconnect QUEUE_FLAG_SEND; q ← the_queue;
      if ok && match q_pWriteSocket q with Some _ => true | None => false end then publish tries x d t b else mret false end)
    (fun _ s' => alive held xs k s' /\ later s s') s1).
  { intros s1 A1 L1. destruct tries; [by q_step|]. q_step. eapply qwp_mono; [by apply Reconnect_alive|]. intros ok s2 (A2 & L2). cbn beta.
    destruct (alive_queue _ _ _ _ A2) as [q2 E2]. q_step. apply (qwp_queue q2); [done|]. destruct (ok && _) eqn:Ew; [|q_step; split; [done|by etrans]].
    apply andb_true_iff in Ew as [_ Ew]. eapply qwp_mono; [apply IH; [done|]|].
    - intros q E. rewrite E2 in E. injection E as <-. by destruct (q_pWriteSocket q2).
    - intros b' s3 (A3 & L3). split; [done|]. etrans; [exact L1|]. by etrans. }
  destruct (alive_queue _ _ _ _ HA) as [q E]. q_step. apply (qwp_queue q); [done|]. q_step.
  eapply qwp_mono; [by apply Service_steps|]. intros ok s1 (A1 & L1 & E1). cbn beta. destruct ok; simpl; [|by apply Hretry].
  q_step. apply (qwp_queue q); [by rewrite E1|]. specialize (Hw q E). destruct (q_pWriteSocket q) as [so|]; [|done].
  q_step. apply qwp_ret. q_step. unfold recorded_call. q_step. q_step.
  assert (A2 : forall es, Forall neutral es -> forall o, alive held xs k (mkQS (qs_queue s1) (qs_errno s1) (mkNet (nt_new (qs_net s1)) o
    (nt_arrivals (qs_net s1)) (nt_frames (qs_net s1)) (nt_allocs (qs_net s1)) (nt_next (qs_net s1)) (nt_open (qs_net s1)) (nt_log (qs_net s1) ++ es)))).
  { intros es Hes o0. destruct A1 as (q1 & Eq1 & Hr & Hp & Hc & Hl). eapply (alive_quiet held xs k s1 _ q1 q1); try done; [|destruct Hr; by split|eauto].
    split; try done. by exists es. }
  destruct b0; q_step.
  - q_step. q_step. q_step. split; [by apply (A2 [_]); repeat constructor|]. etrans; [exact L1|]. by eapply later_log.
  - apply Hretry; [|etrans; [exact L1|by apply (later_log _ _ []); [rewrite app_nil_r|]]]. specialize (A2 [] (Forall_nil_2 _) o). by rewrite app_nil_r in A2.
Qed.

Lemma returns_all {A} (m : QM A) (R : A -> Prop) x : (forall s, qwp m (fun y _ => R y) s) -> returns m x -> R x.
Proof. intros Hm (s & s' & E). specialize (Hm s). unfold qwp in Hm. by rewrite E in Hm. Qed.

(** The message is serialized unless it is already. *)
Definition once_serialized (m : Message) : QM (bool * Message) :=
  match m_serialized m with
  | Some _ => mret (true, m)
  | None => c ← qm_deref (m_codec m); call_message (serialize sg c) m
  end.

Lemma once_serialized_run m xs s : sendable m xs ->
  qwp (once_serialized m) (fun r s' => same_state s s' /\ serialized_from m r.2 /\ (r.1 = true -> exists t, m_serialized r.2 = Some t)) s.
Proof.
  intros (_ & _ & [[t Et]|(En & c & Ec & Hs)]); unfold once_serialized.
  - rewrite Et. q_step. split_and!; [apply same_state_refl|done|]. intros _. by exists t.
  - rewrite En, Ec. q_step. apply qwp_ret. unfold qwp, call_message. destruct (Hs (nt_allocs (qs_net s))) as (ok & m' & o' & -> & Eh & Et & Ev & Hok).
    split_and!; [by split; [|exists o']|done|done].
Qed.

(** The call between the reference and its release; [q] is the queue. *)
Definition put_body (injected : list (string * string)) (m : Message) (dest : string) (q : Queue) : QM (bool * Message) :=
  if q_bShuttingDown q then mret (false, m)
  else
    connected ← (match q_pWriteSocket q with
                 | Some _ => mret true
                 | None =>
                     ok ← Queue_Reconnect QUEUE_FLAG_SEND;
                     q ← the_queue;
                     mret (ok && match q_pWriteSocket q with Some _ => true | None => false end)
                 end);
    if negb connected then mret (false, m)
    else
      '(ok, m) ← once_serialized m;
      if negb ok then mret (false, m)
      else
        texts ← in_mem (alloc ;; alloc);
        match texts with
        | None => mret (false, m)
        | Some _ =>
            text ← qm_deref (m_serialized m);
            let body := String.substring 0 (Z.to_nat (m_length m)) text in
            let exchange := if q_bTopic q then "amq.topic" else "" in
            table ← message_table injected m;
            match table with
            | None => mret (false, m)
            | Some entries => ok ← publish 2 exchange dest entries body; mret (ok, m)
            end
        end.

Lemma Put_Dest_body injected m dest : Queue_Put_Dest sg injected m dest = retained (false, m) (q ← the_queue; put_body injected m dest q).
Proof. done. Qed.

Lemma put_body_puts injected m dest q xs : sendable m xs ->
  puts [] (put_body injected m dest q) (fun r => once (wire (q_bTopic q) dest injected r.2 xs) r.1).
Proof.
  intros Hm. unfold put_body. destruct (q_bShuttingDown q); [by apply puts_ret|].
  apply puts_skip; [q_logs|]. intros b _. destruct b; [|by apply puts_ret]. cbn [negb].
  apply puts_skip; [unfold once_serialized; q_logs|]. intros [ok m'] Hr.
  assert (Hser : serialized_from m m').
  { apply (returns_all _ (fun r => serialized_from m r.2) _) in Hr; [done|]. intros s. eapply qwp_mono; [by eapply once_serialized_run|]. by intros r s' (_ & ? & _). }
  destruct ok; [|by apply puts_ret]. cbn [negb]. apply puts_skip; [q_logs|]. intros [u|] _; [|by apply puts_ret].
  apply puts_skip; [q_logs|]. intros t Ht. assert (Et : m_serialized m' = Some t) by (destruct Ht as (s & s' & E); destruct (m_serialized m'); [by injection E as -> _|done]).
  apply puts_skip; [unfold message_table, header_table; q_logs|]. intros [es|] Hes; [|by apply puts_ret].
  assert (es = wire_table injected m' xs) as ->.
  { destruct Hm as (Hh & Hn & _). destruct Hser as (Eh & _). rewrite <- Eh in Hh.
    apply (returns_all _ (fun r => r = None \/ r = Some (wire_table injected m' xs)) _) in Hes; [by destruct Hes as [?|[= ->]]|].
    intros s. eapply qwp_mono; [by eapply message_table_run|]. by intros r s' [_ ?]. }
  eapply puts_bind; [apply publish_puts|]. intros ok _. apply puts_ret. unfold wire, wire_body. simpl. by rewrite Et.
Qed.

Lemma put_body_alive injected m dest q xs held ys k s : sendable m xs -> alive held ys k s -> qs_queue s = Some q ->
  qwp (put_body injected m dest q) (fun r s' => alive held ys k s' /\ later s s' /\ serialized_from m r.2) s.
Proof.
  intros Hm HA E. unfold put_body. assert (Hsame : serialized_from m m) by done. q_step; [by q_step|]. q_step.
  apply (qwp_mono _ (fun ok s1 => alive held ys k s1 /\ later s s1 /\ (ok = true -> forall q, qs_queue s1 = Some q -> q_pWriteSocket q <> None))).
  { destruct (q_pWriteSocket q) as [so|] eqn:Ew.
    - q_step. split_and!; [done..|]. intros _ q' E'. rewrite E in E'. injection E' as <-. by rewrite Ew.
    - q_step. eapply qwp_mono; [by apply Reconnect_alive|]. intros ok s1 (A1 & L1). cbn beta. destruct (alive_queue _ _ _ _ A1) as [q1 E1].
      q_step. apply (qwp_queue q1); [done|]. q_step. split_and!; [done..|]. intros [_ Hs]%andb_true_iff q' E'. rewrite E1 in E'. injection E' as <-.
      by destruct (q_pWriteSocket q1). }
  intros ok s1 (A1 & L1 & W1). destruct ok; cbn [negb]; [|by q_step]. q_step. eapply qwp_mono; [by eapply once_serialized_run|].
  intros [ok m'] s2 (S2 & Hser & Hok). cbn beta. destruct (same_state_alive _ _ _ _ _ S2 A1) as (A2 & L2 & _).
  assert (L02 : later s s2) by by etrans. destruct ok; cbn [negb]; [|by q_step]. specialize (W1 eq_refl). destruct Hok as [t Et]; [done|]. simpl in Et, Hser.
  q_step. eapply (qwp_ensures (alloc ;; alloc) (fun _ => True)); [m_step; apply ensures_alloc|]. intros r o _.
  match goal with |- qwp _ _ ?sx => assert (S3 : same_state s2 sx) by by split; [|exists o] end.
  match goal with |- qwp _ _ ?sx => generalize dependent sx end. intros s3 S3.
  destruct r as [u|]; [|destruct (same_state_alive _ _ _ _ _ S3 A2) as (A3 & L3 & _); q_step; split_and!; [done|by etrans|done]].
  rewrite Et. q_step. apply qwp_ret. q_step. destruct Hm as (Hh & Hn & _).
  eapply qwp_mono; [apply (message_table_run injected m' xs); [by destruct Hser as (-> & _)|done]|]. intros table s4 (S4 & _). cbn beta.
  assert (S24 : same_state s2 s4) by by eapply same_state_trans. destruct (same_state_alive _ _ _ _ _ S24 A2) as (A4 & L4 & _).
  destruct table as [es|]; [|q_step; split_and!; [done|by etrans|done]].
  q_step. eapply qwp_mono; [apply (publish_alive held ys k); [done|]|].
  - intros q' E'. apply W1. destruct S2 as [E2 _], S24 as [E4 _]. congruence.
  - intros b s5 (A5 & L5). cbn beta. q_step. split_and!; [done| |done]. etrans; [exact L02|]. by etrans.
Qed.

Lemma Put_run injected m dest xs held ys k s : sendable m xs -> alive held ys k s -> referenced s -> k < 2 ^ 32 - 3 ->
  qwp (Queue_Put_Dest sg injected m dest) (fun r s' => after held k s s' /\ serialized_from m r.2 /\
    exists es q, qs_queue s = Some q /\ nt_log (qs_net s') = nt_log (qs_net s) ++ es /\
      published es = once (wire (q_bTopic q) dest injected r.2 xs) r.1) s.
Proof.
  intros Hm HA HR Hk. rewrite Put_Dest_body. pose proof (alive_count _ _ _ _ HA) as Hk0. unfold retained.
  q_step. eapply qwp_mono; [by eapply Retain_alive|]. intros ok s1 (-> & A1 & N1 & q & E & E1). cbn [negb].
  q_step. q_step. eapply qwp_queue; [done|]. match goal with |- qwp (put_body _ _ _ ?q') _ _ => set (q1 := q') in * end.
  pose proof (put_body_puts injected m dest q1 xs Hm s1) as Hp.
  pose proof (put_body_alive injected m dest q1 xs held ys (k + 1) s1 Hm A1 E1) as Hb. unfold qwp in Hb |- *.
  destruct (put_body injected m dest q1 s1) as [e|[r s2]]; [done|]. destruct Hb as (A2 & L2 & Hser). destruct (Hp r s2 eq_refl) as (es & Ees & Hes).
  match goal with |- match ?m' s2 with _ => _ end => change (qwp m' (fun r s' => after held k s s' /\ serialized_from m r.2 /\
    exists es q, qs_queue s = Some q /\ nt_log (qs_net s') = nt_log (qs_net s) ++ es /\
      published es = once (wire (q_bTopic q) dest injected r.2 xs) r.1) s2) end.
  pose proof (logs_Release s2) as Hl. assert (L02 : later s s2) by (etrans; [by apply net_later|exact L2]).
  q_step. pose proof (release_after held ys k s s2 A2 Hk0 L02) as Hr. unfold qwp in Hr |- *. destruct (Queue_Release s2) as [e|[[] s3]]; [done|].
  destruct (Hl () s3 eq_refl) as (es' & Ees' & Hu). simpl. split_and!; [done..|]. exists (es ++ es'), q. split; [done|].
  rewrite Ees', Ees, N1, app_assoc. split; [done|]. rewrite published_app, (unpublished_none _ Hu), app_nil_r. exact Hes.
Qed.
End Send.
