(* ===== verification/QueueWire.v ===== *)
(** * Messages on the wire: src/queue.c

    What [Queue_Put_Dest] sends is what [Queue_Get_Ex] receives, if a terminator follows
    the values of the headers ([Queue_wire_roundtrip]); and the defects of receiving:
    without the terminator a header is read past its end ([Queue_header_overread]), and a
    settlement that the library refuses leads to the settlement of another delivery
    ([Queue_settles_other_delivery]). *)

From S2P Require Import Prelude CLib RzbList RzbListProps ListM Hash LibUuid Uuids Ntlv Blocks JsonC JsonBuffer JsonText JsonProps Messages MessageCodecs CncMessages MessageProps CncThms MessageSafety Entities BlockPool Transfer TransferProps Queue QueueProps QueueRuns QueueGet QueueSend QueueThms Prelude.

Local Open Scope Z_scope.

(** ** Strings *)

Lemma c_string_app a b : nul_free a = true -> c_string (a +:+ b) = a +:+ c_string b.
Proof.
  induction a as [|c a IH]; intros Ha; [done|]. simpl in *. apply andb_true_iff in Ha as [Hc Ha]. apply negb_true_iff in Hc. by rewrite Hc, IH.
Qed.

Lemma string_app_nil a : a +:+ "" = a.
Proof. induction a as [|c a IH]; [done|]. change (String c (a +:+ "") = String c a). by rewrite IH. Qed.

Lemma substring_full a : String.substring 0 (String.length a) a = a.
Proof. induction a as [|c a IH]; simpl; congruence. Qed.

Lemma strtoul32_print n : in_width 32 n -> strtoul32 (print_dec n) = n.
Proof.
  intros Hn. unfold strtoul32. rewrite strtoumax_print by (unfold in_width in *; lia). simpl. by apply wrap_small.
Qed.

(** ** The round trip *)

Section Wire.
Context `{EVP} `{LibUuidLaws} `{JsonTextLaws} `{Base64} `{InetLaws}.
Variable sg : UuidLists.
Variable handlerList : option handler_list.
Variable table : list MessageHandler.
Hypothesis Htable : handlers handlerList table.

Definition plain_header (h : MessageHeader) : Prop := nul_free (mh_sName h) = true /\ nul_free (mh_sValue h) = true.

(** The headers of a message as its receiver has them. *)
Definition wire_headers (injected : list (string * string)) (m : Message) (xs : list MessageHeader) : list MessageHeader :=
  mkHeader sg_messageTypeHeaderName (print_dec (m_type m)) :: mkHeader sg_messageVersionHeaderName (print_dec (m_version m)) ::
  map (fun h => mkHeader h.1 h.2) injected ++ xs.

Lemma wire_table_headers injected m xs : wire_table injected m xs = map header_entry (wire_headers injected m xs).
Proof. unfold wire_table, wire_headers. simpl. rewrite map_app, map_map. done. Qed.

(** The entry as it arrives: a terminator follows its value. *)
Definition arrives (t t' : amqp_table_entry) : Prop :=
  te_key t' = te_key t /\ te_kind t' = te_kind t /\ te_bytes t' = te_bytes t /\ c_string (te_after t') = "".

Lemma copy_headers_run hs : forall es p xs, Forall plain_header hs -> Forall2 arrives (map header_entry hs) es -> headers p xs ->
  exists p', copy_headers es p [] = Some (Some p', []) /\ headers p' (xs ++ hs).
Proof.
  induction hs as [|h hs IH]; intros es p xs Hp Hes Hh.
  - inversion Hes; subst. exists p. by rewrite app_nil_r.
  - simpl in Hes. apply Forall2_cons_inv_l in Hes as (t & es' & (K1 & K2 & K3 & K4) & Hes & ->). apply Forall_cons in Hp as [[P1 P2] Hp].
    simpl. rewrite (M_bind_ok _ _ _ _ _ alloc_ok), K2. simpl. simpl in K1, K3. rewrite K1, K3, (c_string_nul_free _ P1), c_string_app, K4, string_app_nil by done.
    destruct (HeaderList_Add_run p xs (mh_sName h) (mh_sValue h) Hh) as (p1 & E1 & Hh1). rewrite (M_bind_ok _ _ _ _ _ E1).
    destruct (IH es' p1 _ Hp Hes Hh1) as (p' & E' & Hh'). exists p'. split; [done|]. rewrite <- app_assoc in Hh'. by destruct h.
Qed.

(** A message that is well formed for the wire. *)
Record wire_ok (injected : list (string * string)) (m : Message) (xs : list MessageHeader) (t : string) : Prop := {
  wo_type : in_width 32 (m_type m);
  wo_version : in_width 32 (m_version m);
  wo_headers : Forall plain_header xs;
  wo_injected : Forall (fun h => nul_free h.1 = true /\ nul_free h.2 = true) injected;
  wo_text : m_serialized m = Some t;
  wo_length : m_length m = strlen t;
  wo_plain : nul_free t = true
}.

Lemma wire_headers_plain injected m xs t : wire_ok injected m xs t -> Forall plain_header (wire_headers injected m xs).
Proof.
  intros [[? _] [? _] Hx Hi _ _ _]. unfold wire_headers. constructor; [split; [done|by apply print_dec_nul_free]|].
  constructor; [split; [done|by apply print_dec_nul_free]|]. apply Forall_app. split; [|done]. by apply Forall_fmap.
Qed.

Lemma wire_body_text injected m xs t : wire_ok injected m xs t -> wire_body m = t.
Proof. intros [_ _ _ _ Ht Hl _]. unfold wire_body. rewrite Ht, Hl. unfold strlen. rewrite Nat2Z.id. apply substring_full. Qed.

(** The message as far as it is known before its text is read. *)
Definition arrived_message (m : Message) (p : option header_list) (t : string) (c : Codec) : Message :=
  mkMessage (m_type m) (strlen t) (m_version m) p None (Some t) (Some c).

Lemma QM_bind_ok {A B} (m : QM A) (f : A -> QM B) s x s' : m s = inr (x, s') -> (m ≫= f) s = f x s'.
Proof. intros E. unfold mbind, QM_bind. by rewrite E. Qed.

Lemma in_mem_ok {A} (m : M A) r s : nt_allocs (qs_net s) = [] -> m [] = Some (r, []) -> in_mem m s = inr (r, s).
Proof.
  intros Ha E. unfold in_mem. rewrite Ha, E. destruct s as [q e []]; simpl in *. by rewrite Ha.
Qed.

Lemma find_header p xs k s : nt_allocs (qs_net s) = [] -> headers p xs ->
  in_mem (ListM.list_find p k) s = inr (find_first (fun h => MessageHeader_KeyCmp [] h k == 0) xs, s).
Proof. intros Ha Hh. apply in_mem_ok; [done|]. by rewrite (list_find_headers p xs k Hh). Qed.

Lemma decode_ok injected m xs t p m0 hd s m' o' : wire_ok injected m xs t -> headers p (wire_headers injected m xs) ->
  nt_allocs (qs_net s) = [] -> m_headers m0 = p -> m_length m0 = strlen t -> m_message m0 = None -> m_serialized m0 = Some t ->
  find_first (fun h => MessageHandler_KeyCmp [] h (m_type m) == 0) table = Some hd ->
  deserialize sg (hd_codec hd) (Some (arrived_message m p t (hd_codec hd))) [] = Some (true, Some m', o') ->
  decode_message sg handlerList m0 s = inr ((true, m'), mkQS (qs_queue s) (qs_errno s) (set_mem (qs_net s) o')).
Proof.
  intros Hok Hh Ha Em El Eb Es Ef Ed. unfold decode_message. rewrite Em.
  rewrite (QM_bind_ok _ _ _ _ _ (find_header p _ _ s Ha Hh)). cbn [m_headers].
  assert (E1 : find_first (fun h => MessageHeader_KeyCmp [] h sg_messageTypeHeaderName == 0) (wire_headers injected m xs) =
    Some (mkHeader sg_messageTypeHeaderName (print_dec (m_type m)))).
  { unfold wire_headers. cbn [find_first]. unfold MessageHeader_KeyCmp. cbn [mh_sName]. by rewrite strcmp_eqb, bool_decide_eq_true_2. }
  assert (E2 : find_first (fun h => MessageHeader_KeyCmp [] h sg_messageVersionHeaderName == 0) (wire_headers injected m xs) =
    Some (mkHeader sg_messageVersionHeaderName (print_dec (m_version m)))).
  { unfold wire_headers. cbn [find_first]. unfold MessageHeader_KeyCmp. cbn [mh_sName]. rewrite !strcmp_eqb.
    rewrite bool_decide_eq_false_2 by discriminate. rewrite bool_decide_eq_true_2 by reflexivity. reflexivity. }
  rewrite E1. rewrite (QM_bind_ok _ _ _ _ _ (find_header p _ _ s Ha Hh)), E2. cbn [mh_sValue m_type m_length m_version m_headers m_message m_serialized m_codec].
  destruct Hok as [Ht Hv _ _ _ _ _]. rewrite (strtoul32_print _ Ht), (strtoul32_print _ Hv), El, Eb, Es.
  set (m1 := mkMessage (m_type m) (strlen t) (m_version m) p None (Some t) (m_codec m0)).
  assert (E3 : call_message (Message_Setup handlerList) m1 s = inr ((true, arrived_message m p t (hd_codec hd)), s)).
  { unfold call_message. rewrite (Setup_run handlerList table Htable m1), Ha. cbn [m_type m1]. unfold m1 at 1. cbn [m_type].
    rewrite Ef. destruct s as [qq ee []]; simpl in *. by rewrite Ha. }
  rewrite (QM_bind_ok _ _ _ _ _ E3). cbn [negb]. rewrite (QM_bind_ok _ _ s (hd_codec hd) s) by done.
  unfold call_message. by rewrite Ha, Ed.
Qed.

(** The value of a header of kind UTF8 is taken up to the first NUL in memory and
    not up to its length: the receiver's header has what follows the value appended. *)
Theorem Queue_header_overread e p xs : te_kind e = AMQP_FIELD_KIND_UTF8 -> nul_free (te_key e) = true -> nul_free (te_bytes e) = true ->
  headers p xs ->
  exists p', copy_headers [e] p [] = Some (Some p', []) /\
    headers p' (xs ++ [mkHeader (te_key e) (te_bytes e +:+ c_string (te_after e))]).
Proof.
  intros Hk Hn Hb Hh. destruct (HeaderList_Add_run p xs (te_key e) (te_bytes e +:+ c_string (te_after e)) Hh) as (p' & E & Hh').
  exists p'. split; [|done]. unfold copy_headers. rewrite (M_bind_ok _ _ _ _ _ alloc_ok), Hk, (c_string_nul_free _ Hn), c_string_app by done.
  by rewrite (M_bind_ok _ _ _ _ _ E).
Qed.
End Wire.

(** ** A settlement of another delivery *)

Module queue_demo.
Definition net (calls : list bool) (arrivals : list arrival) (n : Net) : Net :=
  mkNet (nt_new n) calls arrivals [] [] (nt_next n) (nt_open n) (nt_log n).
Definition start_net : Net := mkNet [] [] [] [] [] 1 ∅ [].
Definition cfg : QueueConfig := mkQueueConfig (Some "broker") 5672 (Some "user") (Some "secret") (Some "/") false 1.
(** A delivery without headers. *)
Definition envelope (tag : Z) : amqp_envelope := mkEnvelope tag None "text".
Definition delivery (tag : Z) : arrival := mkArrival [] false (Delivered (envelope tag)).
End queue_demo.

Section Stale.
Context `{EVP} `{LibUuid} `{JsonText} `{Base64} `{Inet}.
Variable sg : UuidLists.
Variable handlerList : option handler_list.
Variable table : list MessageHandler.

Import queue_demo.

Definition run_get (s : QS) : QS := match Queue_Get_Ex sg handlerList false 100 s with inr (_, s') => s' | inl _ => s end.
Definition run_settle (m : MessageSettlement) (s : QS) : QS := match Queue_Settle_Message (Some m) true false s with inr (_, s') => s' | inl _ => s end.
Definition with_net (calls : list bool) (arrivals : list arrival) (s : QS) : QS := mkQS (qs_queue s) 0 (net calls arrivals (qs_net s)).

Definition created : QS :=
  match Queue_Create_With_Host (Some "q") false 6 cfg (mkQS None 0 start_net) with inr (_, s') => s' | inl _ => mkQS None 0 start_net end.
Definition first_received : QS := run_get (with_net [] [delivery 1] created).
Definition first_settled : QS := run_settle (mkSettlement 1 1 false false) first_received.
(** The acknowledgment of the first delivery is refused while the second is at hand. *)
Definition second_received : QS := run_get (with_net [false] [delivery 2] first_settled).
Definition second_settled : QS := run_settle (mkSettlement 2 2 false false) second_received.
Definition finished : QS := run_get (with_net [] [] second_settled).

Lemma finished_log : nt_log (qs_net finished) =
  [E_Open 1; E_Declare 1 (Some "q"); E_Qos 1 1; E_Consume 1; E_Deliver 1 1; E_Deliver 1 2; E_Refused 1; E_Close 1;
   E_Open 2; E_Declare 2 (Some "q"); E_Qos 2 1; E_Consume 2; E_Ack 2 2].
Proof. vm_compute. reflexivity. Qed.

(** What the deliveries and the settlements of the run are. *)
Lemma run_get_owes s m : match Queue_Get_Ex sg handlerList false 100 s with inr (r, _) => bool_decide (owes r = m) | inl _ => false end = true ->
  exists r, Queue_Get_Ex sg handlerList false 100 s = inr (r, run_get s) /\ owes r = m.
Proof. unfold run_get. destruct (Queue_Get_Ex _ _ _ _ _) as [e|[r s']]; [done|]. intros Hm. apply bool_decide_eq_true in Hm. by exists r. Qed.

Lemma run_settle_done m s : match Queue_Settle_Message (Some m) true false s with inr (true, None, _) => true | _ => false end = true ->
  Queue_Settle_Message (Some m) true false s = inr ((true, None), run_settle m s).
Proof. unfold run_settle. by destruct (Queue_Settle_Message _ _ _ _) as [e|[[[] [m'|]] s']]. Qed.

Lemma get_runs : exists r1 r2 r3,
  (Queue_Get_Ex sg handlerList false 100 (with_net [] [delivery 1] created) = inr (r1, first_received) /\ owes r1 = [mkSettlement 1 1 false false]) /\
  (Queue_Get_Ex sg handlerList false 100 (with_net [false] [delivery 2] first_settled) = inr (r2, second_received) /\
    owes r2 = [mkSettlement 2 2 false false]) /\
  (Queue_Get_Ex sg handlerList false 100 (with_net [] [] second_settled) = inr (r3, finished) /\ owes r3 = []).
Proof.
  destruct (run_get_owes (with_net [] [delivery 1] created) [mkSettlement 1 1 false false]) as [r1 E1]; [vm_compute; reflexivity|].
  destruct (run_get_owes (with_net [false] [delivery 2] first_settled) [mkSettlement 2 2 false false]) as [r2 E2]; [vm_compute; reflexivity|].
  destruct (run_get_owes (with_net [] [] second_settled) []) as [r3 E3]; [vm_compute; reflexivity|]. exists r1, r2, r3. exact (conj E1 (conj E2 E3)).
Qed.

Lemma settle_runs :
  Queue_Settle_Message (Some (mkSettlement 1 1 false false)) true false first_received = inr ((true, None), first_settled) /\
  Queue_Settle_Message (Some (mkSettlement 2 2 false false)) true false second_received = inr ((true, None), second_settled).
Proof. split; apply run_settle_done; vm_compute; reflexivity. Qed.

Lemma demo_weather calls arrivals s held : all_tame table (net calls arrivals (qs_net s)) -> concat (ar_settlements <$> arrivals) = [] ->
  qstep sg handlerList table (s, held, 0) (with_net calls arrivals s, held, 0).
Proof.
  intros Ht Hc. apply s_weather; [|done]. split; try done. unfold coming. simpl. rewrite Hc. simpl. rewrite fmap_app. by apply submseteq_inserts_l.
Qed.

Lemma demo_tame calls tag n : all_tame table (net calls [delivery tag] n).
Proof. intros a e Ha Hr. apply list_elem_of_singleton in Ha. subst. injection Hr as <-. by intros es t c. Qed.

Lemma demo_get s held s' r m : Queue_Get_Ex sg handlerList false 100 s = inr (r, s') -> owes r = m ->
  qstep sg handlerList table (s, held, 0) (s', m ++ held, 0).
Proof. intros E <-. by apply (s_get sg handlerList table s held 0 false 100 r s'). Qed.

Lemma demo_settle s s' m : Queue_Settle_Message (Some m) true false s = inr ((true, None), s') ->
  qstep sg handlerList table (s, [m], 0) (s', [], 0).
Proof. intros E. by apply (s_settle sg handlerList table s [] 0 m true false (true, None) s'). Qed.

(** The order of the calls, for any states. *)
Lemma demo_path s0 s1 s2 s3 s4 s5 r1 r2 r3 m1 m2 :
  Queue_Get_Ex sg handlerList false 100 (with_net [] [delivery 1] s0) = inr (r1, s1) -> owes r1 = [m1] ->
  Queue_Settle_Message (Some m1) true false s1 = inr ((true, None), s2) ->
  Queue_Get_Ex sg handlerList false 100 (with_net [false] [delivery 2] s2) = inr (r2, s3) -> owes r2 = [m2] ->
  Queue_Settle_Message (Some m2) true false s3 = inr ((true, None), s4) ->
  Queue_Get_Ex sg handlerList false 100 (with_net [] [] s4) = inr (r3, s5) -> owes r3 = [] ->
  rtc (qstep sg handlerList table) (s0, [], 0) (s5, [], 0).
Proof.
  intros G1 O1 S1 G2 O2 S2 G3 O3.
  eapply rtc_l; [apply (demo_weather [] [delivery 1]); [apply demo_tame|reflexivity]|]. eapply rtc_l; [exact (demo_get _ [] _ _ _ G1 O1)|].
  eapply rtc_l; [exact (demo_settle _ _ _ S1)|].
  eapply rtc_l; [apply (demo_weather [false] [delivery 2]); [apply demo_tame|reflexivity]|]. eapply rtc_l; [exact (demo_get _ [] _ _ _ G2 O2)|].
  eapply rtc_l; [exact (demo_settle _ _ _ S2)|].
  eapply rtc_l; [apply (demo_weather [] []); [by intros a e ?%elem_of_nil|reflexivity]|]. eapply rtc_l; [exact (demo_get _ [] _ _ _ G3 O3)|].
  apply rtc_refl.
Qed.

Lemma demo_created : Queue_Create_With_Host (Some "q") false 6 cfg (mkQS None 0 start_net) = inr (true, created).
Proof. vm_compute. reflexivity. Qed.

Lemma stale_reachable : reachable sg handlerList table (finished, [], 0).
Proof.
  destruct get_runs as (r1 & r2 & r3 & [G1 O1] & [G2 O2] & [G3 O3]). destruct settle_runs as [S1 S2].
  exists (mkQS None 0 start_net), (Some "q"), false, 6, cfg, created. split; [by split|]. split; [exact demo_created|].
  exact (demo_path _ _ _ _ _ _ _ _ _ _ _ G1 O1 S1 G2 O2 S2 G3 O3).
Qed.

End Stale.

(** ** Witnesses *)

Module queue_demo2.
Import queue_demo.

Section Demo.
Variable p : option handler_list.

Lemma first_reachable : reachable cnc_demo.sg p registered (first_received cnc_demo.sg p, [mkSettlement 1 1 false false], 0).
Proof.
  destruct (get_runs cnc_demo.sg p) as (r1 & _ & _ & [G1 O1] & _).
  exists (mkQS None 0 start_net), (Some "q"), false, 6, cfg, created. split; [by split|]. split; [exact demo_created|].
  eapply rtc_l; [apply (demo_weather cnc_demo.sg p registered [] [delivery 1]); [apply demo_tame|reflexivity]|].
  eapply rtc_l; [exact (demo_get cnc_demo.sg p registered _ [] _ _ _ G1 O1)|]. apply rtc_refl.
Qed.

(** A queue that sends. *)
Definition sender : QS :=
  match Queue_Create_With_Host (Some "q") false 1 cfg (mkQS None 0 start_net) with inr (_, s') => s' | inl _ => mkQS None 0 start_net end.

Lemma sender_reachable : reachable cnc_demo.sg p registered (sender, [], 0).
Proof.
  exists (mkQS None 0 start_net), (Some "q"), false, 1, cfg, sender. split; [by split|]. split; [vm_compute; reflexivity|]. apply rtc_refl.
Qed.
End Demo.

Definition bye : Message := mkMessage MESSAGE_TYPE_BYE 2 1 None None (Some "{}") (Some C_Empty).

Definition receiver : Queue := mkQueue (Some (mkSocket 1 (Some "q") true)) None "q" 2 None 1 1 cfg false false false.
End queue_demo2.

Import queue_demo queue_demo2.



Lemma Queue_Put_once_witness : exists p, handlers p registered /\
  exists ok m' s' es q, Queue_Put_Dest cnc_demo.sg [] bye "q" sender = inr ((ok, m'), s') /\ qs_queue sender = Some q /\
    serialized_from bye m' /\ nt_log (qs_net s') = nt_log (qs_net sender) ++ es /\
    published es = if ok : bool then [wire (q_bTopic q) "q" [] m' []] else [].
Proof.
  destruct Message_Init_run as (p & _ & Hp). exists p. split; [exact Hp|].
  refine (Queue_Put_once cnc_demo.sg p registered json_demo.types [cnc_demo.dispatcher] json_demo.types_entries cnc_demo.nugget_entries Hp
    sender [] 0 [] bye [] "q" (sender_reachable p) _ _ _).
  - vm_compute. discriminate.
  - vm_compute. reflexivity.
  - split_and!; [left; split; reflexivity|reflexivity|left; exists "{}"; reflexivity].
Defined.


Lemma Queue_header_overread_witness : exists l p', headers (Some l) [] /\
  copy_headers [mkEntry "Source" AMQP_FIELD_KIND_UTF8 "a" "b"] (Some l) [] = Some (Some p', []) /\ headers p' [mkHeader "Source" "ab"].
Proof.
  destruct (create_ok MessageHeader_Cmp MessageHeader_KeyCmp MessageHeader_Delete MessageHeader_Clone) as (l & _ & Hc & Hp & _ & Hk & _).
  assert (Hh : headers (Some l) []) by (exists l; split_and!; [reflexivity|exact Hc|exact Hp|exact Hk]).
  destruct (Queue_header_overread (mkEntry "Source" AMQP_FIELD_KIND_UTF8 "a" "b") (Some l) [] eq_refl eq_refl eq_refl Hh) as (p' & E & Hp').
  exists l, p'. split_and!; [exact Hh|exact E|exact Hp'].
Defined.
