(* ===== verification/QueueOpen.v ===== *)
(** * A queue that nobody terminates stays open: src/queue.c

    Receiving and settling retain the queue and release it again; only
    [Queue_Terminate] takes the reference of the owner.  As long as no other thread
    calls it during a wait ([calm]), the queue is there after every call. *)

From S2P Require Import Prelude CLib RzbList RzbListProps ListM Hash LibUuid Uuids Ntlv Blocks JsonC JsonBuffer JsonText Messages MessageCodecs CncMessages MessageProps CncThms MessageSafety Entities BlockPool Transfer Queue QueueProps QueueRuns QueueGet QueueSend QueueThms Prelude.

Local Open Scope Z_scope.

(** No coming arrival brings a termination by another thread. *)
Definition calm (s : QS) : Prop := Forall (fun a => ar_terminate a = false) (nt_arrivals (qs_net s)).

(** The references and the mark of the termination. *)
Definition tie (s : QS) : option (Z * bool) := (fun q => (q_refs q, q_bShuttingDown q)) <$> qs_queue s.

(** The call keeps both. *)
Definition steady {A} (m : QM A) : Prop := forall s x s', m s = inr (x, s') -> calm s -> calm s' /\ tie s' = tie s.

(** The owner holds its reference and no call is under way. *)
Definition open (s : QS) : Prop := tie s = Some (1, false).

Section Steady.
Lemma steady_ret {A} (x : A) : steady (mret x).
Proof. by intros s y s' [= <- <-]. Qed.
Lemma steady_bind {A B} (m : QM A) (f : A -> QM B) : steady m -> (forall x, steady (f x)) -> steady (m ≫= f).
Proof.
  intros Hm Hf s y s' E Hc. unfold mbind, QM_bind in E. destruct (m s) as [e|[x s1]] eqn:E1; [done|].
  destruct (Hm _ _ _ E1 Hc) as [Hc1 <-]. by eapply Hf.
Qed.
Lemma steady_fault {A} e : steady (qm_fault e : QM A).
Proof. done. Qed.
Lemma steady_queue : steady the_queue.
Proof. intros s x s'. unfold the_queue. destruct (qs_queue s) eqn:Es; [|done]. by intros [= <- <-]. Qed.
Lemma steady_on_queue f : (forall q, q_refs (f q) = q_refs q /\ q_bShuttingDown (f q) = q_bShuttingDown q) -> steady (on_queue f).
Proof.
  intros Hf s x s' E Hc. unfold on_queue, mbind, QM_bind, the_queue, set_queue in E. destruct (qs_queue s) as [q|] eqn:Es; [|done].
  injection E as <- <-. split; [done|]. unfold tie. rewrite Es. simpl. by destruct (Hf q) as [-> ->].
Qed.
Lemma steady_deref {A} (p : option A) : steady (qm_deref p).
Proof. destruct p; [apply steady_ret|done]. Qed.
Lemma steady_in_mem {A} (m : M A) : steady (in_mem m).
Proof. intros s x s'. unfold in_mem. destruct (m _) as [[r o]|]; [|done]. by intros [= <- <-]. Qed.
Lemma steady_lib_call : steady lib_call.
Proof. intros s x s'. unfold lib_call. destruct (alloc_next _). by intros [= <- <-]. Qed.
Lemma steady_errno e : steady (set_errno e).
Proof. by intros s x s' [= <- <-]. Qed.
Lemma steady_on_net f : (forall n, nt_arrivals (f n) = nt_arrivals n) -> steady (on_net f).
Proof. intros Hf s x s' [= <- <-] Hc. split; [|done]. unfold calm in *. simpl. by rewrite Hf. Qed.
Lemma steady_record e : steady (record_event e).
Proof. by apply steady_on_net. Qed.
Lemma steady_new_connection : steady amqp_new_connection.
Proof. intros s x s'. unfold amqp_new_connection. destruct (alloc_next _) as [[] r]; [|done]. by intros [= <- <-]. Qed.
Lemma steady_destroy_connection c : steady (amqp_destroy_connection c).
Proof. by apply steady_on_net. Qed.
Lemma steady_Service p : steady (AMQP_Service_Connection p).
Proof. intros s x s'. unfold AMQP_Service_Connection. destruct p; [destruct (service_frames _)|]; by intros [= <- <-]. Qed.
End Steady.

Create HintDb qsteady.
#[export] Hint Resolve steady_ret steady_fault steady_queue steady_deref steady_in_mem steady_lib_call steady_errno steady_record : qsteady.
#[export] Hint Resolve steady_new_connection steady_destroy_connection steady_Service : qsteady.

Ltac q_steady :=
  repeat match goal with
  | |- steady (_ ≫= _) => apply steady_bind; [|intros]
  | |- steady (if ?b then _ else _) => destruct b
  | |- steady (match ?x with _ => _ end) => destruct x
  | |- steady (on_queue _) => by apply steady_on_queue
  | |- steady _ => progress (eauto with qsteady)
  end; try done.

Lemma steady_Connect_Socket cfg : steady (Queue_Connect_Socket cfg).
Proof. unfold Queue_Connect_Socket, new_socket, AMQP_Socket_Close. q_steady. Qed.
Lemma steady_BeginReading : steady Queue_BeginReading.
Proof. unfold Queue_BeginReading, recorded_call. q_steady. Qed.
#[export] Hint Resolve steady_Connect_Socket steady_BeginReading : qsteady.
Lemma steady_Connect_Sockets : steady Queue_Connect_ReadSocket /\ steady Queue_Connect_WriteSocket.
Proof. split; unfold Queue_Connect_ReadSocket, Queue_Connect_WriteSocket, AMQP_Socket_Close; q_steady. Qed.
Lemma steady_Reconnect side : steady (Queue_Reconnect side).
Proof. destruct steady_Connect_Sockets. unfold Queue_Reconnect, AMQP_Socket_Close. q_steady. Qed.
#[export] Hint Resolve steady_Reconnect : qsteady.
Lemma steady_settle e : steady (settle e).
Proof. unfold settle. q_steady. Qed.
#[export] Hint Resolve steady_settle : qsteady.

(** The functions that replace the list of the settlements. *)
Lemma steady_replaced {A} (m : Queue -> QM A) : (forall s q x s', qs_queue s = Some q -> m q s = inr (x, s') -> calm s -> calm s' /\ tie s' = tie s) ->
  steady (q ← the_queue; m q).
Proof. intros Hm s x s' E Hc. unfold mbind, QM_bind, the_queue in E. destruct (qs_queue s) as [q|] eqn:Es; [|done]. by eapply Hm. Qed.

Lemma tie_replaced s q l e n : qs_queue s = Some q -> tie (mkQS (Some (set_pendingSettlements q l)) e n) = tie s.
Proof. unfold tie. by intros ->. Qed.

Lemma steady_pop : steady pop_settlement.
Proof.
  apply steady_replaced. intros s q x s' Eq E Hc. destruct (List_Pop _) as [[[r|] l]|]; try done.
  injection E as <- <-. split; [done|]. by apply tie_replaced.
Qed.

Lemma steady_Enqueue m ack rq : steady (Queue_Enqueue_Settlement m ack rq).
Proof.
  destruct m as [m|]; [|apply steady_ret]. apply steady_replaced. intros s q x s' Eq E Hc.
  destruct (q_pendingSettlements q) as [l|]; [|by injection E as <- <-].
  unfold in_mem, mbind, QM_bind in E. destruct (alloc _) as [[ok o]|]; [|done].
  destruct (List_Push _ _ _) as [[b l']|]; [|done]. injection E as <- <-. split; [done|]. by apply tie_replaced.
Qed.
#[export] Hint Resolve steady_pop steady_Enqueue : qsteady.

Lemma steady_settle_loop fuel : steady (settle_loop fuel).
Proof. induction fuel; simpl; unfold Queue_Acknowledge_Delivery, Queue_Reject_Delivery; q_steady. Qed.
#[export] Hint Resolve steady_settle_loop : qsteady.
Lemma steady_Process : steady Queue_Process_Pending_Settlements.
Proof. unfold Queue_Process_Pending_Settlements. q_steady. Qed.
Lemma steady_others ms : steady (others_settle ms).
Proof. induction ms; simpl; unfold other_settles; q_steady. Qed.
#[export] Hint Resolve steady_Process steady_others : qsteady.

Lemma steady_consume c : steady (amqp_consume_message c).
Proof.
  intros s x s' E Hc. unfold amqp_consume_message in E. destruct (nt_arrivals (qs_net s)) as [|a r] eqn:Ea; [by injection E as <- <-|].
  unfold calm in Hc. rewrite Ea in Hc. apply Forall_cons in Hc as [Ht Hc]. rewrite Ht in E.
  unfold mbind at 1, QM_bind at 1, on_net at 1 in E. set (s1 := mkQS (qs_queue s) (qs_errno s) (set_arrivals (qs_net s) r)) in E.
  assert (Hs : steady (others_settle (ar_settlements a) ;; mret () ;;
    (match ar_reply a with Delivered e => record_event (E_Deliver c (en_delivery_tag e)) | _ => mret () end) ;; mret (ar_reply a))) by q_steady.
  by apply (Hs s1 x s') in E.
Qed.
#[export] Hint Resolve steady_consume : qsteady.

Lemma steady_wait fuel : forall t r, steady (wait_loop fuel t r).
Proof. induction fuel; intros t r; simpl; q_steady. Qed.
#[export] Hint Resolve steady_wait : qsteady.

Section Open.
Context `{EVP} `{LibUuid} `{JsonText} `{Base64} `{Inet}.
Variable sg : UuidLists.
Variable handlerList : option handler_list.

Lemma steady_call c m : steady (call_message c m).
Proof. intros s x s'. unfold call_message. destruct (c _ _) as [[[ok [m'|]] o]|]; try done. by intros [= <- <-]. Qed.
#[local] Hint Resolve steady_call : qsteady.

Lemma steady_read aa e : steady (read_envelope sg handlerList aa e).
Proof. unfold read_envelope, decode_message. q_steady. Qed.
#[local] Hint Resolve steady_read : qsteady.

(** A call between a retain and a release leaves the queue open. *)
Lemma retained_open {A} (m : bool -> QM A) s x s' : (forall s1 x s', tie s1 = Some (2, false) -> calm s1 -> m true s1 = inr (x, s') -> calm s' /\ open s') ->
  open s -> calm s -> (Queue_Retain ≫= m) s = inr (x, s') -> calm s' /\ open s'.
Proof.
  intros Hm Ho Hc E. unfold open, tie in Ho. destruct (qs_queue s) as [q|] eqn:Eq; [|done]. simpl in Ho. injection Ho as Hr Hs.
  unfold mbind at 1, QM_bind at 1, Queue_Retain, on_queue, mbind, QM_bind, the_queue, set_queue in E. rewrite Eq, Hr in E. simpl in E. rewrite Eq in E.
  eapply Hm in E; [done| |done]. unfold tie. simpl. by rewrite Hr, Hs.
Qed.

Lemma release_open {A} (m : QM A) s x s' : steady m -> tie s = Some (2, false) -> calm s -> (Queue_Release ;; m) s = inr (x, s') -> calm s' /\ open s'.
Proof.
  intros Hm Ht Hc E. unfold tie in Ht. destruct (qs_queue s) as [q|] eqn:Eq; [|done]. simpl in Ht. injection Ht as Hr Hs.
  unfold mbind at 1, QM_bind at 1, Queue_Release, on_queue, mbind, QM_bind, the_queue, set_queue in E. rewrite Eq in E. simpl in E. rewrite Eq, Hr in E. simpl in E.
  destruct (Hm _ _ _ E Hc) as [? Et]. split; [done|]. unfold open. rewrite Et. unfold tie. simpl. by rewrite Hs.
Qed.

Lemma before_release {A B} (m : QM A) (f : A -> QM B) s x s' : steady m -> tie s = Some (2, false) -> calm s ->
  (forall y s1, tie s1 = Some (2, false) -> calm s1 -> f y s1 = inr (x, s') -> calm s' /\ open s') ->
  (m ≫= f) s = inr (x, s') -> calm s' /\ open s'.
Proof.
  intros Hm Ht Hc Hf E. unfold mbind, QM_bind in E. destruct (m s) as [e|[y s1]] eqn:E1; [done|].
  destruct (Hm _ _ _ E1 Hc) as [Hc1 Ht1]. eapply (Hf y s1); [congruence|done|exact E].
Qed.

Lemma Settle_open m ack rq s x s' : open s -> calm s -> Queue_Settle_Message m ack rq s = inr (x, s') -> calm s' /\ open s'.
Proof.
  intros Ho Hc E. unfold Queue_Settle_Message, retained in E. eapply retained_open in E; [done| |done..]. clear.
  intros s x s' Ht Hc E. simpl in E. eapply before_release in E; [done|q_steady|done..|]. clear. intros y s1 Ht Hc E.
  eapply release_open in E; [done|q_steady|done..].
Qed.

Lemma Get_open aa timeout s x s' : open s -> calm s -> Queue_Get_Ex sg handlerList aa timeout s = inr (x, s') -> calm s' /\ open s'.
Proof.
  intros Ho Hc E. unfold Queue_Get_Ex in E. eapply retained_open in E; [done| |done..]. clear.
  intros s x s' Ht Hc E. simpl in E. eapply before_release in E; [done|q_steady|done..|]. clear. intros q s Ht Hc E.
  assert (Hnull : forall (y : option Received) s, tie s = Some (2, false) -> calm s -> (Queue_Release ;; mret y) s = inr (x, s') -> calm s' /\ open s').
  { intros y s1 Ht1 Hc1 E1. eapply release_open in E1; [done|q_steady|done..]. }
  destruct (q_bShuttingDown q); [by eapply Hnull|].
  eapply before_release in E; [done|q_steady|done..|]. intros ok s1 Ht1 Hc1 E1. destruct ok; simpl in E1; [|by eapply Hnull].
  eapply before_release in E1; [done| |done..|].
  { intros s2 y s3 E2. by eapply steady_wait. }
  intros w s2 Ht2 Hc2 E2. destruct w as [e|[e|]]; [| |by eapply Hnull].
  - eapply before_release in E2; [done|q_steady|done..|]. intros r s3 Ht3 Hc3 E3. destruct r as [rq p|rv].
    + eapply before_release in E3; [done|unfold Queue_Reject_Delivery; q_steady|done..|]. intros ? s4 Ht4 Hc4 E4.
      eapply release_open in E4; [done|unfold drop_message; q_steady|done..].
    + eapply before_release in E3; [done|unfold Queue_Acknowledge_Delivery; q_steady|done..|]. intros ? s4 Ht4 Hc4 E4. by eapply Hnull.
  - eapply before_release in E2; [done|unfold Queue_Reject_Delivery; q_steady|done..|]. intros ? s4 Ht4 Hc4 E4. by eapply Hnull.
Qed.
End Open.
