(* ===== verification/QueueLists.v ===== *)
(** * The queues by identifier: src/queue_list.c, src/inspector_queue.c, src/response_queue.c

    A queue list maps the UUIDs of application types or collectors to queues.  The two
    registries create a queue on first use and terminate it by its UUID.  A queue is an
    address; [rg_queues] are those that exist, with their names and flags, and the
    outcomes of the coming [Queue_Create] are a list (an exhausted one means success).
    A function returns [None] when it crashes. *)

From S2P Require Import Prelude CLib RzbList RzbListProps ListM Hash LibUuid Uuids Ntlv Blocks JsonC JsonBuffer JsonText Messages MessageCodecs CncMessages Entities BlockPool Transfer Queue Prelude.

Local Open Scope Z_scope.

Section Lists.
Context `{LibUuid}.

(** [struct QueueListEntry]; [qe_addr] is its address, which [QueueList_Cmp] compares. *)
Record QueueListEntry := mkQueueEntry { qe_addr : positive; qe_pQueue : positive; qe_uuiKey : uuid_t }.

Global Instance QueueListEntry_eq_dec : EqDecision QueueListEntry.
Proof. solve_decision. Defined.

Abbreviation queue_list := (vlist uuid_t QueueListEntry).

Definition QueueList_KeyCmp (s : allocs) (a : QueueListEntry) (id : uuid_t) : Z := uuid_compare id (qe_uuiKey a).
Definition QueueList_Cmp (s : allocs) (a b : QueueListEntry) : Z := if bool_decide (qe_addr a = qe_addr b) then 0 else -1.
Definition QueueList_Destroy (item : QueueListEntry) (s : allocs) : allocs := s.

Definition QueueList_Create : M queue_list := fun o =>
  let '(b1, o1) := alloc_next o in
  let '(b2, o2) := if b1 : bool then alloc_next o1 else (true, o1) in
  Some (List_Create b1 b2 true LIST_MODE_GENERIC (Some QueueList_Cmp) (Some QueueList_KeyCmp) (Some QueueList_Destroy) None None None, o2).

Definition QueueList_Find (p_pList : option queue_list) (p_pId : uuid_t) : M positive :=
  entry ← ListM.list_find p_pList p_pId;
  mret (qe_pQueue entry).

(** [addr] is the address of the entry. *)
Definition QueueList_Add (addr : positive) (p_pList : option queue_list) (p_pQ : positive) (p_pId : uuid_t) : M (option queue_list) :=
  l ← nonnull p_pList;
  alloc ;;
  '(pushed, p) ← list_push (Some l) (mkQueueEntry addr p_pQ p_pId);
  require pushed ;;
  mret p.

Definition remove_entry (p_pList : option queue_list) (entry : QueueListEntry) : M (option queue_list) := fun o =>
  '(_, p, o') ← List_Remove p_pList (Some entry) o; Some (Some p, o').

Definition QueueList_Remove (p_pList : option queue_list) (p_pId : uuid_t) : M (option queue_list) :=
  entry ← ListM.list_find p_pList p_pId;
  remove_entry p_pList entry.

(** ** The registries *)

Record Registry := mkRegistry {
  rg_list : option queue_list;
  rg_initialized : bool;
  rg_queues : gmap positive (string * Z);
  rg_next : positive;
  rg_creates : list bool;
  rg_allocs : allocs
}.

Definition RM (A : Type) : Type := Registry -> option (A * Registry).
Global Instance RM_ret : MRet RM := fun A x r => Some (x, r).
Global Instance RM_bind : MBind RM := fun A B f m r => match m r with Some (x, r') => f x r' | None => None end.

Definition registry_of : RM Registry := fun r => Some (r, r).
Definition in_memory {A} (m : M A) : RM (option A) := fun r =>
  '(x, o) ← m (rg_allocs r); Some (x, mkRegistry (rg_list r) (rg_initialized r) (rg_queues r) (rg_next r) (rg_creates r) o).
Definition set_list (p : option queue_list) (init : bool) : RM unit := fun r =>
  Some ((), mkRegistry p init (rg_queues r) (rg_next r) (rg_creates r) (rg_allocs r)).

(** A fresh address. *)
Definition fresh_address : RM positive := fun r =>
  Some (rg_next r, mkRegistry (rg_list r) (rg_initialized r) (rg_queues r) (Pos.succ (rg_next r)) (rg_creates r) (rg_allocs r)).

(** [Queue_Create] and [Queue_Terminate], as far as the registries see them. *)
Definition create_queue (name : string) (flags : Z) : RM (option positive) := fun r =>
  let q := rg_next r in
  let '(ok, cs) := alloc_next (rg_creates r) in
  Some (if ok : bool then Some q else None,
        mkRegistry (rg_list r) (rg_initialized r) (if ok : bool then <[q := (name, flags)]> (rg_queues r) else rg_queues r)
          (Pos.succ q) cs (rg_allocs r)).
Definition terminate_queue (q : positive) : RM unit := fun r =>
  Some ((), mkRegistry (rg_list r) (rg_initialized r) (delete q (rg_queues r)) (rg_next r) (rg_creates r) (rg_allocs r)).

(** The code of [InspectorQueue_Initialize] and [ResponseQueue_Initialize]; the buffer of
    the name has 128 bytes. *)
Definition queue_initialize (leading : string) (id : uuid_t) (p_iFlags : Z) : RM (option positive) :=
  r ← registry_of;
  (if rg_initialized r then mret ()
   else l ← in_memory QueueList_Create; set_list l true) ;;
  let name := default "" (Queue_GetQueueName (Some leading) id 128) in
  r ← registry_of;
  found ← in_memory (QueueList_Find (rg_list r) id);
  match found with
  | Some q => mret (Some q)
  | None =>
      made ← create_queue name p_iFlags;
      match made with
      | None => mret None
      | Some q =>
          addr ← fresh_address;
          r ← registry_of;
          added ← in_memory (QueueList_Add addr (rg_list r) q id);
          match added with
          | None => terminate_queue q ;; mret None
          | Some p => set_list p true ;; mret (Some q)
          end
      end
  end.

Definition queue_terminate (id : uuid_t) : RM unit :=
  r ← registry_of;
  if negb (rg_initialized r) then mret ()
  else
    found ← in_memory (QueueList_Find (rg_list r) id);
    match found with
    | None => mret ()
    | Some q =>
        removed ← in_memory (QueueList_Remove (rg_list r) id);
        (match removed with Some p => set_list p true | None => mret () end) ;;
        terminate_queue q
    end.

Definition InspectorQueue_GetQueueName (id : uuid_t) (size : Z) : option string := Queue_GetQueueName (Some "INSPECTOR") id size.
Definition InspectorQueue_Initialize (id : uuid_t) (p_iFlags : Z) : RM (option positive) := queue_initialize "INSPECTOR" id p_iFlags.
Definition InspectorQueue_Terminate (id : uuid_t) : RM unit := queue_terminate id.

Definition ResponseQueue_GetQueueName (id : uuid_t) (size : Z) : option string := Queue_GetQueueName (Some "RESPONSE") id size.
Definition ResponseQueue_Initialize (id : uuid_t) (p_iFlags : Z) : RM (option positive) := queue_initialize "RESPONSE" id p_iFlags.
Definition ResponseQueue_Terminate (id : uuid_t) : RM unit := queue_terminate id.
End Lists.

Abbreviation queue_list := (vlist uuid_t QueueListEntry).

(** ** What the registries do *)

Section Theorems.
Context `{LibUuidLaws}.

(** [p] is a queue list with these entries. *)
Definition queue_entries (p : option queue_list) (xs : list QueueListEntry) : Prop :=
  exists l, p = Some l /\ contents l xs /\ plain l /\ l_keyCmp l = Some QueueList_KeyCmp /\ l_cmp l = Some QueueList_Cmp /\
    l_destroy l = Some QueueList_Destroy.

(** The registry with its entries: the queues that exist are those of the entries. *)
Record registry_ok (r : Registry) (xs : list QueueListEntry) : Prop := {
  ro_list : rg_list r = None /\ xs = [] \/ rg_initialized r = true /\ queue_entries (rg_list r) xs;
  ro_keys : NoDup (qe_uuiKey <$> xs);
  ro_apart : NoDup (qe_pQueue <$> xs);
  ro_addrs : NoDup (qe_addr <$> xs);
  ro_queues : dom (rg_queues r) = list_to_set (qe_pQueue <$> xs);
  ro_fresh : Forall (fun e => (qe_pQueue e < rg_next r)%positive /\ (qe_addr e < rg_next r)%positive) xs
}.

Definition with_key (id : uuid_t) (xs : list QueueListEntry) : option QueueListEntry := find_first (fun e => bool_decide (id = qe_uuiKey e)) xs.

Lemma QueueList_Create_run o : exists r o', QueueList_Create o = Some (r, o') /\ forall l, r = Some l -> queue_entries (Some l) [].
Proof.
  unfold QueueList_Create. destruct (alloc_next o) as [b1 o1]. destruct b1; [destruct (alloc_next o1) as [b2 o2]|].
  - eexists _, _. split; [done|]. intros l E. exists l. split_and!; [done|by eapply Create_contents|..]; destruct b2; try done; by injection E as <-.
  - by eexists _, _.
Qed.

Lemma Find_entries p xs id o : queue_entries p xs \/ p = None /\ xs = [] ->
  ListM.list_find p id o = Some (with_key id xs, o).
Proof.
  intros [(l & -> & Hc & Hp & Hk & _)|[-> ->]]; [|done]. rewrite (find_plain l xs _ _ o Hc Hp Hk). unfold with_key.
  do 2 f_equal. apply find_first_ext. intros e. unfold QueueList_KeyCmp. apply uuid_compare_eqb.
Qed.

Lemma Add_entries addr p xs q id o : queue_entries p xs -> exists r o', QueueList_Add addr p q id o = Some (r, o') /\
  forall p', r = Some p' -> queue_entries p' (xs ++ [mkQueueEntry addr q id]).
Proof.
  intros (l & -> & Hc & Hp & Hk & Hm & Hd). unfold QueueList_Add, nonnull. rewrite M_ret_bind, alloc_bind. destruct (fst (alloc_next o)); [|by eexists _, _].
  destruct (push_plain l xs (mkQueueEntry addr q id) (snd (alloc_next o)) Hc Hp) as (l' & E & Hme & Hc'). rewrite (M_bind_ok _ _ _ _ _ E).
  destruct (fst (alloc_next (snd (alloc_next o)))); [|by eexists _, _]. eexists _, _. split; [done|]. intros p' [= <-]. exists l'.
  split_and!; [done|done|by eapply plain_meta|..]; unfold meta in Hme; congruence.
Qed.

Lemma with_key_elem id xs e : with_key id xs = Some e -> e ∈ xs /\ qe_uuiKey e = id.
Proof. intros Hf. apply find_first_elem in Hf as [He Hk]. apply bool_decide_eq_true in Hk. done. Qed.

Lemma with_key_none id xs : with_key id xs = None -> id ∉ qe_uuiKey <$> xs.
Proof.
  intros Hf (e & -> & He)%list_elem_of_fmap. unfold with_key in Hf. rewrite find_first_None, Forall_forall in Hf.
  specialize (Hf e He). simpl in Hf. by rewrite bool_decide_eq_true_2 in Hf.
Qed.

(** An entry goes, the others stay. *)
Definition without (a : positive) (xs : list QueueListEntry) : list QueueListEntry := filter (fun e => qe_addr e <> a) xs.

Lemma Remove_entries p xs id e o : queue_entries p xs -> with_key id xs = Some e ->
  exists p', QueueList_Remove p id o = Some (Some p', o) /\ queue_entries p' (without (qe_addr e) xs).
Proof.
  intros Hq He. pose proof Hq as (l & -> & Hc & Hp & Hk & Hm & Hd). unfold QueueList_Remove.
  rewrite (M_bind_ok _ _ _ _ _ (eq_trans (Find_entries (Some l) xs id o (or_introl Hq)) (f_equal (fun r => Some (r, o)) He))).
  destruct (Remove_contents l xs e o Hc (plain_locks _ Hp)) as (l' & E & Hme & _ & Hc'). unfold remove_entry. rewrite E. cbn [mbind option_bind].
  exists (Some l'). split.
  - f_equal. f_equal. rewrite Hd. unfold spec.destroy_all. generalize (filter (fun x => removes l o e x = true) xs). intros ys.
    induction ys as [|y ys IH]; [done|exact IH].
  - assert (Hf : filter (fun x => removes l o e x = false) xs = without (qe_addr e) xs).
    { unfold without. apply list_filter_iff. intros x. unfold removes. rewrite Hm. unfold QueueList_Cmp.
      destruct (bool_decide_reflect (qe_addr x = qe_addr e)) as [Ha|Ha]; simpl; [by rewrite orb_true_r|].
      rewrite orb_false_r, bool_decide_eq_false. split; [done|]. by intros _ ->. }
    rewrite Hf in Hc'. exists l'. unfold meta in Hme. split_and!; [done|done|by eapply plain_meta|congruence..].
Qed.

(** *** Runs *)

Lemma RM_step {A B} (m : RM A) (f : A -> RM B) r x r' : m r = Some (x, r') -> (m ≫= f) r = f x r'.
Proof. intros E. unfold mbind, RM_bind. by rewrite E. Qed.

Definition with_memory (r : Registry) (o : allocs) : Registry :=
  mkRegistry (rg_list r) (rg_initialized r) (rg_queues r) (rg_next r) (rg_creates r) o.

Lemma in_memory_run {A} (m : M A) r x o : m (rg_allocs r) = Some (x, o) -> in_memory m r = Some (x, with_memory r o).
Proof. intros E. unfold in_memory. by rewrite E. Qed.

Lemma memory_ok r xs o : registry_ok r xs -> registry_ok (with_memory r o) xs.
Proof. intros []. by split. Qed.

(** The list is there or was never made. *)
Lemma ok_find r xs id o : registry_ok r xs -> QueueList_Find (rg_list r) id o = Some (qe_pQueue <$> with_key id xs, o).
Proof.
  intros [Hl _ _ _ _ _]. unfold QueueList_Find, mbind, M_bind. rewrite (Find_entries _ xs); [by destruct (with_key id xs)|].
  destruct Hl as [[-> ->]|[_ ?]]; [by right|by left].
Qed.

(** The list is made at the first call. *)
Definition ensure_list (r : Registry) : RM unit :=
  if rg_initialized r then mret () else l ← in_memory QueueList_Create; set_list l true.

Lemma ensure_list_run r xs : registry_ok r xs -> exists r', ensure_list r r = Some ((), r') /\ registry_ok r' xs /\ rg_queues r' = rg_queues r /\
  rg_initialized r' = true.
Proof.
  intros Hr. unfold ensure_list. destruct (rg_initialized r) eqn:Ei; [by exists r|].
  destruct (QueueList_Create_run (rg_allocs r)) as (l & o & E & Hl). rewrite (RM_step _ _ _ _ _ (in_memory_run _ r _ _ E)).
  eexists. split; [done|]. split; [|done]. destruct Hr as [[[_ ->]|[? _]] Hk Ha Hd Hq Hf]; [|congruence]. split; try done. simpl.
  destruct l as [l|]; [right; split; [done|by apply Hl]|by left].
Qed.

(** What [Initialize] of a UUID does to the entries: it finds the queue or makes one. *)
Definition initialized (leading : string) (id : uuid_t) (flags : Z) (r : Registry) (xs : list QueueListEntry) (res : option positive)
    (r' : Registry) (xs' : list QueueListEntry) : Prop :=
  match with_key id xs, res with
  | Some e, _ => res = Some (qe_pQueue e) /\ xs' = xs /\ rg_queues r' = rg_queues r
  | None, Some q => rg_queues r !! q = None /\ (exists addr, xs' = xs ++ [mkQueueEntry addr q id]) /\
      rg_queues r' = <[q := (default "" (Queue_GetQueueName (Some leading) id 128), flags)]> (rg_queues r)
  | None, None => xs' = xs /\ rg_queues r' = rg_queues r
  end.

Lemma fresh_queue r xs q : registry_ok r xs -> (rg_next r <= q)%positive -> rg_queues r !! q = None /\ (q ∉ qe_pQueue <$> xs) /\ (q ∉ qe_addr <$> xs).
Proof.
  intros [_ _ _ _ Hq Hf] Hn. rewrite Forall_forall in Hf.
  assert (Hno : q ∉ qe_pQueue <$> xs). { intros (e & -> & He)%list_elem_of_fmap. apply Hf in He. lia. }
  split_and!; [|done|].
  - apply not_elem_of_dom. rewrite Hq. by rewrite elem_of_list_to_set.
  - intros (e & -> & He)%list_elem_of_fmap. apply Hf in He. lia.
Qed.

Lemma queue_initialize_run leading id flags r xs : registry_ok r xs ->
  exists res r' xs', queue_initialize leading id flags r = Some (res, r') /\ registry_ok r' xs' /\ initialized leading id flags r xs res r' xs'.
Proof.
  intros Hr. unfold queue_initialize. rewrite (RM_step _ _ r r r) by done.
  destruct (ensure_list_run r xs Hr) as (r1 & E1 & Hr1 & Q1 & I1). fold (ensure_list r). rewrite (RM_step _ _ _ _ _ E1). cbv zeta.
  rewrite (RM_step _ _ r1 r1 r1) by done.
  rewrite (RM_step _ _ _ _ _ (in_memory_run _ r1 _ _ (ok_find r1 xs id _ Hr1))). unfold initialized.
  set (r2 := with_memory r1 (rg_allocs r1)). assert (Hr2 : registry_ok r2 xs) by by apply memory_ok.
  assert (Q2 : rg_queues r2 = rg_queues r) by done.
  destruct (with_key id xs) as [e|] eqn:Ek; simpl; [by exists (Some (qe_pQueue e)), r2, xs|].
  set (name := default "" (Queue_GetQueueName (Some leading) id 128)).
  unfold create_queue at 1, mbind at 1, RM_bind at 1. destruct (alloc_next (rg_creates r2)) as [ok cs]. simpl.
  destruct (fresh_queue r2 xs (rg_next r1) Hr2) as (F1 & F2 & F3); [simpl; lia|]. set (q := rg_next r1) in *.
  destruct ok.
  2: { eexists None, _, xs. split; [done|]. split; [|done]. destruct Hr2 as [Hl Hk Ha Hd Hq Hf]. split; try done. simpl.
       eapply Forall_impl; [exact Hf|]. simpl. intros e [? ?]. unfold r2, q in *. simpl in *. split; lia. }
  unfold fresh_address at 1, mbind at 1, RM_bind at 1. simpl. unfold registry_of at 1, mbind at 1, RM_bind at 1. cbn [rg_list].
  set (r3 := mkRegistry _ _ _ _ _ _). unfold mbind at 1, RM_bind at 1.
  assert (Hadd : exists added o, QueueList_Add (Pos.succ q) (rg_list r1) q id (rg_allocs r3) = Some (added, o) /\
    forall p', added = Some p' -> queue_entries p' (xs ++ [mkQueueEntry (Pos.succ q) q id])).
  { destruct (ro_list _ _ Hr1) as [[-> ->]|[_ Hq]]; [by eexists None, _|by apply Add_entries]. }
  destruct Hadd as (added & o & Ea & Hadd). rewrite (in_memory_run _ r3 _ _ Ea). destruct added as [p'|].
  - eexists (Some q), _, _. split; [done|]. split.
    + destruct Hr2 as [Hl Hk Ha Hd Hq Hf]. split; simpl.
      * right. split; [done|]. by apply Hadd.
      * rewrite fmap_app. simpl. apply NoDup_app. split_and!; [done| |by apply NoDup_singleton]. intros x Hx ->%list_elem_of_singleton. by eapply with_key_none.
      * rewrite fmap_app. simpl. apply NoDup_app. split_and!; [done| |by apply NoDup_singleton]. by intros x Hx ->%list_elem_of_singleton.
      * rewrite fmap_app. simpl. apply NoDup_app. split_and!; [done| |by apply NoDup_singleton]. intros x Hx ->%list_elem_of_singleton.
        destruct (fresh_queue r2 xs (Pos.succ q)) as (_ & _ & ?); [by split|unfold q, r2; simpl; lia|done].
      * rewrite dom_insert_L, fmap_app, list_to_set_app_L. simpl. assert (Hq' : dom (rg_queues r1) = list_to_set (qe_pQueue <$> xs)) by exact Hq. rewrite Hq'. set_solver.
      * apply Forall_app. split; [|constructor; [simpl; unfold q; lia|constructor]]. eapply Forall_impl; [exact Hf|]. unfold r2, q. simpl. intros e [? ?]. split; lia.
    + split_and!; [by rewrite <- Q2|by eexists|by rewrite <- Q2].
  - eexists None, _, xs. split; [done|]. split; [|split; [done|]].
    + destruct Hr2 as [Hl Hk Ha Hd Hq Hf]. split; simpl; try done.
      * by rewrite delete_insert_id.
      * eapply Forall_impl; [exact Hf|]. unfold r2, q. simpl. intros e [? ?]. split; lia.
    + simpl. by rewrite delete_insert_id.
Qed.

Lemma without_sub a xs : without a xs ⊆+ xs.
Proof. unfold without. induction xs as [|x xs IH]; [done|]. rewrite filter_cons. case_decide; [by constructor|by apply submseteq_cons]. Qed.

Lemma NoDup_without {A} (f : QueueListEntry -> A) a xs : NoDup (f <$> xs) -> NoDup (f <$> without a xs).
Proof.
  intros Hn. pose proof (fmap_submseteq f _ _ (without_sub a xs)) as Hs. apply submseteq_Permutation in Hs as [k E]. rewrite E in Hn.
  by apply NoDup_app in Hn as (? & _).
Qed.

(** An entry is known by its address, its key and its queue. *)
Lemma entry_unique {A} (f : QueueListEntry -> A) xs e e' : NoDup (f <$> xs) -> e ∈ xs -> e' ∈ xs -> f e = f e' -> e = e'.
Proof.
  intros Hn [i Hi]%list_elem_of_lookup [j Hj]%list_elem_of_lookup Hf. assert (i = j) as ->; [|congruence].
  eapply (NoDup_lookup (f <$> xs)); [done| |]; rewrite list_lookup_fmap; [by rewrite Hi|]. rewrite Hj. simpl. by rewrite Hf.
Qed.

Lemma queue_terminate_run id r xs : registry_ok r xs ->
  exists r' xs', queue_terminate id r = Some ((), r') /\ registry_ok r' xs' /\ with_key id xs' = None /\
    match with_key id xs with
    | Some e => xs' = without (qe_addr e) xs /\ rg_queues r' = delete (qe_pQueue e) (rg_queues r)
    | None => xs' = xs /\ rg_queues r' = rg_queues r
    end.
Proof.
  intros Hr. unfold queue_terminate. rewrite (RM_step _ _ r r r) by done. destruct (rg_initialized r) eqn:Ei; cbn [negb].
  2: { assert (xs = []) as -> by (destruct (ro_list _ _ Hr) as [[_ ?]|[? _]]; [done|congruence]). by exists r, []. }
  rewrite (RM_step _ _ _ _ _ (in_memory_run _ r _ _ (ok_find r xs id _ Hr))).
  destruct (with_key id xs) as [e|] eqn:Ek; cbn [fmap option_fmap option_map].
  2: { exists (with_memory r (rg_allocs r)), xs. split_and!; [done|by apply memory_ok|done..]. }
  destruct (with_key_elem id xs e Ek) as [He Hkey].
  destruct (ro_list _ _ Hr) as [[_ ->]|[_ Hq]]; [by apply elem_of_nil in He|].
  destruct (Remove_entries _ xs id e (rg_allocs r) Hq Ek) as (p' & E & Hq').
  rewrite (RM_step _ _ _ _ _ (in_memory_run _ (with_memory r (rg_allocs r)) _ _ E)).
  eexists _, (without (qe_addr e) xs). split; [done|]. split_and!; [|..|done|done].
  - destruct Hr as [_ Hk Ha Hd Hqs Hf]. split; simpl; [by right|by apply NoDup_without..| |].
    + rewrite dom_delete_L, Hqs. apply set_eq. intros x. rewrite elem_of_difference, !elem_of_list_to_set, elem_of_singleton, !list_elem_of_fmap. split.
      * intros [(e' & -> & He') Hne]. exists e'. split; [done|]. apply list_elem_of_filter. split; [|done]. intros Heq. apply Hne.
        by rewrite (entry_unique qe_addr xs e' e Hd He' He Heq).
      * intros (e' & -> & [Hne He']%list_elem_of_filter). split; [by exists e'|]. intros Heq. apply Hne.
        by rewrite (entry_unique qe_pQueue xs e' e Ha He' He Heq).
    + apply Forall_forall. intros e' [_ He']%list_elem_of_filter. by eapply Forall_forall in Hf.
  - unfold with_key. apply find_first_None, Forall_forall. intros e' [Hne He']%list_elem_of_filter. apply bool_decide_eq_false_2. intros Heq.
    apply Hne. by rewrite (entry_unique qe_uuiKey xs e' e (ro_keys _ _ Hr) He' He ltac:(congruence)).
Qed.

(** *** Theorems *)

(** The calls, and other outcomes of the coming allocations and creations. *)
Inductive registry_step : Registry -> Registry -> Prop :=
  | rs_initialize leading id flags res r r' : queue_initialize leading id flags r = Some (res, r') -> registry_step r r'
  | rs_terminate id r r' : queue_terminate id r = Some ((), r') -> registry_step r r'
  | rs_weather cs o r : registry_step r (mkRegistry (rg_list r) (rg_initialized r) (rg_queues r) (rg_next r) cs o).

Definition registry0 : Registry := mkRegistry None false ∅ 1 [] [].

Lemma registry_reachable_ok r : rtc registry_step registry0 r -> exists xs, registry_ok r xs.
Proof.
  intros Hr. assert (H0' : exists xs, registry_ok registry0 xs).
  { exists []. split; try done; [by left|constructor..]. }
  revert H0'. induction Hr as [r|r r1 r2 Hs _ IH]; [done|]. intros [xs Hok]. apply IH.
  destruct Hs as [leading id flags res r r' E|id r r' E|cs o r].
  - destruct (queue_initialize_run leading id flags r xs Hok) as (res' & r'' & xs' & E' & Hok' & _). rewrite E in E'. injection E' as _ <-. by exists xs'.
  - destruct (queue_terminate_run id r xs Hok) as (r'' & xs' & E' & Hok' & _). rewrite E in E'. injection E' as <-. by exists xs'.
  - exists xs. destruct Hok. by split.
Qed.

(** C22. A registry of queues refines a map from UUIDs to queues, in every state its calls
    reach under any failures of allocations and creations: initializing a UUID returns the
    queue it has or makes one with the name of the UUID, or fails and leaves no queue
    behind; terminating removes the queue of the UUID and no other; the queues that exist
    are those of the map, one for each UUID. *)
Theorem QueueRegistry_refines r : rtc registry_step registry0 r -> exists xs, registry_ok r xs /\
  (forall leading id flags, exists res r' xs', queue_initialize leading id flags r = Some (res, r') /\ registry_ok r' xs' /\
    initialized leading id flags r xs res r' xs') /\
  (forall id, exists r' xs', queue_terminate id r = Some ((), r') /\ registry_ok r' xs' /\ with_key id xs' = None /\
    match with_key id xs with
    | Some e => xs' = without (qe_addr e) xs /\ rg_queues r' = delete (qe_pQueue e) (rg_queues r)
    | None => xs' = xs /\ rg_queues r' = rg_queues r
    end).
Proof.
  intros Hr. apply registry_reachable_ok in Hr as [xs Hok]. exists xs. split; [done|]. split.
  - intros. by apply queue_initialize_run.
  - intros. by apply queue_terminate_run.
Qed.

(** When the list cannot be made at the first call, the registry counts as initialized and
    never works: every later call makes a queue, terminates it and fails. *)
Theorem QueueRegistry_poisoned leading id flags r : rg_list r = None -> rg_initialized r = true -> rg_queues r = ∅ ->
  exists r', queue_initialize leading id flags r = Some (None, r') /\ rg_list r' = None /\ rg_initialized r' = true /\ rg_queues r' = ∅.
Proof.
  intros El Ei Eq. unfold queue_initialize. rewrite (RM_step _ _ r r r) by done. rewrite Ei, (RM_step _ _ r () r) by done. cbv zeta.
  rewrite (RM_step _ _ r r r) by done. rewrite El. rewrite (RM_step _ _ _ _ _ (in_memory_run (QueueList_Find None id) r None (rg_allocs r) eq_refl)).
  unfold create_queue, mbind, RM_bind. simpl. destruct (alloc_next (rg_creates r)) as [[] cs]; simpl; rewrite ?El, Eq; eexists; split; [done| |done|];
    split_and!; try done. simpl. apply delete_insert_id, lookup_empty.
Qed.
End Theorems.

(** ** Witnesses *)

Module registry_demo.
Import bytes16.
Definition one : Registry := match queue_initialize "INSPECTOR" (uuid_demo.uuid 1) QUEUE_FLAG_RECV registry0 with Some (_, r) => r | None => registry0 end.
Lemma one_queue : match queue_initialize "INSPECTOR" (uuid_demo.uuid 1) QUEUE_FLAG_RECV registry0 with Some (Some 1%positive, _) => true | _ => false end = true.
Proof. vm_compute. reflexivity. Qed.
Lemma one_reachable : rtc registry_step registry0 one.
Proof.
  pose proof one_queue as Hq. unfold one. destruct (queue_initialize _ _ _ _) as [[res r]|] eqn:E; [|done]. eapply rtc_l; [|apply rtc_refl].
  by eapply rs_initialize.
Qed.
End registry_demo.

Lemma QueueRegistry_refines_witness : exists xs res r' xs', registry_ok registry_demo.one xs /\
  queue_initialize "INSPECTOR" (uuid_demo.uuid 1) QUEUE_FLAG_SEND registry_demo.one = Some (res, r') /\
  initialized "INSPECTOR" (uuid_demo.uuid 1) QUEUE_FLAG_SEND registry_demo.one xs res r' xs'.
Proof.
  destruct (QueueRegistry_refines registry_demo.one registry_demo.one_reachable) as (xs & Hok & Hi & _).
  destruct (Hi "INSPECTOR" (uuid_demo.uuid 1) QUEUE_FLAG_SEND) as (res & r' & xs' & E & _ & H').
  exists xs, res, r', xs'. split_and!; [exact Hok|exact E|exact H'].
Defined.
