(* ===== verification/Inspection.v ===== *)
(** * Inspection: src/inspection.c

    The receiver of an inspector takes submissions from its queue and puts them on a list;
    workers take them from there, fetch the block from a dispatcher, call the inspector
    and send its judgment; a submission that was worked on goes to a second list, from
    which the receiver acknowledges it, so that the queue is used by one thread.

    This file is the work on one message; the threads are in [InspectionThreads].
    [processBlock] is code of the inspector and [fetch] one attempt of a transport; both are
    parameters.  The message broker is external: the outcomes of the coming sends are a
    list, and what was sent is recorded. *)

From S2P Require Import Prelude CLib RzbList RzbListProps ListM Hash LibUuid Uuids Ntlv Blocks JsonC JsonBuffer JsonText Messages MessageCodecs CncMessages Entities BlockPool Transfer Queue Prelude.

Local Open Scope Z_scope.

Definition JUDGMENT_REASON_DONE : Z := 0.
Definition JUDGMENT_REASON_ALERT : Z := 1.
Definition JUDGMENT_REASON_ERROR : Z := 2.
Definition JUDGMENT_REASON_DEFERRED : Z := 3.
Definition INSPECTION_PENDING_POP_TIMEOUT_MS : Z := 1000.
Definition INSPECTION_RECEIVER_POLL_TIMEOUT_MS : Z := 1000.

Definition Inspection_Result_Label (result : Z) : string :=
  if result == JUDGMENT_REASON_DONE then "done"
  else if result == JUDGMENT_REASON_ALERT then "alert"
  else if result == JUDGMENT_REASON_DEFERRED then "deferred"
  else "error".

(** ** The work on a message *)

Section Work.
Context `{EVP} `{LibUuid}.

(** The file system with the memory, the table of the nuggets, the outcomes of the coming
    [Queue_Put] and the messages that were sent. *)
Record Insp := mkInsp { ip_host : Host; ip_table : Table; ip_puts : list bool; ip_sent : list Message }.

Definition IM (A : Type) : Type := Insp -> fault + (A * Insp).
Global Instance IM_ret : MRet IM := fun A x s => inr (x, s).
Global Instance IM_bind : MBind IM := fun A B f m s =>
  match m s with
  | inl e => inl e
  | inr (x, s') => f x s'
  end.

Definition set_insp_host (s : Insp) (h : Host) : Insp := mkInsp h (ip_table s) (ip_puts s) (ip_sent s).
Definition set_insp_table (s : Insp) (t : Table) : Insp := mkInsp (ip_host s) t (ip_puts s) (ip_sent s).
Definition host_call {A} (m : HM A) : IM A := fun s =>
  match m (ip_host s) with inl e => inl e | inr (x, h) => inr (x, set_insp_host s h) end.
Definition table_call {A} (m : TM A) : IM A := fun s =>
  match m (ip_table s) with None => inl NullDeref | Some (x, t) => inr (x, set_insp_table s t) end.
Definition memory_call {A} (m : M A) : IM (option A) := host_call (allocating m).

(** [Queue_Put (judgmentQueue, message)] *)
Definition put_judgment (m : Message) : IM bool := fun s =>
  let '(ok, r) := alloc_next (ip_puts s) in
  inr (ok, mkInsp (ip_host s) (ip_table s) r (if ok : bool then ip_sent s ++ [m] else ip_sent s)).

Section Message.
Variable sg : UuidLists.
Variable cfg : EntityConfig.
Variable transports : option transport_list.
Variable fetch : TransportDescriptor -> ConnectedEntity -> Host * Block -> fault + (TransferStatus * (Host * Block)).
Variable processBlock : Block -> option EventId -> option ntlv_list -> Z.
(** The nugget of the context of the thread, and the clock. *)
Variable nugget : uuid_t.
Variable clock : option (Z * Z).
(** The outcomes of the node allocations of clones. *)
Variable pushes : allocs.

(** [Transfer_Fetch (block, dispatcher)] *)
Definition fetch_block (b : Block) (d : ConnectedEntity) : IM (TransferStatus * Block) := fun s =>
  match Transfer_Fetch transports fetch (Some d) (ip_host s, b) with
  | inl e => inl e
  | inr (st, (h, b')) => inr ((st, b'), set_insp_host s h)
  end.

(** The loop over the attempts; [transfered] is the status of the last one. *)
Fixpoint fetch_loop (tries : nat) (transfered : TransferStatus) (b : Block) : IM (TransferStatus * Block) :=
  match tries with
  | O => mret (transfered, b)
  | S tries' =>
      dispatcher ← table_call (ConnectedEntityList_GetDispatcher sg cfg pushes);
      match dispatcher with
      | None => mret (transfered, b)
      | Some d =>
          '(transfered, b) ← fetch_block b d;
          match transfered with
          | TRANSFER_OK => mret (TRANSFER_OK, b)
          | TRANSFER_FAIL_DISPATCHER =>
              table_call (ConnectedEntityList_MarkDispatcherUnusable (ce_uuidNuggetId d)) ;; fetch_loop tries' transfered b
          | TRANSFER_FAIL_LOCAL => fetch_loop tries' transfered b
          end
      end
  end.

(** How the work on a message ends: the error classes of the function, or the message that
    was sent. *)
Inductive outcome :=
  | invalid_message
  | transfer_failed
  | missing_block_data
  | clone_failed
  | invalid_judgment
  | judgment_create_failed
  | message_create_failed
  | send_failed
  | judged (m : Message).

Definition with_block (m : Message) (sub : MessageInspectionSubmission) (b : option Block) : Message :=
  with_body m (Some (Messages.inj (mkInspectionSubmission (is_iReason sub) b (is_eventId sub) (is_pEventMetadata sub) (is_localityCount sub) (is_localityList sub)))).

(** The data without the stream, the mapping and the name. *)
Definition bare (d : BlockData) : BlockData := mkBlockData None None None (bd_tempFile d).

(** The judgment of a block that was inspected: [clone] has the data. *)
Definition send_judgment (l_iResult : Z) (l_pEventId : EventId) (clone : Block) : IM outcome :=
  judgment ← memory_call (Judgment_Create clock (Some nugget) (Some l_pEventId) (b_pId clone));
  match judgment with
  | None => host_call (Transfer_Free clone) ;; mret judgment_create_failed
  | Some j =>
      host_call (Transfer_Free clone) ;;
      message ← memory_call (MessageJudgmentSubmission_Initialize l_iResult (Some j));
      match message with
      | None => mret message_create_failed
      | Some m =>
          ok ← put_judgment m;
          mret (if ok : bool then judged m else send_failed)
      end
  end.

(** The work on a block that was fetched, and the block without what it gave to its clone. *)
Definition inspect_block (sub : MessageInspectionSubmission) (b : Block) : IM (outcome * Block) :=
  match bd_pointer (b_data b), bd_fileName (b_data b) with
  | Some _, Some _ =>
      eventId ← memory_call (EventId_Clone (is_eventId sub));
      match eventId with
      | None => mret (clone_failed, b)
      | Some eventId =>
          clone ← memory_call (Block_Clone pushes (Some b));
          match clone with
          | None => mret (clone_failed, b)
          | Some clone =>
              let clone := set_data clone (b_data b) in
              let b := set_data b (bare (b_data b)) in
              let l_iResult := u8 (processBlock clone (is_eventId sub) (is_pEventMetadata sub)) in
              if (l_iResult != JUDGMENT_REASON_DONE) && (l_iResult != JUDGMENT_REASON_ERROR) && (l_iResult != JUDGMENT_REASON_DEFERRED)
              then host_call (Transfer_Free clone) ;; mret (invalid_judgment, b)
              else o ← send_judgment l_iResult eventId clone; mret (o, b)
          end
      end
  | _, _ => mret (missing_block_data, b)
  end.

(** The block of a submission that can be worked on. *)
Definition valid_block (sub : MessageInspectionSubmission) : option Block :=
  b ← is_pBlock sub; id ← b_pId b; _ ← bi_pHash id; Some b.

(** The outcome, and the message afterwards: the block it had is destroyed once it was
    fetched. *)
Definition Inspection_Process_Message (m : Message) : IM (outcome * Message) :=
  if m_type m != MESSAGE_TYPE_INSPECTION then mret (invalid_message, m)
  else
    match m_message m with
    | None => mret (invalid_message, m)
    | Some body =>
        match Messages.proj body : option MessageInspectionSubmission with
        | None => fun _ => inl NullDeref
        | Some sub =>
            match valid_block sub with
            | None => mret (invalid_message, m)
            | Some b =>
                '(transfered, b) ← fetch_loop 20 TRANSFER_FAIL_LOCAL b;
                match transfered with
                | TRANSFER_OK =>
                    '(o, b) ← inspect_block sub b;
                    host_call (Transfer_Free b) ;;
                    mret (o, with_block m sub None)
                | _ => mret (transfer_failed, with_block m sub (Some b))
                end
            end
        end
    end.
End Message.
End Work.
