(* ===== verification/InspectionProps.v ===== *)
(** * Lemmas about the work on an inspection message

    Whatever the allocator, the broker, the dispatchers and the transports do, the work
    on a message returns, closes the streams it opened, and sends what its outcome says. *)

From S2P Require Import CLib RzbList RzbListProps ListM Hash LibUuid Uuids Ntlv Blocks BlockPool JsonC JsonBuffer JsonText Messages MessageCodecs CncMessages Entities EntitiesProps Transfer TransferProps Submission SubmissionProps Queue Inspection Prelude.

Local Open Scope Z_scope.

Section Work.
Context `{EVPLaws} `{LibUuidLaws}.

(** ** Running *)

Lemma IM_bind_inr {A B} (m : IM A) (f : A -> IM B) s x s' : m s = inr (x, s') -> (m ≫= f) s = f x s'.
Proof. intros E. unfold mbind, IM_bind. by rewrite E. Qed.

Lemma host_call_run {A} (m : HM A) s x h : m (ip_host s) = inr (x, h) -> host_call m s = inr (x, set_insp_host s h).
Proof. intros E. unfold host_call. by rewrite E. Qed.

Lemma table_call_run {A} (m : TM A) s x t : m (ip_table s) = Some (x, t) -> table_call m s = inr (x, set_insp_table s t).
Proof. intros E. unfold table_call. by rewrite E. Qed.

(** A call that does not crash, whatever the allocator does. *)
Lemma memory_call_run {A} (m : M A) (Q : A -> Prop) s : ensures m Q ->
  exists r o, memory_call m s = inr (r, set_insp_host s (set_memory (ip_host s) o)) /\ forall x, r = Some x -> Q x.
Proof.
  intros Hm. destruct (Hm (ho_allocs (ip_host s))) as (r & o & E & HQ). exists r, o. split; [|done].
  apply host_call_run. by apply allocating_run.
Qed.

(** ** Clones *)

Lemma BlockId_Clone_ensures id : id_ok id -> ensures (BlockId_Clone (Some id)) (fun c => id_ok c /\ same_block id c).
Proof.
  intros Hid. pose proof (BlockId_Clone_ok id Hid) as (_ & Hok & Hsame). destruct Hid as [(h & Hh & Hc) _].
  unfold BlockId_Clone, BlockId_Create_Shallow. m_step. simplify_eq. eapply (ensures_bind _ _ (fun _ => True)); [m_step; by m_step|]. intros ? _.
  assert (Hcl : ensures (Hash_Clone (bi_pHash x)) (fun c => c = clone_of h)).
  { rewrite Hh. intros o. rewrite (Clone_complete h o Hc). revert o. change (ensures (alloc ;; alloc ;; mret (clone_of h)) (fun c => c = clone_of h)).
    do 2 m_step. by m_step. }
  m_step; [exact Hcl|]. intros c ->. m_step. unfold id_clone in *. by rewrite Hh in *.
Qed.

Lemma metadata_clone_ensures pushes p xs : metadata p xs ->
  ensures (list_clone pushes p) (fun d => exists ys, metadata (Some d) ys /\ length ys = length xs).
Proof.
  intros (l & -> & Hc & Hp & Hk & Hcl) o. destruct (plain_known _ Hp) as (Hkn & Hst & _).
  unfold list_clone. rewrite Hcl. destruct (alloc_next o) as [b1 o1].
  destruct (if b1 then alloc_next o1 else (true, o1)) as [b2 o2].
  destruct (Clone_any b1 b2 true pushes l xs NTLV_Clone o2 Hc (plain_locks _ Hp) Hkn Hcl) as (r & l' & s' & -> & _ & Hr).
  exists r, s'. split; [done|]. intros d ->. destruct (Hr d eq_refl) as (ys & Hys & Hme & Hd). rewrite Hst in Hd.
  exists ys. split; [|symmetry; by eapply Forall2_length].
  exists d. assert (Hm : meta d = meta l) by (rewrite Hme; unfold meta; simpl; by rewrite (plain_limit _ Hp)).
  split_and!; [done..|by eapply plain_meta| |]; unfold meta in Hm; congruence.
Qed.

(** A block that can be inspected. *)
Definition block_ok (b : Block) : Prop :=
  (exists id, b_pId b = Some id /\ id_ok id) /\ (forall p, b_pParentId b = Some p -> id_ok p) /\
  forall l, b_pMetaDataList b = Some l -> exists xs, metadata (Some l) xs.

(** [c] names the block of [b]. *)
Definition same_id (b c : Block) : Prop :=
  exists id id', b_pId b = Some id /\ b_pId c = Some id' /\ same_block id id' /\ id_ok id'.

Lemma Block_Clone_ensures pushes b : block_ok b -> ensures (Block_Clone pushes (Some b)) (fun c => same_id b c /\ b_data c = no_data).
Proof.
  intros ((id & Hid & Hok) & Hpar & Hm). unfold Block_Clone. m_step. simplify_eq. m_step. rewrite Hid.
  m_step; [by apply BlockId_Clone_ensures|]. intros c [Hc Hsame].
  eapply (ensures_bind _ _ (fun _ => True)); [|intros parent _; eapply (ensures_bind _ _ (fun _ => True)); [|intros d _; m_step; split; [by exists id, c|done]]].
  2: { destruct (b_pMetaDataList x) as [l|]; [|by intros o; eexists None, o]. destruct (Hm l eq_refl) as (xs & Hl).
       eapply ensures_true. by eapply metadata_clone_ensures. }
  destruct (b_pParentId x) as [p|] eqn:Ep; [|by apply (ensures_ret None (fun _ => True))].
  m_step; [by apply BlockId_Clone_ensures, Hpar|]. intros ? _. by m_step.
Qed.

Lemma EventId_Clone_ensures p : ensures (EventId_Clone p) (fun e => p = Some e).
Proof. unfold EventId_Clone. m_step. m_step. m_step. by destruct x. Qed.

Lemma Judgment_Create_ensures clock u e b : (forall id, b = Some id -> id_ok id) ->
  ensures (Judgment_Create clock (Some u) (Some e) b) (fun j =>
    j_uuidNuggetId j = u /\ j_pEventId j = Some e /\ exists id id', b = Some id /\ j_pBlockId j = Some id' /\ same_block id id').
Proof.
  intros Hb. unfold Judgment_Create. m_step. simplify_eq. m_step. m_step. destruct x1 as [sec nsec]. m_step.
  m_step; [apply create_ensures|]. intros md _. m_step; [apply EventId_Clone_ensures|]. intros e' [= ->].
  m_step; [by apply BlockId_Clone_ensures, Hb|]. intros c [_ Hc].
  change (deref (Some u)) with (mret u : M uuid_t). m_step; [by apply (ensures_ret u (eq u))|]. intros ? <-. m_step. simpl.
  split_and!; try done. by eexists _, c.
Qed.

Lemma JudgmentSubmission_ensures r j : ensures (MessageJudgmentSubmission_Initialize r (Some j)) (fun m =>
  m_type m = MESSAGE_TYPE_JUDGMENT /\ m_message m = Some (Messages.inj (mkJudgmentSubmission r (Some j)))).
Proof.
  unfold MessageJudgmentSubmission_Initialize, Message_Create. m_step. simplify_eq.
  assert (Hh : ensures (unchecked Message_Header_List_Create) (fun _ => True)).
  { intros o. unfold unchecked. destruct (create_ensures MessageHeader_Cmp MessageHeader_KeyCmp MessageHeader_Delete MessageHeader_Clone o)
      as (r1 & o1 & E & _). unfold Message_Header_List_Create. rewrite E. by eexists _, _. }
  eapply (ensures_bind _ _ (fun m => m_type m = MESSAGE_TYPE_JUDGMENT)); [do 2 m_step; m_step; [exact Hh|]; intros ? _; by m_step|].
  intros m Hm. by m_step.
Qed.

Lemma same_block_trans a b c : same_block a b -> same_block b c -> same_block a c.
Proof.
  intros (? & ? & ha & hb & ? & Hb & ? & ?) (? & ? & hb' & hc & Hb' & ? & ? & ?). rewrite Hb in Hb'. simplify_eq.
  split; [congruence|]. split; [congruence|]. exists ha, hc. split_and!; congruence.
Qed.

(** ** The fetch *)

(** A successful attempt leaves the stream of the block open, and a failed one leaves no
    stream behind; of the block only the data change. *)
Definition fetch_result (h : Host) (b : Block) (st : TransferStatus) (h' : Host) (b' : Block) : Prop :=
  (exists d, b' = set_data b d) /\
  match st with
  | TRANSFER_OK => is_Some (bd_file (b_data b')) /\ ho_streams h' = ho_streams h + 1
  | _ => ho_streams h' = ho_streams h
  end.

(** What the work relies on of the transports. *)
Class FetchSafe (fetch : TransportDescriptor -> ConnectedEntity -> Host * Block -> fault + (TransferStatus * (Host * Block))) : Prop :=
  fetch_safe trans d h b : block_ok b -> exists st h' b', fetch trans d (h, b) = inr (st, (h', b')) /\ fetch_result h b st h' b'.

Lemma set_data_ok b d : block_ok b -> block_ok (set_data b d).
Proof. done. Qed.

Lemma fetch_result_then h b h1 d st h' b' : ho_streams h1 = ho_streams h -> fetch_result h1 (set_data b d) st h' b' ->
  fetch_result h b st h' b'.
Proof.
  intros E ((d' & ->) & Hs). split; [by exists d'|]. destruct st; [destruct Hs; split; [done|congruence]|congruence..].
Qed.

Lemma fetch_result_refl h b st : st <> TRANSFER_OK -> fetch_result h b st h b.
Proof. intros Hst. split; [exists (b_data b); by destruct b|]. by destruct st. Qed.

Section Fetch.
Variable sg : UuidLists.
Variable nts : list UUIDListNode.
Hypothesis nuggets_entries : entries (UUID_Get_List sg UUID_TYPE_NUGGET_TYPE) nts.
Variable cfg : EntityConfig.
Variable transports : option transport_list.
Variable tds : list TransportDescriptor.
Hypothesis transports_ok : registry transports tds.
Variable fetch : TransportDescriptor -> ConnectedEntity -> Host * Block -> fault + (TransferStatus * (Host * Block)).
Context `{!FetchSafe fetch}.
Variable n : nat.
Hypothesis n_small : Z.of_nat n < 2 ^ 32.
Variable pushes : allocs.

Lemma attempts_fetch trans d k : forall st h b, st <> TRANSFER_OK -> block_ok b ->
  exists st' h' b', attempts k st (fetch trans d) (h, b) = inr (st', (h', b')) /\ fetch_result h b st' h' b'.
Proof.
  induction k as [|k IH]; intros st h b Hst Hb.
  { exists st, h, b. split; [done|]. by apply fetch_result_refl. }
  destruct (fetch_safe trans d h b Hb) as (st1 & h1 & b1 & E & Hr). cbn [attempts]. rewrite E.
  pose proof Hr as ((d1 & ->) & Hs).
  assert (Hn : forall st2, st2 <> TRANSFER_OK -> ho_streams h1 = ho_streams h ->
    exists st' h' b', attempts k st2 (fetch trans d) (h1, set_data b d1) = inr (st', (h', b')) /\ fetch_result h b st' h' b').
  { intros st2 Hst2 Eh. destruct (IH st2 h1 (set_data b d1) Hst2 Hb) as (st3 & h3 & b3 & -> & Hr3).
    exists st3, h3, b3. split; [done|]. by eapply fetch_result_then. }
  destruct st1; [by eexists _, _, _|by apply Hn..].
Qed.

Lemma fetch_block_run b d s : is_Some (ce_dispatcher d) -> block_ok b ->
  exists st h' b', fetch_block transports fetch b d s = inr ((st, b'), set_insp_host s h') /\ fetch_result (ip_host s) b st h' b'.
Proof.
  intros [e He] Hb. unfold fetch_block, Transfer_Fetch, transfer. cbn [mbind option_bind]. rewrite He.
  destruct transports_ok as (l & -> & Hc & Hpl & Hk). rewrite (Find_contents l tds _ _ _ Hc (plain_locks _ Hpl) Hk).
  destruct (find_first _ tds) as [trans|].
  - destruct (attempts_fetch trans d RETRIES TRANSFER_FAIL_LOCAL (ip_host s) b) as (st & h' & b' & E & Hr); [done..|].
    exists st, h', b'. split; [|done]. change (fun s => fetch trans d s) with (fetch trans d) in *. by rewrite E.
  - exists TRANSFER_FAIL_LOCAL, (ip_host s), b. split; [by destruct s|]. by apply fetch_result_refl.
Qed.

Lemma fetch_loop_run tries : forall st s b, st <> TRANSFER_OK -> block_ok b -> table_ok nts (ip_table s) n ->
  exists st' b' h' t', fetch_loop sg cfg transports fetch pushes tries st b s =
      inr ((st', b'), mkInsp h' t' (ip_puts s) (ip_sent s)) /\
    fetch_result (ip_host s) b st' h' b' /\ table_ok nts t' n.
Proof.
  induction tries as [|tries IH]; intros st s b Hst Hb Ht.
  { exists st, b, (ip_host s), (ip_table s). split_and!; [by destruct s|by apply fetch_result_refl|done]. }
  cbn [fetch_loop]. destruct (GetDispatcher_safe sg nts cfg nuggets_entries pushes _ n Ht n_small) as (r & t1 & E & Ht1 & Hd).
  rewrite (IM_bind_inr _ _ _ _ _ (table_call_run _ s _ _ E)). destruct r as [d|].
  2: { exists st, b, (ip_host s), t1. split_and!; [done|by apply fetch_result_refl|done]. }
  destruct (Hd d eq_refl) as (Hde & t2 & bm & Em & Ht2).
  destruct (fetch_block_run b d (set_insp_table s t1) Hde Hb) as (st1 & h1 & b1 & Ef & Hr).
  rewrite (IM_bind_inr _ _ _ _ _ Ef). pose proof Hr as ((d1 & ->) & Hs). destruct st1.
  - by eexists _, _, h1, t1.
  - assert (Em' : table_call (ConnectedEntityList_MarkDispatcherUnusable (ce_uuidNuggetId d)) (set_insp_host (set_insp_table s t1) h1) =
      inr (bm, set_insp_table (set_insp_host (set_insp_table s t1) h1) t2)) by by apply table_call_run.
    rewrite (IM_bind_inr _ _ _ _ _ Em').
    destruct (IH TRANSFER_FAIL_DISPATCHER (set_insp_table (set_insp_host (set_insp_table s t1) h1) t2) (set_data b d1))
      as (st' & b' & h' & t' & E' & Hr' & Ht'); [done..|]. exists st', b', h', t'. split_and!; [exact E'|by eapply fetch_result_then|done].
  - destruct (IH TRANSFER_FAIL_LOCAL (set_insp_host (set_insp_table s t1) h1) (set_data b d1))
      as (st' & b' & h' & t' & E' & Hr' & Ht'); [done..|]. exists st', b', h', t'. split_and!; [exact E'|by eapply fetch_result_then|done].
Qed.

(** ** The judgment *)

Variable processBlock : Block -> option EventId -> option ntlv_list -> Z.
Variable nugget : uuid_t.
Variable clock : option (Z * Z).

(** The streams that a block holds. *)
Definition opened (b : Block) : Z := match bd_file (b_data b) with Some _ => 1 | None => 0 end.

Lemma Transfer_Free_run b s : exists h', host_call (Transfer_Free b) s = inr ((), set_insp_host s h') /\
  ho_streams h' = ho_streams (ip_host s) - opened b.
Proof.
  assert (exists h', Transfer_Free b (ip_host s) = inr ((), h') /\ ho_streams h' = ho_streams (ip_host s) - opened b) as (h' & E & Hh).
  { unfold Transfer_Free, opened. destruct (bd_file (b_data b)), (bd_fileName (b_data b)), (bd_tempFile (b_data b)); (eexists; split; [reflexivity|]);
      simpl; lia. }
  exists h'. split; [|done]. by apply host_call_run.
Qed.

(** What an outcome says was sent. *)
Definition sent_by (o : outcome) : list Message := match o with judged m => [m] | _ => [] end.

(** The outcomes after the fetch. *)
Definition late (o : outcome) : bool := match o with invalid_message | transfer_failed => false | _ => true end.

(** The result of an inspector that leads to a judgment. *)
Definition valid_result (r : Z) : Prop := r = JUDGMENT_REASON_DONE \/ r = JUDGMENT_REASON_ERROR \/ r = JUDGMENT_REASON_DEFERRED.

(** [m] carries the judgment [r] of the nugget about the block with the id [id]. *)
Definition judgment_message (r : Z) (e : EventId) (id : BlockId) (m : Message) : Prop :=
  m_type m = MESSAGE_TYPE_JUDGMENT /\ exists j id', m_message m = Some (Messages.inj (mkJudgmentSubmission r (Some j))) /\
    j_uuidNuggetId j = nugget /\ j_pEventId j = Some e /\ j_pBlockId j = Some id' /\ same_block id id'.

(** The state after a part of the work: of the parts that were not touched, only the
    outcomes of the broker move. *)
Definition progress (s s' : Insp) (o : outcome) (closed : Z) : Prop :=
  ho_streams (ip_host s') = ho_streams (ip_host s) - closed /\ ip_table s' = ip_table s /\ ip_sent s' = ip_sent s ++ sent_by o /\
  late o = true.

Lemma send_judgment_run r e clone id s : b_pId clone = Some id -> id_ok id ->
  exists o s', send_judgment nugget clock r e clone s = inr (o, s') /\ progress s s' o (opened clone) /\
    forall m, o = judged m -> judgment_message r e id m.
Proof.
  intros Hid Hok. unfold send_judgment. rewrite Hid.
  destruct (memory_call_run _ _ s (Judgment_Create_ensures clock nugget e (Some id) ltac:(by intros ? [= <-]))) as (rj & o1 & Ej & Hj).
  rewrite (IM_bind_inr _ _ _ _ _ Ej). destruct rj as [j|].
  2: { destruct (Transfer_Free_run clone (set_insp_host s (set_memory (ip_host s) o1))) as (h2 & Ef & Hh). rewrite (IM_bind_inr _ _ _ _ _ Ef).
       eexists judgment_create_failed, _. split; [done|]. split; [|done]. split_and!; [done|done|simpl; by rewrite app_nil_r|done]. }
  destruct (Hj j eq_refl) as (Hn & He & id1 & id2 & [= <-] & Hb & Hsame).
  destruct (Transfer_Free_run clone (set_insp_host s (set_memory (ip_host s) o1))) as (h2 & Ef & Hh). rewrite (IM_bind_inr _ _ _ _ _ Ef).
  match goal with |- exists o s', (memory_call ?c ≫= _) ?st = _ /\ _ =>
    destruct (memory_call_run c _ st (JudgmentSubmission_ensures r j)) as (rm & o2 & Em & Hm) end.
  rewrite (IM_bind_inr _ _ _ _ _ Em). destruct rm as [m|].
  2: { eexists message_create_failed, _. split; [done|]. split; [|done]. split_and!; [done|done|simpl; by rewrite app_nil_r|done]. }
  destruct (Hm m eq_refl) as [Hty Hbody]. unfold put_judgment, mbind, IM_bind. cbn [ip_puts set_insp_host].
  destruct (alloc_next (ip_puts s)) as [[] rest]; cbn.
  - eexists (judged m), _. split; [done|]. split; [done|]. intros ? [= <-]. split; [done|]. by exists j, id2.
  - eexists send_failed, _. split; [done|]. split; [|done]. split_and!; [done|done|simpl; by rewrite app_nil_r|done].
Qed.

(** The judgment of a message is about the block that was fetched: the inspector saw a
    block of the same id, with its data. *)
Definition judges (sub : MessageInspectionSubmission) (b : Block) (m : Message) : Prop :=
  exists id e clone r, b_pId b = Some id /\ is_eventId sub = Some e /\ same_id b clone /\
    is_Some (bd_pointer (b_data clone)) /\ is_Some (bd_fileName (b_data clone)) /\
    r = u8 (processBlock clone (is_eventId sub) (is_pEventMetadata sub)) /\ valid_result r /\ judgment_message r e id m.

Lemma inspect_block_run sub b s : block_ok b ->
  exists o b' s', inspect_block processBlock nugget clock pushes sub b s = inr ((o, b'), s') /\
    progress s s' o (opened b - opened b') /\ forall m, o = judged m -> judges sub b m.
Proof.
  intros Hb. assert (Hsame : forall o s1, progress s s1 o 0 -> progress s s1 o (opened b - opened b)) by (intros; by rewrite Z.sub_diag).
  assert (Hret : forall (o : outcome) h, ho_streams h = ho_streams (ip_host s) -> late o = true -> sent_by o = [] -> progress s (set_insp_host s h) o 0).
  { intros o h Hh Hl Ho. split_and!; [simpl; lia|done| |done]. rewrite Ho. simpl. by rewrite app_nil_r. }
  unfold inspect_block. destruct (bd_pointer (b_data b)) as [ptr|] eqn:Ep, (bd_fileName (b_data b)) as [fn|] eqn:Ef;
    try (exists missing_block_data, b, s; split; [done|]; split; [apply Hsame; destruct s; by apply (Hret missing_block_data)|done]).
  destruct (memory_call_run _ _ s (EventId_Clone_ensures (is_eventId sub))) as (re & o1 & Ee & He). rewrite (IM_bind_inr _ _ _ _ _ Ee).
  destruct re as [e|]; [|eexists clone_failed, b, _; split; [done|]; split; [apply Hsame; by apply Hret|done]]. specialize (He e eq_refl).
  match goal with |- exists o b' s', (memory_call ?c ≫= _) ?st = _ /\ _ =>
    destruct (memory_call_run c _ st (Block_Clone_ensures pushes b Hb)) as (rc & o2 & Ec & Hc) end. rewrite (IM_bind_inr _ _ _ _ _ Ec).
  destruct rc as [c|]; [|eexists clone_failed, b, _; split; [done|]; split; [apply Hsame; by apply Hret|done]].
  destruct (Hc c eq_refl) as ((id & idc & Hid & Hidc & Hsb & Hok) & _). cbv zeta.
  set (clone := set_data c (b_data b)). set (b1 := set_data b (bare (b_data b))).
  set (r := u8 (processBlock clone (is_eventId sub) (is_pEventMetadata sub))).
  replace (opened b) with (opened clone) by done. set (s2 := set_insp_host _ _).
  assert (Hs2 : ho_streams (ip_host s2) = ho_streams (ip_host s) /\ ip_table s2 = ip_table s /\ ip_sent s2 = ip_sent s) by done.
  assert (Hpr : forall s3 o, progress s2 s3 o (opened clone) -> progress s s3 o (opened clone - opened b1)).
  { intros s3 o (? & ? & ? & ?). destruct Hs2 as (? & ? & ?). replace (opened b1) with 0 by done. split_and!; [lia|congruence..]. }
  destruct ((r != _) && (r != _) && (r != _)) eqn:Er.
  - destruct (Transfer_Free_run clone s2) as (h3 & E3 & Hh3). rewrite (IM_bind_inr _ _ _ _ _ E3).
    eexists invalid_judgment, b1, _. split; [done|]. split; [|done]. apply Hpr. split_and!; [done|done|simpl; by rewrite app_nil_r|done].
  - destruct (send_judgment_run r e clone idc s2 Hidc Hok) as (o & s3 & E3 & Hp3 & Hj). rewrite (IM_bind_inr _ _ _ _ _ E3).
    exists o, b1, s3. split; [done|]. split; [by apply Hpr|]. intros m Hm. destruct (Hj m Hm) as (Hty & j & id' & ? & ? & ? & ? & Hs3).
    exists id, e, clone, r. split_and!; try done.
    + by exists id, idc.
    + unfold valid_result. rewrite !andb_false_iff, !negb_false_iff, !Z.eqb_eq in Er. tauto.
    + split; [done|]. exists j, id'. split_and!; try done. by eapply same_block_trans.
Qed.

(** ** A message *)

(** The submission of a message and its block, if it can be worked on. *)
Definition workable (m : Message) : option (MessageInspectionSubmission * Block) :=
  if m_type m == MESSAGE_TYPE_INSPECTION then
    body ← m_message m; sub ← Messages.proj body; b ← valid_block sub; Some (sub, b)
  else None.

(** What the work needs of a message: a message of the type has the body of the type, and
    the ids of its block are complete. *)
Definition inspectable (m : Message) : Prop :=
  m_type m = MESSAGE_TYPE_INSPECTION -> forall body, m_message m = Some body ->
  exists sub : MessageInspectionSubmission, Messages.proj body = Some sub /\ forall b, valid_block sub = Some b -> block_ok b.

(** The outcome of the work, and the message it leaves: a message that cannot be worked on
    is left as it is, one whose block could not be fetched keeps it, and otherwise the
    block is gone. *)
Definition processed (m : Message) (o : outcome) (m' : Message) : Prop :=
  match workable m with
  | None => o = invalid_message /\ m' = m
  | Some (sub, b) =>
      match o with
      | invalid_message => False
      | transfer_failed => exists d, m' = with_block m sub (Some (set_data b d))
      | judged jm => m' = with_block m sub None /\ judges sub b jm
      | _ => m' = with_block m sub None
      end
  end.

Lemma Process_run m s : inspectable m -> table_ok nts (ip_table s) n ->
  exists o m' s', Inspection_Process_Message sg cfg transports fetch processBlock nugget clock pushes m s = inr ((o, m'), s') /\
    processed m o m' /\ table_ok nts (ip_table s') n /\
    ho_streams (ip_host s') = ho_streams (ip_host s) /\ ip_sent s' = ip_sent s ++ sent_by o.
Proof.
  intros Hm Ht. unfold Inspection_Process_Message, processed, workable.
  assert (Hinv : forall s, ip_sent s = ip_sent s ++ sent_by invalid_message) by (intros; simpl; by rewrite app_nil_r).
  destruct (m_type m == MESSAGE_TYPE_INSPECTION) eqn:Ety; cbn [negb]; [|by exists invalid_message, m, s].
  apply Z.eqb_eq in Ety. destruct (m_message m) as [body|] eqn:Eb; [|by exists invalid_message, m, s].
  destruct (Hm Ety body Eb) as (sub & Esub & Hblk). cbn [mbind option_bind]. rewrite Esub. cbn [mbind option_bind].
  destruct (valid_block sub) as [b|] eqn:Ev; [|by exists invalid_message, m, s]. specialize (Hblk b eq_refl). cbn [mbind option_bind].
  destruct (fetch_loop_run 20 TRANSFER_FAIL_LOCAL s b) as (st & b1 & h1 & t1 & E1 & ((d & ->) & Hr) & Ht1); [done..|].
  rewrite (IM_bind_inr _ _ _ _ _ E1). destruct st.
  2-3: eexists transfer_failed, _, _; split; [done|]; split_and!; [by exists d|done..|simpl; by rewrite app_nil_r].
  destruct Hr as [[f Hf] Hs1]. assert (Ho : opened (set_data b d) = 1) by (unfold opened; by rewrite Hf).
  set (s1 := mkInsp h1 t1 (ip_puts s) (ip_sent s)).
  destruct (inspect_block_run sub (set_data b d) s1) as (o & b2 & s2 & E2 & (Hst2 & Ht2 & Hse2 & Hla) & Hj); [done|].
  rewrite (IM_bind_inr _ _ _ _ _ E2). destruct (Transfer_Free_run b2 s2) as (h3 & E3 & Hh3). rewrite (IM_bind_inr _ _ _ _ _ E3).
  exists o, (with_block m sub None), (set_insp_host s2 h3). split; [done|]. split; [|split_and!].
  - destruct o; try done. split; [done|]. by apply Hj.
  - cbn [ip_table set_insp_host]. by rewrite Ht2.
  - cbn [ip_host set_insp_host]. rewrite Hh3, Hst2. cbn [ip_host s1]. lia.
  - done.
Qed.
End Fetch.

(** ** The transports

    The function [fetch] of a descriptor: that of the file transport, and [others] for the
    network transports and the plugins. *)
Definition transport_fetch (LocalityBlockStore : string)
    (others : TransportDescriptor -> ConnectedEntity -> Host * Block -> fault + (TransferStatus * (Host * Block)))
    (trans : TransportDescriptor) (d : ConnectedEntity) (hb : Host * Block) : fault + (TransferStatus * (Host * Block)) :=
  if td_id trans == TRANSFER_MODE_FILE then
    match Transfer_File_Fetch LocalityBlockStore (Some hb.2) hb.1 with
    | inl e => inl e
    | inr ((st, b'), h') => inr (st, (h', default hb.2 b'))
    end
  else others trans d hb.

Local Ltac hm E := rewrite (HM_bind_inr _ _ _ _ _ E).

Lemma Prepare_File_run b id path h : b_pId b = Some id ->
  exists ok h' b', Transfer_Prepare_File b (Some path) false h = inr ((ok, b'), h') /\
    fetch_result h b (if ok : bool then TRANSFER_OK else TRANSFER_FAIL_LOCAL) h' b'.
Proof.
  intros Hid. unfold Transfer_Prepare_File. destruct (open_file_run path h) as (r & h1 & E1 & A1 & _). hm E1.
  destruct r as [bs|]; [|eexists false, h1, _; split; [done|]; split; [by eexists|by apply as_streams]].
  set (h2 := set_streams h1 (ho_streams h1 + 1)). hm (eq_refl : update_host (fun h => set_streams h (ho_streams h + 1)) h1 = inr ((), h2)).
  hm (pointee_run _ _ h2 Hid). cbv zeta. pose proof (as_streams _ _ A1) as Hs.
  assert (exists ok o, (if bi_iLength id == 0 then mret false else syscall) h2 = inr (ok, set_sys h2 o)) as (ok & o & E2).
  { destruct (bi_iLength id == 0); [exists false, (ho_sys h2); by destruct h2|]. destruct (syscall_run h2) as (ok & o & E & _). by exists ok, o. }
  hm E2. destruct ok.
  - eexists true, _, _. split; [reflexivity|]. split; [by eexists|]. split; [by eexists|]. cbn. by rewrite Hs.
  - eexists false, _, _. split; [reflexivity|]. split; [by eexists|]. cbn. lia.
Qed.

Lemma File_Fetch_safe base b h : block_ok b ->
  exists st h' b', Transfer_File_Fetch base (Some b) h = inr ((st, Some b'), h') /\ fetch_result h b st h' b'.
Proof.
  intros ((id & Hid & ((hash & Hh & Hc) & Hl)) & _). unfold Transfer_File_Fetch.
  assert (Hrefl : forall h', ho_streams h' = ho_streams h -> fetch_result h b TRANSFER_FAIL_LOCAL h' b).
  { intros h' Hs. split; [|done]. exists (b_data b). by destruct b. }
  assert (Hname : exists r o, allocating (Transfer_generateFilename b) h = inr (r, set_memory h o) /\
    forall x, r = Some x -> x = block_name (digest hash) (bi_iLength id)).
  { destruct (alloc_next (ho_allocs h)) as [b1 o1] eqn:E1, (alloc_next o1) as [b2 o2] eqn:E2.
    unfold allocating. rewrite (generateFilename_run b id hash) by done. unfold mbind, M_bind, alloc. rewrite E1.
    destruct b1; [rewrite E2; destruct b2|]; eexists _, _; (split; [reflexivity|]); by intros x [= <-]. }
  destruct Hname as (r & o & E & Hr). hm E. destruct r as [name|]; [|eexists _, _, b; split; [done|by apply Hrefl]].
  specialize (Hr name eq_refl). destruct (block_name_ok hash (bi_iLength id) Hc (proj1 Hl)) as [_ Hlen]. rewrite <- Hr in Hlen.
  destruct (get_chars name Hlen) as (c0 & c1 & c2 & c3 & t & _ & _ & E0 & E1 & E2 & E3).
  set (h1 := set_memory h o). assert (exists p h2, block_path base name h1 = inr (p, h2) /\ ho_streams h2 = ho_streams h) as (p & h2 & Ep & Hs2).
  { unfold block_path. hm (pointee_run _ _ h1 E0). hm (pointee_run _ _ h1 E1). hm (pointee_run _ _ h1 E2). hm (pointee_run _ _ h1 E3).
    unfold allocating, alloc, mbind, HM_bind. destruct (alloc_next (ho_allocs h1)) as [[] o2]; by eexists _, _. }
  hm Ep. destruct p as [path|]; [|eexists _, _, b; split; [done|by apply Hrefl]].
  destruct (open_file_run path h2) as (fd & h3 & E4 & A4 & _). hm E4. pose proof (as_streams _ _ A4) as Hs3.
  destruct fd as [bs|]; [|eexists _, _, b; split; [done|by apply Hrefl; rewrite Hs3]].
  destruct (syscall_run h3) as (fstat & o5 & E5 & _). hm E5.
  destruct fstat; cbn [negb]; [|eexists _, _, b; split; [done|apply Hrefl; cbn; by rewrite Hs3]].
  destruct (Prepare_File_run b id path (set_sys h3 o5) Hid) as (ok & h6 & b6 & E6 & Hf). hm E6.
  eexists _, h6, b6. split; [done|]. destruct Hf as (? & Hf). split; [done|]. destruct ok; cbn in Hf; [destruct Hf; split; [done|]; lia|lia].
Qed.

Global Instance transport_fetch_safe base others : FetchSafe others -> FetchSafe (transport_fetch base others).
Proof.
  intros Ho trans d h b Hb. unfold transport_fetch. cbn [fst snd]. destruct (td_id trans == TRANSFER_MODE_FILE); [|by apply Ho].
  destruct (File_Fetch_safe base b h Hb) as (st & h' & b' & -> & Hr). by exists st, h', b'.
Qed.
End Work.
