(* ===== verification/InspectionThreads.v ===== *)
(** * The threads of an inspector: src/inspection.c

    One receiver, the workers of the pool, and the thread that runs [Inspection_Shutdown],
    over the two lists, the flags of the context and the queue.  The place of a thread in
    its loop is a constructor; a definition named [..._turn] runs a thread to its next
    place, and between two turns any other thread may run.  A turn touches the shared
    state once: it reads the flags, pops or pushes a list, makes one call of the queue, or
    is the work on one message, which shares with the other workers only the table of the
    nuggets, under its lock.

    The state also keeps what was received, what was worked on and what became of the
    messages; no turn reads these. *)

From S2P Require Import Prelude CLib RzbList RzbListProps ListM Hash LibUuid Uuids Ntlv Blocks JsonC JsonBuffer JsonText Messages MessageCodecs CncMessages Entities BlockPool Transfer Queue Inspection Prelude.

Local Open Scope Z_scope.

Section Threads.
Context `{EVP} `{LibUuid} `{JsonText} `{Base64} `{Inet}.

(** ** State *)

(** The store of the lists is the log of the messages that [List_Destroy] destroyed. *)
Definition message_list : Type := List_t (list Received) unit Received.

Definition Inspection_Destroy_Message (item : Received) : option (list part) := destroy_message (rv_message item).
Definition destroy_item (item : Received) (log : list Received) : list Received := log ++ [item].

(** The places of the receiver: at the condition of the loop, popping completed
    messages, at the queue, with a message before the first and the second test, with a
    message to hand over, popping completed messages after the loop, returned. *)
Inductive receiver_place :=
  | R_top | R_drain | R_get
  | R_received (m : Received) | R_captured (m : Received) | R_push (m : Received)
  | R_final | R_done.

(** Those of a worker: at the condition of the loop, at the list, after an empty pop, at
    work, with a completed message, after the loop, returned. *)
Inductive worker_place :=
  | W_top | W_pop | W_empty | W_work (m : Received) | W_complete (m : Received) | W_cleanup | W_gone.

(** Those of the shutdown: not called, waiting for the workers, waiting for the completed
    messages, stopping the receiver, joining it, destroying the lists and the queue. *)
Inductive shutdown_place := S_idle | S_workers | S_completed | S_stop | S_join | S_destroy | S_done.
Global Instance shutdown_place_eq : EqDecision shutdown_place.
Proof. solve_decision. Defined.

(** What became of a message: it was acknowledged with this result, rejected for the
    queue to keep, lost by a worker that could not pass it on, or destroyed with a list. *)
Inductive fate := F_acked (ok : bool) | F_requeued (ok : bool) | F_lost | F_destroyed.

Record Flags := mkFlags {
  shutdownStarted : bool;
  paused : bool;
  emergencyShutdownRequested : bool;
  emergencySem : Z;
  receiverStopped : bool
}.

Record Lists := mkLists {
  pendingMessages : option message_list;
  completedMessages : option message_list;
  nodes : allocs
}.

Record History := mkHistory {
  hi_received : list Received;
  hi_worked : list (Received * outcome);
  hi_fates : list (Received * fate)
}.

Record Inspector := mkInspector {
  in_queue : QS;
  in_work : Insp;
  in_lists : Lists;
  in_flags : Flags;
  in_receiver : receiver_place;
  in_workers : list (worker_place * bool);
  in_shutdown : shutdown_place;
  in_history : History
}.

Definition set_in_queue (q : QS) (t : Inspector) : Inspector :=
  mkInspector q (in_work t) (in_lists t) (in_flags t) (in_receiver t) (in_workers t) (in_shutdown t) (in_history t).
Definition set_in_work (w : Insp) (t : Inspector) : Inspector :=
  mkInspector (in_queue t) w (in_lists t) (in_flags t) (in_receiver t) (in_workers t) (in_shutdown t) (in_history t).
Definition set_in_lists (l : Lists) (t : Inspector) : Inspector :=
  mkInspector (in_queue t) (in_work t) l (in_flags t) (in_receiver t) (in_workers t) (in_shutdown t) (in_history t).
Definition set_in_flags (f : Flags) (t : Inspector) : Inspector :=
  mkInspector (in_queue t) (in_work t) (in_lists t) f (in_receiver t) (in_workers t) (in_shutdown t) (in_history t).
Definition at_receiver (p : receiver_place) (t : Inspector) : Inspector :=
  mkInspector (in_queue t) (in_work t) (in_lists t) (in_flags t) p (in_workers t) (in_shutdown t) (in_history t).
Definition at_worker (i : nat) (p : worker_place) (t : Inspector) : Inspector :=
  mkInspector (in_queue t) (in_work t) (in_lists t) (in_flags t) (in_receiver t)
    (alter (fun w => (p, w.2)) i (in_workers t)) (in_shutdown t) (in_history t).
Definition at_shutdown (p : shutdown_place) (t : Inspector) : Inspector :=
  mkInspector (in_queue t) (in_work t) (in_lists t) (in_flags t) (in_receiver t) (in_workers t) p (in_history t).
Definition set_in_history (x : History) (t : Inspector) : Inspector :=
  mkInspector (in_queue t) (in_work t) (in_lists t) (in_flags t) (in_receiver t) (in_workers t) (in_shutdown t) x.

Definition note_received (m : Received) (t : Inspector) : Inspector :=
  let x := in_history t in set_in_history (mkHistory (m :: hi_received x) (hi_worked x) (hi_fates x)) t.
Definition note_worked (m : Received) (o : outcome) (t : Inspector) : Inspector :=
  let x := in_history t in set_in_history (mkHistory (hi_received x) (hi_worked x ++ [(m, o)]) (hi_fates x)) t.
Definition note_fates (ms : list Received) (f : fate) (t : Inspector) : Inspector :=
  let x := in_history t in set_in_history (mkHistory (hi_received x) (hi_worked x) (((fun m => (m, f)) <$> ms) ++ hi_fates x)) t.

(** ** The flags *)

Definition Inspection_Is_Shutdown_Started (t : Inspector) : bool := shutdownStarted (in_flags t).
Definition Inspection_Is_Paused (t : Inspector) : bool := paused (in_flags t).

Definition Inspection_Start_Shutdown (t : Inspector) : Inspector :=
  let f := in_flags t in
  set_in_flags (mkFlags true (paused f) (emergencyShutdownRequested f) (emergencySem f) (receiverStopped f)) t.

(** The semaphore is posted for the first request. *)
Definition Inspection_Request_Emergency_Shutdown (t : Inspector) : Inspector :=
  let t := Inspection_Start_Shutdown t in
  let f := in_flags t in
  if emergencyShutdownRequested f then t
  else set_in_flags (mkFlags (shutdownStarted f) (paused f) true (emergencySem f + 1) (receiverStopped f)) t.

Definition stop_receiver (t : Inspector) : Inspector :=
  let f := in_flags t in
  set_in_flags (mkFlags (shutdownStarted f) (paused f) (emergencyShutdownRequested f) (emergencySem f) true) t.

(** ** The lists *)

Definition push_to (l : option message_list) (m : Received) (t : Inspector) : fault + (bool * option message_list * allocs) :=
  let '(ok, o) := alloc_next (nodes (in_lists t)) in
  match List_Push ok l m with
  | None => inl NullDeref
  | Some (pushed, l') => inr (pushed, l', o)
  end.

Definition push_pending (m : Received) (t : Inspector) : fault + (bool * Inspector) :=
  match push_to (pendingMessages (in_lists t)) m t with
  | inl e => inl e
  | inr (pushed, l, o) => inr (pushed, set_in_lists (mkLists l (completedMessages (in_lists t)) o) t)
  end.

Definition push_completed (m : Received) (t : Inspector) : fault + (bool * Inspector) :=
  match push_to (completedMessages (in_lists t)) m t with
  | inl e => inl e
  | inr (pushed, l, o) => inr (pushed, set_in_lists (mkLists (pendingMessages (in_lists t)) l o) t)
  end.

Definition popped {A} (r : option (pop_result Received * option message_list)) (k : option Received -> option message_list -> fault + A)
    : fault + A :=
  match r with
  | None => inl NullDeref
  | Some (Blocked, _) => inl Deadlock
  | Some (Returned m, l) => k m l
  end.

(** [List_Pop_Ex (pendingMessages, INSPECTION_PENDING_POP_TIMEOUT_MS)] *)
Definition pop_pending (t : Inspector) : fault + (option Received * Inspector) :=
  popped (List_Pop_Ex (pendingMessages (in_lists t)) INSPECTION_PENDING_POP_TIMEOUT_MS) (fun m l =>
    inr (m, set_in_lists (mkLists l (completedMessages (in_lists t)) (nodes (in_lists t))) t)).

(** [List_Pop (completedMessages)] *)
Definition pop_completed (t : Inspector) : fault + (option Received * Inspector) :=
  popped (List_Pop (completedMessages (in_lists t))) (fun m l =>
    inr (m, set_in_lists (mkLists (pendingMessages (in_lists t)) l (nodes (in_lists t))) t)).

(** [Inspection_Destroy_Message (message)] at the end of a message, with its fate. *)
Definition ends_as (m : Received) (f : fate) (t : Inspector) : fault + Inspector :=
  match Inspection_Destroy_Message m with
  | None => inl NullDeref
  | Some _ => inr (note_fates [m] f t)
  end.

(** ** The receiver *)

(** The queue is only used by the receiver. *)
Definition on_the_queue {A} (c : QM A) (k : A -> Inspector -> fault + Inspector) (t : Inspector) : fault + Inspector :=
  match c (in_queue t) with
  | inl e => inl e
  | inr (x, q) => k x (set_in_queue q t)
  end.

(** [Queue_Reject_Message (l_pQueue, message, true)] *)
Definition requeue (m : Received) : Inspector -> fault + Inspector :=
  on_the_queue (Queue_Reject_Message (rv_brokerSettlement m) true) (fun r => ends_as m (F_requeued r.1)).

(** One pass of the loop of [Inspection_Drain_Completed]; [after] is the place of the
    receiver when the list is empty. *)
Definition Inspection_Drain_Completed (after : receiver_place) (t : Inspector) : fault + Inspector :=
  match pop_completed t with
  | inl e => inl e
  | inr (None, t) => inr (at_receiver after t)
  | inr (Some m, t) => on_the_queue (Queue_Ack_Message (rv_brokerSettlement m)) (fun r => ends_as m (F_acked r.1)) t
  end.

Section Turns.
Variable sg : UuidLists.
Variable handlerList : option handler_list.
Variable cfg : EntityConfig.
Variable transports : option transport_list.
Variable fetch : TransportDescriptor -> ConnectedEntity -> Host * Block -> fault + (TransferStatus * (Host * Block)).
Variable processBlock : Block -> option EventId -> option ntlv_list -> Z.
Variable nugget : uuid_t.
Variable clock : option (Z * Z).
Variable pushes : allocs.

(** A message that came when the shutdown had started goes back to the queue. *)
Definition Inspection_Receiver_turn (t : Inspector) : fault + Inspector :=
  match in_receiver t with
  | R_top => inr (at_receiver (if receiverStopped (in_flags t) then R_final else R_drain) t)
  | R_drain => Inspection_Drain_Completed R_get t
  | R_get =>
      on_the_queue (Queue_Get_Ex sg handlerList false INSPECTION_RECEIVER_POLL_TIMEOUT_MS) (fun r t =>
        match r with
        | None => inr (at_receiver R_top t)
        | Some m => inr (at_receiver (R_received m) (note_received m t))
        end) t
  | R_received m =>
      if Inspection_Is_Shutdown_Started t then requeue m (at_receiver R_top t)
      else inr (at_receiver (R_captured m) t)
  | R_captured m =>
      if receiverStopped (in_flags t) || Inspection_Is_Shutdown_Started t then requeue m (at_receiver R_top t)
      else inr (at_receiver (R_push m) t)
  | R_push m =>
      match push_pending m t with
      | inl e => inl e
      | inr (true, t) => inr (at_receiver R_top t)
      | inr (false, t) => requeue m (at_receiver R_top t)
      end
  | R_final => Inspection_Drain_Completed R_done t
  | R_done => inr t
  end.

(** ** The workers *)

(** A completed message that cannot be passed on is lost, and the context shuts down. *)
Definition Inspection_Complete_Message (i : nat) (m : Received) (t : Inspector) : fault + Inspector :=
  match push_completed m t with
  | inl e => inl e
  | inr (true, t) => inr (at_worker i W_top t)
  | inr (false, t) => ends_as m F_lost (at_worker i W_cleanup (Inspection_Request_Emergency_Shutdown t))
  end.

Definition Inspection_Process_turn (i : nat) (t : Inspector) : fault + Inspector :=
  match (in_workers t !! i : option (worker_place * bool)) with
  | None => inr t
  | Some (place, stopped) =>
      match place with
      | W_top =>
          if stopped then inr (at_worker i W_cleanup t)
          else if Inspection_Is_Paused t && negb (Inspection_Is_Shutdown_Started t) then inr t
          else inr (at_worker i W_pop t)
      | W_pop =>
          match pop_pending t with
          | inl e => inl e
          | inr (None, t) => inr (at_worker i W_empty t)
          | inr (Some m, t) => inr (at_worker i (W_work m) t)
          end
      | W_empty =>
          if stopped then inr (at_worker i W_cleanup t)
          else if Inspection_Is_Shutdown_Started t && (List_Length (pendingMessages (in_lists t)) == 0)
          then inr (at_worker i W_cleanup t)
          else inr (at_worker i W_top t)
      | W_work m =>
          match Inspection_Process_Message sg cfg transports fetch processBlock nugget clock pushes (rv_message m) (in_work t) with
          | inl e => inl e
          | inr ((o, m'), w) =>
              inr (at_worker i (W_complete (mkReceived m' (rv_brokerSettlement m))) (note_worked m o (set_in_work w t)))
          end
      | W_complete m => Inspection_Complete_Message i m t
      | W_cleanup => inr (at_worker i W_gone t)
      | W_gone => inr t
      end
  end.

(** ** The shutdown *)

Definition is_gone (w : worker_place * bool) : bool := match w.1 with W_gone => true | _ => false end.
Definition ThreadPool_GetAliveCount (t : Inspector) : nat := length (filter (fun w => is_gone w = false) (in_workers t)).

(** [List_Destroy] of one of the lists: the messages it destroys, in their order. *)
Definition destroy_list (l : option message_list) (t : Inspector) : fault + Inspector :=
  match List_Destroy l [] with
  | None => inl NullDeref
  | Some ms => if forallb (fun m => match Inspection_Destroy_Message m with Some _ => true | None => false end) ms
               then inr (note_fates ms F_destroyed t) else inl NullDeref
  end.

(** [Inspection_Shutdown] of an inspector that was launched; the termination of the queue
    is that of its entry in the registry. *)
Definition Inspection_Shutdown_turn (t : Inspector) : fault + Inspector :=
  match in_shutdown t with
  | S_idle => inr (at_shutdown S_workers (Inspection_Start_Shutdown t))
  | S_workers => inr (if (ThreadPool_GetAliveCount t =? 0)%nat then at_shutdown S_completed t else t)
  | S_completed => inr (if List_Length (completedMessages (in_lists t)) == 0 then at_shutdown S_stop t else t)
  | S_stop => inr (at_shutdown S_join (stop_receiver t))
  | S_join => inr (match in_receiver t with R_done => at_shutdown S_destroy t | _ => t end)
  | S_destroy =>
      match destroy_list (pendingMessages (in_lists t)) t with
      | inl e => inl e
      | inr t =>
          match destroy_list (completedMessages (in_lists t)) t with
          | inl e => inl e
          | inr t => on_the_queue Queue_Terminate (fun _ t => inr (at_shutdown S_done t)) (set_in_lists (mkLists None None (nodes (in_lists t))) t)
          end
      end
  | S_done => inr t
  end.

(** ** Interleavings *)

(** [Pause] and [StopWorker] are calls of other components: the command and control, and
    the thread pool. *)
Inductive actor := Receiver | Worker (i : nat) | Shutdown | Pause (on : bool) | StopWorker (i : nat).

Definition turn (a : actor) (t : Inspector) : fault + Inspector :=
  match a with
  | Receiver => Inspection_Receiver_turn t
  | Worker i => Inspection_Process_turn i t
  | Shutdown => Inspection_Shutdown_turn t
  | Pause on =>
      let f := in_flags t in
      inr (set_in_flags (mkFlags (shutdownStarted f) on (emergencyShutdownRequested f) (emergencySem f) (receiverStopped f)) t)
  | StopWorker i =>
      inr (mkInspector (in_queue t) (in_work t) (in_lists t) (in_flags t) (in_receiver t)
             (alter (fun w => (w.1, true)) i (in_workers t)) (in_shutdown t) (in_history t))
  end.

Fixpoint turns (l : list actor) (t : Inspector) : fault + Inspector :=
  match l with
  | [] => inr t
  | a :: l' => match turn a t with inl e => inl e | inr t' => turns l' t' end
  end.
End Turns.
End Threads.
