(* ===== verification/InspectionRuns.v ===== *)
(** * Lemmas about the threads of an inspector

    The invariant [books] of the interleavings: where every message that was received is,
    what the lists hold, which settlements are owed to the queue, and what the shutdown
    has waited for. *)

From S2P Require Import CLib RzbList RzbListProps ListM Hash LibUuid Uuids Ntlv Blocks BlockPool JsonC JsonBuffer JsonText Messages MessageCodecs CncMessages MessageProps CncThms MessageSafety Entities EntitiesProps Transfer TransferProps Submission SubmissionProps JsonObjects JsonSafety Queue QueueProps QueueRuns QueueGet QueueSend QueueThms QueueOpen Inspection InspectionProps InspectionThreads Prelude.

Local Open Scope Z_scope.

(** ** The lists *)

Section Holds.
Context `{EVP} `{LibUuid} `{JsonText} `{Base64} `{Inet}.
Implicit Types (l : list Received) (m : Received).

(** A list as [Inspection_Launch] makes it, with the messages [l]. *)
Definition list_holds (mode : Z) (p : option message_list) l : Prop :=
  exists q, p = Some q /\ contents q l /\ l_mode q = mode /\ l_limit q = 0 /\ l_destroy q = Some destroy_item /\
    l_sem q = if mode == LIST_MODE_QUEUE then Some (Z.of_nat (length l)) else None.

Definition listed (mode : Z) : Prop := mode = LIST_MODE_QUEUE \/ mode = LIST_MODE_GENERIC.

Lemma created_holds mode q : listed mode ->
  List_Create true true true mode None None (Some destroy_item) None None None = Some q -> list_holds mode (Some q) [].
Proof. intros Hmo E. pose proof (Create_contents _ _ _ _ _ _ _ _ _ _ _ E) as Hc. destruct Hmo as [-> | ->]; injection E as <-; by eexists. Qed.

Lemma holds_known mode q : listed mode -> l_mode q = mode -> l_limit (Item := Received) (St := list Received) (Key := unit) q = 0 ->
  known_mode q = true /\ is_stack q = false /\ at_limit q = false.
Proof. intros [-> | ->] Hm Hl; unfold known_mode, is_stack, at_limit; by rewrite Hm, Hl. Qed.

Lemma holds_meta mode (q q' : message_list) l' : meta q' = meta q -> l_mode q = mode -> l_limit q = 0 ->
  l_destroy q = Some destroy_item -> contents q' l' ->
  l_sem q' = (if mode == LIST_MODE_QUEUE then Some (Z.of_nat (length l')) else None) -> list_holds mode (Some q') l'.
Proof. unfold meta. intros E ? ? ? ? ?. exists q'. split_and!; try done; congruence. Qed.

Lemma push_holds mode p l m b : listed mode -> list_holds mode p l ->
  exists p', List_Push b p m = Some (b, p') /\ list_holds mode p' (if b then l ++ [m] else l).
Proof.
  intros Hmo (q & -> & Hc & Hm & Hl & Hd & Hs). destruct (holds_known mode q Hmo Hm Hl) as (Hk & Hst & Hal). destruct b.
  - destruct (Push_ok q l m Hc Hal Hk) as (q' & E & Hme & Hse & Hc'). exists (Some q'). split; [exact E|]. rewrite Hst in Hc'.
    eapply holds_meta; [done..|]. rewrite Hse, Hs. destruct (mode == LIST_MODE_QUEUE); [|done]. simpl. f_equal. rewrite length_app. simpl. lia.
  - exists (Some q). split; [exact (Push_refused false q m eq_refl)|]. by exists q.
Qed.

(** A pop takes the newest message. *)
Lemma pop_holds mode p l t : listed mode -> list_holds mode p l -> t <> 0 \/ mode = LIST_MODE_GENERIC ->
  exists p', List_Pop_Ex p t = Some (Returned (list.last l), p') /\ list_holds mode p' (removelast l).
Proof.
  intros Hmo (q & -> & Hc & Hm & Hl & Hd & Hs) Ht. destruct (holds_known mode q Hmo Hm Hl) as (Hk & Hst & _).
  assert (Hpop : forall q0 c, contents q0 l -> meta q0 = meta q -> l_sem q0 = c ->
    c = (if mode == LIST_MODE_QUEUE then Some (Z.of_nat (length (removelast l))) else None) ->
    exists p', ('(node, l1) ← List_Do_Pop q0;
      match node with
      | None => Some (Returned None, Some l1)
      | Some a => n ← l_nodes l1 !! a; Some (Returned (Some (n_item n)), Some (free_node l1 a))
      end) = Some (Returned (list.last l), p') /\ list_holds mode p' (removelast l)).
  { intros q0 c Hc0 Hme0 Hs0 Hcc. destruct (meta_mode _ _ Hme0) as [Hst0 Hk0]. rewrite Hk in Hk0. rewrite Hst in Hst0.
    destruct (Pop_take q0 l c Hc0 Hk0 Hs0) as (q' & Ep & Hme & Hse & Hc'). exists (Some q'). rewrite Hst0 in Hc', Ep.
    assert (Hme' : meta q' = meta q) by congruence.
    unfold spec.pop in Hc', Ep. destruct (decide (l = [])) as [->|Hne].
    { split; [exact Ep|]. eapply holds_meta; [done..|]. congruence. }
    destruct (exists_last Hne) as (l' & i & El). subst l. rewrite reverse_snoc in Hc', Ep. simpl in Hc', Ep. rewrite reverse_involutive in Hc'.
    rewrite last_snoc, removelast_last in *. split; [exact Ep|]. eapply holds_meta; [done..|]. congruence. }
  unfold List_Pop_Ex. rewrite Hs. destruct (mode == LIST_MODE_QUEUE) eqn:Em; [|by eapply Hpop].
  destruct (decide (l = [])) as [->|Hne].
  - cbn. destruct (t == 0) eqn:Et; [apply Z.eqb_eq in Et|].
    { destruct Ht as [Ht| ->]; [by subst|done]. }
    exists (Some q). split; [done|]. exists q. split_and!; try done. by rewrite Em.
  - destruct (exists_last Hne) as (l' & i & El). rewrite (proj2 (Z.ltb_lt _ _)) by (subst l; rewrite length_app; simpl; lia).
    eapply Hpop; [by apply contents_sem|done|done|]. subst l. rewrite removelast_last, length_app. simpl. f_equal. lia.
Qed.

Lemma destroy_all_log l log : spec.destroy_all (Some destroy_item) l log = log ++ l.
Proof.
  revert log. induction l as [|m l IH]; intros log; simpl; [by rewrite app_nil_r|].
  unfold spec.destroy_all in *. simpl. rewrite IH. unfold destroy_item. by rewrite <- app_assoc.
Qed.

Lemma destroy_holds mode p l : listed mode -> list_holds mode p l ->
  exists ms, List_Destroy p [] = Some ms /\ ms ≡ₚ l.
Proof.
  intros Hmo (q & -> & Hc & Hm & Hl & Hd & _). destruct (holds_known mode q Hmo Hm Hl) as (Hk & Hst & _).
  unfold List_Destroy, List_Clear. destruct (Clear_all q l [] Hc Hk) as (q' & -> & _). eexists. split; [reflexivity|].
  rewrite Hd, destroy_all_log. simpl. rewrite Hst. unfold spec.pop_order. by rewrite reverse_Permutation.
Qed.

Lemma length_holds mode p l : list_holds mode p l -> List_Length p = u64 (Z.of_nat (length l)).
Proof. intros (q & -> & Hc & _). simpl. by apply contents_length. Qed.
End Holds.

(** ** Where the messages are *)

Section Places.
Context `{EVP} `{LibUuid} `{JsonText} `{Base64} `{Inet}.

Definition receiver_has (p : receiver_place) : list Received :=
  match p with R_received m | R_captured m | R_push m => [m] | _ => [] end.
Definition worker_has (p : worker_place) : list Received := match p with W_work m | W_complete m => [m] | _ => [] end.
Definition worker_works (p : worker_place) : list Received := match p with W_work m => [m] | _ => [] end.
Definition worker_completes (p : worker_place) : list Received := match p with W_complete m => [m] | _ => [] end.

Definition have (h : worker_place -> list Received) (ws : list (worker_place * bool)) : list Received := ws ≫= (fun w => h w.1).

Lemma have_at h ws i p st p' : ws !! i = Some (p, st) ->
  exists rest, have h ws ≡ₚ h p ++ rest /\ have h (alter (fun w => (p', w.2)) i ws) ≡ₚ h p' ++ rest.
Proof.
  revert i. induction ws as [|w ws IH]; intros i Hi; [done|]. destruct i as [|i]; simpl in Hi.
  - injection Hi as ->. by exists (have h ws).
  - destruct (IH i Hi) as (rest & E1 & E2). exists (h w.1 ++ rest). unfold have in *. simpl. rewrite E1, E2. split; solve_Permutation.
Qed.

Lemma have_stop h i ws : have h (alter (fun w => (w.1, true)) i ws) = have h ws.
Proof.
  revert i. unfold have. induction ws as [|w ws IH]; intros [|i]; try done.
  change (alter (fun w => (w.1, true)) (S i) (w :: ws)) with (w :: alter (fun w : worker_place * bool => (w.1, true)) i ws).
  by rewrite !bind_cons, IH.
Qed.

(** The settlements identify the messages: the work changes their bodies. *)
Definition ids (ms : list Received) : list (option MessageSettlement) := rv_brokerSettlement <$> ms.
Definition owed_by (ms : list Received) : list MessageSettlement := omap rv_brokerSettlement ms.

Lemma ids_app a b : ids (a ++ b) = ids a ++ ids b.
Proof. apply fmap_app. Qed.

Global Instance ids_perm : Proper ((≡ₚ) ==> (≡ₚ)) ids.
Proof. intros a b E. by apply fmap_Permutation. Qed.
Global Instance owed_by_perm : Proper ((≡ₚ) ==> (≡ₚ)) owed_by.
Proof. intros a b E. unfold owed_by. by rewrite E. Qed.

Lemma owed_by_ids a b : ids a ≡ₚ ids b -> owed_by a ≡ₚ owed_by b.
Proof.
  assert (E : forall l, owed_by l = omap id (ids l)).
  { induction l as [|x l IH]; [done|]. unfold owed_by, ids in *. cbn. destruct (rv_brokerSettlement x); cbn; [by f_equal|exact IH]. }
  intros Hp. by rewrite !E, Hp.
Qed.

(** The messages that the work is done on. *)
Definition finished (f : fate) : Prop := match f with F_acked _ | F_lost => True | _ => False end.
Global Instance finished_dec f : Decision (finished f).
Proof. destruct f; simpl; apply _. Defined.
Definition done_with (fs : list (Received * fate)) : list Received := (filter (fun x => finished x.2) fs).*1.

Lemma done_with_app a b : done_with (a ++ b) = done_with a ++ done_with b.
Proof. unfold done_with. by rewrite filter_app, fmap_app. Qed.

Lemma done_with_all ms f : done_with ((fun m => (m, f)) <$> ms) = if decide (finished f) then ms else [].
Proof.
  unfold done_with. induction ms as [|m ms IH]; simpl; [by destruct (decide _)|]. rewrite filter_cons. simpl.
  destruct (decide (finished f)); [|done]. simpl. by f_equal.
Qed.

Definition holders (t : Inspector) (ps cs : list Received) : list Received :=
  receiver_has (in_receiver t) ++ ps ++ have worker_has (in_workers t) ++ cs.
Definition todo (t : Inspector) (ps : list Received) : list Received :=
  receiver_has (in_receiver t) ++ ps ++ have worker_works (in_workers t).

Definition workers_gone (t : Inspector) : Prop := Forall (fun w => is_gone w = true) (in_workers t).

Lemma gone_have h ws : (forall p, is_gone (p, true) = true -> h p = []) -> Forall (fun w => is_gone w = true) ws -> have h ws = [].
Proof.
  intros Hh. induction 1 as [|w ws Hw _ IH]; [done|]. unfold have in *. rewrite bind_cons, IH, app_nil_r. apply Hh. by destruct w as [[]].
Qed.

Lemma alive_none t : ThreadPool_GetAliveCount t = 0%nat -> workers_gone t.
Proof.
  unfold ThreadPool_GetAliveCount, workers_gone. induction (in_workers t) as [|w ws IH]; [done|]. rewrite filter_cons.
  destruct (decide (is_gone w = false)) as [|Hg]; [done|]. intros Hl. constructor; [by destruct (is_gone w)|by apply IH].
Qed.

(** A message that is held can be destroyed and settled. *)
Definition sane (m : Received) : Prop := destroyable (rv_message m) /\ is_Some (rv_brokerSettlement m).
End Places.

(** ** The queue *)

Section Books.
Context `{EVPLaws} `{LibUuidLaws} `{JsonTextLaws} `{Base64} `{InetLaws}.
Variable sg : UuidLists.
Variable types nts : list UUIDListNode.
Hypothesis types_entries : entries (UUID_Get_List sg UUID_TYPE_NTLV_TYPE) types.
Hypothesis nuggets_entries : entries (UUID_Get_List sg UUID_TYPE_NUGGET_TYPE) nts.
Variable handlerList : option handler_list.
Variable table : list MessageHandler.
Hypothesis Htable : handlers handlerList table.
Hypothesis table_inspects : inspects table.

(** The queue is there, and the settlements of the messages [ms] are owed to it. *)
Definition serving (q : QS) (ms : list Received) : Prop := living table (q, owed_by ms, 0) /\ open q /\ calm q.

Lemma open_queue q : open q -> ~ gone q.
Proof. unfold open, tie. intros E (Hq & _). by rewrite Hq in E. Qed.

Lemma serving_sub q a b : owed_by b ⊆+ owed_by a -> serving q a -> serving q b.
Proof.
  intros Hs ([(xs & HA & HR) Ht] & Ho & Hc). split; [|done]. split; [|done]. exists xs. split; [|done]. simpl in *. by eapply alive_sub.
Qed.

Lemma serving_ids q a b : ids b ≡ₚ ids a -> serving q a -> serving q b.
Proof. intros E. apply serving_sub. by rewrite (owed_by_ids _ _ E). Qed.

Lemma living_after q held q' : all_tame table (qs_net q) -> open q' -> after held 0 q q' -> living table (q', held, 0).
Proof. intros Ht Ho Ha. destruct (after_sound table held 0 q q' Ht Ha) as [|Hg]; [done|]. by destruct (open_queue q'). Qed.

Lemma serving_get q ms timeout : serving q ms -> 0 < timeout ->
  exists r q', Queue_Get_Ex sg handlerList false timeout q = inr (r, q') /\
    serving q' (match r with Some m => [m] | None => [] end ++ ms) /\
    forall m, r = Some m -> sane m /\ fits_inspection (rv_message m).
Proof.
  intros ([(xs & HA & HR) Ht] & Ho & Hc) Hto. simpl in *.
  destruct (Get_run sg types nts types_entries nuggets_entries handlerList table Htable false timeout (owed_by ms) xs 0 q HA HR)
    as [[_ ?]|Hw]; [lia|lia|intros e (a & Ha & Hr); by eapply Ht|lia|].
  apply qwp_inv in Hw as (r & q' & E & Ha & Hm). destruct (Get_open sg handlerList false timeout q r q' Ho Hc E) as [Hc' Ho'].
  exists r, q'. split; [done|]. split; [split; [|done]|].
  - eapply living_after; [done|done|]. destruct r as [m|]; [|done]. cbn in *. by destruct (rv_brokerSettlement m).
  - intros m ->. destruct (Hm m eq_refl) as ((? & Hf) & Hs). split; [split; [done|by apply Hs]|by apply Hf].
Qed.

Lemma serving_settle q m ms ack rq : serving q (m :: ms) -> is_Some (rv_brokerSettlement m) ->
  exists r q', Queue_Settle_Message (rv_brokerSettlement m) ack rq q = inr (r, q') /\ serving q' ms.
Proof.
  intros ([(xs & HA & HR) Ht] & Ho & Hc) [x Hx]. cbn [fst snd] in *. assert (Ew : owed_by (m :: ms) = x :: owed_by ms) by (cbn; by rewrite Hx).
  rewrite Ew in HA. rewrite Hx.
  pose proof (settle_message_after x (owed_by ms) xs 0 ack rq q HA HR ltac:(lia)) as Hw. apply qwp_inv in Hw as ([ok p] & q' & E & Ha & _).
  destruct (Settle_open (Some x) ack rq q _ q' Ho Hc E) as [Hc' Ho']. exists (ok, p), q'. split; [done|]. split; [|done].
  pose proof (living_after q _ q' Ht Ho' Ha) as [(xs' & HA' & HR') Ht']. split; [|done]. exists xs'. split; [|done]. simpl in *.
  eapply alive_sub; [|exact HA']. destruct p; [by apply submseteq_cons|done].
Qed.

Lemma serving_terminate q ms : serving q ms -> exists q', Queue_Terminate q = inr ((), q') /\ gone q'.
Proof.
  intros ([(xs & HA & HR) _] & _). simpl in *. pose proof (Terminate_after _ xs 0 q HA HR) as Hw.
  apply qwp_inv in Hw as ([] & q' & E & _ & [(? & _ & _ & ?)|[Hg _]]); [lia|]. by exists q'.
Qed.

(** ** Work on what was received *)

Lemma wf_block_ok b : wf_block b -> block_ok b.
Proof.
  intros (lv & anc & Hr & Hf). apply Forall_cons in Hf as [[Hid Hpid] _]. inversion Hr; subst; simpl in *;
    (split; [by eexists|]; split; [done|]; intros l Hl; simpl in Hl; subst; destruct m as [xs|]; [by exists xs|done]).
Qed.

Lemma fits_inspectable m : fits_inspection m -> inspectable m.
Proof.
  intros Hf Hty body Hb. destruct (Hf Hty body Hb) as (sub & Hs & Hwf). exists sub. split; [done|]. intros b Hv. apply wf_block_ok, Hwf.
  unfold valid_block in Hv. destruct (is_pBlock sub) as [b'|]; [|done]. simpl in Hv. destruct (b_pId b') as [id|]; [|done]. simpl in Hv.
  by destruct (bi_pHash id).
Qed.

Lemma with_block_destroyable m sub b : m_message m = Some (Messages.inj (sub : MessageInspectionSubmission)) -> destroyable m -> destroyable (with_block m sub b).
Proof.
  intros Hm [ps E]. unfold destroyable, destroy_message in *. cbn [with_block with_body m_codec]. destruct (m_codec m) as [c|]; [|by eexists].
  destruct m as [ty le ve hd msg se co]. simpl in Hm. subst msg. destruct c; try done; by eexists.
Qed.

Lemma processed_destroyable processBlock nugget m o m' : processed processBlock nugget m o m' -> destroyable m -> destroyable m'.
Proof.
  unfold processed, workable. intros Hp Hd. destruct (m_type m == MESSAGE_TYPE_INSPECTION); [|by destruct Hp as [_ ->]].
  destruct (m_message m) as [body|] eqn:Eb; [|by destruct Hp as [_ ->]]. cbn [mbind option_bind] in Hp.
  destruct (Messages.proj body) as [sub|] eqn:Es; [|by destruct Hp as [_ ->]]. cbn [mbind option_bind] in Hp.
  destruct (valid_block sub) as [b|]; [|by destruct Hp as [_ ->]]. cbn [mbind option_bind] in Hp. apply inj_proj in Es. subst body.
  destruct o; naive_solver eauto using with_block_destroyable.
Qed.

(** ** The invariant *)

Variable cfg : EntityConfig.
Variable transports : option transport_list.
Variable tds : list TransportDescriptor.
Hypothesis transports_ok : registry transports tds.
Variable fetch : TransportDescriptor -> ConnectedEntity -> Host * Block -> fault + (TransferStatus * (Host * Block)).
Context `{!FetchSafe fetch}.
Variable entities : nat.
Hypothesis entities_fit : Z.of_nat entities < 2 ^ 32.
Variable processBlock : Block -> option EventId -> option ntlv_list -> Z.
Variable nugget : uuid_t.
Variable clock : option (Z * Z).
Variable pushes : allocs.
(** The messages that were sent and the streams that were open at the start. *)
Variable sent0 : list Message.
Variable streams0 : Z.

Abbreviation pending t := (pendingMessages (in_lists t)).
Abbreviation completed t := (completedMessages (in_lists t)).
Abbreviation received t := (hi_received (in_history t)).
Abbreviation worked t := (hi_worked (in_history t)).
Abbreviation fates t := (hi_fates (in_history t)).

(** Every message that was received is held by a thread or by a list, or has its fate. *)
Definition kept t (ps cs : list Received) : Prop := ids (received t) ≡ₚ ids (holders t ps cs ++ (fates t).*1).

(** The messages that were worked on are those that are completed, acknowledged or lost. *)
Definition accounted t (cs : list Received) : Prop :=
  ids (worked t).*1 ≡ₚ ids (have worker_completes (in_workers t) ++ cs ++ done_with (fates t)).

(** The state of the work: the judgments that were sent are those of the outcomes. *)
Record working (w : Insp) (ws : list (Received * outcome)) : Prop := {
  wk_sent : ip_sent w = sent0 ++ concat ((fun x => sent_by x.2) <$> ws);
  wk_streams : ho_streams (ip_host w) = streams0;
  wk_table : table_ok nts (ip_table w) entities
}.

(** What the shutdown has waited for. *)
Definition phase t (ps cs : list Received) : Prop :=
  match in_shutdown t with
  | S_idle | S_workers => True
  | S_completed => workers_gone t
  | S_stop | S_join => workers_gone t /\ cs = []
  | S_destroy => workers_gone t /\ cs = [] /\ in_receiver t = R_done
  | S_done => workers_gone t /\ cs = [] /\ in_receiver t = R_done /\ ps = []
  end.

Definition ended t : Prop := in_shutdown t = S_done.

Record books t (ps cs : list Received) : Prop := {
  bk_lists : ~ ended t -> list_holds LIST_MODE_QUEUE (pending t) ps /\ list_holds LIST_MODE_GENERIC (completed t) cs;
  bk_queue : ~ ended t -> serving (in_queue t) (holders t ps cs);
  bk_gone : ended t -> gone (in_queue t);
  bk_kept : kept t ps cs;
  bk_worked : accounted t cs;
  bk_work : working (in_work t) (worked t);
  bk_sane : Forall sane (holders t ps cs);
  bk_fits : Forall (fun m => fits_inspection (rv_message m)) (todo t ps);
  bk_phase : phase t ps cs
}.

(** Before the shutdown has joined the receiver. *)
Lemma receiver_runs t ps cs : books t ps cs -> in_receiver t <> R_done ->
  ~ ended t /\ (match in_shutdown t with S_destroy | S_done => False | _ => True end).
Proof.
  intros [_ _ _ _ _ _ _ _ Hp] Hr. unfold phase, ended in *. destruct (in_shutdown t); naive_solver.
Qed.

(** A turn of the receiver, in its parts. *)
Lemma receiver_books t t' ps cs ps' cs' : books t ps cs -> in_receiver t <> R_done ->
  in_shutdown t' = in_shutdown t -> in_workers t' = in_workers t -> in_work t' = in_work t -> worked t' = worked t ->
  list_holds LIST_MODE_QUEUE (pending t') ps' -> list_holds LIST_MODE_GENERIC (completed t') cs' ->
  serving (in_queue t') (holders t' ps' cs') -> kept t' ps' cs' -> ids (cs' ++ done_with (fates t')) ≡ₚ ids (cs ++ done_with (fates t)) ->
  Forall sane (holders t' ps' cs') -> Forall (fun m => fits_inspection (rv_message m)) (todo t' ps') -> (cs = [] -> cs' = []) ->
  books t' ps' cs'.
Proof.
  intros HB Hr Es Ew Ei Eo Hps Hcs Hq Hk Ha Hsa Hfi Hn. destruct (receiver_runs t ps cs HB Hr) as [He Hsh]. unfold ended in He.
  split; unfold ended; rewrite ?Es; try done.
  - unfold accounted. rewrite Eo, Ew, ids_app, Ha, <- ids_app. apply HB.
  - rewrite Ei, Eo. apply HB.
  - pose proof (bk_phase _ _ _ HB) as Hp. unfold phase, workers_gone in *. rewrite Es, Ew. destruct (in_shutdown t); naive_solver.
Qed.

(** ** The turns of the receiver *)

Lemma receiver_goes t ps cs p : books t ps cs -> in_receiver t <> R_done -> receiver_has p = receiver_has (in_receiver t) ->
  books (at_receiver p t) ps cs.
Proof.
  intros HB Hr Hp. destruct (receiver_runs t ps cs HB Hr) as [He _]. destruct (bk_lists _ _ _ HB He).
  assert (Eh : holders (at_receiver p t) ps cs = holders t ps cs) by (unfold holders; simpl; by rewrite Hp).
  eapply receiver_books; try done; rewrite ?Eh.
  - by apply HB.
  - unfold kept. rewrite Eh. apply HB.
  - apply HB.
  - unfold todo. simpl. rewrite Hp. apply HB.
Qed.

Lemma ends_as_run m f t : sane m -> ends_as m f t = inr (note_fates [m] f t).
Proof. intros [[ps E] _]. unfold ends_as, Inspection_Destroy_Message. by rewrite E. Qed.

(** What is settled is no longer held. *)
Lemma settled_books t t' ps cs ps' cs' m f q : books t ps cs -> in_receiver t <> R_done ->
  ids (holders t ps cs) ≡ₚ rv_brokerSettlement m :: ids (holders t' ps' cs') -> sane m -> serving q (holders t' ps' cs') ->
  in_shutdown t' = in_shutdown t -> in_workers t' = in_workers t -> in_work t' = in_work t -> in_history t' = in_history t ->
  list_holds LIST_MODE_QUEUE (pending t') ps' -> list_holds LIST_MODE_GENERIC (completed t') cs' -> (cs = [] -> cs' = []) ->
  ids (cs' ++ done_with [(m, f)]) ≡ₚ ids cs -> holders t' ps' cs' ⊆ holders t ps cs -> todo t' ps' ⊆ todo t ps ->
  books (note_fates [m] f (set_in_queue q t')) ps' cs'.
Proof.
  intros HB Hr Hids Hsa Hq Es Ew Ei Eh Hps Hcs Hn Hd Hsub Hto.
  eapply (receiver_books t _ ps cs); try done; simpl; rewrite ?Eh; try done.
  - unfold kept. simpl. rewrite Eh. pose proof (bk_kept _ _ _ HB) as Hk. unfold kept in Hk. rewrite Hk, !ids_app, Hids.
    change (holders (note_fates [m] f (set_in_queue q t')) ps' cs') with (holders t' ps' cs'). simpl. solve_Permutation.
  - pose proof (done_with_app [(m, f)] (fates t)) as E. simpl in E. rewrite E, !ids_app. rewrite !ids_app in Hd. rewrite <- Hd. solve_Permutation.
  - eapply (Forall_forall _ _). intros x Hx. pose proof (bk_sane _ _ _ HB) as Hs. rewrite Forall_forall in Hs. by apply Hs, Hsub.
  - eapply (Forall_forall _ _). intros x Hx. pose proof (bk_fits _ _ _ HB) as Hs. rewrite Forall_forall in Hs. by apply Hs, Hto.
Qed.

Lemma requeue_books t ps cs m l : books t ps cs -> receiver_has (in_receiver t) = [m] ->
  list_holds LIST_MODE_QUEUE (pendingMessages l) ps -> list_holds LIST_MODE_GENERIC (completedMessages l) cs ->
  exists t', requeue m (at_receiver R_top (set_in_lists l t)) = inr t' /\ books t' ps cs.
Proof.
  intros HB Hh Hps Hcs. assert (Hr : in_receiver t <> R_done) by (intros E; by rewrite E in Hh).
  destruct (receiver_runs t ps cs HB Hr) as [He _]. set (t1 := at_receiver R_top (set_in_lists l t)).
  assert (E : holders t ps cs = m :: holders t1 ps cs) by (unfold holders; by rewrite Hh).
  pose proof (bk_queue _ _ _ HB He) as Hq. pose proof (bk_sane _ _ _ HB) as Hs. rewrite E in Hq, Hs. apply Forall_cons in Hs as [Hsa _].
  destruct (serving_settle _ m _ false true Hq (proj2 Hsa)) as (r & q' & Eq & Hq'). unfold requeue, on_the_queue.
  change (in_queue t1) with (in_queue t). change (Queue_Reject_Message (rv_brokerSettlement m) true (in_queue t)) with (Queue_Settle_Message (rv_brokerSettlement m) false true (in_queue t)).
  rewrite Eq, ends_as_run by done. eexists. split; [reflexivity|]. eapply (settled_books t _ ps cs); try done.
  - by rewrite E.
  - simpl. by rewrite app_nil_r.
  - rewrite E. set_solver.
  - unfold todo. rewrite Hh. set_solver.
Qed.

Lemma drain_books t ps cs p : books t ps cs -> in_receiver t <> R_done -> receiver_has (in_receiver t) = [] -> receiver_has p = [] ->
  exists t' cs', Inspection_Drain_Completed p t = inr t' /\ books t' ps cs'.
Proof.
  intros HB Hr Hh Hp. destruct (receiver_runs t ps cs HB Hr) as [He _]. destruct (bk_lists _ _ _ HB He) as [Hps Hcs].
  unfold Inspection_Drain_Completed, pop_completed, List_Pop, popped.
  destruct (pop_holds LIST_MODE_GENERIC (completed t) cs 0) as (l' & -> & Hl'); [by right|done|by right|].
  destruct (list.last cs) as [m|] eqn:Em.
  - apply last_Some in Em as (cs' & ->). rewrite removelast_last in Hl'. set (t1 := set_in_lists _ t).
    assert (E : holders t ps (cs' ++ [m]) ≡ₚ m :: holders t1 ps cs') by (unfold holders; simpl; solve_Permutation).
    pose proof (bk_queue _ _ _ HB He) as Hq. pose proof (bk_sane _ _ _ HB) as Hs. rewrite E in Hs. apply Forall_cons in Hs as [Hsa _].
    eapply serving_ids in Hq; [|by rewrite E].
    destruct (serving_settle _ m _ true false Hq (proj2 Hsa)) as (r & q' & Eq & Hq'). unfold on_the_queue.
    change (in_queue t1) with (in_queue t). change (Queue_Ack_Message (rv_brokerSettlement m) (in_queue t)) with (Queue_Settle_Message (rv_brokerSettlement m) true false (in_queue t)).
    rewrite Eq, ends_as_run by done. eexists _, cs'. split; [reflexivity|]. eapply (settled_books t _ ps (cs' ++ [m])); try done.
    + by rewrite E.
    + intros ?. by destruct cs'.
    + intros x Hx. rewrite E. by apply list_elem_of_further.
  - apply last_None in Em as ->. eexists _, []. split; [reflexivity|].
    assert (HB' : books (set_in_lists (mkLists (pending t) l' (nodes (in_lists t))) t) ps []).
    { eapply (receiver_books t _ ps []); try done; try apply HB; done. }
    apply receiver_goes; [done|done|]. rewrite Hp. simpl. by rewrite Hh.
Qed.

Lemma receiver_turn_books t ps cs : books t ps cs ->
  exists t' ps' cs', Inspection_Receiver_turn sg handlerList t = inr t' /\ books t' ps' cs'.
Proof.
  intros HB. unfold Inspection_Receiver_turn.
  assert (Hgo : forall p, in_receiver t <> R_done -> receiver_has p = receiver_has (in_receiver t) ->
    exists t' ps' cs', inr (at_receiver p t) = (inr t' : fault + Inspector) /\ books t' ps' cs').
  { intros p Hr Hp. eexists _, ps, cs. split; [reflexivity|]. by apply receiver_goes. }
  assert (Hre : forall m, receiver_has (in_receiver t) = [m] -> exists t' ps' cs', requeue m (at_receiver R_top t) = inr t' /\ books t' ps' cs').
  { intros m Hm. assert (Hr : in_receiver t <> R_done) by (intros E; by rewrite E in Hm).
    destruct (receiver_runs t ps cs HB Hr) as [He _]. destruct (bk_lists _ _ _ HB He) as [Hps Hcs].
    destruct (requeue_books t ps cs m (in_lists t) HB Hm Hps Hcs) as (t' & E & HB'). exists t', ps, cs. split; [|done].
    by destruct t. }
  destruct (in_receiver t) as [| | |m|m|m| |] eqn:Er.
  - apply Hgo; [done|]. by destruct (receiverStopped _).
  - destruct (drain_books t ps cs R_get HB) as (t' & cs' & E & HB'); rewrite ?Er; [done..|]. by exists t', ps, cs'.
  - destruct (receiver_runs t ps cs HB) as [He _]; [by rewrite Er|]. destruct (bk_lists _ _ _ HB He) as [Hps Hcs].
    destruct (serving_get _ _ INSPECTION_RECEIVER_POLL_TIMEOUT_MS (bk_queue _ _ _ HB He) ltac:(done)) as (r & q' & Eq & Hq' & Hm).
    unfold on_the_queue. rewrite Eq. destruct r as [m|].
    + destruct (Hm m eq_refl) as [Hsa Hfi]. eexists _, ps, cs. split; [reflexivity|].
      assert (Eh : holders (at_receiver (R_received m) (note_received m (set_in_queue q' t))) ps cs = m :: holders t ps cs)
        by (unfold holders; simpl; by rewrite Er).
      eapply (receiver_books t _ ps cs); try done; rewrite ?Er, ?Eh; try done.
      * unfold kept. rewrite Eh. simpl. pose proof (bk_kept _ _ _ HB) as Hk. unfold kept in Hk. by rewrite Hk.
      * constructor; [done|]. apply HB.
      * pose proof (bk_fits _ _ _ HB) as Hf. unfold todo in *. rewrite Er in Hf. by constructor.
    + eexists _, ps, cs. split; [reflexivity|].
      assert (HB' : books (set_in_queue q' t) ps cs).
      { eapply (receiver_books t _ ps cs); try done; try apply HB; [by rewrite Er|done..]. }
      apply receiver_goes; [done|simpl; by rewrite Er|simpl; by rewrite Er].
  - destruct (Inspection_Is_Shutdown_Started t); [by apply Hre|by apply Hgo].
  - destruct (receiverStopped _ || _); [by apply Hre|by apply Hgo].
  - destruct (receiver_runs t ps cs HB) as [He _]; [by rewrite Er|]. destruct (bk_lists _ _ _ HB He) as [Hps Hcs].
    unfold push_pending, push_to. destruct (alloc_next (nodes (in_lists t))) as [b o].
    destruct (push_holds LIST_MODE_QUEUE (pending t) ps m b) as (l' & -> & Hl'); [by left|done|]. destruct b.
    + eexists _, (ps ++ [m]), cs. split; [reflexivity|]. set (t1 := at_receiver _ _).
      assert (E : holders t1 (ps ++ [m]) cs ≡ₚ holders t ps cs) by (unfold holders; simpl; rewrite Er; simpl; solve_Permutation).
      eapply (receiver_books t _ ps cs); try done; rewrite ?Er, ?E; try done; try apply HB; try done.
      * eapply serving_ids; [|by apply HB]. by rewrite E.
      * unfold kept. rewrite ids_app, E, <- ids_app. apply HB.
      * pose proof (bk_fits _ _ _ HB) as Hf. unfold todo in *. rewrite Er in Hf. simpl in *. rewrite <- app_assoc. simpl.
        by rewrite <- Permutation_middle.
    + destruct (requeue_books t ps cs m (mkLists l' (completed t) o) HB) as (t' & E & HB'); [by rewrite Er|done..|].
      exists t', ps, cs. split; [exact E|done].
  - destruct (drain_books t ps cs R_done HB) as (t' & cs' & E & HB'); rewrite ?Er; [done..|]. by exists t', ps, cs'.
  - by exists t, ps, cs.
Qed.

(** ** The turns of a worker *)

Lemma workers_gone_at t i p st : workers_gone t -> in_workers t !! i = Some (p, st) -> p = W_gone.
Proof. intros Hg Hi. eapply Forall_lookup in Hi; [|exact Hg]. by destruct p. Qed.

Lemma worker_runs t ps cs i p st : books t ps cs -> in_workers t !! i = Some (p, st) -> p <> W_gone ->
  in_shutdown t = S_idle \/ in_shutdown t = S_workers.
Proof.
  intros HB Hi Hp. pose proof (bk_phase _ _ _ HB) as Hph. unfold phase in Hph.
  destruct (in_shutdown t); try (by left); try (by right); exfalso; apply Hp; eapply workers_gone_at; naive_solver.
Qed.

(** A worker goes from [p] to [p']; [nw] was worked on and [nf] has its fate. *)
Lemma worker_books t t' ps cs ps' cs' i p st p' nw nf : books t ps cs -> in_workers t !! i = Some (p, st) -> p <> W_gone ->
  in_workers t' = alter (fun w => (p', w.2)) i (in_workers t) -> in_receiver t' = in_receiver t -> in_shutdown t' = in_shutdown t ->
  in_queue t' = in_queue t -> received t' = received t -> worked t' = worked t ++ nw -> fates t' = nf ++ fates t ->
  list_holds LIST_MODE_QUEUE (pending t') ps' -> list_holds LIST_MODE_GENERIC (completed t') cs' ->
  ids (worker_has p ++ ps ++ cs) ≡ₚ ids (worker_has p' ++ ps' ++ cs' ++ nf.*1) ->
  ids (nw.*1 ++ worker_completes p ++ cs) ≡ₚ ids (worker_completes p' ++ cs' ++ done_with nf) ->
  working (in_work t') (worked t') -> Forall sane (worker_has p' ++ ps' ++ cs') ->
  Forall (fun m => fits_inspection (rv_message m)) (worker_works p' ++ ps') ->
  books t' ps' cs'.
Proof.
  intros HB Hi Hp Ew Er Es Eq Erc Eo Ef Hps Hcs Hh Ha Hwo Hsa Hfi.
  assert (Hsh : in_shutdown t' = S_idle \/ in_shutdown t' = S_workers) by (rewrite Es; by eapply worker_runs).
  assert (He : ~ ended t' /\ ~ ended t) by (unfold ended; rewrite Es in *; destruct Hsh; split; congruence). destruct He as [He' He].
  destruct (have_at worker_has _ _ _ _ p' Hi) as (r1 & E1 & E1'). destruct (have_at worker_completes _ _ _ _ p' Hi) as (r2 & E2 & E2').
  destruct (have_at worker_works _ _ _ _ p' Hi) as (r3 & E3 & E3').
  assert (Hho : holders t ps cs ≡ₚ (worker_has p ++ ps ++ cs) ++ receiver_has (in_receiver t) ++ r1) by (unfold holders; rewrite E1; solve_Permutation).
  assert (Hho' : holders t' ps' cs' ≡ₚ (worker_has p' ++ ps' ++ cs') ++ receiver_has (in_receiver t) ++ r1)
    by (unfold holders; rewrite Er, Ew, E1'; solve_Permutation).
  assert (Hids : ids (holders t ps cs) ≡ₚ ids (holders t' ps' cs' ++ nf.*1)).
  { rewrite Hho, ids_app, Hh, ids_app, Hho', !ids_app. solve_Permutation. }
  split; try done.
  - intros _. rewrite Eq. eapply serving_sub; [|by apply HB]. rewrite (owed_by_ids _ _ Hids). unfold owed_by. rewrite omap_app.
    by apply submseteq_inserts_r.
  - unfold kept. rewrite Erc, Ef, fmap_app. pose proof (bk_kept _ _ _ HB) as Hk. unfold kept in Hk. rewrite Hk, ids_app, Hids, !ids_app.
    by rewrite <- app_assoc.
  - unfold accounted. rewrite Eo, Ew, E2', Ef, fmap_app, ids_app, done_with_app. pose proof (bk_worked _ _ _ HB) as Hk. unfold accounted in Hk.
    rewrite Hk, E2. transitivity (ids (nw.*1 ++ worker_completes p ++ cs) ++ ids r2 ++ ids (done_with (fates t))).
    { rewrite !ids_app. solve_Permutation. }
    rewrite Ha, !ids_app. solve_Permutation.
  - rewrite Hho'. apply Forall_app. split; [done|]. pose proof (bk_sane _ _ _ HB) as Hs. rewrite Hho in Hs. by apply Forall_app in Hs as [_ ?].
  - pose proof (bk_fits _ _ _ HB) as Hs. unfold todo in *. rewrite Er, Ew, E3'. rewrite E3 in Hs. rewrite !Forall_app in *. naive_solver.
  - unfold phase. by destruct Hsh as [-> | ->].
Qed.

Lemma worker_goes t ps cs i p st p' : books t ps cs -> in_workers t !! i = Some (p, st) -> p <> W_gone ->
  worker_has p' = [] -> worker_has p = [] -> books (at_worker i p' t) ps cs.
Proof.
  intros HB Hi Hp Hh' Hh. destruct (worker_runs t ps cs i p st HB Hi Hp) as [Hsh|Hsh];
    (assert (He : ~ ended t) by (unfold ended; by rewrite Hsh)); destruct (bk_lists _ _ _ HB He) as [Hps Hcs].
  all: assert (Hw : forall p, worker_has p = [] -> worker_completes p = [] /\ worker_works p = []) by (by intros []).
  all: destruct (Hw p Hh) as [Hc1 Hw1], (Hw p' Hh') as [Hc2 Hw2].
  all: eapply (worker_books t _ ps cs ps cs i p st p' [] []); try done; simpl; rewrite ?app_nil_r, ?Hh, ?Hh', ?Hc1, ?Hc2, ?Hw2; try done.
  1, 4: apply HB.
  all: pose proof (bk_sane _ _ _ HB) as Hs; pose proof (bk_fits _ _ _ HB) as Hf; unfold holders, todo in *; rewrite !Forall_app in *; naive_solver.
Qed.

Lemma flags_books t ps cs f : books t ps cs -> books (set_in_flags f t) ps cs.
Proof. by intros []. Qed.

Lemma emergency_books t ps cs : books t ps cs -> books (Inspection_Request_Emergency_Shutdown t) ps cs.
Proof.
  intros HB. unfold Inspection_Request_Emergency_Shutdown. cbv zeta. destruct (emergencyShutdownRequested _); repeat apply flags_books; done.
Qed.

Lemma emergency_fields t : let t' := Inspection_Request_Emergency_Shutdown t in
  in_workers t' = in_workers t /\ in_receiver t' = in_receiver t /\ in_shutdown t' = in_shutdown t /\ in_queue t' = in_queue t /\
  in_history t' = in_history t /\ in_lists t' = in_lists t /\ in_work t' = in_work t.
Proof. unfold Inspection_Request_Emergency_Shutdown. cbv zeta. by destruct (emergencyShutdownRequested _). Qed.

(** The parts of the invariant that a worker with a message reads. *)
Lemma worker_message t ps cs i p st m : books t ps cs -> in_workers t !! i = Some (p, st) -> worker_has p = [m] ->
  sane m /\ (worker_works p = [m] -> fits_inspection (rv_message m)) /\ Forall sane (ps ++ cs) /\ Forall (fun m => fits_inspection (rv_message m)) ps.
Proof.
  intros HB Hi Hh. pose proof (bk_sane _ _ _ HB) as Hs. pose proof (bk_fits _ _ _ HB) as Hf.
  destruct (have_at worker_has _ _ _ _ p Hi) as (r1 & E1 & _). destruct (have_at worker_works _ _ _ _ p Hi) as (r3 & E3 & _).
  unfold holders, todo in *. rewrite E1, Hh in Hs. rewrite E3 in Hf. rewrite !Forall_app in *. destruct Hs as (? & ? & [Hm ?] & ?). rewrite Forall_singleton in Hm.
  destruct Hf as (? & ? & Hw & ?). split; [done|]. split; [|done]. intros Ew. rewrite Ew in Hw. by rewrite Forall_singleton in Hw.
Qed.

Lemma work_books t ps cs i m st : books t ps cs -> in_workers t !! i = Some (W_work m, st) ->
  exists o m' w, Inspection_Process_Message sg cfg transports fetch processBlock nugget clock pushes (rv_message m) (in_work t) = inr ((o, m'), w) /\
    processed processBlock nugget (rv_message m) o m' /\
    books (at_worker i (W_complete (mkReceived m' (rv_brokerSettlement m))) (note_worked m o (set_in_work w t))) ps cs.
Proof.
  intros HB Hi. destruct (worker_runs t ps cs i _ st HB Hi) as [Hsh|Hsh]; [done|..];
    (assert (He : ~ ended t) by (unfold ended; by rewrite Hsh)); destruct (bk_lists _ _ _ HB He) as [Hps Hcs].
  all: destruct (worker_message t ps cs i _ st m HB Hi eq_refl) as (Hsa & Hfi & Hs & Hf); pose proof (bk_work _ _ _ HB) as [W1 W2 W3].
  all: destruct (Process_run sg nts nuggets_entries cfg transports tds transports_ok fetch entities entities_fit pushes processBlock nugget clock
    (rv_message m) (in_work t) (fits_inspectable _ (Hfi eq_refl)) W3) as (o & m' & w & E & Hpr & Ht & Hst & Hse).
  all: exists o, m', w; split; [done|]; split; [done|].
  all: eapply (worker_books t _ ps cs ps cs i (W_work m) st (W_complete (mkReceived m' (rv_brokerSettlement m))) [(m, o)] []); try done.
  all: try (simpl; rewrite ?app_nil_r; done).
  1, 3: simpl; split; [|congruence|done]; rewrite Hse, W1, fmap_app, concat_app, <- app_assoc; simpl; by rewrite app_nil_r.
  all: constructor; [|by rewrite Forall_app in *]; destruct Hsa as [Hd Hse2]; split; [by eapply processed_destroyable|done].
Qed.

Lemma complete_books t ps cs i m st : books t ps cs -> in_workers t !! i = Some (W_complete m, st) ->
  exists t' cs', Inspection_Complete_Message i m t = inr t' /\ books t' ps cs'.
Proof.
  intros HB Hi. destruct (worker_message t ps cs i _ st m HB Hi eq_refl) as (Hsa & _ & Hs & Hf).
  assert (He : ~ ended t) by (unfold ended; destruct (worker_runs t ps cs i _ st HB Hi) as [-> | ->]; done).
  destruct (bk_lists _ _ _ HB He) as [Hps Hcs]. unfold Inspection_Complete_Message, push_completed, push_to.
  destruct (alloc_next (nodes (in_lists t))) as [b o].
  destruct (push_holds LIST_MODE_GENERIC (completed t) cs m b) as (l' & -> & Hl'); [by right|done|]. destruct b.
  - eexists _, (cs ++ [m]). split; [reflexivity|].
    eapply (worker_books t _ ps cs ps (cs ++ [m]) i (W_complete m) st W_top [] []); try done; simpl; rewrite ?app_nil_r; try done.
    + rewrite app_assoc, (Permutation_app_comm _ [m]). done.
    + by rewrite (Permutation_app_comm _ [m]).
    + apply HB.
    + rewrite !Forall_app in *. naive_solver.
  - rewrite ends_as_run by done. set (t1 := set_in_lists _ t). destruct (emergency_fields t1) as (F1 & F2 & F3 & F4 & F5 & F6 & F7).
    eexists _, cs. split; [reflexivity|].
    eapply (worker_books t _ ps cs ps cs i (W_complete m) st W_cleanup [] [(m, F_lost)]); try done; simpl; rewrite ?F1, ?F2, ?F3, ?F4, ?F5, ?F6, ?F7, ?app_nil_r; try done.
    + rewrite app_assoc, (Permutation_app_comm _ [m]). done.
    + by rewrite (Permutation_app_comm _ [m]).
    + apply HB.
Qed.

Lemma worker_turn_books t ps cs i : books t ps cs ->
  exists t' ps' cs', Inspection_Process_turn sg cfg transports fetch processBlock nugget clock pushes i t = inr t' /\ books t' ps' cs'.
Proof.
  intros HB. unfold Inspection_Process_turn. destruct (in_workers t !! i) as [[p st]|] eqn:Hi; [|by exists t, ps, cs].
  assert (Hgo : forall p', p <> W_gone -> worker_has p' = [] -> worker_has p = [] -> exists t' ps' cs', inr (at_worker i p' t) = (inr t' : fault + Inspector) /\ books t' ps' cs').
  { intros p' ? ? ?. eexists _, ps, cs. split; [reflexivity|]. by eapply worker_goes. }
  assert (Hstay : exists t' ps' cs', inr t = (inr t' : fault + Inspector) /\ books t' ps' cs') by by exists t, ps, cs.
  destruct p as [| | |m|m| |].
  - destruct st; [by apply Hgo|]. destruct (_ && _); [done|by apply Hgo].
  - assert (He : ~ ended t) by (unfold ended; destruct (worker_runs t ps cs i _ st HB Hi) as [-> | ->]; done).
    destruct (bk_lists _ _ _ HB He) as [Hps Hcs]. unfold pop_pending, popped.
    destruct (pop_holds LIST_MODE_QUEUE (pending t) ps INSPECTION_PENDING_POP_TIMEOUT_MS) as (l' & -> & Hl'); [by left|done|by left|].
    pose proof (bk_sane _ _ _ HB) as Hs; pose proof (bk_fits _ _ _ HB) as Hf; unfold holders, todo in Hs, Hf.
    destruct (list.last ps) as [m|] eqn:Em.
    + apply last_Some in Em as (ps' & ->). rewrite removelast_last in Hl'. eexists _, ps', cs. split; [reflexivity|].
      eapply (worker_books t _ (ps' ++ [m]) cs ps' cs i W_pop st (W_work m) [] []); try done; simpl; rewrite ?app_nil_r; try done.
      * rewrite <- app_assoc. simpl. by rewrite <- Permutation_middle.
      * apply HB.
      * rewrite !Forall_app in *. constructor; [|apply Forall_app; naive_solver]. destruct Hs as (_ & [_ Hm] & _). by rewrite Forall_singleton in Hm.
      * rewrite !Forall_app in *. constructor; [|naive_solver]. destruct Hf as (_ & [_ Hm] & _). by rewrite Forall_singleton in Hm.
    + apply last_None in Em as ->. eexists _, [], cs. split; [reflexivity|].
      eapply (worker_books t _ [] cs [] cs i W_pop st W_empty [] []); try done; simpl; rewrite ?app_nil_r; try done; [apply HB|].
      rewrite !Forall_app in *. naive_solver.
  - destruct st; [by apply Hgo|]. destruct (_ && _); by apply Hgo.
  - destruct (work_books t ps cs i m st HB Hi) as (o & m' & w & -> & _ & HB'). by eexists _, ps, cs.
  - destruct (complete_books t ps cs i m st HB Hi) as (t' & cs' & E & HB'). by exists t', ps, cs'.
  - by apply Hgo.
  - done.
Qed.

(** ** The turns of the shutdown *)

(** Fewer messages than a length counts were received. *)
Definition countable t : Prop := Z.of_nat (length (received t)) < 2 ^ 64.

Lemma completed_count t ps cs : kept t ps cs -> (length cs <= length (received t))%nat.
Proof.
  unfold kept, holders. intros Hk%Permutation_length. unfold ids in Hk. rewrite !length_fmap, !length_app in Hk. lia.
Qed.

Lemma shutdown_goes t ps cs p : books t ps cs -> p <> S_done -> ~ ended t -> phase (at_shutdown p t) ps cs -> books (at_shutdown p t) ps cs.
Proof. intros [B1 B2 B3 B4 B5 B6 B7 B8 B9] Hp He Hph. split; try done; unfold ended in *; intros; [by apply B1|by apply B2]. Qed.

Lemma destroy_list_run mode p ms t : listed mode -> list_holds mode p ms -> Forall sane ms ->
  exists ms', ms' ≡ₚ ms /\ destroy_list p t = inr (note_fates ms' F_destroyed t).
Proof.
  intros Hmo Hp Hs. destruct (destroy_holds mode p ms Hmo Hp) as (ms' & E & Hms). exists ms'. split; [done|]. unfold destroy_list. rewrite E.
  assert (Hf : forallb (fun m => match Inspection_Destroy_Message m with Some _ => true | None => false end) ms' = true); [|by rewrite Hf].
  rewrite <- Hms in Hs. clear -Hs. apply forallb_forall. rewrite Forall_forall in Hs. intros m Hm. destruct (Hs m) as [[qs E] _]; [by apply list_elem_of_In|].
  unfold Inspection_Destroy_Message. by rewrite E.
Qed.

Lemma shutdown_turn_books t ps cs : books t ps cs -> countable t ->
  exists t' ps' cs', Inspection_Shutdown_turn t = inr t' /\ books t' ps' cs'.
Proof.
  intros HB Hco. pose proof (bk_phase _ _ _ HB) as Hph. unfold Inspection_Shutdown_turn, phase in *.
  assert (Hstay : exists t' ps' cs', inr t = (inr t' : fault + Inspector) /\ books t' ps' cs') by by exists t, ps, cs.
  assert (Hgo : forall t1 p, books t1 ps cs -> p <> S_done -> ~ ended t1 -> phase (at_shutdown p t1) ps cs ->
    exists t' ps' cs', inr (at_shutdown p t1) = (inr t' : fault + Inspector) /\ books t' ps' cs').
  { intros t1 p HB1 Hp He1 Hph1. eexists _, ps, cs. split; [reflexivity|]. by apply shutdown_goes. }
  destruct (in_shutdown t) eqn:Es; try (assert (He : ~ ended t) by (unfold ended; by rewrite Es)).
  - apply Hgo; [by apply flags_books|done| |done]. done.
  - destruct (Nat.eqb_spec (ThreadPool_GetAliveCount t) 0); [|done]. apply Hgo; try done. by apply alive_none.
  - destruct (bk_lists _ _ _ HB He) as [_ Hcs]. rewrite (length_holds _ _ _ Hcs). destruct (Z.eqb_spec (u64 (Z.of_nat (length cs))) 0) as [E0|]; [|done].
    pose proof (completed_count t ps cs (bk_kept _ _ _ HB)) as Hle. unfold u64 in E0. rewrite wrap_small in E0 by (unfold countable, in_width in *; lia).
    apply Hgo; try done. split; [done|]. destruct cs; [done|]. simpl in E0. lia.
  - apply Hgo; try done. by apply flags_books.
  - destruct (in_receiver t) eqn:Er; try done. apply Hgo; try done. unfold phase. simpl. naive_solver.
  - destruct Hph as (Hg & -> & Hr). destruct (bk_lists _ _ _ HB He) as [Hps Hcs]. pose proof (bk_sane _ _ _ HB) as Hsa.
    assert (Eh : holders t ps [] = ps).
    { unfold holders. rewrite Hr. rewrite (gone_have worker_has _ ltac:(by intros []) Hg). simpl. by rewrite !app_nil_r. }
    rewrite Eh in Hsa. destruct (destroy_list_run LIST_MODE_QUEUE _ ps t (or_introl eq_refl) Hps Hsa) as (ms & Hms & ->).
    destruct (destroy_list_run LIST_MODE_GENERIC _ [] (note_fates ms F_destroyed t) (or_intror eq_refl) Hcs (Forall_nil_2 _)) as (ms2 & Hms2 & E2).
    symmetry in Hms2. apply Permutation_nil in Hms2 as ->. simpl in E2 |- *. rewrite E2. unfold on_the_queue. simpl.
    destruct (serving_terminate _ _ (bk_queue _ _ _ HB He)) as (q' & -> & Hgq). eexists _, [], []. split; [reflexivity|].
    set (t' := at_shutdown S_done _).
    assert (Eh' : holders t' [] [] = []) by (unfold holders; simpl; rewrite Hr; by rewrite (gone_have worker_has _ ltac:(by intros []) Hg)).
    split; try done.
    + unfold kept. rewrite Eh'. pose proof (bk_kept _ _ _ HB) as Hk. unfold kept in Hk. rewrite Eh in Hk.
      transitivity (ids (received t)); [done|]. rewrite Hk. simpl.
      rewrite fmap_app, <- list_fmap_compose, !ids_app. simpl. rewrite list_fmap_id. by rewrite Hms.
    + pose proof (bk_worked _ _ _ HB) as Hk. unfold accounted in *. simpl in *. by rewrite done_with_app, done_with_all.
    + apply HB.
    + by rewrite Eh'.
    + unfold todo. simpl. rewrite Hr. by rewrite (gone_have worker_works _ ltac:(by intros []) Hg).
  - done.
Qed.

(** ** Every turn *)

Abbreviation run_turn := (turn sg handlerList cfg transports fetch processBlock nugget clock pushes).

Lemma stop_books t ps cs i : books t ps cs ->
  exists t' ps' cs', run_turn (StopWorker i) t = inr t' /\ books t' ps' cs'.
Proof.
  intros HB. eexists _, ps, cs. split; [reflexivity|]. set (t' := mkInspector _ _ _ _ _ _ _ _).
  assert (Eh : holders t' ps cs = holders t ps cs) by (unfold holders; simpl; by rewrite have_stop).
  destruct HB as [B1 B2 B3 B4 B5 B6 B7 B8 B9]. split; rewrite ?Eh; try done.
  - unfold kept. by rewrite Eh.
  - unfold accounted in *. simpl. by rewrite have_stop.
  - unfold todo in *. simpl. by rewrite have_stop.
  - assert (Hg : workers_gone t -> workers_gone t').
    { unfold workers_gone. simpl. clear. intros Hg. revert i. induction Hg as [|w ws Hw Hws IH]; intros [|i]; [constructor..|by constructor|].
      constructor; [done|]. apply IH. }
    unfold phase in *. simpl. destruct (in_shutdown t); naive_solver.
Qed.

Lemma turn_books t ps cs a : books t ps cs -> countable t -> exists t' ps' cs', run_turn a t = inr t' /\ books t' ps' cs'.
Proof.
  intros HB Hco. destruct a as [|i| |on|i].
  - by eapply receiver_turn_books.
  - by eapply worker_turn_books.
  - by eapply shutdown_turn_books.
  - eexists _, ps, cs. split; [reflexivity|]. by apply flags_books.
  - by eapply stop_books.
Qed.
End Books.
