(* ===== verification/InspectionThms.v ===== *)
(** * Theorems about inspection: src/inspection.c

    The work on one message ([Inspection_Process_Message_outcome]); and for every
    interleaving of the receiver, the workers and the shutdown: no turn fails
    ([Inspection_turns_return]), every message that was received is in one place and is
    settled at most once ([Inspection_conserves]), and a shutdown that ends has let every
    message that was worked on be acknowledged ([Inspection_Shutdown_drains]); but a
    message can be handed over when no worker is left ([Inspection_Shutdown_strands]). *)

From S2P Require Import CLib RzbList RzbListProps ListM Hash LibUuid Uuids Ntlv Blocks BlockPool JsonC JsonBuffer JsonText Messages MessageCodecs CncMessages MessageProps CncThms MessageSafety Entities EntitiesProps EntityThms Transfer TransferProps TransferThms Submission SubmissionProps JsonObjects JsonSafety JsonProps Queue QueueProps QueueRuns QueueGet QueueSend QueueThms QueueOpen QueueWire Inspection InspectionProps InspectionThreads InspectionRuns Prelude.

Local Open Scope Z_scope.

(** ** The work on a message *)

Section Work.
Context `{EVPLaws} `{LibUuidLaws}.

(** C19. Whatever the allocator, the dispatchers, the transports and the broker do, the work
    on a message that the queue delivered returns.  It leaves no stream open, and sends
    a judgment when and only when its outcome is that one was sent: the judgment is of
    the nugget, about the block and the event of the submission, with the result of the
    inspector, which saw the fetched data.  Every other outcome sends nothing; a message
    that cannot be worked on is not touched, and the block stays in the message only if
    it could not be fetched. *)
Theorem Inspection_Process_Message_outcome sg nts cfg transports tds fetch n pushes processBlock nugget clock m s :
  entries (UUID_Get_List sg UUID_TYPE_NUGGET_TYPE) nts -> registry transports tds -> FetchSafe fetch -> Z.of_nat n < 2 ^ 32 ->
  fits_inspection m -> table_ok nts (ip_table s) n ->
  exists o m' s', Inspection_Process_Message sg cfg transports fetch processBlock nugget clock pushes m s = inr ((o, m'), s') /\
    processed processBlock nugget m o m' /\ table_ok nts (ip_table s') n /\
    ho_streams (ip_host s') = ho_streams (ip_host s) /\ ip_sent s' = ip_sent s ++ sent_by o.
Proof.
  intros Hn Ht Hf Hs Hm Hok. by apply (Process_run sg nts Hn cfg transports tds Ht fetch n Hs); [apply fits_inspectable|].
Qed.
End Work.

(** ** Interleavings *)

Section Life.
Context `{EVPLaws} `{LibUuidLaws} `{JsonTextLaws} `{Base64} `{InetLaws}.
Variable sg : UuidLists.
Variable handlerList : option handler_list.
Variable table : list MessageHandler.
Variable nts : list UUIDListNode.
Variable cfg : EntityConfig.
Variable transports : option transport_list.
Variable fetch : TransportDescriptor -> ConnectedEntity -> Host * Block -> fault + (TransferStatus * (Host * Block)).
Variable entities : nat.
Variable processBlock : Block -> option EventId -> option ntlv_list -> Z.
Variable nugget : uuid_t.
Variable clock : option (Z * Z).
Variable pushes : allocs.

Abbreviation run_turn := (turn sg handlerList cfg transports fetch processBlock nugget clock pushes).
Abbreviation received t := (hi_received (in_history t)).
Abbreviation worked t := (hi_worked (in_history t)).
Abbreviation fates t := (hi_fates (in_history t)).

(** The inspector after [Inspection_Launch]. *)
Record launched (t : Inspector) : Prop := {
  la_queue : exists q0 name topic flags qc, start q0 /\ Queue_Create_With_Host name topic flags qc q0 = inr (true, in_queue t);
  la_pending : exists l, pendingMessages (in_lists t) = Some l /\
    List_Create true true true LIST_MODE_QUEUE None None (Some destroy_item) None None None = Some l;
  la_completed : exists l, completedMessages (in_lists t) = Some l /\
    List_Create true true true LIST_MODE_GENERIC None None (Some destroy_item) None None None = Some l;
  la_receiver : in_receiver t = R_top;
  la_workers : Forall (eq (W_top, false)) (in_workers t);
  la_shutdown : in_shutdown t = S_idle;
  la_history : in_history t = mkHistory [] [] [];
  la_table : table_ok nts (ip_table (in_work t)) entities
}.

(** A turn of a thread, or a change of what the broker and the network will do: any
    deliveries with functions that stand arbitrary texts. *)
Inductive istep : Inspector -> Inspector -> Prop :=
  | i_turn a t t' : countable t -> run_turn a t = inr t' -> istep t t'
  | i_weather t e n : weather (qs_net (in_queue t)) n [] [] -> all_tame table n -> calm (mkQS (qs_queue (in_queue t)) e n) ->
      istep t (set_in_queue (mkQS (qs_queue (in_queue t)) e n) t).

Variable types : list UUIDListNode.
Variable tds : list TransportDescriptor.
Hypothesis types_entries : entries (UUID_Get_List sg UUID_TYPE_NTLV_TYPE) types.
Hypothesis nuggets_entries : entries (UUID_Get_List sg UUID_TYPE_NUGGET_TYPE) nts.
Hypothesis Htable : handlers handlerList table.
Hypothesis table_inspects : inspects table.
Hypothesis transports_ok : registry transports tds.
Context `{!FetchSafe fetch}.
Hypothesis entities_fit : Z.of_nat entities < 2 ^ 32.

Abbreviation in_order w := (books nts table entities (ip_sent (in_work w)) (ho_streams (ip_host (in_work w)))).

Lemma launched_books t : launched t -> in_order t t [] [].
Proof.
  intros [(q0 & name & topic & flags & qc & Hst & Ec) (l1 & E1 & Hl1) (l2 & E2 & Hl2) Er Hw Es Eh Ht].
  assert (Hhave : forall h, (h W_top = []) -> have h (in_workers t) = []).
  { intros h Hh. unfold have. induction Hw as [|w ws <- _ IH]; [done|]. rewrite bind_cons, IH, app_nil_r. exact Hh. }
  assert (Ehold : holders t [] [] = []) by (unfold holders; by rewrite Er, (Hhave worker_has)).
  split; unfold ended; rewrite ?Es; try done.
  - intros _. rewrite E1, E2. split; (apply created_holds; [|done]); [by left|by right].
  - intros _. rewrite Ehold. pose proof (Queue_Create_run name topic flags qc q0 Hst) as Hc.
    eapply (qwp_result _ _ _ _ _ Ec) in Hc as ([_ [r Ea]] & (xs & HA & HR)).
    rewrite (st_arrivals _ Hst) in Ea. symmetry in Ea. apply app_eq_nil in Ea as [_ Ea].
    split; [split; [by exists xs|]|split].
    + intros a e Hin. simpl in Hin. rewrite Ea in Hin. by apply elem_of_nil in Hin.
    + destruct HA as (q & Eq & _ & _ & (Hr & _) & _). destruct HR as (q' & Eq' & Hq). simpl in *. rewrite Eq in Eq'. injection Eq' as <-.
      unfold open, tie. rewrite Eq. simpl. destruct (q_bShuttingDown q); [lia|]. by rewrite Hr.
    + unfold calm. by rewrite Ea.
  - unfold kept. by rewrite Ehold, Eh.
  - unfold accounted. by rewrite Eh, (Hhave worker_completes).
  - rewrite Eh. split; [by rewrite app_nil_r|done|done].
  - by rewrite Ehold.
  - unfold todo. by rewrite Er, (Hhave worker_works).
  - unfold phase. by rewrite Es.
Qed.

Lemma weather_serving q e n ms : weather (qs_net q) n [] [] -> all_tame table n -> calm (mkQS (qs_queue q) e n) -> serving table q ms ->
  serving table (mkQS (qs_queue q) e n) ms.
Proof.
  intros W Hn Hc ([(xs & HA & HR) Ht] & Ho & _). split; [|done]. split; [|done]. exists xs. split; [|done]. destruct q as [q e0 n0]. simpl in *.
  eapply weather_alive; [|exact HA]. destruct W as [W1 W2 W3 W4 W5]. split; try done. rewrite !app_nil_r in W5. rewrite !fmap_app.
  by apply submseteq_skips_r.
Qed.

Lemma step_books t0 t t' ps cs : in_order t0 t ps cs -> istep t t' -> exists ps' cs', in_order t0 t' ps' cs'.
Proof.
  intros HB Hs. destruct Hs as [a t t' Hco E|t e n W Hn Hc].
  - destruct (turn_books sg types nts types_entries nuggets_entries handlerList table Htable table_inspects cfg transports tds transports_ok fetch
      entities entities_fit processBlock nugget clock pushes _ _ t ps cs a HB Hco) as (t2 & ps' & cs' & E' & HB').
    rewrite E in E'. injection E' as <-. by exists ps', cs'.
  - exists ps, cs. destruct HB as [B1 B2 B3 B4 B5 B6 B7 B8 B9]. split; try done.
    + intros He. apply weather_serving; try done. by apply B2.
    + intros He. destruct (B3 He) as (G1 & G2 & G3). destruct W as [W1 W2 W3 W4 _]. split_and!; simpl; [done|by rewrite W3|by rewrite W4].
Qed.

Lemma reachable_books t0 t : launched t0 -> rtc istep t0 t -> exists ps cs, in_order t0 t ps cs.
Proof.
  intros Hl Hr. pose proof (launched_books t0 Hl) as HB.
  assert (Hx : forall t1, rtc istep t1 t -> (exists ps cs, in_order t0 t1 ps cs) -> exists ps cs, in_order t0 t ps cs).
  { clear Hr HB. intros t1 Hr. induction Hr as [t1|t1 t2 t3 Hs _ IH]; [done|]. intros (ps & cs & HB). apply IH. by eapply step_books. }
  apply (Hx t0 Hr). by exists [], [].
Qed.

(** The state of the queue, from the invariant. *)
Lemma books_queue t0 t ps cs : in_order t0 t ps cs -> good (nt_log (qs_net (in_queue t))) ->
  orderly (nt_log (qs_net (in_queue t))) /\ owing (nt_log (qs_net (in_queue t))) (owed_by (holders t ps cs)).
Proof.
  intros HB Hg. destruct (decide (in_shutdown t = S_done)) as [He|He].
  - destruct (bk_gone _ _ _ _ _ _ _ _ HB He) as (_ & _ & Ho). split; [by apply Ho|].
    pose proof (bk_phase _ _ _ _ _ _ _ _ HB) as Hp. unfold phase in Hp. rewrite He in Hp. destruct Hp as (Hw & -> & Hr & ->).
    unfold holders. rewrite Hr, (gone_have worker_has _ ltac:(by intros []) Hw). split; constructor.
  - destruct (bk_queue _ _ _ _ _ _ _ _ HB He) as ([(xs & (q & _ & _ & _ & _ & Hl) & _) _] & _). simpl in Hl.
    destruct (Hl Hg) as [_ _ _ _ L5 L6]. split; [done|]. eapply owing_sub; [|exact L6]. rewrite app_assoc. by apply submseteq_inserts_l.
Qed.


(** C17. Messages are neither lost between the threads nor settled twice.  In every such
    state each message that was received is in exactly one place: with the receiver, on
    a list, with a worker, or at its end; those that were worked on, each once, are the
    ones completed, acknowledged or lost; the judgments that were sent are those of the
    outcomes of the work, in its order, and no stream is left open.  As long as tags are
    unique, no settlement was refused and the serial numbers have not wrapped, every
    settlement on the wire is the first of a delivery made before on its connection, and
    those the threads still owe are of deliveries not yet settled. *)
Theorem Inspection_conserves t0 t : launched t0 -> rtc istep t0 t -> exists ps cs,
  (in_shutdown t <> S_done -> list_holds LIST_MODE_QUEUE (pendingMessages (in_lists t)) ps /\
    list_holds LIST_MODE_GENERIC (completedMessages (in_lists t)) cs) /\
  ids (received t) ≡ₚ ids (holders t ps cs ++ (fates t).*1) /\
  ids (worked t).*1 ≡ₚ ids (have worker_completes (in_workers t) ++ cs ++ done_with (fates t)) /\
  ip_sent (in_work t) = ip_sent (in_work t0) ++ concat ((fun x => sent_by x.2) <$> worked t) /\
  ho_streams (ip_host (in_work t)) = ho_streams (ip_host (in_work t0)) /\
  (good (nt_log (qs_net (in_queue t))) ->
    orderly (nt_log (qs_net (in_queue t))) /\ owing (nt_log (qs_net (in_queue t))) (owed_by (holders t ps cs))).
Proof.
  intros Hl Hr. destruct (reachable_books t0 t Hl Hr) as (ps & cs & HB). exists ps, cs.
  split; [apply HB|]. split; [apply HB|]. split; [apply HB|]. destruct (bk_work _ _ _ _ _ _ _ _ HB) as [W1 W2 _].
  split; [done|]. split; [done|]. intros Hg. by eapply books_queue.
Qed.

End Life.

(** ** A message that is handed over too late *)

Section Strands.
Context `{EVP} `{LibUuid} `{JsonText} `{Base64} `{Inet}.
Variable sg : UuidLists.
Variable handlerList : option handler_list.
Variable table : list MessageHandler.
Variable nts : list UUIDListNode.
Variable cfg : EntityConfig.
Variable transports : option transport_list.
Variable fetch : TransportDescriptor -> ConnectedEntity -> Host * Block -> fault + (TransferStatus * (Host * Block)).
Variable entities : nat.
Variable processBlock : Block -> option EventId -> option ntlv_list -> Z.
Variable nugget : uuid_t.
Variable clock : option (Z * Z).
Variable pushes : allocs.

Abbreviation run_turn := (turn sg handlerList cfg transports fetch processBlock nugget clock pushes).
Abbreviation run_turns := (turns sg handlerList cfg transports fetch processBlock nugget clock pushes).
Abbreviation steps_to := (rtc (istep sg handlerList table cfg transports fetch processBlock nugget clock pushes)).

(** A schedule whose turns return, with few messages. *)
Fixpoint counted (l : list actor) (t : Inspector) : bool :=
  match l with
  | [] => true
  | a :: l' => (Z.of_nat (length (hi_received (in_history t))) <? 2 ^ 64) && match run_turn a t with inr t' => counted l' t' | inl _ => false end
  end.

Lemma turns_steps l : forall t t', counted l t = true -> run_turns l t = inr t' -> steps_to t t'.
Proof.
  induction l as [|a l IH]; intros t t' Hc E; cbn [counted turns] in *; [injection E as <-; apply rtc_refl|].
  apply andb_true_iff in Hc as [Hco%Z.ltb_lt Hc]. destruct (run_turn a t) as [e|t1] eqn:Ea; [done|].
  eapply rtc_l; [by eapply i_turn|]. by apply IH.
Qed.

Definition messages_of (mode : Z) : option message_list := List_Create true true true mode None None (Some destroy_item) None None None.

(** An inspector with [n] workers. *)
Definition fresh_inspector (w : Insp) (n : nat) : Inspector :=
  mkInspector created w (mkLists (messages_of LIST_MODE_QUEUE) (messages_of LIST_MODE_GENERIC) []) (mkFlags false false false 0 false)
    R_top (replicate n (W_top, false)) S_idle (mkHistory [] [] []).

Lemma fresh_launched w n : table_ok nts (ip_table w) entities -> launched nts entities (fresh_inspector w n).
Proof.
  intros Ht. split; try done.
  - exists (mkQS None 0 queue_demo.start_net), (Some "q"), false, 6, queue_demo.cfg. split; [by split|exact demo_created].
  - by eexists.
  - by eexists.
  - simpl. by apply Forall_replicate.
Qed.

(** The shutdown begins when the receiver has passed its last test, and the worker finds
    nothing to do before the receiver hands its message over. *)
Definition late_schedule : list actor :=
  [Receiver; Receiver; Receiver; Receiver; Receiver; Shutdown; Worker 0; Worker 0; Worker 0; Worker 0; Shutdown; Shutdown;
   Receiver; Shutdown; Receiver; Receiver; Shutdown; Shutdown].

Definition late_inspector (w : Insp) : Inspector :=
  set_in_queue (with_net [] [queue_demo.delivery 1] (in_queue (fresh_inspector w 1))) (fresh_inspector w 1).

Lemma arrives_step t calls arrivals : all_tame table (queue_demo.net calls arrivals (qs_net (in_queue t))) ->
  concat (ar_settlements <$> arrivals) = [] -> Forall (fun a => ar_terminate a = false) arrivals ->
  steps_to t (set_in_queue (with_net calls arrivals (in_queue t)) t).
Proof.
  intros Ht Hs Hc. apply rtc_once. apply (i_weather sg handlerList table cfg transports fetch processBlock nugget clock pushes t 0); [|done..].
  split; try done. unfold coming. simpl. rewrite Hs. apply submseteq_nil_l.
Qed.

(** The end of the run: the fates of the messages and the settlements that were sent. *)
Definition summary (t : Inspector) : shutdown_place * list (option MessageSettlement * fate) * list (positive * Z) * list (positive * Z) :=
  (in_shutdown t, (fun x => (rv_brokerSettlement x.1, x.2)) <$> hi_fates (in_history t),
   deliveries (nt_log (qs_net (in_queue t))), settlements (nt_log (qs_net (in_queue t)))).

Lemma late_run w : counted late_schedule (late_inspector w) = true /\
  exists t, run_turns late_schedule (late_inspector w) = inr t /\
    summary t = (S_done, [(Some (mkSettlement 1 1 false false), F_destroyed)], [(1%positive, 1)], []).
Proof.
  split; [vm_compute; reflexivity|].
  assert (Hs : match run_turns late_schedule (late_inspector w) with inr t => Some (summary t) | inl _ => None end =
    Some (S_done, [(Some (mkSettlement 1 1 false false), F_destroyed)], [(1%positive, 1)], [])) by (vm_compute; reflexivity).
  destruct (run_turns late_schedule (late_inspector w)) as [e|t]; [done|]. exists t. split; [done|]. congruence.
Qed.

(** The tests of the receiver do not keep the workers: when the shutdown starts after
    them, the last worker can leave before the message is handed over.  The message is
    then destroyed with the list; it is neither worked on nor given back to the queue,
    and its delivery stays unsettled until the connection is closed. *)
Theorem Inspection_Shutdown_strands w : table_ok nts (ip_table w) entities ->
  exists t0 t, launched nts entities t0 /\ in_work t0 = w /\ steps_to t0 t /\
    summary t = (S_done, [(Some (mkSettlement 1 1 false false), F_destroyed)], [(1%positive, 1)], []).
Proof.
  intros Ht. destruct (late_run w) as (Hc & t & E & Hs). exists (fresh_inspector w 1), t. split; [by apply fresh_launched|]. split; [done|].
  split; [|exact Hs]. etrans; [|exact (turns_steps _ _ _ Hc E)]. unfold late_inspector.
  refine (arrives_step (fresh_inspector w 1) [] [queue_demo.delivery 1] (demo_tame table [] 1 _) eq_refl _). by repeat constructor.
Qed.
End Strands.


(** ** Witnesses *)

Module inspection_demo.
Import bytes16 toy.

Definition no_fetch (trans : TransportDescriptor) (d : ConnectedEntity) (hb : Host * Block) : fault + (TransferStatus * (Host * Block)) :=
  inr (TRANSFER_FAIL_DISPATCHER, hb).
Lemma no_fetch_safe : FetchSafe no_fetch.
Proof. intros trans d h b _. eexists _, h, b. split; [reflexivity|]. by apply fetch_result_refl. Qed.
Definition fetch := transport_fetch "store" no_fetch.
Lemma fetch_ok : FetchSafe fetch.
Proof. apply transport_fetch_safe, no_fetch_safe. Qed.

Definition id : BlockId := mkBlockId (Some md5) (uuid_demo.uuid 5) 3.
Definition block : Block := mkBlock (Some id) None None None no_data.
Definition submission : MessageInspectionSubmission := mkInspectionSubmission 1 (Some block) (Some (mkEventId (uuid_demo.uuid 4) 5 6)) None 0 None.
Definition message : Message := mkMessage MESSAGE_TYPE_INSPECTION 0 MESSAGE_VERSION_1 None (Some (Messages.inj submission)) None (Some C_InspectionSubmission).
Definition inspect (b : Block) (e : option EventId) (l : option ntlv_list) : Z := JUDGMENT_REASON_DONE.
Definition host0 : Host := mkHost (mkWorld ∅ 0 [] ∅) ∅ [] [] [] 0.
Definition work t : Insp := mkInsp host0 t [] [].

Lemma block_wf : wf_block block.
Proof.
  exists (mkLevel id None None), []. split; [by apply rep_root|]. constructor; [|constructor]. split; [|done].
  split; [exists md5; split; [done|apply md5_complete]|done].
Qed.

Lemma message_fits : fits_inspection message.
Proof. intros _ body [= <-]. exists submission. split; [done|]. intros b [= <-]. exact block_wf. Qed.

Lemma table : exists t, table_ok entity_demo.nts t 2.
Proof.
  destruct entity_demo.dispatchers_table as (t & es & Hh & Ht & _). exists t, es, []. split; [done|].
  by destruct (entity_demo.heard_pair _ _ _ Hh) as (e1 & e2 & -> & _).
Qed.

Lemma registered_inspects : inspects registered.
Proof.
  intros h. assert (E : find_first (fun h => MessageHandler_KeyCmp [] h MESSAGE_TYPE_INSPECTION == 0) registered =
    Some (mkHandler MESSAGE_TYPE_INSPECTION C_InspectionSubmission)) by (vm_compute; reflexivity).
  rewrite E. by intros [= <-].
Qed.
End inspection_demo.

Import bytes16 toy inspection_demo.

Lemma Inspection_Process_Message_outcome_witness : exists transports t o m' s',
  Inspection_Process_Message cnc_demo.sg entity_demo.cfg transports fetch inspect (uuid_demo.uuid 7) (Some (1, 2)) [] message (work t) = inr ((o, m'), s') /\
  processed inspect (uuid_demo.uuid 7) message o m' /\ ho_streams (ip_host s') = 0 /\ ip_sent s' = sent_by o.
Proof.
  destruct transfer_demo.file_registry as (p & Hp). destruct table as (t & Ht). exists p, t.
  destruct (Inspection_Process_Message_outcome cnc_demo.sg entity_demo.nts entity_demo.cfg p _ fetch 2 [] inspect (uuid_demo.uuid 7) (Some (1, 2))
    message (work t) cnc_demo.nugget_entries Hp fetch_ok eq_refl message_fits Ht) as (o & m' & s' & E & Hpr & _ & Hst & Hse).
  exists o, m', s'. split; [exact E|]. split; [exact Hpr|]. split; [exact Hst|exact Hse].
Defined.

Module inspector_demo.
Section Demo.
Variables (p : option handler_list) (tr : option transport_list).
Abbreviation steps_to := (rtc (istep cnc_demo.sg p registered entity_demo.cfg tr fetch inspect (uuid_demo.uuid 7) (Some (1, 2)) [])).

(** The run of [late_schedule]. *)
Lemma late w : exists t, steps_to (fresh_inspector w 1) t /\
  summary t = (S_done, [(Some (mkSettlement 1 1 false false), F_destroyed)], [(1%positive, 1)], []).
Proof.
  destruct (late_run cnc_demo.sg p entity_demo.cfg tr fetch inspect (uuid_demo.uuid 7) (Some (1, 2)) [] w) as (Hc & t & E & Hs).
  exists t. split; [|exact Hs]. etrans; [|exact (turns_steps _ _ registered _ _ _ _ _ _ _ _ _ _ Hc E)]. unfold late_inspector.
  refine (arrives_step _ _ _ _ _ _ _ _ _ _ (fresh_inspector w 1) [] [queue_demo.delivery 1] (demo_tame registered [] 1 _) eq_refl _).
  by repeat constructor.
Qed.

(** A delivery is at hand. *)
Lemma waiting w : steps_to (fresh_inspector w 1) (late_inspector w).
Proof.
  refine (arrives_step _ _ _ _ _ _ _ _ _ _ (fresh_inspector w 1) [] [queue_demo.delivery 1] (demo_tame registered [] 1 _) eq_refl _).
  by repeat constructor.
Qed.
End Demo.
End inspector_demo.


Lemma Inspection_conserves_witness : exists p tr t s, handlers p registered /\
  rtc (istep cnc_demo.sg p registered entity_demo.cfg tr fetch inspect (uuid_demo.uuid 7) (Some (1, 2)) []) (fresh_inspector (work t) 1) s /\
  in_shutdown s = S_done /\ ip_sent (in_work s) = concat ((fun x => sent_by x.2) <$> hi_worked (in_history s)).
Proof.
  destruct Message_Init_run as (p & _ & Hp). destruct transfer_demo.file_registry as (tr & Htr). destruct table as (t & Ht).
  destruct (inspector_demo.late p tr (work t)) as (s & Hr & Hs).
  destruct (Inspection_conserves cnc_demo.sg p registered entity_demo.nts entity_demo.cfg tr fetch 2 inspect (uuid_demo.uuid 7) (Some (1, 2)) []
    json_demo.types _ json_demo.types_entries cnc_demo.nugget_entries Hp registered_inspects Htr (FetchSafe0 := fetch_ok) eq_refl
    (fresh_inspector (work t) 1) s (fresh_launched entity_demo.nts 2 (work t) 1 Ht) Hr) as (ps & cs & _ & _ & _ & Hse & _).
  exists p, tr, t, s. split; [exact Hp|]. split; [exact Hr|]. split; [|exact Hse].
  exact (f_equal (fun x => x.1.1.1) Hs).
Defined.


Lemma Inspection_Shutdown_strands_witness : exists t t0 s, launched entity_demo.nts 2 t0 /\ in_work t0 = work t /\
  rtc (istep cnc_demo.sg None [] entity_demo.cfg None no_fetch inspect (uuid_demo.uuid 7) (Some (1, 2)) []) t0 s /\
  summary s = (S_done, [(Some (mkSettlement 1 1 false false), F_destroyed)], [(1%positive, 1)], []).
Proof.
  destruct table as (t & Ht). exists t.
  exact (Inspection_Shutdown_strands cnc_demo.sg None [] entity_demo.nts entity_demo.cfg None no_fetch 2 inspect (uuid_demo.uuid 7) (Some (1, 2)) [] (work t) Ht).
Defined.
