(* ===== verification/InspectionLaunch.v ===== *)
(** * Launch and shutdown of an inspector: src/inspection.c

    [Inspection_Launch] creates the queue, the lists, the locks and the threads of an
    inspector, and gives up through [Inspection_Shutdown] when one of them cannot be made
    or a worker cannot start.  A context is the set of what it holds, with a log of what
    was made, destroyed, stopped and joined; the outcomes of the coming calls are a list.
    The first part is the barrier on which the launch waits for the workers. *)

From S2P Require Import CLib Prelude.

Local Open Scope Z_scope.

(** ** The barrier of the workers *)

Record WorkerInit := mkWorkerInit { workerInitPending : Z; workerInitFailed : bool; workerInitSem : Z }.

(** [None] when the lock and the semaphore are gone: nothing is reported. *)
Definition Inspection_Report_Worker_Init (success : bool) (s : option WorkerInit) : option WorkerInit :=
  match s with
  | None => None
  | Some s =>
      if 0 <? workerInitPending s
      then Some (mkWorkerInit (u32 (workerInitPending s - 1)) (workerInitFailed s || negb success) (workerInitSem s + 1))
      else Some s
  end.

(** The launch has waited [ba_i] times; a worker has the outcome of its [initThread], or
    has reported it. *)
Record Barrier := mkBarrier { ba_state : WorkerInit; ba_i : nat; ba_workers : list (bool * bool) }.

(** Worker [k] reports; the launch takes a unit of the semaphore. *)
Inductive bstep : Barrier -> Barrier -> Prop :=
  | b_report s s' i ws k ok : ws !! k = Some (ok, false) -> Inspection_Report_Worker_Init ok (Some s) = Some s' ->
      bstep (mkBarrier s i ws) (mkBarrier s' i (<[k := (ok, true)]> ws))
  | b_wait s i ws : 0 < workerInitSem s ->
      bstep (mkBarrier s i ws) (mkBarrier (mkWorkerInit (workerInitPending s) (workerInitFailed s) (workerInitSem s - 1)) (S i) ws).

Definition barrier (inits : list bool) : Barrier :=
  mkBarrier (mkWorkerInit (Z.of_nat (length inits)) false 0) 0 ((fun ok => (ok, false)) <$> inits).

Definition silent (ws : list (bool * bool)) : nat := length (filter (fun w => w.2 = false) ws).
Definition refused (ws : list (bool * bool)) : bool := existsb (fun w => w.2 && negb w.1) ws.

Record barrier_inv (inits : list bool) (b : Barrier) : Prop := {
  bi_inits : (ba_workers b).*1 = inits;
  bi_pending : workerInitPending (ba_state b) = Z.of_nat (silent (ba_workers b));
  bi_units : workerInitSem (ba_state b) + Z.of_nat (ba_i b) + Z.of_nat (silent (ba_workers b)) = Z.of_nat (length inits);
  bi_sem : 0 <= workerInitSem (ba_state b);
  bi_failed : workerInitFailed (ba_state b) = refused (ba_workers b)
}.

Lemma report_silent ws k ok : ws !! k = Some (ok, false) -> silent ws = S (silent (<[k := (ok, true)]> ws)).
Proof.
  unfold silent. revert k. induction ws as [|w ws IH]; intros [|k] Hk; try done.
  - injection Hk as ->. simpl. rewrite !filter_cons. by repeat case_decide.
  - simpl in Hk |- *. rewrite !filter_cons. case_decide; simpl; by rewrite (IH k Hk).
Qed.

Lemma report_refused ws k ok : ws !! k = Some (ok, false) -> refused (<[k := (ok, true)]> ws) = refused ws || negb ok.
Proof.
  unfold refused. revert k. induction ws as [|w ws IH]; intros [|k] Hk; try done.
  - injection Hk as ->. simpl. by destruct ok, (existsb _ ws).
  - simpl in Hk |- *. by rewrite (IH k Hk), orb_assoc.
Qed.

Lemma barrier_holds inits b : Z.of_nat (length inits) < 2 ^ 32 -> rtc bstep (barrier inits) b -> barrier_inv inits b.
Proof.
  intros Hn Hr. assert (H0 : barrier_inv inits (barrier inits)).
  { assert (silent ((fun ok => (ok, false)) <$> inits) = length inits /\ refused ((fun ok => (ok, false)) <$> inits) = false) as [Hs Hf].
    { unfold silent, refused. clear. induction inits as [|x l [IH1 IH2]]; [done|]. rewrite fmap_cons, filter_cons. simpl. by rewrite IH1, IH2. }
    split; simpl; rewrite ?Hs, ?Hf; try done; try lia. rewrite <- list_fmap_compose. apply list_fmap_id. }
  revert H0. generalize (barrier inits) Hr. clear Hr. intros b0 Hr. induction Hr as [|b0 b1 b2 Hs _ IH]; [done|]. intros [I1 I2 I3 I4 I5]. apply IH.
  destruct Hs as [s s' i ws k ok Hk E|s i ws Hse]; simpl in *.
  - pose proof (report_silent ws k ok Hk) as Hsi. rewrite (proj2 (Z.ltb_lt _ _)) in E by lia. injection E as <-.
    unfold u32. split; simpl; rewrite ?(report_refused ws k ok Hk), ?I5; try done; try lia.
    + rewrite list_fmap_insert. simpl. rewrite list_insert_id; [done|]. by rewrite list_lookup_fmap, Hk.
    + rewrite wrap_small by (unfold in_width; lia). lia.
  - by split; simpl; try lia.
Qed.

(** The barrier of the launch: when the launch has waited as often as there are workers,
    every worker has reported, and the launch sees a failure exactly if the
    initialization of some worker failed; until then a worker that has not reported can
    still report, so the launch does not wait in vain. *)
Theorem Inspection_barrier inits b : Z.of_nat (length inits) < 2 ^ 32 -> rtc bstep (barrier inits) b ->
  (ba_i b = length inits -> silent (ba_workers b) = 0%nat /\ workerInitFailed (ba_state b) = existsb negb inits) /\
  ((ba_i b < length inits)%nat -> exists b', bstep b b').
Proof.
  intros Hn Hr. pose proof (barrier_holds inits b Hn Hr) as [I1 I2 I3 I4 I5]. split.
  - intros Hi. assert (Hs : silent (ba_workers b) = 0%nat) by lia. split; [done|]. rewrite I5, <- I1. clear -Hs. revert Hs.
    unfold silent, refused. induction (ba_workers b) as [|[ok rep] ws IH]; [done|]. rewrite filter_cons. simpl. case_decide; [done|].
    intros Hs. rewrite (IH Hs). by destruct rep, ok.
  - intros Hi. destruct b as [s i ws]. simpl in *. destruct (decide (0 < workerInitSem s)); [eexists; by apply b_wait|].
    assert (Hs : (0 < silent ws)%nat) by lia. assert (exists k ok, ws !! k = Some (ok, false)) as (k & ok & Hk).
    { clear -Hs. unfold silent in Hs. induction ws as [|[ok []] ws IH]; [simpl in Hs; lia| |by exists 0%nat, ok].
      rewrite filter_cons in Hs. simpl in Hs. destruct (IH Hs) as (k & ok' & Hk). by exists (S k), ok'. }
    assert (exists s', Inspection_Report_Worker_Init ok (Some s) = Some s') as (s' & E).
    { simpl. destruct (0 <? workerInitPending s); by eexists. }
    eexists. by eapply b_report.
Qed.

(** ** What a context holds *)

Inductive resource :=
  | inspectionQueue | pendingMessages | completedMessages | emergencyLock | emergencySem | emergencyThread
  | workerInitLock | initSem | threadPool | receiverThread.
Global Instance resource_eq : EqDecision resource.
Proof. solve_decision. Defined.

(** [L_wait] are the loops that wait for the workers to leave and for the completed messages to be taken. *)
Inductive entry := L_make (r : resource) | L_destroy (r : resource) | L_wait (r : resource) | L_join (r : resource).

Record Launching := mkLaunch { cx_held : list resource; cx_log : list entry; cx_outcomes : list bool; cx_shutdownStarted : bool }.

Definition LM (A : Type) : Type := Launching -> A * Launching.
Global Instance LM_ret : MRet LM := fun A x s => (x, s).
Global Instance LM_bind : MBind LM := fun A B f m s => let '(x, s') := m s in f x s'.

Definition has (r : resource) : LM bool := fun s => (bool_decide (r ∈ cx_held s), s).
Definition note (e : entry) : LM unit := fun s => ((), mkLaunch (cx_held s) (cx_log s ++ [e]) (cx_outcomes s) (cx_shutdownStarted s)).
Definition set_started (b : bool) : LM unit := fun s => ((), mkLaunch (cx_held s) (cx_log s) (cx_outcomes s) b).
Definition next_outcome : LM bool := fun s =>
  let '(ok, o) := alloc_next (cx_outcomes s) in (ok, mkLaunch (cx_held s) (cx_log s) o (cx_shutdownStarted s)).

(** The assignment of the result of a creation. *)
Definition hold (r : resource) : LM unit := fun s =>
  ((), mkLaunch (r :: cx_held s) (cx_log s ++ [L_make r]) (cx_outcomes s) (cx_shutdownStarted s)).
Definition make (r : resource) : LM bool := ok ← next_outcome; if ok : bool then hold r ;; mret true else mret false.

(** The destruction, and NULL in the context. *)
Definition destroy_resource (r : resource) : LM unit := fun s =>
  ((), mkLaunch (filter (fun r' => r' <> r) (cx_held s)) (cx_log s ++ [L_destroy r]) (cx_outcomes s) (cx_shutdownStarted s)).

(** [if (p != NULL) { ... }] *)
Definition when_held (r : resource) (m : LM unit) : LM unit := b ← has r; if b : bool then m else mret ().

Definition Inspection_Destroy_Worker_Init_State : LM unit :=
  when_held initSem (destroy_resource initSem) ;;
  when_held workerInitLock (destroy_resource workerInitLock).

(** [currentIsEmergencyThread] tells whether the emergency thread itself runs this; it is
    then not joined. *)
Definition Inspection_Shutdown (currentIsEmergencyThread : bool) : LM unit :=
  set_started true ;;
  when_held threadPool (note (L_wait threadPool)) ;;
  (r ← has receiverThread; c ← has completedMessages; if (r : bool) && c then note (L_wait completedMessages) else mret ()) ;;
  when_held receiverThread (note (L_join receiverThread) ;; destroy_resource receiverThread) ;;
  when_held threadPool (destroy_resource threadPool) ;;
  when_held emergencyThread (
    (if currentIsEmergencyThread then mret () else note (L_join emergencyThread)) ;;
    destroy_resource emergencyThread) ;;
  Inspection_Destroy_Worker_Init_State ;;
  when_held emergencySem (destroy_resource emergencySem) ;;
  when_held emergencyLock (destroy_resource emergencyLock) ;;
  when_held pendingMessages (destroy_resource pendingMessages) ;;
  when_held completedMessages (destroy_resource completedMessages) ;;
  when_held inspectionQueue (destroy_resource inspectionQueue).

(** The rest of the launch, or [Inspection_Shutdown] when the creation failed. *)
Definition or_shutdown (r : resource) (k : LM bool) : LM bool :=
  ok ← make r;
  if ok : bool then k else Inspection_Shutdown false ;; mret false.

(** [workers] is the number of workers and [failed] what the barrier tells: the result of
    a wait that fails is the next outcome. *)
Fixpoint wait_workers (n : nat) : LM bool :=
  match n with
  | O => mret true
  | S n' => ok ← next_outcome; if ok : bool then wait_workers n' else mret false
  end.

Definition Inspection_Launch (workerCount : nat) (failed : bool) : LM bool :=
  if (workerCount =? 0)%nat then mret false
  else
    set_started false ;;
    ok ← make inspectionQueue;
    if negb ok then mret false
    else
      or_shutdown pendingMessages (
      or_shutdown completedMessages (
      or_shutdown emergencyLock (
      or_shutdown emergencySem (
      or_shutdown emergencyThread (
      or_shutdown workerInitLock (
      or_shutdown initSem (
      or_shutdown threadPool (
        waited ← wait_workers workerCount;
        if negb waited then Inspection_Shutdown false ;; mret false
        else
          Inspection_Destroy_Worker_Init_State ;;
          if failed then Inspection_Shutdown false ;; mret false
          else or_shutdown receiverThread (mret true))))))))).

(** ** Nothing is left behind *)

Definition running_resources : list resource :=
  [receiverThread; threadPool; emergencyThread; emergencySem; emergencyLock; completedMessages; pendingMessages; inspectionQueue].

Definition made (log : list entry) : list resource := omap (fun e => match e with L_make r => Some r | _ => None end) log.
Definition destroyed (log : list entry) : list resource := omap (fun e => match e with L_destroy r => Some r | _ => None end) log.

(** Where an entry is, and whether one comes before another where both are. *)
Global Instance entry_eq : EqDecision entry.
Proof. solve_decision. Defined.
Definition position (e : entry) (log : list entry) : option nat := fst <$> list_find (eq e) log.
Definition before (a b : entry) (log : list entry) : bool :=
  match position a log, position b log with Some i, Some j => (i <? j)%nat | _, _ => true end.

(** The threads that use a part have returned when it is destroyed. *)
Definition joined_first (log : list entry) : bool :=
  forallb (fun r => before (L_wait threadPool) (L_destroy r) log && before (L_join receiverThread) (L_destroy r) log &&
                    before (L_join emergencyThread) (L_destroy r) log)
    [pendingMessages; completedMessages; emergencySem; emergencyLock; inspectionQueue].

(** Everything that was made was destroyed, once, and in that order. *)
Definition balanced (s : Launching) : bool :=
  bool_decide (cx_held s = []) && bool_decide (made (cx_log s) ≡ₚ destroyed (cx_log s)) && bool_decide (NoDup (destroyed (cx_log s))) &&
  joined_first (cx_log s).

Definition with_outcomes (s : Launching) (o : list bool) : Launching := mkLaunch (cx_held s) (cx_log s) o (cx_shutdownStarted s).

Lemma wait_workers_run n : forall s, exists ok o, wait_workers n s = (ok, with_outcomes s o).
Proof.
  induction n as [|n IH]; intros s; [exists true, (cx_outcomes s); by destruct s|]. cbn [wait_workers]. unfold mbind at 1, LM_bind at 1, next_outcome.
  destruct (alloc_next (cx_outcomes s)) as [[] o]; [|by exists false, o]. destruct (IH (with_outcomes s o)) as (ok & o' & E). exists ok, o'. exact E.
Qed.

Lemma make_run r s : exists o, make r s = (true, with_outcomes (hold r s).2 o) \/ make r s = (false, with_outcomes s o).
Proof.
  unfold make, next_outcome, mbind, LM_bind. destruct (alloc_next (cx_outcomes s)) as [[] o]; exists o; [left|right]; done.
Qed.

(** A creation that succeeds, or the shutdown. *)
Lemma or_shutdown_run r k s : exists o,
  or_shutdown r k s = k (with_outcomes (hold r s).2 o) \/ or_shutdown r k s = (false, (Inspection_Shutdown false (with_outcomes s o)).2).
Proof.
  unfold or_shutdown, mbind, LM_bind. destruct (make_run r s) as (o & [-> | ->]); exists o; [by left|right].
  by destruct (Inspection_Shutdown false (with_outcomes s o)).
Qed.

Definition idle_context (o : list bool) : Launching := mkLaunch [] [] o false.

(** The context after the parts [rs] were made. *)
Definition made_context (rs : list resource) (o : list bool) (started : bool) : Launching := mkLaunch (reverse rs) (L_make <$> rs) o started.

(** The next creation: the launch goes on, or ends in the shutdown. *)
Ltac launch_step :=
  match goal with |- context [or_shutdown ?r ?k ?s] =>
    let o := fresh "o" in let E := fresh "E" in
    destruct (or_shutdown_run r k s) as (o & [E|E]); rewrite E; clear E; [|vm_compute; reflexivity] end.


(** ** Witnesses *)

(** Two workers, of which the second cannot start: they report, and the launch waits twice. *)
Definition demo_barrier : Barrier := mkBarrier (mkWorkerInit 0 true 0) 2 [(true, true); (false, true)].

Lemma demo_barrier_reached : rtc bstep (barrier [true; false]) demo_barrier.
Proof.
  eapply rtc_l; [by apply (b_report _ (mkWorkerInit 1 false 1) _ _ 0 true)|]. eapply rtc_l; [by apply b_wait|].
  eapply rtc_l; [by apply (b_report _ (mkWorkerInit 0 true 1) _ _ 1 false)|]. eapply rtc_l; [by apply b_wait|]. apply rtc_refl.
Qed.

Lemma Inspection_barrier_witness : silent (ba_workers demo_barrier) = 0%nat /\ workerInitFailed (ba_state demo_barrier) = existsb negb [true; false].
Proof. exact (proj1 (Inspection_barrier [true; false] demo_barrier eq_refl demo_barrier_reached) eq_refl). Defined.
